(* ===== verification/_CoqProject ===== *)
-Q . S2P
Prelude.v
QuicVarint.v
QuicFrame.v
QuicAck.v
QuicOOO.v
BodyBudget.v
QuicStream.v
QuicReassembly.v
QuicRecv.v
QuicSendSide.v
QuicLoss.v
QuicLossProofs.v
Utils.v
HpackInt.v
Huffman.v
HuffmanProofs.v
HpackTable.v
HpackDyn.v
Hpack.v
HpackProofs.v
HpackRoundtrip.v
H1Scan.v
HttpText.v
Router.v
RouterTrie.v
RouterFind.v
RouterBuild.v
RouterServe.v
WsInflate.v
WebSocket.v
WebSocketProofs.v
WebSocketServe.v
H2Frame.v
H2Conn.v
H2Flow.v
H2Serve.v
H2Body.v
H2Delivery.v
Chunked.v
ChunkedProofs.v
ChunkedRoundtrip.v
HpackRequest.v
HpackRequestProofs.v
HpackMemo.v
HpackValid.v
H2Decoder.v
H1Head.v
H1HeadProofs.v
H1Root.v
H1RootProofs.v
H1RootIndex.v
H1Resp.v
H1RespProofs.v
H1Conn.v
H1ConnFraming.v
H1ConnProofs.v
H2Enc.v
H2EncTable.v
H2EncProofs.v
RateLimit.v
RateLimitProofs.v
Qpack.v
QpackProofs.v
H3.v
H3Peers.v
H3Resp.v
H3Requests.v
QuicPacket.v
QuicPacketProofs.v
ServeContent.v
ServeContentProofs.v
FileSend.v
FileSendProofs.v
FpH1.v
FpH1Proofs.v
FpH1Responses.v
