(* ===== verification/Prelude.v ===== *)
(** * A verification of the protocol core of alos-http

    alos-http (src/core) is an HTTP server library in Go that speaks HTTP/1.1,
    HTTP/2 and HTTP/3 over its own event loop, TLS stack and QUIC transport.
    This development models the parts that carry its protocol logic: code that
    reads bytes from the network, keeps per-connection state and must be right
    on every input.

    ** The program's parts and the files that model them

    QUIC transport (quic_*.go). A connection receives packets, parses their
    frames, hands stream data to streams, acknowledges packet numbers and
    keeps what it sent until it is acknowledged or lost.
    - QuicVarint: the variable-length integers of quic_varint.go
      ([quicAppendVarint], [quicPutVarint], [quicParseVarint]).
    - QuicFrame: the frames of quic_frame.go (and the path and connection-id
      frames of quic_path.go, quic_cid.go): one record per frame struct, the
      appenders, the cursor parser and the loop of [quicParseFrames] with its
      visitor, whose callbacks are collected in the order they are made.
    - QuicAck: the duplicate filter [recordRecvPN] and the ACK frame built
      from its ranges (quic_ack.go).
    - QuicOOO: the chunked list of out-of-order segments (quic_ooo_list.go)
      with its two-level binary search, refined to a plain list.
    - BodyBudget: the server-wide and per-connection budget of buffered body
      bytes (server.go), sequentially and as interleaved steps of goroutines
      on the shared atomic counter.
    - QuicStream: both sides of a stream (quic_stream.go): [recvSide] and
      [sendSide] are the fields of [QUICStream] each side owns, one definition
      per method, with the accounting against the budget.
    - QuicReassembly, QuicRecv, QuicSendSide: the proofs about streams.
    - QuicLoss, QuicLossProofs: sent-packet tracking, RTT estimation, loss
      detection, probe timeouts and the congestion window (quic_loss.go).
    - QuicPacket: long and short headers, packet numbers, protection of packets
      and headers, coalesced datagrams and the update of keys (quic_packet.go,
      quic_crypto.go and the key phases of quic_conn.go). The AEAD and the
      header mask are fields of [quicKeys]; [keys_ok] says what is assumed of
      them. QuicPacketProofs: the proofs.

    Shared helpers.
    - Utils: case folding and the decimal and hexadecimal readers and writers
      of utils.go.
    - HttpText: the request-path sanitizer and the word-at-a-time checks for
      line breaks, control bytes and host characters (utils.go).

    HTTP/2 header compression (hpack.go).
    - HpackInt: prefixed integers. Huffman, HuffmanProofs: the Huffman coder,
      its code table and the decode tables built from it at start-up.
    - HpackTable: the static table and its two name lookups.
    - HpackDyn: the dynamic table, a ring buffer that starts inline and grows.
    - Hpack: the encoder with its process-wide cache of encoded fields and the
      decoder with its cache of Huffman strings. HpackProofs and
      HpackRoundtrip: the proofs about both. The class [StringWriter] is the
      contract between the string writers and the field writers.
    - HpackRequest: requests out of header blocks: the checks on fields
      ([observeHeader], [validate]), the loop with its short cut for simple GET
      requests, the limit on the header list, the memo of the last block, the
      metadata-only decoder, and trailers. HpackRequestProofs, HpackMemo: the
      decoder against a plain one over a connection. HpackValid: what an accepted
      request satisfies.

    HTTP/2 connections (h2_frame.go, h2_shared.go, h2_stream.go and the
    epoll_h2_*.go files, request_body_stream.go).
    - H2Frame: the frame writers and the reader, and the splitting of a long
      header block into CONTINUATION frames in place.
    - H2Conn: a connection of the event loop without TLS. [h2conn] is
      [epollConn] with its [tlsWorkerH2State]; a stream carries the place it is
      in ([st.streams], the busy list, [st.sending], its writer); what is
      written is the list of its frames. [h2Step] is one event: a frame, a
      handler's result, a streamed write, a pump, a read of a body, the socket,
      the shutdown. [epollProcessH2Frames] is the loop over bytes.
    - H2Flow: sending within the peer's windows. H2Serve: receive windows,
      requests and the order of header blocks. H2Decoder: the same with the HPACK
      decoder of HpackRequest, which is an instance of the class [TableDecoder].
      H2Body: a turn of the sender and the byte loop. H2Delivery: the frames of one
      stream among all that a connection writes.
    - H2Enc: the heads of responses: the encoder's dynamic table
      (h2_enctable.go), the choice of a representation (h2_headers.go), the memo
      of the last head (h2_headmemo.go) and the root response. H2EncTable,
      H2EncProofs: a peer that decodes them.

    HTTP/3 (qpack.go, h3_frame.go, h3_request.go, h3_conn.go,
    h3_peer_streams.go).
    - Qpack: the encoder and decoder of header blocks without a dynamic table,
      and the heads of responses with the cache of their first fields.
      QpackProofs: what each writer writes, read back.
    - H3: frames, the sections of a request with the cache of decoded blocks, a
      request stream from its bytes to the hand-over ([handleRequestStream],
      whose result is an [h3Outcome]), responses ([h3WriteResponse]), and the
      unidirectional streams of both sides. H3Requests, H3Resp, H3Peers: the
      proofs about each.

    HTTP/1 requests and framing.
    - H1Scan: the scans of a header line (h1scan.go): eight bytes at a time,
      and byte by byte for short lines.
    - H1Head: the parser of request heads ([parseH1RequestHead] of h1_plain.go,
      h1_reject.go) and the headers a request remembers ([Header] of
      request.go). H1HeadProofs: the parser against the lines of a head.
    - H1Root: the short cut for "GET /" ([matchPlainRootFastRequest] of
      h1_plain.go, indexcrlf_amd64.go, the bit sets of h1scan.go).
      H1RootProofs, H1RootIndex: the short cut against the parser.
    - H1Resp: the response object (response.go) and its bytes: buffered
      responses (h1.go, [appendPlainResponseMode] of h1_plain.go), the heads of
      streamed ones (stream.go). H1RespProofs: a client that reads them.
    - H1Conn: a plain-text connection of the event loop (epoll_h1_*.go with the
      reading, flushing and closing of epoll_backend_linux_amd64.go): [h1conn] is
      [epollConn], [h1Event_step] one event: a read, a handler's result, the end
      of a long response, a read of a streamed body, a flush, a timeout.
      H1ConnFraming: the framing of a string of bytes. H1ConnProofs: a
      connection against it.
    - Chunked: the incremental chunked decoder (chunked_decoder.go), trailers
      (trailers.go), the completeness scan (conn_shared.go), the buffered
      decoder (epoll_h1_linux_amd64.go) and the chunk writer (stream.go).
      ChunkedProofs and ChunkedRoundtrip: the proofs.

    Routing (router.go).
    - Router: the radix trie of a method, registration, the greedy search and
      the one with backtracking, the built form with its open-addressed index
      of static routes, implicit HEAD, 404/405 and groups. A handler is the
      term that built it (user handler, middleware around a handler, ...).
    - RouterTrie, RouterFind, RouterBuild: the proofs about a trie. RouterServe:
      the router of a server, all methods registered and built, and what it
      answers.

    Files (serve_content.go, sendfile.go, sendfile_linux.go,
    epoll_h1_sendfile_linux_amd64.go, epoll_h2_file_linux_amd64.go).
    - ServeContent: entity tags and conditional requests, byte ranges, the
      response to a request for a file ([serveContent]) and its bytes through a
      stream writer, sendfile(2) or a buffer. ServeContentProofs: the proofs.
    - FileSend: a file that the event loop sends while the handler waits
      ([h1FileStep], [h2FileStep] are one event). FileSendProofs: the proofs.

    Reverse proxy towards HTTP/1 backends (fp_h1.go, fp_linescan.go and the parts
    of fp_conn.go, fp_beloop.go that read, complete and close a connection).
    - FpH1: requests as bytes, the incremental parser of responses ([fpTurn] is
      a turn of [advance]), upgrades, and a backend connection with one exchange
      ([fpRead] is a read, [peerClosed] the close, [fpAttach] the next exchange
      on an idle connection). [fpEnv] holds the request, the limits and what
      the sink decides. FpH1Proofs: bytes that come in pieces. FpH1Responses:
      responses as a backend writes them.

    Limits (ratelimit.go, ratelimit_engine.go, ratelimit_middleware.go).
    - RateLimit: the token bucket, sequentially and as interleaved atomic
      operations, the bandwidth limiters built on it, and the limiter of
      requests with its packed words, rules and map of clients.
      RateLimitProofs: the rate, and the limiter against plain windows.

    WebSocket (websocket.go, epoll_ws_linux_amd64.go, wsmask_amd64.go,
    websocket_deflate.go).
    - WsInflate: the decompression loop with its output limit and its budget
      for restarts.
    - WebSocket: a connection driven by the event loop: [wsLoop] is the state
      of [wsLoopConn], [wsServe] the whole handler of a read. WebSocketProofs
      and WebSocketServe: the proofs.

    ** How the code is modelled

    A slice or string is the list of its bytes, each a [Z]; a position that
    only moves forward is the list of the bytes left. Integers are [Z] with
    the wrap-around of their width written where the code can reach it
    ([u8], [u16], [u32], [u64], [i64]); lengths and counters that stay far
    below 2^63 are plain. A method that changes its receiver returns the new
    state; an error result is [res], [option] or a boolean as in the code; an
    index out of range is [None] where no preceding check excludes it. Code
    under a mutex is one step. Functions of other packages are section
    variables: [xxh3.Hash] (nothing is assumed of it), [turbo.Now] (an
    argument), and the AVX2 assembly scans (assumed, where needed, to return
    what the portable scans return; for the block index, what the reference of
    h1block_amd64_test.go returns). A WebSocket connection takes them in the
    record [wsEnv]: the assembly mask and ASCII scan, the clock (its n-th
    reading), the inflater, with the class [EnvOk] for what is assumed of them.
    An HTTP/2 connection takes in [h2Env] the two header codecs, the clock, the
    order in which Go walks a map, free request slots, what the socket accepts,
    and what admission and routing decide; nothing is assumed of them. An
    HTTP/1 connection takes in [h1Env] the assembly scans (the class [H1EnvOk]
    says what is assumed of them), the limits, and what the socket, the shutdown
    and other connections do at each moment.

    Loops are structural where the code walks a slice. The others take fuel:
    a number of turns that is enough because every turn consumes a byte,
    removes an element or clears a bit; the theorems state that a result is
    returned, so none holds by running out of fuel.

    ** What the theorems show

    - Codecs invert each other: varints, QUIC frames, HPACK integers, Huffman
      strings, header blocks, numbers, chunked bodies, and the acknowledgement
      of packets from the receiver's ranges to the sender's table.
    - Parsers are total on arbitrary bytes, stay within the input and never
      wrap: varints, frames, HPACK integers and blocks, numbers, chunks.
    - Optimised code equals its reference: the segment list, its binary
      search, the ring buffer, both caches, the static-name switch, the
      word-at-a-time scan, the resumed scan of a body in pieces, the radix
      trie against the map of the registered patterns, the built router against
      the trie, and WebSocket frames cut into reads anywhere against the whole.
    - State machines keep their invariants over every sequence of operations:
      a stream delivers exactly the peer's bytes in order and its accounting
      is restored on release; sent bytes leave in order with FIN at the end;
      in-flight bytes and frames are conserved; no packet number is accepted
      twice; the body budget is never exceeded under any interleaving; a
      WebSocket peer cannot exceed a limit, and decompression ends (for limits a
      little below the largest int64, with which it panics).
    - An HTTP/2 connection, over every sequence of events: stays within the
      peer's windows and frame size (as long as the memoised root response has no
      body), always leaves the peer room of its own, keeps its header decoder where
      the peer's encoder is, hands every request over at most once and whole, and
      sends for every stream exactly the header block and the bytes of its
      response, unless the stream is reset; a turn stops only for a window, its
      share of the output or the socket.
    - An HTTP/1 head is accepted and served only if it has one meaning (one end,
      one host, one framing of the body), every valid head is accepted and read back as
      written, the verdict does not depend on how the bytes arrive, and the
      short cut for "GET /" never answers what the parser would not. A client
      reads exactly the response that was written (205 and framing fields set by
      the handler excepted), and no header value set by a handler adds a line. A
      connection, over every sequence of events, hands
      over exactly the requests its bytes are, however they arrive, and answers
      each once.
    - A peer that decodes the heads of HTTP/2 responses, over any sequence of
      responses, settings and new connections, reads the fields each should
      have, whatever the table, the memo and the caches hold, exactly when its
      table limit is not lowered and raised again between two blocks. The same for HTTP/3
      responses as whole streams.
    - An HTTP/3 request reaches a handler exactly when its stream is well formed,
      independently of the cache of decoded blocks; the peer's control streams
      are read the same however they are cut.
    - A datagram of QUIC packets is read back as the packets that were sealed,
      and through updates of keys every packet of the current, the next and (until
      it is retired) the last epoch is opened.
    - A client gets exactly the bytes of the range it asked for, of one version of
      the file, whatever the file, the kernel and the loop do, or an error; the
      conditions of a request are decided as RFC 9110 orders them.
    - A response of a backend is the same however the network cuts it, has
      exactly the fields and the body the backend wrote, in any framing, and a
      connection is used again only when nothing of it is left.
    - A token bucket grants no more than burst and rate allow under any
      interleaving; the request limiter answers as one that keeps a window per
      client and rule, whatever the clean-up removes (for clients that return
      within 2^24 windows, the width of the packed window).
    - A built router answers with the handler of a route that serves the path, or
      refuses; which routes it can miss is stated.
    - Where the code leaves the protocol or its documentation, a theorem shows
      it on a concrete run ([h2_divergences], [h2_limit_divergence],
      [router_divergences],
      [hpack_request_divergences], [h1_head_divergences],
      [h1_response_divergences], [h1_close_divergence]).

    ** Not modelled

    Sockets, epoll, timers, buffer pools and goroutine scheduling (pure I/O
    and memory reuse); TLS and packet protection (cryptography); generated
    and assembly code; configuration, logging and metrics. Sealed
    bodies, the search for static files, multipart bodies, and the balancing, the
    cache and the HTTP/2 backends of the proxy have logic of their own and would
    come next, in that order. *)
From stdpp Require Import base list list_numbers numbers option sorting.
From Stdlib Require Import ZArith Lia ZifyBool.

Open Scope Z_scope.

Declare Scope go_scope.
Delimit Scope go_scope with go.

(** * Machine integers *)

(** [u8], [u16], [u32] and [u64] are Go's conversions to an unsigned width;
    [i64] is the two's complement reading of the low 64 bits (Go's [int] and
    [int64] on amd64). *)
Definition u8 (z : Z) : Z := z mod 2 ^ 8.
Definition u16 (z : Z) : Z := z mod 2 ^ 16.
Definition u32 (z : Z) : Z := z mod 2 ^ 32.
Definition u64 (z : Z) : Z := z mod 2 ^ 64.
Definition i64 (z : Z) : Z := (z + 2 ^ 63) mod 2 ^ 64 - 2 ^ 63.

Definition is_u8 (z : Z) : Prop := 0 <= z < 2 ^ 8.
Definition is_u64 (z : Z) : Prop := 0 <= z < 2 ^ 64.
Definition is_i64 (z : Z) : Prop := - 2 ^ 63 <= z < 2 ^ 63.

(** A Go [[]byte] (or [string]) is the list of its bytes. *)
Abbreviation bytes := (list Z).
Definition bytes_ok (l : bytes) : Prop := Forall is_u8 l.

(** * Slices indexed by Go integers *)

Definition zlen {A} (l : list A) : Z := Z.of_nat (length l).
Definition ztake {A} (n : Z) (l : list A) : list A := take (Z.to_nat n) l.
Definition zdrop {A} (n : Z) (l : list A) : list A := drop (Z.to_nat n) l.
(** [l[i]]: [None] is the index-out-of-range panic. *)
Definition zget {A} (l : list A) (i : Z) : option A :=
  if (i <? 0) then None else l !! Z.to_nat i.
(** [l[i]] where the code has checked the index; the default is never read. *)
Definition znth (l : bytes) (i : Z) : Z := nth (Z.to_nat i) l 0.
(** [l[a:b]]. *)
Definition zslice {A} (l : list A) (a b : Z) : list A := ztake (b - a) (zdrop a l).

(** [binary.BigEndian.PutUintN] and [UintN] over [n] bytes. *)
Fixpoint be_bytes (n : nat) (v : Z) : bytes :=
  match n with
  | O => []
  | S k => u8 (Z.shiftr v (8 * Z.of_nat k)) :: be_bytes k v
  end.
Definition be_val (l : bytes) : Z := fold_left (fun acc b => Z.lor (Z.shiftl acc 8) b) l 0.

(** * Error results *)

Inductive res (E A : Type) : Type :=
| Ok (a : A)
| Err (e : E).
Arguments Ok {E A} a.
Arguments Err {E A} e.

Definition res_bind {E A B} (r : res E A) (f : A -> res E B) : res E B :=
  match r with Ok a => f a | Err e => Err e end.

Notation "'let!' x ':=' c 'in' k" := (res_bind c (fun x => k))
  (at level 10, x pattern, c at level 100, k at level 200) : go_scope.
Open Scope go_scope.

(** * Tactics and hint databases *)

Create HintDb golib discriminated.

(** Split on the scrutinee of the innermost [if]/[match] of the goal. *)
Ltac split_if :=
  match goal with
  | |- context [if ?b then _ else _] =>
      lazymatch b with context [if _ then _ else _] => fail | _ => destruct b eqn:? end
  end.
Ltac split_if_in H :=
  match type of H with
  | context [if ?b then _ else _] =>
      lazymatch b with context [if _ then _ else _] => fail | _ => destruct b eqn:? end
  end.
(** Turn the boolean tests of the code into arithmetic and finish with [lia]. *)
Ltac zbool := unfold is_u8, is_u64, is_i64, zlen in *; simplify_eq/=; lia.

(** * Arithmetic lemmas *)

Section Bits.

Lemma land_disjoint_zero (a b k : Z) : 0 <= k -> 0 <= b < 2 ^ k -> Z.land (a * 2 ^ k) b = 0.
Proof.
  intros Hk Hb. destruct (decide (b = 0)) as [-> | Hn]; [apply Z.land_0_r |].
  apply Z.bits_inj'. intros i Hi.
  rewrite Z.land_spec, Z.bits_0, <- Z.shiftl_mul_pow2 by lia.
  rewrite Z.shiftl_spec by lia.
  destruct (decide (i < k)).
  - by rewrite Z.testbit_neg_r by lia.
  - rewrite (Z.bits_above_log2 b i); [apply andb_false_r | lia |].
    assert (Z.log2 b < k) by (apply Z.log2_lt_pow2; lia). lia.
Qed.

(** [a|b] is [a+b] when the low [k] bits hold [b] and [a] leaves them clear. *)
Lemma lor_disjoint (a b k : Z) : 0 <= k -> 0 <= b < 2 ^ k -> Z.lor (a * 2 ^ k) b = a * 2 ^ k + b.
Proof.
  intros Hk Hb. pose proof (land_disjoint_zero a b k Hk Hb) as Hz.
  pose proof (Z.add_nocarry_lxor _ _ Hz). pose proof (Z.lxor_lor _ _ Hz). lia.
Qed.

Lemma land_ones_mod (a n : Z) : 0 <= n -> Z.land a (2 ^ n - 1) = a mod 2 ^ n.
Proof. intros. rewrite <- Z.land_ones by lia. by rewrite Z.ones_equiv. Qed.

(** A decidable fact about every byte is checked by evaluation. *)
Lemma byte_forall (P : Z -> bool) : forallb P (seqZ 0 256) = true -> forall b, is_u8 b -> P b = true.
Proof.
  intros H b Hb. rewrite forallb_forall in H. apply H, list_elem_of_In, elem_of_seqZ.
  unfold is_u8 in Hb. lia.
Qed.

Lemma u8_range (z : Z) : is_u8 (u8 z).
Proof. unfold is_u8, u8. apply Z.mod_pos_bound. lia. Qed.
Lemma u64_range (z : Z) : is_u64 (u64 z).
Proof. unfold is_u64, u64. apply Z.mod_pos_bound. lia. Qed.
Lemma u8_small (z : Z) : 0 <= z < 256 -> u8 z = z.
Proof. intros. unfold u8. apply Z.mod_small. lia. Qed.
Lemma u64_small (z : Z) : 0 <= z < 2 ^ 64 -> u64 z = z.
Proof. intros. unfold u64. apply Z.mod_small. lia. Qed.
Lemma i64_small (z : Z) : - 2 ^ 63 <= z < 2 ^ 63 -> i64 z = z.
Proof. intros. unfold i64. rewrite Z.mod_small; lia. Qed.

End Bits.

Lemma length_be_bytes (n : nat) (v : Z) : length (be_bytes n v) = n.
Proof. induction n; simpl; congruence. Qed.

Lemma be_bytes_ok (n : nat) (v : Z) : bytes_ok (be_bytes n v).
Proof. induction n; simpl; constructor; [apply u8_range | done]. Qed.

Lemma be_fold_bytes (n : nat) (v acc : Z) :
  fold_left (fun acc b => Z.lor (Z.shiftl acc 8) b) (be_bytes n v) acc
  = acc * 2 ^ (8 * Z.of_nat n) + v mod 2 ^ (8 * Z.of_nat n).
Proof.
  revert acc. induction n as [|n IH]; intros acc.
  { change (8 * Z.of_nat 0) with 0. rewrite Z.pow_0_r, Z.mod_1_r. simpl. lia. }
  simpl be_bytes. simpl fold_left. rewrite IH.
  pose proof (u8_range (Z.shiftr v (8 * Z.of_nat n))) as Hr. unfold is_u8 in Hr.
  rewrite Z.shiftl_mul_pow2, lor_disjoint by lia.
  unfold u8. rewrite Z.shiftr_div_pow2 by lia.
  replace (8 * Z.of_nat (S n)) with (8 * Z.of_nat n + 8) by lia.
  rewrite Z.pow_add_r by lia.
  rewrite (Z.rem_mul_r v (2 ^ (8 * Z.of_nat n)) (2 ^ 8)) by lia.
  ring.
Qed.

(** Big-endian encoding keeps the value modulo the width. *)
Lemma be_val_bytes (n : nat) (v : Z) : be_val (be_bytes n v) = v mod 2 ^ (8 * Z.of_nat n).
Proof. unfold be_val. rewrite be_fold_bytes. lia. Qed.

(** * Slice lemmas *)

Lemma zlen_nonneg {A} (l : list A) : 0 <= zlen l.
Proof. unfold zlen. lia. Qed.
Lemma zlen_app {A} (l k : list A) : zlen (l ++ k) = zlen l + zlen k.
Proof. unfold zlen. rewrite length_app. lia. Qed.
Lemma zlen_nil {A} : zlen (@nil A) = 0.
Proof. done. Qed.
Lemma zlen_cons {A} (x : A) l : zlen (x :: l) = 1 + zlen l.
Proof. unfold zlen. simpl. lia. Qed.
Lemma zlen_snoc {A} (l : list A) x : zlen (l ++ [x]) = zlen l + 1.
Proof. unfold zlen. rewrite length_app. simpl. lia. Qed.
Lemma zlen_drop {A} n (l : list A) : 0 <= n <= zlen l -> zlen (zdrop n l) = zlen l - n.
Proof. unfold zlen, zdrop. intros. rewrite length_drop. lia. Qed.
Lemma zlen_take {A} n (l : list A) : 0 <= n <= zlen l -> zlen (ztake n l) = n.
Proof. unfold zlen, ztake. intros. rewrite length_take. lia. Qed.
Lemma ztake_zdrop {A} n (l : list A) : ztake n l ++ zdrop n l = l.
Proof. apply take_drop. Qed.
Lemma zdrop_app_exact {A} (l k : list A) : zdrop (zlen l) (l ++ k) = k.
Proof. unfold zdrop, zlen. rewrite Nat2Z.id. by rewrite drop_app_length. Qed.
Lemma ztake_app_exact {A} (l k : list A) : ztake (zlen l) (l ++ k) = l.
Proof. unfold ztake, zlen. rewrite Nat2Z.id. by rewrite take_app_length. Qed.
Lemma zdrop_zdrop {A} a b (l : list A) : 0 <= a -> 0 <= b -> zdrop a (zdrop b l) = zdrop (b + a) l.
Proof. unfold zdrop. intros. rewrite drop_drop. f_equal. lia. Qed.
Lemma zdrop_0 {A} (l : list A) : zdrop 0 l = l.
Proof. done. Qed.
Lemma zslice_mid {A} (a p rest : list A) : zslice (a ++ p ++ rest) (zlen a) (zlen a + zlen p) = p.
Proof.
  unfold zslice. rewrite zdrop_app_exact. replace (zlen a + zlen p - zlen a) with (zlen p) by lia. apply ztake_app_exact.
Qed.
Lemma zlen_slice {A} (d : list A) a b : 0 <= a <= b -> b <= zlen d -> zlen (zslice d a b) = b - a.
Proof. intros Ha Hb. unfold zslice. apply zlen_take. rewrite zlen_drop; lia. Qed.
Lemma zdrop_all {A} n (l : list A) : zlen l <= n -> zdrop n l = [].
Proof. unfold zlen, zdrop. intros. apply drop_ge. lia. Qed.
Lemma ztake_app_le {A} n (a b : list A) : n <= zlen a -> ztake n (a ++ b) = ztake n a.
Proof. unfold zlen, ztake. intros. apply take_app_le. lia. Qed.
Lemma znth_app a b i : 0 <= i < zlen a -> znth (a ++ b) i = znth a i.
Proof. intros H. unfold znth, zlen in *. apply app_nth1. lia. Qed.
Lemma zdrop_app_le {A} n (a b : list A) : 0 <= n <= zlen a -> zdrop n (a ++ b) = zdrop n a ++ b.
Proof. unfold zdrop, zlen. intros. apply drop_app_le. lia. Qed.

Create Rewrite HintDb golen.
#[export] Hint Rewrite @zlen_app @zlen_nil @zlen_cons @length_app : golen.
#[export] Hint Resolve u8_range u64_range be_bytes_ok zlen_nonneg : golib.
