(* ===== verification/QuicVarint.v ===== *)
(** QUIC variable-length integers (src/core/quic_varint.go): the append and
    put encoders, the parser, and the facts every QUIC codec builds on. *)
From stdpp Require Import base list numbers.
From Stdlib Require Import ZArith Lia ZifyBool.
From S2P Require Import Prelude.

(** ** Operations *)

Definition quicAppendVarint (dst : bytes) (v : Z) : bytes :=
  if v <? 64 then dst ++ [u8 v]
  else if v <? 16384 then dst ++ [u8 (Z.lor 0x40 (Z.shiftr v 8)); u8 v]
  else if v <? 1073741824 then
    dst ++ [u8 (Z.lor 0x80 (Z.shiftr v 24)); u8 (Z.shiftr v 16); u8 (Z.shiftr v 8); u8 v]
  else dst ++ be_bytes 8 (Z.lor 0xc000000000000000 v).

(** [quicPutVarint] writes over the front of [dst]; [None] is the panic of a
    buffer that is too short for the chosen form. *)
Definition put_front (dst enc : bytes) : option (bytes * Z) :=
  if zlen dst <? zlen enc then None else Some (enc ++ zdrop (zlen enc) dst, zlen enc).

Definition quicPutVarint (dst : bytes) (v : Z) : option (bytes * Z) :=
  if v <? 64 then put_front dst [u8 v]
  else if v <? 16384 then put_front dst (be_bytes 2 (u16 (Z.lor 0x4000 v)))
  else if v <? 1073741824 then put_front dst (be_bytes 4 (u32 (Z.lor 0x80000000 v)))
  else put_front dst (be_bytes 8 (Z.lor 0xc000000000000000 v)).

(** The second component is the number of bytes read, 0 for a short buffer. *)
Definition quicParseVarint (data : bytes) : Z * Z :=
  if zlen data =? 0 then (0, 0) else
  let prefix := Z.shiftr (znth data 0) 6 in
  let low := Z.land (znth data 0) 0x3f in
  if prefix =? 0 then (low, 1)
  else if prefix =? 1 then
    if zlen data <? 2 then (0, 0)
    else (Z.lor (Z.shiftl low 8) (znth data 1), 2)
  else if prefix =? 2 then
    if zlen data <? 4 then (0, 0)
    else (Z.lor (Z.lor (Z.lor (Z.shiftl low 24) (Z.shiftl (znth data 1) 16))
                  (Z.shiftl (znth data 2) 8)) (znth data 3), 4)
  else
    if zlen data <? 8 then (0, 0)
    else (Z.land (be_val (ztake 8 data)) 0x3fffffffffffffff, 8).

(** The size of the form the encoder picks. *)
Definition varint_len (v : Z) : Z :=
  if v <? 64 then 1 else if v <? 16384 then 2 else if v <? 1073741824 then 4 else 8.

(** ** Lemmas *)

Lemma quicAppendVarint_dst dst v : quicAppendVarint dst v = dst ++ quicAppendVarint [] v.
Proof. unfold quicAppendVarint. repeat split_if; done. Qed.

Lemma quicAppendVarint_len v : zlen (quicAppendVarint [] v) = varint_len v.
Proof. unfold quicAppendVarint, varint_len. repeat split_if; done. Qed.

Lemma quicAppendVarint_ok v : bytes_ok (quicAppendVarint [] v).
Proof.
  unfold quicAppendVarint, bytes_ok. repeat split_if; cbn [app];
    try apply be_bytes_ok; repeat constructor; apply u8_range.
Qed.

Lemma u8_of_shift v k : 0 <= k -> u8 (Z.shiftr v k) = (v / 2 ^ k) mod 256.
Proof. intros. unfold u8. by rewrite Z.shiftr_div_pow2. Qed.

Lemma be8_prefix v :
  is_u64 v -> be_val (be_bytes 8 (Z.lor 0xc000000000000000 v)) mod 2 ^ 62 = v mod 2 ^ 62.
Proof.
  intros Hv. rewrite be_val_bytes. change (8 * Z.of_nat 8) with 64.
  rewrite Z.mod_mod_divide by (exists 4; lia).
  rewrite <- !Z.land_ones by lia.
  apply Z.bits_inj'. intros i Hi. rewrite !Z.land_spec, Z.lor_spec.
  destruct (decide (i < 62)).
  - change 0xc000000000000000 with (3 * 2 ^ 62).
    by rewrite (Z.mul_pow2_bits_low 3 62 i).
  - rewrite Z.ones_spec_high by lia. by rewrite !andb_false_r.
Qed.

Lemma be8_first v : is_u64 v ->
  Z.shiftr (u8 (Z.shiftr (Z.lor 0xc000000000000000 v) 56)) 6 = 3.
Proof.
  intros [Hv0 Hv]. rewrite Z.shiftr_lor, (Z.shiftr_div_pow2 v) by lia.
  assert (Hw : is_u8 (v / 2 ^ 56))
    by (split; [apply Z.div_pos; lia | apply Z.div_lt_upper_bound; lia]).
  apply Z.eqb_eq.
  apply (byte_forall (fun w => Z.shiftr (u8 (Z.lor (Z.shiftr 0xc000000000000000 56) w)) 6 =? 3));
    [vm_compute; reflexivity | exact Hw].
Qed.

(** The two fields of a first byte, checked for all 256 values. *)
Lemma first_byte b : is_u8 b -> Z.shiftr b 6 = b / 64 /\ Z.land b 0x3f = b mod 64.
Proof.
  intros Hb. apply (byte_forall (fun b => (Z.shiftr b 6 =? b / 64) && (Z.land b 0x3f =? b mod 64))) in Hb;
    [lia | vm_compute; reflexivity].
Qed.

(** The parser read as arithmetic, one lemma per form. *)
Lemma parse_1 b0 rest : 0 <= b0 < 64 -> quicParseVarint (b0 :: rest) = (b0, 1).
Proof.
  intros Hb. destruct (first_byte b0) as [H6 Hl]; [unfold is_u8; lia |].
  unfold quicParseVarint. rewrite zlen_cons. pose proof (zlen_nonneg rest).
  replace (1 + zlen rest =? 0) with false by lia.
  change (znth (b0 :: rest) 0) with b0. cbv zeta. rewrite H6, Hl.
  rewrite Z.div_small, Z.mod_small by lia. done.
Qed.

Lemma parse_2 b0 b1 rest : 64 <= b0 < 128 -> is_u8 b1 ->
  quicParseVarint (b0 :: b1 :: rest) = ((b0 - 64) * 2 ^ 8 + b1, 2).
Proof.
  intros Hb Hb1. destruct (first_byte b0) as [H6 Hl]; [unfold is_u8; lia |].
  unfold quicParseVarint. rewrite !zlen_cons. pose proof (zlen_nonneg rest).
  replace (1 + (1 + zlen rest) =? 0) with false by lia.
  replace (1 + (1 + zlen rest) <? 2) with false by lia.
  change (znth (b0 :: b1 :: rest) 0) with b0. change (znth (b0 :: b1 :: rest) 1) with b1.
  cbv zeta. rewrite H6, Hl.
  replace (b0 / 64) with 1 by (apply (Z.div_unique _ _ _ (b0 - 64)); lia).
  replace (b0 mod 64) with (b0 - 64) by (apply (Z.mod_unique _ _ 1); lia).
  cbn [Z.eqb Pos.eqb]. rewrite Z.shiftl_mul_pow2, lor_disjoint by (unfold is_u8 in *; lia). done.
Qed.

Lemma parse_4 b0 b1 b2 b3 rest : 128 <= b0 < 192 -> is_u8 b1 -> is_u8 b2 -> is_u8 b3 ->
  quicParseVarint (b0 :: b1 :: b2 :: b3 :: rest)
  = ((((b0 - 128) * 2 ^ 8 + b1) * 2 ^ 8 + b2) * 2 ^ 8 + b3, 4).
Proof.
  intros Hb Hb1 Hb2 Hb3. destruct (first_byte b0) as [H6 Hl]; [unfold is_u8; lia |].
  unfold quicParseVarint. rewrite !zlen_cons. pose proof (zlen_nonneg rest).
  set (n := 1 + _). replace (n =? 0) with false by lia. replace (n <? 4) with false by lia.
  change (znth (b0 :: _) 0) with b0. change (znth (b0 :: b1 :: _) 1) with b1.
  change (znth (b0 :: b1 :: b2 :: _) 2) with b2. change (znth (b0 :: b1 :: b2 :: b3 :: _) 3) with b3.
  cbv zeta. rewrite H6, Hl. unfold is_u8 in *.
  replace (b0 / 64) with 2 by (apply (Z.div_unique _ _ _ (b0 - 128)); lia).
  replace (b0 mod 64) with (b0 - 128) by (apply (Z.mod_unique _ _ 2); lia).
  cbn [Z.eqb Pos.eqb]. rewrite !Z.shiftl_mul_pow2, lor_disjoint by lia.
  replace ((b0 - 128) * 2 ^ 24 + b1 * 2 ^ 16) with (((b0 - 128) * 2 ^ 8 + b1) * 2 ^ 16) by lia.
  rewrite lor_disjoint by lia.
  replace (((b0 - 128) * 2 ^ 8 + b1) * 2 ^ 16 + b2 * 2 ^ 8)
    with ((((b0 - 128) * 2 ^ 8 + b1) * 2 ^ 8 + b2) * 2 ^ 8) by lia.
  rewrite lor_disjoint by lia. done.
Qed.

Lemma parse_8 b0 l rest : 192 <= b0 < 256 -> length l = 7%nat ->
  quicParseVarint (b0 :: l ++ rest) = (be_val (b0 :: l) mod 2 ^ 62, 8).
Proof.
  intros Hb Hlen. destruct (first_byte b0) as [H6 Hl]; [unfold is_u8; lia |].
  unfold quicParseVarint. rewrite zlen_cons, zlen_app. pose proof (zlen_nonneg rest).
  assert (Hz : zlen l = 7) by (unfold zlen; lia). rewrite Hz.
  set (n := 1 + _). replace (n =? 0) with false by lia. replace (n <? 8) with false by lia.
  change (znth (b0 :: _) 0) with b0. cbv zeta. rewrite H6.
  replace (b0 / 64) with 3 by (apply (Z.div_unique _ _ _ (b0 - 192)); lia).
  cbn [Z.eqb Pos.eqb]. change 0x3fffffffffffffff with (2 ^ 62 - 1). rewrite land_ones_mod by lia.
  pose proof (ztake_app_exact (b0 :: l) rest) as Ht.
  rewrite zlen_cons, Hz in Ht. change (1 + 7) with 8 in Ht. simpl app in Ht. by rewrite Ht.
Qed.

Lemma parse_form2 v rest : 64 <= v < 16384 ->
  quicParseVarint ([u8 (Z.lor 0x40 (Z.shiftr v 8)); u8 v] ++ rest) = (v mod 2 ^ 62, 2).
Proof.
  intros Hv.
  assert (Hw : 0 <= v / 2 ^ 8 < 64) by (split; [apply Z.div_pos | apply Z.div_lt_upper_bound]; lia).
  rewrite Z.shiftr_div_pow2 by lia. change 0x40 with (1 * 2 ^ 6).
  rewrite lor_disjoint, u8_small by lia. cbn [app].
  rewrite parse_2 by (auto with golib; lia). rewrite (Z.mod_small v (2 ^ 62)) by lia.
  f_equal. unfold u8. pose proof (Z.div_mod v (2 ^ 8)). lia.
Qed.

Lemma parse_form4 v rest : 16384 <= v < 1073741824 ->
  quicParseVarint ([u8 (Z.lor 0x80 (Z.shiftr v 24)); u8 (Z.shiftr v 16); u8 (Z.shiftr v 8); u8 v] ++ rest)
  = (v mod 2 ^ 62, 4).
Proof.
  intros Hv.
  assert (Hw : 0 <= v / 2 ^ 24 < 64) by (split; [apply Z.div_pos | apply Z.div_lt_upper_bound]; lia).
  rewrite (Z.shiftr_div_pow2 v 24) by lia. change 0x80 with (2 * 2 ^ 6).
  rewrite lor_disjoint, (u8_small (_ + _)) by lia. cbn [app].
  rewrite parse_4 by (auto with golib; lia). rewrite (Z.mod_small v (2 ^ 62)) by lia. f_equal.
  rewrite !u8_of_shift by lia. unfold u8.
  change (2 ^ 24) with (2 ^ 8 * 2 ^ 8 * 2 ^ 8). change (2 ^ 16) with (2 ^ 8 * 2 ^ 8).
  rewrite <- !Z.div_div by lia. change (2 ^ 8) with 256.
  pose proof (Z.div_mod v 256). pose proof (Z.div_mod (v / 256) 256).
  pose proof (Z.div_mod (v / 256 / 256) 256). lia.
Qed.

Lemma parse_form8 v rest : 1073741824 <= v < 2 ^ 64 ->
  quicParseVarint (be_bytes 8 (Z.lor 0xc000000000000000 v) ++ rest) = (v mod 2 ^ 62, 8).
Proof.
  intros Hv. pose proof (be8_first v) as Hf. pose proof (be8_prefix v) as Hp.
  change (be_bytes 8 ?x) with (u8 (Z.shiftr x 56) :: be_bytes 7 x) in *.
  set (b0 := u8 _) in *. rewrite <- app_comm_cons, parse_8.
  - by rewrite Hp by (unfold is_u64; lia).
  - pose proof (u8_range (Z.shiftr (Z.lor 0xc000000000000000 v) 56)) as Hb. fold b0 in Hb.
    destruct (first_byte b0 Hb) as [H6 _]. unfold is_u8 in Hb.
    rewrite Hf in H6 by (unfold is_u64; lia). pose proof (Z.div_mod b0 64).
    pose proof (Z.mod_pos_bound b0 64). lia.
  - apply length_be_bytes.
Qed.

(** Parsing what was appended gives the value back modulo 2^62 (exactly, for
    every value QUIC allows) and the number of bytes written. *)
Lemma parse_append v rest : is_u64 v ->
  quicParseVarint (quicAppendVarint [] v ++ rest) = (v mod 2 ^ 62, varint_len v).
Proof.
  intros Hv. unfold is_u64 in Hv. unfold quicAppendVarint, varint_len. repeat split_if; cbn [app].
  - rewrite u8_small, parse_1, Z.mod_small by lia. done.
  - apply (parse_form2 v rest). lia.
  - apply (parse_form4 v rest). lia.
  - apply (parse_form8 v rest). lia.
Qed.

Lemma quicParseVarint_nil : quicParseVarint [] = (0, 0).
Proof. done. Qed.

(** A buffer shorter than its first byte announces is refused. *)
Lemma parse_refuse b0 l : is_u8 b0 ->
  (64 <= b0 < 128 /\ zlen l < 1 \/ 128 <= b0 < 192 /\ zlen l < 3 \/ 192 <= b0 /\ zlen l < 7) ->
  quicParseVarint (b0 :: l) = (0, 0).
Proof.
  intros Hb Hc. destruct (first_byte b0 Hb) as [H6 _]. unfold quicParseVarint. rewrite zlen_cons.
  pose proof (zlen_nonneg l). replace (1 + zlen l =? 0) with false by lia. cbv zeta.
  change (znth (b0 :: l) 0) with b0. rewrite H6. unfold is_u8 in Hb.
  pose proof (Z.div_mod b0 64). pose proof (Z.mod_pos_bound b0 64).
  repeat split_if; try done; lia.
Qed.

(** Inversion of a parse: the form read, and the bytes it was read from. *)
Lemma parse_inv data v n : bytes_ok data -> quicParseVarint data = (v, n) ->
  v = 0 /\ n = 0
  \/ exists enc rest, data = enc ++ rest /\ zlen enc = n /\ bytes_ok rest /\ 0 <= v < 2 ^ 62 /\
       (n = 1 \/ n = 2 \/ n = 4 \/ n = 8) /\ varint_len v <= n.
Proof.
  intros Hok Hp. destruct data as [|b0 l]; [inversion Hp; auto |].
  inversion Hok as [| ? ? Hb Hl]; subst. pose proof Hb as Hb'. unfold is_u8 in Hb'.
  assert (Hvl : forall w, 0 <= w -> varint_len w <= 8) by (intros; unfold varint_len; repeat split_if; lia).
  destruct (decide (b0 < 64)).
  { rewrite parse_1 in Hp by lia. inversion Hp; subst. right. exists [v], l.
    unfold varint_len. replace (v <? 64) with true by lia. repeat split; auto; lia. }
  destruct (decide (b0 < 128)).
  { destruct l as [|b1 l]; [rewrite parse_refuse in Hp by (done || (unfold zlen; simpl; lia)); inversion Hp; auto |].
    inversion Hl as [| ? ? Hb1 Hl1]; subst. rewrite parse_2 in Hp by (done || lia). inversion Hp; subst.
    right. exists [b0; b1], l. unfold is_u8 in *. unfold varint_len.
    repeat split; auto; try lia. repeat split_if; lia. }
  destruct (decide (b0 < 192)).
  { destruct l as [|b1 [|b2 [|b3 l]]];
      try (rewrite parse_refuse in Hp by (done || (unfold zlen; simpl; lia)); inversion Hp; auto; fail).
    unfold bytes_ok in Hl. decompose_Forall_hyps.
    rewrite parse_4 in Hp by (done || lia). inversion Hp; subst.
    right. exists [b0; b1; b2; b3], l. unfold is_u8 in *. unfold varint_len.
    repeat split; auto; try lia. repeat split_if; lia. }
  destruct (decide (zlen l < 7)); [rewrite parse_refuse in Hp by (done || lia); inversion Hp; auto |].
  pose proof (ztake_zdrop 7 l) as Ht. rewrite <- Ht in Hp.
  rewrite parse_8 in Hp by (lia || (pose proof (zlen_take 7 l); unfold zlen in *; lia)).
  inversion Hp; subst. right. exists (b0 :: ztake 7 l), (zdrop 7 l).
  rewrite <- app_comm_cons, Ht, zlen_cons, zlen_take by lia.
  pose proof (Z.mod_pos_bound (be_val (b0 :: ztake 7 l)) (2 ^ 62)).
  repeat split; auto; try lia; [by apply Forall_drop | apply Hvl; lia].
Qed.

(** [put] writes exactly what [append] appends. *)
Lemma put_append_enc v : is_u64 v -> forall dst, quicPutVarint dst v = put_front dst (quicAppendVarint [] v).
Proof.
  intros Hv dst. unfold is_u64 in Hv. unfold quicPutVarint, quicAppendVarint.
  repeat split_if; cbn [app]; try done; f_equal; unfold be_bytes, u16, u32.
  - change (8 * Z.of_nat 1) with 8. change (8 * Z.of_nat 0) with 0. rewrite Z.shiftr_0_r.
    assert (Hs : Z.lor 0x4000 v = 64 * 2 ^ 8 + v).
    { change 0x4000 with (1 * 2 ^ 14). rewrite lor_disjoint by lia. lia. }
    assert (Hw : 0 <= v / 2 ^ 8 < 64) by (split; [apply Z.div_pos | apply Z.div_lt_upper_bound]; lia).
    rewrite Hs, (Z.mod_small _ (2 ^ 16)), !Z.shiftr_div_pow2, Z.div_add_l by lia.
    change 0x40 with (1 * 2 ^ 6). rewrite lor_disjoint by lia. unfold u8.
    rewrite (Z.add_comm (64 * _)), Z.mod_add by lia. done.
  - change (8 * Z.of_nat 3) with 24. change (8 * Z.of_nat 2) with 16.
    change (8 * Z.of_nat 1) with 8. change (8 * Z.of_nat 0) with 0. rewrite Z.shiftr_0_r.
    assert (Hs : Z.lor 0x80000000 v = 128 * 2 ^ 24 + v).
    { change 0x80000000 with (2 * 2 ^ 30). rewrite lor_disjoint by lia. lia. }
    assert (Hw : 0 <= v / 2 ^ 24 < 64) by (split; [apply Z.div_pos | apply Z.div_lt_upper_bound]; lia).
    rewrite Hs, (Z.mod_small _ (2 ^ 32)), !Z.shiftr_div_pow2 by lia.
    replace (128 * 2 ^ 24 + v) with (v + 128 * 2 ^ 8 * 2 ^ 16) at 2 by lia.
    replace (128 * 2 ^ 24 + v) with (v + 128 * 2 ^ 16 * 2 ^ 8) at 2 3 by lia.
    rewrite Z.div_add_l, !Z.div_add by lia.
    change 0x80 with (2 * 2 ^ 6). rewrite lor_disjoint by lia. unfold u8.
    replace (128 * 2 ^ 8) with (128 * 2 ^ 0 * 2 ^ 8) by lia. rewrite !Z.mod_add by lia.
    change (2 * 2 ^ 6 * 2 ^ 16) with (2 ^ 15 * 2 ^ 8). by rewrite Z.mod_add by lia.
Qed.

(** ** Properties *)

(** Round trip of QUIC varints. For every 64-bit value the parser reads
    back what the encoder appended, whatever follows and whatever was in the
    buffer before: the value modulo 2^62 (so exactly the value, for the 62-bit
    values QUIC transmits) and as many bytes as the encoder wrote. *)
Theorem varint_roundtrip dst v rest : is_u64 v ->
  exists enc, quicAppendVarint dst v = dst ++ enc /\ bytes_ok enc /\
    quicParseVarint (enc ++ rest) = (v mod 2 ^ 62, zlen enc) /\
    (v < 2 ^ 62 -> v mod 2 ^ 62 = v).
Proof.
  intros Hv. exists (quicAppendVarint [] v). rewrite quicAppendVarint_len, parse_append by done.
  split; [apply quicAppendVarint_dst |]. split; [apply quicAppendVarint_ok |]. split; [done |].
  intros. apply Z.mod_small. unfold is_u64 in Hv. lia.
Qed.

Lemma varint_roundtrip_witness :
  exists enc, quicAppendVarint [7] 494878333 = [7] ++ enc /\ bytes_ok enc /\
    quicParseVarint (enc ++ [1; 2]) = (494878333 mod 2 ^ 62, zlen enc) /\
    (494878333 < 2 ^ 62 -> 494878333 mod 2 ^ 62 = 494878333).
Proof. apply (varint_roundtrip [7] 494878333 [1; 2]). unfold is_u64. lia. Defined.

(** The parser is safe on hostile input. On any bytes it either refuses
    (0 bytes read) or reads 1, 2, 4 or 8 bytes that are really there, yields a
    value below 2^62, and the encoder's form of that value is never longer
    than the form that was read. *)
Theorem varint_parse_bounds data v n : bytes_ok data -> quicParseVarint data = (v, n) ->
  v = 0 /\ n = 0 \/
  0 <= v < 2 ^ 62 /\ n <= zlen data /\ (n = 1 \/ n = 2 \/ n = 4 \/ n = 8) /\
  zlen (quicAppendVarint [] v) <= n.
Proof.
  intros Hok Hp. destruct (parse_inv _ _ _ Hok Hp) as [? | (e & r & -> & Hn & _ & Hv & Hf & Hl)];
    [by left | right].
  rewrite zlen_app, quicAppendVarint_len. pose proof (zlen_nonneg r). repeat split; lia.
Qed.

Lemma varint_parse_bounds_witness :
  0 = 0 /\ 2 = 0 \/
  0 <= 0 < 2 ^ 62 /\ 2 <= zlen [64; 0; 9] /\ (2 = 1 \/ 2 = 2 \/ 2 = 4 \/ 2 = 8) /\
  zlen (quicAppendVarint [] 0) <= 2.
Proof.
  apply (varint_parse_bounds [64; 0; 9] 0 2); [| vm_compute; reflexivity].
  repeat constructor; unfold is_u8; lia.
Defined.

(** [quicPutVarint] is equivalent to [quicAppendVarint]: given room it
    writes the same bytes over the front of the buffer, reports their number
    and leaves the rest of the buffer alone; without room it panics. *)
Theorem varint_put_equiv dst v : is_u64 v ->
  quicPutVarint dst v =
    let enc := quicAppendVarint [] v in
    if zlen dst <? zlen enc then None else Some (enc ++ zdrop (zlen enc) dst, zlen enc).
Proof. intros Hv. rewrite put_append_enc by done. done. Qed.

Lemma varint_put_equiv_witness :
  quicPutVarint [0; 0; 0] 15293 =
    let enc := quicAppendVarint [] 15293 in
    if zlen [0; 0; 0] <? zlen enc then None else Some (enc ++ zdrop (zlen enc) [0; 0; 0], zlen enc).
Proof. apply (varint_put_equiv [0; 0; 0] 15293). unfold is_u64. lia. Defined.
