(* ===== verification/QuicFrame.v ===== *)
(** QUIC frames (src/core/quic_frame.go, with the frame encoders of
    quic_path.go and quic_cid.go): the encoders, the cursor-based parser
    [quicFrameParser], and [quicParseFrames], which walks a decrypted payload
    and calls the visitor for each frame. *)
From stdpp Require Import base list numbers.
From Stdlib Require Import ZArith Lia ZifyBool.
From S2P Require Import Prelude QuicVarint.

(** ** Constants and frame records *)

Definition quicFramePadding : Z := 0x00.
Definition quicFramePing : Z := 0x01.
Definition quicFrameACK : Z := 0x02.
Definition quicFrameACKECN : Z := 0x03.
Definition quicFrameResetStream : Z := 0x04.
Definition quicFrameStopSending : Z := 0x05.
Definition quicFrameCrypto : Z := 0x06.
Definition quicFrameNewToken : Z := 0x07.
Definition quicFrameStream : Z := 0x08.
Definition quicFrameStreamEnd : Z := 0x0f.
Definition quicFrameMaxData : Z := 0x10.
Definition quicFrameMaxStreamData : Z := 0x11.
Definition quicFrameMaxStreamsBidi : Z := 0x12.
Definition quicFrameMaxStreamsUni : Z := 0x13.
Definition quicFrameDataBlocked : Z := 0x14.
Definition quicFrameStreamDataBlock : Z := 0x15.
Definition quicFrameStreamsBlockBidi : Z := 0x16.
Definition quicFrameStreamsBlockUni : Z := 0x17.
Definition quicFrameNewConnID : Z := 0x18.
Definition quicFrameRetireConnID : Z := 0x19.
Definition quicFramePathChallenge : Z := 0x1a.
Definition quicFramePathResponse : Z := 0x1b.
Definition quicFrameConnClose : Z := 0x1c.
Definition quicFrameAppClose : Z := 0x1d.
Definition quicFrameHandshakeDone : Z := 0x1e.
Definition quicStreamFlagOff : Z := 0x04.
Definition quicStreamFlagLen : Z := 0x02.
Definition quicStreamFlagFin : Z := 0x01.
Definition quicPathChallengeLen : Z := 8.

Record quicCryptoFrame := { cf_offset : Z; cf_data : bytes }.
Record quicStreamFrame := { sf_streamID : Z; sf_offset : Z; sf_data : bytes; sf_fin : bool }.
Record quicAckRange := { ar_gap : Z; ar_count : Z }.
Record quicAckFrame :=
  { af_largestAck : Z; af_ackDelay : Z; af_firstRange : Z; af_ranges : list quicAckRange }.
Record quicConnCloseFrame :=
  { cc_errorCode : Z; cc_frameType : Z; cc_reasonPhrase : bytes; cc_isApp : bool }.
Record quicMaxStreamDataFrame := { msd_streamID : Z; msd_maxStreamData : Z }.
Record quicMaxStreamsFrame := { ms_maxStreams : Z; ms_bidi : bool }.
Record quicResetStreamFrame := { rs_streamID : Z; rs_errorCode : Z; rs_finalSize : Z }.
Record quicStopSendingFrame := { ss_streamID : Z; ss_errorCode : Z }.
Record quicNewConnIDFrame :=
  { nc_seq : Z; nc_retirePT : Z; nc_connID : bytes; nc_resetToken : bytes }.

(** One constructor per callback of [quicFrameVisitor], with its argument. *)
Inductive quicFrame :=
| onPadding
| onPing
| onACK (f : quicAckFrame)
| onCrypto (f : quicCryptoFrame)
| onStream (f : quicStreamFrame)
| onMaxData (maxData : Z)
| onMaxStreamData (f : quicMaxStreamDataFrame)
| onMaxStreams (f : quicMaxStreamsFrame)
| onResetStream (f : quicResetStreamFrame)
| onStopSending (f : quicStopSendingFrame)
| onRetireConnID (seq : Z)
| onPathChallenge (data : bytes)
| onPathResponse (data : bytes)
| onConnClose (f : quicConnCloseFrame)
| onHandshakeDone
| onNewConnID (f : quicNewConnIDFrame)
| onNewToken (token : bytes).

(** The callbacks return nothing and do not touch the cursor, so a visitor is
    which callbacks are set, the guard, the flag, and the calls made so far. *)
Record quicFrameVisitor :=
  { handles : quicFrame -> bool;
    allowed : option (Z -> bool);
    nonProbing : bool;
    calls : list quicFrame }.

Inductive quicErr :=
| ErrTruncated
| errQUICFrameNotAllowedInSpace
| errQUICUnknownFrame
| errPanic. (** a slice expression out of range: the goroutine would panic *)

Definition quicFrameAllowedInHandshakeSpaces (frameType : Z) : bool :=
  (frameType =? quicFramePadding) || (frameType =? quicFramePing) || (frameType =? quicFrameACK) ||
  (frameType =? quicFrameACKECN) || (frameType =? quicFrameCrypto) || (frameType =? quicFrameConnClose).

Definition quicIsProbingFrame (frameType : Z) : bool :=
  (frameType =? quicFramePathChallenge) || (frameType =? quicFramePathResponse) ||
  (frameType =? quicFrameNewConnID) || (frameType =? quicFramePadding).

(** ** Encoders *)

Definition quicAppendCryptoFrame (dst : bytes) (offset : Z) (data : bytes) : bytes :=
  let dst := quicAppendVarint dst quicFrameCrypto in
  let dst := quicAppendVarint dst offset in
  let dst := quicAppendVarint dst (u64 (zlen data)) in
  dst ++ data.

Definition quicAppendStreamFrame (dst : bytes) (streamID offset : Z) (data : bytes) (fin : bool) : bytes :=
  let flags := u8 quicFrameStream in
  let flags := if 0 <? offset then Z.lor flags quicStreamFlagOff else flags in
  let flags := Z.lor flags quicStreamFlagLen in
  let flags := if fin then Z.lor flags quicStreamFlagFin else flags in
  let dst := dst ++ [flags] in
  let dst := quicAppendVarint dst streamID in
  let dst := if 0 <? offset then quicAppendVarint dst offset else dst in
  let dst := quicAppendVarint dst (u64 (zlen data)) in
  dst ++ data.

Definition quicAppendACKFrame (dst : bytes) (largestAck ackDelay firstRange : Z) : bytes :=
  let dst := quicAppendVarint dst quicFrameACK in
  let dst := quicAppendVarint dst largestAck in
  let dst := quicAppendVarint dst ackDelay in
  let dst := quicAppendVarint dst 0 in
  quicAppendVarint dst firstRange.

Definition quicAppendMaxDataFrame (dst : bytes) (maxData : Z) : bytes :=
  quicAppendVarint (quicAppendVarint dst quicFrameMaxData) maxData.

Definition quicAppendMaxStreamDataFrame (dst : bytes) (streamID maxStreamData : Z) : bytes :=
  let dst := quicAppendVarint dst quicFrameMaxStreamData in
  let dst := quicAppendVarint dst streamID in
  quicAppendVarint dst maxStreamData.

Definition quicAppendStreamDataBlockedFrame (dst : bytes) (streamID limit : Z) : bytes :=
  let dst := quicAppendVarint dst quicFrameStreamDataBlock in
  let dst := quicAppendVarint dst streamID in
  quicAppendVarint dst limit.

Definition quicAppendMaxStreamsFrame (dst : bytes) (maxStreams : Z) (bidi : bool) : bytes :=
  let dst := if bidi then quicAppendVarint dst quicFrameMaxStreamsBidi
             else quicAppendVarint dst quicFrameMaxStreamsUni in
  quicAppendVarint dst maxStreams.

Definition quicAppendResetStreamFrame (dst : bytes) (streamID errorCode finalSize : Z) : bytes :=
  let dst := quicAppendVarint dst quicFrameResetStream in
  let dst := quicAppendVarint dst streamID in
  let dst := quicAppendVarint dst errorCode in
  quicAppendVarint dst finalSize.

Definition quicAppendStopSendingFrame (dst : bytes) (streamID errorCode : Z) : bytes :=
  let dst := quicAppendVarint dst quicFrameStopSending in
  let dst := quicAppendVarint dst streamID in
  quicAppendVarint dst errorCode.

Definition quicAppendAppCloseFrame (dst : bytes) (errorCode : Z) (reason : bytes) : bytes :=
  let dst := quicAppendVarint dst quicFrameAppClose in
  let dst := quicAppendVarint dst errorCode in
  let dst := quicAppendVarint dst (u64 (zlen reason)) in
  dst ++ reason.

Definition quicAppendHandshakeDoneFrame (dst : bytes) : bytes :=
  quicAppendVarint dst quicFrameHandshakeDone.

Definition quicAppendConnCloseFrame (dst : bytes) (errorCode frameType : Z) (reason : bytes) : bytes :=
  let dst := quicAppendVarint dst quicFrameConnClose in
  let dst := quicAppendVarint dst errorCode in
  let dst := quicAppendVarint dst frameType in
  let dst := quicAppendVarint dst (u64 (zlen reason)) in
  dst ++ reason.

Definition quicAppendPathFrame (dst : bytes) (frameType : Z) (data : bytes) : bytes :=
  quicAppendVarint dst frameType ++ data.

Definition quicAppendNewConnIDFrame (dst : bytes) (seq retirePriorTo : Z) (cid token : bytes) : bytes :=
  let dst := quicAppendVarint dst quicFrameNewConnID in
  let dst := quicAppendVarint dst seq in
  let dst := quicAppendVarint dst retirePriorTo in
  let dst := dst ++ [u8 (zlen cid)] in
  let dst := dst ++ cid in
  dst ++ token.

Definition quicAppendRetireConnIDFrame (dst : bytes) (seq : Z) : bytes :=
  quicAppendVarint (quicAppendVarint dst quicFrameRetireConnID) seq.

(** ** The parser *)

Record quicFrameParser := { p_data : bytes; p_off : Z }.

Definition remaining (p : quicFrameParser) : Z := zlen (p_data p) - p_off p.

(** [p.off += n]. *)
Definition advance (p : quicFrameParser) (n : Z) : quicFrameParser :=
  {| p_data := p_data p; p_off := i64 (p_off p + n) |}.

(** Every caller of [readVarint] and [readBytes] returns [ErrTruncated] when
    they report [false], so the failure is that error. *)
Definition readVarint (p : quicFrameParser) : res quicErr (Z * quicFrameParser) :=
  let '(v, n) := quicParseVarint (zdrop (p_off p) (p_data p)) in
  if n =? 0 then Err ErrTruncated else Ok (v, advance p n).

Definition readBytes (p : quicFrameParser) (n : Z) : res quicErr (bytes * quicFrameParser) :=
  let e := i64 (p_off p + n) in
  if zlen (p_data p) <? e then Err ErrTruncated
  else if (e <? p_off p) then Err errPanic
  else Ok (zslice (p_data p) (p_off p) e, advance p n).

Fixpoint readAckRanges (k : nat) (p : quicFrameParser) : res quicErr (list quicAckRange * quicFrameParser) :=
  match k with
  | O => Ok ([], p)
  | S k =>
      let! (gap, p) := readVarint p in
      let! (count, p) := readVarint p in
      let! (rs, p) := readAckRanges k p in
      Ok ({| ar_gap := gap; ar_count := count |} :: rs, p)
  end.

Definition parseACK (p : quicFrameParser) (ecn : bool) : res quicErr (quicAckFrame * quicFrameParser) :=
  let! (largest, p) := readVarint p in
  let! (delay, p) := readVarint p in
  let! (rangeCount, p) := readVarint p in
  let! (first, p) := readVarint p in
  let! (ranges, p) :=
    (if 0 <? rangeCount then
       if (256 <? rangeCount) || (u64 (remaining p) <? rangeCount) then Err ErrTruncated
       else readAckRanges (Z.to_nat rangeCount) p
     else Ok ([], p)) in
  let! p :=
    (if ecn then
       let! (_, p) := readVarint p in
       let! (_, p) := readVarint p in
       let! (_, p) := readVarint p in Ok p
     else Ok p) in
  Ok ({| af_largestAck := largest; af_ackDelay := delay; af_firstRange := first; af_ranges := ranges |}, p).

Definition parseStream (p : quicFrameParser) (flags : Z) : res quicErr (quicStreamFrame * quicFrameParser) :=
  let! (sid, p) := readVarint p in
  let! (offset, p) :=
    (if negb (Z.land flags quicStreamFlagOff =? 0) then readVarint p else Ok (0, p)) in
  let! (data, p) :=
    (if negb (Z.land flags quicStreamFlagLen =? 0) then
       let! (length, p) := readVarint p in readBytes p (i64 length)
     else Ok (zdrop (p_off p) (p_data p), {| p_data := p_data p; p_off := zlen (p_data p) |})) in
  Ok ({| sf_streamID := sid; sf_offset := offset; sf_data := data;
         sf_fin := negb (Z.land flags quicStreamFlagFin =? 0) |}, p).

Definition parseConnClose (p : quicFrameParser) (isApp : bool) :
    res quicErr (quicConnCloseFrame * quicFrameParser) :=
  let! (code, p) := readVarint p in
  let! (ft, p) := (if negb isApp then readVarint p else Ok (0, p)) in
  let! (reasonLen, p) := readVarint p in
  let! (reason, p) := readBytes p (i64 reasonLen) in
  Ok ({| cc_errorCode := code; cc_frameType := ft; cc_reasonPhrase := reason; cc_isApp := isApp |}, p).

(** [copy(token[:], src)] into a fixed array of [n] bytes. *)
Definition copy_array (n : nat) (src : bytes) : bytes := take n (src ++ replicate n 0).

Definition parseNewConnID (p : quicFrameParser) : res quicErr (quicNewConnIDFrame * quicFrameParser) :=
  let! (seq, p) := readVarint p in
  let! (retire, p) := readVarint p in
  let! (cidLenByte, p) := readBytes p 1 in
  let cidLen := znth cidLenByte 0 in
  if 20 <? cidLen then Err ErrTruncated else
  let! (cid, p) := readBytes p cidLen in
  let! (token, p) := readBytes p 16 in
  Ok ({| nc_seq := seq; nc_retirePT := retire; nc_connID := cid;
         nc_resetToken := copy_array 16 token |}, p).

(** The [switch] of [quicParseFrames]: the callback to make, if the frame has
    one, and the cursor behind the frame. *)
Definition parseFrameBody (frameType : Z) (p : quicFrameParser) :
    res quicErr (option quicFrame * quicFrameParser) :=
  if frameType =? quicFramePing then Ok (Some onPing, p)
  else if (frameType =? quicFrameACK) || (frameType =? quicFrameACKECN) then
    let! (f, p) := parseACK p (frameType =? quicFrameACKECN) in Ok (Some (onACK f), p)
  else if frameType =? quicFrameCrypto then
    let! (offset, p) := readVarint p in
    let! (length, p) := readVarint p in
    let! (data, p) := readBytes p (i64 length) in
    Ok (Some (onCrypto {| cf_offset := offset; cf_data := data |}), p)
  else if (quicFrameStream <=? frameType) && (frameType <=? quicFrameStreamEnd) then
    let! (f, p) := parseStream p (u8 frameType) in Ok (Some (onStream f), p)
  else if frameType =? quicFrameMaxData then
    let! (maxData, p) := readVarint p in Ok (Some (onMaxData maxData), p)
  else if frameType =? quicFrameMaxStreamData then
    let! (sid, p) := readVarint p in
    let! (mx, p) := readVarint p in
    Ok (Some (onMaxStreamData {| msd_streamID := sid; msd_maxStreamData := mx |}), p)
  else if (frameType =? quicFrameMaxStreamsBidi) || (frameType =? quicFrameMaxStreamsUni) then
    let! (mx, p) := readVarint p in
    Ok (Some (onMaxStreams {| ms_maxStreams := mx; ms_bidi := frameType =? quicFrameMaxStreamsBidi |}), p)
  else if (frameType =? quicFrameConnClose) || (frameType =? quicFrameAppClose) then
    let! (f, p) := parseConnClose p (frameType =? quicFrameAppClose) in Ok (Some (onConnClose f), p)
  else if frameType =? quicFrameHandshakeDone then Ok (Some onHandshakeDone, p)
  else if frameType =? quicFrameNewConnID then
    let! (f, p) := parseNewConnID p in Ok (Some (onNewConnID f), p)
  else if frameType =? quicFrameNewToken then
    let! (length, p) := readVarint p in
    let! (token, p) := readBytes p (i64 length) in
    Ok (Some (onNewToken token), p)
  else if frameType =? quicFrameResetStream then
    let! (sid, p) := readVarint p in
    let! (code, p) := readVarint p in
    let! (final, p) := readVarint p in
    Ok (Some (onResetStream {| rs_streamID := sid; rs_errorCode := code; rs_finalSize := final |}), p)
  else if frameType =? quicFrameStopSending then
    let! (sid, p) := readVarint p in
    let! (code, p) := readVarint p in
    Ok (Some (onStopSending {| ss_streamID := sid; ss_errorCode := code |}), p)
  else if frameType =? quicFrameDataBlocked then
    let! (_, p) := readVarint p in Ok (None, p)
  else if frameType =? quicFrameStreamDataBlock then
    let! (_, p) := readVarint p in
    let! (_, p) := readVarint p in Ok (None, p)
  else if (frameType =? quicFrameStreamsBlockBidi) || (frameType =? quicFrameStreamsBlockUni) then
    let! (_, p) := readVarint p in Ok (None, p)
  else if frameType =? quicFrameRetireConnID then
    let! (seq, p) := readVarint p in Ok (Some (onRetireConnID seq), p)
  else if (frameType =? quicFramePathChallenge) || (frameType =? quicFramePathResponse) then
    let! (raw, p) := readBytes p quicPathChallengeLen in
    let data := copy_array 8 raw in
    if frameType =? quicFramePathChallenge then Ok (Some (onPathChallenge data), p)
    else Ok (Some (onPathResponse data), p)
  else Err errQUICUnknownFrame.

(** [if v.onX != nil { v.onX(f) }]. *)
Definition visit (v : quicFrameVisitor) (f : option quicFrame) : quicFrameVisitor :=
  match f with
  | Some f => if handles v f
              then {| handles := handles v; allowed := allowed v; nonProbing := nonProbing v;
                      calls := calls v ++ [f] |}
              else v
  | None => v
  end.

Definition set_nonProbing (v : quicFrameVisitor) (b : bool) : quicFrameVisitor :=
  {| handles := handles v; allowed := allowed v; nonProbing := b; calls := calls v |}.

(** The loop body: [inr] is the [return] of an error. *)
Definition parseFramesStep (p : quicFrameParser) (v : quicFrameVisitor) :
    quicFrameVisitor * res quicErr quicFrameParser :=
  if znth (p_data p) (p_off p) =? 0 then (visit v (Some onPadding), Ok (advance p 1)) else
  match readVarint p with
  | Err e => (v, Err e)
  | Ok (frameType, p) =>
      if match allowed v with Some ok => negb (ok frameType) | None => false end
      then (v, Err errQUICFrameNotAllowedInSpace) else
      let v := if negb (nonProbing v) && negb (quicIsProbingFrame frameType)
               then set_nonProbing v true else v in
      match parseFrameBody frameType p with
      | Err e => (v, Err e)
      | Ok (f, p) => (visit v f, Ok p)
      end
  end.

(** [None] is an exhausted fuel, [Some (v, None)] the [return nil]. *)
Fixpoint parseFramesLoop (fuel : nat) (p : quicFrameParser) (v : quicFrameVisitor) :
    option (quicFrameVisitor * option quicErr) :=
  if 0 <? remaining p then
    match fuel with
    | O => None
    | S fuel =>
        match parseFramesStep p v with
        | (v, Err e) => Some (v, Some e)
        | (v, Ok p) => parseFramesLoop fuel p v
        end
    end
  else Some (v, None).

(** Each iteration consumes at least one byte, so the payload's length is
    enough fuel. *)
Definition quicParseFrames (data : bytes) (v : quicFrameVisitor) : option (quicFrameVisitor * option quicErr) :=
  parseFramesLoop (length data) {| p_data := data; p_off := 0 |} v.

(** ** A Hoare-style reading of the cursor operations *)

(** The cursor is inside a payload of bytes that fits in memory. *)
Definition parser_wf (p : quicFrameParser) : Prop :=
  0 <= p_off p <= zlen (p_data p) /\ zlen (p_data p) < 2 ^ 62 /\ bytes_ok (p_data p).

Definition rest (p : quicFrameParser) : bytes := zdrop (p_off p) (p_data p).

(** [r] was computed from cursor [p] without a panic; when it succeeds the
    cursor moved forward by at least [k] bytes and the value satisfies [Q]. *)
Definition reads {A} (k : Z) (Q : A -> Prop) (p : quicFrameParser)
    (r : res quicErr (A * quicFrameParser)) : Prop :=
  match r with
  | Ok (a, p') => Q a /\ parser_wf p' /\ p_off p + k <= p_off p' /\ p_data p' = p_data p
  | Err e => e <> errPanic
  end.

Lemma reads_bind {A B} j (Q : A -> Prop) k (R : B -> Prop) p r f :
  reads j Q p r ->
  (forall a p', Q a -> parser_wf p' -> p_data p' = p_data p -> reads (k - j) R p' (f (a, p'))) ->
  reads k R p (res_bind r f).
Proof.
  intros Hr Hf. destruct r as [[a p'] | e]; [| exact Hr].
  destruct Hr as (HQ & Hw & Ho & Hd). specialize (Hf a p' HQ Hw Hd). cbn [res_bind].
  destruct (f (a, p')) as [[b p''] | e]; [| exact Hf].
  destruct Hf as (HR & Hw' & Ho' & Hd'). refine (conj HR (conj Hw' (conj _ _))); [lia | congruence].
Qed.

Lemma reads_weaken {A} j k (Q R : A -> Prop) p r :
  reads j Q p r -> k <= j -> (forall a, Q a -> R a) -> reads k R p r.
Proof.
  intros H Hk HQ. destruct r as [[a p'] |]; [| done].
  destruct H as (HQa & Hw & ? & ?). refine (conj (HQ _ HQa) (conj Hw (conj _ _))); [lia | done].
Qed.

Lemma reads_ret {A} k (Q : A -> Prop) p a :
  k <= 0 -> Q a -> parser_wf p -> reads k Q p (Ok (a, p)).
Proof. intros Hk HQ Hw. refine (conj HQ (conj Hw (conj _ _))); [lia | done]. Qed.

Lemma rest_ok p : parser_wf p -> bytes_ok (rest p).
Proof. intros (_ & _ & Hb). by apply Forall_drop. Qed.

Lemma rest_len p : parser_wf p -> zlen (rest p) = remaining p.
Proof. intros (H & _ & _). unfold rest, remaining. by rewrite zlen_drop. Qed.

Lemma advance_wf p n : parser_wf p -> 0 <= n <= remaining p ->
  parser_wf (advance p n) /\ p_off (advance p n) = p_off p + n /\ rest (advance p n) = zdrop n (rest p).
Proof.
  intros (Ho & Hl & Hb) Hn. unfold remaining in Hn.
  assert (Hi : i64 (p_off p + n) = p_off p + n) by (apply i64_small; lia).
  unfold parser_wf, rest, advance; cbn. rewrite Hi. repeat split; try lia; [done |].
  rewrite zdrop_zdrop by lia. done.
Qed.

Lemma readVarint_reads p : parser_wf p -> reads 1 (fun v => 0 <= v < 2 ^ 62) p (readVarint p).
Proof.
  intros Hw. unfold readVarint. destruct (quicParseVarint _) as [v n] eqn:Hp.
  destruct (parse_inv _ _ _ (rest_ok p Hw) Hp) as [[-> ->] | (e & r & Hr & He & _ & Hv & Hn & _)];
    [done |].
  replace (n =? 0) with false by lia.
  assert (0 <= n <= remaining p).
  { rewrite <- rest_len by done. rewrite Hr, zlen_app. pose proof (zlen_nonneg r). lia. }
  destruct (advance_wf p n Hw) as (Hw' & Ho & _); [done |].
  refine (conj Hv (conj Hw' (conj _ _))); [lia | done].
Qed.

Lemma readBytes_reads p n : parser_wf p -> 0 <= n < 2 ^ 62 ->
  reads n (fun b => zlen b = n /\ bytes_ok b) p (readBytes p n).
Proof.
  intros Hw Hn. pose proof Hw as (Ho & Hl & Hb). unfold readBytes.
  rewrite i64_small by lia. split_if; [done |]. replace (_ <? p_off p) with false by lia.
  destruct (advance_wf p n Hw) as (Hw' & Ho' & _); [unfold remaining; lia |].
  refine (conj (conj _ _) (conj Hw' (conj _ _))); [| | lia | done].
  - unfold zslice. rewrite zlen_take; [lia |]. rewrite zlen_drop; lia.
  - unfold zslice. by apply Forall_take, Forall_drop.
Qed.

Lemma readBytes_reads_i64 p n : parser_wf p -> 0 <= n < 2 ^ 62 ->
  reads 0 (fun b => zlen b = n /\ bytes_ok b) p (readBytes p (i64 n)).
Proof.
  intros. rewrite i64_small by lia. eapply reads_weaken; [by apply readBytes_reads | lia | done].
Qed.

(** Discharge a chain of reads. *)
Ltac chase_reads :=
  lazymatch goal with
  | |- reads _ _ _ (res_bind (readVarint _) _) =>
      eapply reads_bind; [by apply readVarint_reads | intros ? ? ? ? ?; cbv beta iota in *; chase_reads]
  | |- reads _ _ _ (res_bind (readBytes _ (i64 _)) _) =>
      eapply reads_bind; [apply readBytes_reads_i64; [done | lia]
                         | intros ? ? ? ? ?; cbv beta iota in *; chase_reads]
  | |- reads _ _ _ (res_bind (readBytes _ _) _) =>
      eapply reads_bind; [apply readBytes_reads; [done | unfold quicPathChallengeLen; lia]
                         | intros ? ? ? ? ?; cbv beta iota in *; chase_reads]
  | |- reads _ _ _ (readBytes _ (i64 _)) =>
      eapply reads_weaken; [apply readBytes_reads_i64; [done | lia] | lia | done]
  | |- reads _ _ _ (Ok _) => apply reads_ret; [lia | try done; auto; simpl in *; try congruence | done]
  | |- reads _ _ _ (readVarint _) => eapply reads_weaken; [by apply readVarint_reads | lia | done]
  | |- _ => idtac
  end.

Lemma readAckRanges_reads k p : parser_wf p -> reads 0 (fun rs => length rs = k) p (readAckRanges k p).
Proof.
  revert p. induction k as [|k IH]; intros p Hw; cbn [readAckRanges]; chase_reads.
  eapply reads_bind with (j := 0); [by apply IH | intros rs ? ? ? ?]. chase_reads.
Qed.

Lemma parseACK_reads p ecn : parser_wf p -> reads 0 (fun _ => True) p (parseACK p ecn).
Proof.
  intros Hw. unfold parseACK. do 4 (eapply reads_bind; [by apply readVarint_reads |
    intros ? ? ? ? ?; cbv beta iota in *]).
  eapply reads_bind with (j := 0) (Q := fun _ => True).
  - repeat split_if; [done | | by apply reads_ret].
    eapply reads_weaken; [by apply readAckRanges_reads | lia | done].
  - intros rs q _ Hq Hd. cbv beta iota in *.
    destruct ecn; cbn [res_bind]; [| chase_reads].
    assert (Hecn : reads 0 (fun _ : unit => True) q
      (let! (_, p) := readVarint q in let! (_, p) := readVarint p in let! (_, p) := readVarint p in
       Ok (tt, p))) by chase_reads.
    revert Hecn. destruct (readVarint q) as [[? q1] |]; [cbn [res_bind] | done].
    destruct (readVarint q1) as [[? q2] |]; [cbn [res_bind] | done].
    destruct (readVarint q2) as [[? q3] |]; [cbn [res_bind] | done].
    intros (_ & Hw3 & Ho & Hd3). refine (conj I (conj Hw3 (conj _ Hd3))). lia.
Qed.

Lemma parseStream_reads p flags : parser_wf p -> reads 0 (fun _ => True) p (parseStream p flags).
Proof.
  intros Hw. unfold parseStream. eapply reads_bind; [by apply readVarint_reads | intros sid q Hs Hq Hd].
  cbv beta iota in *. eapply reads_bind with (j := 0) (Q := fun _ => True).
  - split_if; [| by apply reads_ret].
    eapply reads_weaken; [by apply readVarint_reads | lia | done].
  - intros off q' _ Hq' Hd'. cbv beta iota in *. eapply reads_bind with (j := 0) (Q := fun _ => True).
    + split_if.
      * eapply reads_bind; [by apply readVarint_reads | intros len q2 Hl Hq2 Hd2; cbv beta iota in *].
        chase_reads.
      * destruct Hq' as (Ho & Hl & Hb). unfold reads, parser_wf. cbn. repeat split; auto; lia.
    + intros data q2 _ Hq2 Hd2. cbv beta iota in *. chase_reads.
Qed.

Lemma parseConnClose_reads p isApp : parser_wf p -> reads 0 (fun _ => True) p (parseConnClose p isApp).
Proof.
  intros Hw. unfold parseConnClose. eapply reads_bind; [by apply readVarint_reads | intros c q Hc Hq Hd].
  cbv beta iota in *. eapply reads_bind with (j := 0) (Q := fun _ => True).
  - split_if; [| by apply reads_ret].
    eapply reads_weaken; [by apply readVarint_reads | lia | done].
  - intros ft q' _ Hq' Hd'. cbv beta iota in *.
    eapply reads_bind; [by apply readVarint_reads | intros len q2 Hl Hq2 Hd2; cbv beta iota in *].
    chase_reads.
Qed.

Lemma parseNewConnID_reads p : parser_wf p -> reads 0 (fun _ => True) p (parseNewConnID p).
Proof.
  intros Hw. unfold parseNewConnID. do 2 (eapply reads_bind; [by apply readVarint_reads |
    intros ? ? ? ? ?; cbv beta iota in *]).
  eapply reads_bind; [apply readBytes_reads; [done | lia] | intros b q [Hl Hb] Hq Hd; cbv beta iota zeta in *].
  destruct b as [|c [|? ?]]; [unfold zlen in Hl; simpl in Hl; lia | | unfold zlen in Hl; simpl in Hl; lia].
  change (znth [c] 0) with c. inversion Hb as [| ? ? Hc _]; subst. unfold is_u8 in Hc.
  split_if; [done |]. chase_reads.
Qed.

Lemma parseFrameBody_reads ft p : parser_wf p -> reads 0 (fun _ => True) p (parseFrameBody ft p).
Proof.
  intros Hw. unfold parseFrameBody.
  repeat (lazymatch goal with |- reads _ _ _ (if ?b then _ else _) => destruct b eqn:? end;
    [first
      [ by apply reads_ret
      | eapply reads_bind with (j := 0); [solve [eauto using parseACK_reads, parseStream_reads,
            parseConnClose_reads, parseNewConnID_reads] | intros ? ? ? ? ?; cbv beta iota in *; chase_reads]
      | chase_reads ] |]); [| done].
  apply reads_ret; [unfold quicPathChallengeLen; lia | done | done].
Qed.

(** The loop body moves the cursor forward, keeps earlier calls, and never panics. *)
Lemma parseFramesStep_spec p v : parser_wf p -> 0 < remaining p ->
  let '(v', r) := parseFramesStep p v in
  calls v `prefix_of` calls v' /\
  match r with
  | Ok p' => parser_wf p' /\ p_off p < p_off p' /\ p_data p' = p_data p
  | Err e => e <> errPanic
  end.
Proof.
  intros Hw Hr. unfold parseFramesStep.
  assert (Hvis : forall w f, calls w `prefix_of` calls (visit w f)).
  { intros w [f |]; [cbn; split_if; [by apply prefix_app_r | done] | done]. }
  split_if.
  { split; [apply Hvis |]. destruct (advance_wf p 1 Hw) as (Hw' & Ho & _); [lia |].
    repeat split; [apply Hw' .. | lia]. }
  pose proof (readVarint_reads p Hw) as Hv. destruct (readVarint p) as [[ft q] | e]; [| done].
  destruct Hv as (_ & Hq & Ho & Hd). split_if; [done |].
  set (w := if negb (nonProbing v) && negb (quicIsProbingFrame ft) then set_nonProbing v true else v).
  assert (Hc : calls w = calls v) by (unfold w; by split_if).
  pose proof (parseFrameBody_reads ft q Hq) as Hb. rewrite <- Hc.
  destruct (parseFrameBody ft q) as [[f q'] | e]; [| done].
  destruct Hb as (_ & Hq' & Ho' & Hd'). split; [apply Hvis |].
  split; [done |]. split; [lia | congruence].
Qed.

Lemma parseFramesLoop_spec fuel p v : parser_wf p -> remaining p <= Z.of_nat fuel ->
  exists v' err, parseFramesLoop fuel p v = Some (v', err) /\ err <> Some errPanic /\
    calls v `prefix_of` calls v'.
Proof.
  revert p v. induction fuel as [|fuel IH]; intros p v Hw Hf; cbn [parseFramesLoop]; split_if;
    try (by exists v, None); [lia |].
  pose proof (parseFramesStep_spec p v Hw ltac:(lia)) as Hs.
  destruct (parseFramesStep p v) as [w [q | e]]; destruct Hs as [Hp Hs].
  - destruct Hs as (Hq & Ho & Hd).
    destruct (IH q w Hq) as (v' & err & -> & He & Hp'); [unfold remaining in *; rewrite Hd; lia |].
    exists v', err. split; [done |]. split; [done |]. by trans (calls w).
  - exists w, (Some e). split; [done |]. split; [congruence | done].
Qed.

(** ** Encoding then parsing *)

(** The frames as the encoders write them: what goes on the wire for each
    callback. [onNewToken] has no encoder (a server never sends one to itself). *)
Definition encode_ack (f : quicAckFrame) : bytes :=
  let dst := quicAppendVarint [] quicFrameACK in
  let dst := quicAppendVarint dst (af_largestAck f) in
  let dst := quicAppendVarint dst (af_ackDelay f) in
  let dst := quicAppendVarint dst (zlen (af_ranges f)) in
  let dst := quicAppendVarint dst (af_firstRange f) in
  fold_left (fun dst r => quicAppendVarint (quicAppendVarint dst (ar_gap r)) (ar_count r)) (af_ranges f) dst.

Definition encode_frame (f : quicFrame) : bytes :=
  match f with
  | onPadding => [0]
  | onPing => quicAppendVarint [] quicFramePing
  | onACK f => encode_ack f
  | onCrypto f => quicAppendCryptoFrame [] (cf_offset f) (cf_data f)
  | onStream f => quicAppendStreamFrame [] (sf_streamID f) (sf_offset f) (sf_data f) (sf_fin f)
  | onMaxData m => quicAppendMaxDataFrame [] m
  | onMaxStreamData f => quicAppendMaxStreamDataFrame [] (msd_streamID f) (msd_maxStreamData f)
  | onMaxStreams f => quicAppendMaxStreamsFrame [] (ms_maxStreams f) (ms_bidi f)
  | onResetStream f => quicAppendResetStreamFrame [] (rs_streamID f) (rs_errorCode f) (rs_finalSize f)
  | onStopSending f => quicAppendStopSendingFrame [] (ss_streamID f) (ss_errorCode f)
  | onRetireConnID seq => quicAppendRetireConnIDFrame [] seq
  | onPathChallenge d => quicAppendPathFrame [] quicFramePathChallenge d
  | onPathResponse d => quicAppendPathFrame [] quicFramePathResponse d
  | onConnClose f =>
      if cc_isApp f then quicAppendAppCloseFrame [] (cc_errorCode f) (cc_reasonPhrase f)
      else quicAppendConnCloseFrame [] (cc_errorCode f) (cc_frameType f) (cc_reasonPhrase f)
  | onHandshakeDone => quicAppendHandshakeDoneFrame []
  | onNewConnID f => quicAppendNewConnIDFrame [] (nc_seq f) (nc_retirePT f) (nc_connID f) (nc_resetToken f)
  | onNewToken _ => []
  end.

Definition frame_type (f : quicFrame) : Z :=
  match f with
  | onPadding => quicFramePadding | onPing => quicFramePing | onACK _ => quicFrameACK
  | onCrypto _ => quicFrameCrypto | onMaxData _ => quicFrameMaxData
  | onStream f => 8 + (if 0 <? sf_offset f then 4 else 0) + 2 + (if sf_fin f then 1 else 0)
  | onMaxStreamData _ => quicFrameMaxStreamData
  | onMaxStreams f => if ms_bidi f then quicFrameMaxStreamsBidi else quicFrameMaxStreamsUni
  | onResetStream _ => quicFrameResetStream | onStopSending _ => quicFrameStopSending
  | onRetireConnID _ => quicFrameRetireConnID | onPathChallenge _ => quicFramePathChallenge
  | onPathResponse _ => quicFramePathResponse
  | onConnClose f => if cc_isApp f then quicFrameAppClose else quicFrameConnClose
  | onHandshakeDone => quicFrameHandshakeDone | onNewConnID _ => quicFrameNewConnID
  | onNewToken _ => quicFrameNewToken
  end.

Definition var62 (v : Z) : Prop := 0 <= v < 2 ^ 62.
Definition blob (b : bytes) : Prop := bytes_ok b /\ zlen b < 2 ^ 62.

(** The frames QUIC can carry: 62-bit integers, byte payloads, 8-byte path
    data, connection ids of at most 20 bytes with a 16-byte token. *)
Definition frame_wf (f : quicFrame) : Prop :=
  match f with
  | onPadding | onPing | onHandshakeDone => True
  | onACK f => var62 (af_largestAck f) /\ var62 (af_ackDelay f) /\ var62 (af_firstRange f) /\
      zlen (af_ranges f) <= 256 /\ Forall (fun r => var62 (ar_gap r) /\ var62 (ar_count r)) (af_ranges f)
  | onCrypto f => var62 (cf_offset f) /\ blob (cf_data f)
  | onStream f => var62 (sf_streamID f) /\ var62 (sf_offset f) /\ blob (sf_data f)
  | onMaxData m => var62 m
  | onMaxStreamData f => var62 (msd_streamID f) /\ var62 (msd_maxStreamData f)
  | onMaxStreams f => var62 (ms_maxStreams f)
  | onResetStream f => var62 (rs_streamID f) /\ var62 (rs_errorCode f) /\ var62 (rs_finalSize f)
  | onStopSending f => var62 (ss_streamID f) /\ var62 (ss_errorCode f)
  | onRetireConnID seq => var62 seq
  | onPathChallenge d | onPathResponse d => bytes_ok d /\ zlen d = 8
  | onConnClose f => var62 (cc_errorCode f) /\ var62 (cc_frameType f) /\ blob (cc_reasonPhrase f) /\
      (cc_isApp f = true -> cc_frameType f = 0)
  | onNewConnID f => var62 (nc_seq f) /\ var62 (nc_retirePT f) /\ bytes_ok (nc_connID f) /\
      zlen (nc_connID f) <= 20 /\ bytes_ok (nc_resetToken f) /\ zlen (nc_resetToken f) = 16
  | onNewToken _ => False
  end.

(** The bytes of one varint, and the encoders as concatenations of them. *)
Definition enc (v : Z) : bytes := quicAppendVarint [] v.

Lemma append_enc dst v : quicAppendVarint dst v = dst ++ enc v.
Proof. apply quicAppendVarint_dst. Qed.

Lemma enc_small v : 0 <= v < 64 -> enc v = [v].
Proof. intros. unfold enc, quicAppendVarint. replace (v <? 64) with true by lia. cbn. by rewrite u8_small by lia. Qed.

Lemma readVarint_app p v tail : parser_wf p -> var62 v -> rest p = enc v ++ tail ->
  exists p', readVarint p = Ok (v, p') /\ parser_wf p' /\ rest p' = tail.
Proof.
  intros Hw Hv Hr. unfold var62 in Hv. unfold enc in Hr. unfold readVarint. fold (rest p). rewrite Hr.
  rewrite parse_append by (unfold is_u64; lia). rewrite Z.mod_small by lia.
  assert (Hn : 0 < varint_len v) by (unfold varint_len; repeat split_if; lia).
  replace (varint_len v =? 0) with false by lia. exists (advance p (varint_len v)).
  destruct (advance_wf p (varint_len v) Hw) as (Hw' & _ & Hr').
  { rewrite <- rest_len, Hr, zlen_app, quicAppendVarint_len by done. pose proof (zlen_nonneg tail). lia. }
  split; [done |]. split; [done |]. rewrite Hr', Hr, <- quicAppendVarint_len. apply zdrop_app_exact.
Qed.

Lemma readBytes_app p b tail : parser_wf p -> rest p = b ++ tail ->
  exists p', readBytes p (zlen b) = Ok (b, p') /\ parser_wf p' /\ rest p' = tail.
Proof.
  intros Hw Hr. pose proof Hw as (Ho & Hl & _). pose proof (rest_len p Hw) as Hlen.
  rewrite Hr, zlen_app in Hlen. unfold remaining in Hlen.
  pose proof (zlen_nonneg tail). pose proof (zlen_nonneg b).
  unfold readBytes. rewrite i64_small by lia.
  replace (_ <? p_off p + zlen b) with false by lia. replace (_ <? p_off p) with false by lia.
  destruct (advance_wf p (zlen b) Hw) as (Hw' & _ & Hr'); [unfold remaining; lia |].
  exists (advance p (zlen b)). split; [| split; [done |]].
  - do 2 f_equal. unfold zslice. fold (rest p). rewrite Hr.
    replace (p_off p + zlen b - p_off p) with (zlen b) by lia. apply ztake_app_exact.
  - rewrite Hr', Hr. apply zdrop_app_exact.
Qed.

Lemma len_var62 {A} (b : list A) : zlen b < 2 ^ 62 -> var62 (zlen b).
Proof. intros. unfold var62. pose proof (zlen_nonneg b). lia. Qed.

Lemma i64_zlen {A} (b : list A) : zlen b < 2 ^ 62 -> i64 (zlen b) = zlen b.
Proof. intros. pose proof (zlen_nonneg b). apply i64_small. lia. Qed.

Lemma u64_zlen {A} (b : list A) : zlen b < 2 ^ 62 -> u64 (zlen b) = zlen b.
Proof. intros. pose proof (zlen_nonneg b). apply u64_small. lia. Qed.

(** Read the next field of the frame being parsed. *)
Ltac rd :=
  match goal with
  | H : zlen ?b < 2 ^ 62 |- context [readBytes _ (i64 (zlen ?b))] => rewrite (i64_zlen b H)
  | Hw : parser_wf ?p, Hr : rest ?p = enc ?v ++ ?t |- context [readVarint ?p] =>
      let q := fresh "q" in let E := fresh "E" in
      let Hq := fresh "Hq" in let Hqr := fresh "Hqr" in
      destruct (readVarint_app p v t Hw ltac:(first [assumption | apply len_var62; assumption]) Hr) as (q & E & Hq & Hqr);
      rewrite E; cbn [res_bind]; clear E
  | Hw : parser_wf ?p, Hr : rest ?p = ?b ++ ?t |- context [readBytes ?p (zlen ?b)] =>
      let q := fresh "q" in let E := fresh "E" in
      let Hq := fresh "Hq" in let Hqr := fresh "Hqr" in
      destruct (readBytes_app p b t Hw Hr) as (q & E & Hq & Hqr);
      rewrite E; cbn [res_bind]; clear E
  end.

Lemma copy_array_exact n b : length b = n -> copy_array n b = b.
Proof. intros <-. unfold copy_array. apply take_app_length. Qed.

(** The wire form of each frame behind its type byte. *)
Definition ranges_enc (rs : list quicAckRange) : bytes :=
  flat_map (fun r => enc (ar_gap r) ++ enc (ar_count r)) rs.

Lemma ranges_fold rs dst :
  fold_left (fun dst r => quicAppendVarint (quicAppendVarint dst (ar_gap r)) (ar_count r)) rs dst
  = dst ++ ranges_enc rs.
Proof.
  revert dst. induction rs as [|r rs IH]; intros dst; cbn; [by rewrite app_nil_r |].
  rewrite IH, !append_enc, <- !app_assoc. done.
Qed.

Lemma enc_len_pos v : 1 <= zlen (enc v).
Proof. unfold enc. rewrite quicAppendVarint_len. unfold varint_len. repeat split_if; lia. Qed.

Lemma ranges_enc_len rs : 2 * zlen rs <= zlen (ranges_enc rs).
Proof.
  induction rs as [|r rs IH]; [done |]. cbn [ranges_enc flat_map]. fold (ranges_enc rs).
  rewrite !zlen_app, zlen_cons. pose proof (enc_len_pos (ar_gap r)). pose proof (enc_len_pos (ar_count r)). lia.
Qed.

Lemma readAckRanges_app rs p tail : parser_wf p -> rest p = ranges_enc rs ++ tail ->
  Forall (fun r => var62 (ar_gap r) /\ var62 (ar_count r)) rs ->
  exists p', readAckRanges (length rs) p = Ok (rs, p') /\ parser_wf p' /\ rest p' = tail.
Proof.
  revert p. induction rs as [|r rs IH]; intros p Hw Hr Hf; [by exists p |].
  inversion Hf as [| ? ? [Hg Hc] Hf']; subst. cbn [ranges_enc flat_map] in Hr. fold (ranges_enc rs) in Hr.
  rewrite <- !app_assoc in Hr. cbn [length readAckRanges]. rd. rd.
  destruct (IH q0 Hq0 Hqr0 Hf') as (p' & -> & Hp' & Hpr). exists p'. cbn [res_bind]. by destruct r.
Qed.

Lemma parseACK_app f p tail : frame_wf (onACK f) -> parser_wf p ->
  rest p = enc (af_largestAck f) ++ enc (af_ackDelay f) ++ enc (zlen (af_ranges f)) ++ enc (af_firstRange f) ++
           ranges_enc (af_ranges f) ++ tail ->
  exists p', parseACK p false = Ok (f, p') /\ parser_wf p' /\ rest p' = tail.
Proof.
  intros (Hl & Hd & Hfr & Hn & Hrs) Hw Hr. unfold parseACK.
  assert (Hv : var62 (zlen (af_ranges f))) by (apply len_var62; lia).
  rd. rd. rd. rd. pose proof (zlen_nonneg (af_ranges f)) as Hn0.
  destruct (readAckRanges_app (af_ranges f) q2 tail Hq2 Hqr2 Hrs) as (p' & Hrd & Hp' & Hpr).
  exists p'. split; [| done]. split_if.
  - assert (u64 (remaining q2) = remaining q2) as Hu.
    { destruct Hq2 as (? & ? & ?). apply u64_small. unfold remaining. lia. }
    pose proof (ranges_enc_len (af_ranges f)). pose proof (zlen_nonneg tail).
    rewrite Hu, <- rest_len, Hqr2, zlen_app by done.
    replace (256 <? zlen (af_ranges f)) with false by lia. cbn [orb].
    replace (_ <? zlen (af_ranges f)) with false by lia.
    replace (Z.to_nat (zlen (af_ranges f))) with (length (af_ranges f)) by (unfold zlen; lia).
    rewrite Hrd. cbn [res_bind]. by destruct f.
  - destruct f as [la ad fr [|r rs]]; [| unfold zlen in *; simpl in *; lia].
    cbn in *. inversion Hrd; subst. done.
Qed.

(** Evaluate the closed tests of the frame-type switch. *)
Ltac eval_tests :=
  repeat match goal with
  | |- context [if ?b then _ else _] =>
      let c := eval vm_compute in b in
      match c with true => idtac | false => idtac end;
      change b with c; cbv iota
  end.

Ltac split_wf := repeat match goal with H : _ /\ _ |- _ => destruct H end.

(** What follows the type byte on the wire. *)
Definition frame_body (f : quicFrame) : bytes :=
  match f with
  | onPadding | onPing | onHandshakeDone | onNewToken _ => []
  | onACK f => enc (af_largestAck f) ++ enc (af_ackDelay f) ++ enc (zlen (af_ranges f)) ++
               enc (af_firstRange f) ++ ranges_enc (af_ranges f)
  | onCrypto f => enc (cf_offset f) ++ enc (zlen (cf_data f)) ++ cf_data f
  | onStream f => enc (sf_streamID f) ++ (if 0 <? sf_offset f then enc (sf_offset f) else []) ++
                  enc (zlen (sf_data f)) ++ sf_data f
  | onMaxData m => enc m
  | onMaxStreamData f => enc (msd_streamID f) ++ enc (msd_maxStreamData f)
  | onMaxStreams f => enc (ms_maxStreams f)
  | onResetStream f => enc (rs_streamID f) ++ enc (rs_errorCode f) ++ enc (rs_finalSize f)
  | onStopSending f => enc (ss_streamID f) ++ enc (ss_errorCode f)
  | onRetireConnID seq => enc seq
  | onPathChallenge d | onPathResponse d => d
  | onConnClose f => enc (cc_errorCode f) ++ (if cc_isApp f then [] else enc (cc_frameType f)) ++
                     enc (zlen (cc_reasonPhrase f)) ++ cc_reasonPhrase f
  | onNewConnID f => enc (nc_seq f) ++ enc (nc_retirePT f) ++ [zlen (nc_connID f)] ++ nc_connID f ++
                     nc_resetToken f
  end.

Lemma encode_frame_shape f : frame_wf f -> encode_frame f = frame_type f :: frame_body f.
Proof.
  destruct f as [ | |f|f|f|m|f|f|f|f|s|d|d|f| |f|t]; cbn [encode_frame frame_type frame_body frame_wf];
    intros Hwf; try done; unfold blob in *; split_wf;
    unfold encode_ack, quicAppendCryptoFrame, quicAppendStreamFrame, quicAppendMaxDataFrame,
      quicAppendMaxStreamDataFrame, quicAppendMaxStreamsFrame, quicAppendResetStreamFrame,
      quicAppendStopSendingFrame, quicAppendRetireConnIDFrame, quicAppendPathFrame,
      quicAppendAppCloseFrame, quicAppendConnCloseFrame, quicAppendNewConnIDFrame; cbv zeta;
    rewrite ?ranges_fold, ?u64_zlen by done; repeat split_if; rewrite !append_enc, <- ?app_assoc;
    rewrite ?(enc_small quicFrameACK), ?(enc_small quicFrameCrypto), ?(enc_small quicFrameMaxData),
      ?(enc_small quicFrameMaxStreamData), ?(enc_small quicFrameMaxStreamsBidi),
      ?(enc_small quicFrameMaxStreamsUni), ?(enc_small quicFrameResetStream),
      ?(enc_small quicFrameStopSending), ?(enc_small quicFrameRetireConnID),
      ?(enc_small quicFramePathChallenge), ?(enc_small quicFramePathResponse),
      ?(enc_small quicFrameConnClose), ?(enc_small quicFrameAppClose), ?(enc_small quicFrameNewConnID)
      by (vm_compute; intuition congruence); try done.
  pose proof (zlen_nonneg (nc_connID f)). by rewrite u8_small by lia.
Qed.

Lemma parseStream_app f p tail : frame_wf (onStream f) -> parser_wf p ->
  rest p = frame_body (onStream f) ++ tail ->
  exists p', parseStream p (u8 (frame_type (onStream f))) = Ok (f, p') /\ parser_wf p' /\ rest p' = tail.
Proof.
  cbn [frame_wf frame_type frame_body]. unfold blob, parseStream. intros Hwf Hw Hr. split_wf.
  rewrite <- !app_assoc in Hr. rd. destruct f as [sid off data fin]; cbn in *.
  destruct (0 <? off) eqn:Ho; [rewrite <- ?app_assoc in *|]; destruct fin; eval_tests; repeat rd;
    try (eexists; split; [reflexivity | done]).
  all: assert (off = 0) as -> by (unfold var62 in *; lia); cbn [app] in *; cbn [res_bind]; repeat rd;
    eexists; split; [reflexivity | done].
Qed.

Lemma parseConnClose_app f p tail : frame_wf (onConnClose f) -> parser_wf p ->
  rest p = frame_body (onConnClose f) ++ tail ->
  exists p', parseConnClose p (cc_isApp f) = Ok (f, p') /\ parser_wf p' /\ rest p' = tail.
Proof.
  cbn [frame_wf frame_type frame_body]. unfold blob, parseConnClose. intros Hwf Hw Hr. split_wf.
  rewrite <- !app_assoc in Hr. rd. destruct f as [code ft reason isApp]; cbn in *.
  destruct isApp; cbn [negb res_bind app] in *; [match goal with H : true = true -> ft = 0 |- _ => rewrite (H eq_refl) in * end |]; repeat rd;
    eexists; split; [reflexivity | done | reflexivity | done].
Qed.

Lemma parseNewConnID_app f p tail : frame_wf (onNewConnID f) -> parser_wf p ->
  rest p = frame_body (onNewConnID f) ++ tail ->
  exists p', parseNewConnID p = Ok (f, p') /\ parser_wf p' /\ rest p' = tail.
Proof.
  cbn [frame_wf frame_type frame_body]. unfold parseNewConnID. intros Hwf Hw Hr. split_wf.
  rewrite <- !app_assoc in Hr. destruct f as [seq rt cid token]; cbn in *. rd. rd.
  change (readBytes q0 1) with (readBytes q0 (zlen [zlen cid])).
  change (rest q0 = [zlen cid] ++ cid ++ token ++ tail) in Hqr0. rd. cbv zeta. change (znth [zlen cid] 0) with (zlen cid).
  replace (20 <? zlen cid) with false by lia. rd.
  match goal with H : zlen token = 16 |- _ => rewrite <- H end. rd.
  rewrite copy_array_exact by (unfold zlen in *; lia). eexists; split; [reflexivity | done].
Qed.

Lemma parseFrameBody_app f p tail : f <> onPadding -> frame_wf f -> parser_wf p ->
  rest p = frame_body f ++ tail ->
  exists p', parseFrameBody (frame_type f) p = Ok (Some f, p') /\ parser_wf p' /\ rest p' = tail.
Proof.
  intros Hf Hwf Hw Hr. unfold parseFrameBody.
  destruct f as [ | |f|f|f|m|f|f|f|f|s|d|d|f| |f|t]; try done.
  - eval_tests. by exists p.
  - eval_tests. cbn [frame_body] in Hr. rewrite <- !app_assoc in Hr.
    destruct (parseACK_app f p tail Hwf Hw Hr) as (p' & Hp & ?). cbn [frame_type].
    change (quicFrameACK =? quicFrameACKECN) with false. rewrite Hp. by exists p'.
  - cbn [frame_wf frame_body frame_type] in *. unfold blob in *. split_wf. rewrite <- !app_assoc in Hr.
    eval_tests. destruct f. repeat rd. eexists; split; [reflexivity | done].
  - destruct (parseStream_app f p tail Hwf Hw Hr) as (p' & Hp & ?). exists p'. split; [| done].
    set (r := parseStream _ _) in Hp. cbn [frame_type] in *.
    destruct (0 <? sf_offset f), (sf_fin f); eval_tests; fold r; by rewrite Hp.
  - cbn [frame_wf frame_body frame_type] in *. eval_tests. rd. eexists; split; [reflexivity | done].
  - cbn [frame_wf frame_body frame_type] in *. split_wf. rewrite <- !app_assoc in Hr. eval_tests.
    destruct f. repeat rd. eexists; split; [reflexivity | done].
  - cbn [frame_wf frame_body frame_type] in *. destruct f as [m []]; cbn [ms_bidi ms_maxStreams] in *;
      eval_tests; rd; eexists; split; [reflexivity | done | reflexivity | done].
  - cbn [frame_wf frame_body frame_type] in *. split_wf. rewrite <- !app_assoc in Hr. eval_tests.
    destruct f. repeat rd. eexists; split; [reflexivity | done].
  - cbn [frame_wf frame_body frame_type] in *. split_wf. rewrite <- !app_assoc in Hr. eval_tests.
    destruct f. repeat rd. eexists; split; [reflexivity | done].
  - cbn [frame_wf frame_body frame_type] in *. eval_tests. rd. eexists; split; [reflexivity | done].
  - cbn [frame_wf frame_body frame_type] in *. split_wf. eval_tests.
    replace quicPathChallengeLen with (zlen d). rd. cbv zeta.
    rewrite copy_array_exact by (unfold zlen in *; lia). eexists; split; [reflexivity | done].
  - cbn [frame_wf frame_body frame_type] in *. split_wf. eval_tests.
    replace quicPathChallengeLen with (zlen d). rd. cbv zeta.
    rewrite copy_array_exact by (unfold zlen in *; lia). eexists; split; [reflexivity | done].
  - destruct (parseConnClose_app f p tail Hwf Hw Hr) as (p' & Hp & ?). exists p'. split; [| done].
    cbn [frame_type]. destruct (cc_isApp f); eval_tests.
    + change (quicFrameAppClose =? quicFrameAppClose) with true. by rewrite Hp.
    + change (quicFrameConnClose =? quicFrameAppClose) with false. by rewrite Hp.
  - eval_tests. by exists p.
  - destruct (parseNewConnID_app f p tail Hwf Hw Hr) as (p' & Hp & ?). exists p'. split; [| done].
    eval_tests. by rewrite Hp.
Qed.

(** What the visitor has seen after the frames [fs]. *)
Definition mark (v : quicFrameVisitor) (f : quicFrame) : quicFrameVisitor :=
  if negb (nonProbing v) && negb (quicIsProbingFrame (frame_type f)) then set_nonProbing v true else v.

Definition deliver (v : quicFrameVisitor) (fs : list quicFrame) : quicFrameVisitor :=
  fold_left (fun v f => visit (mark v f) (Some f)) fs v.

Definition allows (v : quicFrameVisitor) (f : quicFrame) : Prop :=
  f = onPadding \/ match allowed v with Some ok => ok (frame_type f) = true | None => True end.

Lemma deliver_fields v fs :
  handles (deliver v fs) = handles v /\ allowed (deliver v fs) = allowed v /\
  calls (deliver v fs) = calls v ++ filter (fun f => handles v f = true) fs /\
  nonProbing (deliver v fs) = nonProbing v || existsb (fun f => negb (quicIsProbingFrame (frame_type f))) fs.
Proof.
  revert v. induction fs as [|f fs IH]; intros v; cbn [deliver fold_left existsb].
  { rewrite filter_nil, app_nil_r, orb_false_r. done. }
  fold (deliver (visit (mark v f) (Some f)) fs).
  destruct (IH (visit (mark v f) (Some f))) as (-> & -> & -> & ->).
  assert (Hm : handles (mark v f) = handles v /\ allowed (mark v f) = allowed v /\
    calls (mark v f) = calls v /\
    nonProbing (mark v f) = nonProbing v || negb (quicIsProbingFrame (frame_type f))).
  { unfold mark. destruct (nonProbing v) eqn:?, (quicIsProbingFrame _); cbn; auto. }
  destruct Hm as (Hh & Ha & Hc & Hn). cbn [visit]. rewrite Hh, filter_cons.
  destruct (handles v f) eqn:Hhf; cbn; rewrite ?Hh, ?Ha, ?Hc, ?Hn, <- ?app_assoc; cbn;
    rewrite ?orb_assoc; done.
Qed.

Lemma rest_head p : parser_wf p -> 0 < remaining p -> rest p = znth (p_data p) (p_off p) :: zdrop (p_off p + 1) (p_data p).
Proof.
  intros (Ho & _ & _) Hr. unfold remaining in Hr. unfold rest, zdrop, znth, zlen in *.
  replace (Z.to_nat (p_off p + 1)) with (S (Z.to_nat (p_off p))) by lia.
  destruct (lookup_lt_is_Some_2 (p_data p) (Z.to_nat (p_off p))) as [x Hx]; [lia |].
  rewrite (drop_S _ x) by done. f_equal. symmetry. by apply nth_lookup_Some.
Qed.

Lemma frame_type_small f : frame_wf f -> f <> onPadding -> 0 < frame_type f < 64.
Proof. destruct f; try done; intros _ _; cbn; repeat split_if; done. Qed.

Lemma parseFramesStep_app f p v tail : frame_wf f -> allows v f -> parser_wf p ->
  rest p = encode_frame f ++ tail ->
  exists p', parseFramesStep p v = (visit (mark v f) (Some f), Ok p') /\ parser_wf p' /\ rest p' = tail.
Proof.
  intros Hwf Hal Hw Hr. rewrite encode_frame_shape in Hr by done. cbn [app] in Hr.
  assert (Hlen : 0 < remaining p).
  { rewrite <- rest_len, Hr, zlen_cons by done. pose proof (zlen_nonneg (frame_body f ++ tail)). lia. }
  pose proof (rest_head p Hw Hlen) as Hh. rewrite Hr in Hh. injection Hh as Hb _.
  unfold parseFramesStep. rewrite <- Hb.
  destruct (decide (frame_type f = 0)) as [H0 | H0].
  { assert (f = onPadding) as ->.
    { destruct f; try done; pose proof (frame_type_small _ Hwf ltac:(done)); lia. }
    cbn. destruct (advance_wf p 1 Hw) as (Hw' & _ & Hr'); [lia |]. exists (advance p 1).
    split; [| split; [done | by rewrite Hr', Hr]].
    unfold mark. cbn. rewrite andb_false_r. done. }
  replace (frame_type f =? 0) with false by lia.
  assert (Hne : f <> onPadding) by (intros ->; done).
  pose proof (frame_type_small f Hwf Hne) as Ht.
  destruct (readVarint_app p (frame_type f) (frame_body f ++ tail) Hw) as (q & -> & Hq & Hqr);
    [unfold var62; lia | by rewrite enc_small by lia |].
  destruct (parseFrameBody_app f q tail Hne Hwf Hq Hqr) as (p' & -> & Hp' & Hpr).
  exists p'. split; [| done]. destruct Hal as [-> | Hal]; [done |].
  destruct (allowed v) as [ok |]; [rewrite Hal |]; done.
Qed.

Lemma parseFramesLoop_app fs fuel p v : Forall frame_wf fs -> Forall (allows v) fs -> parser_wf p ->
  rest p = flat_map encode_frame fs -> (length (flat_map encode_frame fs) <= fuel)%nat ->
  parseFramesLoop fuel p v = Some (deliver v fs, None).
Proof.
  revert fuel p v. induction fs as [|f fs IH]; intros fuel p v Hwf Hal Hw Hr Hf.
  - pose proof (rest_len p Hw) as Hl. rewrite Hr in Hl. cbn in Hl.
    destruct fuel; cbn [parseFramesLoop]; replace (0 <? remaining p) with false by (unfold zlen in Hl; simpl in Hl; lia); done.
  - inversion Hwf as [| ? ? Hwf1 Hwf2]; subst. inversion Hal as [| ? ? Hal1 Hal2]; subst.
    pose proof (rest_len p Hw) as Hl. rewrite Hr in Hl. cbn [flat_map] in *.
    pose proof Hr as Hr'. rewrite encode_frame_shape in Hl, Hf by done. cbn [app] in Hl, Hf.
    rewrite zlen_cons in Hl. pose proof (zlen_nonneg (frame_body f ++ flat_map encode_frame fs)).
    destruct fuel as [|fuel]; [simpl in Hf; lia |]. cbn [parseFramesLoop].
    replace (0 <? remaining p) with true by lia.
    destruct (parseFramesStep_app f p v (flat_map encode_frame fs) Hwf1 Hal1 Hw Hr') as (q & -> & Hq & Hqr).
    apply IH; [done | | done | done | simpl in Hf; rewrite length_app in Hf; lia].
    destruct (deliver_fields v [f]) as (_ & Ha & _). cbn [deliver fold_left] in Ha.
    eapply Forall_impl; [| exact Hal2]. intros g Hg. unfold allows in *. by rewrite Ha.
Qed.

Lemma enc_ok v : Forall is_u8 (enc v).
Proof. apply quicAppendVarint_ok. Qed.

Lemma ranges_enc_ok rs : Forall is_u8 (ranges_enc rs).
Proof.
  induction rs as [|r rs IH]; [constructor |]. cbn [ranges_enc flat_map].
  repeat apply Forall_app_2; auto using enc_ok.
Qed.

Lemma encode_frames_ok fs : Forall frame_wf fs -> bytes_ok (flat_map encode_frame fs).
Proof.
  induction 1 as [|f fs Hf _ IH]; [constructor |]. cbn [flat_map]. apply Forall_app_2; [| done].
  rewrite encode_frame_shape by done. constructor.
  { destruct f; try (pose proof (frame_type_small _ Hf ltac:(done)); unfold is_u8; lia).
    vm_compute; intuition congruence. }
  clear IH. destruct f; cbn [frame_body frame_wf] in *; unfold blob in *; split_wf;
    repeat (split_if || apply Forall_app_2 || apply Forall_nil_2 || apply Forall_cons_2);
    auto using enc_ok, ranges_enc_ok.
  pose proof (zlen_nonneg (nc_connID f)). unfold is_u8. lia.
Qed.

(** ** Properties *)

(** [quicParseFrames] is total and never panics. On any payload of bytes,
    whatever the visitor, the loop returns within as many iterations as the
    payload has bytes; it ends with [nil] or with one of the three errors of
    the code, never with a slice out of range; and the callbacks made before
    the call stay the first ones, so a later malformed frame does not undo
    frames already delivered. *)
Theorem quicParseFrames_total data v : bytes_ok data -> zlen data < 2 ^ 62 ->
  exists v' err, quicParseFrames data v = Some (v', err) /\ err <> Some errPanic /\
    calls v `prefix_of` calls v'.
Proof.
  intros Hb Hl. apply parseFramesLoop_spec; unfold parser_wf, remaining; cbn; pose proof (zlen_nonneg data).
  - repeat split; (done || lia).
  - unfold zlen. lia.
Qed.

Lemma quicParseFrames_total_witness :
  exists v' err, quicParseFrames [6; 0; 255] {| handles := fun _ => true; allowed := None; nonProbing := false; calls := [] |}
    = Some (v', err) /\ err <> Some errPanic /\ [] `prefix_of` calls v'.
Proof.
  apply (quicParseFrames_total [6; 0; 255] {| handles := fun _ => true; allowed := None; nonProbing := false; calls := [] |}).
  - repeat constructor; unfold is_u8; lia.
  - vm_compute. reflexivity.
Defined.

(** Round trip of whole payloads. For every sequence of well-formed frames
    the visitor's guard admits, parsing the concatenation of what the
    encoders append returns no error and makes exactly one call per frame that
    has its callback set, in order and with the encoded fields; the
    non-probing flag is raised exactly when some frame is not a probing
    frame. *)
Theorem quicFrames_roundtrip fs v : Forall frame_wf fs -> Forall (allows v) fs ->
  zlen (flat_map encode_frame fs) < 2 ^ 62 ->
  exists v', quicParseFrames (flat_map encode_frame fs) v = Some (v', None) /\
    calls v' = calls v ++ filter (fun f => handles v f = true) fs /\
    nonProbing v' = nonProbing v || existsb (fun f => negb (quicIsProbingFrame (frame_type f))) fs.
Proof.
  intros Hwf Hal Hl. pose proof (encode_frames_ok fs Hwf) as Hb. exists (deliver v fs). split.
  - apply parseFramesLoop_app; [done | done | | done | done].
    unfold parser_wf. cbn. pose proof (zlen_nonneg (flat_map encode_frame fs)). repeat split; (done || lia).
  - destruct (deliver_fields v fs) as (_ & _ & Hc & Hn). done.
Qed.

Definition demo_frames : list quicFrame :=
  [onPadding; onCrypto {| cf_offset := 1200; cf_data := [1; 2; 3] |};
   onACK {| af_largestAck := 90; af_ackDelay := 8; af_firstRange := 3;
            af_ranges := [{| ar_gap := 1; ar_count := 70 |}] |};
   onStream {| sf_streamID := 4; sf_offset := 70000; sf_data := [7]; sf_fin := true |}].
Definition demo_visitor : quicFrameVisitor :=
  {| handles := fun f => match f with onPadding => false | _ => true end;
     allowed := None; nonProbing := false; calls := [] |}.

Lemma quicFrames_roundtrip_witness :
  exists v', quicParseFrames (flat_map encode_frame demo_frames) demo_visitor = Some (v', None) /\
    calls v' = calls demo_visitor ++ filter (fun f => handles demo_visitor f = true) demo_frames /\
    nonProbing v' = nonProbing demo_visitor ||
      existsb (fun f => negb (quicIsProbingFrame (frame_type f))) demo_frames.
Proof.
  apply (quicFrames_roundtrip demo_frames demo_visitor).
  - repeat constructor; vm_compute; intuition congruence.
  - repeat constructor; right; exact I.
  - vm_compute. reflexivity.
Defined.
