(* ===== verification/QuicAck.v ===== *)
(** Received packet numbers of one QUIC packet-number space
    (src/core/quic_ack.go): the descending range list, its duplicate filter
    [recordRecvPN], and the ACK frame built from the ranges. *)
From stdpp Require Import base list numbers.
From Stdlib Require Import ZArith Lia ZifyBool.
From S2P Require Import Prelude QuicVarint QuicFrame.

(** ** State and operations *)

Definition maxAckRanges : Z := 32.

Record pnRange := { lo : Z; hi : Z }.

(** [qc.ackFloor[space]] and [qc.ackRanges[space]]. *)
Record ackSpace := { ackFloor : Z; ackRanges : list pnRange }.

(** The scan of the range list: [None] is the early [return false], [Some]
    the index to insert at. *)
Fixpoint findInsert (rs : list pnRange) (pn : Z) : option nat :=
  match rs with
  | [] => Some 0%nat
  | r :: rs =>
      if (lo r <=? pn) && (pn <=? hi r) then None
      else if hi r <? pn then Some 0%nat
      else option_map S (findInsert rs pn)
  end.

(** The in-place merge: [last] is the last element of [merged], the result the
    elements from it on. *)
Fixpoint mergeRanges (last : pnRange) (rs : list pnRange) : list pnRange :=
  match rs with
  | [] => [last]
  | r :: rs =>
      if lo last <=? u64 (hi r + 1)
      then mergeRanges (if lo r <? lo last then {| lo := lo r; hi := hi last |} else last) rs
      else last :: mergeRanges r rs
  end.

Definition recordRecvPN (st : ackSpace) (pn : Z) : bool * ackSpace :=
  if pn <? ackFloor st then (false, st) else
  match findInsert (ackRanges st) pn with
  | None => (false, st)
  | Some idx =>
      let rs := take idx (ackRanges st) ++ {| lo := pn; hi := pn |} :: drop idx (ackRanges st) in
      let merged := match rs with r0 :: tl => mergeRanges r0 tl | [] => [] end in
      if maxAckRanges <? zlen merged then
        let merged := ztake maxAckRanges merged in
        (true, {| ackFloor := Z.max (ackFloor st)
                                (default 0 (lo <$> merged !! Z.to_nat (maxAckRanges - 1)));
                  ackRanges := merged |})
      else (true, {| ackFloor := ackFloor st; ackRanges := merged |})
  end.

(** The tail of the frame: [prevLo] is the low end of the previous range. *)
Fixpoint appendAckGaps (dst : bytes) (prevLo : Z) (rs : list pnRange) : bytes :=
  match rs with
  | [] => dst
  | r :: rs =>
      let dst := quicAppendVarint dst (u64 (prevLo - hi r - 2)) in
      let dst := quicAppendVarint dst (u64 (hi r - lo r)) in
      appendAckGaps dst (lo r) rs
  end.

Definition quicAppendACKFrameRanges (dst : bytes) (ackDelay : Z) (ranges : list pnRange) : bytes :=
  match ranges with
  | [] => dst
  | r0 :: tl =>
      let dst := quicAppendVarint dst quicFrameACK in
      let dst := quicAppendVarint dst (hi r0) in
      let dst := quicAppendVarint dst ackDelay in
      let dst := quicAppendVarint dst (u64 (zlen ranges - 1)) in
      let dst := quicAppendVarint dst (u64 (hi r0 - lo r0)) in
      appendAckGaps dst (lo r0) tl
  end.

(** ** The abstract set of a range list *)

Definition in_range (x : Z) (r : pnRange) : Prop := lo r <= x <= hi r.
Definition in_ranges (x : Z) (rs : list pnRange) : Prop := Exists (in_range x) rs.

(** Ranges in descending order, each at least [gap + 1] above the next. *)
Fixpoint desc (gap : Z) (rs : list pnRange) : Prop :=
  match rs with
  | [] => True
  | r :: rs' =>
      0 <= lo r <= hi r /\ hi r < 2 ^ 62 /\
      match rs' with [] => True | r' :: _ => hi r' + gap < lo r end /\ desc gap rs'
  end.

(** The invariant of a packet-number space: maximal disjoint ranges in
    descending order, at most [maxAckRanges] of them, none below the floor. *)
Definition ack_wf (st : ackSpace) : Prop :=
  desc 1 (ackRanges st) /\ zlen (ackRanges st) <= maxAckRanges /\ 0 <= ackFloor st /\
  forall x, in_ranges x (ackRanges st) -> ackFloor st <= x.

Definition ack_init : ackSpace := {| ackFloor := 0; ackRanges := [] |}.

(** ** Lemmas *)

Lemma in_ranges_cons x r rs : in_ranges x (r :: rs) <-> in_range x r \/ in_ranges x rs.
Proof. apply Exists_cons. Qed.
Lemma in_ranges_nil x : ~ in_ranges x [].
Proof. intros H. inversion H. Qed.
Lemma in_ranges_app x rs rs' : in_ranges x (rs ++ rs') <-> in_ranges x rs \/ in_ranges x rs'.
Proof. apply Exists_app. Qed.

Lemma desc_mono gap gap' rs : gap' <= gap -> desc gap rs -> desc gap' rs.
Proof.
  intros Hg. induction rs as [|r rs IH]; [done |]. intros (H1 & H2 & H3 & H4).
  split; [done |]. split; [done |]. split; [| auto]. destruct rs; [done | lia].
Qed.

Lemma desc_head_min gap r rs x : 0 <= gap -> desc gap (r :: rs) -> in_ranges x rs -> x + gap < lo r.
Proof.
  intros Hg. revert r. induction rs as [|r' rs IH]; intros r Hd Hx; [by apply in_ranges_nil in Hx |].
  destruct Hd as (H1 & H2 & H3 & H4). rewrite in_ranges_cons in Hx. destruct Hx as [Hx | Hx].
  - unfold in_range in Hx. lia.
  - specialize (IH r' H4 Hx). destruct H4 as (H4 & _). lia.
Qed.

Lemma desc_tail gap r rs : desc gap (r :: rs) -> desc gap rs.
Proof. by intros (_ & _ & _ & H). Qed.

Lemma findInsert_spec rs pn : desc 1 rs -> 0 <= pn < 2 ^ 62 ->
  match findInsert rs pn with
  | None => in_ranges pn rs
  | Some idx =>
      ~ in_ranges pn rs /\ (idx <= length rs)%nat /\
      desc 0 (take idx rs ++ {| lo := pn; hi := pn |} :: drop idx rs)
  end.
Proof.
  intros Hd Hpn. induction rs as [|r rs IH]; cbn [findInsert].
  { repeat split; cbn; try lia. apply in_ranges_nil. }
  pose proof Hd as (H1 & H2 & H3 & H4). specialize (IH H4).
  split_if; [rewrite in_ranges_cons; left; unfold in_range; lia |]. split_if.
  - split; [| split; [simpl; lia |]].
    + rewrite in_ranges_cons. intros [Hx | Hx]; [unfold in_range in Hx; lia |].
      pose proof (desc_head_min 1 r rs pn ltac:(lia) Hd Hx). lia.
    + split; cbn [take drop app lo hi]; [lia |]. split; [lia |]. split; [lia |].
      by apply (desc_mono 1 0); [lia |].
  - destruct (findInsert rs pn) as [idx |]; cbn [option_map].
    + destruct IH as (Hn & Hi & Hd'). split; [| split; [simpl; lia |]].
      * rewrite in_ranges_cons. intros [Hx | Hx]; [unfold in_range in Hx; lia | done].
      * cbn [take drop app]. split; [done |]. split; [done |]. split; [| done].
        destruct rs as [|r' rs]; destruct idx; cbn [take drop app lo hi]; lia.
    + rewrite in_ranges_cons. by right.
Qed.

Lemma in_ranges_insert x idx rs r :
  in_ranges x (take idx rs ++ r :: drop idx rs) <-> in_range x r \/ in_ranges x rs.
Proof.
  rewrite in_ranges_app, in_ranges_cons. rewrite <- (take_drop idx rs) at 3.
  rewrite in_ranges_app. tauto.
Qed.

Lemma mergeRanges_spec rs last : desc 0 (last :: rs) ->
  desc 1 (mergeRanges last rs) /\
  (forall x, in_ranges x (mergeRanges last rs) <-> in_ranges x (last :: rs)) /\
  match mergeRanges last rs with r :: _ => hi r = hi last | [] => False end.
Proof.
  revert last. induction rs as [|r rs IH]; intros last Hd; cbn [mergeRanges].
  { destruct Hd as (H1 & H2 & _). cbn. done. }
  pose proof Hd as (H1 & H2 & H3 & H4). pose proof H4 as (H5 & H6 & H7 & H8).
  rewrite u64_small by lia. destruct (lo last <=? hi r + 1) eqn:Hm.
  - replace (lo r <? lo last) with true by lia.
    destruct (IH {| lo := lo r; hi := hi last |}) as (Hd' & Hin & Hh).
    { split; cbn [lo hi]; [lia |]. split; [done |]. split; [| done]. destruct rs; [done | lia]. }
    split; [done |]. split; [| done]. intros x. rewrite Hin, !in_ranges_cons.
    unfold in_range. cbn [lo hi]. split; intros [Hx | Hx]; try tauto.
    + destruct (decide (x <= hi r)); [right; left; lia | left; lia].
    + left. lia.
    + destruct Hx as [Hx | Hx]; [left; lia | by right].
  - destruct (IH r H4) as (Hd' & Hin & Hh). split; [| split].
    + split; [done |]. split; [done |]. split; [| done].
      destruct (mergeRanges r rs); [done | lia].
    + intros x. by rewrite in_ranges_cons, Hin, !in_ranges_cons.
    + done.
Qed.

Lemma desc_lookup gap rs k r : desc gap rs -> rs !! k = Some r -> in_ranges (lo r) rs.
Proof.
  revert k. induction rs as [|r' rs IH]; intros [|k] Hd Hk; try done; rewrite in_ranges_cons.
  - injection Hk as ->. left. destruct Hd as (? & _). unfold in_range. lia.
  - right. exact (IH k (desc_tail _ _ _ Hd) Hk).
Qed.

(** Keeping the first [k] ranges keeps exactly the numbers above the lowest
    one kept. *)
Lemma desc_take k rs rk : desc 1 rs -> rs !! k = Some rk ->
  desc 1 (take (S k) rs) /\
  forall x, in_ranges x (take (S k) rs) <-> in_ranges x rs /\ lo rk <= x.
Proof.
  revert rs. induction k as [|k IH]; intros [|r rs] Hd Hk; try done; cbn [take].
  - injection Hk as ->. pose proof Hd as (H1 & H2 & _ & _). split; [done |]. intros x.
    rewrite !in_ranges_cons. unfold in_range. split.
    + intros [Hx | Hx]; [split; [by left | lia] | by apply in_ranges_nil in Hx].
    + intros [[Hx | Hx] Hl]; [by left |]. pose proof (desc_head_min 1 rk rs x ltac:(lia) Hd Hx). lia.
  - pose proof Hd as (H1 & H2 & H3 & H4). destruct (IH rs H4 Hk) as [Hd' Hin].
    assert (Hrk : in_ranges (lo rk) rs).
    { by apply (desc_lookup 1 rs k rk). }
    pose proof (desc_head_min 1 r rs _ ltac:(lia) Hd Hrk) as Hlt.
    split.
    + split; [done |]. split; [done |]. split; [| done]. destruct rs; [done | done].
    + intros x. cbn [take] in Hin. rewrite !in_ranges_cons, Hin. unfold in_range. split; [| tauto].
      intros [Hx | Hx]; [split; [by left | lia] | tauto].
Qed.

(** What one call does, on every branch. *)
Lemma recordRecvPN_spec st pn : ack_wf st -> 0 <= pn < 2 ^ 62 ->
  let '(ok, st') := recordRecvPN st pn in
  ack_wf st' /\ ackFloor st <= ackFloor st' /\
  (ok = false <-> pn < ackFloor st \/ in_ranges pn (ackRanges st)) /\
  (ok = false -> st' = st) /\
  (forall x, ackFloor st' <= x ->
     (in_ranges x (ackRanges st') <-> in_ranges x (ackRanges st) \/ (ok = true /\ x = pn))).
Proof.
  intros Hwf Hpn. pose proof Hwf as (Hd & Hlen & Hf0 & Hfl). unfold recordRecvPN.
  assert (Hrej : pn < ackFloor st \/ in_ranges pn (ackRanges st) ->
    ack_wf st /\ ackFloor st <= ackFloor st /\
    (false = false <-> pn < ackFloor st \/ in_ranges pn (ackRanges st)) /\ (false = false -> st = st) /\
    forall x, ackFloor st <= x ->
      (in_ranges x (ackRanges st) <-> in_ranges x (ackRanges st) \/ (false = true /\ x = pn))).
  { intros Hc. split; [done |]. split; [lia |]. split; [tauto |]. split; [done |].
    intros x _. split; [tauto |]. intros [? | [? _]]; done. }
  destruct (pn <? ackFloor st) eqn:Hlow; [apply Hrej; left; lia |].
  pose proof (findInsert_spec _ pn Hd Hpn) as Hfi.
  destruct (findInsert (ackRanges st) pn) as [idx |].
  2:{ apply Hrej. by right. }
  destruct Hfi as (Hnin & _ & Hd0).
  pose proof (fun x => in_ranges_insert x idx (ackRanges st) {| lo := pn; hi := pn |}) as Hins.
  assert (exists r0 tl, take idx (ackRanges st) ++ {| lo := pn; hi := pn |} :: drop idx (ackRanges st)
    = r0 :: tl) as (r0 & tl & Hrs) by (destruct (take idx (ackRanges st)); cbn; eauto).
  rewrite Hrs in *.
  destruct (mergeRanges_spec tl r0 Hd0) as (Hm & Hin & _).
  assert (Hset : forall x, in_ranges x (mergeRanges r0 tl) <-> x = pn \/ in_ranges x (ackRanges st)).
  { intros x. rewrite Hin, Hins. unfold in_range. cbn [lo hi]. intuition lia. }
  assert (Hge : forall x, in_ranges x (mergeRanges r0 tl) -> ackFloor st <= x).
  { intros x [-> | Hx]%Hset; [lia | auto]. }
  cbv zeta. destruct (maxAckRanges <? zlen (mergeRanges r0 tl)) eqn:Hbig.
  2:{ split; [refine (conj Hm (conj _ (conj Hf0 Hge))); cbn [ackRanges]; lia |]. cbn [ackFloor ackRanges].
      split; [lia |].
      split; [split; [done | intros [? | ?]; [lia | done]] |]. split; [done |].
      intros x _. rewrite Hset. tauto. }
  unfold maxAckRanges, zlen in Hbig.
  destruct (lookup_lt_is_Some_2 (mergeRanges r0 tl) 31) as [rk Hrk]; [lia |].
  destruct (desc_take 31 _ rk Hm Hrk) as [Hdt Hint].
  change (ztake maxAckRanges ?l) with (take 32 l) in *.
  change (Z.to_nat (maxAckRanges - 1)) with 31%nat.
  rewrite lookup_take_lt, Hrk by lia. change (default 0 (lo <$> Some rk)) with (lo rk).
  assert (Hrk_in : in_ranges (lo rk) (mergeRanges r0 tl)).
  { by apply (desc_lookup 1 _ 31 rk). }
  assert (Hfloor : Z.max (ackFloor st) (lo rk) = lo rk) by (specialize (Hge _ Hrk_in); lia).
  rewrite Hfloor. split; [| split; [cbn; specialize (Hge _ Hrk_in); lia |]].
  - split; [done |]. split; [unfold zlen, maxAckRanges; cbn [ackRanges]; rewrite length_take; lia |].
    cbn [ackFloor ackRanges]. split; [specialize (Hge _ Hrk_in); lia |]. intros x Hx. by destruct (proj1 (Hint x) Hx).
  - split; [split; [done | intros [? | ?]; [lia | done]] |]. split; [done |].
    cbn [ackFloor ackRanges]. intros x Hx. rewrite Hint, Hset. tauto.
Qed.

(** ** Sequences of packets *)

(** The packet numbers [recordRecvPN] lets through, in order, and the final state. *)
Fixpoint recordAll (st : ackSpace) (pns : list Z) : list Z * ackSpace :=
  match pns with
  | [] => ([], st)
  | pn :: pns =>
      let '(ok, st) := recordRecvPN st pn in
      let '(acc, st) := recordAll st pns in
      (if ok then pn :: acc else acc, st)
  end.

Lemma recordAll_spec pns st : ack_wf st -> Forall (fun pn => 0 <= pn < 2 ^ 62) pns ->
  let '(acc, st') := recordAll st pns in
  ack_wf st' /\ ackFloor st <= ackFloor st' /\ NoDup acc /\
  (forall x, x ∈ acc -> x ∈ pns /\ ackFloor st <= x /\ ~ in_ranges x (ackRanges st)) /\
  (forall x, ackFloor st' <= x -> (in_ranges x (ackRanges st') <-> in_ranges x (ackRanges st) \/ x ∈ acc)) /\
  (forall x, x ∈ pns -> ackFloor st' <= x -> x ∈ acc \/ in_ranges x (ackRanges st)).
Proof.
  revert st. induction pns as [|pn pns IH]; intros st Hwf Hpns; cbn [recordAll].
  { split; [done |]. split; [lia |]. split; [constructor |]. split; [by intros x Hx%not_elem_of_nil |].
    split; [| by intros x Hx%not_elem_of_nil].
    intros x _. split; [by left | intros [? | Hx%not_elem_of_nil]; done]. }
  inversion Hpns as [| ? ? Hpn Hrest]; subst.
  pose proof (recordRecvPN_spec st pn Hwf Hpn) as Hr. destruct (recordRecvPN st pn) as [ok st1].
  destruct Hr as (Hwf1 & Hfl & Hok & Hsame & Hset). specialize (IH st1 Hwf1 Hrest).
  destruct (recordAll st1 pns) as [acc st2]. destruct IH as (Hwf2 & Hfl2 & Hnd & Hacc & Hset2 & Hcov).
  split; [done |]. split; [lia |].
  assert (Hpn_acc : ok = true -> ~ pn ∈ acc).
  { intros Ht Hx. destruct (Hacc pn Hx) as (_ & Hge & Hni). apply Hni. rewrite Hset by done. by right. }
  assert (Hold : forall x, x ∈ acc -> x ∈ pn :: pns /\ ackFloor st <= x /\ ~ in_ranges x (ackRanges st)).
  { intros x Hx. destruct (Hacc x Hx) as (Hi & Hge & Hni). split; [by right |]. split; [lia |].
    intros Hc. apply Hni. rewrite Hset by done. by left. }
  destruct ok.
  - split; [constructor; auto |]. split.
    + intros x [-> | Hx]%elem_of_cons; [| auto]. split; [by left |].
      assert (~ (pn < ackFloor st \/ in_ranges pn (ackRanges st))) as Hn
        by (rewrite <- Hok; done). split; [lia | tauto].
    + split; [intros x Hx; rewrite Hset2, Hset, elem_of_cons by lia; intuition |].
      intros x [-> | Hx]%elem_of_cons Hge; [by left; left |].
      destruct (Hcov x Hx Hge) as [? | Hx1]; [by left; right |].
      apply Hset in Hx1; [| lia]. destruct Hx1 as [? | [_ ->]]; [by right | by left; left].
  - specialize (Hsame eq_refl). subst st1. split; [done |]. split; [done |].
    split; [intros x Hx; by rewrite Hset2 |].
    intros x [-> | Hx]%elem_of_cons Hge; [| auto].
    destruct (proj1 Hok eq_refl) as [? | ?]; [lia | by right].
Qed.

Lemma ack_init_wf : ack_wf ack_init.
Proof. split; [done |]. split; [done |]. split; [done |]. by intros x Hx%in_ranges_nil. Qed.

(** ** Properties *)

(** C35: duplicate suppression. Over any sequence of packet numbers received on
    a fresh packet-number space, no number is let through twice, whatever the
    order, repetition or gaps, also when old ranges are dropped at the limit
    of [maxAckRanges]; a first arrival at or above the final floor is let
    through; and the range list that will be acknowledged holds exactly the
    numbers let through from the floor up (nothing that was not received). *)
Theorem recv_pn_at_most_once pns : Forall (fun pn => 0 <= pn < 2 ^ 62) pns ->
  let '(acc, st) := recordAll ack_init pns in
  NoDup acc /\ (forall x, x ∈ acc -> x ∈ pns) /\
  (forall x, x ∈ pns -> ackFloor st <= x -> x ∈ acc) /\
  (forall x, ackFloor st <= x -> (in_ranges x (ackRanges st) <-> x ∈ acc)).
Proof.
  intros Hpns. pose proof (recordAll_spec pns ack_init ack_init_wf Hpns) as H.
  destruct (recordAll ack_init pns) as [acc st]. destruct H as (_ & _ & Hnd & Hacc & Hset & Hcov).
  split; [done |]. split; [intros x Hx; by apply Hacc |]. split.
  - intros x Hx Hge. destruct (Hcov x Hx Hge) as [? | Hn]; [done | by apply in_ranges_nil in Hn].
  - intros x Hx. rewrite Hset by done. split; [intros [Hn | ?]; [by apply in_ranges_nil in Hn | done] | by right].
Qed.

Lemma recv_pn_at_most_once_witness :
  let '(acc, st) := recordAll ack_init [3; 1; 3; 2; 9; 1] in
  NoDup acc /\ (forall x, x ∈ acc -> x ∈ [3; 1; 3; 2; 9; 1]) /\
  (forall x, x ∈ [3; 1; 3; 2; 9; 1] -> ackFloor st <= x -> x ∈ acc) /\
  (forall x, ackFloor st <= x -> (in_ranges x (ackRanges st) <-> x ∈ acc)).
Proof. apply (recv_pn_at_most_once [3; 1; 3; 2; 9; 1]). repeat constructor; lia. Defined.

(** The range list stays canonical. From any state that satisfies the
    invariant, recording a packet number keeps it: at most 32 maximal,
    disjoint, non-adjacent ranges in descending order, none below the floor;
    the floor never moves down; and the call returns [false], changing
    nothing, exactly for a number below the floor or already recorded. *)
Theorem recordRecvPN_invariant st pn : ack_wf st -> 0 <= pn < 2 ^ 62 ->
  ack_wf (snd (recordRecvPN st pn)) /\ ackFloor st <= ackFloor (snd (recordRecvPN st pn)) /\
  (fst (recordRecvPN st pn) = false <-> pn < ackFloor st \/ in_ranges pn (ackRanges st)) /\
  (fst (recordRecvPN st pn) = false -> snd (recordRecvPN st pn) = st).
Proof.
  intros Hwf Hpn. pose proof (recordRecvPN_spec st pn Hwf Hpn) as H.
  destruct (recordRecvPN st pn) as [ok st']. cbn [fst snd]. tauto.
Qed.

Definition demo_ack : ackSpace := {| ackFloor := 0; ackRanges := [{| lo := 5; hi := 7 |}; {| lo := 1; hi := 3 |}] |}.

Lemma recordRecvPN_invariant_witness :
  ack_wf (snd (recordRecvPN demo_ack 4)) /\ ackFloor demo_ack <= ackFloor (snd (recordRecvPN demo_ack 4)) /\
  (fst (recordRecvPN demo_ack 4) = false <-> 4 < ackFloor demo_ack \/ in_ranges 4 (ackRanges demo_ack)) /\
  (fst (recordRecvPN demo_ack 4) = false -> snd (recordRecvPN demo_ack 4) = demo_ack).
Proof.
  apply (recordRecvPN_invariant demo_ack 4); [| lia]. unfold ack_wf, demo_ack. cbn.
  repeat split; try (vm_compute; congruence); try lia.
  intros x Hx. rewrite !in_ranges_cons in Hx. unfold in_range in Hx. cbn in Hx.
  destruct Hx as [? | [? | Hx%in_ranges_nil]]; [lia | lia | done].
Defined.
