(* ===== verification/QuicOOO.v ===== *)
(** The out-of-order segment store of a QUIC receive stream
    (src/core/quic_ooo_list.go): a list of chunks of at most 64 segments with
    binary search. The file gives the operations, the interface
    [OOOStore] the stream code is verified against, and the proof that the
    chunked list implements it: every operation acts as the plain list
    operation on the concatenation of the chunks. The fields [inline] and
    [spare] only recycle backing arrays and are not part of the state. *)
From stdpp Require Import base list numbers.
From Stdlib Require Import ZArith Lia ZifyBool.
From S2P Require Import Prelude.

(** ** Data *)

Definition quicOOOChunkLen : nat := 64.

Record quicOOOSegment := { seg_off : Z; seg_data : bytes }.

Definition seg_end (seg : quicOOOSegment) : Z := u64 (seg_off seg + zlen (seg_data seg)).

Record quicOOOPos := { pos_chunk : nat; pos_idx : nat }.

Record quicOOOList := { chunks : list (list quicOOOSegment); count : Z }.

Definition ooo_empty : quicOOOList := {| chunks := []; count := 0 |}.
Definition ooo_begin : quicOOOPos := {| pos_chunk := 0; pos_idx := 0 |}.

(** ** Operations *)

(** [sort.Search]: the loop keeps [f] false below [i] and true from [j] on. *)
Fixpoint searchLoop (fuel : nat) (f : nat -> bool) (i j : nat) : nat :=
  match fuel with
  | O => i
  | S fuel =>
      if Nat.ltb i j then
        let h := Nat.div2 (i + j) in
        if f h then searchLoop fuel f i h else searchLoop fuel f (S h) j
      else i
  end.
Definition sort_Search (n : nat) (f : nat -> bool) : nat := searchLoop n f 0 n.

Definition ooo_len (l : quicOOOList) : Z := count l.

Definition chunk_at (l : quicOOOList) (c : nat) : list quicOOOSegment := nth c (chunks l) [].
Definition last_of (ch : list quicOOOSegment) : option quicOOOSegment := ch !! pred (length ch).

Definition ooo_last (l : quicOOOList) : option quicOOOSegment :=
  last_of (chunk_at l (pred (length (chunks l)))).

Definition endPos (l : quicOOOList) : quicOOOPos := {| pos_chunk := length (chunks l); pos_idx := 0 |}.

(** [s != nil && s.end() > off]. *)
Definition ends_after (off : Z) (s : option quicOOOSegment) : bool :=
  match s with Some s => off <? seg_end s | None => false end.

Definition firstEndingAfter (l : quicOOOList) (off : Z) : quicOOOPos :=
  if (count l =? 0) || negb (ends_after off (ooo_last l)) then endPos l else
  let c := sort_Search (length (chunks l)) (fun c => ends_after off (last_of (chunk_at l c))) in
  let ch := chunk_at l c in
  {| pos_chunk := c; pos_idx := sort_Search (length ch) (fun i => ends_after off (ch !! i)) |}.

Definition ooo_at (l : quicOOOList) (p : quicOOOPos) : option quicOOOSegment :=
  if Nat.leb (length (chunks l)) (pos_chunk p) then None
  else chunk_at l (pos_chunk p) !! pos_idx p.

(** The slot [before] points to. *)
Definition ooo_before (l : quicOOOList) (p : quicOOOPos) : option quicOOOPos :=
  if Nat.ltb 0 (pos_idx p) then Some {| pos_chunk := pos_chunk p; pos_idx := pred (pos_idx p) |}
  else if Nat.eqb (pos_chunk p) 0 then None
  else Some {| pos_chunk := pred (pos_chunk p);
               pos_idx := pred (length (chunk_at l (pred (pos_chunk p)))) |}.

Definition ooo_next (l : quicOOOList) (p : quicOOOPos) : quicOOOPos :=
  if Nat.ltb (pos_idx p + 1) (length (chunk_at l (pos_chunk p)))
  then {| pos_chunk := pos_chunk p; pos_idx := pos_idx p + 1 |}
  else {| pos_chunk := pos_chunk p + 1; pos_idx := 0 |}.

Definition slices_Insert {A} (l : list A) (i : nat) (x : A) : list A := take i l ++ x :: drop i l.

Definition ooo_split (l : quicOOOList) (p : quicOOOPos) : quicOOOList * quicOOOPos :=
  let half := Nat.div2 quicOOOChunkLen in
  let ch := chunk_at l (pos_chunk p) in
  let right := drop half ch in
  let cs := <[pos_chunk p := take half ch]> (chunks l) in
  let cs := slices_Insert cs (pos_chunk p + 1) right in
  ({| chunks := cs; count := count l |},
   if Nat.ltb half (pos_idx p)
   then {| pos_chunk := pos_chunk p + 1; pos_idx := pos_idx p - half |} else p).

(** [l.chunks[p.chunk] = slices.Insert(l.chunks[p.chunk], p.idx, seg)]. *)
Definition insert_at (l : quicOOOList) (p : quicOOOPos) (seg : quicOOOSegment) : quicOOOList :=
  {| chunks := <[pos_chunk p := slices_Insert (chunk_at l (pos_chunk p)) (pos_idx p) seg]> (chunks l);
     count := count l |}.

(** The end of [insert], after the position has been moved into a chunk. *)
Definition insert_split (l : quicOOOList) (p : quicOOOPos) (seg : quicOOOSegment) : quicOOOList * quicOOOPos :=
  let '(l, p) := if Nat.eqb (length (chunk_at l (pos_chunk p))) quicOOOChunkLen then ooo_split l p else (l, p) in
  (insert_at l p seg, p).

Definition ooo_insert (l : quicOOOList) (p : quicOOOPos) (seg : quicOOOSegment) : quicOOOList * quicOOOPos :=
  let l := {| chunks := chunks l; count := count l + 1 |} in
  if Nat.eqb (length (chunks l)) 0 then ({| chunks := [[seg]]; count := count l |}, ooo_begin) else
  if Nat.eqb (pos_chunk p) (length (chunks l)) then
    let p := {| pos_chunk := pred (pos_chunk p); pos_idx := length (chunk_at l (pred (pos_chunk p))) |} in
    if Nat.eqb (pos_idx p) quicOOOChunkLen then
      ({| chunks := chunks l ++ [[seg]]; count := count l |},
       {| pos_chunk := pos_chunk p + 1; pos_idx := 0 |})
    else insert_split l p seg
  else insert_split l p seg.

(** [*l.at(p) = seg] through a pointer: the segment at [p] is replaced. *)
Definition ooo_set (l : quicOOOList) (p : quicOOOPos) (seg : quicOOOSegment) : quicOOOList :=
  {| chunks := <[pos_chunk p := <[pos_idx p := seg]> (chunk_at l (pos_chunk p))]> (chunks l);
     count := count l |}.

Fixpoint dropChunks (k : nat) (cs : list (list quicOOOSegment)) : list (list quicOOOSegment) :=
  match k, cs with
  | O, _ => cs
  | _, [] => []
  | _, ch :: cs => if Nat.ltb k (length ch) then drop k ch :: cs else dropChunks (k - length ch) cs
  end.

Definition ooo_dropFront (l : quicOOOList) (k : nat) : quicOOOList :=
  {| chunks := dropChunks k (chunks l); count := count l - Z.of_nat k |}.

(** ** The interface *)

(** What the stream relies on: a store [l] represents the segments [flat l]
    in order, a position denotes an index of that list, and each operation
    is the list operation. [sorted_ends] is what makes binary search
    right. *)
Definition sorted_ends (fl : list quicOOOSegment) : Prop :=
  forall i j a b, (i <= j)%nat -> fl !! i = Some a -> fl !! j = Some b -> seg_end a <= seg_end b.

Definition first_after (off : Z) (fl : list quicOOOSegment) (i : nat) : Prop :=
  (i <= length fl)%nat /\
  (forall j a, (j < i)%nat -> fl !! j = Some a -> seg_end a <= off) /\
  (forall j a, (i <= j)%nat -> fl !! j = Some a -> off < seg_end a).

Class OOOStore (L P : Type) := {
  st_empty : L;
  st_begin : P;
  st_len : L -> Z;
  st_last : L -> option quicOOOSegment;
  st_firstEndingAfter : L -> Z -> P;
  st_at : L -> P -> option quicOOOSegment;
  st_before : L -> P -> option P;
  st_next : L -> P -> P;
  st_insert : L -> P -> quicOOOSegment -> L * P;
  st_set : L -> P -> quicOOOSegment -> L;
  st_dropFront : L -> nat -> L;
}.

Class OOOStoreLaws (L P : Type) `{OOOStore L P} := {
  st_inv : L -> Prop;
  st_flat : L -> list quicOOOSegment;
  st_pos : L -> P -> nat -> Prop;
  st_empty_ok : st_inv st_empty /\ st_flat st_empty = [];
  st_begin_pos l : st_inv l -> st_pos l st_begin 0;
  st_len_flat l : st_inv l -> st_len l = zlen (st_flat l);
  st_last_flat l : st_inv l -> st_flat l <> [] -> st_last l = st_flat l !! pred (length (st_flat l));
  st_first_pos l off : st_inv l -> sorted_ends (st_flat l) ->
    exists i, st_pos l (st_firstEndingAfter l off) i /\ first_after off (st_flat l) i;
  st_at_flat l p i : st_inv l -> st_pos l p i -> st_at l p = st_flat l !! i;
  st_before_none l p : st_inv l -> st_pos l p 0 -> st_before l p = None;
  st_before_some l p i : st_inv l -> st_pos l p (S i) ->
    exists q, st_before l p = Some q /\ st_pos l q i;
  st_next_pos l p i : st_inv l -> st_pos l p i -> (i < length (st_flat l))%nat ->
    st_pos l (st_next l p) (S i);
  st_insert_flat l p i seg : st_inv l -> st_pos l p i ->
    let '(l', p') := st_insert l p seg in
    st_inv l' /\ st_flat l' = slices_Insert (st_flat l) i seg /\ st_pos l' p' i;
  st_set_flat l p i seg : st_inv l -> st_pos l p i -> (i < length (st_flat l))%nat ->
    st_inv (st_set l p seg) /\ st_flat (st_set l p seg) = <[i := seg]> (st_flat l) /\
    forall q j, st_pos l q j -> st_pos (st_set l p seg) q j;
  st_drop_flat l k : st_inv l -> (k <= length (st_flat l))%nat ->
    st_inv (st_dropFront l k) /\ st_flat (st_dropFront l k) = drop k (st_flat l);
}.

(** ** Binary search *)

Lemma div2_mid i j : (i < j)%nat -> (i <= Nat.div2 (i + j) < j)%nat.
Proof.
  intros H. rewrite Nat.div2_div. pose proof (Nat.div_mod_eq (i + j) 2).
  pose proof (Nat.mod_upper_bound (i + j) 2). lia.
Qed.

Lemma searchLoop_spec fuel f i j :
  (j - i <= fuel)%nat -> (i <= j)%nat ->
  (forall a b, (a <= b)%nat -> f a = true -> f b = true) ->
  let r := searchLoop fuel f i j in
  (i <= r <= j)%nat /\ (forall k, (i <= k < r)%nat -> f k = false) /\ (forall k, (r <= k < j)%nat -> f k = true).
Proof.
  intros Hf Hij Hmono. revert i j Hf Hij. induction fuel as [|fuel IH]; intros i j Hf Hij; cbn [searchLoop].
  { repeat split; intros; lia. }
  destruct (Nat.ltb_spec i j) as [Hlt | Hge]; [| repeat split; intros; lia].
  cbv zeta. set (h := Nat.div2 (i + j)).
  assert (Hh : (i <= h < j)%nat).
  { by apply div2_mid. }
  destruct (f h) eqn:Hfh.
  - destruct (IH i h) as (H1 & H2 & H3); [lia | lia |]. split; [lia |]. split; [done |].
    intros k Hk. destruct (decide (k < h)%nat); [apply H3; lia | eapply Hmono; [| exact Hfh]; lia].
  - destruct (IH (S h) j) as (H1 & H2 & H3); [lia | lia |]. split; [lia |]. split; [| done].
    intros k Hk. destruct (decide (S h <= k)%nat); [apply H2; lia |].
    destruct (f k) eqn:Hk'; [| done]. rewrite (Hmono k h) in Hfh; [done | lia | done].
Qed.

(** [sort.Search] returns the first index where a monotone test holds. *)
Lemma sort_Search_spec n f :
  (forall a b, (a <= b)%nat -> f a = true -> f b = true) ->
  let r := sort_Search n f in
  (r <= n)%nat /\ (forall k, (k < r)%nat -> f k = false) /\ (forall k, (r <= k < n)%nat -> f k = true).
Proof.
  intros Hm. destruct (searchLoop_spec n f 0 n ltac:(lia) ltac:(lia) Hm) as (H1 & H2 & H3).
  fold (sort_Search n f) in *.
  split; [apply H1 |]. split; [intros k Hk; apply H2; lia | intros k Hk; apply H3; lia].
Qed.

(** Monotone only where it is used: the test is false out of range otherwise. *)
Lemma sort_Search_range n f :
  (forall a b, (a <= b < n)%nat -> f a = true -> f b = true) ->
  let r := sort_Search n f in
  (r <= n)%nat /\ (forall k, (k < r)%nat -> f k = false) /\ (forall k, (r <= k < n)%nat -> f k = true).
Proof.
  intros Hm. set (g := fun k => Nat.leb n k || f k).
  assert (Heq : forall fuel i j, (j <= n)%nat -> searchLoop fuel f i j = searchLoop fuel g i j).
  { induction fuel as [|fuel IH]; intros i j Hj; cbn [searchLoop]; [done |].
    destruct (Nat.ltb_spec i j) as [Hlt | ?]; [| done]. cbv zeta.
    assert (Nat.div2 (i + j) < j)%nat.
    { by apply div2_mid. }
    assert (Hg : g (Nat.div2 (i + j)) = f (Nat.div2 (i + j))).
    { unfold g. replace (Nat.leb n (Nat.div2 (i + j))) with false; [done |].
      symmetry. apply Nat.leb_gt. lia. }
    rewrite Hg, !IH by lia. done. }
  unfold sort_Search. rewrite Heq by lia. fold (sort_Search n g).
  destruct (sort_Search_spec n g) as (H1 & H2 & H3).
  { unfold g. intros a b Hab. destruct (Nat.leb_spec n b); [done |].
    replace (Nat.leb n a) with false by (symmetry; apply Nat.leb_gt; lia). cbn [orb]. apply Hm. lia. }
  split; [done |]. split.
  - intros k Hk. specialize (H2 k Hk). unfold g in H2. by apply orb_false_iff in H2 as [_ ?].
  - intros k Hk. specialize (H3 k Hk). unfold g in H3.
    replace (Nat.leb n k) with false in H3 by (symmetry; apply Nat.leb_gt; lia). done.
Qed.

(** ** The chunked list implements the interface *)

Definition ooo_flat (l : quicOOOList) : list quicOOOSegment := concat (chunks l).

Definition ooo_inv (l : quicOOOList) : Prop :=
  Forall (fun ch => (0 < length ch <= quicOOOChunkLen)%nat) (chunks l) /\ count l = zlen (ooo_flat l).

Definition chunk_start (cs : list (list quicOOOSegment)) (c : nat) : nat := length (concat (take c cs)).

Definition ooo_pos (l : quicOOOList) (p : quicOOOPos) (i : nat) : Prop :=
  (exists ch, chunks l !! pos_chunk p = Some ch /\ (pos_idx p < length ch)%nat /\
    i = (chunk_start (chunks l) (pos_chunk p) + pos_idx p)%nat) \/
  (pos_chunk p = length (chunks l) /\ pos_idx p = 0%nat /\ i = length (ooo_flat l)).

Lemma concat_mid (cs : list (list quicOOOSegment)) c ch : cs !! c = Some ch ->
  concat cs = concat (take c cs) ++ ch ++ concat (drop (S c) cs).
Proof.
  intros H. rewrite <- (take_drop_middle cs c ch H) at 1. rewrite concat_app. done.
Qed.

Lemma concat_update (cs : list (list quicOOOSegment)) c ch' : (c < length cs)%nat ->
  concat (<[c := ch']> cs) = concat (take c cs) ++ ch' ++ concat (drop (S c) cs).
Proof. intros H. rewrite insert_take_drop by done. by rewrite concat_app. Qed.

Lemma chunk_at_lookup l c ch : chunks l !! c = Some ch -> chunk_at l c = ch.
Proof. intros H. unfold chunk_at. by apply nth_lookup_Some. Qed.

Lemma chunk_start_S cs c ch : cs !! c = Some ch -> chunk_start cs (S c) = (chunk_start cs c + length ch)%nat.
Proof.
  intros H. unfold chunk_start. rewrite (take_S_r _ _ _ H), concat_app, length_app. simpl. rewrite app_nil_r. done.
Qed.

Lemma chunk_start_all cs : chunk_start cs (length cs) = length (concat cs).
Proof. unfold chunk_start. by rewrite firstn_all. Qed.

Lemma flat_lookup cs c ch k : cs !! c = Some ch -> (k < length ch)%nat ->
  concat cs !! (chunk_start cs c + k)%nat = ch !! k.
Proof.
  intros H Hk. rewrite (concat_mid cs c ch H). unfold chunk_start.
  rewrite lookup_app_r by lia. replace (_ + k - _)%nat with k by lia. by rewrite lookup_app_l.
Qed.

Lemma pos_end l : ooo_pos l (endPos l) (length (ooo_flat l)).
Proof. right. done. Qed.

Lemma inv_chunk l c ch : ooo_inv l -> chunks l !! c = Some ch -> (0 < length ch <= 64)%nat.
Proof. intros [H _] Hc. by apply (Forall_lookup_1 _ _ _ _ H Hc). Qed.

(** The position at the end of chunk [c] is the start of the next one. *)
Lemma pos_next_chunk l c ch : ooo_inv l -> chunks l !! c = Some ch ->
  ooo_pos l {| pos_chunk := c + 1; pos_idx := 0 |} (chunk_start (chunks l) c + length ch).
Proof.
  intros Hi Hc. replace (c + 1)%nat with (S c) by lia. rewrite <- (chunk_start_S _ _ _ Hc).
  destruct (chunks l !! S c) as [ch' |] eqn:Hn.
  - left. exists ch'. cbn [pos_chunk pos_idx]. pose proof (inv_chunk _ _ _ Hi Hn). split; [done |]. split; lia.
  - right. cbn [pos_chunk pos_idx]. apply lookup_ge_None in Hn. apply lookup_lt_Some in Hc.
    assert (S c = length (chunks l)) as Heq by lia. split; [done |]. split; [done |].
    rewrite Heq. apply chunk_start_all.
Qed.

Lemma ooo_next_pos l p i : ooo_inv l -> ooo_pos l p i -> (i < length (ooo_flat l))%nat ->
  ooo_pos l (ooo_next l p) (S i).
Proof.
  intros Hi [(ch & Hc & Hk & ->) | (_ & _ & ->)] Hlt; [| lia].
  unfold ooo_next. rewrite (chunk_at_lookup _ _ _ Hc). destruct (Nat.ltb_spec (pos_idx p + 1) (length ch)).
  - left. exists ch. cbn [pos_chunk pos_idx]. split; [done |]. split; lia.
  - replace (S (chunk_start (chunks l) (pos_chunk p) + pos_idx p))
      with (chunk_start (chunks l) (pos_chunk p) + length ch)%nat by lia.
    by apply pos_next_chunk.
Qed.

Lemma ooo_at_flat l p i : ooo_inv l -> ooo_pos l p i -> ooo_at l p = ooo_flat l !! i.
Proof.
  intros Hi [(ch & Hc & Hk & ->) | (Hc & Hk & ->)]; unfold ooo_at.
  - destruct (Nat.leb_spec (length (chunks l)) (pos_chunk p)); [apply lookup_lt_Some in Hc; lia |].
    rewrite (chunk_at_lookup _ _ _ Hc). symmetry. by apply flat_lookup.
  - rewrite Hc, Nat.leb_refl. symmetry. apply lookup_ge_None. done.
Qed.

Lemma ooo_before_none l p : ooo_inv l -> ooo_pos l p 0 -> ooo_before l p = None.
Proof.
  intros Hi [(ch & Hc & Hk & H0) | (Hc & Hk & H0)]; unfold ooo_before.
  - assert (pos_idx p = 0)%nat as -> by lia. destruct (pos_chunk p) as [|c] eqn:Hpc; [done |].
    destruct (lookup_lt_is_Some_2 (chunks l) c) as [ch' Hc']; [apply lookup_lt_Some in Hc; lia |].
    rewrite (chunk_start_S _ _ _ Hc') in H0. pose proof (inv_chunk _ _ _ Hi Hc'). lia.
  - rewrite Hk. destruct (length (chunks l)) as [|n] eqn:Hn; rewrite Hc; [done |].
    destruct (lookup_lt_is_Some_2 (chunks l) n) as [ch' Hc']; [lia |].
    pose proof (concat_mid _ _ _ Hc') as Hm. apply (f_equal length) in Hm. rewrite !length_app in Hm.
    pose proof (inv_chunk _ _ _ Hi Hc'). unfold ooo_flat in H0. lia.
Qed.

Lemma ooo_before_some l p i : ooo_inv l -> ooo_pos l p (S i) ->
  exists q, ooo_before l p = Some q /\ ooo_pos l q i.
Proof.
  intros Hi Hp. unfold ooo_before.
  assert (Hprev : pos_idx p = 0%nat -> forall n, pos_chunk p = S n -> S i = chunk_start (chunks l) (S n) ->
    exists q, Some {| pos_chunk := n; pos_idx := pred (length (chunk_at l n)) |} = Some q /\ ooo_pos l q i).
  { intros _ n Hn Hs. destruct (chunks l !! n) as [ch |] eqn:Hc.
    - eexists. split; [done |]. left. exists ch. cbn [pos_chunk pos_idx]. rewrite (chunk_at_lookup _ _ _ Hc).
      rewrite (chunk_start_S _ _ _ Hc) in Hs. pose proof (inv_chunk _ _ _ Hi Hc).
      split; [done |]. split; lia.
    - exfalso. apply lookup_ge_None in Hc. destruct Hp as [(ch & Hc' & _) | (Hc' & _)].
      + apply lookup_lt_Some in Hc'. lia.
      + lia. }
  destruct Hp as [(ch & Hc & Hk & Hs) | (Hc & Hk & Hs)].
  - destruct (Nat.ltb_spec 0 (pos_idx p)).
    + eexists. split; [done |]. left. exists ch. cbn [pos_chunk pos_idx]. split; [done |]. split; lia.
    + assert (Hz : pos_idx p = 0%nat) by lia. rewrite Hz, Nat.add_0_r in Hs.
      destruct (pos_chunk p) as [|n] eqn:Hn; [unfold chunk_start in Hs; simpl in Hs; lia |].
      cbn [Nat.eqb pred]. by apply Hprev.
  - rewrite Hk. cbn [Nat.ltb Nat.leb]. destruct (pos_chunk p) as [|n] eqn:Hn.
    + unfold ooo_flat in Hs. destruct (chunks l); [simpl in Hs; lia | simpl in Hc; lia].
    + cbn [Nat.eqb pred]. apply Hprev; [done | done |].
      rewrite Hc, chunk_start_all. done.
Qed.

Lemma last_of_flat l c ch : ooo_inv l -> chunks l !! c = Some ch ->
  last_of (chunk_at l c) = ooo_flat l !! pred (chunk_start (chunks l) c + length ch).
Proof.
  intros Hi Hc. rewrite (chunk_at_lookup _ _ _ Hc). pose proof (inv_chunk _ _ _ Hi Hc).
  unfold last_of, ooo_flat.
  replace (pred (chunk_start (chunks l) c + length ch))
    with (chunk_start (chunks l) c + pred (length ch))%nat by lia.
  symmetry. apply flat_lookup; [done | lia].
Qed.

Lemma chunk_end_le cs c ch : cs !! c = Some ch -> (chunk_start cs c + length ch <= length (concat cs))%nat.
Proof. intros H. rewrite (concat_mid _ _ _ H). unfold chunk_start. rewrite !length_app. lia. Qed.

Lemma chunk_start_mono cs a b : (a <= b)%nat -> (chunk_start cs a <= chunk_start cs b)%nat.
Proof.
  intros H. unfold chunk_start. rewrite <- (take_drop a (take b cs)), take_take, Nat.min_l by done.
  rewrite concat_app, length_app. lia.
Qed.

Lemma ends_after_mono fl off i j : sorted_ends fl -> (i <= j < length fl)%nat ->
  ends_after off (fl !! i) = true -> ends_after off (fl !! j) = true.
Proof.
  intros Hs Hij. destruct (lookup_lt_is_Some_2 fl i) as [a Ha]; [lia |].
  destruct (lookup_lt_is_Some_2 fl j) as [b Hb]; [lia |]. rewrite Ha, Hb. cbn.
  pose proof (Hs i j a b ltac:(lia) Ha Hb). lia.
Qed.

Lemma first_after_intro fl off i : sorted_ends fl -> (i <= length fl)%nat ->
  (forall j, (j < i)%nat -> ends_after off (fl !! j) = false) ->
  ((i < length fl)%nat -> ends_after off (fl !! i) = true) ->
  first_after off fl i.
Proof.
  intros Hs Hi Hlow Hhigh. split; [done |]. split.
  - intros j a Hj Ha. specialize (Hlow j Hj). rewrite Ha in Hlow. cbn in Hlow. lia.
  - intros j a Hj Ha. pose proof (lookup_lt_Some _ _ _ Ha).
    pose proof (ends_after_mono fl off i j Hs ltac:(lia) (Hhigh ltac:(lia))) as Ht.
    rewrite Ha in Ht. cbn in Ht. lia.
Qed.

Lemma ooo_last_flat l : ooo_inv l -> chunks l <> [] ->
  ooo_last l = ooo_flat l !! pred (length (ooo_flat l)).
Proof.
  intros Hi Hne. unfold ooo_last.
  destruct (lookup_lt_is_Some_2 (chunks l) (pred (length (chunks l)))) as [ch Hc].
  { destruct (chunks l); [done | simpl; lia]. }
  rewrite (last_of_flat _ _ _ Hi Hc), <- (chunk_start_S _ _ _ Hc), Nat.succ_pred, chunk_start_all; [done |].
  by destruct (chunks l).
Qed.

(** Nothing ends after [off] when the last segment does not. *)
Lemma none_ends_after l off : ooo_inv l -> sorted_ends (ooo_flat l) -> (count l =? 0) || negb (ends_after off (ooo_last l)) = true ->
  first_after off (ooo_flat l) (length (ooo_flat l)).
Proof.
  intros Hi Hs Hc. pose proof Hi as [_ Hcount]. apply first_after_intro; [done | done | | lia].
  intros j Hj. destruct (ends_after off (ooo_flat l !! j)) eqn:Hf; [| done].
  assert (Hne : chunks l <> []) by (intros He; unfold ooo_flat in Hj; rewrite He in Hj; simpl in Hj; lia).
  rewrite (ooo_last_flat l Hi Hne) in Hc.
  rewrite (ends_after_mono _ off j (pred (length (ooo_flat l))) Hs) in Hc; [| lia | done].
  unfold zlen in Hcount. lia.
Qed.

Lemma chunk_last_flat l off c ch : ooo_inv l -> chunks l !! c = Some ch ->
  ends_after off (last_of (chunk_at l c)) = ends_after off (ooo_flat l !! pred (chunk_start (chunks l) c + length ch)).
Proof. intros Hi Hch. by rewrite (last_of_flat _ _ _ Hi Hch). Qed.

(** The ends of the chunks are sorted. *)
Lemma chunk_ends_mono l off a b : ooo_inv l -> sorted_ends (ooo_flat l) -> (a <= b < length (chunks l))%nat ->
  ends_after off (last_of (chunk_at l a)) = true -> ends_after off (last_of (chunk_at l b)) = true.
Proof.
  intros Hi Hs Hab Ha. destruct (lookup_lt_is_Some_2 (chunks l) a) as [cha Hcha]; [lia |].
  destruct (lookup_lt_is_Some_2 (chunks l) b) as [chb Hchb]; [lia |].
  rewrite (chunk_last_flat _ _ _ _ Hi Hchb). rewrite (chunk_last_flat _ _ _ _ Hi Hcha) in Ha. eapply ends_after_mono; [done | | exact Ha].
  pose proof (inv_chunk _ _ _ Hi Hchb). pose proof (chunk_end_le _ _ _ Hchb).
  rewrite <- (chunk_start_S _ _ _ Hcha). rewrite <- (chunk_start_S _ _ _ Hchb).
  pose proof (chunk_start_mono (chunks l) (S a) (S b) ltac:(lia)).
  rewrite (chunk_start_S _ _ _ Hchb) in *. unfold ooo_flat. lia.
Qed.

Lemma ooo_first_pos l off : ooo_inv l -> sorted_ends (ooo_flat l) ->
  exists i, ooo_pos l (firstEndingAfter l off) i /\ first_after off (ooo_flat l) i.
Proof.
  intros Hi Hs. pose proof Hi as [_ Hcount]. unfold firstEndingAfter.
  destruct ((count l =? 0) || negb (ends_after off (ooo_last l))) eqn:Hc.
  { exists (length (ooo_flat l)). split; [apply pos_end | by apply none_ends_after]. }
  apply orb_false_iff in Hc as [Hc0 Hlast]. apply negb_false_iff in Hlast.
  assert (Hne : chunks l <> []).
  { intros He. unfold ooo_flat in Hcount. rewrite He in Hcount. unfold zlen in Hcount. simpl in Hcount. lia. }
  set (f := fun c => ends_after off (last_of (chunk_at l c))).
  destruct (sort_Search_range (length (chunks l)) f) as (Hr & Hbelow & Habove).
  { intros a b Hab Ha. apply (chunk_ends_mono l off a b); [done | done | lia | exact Ha]. }
  cbv zeta in *. fold f. set (c := sort_Search (length (chunks l)) f) in *.
  assert (Hclt : (c < length (chunks l))%nat).
  { destruct (decide (c = length (chunks l))) as [He | ?]; [| lia]. exfalso.
    assert (Hp : (pred (length (chunks l)) < c)%nat) by (destruct (chunks l); [done | simpl in *; lia]).
    specialize (Hbelow _ Hp). unfold f in Hbelow. unfold ooo_last in Hlast. congruence. }
  destruct (lookup_lt_is_Some_2 (chunks l) c Hclt) as [ch Hch]. rewrite (chunk_at_lookup _ _ _ Hch).
  pose proof (inv_chunk _ _ _ Hi Hch) as Hlen. pose proof (chunk_end_le _ _ _ Hch) as Hle.
  destruct (sort_Search_range (length ch) (fun i => ends_after off (ch !! i))) as (Hr2 & Hbelow2 & Habove2).
  { intros a b Hab. rewrite <- !(flat_lookup (chunks l) c ch) by (done || lia).
    apply ends_after_mono; [done |]. unfold ooo_flat. lia. }
  set (k := sort_Search (length ch) _) in *.
  assert (Hk : (k < length ch)%nat).
  { destruct (decide (k = length ch)) as [He | ?]; [| lia]. exfalso.
    specialize (Habove c ltac:(lia)). unfold f in Habove. rewrite (chunk_at_lookup _ _ _ Hch) in Habove.
    unfold last_of in Habove. rewrite (Hbelow2 (pred (length ch))) in Habove; [done | lia]. }
  exists (chunk_start (chunks l) c + k)%nat. split; [left; exists ch; cbn [pos_chunk pos_idx]; auto |].
  apply first_after_intro; [done | unfold ooo_flat; lia | |].
  - intros j Hj. destruct (decide (chunk_start (chunks l) c <= j)%nat) as [Hge | Hlow].
    + replace j with (chunk_start (chunks l) c + (j - chunk_start (chunks l) c))%nat by lia.
      unfold ooo_flat. rewrite (flat_lookup _ _ _ _ Hch) by lia. apply Hbelow2. lia.
    + destruct c as [|c'] eqn:Hc'; [unfold chunk_start in Hlow; simpl in Hlow; lia |].
      destruct (lookup_lt_is_Some_2 (chunks l) c') as [ch' Hch']; [lia |].
      specialize (Hbelow c' ltac:(lia)). unfold f in Hbelow. rewrite (chunk_last_flat _ _ _ _ Hi Hch') in Hbelow.
      rewrite (chunk_start_S _ _ _ Hch') in Hlow, Hle.
      destruct (ends_after off (ooo_flat l !! j)) eqn:Hej; [| done].
      rewrite (ends_after_mono _ off j _ Hs) in Hbelow; [done | | done]. unfold ooo_flat. lia.
  - intros _. unfold ooo_flat. rewrite (flat_lookup _ _ _ _ Hch) by lia. apply Habove2. lia.
Qed.

Lemma slices_Insert_length {A} (l : list A) i x : length (slices_Insert l i x) = S (length l).
Proof. unfold slices_Insert. rewrite length_app. cbn [length]. rewrite length_take, length_drop. lia. Qed.

Lemma slices_Insert_mid {A} (a b c : list A) i x : (i <= length b)%nat ->
  slices_Insert (a ++ b ++ c) (length a + i) x = a ++ slices_Insert b i x ++ c.
Proof.
  intros H. unfold slices_Insert. rewrite take_app_add', drop_app_add' by done.
  rewrite take_app_le, drop_app_le by lia. by rewrite <- !app_assoc.
Qed.

(** Inserting into one chunk inserts into the whole list. *)
Lemma insert_at_spec l p ch seg :
  Forall (fun ch => (0 < length ch <= quicOOOChunkLen)%nat) (chunks l) ->
  chunks l !! pos_chunk p = Some ch -> (pos_idx p <= length ch)%nat -> (length ch < quicOOOChunkLen)%nat ->
  let i := (chunk_start (chunks l) (pos_chunk p) + pos_idx p)%nat in
  Forall (fun ch => (0 < length ch <= quicOOOChunkLen)%nat) (chunks (insert_at l p seg)) /\
  ooo_flat (insert_at l p seg) = slices_Insert (ooo_flat l) i seg /\
  ooo_pos (insert_at l p seg) p i.
Proof.
  intros Hall Hc Hk Hlen i. unfold insert_at. rewrite (chunk_at_lookup _ _ _ Hc).
  pose proof (lookup_lt_Some _ _ _ Hc) as Hlt. cbn [chunks]. split; [| split].
  - apply Forall_insert; [done |]. rewrite slices_Insert_length. unfold quicOOOChunkLen in *. lia.
  - unfold ooo_flat. cbn [chunks]. rewrite concat_update, (concat_mid _ _ _ Hc) by done.
    symmetry. by apply slices_Insert_mid.
  - left. exists (slices_Insert ch (pos_idx p) seg). cbn [chunks]. rewrite list_lookup_insert_eq by done.
    split; [done |]. rewrite slices_Insert_length. split; [lia |]. unfold chunk_start.
    by rewrite take_insert_ge by lia.
Qed.

Lemma insert_split_spec l p ch seg :
  Forall (fun ch => (0 < length ch <= quicOOOChunkLen)%nat) (chunks l) ->
  chunks l !! pos_chunk p = Some ch -> (pos_idx p <= length ch)%nat ->
  let i := (chunk_start (chunks l) (pos_chunk p) + pos_idx p)%nat in
  let '(l', p') := insert_split l p seg in
  Forall (fun ch => (0 < length ch <= quicOOOChunkLen)%nat) (chunks l') /\
  ooo_flat l' = slices_Insert (ooo_flat l) i seg /\ ooo_pos l' p' i /\ count l' = count l.
Proof.
  intros Hall Hc Hk i. unfold insert_split. rewrite (chunk_at_lookup _ _ _ Hc).
  pose proof (Forall_lookup_1 _ _ _ _ Hall Hc) as Hlen. cbv beta in Hlen.
  destruct (Nat.eqb_spec (length ch) quicOOOChunkLen) as [Hfull | Hroom].
  2:{ destruct (insert_at_spec l p ch seg Hall Hc Hk ltac:(lia)) as (H1 & H2 & H3). done. }
  pose proof (lookup_lt_Some _ _ _ Hc) as Hlt. unfold ooo_split. rewrite (chunk_at_lookup _ _ _ Hc).
  change (Nat.div2 quicOOOChunkLen) with 32%nat.
  set (cs := slices_Insert (<[pos_chunk p := take 32 ch]> (chunks l)) (pos_chunk p + 1) (drop 32 ch)).
  assert (Hcs : cs = take (pos_chunk p) (chunks l) ++ take 32 ch :: drop 32 ch :: drop (S (pos_chunk p)) (chunks l)).
  { unfold cs. rewrite insert_take_drop by done. unfold slices_Insert.
    assert (Hl : length (take (pos_chunk p) (chunks l)) = pos_chunk p) by (rewrite length_take; lia).
    replace (pos_chunk p + 1)%nat with (length (take (pos_chunk p) (chunks l)) + 1)%nat by lia.
    rewrite take_app_add', drop_app_add' by lia. rewrite <- app_assoc. done. }
  set (l2 := {| chunks := cs; count := count l |}).
  assert (Hl : length (take (pos_chunk p) (chunks l)) = pos_chunk p) by (rewrite length_take; lia).
  assert (Hall2 : Forall (fun ch => (0 < length ch <= quicOOOChunkLen)%nat) (chunks l2)).
  { cbn [chunks l2]. rewrite Hcs. apply Forall_app_2; [by apply Forall_take |].
    unfold quicOOOChunkLen in *. constructor; [rewrite length_take; lia |].
    constructor; [rewrite length_drop; lia | by apply Forall_drop]. }
  assert (Hflat : ooo_flat l2 = ooo_flat l).
  { unfold ooo_flat. cbn [chunks l2]. rewrite Hcs, (concat_mid _ _ _ Hc), concat_app. cbn [concat].
    by rewrite (app_assoc (take 32 ch)), take_drop. }
  assert (Hc1 : cs !! pos_chunk p = Some (take 32 ch)).
  { rewrite Hcs, lookup_app_r by lia. by rewrite Hl, Nat.sub_diag. }
  assert (Hc2 : cs !! (pos_chunk p + 1)%nat = Some (drop 32 ch)).
  { rewrite Hcs, lookup_app_r by lia. rewrite Hl. replace (_ - _)%nat with 1%nat by lia. done. }
  assert (Hst : chunk_start cs (pos_chunk p) = chunk_start (chunks l) (pos_chunk p)).
  { unfold chunk_start. rewrite Hcs. do 2 f_equal. by rewrite take_app_length'. }
  assert (Hst2 : chunk_start cs (pos_chunk p + 1) = (chunk_start (chunks l) (pos_chunk p) + 32)%nat).
  { replace (pos_chunk p + 1)%nat with (S (pos_chunk p)) by lia.
    rewrite (chunk_start_S _ _ _ Hc1), Hst, length_take. unfold quicOOOChunkLen in *. lia. }
  unfold quicOOOChunkLen in Hfull. destruct (Nat.ltb_spec 32 (pos_idx p)) as [Hright | Hleft].
  - destruct (insert_at_spec l2 {| pos_chunk := pos_chunk p + 1; pos_idx := pos_idx p - 32 |} (drop 32 ch) seg
      Hall2 Hc2) as (H1 & H2 & H3); cbn [pos_chunk pos_idx];
      [rewrite length_drop; lia | rewrite length_drop; unfold quicOOOChunkLen; lia |].
    cbn [pos_chunk pos_idx chunks l2] in *. rewrite Hst2 in *.
    replace (chunk_start (chunks l) (pos_chunk p) + 32 + (pos_idx p - 32))%nat with i in * by (unfold i; lia).
    rewrite Hflat in H2. done.
  - destruct (insert_at_spec l2 p (take 32 ch) seg Hall2 Hc1) as (H1 & H2 & H3);
      [rewrite length_take; lia | rewrite length_take; unfold quicOOOChunkLen; lia |].
    cbn [chunks l2] in *. rewrite Hst in *. rewrite Hflat in H2. done.
Qed.

Lemma slices_Insert_end {A} (l : list A) x : slices_Insert l (length l) x = l ++ [x].
Proof. unfold slices_Insert. by rewrite firstn_all, drop_all. Qed.

Lemma ooo_insert_flat l p i seg : ooo_inv l -> ooo_pos l p i ->
  let '(l', p') := ooo_insert l p seg in
  ooo_inv l' /\ ooo_flat l' = slices_Insert (ooo_flat l) i seg /\ ooo_pos l' p' i.
Proof.
  intros [Hall Hcount] Hp. unfold ooo_insert. cbn [chunks count].
  assert (Hfin : forall l' p', Forall (fun ch => (0 < length ch <= quicOOOChunkLen)%nat) (chunks l') ->
    ooo_flat l' = slices_Insert (ooo_flat l) i seg -> count l' = count l + 1 -> ooo_pos l' p' i ->
    ooo_inv l' /\ ooo_flat l' = slices_Insert (ooo_flat l) i seg /\ ooo_pos l' p' i).
  { intros l' p' Ha Hf Hc' Hp'. split; [split; [done |] | done].
    rewrite Hf. unfold zlen. rewrite slices_Insert_length. unfold zlen in Hcount. lia. }
  destruct (Nat.eqb_spec (length (chunks l)) 0) as [H0 | Hn0].
  { destruct (chunks l) as [|] eqn:Hch; [| done].
    assert (i = 0%nat) as ->.
    { destruct Hp as [(ch & Hc & _) | (_ & _ & ->)]; [by rewrite Hch in Hc | unfold ooo_flat; by rewrite Hch]. }
    apply Hfin; cbn [chunks count]; [repeat constructor; simpl; unfold quicOOOChunkLen; lia | | done |].
    - unfold ooo_flat. rewrite Hch. done.
    - left. exists [seg]. cbn. split; [done |]. split; lia. }
  set (l1 := {| chunks := chunks l; count := count l + 1 |}).
  assert (Hsplit : forall q ch, chunks l1 !! pos_chunk q = Some ch -> (pos_idx q <= length ch)%nat ->
    i = (chunk_start (chunks l1) (pos_chunk q) + pos_idx q)%nat ->
    let '(l', p') := insert_split l1 q seg in
    ooo_inv l' /\ ooo_flat l' = slices_Insert (ooo_flat l) i seg /\ ooo_pos l' p' i).
  { intros q ch Hc Hk Hi. pose proof (insert_split_spec l1 q ch seg Hall Hc Hk) as Hs.
    destruct (insert_split l1 q seg) as [l' p']. destruct Hs as (H1 & H2 & H3 & H4).
    rewrite <- Hi in *. by apply Hfin. }
  destruct Hp as [(ch & Hc & Hk & Hi) | (Hc & Hk & Hi)].
  - pose proof (lookup_lt_Some _ _ _ Hc). destruct (Nat.eqb_spec (pos_chunk p) (length (chunks l))); [lia |].
    apply (Hsplit p ch); [done | lia | done].
  - rewrite Hc, Nat.eqb_refl.
    destruct (lookup_lt_is_Some_2 (chunks l) (pred (length (chunks l)))) as [ch Hch]; [lia |].
    assert (Hstart : (chunk_start (chunks l) (pred (length (chunks l))) + length ch)%nat = i).
    { rewrite <- (chunk_start_S _ _ _ Hch), Nat.succ_pred, chunk_start_all by done. done. }
    cbv zeta. cbn [pos_idx pos_chunk]. rewrite (chunk_at_lookup l1 _ ch Hch).
    destruct (Nat.eqb_spec (length ch) quicOOOChunkLen) as [Hfull | Hroom].
    + apply Hfin; cbn [chunks count]; [| | done |].
      * apply Forall_app_2; [done | repeat constructor; simpl; unfold quicOOOChunkLen; lia].
      * unfold ooo_flat. cbn [chunks]. rewrite concat_app, Hi. cbn [concat]. rewrite app_nil_r.
        symmetry. apply slices_Insert_end.
      * left. exists [seg]. cbn [pos_chunk pos_idx chunks].
        replace (pred (length (chunks l)) + 1)%nat with (length (chunks l)) by lia.
        rewrite lookup_app_r, Nat.sub_diag by lia. split; [done |]. split; [simpl; lia |].
        unfold chunk_start. rewrite take_app_length. unfold ooo_flat in Hi. lia.
    + apply (Hsplit _ ch); [done | done | unfold l1; cbn [pos_chunk pos_idx chunks]; lia].
Qed.

Lemma ooo_set_flat l p i seg : ooo_inv l -> ooo_pos l p i -> (i < length (ooo_flat l))%nat ->
  ooo_inv (ooo_set l p seg) /\ ooo_flat (ooo_set l p seg) = <[i := seg]> (ooo_flat l) /\
  forall q j, ooo_pos l q j -> ooo_pos (ooo_set l p seg) q j.
Proof.
  intros Hi [(ch & Hc & Hk & ->) | (_ & _ & ->)] Hlt; [| lia].
  pose proof (lookup_lt_Some _ _ _ Hc) as Hcl. pose proof Hi as [Hall Hcount].
  unfold ooo_set. rewrite (chunk_at_lookup _ _ _ Hc).
  set (l' := {| chunks := _; count := _ |}).
  assert (Hflat : ooo_flat l' = <[(chunk_start (chunks l) (pos_chunk p) + pos_idx p)%nat := seg]> (ooo_flat l)).
  { unfold ooo_flat, l'. cbn [chunks]. rewrite concat_update, (concat_mid _ _ _ Hc) by done.
    unfold chunk_start. rewrite insert_app_r. by rewrite insert_app_l. }
  split; [split |].
  - cbn [chunks l']. apply Forall_insert; [done |]. rewrite length_insert. by apply (inv_chunk l (pos_chunk p)).
  - rewrite Hflat. unfold zlen in *. by rewrite length_insert.
  - split; [done |]. intros q j [(chq & Hq & Hkq & ->) | (Hq & Hkq & ->)].
    + left. cbn [chunks l']. destruct (decide (pos_chunk q = pos_chunk p)) as [He | Hne].
      * rewrite He in *. assert (chq = ch) as -> by congruence.
        exists (<[pos_idx p := seg]> ch). rewrite list_lookup_insert_eq by done.
        split; [done |]. rewrite length_insert. split; [done |]. unfold chunk_start.
        by rewrite take_insert_ge by lia.
      * exists chq. rewrite list_lookup_insert_ne by done. split; [done |]. split; [done |].
        unfold chunk_start. f_equal. destruct (decide (pos_chunk q <= pos_chunk p)%nat).
        { by rewrite take_insert_ge by lia. }
        rewrite take_insert_lt by lia.
        assert (Hcq : take (pos_chunk q) (chunks l) !! pos_chunk p = Some ch) by (rewrite lookup_take_lt by lia; done).
        pose proof (lookup_lt_Some _ _ _ Hcq).
        rewrite concat_update, (concat_mid _ _ _ Hcq) by lia. rewrite !length_app, length_insert. done.
    + right. rewrite Hflat, length_insert. cbn [chunks l']. rewrite length_insert. done.
Qed.

Lemma dropChunks_spec k cs : Forall (fun ch => (0 < length ch <= quicOOOChunkLen)%nat) cs ->
  (k <= length (concat cs))%nat ->
  Forall (fun ch => (0 < length ch <= quicOOOChunkLen)%nat) (dropChunks k cs) /\
  concat (dropChunks k cs) = drop k (concat cs).
Proof.
  revert k. induction cs as [|ch cs IH]; intros k Hall Hk.
  { destruct k; [done | simpl in Hk; lia]. }
  inversion Hall as [| ? ? Hch Hcs]; subst. destruct k as [|k]; [done |]. cbn [dropChunks concat].
  cbn [concat] in Hk. rewrite length_app in Hk.
  destruct (Nat.ltb_spec (S k) (length ch)) as [Hlt | Hge].
  - split.
    + constructor; [rewrite length_drop; lia | done].
    + cbn [concat]. by rewrite drop_app_le by lia.
  - destruct (IH (S k - length ch)%nat Hcs ltac:(lia)) as [H1 H2]. split; [done |].
    rewrite H2, drop_app_ge by lia. done.
Qed.

Lemma ooo_drop_flat l k : ooo_inv l -> (k <= length (ooo_flat l))%nat ->
  ooo_inv (ooo_dropFront l k) /\ ooo_flat (ooo_dropFront l k) = drop k (ooo_flat l).
Proof.
  intros [Hall Hcount] Hk. destruct (dropChunks_spec k (chunks l) Hall Hk) as [H1 H2].
  assert (Hf : ooo_flat (ooo_dropFront l k) = drop k (ooo_flat l)) by exact H2.
  split; [split; [done |] | done]. rewrite Hf. unfold zlen in *. rewrite length_drop. cbn [count ooo_dropFront]. lia.
Qed.

#[export] Instance quicOOOList_store : OOOStore quicOOOList quicOOOPos := {|
  st_empty := ooo_empty; st_begin := ooo_begin; st_len := ooo_len; st_last := ooo_last;
  st_firstEndingAfter := firstEndingAfter; st_at := ooo_at; st_before := ooo_before;
  st_next := ooo_next; st_insert := ooo_insert; st_set := ooo_set; st_dropFront := ooo_dropFront |}.

#[export] Instance quicOOOList_laws : OOOStoreLaws quicOOOList quicOOOPos.
Proof.
  refine {| st_inv := ooo_inv; st_flat := ooo_flat; st_pos := ooo_pos |}.
  - split; [split; [constructor | done] | done].
  - intros l Hi. destruct (chunks l) as [|ch cs] eqn:Hc.
    + right. rewrite Hc. cbn. unfold ooo_flat. by rewrite Hc.
    + left. exists ch. cbn [pos_chunk pos_idx st_begin quicOOOList_store ooo_begin]. rewrite Hc.
      pose proof (inv_chunk l 0 ch Hi ltac:(by rewrite Hc)). split; [done |]. split; [lia | done].
  - intros l [_ Hc]. exact Hc.
  - intros l Hi Hne. apply ooo_last_flat; [done |]. intros He. apply Hne. unfold ooo_flat. by rewrite He.
  - exact ooo_first_pos.
  - exact ooo_at_flat.
  - exact ooo_before_none.
  - exact ooo_before_some.
  - exact ooo_next_pos.
  - exact ooo_insert_flat.
  - exact ooo_set_flat.
  - exact ooo_drop_flat.
Defined.

(** ** Properties *)

(** The chunked store refines a plain list. Along any sequence of
    insertions at, updates through and removals before valid positions, the
    concatenation of the chunks is the list the same plain operations give;
    every chunk stays non-empty and within 64 segments, and the counter is the
    length. Stated for one step of each operation from any valid store. *)
Theorem ooo_refines_list l p i seg k : ooo_inv l -> ooo_pos l p i -> (k <= length (ooo_flat l))%nat ->
  let '(l', p') := ooo_insert l p seg in
  ooo_inv l' /\ ooo_flat l' = take i (ooo_flat l) ++ seg :: drop i (ooo_flat l) /\
  ooo_at l' p' = Some seg /\
  ooo_at l p = ooo_flat l !! i /\
  ooo_inv (ooo_dropFront l k) /\ ooo_flat (ooo_dropFront l k) = drop k (ooo_flat l) /\
  ooo_len l' = ooo_len l + 1.
Proof.
  intros Hi Hp Hk. pose proof (ooo_insert_flat l p i seg Hi Hp) as Hins.
  destruct (ooo_insert l p seg) as [l' p']. destruct Hins as (Hi' & Hf & Hp').
  destruct (ooo_drop_flat l k Hi Hk) as [Hd1 Hd2].
  assert (Hle : (i <= length (ooo_flat l))%nat).
  { destruct Hp as [(ch & Hc & ? & ->) | (_ & _ & ->)]; [| lia].
    pose proof (chunk_end_le _ _ _ Hc). unfold ooo_flat. lia. }
  split; [done |]. split; [done |]. split.
  - rewrite (ooo_at_flat l' p' i Hi' Hp'), Hf. unfold slices_Insert.
    rewrite lookup_app_r, length_take, Nat.min_l, Nat.sub_diag by (rewrite ?length_take; lia). done.
  - split; [by apply ooo_at_flat |]. split; [done |]. split; [done |].
    destruct Hi as [_ Hc]. destruct Hi' as [_ Hc']. unfold ooo_len. rewrite Hc, Hc', Hf.
    unfold zlen. rewrite slices_Insert_length. lia.
Qed.

Definition demo_ooo : quicOOOList :=
  {| chunks := [[{| seg_off := 5; seg_data := [1; 2] |}]; [{| seg_off := 9; seg_data := [3] |}]]; count := 2 |}.

Lemma ooo_refines_list_witness :
  let '(l', p') := ooo_insert demo_ooo {| pos_chunk := 1; pos_idx := 0 |} {| seg_off := 8; seg_data := [4] |} in
  ooo_inv l' /\
  ooo_flat l' = take 1 (ooo_flat demo_ooo) ++ {| seg_off := 8; seg_data := [4] |} :: drop 1 (ooo_flat demo_ooo) /\
  ooo_at l' p' = Some {| seg_off := 8; seg_data := [4] |} /\
  ooo_at demo_ooo {| pos_chunk := 1; pos_idx := 0 |} = ooo_flat demo_ooo !! 1%nat /\
  ooo_inv (ooo_dropFront demo_ooo 1) /\ ooo_flat (ooo_dropFront demo_ooo 1) = drop 1 (ooo_flat demo_ooo) /\
  ooo_len l' = ooo_len demo_ooo + 1.
Proof.
  apply (ooo_refines_list demo_ooo {| pos_chunk := 1; pos_idx := 0 |} 1 {| seg_off := 8; seg_data := [4] |} 1).
  - split; [repeat constructor; simpl; unfold quicOOOChunkLen; lia | done].
  - left. exists [{| seg_off := 9; seg_data := [3] |}]. cbn. repeat split; lia.
  - simpl. lia.
Defined.

(** The two-level binary search of [firstEndingAfter] is equivalent to a
    linear scan. On a store whose segments end in increasing order it returns
    the position of the first segment that ends after [off]: every segment
    before it ends at or below [off], every segment from it on ends above, and
    it is the end position exactly when there is no such segment. *)
Theorem firstEndingAfter_linear l off : ooo_inv l -> sorted_ends (ooo_flat l) ->
  exists i, ooo_pos l (firstEndingAfter l off) i /\
    (forall j a, (j < i)%nat -> ooo_flat l !! j = Some a -> seg_end a <= off) /\
    (forall j a, (i <= j)%nat -> ooo_flat l !! j = Some a -> off < seg_end a) /\
    ooo_at l (firstEndingAfter l off) = ooo_flat l !! i.
Proof.
  intros Hi Hs. destruct (ooo_first_pos l off Hi Hs) as (i & Hp & (_ & Hb & Ha)).
  exists i. split; [done |]. split; [done |]. split; [done |]. by apply ooo_at_flat.
Qed.

Lemma firstEndingAfter_linear_witness :
  exists i, ooo_pos demo_ooo (firstEndingAfter demo_ooo 7) i /\
    (forall j a, (j < i)%nat -> ooo_flat demo_ooo !! j = Some a -> seg_end a <= 7) /\
    (forall j a, (i <= j)%nat -> ooo_flat demo_ooo !! j = Some a -> 7 < seg_end a) /\
    ooo_at demo_ooo (firstEndingAfter demo_ooo 7) = ooo_flat demo_ooo !! i.
Proof.
  apply (firstEndingAfter_linear demo_ooo 7).
  - split; [repeat constructor; simpl; unfold quicOOOChunkLen; lia | done].
  - intros [|[|?]] [|[|?]] a b Hij Ha Hb; try done; try lia; cbn in *; simplify_eq; vm_compute; congruence.
Defined.
