(* ===== verification/BodyBudget.v ===== *)
(** The aggregate request-body budget of the server (src/core/server.go:
    [tryReserveBodyBytes], [releaseBodyBytes], [connBodyShare],
    [bodyBudgetUnderPressure], [tryReserveConnBodyBytes],
    [releaseConnBodyBytes]). The first part is the code as one goroutine runs
    it; the second part is the interleaving of many goroutines on the shared
    atomic counter, one atomic operation per step. Counters are [int64]; they
    stay within the configured limit plus what concurrent callers have in
    flight, so no wrap-around is modelled. *)
From stdpp Require Import base list numbers.
From Stdlib Require Import ZArith Lia ZifyBool.
From S2P Require Import Prelude.

(** ** Sequential operations *)

Definition bodyBudgetConnShareDivisor : Z := 8.
Definition bodyBudgetPressureDivisor : Z := 2.
Definition bodyBudgetAddPathMaxLimit : Z := 2 ^ 40.

(** [s.config.MaxInFlightBodyBytes] and [s.limits.MaxBodySize]. *)
Record budgetConfig := { MaxInFlightBodyBytes : Z; MaxBodySize : Z }.

(** [s.inFlightBodyBytes] and the connection's [bodyReserved]. *)
Record budget := { inFlight : Z; connReserved : Z }.

Definition tryReserveBodyBytes (cfg : budgetConfig) (used : Z) (n : Z) : bool * Z :=
  if (n <=? 0) || (MaxInFlightBodyBytes cfg <? 0) then (true, used) else
  let limit := MaxInFlightBodyBytes cfg in
  if limit <? n then (false, used) else
  if limit <=? bodyBudgetAddPathMaxLimit then
    if limit <? used + n then (false, used + n - n) else (true, used + n)
  else if limit - used <? n then (false, used) else (true, used + n).

Definition releaseBodyBytes (cfg : budgetConfig) (used : Z) (n : Z) : Z :=
  if (n <=? 0) || (MaxInFlightBodyBytes cfg <? 0) then used else
  if used - n <? 0 then used - n + n else used - n.

Definition connBodyShare (cfg : budgetConfig) : Z :=
  let limit := MaxInFlightBodyBytes cfg in
  if MaxBodySize cfg <? 0 then limit
  else Z.min (Z.max (limit ÷ bodyBudgetConnShareDivisor) (MaxBodySize cfg)) limit.

Definition bodyBudgetUnderPressure (cfg : budgetConfig) (used n : Z) : bool :=
  MaxInFlightBodyBytes cfg ÷ bodyBudgetPressureDivisor <? used + n.

Definition tryReserveConnBodyBytes (cfg : budgetConfig) (b : budget) (n : Z) : bool * budget :=
  if (n <=? 0) || (MaxInFlightBodyBytes cfg <? 0) then (true, b) else
  let reserved := connReserved b + n in
  if (connBodyShare cfg <? reserved) && bodyBudgetUnderPressure cfg (inFlight b) n
  then (false, {| inFlight := inFlight b; connReserved := reserved - n |})
  else
    let '(ok, used) := tryReserveBodyBytes cfg (inFlight b) n in
    if ok then (true, {| inFlight := used; connReserved := reserved |})
    else (false, {| inFlight := used; connReserved := reserved - n |}).

Definition releaseConnBodyBytes (cfg : budgetConfig) (b : budget) (n : Z) : budget :=
  if (n <=? 0) || (MaxInFlightBodyBytes cfg <? 0) then b else
  {| inFlight := releaseBodyBytes cfg (inFlight b) n; connReserved := connReserved b - n |}.

(** ** Many goroutines on one counter *)

(** Where a goroutine is inside [tryReserveBodyBytes] or [releaseBodyBytes]. *)
Inductive phase :=
| Idle
| Undo (n : Z)          (** added [n], saw the counter above the limit *)
| Loaded (n used : Z)   (** inside the compare-and-swap loop, after the load *)
| Redo (n : Z).         (** subtracted [n], saw a negative counter *)

(** [granted] is the ghost total of the reservations that returned [true] and
    have not been released. *)
Record sys := { counter : Z; granted : Z; threads : list phase }.

Definition set_thread (s : sys) (t : nat) (c g : Z) (ph : phase) : sys :=
  {| counter := c; granted := g; threads := <[t := ph]> (threads s) |}.

(** One atomic operation of goroutine [t]. *)
Inductive budget_step (limit : Z) (s : sys) : sys -> Prop :=
| step_add_ok t n : threads s !! t = Some Idle -> limit <= bodyBudgetAddPathMaxLimit -> 0 < n <= limit ->
    counter s + n <= limit ->
    budget_step limit s (set_thread s t (counter s + n) (granted s + n) Idle)
| step_add_over t n : threads s !! t = Some Idle -> limit <= bodyBudgetAddPathMaxLimit -> 0 < n <= limit ->
    limit < counter s + n ->
    budget_step limit s (set_thread s t (counter s + n) (granted s) (Undo n))
| step_undo t n : threads s !! t = Some (Undo n) ->
    budget_step limit s (set_thread s t (counter s - n) (granted s) Idle)
| step_load t n : threads s !! t = Some Idle -> bodyBudgetAddPathMaxLimit < limit -> 0 < n <= limit ->
    budget_step limit s (set_thread s t (counter s) (granted s) (Loaded n (counter s)))
| step_full t n used : threads s !! t = Some (Loaded n used) -> limit - used < n ->
    budget_step limit s (set_thread s t (counter s) (granted s) Idle)
| step_cas_ok t n used : threads s !! t = Some (Loaded n used) -> n <= limit - used -> counter s = used ->
    budget_step limit s (set_thread s t (used + n) (granted s + n) Idle)
| step_cas_retry t n used : threads s !! t = Some (Loaded n used) -> n <= limit - used -> counter s <> used ->
    budget_step limit s (set_thread s t (counter s) (granted s) (Loaded n (counter s)))
| step_release_ok t n : threads s !! t = Some Idle -> 0 < n <= granted s -> 0 <= counter s - n ->
    budget_step limit s (set_thread s t (counter s - n) (granted s - n) Idle)
| step_release_neg t n : threads s !! t = Some Idle -> 0 < n <= granted s -> counter s - n < 0 ->
    budget_step limit s (set_thread s t (counter s - n) (granted s - n) (Redo n))
| step_redo t n : threads s !! t = Some (Redo n) ->
    budget_step limit s (set_thread s t (counter s + n) (granted s) Idle).

Inductive budget_reach (limit : Z) : sys -> Prop :=
| reach_init k : budget_reach limit {| counter := 0; granted := 0; threads := replicate k Idle |}
| reach_step s s' : budget_reach limit s -> budget_step limit s s' -> budget_reach limit s'.

(** What a goroutine still has to give back. *)
Definition owed (ph : phase) : Z := match ph with Undo n => n | _ => 0 end.
Fixpoint owed_all (phs : list phase) : Z :=
  match phs with [] => 0 | ph :: phs => owed ph + owed_all phs end.

Definition phase_ok (limit : Z) (ph : phase) : Prop :=
  match ph with
  | Idle => True
  | Undo n => 0 < n <= limit /\ limit <= bodyBudgetAddPathMaxLimit
  | Loaded n used => 0 < n <= limit /\ bodyBudgetAddPathMaxLimit < limit
  | Redo _ => False
  end.

Definition budget_inv (limit : Z) (s : sys) : Prop :=
  counter s = granted s + owed_all (threads s) /\ 0 <= granted s <= limit /\
  Forall (phase_ok limit) (threads s).

(** ** Lemmas *)

Lemma owed_all_insert phs t ph ph' : phs !! t = Some ph ->
  owed_all (<[t := ph']> phs) = owed_all phs - owed ph + owed ph'.
Proof.
  revert t. induction phs as [|p phs IH]; intros [|t] Ht; try done.
  - injection Ht as ->. cbn [owed_all insert list_insert]. lia.
  - change (<[S t := ph']> (p :: phs)) with (p :: <[t := ph']> phs). cbn [owed_all].
    rewrite (IH t Ht). lia.
Qed.

Lemma owed_all_nonneg limit phs : Forall (phase_ok limit) phs -> 0 <= owed_all phs.
Proof. induction 1 as [|p phs Hp _ IH]; cbn; [lia |]. destruct p; cbn in *; lia. Qed.

Lemma owed_all_idle phs : Forall (fun ph => owed ph = 0) phs -> owed_all phs = 0.
Proof. induction 1 as [|p phs Hp _ IH]; cbn; lia. Qed.

Lemma budget_step_inv limit s s' : 0 <= limit -> budget_inv limit s -> budget_step limit s s' -> budget_inv limit s'.
Proof.
  intros Hl (Hc & Hg & Hall) Hstep. pose proof (owed_all_nonneg _ _ Hall) as Ho.
  assert (Hset : forall t ph c g ph', threads s !! t = Some ph -> phase_ok limit ph' ->
    c = g + (owed_all (threads s) - owed ph + owed ph') -> 0 <= g <= limit ->
    budget_inv limit (set_thread s t c g ph')).
  { intros t ph c g ph' Ht Hok Hcg Hgl. split; [| split]; cbn [counter granted threads set_thread].
    - by rewrite (owed_all_insert _ _ _ _ Ht).
    - done.
    - by apply Forall_insert. }
  destruct Hstep as [t n Ht ? ? ? | t n Ht ? ? ? | t n Ht | t n Ht ? ? | t n used Ht ? | t n used Ht ? ?
    | t n used Ht ? ? | t n Ht ? ? | t n Ht ? ? | t n Ht];
    pose proof (Forall_lookup_1 _ _ _ _ Hall Ht) as Hph; cbn in Hph; try done;
    eapply Hset; try exact Ht; cbn; try done; try lia.
Qed.

Lemma budget_reach_inv limit s : 0 <= limit -> budget_reach limit s -> budget_inv limit s.
Proof.
  intros Hl. induction 1 as [k | s s' _ IH Hs]; [| by eapply budget_step_inv].
  assert (Hz : owed_all (replicate k Idle) = 0) by (apply owed_all_idle; by apply Forall_replicate).
  split; [| split]; cbn; [lia | lia | by apply Forall_replicate].
Qed.

(** ** Properties *)

(** C34: the body budget holds under concurrency. In every state reachable by
    any interleaving of the atomic operations of any number of goroutines,
    on both the add-then-undo path and the compare-and-swap path, the
    reservations that returned [true] and are not released never exceed the
    configured limit; the counter is at least that total, equals it whenever
    no goroutine is about to undo an addition, and a release never sees a
    negative counter. *)
Theorem budget_never_exceeded limit s : 0 <= limit -> budget_reach limit s ->
  0 <= granted s <= limit /\ granted s <= counter s /\
  (Forall (fun ph => owed ph = 0) (threads s) -> counter s = granted s) /\
  (forall t n, threads s !! t <> Some (Redo n)).
Proof.
  intros Hl Hr. destruct (budget_reach_inv _ _ Hl Hr) as (Hc & Hg & Hall).
  pose proof (owed_all_nonneg _ _ Hall). split; [done |]. split; [lia |]. split.
  - intros Hi. pose proof (owed_all_idle _ Hi). lia.
  - intros t n Ht. apply (Forall_lookup_1 _ _ _ _ Hall Ht).
Qed.

Definition demo_sys0 : sys := {| counter := 0; granted := 0; threads := [Idle; Idle] |}.
Definition demo_sys1 : sys := set_thread demo_sys0 0 8 8 Idle.
Definition demo_sys2 : sys := set_thread demo_sys1 1 13 8 (Undo 5).

Lemma budget_never_exceeded_witness :
  0 <= granted demo_sys2 <= 10 /\ granted demo_sys2 <= counter demo_sys2 /\
  (Forall (fun ph => owed ph = 0) (threads demo_sys2) -> counter demo_sys2 = granted demo_sys2) /\
  (forall t n, threads demo_sys2 !! t <> Some (Redo n)).
Proof.
  apply (budget_never_exceeded 10 demo_sys2); [lia |].
  apply (reach_step 10 demo_sys1).
  - apply (reach_step 10 demo_sys0); [exact (reach_init 10 2) |].
    apply (step_add_ok 10 demo_sys0 0 8); try done; cbn; lia.
  - apply (step_add_over 10 demo_sys1 1 5); try done; cbn; lia.
Defined.

(** Reserving and releasing are inverse, and a refusal changes nothing.
    From any budget, [tryReserveConnBodyBytes] either returns [false] and
    leaves both counters as they were, or returns [true], keeps the aggregate
    within the limit (when one is configured), adds [n] to both counters, and
    [releaseConnBodyBytes] of the same [n] restores the budget exactly; it
    can only refuse a connection below its share when the aggregate would
    exceed the limit. *)
Theorem conn_budget_roundtrip cfg b n : 0 < n -> 0 <= inFlight b -> 0 <= MaxInFlightBodyBytes cfg ->
  let '(ok, b') := tryReserveConnBodyBytes cfg b n in
  (ok = false -> b' = b) /\
  (ok = true -> inFlight b' = inFlight b + n /\ connReserved b' = connReserved b + n /\
     inFlight b' <= MaxInFlightBodyBytes cfg /\ releaseConnBodyBytes cfg b' n = b) /\
  (ok = false -> connReserved b + n <= connBodyShare cfg -> MaxInFlightBodyBytes cfg < inFlight b + n).
Proof.
  intros Hn Hf Hm. unfold tryReserveConnBodyBytes.
  replace ((n <=? 0) || (MaxInFlightBodyBytes cfg <? 0)) with false by lia. cbv zeta.
  assert (Hb : forall a c, a = inFlight b -> c = connReserved b -> {| inFlight := a; connReserved := c |} = b)
    by (intros a c -> ->; by destruct b).
  destruct ((connBodyShare cfg <? connReserved b + n) && _) eqn:Hp.
  { split; [intros _; apply Hb; [done | lia] |]. split; [done |]. lia. }
  unfold tryReserveBodyBytes, releaseConnBodyBytes, releaseBodyBytes.
  replace ((n <=? 0) || (MaxInFlightBodyBytes cfg <? 0)) with false by lia. cbv zeta.
  repeat (split_if; cbn [inFlight connReserved]); (split; [| split]); intros; try done; try lia;
    repeat match goal with |- _ /\ _ => split end; try apply Hb; lia.
Qed.

Lemma conn_budget_roundtrip_witness :
  let '(ok, b') := tryReserveConnBodyBytes {| MaxInFlightBodyBytes := 100; MaxBodySize := 20 |}
                     {| inFlight := 30; connReserved := 4 |} 10 in
  (ok = false -> b' = {| inFlight := 30; connReserved := 4 |}) /\
  (ok = true -> inFlight b' = 30 + 10 /\ connReserved b' = 4 + 10 /\ inFlight b' <= 100 /\
     releaseConnBodyBytes {| MaxInFlightBodyBytes := 100; MaxBodySize := 20 |} b' 10
     = {| inFlight := 30; connReserved := 4 |}) /\
  (ok = false -> 4 + 10 <= connBodyShare {| MaxInFlightBodyBytes := 100; MaxBodySize := 20 |} -> 100 < 30 + 10).
Proof.
  apply (conn_budget_roundtrip {| MaxInFlightBodyBytes := 100; MaxBodySize := 20 |}
           {| inFlight := 30; connReserved := 4 |} 10); cbn; lia.
Defined.
