(* ===== verification/QuicStream.v ===== *)
(** One QUIC stream (src/core/quic_stream.go) with the connection-level
    credit it uses ([consumeRecvFlowCredit], [appendConnectionCredit] of
    quic_conn.go) and the server's body budget. The receive side is written
    against the interface [OOOStore]; the chunked list of QuicOOO.v is its
    instance. The mutex makes each operation atomic; channels that wake
    readers, buffer pools and the request-cancellation hook are not
    modelled. The stream is attached to a connection of a server, as every
    stream from [getPooledStream] is. *)
From stdpp Require Import base list numbers.
From Stdlib Require Import ZArith Lia ZifyBool.
From S2P Require Import Prelude QuicVarint QuicFrame QuicOOO BodyBudget.

(** ** Constants *)

Definition quicMinOOOSegmentCap : Z := 256.
Definition quicOOOWindowBytesPerGap : Z := 1200.
Definition quicOOOSegmentOverhead : Z := 64.
Definition quicStreamRecvUnlimitedCap : Z := 2 ^ 62.
Definition quicStreamRecvFrameSlack : Z := 16 * 2 ^ 10.

Definition quicRecvAccepted : Z := 1.
Definition quicRecvEndOfData : Z := 2.
Definition quicRecvViolation : Z := 4.
Definition quicRecvRejected : Z := 8.
Definition quicRecvFinalSizeError : Z := 16.

Definition quicErrFlowControl : Z := 0x03.
Definition quicErrFinalSize : Z := 0x06.

Inductive quicOOOResult := quicOOOStored | quicOOODropped | quicOOOTooManyGaps.

Definition quicStreamIsLocal (id : Z) (isServer : bool) : bool :=
  let initiator := Z.land id 0x01 in
  if isServer then initiator =? 1 else initiator =? 0.

Definition quicStreamIsBidi (id : Z) : bool := Z.land id 0x02 =? 0.

(** [quicStreamRecvLimit] and [quicStreamRecvCap] for a connection of a server
    with these settings. *)
Definition quicStreamRecvLimit (QUICMaxStreamData : Z) : Z :=
  if 0 <? QUICMaxStreamData then u64 QUICMaxStreamData else 2 ^ 18.

Definition quicStreamRecvCap (maxBody maxHeader window : Z) : Z :=
  if maxBody <? 0 then quicStreamRecvUnlimitedCap else
  let capBytes := u64 (u64 maxBody + u64 maxHeader + quicStreamRecvFrameSlack) in
  if capBytes <? window then window else capBytes.

(** ** State *)

(** The connection's counters a stream works on. *)
Record connState := {
  recvFlowUsed : Z;
  recvFlowLimit : Z;
  dataRecv : Z;
  dataRecvGranted : Z;
  maxDataLocal : Z;
  bodyBudget : budget;
  budgetCfg : budgetConfig;
}.

Definition set_flow (c : connState) (used : Z) : connState :=
  {| recvFlowUsed := used; recvFlowLimit := recvFlowLimit c; dataRecv := dataRecv c;
     dataRecvGranted := dataRecvGranted c; maxDataLocal := maxDataLocal c;
     bodyBudget := bodyBudget c; budgetCfg := budgetCfg c |}.
Definition set_budget (c : connState) (b : budget) : connState :=
  {| recvFlowUsed := recvFlowUsed c; recvFlowLimit := recvFlowLimit c; dataRecv := dataRecv c;
     dataRecvGranted := dataRecvGranted c; maxDataLocal := maxDataLocal c;
     bodyBudget := b; budgetCfg := budgetCfg c |}.

Definition consumeRecvFlowCredit (c : connState) (n : Z) : bool * connState :=
  let used := u64 (recvFlowUsed c + n) in
  (used <=? recvFlowLimit c, set_flow c used).

Definition appendConnectionCredit (c : connState) (frames : bytes) (consumed : Z) : bytes * connState :=
  let recv := u64 (dataRecv c + consumed) in
  if dataRecvGranted c <? u64 (recv + Z.shiftr (maxDataLocal c) 1) then
    let granted := u64 (recv + maxDataLocal c) in
    (quicAppendMaxDataFrame frames granted,
     {| recvFlowUsed := recvFlowUsed c; recvFlowLimit := granted; dataRecv := recv;
        dataRecvGranted := granted; maxDataLocal := maxDataLocal c;
        bodyBudget := bodyBudget c; budgetCfg := budgetCfg c |})
  else
    (frames,
     {| recvFlowUsed := recvFlowUsed c; recvFlowLimit := recvFlowLimit c; dataRecv := recv;
        dataRecvGranted := dataRecvGranted c; maxDataLocal := maxDataLocal c;
        bodyBudget := bodyBudget c; budgetCfg := budgetCfg c |}).

(** The receive fields of [QUICStream]. *)
Record recvSide (L : Type) := {
  recvBuf : bytes;
  recvOOO : L;
  oooBytes : Z;
  recvMax : Z;
  recvOff : Z;
  recvFin : bool;
  recvFinSeen : bool;
  recvFinOff : Z;
  recvClosed : bool;
  recvOverflow : bool;
  maxRecv : Z;
  recvWindow : Z;
  recvGranted : Z;
  recvAccounted : Z;
  recvReset : bool;
}.
Arguments recvBuf {L}. Arguments recvOOO {L}. Arguments oooBytes {L}. Arguments recvMax {L}.
Arguments recvOff {L}. Arguments recvFin {L}. Arguments recvFinSeen {L}. Arguments recvFinOff {L}.
Arguments recvClosed {L}. Arguments recvOverflow {L}. Arguments maxRecv {L}. Arguments recvWindow {L}.
Arguments recvGranted {L}. Arguments recvAccounted {L}. Arguments recvReset {L}.

Section Receive.

Context {L P : Type} `{OOOStore L P}.
Implicit Types (r : recvSide L) (c : connState).

Definition set_data r (buf : bytes) (ooo : L) (obytes off : Z) : recvSide L :=
  {| recvBuf := buf; recvOOO := ooo; oooBytes := obytes; recvMax := recvMax r; recvOff := off;
     recvFin := recvFin r; recvFinSeen := recvFinSeen r; recvFinOff := recvFinOff r;
     recvClosed := recvClosed r; recvOverflow := recvOverflow r; maxRecv := maxRecv r;
     recvWindow := recvWindow r; recvGranted := recvGranted r; recvAccounted := recvAccounted r;
     recvReset := recvReset r |}.
Definition set_accounted r (n : Z) : recvSide L :=
  {| recvBuf := recvBuf r; recvOOO := recvOOO r; oooBytes := oooBytes r; recvMax := recvMax r;
     recvOff := recvOff r; recvFin := recvFin r; recvFinSeen := recvFinSeen r;
     recvFinOff := recvFinOff r; recvClosed := recvClosed r; recvOverflow := recvOverflow r;
     maxRecv := maxRecv r; recvWindow := recvWindow r; recvGranted := recvGranted r;
     recvAccounted := n; recvReset := recvReset r |}.
Definition set_limits r (mx granted : Z) : recvSide L :=
  {| recvBuf := recvBuf r; recvOOO := recvOOO r; oooBytes := oooBytes r; recvMax := mx;
     recvOff := recvOff r; recvFin := recvFin r; recvFinSeen := recvFinSeen r;
     recvFinOff := recvFinOff r; recvClosed := recvClosed r; recvOverflow := recvOverflow r;
     maxRecv := maxRecv r; recvWindow := recvWindow r; recvGranted := granted;
     recvAccounted := recvAccounted r; recvReset := recvReset r |}.
Definition set_flags r (fin finSeen : bool) (finOff : Z) (closed overflow reset : bool) : recvSide L :=
  {| recvBuf := recvBuf r; recvOOO := recvOOO r; oooBytes := oooBytes r; recvMax := recvMax r;
     recvOff := recvOff r; recvFin := fin; recvFinSeen := finSeen; recvFinOff := finOff;
     recvClosed := closed; recvOverflow := overflow; maxRecv := maxRecv r; recvWindow := recvWindow r;
     recvGranted := recvGranted r; recvAccounted := recvAccounted r; recvReset := reset |}.

(** A stream as [getPooledStream] resets it. *)
Definition newRecvSide (window cap : Z) : recvSide L :=
  {| recvBuf := []; recvOOO := st_empty; oooBytes := 0; recvMax := 0; recvOff := 0; recvFin := false;
     recvFinSeen := false; recvFinOff := 0; recvClosed := false; recvOverflow := false; maxRecv := cap;
     recvWindow := window; recvGranted := window; recvAccounted := 0; recvReset := false |}.

(** *** Accounting *)

Definition outstanding r : Z := u64 (zlen (recvBuf r) + oooBytes r).

Definition reserve c r (n : Z) : bool * connState * recvSide L :=
  if n <=? 0 then (true, c, r) else
  if maxRecv r <? u64 (outstanding r + n) then (false, c, r) else
  let '(ok, b) := tryReserveConnBodyBytes (budgetCfg c) (bodyBudget c) n in
  if ok then (true, set_budget c b, set_accounted r (recvAccounted r + n))
  else (false, set_budget c b, r).

Definition releaseReserved c r (n : Z) : connState * recvSide L :=
  if n <=? 0 then (c, r) else
  let acc := recvAccounted r - n in
  (set_budget c (releaseConnBodyBytes (budgetCfg c) (bodyBudget c) n),
   set_accounted r (if acc <? 0 then 0 else acc)).

Definition reserveSegmentOverhead c r : bool * connState * recvSide L :=
  let '(ok, b) := tryReserveConnBodyBytes (budgetCfg c) (bodyBudget c) quicOOOSegmentOverhead in
  if ok then (true, set_budget c b, set_accounted r (recvAccounted r + quicOOOSegmentOverhead))
  else (false, set_budget c b, r).

(** *** Reassembly *)

Definition appendContig c r (data : bytes) : bool * connState * recvSide L :=
  let '(ok, c, r) := reserve c r (zlen data) in
  if ok then (true, c, set_data r (recvBuf r ++ data) (recvOOO r) (oooBytes r) (u64 (recvOff r + zlen data)))
  else (false, c, r).

Definition oooSegmentCap r : Z := Z.max quicMinOOOSegmentCap (recvWindow r / quicOOOWindowBytesPerGap).

(** [gapEnd] of both loops. *)
Definition gap_end (seg : option quicOOOSegment) (e : Z) : Z :=
  match seg with Some s => if seg_off s <? e then seg_off s else e | None => e end.

(** [prev != nil && prev.end() == off], with [prev] given by its slot. *)
Definition adjacent_slot (l : L) (prev : option P) (off : Z) : option (P * quicOOOSegment) :=
  match prev with
  | None => None
  | Some q =>
      match st_at l q with
      | Some s => if seg_end s =? off then Some (q, s) else None
      | None => None
      end
  end.

Fixpoint oooNewBytesLoop (fuel : nat) (l : L) (first p : P) (off e pos newBytes : Z) (opens : bool) : Z * bool :=
  match fuel with
  | O => (newBytes, opens)
  | S fuel =>
      if pos <? e then
        let seg := st_at l p in
        let ge := gap_end seg e in
        let '(newBytes, opens) :=
          if pos <? ge then
            (u64 (newBytes + (ge - pos)), if pos =? off then match adjacent_slot l (st_before l first) off with Some _ => false | None => true end
             else opens)
          else (newBytes, opens) in
        match seg with
        | Some s => if e <=? seg_off s then (newBytes, opens)
                    else oooNewBytesLoop fuel l first (st_next l p) off e (seg_end s) newBytes opens
        | None => (newBytes, opens)
        end
      else (newBytes, opens)
  end.

(** Enough iterations: each one passes a segment. *)
Definition ooo_fuel (l : L) : nat := S (Z.to_nat (st_len l)).

Definition oooNewBytes r (first : P) (off e : Z) : Z * bool :=
  oooNewBytesLoop (ooo_fuel (recvOOO r)) (recvOOO r) first first off e off 0 false.

(** The second loop of [insertOOO]. [prev] is the slot the pointer [prev]
    refers to: the code overwrites it after every insertion, so it is never
    read through a moved slot. *)
Fixpoint insertOOOLoop (fuel : nat) (l : L) (p : P) (prev : option P) (off e pos : Z) (data : bytes) : L :=
  match fuel with
  | O => l
  | S fuel =>
      if pos <? e then
        let seg := st_at l p in
        let ge := gap_end seg e in
        let '(l, p, seg) :=
          if pos <? ge then
            let piece := zslice data (pos - off) (ge - off) in
            match adjacent_slot l prev pos with
            | Some (q, ps) =>
                (st_set l q {| seg_off := seg_off ps; seg_data := seg_data ps ++ piece |}, p, seg)
            | None =>
                let '(l, p) := st_insert l p {| seg_off := pos; seg_data := piece |} in
                let p := st_next l p in
                (l, p, st_at l p)
            end
          else (l, p, seg) in
        match seg with
        | Some s => if e <=? seg_off s then l
                    else insertOOOLoop fuel l (st_next l p) (Some p) off e (seg_end s) data
        | None => l
        end
      else l
  end.

Definition insertOOO c r (off : Z) (data : bytes) : Z * quicOOOResult * connState * recvSide L :=
  let e := u64 (off + zlen data) in
  let first := st_firstEndingAfter (recvOOO r) off in
  let '(newBytes, opens) := oooNewBytes r first off e in
  if newBytes =? 0 then (0, quicOOOStored, c, r) else
  if opens && (oooSegmentCap r <=? st_len (recvOOO r)) then (0, quicOOOTooManyGaps, c, r) else
  let '(ok, c, r) := reserve c r newBytes in
  if negb ok then (0, quicOOODropped, c, r) else
  let '(ok, c, r) := (if opens then reserveSegmentOverhead c r else (true, c, r)) in
  if negb ok then let '(c, r) := releaseReserved c r newBytes in (0, quicOOODropped, c, r) else
  let l := insertOOOLoop (ooo_fuel (recvOOO r)) (recvOOO r) first (st_before (recvOOO r) first) off e off data in
  (newBytes, quicOOOStored, c, set_data r (recvBuf r) l (u64 (oooBytes r + newBytes)) (recvOff r)).

(** The body of the loop of [coalesceOOO] for a segment that starts at or
    below [recvOff]. *)
Definition coalesceSegment c r (seg : quicOOOSegment) : connState * recvSide L :=
  let r := set_data r (recvBuf r) (recvOOO r) (u64 (oooBytes r - zlen (seg_data seg))) (recvOff r) in
  let '(c, r) := releaseReserved c r quicOOOSegmentOverhead in
  let segEnd := seg_end seg in
  if segEnd <=? recvOff r then releaseReserved c r (zlen (seg_data seg))
  else
    let start := u64 (recvOff r - seg_off seg) in
    let '(c, r) := releaseReserved c r start in
    (c, set_data r (recvBuf r ++ zdrop start (seg_data seg)) (recvOOO r) (oooBytes r) segEnd).

(** The loop of [coalesceOOO]; [consumed] counts the segments taken. *)
Fixpoint coalesceLoop (fuel : nat) c r (p : P) (consumed : nat) : connState * recvSide L * nat :=
  match fuel with
  | O => (c, r, consumed)
  | S fuel =>
      if Z.of_nat consumed <? st_len (recvOOO r) then
        match st_at (recvOOO r) p with
        | None => (c, r, consumed)
        | Some seg =>
            if recvOff r <? seg_off seg then (c, r, consumed) else
            let '(c, r) := coalesceSegment c r seg in
            coalesceLoop fuel c r (st_next (recvOOO r) p) (S consumed)
        end
      else (c, r, consumed)
  end.

Definition coalesceOOO c r : connState * recvSide L :=
  let '(c, r, consumed) := coalesceLoop (ooo_fuel (recvOOO r)) c r st_begin 0 in
  if Nat.ltb 0 consumed
  then (c, set_data r (recvBuf r) (st_dropFront (recvOOO r) consumed) (oooBytes r) (recvOff r))
  else (c, r).

(** *** Frames *)

Definition violatesFinalSizeLocked r (e : Z) (fin : bool) : bool :=
  if recvFinSeen r then (recvFinOff r <? e) || (fin && negb (e =? recvFinOff r))
  else fin && (e <? recvMax r).

Definition rejectRecvLocked r : Z * recvSide L :=
  (quicRecvRejected,
   set_flags r (recvFin r) (recvFinSeen r) (recvFinOff r) true (recvOverflow r) (recvReset r)).

(** The end of [handleStreamFrame]: the FIN and overflow flags. *)
Definition finishStreamFrame r (fin : bool) (e : Z) : Z * recvSide L :=
  let seen := recvFinSeen r || fin in
  let finOff := if fin then e else recvFinOff r in
  let rfin := recvFin r || (seen && (finOff <=? recvOff r)) in
  let over := negb rfin && (maxRecv r <=? recvOff r) in
  let overflow := recvOverflow r || over in
  let rfin := rfin || over in
  (if rfin then Z.lor quicRecvAccepted quicRecvEndOfData else quicRecvAccepted,
   set_flags r rfin seen finOff (recvClosed r) overflow (recvReset r)).

(** The data part: [inl] is the accepted byte count, [inr] the rejection. *)
Definition storeStreamData c r (f : quicStreamFrame) (e : Z) : (Z + Z) * connState * recvSide L :=
  if (0 <? zlen (sf_data f)) && (recvOff r <? e) then
    let trim := u64 (recvOff r - sf_offset f) in
    let '(offset, data) :=
      if sf_offset f <? recvOff r then (recvOff r, zdrop trim (sf_data f)) else (sf_offset f, sf_data f) in
    if offset =? recvOff r then
      let '(ok, c, r) := appendContig c r data in
      if negb ok then let '(fl, r) := rejectRecvLocked r in (inr fl, c, r) else
      let '(c, r) := (if 0 <? st_len (recvOOO r) then coalesceOOO c r else (c, r)) in
      (inl (zlen data), c, r)
    else
      let '(n, result, c, r) := insertOOO c r offset data in
      match result with
      | quicOOOTooManyGaps | quicOOODropped => let '(fl, r) := rejectRecvLocked r in (inr fl, c, r)
      | quicOOOStored => (inl n, c, r)
      end
  else (inl 0, c, r).

Definition handleStreamFrame c r (f : quicStreamFrame) : Z * Z * connState * recvSide L :=
  if recvClosed r || recvOverflow r then (0, 0, c, r) else
  let e := u64 (sf_offset f + zlen (sf_data f)) in
  if recvGranted r <? e then (0, quicRecvViolation, c, r) else
  if violatesFinalSizeLocked r e (sf_fin f) then (0, quicRecvFinalSizeError, c, r) else
  let '(ok, c, r) :=
    if recvMax r <? e then
      let '(ok, c) := consumeRecvFlowCredit c (u64 (e - recvMax r)) in
      if ok then (true, c, set_limits r e (recvGranted r)) else (false, c, r)
    else (true, c, r) in
  if negb ok then (0, quicRecvViolation, c, r) else
  match storeStreamData c r f e with
  | (inr fl, c, r) => (0, fl, c, r)
  | (inl accepted, c, r) =>
      let '(flags, r) := finishStreamFrame r (sf_fin f) e in
      (accepted, flags, c, r)
  end.

(** *** Credit, reset and hand-over *)

Definition receivedExtent r : Z * Z :=
  let highest := if 0 <? st_len (recvOOO r)
                 then match st_last (recvOOO r) with Some s => seg_end s | None => recvOff r end
                 else recvOff r in
  (highest, u64 (recvOff r + oooBytes r)).

Definition unreceivedCredit r : Z :=
  let '(_, unique) := receivedExtent r in
  if recvGranted r <=? unique then 0 else recvGranted r - unique.

Definition streamCreditToGrant r : Z * recvSide L :=
  if recvFinSeen r || (maxRecv r <=? recvGranted r) ||
     (u64 (recvOff r + Z.shiftr (recvWindow r) 1) <=? recvGranted r)
  then (0, r) else
  let grant := u64 (recvOff r + recvWindow r) in
  let grant := if maxRecv r <? grant then maxRecv r else grant in
  (grant, set_limits r (recvMax r) grant).

Definition takeReceived c r : bytes * bool * connState * recvSide L :=
  let data := recvBuf r in
  let r := set_data r [] (recvOOO r) (oooBytes r) (recvOff r) in
  let '(c, r) := releaseReserved c r (zlen data) in
  (data, recvFin r, c, r).

(** One pass of the loop of [Read]: the bytes copied and whether [io.EOF] is
    returned; [None] is the wait for [recvReady]. *)
Definition Read r (n : Z) : option (bytes * bool * recvSide L) :=
  if 0 <? zlen (recvBuf r) then
    let k := Z.min n (zlen (recvBuf r)) in
    let rest := zdrop k (recvBuf r) in
    Some (ztake k (recvBuf r), recvFin r && (zlen rest =? 0), set_data r rest (recvOOO r) (oooBytes r) (recvOff r))
  else if recvFin r || recvClosed r then Some ([], true, r) else None.

(** One pass of the loop of [readAll]. *)
Definition readAll r : option (bytes * recvSide L) :=
  if recvFin r || recvClosed r
  then Some (recvBuf r, set_data r [] (recvOOO r) (oooBytes r) (recvOff r)) else None.

(** [inr] is the error code. *)
Definition applyPeerReset c r (finalSize : Z) : (Z + Z) * connState * recvSide L :=
  let '(highest, unique) := receivedExtent r in
  if (recvFinSeen r && negb (finalSize =? recvFinOff r)) || (finalSize <? Z.max highest (recvMax r))
  then (inr quicErrFinalSize, c, r) else
  if recvGranted r <? finalSize then (inr quicErrFlowControl, c, r) else
  let '(ok, c, r) :=
    if recvMax r <? finalSize then
      let '(ok, c) := consumeRecvFlowCredit c (u64 (finalSize - recvMax r)) in
      if ok then (true, c, set_limits r finalSize (recvGranted r)) else (false, c, r)
    else (true, c, r) in
  if negb ok then (inr quicErrFlowControl, c, r) else
  if recvReset r then (inl 0, c, r) else
  (inl (u64 (finalSize - unique)), c,
   set_flags r (recvFin r) true finalSize true (recvOverflow r) true).

(** The accounting part of [releaseStream], when the last reference goes. *)
Definition releaseStream c r : connState * recvSide L :=
  if 0 <? recvAccounted r then
    (set_budget c (releaseConnBodyBytes (budgetCfg c) (bodyBudget c) (recvAccounted r)), set_accounted r 0)
  else (c, r).

End Receive.

(** ** The send side *)

Record sendSide := {
  sendBuf : bytes;
  sendOff : Z;
  sendFin : bool;
  sendClosed : bool;
  sendReset : bool;
  stalledSend : Z;
  stallSince : Z;
}.

(** [s.conn.stalledSendBytes] and [s.conn.lastSendProgress]. *)
Record stallState := { stalledSendBytes : Z; lastSendProgress : Z }.

Definition newSendSide : sendSide :=
  {| sendBuf := []; sendOff := 0; sendFin := false; sendClosed := false; sendReset := false;
     stalledSend := 0; stallSince := 0 |}.

Definition releaseStalledLocked (now : Z) (k : stallState) (s : sendSide) (n : Z) : stallState * sendSide :=
  if n <=? 0 then (k, s) else
  ({| stalledSendBytes := stalledSendBytes k - n; lastSendProgress := now |},
   {| sendBuf := sendBuf s; sendOff := sendOff s; sendFin := sendFin s; sendClosed := sendClosed s;
      sendReset := sendReset s; stalledSend := stalledSend s - n; stallSince := now |}).

(** [None] is [ErrStreamClosed]. *)
Definition Write (s : sendSide) (data : bytes) : option sendSide :=
  if sendClosed s || sendFin s then None else
  Some {| sendBuf := sendBuf s ++ data; sendOff := sendOff s; sendFin := sendFin s;
          sendClosed := sendClosed s; sendReset := sendReset s; stalledSend := stalledSend s;
          stallSince := stallSince s |}.

Definition setSendBuf (s : sendSide) (data : bytes) : sendSide :=
  {| sendBuf := if sendClosed s then sendBuf s else data; sendOff := sendOff s; sendFin := true;
     sendClosed := sendClosed s; sendReset := sendReset s; stalledSend := stalledSend s;
     stallSince := stallSince s |}.

Definition sendBufDrained (s : sendSide) : bool := zlen (sendBuf s) =? 0.

Definition FinishWrite (s : sendSide) : sendSide :=
  {| sendBuf := sendBuf s; sendOff := sendOff s; sendFin := true; sendClosed := sendClosed s;
     sendReset := sendReset s; stalledSend := stalledSend s; stallSince := stallSince s |}.

(** The send half of [Close] and [resetSend]: drop what is buffered. *)
Definition abandon (now : Z) (k : stallState) (s : sendSide) (reset : bool) : stallState * sendSide :=
  releaseStalledLocked now k
    {| sendBuf := []; sendOff := sendOff s; sendFin := sendFin s; sendClosed := true;
       sendReset := sendReset s || reset; stalledSend := stalledSend s; stallSince := stallSince s |}
    (stalledSend s).

Definition closeSend (now : Z) (k : stallState) (s : sendSide) : stallState * sendSide := abandon now k s false.

Definition resetSend (now : Z) (k : stallState) (s : sendSide) : Z * bool * stallState * sendSide :=
  if sendReset s then (sendOff s, false, k, s) else
  let '(k, s) := abandon now k s true in (sendOff s, true, k, s).

Definition drainSendBuf (now : Z) (k : stallState) (s : sendSide) (maxBytes : Z) :
    bytes * Z * bool * stallState * sendSide :=
  if sendReset s then ([], sendOff s, false, k, s) else
  if zlen (sendBuf s) =? 0 then
    if sendFin s && negb (sendClosed s) then ([], sendOff s, true, k, s)
    else ([], sendOff s, false, k, s)
  else
  let n := if maxBytes <? zlen (sendBuf s) then maxBytes else zlen (sendBuf s) in
  let data := ztake n (sendBuf s) in
  let offset := sendOff s in
  let s := {| sendBuf := zdrop n (sendBuf s); sendOff := u64 (sendOff s + n); sendFin := sendFin s;
              sendClosed := sendClosed s; sendReset := sendReset s; stalledSend := stalledSend s;
              stallSince := stallSince s |} in
  let '(k, s) := (if 0 <? stalledSend s then releaseStalledLocked now k s (Z.min n (stalledSend s)) else (k, s)) in
  (data, offset, sendFin s && (zlen (sendBuf s) =? 0), k, s).

Definition beginStalledAccounting (s : sendSide) (now : Z) : Z * sendSide :=
  let pending := zlen (sendBuf s) - stalledSend s in
  if pending <=? 0 then (0, s) else
  (pending,
   {| sendBuf := sendBuf s; sendOff := sendOff s; sendFin := sendFin s; sendClosed := sendClosed s;
      sendReset := sendReset s; stalledSend := stalledSend s + pending;
      stallSince := if stalledSend s =? 0 then now else stallSince s |}).

(** [trackStalledSend] of quic_conn.go with the connection's hard cap; [true]
    asks for [resetStreamSend]. *)
Definition trackStalledSend (hardCap now : Z) (k : stallState) (s : sendSide) : bool * stallState * sendSide :=
  let '(pending, s) := beginStalledAccounting s now in
  if pending =? 0 then (false, k, s) else
  let total := stalledSendBytes k + pending in
  if total =? pending then (false, {| stalledSendBytes := total; lastSendProgress := now |}, s)
  else (hardCap <? total, {| stalledSendBytes := total; lastSendProgress := lastSendProgress k |}, s).
