(* ===== verification/QuicReassembly.v ===== *)
(** Correctness of the receive side of a QUIC stream: what the loops of
    [insertOOO] and [coalesceOOO] do to the list of buffered segments, and the
    theorems about whole sequences of operations on a stream. The sender's
    byte stream is a ghost function [g] from offsets to bytes. *)
From stdpp Require Import base list numbers.
From Stdlib Require Import ZArith Lia ZifyBool.
From S2P Require Import Prelude QuicVarint QuicFrame QuicOOO BodyBudget QuicStream.

(** ** Segment lists *)

Definition seg_stop (s : quicOOOSegment) : Z := seg_off s + zlen (seg_data s).

(** Non-empty, disjoint segments in increasing order within [low, high). *)
Fixpoint segs_ok (low high : Z) (fl : list quicOOOSegment) : Prop :=
  match fl with
  | [] => True
  | s :: fl => low <= seg_off s /\ 0 < zlen (seg_data s) /\ seg_stop s <= high /\ segs_ok (seg_stop s) high fl
  end.

Fixpoint seg_bytes (fl : list quicOOOSegment) : Z :=
  match fl with [] => 0 | s :: fl => zlen (seg_data s) + seg_bytes fl end.

Definition seg_covers (x : Z) (s : quicOOOSegment) : Prop := seg_off s <= x < seg_stop s.
Definition covers (fl : list quicOOOSegment) (x : Z) : Prop := Exists (seg_covers x) fl.

(** Every byte of [d], placed at [off], is the one the sender put there. *)
Definition data_agrees (g : Z -> Z) (off : Z) (d : bytes) : Prop :=
  forall k b, d !! k = Some b -> b = g (off + Z.of_nat k).
Definition seg_agrees (g : Z -> Z) (s : quicOOOSegment) : Prop := data_agrees g (seg_off s) (seg_data s).
Definition agrees (g : Z -> Z) (fl : list quicOOOSegment) : Prop := Forall (seg_agrees g) fl.

Lemma segs_ok_weaken low low' high high' fl : low' <= low -> high <= high' ->
  segs_ok low high fl -> segs_ok low' high' fl.
Proof.
  revert low low'. induction fl as [|s fl IH]; intros low low' Hl Hh; cbn [segs_ok]; [done |].
  intros (H1 & H2 & H3 & H4). repeat split; try lia. by apply (IH (seg_stop s)).
Qed.

Lemma segs_ok_elem low high fl s : segs_ok low high fl -> s ∈ fl ->
  low <= seg_off s /\ 0 < zlen (seg_data s) /\ seg_stop s <= high.
Proof.
  revert low. induction fl as [|t fl IH]; intros low Hok Hs; [by apply not_elem_of_nil in Hs |].
  destruct Hok as (H1 & H2 & H3 & H4). apply elem_of_cons in Hs as [-> | Hs]; [done |].
  destruct (IH _ H4 Hs) as (? & ? & ?). unfold seg_stop in *. repeat split; lia.
Qed.

Lemma segs_ok_drop low high k fl : segs_ok low high fl -> segs_ok low high (drop k fl).
Proof.
  revert low k. induction fl as [|s fl IH]; intros low [|k] Hok; cbn [drop]; [done | done | done |].
  destruct Hok as (H1 & H2 & H3 & H4). apply (segs_ok_weaken (seg_stop s) low high high); [unfold seg_stop; lia | lia |].
  by apply IH.
Qed.

(** Replacing a middle part keeps the list well-formed when the part stays
    within its neighbours. *)
Lemma segs_ok_prefix low high pre a b : segs_ok low high (pre ++ a) ->
  (forall low', low <= low' -> segs_ok low' high a -> segs_ok low' high b) -> segs_ok low high (pre ++ b).
Proof.
  revert low. induction pre as [|s pre IH]; intros low Hok Hab; cbn [app] in *; [by apply Hab |].
  destruct Hok as (H1 & H2 & H3 & H4). cbn [segs_ok]. repeat split; try done. apply IH; [done |].
  intros low' Hl. apply Hab. unfold seg_stop in *. lia.
Qed.

Lemma segs_ok_suffix low high pre a : segs_ok low high (pre ++ a) ->
  exists low', low <= low' /\ segs_ok low' high a.
Proof.
  revert low. induction pre as [|s pre IH]; intros low Hok; cbn [app] in *; [by exists low |].
  destruct Hok as (H1 & H2 & H3 & H4). destruct (IH _ H4) as (low' & Hl & Ha).
  exists low'. split; [unfold seg_stop in *; lia | done].
Qed.

Lemma seg_end_stop low high fl s : 0 <= low -> high < 2 ^ 64 -> segs_ok low high fl -> s ∈ fl ->
  seg_end s = seg_stop s.
Proof.
  intros Hl Hh Hok Hs. destruct (segs_ok_elem _ _ _ _ Hok Hs) as (? & ? & ?).
  unfold seg_end, seg_stop in *. apply u64_small. lia.
Qed.

Lemma segs_ok_order low high fl i j a b : segs_ok low high fl -> (i < j)%nat ->
  fl !! i = Some a -> fl !! j = Some b -> seg_stop a <= seg_off b.
Proof.
  revert low i j. induction fl as [|s fl IH]; intros low i j Hok Hij Ha Hb; [done |].
  destruct Hok as (H1 & H2 & H3 & H4). destruct j as [|j]; [lia |]. cbn in Hb. destruct i as [|i]; cbn in Ha.
  - simplify_eq. destruct (segs_ok_elem _ _ _ _ H4 (list_elem_of_lookup_2 _ _ _ Hb)). lia.
  - eapply (IH _ i j); [done | lia | done | done].
Qed.

Lemma segs_ok_ends low high fl : 0 <= low -> high < 2 ^ 64 -> segs_ok low high fl -> sorted_ends fl.
Proof.
  intros Hl Hh Hok i j a b Hij Ha Hb. destruct (decide (i = j)) as [-> | Hn]; [simplify_eq; lia |].
  pose proof (list_elem_of_lookup_2 _ _ _ Ha). pose proof (list_elem_of_lookup_2 _ _ _ Hb) as Hib.
  rewrite !(seg_end_stop low high fl) by done.
  pose proof (segs_ok_order low high fl i j a b Hok ltac:(lia) Ha Hb).
  destruct (segs_ok_elem _ _ _ _ Hok Hib). unfold seg_stop in *. lia.
Qed.

Lemma seg_bytes_app a b : seg_bytes (a ++ b) = seg_bytes a + seg_bytes b.
Proof. induction a as [|s a IH]; cbn; lia. Qed.

Lemma seg_bytes_cons s fl : seg_bytes (s :: fl) = zlen (seg_data s) + seg_bytes fl.
Proof. done. Qed.

Lemma seg_bytes_bound low high fl : segs_ok low high fl -> low <= high ->
  0 <= seg_bytes fl <= high - low.
Proof.
  revert low. induction fl as [|s fl IH]; intros low Hok Hlh; cbn [seg_bytes]; [lia |].
  destruct Hok as (H1 & H2 & H3 & H4). specialize (IH _ H4). unfold seg_stop in *. lia.
Qed.

Lemma seg_count_bound low high fl : segs_ok low high fl -> zlen fl <= seg_bytes fl.
Proof.
  revert low. induction fl as [|s fl IH]; intros low Hok; cbn [seg_bytes]; [done |].
  destruct Hok as (H1 & H2 & H3 & H4). specialize (IH _ H4). rewrite zlen_cons. lia.
Qed.

Lemma covers_app a b x : covers (a ++ b) x <-> covers a x \/ covers b x.
Proof. apply Exists_app. Qed.
Lemma covers_cons s fl x : covers (s :: fl) x <-> seg_covers x s \/ covers fl x.
Proof. apply Exists_cons. Qed.
Lemma covers_nil x : covers [] x <-> False.
Proof. apply Exists_nil. Qed.

Lemma covers_range low high fl x : segs_ok low high fl -> covers fl x -> low <= x < high.
Proof.
  intros Hok Hc. apply Exists_exists in Hc as (s & Hs%list_elem_of_In & Hx).
  destruct (segs_ok_elem _ _ _ _ Hok Hs) as (? & ? & ?). unfold seg_covers in Hx. lia.
Qed.

Create HintDb segs discriminated.
Create Rewrite HintDb segs.
#[export] Hint Rewrite covers_app covers_cons covers_nil seg_bytes_app : segs.

(** ** Agreement with the sender's stream *)

Lemma data_agrees_app g off a b :
  data_agrees g off (a ++ b) <-> data_agrees g off a /\ data_agrees g (off + zlen a) b.
Proof.
  unfold data_agrees, zlen. split.
  - intros H. split; intros k x Hk.
    + apply H. by apply lookup_app_l_Some.
    + rewrite <- Z.add_assoc, <- Nat2Z.inj_add. apply H. rewrite lookup_app_r by lia.
      by replace (length a + k - length a)%nat with k by lia.
  - intros [Ha Hb] k x Hk. apply lookup_app_Some in Hk as [Hk | [Hl Hk]]; [by apply Ha |].
    rewrite (Hb _ _ Hk). f_equal. lia.
Qed.

Lemma data_agrees_drop g off n d : 0 <= n -> data_agrees g off d -> data_agrees g (off + n) (zdrop n d).
Proof.
  intros Hn H k b Hk. unfold zdrop in Hk. rewrite lookup_drop in Hk. rewrite (H _ _ Hk). f_equal. lia.
Qed.

Lemma data_agrees_take g off n d : data_agrees g off d -> data_agrees g off (ztake n d).
Proof. intros H k b Hk. unfold ztake in Hk. apply lookup_take_Some in Hk as [Hk _]. by apply H. Qed.

Lemma data_agrees_slice g off a b d : 0 <= a -> data_agrees g off d ->
  data_agrees g (off + a) (zslice d a b).
Proof. intros Ha H. apply data_agrees_take. by apply data_agrees_drop. Qed.


(** ** What the insertion loop does *)

Section Fill.

Variables (off e : Z) (data : bytes).
Hypothesis Hlen : e = off + zlen data.

Definition piece (pos ge : Z) : bytes := zslice data (pos - off) (ge - off).
Definition extend (s : quicOOOSegment) (d : bytes) : quicOOOSegment :=
  {| seg_off := seg_off s; seg_data := seg_data s ++ d |}.

(** Put the bytes of [pos, ge) after the previous segment: onto its end when
    they touch, else as a segment of their own. *)
Definition add_piece (prev : option quicOOOSegment) (pos ge : Z) : list quicOOOSegment :=
  let new := {| seg_off := pos; seg_data := piece pos ge |} in
  match prev with
  | Some s => if seg_stop s =? pos then [extend s (piece pos ge)] else [s; new]
  | None => [new]
  end.

Definition add_gap (prev : option quicOOOSegment) (pos ge : Z) : list quicOOOSegment :=
  if pos <? ge then add_piece prev pos ge else option_list prev.

(** The reference for the second loop of [insertOOO]: the segments from the
    one before the position on. *)
Fixpoint fill (prev : option quicOOOSegment) (suf : list quicOOOSegment) (pos : Z) : list quicOOOSegment :=
  if pos <? e then
    match suf with
    | [] => add_gap prev pos e
    | s :: suf' =>
        if e <=? seg_off s then add_gap prev pos e ++ suf
        else add_gap prev pos (seg_off s) ++ fill (Some s) suf' (seg_stop s)
    end
  else option_list prev ++ suf.

(** The reference for [oooNewBytes]: the total size of the gaps. *)
Fixpoint fill_new (suf : list quicOOOSegment) (pos : Z) : Z :=
  if pos <? e then
    match suf with
    | [] => e - pos
    | s :: suf =>
        if e <=? seg_off s then e - pos
        else Z.max 0 (seg_off s - pos) + fill_new suf (seg_stop s)
    end
  else 0.

(** The state of the loops: the segment before ends at or before [pos], the
    one at the position ends after it. *)
Definition at_gap (prev : option quicOOOSegment) (suf : list quicOOOSegment) (low pos : Z) : Prop :=
  off <= pos /\ low <= pos /\
  match prev with Some s => seg_stop s <= pos | None => True end /\
  match suf with s :: _ => pos < seg_stop s | [] => True end.

Lemma zlen_piece pos ge : off <= pos <= ge -> ge <= e -> zlen (piece pos ge) = ge - pos.
Proof. intros. unfold piece. rewrite zlen_slice; lia. Qed.

Lemma extend_stop s pos ge : seg_stop s = pos -> off <= pos <= ge -> ge <= e -> seg_stop (extend s (piece pos ge)) = ge.
Proof. intros Hs H1 H2. unfold seg_stop in *. cbn. rewrite zlen_app, zlen_piece by lia. lia. Qed.

Lemma new_stop pos ge : off <= pos <= ge -> ge <= e ->
  seg_stop {| seg_off := pos; seg_data := piece pos ge |} = ge.
Proof. intros. unfold seg_stop. cbn. rewrite zlen_piece; lia. Qed.

Lemma add_gap_ok low high prev pos ge rest :
  off <= pos -> low <= pos -> ge <= e -> ge <= high ->
  match prev with Some s => seg_stop s <= pos | None => True end ->
  segs_ok low high (option_list prev ++ rest) ->
  (forall low', pos <= low' -> low' <= Z.max pos ge -> segs_ok low' high rest) ->
  segs_ok low high (add_gap prev pos ge ++ rest).
Proof.
  intros Ho Hl He Hh Hp Hok Hrest. unfold add_gap. destruct (Z.ltb_spec pos ge) as [Hlt |]; [| done].
  assert (Hn : zlen (piece pos ge) = ge - pos) by (apply zlen_piece; lia).
  unfold add_piece. destruct prev as [s |]; cbn [option_list app] in *.
  - destruct Hok as (H1 & H2 & H3 & H4). destruct (Z.eqb_spec (seg_stop s) pos) as [Heq | Hne].
    + pose proof (extend_stop s pos ge Heq ltac:(lia) He) as Hs. cbn [app segs_ok]. rewrite Hs.
      repeat split; [done | | done | apply Hrest; lia]. cbn. rewrite zlen_app. lia.
    + cbn [app segs_ok]. rewrite new_stop by lia. cbn [seg_off seg_data]. repeat split; try lia. apply Hrest; lia.
  - cbn [app segs_ok]. rewrite new_stop by lia. cbn [seg_off seg_data]. repeat split; try lia. apply Hrest; lia.
Qed.

Lemma fill_ok prev suf : forall low high pos, at_gap prev suf low pos -> e <= high ->
  segs_ok low high (option_list prev ++ suf) -> segs_ok low high (fill prev suf pos).
Proof.
  revert prev. induction suf as [|s suf IH]; intros prev low high pos (Ho & Hl & Hp & Hs) Hh Hok; cbn [fill].
  { destruct (Z.ltb_spec pos e); [| done]. rewrite <- (app_nil_r (add_gap _ _ _)).
    by apply add_gap_ok. }
  destruct (Z.ltb_spec pos e); [| done].
  assert (Hsuf : exists low', segs_ok low' high (s :: suf)).
  { destruct (segs_ok_suffix _ _ (option_list prev) _ Hok) as (low' & _ & ?). by exists low'. }
  destruct Hsuf as (low0 & H1 & H2 & H3 & H4).
  destruct (Z.leb_spec e (seg_off s)).
  - apply add_gap_ok; [done | done | lia | lia | done | done |]. intros. cbn [segs_ok]. repeat split; lia || done.
  - assert (Hfill : forall low', low' <= seg_off s -> segs_ok low' high (fill (Some s) suf (seg_stop s))).
    { intros low' Hl'. apply IH; [| done | cbn; repeat split; lia || done].
      split; [unfold seg_stop in *; lia |]. split; [unfold seg_stop in *; lia |]. split; [lia |].
      destruct suf as [|t suf]; [done |]. destruct H4 as (? & ? & ? & ?). unfold seg_stop in *. lia. }
    unfold add_gap. destruct (Z.ltb_spec pos (seg_off s)).
    + pose proof (add_gap_ok low high prev pos (seg_off s) (fill (Some s) suf (seg_stop s))) as Hg.
      unfold add_gap in Hg. replace (pos <? seg_off s) with true in Hg by lia.
      apply Hg; try lia; [done | | intros; apply Hfill; lia].
      destruct prev as [q |]; cbn in Hok |- *; [| apply Hfill; lia].
      destruct Hok as (? & ? & ? & ? & _). repeat split; try done. by apply Hfill.
    + destruct prev as [q |]; cbn in Hok |- *; [| apply Hfill; lia].
      destruct Hok as (? & ? & ? & ? & _). repeat split; try done. by apply Hfill.
Qed.

Lemma at_gap_next prev s suf low high pos : at_gap prev (s :: suf) low pos ->
  segs_ok low high (option_list prev ++ s :: suf) -> at_gap (Some s) suf (seg_off s) (seg_stop s).
Proof.
  intros (Ho & Hl & Hp & Hs) Hok. destruct (segs_ok_suffix _ _ (option_list prev) _ Hok) as (low' & _ & H1 & H2 & H3 & H4).
  split; [lia |]. split; [unfold seg_stop; lia |]. split; [done |].
  destruct suf as [|t suf]; [done |]. destruct H4 as (? & ? & ? & ?). unfold seg_stop in *. lia.
Qed.

Lemma segs_ok_next low high prev s suf : segs_ok low high (option_list prev ++ s :: suf) ->
  segs_ok (seg_off s) high (option_list (Some s) ++ suf).
Proof.
  intros Hok. destruct (segs_ok_suffix _ _ (option_list prev) _ Hok) as (low' & _ & H1 & H2 & H3 & H4).
  cbn. repeat split; lia || done.
Qed.

Lemma add_gap_bytes prev pos ge : off <= pos -> ge <= e ->
  seg_bytes (add_gap prev pos ge) = seg_bytes (option_list prev) + Z.max 0 (ge - pos).
Proof.
  intros Ho He. unfold add_gap. destruct (Z.ltb_spec pos ge); [| lia].
  unfold add_piece. destruct prev as [s |]; [destruct (seg_stop s =? pos) |];
    cbn; rewrite ?zlen_app, zlen_piece by lia; lia.
Qed.

Lemma fill_bytes prev suf : forall low high pos, at_gap prev suf low pos ->
  segs_ok low high (option_list prev ++ suf) ->
  seg_bytes (fill prev suf pos) = seg_bytes (option_list prev ++ suf) + fill_new suf pos.
Proof.
  revert prev. induction suf as [|s suf IH]; intros prev low high pos Hg Hok; cbn [fill fill_new];
    destruct (Z.ltb_spec pos e); try lia; pose proof Hg as (Ho & Hl & Hp & Hs).
  - rewrite add_gap_bytes, seg_bytes_app by lia. cbn. lia.
  - destruct (Z.leb_spec e (seg_off s)); rewrite !seg_bytes_app, add_gap_bytes by lia; [lia |].
    rewrite (IH (Some s) (seg_off s) high); [cbn; lia | by eapply at_gap_next | by eapply segs_ok_next].
Qed.

Lemma add_gap_covers prev pos ge x : off <= pos -> ge <= e ->
  match prev with Some s => seg_stop s <= pos | None => True end ->
  covers (add_gap prev pos ge) x <-> covers (option_list prev) x \/ pos <= x < ge.
Proof.
  intros Ho He Hp. unfold add_gap. destruct (Z.ltb_spec pos ge).
  2:{ split; [tauto | intros [? | ?]; [done | lia]]. }
  unfold add_piece. destruct prev as [s |].
  - destruct (Z.eqb_spec (seg_stop s) pos) as [Heq |]; cbn; autorewrite with segs; unfold seg_covers.
    + rewrite extend_stop by (lia || done). cbn. unfold seg_stop in *. pose proof (zlen_nonneg (seg_data s)).
      intuition lia.
    + rewrite new_stop by lia. cbn. tauto.
  - cbn. autorewrite with segs. unfold seg_covers. rewrite new_stop by lia. cbn. tauto.
Qed.

Lemma fill_covers prev suf x : forall low high pos, at_gap prev suf low pos ->
  segs_ok low high (option_list prev ++ suf) ->
  covers (fill prev suf pos) x <-> covers (option_list prev ++ suf) x \/ pos <= x < e.
Proof.
  revert prev. induction suf as [|s suf IH]; intros prev low high pos Hg Hok; cbn [fill];
    (destruct (Z.ltb_spec pos e); [| intuition lia]); pose proof Hg as (Ho & Hl & Hp & Hs).
  - rewrite add_gap_covers, app_nil_r by (done || lia). done.
  - destruct (Z.leb_spec e (seg_off s)); rewrite !covers_app, add_gap_covers by (done || lia); [tauto |].
    rewrite (IH (Some s) (seg_off s) high); [| by eapply at_gap_next | by eapply segs_ok_next].
    change (option_list (Some s) ++ suf) with (s :: suf). rewrite !covers_cons. unfold seg_covers.
    cbv iota in Hs. assert (seg_off s <= seg_stop s) by (unfold seg_stop; pose proof (zlen_nonneg (seg_data s)); lia).
    destruct (Z.lt_ge_cases x (seg_off s)), (Z.lt_ge_cases x (seg_stop s)); intuition lia.
Qed.

Lemma add_gap_agrees g prev pos ge : off <= pos -> data_agrees g off data ->
  agrees g (option_list prev) -> agrees g (add_gap prev pos ge).
Proof.
  intros Ho Hd Hp. unfold add_gap. destruct (pos <? ge); [| done].
  assert (Hpc : data_agrees g pos (piece pos ge)).
  { replace pos with (off + (pos - off)) at 1 by lia. apply data_agrees_slice; [lia | done]. }
  unfold add_piece. destruct prev as [s |]; cbn in Hp |- *.
  - apply Forall_inv in Hp. destruct (Z.eqb_spec (seg_stop s) pos) as [Heq |]; repeat constructor; try done.
    apply data_agrees_app. split; [done |]. cbn. unfold seg_stop in Heq. by rewrite Heq.
  - by repeat constructor.
Qed.

Lemma fill_agrees g prev suf : forall low high pos, at_gap prev suf low pos ->
  segs_ok low high (option_list prev ++ suf) -> data_agrees g off data ->
  agrees g (option_list prev ++ suf) -> agrees g (fill prev suf pos).
Proof.
  revert prev. induction suf as [|s suf IH]; intros prev low high pos Hg Hok Hd Ha; cbn [fill];
    (destruct (Z.ltb_spec pos e); [| done]); pose proof Hg as (Ho & Hl & Hp & Hs).
  - apply add_gap_agrees; [done | done |]. by rewrite app_nil_r in Ha.
  - apply Forall_app in Ha as [Ha1 Ha2]. destruct (Z.leb_spec e (seg_off s)); apply Forall_app;
      (split; [by apply add_gap_agrees |]); [done |].
    apply (IH (Some s) (seg_off s) high); [by eapply at_gap_next | by eapply segs_ok_next | done | done].
Qed.

(** Only the first gap can open a segment: every later one touches the
    segment before it. *)
Definition opens_gap (prev : option quicOOOSegment) (suf : list quicOOOSegment) (pos : Z) : bool :=
  (pos <? gap_end (head suf) e) && negb (match prev with Some s => seg_stop s =? pos | None => false end).

Lemma add_gap_length prev pos ge :
  length (add_gap prev pos ge) = (length (option_list prev) +
    Nat.b2n ((pos <? ge)%Z && negb (match prev with Some s => seg_stop s =? pos | None => false end)%Z))%nat.
Proof.
  unfold add_gap, add_piece. destruct (pos <? ge); [| cbn; lia].
  destruct prev as [s |]; [destruct (seg_stop s =? pos) |]; done.
Qed.

Lemma fill_length prev suf : forall pos, pos < e ->
  length (fill prev suf pos) =
  (length (option_list prev ++ suf) + Nat.b2n (opens_gap prev suf pos))%nat.
Proof.
  revert prev. induction suf as [|s suf IH]; intros prev pos Hpos; cbn [fill];
    (destruct (Z.ltb_spec pos e); [| lia]); unfold opens_gap; cbn [head].
  - rewrite add_gap_length, length_app. cbn. lia.
  - cbn [gap_end]. destruct (Z.leb_spec e (seg_off s)).
    + rewrite !length_app, add_gap_length. replace (seg_off s <? e) with false by lia. cbn. lia.
    + replace (seg_off s <? e) with true by lia. rewrite length_app, add_gap_length.
      destruct (decide (seg_stop s < e)) as [Hs | Hs].
      * rewrite IH by done. unfold opens_gap. rewrite Z.eqb_refl, andb_false_r. rewrite !length_app. cbn. lia.
      * destruct suf; cbn [fill]; replace (seg_stop s <? e) with false by lia; rewrite !length_app; cbn; lia.
Qed.

Lemma fill_new_bound suf : forall pos low high, segs_ok low high suf ->
  match suf with s :: _ => pos < seg_stop s | [] => True end -> 0 <= fill_new suf pos <= Z.max 0 (e - pos).
Proof.
  induction suf as [|s suf IH]; intros pos low high Hok Hs; cbn [fill_new].
  { destruct (Z.ltb_spec pos e); lia. }
  destruct Hok as (H1 & H2 & H3 & H4).
  destruct (Z.ltb_spec pos e); [| lia]. destruct (Z.leb_spec e (seg_off s)); [lia |].
  assert (0 <= fill_new suf (seg_stop s) <= Z.max 0 (e - seg_stop s)).
  { apply (IH _ (seg_stop s) high); [done |]. destruct suf as [|t suf]; [done |].
    destruct H4 as (? & ? & ? & ?). unfold seg_stop in *. lia. }
  unfold seg_stop in *. lia.
Qed.

(** No new byte: the list is unchanged. *)
Lemma fill_new_zero prev suf : forall pos low high, at_gap prev suf low pos ->
  segs_ok low high (option_list prev ++ suf) -> fill_new suf pos = 0 -> fill prev suf pos = option_list prev ++ suf.
Proof.
  revert prev. induction suf as [|s suf IH]; intros prev pos low high Hg Hok Hz; cbn [fill fill_new] in *;
    (destruct (Z.ltb_spec pos e); [| done]); [lia |].
  destruct (Z.leb_spec e (seg_off s)); [lia |].
  pose proof (segs_ok_next _ _ _ _ _ Hok) as Hn. pose proof (at_gap_next _ _ _ _ _ _ Hg Hok) as Hg'.
  assert (0 <= fill_new suf (seg_stop s)).
  { destruct Hg' as (_ & _ & _ & Hh). destruct Hn as (? & ? & ? & H4). by eapply fill_new_bound. }
  unfold add_gap. replace (pos <? seg_off s) with false by lia. f_equal.
  apply (IH (Some s) _ (seg_off s) high); [done | done | lia].
Qed.
End Fill.

(** ** The loops compute the reference *)

Section Loops.

Context {L P : Type} `{Hst : OOOStoreLaws L P}.
Variables (off e : Z) (data : bytes) (high : Z).
Hypothesis Hlen : e = off + zlen data.
Hypothesis Hhigh : high <= 2 ^ 62.
Hypothesis Hoff : 0 <= off.
Hypothesis He : e <= high.

(** [prev] is the slot before index [i], which holds [ps]. *)
Definition prev_slot (l : L) (prev : option P) (ps : option quicOOOSegment) (i : nat) : Prop :=
  match prev, ps with
  | None, None => i = 0%nat
  | Some q, Some s => exists j, i = S j /\ st_pos l q j /\ st_flat l !! j = Some s
  | _, _ => False
  end.

Lemma adjacent_slot_spec l prev ps i pos low : st_inv l -> 0 <= low -> segs_ok low high (st_flat l) ->
  prev_slot l prev ps i ->
  adjacent_slot l prev pos =
    match prev, ps with
    | Some q, Some s => if seg_stop s =? pos then Some (q, s) else None
    | _, _ => None
    end.
Proof.
  intros Hinv Hl Hok Hprev. unfold adjacent_slot. destruct prev as [q |], ps as [s |]; cbn in Hprev; try done.
  destruct Hprev as (j & -> & Hq & Hs). rewrite (st_at_flat _ _ j Hinv Hq), Hs.
  rewrite (seg_end_stop low high (st_flat l) s); [done | done | lia | done |].
  by eapply list_elem_of_lookup_2.
Qed.

Lemma first_slot l pos low : st_inv l -> 0 <= low <= pos -> segs_ok low high (st_flat l) ->
  exists i pre ps suf,
    st_pos l (st_firstEndingAfter l pos) i /\
    st_flat l = pre ++ option_list ps ++ suf /\ length (pre ++ option_list ps) = i /\
    prev_slot l (st_before l (st_firstEndingAfter l pos)) ps i /\
    match ps with Some s => seg_stop s <= pos | None => True end /\
    match suf with s :: _ => pos < seg_stop s | [] => True end.
Proof.
  intros Hinv Hl Hok.
  destruct (st_first_pos l pos Hinv) as (i & Hp & Hi & Hbefore & Hafter).
  { by eapply segs_ok_ends; [| | exact Hok]; lia. }
  assert (Hend : forall j s, st_flat l !! j = Some s -> seg_end s = seg_stop s).
  { intros j s Hs. eapply seg_end_stop; [| | exact Hok | by eapply list_elem_of_lookup_2]; lia. }
  assert (Hhd : match drop i (st_flat l) with s :: _ => pos < seg_stop s | [] => True end).
  { destruct (drop i (st_flat l)) as [|s suf] eqn:Hd; [done |].
    assert (Hs : st_flat l !! i = Some s) by (rewrite <- (Nat.add_0_r i), <- lookup_drop, Hd; done).
    rewrite <- (Hend _ _ Hs). by apply (Hafter i). }
  exists i. destruct i as [|j].
  - exists [], None, (st_flat l). rewrite st_before_none by done. by repeat split.
  - destruct (lookup_lt_is_Some_2 (st_flat l) j ltac:(lia)) as [s Hs].
    destruct (st_before_some _ _ _ Hinv Hp) as (q & Hq & Hqp).
    exists (take j (st_flat l)), (Some s), (drop (S j) (st_flat l)). rewrite Hq.
    repeat split; [done | | | | | done].
    + symmetry. by apply take_drop_middle.
    + rewrite length_app, length_take. cbn. lia.
    + by exists j.
    + rewrite <- (Hend _ _ Hs). apply (Hbefore j); [lia | done].
Qed.

Lemma lookup_zip (a suf : list quicOOOSegment) i : length a = i -> (a ++ suf) !! i = head suf.
Proof. intros <-. rewrite lookup_app_r, Nat.sub_diag by lia. by destruct suf. Qed.

Lemma suf_head_stop low a s suf : 0 <= low -> segs_ok low high (a ++ s :: suf) -> seg_end s = seg_stop s.
Proof. intros Hl Hok. eapply (seg_end_stop low high); [exact Hl | lia | exact Hok |]. apply elem_of_app. right. left. Qed.

(** [oooNewBytes] sums the gaps. *)
Lemma oooNewBytesLoop_spec l first low : st_inv l -> 0 <= low -> segs_ok low high (st_flat l) ->
  forall suf a fuel p pos nb opens, st_flat l = a ++ suf -> st_pos l p (length a) -> (length suf < fuel)%nat ->
  off < pos -> match suf with s :: _ => pos < seg_stop s | [] => True end ->
  0 <= nb -> nb + Z.max 0 (e - pos) < 2 ^ 64 ->
  oooNewBytesLoop fuel l first p off e pos nb opens = (nb + fill_new e suf pos, opens).
Proof.
  intros Hinv Hl Hok. induction suf as [|s suf IH]; intros a fuel p pos nb opens Hfl Hp Hfuel Hpos Hs Hnb Hbd;
    (destruct fuel as [|fuel]; [cbn in Hfuel; lia |]); cbn [oooNewBytesLoop fill_new];
    (destruct (Z.ltb_spec pos e); [| by rewrite Z.add_0_r]); rewrite (st_at_flat _ _ _ Hinv Hp), Hfl, lookup_zip by done;
    cbn [head gap_end].
  - replace (pos <? e) with true by lia. replace (pos =? off) with false by lia. f_equal. apply u64_small. lia.
  - assert (Hend : seg_end s = seg_stop s) by (eapply (suf_head_stop low a); [done | by rewrite <- Hfl]).
    destruct (Z.leb_spec e (seg_off s)).
    + replace (seg_off s <? e) with false by lia. replace (pos <? e) with true by lia.
      replace (pos =? off) with false by lia. f_equal. apply u64_small. lia.
    + replace (seg_off s <? e) with true by lia. replace (pos =? off) with false by lia.
      rewrite Hend.
      assert (Hstep : (if pos <? seg_off s then (u64 (nb + (seg_off s - pos)), opens) else (nb, opens))
                      = (nb + Z.max 0 (seg_off s - pos), opens)).
      { destruct (Z.ltb_spec pos (seg_off s)); f_equal; [rewrite u64_small |]; lia. }
      rewrite Hstep. rewrite Hfl in Hok. destruct (segs_ok_suffix _ _ a _ Hok) as (low' & _ & Q1 & Q2 & Q3 & Q4).
      rewrite (IH (a ++ [s])); [by rewrite Z.add_assoc | by rewrite <- app_assoc | | cbn in Hfuel; lia | lia | | lia |].
      * rewrite length_app. cbn. rewrite Nat.add_1_r. apply st_next_pos; [done | done |].
        rewrite Hfl, length_app. cbn. lia.
      * destruct suf as [|t suf]; [done |]. destruct Q4 as (? & ? & ? & ?). unfold seg_stop in *. lia.
      * unfold seg_stop in *. lia.
Qed.

Lemma oooNewBytesLoop_first l low pre ps suf fuel p : st_inv l -> 0 <= low -> segs_ok low high (st_flat l) ->
  st_flat l = pre ++ option_list ps ++ suf -> st_pos l p (length (pre ++ option_list ps)) ->
  (length suf < fuel)%nat -> off < e ->
  prev_slot l (st_before l p) ps (length (pre ++ option_list ps)) ->
  match suf with s :: _ => off < seg_stop s | [] => True end ->
  oooNewBytesLoop fuel l p p off e off 0 false = (fill_new e suf off, opens_gap e ps suf off).
Proof.
  intros Hinv Hl Hok Hfl Hp Hfuel Hlt Hprev Hs. rewrite app_assoc in Hfl.
  assert (Hopen : match adjacent_slot l (st_before l p) off with Some _ => false | None => true end =
    negb match ps with Some s => seg_stop s =? off | None => false end).
  { rewrite (adjacent_slot_spec l _ ps _ off low) by done.
    destruct (st_before l p) as [q |], ps as [t |]; cbn in Hprev; try done. by destruct (seg_stop t =? off). }
  destruct fuel as [|fuel]; [lia |]. cbn [oooNewBytesLoop]. replace (off <? e) with true by lia.
  rewrite (st_at_flat _ _ _ Hinv Hp), Hfl, lookup_zip by done. rewrite Z.eqb_refl, Hopen. unfold opens_gap.
  destruct suf as [|s suf]; cbn [head gap_end fill_new]; replace (off <? e) with true by lia.
  { f_equal. apply u64_small. lia. }
  assert (Hend : seg_end s = seg_stop s) by (eapply (suf_head_stop low (pre ++ option_list ps)); [done | by rewrite <- Hfl]).
  destruct (Z.leb_spec e (seg_off s)).
  { replace (seg_off s <? e) with false by lia. replace (off <? e) with true by lia. f_equal. apply u64_small. lia. }
  replace (seg_off s <? e) with true by lia. rewrite Hend.
  pose proof Hok as Hok'. rewrite Hfl in Hok'. destruct (segs_ok_suffix _ _ _ _ Hok') as (low' & _ & Q1 & Q2 & Q3 & Q4).
  assert (Hrec : forall nb o, 0 <= nb -> nb + Z.max 0 (e - seg_stop s) < 2 ^ 64 ->
    oooNewBytesLoop fuel l p (st_next l p) off e (seg_stop s) nb o = (nb + fill_new e suf (seg_stop s), o)).
  { intros nb o Hnb Hbd. apply (oooNewBytesLoop_spec l p low) with (a := (pre ++ option_list ps) ++ [s]); try done.
    - by rewrite Hfl, <- (app_assoc _ [s]).
    - rewrite length_app. cbn. rewrite Nat.add_1_r. apply st_next_pos; [done | done |].
      rewrite Hfl, !length_app. cbn. lia.
    - cbn in Hfuel. lia.
    - destruct suf as [|t suf]; [done |]. destruct Q4 as (? & ? & ? & ?). unfold seg_stop in *. lia. }
  destruct (Z.ltb_spec off (seg_off s)).
  - rewrite u64_small by lia. rewrite Hrec by (unfold seg_stop in *; lia). cbn [andb]. f_equal. lia.
  - rewrite Hrec by (unfold seg_stop in *; lia). cbn [andb]. f_equal. lia.
Qed.

(** One gap: the store holds [add_gap] and the position is back at the
    segment after it. *)
Lemma insert_gap_step l low pre ps suf p prev pos ge : st_inv l -> 0 <= low -> segs_ok low high (st_flat l) ->
  st_flat l = pre ++ option_list ps ++ suf -> st_pos l p (length (pre ++ option_list ps)) ->
  prev_slot l prev ps (length (pre ++ option_list ps)) ->
  exists l1 p1,
    (if pos <? ge then
       match adjacent_slot l prev pos with
       | Some (q, s) => (st_set l q (extend s (piece off data pos ge)), p, st_at l p)
       | None =>
           let '(l, p) := st_insert l p {| seg_off := pos; seg_data := piece off data pos ge |} in
           (l, st_next l p, st_at l (st_next l p))
       end
     else (l, p, st_at l p)) = (l1, p1, head suf) /\
    st_inv l1 /\ st_flat l1 = pre ++ add_gap off data ps pos ge ++ suf /\
    st_pos l1 p1 (length (pre ++ add_gap off data ps pos ge)).
Proof.
  intros Hinv Hl Hok Hfl Hp Hprev.
  assert (Hat : st_at l p = head suf) by (by rewrite (st_at_flat _ _ _ Hinv Hp), Hfl, app_assoc, lookup_zip).
  unfold add_gap. destruct (pos <? ge).
  2:{ exists l, p. by rewrite Hat. }
  rewrite (adjacent_slot_spec l prev ps _ pos low) by done. unfold add_piece.
  destruct prev as [q |], ps as [s |]; cbn in Hprev; try done; [destruct (Z.eqb_spec (seg_stop s) pos) as [Heq | Hne] |].
  - destruct Hprev as (j & Hj & Hq & Hs). assert (j = length pre) as -> by (rewrite length_app in Hj; cbn in Hj; lia).
    destruct (st_set_flat l q (length pre) (extend s (piece off data pos ge)) Hinv Hq) as (Hi' & Hf' & Hpos').
    { rewrite Hfl, length_app. cbn. lia. }
    eexists _, _. rewrite Hat. split; [done |]. split; [done |]. split.
    + rewrite Hf', Hfl. cbn. by rewrite insert_app_r_alt, Nat.sub_diag by lia.
    + apply Hpos'. by rewrite length_app in *.
  - pose proof (st_insert_flat l p _ {| seg_off := pos; seg_data := piece off data pos ge |} Hinv Hp) as Hins.
    destruct (st_insert l p _) as [l' p']. destruct Hins as (Hi' & Hf' & Hp').
    assert (Hfl' : st_flat l' = (pre ++ [s; {| seg_off := pos; seg_data := piece off data pos ge |}]) ++ suf).
    { rewrite Hf', Hfl. unfold slices_Insert. rewrite app_assoc, take_app_length, drop_app_length, <- !app_assoc. done. }
    assert (Hn : st_pos l' (st_next l' p') (length (pre ++ [s; {| seg_off := pos; seg_data := piece off data pos ge |}]))).
    { replace (length _) with (S (length (pre ++ option_list (Some s)))) by (rewrite !length_app; cbn; lia).
      apply st_next_pos; [done | done |]. rewrite Hfl', !length_app. cbn. lia. }
    eexists _, _. rewrite (st_at_flat _ _ _ Hi' Hn), Hfl', lookup_zip by done. split; [done |].
    split; [done |]. split; [by rewrite Hfl', <- app_assoc | done].
  - subst. destruct pre as [|? pre]; [| cbn in Hprev; lia].
    pose proof (st_insert_flat l p _ {| seg_off := pos; seg_data := piece off data pos ge |} Hinv Hp) as Hins.
    destruct (st_insert l p _) as [l' p']. destruct Hins as (Hi' & Hf' & Hp').
    assert (Hfl' : st_flat l' = [{| seg_off := pos; seg_data := piece off data pos ge |}] ++ suf).
    { rewrite Hf', Hfl. done. }
    assert (Hn : st_pos l' (st_next l' p') 1) by (apply st_next_pos; [done | done |]; rewrite Hfl'; cbn; lia).
    eexists _, _. rewrite (st_at_flat _ _ _ Hi' Hn), Hfl'. split; [by destruct suf |]. by split.
Qed.

(** The list is well-formed between two gaps. *)
Lemma add_gap_segs_ok low pre ps s suf pos : segs_ok low high (pre ++ option_list ps ++ s :: suf) ->
  (ps = None -> pre = []) -> at_gap off ps (s :: suf) low pos -> seg_off s <= e ->
  segs_ok low high (pre ++ add_gap off data ps pos (seg_off s) ++ s :: suf).
Proof.
  intros Hok Hnone (Ho & Hl & Hp & Hs) Hse.
  destruct (Z.lt_ge_cases pos (seg_off s)) as [Hlt | Hge].
  2:{ unfold add_gap. by replace (pos <? seg_off s) with false by lia. }
  assert (Hcore : forall low', low' <= pos -> segs_ok low' high (option_list ps ++ s :: suf) ->
    segs_ok low' high (add_gap off data ps pos (seg_off s) ++ s :: suf)).
  { intros low' Hl' Hok'. destruct (segs_ok_suffix _ _ (option_list ps) _ Hok') as (low2 & Hl2 & Q1 & Q2 & Q3 & Q4).
    apply (add_gap_ok off e data Hlen); try done; [unfold seg_stop in *; lia |].
    intros low3 _ Hl3. cbn. repeat split; try done; lia. }
  destruct ps as [t |]; [| rewrite Hnone in * by done; by apply Hcore].
  eapply segs_ok_prefix; [exact Hok |]. intros low' Hl' Hok'. apply Hcore; [| done].
  destruct Hok' as (? & ? & _). unfold seg_stop in *. lia.
Qed.

Lemma prev_slot_none l prev ps (pre : list quicOOOSegment) : prev_slot l prev ps (length (pre ++ option_list ps)) -> ps = None -> pre = [].
Proof. intros Hs ->. destruct prev; [done |]. rewrite app_nil_r in Hs. by apply nil_length_inv. Qed.

(** The insertion loop turns the stored list into [fill]. *)
Lemma insertOOOLoop_spec : forall suf fuel l low pre ps p prev pos, st_inv l -> 0 <= low ->
  segs_ok low high (st_flat l) ->
  st_flat l = pre ++ option_list ps ++ suf -> st_pos l p (length (pre ++ option_list ps)) ->
  prev_slot l prev ps (length (pre ++ option_list ps)) -> (length suf < fuel)%nat -> at_gap off ps suf low pos ->
  let l' := insertOOOLoop fuel l p prev off e pos data in
  st_inv l' /\ st_flat l' = pre ++ fill off e data ps suf pos.
Proof.
  induction suf as [|s suf IH]; intros fuel l low pre ps p prev pos Hinv Hl Hok Hfl Hp Hprev Hfuel Hg l'; subst l';
    (destruct fuel as [|fuel]; [cbn in Hfuel; lia |]); cbn [insertOOOLoop fill];
    (destruct (Z.ltb_spec pos e); [| done]).
  - destruct (insert_gap_step l low pre ps [] p prev pos e) as (l1 & p1 & Heq & Hi1 & Hf1 & Hp1); try done.
    assert (Hat : st_at l p = None) by (by rewrite (st_at_flat _ _ _ Hinv Hp), Hfl, app_assoc, lookup_zip).
    rewrite Hat in *. cbn [gap_end]. fold (piece off data pos e). unfold extend in Heq. rewrite Heq. cbn [head].
    split; [done |]. by rewrite app_nil_r in Hf1.
  - assert (Hat : st_at l p = Some s) by (by rewrite (st_at_flat _ _ _ Hinv Hp), Hfl, app_assoc, lookup_zip).
    set (ge := gap_end (Some s) e).
    destruct (insert_gap_step l low pre ps (s :: suf) p prev pos ge) as (l1 & p1 & Heq & Hi1 & Hf1 & Hp1); try done.
    rewrite Hat in *. fold ge. fold (piece off data pos ge). unfold extend in Heq. rewrite Heq. cbn [head].
    destruct (Z.leb_spec e (seg_off s)) as [Hes | Hes].
    { assert (Hge : ge = e) by (unfold ge; cbn; by replace (seg_off s <? e) with false by lia).
      split; [done |]. by rewrite Hf1, Hge. }
    assert (Hge : ge = seg_off s) by (unfold ge; cbn; by replace (seg_off s <? e) with true by lia).
    rewrite Hge in *. clear Heq ge Hge. rewrite Hfl in Hok.
    pose proof (prev_slot_none _ _ _ _ Hprev) as Hnone.
    assert (Hok1 : segs_ok low high (st_flat l1)) by (rewrite Hf1; apply add_gap_segs_ok; [done | done | done | lia]).
    assert (Hend : seg_end s = seg_stop s).
    { rewrite app_assoc in Hok. by eapply suf_head_stop. }
    set (pre1 := pre ++ add_gap off data ps pos (seg_off s)).
    assert (Hlen1 : length (pre1 ++ option_list (Some s)) = S (length pre1)) by (rewrite length_app; cbn; lia).
    rewrite Hend. destruct (IH fuel l1 low pre1 (Some s) (st_next l1 p1) (Some p1) (seg_stop s)) as [Hi2 Hf2]; try done.
    + by rewrite Hf1, app_assoc.
    + rewrite Hlen1. apply st_next_pos; [done | done |]. rewrite Hf1, !length_app. unfold pre1. rewrite length_app. cbn. lia.
    + exists (length pre1). split; [done |]. split; [done |]. by rewrite Hf1, app_assoc, lookup_zip.
    + cbn in Hfuel. lia.
    + destruct Hg as (Ho & Hlp & _ & Hs). destruct (segs_ok_suffix _ _ pre _ Hok) as (low2 & _ & Hok2).
      destruct (segs_ok_suffix _ _ (option_list ps) _ Hok2) as (low3 & _ & Q1 & Q2 & Q3 & Q4).
      repeat split; try lia. destruct suf as [|t suf]; [done |]. destruct Q4 as (? & ? & ? & ?). unfold seg_stop in *. lia.
    + split; [done |]. by rewrite Hf2; unfold pre1; rewrite <- app_assoc.
Qed.

End Loops.
