(* ===== verification/QuicRecv.v ===== *)
(** The invariant of the receive side of a QUIC stream and the theorems about
    whole sequences of operations: what the reader is given, what is buffered,
    what is accounted, and how frames that break a limit are answered. *)
From stdpp Require Import base list numbers.
From Stdlib Require Import ZArith Lia ZifyBool.
From S2P Require Import Prelude QuicVarint QuicFrame QuicOOO BodyBudget QuicStream QuicReassembly.

(** ** Accounting *)

Section Accounting.

Context {L P : Type} `{OOOStore L P}.
Implicit Types (r : recvSide L) (c : connState).

(** The stream's share of the connection and server counters: [k1] and [k2]
    belong to the other streams and connections. *)
Definition acct (k1 k2 : Z) c r : Prop :=
  0 <= k1 /\ 0 <= k2 /\ 0 <= recvAccounted r /\
  (0 <= MaxInFlightBodyBytes (budgetCfg c) ->
   connReserved (bodyBudget c) = k1 + recvAccounted r /\ inFlight (bodyBudget c) = k2 + recvAccounted r) /\
  (MaxInFlightBodyBytes (budgetCfg c) < 0 ->
   connReserved (bodyBudget c) = k1 /\ inFlight (bodyBudget c) = k2).

Lemma acct_reserve_conn k1 k2 c r n ok b : acct k1 k2 c r -> 0 < n ->
  tryReserveConnBodyBytes (budgetCfg c) (bodyBudget c) n = (ok, b) ->
  acct k1 k2 (set_budget c b) (if ok : bool then set_accounted r (recvAccounted r + n) else r).
Proof.
  intros (H1 & H2 & H3 & H4 & H5) Hn Heq. unfold tryReserveConnBodyBytes, tryReserveBodyBytes in Heq.
  destruct (Z.ltb_spec (MaxInFlightBodyBytes (budgetCfg c)) 0) as [Hm | Hm].
  - specialize (H5 Hm). rewrite orb_true_r in Heq. simplify_eq. repeat split; cbn in *; lia.
  - specialize (H4 ltac:(lia)). replace (n <=? 0) with false in Heq by lia. cbn [orb] in Heq.
    destruct (_ && _) in Heq; [simplify_eq; repeat split; cbn in *; lia |].
    repeat (destruct (_ <? _) in Heq || destruct (_ <=? _) in Heq); simplify_eq; repeat split; cbn in *; lia.
Qed.

Lemma reserve_spec k1 k2 c r n ok c' r' : acct k1 k2 c r -> 0 <= n -> reserve c r n = (ok, c', r') ->
  r' = (if ok then set_accounted r (recvAccounted r + n) else r) /\ acct k1 k2 c' r' /\
  c' = set_budget c (bodyBudget c') /\
  (ok = true -> 0 < n -> u64 (outstanding r + n) <= maxRecv r).
Proof.
  intros Ha Hn. unfold reserve. destruct (Z.leb_spec n 0).
  { intros [= <- <- <-]. replace n with 0 by lia. rewrite Z.add_0_r.
    split; [by destruct r |]. split; [done |]. split; [by destruct c |]. intros; lia. }
  destruct (Z.ltb_spec (maxRecv r) (u64 (outstanding r + n))).
  { intros [= <- <- <-]. split; [done |]. split; [done |]. split; [by destruct c | done]. }
  destruct (tryReserveConnBodyBytes _ _ n) as [ok1 b] eqn:Hb.
  pose proof (acct_reserve_conn k1 k2 c r n ok1 b Ha ltac:(lia) Hb) as Ha'.
  destruct ok1; intros [= <- <- <-]; (split; [done |]; split; [done |]; split; [by destruct c |]); done || (intros; lia).
Qed.

Lemma reserveSegmentOverhead_spec k1 k2 c r ok c' r' : acct k1 k2 c r -> reserveSegmentOverhead c r = (ok, c', r') ->
  r' = (if ok then set_accounted r (recvAccounted r + quicOOOSegmentOverhead) else r) /\ acct k1 k2 c' r' /\
  c' = set_budget c (bodyBudget c').
Proof.
  intros Ha. unfold reserveSegmentOverhead. destruct (tryReserveConnBodyBytes _ _ _) as [ok1 b] eqn:Hb.
  pose proof (acct_reserve_conn k1 k2 c r quicOOOSegmentOverhead ok1 b Ha ltac:(done) Hb) as Ha'.
  destruct ok1; intros [= <- <- <-]; (split; [done |]; split; [done |]); by destruct c.
Qed.

Lemma releaseReserved_spec k1 k2 c r n c' r' : acct k1 k2 c r -> 0 <= n <= recvAccounted r ->
  releaseReserved c r n = (c', r') ->
  r' = set_accounted r (recvAccounted r - n) /\ acct k1 k2 c' r' /\ c' = set_budget c (bodyBudget c').
Proof.
  intros (H1 & H2 & H3 & H4 & H5) Hn. unfold releaseReserved. destruct (Z.leb_spec n 0).
  { intros [= <- <-]. replace n with 0 by lia. rewrite Z.sub_0_r.
    split; [by destruct r |]. split; [done | by destruct c]. }
  intros [= <- <-]. replace (recvAccounted r - n <? 0) with false by lia.
  split; [done |]. split; [| done]. unfold acct, releaseConnBodyBytes, releaseBodyBytes.
  replace (n <=? 0) with false by lia. cbn.
  destruct (Z.ltb_spec (MaxInFlightBodyBytes (budgetCfg c)) 0) as [Hm | Hm]; cbn.
  - specialize (H5 Hm). repeat split; lia.
  - specialize (H4 ltac:(lia)). replace (inFlight (bodyBudget c) - n <? 0) with false by lia.
    repeat split; lia.
Qed.

Lemma acct_set_data k1 k2 c r buf ooo ob off : acct k1 k2 c r -> acct k1 k2 c (set_data r buf ooo ob off).
Proof. done. Qed.

End Accounting.

(** ** What is buffered *)

Section Buffered.

Context {L P : Type} `{Hst : OOOStoreLaws L P}.
Implicit Types (r : recvSide L) (c : connState).

(** The data of a stream whose reader has taken [base] bytes, with the
    segments [segs] waiting. *)
Record buf_inv (g : Z -> Z) (base : Z) r (segs : list quicOOOSegment) : Prop := {
  bi_base : 0 <= base;
  bi_off : recvOff r = base + zlen (recvBuf r);
  bi_buf : data_agrees g base (recvBuf r);
  bi_segs : agrees g segs;
  bi_bytes : oooBytes r = seg_bytes segs;
  bi_acct : zlen (recvBuf r) + seg_bytes segs + quicOOOSegmentOverhead * zlen segs <= recvAccounted r;
}.

(** The offsets a stream has received. *)
Definition received r (segs : list quicOOOSegment) (x : Z) : Prop := x < recvOff r \/ covers segs x.

Lemma set_budget_trans (c c1 c2 : connState) : c1 = set_budget c (bodyBudget c1) ->
  c2 = set_budget c1 (bodyBudget c2) -> c2 = set_budget c (bodyBudget c2).
Proof. intros -> ->. done. Qed.

(** One segment that starts at or below [recvOff] moves into the buffer. *)
Lemma coalesceSegment_spec g base k1 k2 c r s suf low high : acct k1 k2 c r -> buf_inv g base r (s :: suf) ->
  0 <= low -> high <= 2 ^ 62 -> segs_ok low high (s :: suf) -> seg_off s <= recvOff r <= 2 ^ 62 ->
  exists c' r', coalesceSegment c r s = (c', r') /\
    acct k1 k2 c' r' /\ buf_inv g base r' suf /\ c' = set_budget c (bodyBudget c') /\
    (exists buf ob acc, r' = set_accounted (set_data r buf (recvOOO r) ob (Z.max (recvOff r) (seg_stop s))) acc).
Proof.
  intros Ha [B1 B2 B3 B4 B5 B6] Hl Hh (S1 & S2 & S3 & S4) Hoff. unfold coalesceSegment. cbv zeta.
  assert (Hend : seg_end s = seg_stop s) by (unfold seg_end, seg_stop in *; apply u64_small; lia).
  destruct (seg_bytes_bound _ _ _ S4 S3) as [Hnn Hbd].
  rewrite seg_bytes_cons in B5, B6. rewrite zlen_cons in B6. pose proof (zlen_nonneg (recvBuf r)). pose proof (zlen_nonneg suf).
  assert (Hob : u64 (oooBytes r - zlen (seg_data s)) = seg_bytes suf) by (rewrite B5, u64_small; unfold seg_stop in *; lia).
  rewrite Hob. unfold quicOOOSegmentOverhead in *. apply Forall_cons_1 in B4 as [Bs B4].
  destruct (releaseReserved c _ 64) as [c2 r2] eqn:E2.
  apply (releaseReserved_spec k1 k2) in E2 as (-> & Ha2 & Hc2); [| done | cbn; lia].
  rewrite Hend. cbn [recvOff set_accounted set_data]. destruct (Z.leb_spec (seg_stop s) (recvOff r)) as [Hle | Hgt].
  - destruct (releaseReserved c2 _ _) as [c3 r3] eqn:E3.
    apply (releaseReserved_spec k1 k2) in E3 as (-> & Ha3 & Hc3); [| done | cbn; lia].
    eexists c3, _. split; [done |]. split; [done |]. split; [constructor; cbn; unfold quicOOOSegmentOverhead; done || lia |].
    split; [by eapply set_budget_trans |]. rewrite Z.max_l by lia. by eexists _, _, _.
  - assert (Hst' : u64 (recvOff r - seg_off s) = recvOff r - seg_off s) by (apply u64_small; lia). rewrite Hst'.
    unfold seg_stop in Hgt.
    destruct (releaseReserved c2 _ _) as [c3 r3] eqn:E3.
    apply (releaseReserved_spec k1 k2) in E3 as (-> & Ha3 & Hc3); [| done | cbn; lia].
    assert (Hdrop : zlen (zdrop (recvOff r - seg_off s) (seg_data s)) = seg_stop s - recvOff r)
      by (rewrite zlen_drop; unfold seg_stop; lia).
    eexists c3, _. split; [done |]. split; [done |]. split.
    + constructor; cbn; unfold quicOOOSegmentOverhead; rewrite ?zlen_app, ?Hdrop; try done; try (unfold seg_stop; lia).
      apply data_agrees_app. split; [done |]. rewrite <- B2.
      replace (recvOff r) with (seg_off s + (recvOff r - seg_off s)) at 1 by lia. apply data_agrees_drop; [lia | done].
    + split; [by eapply set_budget_trans |]. rewrite Z.max_r by (unfold seg_stop; lia). by eexists _, _, _.
Qed.

Lemma coalesceLoop_spec g base k1 k2 high : high <= 2 ^ 62 ->
  forall suf fuel c r p pre low, st_inv (recvOOO r) -> st_flat (recvOOO r) = pre ++ suf ->
  st_pos (recvOOO r) p (length pre) -> (length suf < fuel)%nat -> acct k1 k2 c r -> buf_inv g base r suf ->
  0 <= low -> segs_ok low high suf -> recvOff r <= high ->
  exists c' r' taken suf', coalesceLoop fuel c r p (length pre) = (c', r', length (pre ++ taken)) /\
    suf = taken ++ suf' /\ acct k1 k2 c' r' /\ buf_inv g base r' suf' /\ c' = set_budget c (bodyBudget c') /\
    (exists buf ob off acc, r' = set_accounted (set_data r buf (recvOOO r) ob off) acc /\ recvOff r <= off <= high) /\
    segs_ok (recvOff r' + 1) high suf' /\ (forall x, received r' suf' x <-> received r suf x).
Proof.
  intros Hh. induction suf as [|s suf IH]; intros fuel c r p pre low Hinv Hfl Hp Hfuel Ha Hb Hl Hok Hoff;
    (destruct fuel as [|fuel]; [cbn in Hfuel; lia |]); cbn [coalesceLoop];
    rewrite (st_len_flat _ Hinv), (st_at_flat _ _ _ Hinv Hp), Hfl, lookup_zip by done; unfold zlen; rewrite length_app.
  - rewrite app_nil_r in *. cbn [length]. replace (_ <? _) with false by lia.
    exists c, r, [], []. rewrite app_nil_r. split; [done |]. split; [done |]. split; [done |]. split; [done |].
    split; [by destruct c |]. split; [| done].
    exists (recvBuf r), (oooBytes r), (recvOff r), (recvAccounted r). split; [by destruct r | lia].
  - cbn [length head]. replace (_ <? _) with true by lia. destruct (Z.ltb_spec (recvOff r) (seg_off s)) as [Hlt | Hge].
    { exists c, r, [], (s :: suf). rewrite app_nil_r. split; [done |]. split; [done |]. split; [done |]. split; [done |].
      split; [by destruct c |]. destruct Hok as (S1 & S2 & S3 & S4). split; [| split; [| done]].
      - exists (recvBuf r), (oooBytes r), (recvOff r), (recvAccounted r). split; [by destruct r | lia].
      - cbn. repeat split; try lia || done. }
    destruct (coalesceSegment_spec g base k1 k2 c r s suf low high) as (c1 & r1 & -> & Ha1 & Hb1 & Hc1 & buf & ob & acc & Hr1);
      [done | done | done | lia | done | lia |].
    destruct Hok as (S1 & S2 & S3 & S4).
    assert (Hooo : recvOOO r1 = recvOOO r) by (by rewrite Hr1).
    assert (Hoff1 : recvOff r1 = Z.max (recvOff r) (seg_stop s)) by (by rewrite Hr1).
    destruct (IH fuel c1 r1 (st_next (recvOOO r1) p) (pre ++ [s]) (seg_stop s))
      as (c' & r' & taken & suf' & Heq & Hsuf & Ha' & Hb' & Hc' & (buf' & ob' & off' & acc' & Hr' & Ho') & Hok' & Hrecv);
      rewrite ?Hooo; try done.
    + by rewrite Hfl, <- app_assoc.
    + rewrite length_app. cbn. rewrite Nat.add_1_r. apply st_next_pos; [done | done |]. rewrite Hfl, length_app. cbn. lia.
    + cbn in Hfuel. lia.
    + unfold seg_stop in *. lia.
    + lia.
    + exists c', r', (s :: taken), suf'.
      rewrite length_app, Nat.add_1_r, Hooo in Heq. split; [by rewrite Heq, <- app_assoc |].
      split; [cbn; by rewrite Hsuf |]. split; [done |]. split; [done |]. split; [by eapply set_budget_trans |].
      split; [| split; [done |]].
      * exists buf', ob', off', acc'. split; [by rewrite Hr', Hr1 | lia].
      * intros x. rewrite Hrecv. unfold received. rewrite Hoff1, covers_cons. unfold seg_covers.
        destruct (Z.lt_ge_cases x (recvOff r)), (Z.lt_ge_cases x (seg_stop s)); intuition lia.
Qed.

Lemma set_accounted_same r n : n = recvAccounted r -> set_accounted r n = r.
Proof. intros ->. by destruct r. Qed.

(** The whole of [oooNewBytes] and the insertion loop on a well-formed store. *)
Lemma ooo_insert_loops r off data low high : st_inv (recvOOO r) -> segs_ok low high (st_flat (recvOOO r)) ->
  0 <= low <= off -> high <= 2 ^ 62 -> 0 < zlen data -> off + zlen data <= high ->
  let fst := st_firstEndingAfter (recvOOO r) off in
  let e := off + zlen data in
  exists opens l', oooNewBytes r fst off e = (seg_bytes (st_flat l') - seg_bytes (st_flat (recvOOO r)), opens) /\
    (forall l, recvOOO r = l -> insertOOOLoop (ooo_fuel l) l fst (st_before l fst) off e off data = l') /\
    st_inv l' /\ segs_ok low high (st_flat l') /\
    (forall x, covers (st_flat l') x <-> covers (st_flat (recvOOO r)) x \/ off <= x < e) /\
    (forall g, data_agrees g off data -> agrees g (st_flat (recvOOO r)) -> agrees g (st_flat l')) /\
    seg_bytes (st_flat (recvOOO r)) <= seg_bytes (st_flat l') /\
    zlen (st_flat l') = zlen (st_flat (recvOOO r)) + Z.b2z opens /\
    (seg_bytes (st_flat l') = seg_bytes (st_flat (recvOOO r)) -> st_flat l' = st_flat (recvOOO r)).
Proof.
  intros Hinv Hok Hlow Hh Hd He fst e. set (l := recvOOO r) in *.
  destruct (first_slot high Hh l off low Hinv Hlow Hok) as (i & pre & ps & suf & Hp & Hfl & Hi & Hprev & Hps & Hsuf).
  fold fst in Hp, Hprev. rewrite <- Hi in *.
  assert (Hg : at_gap off ps suf low off) by (repeat split; try done; lia).
  assert (Hfuel : (length suf < ooo_fuel l)%nat).
  { unfold ooo_fuel. rewrite (st_len_flat _ Hinv), Hfl. unfold zlen. rewrite !length_app. lia. }
  destruct (segs_ok_suffix low high pre (option_list ps ++ suf)) as (low' & Hl' & Hok'); [by rewrite <- Hfl |].
  assert (Hg' : at_gap off ps suf (Z.min low' off) off).
  { destruct Hg as (? & ? & ? & ?). repeat split; try done; lia. }
  assert (Hok'' : segs_ok (Z.min low' off) high (option_list ps ++ suf)) by (eapply segs_ok_weaken; [| | exact Hok']; lia).
  pose proof (oooNewBytesLoop_first off e high Hh ltac:(lia) ltac:(lia) l low pre ps suf (ooo_fuel l) fst
    Hinv ltac:(lia) Hok Hfl Hp Hfuel ltac:(lia) Hprev Hsuf) as Hnew.
  destruct (insertOOOLoop_spec off e data high eq_refl Hh ltac:(lia) suf (ooo_fuel l) l low pre ps fst
    (st_before l fst) off Hinv ltac:(lia) Hok Hfl Hp Hprev Hfuel Hg) as [Hi' Hf'].
  pose proof (fill_bytes off e data eq_refl ps suf _ _ _ Hg' Hok'') as Hb.
  assert (Hnn : 0 <= fill_new e suf off).
  { destruct (segs_ok_suffix _ _ (option_list ps) _ Hok') as (? & _ & ?). by eapply fill_new_bound. }
  exists (opens_gap e ps suf off), (insertOOOLoop (ooo_fuel l) l fst (st_before l fst) off e off data).
  rewrite Hf', Hfl in *. rewrite !seg_bytes_app in *. unfold oooNewBytes. fold l. rewrite Hnew.
  split; [f_equal; lia |]. split; [by intros ? <- |]. split; [done |]. repeat split.
  - destruct ps as [s |] eqn:Eps.
    + eapply segs_ok_prefix; [exact Hok |]. intros low2 Hl2 Hok2. apply (fill_ok off e data eq_refl); [| lia | done].
      destruct Hg as (? & ? & Hs & ?). repeat split; try done; try lia.
      destruct Hok2 as (? & ? & _). cbn in Hs. unfold seg_stop in Hs. lia.
    + rewrite (prev_slot_none _ _ _ _ Hprev eq_refl) in *. by apply (fill_ok off e data eq_refl).
  - rewrite !(covers_app pre). rewrite (fill_covers off e data eq_refl ps suf x _ _ _ Hg' Hok''). tauto.
  - rewrite !(covers_app pre). rewrite (fill_covers off e data eq_refl ps suf x _ _ _ Hg' Hok''). tauto.
  - intros g Hd' Ha. apply Forall_app in Ha as [Ha1 Ha2]. apply Forall_app. split; [done |].
    by apply (fill_agrees off e data g ps suf _ _ _ Hg' Hok'').
  - lia.
  - unfold zlen. rewrite !length_app, (fill_length off e data) by lia. rewrite length_app.
    destruct (opens_gap e ps suf off); cbn; lia.
  - intros Hz. f_equal. apply (fill_new_zero off e data ps suf _ _ _ Hg' Hok''). lia.
Qed.

(** [r'] differs from [r] in the buffers and the accounted total only. *)
Definition same_limits r r' : Prop :=
  exists buf l ob off acc, r' = set_accounted (set_data r buf l ob off) acc.

(** The data invariant of a stream at rest: the waiting segments lie beyond
    [recvOff] and below [recvMax]. *)
Definition data_inv g base r : Prop :=
  st_inv (recvOOO r) /\ buf_inv g base r (st_flat (recvOOO r)) /\
  segs_ok (recvOff r + 1) (recvMax r) (st_flat (recvOOO r)) /\ recvOff r <= recvMax r <= 2 ^ 62.

Definition has r (x : Z) : Prop := received r (st_flat (recvOOO r)) x.

Lemma same_limits_refl r : same_limits r r.
Proof. exists (recvBuf r), (recvOOO r), (oooBytes r), (recvOff r), (recvAccounted r). by destruct r. Qed.

(** Opening a segment reserves its overhead too. *)
Lemma open_segment_spec k1 k2 c c1 r1 (opens : bool) : acct k1 k2 c1 r1 -> c1 = set_budget c (bodyBudget c1) ->
  exists ok2 c2 r2, (if opens then reserveSegmentOverhead c1 r1 else (true, c1, r1)) = (ok2, c2, r2) /\
    acct k1 k2 c2 r2 /\ c2 = set_budget c (bodyBudget c2) /\
    r2 = if ok2 then set_accounted r1 (recvAccounted r1 + quicOOOSegmentOverhead * Z.b2z opens) else r1.
Proof.
  intros Ha1 Hc1. destruct opens; [| eexists true, c1, r1; split; [done |]; split; [done |]; split; [done |];
    by rewrite set_accounted_same by (cbn; lia)].
  destruct (reserveSegmentOverhead c1 r1) as [[ok2 c2] r2] eqn:E2.
  apply (reserveSegmentOverhead_spec k1 k2) in E2 as (-> & Ha2 & Hc2); [| done].
  eexists ok2, c2, _. split; [done |]. split; [done |]. split; [by eapply set_budget_trans | done].
Qed.

Lemma insertOOO_spec g base k1 k2 c r off data n result c' r' :
  acct k1 k2 c r -> data_inv g base r -> recvOff r < off -> 0 < zlen data -> off + zlen data <= recvMax r ->
  data_agrees g off data -> insertOOO c r off data = (n, result, c', r') ->
  acct k1 k2 c' r' /\ data_inv g base r' /\ same_limits r r' /\ recvOff r' = recvOff r /\
  c' = set_budget c (bodyBudget c') /\
  (result <> quicOOOStored -> r' = r) /\
  (result = quicOOOStored -> n = oooBytes r' - oooBytes r /\ forall x, has r' x <-> has r x \/ off <= x < off + zlen data).
Proof.
  intros Ha (Hinv & Hb & Hok & Hm) Hoff Hd He Hagr. unfold insertOOO.
  pose proof Hb as [B1 B2 B3 B4 B5 B6]. pose proof (zlen_nonneg (recvBuf r)).
  rewrite (u64_small (off + zlen data)) by lia.
  destruct (ooo_insert_loops r off data (recvOff r + 1) (recvMax r)) as
    (opens & l' & Hnew & Hloop & Hi' & Hok' & Hcov & Hag & Hmono & Hcnt & Hsame); try done; try lia.
  rewrite Hnew. destruct (Z.eqb_spec (seg_bytes (st_flat l') - seg_bytes (st_flat (recvOOO r))) 0) as [Hz | Hnz].
  { intros [= <- <- <- <-]. split; [done |]. split; [done |]. split; [apply same_limits_refl |]. split; [done |].
    split; [by destruct c |]. split; [done |]. intros _. split; [lia |]. intros x. unfold has, received.
    specialize (Hcov x). rewrite Hsame in Hcov by lia. tauto. }
  assert (Hrej : forall c1, acct k1 k2 c1 r -> c1 = set_budget c (bodyBudget c1) -> result <> quicOOOStored ->
    c1 = c' -> r = r' -> acct k1 k2 c' r' /\ data_inv g base r' /\ same_limits r r' /\ recvOff r' = recvOff r /\
    c' = set_budget c (bodyBudget c') /\ (result <> quicOOOStored -> r' = r) /\
    (result = quicOOOStored -> n = oooBytes r' - oooBytes r /\ forall x, has r' x <-> has r x \/ off <= x < off + zlen data)).
  { intros c1 Ha1 Hc1 Hres <- <-. split; [done |]. split; [done |]. split; [apply same_limits_refl |].
    split; [done |]. split; [done |]. by split. }
  destruct (opens && _). { intros [= <- <- <- <-]. apply (Hrej c); try done. by destruct c. }
  destruct (reserve c r _) as [[ok c1] r1] eqn:E1.
  apply (reserve_spec k1 k2) in E1 as (-> & Ha1 & Hc1 & _); [| done | lia].
  destruct ok; cbn [negb]; [| intros [= <- <- <- <-]; by apply (Hrej c1)].
  set (nb := seg_bytes (st_flat l') - seg_bytes (st_flat (recvOOO r))) in *.
  set (r1 := set_accounted r (recvAccounted r + nb)) in *.
  pose proof (open_segment_spec k1 k2 c c1 r1 opens Ha1 Hc1) as Hstep.
  destruct Hstep as (ok2 & c2 & r2 & -> & Ha2 & Hc2 & ->). destruct ok2; cbn [negb].
  - rewrite Hloop by done. intros [= <- <- <- <-].
    assert (Hob : u64 (oooBytes r + nb) = seg_bytes (st_flat l')).
    { assert (Hw : segs_ok (recvOff r) (recvMax r) (st_flat l')) by (eapply segs_ok_weaken; [| | exact Hok']; lia).
      destruct (seg_bytes_bound _ _ _ Hw ltac:(lia)). rewrite u64_small; lia. }
    split; [done |]. split; [| split; [by eexists _, _, _, _, _ |]; split; [done |]; split; [done |]; split; [done |]].
    + split; [done |]. split; [| done]. constructor; cbn; unfold quicOOOSegmentOverhead in *; rewrite ?Hob; try done; try lia.
      by apply Hag.
    + intros _. cbn [oooBytes set_data set_accounted]. rewrite Hob. split; [cbn; lia |].
      intros x. unfold has, received. cbn. rewrite Hcov. tauto.
  - destruct (releaseReserved c2 r1 nb) as [c3 r3] eqn:E3.
    apply (releaseReserved_spec k1 k2) in E3 as (-> & Ha3 & Hc3); [| done |].
    2:{ cbn. destruct Ha as (_ & _ & ? & _). lia. }
    assert (Hr3 : set_accounted r1 (recvAccounted r1 - nb) = r).
    { unfold r1. transitivity (set_accounted r (recvAccounted r + nb - nb)); [done |]. apply set_accounted_same. lia. }
    rewrite Hr3 in *. intros [= <- <- <- <-]. apply (Hrej c3); try done. by eapply set_budget_trans.
Qed.

Lemma same_limits_trans r r1 r2 : same_limits r r1 -> same_limits r1 r2 -> same_limits r r2.
Proof.
  intros (? & ? & ? & ? & ? & ->) (buf & l & ob & off & acc & ->). by exists buf, l, ob, off, acc.
Qed.

Lemma appendContig_spec g base k1 k2 c r data ok c' r' high : acct k1 k2 c r ->
  buf_inv g base r (st_flat (recvOOO r)) -> data_agrees g (recvOff r) data ->
  recvOff r + zlen data <= high -> high <= 2 ^ 62 -> appendContig c r data = (ok, c', r') ->
  acct k1 k2 c' r' /\ c' = set_budget c (bodyBudget c') /\ (ok = false -> r' = r) /\
  (ok = true -> same_limits r r' /\ recvOOO r' = recvOOO r /\ recvOff r' = recvOff r + zlen data /\
    buf_inv g base r' (st_flat (recvOOO r'))).
Proof.
  intros Ha [B1 B2 B3 B4 B5 B6] Hd He Hh. unfold appendContig.
  pose proof (zlen_nonneg data). pose proof (zlen_nonneg (recvBuf r)).
  destruct (reserve c r (zlen data)) as [[ok1 c1] r1] eqn:E1.
  apply (reserve_spec k1 k2) in E1 as (-> & Ha1 & Hc1 & _); [| done | lia].
  destruct ok1; intros [= <- <- <-]; (split; [done |]; split; [done |]; split; [done |]); [| done].
  cbn [recvOff set_accounted]. rewrite u64_small by lia. intros _.
  split; [by eexists _, _, _, _, _ |]. split; [done |]. split; [done |].
  constructor; cbn; rewrite ?zlen_app; try done; try lia.
  apply data_agrees_app. by rewrite <- B2.
Qed.

Lemma coalesceOOO_spec g base k1 k2 c r low high c' r' : acct k1 k2 c r -> st_inv (recvOOO r) ->
  buf_inv g base r (st_flat (recvOOO r)) -> 0 <= low -> segs_ok low high (st_flat (recvOOO r)) ->
  recvOff r <= high -> high <= 2 ^ 62 -> high = recvMax r -> coalesceOOO c r = (c', r') ->
  acct k1 k2 c' r' /\ data_inv g base r' /\ same_limits r r' /\ recvOff r <= recvOff r' /\
  c' = set_budget c (bodyBudget c') /\ forall x, has r' x <-> has r x.
Proof.
  intros Ha Hinv Hb Hl Hok Ho Hh -> Heq.
  destruct (coalesceLoop_spec g base k1 k2 (recvMax r) Hh (st_flat (recvOOO r)) (ooo_fuel (recvOOO r)) c r st_begin [] low)
    as (c1 & r1 & taken & suf & Hloop & Hfl & Ha1 & Hb1 & Hc1 & (buf & ob & off & acc & Hr1 & Ho1) & Hok1 & Hx1); try done.
  { by apply st_begin_pos. }
  { unfold ooo_fuel. rewrite (st_len_flat _ Hinv). unfold zlen. lia. }
  unfold coalesceOOO in Heq. cbn [length app] in Hloop. rewrite Hloop in Heq.
  assert (Hooo : recvOOO r1 = recvOOO r) by (by rewrite Hr1).
  assert (Hmax : recvMax r1 = recvMax r) by (by rewrite Hr1).
  assert (Hoff : recvOff r1 = off) by (by rewrite Hr1).
  assert (Hlim : same_limits r r1) by (exists buf, (recvOOO r), ob, off, acc; done).
  destruct (st_drop_flat (recvOOO r) (length taken) Hinv) as [Hi2 Hf2].
  { rewrite Hfl, length_app. lia. }
  rewrite Hfl, drop_app_length in Hf2.
  destruct (Nat.ltb_spec 0 (length taken)) as [Hlt | Hge]; injection Heq as <- <-.
  - rewrite Hooo. split; [done |]. split; [| split; [| split; [cbn; lia |]; split; [done |]]].
    + split; [done |]. cbn [recvOOO set_data recvOff recvMax]. rewrite Hf2, Hmax.
      split; [destruct Hb1; by constructor |]. split; [done | lia].
    + eapply same_limits_trans; [exact Hlim |]. exists (recvBuf r1), (st_dropFront (recvOOO r) (length taken)),
        (oooBytes r1), (recvOff r1), (recvAccounted r1). by destruct r1.
    + intros x. unfold has. cbn [recvOOO set_data]. rewrite Hf2, <- Hx1. done.
  - destruct taken as [|? ?]; [| cbn in Hge; lia]. cbn in Hfl. subst suf. split; [done |].
    split; [| split; [done |]; split; [lia |]; split; [done |]].
    + split; [by rewrite Hooo |]. rewrite Hooo, Hmax. split; [done |]. split; [done | lia].
    + intros x. unfold has. rewrite Hooo. by rewrite Hx1.
Qed.

Lemma data_inv_flags g base r a b z d e h : data_inv g base r -> data_inv g base (set_flags r a b z d e h).
Proof. intros (H1 & [] & H3). split; [done |]. by split; [constructor |]. Qed.

Definition frame_end (f : quicStreamFrame) : Z := sf_offset f + zlen (sf_data f).

(** What the frame parser guarantees of a frame, and that its bytes are the
    sender's. *)
Definition frame_ok (g : Z -> Z) (f : quicStreamFrame) : Prop :=
  0 <= sf_offset f < 2 ^ 62 /\ zlen (sf_data f) < 2 ^ 62 /\ data_agrees g (sf_offset f) (sf_data f).

(** The part of a frame past [recvOff]. *)
Lemma trim_frame g r f off data : frame_ok g f -> 0 < zlen (sf_data f) -> 0 <= recvOff r < sf_offset f + zlen (sf_data f) ->
  (if sf_offset f <? recvOff r then (recvOff r, zdrop (u64 (recvOff r - sf_offset f)) (sf_data f)) else (sf_offset f, sf_data f)) = (off, data) ->
  recvOff r <= off /\ 0 < zlen data /\ off + zlen data = sf_offset f + zlen (sf_data f) /\ data_agrees g off data /\
  (off = recvOff r \/ off = sf_offset f) /\ sf_offset f <= off.
Proof.
  intros (Hf1 & Hf2 & Hagr) Hd Hr. destruct (Z.ltb_spec (sf_offset f) (recvOff r)); intros [= <- <-].
  - rewrite u64_small by lia. rewrite zlen_drop by lia. repeat split; try lia.
    replace (recvOff r) with (sf_offset f + (recvOff r - sf_offset f)) at 1 by lia. by apply data_agrees_drop; [lia |].
  - repeat split; try lia. done.
Qed.

Lemma storeStreamData_spec g base k1 k2 c r f result c' r' : acct k1 k2 c r -> data_inv g base r ->
  frame_ok g f -> frame_end f <= recvMax r -> storeStreamData c r f (frame_end f) = (result, c', r') ->
  acct k1 k2 c' r' /\ data_inv g base r' /\ c' = set_budget c (bodyBudget c') /\ recvOff r <= recvOff r' /\
  match result with
  | inl n => same_limits r r' /\ forall x, has r' x <-> has r x \/ sf_offset f <= x < frame_end f
  | inr fl => (fl, r') = rejectRecvLocked r
  end.
Proof.
  intros Ha Hdi (Hf1 & Hf2 & Hagr) Hend. unfold storeStreamData, frame_end in *.
  pose proof Hdi as (Hinv & Hb & Hok & Hm). pose proof (zlen_nonneg (sf_data f)).
  assert (0 <= recvOff r) by (destruct Hb; pose proof (zlen_nonneg (recvBuf r)); lia).
  destruct (Z.ltb_spec 0 (zlen (sf_data f))) as [Hd |]; cbn [andb].
  2:{ intros [= <- <- <-]. split; [done |]. split; [done |]. split; [by destruct c |]. split; [lia |].
      split; [apply same_limits_refl |]. intros x. intuition lia. }
  destruct (Z.ltb_spec (recvOff r) (sf_offset f + zlen (sf_data f))) as [Hlt |].
  2:{ intros [= <- <- <-]. split; [done |]. split; [done |]. split; [by destruct c |]. split; [lia |].
      split; [apply same_limits_refl |]. intros x. unfold has, received. intuition lia. }
  destruct (if sf_offset f <? recvOff r then _ else _) as [off data] eqn:Hsel0.
  destruct (trim_frame g r f off data) as (Ho & Hd' & He & Hda & Hsel & Hle); [exact (conj Hf1 (conj Hf2 Hagr)) | done | lia | done |]. clear Hsel0.
  destruct (Z.eqb_spec off (recvOff r)) as [Heq | Hne].
  - destruct (appendContig c r data) as [[ok c1] r1] eqn:E1.
    apply (appendContig_spec g base k1 k2 _ _ _ _ _ _ (recvMax r)) in E1 as (Ha1 & Hc1 & Hf & Ht);
      [| done | done | by rewrite <- Heq | lia | lia].
    destruct ok; cbn [negb].
    2:{ rewrite Hf in * by done. cbn. intros [= <- <- <-]. split; [done |]. split; [by apply data_inv_flags |].
        split; [done |]. by split; [cbn; lia |]. }
    destruct (Ht eq_refl) as (Hl1 & Hooo & Hoff1 & Hb1). clear Hf Ht.
    assert (Hmax1 : recvMax r1 = recvMax r) by (by destruct Hl1 as (? & ? & ? & ? & ? & ->)).
    assert (Hhas1 : forall x, has r1 x <-> has r x \/ sf_offset f <= x < sf_offset f + zlen (sf_data f)).
    { intros x. unfold has, received. rewrite Hooo, Hoff1. intuition lia. }
    rewrite <- Hooo in Hinv, Hok. rewrite (st_len_flat _ Hinv).
    destruct (Z.ltb_spec 0 (zlen (st_flat (recvOOO r1)))) as [Hne | Hem].
    + destruct (coalesceOOO c1 r1) as [c2 r2] eqn:E2.
      apply (coalesceOOO_spec g base k1 k2 _ _ (recvOff r + 1) (recvMax r)) in E2 as (Ha2 & Hd2 & Hl2 & Ho2 & Hc2 & Hx2);
        try done; try lia.
      intros [= <- <- <-]. split; [done |]. split; [done |]. split; [by eapply set_budget_trans |].
      split; [lia |]. split; [by eapply same_limits_trans |]. intros x. by rewrite Hx2, Hhas1.
    + intros [= <- <- <-]. split; [done |]. split; [| split; [done |]; split; [lia |]; by split].
      split; [done |]. split; [done |]. rewrite Hmax1. split; [| lia].
      destruct (st_flat (recvOOO r1)); [done | rewrite zlen_cons in Hem; pose proof (zlen_nonneg l); lia].
  - destruct (insertOOO c r off data) as [[[n res] c1] r1] eqn:E1.
    apply (insertOOO_spec g base k1 k2) in E1 as (Ha1 & Hd1 & Hl1 & Ho1 & Hc1 & Hrej & Hst1); try done; try lia.
    destruct res.
    + intros [= <- <- <-]. split; [done |]. split; [done |]. split; [done |]. split; [lia |]. split; [done |].
      destruct (Hst1 eq_refl) as [_ Hx]. intros x. rewrite Hx. destruct Hsel as [? | Hsel]; [done |]. rewrite He, Hsel. done.
    + rewrite Hrej in * by done. cbn. intros [= <- <- <-]. split; [done |]. split; [by apply data_inv_flags |].
      split; [done |]. by split; [cbn; lia |].
    + rewrite Hrej in * by done. cbn. intros [= <- <- <-]. split; [done |]. split; [by apply data_inv_flags |].
      split; [done |]. by split; [cbn; lia |].
Qed.

(** ** The invariant *)

Record recv_inv g base r : Prop := {
  ri_data : data_inv g base r;
  ri_grant : recvMax r <= recvGranted r <= 2 ^ 62;
  ri_win : 0 <= recvWindow r <= 2 ^ 62 /\ 0 <= maxRecv r <= 2 ^ 62;
  ri_fin : recvFinSeen r = true -> recvFinOff r = recvMax r;
  ri_end : recvFin r = true -> recvOverflow r = true \/ (recvFinSeen r = true /\ recvOff r = recvFinOff r);
}.

Lemma newRecvSide_inv g window cap : 0 <= window <= 2 ^ 62 -> 0 <= cap <= 2 ^ 62 ->
  recv_inv g 0 (newRecvSide window cap).
Proof.
  intros Hw Hc. destruct st_empty_ok as [He Hf]. constructor; cbn; try lia; try done.
  split; [done |]. cbn. rewrite Hf. split; [| split; [done | lia]].
  constructor; cbn; try done; constructor.
Qed.

(** The branches of [handleStreamFrame] for an open stream: what the frame
    is answered with and what it changes. *)
Definition frame_outcome c r (f : quicStreamFrame) (n fl : Z) c' r' : Prop :=
  let e := frame_end f in
  if recvGranted r <? e then fl = quicRecvViolation /\ n = 0 /\ c' = c /\ r' = r
  else if violatesFinalSizeLocked r e (sf_fin f) then fl = quicRecvFinalSizeError /\ n = 0 /\ c' = c /\ r' = r
  else if (recvMax r <? e) && (recvFlowLimit c <? u64 (recvFlowUsed c + (e - recvMax r)))
  then fl = quicRecvViolation /\ n = 0 /\ r' = r
  else recvMax r' = Z.max (recvMax r) e /\ recvGranted r' = recvGranted r /\
    ((fl = quicRecvRejected /\ n = 0 /\ recvClosed r' = true /\ forall x, has r' x <-> has r x) \/
     (Z.land fl quicRecvAccepted <> 0 /\ recvClosed r' = false /\
      (forall x, has r' x <-> has r x \/ sf_offset f <= x < e) /\
      (Z.land fl quicRecvEndOfData <> 0 <-> recvFin r' = true))).

Lemma data_inv_limits g base r m granted : data_inv g base r -> recvMax r <= m <= 2 ^ 62 ->
  data_inv g base (set_limits r m granted).
Proof.
  intros (H1 & [] & H3 & H4) Hm. split; [done |]. split; [by constructor |]. split; [| cbn; lia].
  eapply segs_ok_weaken; [| | exact H3]; cbn; lia.
Qed.

Lemma finishStreamFrame_flags r fin e fl r' : finishStreamFrame r fin e = (fl, r') ->
  Z.land fl quicRecvAccepted <> 0 /\ (Z.land fl quicRecvEndOfData <> 0 <-> recvFin r' = true).
Proof.
  unfold finishStreamFrame. set (b := _ || (_ && (maxRecv r <=? _))). intros [= <- <-]. cbn.
  destruct b; cbn; split; done.
Qed.

Lemma finishStreamFrame_inv g base r fin e fl r' : data_inv g base r -> recvMax r <= recvGranted r <= 2 ^ 62 ->
  0 <= recvWindow r <= 2 ^ 62 /\ 0 <= maxRecv r <= 2 ^ 62 ->
  (recvFinSeen r = true -> recvFinOff r = recvMax r) -> (fin = true -> e = recvMax r) ->
  (recvFin r = true -> recvOverflow r = true \/ (recvFinSeen r = true /\ recvOff r = recvFinOff r)) ->
  finishStreamFrame r fin e = (fl, r') -> recv_inv g base r'.
Proof.
  intros Hd Hg Hw Hseen Hfin Hend [= _ <-]. pose proof Hd as (_ & _ & _ & Hm).
  constructor; cbn; [by apply data_inv_flags | done | done | |].
  - destruct fin; [intros _; by apply Hfin |]. rewrite orb_false_r. done.
  - destruct (recvFin r); cbn [orb negb].
    + intros _. destruct (Hend eq_refl) as [-> | [Hs Ho]]; [by left |]. right. rewrite Hs. split; [done |].
      destruct fin; [| done]. rewrite Hfin by done. rewrite <- Hseen by done. done.
    + destruct ((recvFinSeen r || fin) && _) eqn:Hb; cbn [orb negb andb].
      * intros _. right. apply andb_true_iff in Hb as [Hs Ho]. split; [done |].
        destruct fin; [rewrite (Hfin eq_refl) in *; lia |]. rewrite orb_false_r in Hs. rewrite Hseen in * by done. lia.
      * intros ->. left. apply orb_true_r.
Qed.

Lemma handleStreamFrame_spec g base k1 k2 c r f n fl c' r' : recv_inv g base r -> acct k1 k2 c r -> frame_ok g f ->
  recvClosed r = false -> recvOverflow r = false -> handleStreamFrame c r f = (n, fl, c', r') ->
  recv_inv g base r' /\ acct k1 k2 c' r' /\ frame_outcome c r f n fl c' r'.
Proof.
  intros Hri Ha Hf Hcl Hov. pose proof Hri as [Hd Hg Hw Hfin Hend]. pose proof Hf as (Hf1 & Hf2 & _).
  pose proof (zlen_nonneg (sf_data f)). unfold handleStreamFrame, frame_outcome. rewrite Hcl, Hov. cbn [orb].
  assert (He : u64 (sf_offset f + zlen (sf_data f)) = frame_end f) by (unfold frame_end; apply u64_small; lia). rewrite He.
  destruct (Z.ltb_spec (recvGranted r) (frame_end f)); [by intros [= <- <- <- <-] |].
  destruct (violatesFinalSizeLocked r (frame_end f) (sf_fin f)) eqn:Hviol; [by intros [= <- <- <- <-] |].
  assert (Hm0 : 0 <= recvMax r).
  { destruct Hd as (_ & [] & _ & ?). pose proof (zlen_nonneg (recvBuf r)). lia. }
  assert (Hne : frame_end f - recvMax r < 2 ^ 64) by (unfold frame_end; lia).
  assert (Hstep : exists (ok : bool) c1,
    (if recvMax r <? frame_end f then
       let '(ok, c1) := consumeRecvFlowCredit c (u64 (frame_end f - recvMax r)) in
       if ok : bool then (true, c1, set_limits r (frame_end f) (recvGranted r)) else (false, c1, r)
     else (true, c, r)) = (ok, c1, if ok : bool then set_limits r (Z.max (recvMax r) (frame_end f)) (recvGranted r) else r) /\
    acct k1 k2 c1 (if ok then set_limits r (Z.max (recvMax r) (frame_end f)) (recvGranted r) else r) /\
    (recvMax r <? frame_end f) && (recvFlowLimit c <? u64 (recvFlowUsed c + (frame_end f - recvMax r))) = negb ok).
  { destruct (Z.ltb_spec (recvMax r) (frame_end f)).
    - rewrite (u64_small (frame_end f - recvMax r)) by lia. unfold consumeRecvFlowCredit.
      rewrite Z.max_r by lia. rewrite Z.ltb_antisym.
      destruct (_ <=? _); [eexists true, _ | eexists false, _]; (split; [done |]); split; done.
    - exists true, c. rewrite Z.max_l by lia. split; [by destruct r |]. split; [done |]. done. }
  destruct Hstep as (ok & c1 & -> & Ha1 & ->). destruct ok; cbn [negb]; [| by intros [= <- <- <- <-]].
  set (r1 := set_limits r (Z.max (recvMax r) (frame_end f)) (recvGranted r)) in *.
  assert (Hd1 : data_inv g base r1) by (apply data_inv_limits; [done | lia]).
  destruct (storeStreamData c1 r1 f (frame_end f)) as [[res c2] r2] eqn:E.
  apply (storeStreamData_spec g base k1 k2) in E as (Ha2 & Hd2 & Hc2 & Ho2 & Hres); [| done | done | done | cbn; lia].
  assert (Hseen : recvFinSeen r = true -> Z.max (recvMax r) (frame_end f) = recvMax r).
  { intros Hs. specialize (Hfin Hs). unfold violatesFinalSizeLocked in Hviol. rewrite Hs in Hviol.
    destruct (sf_fin f); lia. }
  destruct res as [acc | rej].
  - destruct Hres as [Hl Hx]. destruct (finishStreamFrame r2 (sf_fin f) (frame_end f)) as [flags r3] eqn:E.
    intros [= <- <- <- <-]. destruct (finishStreamFrame_flags _ _ _ _ _ E) as [Hacc Heod].
    pose proof E as E'. injection E as _ Hr3. pose proof Hl as (buf & l & ob & off & ac & Hr2).
    split; [| split; [by rewrite <- Hr3 |]].
    + apply (finishStreamFrame_inv g base r2 (sf_fin f) (frame_end f) flags); try done; rewrite Hr2; unfold r1; cbn; try lia.
      * intros Hf'. unfold violatesFinalSizeLocked in Hviol. rewrite Hf' in Hviol.
        destruct (recvFinSeen r); [specialize (Hfin eq_refl) |]; lia.
      * intros Hf'. destruct (Hend Hf') as [? | [Hs Ho]]; [by left |]. right. split; [done |].
        specialize (Hfin Hs). specialize (Hseen Hs). destruct Hd2 as (_ & _ & _ & Hm2).
        rewrite Hr2 in Ho2, Hm2. unfold r1 in *. cbn in Ho2, Hm2. lia.
    + split; [by rewrite <- Hr3, Hr2 |]. split; [by rewrite <- Hr3, Hr2 |]. right. split; [done |].
      split; [by rewrite <- Hr3, Hr2 |]. split; [| done]. intros x. rewrite <- Hr3. apply Hx.
  - injection Hres as -> ->. intros [= <- <- <- <-]. split; [| split; [done |]; split; [done |]; split; [done |]; by left].
    constructor; try done; cbn; [lia |]. intros Hs. rewrite Hseen by done. by apply Hfin.
Qed.

(** ** Sequences of operations *)

Inductive recvOp :=
| OpFrame (f : quicStreamFrame)
| OpTake
| OpRead (n : Z)
| OpReadAll
| OpGrant
| OpReset (finalSize : Z).

(** One operation: the bytes handed to the reader and the new state. *)
Definition recv_exec c r (op : recvOp) : bytes * connState * recvSide L :=
  match op with
  | OpFrame f => let '(_, _, c, r) := handleStreamFrame c r f in ([], c, r)
  | OpTake => let '(d, _, c, r) := takeReceived c r in (d, c, r)
  | OpRead n => match Read r n with Some (d, _, r) => (d, c, r) | None => ([], c, r) end
  | OpReadAll => match readAll r with Some (d, r) => (d, c, r) | None => ([], c, r) end
  | OpGrant => let '(_, r) := streamCreditToGrant r in ([], c, r)
  | OpReset n => let '(_, c, r) := applyPeerReset c r n in ([], c, r)
  end.

Fixpoint recv_run c r (ops : list recvOp) : bytes * connState * recvSide L :=
  match ops with
  | [] => ([], c, r)
  | op :: ops =>
      let '(d, c, r) := recv_exec c r op in
      let '(d', c, r) := recv_run c r ops in (d ++ d', c, r)
  end.

Definition op_ok (g : Z -> Z) (op : recvOp) : Prop :=
  match op with OpFrame f => frame_ok g f | OpRead n => 0 <= n | OpReset n => 0 <= n < 2 ^ 62 | _ => True end.

Definition op_covers (op : recvOp) (x : Z) : Prop :=
  match op with OpFrame f => sf_offset f <= x < frame_end f | _ => False end.

(** Taking the first [n] bytes of the buffer. *)
Lemma recv_inv_take g base r n : recv_inv g base r -> 0 <= n <= zlen (recvBuf r) ->
  recv_inv g (base + n) (set_data r (zdrop n (recvBuf r)) (recvOOO r) (oooBytes r) (recvOff r)) /\
  data_agrees g base (ztake n (recvBuf r)) /\ zlen (ztake n (recvBuf r)) = n.
Proof.
  intros [Hd Hg Hw Hfin Hend] Hn. split; [| split; [| by apply zlen_take]].
  - constructor; try done. destruct Hd as (H1 & [] & H3 & H4). split; [done |]. split; [| done].
    constructor; cbn; rewrite ?zlen_drop by lia; try lia; [| done]. by apply data_agrees_drop; [lia |].
  - destruct Hd as (_ & [] & _). by apply data_agrees_take.
Qed.

(** A property of one step: the invariant moves on by what was handed out. *)
Definition step_ok g base k1 k2 r d c' r' (new : Z -> Prop) : Prop :=
  recv_inv g (base + zlen d) r' /\ acct k1 k2 c' r' /\ data_agrees g base d /\
  (forall x, has r' x -> has r x \/ new x).

Lemma step_ok_silent g base k1 k2 r c' r' (new : Z -> Prop) : recv_inv g base r' -> acct k1 k2 c' r' ->
  (forall x, has r' x -> has r x \/ new x) -> step_ok g base k1 k2 r [] c' r' new.
Proof. intros. split; [by rewrite Z.add_0_r |]. split; [done |]. split; [by intros k b Hk | done]. Qed.

Lemma recv_inv_limits g base r granted : recv_inv g base r -> recvMax r <= granted <= 2 ^ 62 ->
  recv_inv g base (set_limits r (recvMax r) granted).
Proof. intros [Hd Hg Hw Hfin Hend] Hb. constructor; try done. apply data_inv_limits; [done | lia]. Qed.

Lemma streamCreditToGrant_inv g base r n r' : recv_inv g base r -> streamCreditToGrant r = (n, r') ->
  recv_inv g base r' /\ (n = 0 /\ r' = r \/
    n = recvGranted r' /\ recvGranted r < n /\ n <= maxRecv r /\ n <= recvOff r + recvWindow r /\
    r' = set_limits r (recvMax r) n).
Proof.
  intros Hri. pose proof Hri as [Hd Hg Hw Hfin Hend]. unfold streamCreditToGrant.
  destruct (_ || _ || _) eqn:Hc; [intros [= <- <-]; auto |]. apply orb_false_iff in Hc as [Hc Hc2].
  apply orb_false_iff in Hc as [Hc0 Hc1]. destruct Hd as (Hi & Hb & Hs & Hm). pose proof Hb as [B1 B2 _ _ _ _].
  pose proof (zlen_nonneg (recvBuf r)). rewrite Z.shiftr_div_pow2 in Hc2 by lia. change (2 ^ 1) with 2 in Hc2.
  assert (0 <= recvWindow r / 2 <= recvWindow r) by (split; [apply Z.div_pos | apply Z.div_le_upper_bound]; lia).
  rewrite u64_small in Hc2 by lia. rewrite u64_small by lia.
  intros [= <- <-]. destruct (Z.ltb_spec (maxRecv r) (recvOff r + recvWindow r)); cbn;
    (split; [apply recv_inv_limits; [done | lia] | right; repeat split; lia]).
Qed.

Lemma applyPeerReset_inv g base k1 k2 c r n res c' r' : recv_inv g base r -> acct k1 k2 c r -> 0 <= n < 2 ^ 62 ->
  applyPeerReset c r n = (res, c', r') ->
  recv_inv g base r' /\ acct k1 k2 c' r' /\ (forall x, has r' x <-> has r x).
Proof.
  intros Hri Ha Hn. pose proof Hri as [Hd Hg Hw Hfin Hend]. unfold applyPeerReset.
  destruct (receivedExtent r) as [highest unique].
  destruct (_ || (n <? _)) eqn:Hc; [by intros [= <- <- <-] |]. apply orb_false_iff in Hc as [Hc1 Hc2].
  destruct (Z.ltb_spec (recvGranted r) n); [by intros [= <- <- <-] |].
  assert (Hstep : exists (ok : bool) c1,
    (if recvMax r <? n then
       let '(ok, c1) := consumeRecvFlowCredit c (u64 (n - recvMax r)) in
       if ok : bool then (true, c1, set_limits r n (recvGranted r)) else (false, c1, r)
     else (true, c, r)) = (ok, c1, if ok : bool then set_limits r n (recvGranted r) else r) /\
    acct k1 k2 c1 (if ok then set_limits r n (recvGranted r) else r)).
  { destruct (Z.ltb_spec (recvMax r) n).
    - unfold consumeRecvFlowCredit. destruct (_ <=? _); [eexists true, _ | eexists false, _]; by split.
    - exists true, c. replace n with (recvMax r) by lia. split; [by destruct r | done]. }
  destruct Hstep as (ok & c1 & -> & Ha1). destruct ok; cbn [negb]; [| by intros [= <- <- <-]].
  assert (Hs : recvFinSeen r = true -> n = recvMax r) by (intros Hs; rewrite Hs in Hc1; specialize (Hfin Hs); lia).
  assert (Hd1 : data_inv g base (set_limits r n (recvGranted r))) by (apply data_inv_limits; [done | lia]).
  assert (Hri1 : recv_inv g base (set_limits r n (recvGranted r))).
  { constructor; try done; cbn; [lia |]. intros Hs'. rewrite Hs by done. auto. }
  destruct (recvReset _); intros [= <- <- <-]; [done |]. split; [| done].
  constructor; try done; [by apply data_inv_flags | cbn; lia |]. cbn. intros Hf. destruct (Hend Hf) as [? | [Hs' Ho]]; [by left |].
  right. split; [done |]. rewrite Hs, <- Hfin by done. done.
Qed.

Lemma handleStreamFrame_closed c r f : recvClosed r || recvOverflow r = true -> handleStreamFrame c r f = (0, 0, c, r).
Proof. intros Hc. unfold handleStreamFrame. by rewrite Hc. Qed.

Lemma frame_outcome_has c r f n fl c' r' x : frame_outcome c r f n fl c' r' -> has r' x ->
  has r x \/ sf_offset f <= x < frame_end f.
Proof.
  unfold frame_outcome. intros Ho Hx.
  destruct (_ <? _); [destruct Ho as (_ & _ & _ & ->); by left |].
  destruct (violatesFinalSizeLocked _ _ _); [destruct Ho as (_ & _ & _ & ->); by left |].
  destruct (_ && _); [destruct Ho as (_ & _ & ->); by left |].
  destruct Ho as (_ & _ & [(_ & _ & _ & Hh) | (_ & _ & Hh & _)]); [left; by apply Hh | by apply Hh].
Qed.

Lemma recv_exec_ok g base k1 k2 c r op d c' r' : recv_inv g base r -> acct k1 k2 c r -> op_ok g op ->
  recv_exec c r op = (d, c', r') -> step_ok g base k1 k2 r d c' r' (op_covers op).
Proof.
  intros Hri Ha Hop. destruct op as [f | | n | | | n]; cbn [recv_exec op_ok] in *.
  - destruct (handleStreamFrame c r f) as [[[n fl] c1] r1] eqn:E. intros [= <- <- <-].
    destruct (recvClosed r || recvOverflow r) eqn:Hc.
    { rewrite handleStreamFrame_closed in E by done. simplify_eq. apply step_ok_silent; auto. }
    apply orb_false_iff in Hc as [Hcl Hov].
    apply (handleStreamFrame_spec g base k1 k2) in E as (H1 & H2 & H3); [| done ..].
    apply step_ok_silent; [done | done |]. intros x Hx. by eapply frame_outcome_has.
  - destruct (takeReceived c r) as [[[d1 fin] c1] r1] eqn:E. intros [= <- <- <-]. unfold takeReceived in E.
    destruct (releaseReserved c _ _) as [c2 r2] eqn:E2.
    pose proof Hri as [Hd _ _ _ _]. destruct Hd as (Hi & Hb & Hs & Hm). pose proof Hb as [B1 B2 B3 B4 B5 B6].
    assert (Hbd : 0 <= seg_bytes (st_flat (recvOOO r))).
    { assert (Hw : segs_ok (recvOff r) (recvMax r) (st_flat (recvOOO r))) by (eapply segs_ok_weaken; [| | exact Hs]; lia).
      apply (seg_bytes_bound _ _ _ Hw). lia. }
    pose proof (zlen_nonneg (recvBuf r)). pose proof (zlen_nonneg (st_flat (recvOOO r))). unfold quicOOOSegmentOverhead in *.
    apply (releaseReserved_spec k1 k2) in E2 as (-> & Ha2 & _); [| done | cbn; lia]. simplify_eq.
    destruct (recv_inv_take g base r (zlen (recvBuf r)) Hri ltac:(lia)) as ([Hd' Hg' Hw' Hf' He'] & _ & _).
    rewrite zdrop_all in * by lia.
    split; [| split; [done |]; split; [done | auto]]. constructor; try done.
    destruct Hd' as (I1 & [] & I3). split; [done |]. split; [| done]. constructor; try done. cbn [recvBuf set_data set_accounted recvAccounted recvOOO]. rewrite zlen_nil. unfold quicOOOSegmentOverhead. lia.
  - unfold Read. destruct (Z.ltb_spec 0 (zlen (recvBuf r))).
    + intros [= <- <- <-]. destruct (recv_inv_take g base r (Z.min n (zlen (recvBuf r))) Hri ltac:(lia)) as (H1 & H2 & H3).
      split; [by rewrite H3 |]. by split; [| split; [| auto]].
    + destruct (recvFin r || recvClosed r); intros [= <- <- <-]; apply step_ok_silent; auto.
  - unfold readAll. destruct (recvFin r || recvClosed r); intros [= <- <- <-]; [| apply step_ok_silent; auto].
    pose proof (zlen_nonneg (recvBuf r)).
    destruct (recv_inv_take g base r (zlen (recvBuf r)) Hri ltac:(lia)) as (H1 & H2 & H3).
    rewrite zdrop_all in H1 by lia. unfold ztake, zlen in H2. rewrite Nat2Z.id, firstn_all in H2.
    by split; [| split; [| split; [| auto]]].
  - destruct (streamCreditToGrant r) as [n r1] eqn:E. intros [= <- <- <-].
    apply (streamCreditToGrant_inv g base) in E as (H1 & [(_ & ->) | (_ & _ & _ & _ & ->)]); [| | done]; apply step_ok_silent; auto.
  - destruct (applyPeerReset c r n) as [[res c1] r1] eqn:E. intros [= <- <- <-].
    apply (applyPeerReset_inv g base k1 k2) in E as (H1 & H2 & H3); [| done ..].
    apply step_ok_silent; [done | done |]. intros x. rewrite H3. auto.
Qed.

Lemma recv_run_ok g k1 k2 ops : forall base c r d c' r', recv_inv g base r -> acct k1 k2 c r -> Forall (op_ok g) ops ->
  recv_run c r ops = (d, c', r') -> step_ok g base k1 k2 r d c' r' (fun x => Exists (fun op => op_covers op x) ops).
Proof.
  induction ops as [|op ops IH]; intros base c r d c' r' Hri Ha Hops; cbn [recv_run].
  { intros [= <- <- <-]. apply step_ok_silent; auto. }
  destruct (recv_exec c r op) as [[d1 c1] r1] eqn:E1. destruct (recv_run c1 r1 ops) as [[d2 c2] r2] eqn:E2.
  intros [= <- <- <-]. apply Forall_cons_1 in Hops as [Ho Hops].
  apply (recv_exec_ok g base k1 k2) in E1 as (H1 & H2 & H3 & H4); [| done ..].
  apply (IH (base + zlen d1)) in E2 as (I1 & I2 & I3 & I4); [| done ..].
  split; [by rewrite zlen_app, Z.add_assoc |]. split; [done |]. split; [by apply data_agrees_app |].
  intros x Hx. destruct (I4 x Hx) as [Hx' | Hx']; [| right; by apply Exists_cons_tl].
  destruct (H4 x Hx') as [? | ?]; [by left | right; by apply Exists_cons_hd].
Qed.

Lemma new_acct c window cap : 0 <= connReserved (bodyBudget c) -> 0 <= inFlight (bodyBudget c) ->
  acct (connReserved (bodyBudget c)) (inFlight (bodyBudget c)) c (newRecvSide window cap).
Proof. intros H1 H2. repeat split; cbn; lia. Qed.

Lemma first_missing g base r : data_inv g base r -> ~ has r (recvOff r).
Proof. intros (_ & _ & Hs & _) [Hx | Hx]; [lia |]. pose proof (covers_range _ _ _ _ Hs Hx). lia. Qed.

Lemma releaseStream_restores k1 k2 c r c' r' : acct k1 k2 c r -> releaseStream c r = (c', r') ->
  bodyBudget c' = {| inFlight := k2; connReserved := k1 |}.
Proof.
  intros (H1 & H2 & H3 & H4 & H5). unfold releaseStream, releaseConnBodyBytes, releaseBodyBytes.
  destruct (bodyBudget c) as [fl cr] eqn:Hb. cbn in *.
  destruct (Z.ltb_spec (MaxInFlightBodyBytes (budgetCfg c)) 0) as [Hm | Hm].
  - destruct (H5 Hm) as [-> ->]. rewrite orb_true_r. destruct (0 <? recvAccounted r); intros [= <- <-]; cbn; by rewrite ?Hb.
  - destruct (H4 ltac:(lia)) as [-> ->]. rewrite orb_false_r. destruct (Z.ltb_spec 0 (recvAccounted r)); intros [= <- <-]; cbn.
    + replace (recvAccounted r <=? 0) with false by lia. cbn [orb]. replace (_ <? 0) with false by lia. f_equal; lia.
    + rewrite Hb. f_equal; lia.
Qed.
End Buffered.

(** ** Theorems for the stream as it is built *)

Abbreviation stream := (recvSide quicOOOList).

(** C1: whatever STREAM frames, resets, reads and credit updates a stream
    sees, in any order and with any overlaps, duplicates and losses, the bytes
    handed to the reader followed by the bytes in its buffer are exactly the
    first [recvOff] bytes of the peer's stream, [recvOff] is the first byte
    not received, nothing is held that no frame carried, and an end of stream
    that is not an overflow is announced only when every byte up to the final
    size is there. *)
Theorem reassembly_correct (g : Z -> Z) (c : connState) (window cap : Z) (ops : list recvOp) d c' (r' : stream) :
  0 <= window <= 2 ^ 62 -> 0 <= cap <= 2 ^ 62 -> 0 <= connReserved (bodyBudget c) -> 0 <= inFlight (bodyBudget c) ->
  Forall (op_ok g) ops -> recv_run c (newRecvSide window cap) ops = (d, c', r') ->
  data_agrees g 0 (d ++ recvBuf r') /\ zlen (d ++ recvBuf r') = recvOff r' /\ ~ has r' (recvOff r') /\
  (forall x, 0 <= x -> has r' x -> Exists (fun op => op_covers op x) ops) /\
  (recvFin r' = true -> recvOverflow r' = false -> recvFinSeen r' = true /\ recvOff r' = recvFinOff r').
Proof.
  intros Hw Hc Hk1 Hk2 Hops E.
  eapply (recv_run_ok g _ _ ops 0) in E as ([Hd _ _ _ Hend] & _ & Hagr & Hhas); [| by apply newRecvSide_inv | by apply new_acct | done].
  rewrite Z.add_0_l in Hd. split; [| split; [| split; [by eapply first_missing |]; split]].
  - apply data_agrees_app. destruct Hd as (_ & [] & _). by rewrite Z.add_0_l.
  - destruct Hd as (_ & [] & _). rewrite zlen_app. lia.
  - intros x Hx Hh. destruct (Hhas x Hh) as [[Hl | Hl] | Hl]; [cbn in Hl; lia | | done].
    by apply covers_nil in Hl.
  - intros Hf Ho. destruct (Hend Hf) as [? | ?]; [congruence | done].
Qed.

Definition demo_conn : connState :=
  {| recvFlowUsed := 0; recvFlowLimit := 4096; dataRecv := 0; dataRecvGranted := 4096; maxDataLocal := 4096;
     bodyBudget := {| inFlight := 10; connReserved := 5 |};
     budgetCfg := {| MaxInFlightBodyBytes := 2 ^ 20; MaxBodySize := 2 ^ 16 |} |}.
Definition demo_frame (off : Z) (data : bytes) (fin : bool) : quicStreamFrame :=
  {| sf_streamID := 0; sf_offset := off; sf_data := data; sf_fin := fin |}.
Definition demo_ops : list recvOp :=
  [OpFrame (demo_frame 4 [4; 5; 6] true); OpFrame (demo_frame 2 [2; 3] false); OpRead 9; OpGrant;
   OpFrame (demo_frame 0 [0; 1; 2; 3; 4] false); OpTake].

Lemma data_agrees_check (g : Z -> Z) off d :
  forallb (fun p => p.2 =? g (off + Z.of_nat p.1)) (zip (seq 0 (length d)) d) = true -> data_agrees g off d.
Proof.
  intros H k b Hk. rewrite forallb_forall in H. specialize (H (k, b)).
  apply Z.eqb_eq, H, list_elem_of_In, list_elem_of_lookup. exists k.
  apply lookup_zip_with_Some. exists k, b. split; [done |]. split; [| done].
  apply lookup_seq. split; [done |]. by apply lookup_lt_Some in Hk.
Qed.

Ltac demo_ops_ok := repeat constructor; cbn; try lia; try (by apply data_agrees_check).

Lemma reassembly_correct_witness : exists d c' (r' : stream),
  recv_run demo_conn (newRecvSide 1024 4096) demo_ops = (d, c', r') /\
  d = [0; 1; 2; 3; 4; 5; 6] /\ recvFin r' = true /\ data_agrees (fun x => x) 0 (d ++ recvBuf r').
Proof.
  eexists _, _, _. split; [vm_compute; reflexivity |]. split; [reflexivity |]. split; [reflexivity |].
  eapply (reassembly_correct (fun x => x) demo_conn 1024 4096 demo_ops);
    [lia | lia | cbn; lia | cbn; lia | demo_ops_ok | vm_compute; reflexivity].
Defined.

(** Every STREAM frame on an open stream is answered on the branch its
    numbers select: beyond the stream's or the connection's credit it is a
    flow-control violation, against the known final size a final-size error,
    and neither touches the data; otherwise it is rejected whole (the stream
    closes and keeps what it had) or accepted, after which exactly the
    frame's bytes are added to what is held and the end-of-data flag tells
    whether the stream is complete. The invariant survives every branch. *)
Theorem handleStreamFrame_outcome (g : Z -> Z) base k1 k2 c (r : stream) f n fl c' r' :
  recv_inv g base r -> acct k1 k2 c r -> frame_ok g f -> recvClosed r = false -> recvOverflow r = false ->
  handleStreamFrame c r f = (n, fl, c', r') ->
  recv_inv g base r' /\ acct k1 k2 c' r' /\ frame_outcome c r f n fl c' r'.
Proof. apply handleStreamFrame_spec. Qed.

Lemma handleStreamFrame_outcome_witness : exists n fl c' (r' : stream),
  handleStreamFrame demo_conn (newRecvSide 1024 4096) (demo_frame 4 [4; 5; 6] true) = (n, fl, c', r') /\
  n = 3 /\ frame_outcome demo_conn (newRecvSide 1024 4096) (demo_frame 4 [4; 5; 6] true) n fl c' r'.
Proof.
  eexists _, _, _, _. split; [vm_compute; reflexivity |]. split; [reflexivity |].
  refine (proj2 (proj2 (handleStreamFrame_outcome (fun x => x) 0 5 10 _ _ _ _ _ _ _ _ _ _ _ _ _)));
    [apply newRecvSide_inv; lia | apply (new_acct demo_conn); cbn; lia | demo_ops_ok | reflexivity | reflexivity |
     vm_compute; reflexivity].
Defined.

(** The body budget is not leaked and not over-released: after any
    sequence of operations on a stream, releasing the stream puts the
    connection's and the server's counters back to the values they had
    before the stream existed. *)
Theorem stream_accounting_restored (g : Z -> Z) (c : connState) (window cap : Z) (ops : list recvOp) d c1 (r1 : stream) c2 r2 :
  0 <= window <= 2 ^ 62 -> 0 <= cap <= 2 ^ 62 -> 0 <= connReserved (bodyBudget c) -> 0 <= inFlight (bodyBudget c) ->
  Forall (op_ok g) ops -> recv_run c (newRecvSide window cap) ops = (d, c1, r1) -> releaseStream c1 r1 = (c2, r2) ->
  bodyBudget c2 = bodyBudget c.
Proof.
  intros Hw Hc Hk1 Hk2 Hops E E2.
  eapply (recv_run_ok g _ _ ops 0) in E as (_ & Ha & _ & _); [| by apply newRecvSide_inv | by apply new_acct | done].
  rewrite (releaseStream_restores _ _ _ _ _ _ Ha E2). by destruct (bodyBudget c).
Qed.

Lemma stream_accounting_restored_witness : exists d c1 (r1 : stream) c2 r2,
  recv_run demo_conn (newRecvSide 1024 4096) (take 2 demo_ops) = (d, c1, r1) /\ releaseStream c1 r1 = (c2, r2) /\
  connReserved (bodyBudget c1) = 5 + 5 + 2 * 64 /\ bodyBudget c2 = bodyBudget demo_conn.
Proof.
  eexists _, _, _, _, _. split; [vm_compute; reflexivity |]. split; [vm_compute; reflexivity |]. split; [reflexivity |].
  eapply (stream_accounting_restored (fun x => x) demo_conn 1024 4096 (take 2 demo_ops));
    [lia | lia | cbn; lia | cbn; lia | demo_ops_ok | vm_compute; reflexivity | vm_compute; reflexivity].
Defined.

(** Stream credit only grows: a grant is above the previous limit and
    never beyond the stream's cap nor more than one window past the received
    data, and no grant is made after the final size is known. *)
Theorem stream_credit_bounds (g : Z -> Z) base (r : stream) n r' :
  recv_inv g base r -> streamCreditToGrant r = (n, r') ->
  recv_inv g base r' /\ recvGranted r <= recvGranted r' /\
  (n <> 0 -> recvFinSeen r = false /\ recvGranted r < n <= maxRecv r /\ n <= recvOff r + recvWindow r /\ recvGranted r' = n).
Proof.
  intros Hri E. pose proof E as E'. apply (streamCreditToGrant_inv g base) in E as (H1 & Hc); [| done].
  split; [done |]. destruct Hc as [(-> & ->) | (Hn & Hlt & Hm & Hw & ->)]; [done |]. split; [cbn; lia |].
  intros Hnz. split; [| done]. unfold streamCreditToGrant in E'. destruct (recvFinSeen r); [| done].
  cbn in E'. by injection E'.
Qed.

Lemma stream_credit_bounds_witness : exists r0 : stream, exists n r',
  recv_inv (fun x => x) 0 r0 /\ streamCreditToGrant r0 = (n, r') /\ n = 13 /\ recvGranted r0 <= recvGranted r'.
Proof.
  exists (snd (handleStreamFrame demo_conn (newRecvSide 8 4096) (demo_frame 0 [0; 1; 2; 3; 4] false))).
  assert (Hri : recv_inv (fun x => x) 0
    (snd (handleStreamFrame demo_conn (newRecvSide (L := quicOOOList) 8 4096) (demo_frame 0 [0; 1; 2; 3; 4] false)))).
  { destruct (handleStreamFrame _ _ _) as [[[n fl] c'] r'] eqn:E.
    apply (handleStreamFrame_spec (fun x => x) 0 5 10) in E as (H & _); [done | apply newRecvSide_inv; lia |
      apply (new_acct demo_conn); cbn; lia | demo_ops_ok | reflexivity | reflexivity]. }
  eexists _, _. split; [exact Hri |]. split; [vm_compute; reflexivity |]. split; [reflexivity |].
  refine (proj1 (proj2 (stream_credit_bounds (fun x => x) 0 _ _ _ Hri _))). vm_compute. reflexivity.
Defined.

(** The byte count [handleStreamFrame] reports is the connection credit the
    peer is given back. Bytes that arrive again below a buffered segment are
    counted a second time. *)
Example accepted_counts_overlap_twice :
  let '(n1, _, c, r) := handleStreamFrame demo_conn (newRecvSide (L := quicOOOList) 1024 4096) (demo_frame 1 [1; 2] false) in
  let '(n2, _, _, r) := handleStreamFrame c r (demo_frame 0 [0; 1; 2] false) in
  n1 + n2 = 5 /\ recvOff r + oooBytes r = 3.
Proof. vm_compute. split; reflexivity. Qed.
