(* ===== verification/QuicSendSide.v ===== *)
(** Correctness of the send side of a QUIC stream: the chunks handed to the
    packet builder are the written bytes in order, FIN comes with the last of
    them, and the connection's stalled-byte counter is the sum of what its
    streams hold back. *)
From stdpp Require Import base list numbers.
From Stdlib Require Import ZArith Lia ZifyBool.
From S2P Require Import Prelude QuicVarint QuicFrame QuicOOO BodyBudget QuicStream.

Inductive sendOp :=
| SWrite (data : bytes)
| SFinish
| SClose (now : Z)
| SReset (now : Z)
| STrack (hardCap now : Z)
| SDrain (now maxBytes : Z).

(** A chunk as [drainSendBuf] returns it. *)
Record chunk := { ck_data : bytes; ck_off : Z; ck_fin : bool }.

(** The state with what has been accepted from the writer and every chunk
    drained so far. *)
Record sendSys := { ss_send : sendSide; ss_stall : stallState; ss_written : bytes; ss_chunks : list chunk }.

Definition send_exec (y : sendSys) (op : sendOp) : sendSys :=
  let s := ss_send y in
  let k := ss_stall y in
  match op with
  | SWrite data =>
      match Write s data with
      | Some s => {| ss_send := s; ss_stall := k; ss_written := ss_written y ++ data; ss_chunks := ss_chunks y |}
      | None => y
      end
  | SFinish => {| ss_send := FinishWrite s; ss_stall := k; ss_written := ss_written y; ss_chunks := ss_chunks y |}
  | SClose now =>
      let '(k, s) := closeSend now k s in
      {| ss_send := s; ss_stall := k; ss_written := ss_written y; ss_chunks := ss_chunks y |}
  | SReset now =>
      let '(_, _, k, s) := resetSend now k s in
      {| ss_send := s; ss_stall := k; ss_written := ss_written y; ss_chunks := ss_chunks y |}
  | STrack cap now =>
      let '(_, k, s) := trackStalledSend cap now k s in
      {| ss_send := s; ss_stall := k; ss_written := ss_written y; ss_chunks := ss_chunks y |}
  | SDrain now maxBytes =>
      let '(data, off, fin, k, s) := drainSendBuf now k s maxBytes in
      {| ss_send := s; ss_stall := k; ss_written := ss_written y;
         ss_chunks := ss_chunks y ++ [{| ck_data := data; ck_off := off; ck_fin := fin |}] |}
  end.

Definition send_run (y : sendSys) (ops : list sendOp) : sendSys := fold_left send_exec ops y.

Definition sent (y : sendSys) : bytes := concat (map ck_data (ss_chunks y)).

Definition newSendSys (k : stallState) : sendSys :=
  {| ss_send := newSendSide; ss_stall := k; ss_written := []; ss_chunks := [] |}.

(** Every chunk starts where the ones before it end, and a FIN is on a chunk
    only when the bytes up to its end are all that was ever written. *)
Fixpoint chunks_ok (pos : Z) (written : bytes) (cs : list chunk) : Prop :=
  match cs with
  | [] => True
  | c :: cs =>
      ck_off c = pos /\ (ck_fin c = true -> pos + zlen (ck_data c) = zlen written) /\
      chunks_ok (pos + zlen (ck_data c)) written cs
  end.

Record send_inv (k0 : Z) (y : sendSys) : Prop := {
  si_off : sendOff (ss_send y) = zlen (sent y);
  si_open : sendClosed (ss_send y) = false -> ss_written y = sent y ++ sendBuf (ss_send y);
  si_closed : sendClosed (ss_send y) = true -> sendBuf (ss_send y) = [] /\ sent y `prefix_of` ss_written y;
  si_reset : sendReset (ss_send y) = true -> sendClosed (ss_send y) = true;
  si_chunks : chunks_ok 0 (ss_written y) (ss_chunks y);
  si_fin : Exists (fun c => ck_fin c = true) (ss_chunks y) -> sendFin (ss_send y) = true;
  si_stall : 0 <= stalledSend (ss_send y) <= zlen (sendBuf (ss_send y));
  si_total : stalledSendBytes (ss_stall y) = k0 + stalledSend (ss_send y);
}.

Lemma chunks_ok_app pos w a b : chunks_ok pos w (a ++ b) <->
  chunks_ok pos w a /\ chunks_ok (pos + zlen (concat (map ck_data a))) w b.
Proof.
  revert pos. induction a as [|c a IH]; intros pos; cbn [app chunks_ok map concat].
  { rewrite zlen_nil, Z.add_0_r. tauto. }
  rewrite IH, zlen_app, Z.add_assoc. tauto.
Qed.

(** Writing more keeps old chunks right as long as none carried FIN. *)
Lemma chunks_ok_more pos w w' cs : ~ Exists (fun c => ck_fin c = true) cs -> chunks_ok pos w cs -> chunks_ok pos w' cs.
Proof.
  revert pos. induction cs as [|c cs IH]; intros pos Hn; cbn [chunks_ok]; [done |].
  intros (H1 & H2 & H3). split; [done |]. split.
  - intros Hf. destruct Hn. by apply Exists_cons_hd.
  - apply IH; [| done]. intros He. apply Hn. by apply Exists_cons_tl.
Qed.

Definition sendop_ok (op : sendOp) : Prop := match op with SDrain _ n => 0 <= n | _ => True end.

Lemma sent_snoc y c : concat (map ck_data (ss_chunks y ++ [c])) = sent y ++ ck_data c.
Proof. unfold sent. rewrite map_app, concat_app. cbn. by rewrite app_nil_r. Qed.

(** An abandoned send side holds nothing back. *)
Lemma abandon_inv k0 y now reset k s : send_inv k0 y -> abandon now (ss_stall y) (ss_send y) reset = (k, s) ->
  send_inv k0 {| ss_send := s; ss_stall := k; ss_written := ss_written y; ss_chunks := ss_chunks y |}.
Proof.
  intros [H1 H2 H3 H4 H5 H6 H7 H8]. unfold abandon, releaseStalledLocked. cbn.
  assert (Hp : sent y `prefix_of` ss_written y).
  { destruct (sendClosed (ss_send y)); [by apply H3 |]. rewrite H2 by done. by eexists. }
  destruct (Z.leb_spec (stalledSend (ss_send y)) 0); intros [= <- <-]; constructor; cbn; try done; try lia; auto; unfold zlen; cbn [length]; lia.
Qed.

Lemma drain_inv k0 y now n : send_inv k0 y -> 0 <= n -> zlen (ss_written y) < 2 ^ 64 ->
  send_inv k0 (send_exec y (SDrain now n)).
Proof.
  intros Hi Hn Hw. pose proof Hi as [H1 H2 H3 H4 H5 H6 H7 H8]. cbn [send_exec]. unfold drainSendBuf.
  assert (Hempty : forall fin, (fin = true -> sendFin (ss_send y) = true /\ zlen (sent y) = zlen (ss_written y)) ->
    send_inv k0 {| ss_send := ss_send y; ss_stall := ss_stall y; ss_written := ss_written y;
      ss_chunks := ss_chunks y ++ [{| ck_data := []; ck_off := sendOff (ss_send y); ck_fin := fin |}] |}).
  { intros fin Hf. constructor; cbn; unfold sent; cbn; rewrite ?sent_snoc, ?app_nil_r; try done.
    - apply chunks_ok_app. split; [done |]. cbn. change (zlen (@nil Z)) with 0. fold (sent y). split; [lia |]. split; [| done].
      intros Hf'. destruct (Hf Hf'). lia.
    - rewrite Exists_app. intros [He | He]; [auto |]. apply Exists_cons in He as [He | He]; [by apply Hf | inversion He]. }
  destruct (sendReset (ss_send y)); [by apply Hempty |].
  destruct (Z.eqb_spec (zlen (sendBuf (ss_send y))) 0) as [Hz | Hz].
  { destruct (sendFin (ss_send y)) eqn:Hf; cbn [andb]; [| by apply Hempty].
    destruct (sendClosed (ss_send y)) eqn:Hc; cbn [negb]; apply Hempty; [done |]. intros _. split; [done |].
    rewrite H2 by done. rewrite zlen_app. lia. }
  destruct (sendClosed (ss_send y)) eqn:Hc; [destruct (H3 eq_refl) as [Hb _]; by rewrite Hb in Hz |].
  specialize (H2 eq_refl). set (m := if n <? zlen (sendBuf (ss_send y)) then n else zlen (sendBuf (ss_send y))).
  assert (Hm : 0 <= m <= zlen (sendBuf (ss_send y))) by (unfold m; destruct (Z.ltb_spec n (zlen (sendBuf (ss_send y)))); lia).
  clearbody m. rewrite H2, zlen_app in Hw. pose proof (zlen_nonneg (sent y)).
  assert (Hoff : u64 (sendOff (ss_send y) + m) = zlen (sent y ++ ztake m (sendBuf (ss_send y)))).
  { rewrite zlen_app, zlen_take, u64_small by lia. lia. }
  assert (Hfinal : forall k s, sendBuf s = zdrop m (sendBuf (ss_send y)) -> sendOff s = u64 (sendOff (ss_send y) + m) ->
    sendFin s = sendFin (ss_send y) -> sendClosed s = false -> (sendReset s = true -> sendClosed s = true) ->
    0 <= stalledSend s <= zlen (sendBuf s) -> stalledSendBytes k = k0 + stalledSend s ->
    send_inv k0 {| ss_send := s; ss_stall := k; ss_written := ss_written y; ss_chunks := ss_chunks y ++
      [{| ck_data := ztake m (sendBuf (ss_send y)); ck_off := sendOff (ss_send y);
          ck_fin := sendFin s && (zlen (sendBuf s) =? 0) |}] |}).
  { intros k s E1 E2 E3 E4 E5 E6 E7. constructor; cbn; unfold sent; cbn; rewrite ?sent_snoc; cbn; try done.
    - by rewrite E2.
    - intros _. by rewrite E1, <- app_assoc, ztake_zdrop.
    - congruence.
    - apply chunks_ok_app. split; [done |]. cbn. fold (sent y). split; [lia |]. split; [| done]. rewrite E1.
      intros [_ Hz']%andb_true_iff. rewrite H2, zlen_app, zlen_take by lia. rewrite zlen_drop in Hz' by lia. lia.
    - rewrite Exists_app. intros [He | He]; [rewrite E3; auto |].
      apply Exists_cons in He as [He | He]; [by apply andb_true_iff in He as [? _] | inversion He]. }
  unfold releaseStalledLocked. cbn [stalledSend sendBuf sendOff sendFin sendClosed sendReset].
  destruct (Z.ltb_spec 0 (stalledSend (ss_send y))) as [Hs | Hs];
    [destruct (Z.leb_spec (Z.min m (stalledSend (ss_send y))) 0) |]; apply Hfinal; cbn; rewrite ?zlen_drop by lia; done || lia.
Qed.

Lemma send_exec_inv k0 y op : send_inv k0 y -> sendop_ok op -> zlen (ss_written y) < 2 ^ 64 -> send_inv k0 (send_exec y op).
Proof.
  intros Hi Hop Hw. pose proof Hi as [H1 H2 H3 H4 H5 H6 H7 H8]. destruct op as [data | | now | now | cap now | now n].
  - cbn [send_exec]. unfold Write. destruct (sendClosed (ss_send y)) eqn:Hc; [done |].
    destruct (sendFin (ss_send y)) eqn:Hf; cbn [orb]; [done |]. constructor; cbn; try done.
    + intros _. change (sent _) with (sent y). by rewrite H2, app_assoc.
    + eapply chunks_ok_more; [| exact H5]. intros He. specialize (H6 He). congruence.
    + rewrite zlen_app. pose proof (zlen_nonneg data). lia.
  - by constructor.
  - cbn [send_exec]. unfold closeSend. destruct (abandon _ _ _ _) eqn:E. by eapply abandon_inv in E.
  - cbn [send_exec]. unfold resetSend. destruct (sendReset (ss_send y)) eqn:Hr; [by destruct y |].
    destruct (abandon _ _ _ _) eqn:E. by eapply abandon_inv in E.
  - cbn [send_exec]. unfold trackStalledSend, beginStalledAccounting.
    destruct (Z.leb_spec (zlen (sendBuf (ss_send y)) - stalledSend (ss_send y)) 0); [by destruct y |].
    replace (_ =? 0) with false by lia. destruct (_ =? _); constructor; cbn; done || lia.
  - by apply drain_inv.
Qed.

(** The bytes a list of operations asks to write. *)
Definition op_bytes (op : sendOp) : Z := match op with SWrite d => zlen d | _ => 0 end.

Lemma send_exec_written y op : zlen (ss_written (send_exec y op)) <= zlen (ss_written y) + op_bytes op.
Proof.
  assert (Hnn : 0 <= op_bytes op) by (destruct op; cbn; try lia; apply zlen_nonneg).
  destruct op; cbn [send_exec op_bytes] in *;
    repeat match goal with |- context [match ?x with _ => _ end] => destruct x end;
    cbn [ss_written]; rewrite ?zlen_app; lia.
Qed.

Fixpoint total_bytes (ops : list sendOp) : Z :=
  match ops with [] => 0 | op :: ops => op_bytes op + total_bytes ops end.

Lemma total_bytes_nonneg ops : 0 <= total_bytes ops.
Proof. induction ops as [|[] ops IH]; cbn; try lia. pose proof (zlen_nonneg data). lia. Qed.

Lemma send_run_inv k0 ops : forall y, send_inv k0 y -> Forall sendop_ok ops ->
  zlen (ss_written y) + total_bytes ops < 2 ^ 64 -> send_inv k0 (send_run y ops).
Proof.
  induction ops as [|op ops IH]; intros y Hi Hops Hb; cbn [send_run fold_left]; [done |].
  apply Forall_cons_1 in Hops as [Ho Hops]. pose proof (total_bytes_nonneg ops). cbn [total_bytes] in Hb.
  assert (0 <= op_bytes op) by (destruct op; cbn; try lia; apply zlen_nonneg).
  apply IH; [apply send_exec_inv; [done | done | lia] | done |]. pose proof (send_exec_written y op). lia.
Qed.

(** ** What the next drain takes, and what is held back *)

Definition isFinish (op : sendOp) : bool := match op with SFinish => true | _ => false end.
Definition isAbandon (op : sendOp) : bool := match op with SClose _ | SReset _ => true | _ => false end.

(** The bytes that had been written when the stall accounting last ran. *)
Fixpoint trackedAfter (y : sendSys) (tracked : Z) (ops : list sendOp) : Z :=
  match ops with
  | [] => tracked
  | op :: ops => trackedAfter (send_exec y op) (match op with STrack _ _ => zlen (ss_written y) | _ => tracked end) ops
  end.

(** Of them, those that have not been drained are held back. *)
Definition held (y : sendSys) (tracked : Z) : Prop := sendClosed (ss_send y) = false -> stalledSend (ss_send y) = Z.max 0 (tracked - zlen (sent y)).

Lemma drain_exact k0 y now n : send_inv k0 y -> 0 <= n ->
  let '(data, off, fin, k, s) := drainSendBuf now (ss_stall y) (ss_send y) n in
  let closed := sendClosed (ss_send y) in
  data = (if closed then [] else ztake n (zdrop (zlen (sent y)) (ss_written y))) /\ off = zlen (sent y) /\
  fin = sendFin (ss_send y) && negb closed && (zlen (sent y) + zlen data =? zlen (ss_written y)) /\
  sendFin s = sendFin (ss_send y) /\ sendClosed s = closed /\ stalledSend s = Z.max 0 (stalledSend (ss_send y) - zlen data).
Proof.
  intros [H1 H2 H3 H4 H5 H6 H7 H8] Hn. unfold drainSendBuf. destruct (sendReset (ss_send y)) eqn:Er; [rewrite (H4 eq_refl); destruct (H3 (H4 eq_refl)) as [Eb _]; rewrite Eb in *; rewrite andb_false_r; change (zlen (@nil Z)) with 0 in *; split_and!; try done; try lia; unfold zlen; cbn [length]; lia |].
  destruct (sendClosed (ss_send y)) eqn:Ec; [destruct (H3 eq_refl) as [Eb _]; rewrite Eb in *; cbn [negb]; rewrite !andb_false_r; change (zlen (@nil Z)) with 0 in *; change (0 =? 0) with true; cbv iota beta zeta; split_and!; try done; try lia; unfold zlen; cbn [length]; lia |]. rewrite (H2 eq_refl), zdrop_app_exact, zlen_app. cbn [negb]. rewrite andb_true_r.
  destruct (zlen (sendBuf (ss_send y)) =? 0) eqn:Ez; [assert (Eb : sendBuf (ss_send y) = []) by (destruct (sendBuf (ss_send y)); [done | rewrite zlen_cons in Ez; pose proof (zlen_nonneg l); lia]); rewrite Eb in *; change (zlen (@nil Z)) with 0 in *; destruct (sendFin (ss_send y)) eqn:Ef; cbn [andb]; rewrite ?Ef; unfold ztake; rewrite take_nil; change (zlen (@nil Z)) with 0; split_and!; try done; try lia; unfold zlen; cbn [length]; lia |].
  set (m := if n <? zlen (sendBuf (ss_send y)) then n else zlen (sendBuf (ss_send y))). assert (Hm : 0 <= m <= zlen (sendBuf (ss_send y)) /\ ztake m (sendBuf (ss_send y)) = ztake n (sendBuf (ss_send y))) by (unfold m; destruct (n <? zlen (sendBuf (ss_send y))) eqn:E; [split; [lia | done] |]; pose proof (zlen_nonneg (sendBuf (ss_send y))); split; [lia | unfold ztake; rewrite !take_ge by (unfold zlen in *; lia); done]).
  destruct Hm as [Hm Em]. clearbody m. assert (El : zlen (ztake n (sendBuf (ss_send y))) = m) by (rewrite <- Em, zlen_take by lia; lia). rewrite <- Em in El |- *. unfold releaseStalledLocked. cbn [stalledSend sendBuf sendOff sendFin sendClosed sendReset].
  destruct (0 <? stalledSend (ss_send y)) eqn:E1; [destruct (Z.min m (stalledSend (ss_send y)) <=? 0) eqn:E2 |]; cbn [stalledSend sendBuf sendFin sendClosed]; rewrite zlen_drop by lia; rewrite ?El; (split_and!; [done | done | f_equal; lia | done | done | lia]).
Qed.

Lemma exec_exact k0 y op tracked : send_inv k0 y -> sendop_ok op -> held y tracked ->
  sendFin (ss_send (send_exec y op)) = sendFin (ss_send y) || isFinish op /\ sendClosed (ss_send (send_exec y op)) = sendClosed (ss_send y) || isAbandon op /\
  held (send_exec y op) (match op with STrack _ _ => zlen (ss_written y) | _ => tracked end).
Proof.
  intros Hi Hop Hh. pose proof Hi as [H1 H2 H3 H4 H5 H6 H7 H8]. unfold held in *. destruct op as [data | | now | now | cap now | now n]; cbn [send_exec isFinish isAbandon]; rewrite ?orb_false_r, ?orb_true_r.
  - unfold Write. destruct (sendClosed (ss_send y)) eqn:Ec; [cbn [orb]; rewrite Ec; by split_and! |]. destruct (sendFin (ss_send y)) eqn:Ef; cbn [orb]; [rewrite Ec, Ef; by split_and! |]. cbn [ss_send sendFin sendClosed stalledSend]. split_and!; [done | done |]. intros _. by apply Hh.
  - cbn [ss_send FinishWrite sendFin sendClosed stalledSend]. by split_and!.
  - unfold closeSend, abandon, releaseStalledLocked. destruct (_ <=? 0); by cbn.
  - unfold resetSend. destruct (sendReset (ss_send y)) eqn:Er; [cbn; by rewrite (H4 eq_refl) |]. unfold abandon, releaseStalledLocked. destruct (_ <=? 0); by cbn.
  - unfold trackStalledSend, beginStalledAccounting. assert (Hw : sendClosed (ss_send y) = false -> zlen (ss_written y) = zlen (sent y) + zlen (sendBuf (ss_send y))) by (intros Hc; by rewrite (H2 Hc), zlen_app). destruct (_ <=? 0) eqn:E.
    + cbn. split_and!; [done | done |]. intros Hc. change (concat (map ck_data (ss_chunks y))) with (sent y). change (stalledSend (ss_send y) = Z.max 0 (zlen (ss_written y) - zlen (sent y))). rewrite (Hw Hc). lia.
    + replace (_ =? 0) with false by lia. destruct (_ =? _); cbn; (split_and!; [done | done |]; intros Hc; match goal with |- ?l = _ => change (l = Z.max 0 (zlen (ss_written y) - zlen (sent y))) end; rewrite (Hw Hc); lia).
  - cbn [sendop_ok] in Hop. pose proof (drain_exact k0 y now n Hi Hop) as Hd. destruct (drainSendBuf _ _ _ _) as [[[[data off] fin] k] s]. destruct Hd as (_ & _ & _ & D1 & D2 & D3). cbn [ss_send]. rewrite D1, D2. split_and!; [done | done |]. intros Hc. unfold sent. cbn [ss_chunks]. rewrite sent_snoc, zlen_app, D3, (Hh Hc). pose proof (zlen_nonneg data). cbn [ck_data]. lia.
Qed.

Lemma run_exact k0 ops : forall y tracked, send_inv k0 y -> held y tracked -> Forall sendop_ok ops -> zlen (ss_written y) + total_bytes ops < 2 ^ 64 ->
  sendFin (ss_send (send_run y ops)) = sendFin (ss_send y) || existsb isFinish ops /\ sendClosed (ss_send (send_run y ops)) = sendClosed (ss_send y) || existsb isAbandon ops /\
  held (send_run y ops) (trackedAfter y tracked ops).
Proof.
  induction ops as [| op ops IH]; intros y tracked Hi Hh Hops Hb; cbn [send_run fold_left existsb trackedAfter]; [by rewrite !orb_false_r |]. apply Forall_cons_1 in Hops as [Ho Hops]. pose proof (total_bytes_nonneg ops). cbn [total_bytes] in Hb. assert (0 <= op_bytes op) by (destruct op; cbn; try lia; apply zlen_nonneg).
  destruct (exec_exact k0 y op tracked Hi Ho Hh) as (E1 & E2 & Hh'). destruct (IH (send_exec y op) _ (send_exec_inv k0 y op Hi Ho ltac:(lia)) Hh' Hops) as (F1 & F2 & F3); [pose proof (send_exec_written y op); lia |]. fold (send_run (send_exec y op) ops). rewrite F1, F2, E1, E2, <- !orb_assoc. done.
Qed.

(** C36: on the send side, whatever the interleaving of writes, drains with any
    limits, stall accounting, finish, reset and close: the drained chunks are
    contiguous from offset 0 and spell a prefix of what the writer handed in
    (all of it but the buffer while the stream is open), and FIN is on a chunk
    only if every written byte is sent with or before it. The next drain takes
    exactly the next bytes, as many as its limit allows, and carries FIN exactly
    when the writer has finished, nobody has reset or closed the stream and these
    are the last bytes: so FIN is sent once the buffer is drained. The bytes held
    back as stalled are exactly those that were written when the accounting last
    ran and are not drained yet, none after a reset or close, and the connection's
    counter is off by just that. *)
Theorem send_stream_exact (k : stallState) (ops : list sendOp) :
  Forall sendop_ok ops -> total_bytes ops < 2 ^ 64 ->
  let y := send_run (newSendSys k) ops in
  let finished := existsb isFinish ops in
  let abandoned := existsb isAbandon ops in
  chunks_ok 0 (ss_written y) (ss_chunks y) /\ sent y `prefix_of` ss_written y /\
  sendFin (ss_send y) = finished /\ sendClosed (ss_send y) = abandoned /\
  (abandoned = false -> ss_written y = sent y ++ sendBuf (ss_send y)) /\
  (forall now n, 0 <= n ->
    let '(data, off, fin, _, _) := drainSendBuf now (ss_stall y) (ss_send y) n in
    data = (if abandoned then [] else ztake n (zdrop (zlen (sent y)) (ss_written y))) /\ off = zlen (sent y) /\
    fin = finished && negb abandoned && (zlen (sent y) + zlen data =? zlen (ss_written y))) /\
  stalledSend (ss_send y) = (if abandoned then 0 else Z.max 0 (trackedAfter (newSendSys k) 0 ops - zlen (sent y))) /\
  stalledSendBytes (ss_stall y) = stalledSendBytes k + stalledSend (ss_send y).
Proof.
  intros Hops Hb y finished abandoned. assert (Hi0 : send_inv (stalledSendBytes k) (newSendSys k)) by (constructor; cbn; try done; try lia; intros He; inversion He).
  assert (Hi : send_inv (stalledSendBytes k) y) by (by apply send_run_inv). destruct (run_exact _ ops (newSendSys k) 0 Hi0 ltac:(done) Hops Hb) as (F1 & F2 & F3). cbn [newSendSys ss_send newSendSide sendFin sendClosed orb] in F1, F2. fold y in F1, F2, F3. fold finished in F1. fold abandoned in F2.
  pose proof Hi as [H1 H2 H3 H4 H5 H6 H7 H8]. split; [done |]. split; [destruct (sendClosed (ss_send y)); [by apply H3 |]; rewrite H2 by done; by eexists |]. split; [done |]. split; [done |]. split; [rewrite <- F2; exact H2 |]. split; [| split; [| done]].
  - intros now n Hn. pose proof (drain_exact _ y now n Hi Hn) as Hd. destruct (drainSendBuf _ _ _ _) as [[[[data off] fin] k'] s']. destruct Hd as (D1 & D2 & D3 & _). rewrite F1, F2 in *. by split_and!.
  - unfold held in F3. rewrite F2 in *. destruct abandoned; [| by apply F3]. destruct (H3 eq_refl) as [Eb _]. rewrite Eb in H7. change (zlen (@nil Z)) with 0 in H7. lia.
Qed.

Definition demo_send : list sendOp :=
  [SWrite [1; 2; 3]; SDrain 0 2; STrack 100 7; SWrite [4]; SFinish; SDrain 8 1; SDrain 9 50].

Lemma send_stream_exact_witness :
  let y := send_run (newSendSys {| stalledSendBytes := 0; lastSendProgress := 0 |}) demo_send in
  let y1 := send_run (newSendSys {| stalledSendBytes := 0; lastSendProgress := 0 |}) (take 4 demo_send) in
  map ck_off (ss_chunks y) = [0; 2; 3] /\ map ck_fin (ss_chunks y) = [false; false; true] /\
  chunks_ok 0 [1; 2; 3; 4] (ss_chunks y) /\ stalledSend (ss_send y1) = 1.
Proof.
  split; [reflexivity |]. split; [reflexivity |].
  assert (Hop : Forall sendop_ok demo_send) by (unfold demo_send; repeat (apply Forall_cons_2; [cbn; done || lia |]); apply Forall_nil_2).
  destruct (send_stream_exact {| stalledSendBytes := 0; lastSendProgress := 0 |} demo_send Hop ltac:(vm_compute; reflexivity)) as (H1 & _).
  destruct (send_stream_exact {| stalledSendBytes := 0; lastSendProgress := 0 |} (take 4 demo_send) ltac:(by apply Forall_take) ltac:(vm_compute; reflexivity)) as (_ & _ & _ & _ & _ & _ & H2 & _).
  split; [exact H1 | rewrite H2; vm_compute; reflexivity].
Defined.
