(* ===== verification/QuicLoss.v ===== *)
(** Loss detection and congestion control of a QUIC connection
    (src/core/quic_loss.go). The state is shared under one mutex, so each
    operation is one step; [turbo.Now] is the argument [now], a span of
    nanoseconds. Durations stay below 2^49 ns (six days), where the product
    with the constant 9/8 in float64 is exact and the conversion back rounds
    towards zero; [framesBuf] only recycles memory. *)
From stdpp Require Import base list numbers.
From Stdlib Require Import ZArith Lia ZifyBool Permutation.
From S2P Require Import Prelude QuicVarint QuicFrame QuicAck.

(** ** Constants *)

Definition quicMaxPacketSize : Z := 1200.
Definition quicInitialRTT : Z := 100 * 10 ^ 6.
Definition quicMaxAckDelay : Z := 25 * 10 ^ 6.
Definition quicTimerGranularity : Z := 10 ^ 6.
Definition quicPktThreshold : Z := 3.
Definition quicMaxTrackedSent : Z := 16384.
Definition quicSendTimeLogEntries : Z := 128.
Definition quicInitialWindow : Z := 10 * quicMaxPacketSize.
Definition quicSpaceAppData : nat := 2.
Definition maxUint64 : Z := 2 ^ 64 - 1.

(** ** The log of send times *)

Record quicSendTime := { st_pn : Z; st_at_time : Z }.

Record quicSendTimeLog := { entries : list quicSendTime; written : Z; lastAt : Z }.

Definition newSendTimeLog : quicSendTimeLog :=
  {| entries := replicate (Z.to_nat quicSendTimeLogEntries) {| st_pn := 0; st_at_time := 0 |}; written := 0; lastAt := 0 |}.

Definition log_record (l : quicSendTimeLog) (pn at_ : Z) : quicSendTimeLog :=
  if at_ =? lastAt l then l else
  {| entries := <[Z.to_nat (written l mod quicSendTimeLogEntries) := {| st_pn := pn; st_at_time := at_ |}]> (entries l);
     written := u64 (written l + 1); lastAt := at_ |}.

(** The scan of [sentAt] over the last [n] entries, newest first: the entry
    looked at is number [i - 1]. *)
Fixpoint sentAtScan (l : quicSendTimeLog) (n : nat) (i pn : Z) : option Z :=
  match n with
  | O => None
  | S n =>
      match entries l !! Z.to_nat ((i - 1) mod quicSendTimeLogEntries) with
      | Some e => if st_pn e <=? pn then Some (st_at_time e) else sentAtScan l n (i - 1) pn
      | None => None
      end
  end.

Definition sentAt (l : quicSendTimeLog) (pn : Z) : option Z :=
  sentAtScan l (Z.to_nat (Z.min (written l) quicSendTimeLogEntries)) (written l) pn.

(** ** State *)

Record quicAckTally := {
  largest : Z;
  largestSent : Z;
  ackedInFlight : Z;
  largestTracked : bool;
  anyAcked : bool;
}.

Record quicSentPacket := {
  sp_pn : Z;
  sp_sent : Z;
  sp_size : Z;
  sp_ackElicit : bool;
  sp_frames : bytes;
  sp_inFlight : bool;
}.

Record quicLossState := {
  smoothedRTT : Z;
  rttVar : Z;
  minRTT : Z;
  firstRTTDone : bool;
  largestAcked : list Z;
  sent : list (list quicSentPacket);
  bytesInFlight : Z;
  cwnd : Z;
  ssthresh : Z;
  ptoCount : Z;
  peerMaxAckDelay : Z;
  appSendTimes : quicSendTimeLog;
}.

(** [ls.sent[space]] and [ls.largestAcked[space]] of the three spaces. *)
Definition sent_of (ls : quicLossState) (space : nat) : list quicSentPacket := nth space (sent ls) [].
Definition largest_of (ls : quicLossState) (space : nat) : Z := nth space (largestAcked ls) (-1).

Definition set_sent (ls : quicLossState) (space : nat) (pkts : list quicSentPacket) (inFlight : Z) : quicLossState :=
  {| smoothedRTT := smoothedRTT ls; rttVar := rttVar ls; minRTT := minRTT ls; firstRTTDone := firstRTTDone ls;
     largestAcked := largestAcked ls; sent := <[space := pkts]> (sent ls); bytesInFlight := inFlight; cwnd := cwnd ls;
     ssthresh := ssthresh ls; ptoCount := ptoCount ls; peerMaxAckDelay := peerMaxAckDelay ls;
     appSendTimes := appSendTimes ls |}.
Definition set_cwnd (ls : quicLossState) (w th : Z) : quicLossState :=
  {| smoothedRTT := smoothedRTT ls; rttVar := rttVar ls; minRTT := minRTT ls; firstRTTDone := firstRTTDone ls;
     largestAcked := largestAcked ls; sent := sent ls; bytesInFlight := bytesInFlight ls; cwnd := w; ssthresh := th;
     ptoCount := ptoCount ls; peerMaxAckDelay := peerMaxAckDelay ls; appSendTimes := appSendTimes ls |}.
Definition set_rtt (ls : quicLossState) (s v m : Z) (fst : bool) : quicLossState :=
  {| smoothedRTT := s; rttVar := v; minRTT := m; firstRTTDone := fst; largestAcked := largestAcked ls;
     sent := sent ls; bytesInFlight := bytesInFlight ls; cwnd := cwnd ls; ssthresh := ssthresh ls;
     ptoCount := ptoCount ls; peerMaxAckDelay := peerMaxAckDelay ls; appSendTimes := appSendTimes ls |}.
Definition set_largest (ls : quicLossState) (space : nat) (pn : Z) : quicLossState :=
  {| smoothedRTT := smoothedRTT ls; rttVar := rttVar ls; minRTT := minRTT ls; firstRTTDone := firstRTTDone ls;
     largestAcked := <[space := pn]> (largestAcked ls); sent := sent ls; bytesInFlight := bytesInFlight ls;
     cwnd := cwnd ls; ssthresh := ssthresh ls; ptoCount := ptoCount ls; peerMaxAckDelay := peerMaxAckDelay ls;
     appSendTimes := appSendTimes ls |}.
Definition set_pto (ls : quicLossState) (n : Z) : quicLossState :=
  {| smoothedRTT := smoothedRTT ls; rttVar := rttVar ls; minRTT := minRTT ls; firstRTTDone := firstRTTDone ls;
     largestAcked := largestAcked ls; sent := sent ls; bytesInFlight := bytesInFlight ls; cwnd := cwnd ls;
     ssthresh := ssthresh ls; ptoCount := n; peerMaxAckDelay := peerMaxAckDelay ls; appSendTimes := appSendTimes ls |}.
Definition set_log (ls : quicLossState) (l : quicSendTimeLog) : quicLossState :=
  {| smoothedRTT := smoothedRTT ls; rttVar := rttVar ls; minRTT := minRTT ls; firstRTTDone := firstRTTDone ls;
     largestAcked := largestAcked ls; sent := sent ls; bytesInFlight := bytesInFlight ls; cwnd := cwnd ls;
     ssthresh := ssthresh ls; ptoCount := ptoCount ls; peerMaxAckDelay := peerMaxAckDelay ls; appSendTimes := l |}.

Definition newQuicLossState : quicLossState :=
  {| smoothedRTT := quicInitialRTT; rttVar := quicInitialRTT ÷ 2; minRTT := 0; firstRTTDone := false;
     largestAcked := [-1; -1; -1]; sent := [[]; []; []]; bytesInFlight := 0; cwnd := quicInitialWindow;
     ssthresh := maxUint64; ptoCount := 0; peerMaxAckDelay := quicMaxAckDelay; appSendTimes := newSendTimeLog |}.

Definition setPeerMaxAckDelay (ls : quicLossState) (d : Z) : quicLossState :=
  {| smoothedRTT := smoothedRTT ls; rttVar := rttVar ls; minRTT := minRTT ls; firstRTTDone := firstRTTDone ls;
     largestAcked := largestAcked ls; sent := sent ls; bytesInFlight := bytesInFlight ls; cwnd := cwnd ls;
     ssthresh := ssthresh ls; ptoCount := ptoCount ls; peerMaxAckDelay := d; appSendTimes := appSendTimes ls |}.

(** ** Operations *)

(** The code notes the time of the packet just before it takes the lock; here the
    operation is one step. The log of send times is read for the RTT only. *)
Definition onPacketSent (now : Z) (ls : quicLossState) (space : nat) (pn size : Z) (ackElicit : bool) (frames : bytes) : quicLossState :=
  let ls := if Nat.eqb space quicSpaceAppData then set_log ls (log_record (appSendTimes ls) pn now) else ls in
  if negb ackElicit then ls else
  set_sent ls space
    (sent_of ls space ++
     [{| sp_pn := pn; sp_sent := now; sp_size := size; sp_ackElicit := ackElicit; sp_frames := frames; sp_inFlight := ackElicit |}])
    (bytesInFlight ls + size).

(** The loop of [markAcked] over [ls.sent[space]]: what is left, the bytes
    still in flight and the tally. *)
Fixpoint markAckedLoop (lo hi : Z) (pkts : list quicSentPacket) (inFlight : Z) (t : quicAckTally) :
    list quicSentPacket * Z * quicAckTally :=
  match pkts with
  | [] => ([], inFlight, t)
  | sp :: pkts =>
      if (lo <=? sp_pn sp) && (sp_pn sp <=? hi) then
        let '(inFlight, acked) :=
          if sp_inFlight sp then (inFlight - sp_size sp, u64 (ackedInFlight t + sp_size sp)) else (inFlight, ackedInFlight t) in
        let '(lsent, ltracked) :=
          if sp_pn sp =? largest t then (sp_sent sp, true) else (largestSent t, largestTracked t) in
        markAckedLoop lo hi pkts inFlight
          {| largest := largest t; largestSent := lsent; ackedInFlight := acked; largestTracked := ltracked; anyAcked := true |}
      else
        let '(rest, inFlight, t) := markAckedLoop lo hi pkts inFlight t in (sp :: rest, inFlight, t)
  end.

Definition markAcked (ls : quicLossState) (space : nat) (lo hi : Z) (t : quicAckTally) : quicLossState * quicAckTally :=
  let '(rest, inFlight, t) := markAckedLoop lo hi (sent_of ls space) (bytesInFlight ls) t in
  (set_sent ls space rest inFlight, t).

(** The loop over the ranges of the ACK frame. *)
Fixpoint ackRangesLoop (ls : quicLossState) (space : nat) (lo : Z) (ranges : list quicAckRange) (t : quicAckTally) :
    quicLossState * quicAckTally :=
  match ranges with
  | [] => (ls, t)
  | r :: ranges =>
      if lo <? u64 (ar_gap r + 2) then (ls, t) else
      let hi := lo - ar_gap r - 2 in
      if hi <? ar_count r then (ls, t) else
      let lo := hi - ar_count r in
      let '(ls, t) := markAcked ls space lo hi t in
      ackRangesLoop ls space lo ranges t
  end.

Definition largestAckedSentTime (ls : quicLossState) (space : nat) (t : quicAckTally) (newlyLargest : bool) : option Z :=
  if negb (anyAcked t) then None
  else if largestTracked t then Some (largestSent t)
  else if newlyLargest && Nat.eqb space quicSpaceAppData then sentAt (appSendTimes ls) (largest t)
  else None.

Definition updateRTT (ls : quicLossState) (latestRTT ackDelay : Z) : quicLossState :=
  let m := if (minRTT ls =? 0) || (latestRTT <? minRTT ls) then latestRTT else minRTT ls in
  if negb (firstRTTDone ls) then set_rtt ls latestRTT (latestRTT ÷ 2) m true else
  let adjustedRTT := if m + ackDelay <=? latestRTT then latestRTT - ackDelay else latestRTT in
  let diff := smoothedRTT ls - adjustedRTT in
  let diff := if diff <? 0 then - diff else diff in
  set_rtt ls ((7 * smoothedRTT ls + adjustedRTT) ÷ 8) ((3 * rttVar ls + diff) ÷ 4) m true.

(** [None] is [errQUICAckUnsentPacket]. *)
Definition onAckReceived (now : Z) (ls : quicLossState) (space : nat) (ack : quicAckFrame) (ackDelay nextPN : Z) :
    option (bool * quicLossState) :=
  if af_largestAck ack <? af_firstRange ack then Some (false, ls) else
  if nextPN <=? af_largestAck ack then None else
  let newlyLargest := largest_of ls space <? af_largestAck ack in
  let ls := if newlyLargest then set_largest ls space (af_largestAck ack) else ls in
  let t := {| largest := af_largestAck ack; largestSent := 0; ackedInFlight := 0; largestTracked := false; anyAcked := false |} in
  let lo := af_largestAck ack - af_firstRange ack in
  let '(ls, t) := markAcked ls space lo (af_largestAck ack) t in
  let '(ls, t) := ackRangesLoop ls space lo (af_ranges ack) t in
  let ls :=
    match largestAckedSentTime ls space t newlyLargest with
    | Some at_ => updateRTT ls (Z.max (now - at_) quicTimerGranularity) ackDelay
    | None => ls
    end in
  let ls :=
    if 0 <? ackedInFlight t then
      if cwnd ls <? ssthresh ls then set_cwnd ls (u64 (cwnd ls + ackedInFlight t)) (ssthresh ls)
      else set_cwnd ls (u64 (cwnd ls + u64 (quicMaxPacketSize * ackedInFlight t) / cwnd ls)) (ssthresh ls)
    else ls in
  let ls := set_pto ls 0 in
  Some (match sent_of ls space with sp :: _ => sp_pn sp <=? largest_of ls space | [] => false end, ls).

Fixpoint discardLoop (pkts : list quicSentPacket) (inFlight : Z) : Z :=
  match pkts with
  | [] => inFlight
  | sp :: pkts => discardLoop pkts (if sp_inFlight sp then inFlight - sp_size sp else inFlight)
  end.

Definition discardSpace (ls : quicLossState) (space : nat) : quicLossState :=
  set_sent ls space [] (discardLoop (sent_of ls space) (bytesInFlight ls)).

(** The loops of [detectLost] and [ptoExpiredFrames] share their shape: the
    packets [drop] selects leave, their frames are returned. *)
Fixpoint expireLoop (drop : quicSentPacket -> bool) (pkts : list quicSentPacket) (inFlight : Z) (had : bool) (frames : list bytes) :
    list quicSentPacket * Z * bool * list bytes :=
  match pkts with
  | [] => ([], inFlight, had, frames)
  | sp :: pkts =>
      if drop sp then
        let '(inFlight, had) := if sp_inFlight sp then (inFlight - sp_size sp, true) else (inFlight, had) in
        let frames := if 0 <? zlen (sp_frames sp) then frames ++ [sp_frames sp] else frames in
        expireLoop drop pkts inFlight had frames
      else
        let '(rest, inFlight, had, frames) := expireLoop drop pkts inFlight had frames in
        (sp :: rest, inFlight, had, frames)
  end.

Definition lossDelay (ls : quicLossState) : Z :=
  Z.max ((Z.max (smoothedRTT ls) (minRTT ls) * 9) ÷ 8) quicTimerGranularity.

Definition loss_threshold (la : Z) : Z :=
  if quicPktThreshold <? u64 (la + 1) then la - quicPktThreshold + 1 else 0.

Definition is_lost (la threshold cutoff : Z) (sp : quicSentPacket) : bool :=
  (sp_pn sp <=? la) && ((sp_pn sp <? threshold) || (sp_sent sp <? cutoff)).

Definition detectLost (now : Z) (ls : quicLossState) (space : nat) (lostFrames : list bytes) : list bytes * quicLossState :=
  let la := largest_of ls space in
  if la <? 0 then (lostFrames, ls) else
  let threshold := loss_threshold la in
  let cutoff := now - lossDelay ls in
  let '(rest, inFlight, hadLoss, lostFrames) :=
    expireLoop (is_lost la threshold cutoff) (sent_of ls space) (bytesInFlight ls) false lostFrames in
  let ls := set_sent ls space rest inFlight in
  let ls :=
    if hadLoss then
      let th := cwnd ls / 2 in
      let th := if th <? 2 * quicMaxPacketSize then 2 * quicMaxPacketSize else th in
      set_cwnd ls th th
    else ls in
  (lostFrames, ls).

Definition detectLostPackets (now : Z) (ls : quicLossState) (space : nat) : list bytes * quicLossState :=
  detectLost now ls space [].

Definition resetForNewPath (ls : quicLossState) : quicLossState :=
  set_pto (set_cwnd (set_rtt ls quicInitialRTT (quicInitialRTT ÷ 2) 0 false) quicInitialWindow maxUint64) 0.

(** [1 << n] at type [int64]. *)
Definition shl1 (n : Z) : Z := if n <? 64 then i64 (Z.shiftl 1 n) else 0.

Definition ptoTimeout (ls : quicLossState) : Z :=
  let pto := smoothedRTT ls + Z.max (4 * rttVar ls) quicTimerGranularity + peerMaxAckDelay ls in
  i64 (pto * shl1 (ptoCount ls)).

Definition hasSentPackets (ls : quicLossState) (space : nat) : bool := 0 <? zlen (sent_of ls space).

Definition canSend (ls : quicLossState) : bool :=
  (u64 (bytesInFlight ls) <? cwnd ls) && (zlen (sent_of ls quicSpaceAppData) <? quicMaxTrackedSent).

Definition largestAckedPN (ls : quicLossState) (space : nat) : Z := largest_of ls space.

Definition ptoExpiredFrames (now : Z) (ls : quicLossState) (space : nat) : list bytes * quicLossState :=
  match sent_of ls space with
  | [] => ([], ls)
  | sp0 :: _ =>
      let cutoff := now - ptoTimeout ls in
      if cutoff <=? sp_sent sp0 then ([], ls) else
      let '(rest, inFlight, _, frames) :=
        expireLoop (fun sp => sp_ackElicit sp && (sp_sent sp <? cutoff)) (sent_of ls space) (bytesInFlight ls) false [] in
      let ls := set_sent ls space rest inFlight in
      (frames, if 0 <? zlen frames then set_pto ls (ptoCount ls + 1) else ls)
  end.
