(* ===== verification/QuicLossProofs.v ===== *)
(** Theorems about loss detection and congestion control: the in-flight
    count is exact, the window keeps its floor and never wraps, no frame is
    dropped without being acknowledged, returned for retransmission or
    discarded with its space, the ACK frames the receiver builds acknowledge
    exactly the packets they name, and the RTT estimates stay in bounds. *)
From stdpp Require Import base list numbers.
From Stdlib Require Import ZArith Lia ZifyBool Permutation.
From S2P Require Import Prelude QuicVarint QuicFrame QuicAck QuicLoss.

(** ** Sums over packets *)

Definition flight (sp : quicSentPacket) : Z := if sp_inFlight sp then sp_size sp else 0.
Fixpoint flight_sum (pkts : list quicSentPacket) : Z :=
  match pkts with [] => 0 | sp :: pkts => flight sp + flight_sum pkts end.
Fixpoint flight_total (spaces : list (list quicSentPacket)) : Z :=
  match spaces with [] => 0 | p :: spaces => flight_sum p + flight_total spaces end.

Definition pkt_ok (sp : quicSentPacket) : Prop := 0 <= sp_size sp.

Definition keep (f : quicSentPacket -> bool) (pkts : list quicSentPacket) : list quicSentPacket :=
  List.filter (fun sp => negb (f sp)) pkts.
Definition take_out (f : quicSentPacket -> bool) (pkts : list quicSentPacket) : list quicSentPacket := List.filter f pkts.

(** The frames worth keeping of a list of packets. *)
Definition payloads (pkts : list quicSentPacket) : list bytes :=
  List.filter (fun b => 0 <? zlen b) (map sp_frames pkts).

Lemma flight_sum_app a b : flight_sum (a ++ b) = flight_sum a + flight_sum b.
Proof. induction a as [|sp a IH]; cbn; lia. Qed.

Lemma flight_nonneg sp : pkt_ok sp -> 0 <= flight sp.
Proof. unfold flight, pkt_ok. destruct (sp_inFlight sp); lia. Qed.

Lemma flight_sum_nonneg pkts : Forall pkt_ok pkts -> 0 <= flight_sum pkts.
Proof. induction 1 as [|sp pkts Hsp _ IH]; cbn; [lia |]. pose proof (flight_nonneg sp Hsp). lia. Qed.

Lemma flight_sum_split f pkts : flight_sum pkts = flight_sum (take_out f pkts) + flight_sum (keep f pkts).
Proof. induction pkts as [|sp pkts IH]; cbn; [done |]. destruct (f sp); cbn; unfold take_out, keep in IH; lia. Qed.

Lemma payloads_app a b : payloads (a ++ b) = payloads a ++ payloads b.
Proof. unfold payloads. by rewrite map_app, List.filter_app. Qed.

Lemma payloads_split f pkts : Permutation (payloads pkts) (payloads (keep f pkts) ++ payloads (take_out f pkts)).
Proof.
  rewrite <- payloads_app. unfold payloads.
  assert (Hp : Permutation pkts (keep f pkts ++ take_out f pkts)).
  { induction pkts as [|sp pkts IH]; cbn; [done |]. destruct (f sp); cbn; [by apply Permutation_cons_app |].
    by apply perm_skip. }
  revert Hp. generalize (keep f pkts ++ take_out f pkts). intros l Hp.
  apply (Permutation_map sp_frames) in Hp. induction Hp; cbn; repeat (destruct (0 <? _)); eauto using Permutation.
Qed.

Lemma keep_ok f pkts : Forall pkt_ok pkts -> Forall pkt_ok (keep f pkts).
Proof. induction 1 as [|sp pkts Hsp _ IH]; cbn; [done |]. destruct (f sp); cbn; [done |]. by constructor. Qed.
Lemma take_out_ok f pkts : Forall pkt_ok pkts -> Forall pkt_ok (take_out f pkts).
Proof. induction 1 as [|sp pkts Hsp _ IH]; cbn; [done |]. destruct (f sp); [by constructor | done]. Qed.

Lemma keep_keep f h pkts : keep h (keep f pkts) = keep (fun sp => f sp || h sp) pkts.
Proof.
  unfold keep. induction pkts as [|sp pkts IH]; cbn; [done |].
  destruct (f sp); cbn; [exact IH |]. destruct (h sp); cbn; [exact IH | by rewrite IH].
Qed.

Lemma keep_ext f h pkts : (forall sp, f sp = h sp) -> keep f pkts = keep h pkts.
Proof. intros He. unfold keep. apply List.filter_ext. intros sp. by rewrite He. Qed.

(** ** The loops *)

Definition in_block (lo hi : Z) (sp : quicSentPacket) : bool := (lo <=? sp_pn sp) && (sp_pn sp <=? hi).

Lemma markAckedLoop_spec lo hi pkts : forall inFlight t rest inFlight' t',
  markAckedLoop lo hi pkts inFlight t = (rest, inFlight', t') -> Forall pkt_ok pkts ->
  0 <= ackedInFlight t -> ackedInFlight t + flight_sum pkts < 2 ^ 64 ->
  rest = keep (in_block lo hi) pkts /\ inFlight' = inFlight - flight_sum (take_out (in_block lo hi) pkts) /\
  ackedInFlight t' = ackedInFlight t + flight_sum (take_out (in_block lo hi) pkts) /\ largest t' = largest t.
Proof.
  induction pkts as [|sp pkts IH]; intros inFlight t rest inFlight' t' E Hok Ht Hb; cbn [markAckedLoop] in E.
  { simplify_eq. cbn. repeat split; lia. }
  apply Forall_cons_1 in Hok as [Hsp Hok]. pose proof (flight_nonneg sp Hsp). pose proof (flight_sum_nonneg _ Hok).
  unfold keep, take_out. cbn [List.filter flight_sum] in *. fold (in_block lo hi sp) in E.
  destruct (in_block lo hi sp) eqn:Hin; cbn [negb flight_sum].
  - unfold flight in Hb, H |- *.
    destruct (sp_inFlight sp); [rewrite (u64_small (ackedInFlight t + sp_size sp)) in E by (unfold pkt_ok in Hsp; lia) |];
      destruct (sp_pn sp =? largest t); apply IH in E as (H1 & H2 & H3 & H4); cbn in *; try done; try lia;
      unfold keep, take_out in *; repeat split; try done; lia.
  - destruct (markAckedLoop lo hi pkts inFlight t) as [[rest1 fl1] t1] eqn:E1. simplify_eq.
    apply IH in E1 as (H1 & H2 & H3 & H4); [| done | done | lia]. unfold keep, take_out in *. by rewrite H1.
Qed.

Lemma expireLoop_spec f pkts : forall inFlight had frames rest inFlight' had' frames',
  expireLoop f pkts inFlight had frames = (rest, inFlight', had', frames') ->
  rest = keep f pkts /\ inFlight' = inFlight - flight_sum (take_out f pkts) /\
  frames' = frames ++ payloads (take_out f pkts) /\ (had' = true -> had = true \/ take_out f pkts <> []).
Proof.
  induction pkts as [|sp pkts IH]; intros inFlight had frames rest inFlight' had' frames' E; cbn [expireLoop] in E.
  { simplify_eq. cbn. rewrite app_nil_r. repeat split; [lia | auto]. }
  unfold keep, take_out, payloads in *. cbn [List.filter]. destruct (f sp) eqn:Hf; cbn [negb flight_sum map List.filter].
  - unfold flight. destruct (sp_inFlight sp); apply IH in E as (-> & -> & -> & Hh);
      (split; [done |]; split; [lia |]; split; [| by auto]);
      destruct (0 <? zlen (sp_frames sp)); by rewrite <- ?app_assoc.
  - destruct (expireLoop f pkts inFlight had frames) as [[[rest1 fl1] had1] fr1] eqn:E1. simplify_eq.
    apply IH in E1 as (-> & -> & -> & Hh). done.
Qed.

Lemma discardLoop_spec pkts : forall inFlight, discardLoop pkts inFlight = inFlight - flight_sum pkts.
Proof.
  induction pkts as [|sp pkts IH]; intros inFlight; cbn [discardLoop flight_sum]; [lia |].
  rewrite IH. unfold flight. destruct (sp_inFlight sp); lia.
Qed.

(** ** Spaces *)

Lemma flight_total_insert spaces k old pkts : spaces !! k = Some old ->
  flight_total (<[k := pkts]> spaces) = flight_total spaces - flight_sum old + flight_sum pkts.
Proof.
  revert k. induction spaces as [|p spaces IH]; intros [|k] Hk; simplify_eq/=; [lia |].
  rewrite (IH k) by done. lia.
Qed.

Lemma flight_total_ge spaces k old : spaces !! k = Some old -> Forall (Forall pkt_ok) spaces ->
  0 <= flight_sum old <= flight_total spaces.
Proof.
  revert k. induction spaces as [|p spaces IH]; intros [|k] Hk Hok; cbn in *; [done | done | |];
    apply Forall_cons_1 in Hok as [Hp Hok]; pose proof (flight_sum_nonneg _ Hp).
  - simplify_eq. assert (0 <= flight_total spaces).
    { clear IH. induction Hok as [|q spaces Hq _ IH]; cbn; [lia |]. pose proof (flight_sum_nonneg _ Hq). lia. }
    lia.
  - specialize (IH k Hk Hok). lia.
Qed.

Lemma payloads_insert spaces k old pkts out : spaces !! k = Some old ->
  Permutation (payloads old) (payloads pkts ++ out) ->
  Permutation (payloads (concat spaces)) (payloads (concat (<[k := pkts]> spaces)) ++ out).
Proof.
  revert k. induction spaces as [|p spaces IH]; intros [|k] Hk Hp; simplify_eq/=; rewrite !payloads_app.
  - rewrite Hp, <- !app_assoc. apply Permutation_app_head. apply Permutation_app_comm.
  - rewrite <- app_assoc. apply Permutation_app_head. by apply IH.
Qed.

(** ** ACK frames *)

(** The blocks of packet numbers an ACK frame acknowledges. *)
Fixpoint ack_blocks (lo : Z) (ranges : list quicAckRange) : list (Z * Z) :=
  match ranges with
  | [] => []
  | r :: ranges =>
      if lo <? u64 (ar_gap r + 2) then [] else
      let hi := lo - ar_gap r - 2 in
      if hi <? ar_count r then [] else (hi - ar_count r, hi) :: ack_blocks (hi - ar_count r) ranges
  end.

Definition in_blocks (bs : list (Z * Z)) (sp : quicSentPacket) : bool := existsb (fun b => in_block b.1 b.2 sp) bs.

Definition frame_blocks (ack : quicAckFrame) : list (Z * Z) :=
  (af_largestAck ack - af_firstRange ack, af_largestAck ack) :: ack_blocks (af_largestAck ack - af_firstRange ack) (af_ranges ack).

Definition acked_by (ack : quicAckFrame) (sp : quicSentPacket) : bool := in_blocks (frame_blocks ack) sp.

Lemma set_sent_set_sent ls space a x b y : set_sent (set_sent ls space a x) space b y = set_sent ls space b y.
Proof. unfold set_sent. cbn. by rewrite list_insert_insert_eq. Qed.

Lemma sent_of_lookup ls space pkts : sent ls !! space = Some pkts -> sent_of ls space = pkts.
Proof. intros H. unfold sent_of. by apply nth_lookup_Some with (d := []) in H. Qed.

Lemma set_sent_lookup ls space pkts p x : sent ls !! space = Some pkts -> sent (set_sent ls space p x) !! space = Some p.
Proof. intros H. cbn. apply list_lookup_insert_eq. by apply lookup_lt_Some in H. Qed.

(** One block: [ls.sent[space]] loses the packets of the block. *)
Lemma markAcked_spec ls space lo hi t ls' t' pkts : sent ls !! space = Some pkts -> Forall pkt_ok pkts ->
  0 <= ackedInFlight t -> ackedInFlight t + flight_sum pkts < 2 ^ 64 -> markAcked ls space lo hi t = (ls', t') ->
  ls' = set_sent ls space (keep (in_block lo hi) pkts) (bytesInFlight ls - flight_sum (take_out (in_block lo hi) pkts)) /\
  ackedInFlight t' = ackedInFlight t + flight_sum (take_out (in_block lo hi) pkts).
Proof.
  intros Hs Hok Ht Hb. unfold markAcked. rewrite (sent_of_lookup _ _ _ Hs).
  destruct (markAckedLoop _ _ _ _ _) as [[rest fl] t1] eqn:E. intros [= <- <-].
  apply markAckedLoop_spec in E as (-> & -> & -> & _); done.
Qed.

Lemma flight_sum_keep f h pkts : flight_sum (take_out (fun sp => f sp || h sp) pkts) =
  flight_sum (take_out f pkts) + flight_sum (take_out h (keep f pkts)).
Proof.
  pose proof (flight_sum_split f pkts). pose proof (flight_sum_split h (keep f pkts)).
  pose proof (flight_sum_split (fun sp => f sp || h sp) pkts) as H3. rewrite <- keep_keep in H3. lia.
Qed.

Lemma ackRangesLoop_spec space ranges : forall ls lo t ls' t' pkts, sent ls !! space = Some pkts -> Forall pkt_ok pkts ->
  0 <= ackedInFlight t -> ackedInFlight t + flight_sum pkts < 2 ^ 64 -> ackRangesLoop ls space lo ranges t = (ls', t') ->
  ls' = set_sent ls space (keep (in_blocks (ack_blocks lo ranges)) pkts)
          (bytesInFlight ls - flight_sum (take_out (in_blocks (ack_blocks lo ranges)) pkts)) /\
  ackedInFlight t' = ackedInFlight t + flight_sum (take_out (in_blocks (ack_blocks lo ranges)) pkts).
Proof.
  assert (Hstop : forall ls t pkts, sent ls !! space = Some pkts ->
    ls = set_sent ls space (keep (in_blocks []) pkts) (bytesInFlight ls - flight_sum (take_out (in_blocks []) pkts)) /\
    ackedInFlight t = ackedInFlight t + flight_sum (take_out (in_blocks []) pkts)).
  { intros ls t pkts Hs. assert (Hk : keep (in_blocks []) pkts = pkts /\ take_out (in_blocks []) pkts = []).
    { clear. induction pkts as [|sp pkts [IH1 IH2]]; [done |]. unfold keep, take_out in *. cbn in *. by rewrite IH1, IH2. }
    destruct Hk as [-> ->]. cbn. rewrite Z.sub_0_r, Z.add_0_r. split; [| done].
    unfold set_sent. rewrite list_insert_id by done. by destruct ls. }
  induction ranges as [|r ranges IH]; intros ls lo t ls' t' pkts Hs Hok Ht Hb E; cbn [ackRangesLoop ack_blocks] in *.
  { simplify_eq. by apply Hstop. }
  destruct (lo <? u64 (ar_gap r + 2)); [simplify_eq; by apply Hstop |].
  destruct (lo - ar_gap r - 2 <? ar_count r); [simplify_eq; by apply Hstop |].
  destruct (markAcked _ _ _ _ _) as [ls1 t1] eqn:E1. apply (markAcked_spec _ _ _ _ _ _ _ pkts) in E1 as [-> Ht1]; [| done ..].
  set (blk := in_block _ _) in *. pose proof (flight_sum_split blk pkts).
  pose proof (flight_sum_nonneg _ (keep_ok blk _ Hok)). pose proof (flight_sum_nonneg _ (take_out_ok blk _ Hok)).
  apply (IH _ _ _ _ _ (keep blk pkts)) in E as [-> ->];
    [| by eapply set_sent_lookup | by apply keep_ok | lia | lia].
  rewrite set_sent_set_sent, keep_keep. cbn [bytesInFlight set_sent].
  change (in_blocks (_ :: ?bs)) with (fun sp => blk sp || in_blocks bs sp). rewrite flight_sum_keep. split; [| lia].
  f_equal. lia.
Qed.

(** The congestion window after [acked] in-flight bytes are acknowledged. *)
Definition grown (ls : quicLossState) (acked : Z) : Z :=
  if 0 <? acked then
    if cwnd ls <? ssthresh ls then u64 (cwnd ls + acked) else u64 (cwnd ls + u64 (quicMaxPacketSize * acked) / cwnd ls)
  else cwnd ls.

Lemma updateRTT_frame ls a b : sent (updateRTT ls a b) = sent ls /\ bytesInFlight (updateRTT ls a b) = bytesInFlight ls /\
  cwnd (updateRTT ls a b) = cwnd ls /\ ssthresh (updateRTT ls a b) = ssthresh ls /\
  largestAcked (updateRTT ls a b) = largestAcked ls /\ peerMaxAckDelay (updateRTT ls a b) = peerMaxAckDelay ls.
Proof. unfold updateRTT. cbv zeta. by destruct (negb (firstRTTDone ls)). Qed.

(** What an ACK frame does to the tracked packets, the in-flight count and
    the window. *)
Lemma onAckReceived_spec now ls space ack delay nextPN lp ls' pkts :
  sent ls !! space = Some pkts -> Forall pkt_ok pkts -> flight_sum pkts < 2 ^ 64 ->
  onAckReceived now ls space ack delay nextPN = Some (lp, ls') ->
  (af_largestAck ack < af_firstRange ack /\ ls' = ls) \/
  (af_firstRange ack <= af_largestAck ack < nextPN /\
   sent ls' = <[space := keep (acked_by ack) pkts]> (sent ls) /\
   bytesInFlight ls' = bytesInFlight ls - flight_sum (take_out (acked_by ack) pkts) /\
   cwnd ls' = grown ls (flight_sum (take_out (acked_by ack) pkts)) /\ ptoCount ls' = 0 /\
   length (largestAcked ls') = length (largestAcked ls)).
Proof.
  intros Hs Hok Hb. unfold onAckReceived.
  destruct (Z.ltb_spec (af_largestAck ack) (af_firstRange ack)); [intros [= <- <-]; by left |].
  destruct (Z.leb_spec nextPN (af_largestAck ack)); [done |]. cbv zeta.
  set (ls1 := if _ <? _ then set_largest _ _ _ else _).
  assert (Hls1 : sent ls1 = sent ls /\ bytesInFlight ls1 = bytesInFlight ls /\ cwnd ls1 = cwnd ls /\ ssthresh ls1 = ssthresh ls /\
    length (largestAcked ls1) = length (largestAcked ls)).
  { unfold ls1. destruct (_ <? _); cbn; rewrite ?length_insert; done. }
  clearbody ls1. destruct Hls1 as (Hs1 & Hb1 & Hc1 & Ht1 & Hl1).
  destruct (markAcked ls1 _ _ _ _) as [ls2 t2] eqn:E2.
  apply (markAcked_spec _ _ _ _ _ _ _ pkts) in E2 as [-> Ht2]; [| by rewrite Hs1 | done | done | cbn; lia].
  set (blk := in_block _ _) in *. pose proof (flight_sum_split blk pkts).
  pose proof (flight_sum_nonneg _ (keep_ok blk _ Hok)). pose proof (flight_sum_nonneg _ (take_out_ok blk _ Hok)).
  cbn [ackedInFlight] in Ht2.
  destruct (ackRangesLoop _ _ _ _ _) as [ls3 t3] eqn:E3.
  apply (ackRangesLoop_spec _ _ _ _ _ _ _ (keep blk pkts)) in E3 as [-> Ht3];
    [| by eapply set_sent_lookup; rewrite Hs1 | by apply keep_ok | lia | lia].
  rewrite set_sent_set_sent, keep_keep. cbn [bytesInFlight set_sent] in *.
  change (fun sp => blk sp || in_blocks (ack_blocks (af_largestAck ack - af_firstRange ack) (af_ranges ack)) sp)
    with (acked_by ack).
  assert (Hacked : ackedInFlight t3 = flight_sum (take_out (acked_by ack) pkts)).
  { change (acked_by ack) with (fun sp => blk sp || in_blocks (ack_blocks (af_largestAck ack - af_firstRange ack) (af_ranges ack)) sp).
    rewrite flight_sum_keep. lia. }
  set (ls4 := match largestAckedSentTime _ _ _ _ with Some _ => _ | None => _ end).
  assert (Hls4 : sent ls4 = <[space := keep (acked_by ack) pkts]> (sent ls) /\
    bytesInFlight ls4 = bytesInFlight ls - ackedInFlight t3 /\ cwnd ls4 = cwnd ls /\ ssthresh ls4 = ssthresh ls /\
    length (largestAcked ls4) = length (largestAcked ls)).
  { unfold ls4. destruct (largestAckedSentTime _ _ _ _); [destruct (updateRTT_frame
      (set_sent ls1 space (keep (acked_by ack) pkts) (bytesInFlight ls1 - flight_sum (take_out blk pkts) -
         flight_sum (take_out (in_blocks (ack_blocks (af_largestAck ack - af_firstRange ack) (af_ranges ack))) (keep blk pkts))))
      (Z.max (now - z) quicTimerGranularity) delay) as (-> & -> & -> & -> & -> & _) |]; cbn; rewrite Hs1, ?Hb1;
      repeat split; try done; lia. }
  clearbody ls4. destruct Hls4 as (Hs4 & Hb4 & Hc4 & Ht4 & Hl4).
  intros [= _ <-]. right. rewrite <- Hacked. unfold grown. rewrite <- Hc4, <- Ht4.
  destruct (0 <? ackedInFlight t3); [destruct (cwnd ls4 <? ssthresh ls4) |]; cbn; rewrite ?Hs4, ?Hb4; repeat split; done || lia.
Qed.

(** ** The invariant *)

(** [T] is the number of bytes ever handed to [onPacketSent]. *)
Record loss_inv (T : Z) (ls : quicLossState) : Prop := {
  li_spaces : length (sent ls) = 3%nat /\ length (largestAcked ls) = 3%nat;
  li_ok : Forall (Forall pkt_ok) (sent ls);
  li_flight : bytesInFlight ls = flight_total (sent ls);
  li_floor : 2 * quicMaxPacketSize <= cwnd ls;
  li_cap : cwnd ls + bytesInFlight ls <= quicInitialWindow + T;
  li_total : flight_total (sent ls) <= T;
}.

Lemma loss_inv_space T ls space : loss_inv T ls -> (space < 3)%nat -> exists pkts, sent ls !! space = Some pkts /\ Forall pkt_ok pkts.
Proof.
  intros [[H1 _] H2 _ _ _ _] Hs. destruct (lookup_lt_is_Some_2 (sent ls) space) as [pkts Hp]; [lia |].
  exists pkts. split; [done |]. by eapply Forall_lookup_1 in H2.
Qed.

(** Packets leave a space: the count drops by their sizes. *)
Lemma loss_inv_remove T ls ls' space pkts f : loss_inv T ls -> sent ls !! space = Some pkts ->
  sent ls' = <[space := keep f pkts]> (sent ls) -> bytesInFlight ls' = bytesInFlight ls - flight_sum (take_out f pkts) ->
  length (largestAcked ls') = 3%nat -> 2 * quicMaxPacketSize <= cwnd ls' ->
  cwnd ls' <= cwnd ls + flight_sum (take_out f pkts) -> loss_inv T ls'.
Proof.
  intros [[H1 H1'] H2 H3 H4 H5 H6] Hs Hs' Hb' Hl Hf Hc.
  assert (Hok : Forall pkt_ok pkts) by (by eapply Forall_lookup_1 in H2).
  pose proof (flight_sum_split f pkts). pose proof (flight_sum_nonneg _ (take_out_ok f _ Hok)).
  assert (Ht : flight_total (sent ls') = flight_total (sent ls) - flight_sum (take_out f pkts)).
  { rewrite Hs', (flight_total_insert _ _ _ _ Hs). lia. }
  constructor; [rewrite Hs', length_insert; done | | lia | done | lia | lia].
  rewrite Hs'. apply Forall_insert; [done | by apply keep_ok].
Qed.

Lemma grown_bounds ls acked : 2 * quicMaxPacketSize <= cwnd ls -> 0 <= acked -> cwnd ls + acked < 2 ^ 53 ->
  cwnd ls <= grown ls acked <= cwnd ls + acked.
Proof.
  unfold grown, quicMaxPacketSize. intros Hc Ha Hb. destruct (Z.ltb_spec 0 acked); [| lia].
  destruct (cwnd ls <? ssthresh ls); [rewrite u64_small; lia |].
  rewrite (u64_small (1200 * acked)) by lia.
  assert (0 <= 1200 * acked / cwnd ls <= acked).
  { split; [apply Z.div_pos; lia | apply Z.div_le_upper_bound; nia]. }
  rewrite u64_small; lia.
Qed.

(** ** Runs *)

Inductive lossOp :=
| LSend (now : Z) (space : nat) (pn size : Z) (ackElicit : bool) (frames : bytes)
| LAck (now : Z) (space : nat) (ack : quicAckFrame) (delay nextPN : Z)
| LDetect (now : Z) (space : nat)
| LPto (now : Z) (space : nat)
| LDiscard (space : nat)
| LNewPath
| LPeerDelay (d : Z).

Definition op_space_ok (op : lossOp) : Prop :=
  match op with
  | LSend _ space _ size _ _ => (space < 3)%nat /\ 0 <= size
  | LAck _ space _ _ _ | LDetect _ space | LPto _ space | LDiscard space => (space < 3)%nat
  | LNewPath | LPeerDelay _ => True
  end.

(** The state with what became of every frame payload: recorded with a
    packet, acknowledged by an ACK frame that names the packet, returned for
    retransmission, or discarded with its packet number space. *)
Record lossSys := {
  ly_state : quicLossState;
  ly_recorded : list bytes;
  ly_acked : list bytes;
  ly_resent : list bytes;
  ly_discarded : list bytes;
}.

Definition newLossSys : lossSys :=
  {| ly_state := newQuicLossState; ly_recorded := []; ly_acked := []; ly_resent := []; ly_discarded := [] |}.

Definition loss_exec (y : lossSys) (op : lossOp) : lossSys :=
  let ls := ly_state y in
  match op with
  | LSend now space pn size ackElicit frames =>
      {| ly_state := onPacketSent now ls space pn size ackElicit frames;
         ly_recorded := ly_recorded y ++ (if ackElicit && (0 <? zlen frames) then [frames] else []);
         ly_acked := ly_acked y; ly_resent := ly_resent y; ly_discarded := ly_discarded y |}
  | LAck now space ack delay nextPN =>
      match onAckReceived now ls space ack delay nextPN with
      | None => y
      | Some (_, ls') =>
          {| ly_state := ls'; ly_recorded := ly_recorded y;
             ly_acked := ly_acked y ++
               (if af_largestAck ack <? af_firstRange ack then [] else payloads (take_out (acked_by ack) (sent_of ls space)));
             ly_resent := ly_resent y; ly_discarded := ly_discarded y |}
      end
  | LDetect now space =>
      let '(lost, ls') := detectLostPackets now ls space in
      {| ly_state := ls'; ly_recorded := ly_recorded y; ly_acked := ly_acked y; ly_resent := ly_resent y ++ lost;
         ly_discarded := ly_discarded y |}
  | LPto now space =>
      let '(lost, ls') := ptoExpiredFrames now ls space in
      {| ly_state := ls'; ly_recorded := ly_recorded y; ly_acked := ly_acked y; ly_resent := ly_resent y ++ lost;
         ly_discarded := ly_discarded y |}
  | LDiscard space =>
      {| ly_state := discardSpace ls space; ly_recorded := ly_recorded y; ly_acked := ly_acked y; ly_resent := ly_resent y;
         ly_discarded := ly_discarded y ++ payloads (sent_of ls space) |}
  | LNewPath =>
      {| ly_state := resetForNewPath ls; ly_recorded := ly_recorded y; ly_acked := ly_acked y; ly_resent := ly_resent y;
         ly_discarded := ly_discarded y |}
  | LPeerDelay d =>
      {| ly_state := setPeerMaxAckDelay ls d; ly_recorded := ly_recorded y; ly_acked := ly_acked y; ly_resent := ly_resent y;
         ly_discarded := ly_discarded y |}
  end.

Definition loss_run (y : lossSys) (ops : list lossOp) : lossSys := fold_left loss_exec ops y.

Definition op_size (op : lossOp) : Z := match op with LSend _ _ _ size _ _ => size | _ => 0 end.
Fixpoint sizes (ops : list lossOp) : Z := match ops with [] => 0 | op :: ops => op_size op + sizes ops end.

Definition conserved (y : lossSys) : Prop :=
  Permutation (ly_recorded y) (payloads (concat (sent (ly_state y))) ++ ly_acked y ++ ly_resent y ++ ly_discarded y).

Lemma keep_none pkts : keep (fun _ => false) pkts = pkts /\ take_out (fun _ => true) pkts = pkts /\
  keep (fun _ => true) pkts = [].
Proof. unfold keep, take_out. induction pkts as [|sp pkts (IH1 & IH2 & IH3)]; cbn in *; by rewrite ?IH1, ?IH2, ?IH3. Qed.

Lemma onPacketSent_inv T now ls space pn size el frames : loss_inv T ls -> (space < 3)%nat -> 0 <= size ->
  loss_inv (T + size) (onPacketSent now ls space pn size el frames).
Proof.
  intros Hi Hs Hz. destruct (loss_inv_space _ _ _ Hi Hs) as (pkts & Hp & Hok). destruct Hi as [[H1 H1'] H2 H3 H4 H5 H6].
  unfold onPacketSent. set (ls1 := if Nat.eqb _ _ then _ else _).
  assert (Hls1 : sent ls1 = sent ls /\ bytesInFlight ls1 = bytesInFlight ls /\ cwnd ls1 = cwnd ls /\ largestAcked ls1 = largestAcked ls)
    by (unfold ls1; by destruct (Nat.eqb _ _)). clearbody ls1. destruct Hls1 as (E1 & E2 & E3 & E4).
  destruct el; cbn [negb]; [| constructor; rewrite ?E1, ?E2, ?E3, ?E4; done || lia].
  rewrite (sent_of_lookup ls1 space pkts) by (by rewrite E1).
  assert (Ht : flight_total (<[space := pkts ++ [{| sp_pn := pn; sp_sent := now; sp_size := size; sp_ackElicit := true;
    sp_frames := frames; sp_inFlight := true |}]]> (sent ls)) = flight_total (sent ls) + size).
  { rewrite (flight_total_insert _ _ _ _ Hp), flight_sum_app. cbn. lia. }
  constructor; cbn; rewrite ?E1, ?E2, ?E3, ?E4, ?length_insert, ?Ht; try done; try lia.
  apply Forall_insert; [done |]. apply Forall_app. split; [done |]. by repeat constructor.
Qed.

Lemma detectLost_spec now ls space pkts fr ls' : sent ls !! space = Some pkts -> detectLostPackets now ls space = (fr, ls') ->
  exists f, sent ls' = <[space := keep f pkts]> (sent ls) /\ bytesInFlight ls' = bytesInFlight ls - flight_sum (take_out f pkts) /\
    fr = payloads (take_out f pkts) /\ largestAcked ls' = largestAcked ls /\
    (forall sp, f sp = true -> sp_pn sp <= largest_of ls space /\
       (sp_pn sp < loss_threshold (largest_of ls space) \/ sp_sent sp < now - lossDelay ls)) /\
    (cwnd ls' = cwnd ls \/ cwnd ls' = Z.max (cwnd ls / 2) (2 * quicMaxPacketSize)).
Proof.
  intros Hs. unfold detectLostPackets, detectLost. cbv zeta. destruct (Z.ltb_spec (largest_of ls space) 0).
  - intros [= <- <-]. destruct (keep_none pkts) as (Hk & _ & _). exists (fun _ => false). rewrite Hk, list_insert_id by done.
    assert (Ht : take_out (fun _ => false) pkts = []) by (clear; by induction pkts).
    rewrite Ht. cbn. rewrite Z.sub_0_r. repeat split; auto; done.
  - rewrite (sent_of_lookup _ _ _ Hs). set (f := is_lost _ _ _).
    destruct (expireLoop f pkts _ _ _) as [[[rest fl] had] fr1] eqn:E. apply expireLoop_spec in E as (-> & -> & -> & _).
    intros [= <- <-]. exists f.
    assert (Hf : forall sp, f sp = true -> sp_pn sp <= largest_of ls space /\
       (sp_pn sp < loss_threshold (largest_of ls space) \/ sp_sent sp < now - lossDelay ls)).
    { intros sp Hsp. unfold f, is_lost in Hsp. lia. }
    destruct had; cbn; repeat split; try done; try (by apply Hf); [| by left].
    right. unfold quicMaxPacketSize. destruct (Z.ltb_spec (cwnd ls / 2) (2 * 1200)); lia.
Qed.

Lemma pto_spec now ls space pkts fr ls' : sent ls !! space = Some pkts -> ptoExpiredFrames now ls space = (fr, ls') ->
  exists f, sent ls' = <[space := keep f pkts]> (sent ls) /\ bytesInFlight ls' = bytesInFlight ls - flight_sum (take_out f pkts) /\
    fr = payloads (take_out f pkts) /\ largestAcked ls' = largestAcked ls /\ cwnd ls' = cwnd ls.
Proof.
  intros Hs. unfold ptoExpiredFrames. rewrite (sent_of_lookup _ _ _ Hs).
  assert (Hnone : sent ls = <[space := keep (fun _ => false) pkts]> (sent ls) /\
    bytesInFlight ls = bytesInFlight ls - flight_sum (take_out (fun _ => false) pkts) /\ [] = payloads (take_out (fun _ => false) pkts)).
  { destruct (keep_none pkts) as (Hk & _ & _). rewrite Hk, list_insert_id by done.
    assert (Ht : take_out (fun _ => false) pkts = []) by (clear; by induction pkts). rewrite Ht. cbn. by rewrite Z.sub_0_r. }
  destruct Hnone as (N1 & N2 & N3).
  destruct pkts as [|sp0 pkts]; [intros [= <- <-]; by exists (fun _ => false) |].
  cbv zeta. destruct (_ <=? _); [intros [= <- <-]; by exists (fun _ => false) |].
  destruct (expireLoop _ _ _ _ _) as [[[rest fl] had] fr1] eqn:E.
  match type of E with expireLoop ?f _ _ _ _ = _ => intros [= <- <-]; exists f end.
  apply expireLoop_spec in E as (-> & -> & -> & _). destruct (0 <? _); cbn; by repeat split.
Qed.

Lemma removal_conserved y ls' out space pkts f : sent (ly_state y) !! space = Some pkts -> conserved y ->
  sent ls' = <[space := keep f pkts]> (sent (ly_state y)) -> out = payloads (take_out f pkts) ->
  Permutation (ly_recorded y) ((payloads (concat (sent ls')) ++ out) ++ ly_acked y ++ ly_resent y ++ ly_discarded y).
Proof.
  intros Hs Hc -> ->. unfold conserved in Hc. rewrite Hc. apply Permutation_app_tail.
  apply (payloads_insert _ _ pkts); [done |]. apply payloads_split.
Qed.

(** The three places a payload can go to when its packet leaves. *)
Lemma perm_to_acked {A} (p o a r d : list A) : Permutation ((p ++ o) ++ a ++ r ++ d) (p ++ (a ++ o) ++ r ++ d).
Proof. rewrite <- !app_assoc. apply Permutation_app_head. rewrite !app_assoc. do 2 apply Permutation_app_tail. apply Permutation_app_comm. Qed.
Lemma perm_to_resent {A} (p o a r d : list A) : Permutation ((p ++ o) ++ a ++ r ++ d) (p ++ a ++ (r ++ o) ++ d).
Proof.
  rewrite <- !app_assoc. apply Permutation_app_head. rewrite !app_assoc. apply Permutation_app_tail.
  rewrite <- app_assoc. apply Permutation_app_comm.
Qed.
Lemma perm_to_discarded {A} (p o a r d : list A) : Permutation ((p ++ o) ++ a ++ r ++ d) (p ++ a ++ r ++ d ++ o).
Proof. rewrite <- !app_assoc. apply Permutation_app_head. rewrite Permutation_app_comm. by rewrite <- !app_assoc. Qed.

Definition step_good (T : Z) (y : lossSys) (op : lossOp) : Prop :=
  loss_inv (T + op_size op) (ly_state (loss_exec y op)) /\ conserved (loss_exec y op).

Lemma send_good T y now space pn size el fr : loss_inv T (ly_state y) -> conserved y -> (space < 3)%nat -> 0 <= size ->
  step_good T y (LSend now space pn size el fr).
Proof.
  intros Hi Hc Hsp Hz. split; [by apply onPacketSent_inv |].
  destruct (loss_inv_space _ _ _ Hi Hsp) as (pkts & Hp & Hok). unfold conserved in *.
  cbn [loss_exec ly_recorded ly_state ly_acked ly_resent ly_discarded].
  rewrite Hc. unfold onPacketSent. set (ls1 := if Nat.eqb _ _ then _ else _).
  assert (E1 : sent ls1 = sent (ly_state y)) by (unfold ls1; by destruct (Nat.eqb _ _)). clearbody ls1.
  destruct el; cbn [negb andb]; [| by rewrite E1, app_nil_r].
  rewrite (sent_of_lookup ls1 space pkts) by (by rewrite E1). cbn [sent set_sent]. rewrite E1.
  match goal with |- context [pkts ++ [?n]] => set (new := n) end.
  assert (Hn : Permutation (payloads (concat (<[space := pkts ++ [new]]> (sent (ly_state y)))))
    (payloads (concat (sent (ly_state y))) ++ payloads [new])).
  { rewrite (payloads_insert (<[space := pkts ++ [new]]> (sent (ly_state y))) space (pkts ++ [new]) pkts (payloads [new])).
    - rewrite list_insert_insert_eq, list_insert_id by done. done.
    - apply list_lookup_insert_eq. by apply lookup_lt_Some in Hp.
    - by rewrite payloads_app. }
  rewrite Hn. assert (Hnew : payloads [new] = if 0 <? zlen fr then [fr] else []) by (unfold payloads; cbn; by destruct (0 <? zlen fr)).
  rewrite Hnew. rewrite <- !app_assoc. apply Permutation_app_head.
  rewrite (Permutation_app_comm (if 0 <? zlen fr then [fr] else [])). by rewrite <- !app_assoc.
Qed.

Lemma ack_good T y now space ack delay nextPN : loss_inv T (ly_state y) -> conserved y -> (space < 3)%nat -> T < 2 ^ 52 ->
  step_good T y (LAck now space ack delay nextPN).
Proof.
  intros Hi Hc Hsp Hb. unfold step_good. cbn [loss_exec op_size]. rewrite Z.add_0_r.
  destruct (onAckReceived now (ly_state y) space ack delay nextPN) as [[lp ls'] |] eqn:E; [| done].
  destruct (loss_inv_space _ _ _ Hi Hsp) as (pkts & Hp & Hok). pose proof Hi as [[L1 L2] L3 L4 L5 L6 L7].
  destruct (flight_total_ge _ _ _ Hp L3) as [Hf0 Hf1].
  destruct (onAckReceived_spec now (ly_state y) space ack delay nextPN lp ls' pkts Hp Hok ltac:(lia) E)
    as [[Hlt ->] | (Hrng & Hs & Hbf & Hcw & _ & Hl)].
  { replace (_ <? _) with true by lia. rewrite app_nil_r. by destruct y. }
  replace (_ <? _) with false by lia. rewrite (sent_of_lookup _ _ _ Hp).
  pose proof (flight_sum_split (acked_by ack) pkts). pose proof (flight_sum_nonneg _ (keep_ok (acked_by ack) _ Hok)).
  pose proof (flight_sum_nonneg _ (take_out_ok (acked_by ack) _ Hok)).
  destruct (grown_bounds (ly_state y) (flight_sum (take_out (acked_by ack) pkts))) as [Hg1 Hg2]; [done | lia | |].
  { unfold quicInitialWindow, quicMaxPacketSize in *. lia. }
  split; [eapply (loss_inv_remove T (ly_state y) ls' space pkts (acked_by ack)); try done; lia |].
  unfold conserved. cbn. rewrite (removal_conserved y ls' _ space pkts (acked_by ack) Hp Hc Hs eq_refl). apply perm_to_acked.
Qed.

Lemma detect_good T y now space : loss_inv T (ly_state y) -> conserved y -> (space < 3)%nat -> step_good T y (LDetect now space).
Proof.
  intros Hi Hc Hsp. unfold step_good. cbn [loss_exec op_size]. rewrite Z.add_0_r.
  destruct (detectLostPackets now (ly_state y) space) as [fr ls'] eqn:E.
  destruct (loss_inv_space _ _ _ Hi Hsp) as (pkts & Hp & Hok).
  destruct (detectLost_spec now (ly_state y) space pkts fr ls' Hp E) as (f & Hs & Hbf & Hfr & Hl & _ & Hcw).
  pose proof (flight_sum_nonneg _ (take_out_ok f _ Hok)). pose proof Hi as [[L1 L2] L3 L4 L5 L6 L7].
  assert (Hhalf : cwnd (ly_state y) / 2 <= cwnd (ly_state y)) by (apply Z.div_le_upper_bound; unfold quicMaxPacketSize in *; lia).
  split.
  - eapply (loss_inv_remove T (ly_state y) ls' space pkts f); try done; [by cbn; rewrite Hl | |]; destruct Hcw as [-> | ->]; lia.
  - unfold conserved. cbn. rewrite (removal_conserved y ls' _ space pkts f Hp Hc Hs Hfr). apply perm_to_resent.
Qed.

Lemma pto_good T y now space : loss_inv T (ly_state y) -> conserved y -> (space < 3)%nat -> step_good T y (LPto now space).
Proof.
  intros Hi Hc Hsp. unfold step_good. cbn [loss_exec op_size]. rewrite Z.add_0_r.
  destruct (ptoExpiredFrames now (ly_state y) space) as [fr ls'] eqn:E.
  destruct (loss_inv_space _ _ _ Hi Hsp) as (pkts & Hp & Hok).
  destruct (pto_spec now (ly_state y) space pkts fr ls' Hp E) as (f & Hs & Hbf & Hfr & Hl & Hcw).
  pose proof (flight_sum_nonneg _ (take_out_ok f _ Hok)). pose proof Hi as [[L1 L2] L3 L4 L5 L6 L7]. split.
  - eapply (loss_inv_remove T (ly_state y) ls' space pkts f); try done; [by cbn; rewrite Hl | lia | lia].
  - unfold conserved. cbn. rewrite (removal_conserved y ls' _ space pkts f Hp Hc Hs Hfr). apply perm_to_resent.
Qed.

Lemma discard_good T y space : loss_inv T (ly_state y) -> conserved y -> (space < 3)%nat -> step_good T y (LDiscard space).
Proof.
  intros Hi Hc Hsp. unfold step_good. cbn [loss_exec op_size]. rewrite Z.add_0_r.
  destruct (loss_inv_space _ _ _ Hi Hsp) as (pkts & Hp & Hok). destruct (keep_none pkts) as (_ & K2 & K3).
  rewrite (sent_of_lookup _ _ _ Hp). unfold discardSpace. rewrite discardLoop_spec, (sent_of_lookup _ _ _ Hp).
  pose proof (flight_sum_nonneg _ Hok). pose proof Hi as [[L1 L2] L3 L4 L5 L6 L7]. split.
  - eapply (loss_inv_remove T (ly_state y) _ space pkts (fun _ => true)); try done; cbn; rewrite ?K2, ?K3; done || lia.
  - unfold conserved. cbn. rewrite (removal_conserved y (set_sent (ly_state y) space [] 0) (payloads pkts) space pkts (fun _ => true) Hp Hc);
      [| cbn; by rewrite K3 | by rewrite K2]. apply perm_to_discarded.
Qed.

Lemma loss_exec_good T y op : loss_inv T (ly_state y) -> conserved y -> op_space_ok op -> T < 2 ^ 52 -> step_good T y op.
Proof.
  intros Hi Hc Hop Hb. destruct op; cbn [op_space_ok] in Hop.
  - destruct Hop; by apply send_good.
  - by apply ack_good.
  - by apply detect_good.
  - by apply pto_good.
  - by apply discard_good.
  - split; [| done]. cbn [op_size]. rewrite Z.add_0_r. pose proof Hi as [[L1 L2] L3 L4 L5 L6 L7].
    constructor; cbn; try done; unfold quicInitialWindow, quicMaxPacketSize in *; lia.
  - split; [| done]. cbn [op_size]. rewrite Z.add_0_r. by destruct Hi; constructor.
Qed.

Lemma sizes_nonneg ops : Forall op_space_ok ops -> 0 <= sizes ops.
Proof. induction 1 as [|op ops Hop _ IH]; cbn; [lia |]. destruct op; cbn in *; lia. Qed.

Lemma loss_run_good ops : forall T y, loss_inv T (ly_state y) -> conserved y -> Forall op_space_ok ops -> T + sizes ops < 2 ^ 52 ->
  loss_inv (T + sizes ops) (ly_state (loss_run y ops)) /\ conserved (loss_run y ops).
Proof.
  induction ops as [|op ops IH]; intros T y Hi Hc Hops Hb; cbn [loss_run fold_left sizes] in *; [by rewrite Z.add_0_r |].
  apply Forall_cons_1 in Hops as [Hop Hops]. pose proof (sizes_nonneg _ Hops).
  assert (0 <= op_size op) by (destruct op; cbn in *; lia).
  destruct (loss_exec_good T y op Hi Hc Hop ltac:(lia)) as [Hi' Hc']. rewrite Z.add_assoc. apply IH; [done | done | done | lia].
Qed.

Lemma newLossSys_good : loss_inv 0 (ly_state newLossSys) /\ conserved newLossSys.
Proof. split; [| apply perm_nil]. constructor; cbn; try done; try lia. by repeat constructor. Qed.

(** Over any sequence of sends, ACK frames (well-formed or not), loss
    detections, probe timeouts, discarded spaces and path changes, the
    in-flight count is exactly the total size of the tracked in-flight
    packets and never negative, and the congestion window never falls below
    two packets nor grows past the initial window plus the bytes sent. *)
Theorem loss_inflight_exact (ops : list lossOp) : Forall op_space_ok ops -> sizes ops < 2 ^ 52 ->
  let ls := ly_state (loss_run newLossSys ops) in
  bytesInFlight ls = flight_total (sent ls) /\ 0 <= bytesInFlight ls <= sizes ops /\
  2 * quicMaxPacketSize <= cwnd ls /\ cwnd ls + bytesInFlight ls <= quicInitialWindow + sizes ops.
Proof.
  intros Hops Hb ls. destruct newLossSys_good as [Hi Hc].
  destruct (loss_run_good ops 0 newLossSys Hi Hc Hops ltac:(lia)) as [[[L1 L2] L3 L4 L5 L6 L7] _]. fold ls in L1, L2, L3, L4, L5, L6, L7.
  split; [done |]. split; [| split; [done | lia]]. rewrite L4. split; [| lia].
  destruct (lookup_lt_is_Some_2 (sent ls) 0) as [p Hp]; [lia |]. pose proof (flight_total_ge _ _ _ Hp L3). lia.
Qed.

Definition demo_loss : list lossOp :=
  [LSend 1000 2 0 1200 true [1]; LSend 2000 2 1 1200 true [2]; LSend 3000 2 2 40 false []; LSend 3000 2 3 1000 true [3];
   LSend 4000 2 4 1100 true [4]; LSend 4000 2 5 100 true [];
   LAck 2000000 2 {| af_largestAck := 4; af_ackDelay := 0; af_firstRange := 0; af_ranges := [{| ar_gap := 0; ar_count := 1 |}] |} 0 6;
   LDetect 2000000 2].

Ltac demo_loss_ok := unfold demo_loss; repeat (apply Forall_cons_2; [cbn; lia |]); apply Forall_nil_2.

Lemma loss_inflight_exact_witness :
  let ls := ly_state (loss_run newLossSys demo_loss) in
  bytesInFlight ls = 1100 /\ cwnd ls = 7150 /\ bytesInFlight ls = flight_total (sent ls).
Proof.
  split; [vm_compute; reflexivity |]. split; [vm_compute; reflexivity |].
  refine (proj1 (loss_inflight_exact demo_loss _ _)); [demo_loss_ok | vm_compute; reflexivity].
Defined.

(** C18: no frame is lost by the sender. Every frame payload recorded with an
    ack-eliciting packet is, at any time and counted with multiplicity, in
    exactly one of four places: with a packet still tracked, acknowledged by
    an ACK frame whose ranges contain the packet's number, returned for
    retransmission, or dropped with its discarded space. *)
Theorem loss_frames_conserved (ops : list lossOp) : Forall op_space_ok ops -> sizes ops < 2 ^ 52 ->
  let y := loss_run newLossSys ops in
  Permutation (ly_recorded y) (payloads (concat (sent (ly_state y))) ++ ly_acked y ++ ly_resent y ++ ly_discarded y).
Proof. intros Hops Hb. destruct newLossSys_good as [Hi Hc]. by apply (loss_run_good ops 0). Qed.

Lemma loss_frames_conserved_witness :
  let y := loss_run newLossSys demo_loss in
  ly_recorded y = [[1]; [2]; [3]; [4]] /\ ly_acked y = [[2]; [4]] /\ ly_resent y = [[1]] /\
  Permutation (ly_recorded y) (payloads (concat (sent (ly_state y))) ++ ly_acked y ++ ly_resent y ++ ly_discarded y).
Proof.
  split; [vm_compute; reflexivity |]. split; [vm_compute; reflexivity |]. split; [vm_compute; reflexivity |].
  apply (loss_frames_conserved demo_loss); [demo_loss_ok | vm_compute; reflexivity].
Defined.

(** ** From the receiver's ranges to the sender's packets *)

Fixpoint gaps_of (prevLo : Z) (rs : list pnRange) : list quicAckRange :=
  match rs with
  | [] => []
  | r :: rs => {| ar_gap := prevLo - hi r - 2; ar_count := hi r - lo r |} :: gaps_of (lo r) rs
  end.

(** The ACK frame that stands for a non-empty range list. *)
Definition ack_of (delay : Z) (r0 : pnRange) (rs : list pnRange) : quicAckFrame :=
  {| af_largestAck := hi r0; af_ackDelay := delay; af_firstRange := hi r0 - lo r0; af_ranges := gaps_of (lo r0) rs |}.

Lemma zlen_gaps prevLo rs : zlen (gaps_of prevLo rs) = zlen rs.
Proof. revert prevLo. induction rs as [|r rs IH]; intros p; cbn [gaps_of]; rewrite ?zlen_cons, ?IH; done. Qed.

Lemma appendAckGaps_fold rs : forall dst prev, desc 1 (prev :: rs) ->
  appendAckGaps dst (lo prev) rs =
  fold_left (fun dst r => quicAppendVarint (quicAppendVarint dst (ar_gap r)) (ar_count r)) (gaps_of (lo prev) rs) dst.
Proof.
  induction rs as [|r rs IH]; intros dst prev (H1 & H2 & H3 & H4); cbn [appendAckGaps gaps_of fold_left]; [done |].
  pose proof H4 as (H5 & H6 & _). rewrite !u64_small by lia. by apply IH.
Qed.

Lemma ack_bytes delay r0 rs : desc 1 (r0 :: rs) -> zlen rs < 2 ^ 62 ->
  quicAppendACKFrameRanges [] delay (r0 :: rs) = encode_ack (ack_of delay r0 rs).
Proof.
  intros Hd Hl. pose proof Hd as (H1 & H2 & _). unfold quicAppendACKFrameRanges, encode_ack. cbn [ack_of af_largestAck af_ackDelay af_firstRange af_ranges].
  rewrite zlen_gaps, zlen_cons. pose proof (zlen_nonneg rs).
  rewrite (u64_small (1 + zlen rs - 1)), (u64_small (hi r0 - lo r0)) by lia.
  replace (1 + zlen rs - 1) with (zlen rs) by lia. by apply appendAckGaps_fold.
Qed.

Lemma gaps_wf rs : forall prev, desc 1 (prev :: rs) -> Forall (fun r => var62 (ar_gap r) /\ var62 (ar_count r)) (gaps_of (lo prev) rs).
Proof.
  induction rs as [|r rs IH]; intros prev (H1 & H2 & H3 & H4); cbn [gaps_of]; constructor; [| by apply IH].
  pose proof H4 as (H5 & H6 & _). unfold var62. cbn. lia.
Qed.

Lemma ack_of_wf delay r0 rs : desc 1 (r0 :: rs) -> zlen rs <= 256 -> var62 delay -> frame_wf (onACK (ack_of delay r0 rs)).
Proof.
  intros Hd Hl Hdel. pose proof Hd as (H1 & H2 & _). unfold frame_wf, var62 in *. cbn [ack_of af_largestAck af_ackDelay af_firstRange af_ranges].
  rewrite zlen_gaps. repeat split; try lia. by apply gaps_wf.
Qed.

Lemma enc_len_max v : zlen (enc v) <= 8.
Proof. unfold enc. rewrite quicAppendVarint_len. unfold varint_len. repeat split_if; lia. Qed.

Lemma encode_ack_len f : zlen (encode_ack f) <= 40 + 16 * zlen (af_ranges f).
Proof.
  unfold encode_ack. rewrite ranges_fold, !append_enc, !zlen_app.
  assert (Hr : zlen (ranges_enc (af_ranges f)) <= 16 * zlen (af_ranges f)).
  { induction (af_ranges f) as [|r rs IH]; [done |]. cbn [ranges_enc flat_map]. fold (ranges_enc rs).
    rewrite !zlen_app, zlen_cons. pose proof (enc_len_max (ar_gap r)). pose proof (enc_len_max (ar_count r)). lia. }
  rewrite zlen_nil. pose proof (enc_len_max quicFrameACK). pose proof (enc_len_max (af_largestAck f)).
  pose proof (enc_len_max (af_ackDelay f)). pose proof (enc_len_max (zlen (af_ranges f))). pose proof (enc_len_max (af_firstRange f)). lia.
Qed.

Lemma ack_blocks_ranges rs : forall prev, desc 1 (prev :: rs) ->
  ack_blocks (lo prev) (gaps_of (lo prev) rs) = map (fun r => (lo r, hi r)) rs.
Proof.
  induction rs as [|r rs IH]; intros prev (H1 & H2 & H3 & H4); cbn [gaps_of ack_blocks map]; [done |].
  pose proof H4 as (H5 & H6 & _). cbn [ar_gap ar_count]. rewrite u64_small by lia.
  replace (lo prev <? lo prev - hi r - 2 + 2) with false by lia.
  replace (lo prev - (lo prev - hi r - 2) - 2) with (hi r) by lia.
  replace (hi r <? hi r - lo r) with false by lia. replace (hi r - (hi r - lo r)) with (lo r) by lia.
  f_equal. by apply IH.
Qed.

Lemma acked_by_ranges delay r0 rs sp : desc 1 (r0 :: rs) ->
  acked_by (ack_of delay r0 rs) sp = true <-> in_ranges (sp_pn sp) (r0 :: rs).
Proof.
  intros Hd. unfold acked_by, frame_blocks. cbn [ack_of af_largestAck af_firstRange af_ranges].
  replace (hi r0 - (hi r0 - lo r0)) with (lo r0) by lia. rewrite (ack_blocks_ranges rs r0 Hd).
  change ((lo r0, hi r0) :: map (fun r => (lo r, hi r)) rs) with (map (fun r => (lo r, hi r)) (r0 :: rs)).
  clear Hd. unfold in_blocks. rewrite existsb_exists. unfold in_ranges. rewrite Exists_exists. split.
  - intros (b & Hb & Hin). apply in_map_iff in Hb as (r & <- & Hr). exists r. split; [done |].
    unfold in_block, in_range in *. cbn in Hin. lia.
  - intros (r & Hr & Hin). exists (lo r, hi r). split; [apply in_map_iff; by exists r |].
    unfold in_block, in_range in *. cbn. lia.
Qed.

(** C30: acknowledgements mean the same at both ends. The ACK frame built from
    the ranges of received packet numbers parses back to one ACK frame, the
    sender accepts it when it has sent the largest number, and afterwards it
    tracks exactly the packets it tracked before whose numbers are not in
    those ranges. *)
Theorem ack_end_to_end st r0 rs delay now ls space pkts d nextPN :
  ack_wf st -> ackRanges st = r0 :: rs -> var62 delay -> hi r0 < nextPN ->
  sent ls !! space = Some pkts -> Forall pkt_ok pkts -> flight_sum pkts < 2 ^ 64 ->
  exists f, quicParseFrames (quicAppendACKFrameRanges [] delay (ackRanges st)) demo_visitor
      = Some (deliver demo_visitor [onACK f], None) /\
    exists lossPossible ls', onAckReceived now ls space f d nextPN = Some (lossPossible, ls') /\
      forall sp, sp ∈ sent_of ls' space <-> sp ∈ pkts /\ ~ in_ranges (sp_pn sp) (ackRanges st).
Proof.
  intros (Hd & Hl & _ & _) Hr Hdel Hn Hs Hok Hfs. rewrite Hr in *. rewrite zlen_cons in Hl. unfold maxAckRanges in Hl.
  exists (ack_of delay r0 rs). split.
  - rewrite ack_bytes by (done || lia).
    assert (Hwf : Forall frame_wf [onACK (ack_of delay r0 rs)]) by (apply Forall_singleton, ack_of_wf; [done | lia | done]).
    replace (encode_ack (ack_of delay r0 rs)) with (flat_map encode_frame [onACK (ack_of delay r0 rs)]) by (cbn; by rewrite app_nil_r).
    pose proof (encode_frames_ok _ Hwf) as Hb. apply parseFramesLoop_app; [done | by repeat constructor | | done | done].
    unfold parser_wf. cbn [p_data p_off]. pose proof (zlen_nonneg (flat_map encode_frame [onACK (ack_of delay r0 rs)])).
    split; [lia |]. split; [| done]. cbn [flat_map encode_frame]. rewrite app_nil_r.
    pose proof (encode_ack_len (ack_of delay r0 rs)) as Hel. cbn [ack_of af_ranges] in Hel. rewrite zlen_gaps in Hel. cbn [ack_of]. lia.
  - pose proof Hd as (H1 & H2 & _).
    destruct (onAckReceived now ls space (ack_of delay r0 rs) d nextPN) as [[lp ls'] |] eqn:E.
    2:{ exfalso. unfold onAckReceived in E. cbn [ack_of af_largestAck af_firstRange] in E.
        replace (hi r0 <? hi r0 - lo r0) with false in E by lia. replace (nextPN <=? hi r0) with false in E by lia.
        cbv zeta in E. repeat case_match; done. }
    exists lp, ls'. split; [done |]. intros sp.
    destruct (onAckReceived_spec now ls space (ack_of delay r0 rs) d nextPN lp ls' pkts Hs Hok Hfs E)
      as [[Hlt _] | (_ & Hs' & _)]; [cbn in Hlt; lia |].
    rewrite (sent_of_lookup ls' space (keep (acked_by (ack_of delay r0 rs)) pkts)).
    2:{ rewrite Hs'. apply list_lookup_insert_eq. by apply lookup_lt_Some in Hs. }
    unfold keep. rewrite list_elem_of_In, filter_In, <- list_elem_of_In, negb_true_iff, <- not_true_iff_false.
    by rewrite (acked_by_ranges delay r0 rs sp Hd).
Qed.

Lemma ack_end_to_end_witness :
  exists f, quicParseFrames (quicAppendACKFrameRanges [] 3 (ackRanges demo_ack)) demo_visitor
      = Some (deliver demo_visitor [onACK f], None) /\
    exists lossPossible ls',
      onAckReceived 5000 (ly_state (loss_run newLossSys (take 6 demo_loss))) 2 f 0 8 = Some (lossPossible, ls') /\
      forall sp, sp ∈ sent_of ls' 2 <-> sp ∈ sent_of (ly_state (loss_run newLossSys (take 6 demo_loss))) 2 /\
        ~ in_ranges (sp_pn sp) (ackRanges demo_ack).
Proof.
  apply (ack_end_to_end demo_ack {| lo := 5; hi := 7 |} [{| lo := 1; hi := 3 |}] 3 5000 _ 2).
  - split; [cbn; lia |]. split; [done |]. split; [cbn; lia |]. intros x [Hx | Hx]%in_ranges_cons;
      [unfold in_range in Hx; cbn in *; lia |]. apply in_ranges_cons in Hx as [Hx | Hx]; [unfold in_range in Hx; cbn in *; lia |].
    by apply in_ranges_nil in Hx.
  - reflexivity.
  - unfold var62. lia.
  - cbn. lia.
  - reflexivity.
  - vm_compute. repeat constructor; discriminate.
  - vm_compute. reflexivity.
Defined.

(** ** Round-trip time *)

Definition rtt_inv (ls : quicLossState) : Prop :=
  0 <= rttVar ls /\ 0 < smoothedRTT ls /\
  (if firstRTTDone ls then 0 < minRTT ls <= smoothedRTT ls else minRTT ls = 0).

Lemma quot_between a b n lo hi : 0 < n -> 0 <= a -> n * lo <= a -> a <= n * hi -> b = a ÷ n -> lo <= b <= hi.
Proof.
  intros Hn Ha H1 H2 ->. rewrite Z.quot_div_nonneg by lia.
  split; [apply Z.div_le_lower_bound; lia | apply Z.div_le_upper_bound; lia].
Qed.

(** The RTT estimator keeps its bounds. For every sample of at least the
    timer granularity and every non-negative reported delay, the smoothed RTT
    stays positive, at least the minimum RTT seen, and at most the larger of
    its previous value and the sample (the first sample is taken as it is);
    the variance stays non-negative. *)
Theorem updateRTT_bounds ls latest ackDelay : rtt_inv ls -> quicTimerGranularity <= latest -> 0 <= ackDelay ->
  let ls' := updateRTT ls latest ackDelay in
  rtt_inv ls' /\ firstRTTDone ls' = true /\ minRTT ls' <= latest /\
  (firstRTTDone ls = true -> smoothedRTT ls' <= Z.max (smoothedRTT ls) latest) /\
  (firstRTTDone ls = false -> smoothedRTT ls' = latest).
Proof.
  intros (Hv & Hs & Hm) Hl Hd ls'. unfold quicTimerGranularity in *. subst ls'. unfold rtt_inv, updateRTT.
  destruct (firstRTTDone ls) eqn:Hf; cbn [negb set_rtt rttVar smoothedRTT minRTT firstRTTDone].
  - set (m := if (minRTT ls =? 0) || (latest <? minRTT ls) then latest else minRTT ls).
    assert (Hmm : 0 < m <= latest /\ m <= smoothedRTT ls).
    { unfold m. destruct (Z.eqb_spec (minRTT ls) 0); [lia |]. destruct (Z.ltb_spec latest (minRTT ls)); cbn [orb]; lia. }
    clearbody m. set (a := if m + ackDelay <=? latest then latest - ackDelay else latest).
    assert (Ha : m <= a <= latest) by (unfold a; destruct (Z.leb_spec (m + ackDelay) latest); lia). clearbody a.
    assert (Hsm := quot_between (7 * smoothedRTT ls + a) _ 8 m (Z.max (smoothedRTT ls) latest) ltac:(lia) ltac:(lia) ltac:(lia) ltac:(lia) eq_refl).
    set (df := if _ <? 0 then _ else _). assert (0 <= df) by (unfold df; destruct (Z.ltb_spec (smoothedRTT ls - a) 0); lia).
    assert (0 <= (3 * rttVar ls + df) ÷ 4) by (apply Z.quot_pos; lia).
    repeat split; try done; lia.
  - rewrite Hm, Z.eqb_refl. cbn [orb]. assert (0 <= latest ÷ 2) by (apply Z.quot_pos; lia). repeat split; try done; lia.
Qed.

Lemma updateRTT_bounds_witness :
  let ls' := updateRTT newQuicLossState (3 * 10 ^ 6) 0 in
  rtt_inv ls' /\ firstRTTDone ls' = true /\ minRTT ls' <= 3 * 10 ^ 6 /\
  (firstRTTDone newQuicLossState = true -> smoothedRTT ls' <= Z.max (smoothedRTT newQuicLossState) (3 * 10 ^ 6)) /\
  (firstRTTDone newQuicLossState = false -> smoothedRTT ls' = 3 * 10 ^ 6).
Proof.
  apply (updateRTT_bounds newQuicLossState (3 * 10 ^ 6) 0); [vm_compute; repeat split; discriminate | vm_compute; discriminate | lia].
Defined.
