(* ===== verification/Utils.v ===== *)
(** Byte and number helpers (src/core/utils.go): ASCII case folding, and the
    decimal and hexadecimal readers and writers used for status codes,
    content lengths and chunk sizes. *)
From stdpp Require Import base list numbers strings.
From Stdlib Require Import ZArith Lia ZifyBool Ascii.
From S2P Require Import Prelude.

Open Scope list_scope.
Open Scope Z_scope.

(** A Go string literal is the list of its bytes. *)
Definition str (s : string) : bytes := map (fun a => Z.of_N (N_of_ascii a)) (String.list_ascii_of_string s).
Arguments str s%_string.

Definition bytes_eqb (a b : bytes) : bool := bool_decide (a = b).

(** ** ASCII case folding *)

Definition asciiLower (c : Z) : Z := if (65 <=? c) && (c <=? 90) then c + 32 else c.

Definition commonLowerHeaders : list (bytes * bytes) :=
  [(str "Content-Type", str "content-type");
   (str "Content-Length", str "content-length");
   (str "Content-Encoding", str "content-encoding");
   (str "Content-Disposition", str "content-disposition");
   (str "Cache-Control", str "cache-control");
   (str "Set-Cookie", str "set-cookie");
   (str "Accept", str "accept");
   (str "Accept-Encoding", str "accept-encoding");
   (str "Accept-Language", str "accept-language");
   (str "Authorization", str "authorization");
   (str "Connection", str "connection");
   (str "Host", str "host");
   (str "Location", str "location");
   (str "Server", str "server");
   (str "Date", str "date");
   (str "ETag", str "etag");
   (str "Vary", str "vary");
   (str "X-Content-Type-Options", str "x-content-type-options");
   (str "X-Frame-Options", str "x-frame-options");
   (str "Access-Control-Allow-Origin", str "access-control-allow-origin");
   (str "Strict-Transport-Security", str "strict-transport-security");
   (str "Transfer-Encoding", str "transfer-encoding");
   (str "User-Agent", str "user-agent");
   (str "Referer", str "referer");
   (str "Cookie", str "cookie");
   (str "Upgrade", str "upgrade");
   (str "Origin", str "origin");
   (str "Sec-WebSocket-Key", str "sec-websocket-key");
   (str "Sec-WebSocket-Version", str "sec-websocket-version")].

Fixpoint assoc_get {A} (l : list (bytes * A)) (k : bytes) : option A :=
  match l with
  | [] => None
  | (k', v) :: l => if bytes_eqb k' k then Some v else assoc_get l k
  end.

Definition ToLowerASCII (s : bytes) : bytes :=
  match assoc_get commonLowerHeaders s with
  | Some low => low
  | None => if existsb (fun c => negb (asciiLower c =? c)) s then map asciiLower s else s
  end.

(** [EqualFoldASCII]: eight bytes at a time, then the rest. *)
Fixpoint eqFoldTail (a b : bytes) : bool :=
  match a, b with
  | [], _ => true
  | x :: a, y :: b => if asciiLower x =? asciiLower y then eqFoldTail a b else false
  | _ :: _, [] => false
  end.

Fixpoint eqFoldBlocks (a b : bytes) : bool :=
  match a, b with
  | x0 :: x1 :: x2 :: x3 :: x4 :: x5 :: x6 :: x7 :: a', y0 :: y1 :: y2 :: y3 :: y4 :: y5 :: y6 :: y7 :: b' =>
      if negb (asciiLower x0 =? asciiLower y0) || negb (asciiLower x1 =? asciiLower y1) ||
         negb (asciiLower x2 =? asciiLower y2) || negb (asciiLower x3 =? asciiLower y3) ||
         negb (asciiLower x4 =? asciiLower y4) || negb (asciiLower x5 =? asciiLower y5) ||
         negb (asciiLower x6 =? asciiLower y6) || negb (asciiLower x7 =? asciiLower y7)
      then false else eqFoldBlocks a' b'
  | _, _ => eqFoldTail a b
  end.

Definition EqualFoldASCII (a b : bytes) : bool :=
  if bytes_eqb a b then true else
  if negb (zlen a =? zlen b) then false else eqFoldBlocks a b.

Definition headerNameIs (name lower : bytes) : bool :=
  (zlen name =? zlen lower) && forallb (fun p => asciiLower (fst p) =? snd p) (zip name lower).

(** ** Numbers *)

Definition maxParsedLength : Z := Z.shiftl 1 50.

Definition digitVal (c : Z) : Z := if (48 <=? c) && (c <=? 57) then c - 48 else 0xFF.

Fixpoint parseUintLoop (s : bytes) (n : Z) : option Z :=
  match s with
  | [] => Some n
  | c :: s =>
      let d := digitVal c in
      if d =? 0xFF then None else
      let n := i64 (n * 10 + d) in
      if (n <? 0) || (maxParsedLength <? n) then None else parseUintLoop s n
  end.
Definition parseUint (s : bytes) : option Z := if zlen s =? 0 then None else parseUintLoop s 0.

Definition hexValid (c : Z) : bool :=
  ((48 <=? c) && (c <=? 57)) || ((97 <=? c) && (c <=? 102)) || ((65 <=? c) && (c <=? 70)).
Definition hexLookup (c : Z) : Z :=
  if (48 <=? c) && (c <=? 57) then c - 48 else
  if (97 <=? c) && (c <=? 102) then c - 87 else
  if (65 <=? c) && (c <=? 70) then c - 55 else 0.

Fixpoint parseHexLoop (b : bytes) (n : Z) : option Z :=
  match b with
  | [] => Some n
  | c :: b =>
      if negb (hexValid c) then None else
      let n := i64 (Z.lor (Z.shiftl n 4) (hexLookup c)) in
      if (n <? 0) || (maxParsedLength <? n) then None else parseHexLoop b n
  end.
Definition parseHex64Bytes (b : bytes) : option Z := if zlen b =? 0 then None else parseHexLoop b 0.

Definition digitPairs : list Z :=
  [0x3030; 0x3130; 0x3230; 0x3330; 0x3430; 0x3530; 0x3630; 0x3730; 0x3830; 0x3930;
   0x3031; 0x3131; 0x3231; 0x3331; 0x3431; 0x3531; 0x3631; 0x3731; 0x3831; 0x3931;
   0x3032; 0x3132; 0x3232; 0x3332; 0x3432; 0x3532; 0x3632; 0x3732; 0x3832; 0x3932;
   0x3033; 0x3133; 0x3233; 0x3333; 0x3433; 0x3533; 0x3633; 0x3733; 0x3833; 0x3933;
   0x3034; 0x3134; 0x3234; 0x3334; 0x3434; 0x3534; 0x3634; 0x3734; 0x3834; 0x3934;
   0x3035; 0x3135; 0x3235; 0x3335; 0x3435; 0x3535; 0x3635; 0x3735; 0x3835; 0x3935;
   0x3036; 0x3136; 0x3236; 0x3336; 0x3436; 0x3536; 0x3636; 0x3736; 0x3836; 0x3936;
   0x3037; 0x3137; 0x3237; 0x3337; 0x3437; 0x3537; 0x3637; 0x3737; 0x3837; 0x3937;
   0x3038; 0x3138; 0x3238; 0x3338; 0x3438; 0x3538; 0x3638; 0x3738; 0x3838; 0x3938;
   0x3039; 0x3139; 0x3239; 0x3339; 0x3439; 0x3539; 0x3639; 0x3739; 0x3839; 0x3939].

(** The two bytes [digitPairs[d]] puts at [buf[i]], little-endian. *)
Definition digitPair (d : Z) : bytes :=
  let w := nth (Z.to_nat d) digitPairs 0 in [Z.land w 0xff; Z.shiftr w 8].

(** The loops fill a 20-byte (16-byte) buffer from its end; [acc] is the
    filled part. *)
Fixpoint appendUintLoop (fuel : nat) (n : Z) (acc : bytes) : bytes :=
  match fuel with
  | O => acc
  | S fuel =>
      if 100 <=? n then appendUintLoop fuel (n ÷ 100) (digitPair (Z.rem n 100) ++ acc)
      else if 10 <=? n then digitPair n ++ acc
      else u8 (u8 n + 48) :: acc
  end.
Definition appendUint (dst : bytes) (n : Z) : bytes :=
  if n =? 0 then dst ++ [48] else dst ++ appendUintLoop 10 n [].

Fixpoint appendHexLoop (fuel : nat) (n : Z) (acc : bytes) : bytes :=
  match fuel with
  | O => acc
  | S fuel =>
      if 0 <? n then
        let d := u8 (Z.land n 0xf) in
        appendHexLoop fuel (Z.shiftr n 4) ((if d <? 10 then u8 (d + 48) else u8 (d - 10 + 97)) :: acc)
      else acc
  end.
Definition appendHex (dst : bytes) (n : Z) : bytes :=
  if n =? 0 then dst ++ [48] else dst ++ appendHexLoop 16 n [].

(** ** Case folding *)

Lemma bytes_eqb_spec a b : bytes_eqb a b = true <-> a = b.
Proof. unfold bytes_eqb. by rewrite bool_decide_eq_true. Qed.

Lemma assoc_get_in {A} (l : list (bytes * A)) k v : assoc_get l k = Some v -> (k, v) ∈ l.
Proof.
  induction l as [| [k' v'] l IH]; [done |]. simpl. destruct (bytes_eqb k' k) eqn:E.
  - apply bytes_eqb_spec in E as ->. intros [= ->]. constructor.
  - intros H. apply list_elem_of_further; auto.
Qed.

(** The table of common headers agrees with folding byte by byte. *)
Lemma ToLowerASCII_map s : ToLowerASCII s = map asciiLower s.
Proof.
  assert (Hc : Forall (fun kv => snd kv = map asciiLower (fst kv)) commonLowerHeaders) by (repeat constructor).
  unfold ToLowerASCII. destruct (assoc_get _ s) as [low |] eqn:E.
  - apply assoc_get_in in E. rewrite Forall_forall in Hc. apply (Hc _ E).
  - destruct (existsb _ s) eqn:Ex; [done |]. clear E Hc. induction s as [| c s IH]; [done |].
    simpl in *. apply orb_false_iff in Ex as [E1 E2]. rewrite <- IH by done. f_equal. lia.
Qed.

Lemma eqFoldTail_spec a b : length a = length b -> eqFoldTail a b = true <-> map asciiLower a = map asciiLower b.
Proof.
  revert b. induction a as [| x a IH]; intros [| y b] Hl; simpl in *; try done.
  destruct (asciiLower x =? asciiLower y) eqn:E.
  - rewrite IH by lia. split; [intros ->; f_equal; lia | intros [= _ H]; exact H].
  - split; [done |]. intros [= H _]. lia.
Qed.

Lemma eqFoldBlocks_tail n a b : (length a <= n)%nat -> length a = length b -> eqFoldBlocks a b = eqFoldTail a b.
Proof.
  revert a b. induction n as [| n IH]; intros a b Hn Hl; [destruct a, b; simpl in *; try done; lia |].
  do 8 (destruct a as [| ? a]; [by destruct b |]). do 8 (destruct b as [| ? b]; [done |]).
  cbn [eqFoldBlocks eqFoldTail]. rewrite <- IH by (simpl in *; lia).
  repeat (destruct (asciiLower _ =? asciiLower _); [| done]; cbn [negb orb]). done.
Qed.

(** [EqualFoldASCII] compares the lower-cased strings. *)
Lemma EqualFoldASCII_spec a b : EqualFoldASCII a b = bytes_eqb (map asciiLower a) (map asciiLower b).
Proof.
  apply eq_bool_prop_intro. rewrite !Is_true_true, bytes_eqb_spec. unfold EqualFoldASCII.
  destruct (bytes_eqb a b) eqn:E; [apply bytes_eqb_spec in E as ->; done |].
  destruct (zlen a =? zlen b) eqn:El; cbn [negb].
  - unfold zlen in El. rewrite (eqFoldBlocks_tail (length a)) by lia. apply eqFoldTail_spec. lia.
  - split; [done |]. intros H. apply (f_equal length) in H. rewrite !length_map in H. unfold zlen in El. lia.
Qed.

(** ** Number readers and writers *)

(** The value of a digit string in a base, by Horner's rule. *)
Definition horner (base : Z) (digit : Z -> Z) (s : bytes) (n : Z) : Z := fold_left (fun n c => n * base + digit c) s n.

Lemma horner_app base digit a b n : horner base digit (a ++ b) n = horner base digit b (horner base digit a n).
Proof. apply fold_left_app. Qed.

Lemma horner_mono base digit s n : 1 <= base -> 0 <= n -> Forall (fun c => 0 <= digit c) s -> n <= horner base digit s n.
Proof.
  intros Hb Hn Hs. revert n Hn. induction Hs as [| c s Hc _ IH]; intros n Hn; [simpl; lia |].
  simpl. specialize (IH (n * base + digit c)). fold (horner base digit s (n * base + digit c)). nia.
Qed.

(** Both readers are the same bounded Horner scheme. *)
Fixpoint boundedHorner (valid : Z -> bool) (digit : Z -> Z) (base : Z) (s : bytes) (n : Z) : option Z :=
  match s with
  | [] => Some n
  | c :: s =>
      if negb (valid c) then None else
      if maxParsedLength <? n * base + digit c then None
      else boundedHorner valid digit base s (n * base + digit c)
  end.

Definition is_digit (c : Z) : bool := (48 <=? c) && (c <=? 57).
Definition digit_of (c : Z) : Z := c - 48.

Lemma parseUintLoop_horner s n : 0 <= n <= maxParsedLength -> parseUintLoop s n = boundedHorner is_digit digit_of 10 s n.
Proof.
  revert n. induction s as [| c s IH]; intros n Hn; [done |]. cbn [parseUintLoop boundedHorner].
  unfold digitVal, is_digit, digit_of in *. destruct ((48 <=? c) && (c <=? 57)) eqn:E; [| done].
  change maxParsedLength with (2 ^ 50) in *. replace (c - 48 =? 255) with false by lia. cbn [negb]. rewrite i64_small by lia.
  replace (n * 10 + (c - 48) <? 0) with false by lia. cbn [orb]. destruct (2 ^ 50 <? _) eqn:E2; [done |]. apply IH. lia.
Qed.

Lemma hexLookup_range c : 0 <= hexLookup c < 16.
Proof. unfold hexLookup. repeat split_if; lia. Qed.

Lemma parseHexLoop_horner s n : 0 <= n <= maxParsedLength -> parseHexLoop s n = boundedHorner hexValid hexLookup 16 s n.
Proof.
  revert n. induction s as [| c s IH]; intros n Hn; [done |]. cbn [parseHexLoop boundedHorner]. pose proof (hexLookup_range c).
  destruct (hexValid c); [| done]. cbn [negb]. rewrite Z.shiftl_mul_pow2, lor_disjoint by lia.
  change maxParsedLength with (2 ^ 50) in *. change (2 ^ 4) with 16. rewrite i64_small by lia.
  replace (n * 16 + hexLookup c <? 0) with false by lia. cbn [orb]. destruct (2 ^ 50 <? _) eqn:E2; [done |]. apply IH. lia.
Qed.

Lemma boundedHorner_spec valid digit base s n : 1 <= base -> 0 <= n <= maxParsedLength -> (forall c, valid c = true -> 0 <= digit c) ->
  boundedHorner valid digit base s n =
    if forallb valid s && (horner base digit s n <=? maxParsedLength) then Some (horner base digit s n) else None.
Proof.
  intros Hb Hn Hd. revert n Hn. induction s as [| c s IH]; intros n Hn; cbn [boundedHorner forallb].
  { simpl. by replace (n <=? maxParsedLength) with true by lia. }
  destruct (valid c) eqn:Hc; [| done]. cbn [negb andb]. specialize (Hd c Hc) as Hdc.
  change (horner base digit (c :: s) n) with (horner base digit s (n * base + digit c)).
  destruct (maxParsedLength <? _) eqn:E; [| apply IH; nia].
  destruct (forallb valid s) eqn:Hs; [| done]. cbn [andb].
  assert (n * base + digit c <= horner base digit s (n * base + digit c)).
  { apply horner_mono; [done | nia |]. apply Forall_forall. intros x Hx. apply Hd. rewrite forallb_forall in Hs. by apply Hs, list_elem_of_In. }
  by replace (_ <=? maxParsedLength) with false by lia.
Qed.

(** What the decimal writer produces: digits spelling the number. *)
Lemma digitPair_spec d : 0 <= d < 100 ->
  digitPair d = [48 + d / 10; 48 + d mod 10].
Proof.
  intros Hd. assert (H : forallb (fun d => bytes_eqb (digitPair d) [48 + d / 10; 48 + d mod 10]) (seqZ 0 100) = true) by (vm_compute; reflexivity).
  rewrite forallb_forall in H. apply bytes_eqb_spec, H, list_elem_of_In, elem_of_seqZ. lia.
Qed.

Definition spells (valid : Z -> bool) (digit : Z -> Z) (base : Z) (s : bytes) (v : Z) : Prop :=
  forallb valid s = true /\ horner base digit s 0 = v.

Lemma horner_acc base digit s n : horner base digit s n = n * base ^ zlen s + horner base digit s 0.
Proof.
  revert n. induction s as [| c s IH]; intros n; [simpl; change (zlen (@nil Z)) with 0; lia |].
  change (horner base digit (c :: s) n) with (horner base digit s (n * base + digit c)).
  change (horner base digit (c :: s) 0) with (horner base digit s (0 * base + digit c)).
  rewrite (IH (n * base + digit c)), (IH (0 * base + digit c)), zlen_cons, Z.pow_add_r; [ring | lia | apply zlen_nonneg].
Qed.

Lemma spells_pair d acc v : 0 <= d < 100 -> spells is_digit digit_of 10 acc v ->
  spells is_digit digit_of 10 (digitPair d ++ acc) (d * 10 ^ zlen acc + v).
Proof.
  intros Hd [H1 H2]. rewrite digitPair_spec by done.
  assert (0 <= d / 10 < 10) by (split; [apply Z.div_pos | apply Z.div_lt_upper_bound]; lia).
  pose proof (Z.mod_pos_bound d 10). split.
  - cbn [app forallb]. unfold is_digit at 1 2. rewrite H1. lia.
  - rewrite horner_app, horner_acc, H2. f_equal. f_equal. unfold horner, digit_of. cbn [fold_left].
    pose proof (Z.div_mod d 10). lia.
Qed.

Lemma appendUintLoop_spec fuel n acc v : 0 < n < 100 ^ Z.of_nat fuel -> spells is_digit digit_of 10 acc v ->
  let out := appendUintLoop fuel n acc in
  spells is_digit digit_of 10 out (n * 10 ^ zlen acc + v) /\ zlen out <= 2 * Z.of_nat fuel + zlen acc /\ znth out 0 <> 48.
Proof.
  revert n acc v. induction fuel as [| fuel IH]; intros n acc v Hn Ha; [simpl in Hn; lia |]. cbn [appendUintLoop].
  rewrite Nat2Z.inj_succ, Z.pow_succ_r in Hn by lia. destruct (100 <=? n) eqn:E.
  - rewrite Z.quot_div_nonneg, Z.rem_mod_nonneg by lia. pose proof (Z.mod_pos_bound n 100). pose proof (Z.div_mod n 100).
    destruct (IH (n / 100) (digitPair (n mod 100) ++ acc) (n mod 100 * 10 ^ zlen acc + v)) as (I1 & I2 & I3).
    { split; [apply Z.div_str_pos; lia | apply Z.div_lt_upper_bound; lia]. }
    { apply spells_pair; [lia | done]. }
    cbv zeta. assert (Hz : zlen (digitPair (n mod 100) ++ acc) = 2 + zlen acc) by (by rewrite zlen_app). rewrite Hz in I1, I2.
    split; [| split; [lia | done]]. rewrite Z.pow_add_r in I1 by (lia || apply zlen_nonneg).
    replace (n * 10 ^ zlen acc + v) with (n / 100 * (10 ^ 2 * 10 ^ zlen acc) + (n mod 100 * 10 ^ zlen acc + v)); [done |].
    rewrite (Z.div_mod n 100) at 3 by lia. ring.
  - destruct (10 <=? n) eqn:E2; cbv zeta.
    + split; [apply spells_pair; [lia | done] |]. rewrite zlen_app. change (zlen (digitPair n)) with 2. split; [lia |].
      rewrite digitPair_spec by lia. unfold znth. simpl. assert (1 <= n / 10) by (apply Z.div_le_lower_bound; lia). lia.
    + rewrite (u8_small n), u8_small by lia. rewrite zlen_cons. split; [| split; [lia |]].
      * destruct Ha as [H1 H2]. split; [simpl; rewrite H1; unfold is_digit; lia |].
        change (horner 10 digit_of (n + 48 :: acc) 0) with (horner 10 digit_of acc (0 * 10 + digit_of (n + 48))).
        rewrite horner_acc, H2. unfold digit_of. f_equal. f_equal. lia.
      * unfold znth. simpl. lia.
Qed.

Lemma hex_digit d : 0 <= d < 16 ->
  let c := if d <? 10 then u8 (d + 48) else u8 (d - 10 + 97) in hexValid c = true /\ hexLookup c = d /\ is_u8 c.
Proof.
  intros Hd c. assert (H : forallb (fun d => let c := if d <? 10 then u8 (d + 48) else u8 (d - 10 + 97) in hexValid c && (hexLookup c =? d)) (seqZ 0 16) = true)
    by (vm_compute; reflexivity).
  rewrite forallb_forall in H. specialize (H d). rewrite <- list_elem_of_In, elem_of_seqZ in H. specialize (H ltac:(lia)).
  cbv zeta in H. fold c in H. apply andb_true_iff in H as [H1 H2]. split; [done |]. split; [lia |].
  unfold c. destruct (d <? 10); apply u8_range.
Qed.

Lemma appendHexLoop_spec fuel n acc v : 0 <= n < 16 ^ Z.of_nat fuel -> spells hexValid hexLookup 16 acc v -> bytes_ok acc ->
  let out := appendHexLoop fuel n acc in
  spells hexValid hexLookup 16 out (n * 16 ^ zlen acc + v) /\ zlen out <= Z.of_nat fuel + zlen acc /\ bytes_ok out /\
  zlen acc + (if 0 <? n then 1 else 0) <= zlen out.
Proof.
  revert n acc v. induction fuel as [| fuel IH]; intros n acc v Hn Ha Hok; cbn [appendHexLoop].
  { cbv zeta. replace n with 0 by (simpl in Hn; lia). rewrite Z.mul_0_l, Z.add_0_l. simpl. split; [done |]. split; [lia |]. split; [done | lia]. }
  destruct (0 <? n) eqn:E; cbv zeta.
  2: { replace n with 0 by lia. rewrite Z.mul_0_l, Z.add_0_l. split; [done |]. split; [lia |]. split; [done | lia]. }
  change 0xf with (2 ^ 4 - 1). rewrite land_ones_mod, Z.shiftr_div_pow2 by lia. change (2 ^ 4) with 16.
  pose proof (Z.mod_pos_bound n 16 ltac:(lia)). rewrite u8_small by lia.
  destruct (hex_digit (n mod 16) ltac:(done)) as (C1 & C2 & C3). cbv zeta in C1, C2, C3. set (c := if _ <? 10 then _ else _) in *.
  destruct (IH (n / 16) (c :: acc) (n mod 16 * 16 ^ zlen acc + v)) as (I1 & I2 & I3 & I4).
  - rewrite Nat2Z.inj_succ, Z.pow_succ_r in Hn by lia. split; [apply Z.div_pos; lia | apply Z.div_lt_upper_bound; lia].
  - destruct Ha as [H1 H2]. split; [simpl; by rewrite C1, H1 |].
    change (horner 16 hexLookup (c :: acc) 0) with (horner 16 hexLookup acc (0 * 16 + hexLookup c)). rewrite horner_acc, H2, C2. ring.
  - by constructor.
  - rewrite zlen_cons in I1, I2. rewrite Z.pow_add_r in I1 by (lia || apply zlen_nonneg). split; [| split; [lia | split; [done |]]].
    + replace (n * 16 ^ zlen acc + v) with (n / 16 * (16 ^ 1 * 16 ^ zlen acc) + (n mod 16 * 16 ^ zlen acc + v)); [done |].
      rewrite (Z.div_mod n 16) at 3 by lia. ring.
    + rewrite zlen_cons in I4. destruct (0 <? n / 16); lia.
Qed.

Lemma parse_dec_spec s : parseUint s =
  if (0 <? zlen s) && forallb is_digit s && (horner 10 digit_of s 0 <=? maxParsedLength) then Some (horner 10 digit_of s 0) else None.
Proof.
  unfold parseUint. pose proof (zlen_nonneg s). destruct (zlen s =? 0) eqn:E; [by replace (0 <? zlen s) with false by lia |].
  replace (0 <? zlen s) with true by lia. rewrite parseUintLoop_horner by (change maxParsedLength with (2 ^ 50); lia).
  apply boundedHorner_spec; [lia | change maxParsedLength with (2 ^ 50); lia |]. unfold is_digit, digit_of. lia.
Qed.

Lemma parse_hex_spec s : parseHex64Bytes s =
  if (0 <? zlen s) && forallb hexValid s && (horner 16 hexLookup s 0 <=? maxParsedLength) then Some (horner 16 hexLookup s 0) else None.
Proof.
  unfold parseHex64Bytes. pose proof (zlen_nonneg s). destruct (zlen s =? 0) eqn:E; [by replace (0 <? zlen s) with false by lia |].
  replace (0 <? zlen s) with true by lia. rewrite parseHexLoop_horner by (change maxParsedLength with (2 ^ 50); lia).
  apply boundedHorner_spec; [lia | change maxParsedLength with (2 ^ 50); lia |]. intros c _. apply hexLookup_range.
Qed.

(** What the writers append. *)
Lemma appendUint_spells dst n : 0 <= n < 2 ^ 63 ->
  exists s, appendUint dst n = dst ++ s /\ spells is_digit digit_of 10 s n /\ 1 <= zlen s <= 20 /\ (n <> 0 -> znth s 0 <> 48).
Proof.
  intros Hn. unfold appendUint. destruct (n =? 0) eqn:E.
  { exists [48]. assert (n = 0) as -> by lia. done. }
  exists (appendUintLoop 10 n []). split; [done |].
  destruct (appendUintLoop_spec 10 n [] 0) as (H1 & H2 & H3); [simpl; lia | done |]. cbv zeta in H1, H2, H3.
  change (zlen (@nil Z)) with 0 in *. rewrite Z.mul_1_r, Z.add_0_r in H1. split; [done |]. split; [| done]. split; [| lia].
  destruct (appendUintLoop 10 n []) as [| c s] eqn:Es; [| rewrite zlen_cons; pose proof (zlen_nonneg s); lia].
  destruct H1 as [_ H1]. simpl in H1. lia.
Qed.

Lemma appendHex_spells dst n : 0 <= n < 2 ^ 63 ->
  exists s, appendHex dst n = dst ++ s /\ spells hexValid hexLookup 16 s n /\ 1 <= zlen s <= 16 /\ bytes_ok s.
Proof.
  intros Hn. unfold appendHex. destruct (n =? 0) eqn:E.
  { exists [48]. assert (n = 0) as -> by lia. split; [done |]. split; [done |]. split; [done | by repeat constructor]. }
  exists (appendHexLoop 16 n []). split; [done |].
  destruct (appendHexLoop_spec 16 n [] 0) as (H1 & H2 & H3 & H4); [simpl; lia | done | constructor |]. cbv zeta in H1, H2, H3, H4.
  change (zlen (@nil Z)) with 0 in *. rewrite Z.mul_1_r, Z.add_0_r in H1. replace (0 <? n) with true in H4 by lia.
  split; [done |]. split; [lia | done].
Qed.

(** Numbers are written and read back exactly. For every non-negative
    64-bit integer the decimal writer appends at most 20 digits (its buffer's
    size) without a leading zero and the hexadecimal writer at most 16; the
    readers give the number back, and refuse it when it is above 2^50. *)
Theorem number_format_roundtrip dst n : 0 <= n < 2 ^ 63 ->
  (exists s, appendUint dst n = dst ++ s /\ zlen s <= 20 /\ (n <> 0 -> znth s 0 <> 48) /\
     parseUint s = if n <=? maxParsedLength then Some n else None) /\
  (exists s, appendHex dst n = dst ++ s /\ zlen s <= 16 /\
     parseHex64Bytes s = if n <=? maxParsedLength then Some n else None).
Proof.
  intros Hn. split.
  - destruct (appendUint_spells dst n Hn) as (s & E & [S1 S2] & L & Z0). exists s. split; [done |]. split; [lia |]. split; [done |].
    rewrite parse_dec_spec, S1, S2. by replace (0 <? zlen s) with true by lia.
  - destruct (appendHex_spells dst n Hn) as (s & E & [S1 S2] & L & _). exists s. split; [done |]. split; [lia |].
    rewrite parse_hex_spec, S1, S2. by replace (0 <? zlen s) with true by lia.
Qed.

Lemma number_format_roundtrip_witness :
  appendUint [] 1204 = [49; 50; 48; 52] /\ appendHex [] 255 = [102; 102] /\
  (exists s, appendUint [7] 1204 = [7] ++ s /\ parseUint s = Some 1204).
Proof.
  split; [vm_compute; reflexivity |]. split; [vm_compute; reflexivity |].
  assert (H : 0 <= 1204 < 2 ^ 63) by lia. destruct (number_format_roundtrip [7] 1204 H) as [(s & E & _ & _ & P) _]. by exists s.
Defined.

Lemma guarded_some (a b : bool) (h m v : Z) :
  (if a && b && (h <=? m) then Some h else None) = Some v <-> a = true /\ b = true /\ h = v /\ v <= m.
Proof.
  destruct a, b; cbn [andb]; try (split; [discriminate | by intros (? & ? & _)]).
  destruct (h <=? m) eqn:E; (split; [intros [=] | intros (_ & _ & -> & H)]); subst; try done; [repeat split; lia | lia].
Qed.

(** The number readers accept exactly the non-empty digit strings whose
    value is at most 2^50, and return that value; no input makes them wrap
    around. *)
Theorem number_parse_exact s v :
  (parseUint s = Some v <-> s <> [] /\ forallb is_digit s = true /\ horner 10 digit_of s 0 = v /\ v <= maxParsedLength) /\
  (parseHex64Bytes s = Some v <-> s <> [] /\ forallb hexValid s = true /\ horner 16 hexLookup s 0 = v /\ v <= maxParsedLength).
Proof.
  assert (Hz : (0 <? zlen s) = true <-> s <> []).
  { destruct s as [| c s]; [by split |]. rewrite zlen_cons. pose proof (zlen_nonneg s). split; [done | lia]. }
  rewrite parse_dec_spec, parse_hex_spec. rewrite <- Hz. split; apply guarded_some.
Qed.
