(* ===== verification/HpackInt.v ===== *)
(** HPACK prefix integers (src/core/hpack.go: [HpackEncoder.EncodeInt],
    [HpackDecodeInt]; RFC 7541 section 5.1). The encoder appends to a buffer,
    the decoder returns the value and the bytes consumed, 0 bytes meaning a
    malformed or truncated integer. *)
From stdpp Require Import base list numbers.
From Stdlib Require Import ZArith Lia ZifyBool.
From S2P Require Import Prelude.

(** ** Code *)

(** The loop of [EncodeInt]: a [uint64] leaves it after at most ten rounds. *)
Fixpoint encodeIntLoop (fuel : nat) (buf : bytes) (val : Z) : bytes :=
  match fuel with
  | O => buf
  | S fuel =>
      if 128 <=? val then encodeIntLoop fuel (buf ++ [Z.lor (u8 (Z.land val 0x7f)) 0x80]) (Z.shiftr val 7)
      else buf ++ [u8 val]
  end.

Definition EncodeInt (buf : bytes) (prefix prefixBits val : Z) : bytes :=
  let maxFirst := u64 (u64 (Z.shiftl 1 prefixBits) - 1) in
  if val <? maxFirst then buf ++ [Z.lor prefix (u8 val)] else
  encodeIntLoop 10 (buf ++ [Z.lor prefix (u8 maxFirst)]) (val - maxFirst).

(** The loop of [HpackDecodeInt] from byte [i] on. *)
Fixpoint decodeIntLoop (data : bytes) (val m i : Z) : Z * Z :=
  match data with
  | [] => (0, 0)
  | b :: data =>
      let i := i + 1 in
      if (63 <? m) || (Z.shiftr (2 ^ 64 - 1 - val) m <? Z.land b 0x7f) then (0, 0) else
      let val := u64 (val + u64 (Z.shiftl (Z.land b 0x7f) m)) in
      let m := m + 7 in
      if Z.land b 0x80 =? 0 then (val, i) else decodeIntLoop data val m i
  end.

Definition HpackDecodeInt (data : bytes) (prefixBits : Z) : Z * Z :=
  match data with
  | [] => (0, 0)
  | b0 :: tail =>
      if 7 <? u8 (prefixBits - 1) then (0, 0) else
      let mask := u8 (Z.shiftl 1 prefixBits - 1) in
      let val := Z.land b0 mask in
      if val <? mask then (val, 1) else decodeIntLoop tail val 0 1
  end.

(** ** Lemmas *)

(** The bytes after the first one, as the loop writes them. *)
Fixpoint varTail (fuel : nat) (val : Z) : bytes :=
  match fuel with
  | O => []
  | S fuel => if 128 <=? val then (val mod 128 + 128) :: varTail fuel (val / 128) else [val]
  end.

Lemma lor_128 v : Z.lor (u8 (Z.land v 0x7f)) 0x80 = v mod 128 + 128.
Proof.
  change 0x7f with (2 ^ 7 - 1). rewrite land_ones_mod by lia. change (2 ^ 7) with 128.
  pose proof (Z.mod_pos_bound v 128 ltac:(lia)). rewrite u8_small by lia.
  rewrite Z.lor_comm. pose proof (lor_disjoint 1 (v mod 128) 7 ltac:(lia) ltac:(lia)) as Hd. change (1 * 2 ^ 7) with 0x80 in Hd. lia.
Qed.

Lemma encodeIntLoop_tail fuel : forall buf val, 0 <= val < 2 ^ (7 * Z.of_nat fuel) ->
  encodeIntLoop fuel buf val = buf ++ varTail fuel val.
Proof.
  induction fuel as [|fuel IH]; intros buf val Hv; cbn [encodeIntLoop varTail]; [by rewrite app_nil_r |].
  destruct (Z.leb_spec 128 val) as [Hge | Hlt]; [| by rewrite u8_small by lia].
  rewrite lor_128, Z.shiftr_div_pow2 by lia. change (2 ^ 7) with 128.
  rewrite IH, <- app_assoc; [done |]. replace (7 * Z.of_nat (S fuel)) with (7 * Z.of_nat fuel + 7) in Hv by lia.
  rewrite Z.pow_add_r in Hv by lia. change (2 ^ 7) with 128 in Hv.
  split; [apply Z.div_pos; lia | apply Z.div_lt_upper_bound; lia].
Qed.

Lemma land_127 b : Z.land b 0x7f = b mod 128.
Proof. change 0x7f with (2 ^ 7 - 1). by rewrite land_ones_mod by lia. Qed.

Lemma land_128_small b : 0 <= b < 128 -> Z.land b 0x80 = 0.
Proof. intros Hb. rewrite Z.land_comm. change 0x80 with (1 * 2 ^ 7). by apply land_disjoint_zero. Qed.

Lemma land_128_high b : 0 <= b < 128 -> Z.land (b + 128) 0x80 <> 0.
Proof.
  intros Hb. replace (b + 128) with (Z.lor (1 * 2 ^ 7) b) by (rewrite lor_disjoint by lia; lia).
  rewrite Z.land_lor_distr_l, (land_128_small b Hb). by compute.
Qed.

(** The overflow test is exact. *)
Lemma room_exact val m d : 0 <= m -> (Z.shiftr (2 ^ 64 - 1 - val) m <? d) = false <-> val + d * 2 ^ m < 2 ^ 64.
Proof.
  intros Hm. rewrite Z.shiftr_div_pow2 by lia. rewrite Z.ltb_ge. split.
  - intros Hd. pose proof (Z.mul_div_le (2 ^ 64 - 1 - val) (2 ^ m) ltac:(lia)). nia.
  - intros Hd. apply Z.div_le_lower_bound; lia.
Qed.

Lemma decodeIntLoop_step b data val m i : 0 <= m <= 63 -> 0 <= val -> is_u8 b -> val + (b mod 128) * 2 ^ m < 2 ^ 64 ->
  decodeIntLoop (b :: data) val m i =
  if b <? 128 then (val + b * 2 ^ m, i + 1) else decodeIntLoop data (val + (b mod 128) * 2 ^ m) (m + 7) (i + 1).
Proof.
  intros Hm Hv Hb Hr. cbn [decodeIntLoop]. rewrite land_127. unfold is_u8 in Hb.
  pose proof (Z.mod_pos_bound b 128 ltac:(lia)).
  assert (Hroom := proj2 (room_exact val m (b mod 128) ltac:(lia)) Hr). rewrite Hroom.
  replace (63 <? m) with false by lia. cbn [orb]. rewrite Z.shiftl_mul_pow2 by lia.
  assert (0 <= (b mod 128) * 2 ^ m) by (apply Z.mul_nonneg_nonneg; lia).
  rewrite (u64_small (b mod 128 * 2 ^ m)), u64_small by lia.
  destruct (Z.ltb_spec b 128).
  - rewrite land_128_small by lia. cbn. by rewrite Z.mod_small by lia.
  - assert (Hh : (Z.land b 0x80 =? 0) = false).
    { apply Z.eqb_neq. replace b with ((b - 128) + 128) by lia. apply land_128_high. lia. }
    by rewrite Hh.
Qed.

Lemma varTail_roundtrip fuel : forall val acc m i rest, 0 <= val -> 0 <= acc -> 0 <= m -> acc + val * 2 ^ m < 2 ^ 64 ->
  val < 2 ^ (7 * Z.of_nat fuel) ->
  (0 < fuel)%nat -> m <= 63 ->
  decodeIntLoop (varTail fuel val ++ rest) acc m i = (acc + val * 2 ^ m, i + zlen (varTail fuel val)).
Proof.
  induction fuel as [|fuel IH]; intros val acc m i rest Hv Ha Hm Hb Hf Hc Hm63.
  { lia. }
  cbn [varTail]. pose proof (Z.mod_pos_bound val 128 ltac:(lia)) as Hmod. pose proof (Z.div_mod val 128 ltac:(lia)) as Hdm.
  destruct (Z.leb_spec 128 val) as [Hge | Hlt].
  - rewrite <- app_comm_cons. assert (Hmm : (val mod 128 + 128) mod 128 = val mod 128).
    { rewrite <- (Z.add_mod_idemp_r _ 128) by lia. rewrite Z.mod_same, Z.add_0_r, Z.mod_mod by lia. done. }
    assert (Hq : 1 <= val / 128) by (apply Z.div_le_lower_bound; lia).
    assert (Hsum : val * 2 ^ m = (val mod 128) * 2 ^ m + (val / 128) * 2 ^ (m + 7)).
    { rewrite Z.pow_add_r by lia. change (2 ^ 7) with 128. rewrite Hdm at 1. ring. }
    assert (Hpos : 0 < 2 ^ (m + 7)) by lia. assert (0 <= (val mod 128) * 2 ^ m) by (apply Z.mul_nonneg_nonneg; lia).
    assert (Hm7 : m + 7 <= 63).
    { destruct (Z.le_gt_cases (m + 7) 63); [done |]. exfalso. assert (2 ^ 64 <= 2 ^ (m + 7)) by (apply Z.pow_le_mono_r; lia). nia. }
    rewrite decodeIntLoop_step by (unfold is_u8; rewrite ?Hmm; nia || lia). rewrite Hmm.
    replace (val mod 128 + 128 <? 128) with false by lia.
    assert (Hq7 : val / 128 < 2 ^ (7 * Z.of_nat fuel)).
    { replace (7 * Z.of_nat (S fuel)) with (7 * Z.of_nat fuel + 7) in Hf by lia.
      rewrite Z.pow_add_r in Hf by lia. change (2 ^ 7) with 128 in Hf. apply Z.div_lt_upper_bound; lia. }
    assert ((0 < fuel)%nat) by (destruct fuel; [change (2 ^ (7 * Z.of_nat 0)) with 1 in Hq7; lia | lia]).
    rewrite IH by lia. rewrite zlen_cons. f_equal; lia.
  - cbn [app]. rewrite decodeIntLoop_step; [| lia | lia | unfold is_u8; lia |].
    + replace (val <? 128) with true by lia. done.
    + rewrite Z.mod_small by lia. lia.
Qed.

Definition prefix_ok (prefix prefixBits : Z) : Prop :=
  1 <= prefixBits <= 8 /\ exists k, prefix = k * 2 ^ prefixBits /\ 0 <= prefix < 256.

Lemma mask_value pb : 1 <= pb <= 8 -> u8 (Z.shiftl 1 pb - 1) = 2 ^ pb - 1 /\ u64 (u64 (Z.shiftl 1 pb) - 1) = 2 ^ pb - 1 /\ 2 <= 2 ^ pb <= 256.
Proof.
  intros H. assert (Hc : pb = 1 \/ pb = 2 \/ pb = 3 \/ pb = 4 \/ pb = 5 \/ pb = 6 \/ pb = 7 \/ pb = 8) by lia.
  repeat destruct Hc as [-> | Hc]; try (subst pb); vm_compute; repeat split; discriminate.
Qed.

(** What [EncodeInt] appends. *)
Definition int_bytes (prefix pb val : Z) : bytes :=
  if val <? 2 ^ pb - 1 then [prefix + val] else (prefix + (2 ^ pb - 1)) :: varTail 10 (val - (2 ^ pb - 1)).

Lemma EncodeInt_bytes buf prefix pb val : prefix_ok prefix pb -> is_u64 val ->
  EncodeInt buf prefix pb val = buf ++ int_bytes prefix pb val.
Proof.
  intros (Hpb & k & -> & Hp) Hv. destruct (mask_value pb Hpb) as (Hm1 & Hm2 & Hm3). unfold is_u64 in Hv.
  unfold EncodeInt, int_bytes. rewrite Hm2. destruct (Z.ltb_spec val (2 ^ pb - 1)).
  - rewrite u8_small, lor_disjoint by lia. done.
  - rewrite u8_small, lor_disjoint by lia. rewrite encodeIntLoop_tail, <- app_assoc; [done |]. change (7 * Z.of_nat 10) with 70. lia.
Qed.

Lemma varTail_ok fuel : forall val, 0 <= val -> bytes_ok (varTail fuel val).
Proof.
  induction fuel as [|fuel IH]; intros val Hv; cbn [varTail]; [constructor |].
  destruct (Z.leb_spec 128 val).
  - constructor; [unfold is_u8; pose proof (Z.mod_pos_bound val 128); lia | apply IH, Z.div_pos; lia].
  - repeat constructor; lia.
Qed.

Lemma int_bytes_ok prefix pb val : prefix_ok prefix pb -> 0 <= val -> bytes_ok (int_bytes prefix pb val).
Proof.
  intros (Hpb & k & Hk & Hp) Hv. destruct (mask_value pb Hpb) as (_ & _ & Hm3). unfold int_bytes.
  assert (Hfit : prefix + (2 ^ pb - 1) < 256).
  { assert (Hd : exists j, 256 = j * 2 ^ pb) by (exists (2 ^ (8 - pb)); rewrite <- Z.pow_add_r by lia; by replace (8 - pb + pb) with 8 by lia).
    destruct Hd as [j Hj]. assert (k < j) by nia. assert ((k + 1) * 2 ^ pb <= j * 2 ^ pb) by (apply Z.mul_le_mono_nonneg_r; lia). lia. }
  destruct (Z.ltb_spec val (2 ^ pb - 1)); constructor; try (unfold is_u8; lia); [constructor |].
  apply varTail_ok. lia.
Qed.

(** Reading back what was written, with anything behind it. *)
Lemma int_bytes_decode prefix pb val rest : prefix_ok prefix pb -> is_u64 val ->
  HpackDecodeInt (int_bytes prefix pb val ++ rest) pb = (val, zlen (int_bytes prefix pb val)).
Proof.
  intros (Hpb & k & Hk & Hp) Hv. destruct (mask_value pb Hpb) as (Hm1 & Hm2 & Hm3). unfold is_u64 in Hv.
  assert (Hlow : forall low, 0 <= low < 2 ^ pb -> Z.land (prefix + low) (2 ^ pb - 1) = low).
  { intros low Hlow. rewrite land_ones_mod by lia. rewrite Hk, Z.add_comm, Z.mod_add by lia. by apply Z.mod_small. }
  assert (Hpb' : (7 <? u8 (pb - 1)) = false) by (rewrite u8_small by lia; lia).
  unfold int_bytes. destruct (Z.ltb_spec val (2 ^ pb - 1)) as [Hs | Hs]; cbn [app HpackDecodeInt]; rewrite Hpb', Hm1, Hlow by lia.
  - by replace (val <? 2 ^ pb - 1) with true by lia.
  - replace (2 ^ pb - 1 <? 2 ^ pb - 1) with false by lia.
    rewrite varTail_roundtrip; try lia; rewrite zlen_cons; f_equal; lia.
Qed.

(** The value of the continuation bytes of a prefix integer, without bound. *)
Fixpoint tail_value (data : bytes) (m : Z) : Z :=
  match data with
  | [] => 0
  | b :: data => if b <? 128 then b * 2 ^ m else (b mod 128) * 2 ^ m + tail_value data (m + 7)
  end.

Lemma tail_value_nonneg data : forall m, bytes_ok data -> 0 <= m -> 0 <= tail_value data m.
Proof.
  induction data as [|b data IH]; intros m Hok Hm; cbn [tail_value]; [lia |].
  apply Forall_cons_1 in Hok as [Hb Hok]. unfold is_u8 in Hb. specialize (IH (m + 7) Hok ltac:(lia)).
  pose proof (Z.mod_pos_bound b 128 ltac:(lia)). destruct (Z.ltb_spec b 128); nia.
Qed.

Lemma decodeIntLoop_sound data : forall val m i v n, bytes_ok data -> 0 <= val < 2 ^ 64 -> 0 <= m -> 0 <= i ->
  decodeIntLoop data val m i = (v, n) -> n <> 0 ->
  exists k, (0 < k <= length data)%nat /\ n = i + Z.of_nat k /\ v = val + tail_value (take k data) m /\ v < 2 ^ 64 /\ m + 7 * Z.of_nat k <= 70.
Proof.
  induction data as [|b data IH]; intros val m i v n Hok Hv Hm Hi E Hn; [cbn in E; simplify_eq; done |].
  apply Forall_cons_1 in Hok as [Hb Hok].
  destruct (Z.ltb_spec 63 m) as [Hm63 | Hm63].
  { cbn [decodeIntLoop] in E. replace (63 <? m) with true in E by lia. cbn in E. by simplify_eq. }
  destruct (Z.lt_ge_cases (val + (b mod 128) * 2 ^ m) (2 ^ 64)) as [Hr | Hr].
  - rewrite decodeIntLoop_step in E by (done || lia). pose proof (Z.mod_pos_bound b 128 ltac:(lia)).
    assert (0 <= b mod 128 * 2 ^ m) by (apply Z.mul_nonneg_nonneg; lia).
    destruct (Z.ltb_spec b 128) as [Hs | Hs].
    + simplify_eq. exists 1%nat. cbn. replace (b <? 128) with true by lia. unfold is_u8 in Hb.
      rewrite Z.mod_small in Hr by lia. repeat split; lia.
    + apply IH in E as (k & Hk & -> & -> & Hlt & Hk7); try done; try lia. exists (S k).
      cbn [take tail_value length]. replace (b <? 128) with false by lia. repeat split; lia.
  - cbn [decodeIntLoop] in E. rewrite land_127 in E.
    destruct (Z.shiftr (2 ^ 64 - 1 - val) m <? b mod 128) eqn:Hroom; [rewrite orb_true_r in E; by simplify_eq |].
    apply room_exact in Hroom; lia.
Qed.

Lemma decodeIntLoop_zero data : forall val m i v, 0 <= i -> decodeIntLoop data val m i = (v, 0) -> v = 0.
Proof.
  induction data as [|b data IH]; intros val m i v Hi E; cbn [decodeIntLoop] in E; [by simplify_eq |].
  destruct (_ || _); [by simplify_eq |]. destruct (_ =? 0); [simplify_eq; lia |]. by apply IH in E; [| lia].
Qed.

Lemma HpackDecodeInt_cases data b0 tail pb v n : data = b0 :: tail -> bytes_ok data -> 1 <= pb <= 8 ->
  HpackDecodeInt data pb = (v, n) ->
  (v = 0 /\ n = 0) \/
  (n = 1 /\ v = b0 mod 2 ^ pb /\ v < 2 ^ pb - 1) \/
  (exists k, n = 1 + Z.of_nat k /\ (0 < k <= length tail)%nat /\ n <= 11 /\ b0 mod 2 ^ pb = 2 ^ pb - 1 /\
    v = 2 ^ pb - 1 + tail_value (take k tail) 0 /\ v < 2 ^ 64).
Proof.
  intros -> Hok Hpb E. destruct (mask_value pb Hpb) as (Hm1 & _ & Hm3). cbn [HpackDecodeInt] in E.
  replace (7 <? u8 (pb - 1)) with false in E by (rewrite u8_small by lia; lia).
  rewrite Hm1, land_ones_mod in E by lia. pose proof (Z.mod_pos_bound b0 (2 ^ pb) ltac:(lia)).
  destruct (Z.ltb_spec (b0 mod 2 ^ pb) (2 ^ pb - 1)); [simplify_eq; right; left; lia |].
  apply Forall_cons_1 in Hok as [_ Hok].
  destruct (Z.eq_dec n 0) as [-> | Hn].
  - left. split; [| done]. by apply decodeIntLoop_zero in E.
  - apply decodeIntLoop_sound in E as (k & Hk & -> & -> & Hlt & Hk7); try done; try lia.
    right. right. exists k. repeat split; lia.
Qed.

Lemma HpackDecodeInt_range data pb v n : bytes_ok data -> 1 <= pb <= 8 -> HpackDecodeInt data pb = (v, n) ->
  is_u64 v /\ 0 <= n <= zlen data /\ (n = 0 -> v = 0).
Proof.
  intros Hok Hpb E. destruct data as [| b0 tail]; [injection E as <- <-; change (zlen (@nil Z)) with 0; unfold is_u64; lia |].
  destruct (mask_value pb Hpb) as (_ & _ & Hm). pose proof (zlen_nonneg tail). rewrite zlen_cons. unfold is_u64.
  destruct (HpackDecodeInt_cases _ b0 tail pb v n eq_refl Hok Hpb E) as [[-> ->] | [(-> & -> & H2) | (k & -> & Hk & _ & _ & -> & H2)]]; [lia | |].
  - pose proof (Z.mod_pos_bound b0 (2 ^ pb) ltac:(lia)). lia.
  - assert (0 <= tail_value (take k tail) 0) by (apply tail_value_nonneg; [apply Forall_take; by apply Forall_cons_1 in Hok as [_ ?] | lia]).
    unfold zlen in *. lia.
Qed.

(** ** Theorems *)

(** HPACK integers round-trip. For every prefix width from 1 to 8, every
    flag byte that leaves the prefix clear, every 64-bit value and whatever
    follows, decoding what the encoder appends gives back the value and
    consumes exactly the appended bytes, which are at most eleven. *)
Theorem hpack_int_roundtrip buf prefix pb val rest : prefix_ok prefix pb -> is_u64 val ->
  exists enc, EncodeInt buf prefix pb val = buf ++ enc /\ bytes_ok enc /\
    HpackDecodeInt (enc ++ rest) pb = (val, zlen enc) /\ 1 <= zlen enc <= 11.
Proof.
  intros Hp Hv. exists (int_bytes prefix pb val). split; [by apply EncodeInt_bytes |].
  split; [apply int_bytes_ok; [done | apply Hv] |]. split; [by apply int_bytes_decode |].
  unfold int_bytes. destruct (_ <? _); rewrite ?zlen_cons, ?zlen_nil; [lia |].
  assert (Hl : forall fuel v, zlen (varTail fuel v) <= Z.of_nat fuel).
  { induction fuel as [|fuel IH]; intros v; cbn [varTail]; [done |]. destruct (128 <=? v); rewrite zlen_cons; [specialize (IH (v / 128)) | rewrite zlen_nil]; lia. }
  pose proof (Hl 10%nat (val - (2 ^ pb - 1))). pose proof (zlen_nonneg (varTail 10 (val - (2 ^ pb - 1)))). lia.
Qed.

Lemma hpack_int_roundtrip_witness :
  exists enc, EncodeInt [7] 0x80 7 1337 = [7] ++ enc /\ bytes_ok enc /\
    HpackDecodeInt (enc ++ [1; 2]) 7 = (1337, zlen enc) /\ 1 <= zlen enc <= 11.
Proof.
  apply (hpack_int_roundtrip [7] 0x80 7 1337 [1; 2]); [| unfold is_u64; lia].
  split; [lia |]. exists 1. lia.
Defined.

(** The integer decoder never wraps and never reads past the data. When
    it accepts, it consumed between 1 and the available number of bytes (at
    most eleven), and the value is the exact sum of the 7-bit groups, below
    2^64; every encoding whose sum does not fit is refused with (0, 0). *)
Theorem hpack_int_no_overflow data b0 tail pb v n : data = b0 :: tail -> bytes_ok data -> 1 <= pb <= 8 ->
  HpackDecodeInt data pb = (v, n) ->
  (v = 0 /\ n = 0) \/
  (n = 1 /\ v = b0 mod 2 ^ pb /\ v < 2 ^ pb - 1) \/
  (exists k, n = 1 + Z.of_nat k /\ (0 < k <= length tail)%nat /\ n <= 11 /\ b0 mod 2 ^ pb = 2 ^ pb - 1 /\
    v = 2 ^ pb - 1 + tail_value (take k tail) 0 /\ v < 2 ^ 64).
Proof. apply HpackDecodeInt_cases. Qed.

Lemma hpack_int_no_overflow_witness :
  HpackDecodeInt [0x1f; 0x9a; 0x0a; 0x55] 5 = (1337, 3) /\
  ((1337 = 0 /\ 3 = 0) \/ (3 = 1 /\ 1337 = 0x1f mod 2 ^ 5 /\ 1337 < 2 ^ 5 - 1) \/
   (exists k, 3 = 1 + Z.of_nat k /\ (0 < k <= length [0x9a; 0x0a; 0x55])%nat /\ 3 <= 11 /\ 0x1f mod 2 ^ 5 = 2 ^ 5 - 1 /\
     1337 = 2 ^ 5 - 1 + tail_value (take k [0x9a; 0x0a; 0x55]) 0 /\ 1337 < 2 ^ 64)).
Proof.
  split; [vm_compute; reflexivity |].
  apply (hpack_int_no_overflow [0x1f; 0x9a; 0x0a; 0x55] 0x1f [0x9a; 0x0a; 0x55] 5 1337 3);
    [reflexivity | repeat constructor; lia | lia | vm_compute; reflexivity].
Defined.
