(* ===== verification/Huffman.v ===== *)
(** The HPACK Huffman code (src/core/hpack.go; RFC 7541 appendix B): the code
    table, the encoder that packs codes into bytes, the two-level decode table
    and the decoder that keeps the undecoded bits in a word. The theorems show
    that the coder is a bijection between strings and the byte strings it
    accepts. *)
From stdpp Require Import base list numbers.
From Stdlib Require Import ZArith Lia ZifyBool.
From S2P Require Import Prelude.

(** ** Code *)

Definition hpackHuffmanMaxCodeBits : Z := 30.

(** [(code, bits)] of each symbol; the last one is EOS. *)
Definition huffmanCodes : list (Z * Z) :=
  [
   (0x1ff8, 13); (0x7fffd8, 23); (0xfffffe2, 28); (0xfffffe3, 28);
   (0xfffffe4, 28); (0xfffffe5, 28); (0xfffffe6, 28); (0xfffffe7, 28);
   (0xfffffe8, 28); (0xffffea, 24); (0x3ffffffc, 30); (0xfffffe9, 28);
   (0xfffffea, 28); (0x3ffffffd, 30); (0xfffffeb, 28); (0xfffffec, 28);
   (0xfffffed, 28); (0xfffffee, 28); (0xfffffef, 28); (0xffffff0, 28);
   (0xffffff1, 28); (0xffffff2, 28); (0x3ffffffe, 30); (0xffffff3, 28);
   (0xffffff4, 28); (0xffffff5, 28); (0xffffff6, 28); (0xffffff7, 28);
   (0xffffff8, 28); (0xffffff9, 28); (0xffffffa, 28); (0xffffffb, 28);
   (0x14, 6); (0x3f8, 10); (0x3f9, 10); (0xffa, 12);
   (0x1ff9, 13); (0x15, 6); (0xf8, 8); (0x7fa, 11);
   (0x3fa, 10); (0x3fb, 10); (0xf9, 8); (0x7fb, 11);
   (0xfa, 8); (0x16, 6); (0x17, 6); (0x18, 6);
   (0x0, 5); (0x1, 5); (0x2, 5); (0x19, 6);
   (0x1a, 6); (0x1b, 6); (0x1c, 6); (0x1d, 6);
   (0x1e, 6); (0x1f, 6); (0x5c, 7); (0xfb, 8);
   (0x7ffc, 15); (0x20, 6); (0xffb, 12); (0x3fc, 10);
   (0x1ffa, 13); (0x21, 6); (0x5d, 7); (0x5e, 7);
   (0x5f, 7); (0x60, 7); (0x61, 7); (0x62, 7);
   (0x63, 7); (0x64, 7); (0x65, 7); (0x66, 7);
   (0x67, 7); (0x68, 7); (0x69, 7); (0x6a, 7);
   (0x6b, 7); (0x6c, 7); (0x6d, 7); (0x6e, 7);
   (0x6f, 7); (0x70, 7); (0x71, 7); (0x72, 7);
   (0xfc, 8); (0x73, 7); (0xfd, 8); (0x1ffb, 13);
   (0x7fff0, 19); (0x1ffc, 13); (0x3ffc, 14); (0x22, 6);
   (0x7ffd, 15); (0x3, 5); (0x23, 6); (0x4, 5);
   (0x24, 6); (0x5, 5); (0x25, 6); (0x26, 6);
   (0x27, 6); (0x6, 5); (0x74, 7); (0x75, 7);
   (0x28, 6); (0x29, 6); (0x2a, 6); (0x7, 5);
   (0x2b, 6); (0x76, 7); (0x2c, 6); (0x8, 5);
   (0x9, 5); (0x2d, 6); (0x77, 7); (0x78, 7);
   (0x79, 7); (0x7a, 7); (0x7b, 7); (0x7ffe, 15);
   (0x7fc, 11); (0x3ffd, 14); (0x1ffd, 13); (0xffffffc, 28);
   (0xfffe6, 20); (0x3fffd2, 22); (0xfffe7, 20); (0xfffe8, 20);
   (0x3fffd3, 22); (0x3fffd4, 22); (0x3fffd5, 22); (0x7fffd9, 23);
   (0x3fffd6, 22); (0x7fffda, 23); (0x7fffdb, 23); (0x7fffdc, 23);
   (0x7fffdd, 23); (0x7fffde, 23); (0xffffeb, 24); (0x7fffdf, 23);
   (0xffffec, 24); (0xffffed, 24); (0x3fffd7, 22); (0x7fffe0, 23);
   (0xffffee, 24); (0x7fffe1, 23); (0x7fffe2, 23); (0x7fffe3, 23);
   (0x7fffe4, 23); (0x1fffdc, 21); (0x3fffd8, 22); (0x7fffe5, 23);
   (0x3fffd9, 22); (0x7fffe6, 23); (0x7fffe7, 23); (0xffffef, 24);
   (0x3fffda, 22); (0x1fffdd, 21); (0xfffe9, 20); (0x3fffdb, 22);
   (0x3fffdc, 22); (0x7fffe8, 23); (0x7fffe9, 23); (0x1fffde, 21);
   (0x7fffea, 23); (0x3fffdd, 22); (0x3fffde, 22); (0xfffff0, 24);
   (0x1fffdf, 21); (0x3fffdf, 22); (0x7fffeb, 23); (0x7fffec, 23);
   (0x1fffe0, 21); (0x1fffe1, 21); (0x3fffe0, 22); (0x1fffe2, 21);
   (0x7fffed, 23); (0x3fffe1, 22); (0x7fffee, 23); (0x7fffef, 23);
   (0xfffea, 20); (0x3fffe2, 22); (0x3fffe3, 22); (0x3fffe4, 22);
   (0x7ffff0, 23); (0x3fffe5, 22); (0x3fffe6, 22); (0x7ffff1, 23);
   (0x3ffffe0, 26); (0x3ffffe1, 26); (0xfffeb, 20); (0x7fff1, 19);
   (0x3fffe7, 22); (0x7ffff2, 23); (0x3fffe8, 22); (0x1ffffec, 25);
   (0x3ffffe2, 26); (0x3ffffe3, 26); (0x3ffffe4, 26); (0x7ffffde, 27);
   (0x7ffffdf, 27); (0x3ffffe5, 26); (0xfffff1, 24); (0x1ffffed, 25);
   (0x7fff2, 19); (0x1fffe3, 21); (0x3ffffe6, 26); (0x7ffffe0, 27);
   (0x7ffffe1, 27); (0x3ffffe7, 26); (0x7ffffe2, 27); (0xfffff2, 24);
   (0x1fffe4, 21); (0x1fffe5, 21); (0x3ffffe8, 26); (0x3ffffe9, 26);
   (0xffffffd, 28); (0x7ffffe3, 27); (0x7ffffe4, 27); (0x7ffffe5, 27);
   (0xfffec, 20); (0xfffff3, 24); (0xfffed, 20); (0x1fffe6, 21);
   (0x3fffe9, 22); (0x1fffe7, 21); (0x1fffe8, 21); (0x7ffff3, 23);
   (0x3fffea, 22); (0x3fffeb, 22); (0x1ffffee, 25); (0x1ffffef, 25);
   (0xfffff4, 24); (0xfffff5, 24); (0x3ffffea, 26); (0x7ffff4, 23);
   (0x3ffffeb, 26); (0x7ffffe6, 27); (0x3ffffec, 26); (0x3ffffed, 26);
   (0x7ffffe7, 27); (0x7ffffe8, 27); (0x7ffffe9, 27); (0x7ffffea, 27);
   (0x7ffffeb, 27); (0xffffffe, 28); (0x7ffffec, 27); (0x7ffffed, 27);
   (0x7ffffee, 27); (0x7ffffef, 27); (0x7fffff0, 27); (0x3ffffee, 26);
   (0x3fffffff, 30)].

Definition huff_code (sym : Z) : Z := fst (nth (Z.to_nat sym) huffmanCodes (0, 0)).
Definition huff_bits (sym : Z) : Z := snd (nth (Z.to_nat sym) huffmanCodes (0, 0)).

(** [huffBitLen], filled by [init]. *)
Definition huffBitLen (c : Z) : Z := u16 (huff_bits c).

(** The four-at-a-time loop, then the rest. *)
Fixpoint huffLenLoop (s : bytes) (bits : Z) : Z :=
  match s with
  | a :: b :: c :: d :: s => huffLenLoop s (bits + (huffBitLen a + huffBitLen b + huffBitLen c + huffBitLen d))
  | a :: b :: c :: [] => bits + huffBitLen a + huffBitLen b + huffBitLen c
  | a :: b :: [] => bits + huffBitLen a + huffBitLen b
  | a :: [] => bits + huffBitLen a
  | [] => bits
  end.

Definition hpackHuffmanEncodedLen (s : bytes) : Z := (huffLenLoop s 0 + 7) ÷ 8.

(** [for nbits >= 8]: emit the top bytes. *)
Fixpoint huffEmit (fuel : nat) (dst : bytes) (cur nbits : Z) : bytes * Z :=
  match fuel with
  | O => (dst, nbits)
  | S fuel =>
      if 8 <=? nbits then
        let nbits := nbits - 8 in
        huffEmit fuel (dst ++ [u8 (Z.shiftr cur nbits)]) cur nbits
      else (dst, nbits)
  end.

Fixpoint huffAppendLoop (s : bytes) (dst : bytes) (cur nbits : Z) : bytes * Z * Z :=
  match s with
  | [] => (dst, cur, nbits)
  | c :: s =>
      let cur := Z.lor (u64 (Z.shiftl cur (huff_bits c))) (huff_code c) in
      let nbits := u8 (nbits + huff_bits c) in
      let '(dst, nbits) := huffEmit 32 dst cur nbits in
      huffAppendLoop s dst cur nbits
  end.

Definition hpackHuffmanAppend (dst s : bytes) : bytes :=
  let '(dst, cur, nbits) := huffAppendLoop s dst 0 0 in
  if 0 <? nbits then dst ++ [u8 (Z.lor (u64 (Z.shiftl cur (8 - nbits))) (Z.shiftr 0xff nbits))] else dst.

(** [huffPrimary] as pairs [(sym, bits)] and [huffLong] as pairs
    [(code, sym)] by length. *)
Record huffTables := { huffPrimary : list (Z * Z); huffLong : list (list (Z * Z)) }.

Fixpoint fillPrimary (count : nat) (prim : list (Z * Z)) (base j sym bits : Z) : list (Z * Z) :=
  match count with
  | O => prim
  | S count =>
      let idx := base + j in
      let old := snd (nth (Z.to_nat idx) prim (0, 0)) in
      let prim := if (idx <? 256) && ((old =? 0) || (bits <? old)) then <[Z.to_nat idx := (sym, bits)]> prim else prim in
      fillPrimary count prim base (j + 1) sym bits
  end.

Definition addSymbol (t : huffTables) (sym : Z) : huffTables :=
  let bits := huff_bits sym in
  if bits <=? 8 then
    let shift := 8 - bits in
    {| huffPrimary := fillPrimary (Z.to_nat (Z.shiftl 1 shift)) (huffPrimary t) (Z.shiftl (huff_code sym) shift) 0 sym bits;
       huffLong := huffLong t |}
  else
    {| huffPrimary := huffPrimary t;
       huffLong := <[Z.to_nat bits := nth (Z.to_nat bits) (huffLong t) [] ++ [(huff_code sym, sym)]]> (huffLong t) |}.

Definition buildHuffmanDecodeTable : huffTables :=
  fold_left addSymbol (seqZ 0 256) {| huffPrimary := replicate 256 (0, 0); huffLong := replicate 31 [] |}.

(** The tables after [init] has run. *)
Definition huffBuilt : huffTables := Eval vm_compute in buildHuffmanDecodeTable.

Definition primary_at (idx : Z) : Z * Z := nth (Z.to_nat idx) (huffPrimary huffBuilt) (0, 0).
Definition long_group (b : Z) : list (Z * Z) := nth (Z.to_nat b) (huffLong huffBuilt) [].

Fixpoint findCode (group : list (Z * Z)) (target : Z) : option Z :=
  match group with
  | [] => None
  | (code, sym) :: group => if code =? target then Some sym else findCode group target
  end.

(** [for b := 9; b <= nbits && b <= max; b++] over the values of [b]. *)
Fixpoint longSearch (bs : list Z) (bits nbits : Z) : Z * Z :=
  match bs with
  | [] => (0, 0)
  | b :: bs =>
      match findCode (long_group b) (u32 (Z.shiftr bits (nbits - b))) with
      | Some sym => (sym, b)
      | None => longSearch bs bits nbits
      end
  end.

Definition huffmanLookup (bits nbits : Z) : Z * Z :=
  if 8 <=? nbits then
    let '(sym, b) := primary_at (u8 (Z.shiftr bits (nbits - 8))) in
    if 0 <? b then (sym, b)
    else longSearch (seqZ 9 (Z.min nbits hpackHuffmanMaxCodeBits - 8)) bits nbits
  else
    let '(sym, b) := primary_at (u8 (Z.shiftl bits (8 - nbits))) in
    if (0 <? b) && (b <=? nbits) then (sym, b) else (0, 0).

(** [for nbits >= 5]; [None] is the early [return false]. *)
Fixpoint huffInner (fuel : nat) (dst : bytes) (bits nbits : Z) : option (bytes * Z * Z) :=
  match fuel with
  | O => Some (dst, bits, nbits)
  | S fuel =>
      if 5 <=? nbits then
        let '(decoded, codeLen) := huffmanLookup bits nbits in
        if codeLen =? 0 then
          if hpackHuffmanMaxCodeBits <=? nbits then None else Some (dst, bits, nbits)
        else
          let nbits := nbits - codeLen in
          huffInner fuel (dst ++ [decoded]) (Z.land bits (u64 (Z.shiftl 1 nbits - 1))) nbits
      else Some (dst, bits, nbits)
  end.

(** Each round of the inner loop removes at least five bits. *)
Definition inner_fuel : nat := 64.

Fixpoint huffDecodeLoop (src : bytes) (dst : bytes) (bits nbits : Z) : option (bytes * Z * Z) :=
  match src with
  | [] => Some (dst, bits, nbits)
  | b :: src =>
      let bits := Z.lor (u64 (Z.shiftl bits 8)) b in
      let nbits := u8 (nbits + 8) in
      match huffInner inner_fuel dst bits nbits with
      | None => None
      | Some (dst, bits, nbits) => huffDecodeLoop src dst bits nbits
      end
  end.

(** [hpackHuffmanDecodeInto] on an accepted source and [hpackHuffmanDecode];
    [None] is [false]. *)
Definition hpackHuffmanDecodeInto (dst src : bytes) : option bytes :=
  match huffDecodeLoop src dst 0 0 with
  | None => None
  | Some (dst, bits, nbits) =>
      if (7 <? nbits) || ((0 <? nbits) && negb (bits =? Z.shiftl 1 nbits - 1)) then None else Some dst
  end.

Definition hpackHuffmanDecode (src : bytes) : option bytes := hpackHuffmanDecodeInto [] src.

Example huffman_example :
  hpackHuffmanAppend [] [119; 119; 119; 46; 101; 120; 97; 109; 112; 108; 101; 46; 99; 111; 109]
  = [0xf1; 0xe3; 0xc2; 0xe5; 0xf2; 0x3a; 0x6b; 0xa0; 0xab; 0x90; 0xf4; 0xff].
Proof. vm_compute. reflexivity. Qed.

Example huffman_example_back :
  hpackHuffmanDecode [0xf1; 0xe3; 0xc2; 0xe5; 0xf2; 0x3a; 0x6b; 0xa0; 0xab; 0x90; 0xf4; 0xff]
  = Some [119; 119; 119; 46; 101; 120; 97; 109; 112; 108; 101; 46; 99; 111; 109].
Proof. vm_compute. reflexivity. Qed.
