(* ===== verification/HuffmanProofs.v ===== *)
(** Correctness of the Huffman coder, at the level of bit strings: the
    encoder's bytes spell the codes followed by a padding of ones, the decoder
    splits a bit string into codes, and both are inverse to each other. *)
From stdpp Require Import base list numbers.
From Stdlib Require Import ZArith Lia ZifyBool.
From S2P Require Import Prelude Huffman.

(** ** Bit strings *)

(** The number a bit string spells, most significant bit first. *)
Fixpoint bval_acc (l : list bool) (acc : Z) : Z :=
  match l with [] => acc | b :: l => bval_acc l (2 * acc + Z.b2z b) end.
Definition bval (l : list bool) : Z := bval_acc l 0.

(** The low [n] bits of [v]. *)
Fixpoint to_bits (n : nat) (v : Z) : list bool :=
  match n with O => [] | S n => Z.testbit v (Z.of_nat n) :: to_bits n v end.

Definition bits_of (bs : bytes) : list bool := flat_map (to_bits 8) bs.
Definition ones (n : nat) : list bool := replicate n true.

Lemma bval_acc_shift l : forall acc, bval_acc l acc = acc * 2 ^ zlen l + bval l.
Proof.
  unfold bval. induction l as [|b l IH]; intros acc; cbn [bval_acc].
  - rewrite zlen_nil. lia.
  - rewrite IH, (IH (2 * 0 + Z.b2z b)), zlen_cons. rewrite Z.pow_add_r by (pose proof (zlen_nonneg l); lia). lia.
Qed.

Lemma bval_app a b : bval (a ++ b) = bval a * 2 ^ zlen b + bval b.
Proof.
  unfold bval. assert (H : forall acc, bval_acc (a ++ b) acc = bval_acc b (bval_acc a acc)).
  { induction a as [|x a IH]; intros acc; cbn; [done | apply IH]. }
  rewrite H. apply bval_acc_shift.
Qed.

Lemma bval_bound l : 0 <= bval l < 2 ^ zlen l.
Proof.
  induction l as [|b l IH]; [change (0 <= 0 < 1); lia |]. change (b :: l) with ([b] ++ l). rewrite bval_app, zlen_app.
  change (zlen [b]) with 1. rewrite Z.pow_add_r by (pose proof (zlen_nonneg l); lia).
  assert (Hb : bval [b] = Z.b2z b) by (by destruct b). rewrite Hb. destruct b; cbn [Z.b2z]; lia.
Qed.

Lemma length_to_bits n v : length (to_bits n v) = n.
Proof. induction n; cbn; congruence. Qed.
Lemma zlen_to_bits n v : zlen (to_bits n v) = Z.of_nat n.
Proof. unfold zlen. by rewrite length_to_bits. Qed.

Lemma bval_to_bits n v : bval (to_bits n v) = v mod 2 ^ Z.of_nat n.
Proof.
  induction n as [|n IH]; cbn [to_bits]; [cbn; by rewrite Z.mod_1_r |].
  change (Z.testbit v (Z.of_nat n) :: to_bits n v) with ([Z.testbit v (Z.of_nat n)] ++ to_bits n v).
  rewrite bval_app, IH, zlen_to_bits.
  assert (Hb : bval [Z.testbit v (Z.of_nat n)] = Z.b2z (Z.testbit v (Z.of_nat n))) by (by destruct (Z.testbit v (Z.of_nat n))).
  rewrite Hb, Z.testbit_spec' by lia.
  replace (Z.of_nat (S n)) with (Z.of_nat n + 1) by lia. rewrite Z.pow_add_r, Z.rem_mul_r by lia. change (2 ^ 1) with 2. ring.
Qed.

Lemma bval_inj a : forall b, length a = length b -> bval a = bval b -> a = b.
Proof.
  induction a as [|x a IH]; intros [|y b] Hl Hv; try done. cbn in Hl.
  change (x :: a) with ([x] ++ a) in Hv. change (y :: b) with ([y] ++ b) in Hv. rewrite !bval_app in Hv.
  assert (Hz : zlen a = zlen b) by (unfold zlen; lia). rewrite Hz in Hv.
  pose proof (bval_bound a). pose proof (bval_bound b). rewrite Hz in *.
  assert (Hx : bval [x] = Z.b2z x) by (by destruct x). assert (Hy : bval [y] = Z.b2z y) by (by destruct y). rewrite Hx, Hy in Hv.
  assert (Z.b2z x = Z.b2z y) by nia. assert (x = y) as -> by (destruct x, y; done). f_equal. apply IH; lia.
Qed.

Lemma bval_ones n : bval (ones n) = 2 ^ Z.of_nat n - 1.
Proof.
  induction n as [|n IH]; [done |]. unfold ones in *. cbn [replicate].
  change (true :: replicate n true) with ([true] ++ replicate n true). rewrite bval_app, IH.
  unfold zlen. rewrite length_replicate. replace (Z.of_nat (S n)) with (Z.of_nat n + 1) by lia.
  rewrite Z.pow_add_r by lia. change (bval [true]) with 1. lia.
Qed.

Lemma bval_take_drop a b : bval a = bval (a ++ b) / 2 ^ zlen b.
Proof. rewrite bval_app. pose proof (bval_bound b). rewrite Z.div_add_l by lia. rewrite Z.div_small by lia. lia. Qed.

Lemma bits_of_app a b : bits_of (a ++ b) = bits_of a ++ bits_of b.
Proof. unfold bits_of. apply flat_map_app. Qed.

Lemma length_bits_of bs : length (bits_of bs) = (8 * length bs)%nat.
Proof. induction bs as [|b bs IH]; [done |]. cbn [bits_of flat_map]. rewrite length_app, length_to_bits. fold (bits_of bs). cbn [length]. lia. Qed.

Lemma to_bits_inj a b : is_u8 a -> is_u8 b -> to_bits 8 a = to_bits 8 b -> a = b.
Proof.
  intros Ha Hb Heq. assert (H : bval (to_bits 8 a) = bval (to_bits 8 b)) by (by rewrite Heq).
  rewrite !bval_to_bits in H. change (2 ^ Z.of_nat 8) with (2 ^ 8) in H. unfold is_u8 in *. rewrite !Z.mod_small in H by lia. done.
Qed.

Lemma bits_of_inj a : forall b, bytes_ok a -> bytes_ok b -> bits_of a = bits_of b -> a = b.
Proof.
  induction a as [|x a IH]; intros [|y b] Ha Hb Heq; try done.
  apply Forall_cons_1 in Ha as [Hx Ha]. apply Forall_cons_1 in Hb as [Hy Hb].
  change (to_bits 8 x ++ bits_of a = to_bits 8 y ++ bits_of b) in Heq.
  apply app_inj_1 in Heq as [H1 H2]; [| by rewrite !length_to_bits]. f_equal; [by apply to_bits_inj | by apply IH].
Qed.

(** ** The table *)

Definition sym_ok (sym : Z) : Prop := 0 <= sym < 256.
Definition code_bits (sym : Z) : list bool := to_bits (Z.to_nat (huff_bits sym)) (huff_code sym).
Definition codes (s : bytes) : list bool := flat_map code_bits s.

Definition table_ok (sym : Z) : bool :=
  (5 <=? huff_bits sym) && (huff_bits sym <=? 30) && (0 <=? huff_code sym) && (huff_code sym <? 2 ^ huff_bits sym).

(** Every index whose leading bits are a short code is that code's entry. *)
Definition primary_ok (sym : Z) : bool :=
  if huff_bits sym <=? 8 then
    forallb (fun j => bool_decide (primary_at (huff_code sym * 2 ^ (8 - huff_bits sym) + j) = (sym, huff_bits sym)))
      (seqZ 0 (2 ^ (8 - huff_bits sym)))
  else true.

(** A long code is found by the search, at its length and not before. *)
Definition long_ok (sym : Z) : bool :=
  if 8 <? huff_bits sym then
    bool_decide (snd (primary_at (Z.shiftr (huff_code sym) (huff_bits sym - 8))) = 0) &&
    bool_decide (longSearch (seqZ 9 (huff_bits sym - 8)) (huff_code sym) (huff_bits sym) = (sym, huff_bits sym))
  else true.

(** A proper prefix of a code of at least five bits is not decoded. *)
Definition prefix_miss (sym : Z) : bool :=
  forallb (fun n => bool_decide (huffmanLookup (Z.shiftr (huff_code sym) (huff_bits sym - n)) n = (0, 0)))
    (seqZ 5 (huff_bits sym - 5)).

(** Every entry of the decode tables is a code of the table. *)
Definition entry_ok (idx : Z) : bool :=
  let '(sym, b) := primary_at idx in
  (b =? 0) || ((0 <=? sym) && (sym <? 256) && (huff_bits sym =? b) && (b <=? 8) && (huff_code sym =? Z.shiftr idx (8 - b))).
Definition group_ok (b : Z) : bool :=
  forallb (fun p => (0 <=? snd p) && (snd p <? 256) && (huff_bits (snd p) =? b) && (huff_code (snd p) =? fst p)) (long_group b).

Lemma seqZ_forall (P : Z -> bool) m n : forallb P (seqZ m n) = true -> forall x, m <= x < m + n -> P x = true.
Proof. intros H x Hx. rewrite forallb_forall in H. apply H, list_elem_of_In, elem_of_seqZ. lia. Qed.

Lemma tables_split :
  (forall sym, sym_ok sym -> table_ok sym = true /\ primary_ok sym = true /\ long_ok sym = true) /\
  (forall sym, 0 <= sym < 257 -> prefix_miss sym = true) /\
  (forall idx, 0 <= idx < 256 -> entry_ok idx = true) /\ (forall b, 9 <= b < 31 -> group_ok b = true).
Proof.
  split; [| split; [| split]].
  - intros sym Hs. split; [| split].
    + apply (seqZ_forall table_ok 0 256); [vm_compute; reflexivity | done].
    + apply (seqZ_forall primary_ok 0 256); [vm_compute; reflexivity | done].
    + apply (seqZ_forall long_ok 0 256); [vm_compute; reflexivity | done].
  - intros sym Hs. apply (seqZ_forall prefix_miss 0 257); [vm_compute; reflexivity | done].
  - intros idx Hi. apply (seqZ_forall entry_ok 0 256); [vm_compute; reflexivity | done].
  - intros b Hb. apply (seqZ_forall group_ok 9 22); [vm_compute; reflexivity | lia].
Qed.

Lemma code_range sym : sym_ok sym -> 5 <= huff_bits sym <= 30 /\ 0 <= huff_code sym < 2 ^ huff_bits sym.
Proof. intros Hs. destruct tables_split as [H _]. destruct (H sym Hs) as [Ht _]. unfold table_ok in Ht. lia. Qed.

Lemma zlen_code sym : sym_ok sym -> zlen (code_bits sym) = huff_bits sym.
Proof. intros Hs. unfold code_bits. rewrite zlen_to_bits. destruct (code_range sym Hs). lia. Qed.

Lemma bval_code sym : sym_ok sym -> bval (code_bits sym) = huff_code sym.
Proof.
  intros Hs. unfold code_bits. rewrite bval_to_bits. destruct (code_range sym Hs). rewrite Z2Nat.id by lia. by apply Z.mod_small.
Qed.

Lemma longSearch_app bs more B n sym b : longSearch bs B n = (sym, b) -> b <> 0 -> longSearch (bs ++ more) B n = (sym, b).
Proof.
  induction bs as [|b0 bs IH]; cbn; [intros [= <- <-]; done |]. destruct (findCode _ _); [done | done].
Qed.

Lemma longSearch_ext bs B n B' n' : (forall b, b ∈ bs -> Z.shiftr B (n - b) = Z.shiftr B' (n' - b)) ->
  longSearch bs B n = longSearch bs B' n'.
Proof.
  induction bs as [|b bs IH]; intros H; cbn; [done |]. rewrite (H b) by left.
  destruct (findCode _ _); [done |]. apply IH. intros x Hx. apply H. by right.
Qed.

(** Shifting out what follows a code leaves a shifted code. *)
Lemma shift_code C rest k j : 0 <= rest < 2 ^ k -> 0 <= k -> 0 <= j -> Z.shiftr (C * 2 ^ k + rest) (k + j) = Z.shiftr C j.
Proof.
  intros Hr Hk Hj. rewrite <- Z.shiftr_shiftr by lia. f_equal. rewrite Z.shiftr_div_pow2 by lia.
  rewrite Z.div_add_l, (Z.div_small rest) by lia. lia.
Qed.

(** A code at the front of the pending bits is found. *)
Lemma lookup_hit sym rest n : sym_ok sym -> huff_bits sym <= n <= 37 -> 0 <= rest < 2 ^ (n - huff_bits sym) ->
  huffmanLookup (huff_code sym * 2 ^ (n - huff_bits sym) + rest) n = (sym, huff_bits sym).
Proof.
  intros Hs Hn Hr. destruct tables_split as [Ht _]. destruct (Ht sym Hs) as (_ & Hp & Hl). destruct (code_range sym Hs) as [HL HC].
  set (L := huff_bits sym) in *. set (C := huff_code sym) in *. set (k := n - L) in *.
  assert (Hprim : L <= 8 -> forall j, 0 <= j < 2 ^ (8 - L) -> primary_at (u8 (C * 2 ^ (8 - L) + j)) = (sym, L)).
  { intros HL8 j Hj. unfold primary_ok in Hp. fold L C in Hp. replace (L <=? 8) with true in Hp by lia.
    pose proof (seqZ_forall _ _ _ Hp j ltac:(lia)) as H. cbn beta in H. apply bool_decide_eq_true in H. rewrite u8_small; [done |].
    assert (C * 2 ^ (8 - L) + 2 ^ (8 - L) <= 2 ^ 8).
    { replace (2 ^ 8) with (2 ^ L * 2 ^ (8 - L)) by (rewrite <- Z.pow_add_r by lia; f_equal; lia). nia. }
    lia. }
  unfold huffmanLookup. destruct (Z.leb_spec 8 n) as [Hn8 | Hn8].
  - destruct (Z.le_gt_cases L 8) as [HL8 | HL8].
    + assert (Hidx : Z.shiftr (C * 2 ^ k + rest) (n - 8) = C * 2 ^ (8 - L) + Z.shiftr rest (n - 8)).
      { rewrite !Z.shiftr_div_pow2 by lia. replace k with ((8 - L) + (n - 8)) at 1 by lia.
        rewrite Z.pow_add_r, Z.mul_assoc, Z.div_add_l by lia. done. }
      rewrite Hidx, Hprim; [by replace (0 <? L) with true by lia | done |].
      rewrite Z.shiftr_div_pow2 by lia. split; [apply Z.div_pos; lia |]. apply Z.div_lt_upper_bound; [lia |].
      rewrite <- Z.pow_add_r by lia. replace (n - 8 + (8 - L)) with k by lia. lia.
    + unfold long_ok in Hl. fold L C in Hl. replace (8 <? L) with true in Hl by lia. apply andb_true_iff in Hl as [Hl1 Hl2].
      apply bool_decide_eq_true in Hl1, Hl2. replace (n - 8) with (k + (L - 8)) by lia. rewrite shift_code by lia.
      rewrite u8_small.
      2:{ rewrite Z.shiftr_div_pow2 by lia. split; [apply Z.div_pos; lia | apply Z.div_lt_upper_bound; [lia |]].
          change 256 with (2 ^ 8). rewrite <- Z.pow_add_r by lia. replace (L - 8 + 8) with L by lia. lia. }
      destruct (primary_at _) as [s0 b0]. cbn in Hl1. subst b0. cbn [Z.ltb Z.compare].
      replace (seqZ 9 (Z.min n hpackHuffmanMaxCodeBits - 8)) with (seqZ 9 (L - 8) ++ seqZ (9 + (L - 8)) (Z.min n hpackHuffmanMaxCodeBits - L)).
      2:{ rewrite <- seqZ_app by (unfold hpackHuffmanMaxCodeBits; lia). f_equal. lia. }
      apply longSearch_app; [| lia]. rewrite <- Hl2. apply longSearch_ext. intros b Hb. apply elem_of_seqZ in Hb.
      replace (n - b) with (k + (L - b)) by lia. by apply shift_code; lia.
  - assert (HL8 : L <= 8) by lia.
    assert (Hidx : Z.shiftl (C * 2 ^ k + rest) (8 - n) = C * 2 ^ (8 - L) + rest * 2 ^ (8 - n)).
    { rewrite Z.shiftl_mul_pow2, Z.mul_add_distr_r, <- Z.mul_assoc, <- Z.pow_add_r by lia. do 3 f_equal. lia. }
    rewrite Hidx, Hprim; [replace (0 <? L) with true by lia; by replace (L <=? n) with true by lia | done |].
    split; [apply Z.mul_nonneg_nonneg; lia |]. replace (8 - L) with (k + (8 - n)) by lia. rewrite Z.pow_add_r by lia.
    apply Z.mul_lt_mono_pos_r; lia.
Qed.

(** A proper prefix of a code is not found. *)
Lemma lookup_miss sym n : 0 <= sym < 257 -> 5 <= n < huff_bits sym ->
  huffmanLookup (Z.shiftr (huff_code sym) (huff_bits sym - n)) n = (0, 0).
Proof.
  intros Hs Hn. destruct tables_split as (_ & H & _). pose proof (H sym Hs) as Hm. unfold prefix_miss in Hm.
  pose proof (seqZ_forall _ _ _ Hm n ltac:(lia)) as Hb. cbn beta in Hb. by apply bool_decide_eq_true in Hb.
Qed.

Lemma findCode_sound group t sym : findCode group t = Some sym -> (t, sym) ∈ group.
Proof.
  induction group as [|[c s] group IH]; cbn; [done |]. destruct (Z.eqb_spec c t) as [-> |]; [intros [= ->]; left |].
  intros H. right. by apply IH.
Qed.

Lemma longSearch_sound bs B n sym L : longSearch bs B n = (sym, L) -> L <> 0 ->
  exists s, L ∈ bs /\ findCode (long_group L) (u32 (Z.shiftr B (n - L))) = Some s /\ sym = s.
Proof.
  induction bs as [|b bs IH]; cbn [longSearch]; [intros [= <- <-]; done |].
  destruct (findCode (long_group b) _) as [s |] eqn:Hf.
  - intros [= <- <-] _. exists s. split; [left | done].
  - intros E HL. destruct (IH E HL) as (s & Hb & Hs). exists s. split; [by right | done].
Qed.

(** What is found is a code, and it is at the front of the pending bits. *)
Lemma lookup_sound B n sym L : 5 <= n <= 37 -> 0 <= B < 2 ^ n -> huffmanLookup B n = (sym, L) -> L <> 0 ->
  sym_ok sym /\ L = huff_bits sym /\ L <= n /\ huff_code sym = B / 2 ^ (n - L).
Proof.
  intros Hn HB E HL. destruct tables_split as (_ & _ & He & Hg). unfold huffmanLookup in E.
  destruct (Z.leb_spec 8 n) as [Hn8 | Hn8].
  - rewrite Z.shiftr_div_pow2 in E by lia.
    assert (Hi : 0 <= B / 2 ^ (n - 8) < 256).
    { split; [apply Z.div_pos; lia | apply Z.div_lt_upper_bound; [lia |]]. change 256 with (2 ^ 8). rewrite <- Z.pow_add_r by lia.
      replace (n - 8 + 8) with n by lia. lia. }
    rewrite u8_small in E by lia. pose proof (He _ Hi) as Hent. unfold entry_ok in Hent.
    destruct (primary_at (B / 2 ^ (n - 8))) as [s0 b0]. destruct (Z.ltb_spec 0 b0).
    + simplify_eq. rewrite Z.shiftr_div_pow2, Z.div_div in Hent by lia. rewrite <- Z.pow_add_r in Hent by lia.
      replace (n - 8 + (8 - L)) with (n - L) in Hent by lia. unfold sym_ok. lia.
    + apply longSearch_sound in E as (s & Hb & Hf & ->); [| done]. apply elem_of_seqZ in Hb. unfold hpackHuffmanMaxCodeBits in Hb.
      assert (Hb' : 9 <= L <= n /\ L <= 30) by lia. clear Hent Hi Hb. apply findCode_sound in Hf.
      pose proof (Hg L ltac:(lia)) as Hgr. unfold group_ok in Hgr. rewrite forallb_forall in Hgr.
      specialize (Hgr _ (proj1 (list_elem_of_In _ _) Hf)). cbn [fst snd] in Hgr.
      assert (Ht : u32 (Z.shiftr B (n - L)) = B / 2 ^ (n - L)).
      { rewrite Z.shiftr_div_pow2 by lia. apply Z.mod_small. split; [apply Z.div_pos; lia | apply Z.div_lt_upper_bound; [lia |]].
        assert (2 ^ n <= 2 ^ (n - L) * 2 ^ 32) by (rewrite <- Z.pow_add_r by lia; apply Z.pow_le_mono_r; lia). lia. }
      unfold sym_ok. lia.
  - rewrite Z.shiftl_mul_pow2 in E by lia.
    assert (Hi : 0 <= B * 2 ^ (8 - n) < 256).
    { split; [apply Z.mul_nonneg_nonneg; lia |]. change 256 with (2 ^ 8). replace 8 with (n + (8 - n)) at 2 by lia.
      rewrite Z.pow_add_r by lia. apply Z.mul_lt_mono_pos_r; lia. }
    rewrite u8_small in E by lia. pose proof (He _ Hi) as Hent. unfold entry_ok in Hent.
    destruct (primary_at (B * 2 ^ (8 - n))) as [s0 b0]. destruct ((0 <? b0) && (b0 <=? n)) eqn:Hb; [| by simplify_eq]. simplify_eq.
    assert (Hsh : Z.shiftr (B * 2 ^ (8 - n)) (8 - L) = B / 2 ^ (n - L)).
    { rewrite Z.shiftr_div_pow2 by lia. replace (8 - L) with ((n - L) + (8 - n)) by lia. rewrite Z.pow_add_r by lia.
      apply Z.div_mul_cancel_r; lia. }
    unfold sym_ok. lia.
Qed.

(** ** The decoder *)

Lemma codes_cons c s : codes (c :: s) = code_bits c ++ codes s.
Proof. done. Qed.
Lemma codes_app a b : codes (a ++ b) = codes a ++ codes b.
Proof. apply flat_map_app. Qed.

Definition syms_ok (s : bytes) : Prop := Forall sym_ok s.

(** Appending a byte to the pending bits. *)
Lemma push_byte P b : zlen P <= 29 -> is_u8 b -> Z.lor (u64 (Z.shiftl (bval P) 8)) b = bval (P ++ to_bits 8 b).
Proof.
  intros HP Hb. unfold is_u8 in Hb. pose proof (bval_bound P) as HB. pose proof (zlen_nonneg P).
  assert (2 ^ zlen P <= 2 ^ 29) by (apply Z.pow_le_mono_r; lia).
  rewrite Z.shiftl_mul_pow2, u64_small, lor_disjoint by lia.
  rewrite bval_app, bval_to_bits, zlen_to_bits. change (Z.of_nat 8) with 8. rewrite (Z.mod_small b) by lia. done.
Qed.

Lemma drop_code P1 sym : zlen P1 <= 37 ->
  Z.land (bval (code_bits sym ++ P1)) (u64 (Z.shiftl 1 (zlen P1) - 1)) = bval P1.
Proof.
  intros HP. pose proof (zlen_nonneg P1). pose proof (bval_bound P1).
  assert (2 ^ zlen P1 <= 2 ^ 37) by (apply Z.pow_le_mono_r; lia).
  rewrite Z.shiftl_mul_pow2, Z.mul_1_l, u64_small, land_ones_mod by lia.
  rewrite bval_app, Z.add_comm, Z.mod_add by lia. by apply Z.mod_small.
Qed.

Lemma huffmanLookup_code sym P1 : sym_ok sym -> zlen (code_bits sym ++ P1) <= 37 ->
  huffmanLookup (bval (code_bits sym ++ P1)) (zlen (code_bits sym ++ P1)) = (sym, huff_bits sym).
Proof.
  intros Hs Hl. rewrite zlen_app, zlen_code in * by done. pose proof (zlen_nonneg P1). pose proof (bval_bound P1).
  rewrite bval_app, bval_code by done. replace (zlen P1) with (huff_bits sym + zlen P1 - huff_bits sym) at 1 by lia.
  apply lookup_hit; [done | lia |]. by replace (huff_bits sym + zlen P1 - huff_bits sym) with (zlen P1) by lia.
Qed.

(** A proper prefix of a code, or of the padding, stays pending. *)
Lemma huffmanLookup_prefix sym P Q : 0 <= sym < 257 -> code_bits sym = P ++ Q -> Q <> [] -> 5 <= zlen P ->
  huff_code sym < 2 ^ huff_bits sym -> 0 <= huff_code sym -> 0 <= huff_bits sym ->
  huffmanLookup (bval P) (zlen P) = (0, 0) /\ zlen P < huff_bits sym.
Proof.
  intros Hs Hc HQ HP Hlt Hc0 Hb0.
  assert (Hl : huff_bits sym = zlen P + zlen Q).
  { rewrite <- zlen_app, <- Hc. unfold code_bits. rewrite zlen_to_bits. lia. }
  assert (0 < zlen Q) by (destruct Q; [done |]; rewrite zlen_cons; pose proof (zlen_nonneg Q); lia).
  split; [| lia]. assert (Hv : bval P = Z.shiftr (huff_code sym) (huff_bits sym - zlen P)).
  { rewrite Z.shiftr_div_pow2 by lia. rewrite (bval_take_drop P Q), <- Hc. unfold code_bits. rewrite bval_to_bits, Z2Nat.id by lia.
    rewrite Z.mod_small by lia. do 2 f_equal. lia. }
  rewrite Hv. apply lookup_miss; lia.
Qed.

Lemma eos_ones : code_bits 256 = ones 30 /\ huff_code 256 = 2 ^ 30 - 1 /\ huff_bits 256 = 30.
Proof. by vm_compute. Qed.

(** The inner loop takes the whole codes off the front of the pending bits. *)
Lemma huffInner_spec fuel : forall P R ss m dst, P ++ R = codes ss ++ ones m -> syms_ok ss -> (m <= 7)%nat -> zlen P <= 37 ->
  (length P < fuel)%nat ->
  exists ss1 ss2 P', huffInner fuel dst (bval P) (zlen P) = Some (dst ++ ss1, bval P', zlen P') /\ ss = ss1 ++ ss2 /\
    P' ++ R = codes ss2 ++ ones m /\ zlen P' <= 29 /\ (R = [] -> ss2 = []).
Proof.
  induction fuel as [|fuel IH]; intros P R ss m dst Heq Hs Hm HP Hf; [lia |]. cbn [huffInner].
  destruct (Z.leb_spec 5 (zlen P)) as [H5 | H5].
  2:{ exists [], ss, P. rewrite app_nil_r. split; [done |]. split; [done |]. split; [done |]. split; [lia |].
      intros ->. destruct ss as [|c ss]; [done |]. exfalso. rewrite app_nil_r in Heq. apply Forall_cons_1 in Hs as [Hc _].
      assert (Hl : zlen P = zlen (codes (c :: ss) ++ ones m)) by (by rewrite Heq). rewrite codes_cons, !zlen_app, zlen_code in Hl by done.
      destruct (code_range c Hc). pose proof (zlen_nonneg (codes ss)). pose proof (zlen_nonneg (ones m)). lia. }
  destruct ss as [|c ss].
  - cbn [codes flat_map app] in Heq. destruct eos_ones as (E1 & E2 & E3).
    assert (HPm : P = ones (length P) /\ (length P <= m)%nat).
    { assert (Hl : (length P + length R = m)%nat) by (rewrite <- length_app, Heq; unfold ones; by rewrite length_replicate).
      split; [| lia]. assert (Ht : take (length P) (P ++ R) = take (length P) (ones m)) by (by rewrite Heq).
      rewrite take_app_length in Ht. unfold ones in *. rewrite take_replicate in Ht. rewrite Ht at 1. f_equal. lia. }
    destruct HPm as [HP1 HP2].
    destruct (huffmanLookup_prefix 256 P (ones (30 - length P))) as [Hmiss _]; rewrite ?E1, ?E2, ?E3; try lia.
    { rewrite HP1 at 1. unfold ones. rewrite <- replicate_add. f_equal. lia. }
    { unfold ones. destruct (30 - length P)%nat eqn:E; [lia | done]. }
    rewrite Hmiss. cbn [Z.eqb]. unfold hpackHuffmanMaxCodeBits. replace (30 <=? zlen P) with false by (unfold zlen; lia).
    exists [], [], P. rewrite app_nil_r. repeat split; try done. unfold zlen. lia.
  - apply Forall_cons_1 in Hs as [Hc Hs]. destruct (code_range c Hc) as [HL HC]. rewrite codes_cons, <- app_assoc in Heq.
    destruct (Nat.le_gt_cases (length (code_bits c)) (length P)) as [Hle | Hgt].
    + assert (HP1 : exists P1, P = code_bits c ++ P1 /\ P1 ++ R = codes ss ++ ones m).
      { exists (drop (length (code_bits c)) P). pose proof (take_drop (length (code_bits c)) P) as Htd.
        assert (Ht : take (length (code_bits c)) P = code_bits c).
        { assert (Ht : take (length (code_bits c)) (P ++ R) = code_bits c) by (rewrite Heq, take_app_length; done).
          rewrite take_app_le in Ht by lia. done. }
        rewrite Ht in Htd. split; [done |]. rewrite <- Htd, <- app_assoc in Heq. by apply app_inv_head in Heq. }
      destruct HP1 as (P1 & -> & Heq1). rewrite huffmanLookup_code by done.
      replace (huff_bits c =? 0) with false by lia.
      assert (Hz : zlen (code_bits c ++ P1) - huff_bits c = zlen P1) by (rewrite zlen_app, zlen_code by done; lia).
      rewrite Hz, drop_code by (rewrite zlen_app in HP; pose proof (zlen_nonneg (code_bits c)); lia).
      destruct (IH P1 R ss m (dst ++ [c]) Heq1 Hs Hm) as (ss1 & ss2 & P' & E & Hss & HR & HP' & Hend).
      { rewrite zlen_app in HP. pose proof (zlen_nonneg (code_bits c)). lia. }
      { rewrite length_app in Hf. pose proof (zlen_code c Hc) as Hzc. unfold zlen in Hzc. lia. }
      exists (c :: ss1), ss2, P'. rewrite E, <- app_assoc. repeat split; try done. cbn. by rewrite Hss.
    + assert (HQ : exists Q, code_bits c = P ++ Q /\ Q <> []).
      { exists (drop (length P) (code_bits c)). assert (Ht : take (length P) (code_bits c) = P).
        { assert (Ht : take (length P) (P ++ R) = P) by apply take_app_length. rewrite Heq, take_app_le in Ht by lia. done. }
        split; [by rewrite <- Ht at 1; rewrite take_drop |]. intros Hn. apply (f_equal length) in Hn. rewrite length_drop in Hn. cbn in Hn. lia. }
      destruct HQ as (Q & HQ & HQn). destruct (huffmanLookup_prefix c P Q) as [Hmiss Hlt]; try done; try (unfold sym_ok in Hc; lia).
      rewrite Hmiss. cbn [Z.eqb]. unfold hpackHuffmanMaxCodeBits. replace (30 <=? zlen P) with false by lia.
      exists [], (c :: ss), P. rewrite app_nil_r. split; [done |]. split; [done |]. rewrite codes_cons, <- app_assoc. split; [done |].
      split; [lia |]. intros ->. exfalso. rewrite app_nil_r in Heq. apply (f_equal length) in Heq. rewrite length_app in Heq. lia.
Qed.

Lemma huffDecodeLoop_complete src : forall P ss m dst, bytes_ok src -> P ++ bits_of src = codes ss ++ ones m -> syms_ok ss ->
  (m <= 7)%nat -> zlen P <= 29 -> (src = [] -> ss = []) ->
  exists P', huffDecodeLoop src dst (bval P) (zlen P) = Some (dst ++ ss, bval P', zlen P') /\ P' = ones m.
Proof.
  induction src as [|b src IH]; intros P ss m dst Hok Heq Hs Hm HP Hend.
  { rewrite (Hend eq_refl) in *. cbn in Heq. rewrite app_nil_r in Heq. exists P. by rewrite app_nil_r. }
  apply Forall_cons_1 in Hok as [Hb Hok]. cbn [huffDecodeLoop]. rewrite push_byte by done.
  assert (Hl : u8 (zlen P + 8) = zlen (P ++ to_bits 8 b)).
  { pose proof (zlen_nonneg P). rewrite u8_small by lia. rewrite zlen_app, zlen_to_bits. lia. }
  rewrite Hl. change (bits_of (b :: src)) with (to_bits 8 b ++ bits_of src) in Heq. rewrite app_assoc in Heq.
  destruct (huffInner_spec inner_fuel (P ++ to_bits 8 b) (bits_of src) ss m dst) as (ss1 & ss2 & P' & E & -> & HR & HP' & Hr); try done.
  { rewrite zlen_app, zlen_to_bits. lia. }
  { unfold inner_fuel. rewrite length_app, length_to_bits. unfold zlen in HP. lia. }
  rewrite E. apply Forall_app in Hs as [_ Hs2].
  destruct (IH P' ss2 m (dst ++ ss1)) as (P2 & E2 & HP2); try done.
  { intros ->. by apply Hr. }
  exists P2. rewrite E2, <- app_assoc. done.
Qed.

(** A byte string that spells codes and a padding of at most seven ones
    decodes to the coded string. *)
Lemma decode_spelled src ss m : bytes_ok src -> bits_of src = codes ss ++ ones m -> syms_ok ss -> (m <= 7)%nat ->
  hpackHuffmanDecode src = Some ss.
Proof.
  intros Hok Heq Hs Hm. unfold hpackHuffmanDecode, hpackHuffmanDecodeInto.
  destruct (huffDecodeLoop_complete src [] ss m []) as (P' & E & ->); try done.
  { intros ->. destruct ss as [|c ss]; [done |]. apply (f_equal length) in Heq. cbn in Heq. rewrite !length_app in Heq.
    apply Forall_cons_1 in Hs as [Hc _]. pose proof (zlen_code c Hc) as Hz. destruct (code_range c Hc). unfold zlen in Hz. lia. }
  change (bval []) with 0 in E. change (zlen (@nil bool)) with 0 in E. rewrite E. cbn [app].
  assert (Hz : zlen (ones m) = Z.of_nat m) by (unfold zlen, ones; by rewrite length_replicate).
  rewrite Hz, bval_ones, Z.shiftl_mul_pow2 by lia. rewrite Z.mul_1_l, Z.eqb_refl. cbn [negb]. rewrite andb_false_r, orb_false_r.
  by replace (7 <? Z.of_nat m) with false by lia.
Qed.

(** ** The encoder *)

(** The low [zlen P] bits of the accumulator are the pending bits. *)
Definition holds (cur : Z) (P : list bool) : Prop := cur mod 2 ^ zlen P = bval P.

Lemma huffEmit_spec fuel : forall dst cur P, holds cur P -> bytes_ok dst -> (length P < 8 * fuel)%nat ->
  exists dst' P', huffEmit fuel dst cur (zlen P) = (dst', zlen P') /\ holds cur P' /\ (length P' < 8)%nat /\ bytes_ok dst' /\
    bits_of dst' ++ P' = bits_of dst ++ P.
Proof.
  induction fuel as [|fuel IH]; intros dst cur P Hh Hok Hf; [lia |]. cbn [huffEmit].
  destruct (Z.leb_spec 8 (zlen P)) as [H8 | H8]; [| exists dst, P; repeat split; try done; unfold zlen in H8; lia].
  set (T := take 8 P). set (P1 := drop 8 P). assert (HP : P = T ++ P1) by (symmetry; apply take_drop).
  assert (HT : length T = 8%nat) by (unfold T; rewrite length_take; unfold zlen in H8; lia).
  assert (Hz : zlen P - 8 = zlen P1) by (rewrite HP, zlen_app; unfold zlen at 1; rewrite HT; lia).
  pose proof (zlen_nonneg P1). rewrite Hz.
  assert (Hh1 : holds cur P1).
  { unfold holds in *. rewrite HP, zlen_app in Hh. rewrite bval_app in Hh.
    assert (Hd : cur mod 2 ^ zlen P1 = (cur mod 2 ^ (zlen T + zlen P1)) mod 2 ^ zlen P1).
    { rewrite (Z.add_comm (zlen T)), Z.pow_add_r by (unfold zlen; lia). rewrite Z.rem_mul_r by (unfold zlen; lia). rewrite (Z.mul_comm (2 ^ zlen P1)), Z.mod_add, Z.mod_mod by lia. done. }
    rewrite Hd, Hh, Z.add_comm, Z.mod_add by lia. apply Z.mod_small, bval_bound. }
  assert (Hbyte : u8 (Z.shiftr cur (zlen P1)) = bval T).
  { rewrite Z.shiftr_div_pow2 by lia. unfold u8, holds in *. rewrite HP, zlen_app in Hh. unfold zlen at 1 in Hh. rewrite HT in Hh.
    change (Z.of_nat 8) with 8 in Hh. rewrite (bval_take_drop T P1), <- Hh, Z.add_comm, Z.pow_add_r by lia.
    rewrite Z.rem_mul_r, Z.add_comm, Z.mul_comm, Z.div_add_l by lia.
    rewrite (Z.div_small (cur mod 2 ^ zlen P1)) by (apply Z.mod_pos_bound; lia). lia. }
  rewrite Hbyte. assert (Hb8 : is_u8 (bval T)).
  { pose proof (bval_bound T) as Hb. unfold zlen in Hb. rewrite HT in Hb. exact Hb. }
  destruct (IH (dst ++ [bval T]) cur P1 Hh1) as (dst' & P' & E & Hh' & Hl' & Hok' & Hbits).
  { apply Forall_app. split; [done |]. by apply Forall_singleton. }
  { rewrite HP, length_app in Hf. lia. }
  exists dst', P'. split; [done |]. split; [done |]. split; [done |]. split; [done |].
  rewrite Hbits, bits_of_app, <- app_assoc, HP. f_equal. unfold bits_of at 1. cbn [flat_map]. rewrite app_nil_r. f_equal.
  apply bval_inj; [by rewrite length_to_bits |]. rewrite bval_to_bits. change (2 ^ Z.of_nat 8) with (2 ^ 8). by apply Z.mod_small.
Qed.

(** Appending a code to the accumulator. *)
Lemma holds_code cur P c : holds cur P -> (length P < 8)%nat -> sym_ok c ->
  holds (Z.lor (u64 (Z.shiftl cur (huff_bits c))) (huff_code c)) (P ++ code_bits c).
Proof.
  intros Hh HP Hc. destruct (code_range c Hc) as [HL HC]. unfold holds in *. rewrite zlen_app, bval_app, zlen_code, bval_code by done.
  assert (HzP : 0 <= zlen P <= 7) by (unfold zlen; lia).
  assert (Hu : u64 (Z.shiftl cur (huff_bits c)) = (cur mod 2 ^ (64 - huff_bits c)) * 2 ^ huff_bits c).
  { rewrite Z.shiftl_mul_pow2 by lia. unfold u64. replace 64 with (64 - huff_bits c + huff_bits c) at 1 by lia.
    rewrite Z.pow_add_r by lia. rewrite Z.mul_mod_distr_r by lia. done. }
  rewrite Hu, lor_disjoint by lia. rewrite (Z.add_comm (zlen P)), Z.pow_add_r by lia.
  rewrite Z.rem_mul_r by lia.
  replace ((cur mod 2 ^ (64 - huff_bits c) * 2 ^ huff_bits c + huff_code c) mod 2 ^ huff_bits c) with (huff_code c).
  2:{ rewrite Z.add_comm, Z.mod_add by lia. by rewrite Z.mod_small. }
  rewrite Z.div_add_l, (Z.div_small (huff_code c)), Z.add_0_r by lia.
  assert (Hmm : (cur mod 2 ^ (64 - huff_bits c)) mod 2 ^ zlen P = cur mod 2 ^ zlen P).
  { replace (64 - huff_bits c) with (zlen P + (64 - huff_bits c - zlen P)) by lia. rewrite Z.pow_add_r by lia.
    rewrite Z.rem_mul_r by lia. rewrite (Z.mul_comm (2 ^ zlen P)), Z.mod_add, Z.mod_mod by lia. done. }
  rewrite Hmm, Hh. lia.
Qed.

Lemma huffAppendLoop_spec s : forall dst cur P, holds cur P -> (length P < 8)%nat -> bytes_ok dst -> syms_ok s ->
  exists dst' cur' P', huffAppendLoop s dst cur (zlen P) = (dst', cur', zlen P') /\ holds cur' P' /\ (length P' < 8)%nat /\
    bytes_ok dst' /\ bits_of dst' ++ P' = bits_of dst ++ P ++ codes s.
Proof.
  induction s as [|c s IH]; intros dst cur P Hh HP Hok Hs; cbn [huffAppendLoop].
  { exists dst, cur, P. rewrite app_nil_r. repeat split; done. }
  apply Forall_cons_1 in Hs as [Hc Hs]. destruct (code_range c Hc) as [HL HC].
  assert (Hz : u8 (zlen P + huff_bits c) = zlen (P ++ code_bits c)).
  { rewrite zlen_app, zlen_code by done. apply u8_small. unfold zlen. lia. }
  rewrite Hz. pose proof (holds_code cur P c Hh HP Hc) as Hh1.
  destruct (huffEmit_spec 32 dst _ (P ++ code_bits c) Hh1 Hok) as (dst1 & P1 & -> & Hh2 & HP1 & Hok1 & Hb1).
  { rewrite length_app. pose proof (zlen_code c Hc) as Hzc. unfold zlen in Hzc. lia. }
  destruct (IH dst1 _ P1 Hh2 HP1 Hok1 Hs) as (dst2 & cur2 & P2 & E & H1 & H2 & H3 & H4).
  exists dst2, cur2, P2. split; [done |]. split; [done |]. split; [done |]. split; [done |].
  rewrite H4, app_assoc, Hb1, codes_cons, <- !app_assoc. done.
Qed.

Lemma huffEmit_prefix fuel a : forall b cur n,
  huffEmit fuel (a ++ b) cur n = (a ++ fst (huffEmit fuel b cur n), snd (huffEmit fuel b cur n)).
Proof.
  induction fuel as [|fuel IH]; intros b cur n; cbn [huffEmit]; [done |]. destruct (8 <=? n); [| done].
  by rewrite <- app_assoc, IH.
Qed.

Lemma huffAppendLoop_prefix a s : forall b cur n,
  huffAppendLoop s (a ++ b) cur n =
  let '(d, c, k) := huffAppendLoop s b cur n in (a ++ d, c, k).
Proof.
  induction s as [|c s IH]; intros b cur n; cbn [huffAppendLoop]; [done |].
  rewrite huffEmit_prefix. destruct (huffEmit 32 b _ _) as [d k]. cbn [fst snd]. by rewrite IH.
Qed.

Lemma hpackHuffmanAppend_dst dst s : hpackHuffmanAppend dst s = dst ++ hpackHuffmanAppend [] s.
Proof.
  unfold hpackHuffmanAppend. rewrite <- (app_nil_r dst) at 1. rewrite huffAppendLoop_prefix.
  destruct (huffAppendLoop s [] 0 0) as [[d c] k]. destruct (0 <? k); by rewrite ?app_assoc.
Qed.

(** The last byte: the pending bits and ones up to the byte boundary. *)
Lemma pad_byte cur P : holds cur P -> (0 < length P < 8)%nat ->
  u8 (Z.lor (u64 (Z.shiftl cur (8 - zlen P))) (Z.shiftr 0xff (zlen P))) = bval (P ++ ones (8 - length P)).
Proof.
  intros Hh HP. assert (Hz : 1 <= zlen P <= 7) by (unfold zlen; lia). set (k := 8 - zlen P) in *.
  assert (Hff : Z.shiftr 0xff (zlen P) = 2 ^ k - 1).
  { assert (Hc : zlen P = 1 \/ zlen P = 2 \/ zlen P = 3 \/ zlen P = 4 \/ zlen P = 5 \/ zlen P = 6 \/ zlen P = 7) by lia.
    unfold k. repeat destruct Hc as [Hc | Hc]; rewrite Hc; done. }
  assert (Hu : u64 (Z.shiftl cur k) = (cur mod 2 ^ (64 - k)) * 2 ^ k).
  { rewrite Z.shiftl_mul_pow2 by lia. unfold u64. replace 64 with (64 - k + k) at 1 by lia.
    rewrite Z.pow_add_r by lia. rewrite Z.mul_mod_distr_r by lia. done. }
  rewrite Hff, Hu, lor_disjoint by lia. unfold u8. replace 8 with (k + zlen P) by lia. rewrite Z.pow_add_r, Z.rem_mul_r by lia.
  replace ((cur mod 2 ^ (64 - k) * 2 ^ k + (2 ^ k - 1)) mod 2 ^ k) with (2 ^ k - 1).
  2:{ rewrite Z.add_comm, Z.mod_add by lia. rewrite Z.mod_small; lia. }
  rewrite Z.div_add_l, (Z.div_small (2 ^ k - 1)), Z.add_0_r by lia.
  assert (Hmm : (cur mod 2 ^ (64 - k)) mod 2 ^ zlen P = cur mod 2 ^ zlen P).
  { replace (64 - k) with (zlen P + (64 - k - zlen P)) by lia. rewrite Z.pow_add_r by lia.
    rewrite Z.rem_mul_r by lia. rewrite (Z.mul_comm (2 ^ zlen P)), Z.mod_add, Z.mod_mod by lia. done. }
  rewrite Hmm, Hh, bval_app, bval_ones. assert (Hzo : zlen (ones (8 - length P)) = k) by (unfold zlen, ones, k, zlen; rewrite length_replicate; lia).
  rewrite Hzo. replace (Z.of_nat (8 - length P)) with k by (unfold k, zlen; lia). lia.
Qed.

(** The bytes the encoder appends spell the codes and a padding of ones. *)
Lemma append_spells s : syms_ok s ->
  exists m, bytes_ok (hpackHuffmanAppend [] s) /\ bits_of (hpackHuffmanAppend [] s) = codes s ++ ones m /\ (m < 8)%nat.
Proof.
  intros Hs. unfold hpackHuffmanAppend.
  destruct (huffAppendLoop_spec s [] 0 []) as (dst & cur & P & E & Hh & HP & Hok & Hb); [done | cbn; lia | constructor | done |].
  change (zlen (@nil bool)) with 0 in E. rewrite E. cbn [app bits_of flat_map] in Hb.
  destruct (Z.ltb_spec 0 (zlen P)) as [Hp | Hp].
  - assert (HP0 : (0 < length P < 8)%nat) by (unfold zlen in Hp; lia). rewrite (pad_byte cur P Hh HP0).
    exists (8 - length P)%nat. pose proof (bval_bound (P ++ ones (8 - length P))) as Hbd.
    assert (Hl8 : length (P ++ ones (8 - length P)) = 8%nat) by (rewrite length_app; unfold ones; rewrite length_replicate; lia).
    unfold zlen in Hbd. rewrite Hl8 in Hbd. split; [| split; [| lia]].
    + apply Forall_app. split; [done |]. by apply Forall_singleton.
    + rewrite bits_of_app. unfold bits_of at 2. cbn [flat_map]. rewrite app_nil_r, <- Hb, <- app_assoc. f_equal.
      apply bval_inj; [by rewrite length_to_bits |]. rewrite bval_to_bits. by apply Z.mod_small.
  - exists 0%nat. destruct P; [| rewrite zlen_cons in Hp; pose proof (zlen_nonneg P); lia].
    rewrite app_nil_r in Hb. split; [done |]. split; [| lia]. cbn. by rewrite app_nil_r.
Qed.

Lemma bytes_syms s : bytes_ok s -> syms_ok s.
Proof. intros H. eapply Forall_impl; [| exact H]. intros c Hc. exact Hc. Qed.

Lemma huffman_decode_append s : bytes_ok s -> hpackHuffmanDecode (hpackHuffmanAppend [] s) = Some s.
Proof.
  intros Hs. destruct (append_spells s (bytes_syms s Hs)) as (m & Hok & Hb & Hm).
  eapply decode_spelled; [done | exact Hb | by apply bytes_syms | lia].
Qed.

(** ** The length the encoder announces *)

Lemma huffBitLen_code c : sym_ok c -> huffBitLen c = zlen (code_bits c).
Proof. intros Hc. rewrite zlen_code by done. unfold huffBitLen, u16. destruct (code_range c Hc). apply Z.mod_small. lia. Qed.

Lemma huffLenLoop_codes s : forall bits, syms_ok s -> huffLenLoop s bits = bits + zlen (codes s).
Proof.
  assert (Hind : forall n s, (length s <= n)%nat -> forall bits, syms_ok s -> huffLenLoop s bits = bits + zlen (codes s)).
  { clear s. induction n as [|n IH]; intros s Hn bits Hs.
    { destruct s; [cbn [huffLenLoop]; change (zlen (codes [])) with 0; lia | cbn in Hn; lia]. }
    destruct s as [|a [|b [|c [|d s]]]]; cbn [huffLenLoop]; unfold syms_ok in Hs; decompose_Forall_hyps; rewrite ?codes_cons, ?zlen_app.
    1-4: change (codes []) with (@nil bool); rewrite ?zlen_nil, ?huffBitLen_code by done; lia.
    rewrite IH by (done || (cbn in Hn; lia)). rewrite !huffBitLen_code by done. lia. }
  intros bits Hs. by apply (Hind (length s)).
Qed.

Lemma huffman_len s : syms_ok s -> zlen (hpackHuffmanAppend [] s) = hpackHuffmanEncodedLen s.
Proof.
  intros Hs. destruct (append_spells s Hs) as (m & Hok & Hb & Hm). unfold hpackHuffmanEncodedLen. rewrite huffLenLoop_codes by done.
  apply (f_equal length) in Hb. rewrite length_bits_of, length_app in Hb. unfold ones in Hb. rewrite length_replicate in Hb.
  unfold zlen in *. rewrite Z.quot_div_nonneg by lia.
  apply Z.div_unique with (r := 7 - Z.of_nat m); lia.
Qed.

(** ** Decoding is sound *)

Lemma huffInner_sound fuel : forall P R dst dst' bits' n', zlen P <= 37 ->
  huffInner fuel dst (bval P) (zlen P) = Some (dst', bits', n') -> (length P < fuel)%nat ->
  exists ss P', dst' = dst ++ ss /\ syms_ok ss /\ bits' = bval P' /\ n' = zlen P' /\ P ++ R = codes ss ++ P' ++ R /\ zlen P' <= 29.
Proof.
  induction fuel as [|fuel IH]; intros P R dst dst' bits' n' HP E Hf; [lia |]. cbn [huffInner] in E.
  destruct (Z.leb_spec 5 (zlen P)) as [H5 | H5].
  2:{ simplify_eq. exists [], P. rewrite app_nil_r. repeat split; try done; [constructor | lia]. }
  destruct (huffmanLookup (bval P) (zlen P)) as [sym L] eqn:El. destruct (Z.eqb_spec L 0) as [-> | HL].
  - unfold hpackHuffmanMaxCodeBits in E. destruct (Z.leb_spec 30 (zlen P)); [done |]. simplify_eq.
    exists [], P. rewrite app_nil_r. repeat split; try done; [constructor | lia].
  - destruct (lookup_sound (bval P) (zlen P) sym L ltac:(lia) (bval_bound P) El HL) as (Hs & -> & Hle & Hcode).
    destruct (code_range sym Hs) as [HLr HCr]. set (k := Z.to_nat (huff_bits sym)) in *.
    assert (HPs : P = code_bits sym ++ drop k P).
    { rewrite <- (take_drop k P) at 1. f_equal. apply bval_inj.
      - rewrite length_take. pose proof (zlen_code sym Hs) as Hz. unfold zlen in *. lia.
      - rewrite bval_code by done. rewrite Hcode, (bval_take_drop (take k P) (drop k P)), take_drop. do 2 f_equal.
        unfold zlen in *. rewrite length_drop. lia. }
    set (P1 := drop k P) in *. assert (Hz1 : zlen P - huff_bits sym = zlen P1) by (rewrite HPs, zlen_app, zlen_code by done; lia).
    rewrite Hz1 in E. rewrite HPs in E at 1. rewrite drop_code in E by lia.
    apply (IH P1 R) in E as (ss & P' & -> & Hss & -> & -> & HR & HP'); [| lia |].
    + exists (sym :: ss), P'. rewrite <- app_assoc. split; [done |]. split; [by constructor |]. split; [done |]. split; [done |].
      split; [| done]. rewrite codes_cons, <- app_assoc, <- HR, app_assoc. by rewrite <- HPs.
    + unfold P1, k. rewrite length_drop. unfold zlen in H5. lia.
Qed.

Lemma huffDecodeLoop_sound src : forall P dst dst' bits' n', bytes_ok src -> zlen P <= 29 ->
  huffDecodeLoop src dst (bval P) (zlen P) = Some (dst', bits', n') ->
  exists ss P', dst' = dst ++ ss /\ syms_ok ss /\ bits' = bval P' /\ n' = zlen P' /\ P ++ bits_of src = codes ss ++ P'.
Proof.
  induction src as [|b src IH]; intros P dst dst' bits' n' Hok HP E; cbn [huffDecodeLoop] in E.
  { simplify_eq. exists [], P. rewrite !app_nil_r. repeat split; try done. }
  apply Forall_cons_1 in Hok as [Hb Hok]. rewrite push_byte in E by done.
  assert (Hl : u8 (zlen P + 8) = zlen (P ++ to_bits 8 b)).
  { pose proof (zlen_nonneg P). rewrite u8_small by lia. rewrite zlen_app, zlen_to_bits. lia. }
  rewrite Hl in E. destruct (huffInner inner_fuel dst _ _) as [[[d1 b1] n1] |] eqn:E1; [| done].
  apply (huffInner_sound _ _ (bits_of src)) in E1 as (ss1 & P1 & -> & Hs1 & -> & -> & HR1 & HP1).
  - apply IH in E as (ss2 & P2 & -> & Hs2 & -> & -> & HR2); [| done | done].
    exists (ss1 ++ ss2), P2. rewrite codes_app, <- !app_assoc. repeat split; try done; [by apply Forall_app |].
    change (bits_of (b :: src)) with (to_bits 8 b ++ bits_of src). rewrite app_assoc, HR1, HR2. done.
  - rewrite zlen_app, zlen_to_bits. lia.
  - unfold inner_fuel. rewrite length_app, length_to_bits. unfold zlen in HP. lia.
Qed.

Lemma ones_of_bval P : bval P = 2 ^ zlen P - 1 -> P = ones (length P).
Proof.
  intros H. apply bval_inj; [unfold ones; by rewrite length_replicate |]. by rewrite bval_ones, H.
Qed.

(** An accepted byte string spells what it decodes to. *)
Lemma decode_spells src s : bytes_ok src -> hpackHuffmanDecode src = Some s ->
  exists m, syms_ok s /\ bits_of src = codes s ++ ones m /\ (m < 8)%nat.
Proof.
  intros Hok. unfold hpackHuffmanDecode, hpackHuffmanDecodeInto.
  destruct (huffDecodeLoop src [] 0 0) as [[[d bits] n] |] eqn:E; [| done].
  apply (huffDecodeLoop_sound src []) in E as (ss & P & -> & Hs & -> & -> & HR); [| done | done].
  cbn [app]. destruct (_ || _) eqn:Hc; [done |]. intros [= <-]. apply orb_false_iff in Hc as [H7 Hp].
  exists (length P). cbn [app] in HR. unfold zlen in H7. split; [done |]. split; [| lia]. rewrite HR. f_equal.
  destruct P as [|x P]; [done |]. apply ones_of_bval. apply andb_false_iff in Hp as [Hp | Hp].
  - rewrite zlen_cons in Hp. pose proof (zlen_nonneg P). lia.
  - rewrite Z.shiftl_mul_pow2 in Hp by apply zlen_nonneg. lia.
Qed.

(** ** Theorems *)

(** The Huffman coder is lossless. For every byte string, decoding what
    the encoder appends gives the string back, the encoder leaves the bytes
    already in the buffer alone, and the number of bytes it appends is the
    length computed beforehand for the string's length prefix. *)
Theorem huffman_roundtrip dst s : bytes_ok s ->
  exists enc, hpackHuffmanAppend dst s = dst ++ enc /\ bytes_ok enc /\ zlen enc = hpackHuffmanEncodedLen s /\
    hpackHuffmanDecode enc = Some s.
Proof.
  intros Hs. exists (hpackHuffmanAppend [] s). split; [apply hpackHuffmanAppend_dst |].
  destruct (append_spells s (bytes_syms s Hs)) as (m & Hok & _ & _). split; [done |].
  split; [apply huffman_len; by apply bytes_syms | by apply huffman_decode_append].
Qed.

Lemma huffman_roundtrip_witness :
  exists enc, hpackHuffmanAppend [1; 2] [0; 255; 97; 10] = [1; 2] ++ enc /\ bytes_ok enc /\
    zlen enc = hpackHuffmanEncodedLen [0; 255; 97; 10] /\ hpackHuffmanDecode enc = Some [0; 255; 97; 10].
Proof. apply (huffman_roundtrip [1; 2] [0; 255; 97; 10]). repeat constructor; lia. Defined.

(** The Huffman decoder accepts nothing else. A byte string it accepts is
    exactly what the encoder produces for the decoded string: no two byte
    strings decode to the same string, the padding is at most seven ones, and
    the EOS code never appears. *)
Theorem huffman_canonical src s : bytes_ok src -> hpackHuffmanDecode src = Some s -> hpackHuffmanAppend [] s = src.
Proof.
  intros Hok E. destruct (decode_spells src s Hok E) as (m & Hs & Hb & Hm).
  destruct (append_spells s Hs) as (m' & Hok' & Hb' & Hm'). apply bits_of_inj; [done | done |].
  assert (Hmm : m' = m).
  { apply (f_equal length) in Hb, Hb'. rewrite length_bits_of, length_app in Hb, Hb'. unfold ones in *. rewrite length_replicate in Hb, Hb'. lia. }
  by rewrite Hb, Hb', Hmm.
Qed.

Lemma huffman_canonical_witness :
  hpackHuffmanDecode [0x1f] = Some [97] /\ hpackHuffmanDecode [0x18] = None /\ hpackHuffmanAppend [] [97] = [0x1f].
Proof.
  split; [vm_compute; reflexivity |]. split; [vm_compute; reflexivity |].
  apply (huffman_canonical [0x1f] [97]); [repeat constructor; lia | vm_compute; reflexivity].
Defined.
