(* ===== verification/HpackTable.v ===== *)
(** The HPACK static table (src/core/hpack.go) and its two name lookups, exact
    and case-insensitive, and the proof that they agree. *)
From stdpp Require Import base list numbers gmap countable list_numbers strings.
From Stdlib Require Import ZArith Lia ZifyBool.
From S2P Require Import Prelude Utils.

Open Scope list_scope.
Open Scope Z_scope.

(** ** The static table *)

Definition HpackStaticTable : list (bytes * bytes) :=
  [(str "", str "");
   (str ":authority", str "");
   (str ":method", str "GET");
   (str ":method", str "POST");
   (str ":path", str "/");
   (str ":path", str "/index.html");
   (str ":scheme", str "http");
   (str ":scheme", str "https");
   (str ":status", str "200");
   (str ":status", str "204");
   (str ":status", str "206");
   (str ":status", str "304");
   (str ":status", str "400");
   (str ":status", str "404");
   (str ":status", str "500");
   (str "accept-charset", str "");
   (str "accept-encoding", str "gzip, deflate");
   (str "accept-language", str "");
   (str "accept-ranges", str "");
   (str "accept", str "");
   (str "access-control-allow-origin", str "");
   (str "age", str "");
   (str "allow", str "");
   (str "authorization", str "");
   (str "cache-control", str "");
   (str "content-disposition", str "");
   (str "content-encoding", str "");
   (str "content-language", str "");
   (str "content-length", str "");
   (str "content-location", str "");
   (str "content-range", str "");
   (str "content-type", str "");
   (str "cookie", str "");
   (str "date", str "");
   (str "etag", str "");
   (str "expect", str "");
   (str "expires", str "");
   (str "from", str "");
   (str "host", str "");
   (str "if-match", str "");
   (str "if-modified-since", str "");
   (str "if-none-match", str "");
   (str "if-range", str "");
   (str "if-unmodified-since", str "");
   (str "last-modified", str "");
   (str "link", str "");
   (str "location", str "");
   (str "max-forwards", str "");
   (str "proxy-authenticate", str "");
   (str "proxy-authorization", str "");
   (str "range", str "");
   (str "referer", str "");
   (str "refresh", str "");
   (str "retry-after", str "");
   (str "server", str "");
   (str "set-cookie", str "");
   (str "strict-transport-security", str "");
   (str "transfer-encoding", str "");
   (str "user-agent", str "");
   (str "vary", str "");
   (str "via", str "");
   (str "www-authenticate", str "")].

Definition static_name (i : Z) : bytes := fst (nth (Z.to_nat i) HpackStaticTable ([], [])).

(** The index of the first entry of each name, built once at start-up. *)
Definition addStaticName (m : gmap bytes Z) (i : Z) : gmap bytes Z :=
  let name := static_name i in
  match m !! name with Some _ => m | None => <[name := i]> m end.

Definition hpackStaticNameMap : gmap bytes Z := foldl addStaticName ∅ (seqZ 1 61).

Definition hpackFindStaticName (name : bytes) : Z :=
  if bytes_eqb name (str ":authority") then 1 else
  if bytes_eqb name (str ":method") then 2 else
  if bytes_eqb name (str ":path") then 4 else
  if bytes_eqb name (str ":scheme") then 6 else
  if bytes_eqb name (str "content-length") then 28 else
  if bytes_eqb name (str "content-type") then 31 else
  if bytes_eqb name (str "server") then 54 else
  match hpackStaticNameMap !! name with Some idx => idx | None => 0 end.

(** A run of [if EqualFoldASCII(name, s) { return idx }] statements. *)
Fixpoint firstFold (name : bytes) (cases : list (bytes * Z)) : Z :=
  match cases with
  | [] => 0
  | (s, idx) :: cases => if EqualFoldASCII name s then idx else firstFold name cases
  end.

Definition hpackFindStaticNameFold (name : bytes) : Z :=
  match zlen name with
  | 3 => firstFold name [(str "age", 21); (str "via", 60)]
  | 4 => firstFold name 
        [(str "date", 33);
         (str "etag", 34);
         (str "from", 37);
         (str "host", 38);
         (str "link", 45);
         (str "vary", 59)]
  | 5 =>
      if znth name 0 =? 58 then firstFold name [(str ":path", 4)]
      else firstFold name [(str "allow", 22); (str "range", 50)]
  | 6 => firstFold name 
        [(str "accept", 19);
         (str "cookie", 32);
         (str "expect", 35);
         (str "server", 54)]
  | 7 =>
      if znth name 0 =? 58 then firstFold name [(str ":method", 2); (str ":scheme", 6); (str ":status", 8)]
      else firstFold name [(str "expires", 36); (str "referer", 51); (str "refresh", 52)]
  | 8 => firstFold name [(str "if-match", 39); (str "if-range", 42); (str "location", 46)]
  | 10 =>
      if znth name 0 =? 58 then firstFold name [(str ":authority", 1)]
      else firstFold name [(str "set-cookie", 55); (str "user-agent", 58)]
  | 11 => firstFold name [(str "retry-after", 53)]
  | 12 => firstFold name [(str "content-type", 31); (str "max-forwards", 47)]
  | 13 => firstFold name 
        [(str "accept-ranges", 18);
         (str "authorization", 23);
         (str "cache-control", 24);
         (str "content-range", 30);
         (str "if-none-match", 41);
         (str "last-modified", 44)]
  | 14 => firstFold name [(str "accept-charset", 15); (str "content-length", 28)]
  | 15 => firstFold name [(str "accept-encoding", 16); (str "accept-language", 17)]
  | 16 => firstFold name 
        [(str "content-encoding", 26);
         (str "content-language", 27);
         (str "content-location", 29);
         (str "www-authenticate", 61)]
  | 17 => firstFold name [(str "if-modified-since", 40); (str "transfer-encoding", 57)]
  | 18 => firstFold name [(str "proxy-authenticate", 48)]
  | 19 => firstFold name [(str "content-disposition", 25); (str "if-unmodified-since", 43); (str "proxy-authorization", 49)]
  | 25 => firstFold name [(str "strict-transport-security", 56)]
  | 27 => firstFold name [(str "access-control-allow-origin", 20)]
  | _ => 0
  end.

(** ** The lookups agree *)

(** The names the lookups can answer. *)
Definition staticNames : list bytes := tail (map fst HpackStaticTable).

Fixpoint firstEq (low : bytes) (cases : list (bytes * Z)) : Z :=
  match cases with
  | [] => 0
  | (s, idx) :: cases => if bytes_eqb low s then idx else firstEq low cases
  end.

Lemma firstFold_low name cases : Forall (fun c => map asciiLower (fst c) = fst c) cases ->
  firstFold name cases = firstEq (map asciiLower name) cases.
Proof.
  induction 1 as [| [s i] cases Hs _ IH]; [done |]. simpl in *. by rewrite EqualFoldASCII_spec, Hs, IH.
Qed.

Lemma firstEq_notin low cases : low ∉ staticNames -> Forall (fun c => fst c ∈ staticNames) cases -> firstEq low cases = 0.
Proof.
  intros Hn. induction 1 as [| [s i] cases Hs _ IH]; [done |]. simpl in *.
  destruct (bytes_eqb low s) eqn:E; [| done]. by apply bytes_eqb_spec in E as ->.
Qed.

Lemma staticNameMap_keys m l name i : (forall k j, m !! k = Some j -> k ∈ staticNames) -> Forall (fun i => static_name i ∈ staticNames) l ->
  foldl addStaticName m l !! name = Some i -> name ∈ staticNames.
Proof.
  revert m. induction l as [| j l IH]; intros m Hm Hl; simpl; [apply Hm |].
  apply Forall_cons in Hl as [Hj Hl]. apply IH; [| done]. intros k i' H. unfold addStaticName in H.
  destruct (m !! static_name j) eqn:E; [by eapply Hm |]. apply lookup_insert_Some in H as [[<- _] | [_ H]]; [done | by eapply Hm].
Qed.

Lemma static_name_in i : 1 <= i < 62 -> static_name i ∈ staticNames.
Proof.
  intros Hi. apply list_elem_of_lookup. exists (Z.to_nat (i - 1)). unfold static_name, staticNames.
  replace (Z.to_nat i) with (S (Z.to_nat (i - 1))) by lia.
  assert (H : forallb (fun k => bool_decide (tail (map fst HpackStaticTable) !! k = Some (fst (nth (S k) HpackStaticTable ([], []))))) (seq 0 61) = true)
    by (vm_compute; reflexivity).
  rewrite forallb_forall in H. specialize (H (Z.to_nat (i - 1))). rewrite bool_decide_eq_true in H. apply H, in_seq. lia.
Qed.

Lemma in_staticNames s : existsb (bytes_eqb s) staticNames = true -> s ∈ staticNames.
Proof. intros H. apply existsb_exists in H as (x & Hx & E). apply bytes_eqb_spec in E as ->. by apply list_elem_of_In. Qed.

Lemma hpackStaticNameMap_keys name i : hpackStaticNameMap !! name = Some i -> name ∈ staticNames.
Proof.
  apply staticNameMap_keys; [intros k j H; by rewrite lookup_empty in H |].
  apply Forall_forall. intros j Hj. apply elem_of_seqZ in Hj. apply static_name_in. lia.
Qed.

#[local] Opaque hpackStaticNameMap.

Lemma bytes_eqb_notin low s : low ∉ staticNames -> existsb (bytes_eqb s) staticNames = true -> bytes_eqb low s = false.
Proof.
  intros Hn Hs. destruct (bytes_eqb low s) eqn:E; [| done]. apply bytes_eqb_spec in E as ->. by destruct Hn; apply in_staticNames.
Qed.

Lemma hpackFindStaticName_notin low : low ∉ staticNames -> hpackFindStaticName low = 0.
Proof.
  intros Hn. unfold hpackFindStaticName.
  rewrite !(bytes_eqb_notin low) by (done || (vm_compute; reflexivity)).
  destruct (hpackStaticNameMap !! low) eqn:Em; [| done]. by destruct Hn; apply (hpackStaticNameMap_keys _ z).
Qed.

(** The switch of [hpackFindStaticNameFold], on the lower-cased name. *)
Definition findFoldLow (low : bytes) : Z :=
  match zlen low with
  | 3 => firstEq low [(str "age", 21); (str "via", 60)]
  | 4 => firstEq low 
        [(str "date", 33);
         (str "etag", 34);
         (str "from", 37);
         (str "host", 38);
         (str "link", 45);
         (str "vary", 59)]
  | 5 =>
      if znth low 0 =? 58 then firstEq low [(str ":path", 4)]
      else firstEq low [(str "allow", 22); (str "range", 50)]
  | 6 => firstEq low 
        [(str "accept", 19);
         (str "cookie", 32);
         (str "expect", 35);
         (str "server", 54)]
  | 7 =>
      if znth low 0 =? 58 then firstEq low [(str ":method", 2); (str ":scheme", 6); (str ":status", 8)]
      else firstEq low [(str "expires", 36); (str "referer", 51); (str "refresh", 52)]
  | 8 => firstEq low [(str "if-match", 39); (str "if-range", 42); (str "location", 46)]
  | 10 =>
      if znth low 0 =? 58 then firstEq low [(str ":authority", 1)]
      else firstEq low [(str "set-cookie", 55); (str "user-agent", 58)]
  | 11 => firstEq low [(str "retry-after", 53)]
  | 12 => firstEq low [(str "content-type", 31); (str "max-forwards", 47)]
  | 13 => firstEq low 
        [(str "accept-ranges", 18);
         (str "authorization", 23);
         (str "cache-control", 24);
         (str "content-range", 30);
         (str "if-none-match", 41);
         (str "last-modified", 44)]
  | 14 => firstEq low [(str "accept-charset", 15); (str "content-length", 28)]
  | 15 => firstEq low [(str "accept-encoding", 16); (str "accept-language", 17)]
  | 16 => firstEq low 
        [(str "content-encoding", 26);
         (str "content-language", 27);
         (str "content-location", 29);
         (str "www-authenticate", 61)]
  | 17 => firstEq low [(str "if-modified-since", 40); (str "transfer-encoding", 57)]
  | 18 => firstEq low [(str "proxy-authenticate", 48)]
  | 19 => firstEq low [(str "content-disposition", 25); (str "if-unmodified-since", 43); (str "proxy-authorization", 49)]
  | 25 => firstEq low [(str "strict-transport-security", 56)]
  | 27 => firstEq low [(str "access-control-allow-origin", 20)]
  | _ => 0
  end.

Lemma lower_colon c : (asciiLower c =? 58) = (c =? 58).
Proof. unfold asciiLower. destruct ((65 <=? c) && (c <=? 90)) eqn:E; lia. Qed.

Lemma znth_map_lower name : znth (map asciiLower name) 0 = asciiLower (znth name 0).
Proof. by destruct name. Qed.

Ltac fold_cases :=
  repeat match goal with |- context [match ?z with _ => _ end] =>
    lazymatch z with context [match _ with _ => _ end] => fail | _ => idtac end;
    lazymatch type of z with Z => destruct z | positive => destruct z end end.

Lemma findFold_low name : hpackFindStaticNameFold name = findFoldLow (map asciiLower name).
Proof.
  unfold hpackFindStaticNameFold, findFoldLow. rewrite znth_map_lower, lower_colon.
  replace (zlen (map asciiLower name)) with (zlen name) by (unfold zlen; by rewrite length_map).
  fold_cases; try reflexivity; try destruct (znth name 0 =? 58); apply firstFold_low; repeat constructor.
Qed.

(** On every name of the static table the two lookups agree, by evaluation. *)
Lemma find_agree_static low : low ∈ staticNames -> findFoldLow low = hpackFindStaticName low.
Proof.
  assert (H : forallb (fun s => findFoldLow s =? hpackFindStaticName s) staticNames = true) by (vm_compute; reflexivity).
  intros Hin. rewrite forallb_forall in H. apply list_elem_of_In in Hin. apply H in Hin. lia.
Qed.

Lemma findFoldLow_notin low : low ∉ staticNames -> findFoldLow low = 0.
Proof.
  intros Hn. unfold findFoldLow.
  fold_cases; try reflexivity; try destruct (znth low 0 =? 58); apply firstEq_notin; try done;
    repeat constructor; apply in_staticNames; vm_compute; reflexivity.
Qed.

(** Both lookups, on a lower-cased name. *)
Lemma find_agree low : findFoldLow low = hpackFindStaticName low.
Proof.
  destruct (decide (low ∈ staticNames)) as [Hin | Hn]; [by apply find_agree_static |].
  by rewrite findFoldLow_notin, hpackFindStaticName_notin.
Qed.

Lemma findFoldLow_correct low : let idx := findFoldLow low in
  0 <= idx <= 61 /\ (idx = 0 <-> low ∉ staticNames) /\ (0 < idx -> static_name idx = low).
Proof.
  cbv zeta. destruct (decide (low ∈ staticNames)) as [Hin | Hn].
  - assert (H : forallb (fun s => (0 <? findFoldLow s) && (findFoldLow s <=? 61) && bytes_eqb (static_name (findFoldLow s)) s) staticNames = true)
      by (vm_compute; reflexivity).
    rewrite forallb_forall in H. specialize (H low). rewrite <- list_elem_of_In in H. specialize (H Hin).
    rewrite !andb_true_iff, bytes_eqb_spec in H. destruct H as [[H1 H2] H3].
    split; [lia |]. split; [split; [lia | done] | done].
  - rewrite findFoldLow_notin by done. split; [lia |]. split; [done | lia].
Qed.

(** The allocation-free, case-insensitive lookup of a header name in the
    static table (a switch on the length with comparisons eight bytes at a
    time) finds the same index as lower-casing the name and looking it up in
    the map built from the table, for every string; a returned index names an
    entry whose name is the lower-cased string. *)
Theorem static_lookup_equiv name :
  hpackFindStaticNameFold name = hpackFindStaticName (ToLowerASCII name) /\
  let idx := hpackFindStaticNameFold name in
  0 <= idx <= 61 /\ (idx = 0 <-> ToLowerASCII name ∉ staticNames) /\ (0 < idx -> static_name idx = ToLowerASCII name).
Proof. rewrite ToLowerASCII_map, findFold_low. split; [apply find_agree | apply findFoldLow_correct]. Qed.
