(* ===== verification/HpackDyn.v ===== *)
(** The dynamic table of the HPACK decoder (src/core/hpack.go): a ring buffer
    with its eviction and growth, refined to the list of RFC 7541, newest
    entry first. *)
From stdpp Require Import base list numbers.
From Stdlib Require Import ZArith Lia ZifyBool.
From S2P Require Import Prelude HpackTable.

(** ** Data and operations *)

Definition hpackEntryOverhead : Z := 32.

Record hpackDynEntry := { de_name : bytes; de_value : bytes; de_size : Z }.
Definition zeroEntry : hpackDynEntry := {| de_name := []; de_value := []; de_size := 0 |}.

(** The fields of [HpackDecoder] the table operations read and write. *)
Record dynTable := {
  maxTableSize : Z;
  protocolMaxSize : Z;
  dynInline : list hpackDynEntry;
  dynRing : list hpackDynEntry;
  dynHead : Z;
  dynLen : Z;
  dynSize : Z;
  dynRefBytes : Z;
  dynNameMax : Z;
  tableGen : Z;
  memoValid : bool;
}.

Definition newDynTable (limit : Z) : dynTable :=
  {| maxTableSize := limit; protocolMaxSize := limit; dynInline := replicate 128 zeroEntry; dynRing := []; dynHead := 0;
     dynLen := 0; dynSize := 0; dynRefBytes := 0; dynNameMax := 0; tableGen := 0; memoValid := false |}.

(** The array in use: the heap ring once there is one, else the inline array. *)
Definition dynSlots (t : dynTable) : list hpackDynEntry := if 0 <? zlen (dynRing t) then dynRing t else dynInline t.
Definition dynCapacity (t : dynTable) : Z := zlen (dynSlots t).
Definition dynIndex (t : dynTable) (i : Z) : Z := (dynHead t + i) mod dynCapacity t.

(** [dynGet] returns a pointer: [dynGet] reads through it, [dynPut] writes. *)
Definition dynGet (t : dynTable) (i : Z) : hpackDynEntry := nth (Z.to_nat (dynIndex t i)) (dynSlots t) zeroEntry.
Definition set_slots (t : dynTable) (inl ring : list hpackDynEntry) : dynTable :=
  {| maxTableSize := maxTableSize t; protocolMaxSize := protocolMaxSize t; dynInline := inl; dynRing := ring;
     dynHead := dynHead t; dynLen := dynLen t; dynSize := dynSize t; dynRefBytes := dynRefBytes t;
     dynNameMax := dynNameMax t; tableGen := tableGen t; memoValid := memoValid t |}.
Definition dynPut (t : dynTable) (i : Z) (e : hpackDynEntry) : dynTable :=
  let k := Z.to_nat (dynIndex t i) in
  if 0 <? zlen (dynRing t) then set_slots t (dynInline t) (<[k := e]> (dynRing t))
  else set_slots t (<[k := e]> (dynInline t)) (dynRing t).
Definition set_span (t : dynTable) (head len size : Z) : dynTable :=
  {| maxTableSize := maxTableSize t; protocolMaxSize := protocolMaxSize t; dynInline := dynInline t; dynRing := dynRing t;
     dynHead := head; dynLen := len; dynSize := size; dynRefBytes := dynRefBytes t;
     dynNameMax := dynNameMax t; tableGen := tableGen t; memoValid := memoValid t |}.
Definition set_meta (t : dynTable) (max refs nameMax gen : Z) (memo : bool) : dynTable :=
  {| maxTableSize := max; protocolMaxSize := protocolMaxSize t; dynInline := dynInline t; dynRing := dynRing t;
     dynHead := dynHead t; dynLen := dynLen t; dynSize := dynSize t; dynRefBytes := refs;
     dynNameMax := nameMax; tableGen := gen; memoValid := memo |}.

(** The copy loop of [growDynRing]: [next[i] = *d.dynGet(i)] for [i < dynLen]. *)
Fixpoint copyRing (t : dynTable) (n : nat) (i : Z) (next : list hpackDynEntry) : list hpackDynEntry :=
  match n with
  | O => next
  | S n => copyRing t n (i + 1) (<[Z.to_nat i := dynGet t i]> next)
  end.

Definition growDynRing (t : dynTable) : dynTable :=
  let oldCapacity := dynCapacity t in
  let maxEntries := maxTableSize t ÷ 32 in
  if maxEntries <=? oldCapacity then t else
  let newCapacity := i64 (oldCapacity * 2) in
  let newCapacity := if (newCapacity <? oldCapacity) || (maxEntries <? newCapacity) then maxEntries else newCapacity in
  let next := copyRing t (Z.to_nat (dynLen t)) 0 (replicate (Z.to_nat newCapacity) zeroEntry) in
  set_span (set_slots t (dynInline t) next) 0 (dynLen t) (dynSize t).

Definition lookupIndex (t : dynTable) (idx : Z) : option (bytes * bytes) * dynTable :=
  if idx <? zlen HpackStaticTable then
    (if idx =? 0 then None else HpackStaticTable !! Z.to_nat idx, t)
  else
    let dynIdx := u64 (idx - zlen HpackStaticTable) in
    if dynIdx <? dynLen t then
      let e := dynGet t dynIdx in
      (Some (de_name e, de_value e),
       set_meta t (maxTableSize t) (dynRefBytes t + de_size e) (dynNameMax t) (tableGen t) (memoValid t))
    else (None, t).

Definition lookupName (t : dynTable) (idx : Z) : option bytes :=
  if idx =? 0 then None else
  if idx <? zlen HpackStaticTable then Some (static_name idx) else
  let dynIdx := i64 (i64 idx - zlen HpackStaticTable) in
  if (0 <=? dynIdx) && (dynIdx <? dynLen t) then Some (de_name (dynGet t dynIdx)) else None.

(** The eviction loop of [addEntry] and, with [extra = 0], of [setMaxSize];
    each turn removes one entry, so [dynLen] turns are enough. *)
Fixpoint evictLoop (fuel : nat) (t : dynTable) (extra : Z) : dynTable :=
  match fuel with
  | O => t
  | S fuel =>
      if (maxTableSize t <? dynSize t + extra) && (0 <? dynLen t) then
        let last := dynLen t - 1 in
        let size := dynSize t - de_size (dynGet t last) in
        evictLoop fuel (set_span (dynPut t last zeroEntry) (dynHead t) last size) extra
      else t
  end.
Definition evict (t : dynTable) (extra : Z) : dynTable := evictLoop (Z.to_nat (dynLen t)) t extra.

Definition addEntry (t : dynTable) (name value : bytes) : dynTable :=
  let t := set_meta t (maxTableSize t) (dynRefBytes t) (Z.max (dynNameMax t) (zlen name)) (u64 (tableGen t + 1)) false in
  let entrySize := hpackEntryOverhead + zlen name + zlen value in
  let t := evict t entrySize in
  let t := if (entrySize <=? maxTableSize t) && (dynLen t =? dynCapacity t) then growDynRing t else t in
  if (entrySize <=? maxTableSize t) && (dynLen t <? dynCapacity t) then
    let capacity := dynCapacity t in
    let t := set_span t ((dynHead t - 1 + capacity) mod capacity) (dynLen t) (dynSize t) in
    let t := dynPut t 0 {| de_name := name; de_value := value; de_size := entrySize |} in
    set_span t (dynHead t) (dynLen t + 1) (dynSize t + entrySize)
  else t.

Definition setMaxSize (t : dynTable) (maxSize : Z) : dynTable :=
  evict (set_meta t maxSize (dynRefBytes t) (dynNameMax t) (u64 (tableGen t + 1)) false) 0.

(** ** Specification: a list, newest first *)

Abbreviation field := (bytes * bytes)%type.
Definition field_size (f : field) : Z := hpackEntryOverhead + zlen (fst f) + zlen (snd f).
Definition table_size (l : list field) : Z := foldr (fun f acc => field_size f + acc) 0 l.

(** The newest entries whose sizes add up to at most [budget]. *)
Fixpoint keep (budget : Z) (l : list field) : list field :=
  match l with
  | [] => []
  | f :: l => if field_size f <=? budget then f :: keep (budget - field_size f) l else []
  end.

Definition spec_add (max : Z) (l : list field) (f : field) : list field :=
  if field_size f <=? max then f :: keep (max - field_size f) l else [].

Lemma field_size_pos f : 32 <= field_size f.
Proof. unfold field_size, hpackEntryOverhead. pose proof (zlen_nonneg (fst f)). pose proof (zlen_nonneg (snd f)). lia. Qed.

Lemma table_size_app l k : table_size (l ++ k) = table_size l + table_size k.
Proof. induction l; simpl; lia. Qed.

Lemma table_size_len l : 32 * zlen l <= table_size l.
Proof. induction l as [| f l IH]; [done |]. rewrite zlen_cons. simpl. pose proof (field_size_pos f). lia. Qed.

Lemma keep_all budget l : table_size l <= budget -> keep budget l = l.
Proof.
  revert budget. induction l as [| f l IH]; intros budget H; [done |]. simpl in *.
  pose proof (table_size_len l). pose proof (zlen_nonneg l). destruct (field_size f <=? budget) eqn:E; [| lia]. rewrite IH by lia. done.
Qed.

Lemma keep_snoc budget l f : budget < table_size (l ++ [f]) -> keep budget (l ++ [f]) = keep budget l.
Proof.
  revert budget. induction l as [| g l IH]; intros budget H; simpl in *.
  - destruct (field_size f <=? budget) eqn:E; [lia | done].
  - destruct (field_size g <=? budget); [| done]. rewrite IH by lia. done.
Qed.

Lemma keep_size budget l : 0 <= budget -> table_size (keep budget l) <= budget.
Proof.
  revert budget. induction l as [| f l IH]; intros budget H; simpl; [done |].
  destruct (field_size f <=? budget) eqn:E; simpl; [| done]. specialize (IH (budget - field_size f)). lia.
Qed.

(** ** Representation *)

Definition entry_of (f : field) : hpackDynEntry := {| de_name := fst f; de_value := snd f; de_size := field_size f |}.

Record dyn_rep (t : dynTable) (l : list field) : Prop := {
  rep_len : dynLen t = zlen l;
  rep_size : dynSize t = table_size l;
  rep_fit : zlen l <= dynCapacity t;
  rep_cap : 128 <= dynCapacity t;
  rep_head : 0 <= dynHead t < dynCapacity t;
  rep_slots : forall i f, l !! i = Some f -> dynSlots t !! Z.to_nat (dynIndex t (Z.of_nat i)) = Some (entry_of f);
}.

Lemma dynIndex_range t i l : dyn_rep t l -> 0 <= dynIndex t i < dynCapacity t.
Proof. intros R. destruct R. apply Z.mod_pos_bound. lia. Qed.

Lemma dynGet_rep t l i f : dyn_rep t l -> l !! i = Some f -> dynGet t (Z.of_nat i) = entry_of f.
Proof. intros R H. unfold dynGet. apply nth_lookup_Some, (rep_slots _ _ R _ _ H). Qed.

Lemma mod_add_inj h i j c : 0 < c -> 0 <= i < c -> 0 <= j < c -> (h + i) mod c = (h + j) mod c -> i = j.
Proof.
  intros Hc Hi Hj H. assert (E : (h + i - (h + j)) mod c = 0) by (rewrite Zminus_mod, H, Z.sub_diag; apply Z.mod_0_l; lia).
  replace (h + i - (h + j)) with (i - j) in E by lia. apply Z.mod_divide in E; [| lia]. destruct E as [q Hq]. destruct (Z.lt_trichotomy q 0) as [Hn | [-> | Hn]]; nia.
Qed.

Lemma dynSlots_put t i e : dynSlots (dynPut t i e) = <[Z.to_nat (dynIndex t i) := e]> (dynSlots t).
Proof.
  unfold dynPut, dynSlots. destruct (0 <? zlen (dynRing t)) eqn:E; simpl; unfold zlen in *; rewrite ?length_insert, E; done.
Qed.

Lemma dynCapacity_put t i e : dynCapacity (dynPut t i e) = dynCapacity t.
Proof. unfold dynCapacity. rewrite dynSlots_put. unfold zlen. by rewrite length_insert. Qed.

Lemma dynIndex_put t i e j : dynIndex (dynPut t i e) j = dynIndex t j.
Proof. unfold dynIndex. rewrite dynCapacity_put. unfold dynPut. by destruct (0 <? _). Qed.

Lemma put_fields t i e : dynHead (dynPut t i e) = dynHead t /\ maxTableSize (dynPut t i e) = maxTableSize t /\
  protocolMaxSize (dynPut t i e) = protocolMaxSize t /\ dynLen (dynPut t i e) = dynLen t /\ dynSize (dynPut t i e) = dynSize t.
Proof. unfold dynPut. by destruct (0 <? _). Qed.

(** ** Eviction *)

Lemma evict_one t l f : dyn_rep t (l ++ [f]) ->
  dyn_rep (set_span (dynPut t (dynLen t - 1) zeroEntry) (dynHead t) (dynLen t - 1) (dynSize t - field_size f)) l.
Proof.
  intros R. pose proof (rep_len _ _ R) as Hl. rewrite zlen_snoc in Hl.
  pose proof (rep_size _ _ R) as Hs. rewrite table_size_app in Hs. simpl in Hs.
  pose proof (rep_fit _ _ R) as Hf. rewrite zlen_snoc in Hf.
  pose proof (rep_cap _ _ R). pose proof (rep_head _ _ R).
  set (t' := set_span _ _ _ _). assert (Hc : dynCapacity t' = dynCapacity t) by exact (dynCapacity_put t _ zeroEntry).
  assert (Hi : forall j, dynIndex t' j = dynIndex t j) by (intros j; unfold dynIndex; rewrite Hc; done).
  split; rewrite ?Hc; try done; try (simpl; lia).
  intros i g Hg. rewrite Hi. change (dynSlots t') with (dynSlots (dynPut t (dynLen t - 1) zeroEntry)). rewrite dynSlots_put.
  pose proof (lookup_lt_Some _ _ _ Hg) as Hlt.
  rewrite list_lookup_insert_ne; [apply (rep_slots _ _ R); by apply lookup_app_l_Some |].
  pose proof (dynIndex_range _ (dynLen t - 1) _ R). pose proof (dynIndex_range _ (Z.of_nat i) _ R).
  intros E. apply Z2Nat.inj in E; [| lia | lia]. unfold dynIndex in E. apply mod_add_inj in E; unfold zlen in *; lia.
Qed.

Lemma evictLoop_rep l t extra n : dyn_rep t l -> 0 < extra \/ 0 <= maxTableSize t -> 0 <= extra -> (length l <= n)%nat ->
  let t' := evictLoop n t extra in
  dyn_rep t' (keep (maxTableSize t - extra) l) /\ maxTableSize t' = maxTableSize t /\ protocolMaxSize t' = protocolMaxSize t.
Proof.
  intros R Hm He. revert t n R Hm. induction l as [| f l IH] using rev_ind; intros t n R Hm Hn.
  - destruct n; cbn [evictLoop keep]; [done |]. rewrite (rep_len _ _ R). change (zlen (@nil field)) with 0. rewrite andb_false_r. done.
  - rewrite length_app in Hn. simpl in Hn. destruct n as [| n]; [lia |]. cbn [evictLoop].
    rewrite (rep_size _ _ R), (rep_len _ _ R).
    assert (Hp : (0 <? zlen (l ++ [f])) = true) by (rewrite zlen_snoc; pose proof (zlen_nonneg l); lia).
    rewrite Hp, andb_true_r. destruct (maxTableSize t <? _) eqn:E.
    + assert (Hg : dynGet t (zlen (l ++ [f]) - 1) = entry_of f).
      { replace (zlen (l ++ [f]) - 1) with (Z.of_nat (length l)) by (rewrite zlen_snoc; unfold zlen; lia).
        apply (dynGet_rep t (l ++ [f])); [done |]. by rewrite lookup_app_r, Nat.sub_diag. }
      rewrite Hg. cbn [entry_of de_size]. rewrite keep_snoc by lia.
      pose proof (evict_one t l f R) as R'. rewrite (rep_size _ _ R), (rep_len _ _ R) in R'.
      destruct (put_fields t (zlen (l ++ [f]) - 1) zeroEntry) as (_ & Hmx & Hpx & _ & _).
      pose proof (IH _ n R') as I. cbn [maxTableSize protocolMaxSize set_span] in I. rewrite Hmx, Hpx in I. apply I; [done | lia].
    + rewrite keep_all by lia. done.
Qed.

(** ** Growth *)

Lemma copyRing_spec t n i next : 0 <= i -> i + Z.of_nat n <= zlen next ->
  length (copyRing t n i next) = length next /\
  forall j, (j < length next)%nat -> copyRing t n i next !! j =
    if decide (i <= Z.of_nat j < i + Z.of_nat n) then Some (dynGet t (Z.of_nat j)) else next !! j.
Proof.
  revert i next. induction n as [| n IH]; intros i next Hi Hl; cbn [copyRing].
  { split; [done |]. intros j Hj. destruct (decide _); [lia | done]. }
  destruct (IH (i + 1) (<[Z.to_nat i := dynGet t i]> next)) as [L1 L2]; [lia | unfold zlen in *; rewrite length_insert; lia |].
  rewrite length_insert in L1, L2. split; [done |]. intros j Hj. rewrite L2 by done.
  destruct (decide (Z.of_nat j = i)) as [<- | Hne].
  - rewrite Nat2Z.id, list_lookup_insert_eq by done. repeat destruct (decide _); done || lia.
  - rewrite list_lookup_insert_ne by lia. repeat destruct (decide _); done || lia.
Qed.

(** Every entry takes at least 32 bytes, so a full array whose next entry
    fits the byte budget can always grow. *)
Lemma growDynRing_rep t l : dyn_rep t l -> zlen l = dynCapacity t -> 32 * (zlen l + 1) <= maxTableSize t < 2 ^ 32 ->
  let t' := growDynRing t in
  dyn_rep t' l /\ zlen l < dynCapacity t' /\ maxTableSize t' = maxTableSize t /\ protocolMaxSize t' = protocolMaxSize t.
Proof.
  intros R Hfull Hmax. unfold growDynRing. pose proof (rep_cap _ _ R) as Hcap. pose proof (rep_len _ _ R) as Hlen.
  rewrite Z.quot_div_nonneg by lia. assert (Hq : zlen l + 1 <= maxTableSize t / 32) by (apply Z.div_le_lower_bound; lia).
  assert (Hq' : maxTableSize t / 32 < 2 ^ 32) by (apply Z.div_lt_upper_bound; lia).
  destruct (maxTableSize t / 32 <=? dynCapacity t) eqn:E1; [lia |]. rewrite i64_small by lia.
  set (nc := if _ || _ then _ else _). assert (Hnc : dynCapacity t < nc) by (unfold nc; destruct (_ || _) eqn:E2; lia).
  destruct (copyRing_spec t (Z.to_nat (dynLen t)) 0 (replicate (Z.to_nat nc) zeroEntry)) as [L1 L2];
    [lia | unfold zlen in *; rewrite length_replicate; lia |]. rewrite length_replicate in L1, L2.
  set (next := copyRing _ _ _ _) in *. set (t' := set_span _ _ _ _).
  assert (Hs : dynSlots t' = next).
  { unfold t', dynSlots. simpl. destruct (0 <? zlen next) eqn:E; [done |]. unfold zlen in E. lia. }
  assert (Hc : dynCapacity t' = nc) by (unfold dynCapacity; rewrite Hs; unfold zlen; lia).
  cbv zeta. split; [| split; [lia | done]].
  split; rewrite ?Hc; try (simpl; lia); [apply R |]. intros i f Hf. pose proof (lookup_lt_Some _ _ _ Hf) as Hi.
  rewrite Hs. unfold dynIndex. rewrite Hc. simpl dynHead. rewrite Z.mod_small by (unfold zlen in *; lia).
  rewrite Z.add_0_l, Nat2Z.id. rewrite L2 by (unfold zlen in *; lia). rewrite decide_True by (unfold zlen in *; lia).
  f_equal. by apply (dynGet_rep t l).
Qed.

(** ** Insertion *)

Lemma put_front t l f : dyn_rep t l -> zlen l < dynCapacity t ->
  let t1 := set_span t ((dynHead t - 1 + dynCapacity t) mod dynCapacity t) (dynLen t) (dynSize t) in
  let t2 := dynPut t1 0 (entry_of f) in
  dyn_rep (set_span t2 (dynHead t2) (dynLen t2 + 1) (dynSize t2 + field_size f)) (f :: l).
Proof.
  intros R Hlt t1 t2. pose proof (rep_cap _ _ R) as Hcap. set (t3 := set_span t2 _ _ _).
  destruct (put_fields t1 0 (entry_of f)) as (Ph & _ & _ & Pl & Ps). fold t2 in Ph, Pl, Ps.
  assert (Hc : dynCapacity t3 = dynCapacity t) by exact (dynCapacity_put t1 0 _).
  assert (Hr : 0 <= dynHead t1 < dynCapacity t) by (apply Z.mod_pos_bound; lia).
  assert (Hi : forall j, dynIndex t3 j = (dynHead t1 + j) mod dynCapacity t) by (intros j; unfold dynIndex; rewrite Hc; simpl; by rewrite Ph).
  assert (H0 : dynIndex t1 0 = dynHead t1) by (unfold dynIndex; rewrite Z.add_0_r; by apply Z.mod_small).
  split; rewrite ?Hc, ?zlen_cons; simpl; rewrite ?Ph, ?Pl, ?Ps; simpl; rewrite ?(rep_len _ _ R), ?(rep_size _ _ R); try lia; try exact Hr.
  intros i g Hg. change (dynSlots t3) with (dynSlots t2). unfold t2. rewrite dynSlots_put, H0, Hi.
  destruct i as [| i]; simpl in Hg.
  - injection Hg as ->. rewrite Z.add_0_r, Z.mod_small by lia. apply list_lookup_insert_eq.
    change (dynSlots t1) with (dynSlots t). unfold dynCapacity, zlen in *. lia.
  - pose proof (lookup_lt_Some _ _ _ Hg).
    assert (Ei : (dynHead t1 + Z.of_nat (S i)) mod dynCapacity t = dynIndex t (Z.of_nat i)).
    { unfold dynIndex, t1. simpl dynHead. rewrite Zplus_mod_idemp_l.
      replace (dynHead t - 1 + dynCapacity t + Z.of_nat (S i)) with (dynHead t + Z.of_nat i + 1 * dynCapacity t) by lia.
      apply Z.mod_add. lia. }
    rewrite list_lookup_insert_ne.
    + rewrite Ei. change (dynSlots t1) with (dynSlots t). by apply (rep_slots _ _ R).
    + intros E. pose proof (dynIndex_range t (Z.of_nat i) l R). rewrite <- Ei in *. apply Z2Nat.inj in E; [| lia | lia].
      rewrite <- (Z.mod_small (dynHead t1) (dynCapacity t)) in E at 1 by lia.
      rewrite <- (Z.add_0_r (dynHead t1)) in E at 1. apply mod_add_inj in E; unfold zlen in *; lia.
Qed.

(** [addEntry] implements the list specification. *)
Lemma addEntry_rep t l f : dyn_rep t l -> table_size l <= maxTableSize t < 2 ^ 32 ->
  let t' := addEntry t (fst f) (snd f) in
  dyn_rep t' (spec_add (maxTableSize t) l f) /\ maxTableSize t' = maxTableSize t /\ protocolMaxSize t' = protocolMaxSize t.
Proof.
  intros R Hm. unfold addEntry. fold (field_size f). set (t0 := set_meta t _ _ _ _ _).
  assert (R0 : dyn_rep t0 l) by (destruct R; by split).
  pose proof (field_size_pos f) as Hfp. pose proof (table_size_len l). pose proof (zlen_nonneg l).
  unfold evict. rewrite (rep_len _ _ R0).
  destruct (evictLoop_rep l t0 (field_size f) (Z.to_nat (zlen l)) R0) as (R1 & M1 & P1); [lia | lia | unfold zlen; lia |].
  cbv zeta in R1, M1, P1. set (t1 := evictLoop _ _ _) in *. change (maxTableSize t0) with (maxTableSize t) in *.
  change (protocolMaxSize t0) with (protocolMaxSize t) in P1. cbv zeta. unfold spec_add. rewrite M1.
  set (k := keep (maxTableSize t - field_size f) l) in *.
  destruct (field_size f <=? maxTableSize t) eqn:Ef; cbn [andb].
  2: { rewrite M1, Ef. cbn [andb]. split; [| done]. subst k. replace (keep _ l) with (@nil field) in R1; [done |].
       destruct l as [| g l]; [done |]. simpl. pose proof (field_size_pos g). destruct (field_size g <=? _) eqn:E; [lia | done]. }
  assert (Hk : table_size k <= maxTableSize t - field_size f) by (apply keep_size; lia). pose proof (table_size_len k).
  set (t2 := if dynLen t1 =? dynCapacity t1 then growDynRing t1 else t1).
  assert (R2 : dyn_rep t2 k /\ zlen k < dynCapacity t2 /\ maxTableSize t2 = maxTableSize t /\ protocolMaxSize t2 = protocolMaxSize t).
  { unfold t2. rewrite (rep_len _ _ R1). destruct (zlen k =? dynCapacity t1) eqn:E.
    - rewrite <- M1, <- P1. apply growDynRing_rep; [done | lia | lia].
    - pose proof (rep_fit _ _ R1). split; [done |]. split; [lia | done]. }
  destruct R2 as (R2 & Hlt & M2 & P2). rewrite M2, Ef, (rep_len _ _ R2). cbn [andb].
  replace (zlen k <? dynCapacity t2) with true by lia.
  split; [| cbn [maxTableSize protocolMaxSize set_span]; destruct (put_fields (set_span t2 ((dynHead t2 - 1 + dynCapacity t2) mod dynCapacity t2) (zlen k) (dynSize t2)) 0 (entry_of f)) as (_ & Q1 & Q2 & _); split; [exact (eq_trans Q1 M2) | exact (eq_trans Q2 P2)]].
  pose proof (put_front t2 k f R2 Hlt) as Hp. cbv zeta in Hp. by rewrite (rep_len _ _ R2) in Hp.
Qed.

Lemma setMaxSize_rep t l m : dyn_rep t l -> 0 <= m ->
  let t' := setMaxSize t m in
  dyn_rep t' (keep m l) /\ maxTableSize t' = m /\ protocolMaxSize t' = protocolMaxSize t.
Proof.
  intros R Hm. unfold setMaxSize, evict. set (t0 := set_meta t _ _ _ _ _).
  assert (R0 : dyn_rep t0 l) by (destruct R; by split). rewrite (rep_len _ _ R0).
  destruct (evictLoop_rep l t0 0 (Z.to_nat (zlen l)) R0) as (R1 & M1 & P1); [simpl; lia | lia | unfold zlen; lia |].
  change (maxTableSize t0) with m in *. rewrite Z.sub_0_r in R1. done.
Qed.

(** ** Lookups *)

Lemma lookupIndex_rep t l idx : dyn_rep t l -> 0 <= idx < 2 ^ 64 ->
  fst (lookupIndex t idx) =
    if idx =? 0 then None else if idx <? 62 then HpackStaticTable !! Z.to_nat idx else l !! Z.to_nat (idx - 62).
Proof.
  intros R Hidx. unfold lookupIndex. change (zlen HpackStaticTable) with 62. destruct (idx <? 62) eqn:E1.
  - destruct (idx =? 0); [done |]. done.
  - replace (idx =? 0) with false by lia. rewrite u64_small, (rep_len _ _ R) by lia. destruct (idx - 62 <? zlen l) eqn:E2.
    + destruct (l !! Z.to_nat (idx - 62)) as [f |] eqn:Ef; [| apply lookup_ge_None in Ef; unfold zlen in E2; lia].
      cbn [fst]. rewrite <- (Z2Nat.id (idx - 62)) by lia. rewrite (dynGet_rep t l _ f R Ef). by destruct f.
    + cbn [fst]. symmetry. apply lookup_ge_None. unfold zlen in E2. lia.
Qed.

Lemma lookupIndex_keeps t idx l : dyn_rep t l ->
  let t' := snd (lookupIndex t idx) in dyn_rep t' l /\ maxTableSize t' = maxTableSize t /\ protocolMaxSize t' = protocolMaxSize t.
Proof.
  intros R. unfold lookupIndex. destruct (idx <? _); [done |]. destruct (_ <? dynLen t); [| done].
  cbn [snd]. split; [destruct R; by split | done].
Qed.

(** [lookupName] finds the name of what [lookupIndex] finds. *)
Lemma lookupName_rep t l idx : dyn_rep t l -> 0 <= idx < 2 ^ 64 -> zlen l < 2 ^ 32 ->
  lookupName t idx = fst <$> fst (lookupIndex t idx).
Proof.
  intros R Hidx Hl. rewrite (lookupIndex_rep t l) by done. unfold lookupName. change (zlen HpackStaticTable) with 62.
  destruct (idx =? 0) eqn:E0; [done |]. destruct (idx <? 62) eqn:E1.
  - unfold static_name. destruct (HpackStaticTable !! Z.to_nat idx) eqn:E; [by rewrite (nth_lookup_Some _ _ _ _ E) |].
    apply lookup_ge_None in E. change (length HpackStaticTable) with 62%nat in E. lia.
  - rewrite (rep_len _ _ R). destruct (l !! Z.to_nat (idx - 62)) as [f |] eqn:Ef.
    + pose proof (lookup_lt_Some _ _ _ Ef) as Hlt. rewrite !i64_small by (unfold zlen in *; rewrite ?i64_small; lia).
      replace ((0 <=? idx - 62) && (idx - 62 <? zlen l)) with true by (unfold zlen; lia).
      rewrite <- (Z2Nat.id (idx - 62)) by lia. by rewrite (dynGet_rep t l _ f R Ef).
    + apply lookup_ge_None in Ef. assert (Hge : zlen l <= idx - 62) by (unfold zlen; lia).
      replace ((0 <=? _) && _) with false; [done |]. symmetry. apply andb_false_iff.
      destruct (decide (idx < 2 ^ 63)); [right; rewrite (i64_small idx), i64_small by lia; lia |].
      assert (Ei : i64 idx = idx - 2 ^ 64).
      { unfold i64. replace ((idx + 2 ^ 63) mod 2 ^ 64) with (idx + 2 ^ 63 - 2 ^ 64); [lia |]. apply Z.mod_unique with 1; lia. }
      rewrite Ei. destruct (decide (- 2 ^ 63 <= idx - 2 ^ 64 - 62)); [left; rewrite i64_small; lia |].
      right. unfold i64. rewrite <- (Z.mod_unique (idx - 2 ^ 64 - 62 + 2 ^ 63) (2 ^ 64) (-1) (idx - 62 + 2 ^ 63)); lia.
Qed.

(** ** The table over its whole life *)

Inductive tableOp :=
| TAdd (name value : bytes)
| TMax (m : Z)
| TLookup (idx : Z).

Definition table_step (t : dynTable) (op : tableOp) : dynTable :=
  match op with
  | TAdd n v => addEntry t n v
  | TMax m => setMaxSize t m
  | TLookup idx => snd (lookupIndex t idx)
  end.
Definition spec_step (s : Z * list field) (op : tableOp) : Z * list field :=
  let '(max, l) := s in
  match op with
  | TAdd n v => (max, spec_add max l (n, v))
  | TMax m => (m, keep m l)
  | TLookup _ => (max, l)
  end.

(** Size updates stay within the protocol maximum, as [DecodeInto] checks. *)
Definition table_op_ok (limit : Z) (op : tableOp) : Prop :=
  match op with TMax m => 0 <= m <= limit | _ => True end.

Definition table_good (limit : Z) (t : dynTable) (s : Z * list field) : Prop :=
  dyn_rep t (snd s) /\ maxTableSize t = fst s /\ protocolMaxSize t = limit /\ table_size (snd s) <= fst s <= limit.

Lemma newDynTable_good limit : 0 <= limit -> table_good limit (newDynTable limit) (limit, []).
Proof.
  intros H. split; [| simpl; lia]. by split.
Qed.

Lemma spec_add_size max l f : 0 <= max -> table_size (spec_add max l f) <= max.
Proof.
  intros Hm. unfold spec_add. destruct (field_size f <=? max) eqn:E; [| done]. simpl. pose proof (keep_size (max - field_size f) l). lia.
Qed.

Lemma table_step_good limit t s op : limit < 2 ^ 32 -> table_op_ok limit op -> table_good limit t s ->
  table_good limit (table_step t op) (spec_step s op).
Proof.
  intros Hlim Hop (R & Hm & Hp & Hs). destruct s as [max l]. simpl in *. subst max.
  pose proof (table_size_len l). pose proof (zlen_nonneg l). destruct op as [n v | m | idx]; simpl in *.
  - destruct (addEntry_rep t l (n, v) R) as (R' & M' & P'); [lia |]. unfold table_good. simpl in *. rewrite M', P'.
    split; [done |]. split; [done |]. split; [done |]. split; [apply spec_add_size; lia | lia].
  - destruct (setMaxSize_rep t l m R) as (R' & M' & P'); [lia |]. unfold table_good. simpl in *. rewrite M', P'.
    split; [done |]. split; [done |]. split; [done |]. split; [apply keep_size; lia | lia].
  - destruct (lookupIndex_keeps t idx l R) as (R' & M' & P'). unfold table_good. simpl in *. by rewrite M', P'.
Qed.

Lemma table_run_good limit ops t s : limit < 2 ^ 32 -> Forall (table_op_ok limit) ops -> table_good limit t s ->
  table_good limit (foldl table_step t ops) (foldl spec_step s ops).
Proof.
  intros Hl Hops. revert t s. induction Hops as [| op ops Hop _ IH]; intros t s G; simpl; [done |].
  apply IH. by apply table_step_good.
Qed.

(** The ring buffer implements the dynamic table of RFC 7541. After any
    sequence of insertions, size updates within the protocol maximum and
    lookups, every 64-bit index is answered as by the list of the newest
    entries (static entries first, then the list, anything else refused), the
    recorded size is the sum of the entry sizes and within the current
    maximum, and growing never loses an entry. *)
Theorem dyn_table_refines limit ops : 0 <= limit < 2 ^ 32 -> Forall (table_op_ok limit) ops ->
  let t := foldl table_step (newDynTable limit) ops in
  let '(max, l) := foldl spec_step (limit, []) ops in
  maxTableSize t = max /\ max <= limit /\ dynLen t = zlen l /\ dynSize t = table_size l /\ table_size l <= max /\
  forall idx, 0 <= idx < 2 ^ 64 ->
    fst (lookupIndex t idx) =
      (if idx =? 0 then None else if idx <? 62 then HpackStaticTable !! Z.to_nat idx else l !! Z.to_nat (idx - 62)) /\
    lookupName t idx = fst <$> fst (lookupIndex t idx).
Proof.
  intros Hl Hops t. pose proof (table_run_good limit ops _ _ (proj2 Hl) Hops (newDynTable_good limit (proj1 Hl))) as G.
  fold t in G. destruct (foldl spec_step (limit, []) ops) as [max l]. destruct G as (R & Hm & Hp & Hs). simpl in *.
  pose proof (table_size_len l). pose proof (zlen_nonneg l).
  split; [done |]. split; [lia |]. split; [apply R |]. split; [apply R |]. split; [lia |].
  intros idx Hidx. split; [by apply lookupIndex_rep | apply (lookupName_rep t l); [done | done | lia]].
Qed.

(** Two entries that do not fit together: the older one goes. *)
Definition demo_table_ops : list tableOp :=
  [TAdd [97] [98; 98]; TAdd [99] (replicate 40 100); TLookup 62; TMax 80].

Lemma dyn_table_refines_witness :
  let t := foldl table_step (newDynTable 100) demo_table_ops in
  foldl spec_step (100, []) demo_table_ops = (80, [([99], replicate 40 100)]) /\
  dynSize t = 73 /\ lookupName t 62 = Some [99] /\ lookupName t 63 = None.
Proof.
  assert (Hops : Forall (table_op_ok 100) demo_table_ops) by (repeat constructor; simpl; lia).
  assert (Hl : 0 <= 100 < 2 ^ 32) by lia.
  pose proof (dyn_table_refines 100 demo_table_ops Hl Hops) as (_ & _ & _ & Hs & _ & Hi).
  assert (H62 : 0 <= 62 < 2 ^ 64) by lia. assert (H63 : 0 <= 63 < 2 ^ 64) by lia.
  cbv zeta. split; [vm_compute; reflexivity |]. split; [rewrite Hs; vm_compute; reflexivity |].
  split; [destruct (Hi 62 H62) as [H1 ->]; rewrite H1; vm_compute; reflexivity
         | destruct (Hi 63 H63) as [H1 ->]; rewrite H1; vm_compute; reflexivity].
Defined.
