(* ===== verification/Hpack.v ===== *)
(** HPACK header blocks (src/core/hpack.go): the encoder with its process-wide
    cache of encoded fields, and the decoder with its Huffman cache and its
    dynamic table. [xxh3.Hash] is the section variable [hpackHashBytes]; no
    property of it is needed. A slice [data[pos:]] is the list of the bytes
    left. *)
From stdpp Require Import base list numbers strings.
From Stdlib Require Import ZArith Lia ZifyBool.
From S2P Require Import Prelude Utils HpackInt Huffman HpackTable HpackDyn.

Open Scope list_scope.
Open Scope Z_scope.

(** ** Encoder *)

Definition hpackFieldCacheSlots : Z := 64.
Definition hpackFieldCacheMaxValue : Z := 96.
Definition hpackHuffmanMinValueLen : Z := 12.

Definition EncodeString (buf s : bytes) : bytes :=
  if zlen s <? hpackHuffmanMinValueLen then EncodeInt buf 0x00 7 (zlen s) ++ s else
  let huffLen := hpackHuffmanEncodedLen s in
  if huffLen <? zlen s then hpackHuffmanAppend (EncodeInt buf 0x80 7 huffLen) s
  else EncodeInt buf 0x00 7 (zlen s) ++ s.

Definition EncodeHeader (buf name value : bytes) : bytes :=
  let name := ToLowerASCII name in
  let idx := hpackFindStaticName name in
  if 0 <? idx then EncodeString (EncodeInt buf 0x00 4 idx) value
  else EncodeString (EncodeString (buf ++ [0x00]) name) value.

Record hpackCachedField := { cf_idx : Z; cf_value : bytes; cf_enc : bytes }.

(** [hpackFieldCache]: 64 atomic pointers, [None] when nil. *)
Abbreviation fieldCache := (list (option hpackCachedField)).
Definition newFieldCache : fieldCache := replicate 64 None.

Definition hpackFieldCacheSlot (idx : Z) (value : bytes) : Z :=
  let h := u32 (u32 idx * 0x9E3779B1) in
  let h := Z.lxor h (u32 (u32 (zlen value) * 0x85EBCA6B)) in
  let h :=
    if 0 <? zlen value then
      Z.lxor h (Z.lxor (Z.lxor (u32 (Z.shiftl (znth value 0) 8)) (u32 (Z.shiftl (znth value (zlen value - 1)) 16)))
                  (u32 (Z.shiftl (znth value (zlen value ÷ 2)) 24)))
    else h in
  (Z.lxor h (Z.shiftr h 16)) mod hpackFieldCacheSlots.

Definition encodeStaticFieldCached (cache : fieldCache) (buf : bytes) (idx : Z) (value : bytes) : bytes * fieldCache :=
  if hpackFieldCacheMaxValue <? zlen value then (EncodeString (EncodeInt buf 0x00 4 idx) value, cache) else
  let slot := Z.to_nat (hpackFieldCacheSlot idx value) in
  let miss :=
    let start := zlen buf in
    let buf := EncodeString (EncodeInt buf 0x00 4 idx) value in
    (buf, <[slot := Some {| cf_idx := idx; cf_value := value; cf_enc := zdrop start buf |}]> cache) in
  match cache !! slot with
  | Some (Some ent) =>
      if (cf_idx ent =? idx) && bytes_eqb (cf_value ent) value then (buf ++ cf_enc ent, cache) else miss
  | _ => miss
  end.

(** [encodeStringLower]: the Huffman loops with each byte lower-cased. *)
Fixpoint lowerLenLoop (s : bytes) (bits : Z) : Z :=
  match s with
  | [] => bits
  | c :: s => lowerLenLoop s (bits + huffBitLen (asciiLower c))
  end.
Fixpoint lowerAppendLoop (s : bytes) (buf : bytes) (cur nbits : Z) : bytes * Z * Z :=
  match s with
  | [] => (buf, cur, nbits)
  | c :: s =>
      let sym := asciiLower c in
      let cur := Z.lor (u64 (Z.shiftl cur (huff_bits sym))) (huff_code sym) in
      let nbits := u8 (nbits + huff_bits sym) in
      let '(buf, nbits) := huffEmit 32 buf cur nbits in
      lowerAppendLoop s buf cur nbits
  end.
Definition encodeStringLower (buf s : bytes) : bytes :=
  let n := zlen s in
  let huffLen := (lowerLenLoop s 0 + 7) ÷ 8 in
  if huffLen <? n then
    let '(buf, cur, nbits) := lowerAppendLoop s (EncodeInt buf 0x80 7 huffLen) 0 0 in
    if 0 <? nbits then buf ++ [u8 (Z.lor (u64 (Z.shiftl cur (8 - nbits))) (Z.shiftr 0xff nbits))] else buf
  else EncodeInt buf 0x00 7 n ++ map asciiLower s.

Definition EncodeHeaderFold (cache : fieldCache) (buf name value : bytes) : bytes * fieldCache :=
  let idx := hpackFindStaticNameFold name in
  if 0 <? idx then encodeStaticFieldCached cache buf idx value
  else (EncodeString (encodeStringLower (buf ++ [0x00]) name) value, cache).

Definition EncodeIndexed (buf : bytes) (idx : Z) : bytes := EncodeInt buf 0x80 7 idx.

Definition EncodeStatus (buf : bytes) (code : Z) : bytes :=
  match code with
  | 200 => EncodeIndexed buf 8
  | 204 => EncodeIndexed buf 9
  | 206 => EncodeIndexed buf 10
  | 304 => EncodeIndexed buf 11
  | 400 => EncodeIndexed buf 12
  | 404 => EncodeIndexed buf 13
  | 500 => EncodeIndexed buf 14
  | _ =>
      let buf := EncodeInt buf 0x00 4 8 in
      let s := appendUint [] code in
      EncodeInt buf 0x00 7 (zlen s) ++ s
  end.

(** ** Decoder *)

Inductive hpackErr := ErrH2BadHeader | ErrTooManyHeaders | ErrHpackSizeUpdateAfterField | ErrHpackTableSizeExceeded.

(** [HpackDecodeString], the cache-free reader: the string and the number of
    bytes read, [([], 0)] when malformed. *)
Definition HpackDecodeString (data : bytes) : bytes * Z :=
  if zlen data =? 0 then ([], 0) else
  let huffman := negb (Z.land (znth data 0) 0x80 =? 0) in
  let '(sLen, n) := HpackDecodeInt data 7 in
  if (zlen data <? sLen) || (zlen data <? n + sLen) then ([], 0) else
  let raw := zslice data n (n + sLen) in
  if huffman then
    match hpackHuffmanDecode raw with Some decoded => (decoded, n + sLen) | None => ([], 0) end
  else (raw, n + sLen).

Definition hpackHuffmanDecodeCacheSize : Z := 16.
Definition hpackHuffmanDecodeInlineMax : Z := 64.
Definition hpackHuffmanDecodeCacheMaxRaw : Z := 256.

Record hpackHuffmanDecodeCacheEntry := {
  ce_used : bool;
  ce_hash : Z;
  ce_size : Z;
  ce_value : bytes;
  ce_heap : bytes;
  ce_inline : bytes;
}.
Definition zeroCacheEntry : hpackHuffmanDecodeCacheEntry :=
  {| ce_used := false; ce_hash := 0; ce_size := 0; ce_value := []; ce_heap := []; ce_inline := replicate 64 0 |}.

(** The comparison loops of [match]: [data] against the front of [a]. *)
Fixpoint prefixEq (a data : bytes) : bool :=
  match data, a with
  | [], _ => true
  | x :: data, y :: a => if negb (y =? x) then false else prefixEq a data
  | _ :: _, [] => false
  end.

Definition cache_match (e : hpackHuffmanDecodeCacheEntry) (hash : Z) (data : bytes) : bool :=
  if negb (ce_used e) || negb (ce_hash e =? hash) || negb (ce_size e =? zlen data) then false else
  if zlen data <=? zlen (ce_inline e) then prefixEq (ce_inline e) data else
  if zlen (ce_heap e) <? zlen data then false else prefixEq (ce_heap e) data.

(** [copy(e.inline[:], data)] replaces the front; the heap slice is cut or
    made to the length of [data] before the copy. *)
Definition cache_store (e : hpackHuffmanDecodeCacheEntry) (hash : Z) (data value : bytes) : hpackHuffmanDecodeCacheEntry :=
  if zlen data <=? zlen (ce_inline e) then
    {| ce_used := true; ce_hash := hash; ce_size := u32 (zlen data); ce_value := value; ce_heap := [];
       ce_inline := data ++ zdrop (zlen data) (ce_inline e) |}
  else
    {| ce_used := true; ce_hash := hash; ce_size := u32 (zlen data); ce_value := value; ce_heap := data;
       ce_inline := ce_inline e |}.

Record HpackDecoder := {
  d_table : dynTable;
  huffmanCache : list hpackHuffmanDecodeCacheEntry;
  huffmanCacheNext : Z;
}.

Definition newHpackDecoder (tableSize : Z) : HpackDecoder :=
  {| d_table := newDynTable tableSize; huffmanCache := replicate 16 zeroCacheEntry; huffmanCacheNext := 0 |}.
Definition with_table (d : HpackDecoder) (t : dynTable) : HpackDecoder :=
  {| d_table := t; huffmanCache := huffmanCache d; huffmanCacheNext := huffmanCacheNext d |}.

Section Decoder.

Context (hpackHashBytes : bytes -> Z).

Fixpoint cacheFind (cache : list hpackHuffmanDecodeCacheEntry) (hash : Z) (raw : bytes) : option bytes :=
  match cache with
  | [] => None
  | e :: cache => if cache_match e hash raw then Some (ce_value e) else cacheFind cache hash raw
  end.

Definition decodeString (d : HpackDecoder) (data : bytes) : bytes * Z * HpackDecoder :=
  if zlen data =? 0 then ([], 0, d) else
  let huffman := negb (Z.land (znth data 0) 0x80 =? 0) in
  let '(sLen, n) := HpackDecodeInt data 7 in
  if (zlen data <? sLen) || (zlen data <? n + sLen) then ([], 0, d) else
  let raw := zslice data n (n + sLen) in
  if negb huffman then (raw, n + sLen, d) else
  let hash := hpackHashBytes raw in
  match cacheFind (huffmanCache d) hash raw with
  | Some value => (value, n + sLen, d)
  | None =>
      match hpackHuffmanDecode raw with
      | None => ([], 0, d)
      | Some decoded =>
          if zlen raw <=? hpackHuffmanDecodeCacheMaxRaw then
            let slot := Z.to_nat (Z.rem (huffmanCacheNext d) (zlen (huffmanCache d))) in
            let next := u8 (huffmanCacheNext d + 1) in
            let cache := match huffmanCache d !! slot with
                         | Some e => <[slot := cache_store e hash raw decoded]> (huffmanCache d)
                         | None => huffmanCache d
                         end in
            (decoded, n + sLen, {| d_table := d_table d; huffmanCache := cache; huffmanCacheNext := next |})
          else (decoded, n + sLen, d)
      end
  end.

(** The part the two literal branches of [DecodeInto] share: an integer of
    [bits] bits, the name it stands for or the name that follows, the value.
    The result is the name, the value and the bytes left. *)
Definition decodeLiteral (d : HpackDecoder) (bits : Z) (data : bytes) : res hpackErr (bytes * bytes * bytes) * HpackDecoder :=
  let '(idx, n) := HpackDecodeInt data bits in
  if n <=? 0 then (Err ErrH2BadHeader, d) else
  let data := zdrop n data in
  let '(named, d) :=
    if 0 <? idx then
      match lookupName (d_table d) idx with
      | Some name => (Some (name, data), d)
      | None => (None, d)
      end
    else
      let '(name, n, d) := decodeString d data in
      if n <=? 0 then (None, d) else (Some (name, zdrop n data), d) in
  match named with
  | None => (Err ErrH2BadHeader, d)
  | Some (name, data) =>
      let '(val, n, d) := decodeString d data in
      if n <=? 0 then (Err ErrH2BadHeader, d) else (Ok (name, val, zdrop n data), d)
  end.

Definition maxHeaders : Z := 128.

(** One turn of the loop of [DecodeInto], at a byte [b] of [data = b :: _]. *)
Definition decodeStep (d : HpackDecoder) (headers : list (bytes * bytes)) (b : Z) (data : bytes) :
    res hpackErr (list (bytes * bytes) * bytes) * HpackDecoder :=
  if negb (Z.land b 0x80 =? 0) then
    let '(idx, n) := HpackDecodeInt data 7 in
    if n <=? 0 then (Err ErrH2BadHeader, d) else
    let '(found, t) := lookupIndex (d_table d) idx in
    let d := with_table d t in
    match found with
    | None => (Err ErrH2BadHeader, d)
    | Some f =>
        let headers := headers ++ [f] in
        if maxHeaders <? zlen headers then (Err ErrTooManyHeaders, d) else (Ok (headers, zdrop n data), d)
    end
  else if negb (Z.land b 0x40 =? 0) then
    let '(r, d) := decodeLiteral d 6 data in
    match r with
    | Err e => (Err e, d)
    | Ok (name, val, rest) =>
        let headers := headers ++ [(name, val)] in
        if maxHeaders <? zlen headers then (Err ErrTooManyHeaders, d)
        else (Ok (headers, rest), with_table d (addEntry (d_table d) name val))
    end
  else if negb (Z.land b 0x20 =? 0) then
    if 0 <? zlen headers then (Err ErrHpackSizeUpdateAfterField, d) else
    let '(maxSize, n) := HpackDecodeInt data 5 in
    if n <=? 0 then (Err ErrH2BadHeader, d) else
    if u64 (protocolMaxSize (d_table d)) <? maxSize then (Err ErrHpackTableSizeExceeded, d) else
    (Ok (headers, zdrop n data), with_table d (setMaxSize (d_table d) maxSize))
  else
    let '(r, d) := decodeLiteral d 4 data in
    match r with
    | Err e => (Err e, d)
    | Ok (name, val, rest) =>
        let headers := headers ++ [(name, val)] in
        if maxHeaders <? zlen headers then (Err ErrTooManyHeaders, d) else (Ok (headers, rest), d)
    end.

(** [for pos < len(data)]; [None] when the fuel runs out. *)
Fixpoint decodeLoop (fuel : nat) (d : HpackDecoder) (headers : list (bytes * bytes)) (data : bytes) :
    option (res hpackErr (list (bytes * bytes)) * HpackDecoder) :=
  match data with
  | [] => Some (Ok headers, d)
  | b :: _ =>
      match fuel with
      | O => None
      | S fuel =>
          match decodeStep d headers b data with
          | (Err e, d) => Some (Err e, d)
          | (Ok (headers, rest), d) => decodeLoop fuel d headers rest
          end
      end
  end.

(** Each turn reads at least one byte, so a turn per byte is enough. *)
Definition DecodeInto (d : HpackDecoder) (data : bytes) : option (res hpackErr (list (bytes * bytes)) * HpackDecoder) :=
  decodeLoop (length data) d [] data.

End Decoder.
