(* ===== verification/HpackProofs.v ===== *)
(** Correctness of the HPACK decoder: with its caches and its ring buffer it
    implements a plain reference decoder over a list. *)
From stdpp Require Import base list numbers strings.
From Stdlib Require Import ZArith Lia ZifyBool.
From S2P Require Import Prelude Utils HpackInt Huffman HuffmanProofs HpackTable HpackDyn Hpack.

Open Scope list_scope.
Open Scope Z_scope.

(** ** The Huffman cache is transparent *)

(** A used entry holds a string and its decoding. *)
Definition cache_entry_ok (e : hpackHuffmanDecodeCacheEntry) : Prop :=
  zlen (ce_inline e) = 64 /\
  (ce_used e = true -> exists raw, zlen raw = ce_size e /\ hpackHuffmanDecode raw = Some (ce_value e) /\
    if zlen raw <=? 64 then ztake (zlen raw) (ce_inline e) = raw else ce_heap e = raw).

Definition cache_ok (d : HpackDecoder) : Prop := Forall cache_entry_ok (huffmanCache d) /\ length (huffmanCache d) = 16%nat.

Lemma prefixEq_spec a data : prefixEq a data = true -> ztake (zlen data) a = data.
Proof.
  unfold ztake, zlen. rewrite Nat2Z.id. revert a. induction data as [| x data IH]; intros [| y a] H; simpl in *; try done.
  destruct (y =? x) eqn:E; [| done]. cbn [negb] in H. rewrite IH by done. f_equal. lia.
Qed.

Lemma cache_match_sound e hash data : cache_entry_ok e -> cache_match e hash data = true -> hpackHuffmanDecode data = Some (ce_value e).
Proof.
  intros [Hin Hok] H. unfold cache_match in H. destruct (ce_used e); [| done]. destruct (Hok eq_refl) as (raw & Hlen & Hdec & Hraw).
  destruct (ce_hash e =? hash); [| done]. destruct (ce_size e =? zlen data) eqn:Es; [| done]. cbn [negb orb] in H.
  assert (El : zlen raw = zlen data) by lia. rewrite Hin in H. rewrite El in Hraw. destruct (zlen data <=? 64).
  - apply prefixEq_spec in H. congruence.
  - destruct (_ <? _); [done |]. apply prefixEq_spec in H. rewrite Hraw in H. unfold ztake in H.
    rewrite <- El in H. unfold zlen in H. rewrite Nat2Z.id, take_ge in H by done. congruence.
Qed.

Lemma cacheFind_sound cache hash raw v : Forall cache_entry_ok cache -> cacheFind cache hash raw = Some v -> hpackHuffmanDecode raw = Some v.
Proof.
  induction 1 as [| e cache He _ IH]; [done |]. simpl. destruct (cache_match e hash raw) eqn:E; [| apply IH].
  intros [= <-]. by apply (cache_match_sound e hash).
Qed.

Lemma cache_store_ok e hash data v : cache_entry_ok e -> zlen data <= 256 -> hpackHuffmanDecode data = Some v ->
  cache_entry_ok (cache_store e hash data v).
Proof.
  intros [Hin _] Hl Hd. unfold cache_store. rewrite Hin. pose proof (zlen_nonneg data).
  destruct (zlen data <=? 64) eqn:E; split; simpl; try done.
  - rewrite zlen_app, zlen_drop by lia. lia.
  - intros _. exists data. unfold u32. rewrite Z.mod_small by lia. split; [done |]. split; [done |]. rewrite E. apply ztake_app_exact.
  - intros _. exists data. unfold u32. rewrite Z.mod_small by lia. split; [done |]. split; [done |]. by rewrite E.
Qed.

Section Refinement.

Context (hpackHashBytes : bytes -> Z).

(** The cached reader is the plain one, and leaves the table alone. *)
Lemma decodeString_plain d data s n d' : cache_ok d -> decodeString hpackHashBytes d data = (s, n, d') ->
  HpackDecodeString data = (s, n) /\ cache_ok d' /\ d_table d' = d_table d.
Proof.
  intros [Hc Hlen]. unfold decodeString, HpackDecodeString. destruct (zlen data =? 0); [intros [= <- <- <-]; done |].
  destruct (HpackDecodeInt data 7) as [sLen k]. destruct (_ || _); [intros [= <- <- <-]; done |].
  set (raw := zslice _ _ _). destruct (Z.land (znth data 0) 0x80 =? 0); cbn [negb]; [intros [= <- <- <-]; done |].
  destruct (cacheFind _ _ raw) as [v |] eqn:Ef.
  { apply cacheFind_sound in Ef; [| done]. rewrite Ef. intros [= <- <- <-]. done. }
  destruct (hpackHuffmanDecode raw) as [v |] eqn:Ed; [| intros [= <- <- <-]; done].
  destruct (zlen raw <=? hpackHuffmanDecodeCacheMaxRaw) eqn:El; [| intros [= <- <- <-]; done]. intros [= <- <- <-].
  split; [done |]. split; [| done]. unfold cache_ok. cbn [huffmanCache]. set (slot := Z.to_nat _).
  destruct (huffmanCache d !! slot) as [e |] eqn:Ee; [| done]. split; [| by rewrite length_insert].
  apply Forall_insert; [done |]. apply cache_store_ok; [by eapply Forall_lookup_1 | unfold hpackHuffmanDecodeCacheMaxRaw in El; lia | done].
Qed.

(** ** The reference decoder *)

(** The state is the current maximum size and the list of entries, newest
    first; strings are read without a cache. *)
Definition specLookup (l : list field) (idx : Z) : option field :=
  if idx =? 0 then None else if idx <? 62 then HpackStaticTable !! Z.to_nat idx else l !! Z.to_nat (idx - 62).

Definition specLiteral (l : list field) (bits : Z) (data : bytes) : res hpackErr (bytes * bytes * bytes) :=
  let '(idx, n) := HpackDecodeInt data bits in
  if n <=? 0 then Err ErrH2BadHeader else
  let data := zdrop n data in
  let named :=
    if 0 <? idx then (fun f => (fst f, data)) <$> specLookup l idx
    else let '(name, n) := HpackDecodeString data in if n <=? 0 then None else Some (name, zdrop n data) in
  match named with
  | None => Err ErrH2BadHeader
  | Some (name, data) =>
      let '(val, n) := HpackDecodeString data in
      if n <=? 0 then Err ErrH2BadHeader else Ok (name, val, zdrop n data)
  end.

Definition push_field (headers : list field) (f : field) : res hpackErr (list field) :=
  if zlen headers <? maxHeaders then Ok (headers ++ [f]) else Err ErrTooManyHeaders.

Definition specStep (limit : Z) (s : Z * list field) (headers : list field) (b : Z) (data : bytes) :
    res hpackErr (list field * bytes) * (Z * list field) :=
  let '(max, l) := s in
  if 128 <=? b then
    let '(idx, n) := HpackDecodeInt data 7 in
    if n <=? 0 then (Err ErrH2BadHeader, s) else
    match specLookup l idx with
    | None => (Err ErrH2BadHeader, s)
    | Some f => (let! headers := push_field headers f in Ok (headers, zdrop n data), s)
    end
  else if 64 <=? b then
    match specLiteral l 6 data with
    | Err e => (Err e, s)
    | Ok (name, val, rest) =>
        match push_field headers (name, val) with
        | Err e => (Err e, s)
        | Ok headers => (Ok (headers, rest), (max, spec_add max l (name, val)))
        end
    end
  else if 32 <=? b then
    match headers with
    | _ :: _ => (Err ErrHpackSizeUpdateAfterField, s)
    | [] =>
        let '(maxSize, n) := HpackDecodeInt data 5 in
        if n <=? 0 then (Err ErrH2BadHeader, s) else
        if limit <? maxSize then (Err ErrHpackTableSizeExceeded, s) else
        (Ok ([], zdrop n data), (maxSize, keep maxSize l))
    end
  else
    match specLiteral l 4 data with
    | Err e => (Err e, s)
    | Ok (name, val, rest) => (let! headers := push_field headers (name, val) in Ok (headers, rest), s)
    end.

Fixpoint specLoop (fuel : nat) (limit : Z) (s : Z * list field) (headers : list field) (data : bytes) :
    option (res hpackErr (list field) * (Z * list field)) :=
  match data with
  | [] => Some (Ok headers, s)
  | b :: _ =>
      match fuel with
      | O => None
      | S fuel =>
          match specStep limit s headers b data with
          | (Err e, s) => Some (Err e, s)
          | (Ok (headers, rest), s) => specLoop fuel limit s headers rest
          end
      end
  end.
Definition specDecode (limit : Z) (s : Z * list field) (data : bytes) : option (res hpackErr (list field) * (Z * list field)) :=
  specLoop (length data) limit s [] data.

Definition decoder_ok (limit : Z) (d : HpackDecoder) (s : Z * list field) : Prop :=
  cache_ok d /\ table_good limit (d_table d) s.

Lemma flag_bits b : is_u8 b ->
  negb (Z.land b 0x80 =? 0) = (128 <=? b) /\
  (b < 128 -> negb (Z.land b 0x40 =? 0) = (64 <=? b)) /\ (b < 64 -> negb (Z.land b 0x20 =? 0) = (32 <=? b)).
Proof.
  intros Hb. pose proof (byte_forall (fun b =>
    eqb (negb (Z.land b 0x80 =? 0)) (128 <=? b) &&
    ((128 <=? b) || eqb (negb (Z.land b 0x40 =? 0)) (64 <=? b)) &&
    ((64 <=? b) || eqb (negb (Z.land b 0x20 =? 0)) (32 <=? b))) ltac:(vm_compute; reflexivity) b Hb) as H.
  cbv beta in H. rewrite !andb_true_iff, !orb_true_iff in H. destruct H as [[H1 H2] H3].
  rewrite !eqb_true_iff in *. split; [done |]. split; intros Hlt; [destruct H2 as [H2 | H2] | destruct H3 as [H3 | H3]]; done || lia.
Qed.

Lemma zdrop_ok n (data : bytes) : bytes_ok data -> bytes_ok (zdrop n data).
Proof. apply Forall_drop. Qed.

Lemma zdrop_shrinks n b (data : bytes) : 0 < n -> (length (zdrop n (b :: data)) <= length data)%nat.
Proof. intros H. unfold zdrop. rewrite length_drop. simpl. lia. Qed.

(** The name of an index, from the ring and from the list. *)
Lemma lookupName_spec limit d s idx : limit < 2 ^ 32 -> decoder_ok limit d s -> is_u64 idx ->
  lookupName (d_table d) idx = fst <$> specLookup (snd s) idx.
Proof.
  intros Hlim [_ (R & Hm & Hp & Hs)] Hidx. pose proof (table_size_len (snd s)). pose proof (zlen_nonneg (snd s)).
  rewrite (lookupName_rep _ _ _ R) by (done || lia). by rewrite (lookupIndex_rep _ _ _ R).
Qed.

(** The rest of a literal is a proper suffix. *)
Definition literal_rest_ok (data : bytes) (r : res hpackErr (bytes * bytes * bytes)) : Prop :=
  match r with Ok (_, _, rest) => (length rest < length data)%nat /\ bytes_ok rest | Err _ => True end.

Lemma decodeLiteral_plain limit d s bits b data r d' : limit < 2 ^ 32 -> decoder_ok limit d s -> bytes_ok (b :: data) -> 1 <= bits <= 8 ->
  decodeLiteral hpackHashBytes d bits (b :: data) = (r, d') ->
  specLiteral (snd s) bits (b :: data) = r /\ decoder_ok limit d' s /\ literal_rest_ok (b :: data) r.
Proof.
  intros Hlim Hd Hok Hbits E. unfold decodeLiteral in E. unfold specLiteral.
  destruct (HpackDecodeInt (b :: data) bits) as [idx n] eqn:Ei.
  destruct (HpackDecodeInt_range _ _ _ _ Hok Hbits Ei) as (Hidx & _ & _).
  destruct (n <=? 0) eqn:En; [simplify_eq; done |].
  pose proof (zdrop_shrinks n b data ltac:(lia)) as Hshr. pose proof (zdrop_ok n _ Hok) as Hok1. set (data1 := zdrop n (b :: data)) in *.
  assert (Hval : forall name dd rest, decoder_ok limit dd s -> (length rest <= length data)%nat -> bytes_ok rest ->
    (let '(val, n, d) := decodeString hpackHashBytes dd rest in
     if n <=? 0 then (Err ErrH2BadHeader, d) else (Ok (name, val, zdrop n rest), d)) = (r, d') ->
    (let '(val, n) := HpackDecodeString rest in if n <=? 0 then Err ErrH2BadHeader else Ok (name, val, zdrop n rest)) = r /\
    decoder_ok limit d' s /\ literal_rest_ok (b :: data) r).
  { intros name dd rest [Hc Ht] Hl Hr E'. destruct (decodeString _ dd rest) as [[val k] d2] eqn:Es.
    destruct (decodeString_plain _ _ _ _ _ Hc Es) as (-> & Hc' & Ht'). unfold decoder_ok. destruct (k <=? 0); simplify_eq; rewrite Ht'; [done |].
    split; [done |]. split; [done |]. split; [unfold zdrop; rewrite length_drop; simpl; lia | by apply zdrop_ok]. }
  destruct (0 <? idx).
  - rewrite (lookupName_spec limit d s idx) in E by done. destruct (specLookup (snd s) idx) as [f |]; cbn [fmap option_fmap option_map] in *; [| simplify_eq; done].
    by apply (Hval (fst f) d data1).
  - destruct (decodeString hpackHashBytes d data1) as [[name k] d2] eqn:Es. destruct Hd as [Hc Ht].
    destruct (decodeString_plain _ _ _ _ _ Hc Es) as (-> & Hc' & Ht').
    assert (Hd2 : decoder_ok limit d2 s) by (split; [done | by rewrite Ht']).
    destruct (k <=? 0); [simplify_eq; done |]. apply (Hval name d2 (zdrop k data1)); [done | unfold zdrop in *; rewrite length_drop; lia | by apply zdrop_ok | done].
Qed.

(** The conditions the loop keeps along. *)
Definition step_ok (headers : list field) (data : bytes) (r : res hpackErr (list field * bytes)) : Prop :=
  match r with
  | Ok (headers', rest) => (length rest < length data)%nat /\ bytes_ok rest /\ zlen headers' <= maxHeaders
  | Err _ => True
  end.

Lemma push_field_spec headers f : zlen headers <= maxHeaders ->
  push_field headers f = if maxHeaders <? zlen (headers ++ [f]) then Err ErrTooManyHeaders else Ok (headers ++ [f]).
Proof. intros H. unfold push_field. rewrite zlen_snoc. repeat split_if; done || lia. Qed.

Lemma decodeStep_refines limit d s headers b data : 0 <= limit < 2 ^ 32 -> decoder_ok limit d s -> bytes_ok (b :: data) -> zlen headers <= maxHeaders ->
  let '(r, d') := decodeStep hpackHashBytes d headers b (b :: data) in
  let '(r', s') := specStep limit s headers b (b :: data) in
  r = r' /\ decoder_ok limit d' s' /\ step_ok headers (b :: data) r.
Proof.
  intros Hlim Hd Hok Hh. destruct (flag_bits b) as (F1 & F2 & F3); [by apply Forall_cons_1 in Hok as [? _] |].
  destruct s as [max l]. unfold decodeStep, specStep. rewrite F1. destruct (128 <=? b) eqn:B1; [| rewrite F2 by lia; destruct (64 <=? b) eqn:B2; [| rewrite F3 by lia; destruct (32 <=? b) eqn:B3]].
  - destruct (HpackDecodeInt (b :: data) 7) as [idx n] eqn:Ei. destruct (HpackDecodeInt_range (b :: data) 7 idx n Hok ltac:(lia) Ei) as (Hidx & _ & _).
    destruct (n <=? 0) eqn:En; [done |]. destruct Hd as [Hc (R & Hm & Hp & Hs)]. cbn [snd fst] in *.
    pose proof (lookupIndex_rep _ _ idx R Hidx) as El. destruct (lookupIndex_keeps _ idx _ R) as (R' & M' & P').
    destruct (lookupIndex (d_table d) idx) as [found t]. cbn [fst snd] in *. fold (specLookup l idx) in El. rewrite El.
    assert (Hd' : decoder_ok limit (with_table d t) (max, l)) by (split; [done |]; split; [done |]; simpl; by rewrite M', P').
    destruct (specLookup l idx) as [f |]; [| done]. rewrite push_field_spec by done.
    destruct (maxHeaders <? zlen (headers ++ [f])) eqn:E; [done |]. cbn [res_bind]. split; [done |]. split; [done |].
    split; [pose proof (zdrop_shrinks n b data); simpl in *; lia |]. split; [by apply zdrop_ok | lia].
  - destruct (decodeLiteral _ d 6 (b :: data)) as [r d'] eqn:El.
    destruct (decodeLiteral_plain limit d (max, l) 6 b data r d' (proj2 Hlim) Hd Hok ltac:(lia) El) as (Hr0 & Hd' & Hr). cbn [snd] in Hr0. rewrite Hr0.
    destruct r as [[[name val] rest] |]; [| done]. rewrite push_field_spec by done. destruct (maxHeaders <? _) eqn:E; [done |].
    split; [done |]. split; [| split; [apply Hr | split; [apply Hr | lia]]].
    destruct Hd' as [Hc Ht]. split; [done |]. exact (table_step_good limit _ _ (TAdd name val) (proj2 Hlim) I Ht).
  - destruct headers as [| h headers]; cbn [zlen length]; [| done]. change (0 <? zlen (@nil field)) with false. cbv iota.
    destruct (HpackDecodeInt (b :: data) 5) as [m n] eqn:Ei. destruct (HpackDecodeInt_range (b :: data) 5 m n Hok ltac:(lia) Ei) as (Hidx & _ & _).
    destruct (n <=? 0) eqn:En; [done |]. destruct Hd as [Hc Ht]. destruct Ht as (R & Hm & Hp & Hs) eqn:Et. clear Et. rewrite Hp.
    rewrite u64_small by lia. destruct (limit <? m) eqn:E; [done |]. split; [done |]. unfold is_u64 in Hidx.
    split; [split; [done |] | split; [pose proof (zdrop_shrinks n b data); simpl in *; lia | split; [by apply zdrop_ok | done]]].
    refine (table_step_good limit _ (max, l) (TMax m) (proj2 Hlim) _ _); [simpl; lia | done].
  - destruct (decodeLiteral _ d 4 (b :: data)) as [r d'] eqn:El.
    destruct (decodeLiteral_plain limit d (max, l) 4 b data r d' (proj2 Hlim) Hd Hok ltac:(lia) El) as (Hr0 & Hd' & Hr). cbn [snd] in Hr0. rewrite Hr0.
    destruct r as [[[name val] rest] |]; [| done]. rewrite push_field_spec by done. destruct (maxHeaders <? _) eqn:E; [done |].
    cbn [res_bind]. split; [done |]. split; [done |]. split; [apply Hr | split; [apply Hr | lia]].
Qed.

Lemma decodeLoop_refines limit fuel d s headers data : 0 <= limit < 2 ^ 32 -> (length data <= fuel)%nat ->
  decoder_ok limit d s -> bytes_ok data -> zlen headers <= maxHeaders ->
  exists r d' s', decodeLoop hpackHashBytes fuel d headers data = Some (r, d') /\ specLoop fuel limit s headers data = Some (r, s') /\
    decoder_ok limit d' s' /\ match r with Ok hs => zlen hs <= maxHeaders | Err _ => True end.
Proof.
  intros Hlim. revert d s headers data. induction fuel as [| fuel IH]; intros d s headers [| b data] Hf Hd Hok Hh; simpl in Hf; try lia.
  1, 2: by exists (Ok headers), d, s. cbn [decodeLoop specLoop].
  pose proof (decodeStep_refines limit d s headers b data Hlim Hd Hok Hh) as Hst.
  destruct (decodeStep _ d headers b (b :: data)) as [r d']. destruct (specStep limit s headers b (b :: data)) as [r' s'].
  destruct Hst as (<- & Hd' & Hr). destruct r as [[hs rest] | e]; [| by exists (Err e), d', s'].
  destruct Hr as (H1 & H2 & H3). apply IH; [simpl in *; lia | done | done | done].
Qed.

End Refinement.

(** Decoding the header blocks of a connection, in order. *)
Fixpoint decodeBlocks (hash : bytes -> Z) (d : HpackDecoder) (blocks : list bytes) : option (list (res hpackErr (list field)) * HpackDecoder) :=
  match blocks with
  | [] => Some ([], d)
  | data :: blocks =>
      match DecodeInto hash d data with
      | None => None
      | Some (r, d) => match decodeBlocks hash d blocks with None => None | Some (rs, d) => Some (r :: rs, d) end
      end
  end.
Fixpoint specBlocks (limit : Z) (s : Z * list field) (blocks : list bytes) : option (list (res hpackErr (list field)) * (Z * list field)) :=
  match blocks with
  | [] => Some ([], s)
  | data :: blocks =>
      match specDecode limit s data with
      | None => None
      | Some (r, s) => match specBlocks limit s blocks with None => None | Some (rs, s) => Some (r :: rs, s) end
      end
  end.

Lemma newHpackDecoder_ok limit : 0 <= limit -> decoder_ok limit (newHpackDecoder limit) (limit, []).
Proof.
  intros H. split; [| by apply newDynTable_good]. split; [| done]. apply Forall_replicate. by split.
Qed.

Lemma decodeBlocks_refines hash limit blocks d s : 0 <= limit < 2 ^ 32 -> decoder_ok limit d s -> Forall bytes_ok blocks ->
  exists rs d' s', decodeBlocks hash d blocks = Some (rs, d') /\ specBlocks limit s blocks = Some (rs, s') /\ decoder_ok limit d' s' /\
    Forall (fun r => match r with Ok hs => zlen hs <= maxHeaders | Err _ => True end) rs.
Proof.
  intros Hlim Hd Hb. revert d s Hd. induction Hb as [| data blocks Hdata _ IH]; intros d s Hd; [by exists [], d, s |].
  destruct (decodeLoop_refines hash limit (length data) d s [] data Hlim (le_n _) Hd Hdata ltac:(done)) as (r & d1 & s1 & E1 & E2 & Hd1 & Hr).
  destruct (IH d1 s1 Hd1) as (rs & d2 & s2 & F1 & F2 & Hd2 & Hrs). exists (r :: rs), d2, s2. simpl.
  unfold DecodeInto, specDecode. rewrite E1, E2, F1, F2. split; [done |]. split; [done |]. split; [done | by constructor].
Qed.

(** C15: the HPACK decoder is total and implements the reference decoder of
    RFC 7541. Over any sequence of header blocks (any bytes) and whatever the
    hash function is, it returns the header lists and the errors of the
    reference decoder, which has no Huffman cache and keeps the dynamic table
    as a list; no list is longer than 128 fields, and ring buffer and list
    still agree at the end, also after errors. *)
Theorem hpack_decode_refines hash limit blocks : 0 <= limit < 2 ^ 32 -> Forall bytes_ok blocks ->
  exists rs d' s', decodeBlocks hash (newHpackDecoder limit) blocks = Some (rs, d') /\
    specBlocks limit (limit, []) blocks = Some (rs, s') /\ decoder_ok limit d' s' /\
    Forall (fun r => match r with Ok hs => zlen hs <= maxHeaders | Err _ => True end) rs.
Proof.
  intros Hlim Hb. apply decodeBlocks_refines; [done | | done]. apply newHpackDecoder_ok. lia.
Qed.

(** Two requests of RFC 7541 C.4 (the second uses the table the first left)
    and a malformed block. *)
Definition demo_blocks : list bytes :=
  [[0x82; 0x86; 0x84; 0x41; 0x8c; 0xf1; 0xe3; 0xc2; 0xe5; 0xf2; 0x3a; 0x6b; 0xa0; 0xab; 0x90; 0xf4; 0xff];
   [0x82; 0x86; 0x84; 0xbe; 0x58; 0x86; 0xa8; 0xeb; 0x10; 0x64; 0x9c; 0xbf];
   [0x82; 0xff; 0xff]].

Lemma hpack_decode_refines_witness : exists rs d' s',
  decodeBlocks (fun _ => 0) (newHpackDecoder 4096) demo_blocks = Some (rs, d') /\
  rs = [Ok [(str ":method", str "GET"); (str ":scheme", str "http"); (str ":path", str "/"); (str ":authority", str "www.example.com")];
        Ok [(str ":method", str "GET"); (str ":scheme", str "http"); (str ":path", str "/"); (str ":authority", str "www.example.com");
            (str "cache-control", str "no-cache")];
        Err ErrH2BadHeader] /\
  s' = (4096, [(str "cache-control", str "no-cache"); (str ":authority", str "www.example.com")]).
Proof.
  assert (Hl : 0 <= 4096 < 2 ^ 32) by lia.
  assert (Hb : Forall bytes_ok demo_blocks) by (repeat constructor; lia).
  destruct (hpack_decode_refines (fun _ => 0) 4096 demo_blocks Hl Hb) as (rs & d' & s' & E1 & E2 & _).
  exists rs, d', s'. split; [exact E1 |]. vm_compute in E2. injection E2 as <- <-. split; reflexivity.
Defined.
