(* ===== verification/HpackRoundtrip.v ===== *)
(** Header blocks read back: what the string and field writers of the HPACK
    encoder append, the transparency of the process-wide field cache, and the
    round trip of whole header blocks through the decoder. *)
From stdpp Require Import base list numbers strings.
From Stdlib Require Import ZArith Lia ZifyBool.
From S2P Require Import Prelude Utils HpackInt Huffman HuffmanProofs HpackTable HpackDyn Hpack HpackProofs.

Open Scope list_scope.
Open Scope Z_scope.

(** ** What the string writers write *)

(** A writer appends bytes that read back as the string it stands for
    ([view]), whatever follows. *)
Class StringWriter (write : bytes -> bytes -> bytes) (view : bytes -> bytes) : Prop :=
  string_writer : forall s, bytes_ok s -> zlen s < 2 ^ 60 ->
    exists enc, (forall buf, write buf s = buf ++ enc) /\ bytes_ok enc /\ 0 < zlen enc /\
      forall rest, HpackDecodeString (enc ++ rest) = (view s, zlen enc).


Lemma prefix7 (huff : bool) : prefix_ok (if huff then 0x80 else 0x00) 7.
Proof. split; [lia |]. destruct huff; [exists 1 | exists 0]; lia. Qed.

Lemma int_bytes_head prefix pb val rest : 1 <= pb <= 8 -> 0 <= val ->
  exists low, 0 <= low < 2 ^ pb /\ exists tl, int_bytes prefix pb val ++ rest = (prefix + low) :: tl.
Proof.
  intros Hpb Hv. destruct (mask_value pb Hpb) as (_ & _ & Hm). unfold int_bytes. destruct (val <? 2 ^ pb - 1) eqn:E.
  - exists val. split; [lia |]. by eexists.
  - exists (2 ^ pb - 1). split; [lia |]. by eexists.
Qed.

Lemma zlen_int_bytes prefix pb val : 0 < zlen (int_bytes prefix pb val).
Proof. unfold int_bytes. destruct (_ <? _); rewrite zlen_cons; [done |]. pose proof (zlen_nonneg (varTail 10 (val - (2 ^ pb - 1)))). lia. Qed.

(** A length, then that many bytes: raw, or a Huffman code. *)
Lemma read_literal (huff : bool) p s rest : zlen p < 2 ^ 60 -> (if huff then hpackHuffmanDecode p = Some s else p = s) ->
  HpackDecodeString ((int_bytes (if huff then 0x80 else 0x00) 7 (zlen p) ++ p) ++ rest)
  = (s, zlen (int_bytes (if huff then 0x80 else 0x00) 7 (zlen p) ++ p)).
Proof.
  intros Hp Hs. set (flag := if huff then 0x80 else 0x00). pose proof (zlen_nonneg p) as Hp0. pose proof (zlen_int_bytes flag 7 (zlen p)) as Hb.
  unfold HpackDecodeString. rewrite <- app_assoc.
  replace (zlen (_ ++ p ++ rest) =? 0) with false by (rewrite !zlen_app; pose proof (zlen_nonneg rest); lia).
  rewrite int_bytes_decode by (apply prefix7 || (unfold is_u64; lia)).
  rewrite !zlen_app. pose proof (zlen_nonneg rest). replace (_ || _) with false by lia. rewrite zslice_mid.
  assert (Hflag : negb (Z.land (znth (int_bytes flag 7 (zlen p) ++ p ++ rest) 0) 128 =? 0) = huff).
  { destruct (int_bytes_head flag 7 (zlen p) (p ++ rest)) as (low & Hlow & tl & ->); [lia | lia |]. change (znth (flag + low :: tl) 0) with (flag + low).
    destruct (flag_bits (flag + low)) as (-> & _); [unfold flag, is_u8; destruct huff; lia | unfold flag; destruct huff; lia]. }
  rewrite Hflag. destruct huff; [by rewrite Hs | by rewrite Hs].
Qed.

Lemma EncodeInt7 (huff : bool) buf v : 0 <= v < 2 ^ 64 ->
  EncodeInt buf (if huff then 0x80 else 0x00) 7 v = buf ++ int_bytes (if huff then 0x80 else 0x00) 7 v.
Proof. intros H. apply EncodeInt_bytes; [apply prefix7 | done]. Qed.

(** What a raw or a Huffman literal appends. *)
Definition raw_string (s : bytes) : bytes := int_bytes 0x00 7 (zlen s) ++ s.
Definition huff_string (s : bytes) : bytes := int_bytes 0x80 7 (zlen (hpackHuffmanAppend [] s)) ++ hpackHuffmanAppend [] s.

Lemma raw_string_ok s : bytes_ok s -> zlen s < 2 ^ 60 ->
  bytes_ok (raw_string s) /\ 0 < zlen (raw_string s) /\ forall rest, HpackDecodeString (raw_string s ++ rest) = (s, zlen (raw_string s)).
Proof.
  intros Hs Hl. pose proof (zlen_nonneg s). split; [apply Forall_app; split; [apply int_bytes_ok; [apply (prefix7 false) | lia] | done] |].
  split; [unfold raw_string; rewrite zlen_app; pose proof (zlen_int_bytes 0 7 (zlen s)); lia |]. intros rest. by apply (read_literal false s s).
Qed.

Lemma huff_string_ok s : bytes_ok s -> hpackHuffmanEncodedLen s < zlen s -> zlen s < 2 ^ 60 ->
  bytes_ok (huff_string s) /\ 0 < zlen (huff_string s) /\ forall rest, HpackDecodeString (huff_string s ++ rest) = (s, zlen (huff_string s)).
Proof.
  intros Hs Hh Hl. destruct (append_spells s (bytes_syms s Hs)) as (m & Hok & _ & _). set (p := hpackHuffmanAppend [] s) in *.
  assert (Hp : zlen p < 2 ^ 60) by (unfold p; rewrite huffman_len by (by apply bytes_syms); lia). pose proof (zlen_nonneg p).
  split; [apply Forall_app; split; [apply int_bytes_ok; [apply (prefix7 true) | apply zlen_nonneg] | done] |].
  split; [unfold huff_string; fold p; rewrite zlen_app; pose proof (zlen_int_bytes 128 7 (zlen p)); lia |].
  intros rest. apply (read_literal true p s); [done |]. by apply huffman_decode_append.
Qed.

#[export] Instance EncodeString_writer : StringWriter EncodeString (fun s => s).
Proof.
  intros s Hs Hl. pose proof (zlen_nonneg s) as H0.
  assert (Hraw : exists enc, (forall buf, EncodeInt buf 0x00 7 (zlen s) ++ s = buf ++ enc) /\ bytes_ok enc /\ 0 < zlen enc /\
    forall rest, HpackDecodeString (enc ++ rest) = (s, zlen enc)).
  { exists (raw_string s). split; [| by apply raw_string_ok]. intros buf. rewrite (EncodeInt7 false) by lia. unfold raw_string. by rewrite app_assoc. }
  unfold EncodeString. destruct (zlen s <? hpackHuffmanMinValueLen); [done |].
  destruct (hpackHuffmanEncodedLen s <? zlen s) eqn:E; [| done]. exists (huff_string s). split; [| apply huff_string_ok; [done | lia | done]].
  intros buf. rewrite hpackHuffmanAppend_dst. unfold huff_string. rewrite huffman_len by (by apply bytes_syms).
  assert (Hh : 0 <= hpackHuffmanEncodedLen s) by (rewrite <- huffman_len by (by apply bytes_syms); apply zlen_nonneg).
  rewrite (EncodeInt7 true) by lia. by rewrite app_assoc.
Qed.

Lemma asciiLower_u8 c : is_u8 c -> is_u8 (asciiLower c).
Proof. unfold is_u8, asciiLower. destruct (_ && _) eqn:E; lia. Qed.
Lemma lower_ok s : bytes_ok s -> bytes_ok (map asciiLower s).
Proof. intros H. apply Forall_fmap. eapply Forall_impl; [exact H |]. intros c Hc. by apply asciiLower_u8. Qed.

Lemma lowerLenLoop_spec s bits : bytes_ok s -> lowerLenLoop s bits = huffLenLoop (map asciiLower s) bits.
Proof.
  intros Hs. rewrite huffLenLoop_codes by (by apply bytes_syms, lower_ok). revert bits.
  induction Hs as [| c s Hc _ IH]; intros bits; [cbn [lowerLenLoop map]; change (zlen (codes [])) with 0; lia |].
  cbn [lowerLenLoop map]. rewrite IH, codes_cons, zlen_app, huffBitLen_code; [lia |].
  apply asciiLower_u8 in Hc. unfold is_u8, sym_ok in *. lia.
Qed.

Lemma lowerAppendLoop_spec s buf cur nbits : lowerAppendLoop s buf cur nbits = huffAppendLoop (map asciiLower s) buf cur nbits.
Proof.
  revert buf cur nbits. induction s as [| c s IH]; intros buf cur nbits; [done |]. cbn [lowerAppendLoop huffAppendLoop map].
  destruct (huffEmit _ _ _ _) as [b n]. apply IH.
Qed.

#[export] Instance encodeStringLower_writer : StringWriter encodeStringLower (map asciiLower).
Proof.
  intros s Hs Hl. pose proof (zlen_nonneg s) as H0. pose proof (lower_ok s Hs) as Hlow.
  assert (Hz : zlen (map asciiLower s) = zlen s) by (unfold zlen; by rewrite length_map).
  unfold encodeStringLower. rewrite lowerLenLoop_spec by done. fold (hpackHuffmanEncodedLen (map asciiLower s)).
  destruct (_ <? zlen s) eqn:E.
  - exists (huff_string (map asciiLower s)). split; [| apply huff_string_ok; [done | lia | lia]]. intros buf.
    assert (Hh : 0 <= hpackHuffmanEncodedLen (map asciiLower s)) by (rewrite <- huffman_len by (by apply bytes_syms); apply zlen_nonneg).
    rewrite lowerAppendLoop_spec. fold (hpackHuffmanAppend (EncodeInt buf 128 7 (hpackHuffmanEncodedLen (map asciiLower s))) (map asciiLower s)).
    rewrite hpackHuffmanAppend_dst. unfold huff_string. rewrite huffman_len by (by apply bytes_syms).
    rewrite (EncodeInt7 true) by lia. by rewrite app_assoc.
  - exists (raw_string (map asciiLower s)). split; [| apply raw_string_ok; [done | lia]]. intros buf.
    rewrite (EncodeInt7 false) by lia. unfold raw_string. rewrite Hz. by rewrite app_assoc.
Qed.

(** ** What the field writers write *)

(** [enc] is one field line that adds [f] and changes nothing else. *)
Definition encodes (enc : bytes) (f : field) : Prop :=
  bytes_ok enc /\ exists b tl, enc = b :: tl /\
    forall limit s headers rest, zlen headers < maxHeaders ->
      specStep limit s headers b (enc ++ rest) = (Ok (headers ++ [f], rest), s).

Lemma prefix4 : prefix_ok 0x00 4.
Proof. split; [lia |]. exists 0. lia. Qed.

Lemma static_lookup l idx : 1 <= idx <= 61 -> exists v, specLookup l idx = Some (static_name idx, v).
Proof.
  intros Hi. unfold specLookup. replace (idx =? 0) with false by lia. replace (idx <? 62) with true by lia.
  destruct (HpackStaticTable !! Z.to_nat idx) as [[n v] |] eqn:E.
  - exists v. unfold static_name. by rewrite (nth_lookup_Some _ _ _ _ E).
  - apply lookup_ge_None in E. change (length HpackStaticTable) with 62%nat in E. lia.
Qed.

Lemma zdrop_app_plus {A} (a b c : list A) : zdrop (zlen a) ((a ++ b) ++ c) = b ++ c.
Proof. rewrite <- app_assoc. apply zdrop_app_exact. Qed.

(** A literal without indexing whose name is in the static table. *)
Lemma encodes_static {write view} `{!StringWriter write view} idx value : 1 <= idx <= 61 -> bytes_ok value -> zlen value < 2 ^ 60 ->
  exists enc, (forall buf, write (EncodeInt buf 0x00 4 idx) value = buf ++ enc) /\ encodes enc (static_name idx, view value).
Proof.
  intros Hi Hv Hl. destruct (string_writer (write := write) value Hv Hl) as (ve & Hw & Hvok & Hv0 & Hd).
  exists (int_bytes 0x00 4 idx ++ ve). split; [intros buf; rewrite Hw, EncodeInt_bytes, app_assoc; [done | apply prefix4 | unfold is_u64; lia] |].
  split; [apply Forall_app; split; [apply int_bytes_ok; [apply prefix4 | lia] | done] |].
  destruct (int_bytes_head 0x00 4 idx ve) as (low & Hlow & tl & Etl); [lia | lia |].
  exists (0 + low), tl. split; [done |]. intros limit [max l] headers rest Hh.
  change (2 ^ 4) with 16 in Hlow. unfold specStep. replace (128 <=? 0 + low) with false by lia.
  replace (64 <=? 0 + low) with false by lia. replace (32 <=? 0 + low) with false by lia.
  unfold specLiteral. rewrite <- app_assoc, int_bytes_decode by (apply prefix4 || (unfold is_u64; lia)).
  pose proof (zlen_int_bytes 0x00 4 idx). replace (zlen (int_bytes 0 4 idx) <=? 0) with false by lia. rewrite zdrop_app_exact.
  replace (0 <? idx) with true by lia. destruct (static_lookup l idx Hi) as [v ->]. cbn [fmap option_fmap option_map fst].
  rewrite Hd. replace (zlen ve <=? 0) with false by lia. rewrite zdrop_app_exact. unfold push_field.
  by replace (zlen headers <? maxHeaders) with true by lia.
Qed.

(** A literal without indexing with a new name. *)
Lemma encodes_literal {wn vn wv vv} `{!StringWriter wn vn} `{!StringWriter wv vv} name value :
  bytes_ok name -> zlen name < 2 ^ 60 -> bytes_ok value -> zlen value < 2 ^ 60 ->
  exists enc, (forall buf, wv (wn (buf ++ [0x00]) name) value = buf ++ enc) /\ encodes enc (vn name, vv value).
Proof.
  intros Hn Hnl Hv Hvl. destruct (string_writer (write := wn) name Hn Hnl) as (ne & Hwn & Hnok & Hn0 & Hdn).
  destruct (string_writer (write := wv) value Hv Hvl) as (ve & Hwv & Hvok & Hv0 & Hdv).
  exists (0x00 :: ne ++ ve). split; [intros buf; rewrite Hwv, Hwn, <- !app_assoc; done |].
  split; [constructor; [unfold is_u8; lia | by apply Forall_app] |]. exists 0x00, (ne ++ ve). split; [done |].
  intros limit [max l] headers rest Hh. unfold specStep. change (128 <=? 0) with false. change (64 <=? 0) with false. change (32 <=? 0) with false. cbv iota.
  unfold specLiteral. change ((0 :: ne ++ ve) ++ rest) with (int_bytes 0x00 4 0 ++ ((ne ++ ve) ++ rest)).
  rewrite int_bytes_decode by (apply prefix4 || (unfold is_u64; lia)). rewrite zdrop_app_exact.
  change (zlen (int_bytes 0 4 0) <=? 0) with false. change (0 <? 0) with false. cbv iota. rewrite <- app_assoc, Hdn.
  replace (zlen ne <=? 0) with false by lia. rewrite zdrop_app_exact, Hdv. replace (zlen ve <=? 0) with false by lia.
  rewrite zdrop_app_exact. unfold push_field. by replace (zlen headers <? maxHeaders) with true by lia.
Qed.

Lemma encodes_indexed idx f : 1 <= idx <= 61 -> HpackStaticTable !! Z.to_nat idx = Some f ->
  exists enc, (forall buf, EncodeIndexed buf idx = buf ++ enc) /\ encodes enc f.
Proof.
  intros Hi Hf. exists (int_bytes 0x80 7 idx). split; [intros buf; apply (EncodeInt7 true); lia |].
  split; [apply int_bytes_ok; [apply (prefix7 true) | lia] |].
  destruct (int_bytes_head 0x80 7 idx []) as (low & Hlow & tl & Etl); [lia | lia |]. rewrite app_nil_r in Etl.
  exists (0x80 + low), tl. split; [done |]. intros limit [max l] headers rest Hh. unfold specStep. replace (128 <=? 128 + low) with true by lia.
  rewrite int_bytes_decode by (apply (prefix7 true) || (unfold is_u64; lia)). pose proof (zlen_int_bytes 0x80 7 idx).
  replace (zlen _ <=? 0) with false by lia. unfold specLookup. replace (idx =? 0) with false by lia. replace (idx <? 62) with true by lia.
  rewrite Hf, zdrop_app_exact. unfold push_field. by replace (zlen headers <? maxHeaders) with true by lia.
Qed.

(** ** The cache of encoded fields is transparent *)

Definition cached_ok (o : option hpackCachedField) : Prop :=
  match o with
  | Some e => cf_enc e = EncodeString (EncodeInt [] 0x00 4 (cf_idx e)) (cf_value e)
  | None => True
  end.
Definition field_cache_ok (cache : fieldCache) : Prop := Forall cached_ok cache.

Lemma encodeStaticFieldCached_plain cache buf idx value : field_cache_ok cache -> 1 <= idx <= 61 -> bytes_ok value -> zlen value < 2 ^ 60 ->
  exists cache', encodeStaticFieldCached cache buf idx value = (EncodeString (EncodeInt buf 0x00 4 idx) value, cache') /\ field_cache_ok cache'.
Proof.
  intros Hc Hi Hv Hl. unfold encodeStaticFieldCached. destruct (encodes_static (write := EncodeString) idx value Hi Hv Hl) as (enc & He & _).
  destruct (hpackFieldCacheMaxValue <? zlen value); [by exists cache |]. set (slot := Z.to_nat _).
  assert (Hmiss : exists cache', (EncodeString (EncodeInt buf 0 4 idx) value, <[slot := Some {| cf_idx := idx; cf_value := value;
      cf_enc := zdrop (zlen buf) (EncodeString (EncodeInt buf 0 4 idx) value) |}]> cache)
      = (EncodeString (EncodeInt buf 0x00 4 idx) value, cache') /\ field_cache_ok cache').
  { eexists. split; [done |]. apply Forall_insert; [done |]. cbn [cached_ok cf_enc cf_idx cf_value].
    rewrite (He buf), (He []). apply zdrop_app_exact. }
  destruct (cache !! slot) as [[ent |] |] eqn:Es; [| done | done]. destruct (_ && _) eqn:Em; [| done].
  apply andb_true_iff in Em as [E1 E2]. apply bytes_eqb_spec in E2. pose proof (Forall_lookup_1 _ _ _ _ Hc Es) as Hent. cbn [cached_ok] in Hent.
  exists cache. split; [| done]. f_equal. rewrite Hent, E2. replace (cf_idx ent) with idx by lia. by rewrite (He buf), (He []).
Qed.

(** ** Whole header blocks *)

(** [EncodeInt(0x00, 7, len(s)); append(s...)], as [EncodeStatus] writes. *)
Definition writeRaw (buf s : bytes) : bytes := EncodeInt buf 0x00 7 (zlen s) ++ s.
#[export] Instance writeRaw_writer : StringWriter writeRaw (fun s => s).
Proof.
  intros s Hs Hl. exists (raw_string s). split; [| by apply raw_string_ok]. intros buf. unfold writeRaw, raw_string.
  pose proof (zlen_nonneg s). rewrite (EncodeInt7 false) by lia. by rewrite app_assoc.
Qed.

Inductive encOp :=
| OpStatus (code : Z)
| OpHeader (name value : bytes)
| OpHeaderFold (name value : bytes)
| OpIndexed (idx : Z).

Definition encode_step (st : fieldCache * bytes) (op : encOp) : fieldCache * bytes :=
  let '(cache, buf) := st in
  match op with
  | OpStatus code => (cache, EncodeStatus buf code)
  | OpHeader n v => (cache, EncodeHeader buf n v)
  | OpHeaderFold n v => let '(buf, cache) := EncodeHeaderFold cache buf n v in (cache, buf)
  | OpIndexed idx => (cache, EncodeIndexed buf idx)
  end.

(** The field each call stands for. *)
Definition op_field (op : encOp) : field :=
  match op with
  | OpStatus code => (str ":status", appendUint [] code)
  | OpHeader n v | OpHeaderFold n v => (ToLowerASCII n, v)
  | OpIndexed idx => nth (Z.to_nat idx) HpackStaticTable ([], [])
  end.

Definition text_ok (s : bytes) : Prop := bytes_ok s /\ zlen s < 2 ^ 60.
Definition op_ok (op : encOp) : Prop :=
  match op with
  | OpStatus code => 0 <= code < 2 ^ 63
  | OpHeader n v | OpHeaderFold n v => text_ok n /\ text_ok v
  | OpIndexed idx => 1 <= idx <= 61
  end.

Lemma lower_text_ok n : text_ok n -> text_ok (map asciiLower n).
Proof. intros [H1 H2]. split; [by apply lower_ok | unfold zlen; rewrite length_map; exact H2]. Qed.

Lemma encodes_header n v : text_ok n -> text_ok v ->
  exists enc, (forall buf, EncodeHeader buf n v = buf ++ enc) /\ encodes enc (ToLowerASCII n, v).
Proof.
  intros Hn [Hv Hvl]. apply lower_text_ok in Hn as [Hn Hnl]. unfold EncodeHeader. rewrite ToLowerASCII_map in *. set (low := map asciiLower n) in *.
  pose proof (findFoldLow_correct low) as (Hr & _ & Hnm). rewrite find_agree in Hr, Hnm. destruct (0 <? hpackFindStaticName low) eqn:E.
  - destruct (encodes_static (write := EncodeString) (view := fun s => s) (hpackFindStaticName low) v) as (enc & He & Henc); [lia | done | done |].
    rewrite Hnm in Henc by lia. by exists enc.
  - by apply (encodes_literal (wn := EncodeString) (vn := fun s => s) (wv := EncodeString) (vv := fun s => s)).
Qed.

Lemma encodes_header_fold n v : text_ok n -> text_ok v ->
  exists enc, encodes enc (ToLowerASCII n, v) /\ forall cache buf, field_cache_ok cache -> exists cache', EncodeHeaderFold cache buf n v = (buf ++ enc, cache') /\ field_cache_ok cache'.
Proof.
  intros [Hn Hnl] [Hv Hvl]. unfold EncodeHeaderFold. rewrite ToLowerASCII_map, findFold_low. set (low := map asciiLower n).
  pose proof (findFoldLow_correct low) as (Hr & _ & Hnm). destruct (0 <? findFoldLow low) eqn:E.
  - destruct (encodes_static (write := EncodeString) (view := fun s => s) (findFoldLow low) v) as (enc & He & Henc); [lia | done | done |].
    rewrite Hnm in Henc by lia. exists enc. split; [done |]. intros cache buf Hc.
    destruct (encodeStaticFieldCached_plain cache buf (findFoldLow low) v) as (cache' & -> & Hc'); [done | lia | done | done |].
    exists cache'. by rewrite He.
  - destruct (encodes_literal (wn := encodeStringLower) (vn := map asciiLower) (wv := EncodeString) (vv := fun s => s) n v) as (enc & He & Henc); try done.
    exists enc. split; [done |]. intros cache buf Hc. exists cache. by rewrite He.
Qed.

Lemma appendUint_text code : 0 <= code < 2 ^ 63 -> text_ok (appendUint [] code).
Proof.
  intros Hc. destruct (appendUint_spells [] code Hc) as (s & -> & [Hd _] & Hl & _). split; [| simpl; lia].
  apply Forall_forall. intros c Hin. rewrite forallb_forall in Hd. apply list_elem_of_In, Hd in Hin. unfold is_digit, is_u8 in *. lia.
Qed.

Lemma encodes_status code : 0 <= code < 2 ^ 63 ->
  exists enc, (forall buf, EncodeStatus buf code = buf ++ enc) /\ encodes enc (str ":status", appendUint [] code).
Proof.
  intros Hc. destruct (appendUint_text code Hc) as [Ht Hl].
  assert (Hlit : exists enc, (forall buf, writeRaw (EncodeInt buf 0x00 4 8) (appendUint [] code) = buf ++ enc) /\ encodes enc (str ":status", appendUint [] code)).
  { apply (encodes_static (write := writeRaw) (view := fun s => s) 8); [lia | done | done]. }
  assert (Hidx : forall idx, 8 <= idx <= 14 -> HpackStaticTable !! Z.to_nat idx = Some (str ":status", appendUint [] code) ->
    exists enc, (forall buf, EncodeIndexed buf idx = buf ++ enc) /\ encodes enc (str ":status", appendUint [] code)).
  { intros idx Hi Hf. apply encodes_indexed; [lia | done]. }
  clear Ht Hl. unfold EncodeStatus, writeRaw in *.
  repeat match goal with |- context [match ?z with _ => _ end] =>
    lazymatch z with context [match _ with _ => _ end] => fail | _ => idtac end;
    lazymatch type of z with Z => destruct z | positive => destruct z end end; try exact Hlit; apply Hidx; (lia || (vm_compute; reflexivity)).
Qed.

Lemma encode_step_spec op : op_ok op ->
  exists enc, encodes enc (op_field op) /\
    forall cache buf, field_cache_ok cache -> exists cache', encode_step (cache, buf) op = (cache', buf ++ enc) /\ field_cache_ok cache'.
Proof.
  intros Ho. destruct op as [code | n v | n v | idx]; simpl in Ho; cbn [encode_step op_field].
  - destruct (encodes_status code Ho) as (enc & He & Henc). exists enc. split; [done |]. intros cache buf Hc. exists cache. by rewrite He.
  - destruct (encodes_header n v (proj1 Ho) (proj2 Ho)) as (enc & He & Henc). exists enc. split; [done |]. intros cache buf Hc. exists cache. by rewrite He.
  - destruct (encodes_header_fold n v (proj1 Ho) (proj2 Ho)) as (enc & Henc & He). exists enc. split; [done |].
    intros cache buf Hc. destruct (He cache buf Hc) as (cache' & -> & Hc'). by exists cache'.
  - destruct (HpackStaticTable !! Z.to_nat idx) as [f |] eqn:Ef; [| apply lookup_ge_None in Ef; change (length HpackStaticTable) with 62%nat in Ef; lia].
    destruct (encodes_indexed idx f Ho Ef) as (enc & He & Henc). exists enc. rewrite (nth_lookup_Some _ _ _ _ Ef). split; [done |].
    intros cache buf Hc. exists cache. by rewrite He.
Qed.

(** Decoding a run of field lines. *)
Lemma specLoop_encoded limit s ops : Forall op_ok ops ->
  exists block, bytes_ok block /\
    (forall cache buf, field_cache_ok cache -> exists cache', foldl encode_step (cache, buf) ops = (cache', buf ++ block) /\ field_cache_ok cache') /\
    forall headers fuel, (length block <= fuel)%nat -> zlen headers + zlen ops <= maxHeaders ->
      specLoop fuel limit s headers block = Some (Ok (headers ++ map op_field ops), s).
Proof.
  induction 1 as [| op ops Hop _ (block & Bok & Benc & Bdec)].
  { exists []. split; [constructor |]. split; [intros cache buf Hc; exists cache; by rewrite app_nil_r |].
    intros headers fuel _ _. rewrite app_nil_r. by destruct fuel. }
  destruct (encode_step_spec op Hop) as (enc & (Hok & b & tl & Etl & Hst) & Henc). exists (enc ++ block).
  split; [by apply Forall_app |]. split.
  - intros cache buf Hc. cbn [foldl]. destruct (Henc cache buf Hc) as (c1 & -> & Hc1). destruct (Benc c1 (buf ++ enc) Hc1) as (c2 & -> & Hc2).
    exists c2. by rewrite app_assoc.
  - intros headers fuel Hf Hn. rewrite zlen_cons in Hn. pose proof (zlen_nonneg ops). rewrite length_app in Hf. subst enc. simpl in Hf.
    destruct fuel as [| fuel]; [lia |]. cbn [specLoop app]. change (b :: tl ++ block) with ((b :: tl) ++ block).
    rewrite Hst by lia. rewrite Bdec by (rewrite ?zlen_snoc; lia). by rewrite <- app_assoc.
Qed.

(** C14: header blocks round-trip. Whatever the decoder's state and its caches
    hold, and whatever the process-wide field cache holds, decoding the block
    written by any sequence of at most 128 encoder calls (status, header in
    either variant, indexed field) gives exactly the fields of the calls in
    order, names lower-cased; the field cache stays valid and the decoder's
    table is unchanged. *)
Theorem hpack_roundtrip hash limit d s cache ops :
  0 <= limit < 2 ^ 32 -> decoder_ok limit d s -> field_cache_ok cache -> Forall op_ok ops -> zlen ops <= maxHeaders ->
  exists cache' block d', foldl encode_step (cache, []) ops = (cache', block) /\ field_cache_ok cache' /\
    DecodeInto hash d block = Some (Ok (map op_field ops), d') /\ decoder_ok limit d' s.
Proof.
  intros Hlim Hd Hc Hops Hn. destruct (specLoop_encoded limit s ops Hops) as (block & Bok & Benc & Bdec).
  destruct (Benc cache [] Hc) as (cache' & E & Hc'). exists cache', block.
  destruct (decodeLoop_refines hash limit (length block) d s [] block Hlim (le_n _) Hd Bok ltac:(done)) as (r & d' & s' & E1 & E2 & Hd' & _).
  rewrite Bdec in E2 by (done || (change (zlen (@nil field)) with 0; lia)). injection E2 as <- <-. by exists d'.
Qed.

Definition demo_enc : list encOp :=
  [OpStatus 200; OpStatus 418; OpHeader (str "Content-Type") (str "text/html; charset=utf-8"); OpHeaderFold (str "X-Request-ID") (str "a1");
   OpHeaderFold (str "Server") (str "alos"); OpHeaderFold (str "SERVER") (str "alos"); OpIndexed 16].

Lemma hpack_roundtrip_witness : exists cache' block d',
  foldl encode_step (newFieldCache, []) demo_enc = (cache', block) /\
  DecodeInto (fun _ => 7) (newHpackDecoder 4096) block
  = Some (Ok [(str ":status", str "200"); (str ":status", str "418"); (str "content-type", str "text/html; charset=utf-8");
              (str "x-request-id", str "a1"); (str "server", str "alos"); (str "server", str "alos");
              (str "accept-encoding", str "gzip, deflate")], d').
Proof.
  assert (Hl : 0 <= 4096 < 2 ^ 32) by lia. assert (Hl0 : 0 <= 4096) by lia.
  assert (Hc : field_cache_ok newFieldCache) by (apply Forall_replicate; exact I).
  assert (Ho : Forall op_ok demo_enc) by (repeat constructor; vm_compute; (discriminate || reflexivity)).
  assert (Hz : zlen demo_enc <= maxHeaders) by (vm_compute; discriminate).
  destruct (hpack_roundtrip (fun _ => 7) 4096 _ _ newFieldCache demo_enc Hl (newHpackDecoder_ok 4096 Hl0) Hc Ho Hz) as (cache' & block & d' & E & _ & D & _).
  exists cache', block, d'. split; [exact E | exact D].
Defined.
