(* ===== verification/H1Scan.v ===== *)
(** Scanning of HTTP/1 header lines (src/core/h1scan.go, h1scan_amd64.go and
    the token table of h1_plain.go). The word-at-a-time scan reads eight bytes
    as one little-endian word and filters the candidate bytes of a bit mask.
    The AVX2 assembly routine is a section variable. *)
From stdpp Require Import base list numbers list_numbers.
From Stdlib Require Import ZArith Lia ZifyBool.
From S2P Require Import Prelude.

(** ** Byte classes *)

Definition isH1Special (c : Z) : bool := ((c <? 0x20) && negb (c =? 9)) || (c =? 0x7f).

(** [h1TokenChar]: letters, digits and the punctuation of a token. *)
Definition tokenPunct : bytes := [33; 35; 36; 37; 38; 39; 42; 43; 45; 46; 94; 95; 96; 124; 126].
Definition h1TokenChar (c : Z) : bool :=
  ((97 <=? c) && (c <=? 122)) || ((65 <=? c) && (c <=? 90)) || ((48 <=? c) && (c <=? 57)) || existsb (Z.eqb c) tokenPunct.

(** ** The scan for control characters *)

Definition classifyH1Special (p : bytes) (i : Z) : Z * bool :=
  if znth p i =? 13 then
    if i + 1 =? zlen p then (-1, false) else
    if znth p (i + 1) =? 10 then (i, false) else (i, true)
  else (i, true).

Definition classifyFirstSpecial (p : bytes) (i : Z) : Z * bool :=
  if i <? 0 then (-1, false) else classifyH1Special p i.

Definition swarOnes : Z := 0x0101010101010101.
Definition swarHigh : Z := 0x8080808080808080.

(** [a &^ b] on 64-bit words. *)
Definition andnot (a b : Z) : Z := Z.land a (Z.lxor b (2 ^ 64 - 1)).

(** [binary.LittleEndian.Uint64] of the first eight bytes. *)
Fixpoint le_val (l : bytes) : Z := match l with [] => 0 | b :: l => b + 256 * le_val l end.

(** The candidate mask of a word: bytes below 0x20 and bytes equal to 0x7f
    have their high bit set, and perhaps others after a borrow. *)
Definition swar_mask (w : Z) : Z :=
  let below := Z.land (andnot (u64 (w - 0x20 * swarOnes)) w) swarHigh in
  let del := Z.lxor w (0x7f * swarOnes) in
  let del := Z.land (andnot (u64 (del - swarOnes)) del) swarHigh in
  Z.lor below del.

(** [bits.TrailingZeros64]. *)
Fixpoint trailing (p : positive) : Z := match p with xO p => 1 + trailing p | _ => 0 end.
Definition TrailingZeros64 (m : Z) : Z := match m with Zpos p => trailing p | _ => 64 end.

(** [for m := ...; m != 0; m &= m - 1]: the candidates of the block, lowest
    first; at most eight bits of the mask are set. *)
Fixpoint maskLoop (fuel : nat) (block : bytes) (m : Z) : option Z :=
  match fuel with
  | O => None
  | S fuel =>
      if m =? 0 then None else
      let j := Z.shiftr (TrailingZeros64 m) 3 in
      if isH1Special (znth block j) then Some j else maskLoop fuel block (Z.land m (m - 1))
  end.

Fixpoint scanTail (p : bytes) (i : Z) : Z :=
  match p with
  | [] => -1
  | c :: p => if isH1Special c then i else scanTail p (i + 1)
  end.

Fixpoint swarLoop (fuel : nat) (p : bytes) (i : Z) : Z :=
  match fuel with
  | O => scanTail p i
  | S fuel =>
      if 8 <=? zlen p then
        match maskLoop 9 p (swar_mask (le_val (ztake 8 p))) with
        | Some j => i + j
        | None => swarLoop fuel (zdrop 8 p) (i + 8)
        end
      else scanTail p i
  end.
(** Every turn passes eight bytes. *)
Definition firstH1SpecialSWAR (p : bytes) : Z := swarLoop (length p) p 0.

Fixpoint nonTokenLoop (p : bytes) (i : Z) : Z :=
  match p with
  | [] => -1
  | c :: p => if negb (h1TokenChar c) then i else nonTokenLoop p (i + 1)
  end.
Definition firstNonTokenByte (p : bytes) : Z := nonTokenLoop p 0.

(** [(special, nameEnd)]. *)
Definition h1HeaderLineSWAR (p : bytes) : Z * Z :=
  let nameEnd := firstNonTokenByte p in
  if nameEnd <? 0 then (-1, -1) else
  let special := firstH1SpecialSWAR (zdrop nameEnd p) in
  if special <? 0 then (-1, nameEnd) else (nameEnd + special, nameEnd).

Definition avx2ScanMinLen : Z := 32.

Section Dispatch.
Context (hasAVX2 : bool) (h1HeaderLineAVX2 : bytes -> Z * Z).

Definition h1HeaderLineSpecials (p : bytes) : Z * Z :=
  if hasAVX2 && (avx2ScanMinLen <=? zlen p) then h1HeaderLineAVX2 p else h1HeaderLineSWAR p.
End Dispatch.

Definition validH1Colon (line : bytes) (nameEnd : Z) : bool :=
  (0 <? nameEnd) && (nameEnd <? zlen line) && (znth line nameEnd =? 58).

Definition isH1Token (b : bytes) : bool := negb (zlen b =? 0) && forallb h1TokenChar b.

Definition isOWS (c : Z) : bool := (c =? 32) || (c =? 9).
Fixpoint dropOWS (b : bytes) : bytes :=
  match b with
  | c :: b' => if isOWS c then dropOWS b' else b
  | [] => []
  end.
(** The second loop of [trimOWS] looks at the end: the same loop on the
    reversed bytes. *)
Definition trimOWS (b : bytes) : bytes := rev (dropOWS (rev (dropOWS b))).

(** ** The scalar scan of short lines *)

Definition validHostPunct : bytes := [45; 46; 95; 126; 37; 33; 36; 38; 39; 40; 41; 42; 43; 44; 59; 61; 58; 91; 93].
Definition invalidHostChar (c : Z) : Z :=
  if ((97 <=? c) && (c <=? 122)) || ((65 <=? c) && (c <=? 90)) || ((48 <=? c) && (c <=? 57)) || existsb (Z.eqb c) validHostPunct
  then 0 else 1.

Definition h1ClassToken : Z := 1.
Definition h1ClassHost : Z := 2.
Definition h1ClassSpecial : Z := 4.
Definition h1FieldClass (c : Z) : Z :=
  Z.lor (Z.lor (if h1TokenChar c then h1ClassToken else 0) (if invalidHostChar c =? 0 then h1ClassHost else 0))
        (if isH1Special c then h1ClassSpecial else 0).

Fixpoint scalarName (p : bytes) (i : Z) : option (Z * bytes) :=
  match p with
  | [] => None
  | c :: p' => if negb (Z.land (h1FieldClass c) h1ClassToken =? 0) then scalarName p' (i + 1) else Some (i, p)
  end.
Fixpoint skipOWS (p : bytes) (i : Z) : Z * bytes :=
  match p with
  | c :: p' => if isOWS c then skipOWS p' (i + 1) else (i, p)
  | [] => (i, [])
  end.
Fixpoint scalarRest (p : bytes) (i nameEnd common : Z) : Z * Z * bool :=
  match p with
  | [] => (-1, nameEnd, false)
  | c :: p =>
      let class := h1FieldClass c in
      if negb (Z.land class h1ClassSpecial =? 0) then (i, nameEnd, negb (Z.land common h1ClassHost =? 0))
      else scalarRest p (i + 1) nameEnd (Z.land common class)
  end.
Definition h1HeaderLineScalar (p : bytes) : Z * Z * bool :=
  match scalarName p 0 with
  | None => (-1, -1, false)
  | Some (i, rest) =>
      let nameEnd := i in
      match rest with
      | 58 :: rest' => let '(i, rest) := skipOWS rest' (i + 1) in scalarRest rest i nameEnd 0xff
      | _ => scalarRest rest i nameEnd 0
      end
  end.

(** ** The mask misses no special byte *)

Definition byte (w k : Z) : Z := (w / 2 ^ (8 * k)) mod 256.

Lemma byte_range w k : 0 <= byte w k < 256.
Proof. apply Z.mod_pos_bound. lia. Qed.

Lemma testbit7 x : Z.testbit x 7 = (128 <=? x mod 256).
Proof.
  change 256 with (2 ^ 8). rewrite <- (Z.mod_pow2_bits_low x 8 7) by lia.
  pose proof (Z.mod_pos_bound x (2 ^ 8) ltac:(lia)) as H. set (y := x mod 2 ^ 8) in *.
  pose proof (byte_forall (fun b => eqb (Z.testbit b 7) (128 <=? b)) ltac:(vm_compute; reflexivity) y H) as E. by apply eqb_prop in E.
Qed.

(** The high bit of byte [k]. *)
Lemma high_bit w k : 0 <= k -> Z.testbit w (8 * k + 7) = (128 <=? byte w k).
Proof. intros Hk. unfold byte. rewrite <- testbit7, <- Z.shiftr_div_pow2, Z.shiftr_spec by lia. f_equal. lia. Qed.

(** Subtraction, one byte at a time: the byte, less the other, less a borrow. *)
Lemma byte_sub w v k : 0 <= k -> exists e, 0 <= e <= 1 /\ byte (w - v) k = (byte w k - byte v k - e) mod 256.
Proof.
  intros Hk. unfold byte. set (B := 2 ^ (8 * k)). assert (HB : 0 < B) by (apply Z.pow_pos_nonneg; lia).
  exists (w / B - v / B - (w - v) / B). split.
  - pose proof (Z.div_mod w B). pose proof (Z.div_mod v B). pose proof (Z.div_mod (w - v) B).
    pose proof (Z.mod_pos_bound w B HB). pose proof (Z.mod_pos_bound v B HB). pose proof (Z.mod_pos_bound (w - v) B HB). nia.
  - rewrite <- Zminus_mod_idemp_l. rewrite <- (Zminus_mod (w / B) (v / B)). rewrite Zminus_mod_idemp_l. f_equal. lia.
Qed.

Lemma byte_u64 x k : 0 <= k < 8 -> Z.testbit (u64 x) (8 * k + 7) = Z.testbit x (8 * k + 7).
Proof. intros Hk. unfold u64. apply Z.mod_pow2_bits_low. lia. Qed.

Lemma byte_lxor w v k : 0 <= k -> byte (Z.lxor w v) k = Z.lxor (byte w k) (byte v k).
Proof.
  intros Hk. unfold byte. change 256 with (2 ^ 8). rewrite <- !Z.shiftr_div_pow2, Z.shiftr_lxor, <- !Z.land_ones by lia.
  apply Z.bits_inj'. intros n Hn. rewrite !Z.land_spec, !Z.lxor_spec, !Z.land_spec. by destruct (Z.testbit (Z.shiftr w _) n), (Z.testbit (Z.shiftr v _) n), (Z.testbit (Z.ones 8) n).
Qed.

Lemma andnot_bit a b n : 0 <= n < 64 -> Z.testbit (andnot a b) n = Z.testbit a n && negb (Z.testbit b n).
Proof.
  intros Hn. unfold andnot. rewrite Z.land_spec, Z.lxor_spec. replace (2 ^ 64 - 1) with (Z.ones 64) by done.
  rewrite Z.ones_spec_low by lia. by rewrite xorb_true_r.
Qed.

Lemma swar_const k : 0 <= k < 8 ->
  byte (0x20 * swarOnes) k = 0x20 /\ byte (0x7f * swarOnes) k = 0x7f /\ byte swarOnes k = 1 /\ Z.testbit swarHigh (8 * k + 7) = true.
Proof.
  intros Hk. assert (H : k = 0 \/ k = 1 \/ k = 2 \/ k = 3 \/ k = 4 \/ k = 5 \/ k = 6 \/ k = 7) by lia.
  repeat destruct H as [-> | H]; try subst k; vm_compute; repeat split.
Qed.

(** A byte [b] whose subtrahend is [c > b], with [b] and [c - b] small, keeps
    its high bit after the subtraction. *)
Lemma borrow_bit w v k : 0 <= k < 8 -> byte w k < byte v k -> byte v k <= 0x7f ->
  Z.testbit (andnot (u64 (w - v)) w) (8 * k + 7) = true.
Proof.
  intros Hk Hlt Hv. rewrite andnot_bit, byte_u64, !high_bit by lia. destruct (byte_sub w v k) as (e & He & ->); [lia |].
  pose proof (byte_range w k). rewrite <- (Z.mod_unique (byte w k - byte v k - e) 256 (-1) (byte w k - byte v k - e + 256)) by lia.
  replace (128 <=? byte w k) with false by lia. cbn [negb]. rewrite andb_true_r. lia.
Qed.

Lemma mask_special w k : 0 <= k < 8 -> isH1Special (byte w k) = true -> Z.testbit (swar_mask w) (8 * k + 7) = true.
Proof.
  intros Hk Hs. destruct (swar_const k Hk) as (C1 & C2 & C3 & C4). unfold swar_mask.
  rewrite Z.lor_spec, !Z.land_spec, C4, !andb_true_r. pose proof (byte_range w k). unfold isH1Special in Hs.
  destruct (byte w k <? 0x20) eqn:E.
  - rewrite (borrow_bit w (0x20 * swarOnes) k); [done | lia | lia | lia].
  - apply orb_true_iff. right. apply borrow_bit; [lia | | lia]. rewrite byte_lxor, C2, C3 by lia.
    cbn [andb orb] in Hs. replace (byte w k) with 0x7f by lia. rewrite Z.lxor_nilpotent. lia.
Qed.

(** Only the high bits of the eight bytes can be set. *)
Lemma mask_bits_high n : Z.testbit swarHigh n = true -> exists k, 0 <= k < 8 /\ n = 8 * k + 7.
Proof.
  intros H.
  destruct (decide (0 <= n < 64)) as [Hn | Hn].
  - assert (E : forallb (fun n => negb (Z.testbit swarHigh n) || (n mod 8 =? 7)) (seqZ 0 64) = true) by (vm_compute; reflexivity).
    rewrite forallb_forall in E. specialize (E n). rewrite <- list_elem_of_In, elem_of_seqZ, H in E. specialize (E ltac:(lia)). cbn [negb orb] in E.
    exists (n / 8). pose proof (Z.div_mod n 8). pose proof (Z.div_pos n 8). pose proof (Z.div_lt_upper_bound n 8 8). lia.
  - exfalso. destruct (decide (n < 0)); [by rewrite Z.testbit_neg_r in H by lia |].
    rewrite Z.bits_above_log2 in H; [done | done |]. change (Z.log2 swarHigh) with 63. lia.
Qed.

Lemma mask_bits w n : Z.testbit (swar_mask w) n = true -> exists k, 0 <= k < 8 /\ n = 8 * k + 7.
Proof.
  intros H. unfold swar_mask in H. rewrite Z.lor_spec, !Z.land_spec, <- andb_orb_distrib_l in H. apply andb_true_iff in H as [_ H].
  by apply mask_bits_high.
Qed.

Lemma swar_mask_nonneg w : 0 <= w -> 0 <= swar_mask w.
Proof. intros Hw. unfold swar_mask. apply Z.lor_nonneg. split; apply Z.land_nonneg; right; unfold swarHigh; lia. Qed.

(** ** The loop over the set bits *)

Lemma trailing_odd p : exists q, 0 <= q /\ Zpos p = (2 * q + 1) * 2 ^ trailing p /\ 0 <= trailing p.
Proof.
  induction p as [p _ | p (q & Hq & E & Ht) |].
  - exists (Zpos p). simpl trailing. rewrite Z.pow_0_r. lia.
  - exists q. cbn [trailing]. rewrite Z.pow_add_r by lia. split; [done |]. split; [| lia]. rewrite Pos2Z.inj_xO, E. ring.
  - exists 0. done.
Qed.

Lemma lowest_bit m : 0 < m -> let t := TrailingZeros64 m in
  0 <= t /\ Z.testbit m t = true /\ (forall n, n < t -> Z.testbit m n = false) /\
  forall n, Z.testbit (Z.land m (m - 1)) n = Z.testbit m n && negb (n =? t).
Proof.
  intros Hm. destruct m as [| p |]; try lia. cbn [TrailingZeros64]. destruct (trailing_odd p) as (q & Hq & E & Ht). set (t := trailing p) in *.
  assert (Hp : 0 < 2 ^ t) by (apply Z.pow_pos_nonneg; lia).
  assert (Hhi : forall n, t <= n -> Z.testbit (Zpos p) n = Z.testbit (2 * q + 1) (n - t)).
  { intros n Hn. rewrite E, <- Z.shiftl_mul_pow2, Z.shiftl_spec by lia. done. }
  assert (Hlo : forall n, n < t -> Z.testbit (Zpos p) n = false).
  { intros n Hn. rewrite E. apply Z.mul_pow2_bits_low. lia. }
  assert (Hpred : forall n, t <= n -> Z.testbit (Zpos p - 1) n = Z.testbit (2 * q) (n - t)).
  { intros n Hn. replace (Z.testbit (2 * q) (n - t)) with (Z.testbit ((Zpos p - 1) / 2 ^ t) (n - t)).
    - rewrite <- Z.shiftr_div_pow2, Z.shiftr_spec by lia. f_equal. lia.
    - f_equal. symmetry. apply Z.div_unique with (2 ^ t - 1); [left; lia | rewrite E; ring]. }
  cbv zeta. split; [done |]. split; [rewrite Hhi, Z.sub_diag by lia; apply Z.testbit_odd_0 |]. split; [done |].
  intros n. rewrite Z.land_spec. destruct (decide (n < t)) as [Hn | Hn]; [by rewrite Hlo |].
  rewrite Hhi, Hpred by lia. destruct (n =? t) eqn:En.
  - replace (n - t) with 0 by lia. cbn [negb]. by rewrite Z.testbit_even_0, !andb_false_r.
  - cbn [negb]. rewrite andb_true_r. replace (n - t) with (Z.succ (n - t - 1)) by lia.
    rewrite Z.testbit_odd_succ, Z.testbit_even_succ by lia. apply andb_diag.
Qed.

(** The first special byte of a block of eight, or none. *)
Definition first_special (block : bytes) (r : option Z) : Prop :=
  match r with
  | Some j => 0 <= j < 8 /\ isH1Special (znth block j) = true /\ forall k, 0 <= k < j -> isH1Special (znth block k) = false
  | None => forall k, 0 <= k < 8 -> isH1Special (znth block k) = false
  end.

Lemma maskLoop_spec fuel block m k0 : 0 <= k0 <= 8 -> (Z.to_nat (8 - k0) < fuel)%nat -> 0 <= m ->
  (forall n, Z.testbit m n = true -> exists k, k0 <= k < 8 /\ n = 8 * k + 7) ->
  (forall k, k0 <= k < 8 -> isH1Special (znth block k) = true -> Z.testbit m (8 * k + 7) = true) ->
  (forall k, 0 <= k < k0 -> isH1Special (znth block k) = false) -> first_special block (maskLoop fuel block m).
Proof.
  revert m k0. induction fuel as [| fuel IH]; intros m k0 Hk0 Hf Hm Hbits Hall Hbefore; [lia |]. cbn [maskLoop].
  destruct (m =? 0) eqn:E0.
  { intros k Hk. destruct (decide (k < k0)); [apply Hbefore; lia |]. destruct (isH1Special (znth block k)) eqn:Es; [| done].
    apply Hall in Es; [| lia]. replace m with 0 in Es by lia. by rewrite Z.bits_0 in Es. }
  destruct (lowest_bit m) as (Ht0 & Ht & Hlow & Hclear); [lia |]. set (t := TrailingZeros64 m) in *.
  destruct (Hbits t Ht) as (j & Hj & Etj). assert (Ej : Z.shiftr t 3 = j).
  { rewrite Z.shiftr_div_pow2 by lia. rewrite Etj. symmetry. apply Z.div_unique with 7; lia. }
  rewrite Ej. assert (Hmid : forall k, 0 <= k < j -> isH1Special (znth block k) = false).
  { intros k Hk. destruct (decide (k < k0)); [apply Hbefore; lia |]. destruct (isH1Special (znth block k)) eqn:Es; [| done].
    apply Hall in Es; [| lia]. rewrite Hlow in Es by lia. done. }
  destruct (isH1Special (znth block j)) eqn:Es; [split; [lia | done] |].
  apply (IH _ (j + 1)); [lia | lia | apply Z.land_nonneg; lia | | |].
  - intros n Hn. rewrite Hclear in Hn. apply andb_true_iff in Hn as [H1 H2]. destruct (Hbits n H1) as (k & Hk & ->).
    exists k. split; [| done]. assert (j <= k); [| lia]. apply Z.nlt_ge. intros Hlt. rewrite Hlow in H1 by lia. done.
  - intros k Hk Hs. rewrite Hclear, Hall by (done || lia). lia.
  - intros k Hk. destruct (decide (k = j)) as [-> | Hne]; [done | apply Hmid; lia].
Qed.

(** ** The word scan is the linear scan *)

Lemma byte_cons b v k : is_u8 b -> 0 <= k -> byte (b + 256 * v) k = if k =? 0 then b else byte v (k - 1).
Proof.
  intros Hb Hk. unfold byte, is_u8 in *. destruct (k =? 0) eqn:E.
  - replace k with 0 by lia. rewrite Z.mul_0_r, Z.pow_0_r, Z.div_1_r, (Z.mul_comm 256), Z.mod_add by lia. apply Z.mod_small. lia.
  - replace (8 * k) with (8 + 8 * (k - 1)) by lia. rewrite Z.pow_add_r, <- Z.div_div by (lia || (apply Z.pow_pos_nonneg; lia)).
    change (2 ^ 8) with 256. rewrite (Z.mul_comm 256), Z.div_add by lia. rewrite (Z.div_small b 256) by lia. done.
Qed.

Lemma byte_le l k : bytes_ok l -> 0 <= k < zlen l -> byte (le_val l) k = znth l k.
Proof.
  intros Hl. revert k. induction Hl as [| b l Hb _ IH]; intros k Hk; [change (zlen (@nil Z)) with 0 in Hk; lia |].
  rewrite zlen_cons in Hk. cbn [le_val]. rewrite byte_cons by (done || lia). destruct (k =? 0) eqn:E.
  - replace k with 0 by lia. done.
  - rewrite IH by lia. unfold znth. replace (Z.to_nat k) with (S (Z.to_nat (k - 1))) by lia. done.
Qed.

(** Little-endian words, byte by byte. *)
Lemma lxor_u8 b1 b2 : is_u8 b1 -> is_u8 b2 -> is_u8 (Z.lxor b1 b2).
Proof.
  assert (Hl : forall b, is_u8 b -> Z.log2 b < 8).
  { intros b Hb. unfold is_u8 in Hb. destruct (decide (b = 0)) as [-> | Hn]; [done |]. apply Z.log2_lt_pow2; lia. }
  intros H1 H2. pose proof (Hl b1 H1). pose proof (Hl b2 H2). unfold is_u8 in *. split; [apply Z.lxor_nonneg; lia |].
  apply Z.log2_lt_cancel. change (Z.log2 (2 ^ 8)) with 8. eapply Z.le_lt_trans; [apply Z.log2_lxor; lia | lia].
Qed.

Lemma lxor_cons b1 v1 b2 v2 : is_u8 b1 -> is_u8 b2 ->
  Z.lxor (b1 + 256 * v1) (b2 + 256 * v2) = Z.lxor b1 b2 + 256 * Z.lxor v1 v2.
Proof.
  intros H1 H2. assert (Hb : forall b v, is_u8 b -> b + 256 * v = Z.lor (Z.shiftl v 8) b).
  { intros b v Hb. rewrite Z.shiftl_mul_pow2 by lia. rewrite lor_disjoint by (done || lia). lia. }
  pose proof (lxor_u8 b1 b2 H1 H2) as Hx. rewrite !Hb by done. apply Z.bits_inj'. intros n Hn. rewrite !Z.lxor_spec, !Z.lor_spec, !Z.shiftl_spec, !Z.lxor_spec by lia.
  destruct (decide (n < 8)) as [Hlt | Hge].
  - by rewrite !(Z.testbit_neg_r _ (n - 8)) by lia.
  - assert (Hhi : forall b, is_u8 b -> Z.testbit b n = false).
    { intros b Hu. unfold is_u8 in Hu. rewrite <- (Z.mod_small b (2 ^ 8)) by lia. apply Z.mod_pow2_bits_high. lia. }
    rewrite !Hhi by done. by rewrite !orb_false_r.
Qed.

Lemma le_val_nonneg l : bytes_ok l -> 0 <= le_val l.
Proof. induction 1 as [| b l Hb _ IH]; cbn; [lia | unfold is_u8 in Hb; lia]. Qed.

Lemma le_val_inj l1 l2 : bytes_ok l1 -> bytes_ok l2 -> length l1 = length l2 -> le_val l1 = le_val l2 -> l1 = l2.
Proof.
  intros H1. revert l2. induction H1 as [| b1 l1 Hb1 _ IH]; intros [| b2 l2] H2 Hl E; try done. apply Forall_cons_1 in H2 as [Hb2 H2].
  cbn [le_val] in E. unfold is_u8 in *. assert (b1 = b2 /\ le_val l1 = le_val l2) as [-> E'] by lia. f_equal. apply IH; [done | by simplify_eq/= | done].
Qed.

Lemma znth_take n (p : bytes) k : 0 <= k < n -> znth (ztake n p) k = znth p k.
Proof.
  intros Hk. unfold znth, ztake. rewrite !nth_lookup, lookup_take_lt by lia. done.
Qed.

Lemma scan_word p : bytes_ok p -> 8 <= zlen p -> first_special p (maskLoop 9 p (swar_mask (le_val (ztake 8 p)))).
Proof.
  intros Hp Hl. assert (Hb : forall k, 0 <= k < 8 -> byte (le_val (ztake 8 p)) k = znth p k).
  { intros k Hk. rewrite byte_le, znth_take; [done | lia | by apply Forall_take | rewrite zlen_take; lia]. }
  apply (maskLoop_spec 9 p _ 0); [lia | lia | | | | lia].
  - apply swar_mask_nonneg. assert (H : bytes_ok (ztake 8 p)) by (by apply Forall_take). clear Hb. revert H. generalize (ztake 8 p). clear.
    induction 1 as [| b l Hb _ IH]; simpl; [lia | unfold is_u8 in Hb; lia].
  - intros n Hn. apply mask_bits in Hn as (k & Hk & ->). by exists k.
  - intros k Hk Hs. apply mask_special; [done |]. by rewrite Hb.
Qed.

Lemma scanTail_shift p i : scanTail p i = if scanTail p 0 <? 0 then -1 else i + scanTail p 0.
Proof.
  revert i. assert (H : forall p i j, scanTail p i = -1 /\ scanTail p j = -1 \/ scanTail p i - i = scanTail p j - j /\ i <= scanTail p i).
  { clear p. induction p as [| c p IH]; intros i j; cbn [scanTail]; [by left |]. destruct (isH1Special c); [right; lia |].
    destruct (IH (i + 1) (j + 1)) as [? | ?]; [by left | right; lia]. }
  intros i. destruct (H p 0 i) as [[E1 E2] | [E1 E2]]; destruct (scanTail p 0 <? 0) eqn:E; lia.
Qed.

Lemma scanTail_skip n p i : (n <= length p)%nat -> (forall k, 0 <= k < Z.of_nat n -> isH1Special (znth p k) = false) ->
  scanTail p i = scanTail (drop n p) (i + Z.of_nat n).
Proof.
  revert p i. induction n as [| n IH]; intros p i Hl Hs; [simpl; f_equal; lia |]. destruct p as [| c p]; [simpl in Hl; lia |]. simpl in Hl.
  cbn [scanTail drop]. pose proof (Hs 0 ltac:(lia)) as H0. change (znth (c :: p) 0) with c in H0. rewrite H0, IH; [f_equal; lia | lia |].
  intros k Hk. specialize (Hs (k + 1)). unfold znth in *. replace (Z.to_nat (k + 1)) with (S (Z.to_nat k)) in Hs by lia. apply Hs. lia.
Qed.

Lemma scanTail_at p j i : 0 <= j < zlen p -> isH1Special (znth p j) = true -> (forall k, 0 <= k < j -> isH1Special (znth p k) = false) ->
  scanTail p i = i + j.
Proof.
  intros Hj Hs Hb. unfold zlen in Hj. rewrite (scanTail_skip (Z.to_nat j)) by (lia || (intros k Hk; apply Hb; lia)).
  destruct (drop (Z.to_nat j) p) as [| c q] eqn:E; [apply (f_equal length) in E; rewrite length_drop in E; simpl in E; lia |].
  assert (Ec : znth p j = c).
  { unfold znth. rewrite nth_lookup. replace (p !! Z.to_nat j) with (drop (Z.to_nat j) p !! 0%nat) by (rewrite lookup_drop; f_equal; lia). by rewrite E. }
  cbn [scanTail]. rewrite <- Ec, Hs. lia.
Qed.

Lemma swarLoop_spec fuel p i : bytes_ok p -> swarLoop fuel p i = scanTail p i.
Proof.
  revert p i. induction fuel as [| fuel IH]; intros p i Hp; [done |]. cbn [swarLoop]. destruct (8 <=? zlen p) eqn:E; [| done].
  pose proof (scan_word p Hp ltac:(lia)) as Hw. destruct (maskLoop _ _ _) as [j |].
  - destruct Hw as (Hj & Hs & Hb). symmetry. apply scanTail_at; [lia | done | done].
  - rewrite IH by (by apply Forall_drop). symmetry. unfold zlen in E. apply (scanTail_skip 8); [lia | exact Hw].
Qed.

(** ** The scalar scan agrees *)

Lemma class_bits c : negb (Z.land (h1FieldClass c) h1ClassToken =? 0) = h1TokenChar c /\
  negb (Z.land (h1FieldClass c) h1ClassSpecial =? 0) = isH1Special c /\
  negb (Z.land (h1FieldClass c) h1ClassHost =? 0) = (invalidHostChar c =? 0).
Proof. unfold h1FieldClass. by destruct (h1TokenChar c), (invalidHostChar c =? 0), (isH1Special c). Qed.

Lemma scalarName_spec p i : 0 <= i ->
  (scalarName p i = None /\ nonTokenLoop p i = -1) \/
  exists k, (k < length p)%nat /\ nonTokenLoop p i = i + Z.of_nat k /\ scalarName p i = Some (i + Z.of_nat k, drop k p).
Proof.
  revert i. induction p as [| c p IH]; intros i Hi; [by left |]. cbn [scalarName nonTokenLoop]. destruct (class_bits c) as (-> & _ & _).
  destruct (h1TokenChar c); cbn [negb].
  - destruct (IH (i + 1)) as [H | (k & Hk & E1 & E2)]; [lia | by left |]. right. exists (S k). rewrite E1, E2.
    replace (i + 1 + Z.of_nat k) with (i + Z.of_nat (S k)) by lia. split; [simpl; lia | done].
  - right. exists 0%nat. split; [simpl; lia |]. by rewrite Z.add_0_r.
Qed.

Definition hostByte (c : Z) : bool := invalidHostChar c =? 0.

Lemma scalarRest_spec p i ne common : 0 <= i ->
  let s := scanTail p i in
  scalarRest p i ne common =
    (s, ne, (0 <=? s) && negb (Z.land common h1ClassHost =? 0) && forallb hostByte (ztake (s - i) p)).
Proof.
  revert i common. induction p as [| c p IH]; intros i common Hi; [done |]. cbn [scalarRest scanTail].
  destruct (class_bits c) as (_ & -> & Hh). destruct (isH1Special c) eqn:Es; cbv zeta.
  - rewrite Z.sub_diag. replace (0 <=? i) with true by lia. simpl. by rewrite andb_true_r.
  - rewrite IH by lia. cbv zeta. set (s := scanTail p (i + 1)). assert (Hs : s = -1 \/ i + 1 <= s).
    { unfold s. rewrite scanTail_shift. destruct (scanTail p 0 <? 0) eqn:E; lia. }
    destruct Hs as [-> | Hs]; [done |]. f_equal. replace (0 <=? s) with true by lia. cbn [andb].
    unfold ztake. replace (Z.to_nat (s - i)) with (S (Z.to_nat (s - (i + 1)))) by lia. cbn [take forallb].
    unfold hostByte at 2. rewrite <- Hh. assert (Hc : negb (Z.land (Z.land common (h1FieldClass c)) h1ClassHost =? 0)
      = negb (Z.land common h1ClassHost =? 0) && negb (Z.land (h1FieldClass c) h1ClassHost =? 0)).
    { assert (Hb : forall x, (Z.land x h1ClassHost =? 0) = negb (Z.testbit x 1)).
      { intros x. change h1ClassHost with (2 ^ 1). rewrite Z.land_comm. destruct (Z.testbit x 1) eqn:E; cbn [negb].
        - apply Z.eqb_neq. intros H0. apply (f_equal (fun z => Z.testbit z 1)) in H0. by rewrite Z.land_spec, E in H0.
        - apply Z.eqb_eq. apply Z.bits_inj'. intros n Hn. rewrite Z.land_spec, Z.bits_0, Z.pow2_bits_eqb by lia. destruct (1 =? n) eqn:En; [| done].
          by replace n with 1 by lia. }
      rewrite !Hb, Z.land_spec. by destruct (Z.testbit common 1), (Z.testbit _ 1). }
    rewrite Hc. by rewrite andb_assoc.
Qed.

Lemma isOWS_plain c : isOWS c = true -> isH1Special c = false.
Proof. unfold isOWS, isH1Special. lia. Qed.

(** Skipping white space passes no special byte. *)
Lemma skipOWS_spec p i : 0 <= i ->
  let '(i', p') := skipOWS p i in
  scanTail p' i' = scanTail p i /\ i <= i' /\ (0 <= scanTail p i -> ztake (scanTail p i - i') p' = dropOWS (ztake (scanTail p i - i) p)).
Proof.
  revert i. induction p as [| c p IH]; intros i Hi; cbn [skipOWS].
  { split; [done |]. split; [lia |]. simpl. lia. }
  destruct (isOWS c) eqn:Ec.
  - specialize (IH (i + 1) ltac:(lia)). destruct (skipOWS p (i + 1)) as [i' p']. cbn [scanTail]. rewrite (isOWS_plain c Ec).
    destruct IH as (E1 & Hi' & E2). split; [done |]. split; [lia |]. intros Hs. specialize (E2 Hs). rewrite E2.
    assert (i + 1 <= scanTail p (i + 1)) by (rewrite scanTail_shift in *; destruct (scanTail p 0 <? 0) eqn:E; lia).
    unfold ztake. replace (Z.to_nat (scanTail p (i + 1) - i)) with (S (Z.to_nat (scanTail p (i + 1) - (i + 1)))) by lia.
    cbn [take dropOWS]. by rewrite Ec.
  - split; [done |]. split; [lia |]. intros Hs. set (s := scanTail (c :: p) i) in *. unfold ztake. destruct (Z.to_nat (s - i)); cbn [take dropOWS]; [done | by rewrite Ec].
Qed.

(** The three scans of a header line agree. For every byte string, the
    word-at-a-time search finds the first control character exactly as a
    byte-by-byte search does; the scalar scan used for short lines returns
    the same positions, and its third result says exactly whether the line
    has a colon after its name and every byte of the value (after leading
    white space) is allowed in a host. *)
Theorem h1_scans_agree p : bytes_ok p ->
  firstH1SpecialSWAR p = scanTail p 0 /\
  let '(special, nameEnd, hostSafe) := h1HeaderLineScalar p in
  (special, nameEnd) = h1HeaderLineSWAR p /\
  hostSafe = (0 <=? special) && (znth p nameEnd =? 58) && forallb hostByte (dropOWS (zslice p (nameEnd + 1) special)).
Proof.
  intros Hp. split; [by apply swarLoop_spec |]. unfold h1HeaderLineScalar, h1HeaderLineSWAR, firstNonTokenByte.
  destruct (scalarName_spec p 0) as [[-> ->] | (k & Hk & E1 & ->)]; [lia | done |]. rewrite Z.add_0_l in *. rewrite E1.
  replace (Z.of_nat k <? 0) with false by lia. unfold firstH1SpecialSWAR, zdrop. rewrite Nat2Z.id, swarLoop_spec by (by apply Forall_drop).
  destruct (drop k p) as [| c rest] eqn:Ed; [apply (f_equal length) in Ed; rewrite length_drop in Ed; simpl in Ed; lia |].
  assert (Ec : znth p (Z.of_nat k) = c) by (unfold znth; rewrite Nat2Z.id, nth_lookup; replace (p !! k) with (drop k p !! 0%nat) by (rewrite lookup_drop; f_equal; lia); by rewrite Ed).
  assert (Er : drop (S k) p = rest) by (replace (S k) with (k + 1)%nat by lia; rewrite <- drop_drop, Ed; done).
  destruct (decide (c = 58)) as [-> | Hne].
  - pose proof (skipOWS_spec rest (Z.of_nat k + 1) ltac:(lia)) as Hsk. destruct (skipOWS rest (Z.of_nat k + 1)) as [i' rest'].
    destruct Hsk as (S1 & S2 & S3). rewrite scalarRest_spec by lia. cbv zeta. rewrite S1, Ec. set (s := scanTail rest (Z.of_nat k + 1)) in *.
    assert (Es : s = if scanTail (58 :: rest) 0 <? 0 then -1 else Z.of_nat k + scanTail (58 :: rest) 0).
    { rewrite <- scanTail_shift. done. }
    split; [rewrite Es; by destruct (_ <? 0) |]. change (negb (Z.land 255 h1ClassHost =? 0)) with true. rewrite andb_true_r. cbn [andb].
    destruct (0 <=? s) eqn:E0; [| done]. cbn [andb]. change (58 =? 58) with true. cbn [andb]. f_equal. rewrite S3 by lia. f_equal.
    unfold zslice, zdrop. replace (Z.to_nat (Z.of_nat k + 1)) with (S k) by lia. by rewrite Er.
  - assert (Hm : forall X Y : Z * Z * bool, match c with 58 => X | _ => Y end = Y) by (intros X Y; destruct c as [| q |]; try done; repeat (destruct q as [q | q |]; try done)).
    rewrite Hm. rewrite scalarRest_spec by lia. cbv zeta. rewrite Ec. replace (c =? 58) with false by lia. rewrite !andb_false_r. cbn [andb].
    split; [| done]. rewrite (scanTail_shift (c :: rest) (Z.of_nat k)). by destruct (_ <? 0).
Qed.

(** ["Host:\tex\x7f"]. *)
Lemma h1_scans_agree_witness :
  let p := [72; 111; 115; 116; 58; 9; 101; 120; 0x7f; 32; 32] in
  firstH1SpecialSWAR p = 8 /\ h1HeaderLineScalar p = (8, 4, true) /\ h1HeaderLineSWAR p = (8, 4).
Proof.
  cbv zeta. assert (Hp : bytes_ok [72; 111; 115; 116; 58; 9; 101; 120; 0x7f; 32; 32]) by (repeat constructor; lia).
  destruct (h1_scans_agree _ Hp) as [E H]. rewrite E. split; [reflexivity |].
  assert (Es : h1HeaderLineScalar [72; 111; 115; 116; 58; 9; 101; 120; 0x7f; 32; 32] = (8, 4, true)) by (vm_compute; reflexivity).
  rewrite Es in H. destruct H as [H _]. split; [exact Es | by rewrite <- H].
Defined.
