(* ===== verification/HttpText.v ===== *)
(** Checks on header values and request paths (src/core/utils.go and the path
    check of src/core/hpack.go): the word-at-a-time searches for forbidden
    bytes, the host check, and the normalisation of request paths. *)
From stdpp Require Import base list numbers list_numbers strings sets.
From Stdlib Require Import ZArith Lia ZifyBool.
From S2P Require Import Prelude Utils H1Scan.

Open Scope list_scope.
Open Scope Z_scope.

(** ** Words *)

(** [strings.IndexByte]. *)
Fixpoint indexFrom (s : bytes) (c i : Z) : Z :=
  match s with
  | [] => -1
  | x :: s => if x =? c then i else indexFrom s c (i + 1)
  end.
Definition IndexByte (s : bytes) (c : Z) : Z := indexFrom s c 0.

(** [binary.LittleEndian.Uint64(b[i:])]. *)
Definition word_at (b : bytes) (i : Z) : Z := le_val (ztake 8 (zdrop i b)).

Definition swarZeroBytes (v : Z) : Z := Z.land (andnot (u64 (v - swarOnes)) v) swarHigh.

(** [for i := 0; i < last; i += 8 { if f(word) return true }; return f(last)]:
    the words at multiples of eight, then the last eight bytes. *)
Fixpoint anyWord (fuel : nat) (f : Z -> bool) (b : bytes) (i last : Z) : bool :=
  match fuel with
  | O => f (word_at b last)
  | S fuel => if i <? last then if f (word_at b i) then true else anyWord fuel f b (i + 8) last else f (word_at b last)
  end.

Definition wordHasLineBreak (w nulMask : Z) : bool :=
  negb (Z.lor (Z.lor (swarZeroBytes (Z.lxor w (13 * swarOnes))) (swarZeroBytes (Z.lxor w (10 * swarOnes))))
          (Z.land (swarZeroBytes w) nulMask) =? 0).

Definition crlfInlineScanMax : Z := 32.
Definition lineBreakCRLF : Z := 0.
Definition lineBreakCRLFNUL : Z := swarHigh.

Definition containsLineBreak (s : bytes) (nulMask : Z) : bool :=
  if crlfInlineScanMax <? zlen s then
    (0 <=? IndexByte s 13) || (0 <=? IndexByte s 10) || (negb (nulMask =? 0) && (0 <=? IndexByte s 0))
  else if zlen s <? 8 then
    existsb (fun c => (c <=? 13) && ((c =? 13) || (c =? 10) || ((c =? 0) && negb (nulMask =? 0)))) s
  else anyWord (length s) (fun w => wordHasLineBreak w nulMask) s 0 (zlen s - 8).

Definition wordHasPathControl (w : Z) : bool :=
  negb (Z.lor (Z.land (andnot (u64 (w - 33 * swarOnes)) w) swarHigh) (swarZeroBytes (Z.lxor w (0x7f * swarOnes))) =? 0).

Definition isValidH2Path (path : bytes) : bool :=
  if zlen path <? 8 then forallb (fun c => negb ((c <? 33) || (c =? 0x7f))) path
  else negb (anyWord (length path) wordHasPathControl path 0 (zlen path - 8)).

(** [ValidateHost]: four accumulators, four bytes at a time, then the rest
    into the first. *)
Fixpoint hostLoop (host : bytes) (b0 b1 b2 b3 : Z) : Z * Z * Z * Z :=
  match host with
  | x0 :: x1 :: x2 :: x3 :: host =>
      hostLoop host (Z.lor b0 (invalidHostChar x0)) (Z.lor b1 (invalidHostChar x1))
                    (Z.lor b2 (invalidHostChar x2)) (Z.lor b3 (invalidHostChar x3))
  | _ => (fold_left (fun b x => Z.lor b (invalidHostChar x)) host b0, b1, b2, b3)
  end.
Definition ValidateHost (host : bytes) : bool :=
  let '(b0, b1, b2, b3) := hostLoop host 0 0 0 0 in Z.lor (Z.lor (Z.lor b0 b1) b2) b3 =? 0.

(** ** Request paths *)

Definition slash : Z := 47.
Definition dot : Z := 46.

Definition splitPathQuery (raw : bytes) : bytes * bytes :=
  let i := IndexByte raw 63 in if 0 <=? i then (ztake i raw, zdrop (i + 1) raw) else (raw, []).

(** [if i := strings.IndexByte(path, c); i >= 0 { path = path[:i] }]. *)
Definition cutAt (c : Z) (path : bytes) : bytes := let i := IndexByte path c in if 0 <=? i then ztake i path else path.

(** [strings.Contains(p, "//")]. *)
Fixpoint hasDoubleSlash (p : bytes) : bool :=
  match p with
  | x :: p => ((x =? slash) && match p with y :: _ => y =? slash | [] => false end) || hasDoubleSlash p
  | [] => false
  end.

(** The loop that looks for a slash followed by a slash or a dot. *)
Fixpoint needsSanitize (p : bytes) : bool :=
  match p with
  | x :: p => ((x =? slash) && match p with y :: _ => (y =? slash) || (y =? dot) | [] => false end) || needsSanitize p
  | [] => false
  end.

(** What one segment does to the segments kept. *)
Definition pushSegment (segments : list bytes) (seg : bytes) : list bytes :=
  if bool_decide (seg = [dot]) || bool_decide (seg = []) then segments
  else if bool_decide (seg = [dot; dot]) then (if 0 <? zlen segments then ztake (zlen segments - 1) segments else segments)
  else segments ++ [seg].

(** [for i := 1; i <= len(p); i++]: [rest] is [p[i:]], and the segment being
    read starts at [start]. *)
Fixpoint segmentLoop (rest p : bytes) (i start : Z) (segments : list bytes) : list bytes :=
  match rest with
  | [] => pushSegment segments (zslice p start i)
  | c :: rest =>
      if c =? slash then segmentLoop rest p (i + 1) (i + 1) (pushSegment segments (zslice p start i))
      else segmentLoop rest p (i + 1) start segments
  end.

Definition joinSegments (segments : list bytes) : bytes := fold_left (fun clean seg => (clean ++ [slash]) ++ seg) segments [].

Definition sanitizeSplitPath (p : bytes) : bytes :=
  if zlen p =? 0 then [slash]
  else if (znth p 0 =? slash) && (IndexByte p dot <? 0) && negb (hasDoubleSlash p) then p
  else if negb (negb (znth p 0 =? slash) || needsSanitize p) then p
  else
    let p := if (zlen p =? 0) || negb (znth p 0 =? slash) then slash :: p else p in
    let segments := segmentLoop (zdrop 1 p) p 1 1 [] in
    if zlen segments =? 0 then [slash] else joinSegments segments.

Definition sanitizeRequestPath (path : bytes) : bytes :=
  let path := cutAt 10 (cutAt 13 (cutAt 0 path)) in
  let '(p, _) := splitPathQuery path in sanitizeSplitPath p.

(** ** The word searches are exact *)

Lemma byte_sub_exact w v k : 0 <= k -> v mod 2 ^ (8 * k) <= w mod 2 ^ (8 * k) -> byte (w - v) k = (byte w k - byte v k) mod 256.
Proof.
  intros Hk Hle. unfold byte. set (B := 2 ^ (8 * k)) in *. assert (HB : 0 < B) by (apply Z.pow_pos_nonneg; lia).
  assert (Hd : (w - v) / B = w / B - v / B).
  { symmetry. apply Z.div_unique with (w mod B - v mod B); [left; pose proof (Z.mod_pos_bound w B HB); pose proof (Z.mod_pos_bound v B HB); lia |].
    pose proof (Z.div_mod w B). pose proof (Z.div_mod v B). lia. }
  rewrite Hd. by rewrite Zminus_mod.
Qed.

Lemma mod_next w k : 0 <= k -> w mod 2 ^ (8 * (k + 1)) = w mod 2 ^ (8 * k) + 2 ^ (8 * k) * byte w k.
Proof.
  intros Hk. unfold byte. replace (8 * (k + 1)) with (8 * k + 8) by lia. rewrite Z.pow_add_r by lia. change (2 ^ 8) with 256.
  rewrite Z.rem_mul_r by (try lia; apply Z.pow_nonzero; lia). lia.
Qed.

Lemma bytes_mono w v n : (forall j, 0 <= j < Z.of_nat n -> byte v j <= byte w j) -> v mod 2 ^ (8 * Z.of_nat n) <= w mod 2 ^ (8 * Z.of_nat n).
Proof.
  induction n as [| n IH]; intros H; [change (8 * Z.of_nat 0) with 0; rewrite Z.pow_0_r, !Z.mod_1_r; lia |].
  rewrite Nat2Z.inj_succ. unfold Z.succ. rewrite !mod_next by lia.
  assert (0 <= 2 ^ (8 * Z.of_nat n)) by (apply Z.pow_nonneg; lia). specialize (IH ltac:(intros j Hj; apply H; lia)). specialize (H (Z.of_nat n) ltac:(lia)). nia.
Qed.

(** The bytes of [c * swarOnes]. *)
Lemma byte_ones c k : 0 <= c < 256 -> 0 <= k < 8 -> byte (c * swarOnes) k = c.
Proof.
  intros Hc Hk. assert (H : forallb (fun k => forallb (fun c => byte (c * swarOnes) k =? c) (seqZ 0 256)) (seqZ 0 8) = true) by (vm_compute; reflexivity).
  rewrite forallb_forall in H. specialize (H k). rewrite <- list_elem_of_In, elem_of_seqZ in H. specialize (H ltac:(lia)).
  rewrite forallb_forall in H. specialize (H c). rewrite <- list_elem_of_In, elem_of_seqZ in H. specialize (H ltac:(lia)). lia.
Qed.

Definition below_mask (c w : Z) : Z := Z.land (andnot (u64 (w - c * swarOnes)) w) swarHigh.

Lemma below_mask_bit c w n : Z.testbit (below_mask c w) n = true -> exists k, 0 <= k < 8 /\ n = 8 * k + 7.
Proof.
  intros H. apply (mask_bits_high n). unfold below_mask in H. rewrite Z.land_spec in H. by apply andb_true_iff in H as [_ H].
Qed.

(** The mask is zero exactly when no byte is below [c]. *)
Lemma below_mask_zero c w : 0 < c <= 0x7f -> (below_mask c w =? 0) = forallb (fun k => c <=? byte w k) (seqZ 0 8).
Proof.
  intros Hc. destruct (forallb _ _) eqn:E.
  - rewrite forallb_forall in E. apply Z.eqb_eq. apply Z.bits_inj'. intros n Hn. rewrite Z.bits_0.
    destruct (Z.testbit (below_mask c w) n) eqn:Et; [| done]. exfalso. destruct (below_mask_bit _ _ _ Et) as (k & Hk & ->).
    assert (Hall : forall j, 0 <= j < 8 -> c <= byte w j).
    { intros j Hj. specialize (E j). rewrite <- list_elem_of_In, elem_of_seqZ in E. specialize (E ltac:(lia)). lia. }
    unfold below_mask in Et. rewrite Z.land_spec, andnot_bit, byte_u64, !high_bit in Et by lia.
    apply andb_true_iff in Et as [Et _]. apply andb_true_iff in Et as [E1 E2]. rewrite byte_sub_exact in E1; [| lia |].
    + rewrite byte_ones in E1 by lia. pose proof (byte_range w k). specialize (Hall k Hk). rewrite Z.mod_small in E1 by lia. lia.
    + replace k with (Z.of_nat (Z.to_nat k)) by lia. apply bytes_mono. intros j Hj. rewrite byte_ones by lia. apply Hall. lia.
  - apply Z.eqb_neq. intros H0. assert (Hx : exists k, 0 <= k < 8 /\ byte w k < c).
    { apply not_true_iff_false in E. destruct (existsb (fun k => byte w k <? c) (seqZ 0 8)) eqn:Ex.
      - apply existsb_exists in Ex as (k & Hin & Hk). apply list_elem_of_In, elem_of_seqZ in Hin. exists k. lia.
      - destruct E. apply forallb_forall. intros k Hin. apply not_true_iff_false in Ex. destruct (c <=? byte w k) eqn:Ek; [done |].
        destruct Ex. apply existsb_exists. exists k. split; [done | lia]. }
    destruct Hx as (k & Hk & Hb). assert (Ht : Z.testbit (below_mask c w) (8 * k + 7) = true).
    { unfold below_mask. rewrite Z.land_spec. destruct (swar_const k Hk) as (_ & _ & _ & ->). rewrite andb_true_r.
      apply borrow_bit; rewrite ?byte_ones by lia; lia. }
    rewrite H0, Z.bits_0 in Ht. done.
Qed.

Lemma forallb_ext' {A} (f g : A -> bool) l : (forall x, In x l -> f x = g x) -> forallb f l = forallb g l.
Proof. induction l as [| x l IH]; intros H; [done |]. cbn. rewrite (H x) by (by left). f_equal. apply IH. intros y Hy. apply H. by right. Qed.

Lemma existsb_ext' {A} (f g : A -> bool) l : (forall x, In x l -> f x = g x) -> existsb f l = existsb g l.
Proof. induction l as [| x l IH]; intros H; [done |]. cbn. rewrite (H x) by (by left). f_equal. apply IH. intros y Hy. apply H. by right. Qed.

Lemma negb_existsb {A} (f : A -> bool) l : negb (existsb f l) = forallb (fun x => negb (f x)) l.
Proof. induction l as [| x l IH]; [done |]. cbn. by rewrite negb_orb, IH. Qed.

Lemma existsb_orb {A} (f g : A -> bool) l : existsb (fun x => f x || g x) l = existsb f l || existsb g l.
Proof. induction l as [| x l IH]; [done |]. cbn. rewrite IH. by destruct (f x), (g x), (existsb f l). Qed.

(** The zero-byte mask of [w ^ c * ones] is empty exactly when no byte is [c]. *)
Lemma zero_mask_zero c w : 0 <= c < 256 -> (swarZeroBytes (Z.lxor w (c * swarOnes)) =? 0) = forallb (fun k => negb (byte w k =? c)) (seqZ 0 8).
Proof.
  intros Hc. change (swarZeroBytes (Z.lxor w (c * swarOnes))) with (below_mask 1 (Z.lxor w (c * swarOnes))). rewrite below_mask_zero by lia.
  apply forallb_ext'. intros k Hk. apply list_elem_of_In, elem_of_seqZ in Hk. rewrite byte_lxor, byte_ones by lia.
  pose proof (byte_range w k). assert (0 <= Z.lxor (byte w k) c) by (apply Z.lxor_nonneg; lia).
  destruct (byte w k =? c) eqn:E; cbn [negb].
  - apply Z.eqb_eq in E as ->. by rewrite Z.lxor_nilpotent.
  - apply Z.eqb_neq in E. assert (Z.lxor (byte w k) c <> 0) by (intros Hx0; by apply E, Z.lxor_eq). lia.
Qed.

Lemma lor_zero a b : (Z.lor a b =? 0) = (a =? 0) && (b =? 0).
Proof. apply eq_true_iff_eq. rewrite andb_true_iff, !Z.eqb_eq. apply Z.lor_eq_0_iff. Qed.

(** Reading the bytes of a word back gives the eight bytes it was loaded from. *)
Lemma bytes_of_word (l : bytes) : bytes_ok l -> zlen l = 8 -> map (byte (le_val l)) (seqZ 0 8) = l.
Proof.
  intros Hok Hl. transitivity (map (znth l) (seqZ 0 8)).
  - apply map_ext_in. intros k Hk. apply list_elem_of_In, elem_of_seqZ in Hk. apply byte_le; [done | lia].
  - do 8 (destruct l as [| ? l]; [by cbv in Hl |]). destruct l; [done | unfold zlen in Hl; cbn [length] in Hl; lia].
Qed.

Lemma word_forallb (P : Z -> bool) (l : bytes) : bytes_ok l -> zlen l = 8 -> forallb (fun k => P (byte (le_val l) k)) (seqZ 0 8) = forallb P l.
Proof.
  intros Hok Hl. transitivity (forallb P (map (byte (le_val l)) (seqZ 0 8))); [| by rewrite bytes_of_word].
  generalize (seqZ 0 8) as ks. induction ks as [| k ks IH]; [done |]. cbn. by rewrite IH.
Qed.

Lemma existsb_overlap {A} (f : A -> bool) (l : list A) m n : (m <= n)%nat -> existsb f (take n l) || existsb f (drop m l) = existsb f l.
Proof.
  intros Hmn. apply eq_true_iff_eq. rewrite orb_true_iff, !existsb_exists. setoid_rewrite <- list_elem_of_In. split.
  - intros [(x & Hx & Hf) | (x & Hx & Hf)]; exists x; (split; [| done]).
    + rewrite <- (take_drop n l), elem_of_app. by left.
    + rewrite <- (take_drop m l), elem_of_app. by right.
  - intros (x & Hx & Hf). rewrite <- (take_drop m l), elem_of_app in Hx. destruct Hx as [Hx | Hx]; [left | by right; exists x].
    exists x. split; [| done]. apply elem_of_take in Hx as (i & Hi & Hlt). apply elem_of_take. exists i. split; [done | lia].
Qed.

Section words.
  (** A word test that says whether one of the word's bytes is bad finds a bad
      byte anywhere in the string: the last word overlaps the one before. *)
  Context (f bad : Z -> bool).
  Hypothesis f_exact : forall l, bytes_ok l -> zlen l = 8 -> f (le_val l) = existsb bad l.

Lemma anyWord_spec b fuel i : bytes_ok b -> 8 <= zlen b -> 0 <= i -> zlen b - 8 - i <= 8 * Z.of_nat fuel ->
  anyWord fuel f b i (zlen b - 8) = existsb bad (zdrop (Z.min i (zlen b - 8)) b).
Proof.
  intros Hok Hl. assert (Hw : forall j, 0 <= j <= zlen b - 8 -> f (word_at b j) = existsb bad (ztake 8 (zdrop j b))).
  { intros j Hj. apply f_exact; [by apply Forall_take, Forall_drop |]. rewrite zlen_take; [done |]. rewrite zlen_drop by lia. lia. }
  assert (Hlast : f (word_at b (zlen b - 8)) = existsb bad (zdrop (zlen b - 8) b)).
  { rewrite Hw by lia. f_equal. unfold ztake. apply take_ge. pose proof (zlen_drop (zlen b - 8) b ltac:(lia)) as E. unfold zlen in E |- *. lia. }
  revert i. induction fuel as [| fuel IH]; intros i Hi Hf; cbn [anyWord]; [rewrite Z.min_r by lia; exact Hlast |].
  destruct (i <? zlen b - 8) eqn:E; [| rewrite Z.min_r by lia; exact Hlast].
  rewrite Hw, IH by lia. rewrite (Z.min_l i) by lia. rewrite <- (existsb_overlap bad (zdrop i b) (Z.to_nat (Z.min (i + 8) (zlen b - 8) - i)) 8) by lia.
  change (take 8 (zdrop i b)) with (ztake 8 (zdrop i b)). 
  destruct (existsb bad (ztake 8 _)); [done |]. cbn [orb]. f_equal. unfold zdrop. rewrite drop_drop. f_equal. lia.
Qed.

Lemma anyWord_exact b : bytes_ok b -> 8 <= zlen b -> anyWord (length b) f b 0 (zlen b - 8) = existsb bad b.
Proof. intros Hok Hl. rewrite anyWord_spec; [| done | done | lia | unfold zlen; lia]. by rewrite Z.min_l, zdrop_0 by lia. Qed.
End words.

Lemma indexFrom_found s c i : 0 <= i -> (0 <=? indexFrom s c i) = existsb (fun x => x =? c) s.
Proof. revert i. induction s as [| x s IH]; intros i Hi; [done |]. cbn. destruct (x =? c); cbn; [lia | apply IH; lia]. Qed.

(** What the line-break search looks for: CR, LF and, with [nul], NUL. *)
Definition isLineBreak (nul : bool) (c : Z) : bool := (c =? 13) || (c =? 10) || ((c =? 0) && nul).
Definition isPathControl (c : Z) : bool := (c <? 33) || (c =? 0x7f).

Lemma wordHasLineBreak_exact (nul : bool) l : bytes_ok l -> zlen l = 8 ->
  wordHasLineBreak (le_val l) (if nul then lineBreakCRLFNUL else lineBreakCRLF) = existsb (isLineBreak nul) l.
Proof.
  intros Hok Hl. unfold wordHasLineBreak. rewrite !lor_zero, !zero_mask_zero by lia.
  rewrite !(word_forallb (fun b => negb (b =? _))) by done. unfold isLineBreak. rewrite !existsb_orb, !negb_andb, <- !negb_existsb, !negb_involutive. f_equal.
  destruct nul; unfold lineBreakCRLFNUL, lineBreakCRLF.
  - unfold swarZeroBytes. rewrite <- Z.land_assoc, Z.land_diag. pose proof (zero_mask_zero 0 (le_val l) ltac:(lia)) as H.
    rewrite Z.lxor_0_r in H. unfold swarZeroBytes in H. rewrite H, (word_forallb (fun b => negb (b =? 0))), <- negb_existsb, negb_involutive by done.
    apply existsb_ext'. intros x _. by rewrite andb_true_r.
  - rewrite Z.land_0_r. cbn. clear. induction l as [| x l IH]; [done |]. cbn. by rewrite andb_false_r.
Qed.

Lemma wordHasPathControl_exact l : bytes_ok l -> zlen l = 8 -> wordHasPathControl (le_val l) = existsb isPathControl l.
Proof.
  intros Hok Hl. unfold wordHasPathControl. change (Z.land (andnot (u64 (le_val l - 33 * swarOnes)) (le_val l)) swarHigh) with (below_mask 33 (le_val l)).
  rewrite lor_zero, below_mask_zero, zero_mask_zero by lia. rewrite (word_forallb (fun b => negb (b =? _))), (word_forallb (fun b => 33 <=? b)) by done.
  unfold isPathControl. rewrite existsb_orb, negb_andb, <- negb_existsb, negb_involutive. f_equal.
  rewrite <- (negb_involutive (existsb _ l)), negb_existsb. f_equal. apply forallb_ext'. intros x _. lia.
Qed.

Lemma hostLoop_spec host b0 b1 b2 b3 :
  (let '(c0, c1, c2, c3) := hostLoop host b0 b1 b2 b3 in Z.lor (Z.lor (Z.lor c0 c1) c2) c3 =? 0) =
  (Z.lor (Z.lor (Z.lor b0 b1) b2) b3 =? 0) && forallb hostByte host.
Proof.
  remember (length host) as n eqn:En. revert host En b0 b1 b2 b3. induction n as [n IH] using lt_wf_ind. intros host -> b0 b1 b2 b3.
  do 4 (destruct host as [| ? host]; [cbn; rewrite !lor_zero; unfold hostByte; clear; lia |]).
  cbn [hostLoop forallb]. erewrite IH; [| | reflexivity]; [| cbn; lia]. rewrite !lor_zero. fold (hostByte z) (hostByte z0) (hostByte z1) (hostByte z2).
  generalize (forallb hostByte host) as r. clear. lia.
Qed.

(** The searches over header values, paths and hosts are exact at every
    length, whether a byte loop, a library search or eight bytes at a time with
    an overlapping last word: the line-break search reports a string exactly
    when it holds CR, LF or, where asked for, NUL; the HTTP/2 path check accepts
    exactly the strings without controls, spaces and DEL; and the host check
    accepts exactly the strings of host bytes. *)
Theorem text_checks_exact (s : bytes) (nul : bool) : bytes_ok s ->
  containsLineBreak s (if nul then lineBreakCRLFNUL else lineBreakCRLF) = existsb (isLineBreak nul) s /\
  isValidH2Path s = negb (existsb isPathControl s) /\ ValidateHost s = forallb hostByte s.
Proof.
  intros Hok. split; [| split].
  - unfold containsLineBreak. assert (Hn : negb ((if nul then lineBreakCRLFNUL else lineBreakCRLF) =? 0) = nul) by (by destruct nul). rewrite Hn.
    destruct (crlfInlineScanMax <? zlen s) eqn:E; [| destruct (zlen s <? 8) eqn:E8].
    + unfold IndexByte. rewrite !indexFrom_found by lia. unfold isLineBreak. rewrite !existsb_orb. f_equal.
      clear. induction s as [| x s IH]; cbn; [by rewrite andb_false_r |]. rewrite <- IH. by destruct nul, (x =? 0).
    + apply existsb_ext'. intros c _. unfold isLineBreak. lia.
    + apply anyWord_exact; [apply wordHasLineBreak_exact | done | lia].
  - unfold isValidH2Path. destruct (zlen s <? 8) eqn:E; [by rewrite negb_existsb |].
    f_equal. apply anyWord_exact; [exact wordHasPathControl_exact | done | lia].
  - exact (hostLoop_spec s 0 0 0 0).
Qed.

Lemma text_checks_exact_witness :
  bytes_ok (str "a line of text" ++ [10]) /\ containsLineBreak (str "a line of text" ++ [10]) lineBreakCRLF = true /\ isValidH2Path (str "/index.html") = true.
Proof.
  assert (H : bytes_ok (str "a line of text" ++ [10])) by (repeat constructor; cbv; congruence).
  split; [exact H | split; [| reflexivity]]. destruct (text_checks_exact _ false H) as (E & _). by rewrite E.
Defined.

(** ** Paths are resolved *)

(** Splitting on slashes: the reference for the segment loop. *)
Fixpoint splitSlash (p : bytes) : list bytes :=
  match p with
  | [] => [[]]
  | x :: p => if x =? slash then [] :: splitSlash p else match splitSlash p with h :: t => (x :: h) :: t | [] => [[x]] end
  end.

(** Resolving: empty and dot segments dropped, a double dot removes the last
    segment kept (and is dropped at the root). *)
Definition resolve (segs : list bytes) : list bytes := fold_left pushSegment segs [].

Definition canonical (seg : bytes) : Prop := seg <> [] /\ seg <> [dot] /\ seg <> [dot; dot].

Lemma splitSlash_cons p : exists h t, splitSlash p = h :: t.
Proof. destruct p as [| x p]; cbn; [by eexists _, _ |]. destruct (x =? slash); [by eexists _, _ |]. destruct (splitSlash p); by eexists _, _. Qed.

Definition prepend (cur : bytes) (l : list bytes) : list bytes := match l with h :: t => (cur ++ h) :: t | [] => [cur] end.

Lemma segmentLoop_spec rest pre cur segs :
  segmentLoop rest (pre ++ cur ++ rest) (zlen pre + zlen cur) (zlen pre) segs = fold_left pushSegment (prepend cur (splitSlash rest)) segs.
Proof.
  assert (Hs : forall a b c : bytes, zslice (a ++ b ++ c) (zlen a) (zlen a + zlen b) = b).
  { intros a b c. unfold zslice. rewrite zdrop_app_exact. replace (zlen a + zlen b - zlen a) with (zlen b) by lia. apply ztake_app_exact. }
  revert pre cur segs. induction rest as [| c rest IH]; intros pre cur segs; cbn [segmentLoop splitSlash].
  - cbn [prepend]. rewrite Hs, app_nil_r. done.
  - destruct (c =? slash) eqn:E.
    + rewrite Hs. cbn [prepend fold_left]. rewrite app_nil_r. destruct (splitSlash_cons rest) as (h & t & Eh).
      specialize (IH (pre ++ cur ++ [c]) [] (pushSegment segs cur)). rewrite Eh in IH |- *. cbn [prepend app] in IH.
      rewrite !zlen_app in IH. change (zlen [c]) with 1 in IH. change (zlen []) with 0 in IH. rewrite <- !app_assoc in IH. cbn [app] in IH.
      replace (zlen pre + (zlen cur + 1) + 0) with (zlen pre + zlen cur + 1) in IH by lia.
      replace (zlen pre + (zlen cur + 1)) with (zlen pre + zlen cur + 1) in IH by lia. exact IH.
    + destruct (splitSlash_cons rest) as (h & t & Eh). specialize (IH pre (cur ++ [c]) segs). rewrite Eh in IH |- *. cbn [prepend] in IH |- *.
      rewrite zlen_snoc, <- !app_assoc in IH. cbn [app] in IH. by rewrite Z.add_assoc in IH.
Qed.

Definition nonEmpty (s : bytes) : bool := negb (bool_decide (s = [])).
Definition notDots (s : bytes) : Prop := s <> [dot] /\ s <> [dot; dot].

(** Without dot segments, resolving only drops the empty ones. *)
Lemma resolve_plain segs acc : Forall notDots segs -> fold_left pushSegment segs acc = acc ++ List.filter nonEmpty segs.
Proof.
  intros H. revert acc. induction H as [| s segs [H1 H2] _ IH]; intros acc; cbn; [by rewrite app_nil_r |].
  rewrite IH. unfold pushSegment, nonEmpty. rewrite (bool_decide_false (s = [dot])), (bool_decide_false (s = [dot; dot])) by done. cbn [orb].
  destruct (bool_decide (s = [])); cbn; [done | by rewrite <- app_assoc].
Qed.

Lemma filter_canonical segs : Forall canonical segs -> List.filter nonEmpty segs = segs.
Proof. induction 1 as [| s segs (H & _) _ IH]; [done |]. cbn [List.filter]. unfold nonEmpty at 1. rewrite bool_decide_false by done. cbn [negb]. by rewrite IH. Qed.

(** What holds of every segment read and is not empty or dots holds of every segment kept. *)
Lemma resolve_Forall (P : bytes -> Prop) segs acc : Forall P segs -> Forall (fun s => canonical s /\ P s) acc ->
  Forall (fun s => canonical s /\ P s) (fold_left pushSegment segs acc).
Proof.
  intros H. revert acc. induction H as [| s segs Hs _ IH]; intros acc Ha; cbn; [done |]. apply IH. unfold pushSegment.
  repeat case_bool_decide; cbn; try done.
  - destruct (0 <? zlen acc); [by apply Forall_take | done].
  - apply Forall_app. split; [done |]. by repeat constructor.
Qed.

Lemma splitSlash_free p : Forall (fun s => slash ∉ s) (splitSlash p).
Proof.
  induction p as [| x p IH]; cbn; [repeat constructor; set_solver |]. destruct (x =? slash) eqn:E; [constructor; [set_solver | done] |].
  destruct (splitSlash p); [repeat constructor; set_unfold; lia |]. apply Forall_cons_1 in IH as [? ?]. constructor; [| done]. apply not_elem_of_cons. split; [lia | done].
Qed.

Lemma splitSlash_bytes (Q : Z -> Prop) p : Forall Q p -> Forall (Forall Q) (splitSlash p).
Proof.
  induction 1 as [| x p Hx _ IH]; cbn; [by repeat constructor |]. destruct (x =? slash); [by constructor |].
  destruct (splitSlash p); [by repeat constructor |]. apply Forall_cons_1 in IH as [? ?]. by repeat constructor.
Qed.

Lemma joinSegments_concat segs acc : fold_left (fun clean seg => (clean ++ [slash]) ++ seg) segs acc = acc ++ concat (map (cons slash) segs).
Proof. revert acc. induction segs as [| s segs IH]; intros acc; cbn; [by rewrite app_nil_r |]. rewrite IH, <- !app_assoc. done. Qed.

Lemma splitSlash_app s rest : slash ∉ s -> splitSlash (s ++ rest) = prepend s (splitSlash rest).
Proof.
  induction s as [| x s IH]; intros H; cbn [app splitSlash].
  - destruct (splitSlash_cons rest) as (h & t & ->). done.
  - apply not_elem_of_cons in H as [Hx Hs]. rewrite (proj2 (Z.eqb_neq x slash)) by congruence. rewrite IH by done.
    destruct (splitSlash_cons rest) as (h & t & ->). done.
Qed.

Lemma splitSlash_join segs : segs <> [] -> Forall (fun s => slash ∉ s) segs -> splitSlash (concat (map (cons slash) segs)) = [] :: segs.
Proof.
  intros Hne H. induction H as [| s segs Hs Hrest IH]; [done |]. cbn. f_equal. rewrite splitSlash_app by done.
  destruct segs as [| s' segs]; [cbn; by rewrite app_nil_r |]. rewrite IH by done. cbn. by rewrite app_nil_r.
Qed.

Lemma hasDoubleSlash_join segs : Forall (fun s => canonical s /\ slash ∉ s) segs -> hasDoubleSlash (concat (map (cons slash) segs)) = false.
Proof.
  assert (Hfree : forall s rest, slash ∉ s -> hasDoubleSlash (s ++ rest) = hasDoubleSlash rest).
  { induction s as [| x s IH]; intros rest H; [done |]. apply not_elem_of_cons in H as [Hx Hs]. cbn. rewrite (proj2 (Z.eqb_neq x slash)) by congruence. cbn. by apply IH. }
  induction 1 as [| s segs [(Hs & _) Hf] _ IH]; [done |]. cbn. rewrite Hfree, IH by done. destruct s as [| y s]; [done |].
  apply not_elem_of_cons in Hf as [Hy _]. cbn. rewrite (proj2 (Z.eqb_neq y slash)) by congruence. done.
Qed.

(** Where no slash is followed by a slash or a dot, no segment after the first is dots. *)
Lemma needsSanitize_plain p : needsSanitize p = false ->
  hasDoubleSlash p = false /\ Forall (fun s => hd 0 s <> dot) (tl (splitSlash p)).
Proof.
  induction p as [| x p IH]; intros H; [by split; [| constructor] |]. cbn [needsSanitize] in H. apply orb_false_iff in H as [Hx Hp].
  destruct (IH Hp) as [Hd Ht]. cbn [hasDoubleSlash splitSlash]. rewrite Hd, orb_false_r. destruct (x =? slash) eqn:E; cbn [andb] in *.
  - destruct p as [| y p]; [split; [done |]; repeat constructor; cbn; discriminate |]. apply orb_false_iff in Hx as [Hy Hy']. split; [done |]. cbn [tl splitSlash] in Ht |- *.
    rewrite Hy in Ht |- *. destruct (splitSlash_cons p) as (h & t & Eh). rewrite Eh in *. constructor; [cbn; lia | done].
  - split; [done |]. destruct (splitSlash_cons p) as (h & t & Eh). rewrite Eh in *. done.
Qed.

Lemma noDot_needs p : (IndexByte p dot <? 0) = true -> hasDoubleSlash p = false -> needsSanitize p = false.
Proof.
  intros Hi. assert (Hd : existsb (fun x => x =? dot) p = false).
  { rewrite <- (indexFrom_found p dot 0) by lia. unfold IndexByte in Hi. lia. }
  clear Hi. induction p as [| x p IH]; intros H; [done |]. cbn [hasDoubleSlash existsb needsSanitize] in *.
  apply orb_false_iff in H as [Hx Hp]. apply orb_false_iff in Hd as [_ Hd]. rewrite IH by done. rewrite orb_false_r.
  destruct p as [| y p]; [done |]. cbn in Hd. apply orb_false_iff in Hd as [Hy _]. by rewrite Hy, orb_false_r.
Qed.

(** The path of a list of segments; no segment is the root. *)
Definition pathOf (segs : list bytes) : bytes := match segs with [] => [slash] | _ => concat (map (cons slash) segs) end.

Lemma pathOf_join segs : (if zlen segs =? 0 then [slash] else joinSegments segs) = pathOf segs.
Proof.
  unfold joinSegments. rewrite joinSegments_concat. destruct segs as [| s segs]; [done |]. rewrite zlen_cons.
  rewrite (proj2 (Z.eqb_neq (1 + zlen segs) 0)) by (pose proof (zlen_nonneg segs); lia). done.
Qed.

(** A path is either left alone, or rebuilt from its resolved segments. *)
Lemma sanitize_cases p :
  (exists q, p = slash :: q /\ needsSanitize p = false /\ sanitizeSplitPath p = p) \/ sanitizeSplitPath p = pathOf (resolve (splitSlash p)).
Proof.
  destruct p as [| x p]; [by right |]. unfold sanitizeSplitPath. rewrite zlen_cons. rewrite (proj2 (Z.eqb_neq (1 + zlen p) 0)) by (pose proof (zlen_nonneg p); lia).
  change (znth (x :: p) 0) with x. destruct (x =? slash) eqn:E; cbn [andb orb negb].
  - apply Z.eqb_eq in E as ->. destruct (needsSanitize (slash :: p)) eqn:En.
    + destruct ((IndexByte (slash :: p) dot <? 0) && negb (hasDoubleSlash (slash :: p))) eqn:Ef.
      { apply andb_true_iff in Ef as [H1 H2]. rewrite (noDot_needs _ H1) in En; [done |]. by apply negb_true_iff. }
      right. cbn [negb]. change (zdrop 1 (slash :: p)) with p. pose proof (segmentLoop_spec p [slash] [] []) as Hl.
      change (segmentLoop p (slash :: p) 1 1 [] = fold_left pushSegment (prepend [] (splitSlash p)) []) in Hl. rewrite Hl.
      destruct (splitSlash_cons p) as (h & t & Eh). unfold resolve. cbn [splitSlash]. change (slash =? slash) with true. cbn [fold_left]. change (pushSegment [] []) with (@nil bytes).
      rewrite Eh. cbn [prepend app]. apply pathOf_join.
    + left. exists p. split_and!; [done | done |]. destruct (_ && _); done.
  - right. change (zdrop 1 (slash :: x :: p)) with (x :: p). pose proof (segmentLoop_spec (x :: p) [slash] [] []) as Hl.
    change (segmentLoop (x :: p) (slash :: x :: p) 1 1 [] = fold_left pushSegment (prepend [] (splitSlash (x :: p))) []) in Hl.
    rewrite Hl. destruct (splitSlash_cons (x :: p)) as (h & t & Eh). unfold resolve. rewrite Eh. cbn [prepend app].
    apply pathOf_join.
Qed.

Lemma kept_notDots q : needsSanitize (slash :: q) = false -> Forall notDots (splitSlash (slash :: q)).
Proof.
  intros H. destruct (needsSanitize_plain _ H) as [_ Ht]. cbn [splitSlash] in *. change (slash =? slash) with true in *. cbn [tl] in Ht.
  constructor; [by split |]. eapply Forall_impl; [exact Ht |]. intros s Hs. split; intros ->; by apply Hs.
Qed.

Lemma pathOf_split segs : Forall (fun s => canonical s /\ slash ∉ s) segs ->
  Forall notDots (splitSlash (pathOf segs)) /\ List.filter nonEmpty (splitSlash (pathOf segs)) = segs.
Proof.
  intros H. assert (Hc : Forall canonical segs) by (eapply Forall_impl; [exact H | by intros ? []]).
  destruct segs as [| s segs]; [by split; [repeat constructor |] |]. unfold pathOf.
  rewrite splitSlash_join; [| done | eapply Forall_impl; [exact H | by intros ? []]]. split.
  - constructor; [by split |]. eapply Forall_impl; [exact Hc |]. by intros ? (_ & ?).
  - exact (filter_canonical _ Hc).
Qed.

Lemma sanitizeSplit_spec p : let r := sanitizeSplitPath p in
  (exists q, r = slash :: q) /\ hasDoubleSlash r = false /\ Forall notDots (splitSlash r) /\
  List.filter nonEmpty (splitSlash r) = resolve (splitSlash p) /\ sanitizeSplitPath r = r.
Proof.
  cbv zeta. destruct (sanitize_cases p) as [(q & -> & Hn & E) | E]; rewrite E.
  - pose proof (kept_notDots q Hn) as Hd. split_and!; [by exists q | by apply needsSanitize_plain | done | | done].
    unfold resolve. by rewrite resolve_plain.
  - assert (H : Forall (fun s => canonical s /\ slash ∉ s) (resolve (splitSlash p))) by (apply resolve_Forall; [apply splitSlash_free | done]).
    set (segs := resolve (splitSlash p)) in *. destruct (pathOf_split segs H) as [Hd Hf]. split_and!; [| | done | done |].
    + destruct segs; by eexists.
    + destruct segs; [done |]. by apply hasDoubleSlash_join.
    + destruct (sanitize_cases (pathOf segs)) as [(q & _ & _ & E') | E']; [done |]. rewrite E'. f_equal.
      unfold resolve. by rewrite resolve_plain.
Qed.

(** The prefix before the first byte a test accepts. *)
Fixpoint until (f : Z -> bool) (s : bytes) : bytes :=
  match s with [] => [] | x :: s => if f x then [] else x :: until f s end.

Lemma indexFrom_until s c i : 0 <= i ->
  (0 <= indexFrom s c i -> ztake (indexFrom s c i - i) s = until (Z.eqb c) s) /\ (indexFrom s c i < 0 -> until (Z.eqb c) s = s) /\
  (0 <= indexFrom s c i -> i <= indexFrom s c i).
Proof.
  revert i. induction s as [| x s IH]; intros i Hi; cbn [indexFrom until]; [split_and!; [lia | done | lia] |].
  rewrite (Z.eqb_sym c x). destruct (x =? c) eqn:E.
  - rewrite Z.sub_diag. split_and!; [done | lia | lia].
  - destruct (IH (i + 1) ltac:(lia)) as (H1 & H2 & H3). split_and!; [| intros H; by rewrite H2 | lia].
    intros H. specialize (H3 H). rewrite <- (H1 H). unfold ztake.
    replace (Z.to_nat (indexFrom s c (i + 1) - i)) with (S (Z.to_nat (indexFrom s c (i + 1) - (i + 1)))) by lia. done.
Qed.

Lemma cutAt_until c s : cutAt c s = until (Z.eqb c) s.
Proof.
  unfold cutAt, IndexByte. destruct (indexFrom_until s c 0 ltac:(lia)) as (H1 & H2 & _).
  destruct (0 <=? indexFrom s c 0) eqn:E; [rewrite <- H1 by lia; by rewrite Z.sub_0_r | symmetry; apply H2; lia].
Qed.

Lemma until_until f g s : until f (until g s) = until (fun x => f x || g x) s.
Proof. induction s as [| x s IH]; [done |]. cbn. destruct (g x); [by rewrite orb_true_r |]. cbn. destruct (f x); cbn; [done | by rewrite IH]. Qed.

Lemma until_ext f g s : (forall x, f x = g x) -> until f s = until g s.
Proof. intros H. induction s as [| x s IH]; [done |]. cbn. rewrite H. by destruct (g x); [| rewrite IH]. Qed.

Definition pathStop (c : Z) : bool := (63 =? c) || ((10 =? c) || ((13 =? c) || (0 =? c))).

Lemma sanitize_cut path : sanitizeRequestPath path = sanitizeSplitPath (until pathStop path).
Proof.
  unfold sanitizeRequestPath. set (q := cutAt 10 _). assert (E : fst (splitPathQuery q) = cutAt 63 q) by (unfold splitPathQuery, cutAt; by destruct (_ <=? _)).
  destruct (splitPathQuery q) as [p o]. cbn in E. subst p. f_equal. subst q. rewrite !cutAt_until, !until_until. apply until_ext. intros c. unfold pathStop. lia.
Qed.

Lemma until_clean f s : Forall (fun c => f c = false) (until f s).
Proof. induction s as [| x s IH]; cbn; [done |]. destruct (f x) eqn:E; [done | by constructor]. Qed.

Lemma until_id f s : Forall (fun c => f c = false) s -> until f s = s.
Proof. induction 1 as [| x s E _ IH]; cbn; [done |]. by rewrite E, IH. Qed.

Lemma sanitize_bytes (Q : Z -> Prop) p : Q slash -> Forall Q p -> Forall Q (sanitizeSplitPath p).
Proof.
  intros Hs Hp. destruct (sanitize_cases p) as [(q & _ & _ & ->) | ->]; [done |].
  assert (H : Forall (fun s => canonical s /\ Forall Q s) (resolve (splitSlash p))) by (apply resolve_Forall; [by apply splitSlash_bytes | done]).
  unfold pathOf. destruct (resolve (splitSlash p)) as [| s segs]; [by repeat constructor |].
  generalize dependent (s :: segs). clear s segs. induction 1 as [| s segs [_ Hq] _ IH]; [done |]. cbn. constructor; [done |]. by apply Forall_app.
Qed.

(** The path of a request is normalised before routing: the part before
    the first '?', NUL, CR or LF is resolved segment by segment (dot segments
    dropped, a double dot removing the segment before it and nothing above the
    root). The result starts with a slash, has no empty or dot segment to
    climb with, none of the cut bytes, and is a fixed point. *)
Theorem sanitize_resolves (path : bytes) : let r := sanitizeRequestPath path in
  List.filter nonEmpty (splitSlash r) = resolve (splitSlash (until pathStop path)) /\
  (exists q, r = slash :: q) /\ hasDoubleSlash r = false /\ Forall notDots (splitSlash r) /\
  Forall (fun c => pathStop c = false) r /\ sanitizeRequestPath r = r.
Proof.
  cbv zeta. rewrite !(sanitize_cut path). destruct (sanitizeSplit_spec (until pathStop path)) as (H1 & H2 & H3 & H4 & H5).
  assert (Hc : Forall (fun c => pathStop c = false) (sanitizeSplitPath (until pathStop path))) by (apply sanitize_bytes; [done | apply until_clean]).
  split_and!; try done. rewrite sanitize_cut, until_id by done. exact H5.
Qed.

Example sanitize_climb : sanitizeRequestPath (str "/a/./b/../../../etc//passwd?x=/..") = str "/etc/passwd".
Proof. reflexivity. Qed.
