(* ===== verification/Router.v ===== *)
(** The request router (src/core/router.go): a radix trie per method with
    parameter and catch-all nodes, the insertion of patterns, the greedy and
    the backtracking search, the index of static routes, and the lookup of a
    built router. *)
From stdpp Require Import base list numbers list_numbers strings.
From Stdlib Require Import ZArith Lia ZifyBool.
From S2P Require Import Prelude Utils H1Scan.

Open Scope list_scope.
Open Scope Z_scope.

(** ** Handlers *)

(** A handler is a function on requests and responses; the router only stores,
    wraps and returns it, so a handler is the term that built it: a function
    the application registered, a middleware around a handler, or one of the
    closures the router makes. *)
Inductive HandlerFunc :=
| hUser (id : Z)
| hMiddleware (mw : Z) (next : HandlerFunc)
| hInline (h : HandlerFunc)
| hAllow (h : HandlerFunc)
| hAutoOptions
| hNotFound
| hMethodNotAllowed.

#[export] Instance HandlerFunc_eq_dec : EqDecision HandlerFunc.
Proof. solve_decision. Defined.

(** [Chain] and the loops of [applyMiddleware] and [RouteGroup.handle]: the
    first middleware is the outermost. *)
Fixpoint Chain (handler : HandlerFunc) (middleware : list Z) : HandlerFunc :=
  match middleware with
  | [] => handler
  | mw :: middleware => hMiddleware mw (Chain handler middleware)
  end.

(** ** The trie *)

(** The fields [inheritedCatchAll] and [middleware] of the code are written
    and never read. *)
Local Unset Elimination Schemes.
Inductive node := mkNode {
  n_path : bytes;
  n_children : list node;
  n_indices : bytes;
  n_handler : option HandlerFunc;
  n_wrapped : option HandlerFunc;
  n_param : option node;
  n_catch : option node;
  n_paramName : bytes;
  n_catchName : bytes;
  n_backtrackable : bool;
  n_inline : bool }.
Local Set Elimination Schemes.

Definition emptyNode : node := mkNode [] [] [] None None None None [] [] false false.
Definition pathNode (path : bytes) : node := mkNode path [] [] None None None None [] [] false false.
Definition paramNode (name : bytes) : node := mkNode [] [] [] None None None None name [] false false.
Definition catchNode (name : bytes) (h : HandlerFunc) : node := mkNode [] [] [] (Some h) None None None [] name false false.

Definition set_handler (n : node) (h : option HandlerFunc) : node :=
  mkNode (n_path n) (n_children n) (n_indices n) h (n_wrapped n) (n_param n) (n_catch n) (n_paramName n) (n_catchName n) (n_backtrackable n) (n_inline n).
Definition set_children (n : node) (cs : list node) (idx : bytes) : node :=
  mkNode (n_path n) cs idx (n_handler n) (n_wrapped n) (n_param n) (n_catch n) (n_paramName n) (n_catchName n) (n_backtrackable n) (n_inline n).
Definition set_param (n : node) (p : option node) : node :=
  mkNode (n_path n) (n_children n) (n_indices n) (n_handler n) (n_wrapped n) p (n_catch n) (n_paramName n) (n_catchName n) (n_backtrackable n) (n_inline n).
Definition set_catch (n : node) (c : option node) : node :=
  mkNode (n_path n) (n_children n) (n_indices n) (n_handler n) (n_wrapped n) (n_param n) c (n_paramName n) (n_catchName n) (n_backtrackable n) (n_inline n).
Definition set_paramName (n : node) (name : bytes) : node :=
  mkNode (n_path n) (n_children n) (n_indices n) (n_handler n) (n_wrapped n) (n_param n) (n_catch n) name (n_catchName n) (n_backtrackable n) (n_inline n).
Definition set_backtrackable (n : node) (b : bool) : node :=
  mkNode (n_path n) (n_children n) (n_indices n) (n_handler n) (n_wrapped n) (n_param n) (n_catch n) (n_paramName n) (n_catchName n) b (n_inline n).

(** ** Prefixes *)

(** [for i < max && a[i] == b[i] { i++ }]. *)
Fixpoint lcpTail (a b : bytes) : Z :=
  match a, b with
  | x :: a, y :: b => if x =? y then 1 + lcpTail a b else 0
  | _, _ => 0
  end.

(** Eight bytes at a time: the loop runs while [i + 7 < max]. *)
Fixpoint lcpWords (fuel : nat) (a b : bytes) (i : Z) : Z :=
  match fuel with
  | O => i + lcpTail a b
  | S fuel =>
      if 7 <? Z.min (zlen a) (zlen b) then
        let aw := le_val (ztake 8 a) in
        let bw := le_val (ztake 8 b) in
        if negb (aw =? bw) then i + TrailingZeros64 (Z.lxor aw bw) / 8
        else lcpWords fuel (zdrop 8 a) (zdrop 8 b) (i + 8)
      else i + lcpTail a b
  end.
Definition longestCommonPrefix (a b : bytes) : Z := lcpWords (length a) a b 0.

Definition hasPrefix (s prefix : bytes) : bool := (zlen prefix <=? zlen s) && bool_decide (ztake (zlen prefix) s = prefix).

(** ** Registration *)

Definition colon : Z := 58.
Definition star : Z := 42.
Definition slashByte : Z := 47.

(** The number of bytes before the next slash. *)
Fixpoint segmentLen (s : bytes) : Z :=
  match s with
  | [] => 0
  | x :: s => if x =? slashByte then 0 else 1 + segmentLen s
  end.

(** [staticEnd]: the number of bytes before the next parameter or catch-all. *)
Fixpoint staticEnd (s : bytes) : Z :=
  match s with
  | [] => 0
  | x :: s => if (x =? colon) || (x =? star) then 0 else 1 + staticEnd s
  end.

(** The position of the child whose index byte is [c]. *)
Fixpoint indexOf (idx : bytes) (c : Z) (i : nat) : option nat :=
  match idx with
  | [] => None
  | b :: idx => if b =? c then Some i else indexOf idx c (S i)
  end.

(** Splitting a child whose path goes on past the common prefix. *)
Definition splitChild (child : node) (commonLen : Z) : node :=
  let tail := mkNode (zdrop commonLen (n_path child)) (n_children child) (n_indices child) (n_handler child) None
                     (n_param child) (n_catch child) (n_paramName child) (n_catchName child) false (n_inline child) in
  mkNode (ztake commonLen (n_path child)) [tail] [znth (n_path tail) 0] None (n_wrapped child) None None [] [] (n_backtrackable child) false.

(** The loop of [addRoute] from [current]: the node with the rest of the
    pattern registered below it. Every turn takes at least one byte. *)
Fixpoint addLoop (fuel : nat) (current : node) (remaining : bytes) (handler : HandlerFunc) : node :=
  match fuel with
  | O => current
  | S fuel =>
      match remaining with
      | [] => set_handler current (Some handler)
      | c :: rest =>
          if c =? colon then
            let paramEnd := 1 + segmentLen rest in
            let paramName := zslice remaining 1 paramEnd in
            let child := match n_param current with Some p => p | None => paramNode paramName end in
            set_param current (Some (addLoop fuel (set_paramName child paramName) (zdrop paramEnd remaining) handler))
          else if c =? star then set_catch current (Some (catchNode rest handler))
          else
            match indexOf (n_indices current) c 0 with
            | Some i =>
                match n_children current !! i with
                | None => current
                | Some child =>
                    let commonLen := longestCommonPrefix (n_path child) remaining in
                    let child := if commonLen <? zlen (n_path child) then splitChild child commonLen else child in
                    set_children current (<[i := addLoop fuel child (zdrop commonLen remaining) handler]> (n_children current)) (n_indices current)
                end
            | None =>
                let segment := ztake (staticEnd remaining) remaining in
                set_children current (n_children current ++ [addLoop fuel (pathNode segment) (zdrop (staticEnd remaining) remaining) handler])
                             (n_indices current ++ [znth segment 0])
            end
      end
  end.
Definition addRoute (root : node) (path : bytes) (handler : HandlerFunc) : node := addLoop (S (length path)) root path handler.

(** The number of nodes on the longest way down: a search never goes up. *)
Fixpoint height (n : node) : nat :=
  match n with
  | mkNode _ cs _ _ _ p c _ _ _ _ =>
      S (Nat.max ((fix hs (l : list node) : nat := match l with [] => O | x :: l => Nat.max (height x) (hs l) end) cs)
                 (Nat.max (match p with Some p => height p | None => O end) (match c with Some c => height c | None => O end)))
  end.

(** ** The greedy search *)

(** [req.Params[:req.ParamCount]]: keys and values. [req.Params] is an array
    of eight; what does not fit is not recorded. *)
Abbreviation params := (list (bytes * bytes)).
Definition maxParams : Z := 8.
Definition appendRouteParam (ps : params) (key value : bytes) : params :=
  if zlen ps <? maxParams then ps ++ [(key, value)] else ps.

(** Descending into a static child; [findBuilt] does not compare a path of one
    byte again. *)
Definition tryChild (remaining : bytes) (child : node) : option (node * bytes) :=
  if (zlen (n_path child) <=? zlen remaining) && bool_decide (ztake (zlen (n_path child)) remaining = n_path child)
  then Some (child, zdrop (zlen (n_path child)) remaining) else None.
Definition tryBuilt (remaining : bytes) (child : node) : option (node * bytes) :=
  if zlen (n_path child) =? 1 then Some (child, zdrop 1 remaining) else tryChild remaining child.

Definition childAt (n : node) (i : nat) (try : node -> option (node * bytes)) : option (node * bytes) :=
  match n_children n !! i with Some child => try child | None => None end.

(** The switch on the number of indices. *)
Definition staticMatch (try : node -> option (node * bytes)) (n : node) (c : Z) : option (node * bytes) :=
  match n_indices n with
  | [i0] => if i0 =? c then childAt n 0 try else None
  | [i0; i1] => if i0 =? c then childAt n 0 try else if i1 =? c then childAt n 1 try else None
  | idx => match indexOf idx c 0 with Some i => childAt n i try | None => None end
  end.

(** The loop of [findInTree] and [findBuilt], which differ in the handler they
    return and in the comparison above. [pending] is the last catch-all passed,
    with the rest of the path and the number of parameters there. The result is
    [None] only without fuel. *)
Fixpoint findLoop (fuel : nat) (handlerOf : node -> option HandlerFunc) (try : bytes -> node -> option (node * bytes))
    (current : node) (remaining : bytes) (ps : params) (pending : option (node * bytes * Z)) : option (option HandlerFunc * params) :=
  match fuel with
  | O => None
  | S fuel =>
      if zlen remaining =? 0 then Some (handlerOf current, ps)
      else
        let pending := match n_catch current with Some c => Some (c, remaining, zlen ps) | None => pending end in
        match staticMatch (try remaining) current (znth remaining 0) with
        | Some (child, rest) => findLoop fuel handlerOf try child rest ps pending
        | None =>
            match n_param current with
            | Some p =>
                let paramEnd := segmentLen remaining in
                findLoop fuel handlerOf try p (zdrop paramEnd remaining) (appendRouteParam ps (n_paramName p) (ztake paramEnd remaining)) pending
            | None =>
                match n_catch current with
                | Some c => Some (handlerOf c, appendRouteParam ps (n_catchName c) remaining)
                | None =>
                    match pending with
                    | Some (c, rest, count) => Some (handlerOf c, appendRouteParam (ztake count ps) (n_catchName c) rest)
                    | None => Some (None, ps)
                    end
                end
            end
        end
  end.

Definition treeHandlerOf (n : node) : option HandlerFunc := n_handler n.
Definition builtHandlerOf (n : node) : option HandlerFunc := n_wrapped n.

Definition findInTree (root : node) (path : bytes) : option HandlerFunc * params :=
  match findLoop (S (height root)) treeHandlerOf tryChild root path [] None with Some r => r | None => (None, []) end.

Definition findBuilt (current : node) (path : bytes) : option HandlerFunc * params :=
  let rp := zlen (n_path current) in
  if (0 <? rp) && ((zlen path <? rp) || negb (bool_decide (ztake rp path = n_path current))) then (None, [])
  else
    let remaining := if 0 <? rp then zdrop rp path else path in
    match findLoop (S (height current)) builtHandlerOf tryBuilt current remaining [] None with Some r => r | None => (None, []) end.

(** ** The backtracking search *)

Definition routerBacktrackBudget : Z := 64.

Definition staticChildFor (n : node) (remaining : bytes) : option node :=
  match indexOf (n_indices n) (znth remaining 0) 0 with
  | Some i => match n_children n !! i with Some child => if hasPrefix remaining (n_path child) then Some child else None | None => None end
  | None => None
  end.

(** The result carries the parameters and the budget left, which the calls
    share; it is [None] only without fuel. *)
Fixpoint routeBacktrack (fuel : nat) (handlerOf : node -> option HandlerFunc) (n : node) (remaining : bytes) (ps : params) (budget : Z)
    : option (option HandlerFunc * params * Z) :=
  match fuel with
  | O => None
  | S fuel =>
      if zlen remaining =? 0 then Some (handlerOf n, ps, budget)
      else if budget <=? 0 then Some (None, ps, budget)
      else
        let budget := budget - 1 in
        (* the parameter and catch-all branches, after the static one *)
        let tryCatch ps budget :=
          match n_catch n with
          | Some c => Some (handlerOf c, appendRouteParam ps (n_catchName c) remaining, budget)
          | None => Some (None, ps, budget)
          end in
        let tryParam ps budget :=
          match n_param n with
          | Some p =>
              let e := segmentLen remaining in
              let r := routeBacktrack fuel handlerOf p (zdrop e remaining) (appendRouteParam ps (n_paramName p) (ztake e remaining)) budget in
              match n_catch n with
              | None => r
              | Some _ => match r with
                          | Some (None, ps', budget) => tryCatch (ztake (zlen ps) ps') budget
                          | r => r
                          end
              end
          | None => tryCatch ps budget
          end in
        match staticChildFor n remaining with
        | Some child =>
            let r := routeBacktrack fuel handlerOf child (zdrop (zlen (n_path child)) remaining) ps budget in
            match n_param n, n_catch n with
            | None, None => r
            | _, _ => match r with
                      | Some (None, ps', budget) => tryParam (ztake (zlen ps) ps') budget
                      | r => r
                      end
            end
        | None => tryParam ps budget
        end
  end.

(** [ps]: what an earlier search left in the request. *)
Definition findWithBacktracking (root : node) (path : bytes) (ps : params) (handlerOf : node -> option HandlerFunc) : option HandlerFunc * params :=
  if negb (hasPrefix path (n_path root)) then (None, ps)
  else match routeBacktrack (S (height root)) handlerOf root (zdrop (zlen (n_path root)) path) [] routerBacktrackBudget with
       | Some (h, ps, _) => (h, ps)
       | None => (None, [])
       end.

Definition findInTreeOrBacktrack (root : node) (path : bytes) : option HandlerFunc * params :=
  match findInTree root path with
  | (Some h, ps) => (Some h, ps)
  | (None, ps) => findWithBacktracking root path ps treeHandlerOf
  end.

Definition findBuiltOrBacktrack (root : node) (path : bytes) : option HandlerFunc * params :=
  match findBuilt root path with
  | (Some h, ps) => (Some h, ps)
  | (None, ps) => if n_backtrackable root then findWithBacktracking root path ps builtHandlerOf else (None, ps)
  end.

(** [hasStaticParamSiblings]. *)
Fixpoint hasStaticParamSiblings (n : node) : bool :=
  match n with
  | mkNode _ cs _ _ _ p c _ _ _ _ =>
      (match p with Some _ => 0 <? zlen cs | None => false end) ||
      (fix any (l : list node) : bool := match l with [] => false | x :: l => hasStaticParamSiblings x || any l end) cs ||
      match p with Some p => hasStaticParamSiblings p | None => false end ||
      match c with Some c => hasStaticParamSiblings c | None => false end
  end.

(** ** Methods *)

Definition allMethods : list bytes :=
  [str "GET"; str "POST"; str "PUT"; str "DELETE"; str "PATCH"; str "HEAD"; str "OPTIONS"; str "CONNECT"; str "TRACE"].
Definition methodGET : nat := 0.
Definition methodHEAD : nat := 5.
Definition methodOPTIONS : nat := 6.
Definition methodCount : nat := 9.

Definition methodIndex (method : bytes) : option nat :=
  if bool_decide (method = str "GET") then Some 0%nat else if bool_decide (method = str "POST") then Some 1%nat
  else if bool_decide (method = str "PUT") then Some 2%nat else if bool_decide (method = str "DELETE") then Some 3%nat
  else if bool_decide (method = str "PATCH") then Some 4%nat else if bool_decide (method = str "HEAD") then Some 5%nat
  else if bool_decide (method = str "OPTIONS") then Some 6%nat else if bool_decide (method = str "CONNECT") then Some 7%nat
  else if bool_decide (method = str "TRACE") then Some 8%nat else None.

(** [s < t] on strings. *)
Fixpoint bytes_ltb (s t : bytes) : bool :=
  match s, t with
  | _, [] => false
  | [], _ :: _ => true
  | x :: s, y :: t => (x <? y) || ((x =? y) && bytes_ltb s t)
  end.

(** [sort.Slice]: the methods have distinct names, so every sort gives the
    same order. *)
Fixpoint insertMethod (i : nat) (l : list nat) : list nat :=
  match l with
  | [] => [i]
  | j :: l => if bytes_ltb (nth i allMethods []) (nth j allMethods []) then i :: j :: l else j :: insertMethod i l
  end.
Definition methodOrder : list nat := foldr insertMethod [] (seq 0 methodCount).

(** [allowHeaders[mask]]. *)
Definition allowHeader (mask : Z) : bytes :=
  fold_left (fun b i =>
    if Z.testbit mask (Z.of_nat i) then (if 0 <? zlen b then b ++ str ", " else b) ++ nth i allMethods [] else b) methodOrder [].

(** ** The index of static routes *)

Definition goldenHash : Z := 0x9E3779B9.
Definition hashTop : Z := 0x80000000.

Definition pathQuickHash (s : bytes) : Z :=
  let l := u32 (zlen s) in
  if l <? 2 then Z.lor (u32 (l * goldenHash)) hashTop
  else
    let h := u32 (Z.lxor l (znth s 1) * goldenHash) in
    let h := u32 (Z.lxor h (znth s (l - 1)) * goldenHash) in
    let h := if 3 <? l then u32 (Z.lxor h (znth s (Z.shiftr l 1)) * goldenHash) else h in
    Z.lor h hashTop.

Record staticEntry := mkStatic { se_path : bytes; se_hash : Z; se_handler : HandlerFunc }.

Fixpoint collectStaticRoutes (n : node) (prefix : bytes) : list staticEntry :=
  match n with
  | mkNode path cs _ _ w _ _ _ _ _ _ =>
      let fullPath := prefix ++ path in
      match w with Some h => [mkStatic fullPath (pathQuickHash fullPath) h] | None => [] end ++
      (fix all (l : list node) : list staticEntry := match l with [] => [] | x :: l => collectStaticRoutes x fullPath ++ all l end) cs
  end.

(** A slot of [staticHashes], [staticPaths] and [staticHandlers]; the table's
    length is a power of two and [staticMask] one less. *)
Record staticSlot := mkSlot { ss_hash : Z; ss_path : bytes; ss_handler : option HandlerFunc }.
Definition emptySlot : staticSlot := mkSlot 0 [] None.
Abbreviation staticTable := (list staticSlot).

Definition slotAt (t : staticTable) (i : Z) : staticSlot := nth (Z.to_nat i) t emptySlot.
Definition tableMask (t : staticTable) : Z := zlen t - 1.

(** [for sz < len(statics)*2 { sz <<= 1 }]. *)
Fixpoint tableSize (fuel : nat) (sz n : Z) : Z :=
  match fuel with
  | O => sz
  | S fuel => if sz <? n * 2 then tableSize fuel (Z.shiftl sz 1) n else sz
  end.

(** [for hashes[idx] != 0 { idx = (idx + 1) & mask }]. *)
Fixpoint freeSlot (fuel : nat) (t : staticTable) (i : Z) : option Z :=
  match fuel with
  | O => None
  | S fuel => if ss_hash (slotAt t i) =? 0 then Some i else freeSlot fuel t (Z.land (i + 1) (tableMask t))
  end.

Definition insertStatic (t : staticTable) (se : staticEntry) : staticTable :=
  match freeSlot (length t) t (Z.land (se_hash se) (tableMask t)) with
  | Some i => <[Z.to_nat i := mkSlot (se_hash se) (se_path se) (Some (se_handler se))]> t
  | None => t
  end.

Definition buildStatics (statics : list staticEntry) : option staticTable :=
  if 0 <? zlen statics then
    let sz := tableSize (length statics) 16 (zlen statics) in
    Some (fold_left insertStatic statics (replicate (Z.to_nat sz) emptySlot))
  else None.

(** The probe of [lookupBuilt]. *)
Fixpoint probeStatic (fuel : nat) (t : staticTable) (h : Z) (path : bytes) (i : Z) : option (option HandlerFunc) :=
  match fuel with
  | O => None
  | S fuel =>
      if ss_hash (slotAt t i) =? 0 then None
      else if (ss_hash (slotAt t i) =? h) && bool_decide (ss_path (slotAt t i) = path) then Some (ss_handler (slotAt t i))
      else probeStatic fuel t h path (Z.land (i + 1) (tableMask t))
  end.
Definition lookupStatic (t : staticTable) (path : bytes) : option (option HandlerFunc) :=
  let h := pathQuickHash path in probeStatic (length t) t h path (Z.land h (tableMask t)).

(** ** The router *)

Record router := mkRouter {
  trees : list (option node);
  statics : list (option staticTable);
  validFirst : list Z;
  r_notFound : HandlerFunc;
  r_methodNotAllowed : HandlerFunc;
  globalMiddleware : list Z;
  wrappedNotFound : HandlerFunc;
  wrappedMethodNotAllowed : HandlerFunc;
  wrappedAutoOptions : HandlerFunc;
  built : bool }.

Definition NewRouter : router :=
  mkRouter (replicate methodCount None) (replicate methodCount None) [0; 0; 0; 0] hNotFound hMethodNotAllowed [] hNotFound hNotFound hNotFound false.

Definition set_trees (r : router) (ts : list (option node)) : router :=
  mkRouter ts (statics r) (validFirst r) (r_notFound r) (r_methodNotAllowed r) (globalMiddleware r)
           (wrappedNotFound r) (wrappedMethodNotAllowed r) (wrappedAutoOptions r) (built r).

Definition Use (r : router) (mws : list Z) : router :=
  mkRouter (trees r) (statics r) (validFirst r) (r_notFound r) (r_methodNotAllowed r) (globalMiddleware r ++ mws)
           (wrappedNotFound r) (wrappedMethodNotAllowed r) (wrappedAutoOptions r) (built r).

Definition treeOf (r : router) (i : nat) : option node := match trees r !! i with Some t => t | None => None end.

Definition Handle (r : router) (method path : bytes) (handler : HandlerFunc) : router :=
  match methodIndex method with
  | None => r
  | Some i =>
      let root := match treeOf r i with Some n => n | None => emptyNode end in
      set_trees r (<[i := Some (addRoute root path handler)]> (trees r))
  end.

Definition ANY (r : router) (path : bytes) (handler : HandlerFunc) : router :=
  fold_left (fun r m => Handle r m path handler) allMethods r.

Definition applyMiddleware (r : router) (handler : HandlerFunc) : HandlerFunc := Chain handler (globalMiddleware r).

(** [RouteGroup]: a prefix and the middleware of its routes. *)
Record routeGroup := mkGroup { g_prefix : bytes; g_middleware : list Z }.
Definition groupGroup (g : routeGroup) (prefix : bytes) (mws : list Z) : routeGroup := mkGroup (g_prefix g ++ prefix) (g_middleware g ++ mws).
Definition groupHandle (r : router) (g : routeGroup) (method path : bytes) (handler : HandlerFunc) : router :=
  Handle r method (g_prefix g ++ path) (Chain handler (g_middleware g)).

(** The routes visited, in order, with their nodes. *)
Fixpoint walkRoutes (n : node) (prefix : bytes) : list (bytes * node) :=
  match n with
  | mkNode path cs _ h w p c _ _ _ _ =>
      let fullPath := prefix ++ path in
      match h, w with None, None => [] | _, _ => [(fullPath, n)] end ++
      (fix all (l : list node) : list (bytes * node) := match l with [] => [] | x :: l => walkRoutes x fullPath ++ all l end) cs ++
      match p with Some p => walkRoutes p (fullPath ++ [colon] ++ n_paramName p) | None => [] end ++
      match c with Some c => [(fullPath ++ [star] ++ n_catchName c, c)] | None => [] end
  end.

(** HEAD answers every GET route that no HEAD route answers. *)
Definition addImplicitHEAD (r : router) : router :=
  match treeOf r methodGET with
  | None => r
  | Some get =>
      let missing := flat_map (fun '(path, n) =>
        match n_handler n with
        | None => []
        | Some h =>
            match treeOf r methodHEAD with
            | Some head => match fst (findInTree head path) with Some _ => [] | None => [(path, h)] end
            | None => [(path, h)]
            end
        end) (walkRoutes get []) in
      fold_left (fun r '(path, h) => Handle r (str "HEAD") path h) missing r
  end.

Fixpoint buildNode (mws : list Z) (n : node) : node :=
  match n with
  | mkNode path cs idx h w p c pn cn bt il =>
      mkNode path (map (buildNode mws) cs) idx h
             (match h with Some h => Some (if il then hInline (Chain h mws) else Chain h mws) | None => w end)
             (match p with Some p => Some (buildNode mws p) | None => None end)
             (match c with Some c => Some (buildNode mws c) | None => None end) pn cn bt il
  end.

(** The wrapping, the collapse of an empty root above one child, and the
    backtracking flag. *)
Definition buildTree (mws : list Z) (root : node) : node :=
  let root := buildNode mws root in
  let root :=
    match n_path root, n_children root, n_wrapped root, n_param root, n_catch root with
    | [], [child], None, None, None => child
    | _, _, _, _, _ => root
    end in
  set_backtrackable root (hasStaticParamSiblings root).

Definition setFirst (v : list Z) (b : Z) : list Z :=
  let i := Z.to_nat (b / 64) in <[i := Z.lor (nth i v 0) (Z.shiftl 1 (b mod 64))]> v.
Definition testFirst (v : list Z) (b : Z) : bool := negb (Z.land (nth (Z.to_nat (b / 64)) v 0) (Z.shiftl 1 (b mod 64)) =? 0).

(** The loop over the trees; a parameter or catch-all at a root ends it. *)
Fixpoint firstBytes (ts : list (option node)) (v : list Z) : list Z :=
  match ts with
  | [] => v
  | None :: ts => firstBytes ts v
  | Some root :: ts =>
      let v := fold_left setFirst (n_indices root) v in
      match n_param root, n_catch root with
      | None, None => firstBytes ts v
      | _, _ => replicate 4 (2 ^ 64 - 1)
      end
  end.

Definition build (r : router) : router :=
  let r := addImplicitHEAD r in
  let ts := map (fmap (buildTree (globalMiddleware r))) (trees r) in
  mkRouter ts (map (fun t => match t with Some root => buildStatics (collectStaticRoutes root []) | None => None end) ts)
           (firstBytes ts (validFirst r)) (r_notFound r) (r_methodNotAllowed r) (globalMiddleware r)
           (applyMiddleware r (r_notFound r)) (applyMiddleware r (hAllow (r_methodNotAllowed r))) (applyMiddleware r hAutoOptions) true.

(** [Build] runs [build] once. *)
Definition Build (r : router) : router := if built r then r else build r.

(** What a lookup gives: the handler, the parameters and [req.allow]. *)
Record routed := mkRouted { rt_handler : option HandlerFunc; rt_params : params; rt_allow : bytes }.

(** One turn of the loop of [methodMiss]. *)
Definition allowedBit (path : bytes) (idx i : nat) (t : option node) : Z :=
  match t with
  | None => 0
  | Some root =>
      if Nat.eqb i idx then 0
      else if (match n_catch root with Some _ => hasPrefix path (n_path root) | None => false end) ||
              (match fst (findBuiltOrBacktrack root path) with Some _ => true | None => false end)
           then Z.shiftl 1 (Z.of_nat i) else 0
  end.

Definition allowedMask (r : router) (idx : nat) (path : bytes) : Z :=
  fold_left Z.lor (imap (fun i t => allowedBit path idx i t) (trees r)) 0.

Definition methodMiss (r : router) (idx : nat) (path : bytes) : routed :=
  let allowed := allowedMask r idx path in
  if allowed =? 0 then mkRouted (Some (wrappedNotFound r)) [] []
  else
    let allow := allowHeader (Z.lor allowed (Z.shiftl 1 (Z.of_nat methodOPTIONS))) in
    mkRouted (Some (if Nat.eqb idx methodOPTIONS then wrappedAutoOptions r else wrappedMethodNotAllowed r)) [] allow.

(** What follows the index of static routes. [ps] is what is in the request. *)
Definition lookupTree (r : router) (idx : nat) (root : node) (path : bytes) : routed :=
  match findBuilt root path with
  | (Some h, ps) => mkRouted (Some h) ps []
  | (None, ps) =>
      match (if n_backtrackable root then findWithBacktracking root path ps builtHandlerOf else (None, ps)) with
      | (Some h, ps) => mkRouted (Some h) ps []
      | (None, ps) =>
          match (if hasPrefix path (n_path root) then n_catch root else None) with
          | Some c => mkRouted (n_wrapped c) [(n_catchName c, zdrop (zlen (n_path root)) path)] []
          | None =>
              if (1 <? zlen path) && negb (testFirst (validFirst r) (znth path 1)) then mkRouted (Some (wrappedNotFound r)) ps []
              else methodMiss r idx path
          end
      end
  end.

Definition lookupBuilt (r : router) (idx : nat) (path : bytes) (ps : params) : routed :=
  match treeOf r idx with
  | None => methodMiss r idx path
  | Some root =>
      match (match statics r !! idx with Some (Some t) => lookupStatic t path | _ => None end) with
      | Some h => mkRouted h ps []
      | None => lookupTree r idx root path
      end
  end.

Definition Lookup (r : router) (method path : bytes) (ps : params) : routed :=
  match methodIndex method with
  | None => mkRouted (Some (if built r then wrappedNotFound r else r_notFound r)) ps []
  | Some idx =>
      if built r then lookupBuilt r idx path ps
      else
        match treeOf r idx with
        | None => mkRouted (Some (applyMiddleware r (r_notFound r))) ps []
        | Some root =>
            match findInTreeOrBacktrack root path with
            | (Some h, ps) => mkRouted (Some (applyMiddleware r h)) ps []
            | (None, ps) => mkRouted (Some (applyMiddleware r (r_notFound r))) ps []
            end
        end
  end.

Definition Match (r : router) (method path : bytes) : bool :=
  match methodIndex method with
  | None => false
  | Some idx =>
      match treeOf r idx with
      | None => false
      | Some root =>
          match fst (if built r then findBuiltOrBacktrack root path else findInTreeOrBacktrack root path) with Some _ => true | None => false end
      end
  end.
