(* ===== verification/RouterTrie.v ===== *)
(** The trie of the router is a finite map from patterns to handlers: what
    [addRoute] registers is exactly one binding (src/core/router.go). *)
From stdpp Require Import base list numbers list_numbers strings.
From Stdlib Require Import ZArith Lia ZifyBool.
From S2P Require Import Prelude Utils H1Scan Router.

Open Scope list_scope.
Open Scope Z_scope.

(** ** The common prefix, word by word *)

Lemma tz_shift m : 0 < m -> TrailingZeros64 (256 * m) = 8 + TrailingZeros64 m.
Proof. intros Hm. destruct m as [| p |]; try lia. change (256 * Z.pos p) with (Z.pos p~0~0~0~0~0~0~0~0). cbn [TrailingZeros64 trailing]. lia. Qed.

(** The lowest bit where two words differ lies in the first byte that differs. *)
Lemma tz_lcp l1 l2 : bytes_ok l1 -> bytes_ok l2 -> length l1 = length l2 -> le_val l1 <> le_val l2 ->
  TrailingZeros64 (Z.lxor (le_val l1) (le_val l2)) / 8 = lcpTail l1 l2 /\ lcpTail l1 l2 < zlen l1.
Proof.
  intros H1. revert l2. induction H1 as [| b1 l1 Hb1 Hl1 IH]; intros l2 H2 Hlen Hne; [by destruct l2 |].
  destruct l2 as [| b2 l2]; [done |]. apply Forall_cons_1 in H2 as [Hb2 Hl2]. cbn [le_val lcpTail] in *. rewrite lxor_cons by done. rewrite zlen_cons.
  destruct (b1 =? b2) eqn:E.
  - apply Z.eqb_eq in E as ->. rewrite Z.lxor_nilpotent, Z.add_0_l. destruct (IH l2 Hl2 ltac:(by simplify_eq/=) ltac:(lia)) as [IH1 IH2].
    assert (Z.lxor (le_val l1) (le_val l2) <> 0) by (intros Hx; apply Z.lxor_eq in Hx; lia).
    assert (0 <= Z.lxor (le_val l1) (le_val l2)) by (apply Z.lxor_nonneg; split; intros _; by apply le_val_nonneg).
    rewrite tz_shift by lia. split; [| lia]. rewrite <- IH1. replace (8 + TrailingZeros64 (Z.lxor (le_val l1) (le_val l2))) with (1 * 8 + TrailingZeros64 (Z.lxor (le_val l1) (le_val l2))) by lia. rewrite Z.div_add_l by lia. done.
  - pose proof (zlen_nonneg l1). split; [| lia]. set (x := Z.lxor b1 b2). set (m := Z.lxor (le_val l1) (le_val l2)).
    assert (Hx : x <> 0) by (intros Hx; apply Z.lxor_eq in Hx; lia). assert (0 <= x) by (unfold is_u8 in *; apply Z.lxor_nonneg; lia).
    assert (0 <= m) by (apply Z.lxor_nonneg; split; intros _; by apply le_val_nonneg).
    destruct (lowest_bit (x + 256 * m)) as (Ht0 & Ht & Hlow & _); [lia |]. set (t := TrailingZeros64 _) in *.
    assert (t < 8); [| by apply Z.div_small]. apply Z.nle_gt. intros Hge. apply Hx.
    assert (Hm : (x + 256 * m) mod 2 ^ 8 = 0).
    { apply Z.bits_inj'. intros n Hn. rewrite Z.bits_0. destruct (decide (n < 8)); [rewrite Z.mod_pow2_bits_low by lia; apply Hlow; lia | apply Z.mod_pow2_bits_high; lia]. }
    change (2 ^ 8) with 256 in Hm. rewrite (Z.mul_comm 256), Z.mod_add in Hm by lia.
    rewrite <- Hm. symmetry. apply Z.mod_small. exact (lxor_u8 b1 b2 Hb1 Hb2).
Qed.

Lemma lcpTail_bound a b : 0 <= lcpTail a b <= Z.min (zlen a) (zlen b).
Proof.
  revert b. induction a as [| x a IH]; intros b; [cbn; change (zlen (@nil Z)) with 0; pose proof (zlen_nonneg b); lia |].
  destruct b as [| y b]; [cbn; pose proof (zlen_nonneg (x :: a)); change (zlen (@nil Z)) with 0; lia |]. cbn [lcpTail]. rewrite !zlen_cons. specialize (IH b). destruct (x =? y); lia.
Qed.

Lemma lcpTail_app a b c d : length a = length b -> lcpTail (a ++ c) (b ++ d) = if lcpTail a b =? zlen a then zlen a + lcpTail c d else lcpTail a b.
Proof.
  revert b. induction a as [| x a IH]; intros [| y b] Hl; simplify_eq/=; [done |]. rewrite zlen_cons. pose proof (lcpTail_bound a b). pose proof (zlen_nonneg a).
  destruct (x =? y); [| rewrite (proj2 (Z.eqb_neq 0 (1 + zlen a))) by lia; done]. rewrite IH by done.
  destruct (lcpTail a b =? zlen a) eqn:E; [rewrite (proj2 (Z.eqb_eq (1 + lcpTail a b) (1 + zlen a))) by lia; lia | rewrite (proj2 (Z.eqb_neq (1 + lcpTail a b) (1 + zlen a))) by lia; done].
Qed.

Lemma lcpTail_refl a : lcpTail a a = zlen a.
Proof. induction a as [| x a IH]; [done |]. cbn. rewrite Z.eqb_refl, IH. by rewrite zlen_cons. Qed.

(** Eight bytes at a time, the prefix found is that of the byte loop. *)
Lemma lcpWords_spec fuel a b i : bytes_ok a -> bytes_ok b -> lcpWords fuel a b i = i + lcpTail a b.
Proof.
  revert a b i. induction fuel as [| fuel IH]; intros a b i Ha Hb; [done |]. cbn [lcpWords]. destruct (7 <? _) eqn:E; [| done].
  assert (Hla : zlen (ztake 8 a) = 8) by (apply zlen_take; lia). assert (Hlb : zlen (ztake 8 b) = 8) by (apply zlen_take; lia).
  assert (Hl : length (ztake 8 a) = length (ztake 8 b)) by (unfold zlen in *; lia).
  assert (Hta : bytes_ok (ztake 8 a)) by (by apply Forall_take). assert (Htb : bytes_ok (ztake 8 b)) by (by apply Forall_take).
  pose proof (lcpTail_app _ _ (zdrop 8 a) (zdrop 8 b) Hl) as Happ. rewrite !ztake_zdrop, Hla in Happ. rewrite Happ.
  destruct (le_val (ztake 8 a) =? le_val (ztake 8 b)) eqn:Ev; cbn [negb].
  - apply Z.eqb_eq, le_val_inj in Ev; [| done..]. rewrite <- Ev, lcpTail_refl, Hla. rewrite IH by (by apply Forall_drop). cbn. lia.
  - apply Z.eqb_neq in Ev. destruct (tz_lcp _ _ Hta Htb Hl Ev) as [-> Hlt]. rewrite (proj2 (Z.eqb_neq _ 8)) by lia. done.
Qed.

Lemma longestCommonPrefix_eq a b : bytes_ok a -> bytes_ok b -> longestCommonPrefix a b = lcpTail a b.
Proof. intros Ha Hb. unfold longestCommonPrefix. by rewrite lcpWords_spec. Qed.

Lemma lcpTail_take a b : ztake (lcpTail a b) a = ztake (lcpTail a b) b.
Proof.
  revert b. induction a as [| x a IH]; intros [| y b]; try done. cbn [lcpTail]. destruct (x =? y) eqn:E; [| done].
  pose proof (lcpTail_bound a b). unfold ztake in *. replace (Z.to_nat (1 + lcpTail a b)) with (S (Z.to_nat (lcpTail a b))) by lia. cbn [take]. f_equal; [lia | apply IH].
Qed.

(** ** Patterns *)

(** A pattern is a list of literal bytes, parameters and a final catch-all. *)
Inductive tok := TLit (c : Z) | TParam | TCatch.

#[export] Instance tok_eq_dec : EqDecision tok.
Proof. solve_decision. Defined.

(** The tokens of a pattern; [inName] while the name of a parameter goes on. *)
Fixpoint pat (inName : bool) (s : bytes) : list tok :=
  match s with
  | [] => []
  | c :: s =>
      if inName then if c =? slashByte then TLit c :: pat false s else pat true s
      else if c =? colon then TParam :: pat true s
      else if c =? star then [TCatch]
      else TLit c :: pat false s
  end.

Abbreviation pattern := (pat false).

Definition lits (s : bytes) : list tok := map TLit s.

Lemma pat_name s : pat true s = pattern (zdrop (segmentLen s) s).
Proof.
  induction s as [| c s IH]; [done |]. cbn [pat segmentLen]. destruct (c =? slashByte) eqn:E.
  - apply Z.eqb_eq in E as ->. done.
  - rewrite IH. f_equal. assert (0 <= segmentLen s) by (clear; induction s as [| x s IH]; cbn; [lia |]; destruct (x =? slashByte); lia).
    unfold zdrop. replace (Z.to_nat (1 + segmentLen s)) with (S (Z.to_nat (segmentLen s))) by lia. done.
Qed.

(** The bytes of the static parts of a trie. *)
Definition plain (c : Z) : Prop := is_u8 c /\ c <> colon /\ c <> star.

Lemma pat_plain s r : Forall plain s -> pattern (s ++ r) = lits s ++ pattern r.
Proof.
  induction 1 as [| c s (_ & Hc & Hs) _ IH]; [done |]. cbn [app pat lits map]. rewrite (proj2 (Z.eqb_neq c colon)), (proj2 (Z.eqb_neq c star)) by done. by rewrite IH.
Qed.

Lemma staticEnd_bound s : 0 <= staticEnd s <= zlen s.
Proof. induction s as [| c s IH]; cbn [staticEnd]; [done |]. rewrite zlen_cons. destruct (_ || _); lia. Qed.

Lemma staticEnd_plain s : bytes_ok s -> Forall plain (ztake (staticEnd s) s).
Proof.
  induction 1 as [| c s Hc _ IH]; [done |]. cbn [staticEnd]. destruct ((c =? colon) || (c =? star)) eqn:E; [done |].
  pose proof (staticEnd_bound s). unfold ztake in *. replace (Z.to_nat (1 + staticEnd s)) with (S (Z.to_nat (staticEnd s))) by lia. cbn [take].
  constructor; [| done]. unfold plain. split; [done | lia].
Qed.

(** ** Well-formed tries and their routes *)

Definition leaf (c : node) : Prop := n_path c = [] /\ n_children c = [] /\ n_indices c = [] /\ n_param c = None /\ n_catch c = None.

(** One node: each index is the first byte of its child's path, no two children
    share it, and parameters and catch-alls have no path of their own. *)
Record shape (n : node) : Prop := mkShape {
  sh_len : length (n_indices n) = length (n_children n);
  sh_nodup : NoDup (n_indices n);
  sh_child : forall i child, n_children n !! i = Some child ->
    n_indices n !! i = head (n_path child) /\ n_path child <> [] /\ Forall plain (n_path child);
  sh_param : forall p, n_param n = Some p -> n_path p = [];
  sh_catch : forall c, n_catch n = Some c -> leaf c }.

Inductive wf (n : node) : Prop :=
| wf_node (Hshape : shape n) (Hchildren : forall i child, n_children n !! i = Some child -> wf child)
    (Hparam : forall p, n_param n = Some p -> wf p).

(** [route hof n ts h]: the trie below [n] binds the pattern [ts] to [h]. *)
Inductive route (hof : node -> option HandlerFunc) : node -> list tok -> HandlerFunc -> Prop :=
| route_here n h : hof n = Some h -> route hof n [] h
| route_static n i child ts h : n_children n !! i = Some child -> route hof child ts h -> route hof n (lits (n_path child) ++ ts) h
| route_param n p ts h : n_param n = Some p -> route hof p ts h -> route hof n (TParam :: ts) h
| route_catch n c h : n_catch n = Some c -> hof c = Some h -> route hof n [TCatch] h.

(** The routes through a child, its own path included. *)
Definition below (hof : node -> option HandlerFunc) (child : node) (ts : list tok) (h : HandlerFunc) : Prop :=
  exists ts', ts = lits (n_path child) ++ ts' /\ route hof child ts' h.

Lemma route_inv hof n ts h : route hof n ts h <->
  (ts = [] /\ hof n = Some h) \/ (exists i child, n_children n !! i = Some child /\ below hof child ts h) \/
  (exists p ts', n_param n = Some p /\ ts = TParam :: ts' /\ route hof p ts' h) \/
  (exists c, n_catch n = Some c /\ ts = [TCatch] /\ hof c = Some h).
Proof.
  split.
  - destruct 1; [by left | right; left; eexists _, _; split; [done |]; eexists; done | right; right; left; by eexists _, _ | right; right; right; by eexists].
  - intros [[-> H] | [(i & child & Hi & ts' & -> & H) | [(p & ts' & Hp & -> & H) | (c & Hc & -> & H)]]]; by econstructor.
Qed.

(** Where two routes through children of the same node meet, the child is the same. *)
Lemma below_head n i child hof ts h : wf n -> n_children n !! i = Some child -> below hof child ts h ->
  exists c ts', ts = TLit c :: ts' /\ n_indices n !! i = Some c.
Proof.
  intros Hwf Hi (ts' & -> & _). destruct Hwf as [Hs _ _]. destruct (sh_child n Hs i child Hi) as (Hidx & Hne & _).
  destruct (n_path child) as [| c s]; [done |]. by eexists c, _.
Qed.

Lemma wf_index_inj n i j c : wf n -> n_indices n !! i = Some c -> n_indices n !! j = Some c -> i = j.
Proof. intros [Hs _ _] ? ?. eapply NoDup_lookup; [apply Hs | done..]. Qed.

Lemma indexOf_spec idx c k : match indexOf idx c k with
  | Some i => exists j, i = (k + j)%nat /\ idx !! j = Some c
  | None => c ∉ idx end.
Proof.
  revert k. induction idx as [| b idx IH]; intros k; cbn; [apply not_elem_of_nil |]. destruct (b =? c) eqn:E.
  - exists O. split; [lia |]. cbn. f_equal. lia.
  - specialize (IH (S k)). destruct (indexOf idx c (S k)); [destruct IH as (j & -> & Hj); exists (S j); split; [lia | done] |].
    apply not_elem_of_cons. split; [lia | done].
Qed.

(** ** Splitting *)

Lemma lits_app a b : lits (a ++ b) = lits a ++ lits b.
Proof. apply map_app. Qed.

Lemma splitChild_path child k : n_path (splitChild child k) = ztake k (n_path child).
Proof. done. Qed.

Lemma splitChild_wf child k : 0 < k < zlen (n_path child) -> Forall plain (n_path child) -> wf child -> wf (splitChild child k).
Proof.
  intros Hk Hp [Hs Hc Hpar]. assert (Hd : zlen (zdrop k (n_path child)) = zlen (n_path child) - k) by (apply zlen_drop; lia).
  assert (Hne : zdrop k (n_path child) <> []) by (intros E; rewrite E in Hd; change (zlen (@nil Z)) with 0 in Hd; lia).
  apply wf_node; [apply mkShape | |].
  - reflexivity.
  - apply NoDup_singleton.
  - intros [| i] c Hi; [| discriminate Hi]. injection Hi as <-. cbn [n_path]. split_and!; [unfold splitChild; cbn; by destruct (zdrop k (n_path child)) | done | by apply Forall_drop].
  - intros p Hp'. discriminate Hp'.
  - intros c Hc'. discriminate Hc'.
  - intros [| i] c Hi; [| discriminate Hi]. injection Hi as <-. apply wf_node; [| exact Hc | exact Hpar]. apply mkShape; apply Hs.
  - intros p Hp'. discriminate Hp'.
Qed.

Lemma splitChild_below child k ts h : 0 < k < zlen (n_path child) ->
  below treeHandlerOf (splitChild child k) ts h <-> below treeHandlerOf child ts h.
Proof.
  intros Hk. assert (Hroute : forall ts', route treeHandlerOf (splitChild child k) ts' h <->
    exists ts'', ts' = lits (zdrop k (n_path child)) ++ ts'' /\ route treeHandlerOf child ts'' h).
  { intros ts'. rewrite route_inv. split.
    - intros [[_ H] | [(i & c & Hi & ts'' & -> & H) | [(p & ? & Hp & _) | (c & Hc & _)]]]; try done. destruct i as [| i]; [| done]. cbn in Hi. injection Hi as <-.
      exists ts''. split; [done |]. apply route_inv in H. apply route_inv. exact H.
    - intros (ts'' & -> & H). right; left. exists O. eexists. split; [reflexivity |]. exists ts''. split; [done |]. apply route_inv in H. apply route_inv. exact H. }
  unfold below. rewrite splitChild_path. assert (El : lits (n_path child) = lits (ztake k (n_path child)) ++ lits (zdrop k (n_path child))) by (by rewrite <- lits_app, ztake_zdrop).
  rewrite El. split.
  - intros (ts' & -> & H). apply Hroute in H as (ts'' & -> & H). exists ts''. split; [by rewrite app_assoc | done].
  - intros (ts'' & -> & H). exists (lits (zdrop k (n_path child)) ++ ts''). split; [by rewrite app_assoc |]. apply Hroute. by exists ts''.
Qed.

(** ** Routes by their first token *)

Section heads.
  Context (hof : node -> option HandlerFunc) (n : node) (Hwf : wf n).

Lemma below_lit i child ts h : n_children n !! i = Some child -> below hof child ts h -> exists c ts', ts = TLit c :: ts'.
Proof. intros Hi Hb. destruct (below_head n i child hof ts h Hwf Hi Hb) as (c & ts' & -> & _). by eexists _, _. Qed.

Lemma route_nil h : route hof n [] h <-> hof n = Some h.
Proof.
  rewrite route_inv. split; [| by left]. intros [[_ H] | [(i & child & Hi & Hb) | [(p & ? & _ & E & _) | (c & _ & E & _)]]]; try done.
  by destruct (below_lit _ _ _ _ Hi Hb) as (? & ? & ?).
Qed.

Lemma route_lit c ts h : route hof n (TLit c :: ts) h <-> exists i child, n_children n !! i = Some child /\ below hof child (TLit c :: ts) h.
Proof. rewrite route_inv. split; [| by right; left]. intros [[E _] | [H | [(p & ? & _ & E & _) | (? & _ & E & _)]]]; done. Qed.

Lemma route_par ts h : route hof n (TParam :: ts) h <-> exists p, n_param n = Some p /\ route hof p ts h.
Proof.
  rewrite route_inv. split.
  - intros [[E _] | [(i & child & Hi & Hb) | [(p & ts' & Hp & E & H) | (? & _ & E & _)]]]; try done.
    + by destruct (below_lit _ _ _ _ Hi Hb) as (? & ? & ?).
    + injection E as <-. by exists p.
  - intros (p & Hp & H). right; right; left. by exists p, ts.
Qed.

Lemma route_cat ts h : route hof n (TCatch :: ts) h <-> ts = [] /\ exists c, n_catch n = Some c /\ hof c = Some h.
Proof.
  rewrite route_inv. split.
  - intros [[E _] | [(i & child & Hi & Hb) | [(p & ts' & Hp & E & H) | (c & Hc & E & H)]]]; try done.
    + by destruct (below_lit _ _ _ _ Hi Hb) as (? & ? & ?).
    + injection E as ->. split; [done |]. by exists c.
  - intros (-> & c & Hc & H). right; right; right. by exists c.
Qed.
End heads.

(** ** Insertion, one node at a time *)

(** [n'] is [n] with the pattern [ts0] bound to [h]. *)
Definition inserted (n n' : node) (ts0 : list tok) (h : HandlerFunc) : Prop :=
  wf n' /\ n_path n' = n_path n /\
  forall ts h', route treeHandlerOf n' ts h' <-> (ts = ts0 /\ h' = h) \/ (ts <> ts0 /\ route treeHandlerOf n ts h').


(** A pattern that starts with another token is bound as before. *)
Lemma other_route (x y : list tok) (R P Q : Prop) : x <> y -> (P <-> Q) -> (P <-> (x = y /\ R) \/ (x <> y /\ Q)).
Proof. tauto. Qed.

Lemma inserted_handler n h : wf n -> inserted n (set_handler n (Some h)) [] h.
Proof.
  intros Hwf. pose proof Hwf as [Hs Hc Hp]. assert (Hwf' : wf (set_handler n (Some h))) by (apply wf_node; [apply mkShape; apply Hs | exact Hc | exact Hp]).
  split_and!; [done | done |]. intros [| [c | |] ts] h'.
  - rewrite !route_nil by done. unfold treeHandlerOf. cbn. split; [intros [= <-]; by left | by intros [[_ ->] | [? _]]].
  - rewrite !route_lit by done. by apply other_route.
  - rewrite !route_par by done. by apply other_route.
  - rewrite !route_cat by done. by apply other_route.
Qed.

Lemma inserted_param n p p' ts0 h : wf n -> n_path p = [] -> inserted p p' ts0 h ->
  (forall ts h', route treeHandlerOf p ts h' <-> exists q, n_param n = Some q /\ route treeHandlerOf q ts h') ->
  inserted n (set_param n (Some p')) (TParam :: ts0) h.
Proof.
  intros Hwf Hpp (Hwfp & Hpath & Hr) Hold. pose proof Hwf as [Hs Hc Hp].
  assert (Hwf' : wf (set_param n (Some p'))).
  { apply wf_node; [apply mkShape; try apply Hs | exact Hc |]; intros q [= <-]; [congruence | done]. }
  split_and!; [done | done |]. intros [| [c | |] ts] h'.
  - rewrite !route_nil by done. by apply other_route.
  - rewrite !route_lit by done. by apply other_route.
  - rewrite !route_par by done. cbn. rewrite <- Hold. split.
    + intros (q & [= <-] & H). apply Hr in H as [[-> ->] | [Hne H]]; [by left | right; split; [congruence | done]].
    + intros H. exists p'. split; [done |]. apply Hr. destruct H as [[[= ->] ->] | [Hne H]]; [by left | right; split; [congruence | done]].
  - rewrite !route_cat by done. by apply other_route.
Qed.

Lemma inserted_catch n c h : wf n -> leaf c -> n_handler c = Some h -> inserted n (set_catch n (Some c)) [TCatch] h.
Proof.
  intros Hwf Hl Hh. pose proof Hwf as [Hs Hc Hp].
  assert (Hwf' : wf (set_catch n (Some c))) by (apply wf_node; [apply mkShape; try apply Hs; by intros ? [= <-] | exact Hc | exact Hp]).
  split_and!; [done | done |]. intros [| [b | |] ts] h'.
  - rewrite !route_nil by done. by apply other_route.
  - rewrite !route_lit by done. by apply other_route.
  - rewrite !route_par by done. by apply other_route.
  - rewrite !route_cat by done. cbn. unfold treeHandlerOf. split.
    + intros (-> & d & [= <-] & H). left. split; [done | congruence].
    + intros [[[= ->] ->] | [Hne (-> & _)]]; [| done]. split; [done |]. by exists c.
Qed.

(** Through a child: [child] may have been split into [child']. *)
Lemma inserted_below child' child'' ts0 h ts h' : inserted child' child'' ts0 h ->
  below treeHandlerOf child'' ts h' <-> (ts = lits (n_path child') ++ ts0 /\ h' = h) \/
    (ts <> lits (n_path child') ++ ts0 /\ below treeHandlerOf child' ts h').
Proof.
  intros (_ & Hp & Hr). unfold below. rewrite Hp. split.
  - intros (ts' & -> & H). apply Hr in H as [[-> ->] | [Hne H]]; [by left | right; split; [by intros ?%app_inv_head | by exists ts']].
  - intros [[-> ->] | [Hne (ts' & -> & H)]]; [exists ts0; split; [done |]; apply Hr; by left |].
    exists ts'. split; [done |]. apply Hr. right. split; [congruence | done].
Qed.

Lemma inserted_child n i child child' child'' ts0 h : wf n -> n_children n !! i = Some child ->
  head (n_path child') = head (n_path child) -> n_path child' <> [] -> Forall plain (n_path child') ->
  (forall ts h', below treeHandlerOf child' ts h' <-> below treeHandlerOf child ts h') -> inserted child' child'' ts0 h ->
  inserted n (set_children n (<[i := child'']> (n_children n)) (n_indices n)) (lits (n_path child') ++ ts0) h.
Proof.
  intros Hwf Hi Hhd Hne Hpl Hb Hins. pose proof Hwf as [Hs Hc Hp]. pose proof (lookup_lt_Some _ _ _ Hi) as Hlt. pose proof Hins as (Hwfc & Hpath & _).
  assert (Hwf' : wf (set_children n (<[i := child'']> (n_children n)) (n_indices n))).
  { apply wf_node; [apply mkShape; try apply Hs | | exact Hp]; cbn.
    - rewrite length_insert. apply Hs.
    - intros j c Hj. apply list_lookup_insert_Some in Hj as [(<- & <- & _) | (_ & Hj)]; [| by apply Hs].
      rewrite Hpath, Hhd. split; [apply (sh_child n Hs i child Hi) | done].
    - intros j c Hj. apply list_lookup_insert_Some in Hj as [(<- & <- & _) | (_ & Hj)]; [done | by eapply Hc]. }
  split_and!; [done | done |]. intros [| [c | |] ts] h'.
  - rewrite !route_nil by done. apply other_route; [by destruct (n_path child') | done].
  - rewrite !route_lit by done. cbn. split.
    + intros (j & c' & Hj & H). apply list_lookup_insert_Some in Hj as [(<- & <- & _) | (Hij & Hj)].
      * apply (inserted_below child' child'' ts0 h) in H as [H | [Hn H]]; [by left | right; split; [done |]; exists i, child; split; [done | by apply Hb] | done].
      * right. split; [| by exists j, c']. intros E. destruct (below_head n j c' _ _ _ Hwf Hj H) as (b & ? & [= <- _] & Hb1).
        apply Hij. eapply (wf_index_inj n); [done | | exact Hb1]. rewrite (proj1 (sh_child n Hs i child Hi)), <- Hhd. destruct (n_path child'); [done |]. by injection E as ->.
    + intros [[E ->] | [Hn (j & c' & Hj & H)]].
      * exists i, child''. split; [by apply list_lookup_insert_eq |]. apply (inserted_below child' child'' ts0 h); [done | by left].
      * destruct (decide (i = j)) as [<- | Hij]; [| exists j, c'; split; [by rewrite list_lookup_insert_ne | done]].
        rewrite Hi in Hj. injection Hj as <-. exists i, child''. split; [by apply list_lookup_insert_eq |].
        apply (inserted_below child' child'' ts0 h); [done |]. right. split; [done | by apply Hb].
  - rewrite !route_par by done. apply other_route; [by destruct (n_path child') | done].
  - rewrite !route_cat by done. apply other_route; [by destruct (n_path child') | done].
Qed.

(** A new child. *)
Lemma pathNode_no_route s ts h : ~ route treeHandlerOf (pathNode s) ts h.
Proof. rewrite route_inv. intros [[_ H] | [(i & ? & Hi & _) | [(p & ? & Hp & _) | (c & Hc & _)]]]; [done | by destruct i | done | done]. Qed.

Lemma inserted_new n c seg child'' ts0 h : wf n -> c ∉ n_indices n -> Forall plain (c :: seg) -> inserted (pathNode (c :: seg)) child'' ts0 h ->
  inserted n (set_children n (n_children n ++ [child'']) (n_indices n ++ [c])) (lits (c :: seg) ++ ts0) h.
Proof.
  intros Hwf Hc' Hpl Hins. pose proof Hwf as [Hs Hc Hp]. pose proof Hins as (Hwfc & Hpath & _). pose proof (sh_len n Hs) as Hlen.
  assert (Hcase : forall j d, (n_children n ++ [child'']) !! j = Some d -> n_children n !! j = Some d \/ (j = length (n_children n) /\ d = child'')).
  { intros j d Hj. apply lookup_app_Some in Hj as [Hj | [Hge Hj]]; [by left | right]. apply list_lookup_singleton_Some in Hj as [? <-]. split; [lia | done]. }
  assert (Hwf' : wf (set_children n (n_children n ++ [child'']) (n_indices n ++ [c]))).
  { apply wf_node; [apply mkShape; try apply Hs | | exact Hp]; cbn.
    - rewrite !length_app. cbn. lia.
    - apply NoDup_app. split_and!; [apply Hs | by intros x Hx ->%list_elem_of_singleton | apply NoDup_singleton].
    - intros j d Hj. destruct (Hcase j d Hj) as [Hj' | [-> ->]].
      + rewrite lookup_app_l by (rewrite Hlen; by eapply lookup_lt_Some). by apply Hs.
      + rewrite Hpath, lookup_app_r, Hlen, Nat.sub_diag by lia. done.
    - intros j d Hj. destruct (Hcase j d Hj) as [Hj' | [-> ->]]; [by eapply Hc | done]. }
  split_and!; [done | done |]. intros [| [b | |] ts] h'.
  - rewrite !route_nil by done. by apply other_route.
  - rewrite !route_lit by done. cbn [set_children n_children]. split.
    + intros (j & d & Hj & H). destruct (Hcase j d Hj) as [Hj' | [-> ->]].
      * right. split; [| by exists j, d]. intros [= -> _]. destruct (below_head n j d _ _ _ Hwf Hj' H) as (b & ? & [= <- _] & Hb1).
        by apply Hc', (list_elem_of_lookup_2 _ j).
      * apply (inserted_below _ _ _ _ _ _ Hins) in H as [H | [_ (? & _ & H)]]; [by left | by apply pathNode_no_route in H].
    + intros [[E ->] | [Hn (j & d & Hj & H)]].
      * exists (length (n_children n)), child''. split; [by rewrite lookup_app_r, Nat.sub_diag by lia |]. apply (inserted_below _ _ _ _ _ _ Hins). by left.
      * exists j, d. split; [| done]. apply lookup_app_l_Some. done.
  - rewrite !route_par by done. by apply other_route.
  - rewrite !route_cat by done. by apply other_route.
Qed.

(** ** Insertion *)

Lemma emptyShape s : wf (pathNode s).
Proof.
  apply wf_node; [apply mkShape | |]; [done | constructor | | | | |].
  all: intros; discriminate.
Qed.

Lemma wf_rename p name : wf p -> wf (set_paramName p name).
Proof. intros [Hs Hc Hp]. apply wf_node; [apply mkShape; apply Hs | exact Hc | exact Hp]. Qed.

Lemma route_rename p name ts h : route treeHandlerOf (set_paramName p name) ts h <-> route treeHandlerOf p ts h.
Proof. by rewrite !route_inv. Qed.

Lemma segmentLen_bound s : 0 <= segmentLen s <= zlen s.
Proof. induction s as [| x s IH]; cbn [segmentLen]; [done |]. rewrite zlen_cons. destruct (x =? slashByte); lia. Qed.

(** The child chosen by its index, split at the common prefix. *)
Definition sharedChild (child : node) (remaining : bytes) : node :=
  let k := longestCommonPrefix (n_path child) remaining in if k <? zlen (n_path child) then splitChild child k else child.

Lemma sharedChild_spec child c remaining : wf child -> Forall plain (n_path child) -> bytes_ok (c :: remaining) -> head (n_path child) = Some c ->
  let k := longestCommonPrefix (n_path child) (c :: remaining) in let child' := sharedChild child (c :: remaining) in
  0 < k /\ n_path child' = ztake k (c :: remaining) /\ head (n_path child') = Some c /\ Forall plain (n_path child') /\ wf child' /\
  forall ts h, below treeHandlerOf child' ts h <-> below treeHandlerOf child ts h.
Proof.
  intros Hwf Hpl Hok Hhd. cbv zeta. assert (Hpok : bytes_ok (n_path child)) by (eapply Forall_impl; [exact Hpl |]; by intros ? [? _]).
  unfold sharedChild. rewrite longestCommonPrefix_eq by done. set (k := lcpTail (n_path child) (c :: remaining)).
  pose proof (lcpTail_bound (n_path child) (c :: remaining)) as Hb. pose proof (lcpTail_take (n_path child) (c :: remaining)) as Ht. fold k in Hb, Ht.
  assert (Hk : 0 < k).
  { subst k. destruct (n_path child) as [| b s]; [done |]. injection Hhd as ->. cbn [lcpTail]. rewrite Z.eqb_refl. pose proof (lcpTail_bound s remaining). lia. }
  destruct (k <? zlen (n_path child)) eqn:E.
  - split_and!; [done | rewrite splitChild_path; exact Ht | | by apply Forall_take | apply splitChild_wf; [lia | done | done] | intros ts h; apply splitChild_below; lia].
    rewrite splitChild_path, Ht. unfold ztake. by replace (Z.to_nat k) with (S (Z.to_nat (k - 1))) by lia.
  - split_and!; [done | | done | done | done | done]. rewrite <- Ht. unfold ztake. rewrite take_ge; [done |]. unfold zlen in *. lia.
Qed.

Lemma pattern_param c rest : (c =? colon) = true -> pattern (c :: rest) = TParam :: pattern (zdrop (1 + segmentLen rest) (c :: rest)).
Proof.
  intros E. cbn [pat]. rewrite E, pat_name. pose proof (segmentLen_bound rest). unfold zdrop.
  by replace (Z.to_nat (1 + segmentLen rest)) with (S (Z.to_nat (segmentLen rest))) by lia.
Qed.

Lemma pattern_prefix k s : Forall plain (ztake k s) -> pattern s = lits (ztake k s) ++ pattern (zdrop k s).
Proof. intros H. rewrite <- pat_plain by done. by rewrite ztake_zdrop. Qed.

Lemma addLoop_inserted fuel n remaining h : wf n -> bytes_ok remaining -> (length remaining < fuel)%nat ->
  inserted n (addLoop fuel n remaining h) (pattern remaining) h.
Proof.
  revert n remaining. induction fuel as [| fuel IH]; intros n remaining Hwf Hok Hf; [lia |].
  destruct remaining as [| c rest]; cbn [addLoop]; [by apply inserted_handler |]. cbn [length] in Hf. pose proof Hwf as [Hs Hc Hp].
  destruct (c =? colon) eqn:Ecol; [| destruct (c =? star) eqn:Est; [| destruct (indexOf (n_indices n) c 0) as [i |] eqn:Ei]].
  - rewrite pattern_param by done. pose proof (segmentLen_bound rest). set (name := zslice (c :: rest) 1 (1 + segmentLen rest)).
    set (p := match n_param n with Some p => p | None => paramNode name end).
    assert (Hwfp : wf p) by (subst p; destruct (n_param n) as [q |] eqn:Eq; [by apply Hp | exact (wf_rename _ name (emptyShape []))]).
    apply (inserted_param n (set_paramName p name)); [done | | apply IH; [by apply wf_rename | by apply Forall_drop |] |].
    + subst p. destruct (n_param n) as [q |] eqn:Eq; [exact (sh_param n Hs q Eq) | done].
    + unfold zdrop. rewrite length_drop. cbn [length]. lia.
    + intros ts h'. rewrite route_rename. subst p. destruct (n_param n) as [q |]; [split; [by exists q | by intros (? & [= <-] & ?)] |].
      split; [intros Hr; exfalso; exact (pathNode_no_route [] ts h' (proj1 (route_rename (pathNode []) name ts h') Hr)) | intros (q & Eq & _); discriminate Eq].
  - assert (Epat : pattern (c :: rest) = [TCatch]) by (cbn [pat]; by rewrite Ecol, Est). rewrite Epat. apply inserted_catch; [done | repeat split; reflexivity | reflexivity].
  - pose proof (indexOf_spec (n_indices n) c 0) as Hix. rewrite Ei in Hix. destruct Hix as (j & -> & Hj). cbn [Nat.add] in *.
    destruct (lookup_lt_is_Some_2 (n_children n) j) as [child Hchild]; [rewrite <- (sh_len n Hs); by eapply lookup_lt_Some |].
    rewrite Hchild. destruct (sh_child n Hs j child Hchild) as (Hhd & _ & Hpl). rewrite Hj in Hhd.
    destruct (sharedChild_spec child c rest (Hc j child Hchild) Hpl Hok (eq_sym Hhd)) as (Hk & Hpath & Hhd' & Hpl' & Hwf' & Hb).
    fold (sharedChild child (c :: rest)). set (k := longestCommonPrefix (n_path child) (c :: rest)) in *.
    rewrite (pattern_prefix k), <- Hpath by (by rewrite <- Hpath). apply (inserted_child n j child); [done | done | congruence | by destruct (n_path (sharedChild _ _)) | done | done |].
    apply IH; [done | by apply Forall_drop |]. unfold zdrop. rewrite length_drop. cbn [length]. lia.
  - pose proof (indexOf_spec (n_indices n) c 0) as Hix. rewrite Ei in Hix. pose proof (staticEnd_bound rest).
    assert (Ese : staticEnd (c :: rest) = 1 + staticEnd rest) by (cbn [staticEnd]; by rewrite Ecol, Est).
    pose proof (staticEnd_plain (c :: rest) Hok) as Hpl. set (se := staticEnd (c :: rest)) in *.
    rewrite (pattern_prefix se) by done. assert (Eseg : ztake se (c :: rest) = c :: ztake (staticEnd rest) rest).
    { rewrite Ese. unfold ztake. by replace (Z.to_nat (1 + staticEnd rest)) with (S (Z.to_nat (staticEnd rest))) by lia. }
    rewrite Eseg in *. change (znth (c :: ztake (staticEnd rest) rest) 0) with c. apply inserted_new; [done | done | done |].
    apply IH; [apply emptyShape | by apply Forall_drop |]. unfold zdrop. rewrite length_drop. cbn [length]. lia.
Qed.

(** ** The trie is the map of its registrations *)

(** The handler a sequence of registrations binds to a pattern: the last one. *)
Definition registered (rs : list (bytes * HandlerFunc)) (ts : list tok) : option HandlerFunc :=
  fold_left (fun acc '(path, h) => if decide (pattern path = ts) then Some h else acc) rs None.

Definition register (root : node) (rs : list (bytes * HandlerFunc)) : node := fold_left (fun root '(path, h) => addRoute root path h) rs root.

Lemma register_snoc root rs path h : register root (rs ++ [(path, h)]) = addRoute (register root rs) path h.
Proof. unfold register. by rewrite fold_left_app. Qed.

Lemma register_routes rs : Forall (fun r => bytes_ok r.1) rs ->
  wf (register emptyNode rs) /\ n_path (register emptyNode rs) = [] /\
  forall ts h, route treeHandlerOf (register emptyNode rs) ts h <-> registered rs ts = Some h.
Proof.
  induction rs as [| [path h0] rs IH] using rev_ind; intros Hok.
  - split_and!; [exact (emptyShape []) | done |]. intros ts h. split; [intros H; by destruct (pathNode_no_route [] ts h) | done].
  - apply Forall_app in Hok as [Hok Hp]. apply Forall_cons_1 in Hp as [Hp _]. destruct (IH Hok) as (Hwf & Hpath & Hr).
    destruct (addLoop_inserted (S (length path)) _ path h0 Hwf Hp ltac:(lia)) as (Hwf' & Hpath' & Hr').
    rewrite register_snoc. split_and!; [exact Hwf' | unfold addRoute; congruence |]. intros ts h. rewrite (Hr' ts h), Hr.
    unfold registered. rewrite fold_left_app. cbn. case_decide as E.
    + split; [intros [[_ ->] | [Hn _]]; congruence | intros [= <-]; by left].
    + split; [intros [[Ht _] | [_ Hg]]; congruence | intros Hg; right; by split].
Qed.

(** Whatever patterns are registered, in whatever order, the trie the
    router builds by splitting nodes binds exactly the registered patterns, each
    to the handler registered last, and keeps its shape: index bytes distinct
    and equal to the first bytes of the children, which hold no parameter or
    catch-all characters. *)
Theorem router_refines_map (rs : list (bytes * HandlerFunc)) : Forall (fun r => bytes_ok r.1) rs ->
  let root := register emptyNode rs in
  wf root /\ forall ts h, route treeHandlerOf root ts h <-> registered rs ts = Some h.
Proof. intros H. destruct (register_routes rs H) as (H1 & _ & H2). by split. Qed.

Lemma router_refines_map_witness :
  let rs := [(str "/users/:id", hUser 1); (str "/usage", hUser 2); (str "/users/new", hUser 3); (str "/users/:name", hUser 4); (str "/f/*p", hUser 5)] in
  Forall (fun r => bytes_ok r.1) rs /\ route treeHandlerOf (register emptyNode rs) (pattern (str "/users/:x")) (hUser 4).
Proof.
  intros rs. assert (H : Forall (fun r => bytes_ok r.1) rs) by (repeat constructor; cbv; congruence).
  split; [exact H |]. apply (router_refines_map rs H). vm_compute. reflexivity.
Defined.
