(* ===== verification/RouterFind.v ===== *)
(** The searches of the router against the routes registered: what the greedy
    and the backtracking search return is registered for a pattern that matches
    the path, and a search that returns nothing within its budget misses no
    route (src/core/router.go). *)
From stdpp Require Import base list numbers list_numbers strings.
From Stdlib Require Import ZArith Lia ZifyBool.
From S2P Require Import Prelude Utils H1Scan Router RouterTrie.

Open Scope list_scope.
Open Scope Z_scope.

(** ** Matching *)

(** A pattern matches a path with the values of its parameters: a parameter
    takes the bytes up to the next slash, a catch-all everything left, and
    neither matches at the end of the path. *)
Inductive matches : list tok -> bytes -> list bytes -> Prop :=
| match_end : matches [] [] []
| match_lit c ts s vs : matches ts s vs -> matches (TLit c :: ts) (c :: s) vs
| match_param ts s vs : s <> [] -> matches ts (zdrop (segmentLen s) s) vs -> matches (TParam :: ts) s (ztake (segmentLen s) s :: vs)
| match_catch s : s <> [] -> matches [TCatch] s [s].

Lemma matches_lits l ts s vs : matches (lits l ++ ts) s vs <-> exists s', s = l ++ s' /\ matches ts s' vs.
Proof.
  revert s. induction l as [| c l IH]; intros s; cbn [lits map app].
  - split; [intros H; by exists s | by intros (? & -> & ?)].
  - split.
    + inversion 1; subst. destruct (proj1 (IH _) ltac:(eassumption)) as (s' & -> & ?). by exists s'.
    + intros (s' & -> & H). cbn. constructor. apply IH. by exists s'.
Qed.

Lemma matches_nil ts vs : matches ts [] vs -> ts = [] /\ vs = [].
Proof. inversion 1; by subst. Qed.

(** The values recorded: the array holds eight. *)
Definition recorded (ps : params) (vs : list bytes) : Prop := map snd ps = take (Z.to_nat maxParams) vs.

Lemma recorded_append ps vs k v : recorded ps vs -> recorded (appendRouteParam ps k v) (vs ++ [v]).
Proof.
  unfold recorded, appendRouteParam, maxParams. intros H. assert (Hl : length ps = Nat.min 8 (length vs)) by (rewrite <- (length_map snd ps), H, length_take; lia).
  destruct (zlen ps <? 8) eqn:E; unfold zlen in E.
  - rewrite map_app, H, !take_ge by (rewrite ?length_app; cbn; lia). done.
  - rewrite H. rewrite take_app_le by lia. done.
Qed.

(** ** The static step *)

Lemma childAt_try n i (try : node -> option (node * bytes)) :
  childAt n i try = match n_children n !! i with Some child => try child | None => None end.
Proof. done. Qed.

Lemma staticMatch_scan try n c : staticMatch try n c = match indexOf (n_indices n) c 0 with Some i => childAt n i try | None => None end.
Proof.
  unfold staticMatch. destruct (n_indices n) as [| i0 [| i1 [| i2 idx]]]; cbn [indexOf]; try done.
  - by destruct (i0 =? c).
  - destruct (i0 =? c); [done |]. by destruct (i1 =? c).
Qed.

Lemma hasPrefix_spec s p : hasPrefix s p = true <-> exists r, s = p ++ r.
Proof.
  unfold hasPrefix. rewrite andb_true_iff, bool_decide_eq_true. split.
  - intros [_ E]. exists (zdrop (zlen p) s). by rewrite <- E at 1; rewrite ztake_zdrop.
  - intros (r & ->). rewrite zlen_app, ztake_app_exact. pose proof (zlen_nonneg r). split; [lia | done].
Qed.

(** What a static step does: the child whose path begins the rest. *)
Definition staticStep (n : node) (remaining : bytes) : option (node * bytes) :=
  match staticChildFor n remaining with Some child => Some (child, zdrop (zlen (n_path child)) remaining) | None => None end.

Lemma tryChild_step remaining child :
  tryChild remaining child = if hasPrefix remaining (n_path child) then Some (child, zdrop (zlen (n_path child)) remaining) else None.
Proof. done. Qed.

Lemma staticMatch_tree n remaining : staticMatch (tryChild remaining) n (znth remaining 0) = staticStep n remaining.
Proof.
  rewrite staticMatch_scan. unfold staticStep, staticChildFor, childAt. destruct (indexOf _ _ _); [| done]. destruct (n_children n !! n0); [| done].
  rewrite tryChild_step. by destruct (hasPrefix _ _).
Qed.

(** Not comparing a path of one byte again changes nothing: it is the index. *)
Lemma staticMatch_built n remaining : wf n -> remaining <> [] -> staticMatch (tryBuilt remaining) n (znth remaining 0) = staticStep n remaining.
Proof.
  intros [Hs _ _] Hne. rewrite staticMatch_scan. unfold staticStep, staticChildFor, childAt. pose proof (indexOf_spec (n_indices n) (znth remaining 0) 0) as Hi.
  destruct (indexOf _ _ _) as [i |]; [| done]. destruct Hi as (j & -> & Hj). cbn [Nat.add]. destruct (n_children n !! j) as [child |] eqn:Ec; [| done].
  unfold tryBuilt. rewrite tryChild_step. destruct (zlen (n_path child) =? 1) eqn:E1; [| by destruct (hasPrefix _ _)].
  destruct (sh_child n Hs j child Ec) as (Hhd & _ & _). rewrite Hj in Hhd. destruct (n_path child) as [| b [| b' l]] eqn:Ep; [done | | unfold zlen in E1; cbn [length] in E1; lia].
  injection Hhd as <-. destruct remaining as [| c s]; [done |]. change (znth (c :: s) 0) with c. replace (hasPrefix (c :: s) [c]) with true; [by rewrite Ep |].
  symmetry. apply hasPrefix_spec. by exists s.
Qed.

Lemma staticChildFor_some n remaining child : staticChildFor n remaining = Some child ->
  exists i, n_children n !! i = Some child /\ remaining = n_path child ++ zdrop (zlen (n_path child)) remaining.
Proof.
  unfold staticChildFor. destruct (indexOf _ _ _) as [i |]; [| done]. destruct (n_children n !! i) as [c |] eqn:Ec; [| done].
  destruct (hasPrefix remaining (n_path c)) eqn:E; [| done]. intros [= <-]. exists i. split; [done |]. apply hasPrefix_spec in E as (r & ->). by rewrite zdrop_app_exact.
Qed.

(** The child found is the only one whose path begins the rest. *)
Lemma staticChildFor_unique n i child r : wf n -> n_children n !! i = Some child -> staticChildFor n (n_path child ++ r) = Some child.
Proof.
  intros Hwf Hi. pose proof Hwf as [Hs _ _]. destruct (sh_child n Hs i child Hi) as (Hhd & Hne & _). unfold staticChildFor.
  destruct (n_path child) as [| c l] eqn:Ep; [done |]. change (znth ((c :: l) ++ r) 0) with c. cbn [head] in Hhd.
  pose proof (indexOf_spec (n_indices n) c 0) as Hx. destruct (indexOf (n_indices n) c 0) as [j |].
  - destruct Hx as (j' & -> & Hj). cbn [Nat.add]. rewrite (wf_index_inj n j' i c) by done. rewrite Hi, Ep.
    rewrite (proj2 (hasPrefix_spec ((c :: l) ++ r) (c :: l))) by (by exists r). done.
  - destruct Hx. by apply list_elem_of_lookup_2 with i.
Qed.

(** ** Heights *)

Lemma height_child n i child : n_children n !! i = Some child -> (height child < height n)%nat.
Proof.
  destruct n as [? cs ? ? ? p c ? ? ? ?]. cbn [n_children height]. intros Hi.
  assert (height child <= (fix hs (l : list node) : nat := match l with [] => O | x :: l => Nat.max (height x) (hs l) end) cs)%nat; [| lia].
  revert i Hi. induction cs as [| x cs IH]; intros [| i] Hi; try done; [injection Hi as ->; lia |]. specialize (IH i Hi). lia.
Qed.
Lemma height_param n p : n_param n = Some p -> (height p < height n)%nat.
Proof. destruct n; cbn. intros ->. lia. Qed.
#[export] Hint Resolve height_child height_param : golib.

(** ** The greedy search is sound *)

Section greedy.
  Context (hof : node -> option HandlerFunc) (root : node) (path : bytes).

(** [reach ts vs n s]: going down from the root along [ts], taking the values
    [vs], the search stands at [n] with [s] left. *)
Inductive reach : list tok -> list bytes -> node -> bytes -> Prop :=
| reach_root : reach [] [] root path
| reach_static ts vs n i child s : reach ts vs n (n_path child ++ s) -> n_children n !! i = Some child ->
    reach (ts ++ lits (n_path child)) vs child s
| reach_param ts vs n p s : reach ts vs n s -> s <> [] -> n_param n = Some p ->
    reach (ts ++ [TParam]) (vs ++ [ztake (segmentLen s) s]) p (zdrop (segmentLen s) s).

Lemma reach_done ts vs n s : reach ts vs n s -> forall ts' vs' h, route hof n ts' h -> matches ts' s vs' ->
  route hof root (ts ++ ts') h /\ matches (ts ++ ts') path (vs ++ vs').
Proof.
  induction 1 as [| ts vs n i child s Hr IH Hi | ts vs n p s Hr IH Hne Hp]; intros ts' vs' h Hro Hm; [done | |]; rewrite <- app_assoc.
  - apply IH; [by eapply route_static | apply matches_lits; by eexists].
  - rewrite <- app_assoc. apply IH; [by apply (route_param hof n p) | by constructor].
Qed.

Lemma reach_wf ts vs n s : wf root -> reach ts vs n s -> wf n.
Proof. intros Hwf. induction 1 as [| ? ? n i child s _ [_ IH _] Hi | ? ? n p s _ [_ _ IH] _ Hp]; [done | by eapply IH | by apply IH]. Qed.

(** A handler and the parameters recorded come from a matching route. *)
Definition found (h : HandlerFunc) (ps : params) : Prop := exists ts vs, route hof root ts h /\ matches ts path vs /\ recorded ps vs.

(** The catch-all a search falls back on. *)
Definition pending_ok (pending : option (node * bytes * Z)) (ps : params) : Prop :=
  match pending with
  | None => True
  | Some (c, rest, count) => exists ts vs n, reach ts vs n rest /\ rest <> [] /\ n_catch n = Some c /\ recorded (ztake count ps) vs /\ 0 <= count <= zlen ps
  end.

Lemma pending_append pending ps k v : pending_ok pending ps -> pending_ok pending (appendRouteParam ps k v).
Proof.
  destruct pending as [[[c rest] count] |]; [| done]. intros (ts & vs & n & H1 & H2 & H3 & H4 & H5). exists ts, vs, n. unfold appendRouteParam.
  destruct (zlen ps <? maxParams); [| done]. split_and!; [done | done | done | | lia | rewrite zlen_snoc; lia].
  unfold ztake in *. rewrite take_app_le by (unfold zlen in H5; lia). done.
Qed.

Lemma catch_found ts vs n c rest ps h : reach ts vs n rest -> rest <> [] -> n_catch n = Some c -> recorded ps vs -> hof c = Some h ->
  found h (appendRouteParam ps (n_catchName c) rest).
Proof.
  intros Hr Hne Hc Hrec Hh. destruct (reach_done _ _ _ _ Hr [TCatch] [rest] h) as [H1 H2]; [by eapply route_catch | by constructor |].
  exists (ts ++ [TCatch]), (vs ++ [rest]). split_and!; [done | done |]. by apply recorded_append.
Qed.

Context (try : bytes -> node -> option (node * bytes)).
Hypothesis Hwf : wf root.
Hypothesis Htry : forall n s, wf n -> s <> [] -> staticMatch (try s) n (znth s 0) = staticStep n s.

(** The loop returns, and what it returns is registered and matches. *)
Lemma findLoop_sound fuel : forall n s ps pending ts vs, (height n < fuel)%nat -> reach ts vs n s -> recorded ps vs -> pending_ok pending ps ->
  exists h ps', findLoop fuel hof try n s ps pending = Some (h, ps') /\ match h with Some h => found h ps' | None => True end.
Proof.
  induction fuel as [| fuel IH]; intros n s ps pending ts vs Hf Hr Hrec Hpend; [lia |]. cbn [findLoop]. destruct (zlen s =? 0) eqn:E0.
  { assert (s = []) as -> by (destruct s; [done | rewrite zlen_cons in E0; pose proof (zlen_nonneg s); lia]).
    exists (hof n), ps. split; [done |]. destruct (hof n) as [h |] eqn:Eh; [| done].
    destruct (reach_done _ _ _ _ Hr [] [] h) as [H1 H2]; [by constructor | constructor |]. rewrite !app_nil_r in *. by exists ts, vs. }
  assert (Hne : s <> []) by (intros ->; done). rewrite Htry; [| exact (reach_wf _ _ _ _ Hwf Hr) | exact Hne].
  set (pending' := match n_catch n with Some c => Some (c, s, zlen ps) | None => pending end).
  assert (Hp' : pending_ok pending' ps).
  { subst pending'. destruct (n_catch n) as [c |] eqn:Ec; [| done]. exists ts, vs, n. split_and!; try done; [| apply zlen_nonneg].
    unfold ztake. by rewrite take_ge by (unfold zlen; lia). }
  unfold staticStep. destruct (staticChildFor n s) as [child |] eqn:Es.
  { apply staticChildFor_some in Es as (i & Hi & Es). set (r := zdrop (zlen (n_path child)) s) in *. rewrite Es in Hr.
    apply (IH child r ps pending' (ts ++ lits (n_path child)) vs); [pose proof (height_child n i child Hi); lia | by eapply reach_static | done | done]. }
  destruct (n_param n) as [p |] eqn:Ep.
  { eapply IH; [pose proof (height_param n p Ep); lia | by eapply reach_param | by apply recorded_append | by apply pending_append]. }
  destruct (n_catch n) as [c |] eqn:Ec.
  { eexists _, _. split; [done |]. destruct (hof c) eqn:Eh; [| done]. by eapply catch_found. }
  subst pending'. destruct pending as [[[c rest] count] |]; [| by eexists _, _].
  destruct Hpend as (ts' & vs' & n' & Hr' & Hne' & Hc' & Hrec' & _). eexists _, _. split; [done |]. destruct (hof c) eqn:Eh; [| done]. by eapply catch_found.
Qed.
End greedy.

(** ** The backtracking search *)

(** The nodes below and including a node: a search visits each at most once. *)
Fixpoint nodes (n : node) : Z :=
  match n with
  | mkNode _ cs _ _ _ p _ _ _ _ _ =>
      1 + (fix sum (l : list node) : Z := match l with [] => 0 | x :: l => nodes x + sum l end) cs +
      match p with Some p => nodes p | None => 0 end
  end.

Definition childNodes (cs : list node) : Z := fold_right (fun x a => nodes x + a) 0 cs.
Definition paramNodes (p : option node) : Z := match p with Some p => nodes p | None => 0 end.

Lemma nodes_eq n : nodes n = 1 + childNodes (n_children n) + paramNodes (n_param n).
Proof. by destruct n. Qed.

Lemma nodes_pos n : 1 <= nodes n.
Proof.
  remember (height n) as k eqn:Ek. revert n Ek. induction k as [k IH] using lt_wf_ind. intros n ->. rewrite nodes_eq.
  assert (0 <= paramNodes (n_param n)).
  { unfold paramNodes. destruct (n_param n) as [p |] eqn:E; [| done]. pose proof (IH (height p) (height_param n p E) p eq_refl). lia. }
  assert (Hc : forall i c, n_children n !! i = Some c -> 1 <= nodes c) by (intros i c Hi; exact (IH (height c) (height_child n i c Hi) c eq_refl)).
  assert (0 <= childNodes (n_children n)); [| lia]. clear - Hc. unfold childNodes. induction (n_children n) as [| x cs IH]; cbn; [lia |].
  pose proof (Hc O x eq_refl). assert (Hc' : forall i c, cs !! i = Some c -> 1 <= nodes c) by (intros i c Hi; exact (Hc (S i) c Hi)). specialize (IH Hc'). lia.
Qed.

Lemma childNodes_nonneg cs : 0 <= childNodes cs.
Proof. induction cs as [| y cs IH]; cbn; [lia | pose proof (nodes_pos y); unfold childNodes in IH; lia]. Qed.

Lemma nodes_child n i child : n_children n !! i = Some child -> nodes child <= childNodes (n_children n).
Proof.
  revert i. generalize (n_children n) as cs. induction cs as [| x cs IH]; intros [| i] Hi; try done; cbn [childNodes fold_right].
  - injection Hi as ->. pose proof (childNodes_nonneg cs) as H. unfold childNodes in H. lia.
  - specialize (IH i Hi). pose proof (nodes_pos x). unfold childNodes in IH. lia.
Qed.

(** Parameters recorded earlier stay in front. *)
Definition extends (ps ps' : params) : Prop := ztake (zlen ps) ps' = ps.

Lemma extends_refl ps : extends ps ps.
Proof. unfold extends, ztake. apply take_ge. unfold zlen. lia. Qed.

Lemma extends_trans ps ps' ps'' : extends ps ps' -> extends ps' ps'' -> extends ps ps''.
Proof.
  unfold extends, ztake. intros H1 H2. rewrite <- H1 at 2. rewrite <- H2. rewrite take_take. f_equal.
  pose proof (f_equal length H1) as E. rewrite length_take in E. unfold zlen in *. lia.
Qed.

Lemma extends_append ps k v : extends ps (appendRouteParam ps k v).
Proof.
  unfold appendRouteParam. destruct (_ <? _); [| apply extends_refl]. unfold extends. apply ztake_app_exact.
Qed.
#[local] Hint Resolve extends_refl extends_append : core.

Section backtrack.
  Context (hof : node -> option HandlerFunc).

(** The routes below a node that match what is left. *)
Definition hits (n : node) (s : bytes) (ts : list tok) (vs : list bytes) (h : HandlerFunc) : Prop := route hof n ts h /\ matches ts s vs.

(** What a search below [n] promises: a handler comes from a matching route and
    its values are appended; no handler with budget left means no route. *)
Definition answers (n : node) (s : bytes) (ps : params) (budget : Z) (r : option HandlerFunc * params * Z) : Prop :=
  let '(h, ps', budget') := r in
  extends ps ps' /\ budget - nodes n <= budget' <= budget /\
  match h with
  | Some h => exists ts vs, hits n s ts vs h /\ forall vs0, recorded ps vs0 -> recorded ps' (vs0 ++ vs)
  | None => 0 < budget' -> forall ts vs h, ~ hits n s ts vs h
  end.

Lemma hits_inv n s ts vs h : wf n -> s <> [] -> hits n s ts vs h ->
  (exists child ts', staticChildFor n s = Some child /\ hits child (zdrop (zlen (n_path child)) s) ts' vs h) \/
  (exists p ts' vs', n_param n = Some p /\ hits p (zdrop (segmentLen s) s) ts' vs' h) \/
  (exists c, n_catch n = Some c /\ hof c = Some h).
Proof.
  intros Hwf Hne [Hr Hm]. destruct ts as [| [b | |] ts].
  - inversion Hm; by subst.
  - apply (route_lit hof n) in Hr as (i & child & Hi & ts' & E & Hr). rewrite E in Hm. apply matches_lits in Hm as (s' & -> & Hm).
    left. exists child, ts'. split; [by apply (staticChildFor_unique n i) |]. rewrite zdrop_app_exact. by split.
  - apply (route_par hof n Hwf) in Hr as (p & Hp & Hr). inversion Hm; subst. right; left. by eexists p, ts, _.
  - apply (route_cat hof n Hwf) in Hr as (-> & c & Hc & Hh). right; right. by exists c.
Qed.

(** The three branches of a turn, in the order they are tried. *)
Section turn.
  Context (n : node) (s : bytes) (Hwf : wf n) (Hne : s <> []).

Definition hit (ps ps' : params) (h : HandlerFunc) : Prop :=
  exists ts vs, hits n s ts vs h /\ forall vs0, recorded ps vs0 -> recorded ps' (vs0 ++ vs).

Definition noCatch : Prop := forall c h, n_catch n = Some c -> hof c <> Some h.
Definition noParam : Prop := forall p ts vs h, n_param n = Some p -> ~ hits p (zdrop (segmentLen s) s) ts vs h.

(** A result of the branches from some point on, having used [used] nodes. *)
Definition stage (used : Z) (miss : Prop) (ps : params) (budget : Z) (r : option HandlerFunc * params * Z) : Prop :=
  let '(h, ps', budget') := r in
  extends ps ps' /\ budget - used <= budget' <= budget /\
  match h with Some h => hit ps ps' h | None => 0 < budget' -> miss end.

Definition tryCatch (ps : params) (budget : Z) : option (option HandlerFunc * params * Z) :=
  match n_catch n with
  | Some c => Some (hof c, appendRouteParam ps (n_catchName c) s, budget)
  | None => Some (None, ps, budget)
  end.

Lemma tryCatch_stage ps budget : exists r, tryCatch ps budget = Some r /\ stage 0 noCatch ps budget r.
Proof.
  unfold tryCatch, noCatch. destruct (n_catch n) as [c |] eqn:Ec; eexists; (split; [done |]); (split_and!; [auto | lia | lia |]).
  - destruct (hof c) as [h |] eqn:Eh; [| intros _ ? ? [= <-]; congruence].
    exists [TCatch], [s]. split; [split; [by eapply route_catch | by constructor] |]. intros vs0 H. by apply recorded_append.
  - intros _ ? ? [=].
Qed.

(** Values restored to what they were before a failed branch. *)
Lemma extends_restore ps ps' : extends ps ps' -> ztake (zlen ps) ps' = ps.
Proof. done. Qed.

Definition tryParam (rec : node -> bytes -> params -> Z -> option (option HandlerFunc * params * Z)) (ps : params) (budget : Z) :=
  match n_param n with
  | Some p =>
      let e := segmentLen s in
      let r := rec p (zdrop e s) (appendRouteParam ps (n_paramName p) (ztake e s)) budget in
      match n_catch n with
      | None => r
      | Some _ => match r with
                  | Some (None, ps', budget) => tryCatch (ztake (zlen ps) ps') budget
                  | r => r
                  end
      end
  | None => tryCatch ps budget
  end.

Lemma tryParam_stage rec ps budget :
  (forall p ps budget, n_param n = Some p -> exists r, rec p (zdrop (segmentLen s) s) ps budget = Some r /\ answers p (zdrop (segmentLen s) s) ps budget r) ->
  exists r, tryParam rec ps budget = Some r /\ stage (paramNodes (n_param n)) (noParam /\ noCatch) ps budget r.
Proof.
  intros Hrec. unfold tryParam, noParam. destruct (n_param n) as [p |] eqn:Ep; cbn [paramNodes].
  2: { destruct (tryCatch_stage ps budget) as ([[h ps'] b'] & -> & H1 & H2 & H3). eexists. split; [done |]. split_and!; [done | lia | lia |].
       destruct h; [done |]. intros Hb. split; [intros ? ? ? ? [=] | by apply H3]. }
  destruct (Hrec p (appendRouteParam ps (n_paramName p) (ztake (segmentLen s) s)) budget eq_refl) as ([[h ps'] b'] & -> & Hex & Hbd & Hans).
  assert (Hps : extends ps ps') by (eapply extends_trans; [apply extends_append | exact Hex]).
  destruct h as [h |].
  - exists (Some h, ps', b'). split; [by destruct (n_catch n) |]. split_and!; [done | lia | lia |]. destruct Hans as (ts & vs & [Hr Hm] & Hrec').
    exists (TParam :: ts), (ztake (segmentLen s) s :: vs). split; [split; [by eapply route_param | by constructor] |].
    intros vs0 H0. change (vs0 ++ ztake (segmentLen s) s :: vs) with (vs0 ++ [ztake (segmentLen s) s] ++ vs). rewrite app_assoc. by apply Hrec', recorded_append.
  - destruct (n_catch n) as [c |] eqn:Ec.
    + rewrite (extends_restore ps ps' Hps). destruct (tryCatch_stage ps b') as ([[h ps''] b''] & -> & H1 & H2 & H3). eexists. split; [done |].
      split_and!; [done | lia | lia |]. destruct h; [done |]. intros Hb. split; [| by apply H3]. intros p' ts vs h [= <-]. apply Hans. lia.
    + eexists. split; [done |]. split_and!; [done | lia | lia |]. intros Hb. split; [intros p' ts vs h [= <-]; by apply Hans | intros c h H; congruence].
Qed.
End turn.

(** Where every branch misses, no route matches. *)
Lemma miss_hits n s : wf n -> s <> [] -> noParam n s -> noCatch n ->
  (forall child ts vs h, staticChildFor n s = Some child -> ~ hits child (zdrop (zlen (n_path child)) s) ts vs h) -> forall ts vs h, ~ hits n s ts vs h.
Proof.
  intros Hwf Hne Hp Hc Hs ts vs h H. destruct (hits_inv n s ts vs h Hwf Hne H) as [(child & ts' & E & H') | [(p & ts' & vs' & E & H') | (c & E & H')]].
  - by apply (Hs child ts' vs h).
  - by apply (Hp p ts' vs' h).
  - by apply (Hc c h).
Qed.

(** The parameter and catch-all branches, after the static one missed. *)
Lemma stage_answers n s ps budget b r : wf n -> s <> [] -> budget - 1 - childNodes (n_children n) <= b <= budget - 1 ->
  (0 < b -> forall child ts vs h, staticChildFor n s = Some child -> ~ hits child (zdrop (zlen (n_path child)) s) ts vs h) ->
  stage n s (paramNodes (n_param n)) (noParam n s /\ noCatch n) ps b r -> answers n s ps budget r.
Proof.
  intros Hwf Hne Hb Hs. destruct r as [[h ps'] b']. intros (H1 & H2 & H3). unfold answers. rewrite nodes_eq. split_and!; [done | lia | lia |].
  destruct h; [done |]. intros Hb'. destruct (H3 Hb') as [Hp Hc]. apply miss_hits; [done | done | done | done |]. apply Hs. lia.
Qed.

Lemma routeBacktrack_turn fuel n s ps budget : routeBacktrack (S fuel) hof n s ps budget =
  if zlen s =? 0 then Some (hof n, ps, budget)
  else if budget <=? 0 then Some (None, ps, budget)
  else
    match staticChildFor n s with
    | Some child =>
        let r := routeBacktrack fuel hof child (zdrop (zlen (n_path child)) s) ps (budget - 1) in
        match n_param n, n_catch n with
        | None, None => r
        | _, _ => match r with
                  | Some (None, ps', budget) => tryParam n s (routeBacktrack fuel hof) (ztake (zlen ps) ps') budget
                  | r => r
                  end
        end
    | None => tryParam n s (routeBacktrack fuel hof) ps (budget - 1)
    end.
Proof. done. Qed.

Lemma routeBacktrack_answers fuel : forall n s ps budget, wf n -> (height n < fuel)%nat ->
  exists r, routeBacktrack fuel hof n s ps budget = Some r /\ answers n s ps budget r.
Proof.
  induction fuel as [| fuel IH]; intros n s ps budget Hwf Hf; [lia |]. rewrite routeBacktrack_turn. pose proof (nodes_pos n). destruct (zlen s =? 0) eqn:E0.
  { assert (s = []) as -> by (destruct s; [done | rewrite zlen_cons in E0; pose proof (zlen_nonneg s); lia]).
    eexists. split; [done |]. split_and!; [auto | lia | lia |]. destruct (hof n) as [h |] eqn:Eh.
    - exists [], []. split; [by split; constructor |]. intros vs0. by rewrite app_nil_r.
    - intros _ ts vs h [Hr Hm]. apply matches_nil in Hm as [-> ->]. apply (route_nil hof n Hwf) in Hr. congruence. }
  assert (Hne : s <> []) by (intros ->; done). destruct (budget <=? 0) eqn:Eb; [eexists; split; [done |]; split_and!; [auto | lia | lia | lia] |].
  rewrite nodes_eq in *. pose proof Hwf as [_ Hwc Hwp].
  assert (Hpar : forall ps budget, exists r, tryParam n s (routeBacktrack fuel hof) ps budget = Some r /\ stage n s (paramNodes (n_param n)) (noParam n s /\ noCatch n) ps budget r).
  { intros ps' b'. apply tryParam_stage; [done.. |]. intros p ps'' b'' Hp. apply IH; [by apply Hwp | pose proof (height_param n p Hp); lia]. }
  pose proof (childNodes_nonneg (n_children n)) as Hcn. destruct (staticChildFor n s) as [child |] eqn:Es.
  - pose proof Es as Es'. apply staticChildFor_some in Es' as (i & Hi & Epath).
    pose proof (nodes_child n i child Hi) as Hcc. set (rest := zdrop (zlen (n_path child)) s) in *.
    destruct (IH child rest ps (budget - 1)) as ([[h ps'] b'] & Er & Hex & Hbd & Hans); [by eapply Hwc | pose proof (height_child n i child Hi); lia |].
    cbv zeta. rewrite Er. destruct h as [h |].
    + exists (Some h, ps', b'). split; [by destruct (n_param n), (n_catch n) |]. unfold answers. rewrite nodes_eq. split_and!; [done | | lia |].
      { assert (0 <= paramNodes (n_param n)) by (unfold paramNodes; destruct (n_param n) as [q |]; [pose proof (nodes_pos q) |]; lia). lia. }
      destruct Hans as (ts & vs & [Hr Hm] & Hrec). exists (lits (n_path child) ++ ts), vs. split; [| done]. split; [by eapply route_static | apply matches_lits; by exists rest].
    + rewrite (extends_restore ps ps' Hex). assert (Hmiss : 0 < b' -> forall child ts vs h, staticChildFor n s = Some child -> ~ hits child (zdrop (zlen (n_path child)) s) ts vs h).
      { intros Hb c ts vs h E. rewrite Es in E. injection E as <-. by apply Hans. }
      destruct (n_param n) as [p |] eqn:Ep; [| destruct (n_catch n) as [c |] eqn:Ec].
      * destruct (Hpar ps b') as (r & -> & Hst). exists r. split; [done |]. rewrite <- Ep in Hst. eapply stage_answers; [done | done | | exact Hmiss | exact Hst]. lia.
      * destruct (Hpar ps b') as (r & -> & Hst). exists r. split; [done |]. rewrite <- Ep in Hst. eapply stage_answers; [done | done | | exact Hmiss | exact Hst]. lia.
      * eexists. split; [done |]. unfold answers. rewrite nodes_eq, Ep. cbn [paramNodes]. split_and!; [done | lia | lia |]. intros Hb. apply miss_hits; [done | done | | | by apply Hmiss].
        -- intros q ts vs h E. congruence.
        -- intros q h E. congruence.
  - destruct (Hpar ps (budget - 1)) as (r & -> & Hst). exists r. split; [done |]. eapply stage_answers; [done | done | | | exact Hst]; [lia |]. intros _ ? ? ? ? E. congruence.
Qed.
End backtrack.

(** ** Lookup before the router is built *)

Lemma wf_root_paths root path : n_path root = [] -> hasPrefix path (n_path root) = true /\ zdrop (zlen (n_path root)) path = path.
Proof. intros ->. split; [apply hasPrefix_spec; by exists path | done]. Qed.

Lemma backtracking_answers hof root path ps : wf root ->
  match findWithBacktracking root path ps hof with
  | (Some h, ps') => exists rest, path = n_path root ++ rest /\ found hof root rest h ps'
  | (None, _) => nodes root < routerBacktrackBudget -> forall rest ts vs h, path = n_path root ++ rest -> route hof root ts h -> ~ matches ts rest vs
  end.
Proof.
  intros Hwf. unfold findWithBacktracking. destruct (hasPrefix path (n_path root)) eqn:E; cbn [negb].
  - apply hasPrefix_spec in E as (rest & ->). rewrite zdrop_app_exact.
    destruct (routeBacktrack_answers hof (S (height root)) root rest [] routerBacktrackBudget Hwf ltac:(lia)) as ([[[h |] ps'] b'] & -> & _ & Hb & H).
    + destruct H as (ts & vs & [Hr Hm] & Hrec). exists rest. split; [done |]. exists ts, vs. split_and!; [done | done |]. by apply (Hrec []).
    + intros Hn rest' ts vs h E Hr Hm. apply app_inv_head in E as <-. apply (H ltac:(lia) ts vs h). by split.
  - intros _ rest ts vs h -> Hr Hm. assert (hasPrefix (n_path root ++ rest) (n_path root) = true) by (apply hasPrefix_spec; by exists rest). congruence.
Qed.

Lemma findInTree_sound root path h ps : wf root -> findInTree root path = (Some h, ps) -> found treeHandlerOf root path h ps.
Proof.
  intros Hwf E. destruct (findLoop_sound treeHandlerOf root path tryChild Hwf (fun n s _ _ => staticMatch_tree n s) (S (height root)) root path [] None [] [])
    as (h' & ps' & El & Hf); [lia | constructor | done | done |].
  unfold findInTree in E. rewrite El in E. injection E as -> ->. exact Hf.
Qed.

(** Looking a path up among any registrations returns a handler only with a
    registered pattern that matches the path, the handler being the one
    registered last for it and the parameters the values at its parameters (the
    first eight). It returns nothing only when no registered pattern matches, as
    long as the trie has fewer nodes than the budget of the backtracking search. *)
Theorem router_lookup_exact (rs : list (bytes * HandlerFunc)) (path : bytes) : Forall (fun r => bytes_ok r.1) rs ->
  let root := register emptyNode rs in
  match findInTreeOrBacktrack root path with
  | (Some h, ps) => exists ts vs, registered rs ts = Some h /\ matches ts path vs /\ recorded ps vs
  | (None, _) => nodes root < routerBacktrackBudget -> forall ts vs h, registered rs ts = Some h -> ~ matches ts path vs
  end.
Proof.
  intros Hok. cbv zeta. destruct (register_routes rs Hok) as (Hwf & Hpath & Hroutes). set (root := register emptyNode rs) in *.
  assert (Hfound : forall h ps, found treeHandlerOf root path h ps -> exists ts vs, registered rs ts = Some h /\ matches ts path vs /\ recorded ps vs).
  { intros h ps (ts & vs & Hr & Hm & Hrec). exists ts, vs. split_and!; [by apply Hroutes | done | done]. }
  unfold findInTreeOrBacktrack. destruct (findInTree root path) as [[h |] ps] eqn:E; [by apply Hfound, findInTree_sound |].
  pose proof (backtracking_answers treeHandlerOf root path ps Hwf) as Hb. destruct (findWithBacktracking root path ps treeHandlerOf) as [[h |] ps'].
  - destruct Hb as (rest & -> & Hf). rewrite Hpath in *. by apply Hfound.
  - intros Hn ts vs h Hreg. apply (Hb Hn path ts vs h); [by rewrite Hpath | by apply Hroutes].
Qed.

Lemma router_lookup_exact_witness :
  let rs := [(str "/u/:id/posts", hUser 1); (str "/u/new", hUser 2); (str "/u/:id", hUser 3); (str "/f/*p", hUser 5)] in
  Forall (fun r => bytes_ok r.1) rs /\ (exists ts vs, registered rs ts = Some (hUser 1) /\ matches ts (str "/u/new/posts") vs) /\
  nodes (register emptyNode rs) < routerBacktrackBudget /\ fst (findInTreeOrBacktrack (register emptyNode rs) (str "/v")) = None.
Proof.
  intros rs. assert (H : Forall (fun r => bytes_ok r.1) rs) by (repeat constructor; cbv; congruence).
  split; [exact H |]. split; [| vm_compute; by split].
  pose proof (router_lookup_exact rs (str "/u/new/posts") H) as E. vm_compute in E. destruct E as (ts & vs & E1 & E2 & _). exists ts, vs. split; [exact E1 | exact E2].
Defined.
