(* ===== verification/RouterBuild.v ===== *)
(** The built router: wrapping and collapsing the trie keeps its routes, and the
    open-addressed index of static routes answers exactly like the trie
    (src/core/router.go). *)
From stdpp Require Import base list numbers list_numbers strings.
From Stdlib Require Import ZArith Lia ZifyBool.
From S2P Require Import Prelude Utils H1Scan Router RouterTrie RouterFind.

Open Scope list_scope.
Open Scope Z_scope.

(** ** Building keeps the routes *)

Section built.
  Context (mws : list Z).

(** The handler a node has once built. *)
Definition wrapOf (n : node) : option HandlerFunc :=
  match n_handler n with Some h => Some (if n_inline n then hInline (Chain h mws) else Chain h mws) | None => n_wrapped n end.

Lemma build_wrapped n : builtHandlerOf (buildNode mws n) = wrapOf n.
Proof. by destruct n. Qed.
Lemma build_children n : n_children (buildNode mws n) = map (buildNode mws) (n_children n).
Proof. by destruct n. Qed.
Lemma build_path n : n_path (buildNode mws n) = n_path n.
Proof. by destruct n. Qed.
Lemma build_indices n : n_indices (buildNode mws n) = n_indices n.
Proof. by destruct n. Qed.
Lemma build_param n : n_param (buildNode mws n) = buildNode mws <$> n_param n.
Proof. by destruct n as [? ? ? ? ? [p |] ? ? ? ? ?]. Qed.
Lemma build_catch n : n_catch (buildNode mws n) = buildNode mws <$> n_catch n.
Proof. by destruct n as [? ? ? ? ? ? [c |] ? ? ? ?]. Qed.

Lemma build_child n i c' : n_children (buildNode mws n) !! i = Some c' <-> exists c, n_children n !! i = Some c /\ c' = buildNode mws c.
Proof. rewrite build_children. change (map (buildNode mws) (n_children n)) with (buildNode mws <$> n_children n). rewrite list_lookup_fmap_Some. split; intros (c & H1 & H2); exists c; by split. Qed.

Lemma build_leaf c : leaf c -> leaf (buildNode mws c).
Proof. intros (H1 & H2 & H3 & H4 & H5). unfold leaf. rewrite build_path, build_children, build_indices, build_param, build_catch, H1, H2, H3, H4, H5. by split_and!. Qed.

Lemma build_wf n : wf n -> wf (buildNode mws n).
Proof.
  induction 1 as [n Hs _ IHc _ IHp]. apply wf_node; [apply mkShape | |].
  - rewrite build_indices, build_children, length_map. apply Hs.
  - rewrite build_indices. apply Hs.
  - intros i c' (c & Hc & ->)%build_child. rewrite build_indices, build_path. by apply Hs.
  - intros p'. rewrite build_param. destruct (n_param n) as [p |] eqn:E; [| done]. intros [= <-]. rewrite build_path. by apply Hs.
  - intros c'. rewrite build_catch. destruct (n_catch n) as [c |] eqn:E; [| done]. intros [= <-]. by apply build_leaf, Hs.
  - intros i c' (c & Hc & ->)%build_child. by eapply IHc.
  - intros p'. rewrite build_param. destruct (n_param n) as [p |] eqn:E; [| done]. intros [= <-]. by apply IHp.
Qed.

Lemma build_route n ts h : route builtHandlerOf (buildNode mws n) ts h <-> route wrapOf n ts h.
Proof.
  split.
  - remember (buildNode mws n) as n' eqn:En. intros H. revert n En. induction H as [n' h Hh | n' i child ts h Hi _ IH | n' p ts h Hp _ IH | n' c h Hc Hh]; intros n ->.
    + constructor. by rewrite <- build_wrapped.
    + apply build_child in Hi as (c & Hc & ->). rewrite build_path. eapply route_static; [done | by apply IH].
    + rewrite build_param in Hp. destruct (n_param n) as [q |] eqn:E; [| done]. injection Hp as <-. eapply route_param; [done | by apply IH].
    + rewrite build_catch in Hc. destruct (n_catch n) as [q |] eqn:E; [| done]. injection Hc as <-. eapply route_catch; [done | by rewrite <- build_wrapped].
  - induction 1 as [n h Hh | n i child ts h Hi _ IH | n p ts h Hp _ IH | n c h Hc Hh].
    + constructor. by rewrite build_wrapped.
    + rewrite <- (build_path child). eapply (route_static _ _ i); [| done]. apply build_child. by exists child.
    + eapply route_param; [| done]. by rewrite build_param, Hp.
    + eapply route_catch; [by rewrite build_catch, Hc | by rewrite build_wrapped].
Qed.

(** Nodes no build has touched, no route marked as inline, every catch-all with
    its handler. *)
Inductive fresh (n : node) : Prop :=
| fresh_node (Hw : n_wrapped n = None) (Hinline : n_inline n = false) (Hchildren : forall i c, n_children n !! i = Some c -> fresh c)
    (Hparam : forall p, n_param n = Some p -> fresh p) (Hcatch : forall c, n_catch n = Some c -> n_wrapped c = None /\ n_inline c = false /\ is_Some (n_handler c)).

Lemma fresh_route n ts w : fresh n -> route wrapOf n ts w <-> exists h, route treeHandlerOf n ts h /\ w = Chain h mws.
Proof.
  assert (Hwrap : forall n, n_wrapped n = None -> n_inline n = false -> forall w, wrapOf n = Some w <-> exists h, n_handler n = Some h /\ w = Chain h mws).
  { intros m H1 H2 w'. unfold wrapOf. rewrite H1, H2. destruct (n_handler m) as [h |]; [| split; [done | by intros (? & ? & _)]]. split; [intros [= <-]; by exists h | by intros (? & [= <-] & ->)]. }
  intros Hfresh. split.
  - intros H. revert Hfresh. induction H as [n w Hh | n i child ts w Hi _ IH | n p ts w Hp _ IH | n c w Hc Hh]; intros [H1 H2 Hch Hpa Hca].
    + apply Hwrap in Hh as (h & Hh & ->); [| done..]. exists h. split; [by constructor | done].
    + destruct (IH (Hch _ _ Hi)) as (h & Hr & ->). exists h. split; [by eapply route_static | done].
    + destruct (IH (Hpa _ Hp)) as (h & Hr & ->). exists h. split; [by eapply route_param | done].
    + destruct (Hca c Hc) as (Hc1 & Hc2 & _). apply Hwrap in Hh as (h & Hh & ->); [| done..]. exists h. split; [by eapply route_catch | done].
  - intros (h & H & ->). revert Hfresh. induction H as [n h Hh | n i child ts h Hi _ IH | n p ts h Hp _ IH | n c h Hc Hh]; intros [H1 H2 Hch Hpa Hca].
    + constructor. apply Hwrap; [done | done | by exists h].
    + eapply route_static; [done | apply IH; by eapply Hch].
    + eapply route_param; [done | apply IH; by eapply Hpa].
    + destruct (Hca c Hc) as (Hc1 & Hc2 & _). eapply route_catch; [done |]. apply Hwrap; [done | done | by exists h].
Qed.
End built.

(** ** Registration leaves nodes fresh *)

Lemma fresh_split child k : fresh child -> fresh (splitChild child k).
Proof.
  intros [H1 H2 H3 H4 H5]. apply fresh_node; [exact H1 | reflexivity | | intros ? [=] | intros ? [=]].
  intros [| i] c Hc; [| discriminate Hc]. injection Hc as <-. apply fresh_node; [reflexivity | exact H2 | exact H3 | exact H4 | exact H5].
Qed.

Lemma fresh_path s : fresh (pathNode s).
Proof. apply fresh_node; [reflexivity | reflexivity | intros i c [=] | intros ? [=] | intros ? [=]]. Qed.

Lemma fresh_rename p name : fresh p -> fresh (set_paramName p name).
Proof. intros [H1 H2 H3 H4 H5]. by apply fresh_node. Qed.

Lemma addLoop_fresh fuel n remaining h : fresh n -> fresh (addLoop fuel n remaining h).
Proof.
  revert n remaining. induction fuel as [| fuel IH]; intros n remaining Hf; [exact Hf |]. pose proof Hf as [H1 H2 H3 H4 H5].
  destruct remaining as [| c rest]; cbn [addLoop]; [by apply fresh_node |]. destruct (c =? colon); [| destruct (c =? star); [| destruct (indexOf _ _ _) as [i |]]].
  - apply fresh_node; [done | done | exact H3 | | exact H5]. intros p [= <-]. apply IH, fresh_rename. destruct (n_param n) as [q |] eqn:E; [by apply H4 | exact (fresh_rename _ _ (fresh_path []))].
  - apply fresh_node; [done | done | exact H3 | exact H4 |]. intros c' [= <-]. split_and!; [done | done | by eexists].
  - destruct (n_children n !! i) as [child |] eqn:Ec; [| exact Hf]. apply fresh_node; [done | done | | exact H4 | exact H5].
    intros j d Hd. cbn in Hd. apply list_lookup_insert_Some in Hd as [(_ & <- & _) | (_ & Hd)]; [| by eapply H3].
    apply IH. destruct (_ <? _); [apply fresh_split |]; by eapply H3.
  - apply fresh_node; [done | done | | exact H4 | exact H5]. intros j d Hd. cbn in Hd. apply lookup_app_Some in Hd as [Hd | [_ Hd]]; [by eapply H3 |].
    apply list_lookup_singleton_Some in Hd as [_ <-]. apply IH, fresh_path.
Qed.

Lemma register_fresh rs : fresh (register emptyNode rs).
Proof.
  unfold register. assert (H : fresh emptyNode) by exact (fresh_path []). revert H. generalize emptyNode as n. induction rs as [| [path h] rs IH]; intros n H; [done |].
  cbn [fold_left]. apply IH. unfold addRoute. by apply addLoop_fresh.
Qed.

(** ** The root of a built tree *)

Lemma route_backtrackable hof n b ts h : (forall n, hof (set_backtrackable n b) = hof n) -> route hof (set_backtrackable n b) ts h <-> route hof n ts h.
Proof. intros Hh. rewrite !route_inv. by rewrite Hh. Qed.

Lemma wf_backtrackable n b : wf n -> wf (set_backtrackable n b).
Proof. intros [Hs Hc Hp]. apply wf_node; [apply mkShape; apply Hs | exact Hc | exact Hp]. Qed.

(** Collapsing an empty root above one child keeps every route: what the child
    consumes moves into its path. *)
Lemma buildTree_spec mws root : wf root -> n_path root = [] ->
  wf (buildTree mws root) /\ forall ts h, below builtHandlerOf (buildTree mws root) ts h <-> route (wrapOf mws) root ts h.
Proof.
  intros Hwf Hpath. pose proof (build_wf mws root Hwf) as Hwf'. assert (Hp' : n_path (buildNode mws root) = []) by (by rewrite build_path).
  assert (Hroute : forall ts h, route builtHandlerOf (buildNode mws root) ts h <-> route (wrapOf mws) root ts h) by (intros; apply build_route).
  set (root' := buildNode mws root) in *. assert (Hkeep : wf (set_backtrackable root' (hasStaticParamSiblings root')) /\
    forall ts h, below builtHandlerOf (set_backtrackable root' (hasStaticParamSiblings root')) ts h <-> route (wrapOf mws) root ts h).
  { split; [by apply wf_backtrackable |]. intros ts h. rewrite <- Hroute. unfold below. cbn [set_backtrackable n_path]. rewrite Hp'. cbn [lits map app]. split.
    - intros (ts' & -> & H). by apply route_backtrackable in H.
    - intros H. exists ts. split; [done |]. by apply route_backtrackable. }
  unfold buildTree. fold root'. cbv zeta. rewrite Hp'. destruct (n_children root') as [| child [| child2 cs]] eqn:Ec; [exact Hkeep | | exact Hkeep].
  destruct (n_wrapped root') as [w |] eqn:Ew; [exact Hkeep |]. destruct (n_param root') as [p |] eqn:Epar; [exact Hkeep |].
  destruct (n_catch root') as [c |] eqn:Ecat; [exact Hkeep |]. clear Hkeep.
  assert (Hchild : n_children root' !! 0%nat = Some child) by (by rewrite Ec). split.
  - destruct Hwf' as [_ Hcw _]. apply wf_backtrackable. by eapply Hcw.
  - intros ts h. rewrite <- Hroute. split.
    + intros (ts' & -> & H). apply route_backtrackable in H; [| done]. exact (route_static _ _ _ _ _ _ Hchild H).
    + intros H. apply route_inv in H as [[_ H] | [(i & d & Hd & H) | [(p & ? & Hp & _) | (c & Hc & _)]]]; [unfold builtHandlerOf in H; congruence | | congruence | congruence].
      rewrite Ec in Hd. destruct i as [| i]; [| done]. injection Hd as <-. destruct H as (ts' & -> & H). exists ts'. split; [done |]. by apply route_backtrackable.
Qed.

Lemma findBuilt_sound root path h ps : wf root -> findBuilt root path = (Some h, ps) ->
  exists rest, path = n_path root ++ rest /\ found builtHandlerOf root rest h ps.
Proof.
  intros Hwf. unfold findBuilt. destruct ((0 <? zlen (n_path root)) && _) eqn:E; [done |].
  assert (Hpre : exists rest, path = n_path root ++ rest /\ (if 0 <? zlen (n_path root) then zdrop (zlen (n_path root)) path else path) = rest).
  { destruct (0 <? zlen (n_path root)) eqn:E0.
    - assert (H : hasPrefix path (n_path root) = true) by (unfold hasPrefix; lia). apply hasPrefix_spec in H as (rest & ->). exists rest. by rewrite zdrop_app_exact.
    - exists path. split; [| done]. destruct (n_path root) as [| b l]; [done |]. rewrite zlen_cons in E0. pose proof (zlen_nonneg l). lia. }
  destruct Hpre as (rest & Ep & ->). intros Ef. exists rest. split; [done |].
  destruct (findLoop_sound builtHandlerOf root rest tryBuilt Hwf staticMatch_built (S (height root)) root rest [] None [] []) as (h' & ps' & El & Hf); [lia | constructor | done | done |].
  rewrite El in Ef. injection Ef as -> ->. exact Hf.
Qed.

(** ** The index of static routes *)

Lemma quickHash_nonzero s : pathQuickHash s <> 0.
Proof.
  assert (H : forall x, Z.lor x hashTop <> 0).
  { intros x E. assert (Hb : Z.testbit (Z.lor x hashTop) 31 = true) by (rewrite Z.lor_spec; apply orb_true_r). by rewrite E, Z.bits_0 in Hb. }
  unfold pathQuickHash. destruct (_ <? 2); apply H.
Qed.

Section table.
  Context (k : Z) (Hk : 0 <= k).
Let sz := 2 ^ k.

Definition used (t : staticTable) (i : Z) : Prop := ss_hash (slotAt t i) <> 0.

Lemma sz_pos : 0 < sz.
Proof. apply Z.pow_pos_nonneg; lia. Qed.

Lemma mask_mod t i : zlen t = sz -> Z.land i (tableMask t) = i mod sz.
Proof. intros Hl. unfold tableMask. rewrite Hl. apply land_ones_mod. done. Qed.

Lemma next_pos i d : ((i + d) mod sz + 1) mod sz = (i + (d + 1)) mod sz.
Proof. pose proof sz_pos. rewrite Zplus_mod_idemp_l. f_equal. lia. Qed.

(** Some slot is free: the search for one stops at the first, cyclically. *)
Lemma freeSlot_first t i d fuel e : zlen t = sz -> 0 <= e < Z.of_nat fuel -> ~ used t ((i + (d + e)) mod sz) ->
  (forall d', 0 <= d' < d -> used t ((i + d') mod sz)) -> 0 <= d ->
  exists d', d <= d' <= d + e /\ freeSlot fuel t ((i + d) mod sz) = Some ((i + d') mod sz) /\ ~ used t ((i + d') mod sz) /\
    forall d'', 0 <= d'' < d' -> used t ((i + d'') mod sz).
Proof.
  intros Hl. revert d e. induction fuel as [| fuel IH]; intros d e He Hfree Hused Hd; [lia |]. cbn [freeSlot]. destruct (ss_hash _ =? 0) eqn:E.
  - exists d. split_and!; [lia | lia | done | unfold used; lia | done].
  - assert (e <> 0). { intros ->. apply Hfree. rewrite Z.add_0_r. unfold used. lia. }
    rewrite mask_mod, next_pos by done. destruct (IH (d + 1) (e - 1)) as (d' & H1 & H2 & H3 & H4); [lia | by replace (d + 1 + (e - 1)) with (d + e) by lia | | lia |].
    + intros d' Hd'. destruct (decide (d' = d)) as [-> | ?]; [unfold used; lia | apply Hused; lia].
    + exists d'. split_and!; [lia | lia | done | done | done].
Qed.

(** Every slot is reached from anywhere within one round. *)
Lemma slot_distance i j : 0 <= j < sz -> exists e, 0 <= e < sz /\ (i + e) mod sz = j.
Proof.
  intros Hj. pose proof sz_pos. exists ((j - i) mod sz). split; [by apply Z.mod_pos_bound |]. rewrite Zplus_mod_idemp_r. replace (i + (j - i)) with j by lia. by apply Z.mod_small.
Qed.

(** The table holds the entries [es]: each on its probe path behind used slots,
    and nothing else. *)
Definition home (se : staticEntry) : Z := se_hash se mod sz.
Definition slotOf (se : staticEntry) : staticSlot := mkSlot (se_hash se) (se_path se) (Some (se_handler se)).

Record holds (t : staticTable) (es : list staticEntry) : Prop := mkHolds {
  ho_len : zlen t = sz;
  ho_in : forall se, In se es -> exists d, 0 <= d < sz /\ slotAt t ((home se + d) mod sz) = slotOf se /\ forall d', 0 <= d' < d -> used t ((home se + d') mod sz);
  ho_only : forall i, 0 <= i < sz -> used t i -> exists se, In se es /\ slotAt t i = slotOf se;
  ho_hash : forall se, In se es -> se_hash se <> 0;
  ho_count : zlen (List.filter (fun s => negb (ss_hash s =? 0)) t) <= zlen es }.

Lemma holds_free t es : holds t es -> zlen es < sz -> exists j, 0 <= j < sz /\ ~ used t j.
Proof.
  intros [Hl _ _ _ Hc] Hlt. rewrite <- Hl in Hlt |- *. clear Hl. assert (H : zlen (List.filter (fun s => negb (ss_hash s =? 0)) t) < zlen t) by lia. clear - H.
  induction t as [| s t IH]; [done |]. cbn [List.filter] in H. rewrite zlen_cons in H |- *. pose proof (zlen_nonneg t). destruct (ss_hash s =? 0) eqn:E.
  - exists 0. split; [lia |]. unfold used. change (slotAt (s :: t) 0) with s. lia.
  - cbn [negb] in H. rewrite zlen_cons in H. destruct IH as (j & Hj & Hu); [lia |]. exists (j + 1). split; [lia |].
    unfold used, slotAt in *. replace (Z.to_nat (j + 1)) with (S (Z.to_nat j)) by lia. done.
Qed.

Lemma slotAt_insert t j s i : 0 <= j < zlen t -> 0 <= i < zlen t -> slotAt (<[Z.to_nat j := s]> t) i = if i =? j then s else slotAt t i.
Proof.
  intros Hj Hi. unfold slotAt, zlen in *. rewrite !nth_lookup. destruct (i =? j) eqn:E.
  - replace i with j by lia. by rewrite list_lookup_insert_eq by lia.
  - by rewrite list_lookup_insert_ne by lia.
Qed.

Lemma filter_insert_le (t : staticTable) n s : zlen (List.filter (fun s => negb (ss_hash s =? 0)) (<[n := s]> t)) <= 1 + zlen (List.filter (fun s => negb (ss_hash s =? 0)) t).
Proof.
  revert n. induction t as [| x t IH]; intros n; [done |]. destruct n as [| n].
  - change (<[0%nat := s]> (x :: t)) with (s :: t). cbn [List.filter]. destruct (negb (ss_hash s =? 0)), (negb (ss_hash x =? 0)); rewrite ?zlen_cons; lia.
  - specialize (IH n). change (<[S n := s]> (x :: t)) with (x :: <[n := s]> t). cbn [List.filter]. destruct (negb (ss_hash x =? 0)); rewrite ?zlen_cons; lia.
Qed.

Lemma insertStatic_holds t es se : holds t es -> zlen es < sz -> se_hash se <> 0 -> holds (insertStatic t se) (se :: es).
Proof.
  intros Hh Hlt Hne. pose proof Hh as [Hl Hin Honly Hhash Hcnt]. pose proof sz_pos as Hsz. destruct (holds_free t es Hh Hlt) as (j & Hj & Hfree).
  destruct (slot_distance (home se) j Hj) as (e & He & Ee). unfold insertStatic. rewrite mask_mod by done. fold (home se).
  destruct (freeSlot_first t (home se) 0 (length t) e) as (d & Hd & Ef & Hfd & Hbefore); [done | unfold zlen in Hl; lia | by rewrite Z.add_0_l, Ee | lia | lia |].
  assert (Hhome : (home se + 0) mod sz = home se) by (rewrite Z.add_0_r; apply Z.mod_small, Z.mod_pos_bound; done).
  rewrite Hhome in Ef. rewrite Ef. fold (slotOf se). set (p := (home se + d) mod sz) in *. assert (Hp : 0 <= p < sz) by (by apply Z.mod_pos_bound).
  assert (Hslot : forall i, 0 <= i < sz -> slotAt (<[Z.to_nat p := slotOf se]> t) i = if i =? p then slotOf se else slotAt t i) by (intros i Hi; apply slotAt_insert; lia).
  assert (Hmono : forall i, 0 <= i < sz -> used t i -> used (<[Z.to_nat p := slotOf se]> t) i).
  { intros i Hi Hu. unfold used in *. rewrite Hslot by done. destruct (i =? p); [done | exact Hu]. }
  assert (Hmod : forall x, 0 <= x mod sz < sz) by (intros x; by apply Z.mod_pos_bound).
  apply mkHolds.
  - unfold zlen. by rewrite length_insert.
  - intros x [<- | Hx].
    + exists d. split_and!; [lia | lia | |]; [fold p; rewrite Hslot by done; by rewrite Z.eqb_refl |]. intros d' Hd'. apply Hmono; [done |]. apply Hbefore. lia.
    + destruct (Hin x Hx) as (dx & Hdx & Es & Hu). exists dx. split_and!; [lia | lia | |].
      * rewrite Hslot by done. destruct (_ =? p) eqn:Ep; [| done]. exfalso. apply Hfd. replace p with ((home x + dx) mod sz) by lia. unfold used. rewrite Es. by apply Hhash.
      * intros d' Hd'. apply Hmono; [done |]. by apply Hu.
  - intros i Hi. rewrite (Hslot i Hi). unfold used. rewrite (Hslot i Hi). destruct (i =? p).
    + intros _. exists se. split; [by left | done].
    + intros Hu. destruct (Honly i Hi Hu) as (x & Hx & Es). exists x. split; [by right | done].
  - intros x [<- | Hx]; [done | by apply Hhash].
  - rewrite zlen_cons. pose proof (filter_insert_le t (Z.to_nat p) (slotOf se)). lia.
Qed.

Lemma inserts_hold es0 es t : holds t es0 -> zlen es0 + zlen es < sz -> Forall (fun se => se_hash se <> 0) es ->
  holds (fold_left insertStatic es t) (rev es ++ es0).
Proof.
  revert es0 t. induction es as [| se es IH]; intros es0 t Hh Hlt Hne; [done |]. apply Forall_cons_1 in Hne as [Hse Hne]. rewrite zlen_cons in Hlt. pose proof (zlen_nonneg es).
  cbn [fold_left rev]. rewrite <- app_assoc. cbn [app]. apply IH; [apply insertStatic_holds; [done | lia | done] | rewrite zlen_cons; lia | done].
Qed.

Lemma empty_holds : holds (replicate (Z.to_nat sz) emptySlot) [].
Proof.
  pose proof sz_pos. apply mkHolds.
  - unfold zlen. rewrite length_replicate. lia.
  - intros se [].
  - intros i Hi Hu. destruct Hu. unfold slotAt. rewrite nth_lookup, lookup_replicate_2 by lia. done.
  - intros se [].
  - change (zlen (@nil staticEntry)) with 0. generalize (Z.to_nat sz) as n. induction n as [| n IH]; [done |]. exact IH.
Qed.

(** A probe stops at the first slot that is free or has the path. *)
Lemma probe_first t h path i d fuel : zlen t = sz -> 0 <= d < Z.of_nat fuel ->
  (forall d', 0 <= d' < d -> used t ((i + d') mod sz) /\ ~ (ss_hash (slotAt t ((i + d') mod sz)) = h /\ ss_path (slotAt t ((i + d') mod sz)) = path)) ->
  (~ used t ((i + d) mod sz) \/ (used t ((i + d) mod sz) /\ ss_hash (slotAt t ((i + d) mod sz)) = h /\ ss_path (slotAt t ((i + d) mod sz)) = path)) ->
  probeStatic fuel t h path (i mod sz) = if ss_hash (slotAt t ((i + d) mod sz)) =? 0 then None else Some (ss_handler (slotAt t ((i + d) mod sz))).
Proof.
  intros Hl. revert i d. induction fuel as [| fuel IH]; intros i d Hd Hbefore Hstop; [lia |]. cbn [probeStatic]. destruct (decide (d = 0)) as [-> | Hd0].
  - rewrite Z.add_0_r in *. unfold used in *. destruct (ss_hash (slotAt t (i mod sz)) =? 0) eqn:E; [done |]. destruct Hstop as [Hs | (_ & H1 & H2)]; [lia |].
    by rewrite H1, Z.eqb_refl, bool_decide_true.
  - destruct (Hbefore 0 ltac:(lia)) as [Hu Hn]. rewrite Z.add_0_r in *. unfold used in Hu. rewrite (proj2 (Z.eqb_neq _ 0)) by done.
    replace ((ss_hash (slotAt t (i mod sz)) =? h) && bool_decide (ss_path (slotAt t (i mod sz)) = path)) with false by (symmetry; apply andb_false_iff; destruct (ss_hash (slotAt t (i mod sz)) =? h) eqn:E1; [right; apply bool_decide_eq_false; intros E2; apply Hn; split; [lia | done] | by left]).
    rewrite mask_mod by done. rewrite Zplus_mod_idemp_l. replace (i + d) with (i + 1 + (d - 1)) in * by lia. apply IH; [lia | | done].
    intros d' Hd'. replace (i + 1 + d') with (i + (d' + 1)) by lia. apply Hbefore. lia.
Qed.

(** The least distance at which a property holds. *)
Lemma least_distance (P : Z -> Prop) `{!forall d, Decision (P d)} d : 0 <= d -> P d -> exists d0, 0 <= d0 <= d /\ P d0 /\ forall d', 0 <= d' < d0 -> ~ P d'.
Proof.
  induction d as [d IH] using (well_founded_induction (Z.lt_wf 0)). intros Hd HP. destruct (decide (Exists P (seqZ 0 d))) as [He | He].
  - apply Exists_exists in He as (e & He & HPe). apply elem_of_seqZ in He. destruct (IH e ltac:(lia) ltac:(lia) HPe) as (d0 & H1 & H2 & H3). exists d0. split_and!; [lia | lia | done | done].
  - exists d. split_and!; [lia | lia | done |]. intros d' Hd' HP'. apply He, Exists_exists. exists d'. split; [apply elem_of_seqZ; lia | done].
Qed.

Lemma lookupStatic_spec t es path : holds t es -> zlen es < sz -> (forall se, In se es -> se_hash se = pathQuickHash (se_path se)) ->
  match lookupStatic t path with
  | Some h => exists se, In se es /\ se_path se = path /\ h = Some (se_handler se)
  | None => forall se, In se es -> se_path se <> path
  end.
Proof.
  intros Hh Hlt Hhash. pose proof Hh as [Hl Hin Honly Hne _]. pose proof sz_pos as Hsz. unfold lookupStatic. rewrite mask_mod by done.
  set (h := pathQuickHash path). set (stop := fun d => ~ used t ((h + d) mod sz) \/ (ss_hash (slotAt t ((h + d) mod sz)) = h /\ ss_path (slotAt t ((h + d) mod sz)) = path)).
  destruct (holds_free t es Hh Hlt) as (j & Hj & Hfree). destruct (slot_distance h j Hj) as (e & He & Ee).
  destruct (least_distance stop e) as (d & Hd & Hs & Hbefore); [lia | left; by rewrite Ee |].
  assert (Hmod : forall x, 0 <= x mod sz < sz) by (intros x; by apply Z.mod_pos_bound).
  assert (Hbef : forall d', 0 <= d' < d -> used t ((h + d') mod sz) /\ ~ (ss_hash (slotAt t ((h + d') mod sz)) = h /\ ss_path (slotAt t ((h + d') mod sz)) = path)).
  { intros d' Hd'. specialize (Hbefore d' Hd'). unfold stop in Hbefore. destruct (decide (used t ((h + d') mod sz))) as [Hu | Hu]; [split; [done | tauto] | tauto]. }
  rewrite (probe_first t h path h d); [| done | unfold zlen in Hl; lia | done | unfold stop in Hs; destruct (decide (used t ((h + d) mod sz))); tauto].
  destruct (ss_hash (slotAt t ((h + d) mod sz)) =? 0) eqn:E.
  - intros se Hse Ep. destruct (Hin se Hse) as (ds & Hds & Es & Hus). assert (Hhome : home se = h mod sz) by (unfold home; by rewrite Hhash, Ep).
    rewrite Hhome in *. rewrite Zplus_mod_idemp_l in Es. destruct (decide (ds < d)) as [Hlt' | Hge].
    + destruct (Hbef ds ltac:(lia)) as [_ Hn]. apply Hn. rewrite Es. cbn. by rewrite Hhash, Ep.
    + destruct (decide (d = ds)) as [-> | Hd']; [rewrite Es in E; cbn in E; specialize (Hne se Hse); lia |].
      specialize (Hus d ltac:(lia)). rewrite Zplus_mod_idemp_l in Hus. unfold used in Hus. lia.
  - destruct (Honly ((h + d) mod sz) (Hmod _)) as (se & Hse & Es); [unfold used; lia |]. exists se. rewrite Es. split_and!; [done | | done].
    unfold stop in Hs. destruct Hs as [Hs | [_ Hs]]; [unfold used in Hs; lia |]. by rewrite Es in Hs.
Qed.
End table.

Lemma tableSize_spec fuel j n : 0 <= j -> 0 <= n -> n * 2 <= 2 ^ (j + Z.of_nat fuel) ->
  exists k, 0 <= k /\ tableSize fuel (2 ^ j) n = 2 ^ k /\ n * 2 <= 2 ^ k.
Proof.
  revert j. induction fuel as [| fuel IH]; intros j Hj Hn Hb; cbn [tableSize].
  - exists j. rewrite Z.add_0_r in Hb. done.
  - destruct (2 ^ j <? n * 2) eqn:E; [| exists j; split_and!; [done | done | lia]].
    rewrite Z.shiftl_mul_pow2, <- Z.pow_add_r by lia. apply IH; [lia | done |]. by replace (j + 1 + Z.of_nat fuel) with (j + Z.of_nat (S fuel)) by lia.
Qed.

Lemma pow2_above n : 0 <= n -> n * 2 <= 2 ^ (4 + n).
Proof. intros Hn. rewrite Z.pow_add_r by lia. pose proof (Z.pow_gt_lin_r 2 n ltac:(lia) Hn). change (2 ^ 4) with 16. lia. Qed.

(** The lookup of [lookupBuilt] in the index, when there is one. *)
Definition staticLookup (es : list staticEntry) (path : bytes) : option (option HandlerFunc) :=
  match buildStatics es with Some t => lookupStatic t path | None => None end.

Lemma staticLookup_spec es path : (forall se, In se es -> se_hash se = pathQuickHash (se_path se)) ->
  match staticLookup es path with
  | Some h => exists se, In se es /\ se_path se = path /\ h = Some (se_handler se)
  | None => forall se, In se es -> se_path se <> path
  end.
Proof.
  intros Hhash. unfold staticLookup, buildStatics. destruct (0 <? zlen es) eqn:E; [| destruct es; [by intros ? [] | rewrite zlen_cons in E; pose proof (zlen_nonneg es); lia]].
  pose proof (zlen_nonneg es) as Hn. change 16 with (2 ^ 4). destruct (tableSize_spec (length es) 4 (zlen es)) as (k & Hk & -> & Hb); [lia | done | by apply pow2_above |].
  assert (Hne : Forall (fun se => se_hash se <> 0) es) by (apply List.Forall_forall; intros se Hse; rewrite Hhash by done; apply quickHash_nonzero).
  pose proof (inserts_hold k Hk [] es _ (empty_holds k Hk) ltac:(change (zlen (@nil staticEntry)) with 0; lia) Hne) as Hh. rewrite app_nil_r in Hh.
  pose proof (lookupStatic_spec k Hk _ (rev es) path Hh) as H. assert (Hl : zlen (rev es) < 2 ^ k) by (unfold zlen in *; rewrite length_rev; lia).
  specialize (H Hl ltac:(intros se Hse; apply Hhash; by apply in_rev in Hse)). destruct (lookupStatic _ path) as [h |].
  - destruct H as (se & Hse & H). exists se. split; [by apply in_rev | done].
  - intros se Hse. apply H. by apply in_rev in Hse.
Qed.

(** ** The static routes collected *)

Lemma collect_eq n prefix : collectStaticRoutes n prefix =
  match n_wrapped n with Some h => [mkStatic (prefix ++ n_path n) (pathQuickHash (prefix ++ n_path n)) h] | None => [] end ++
  flat_map (fun x => collectStaticRoutes x (prefix ++ n_path n)) (n_children n).
Proof. by destruct n. Qed.

Lemma lits_inv a ts s : lits a ++ ts = lits s -> exists s', s = a ++ s' /\ ts = lits s'.
Proof.
  revert s. induction a as [| c a IH]; intros s E; [by exists s |]. destruct s as [| c' s]; [done |]. injection E as -> E.
  destruct (IH s E) as (s' & -> & ->). by exists s'.
Qed.

Lemma collect_spec n : wf n -> forall prefix se, In se (collectStaticRoutes n prefix) <->
  exists s, se = mkStatic (prefix ++ n_path n ++ s) (pathQuickHash (prefix ++ n_path n ++ s)) (se_handler se) /\ route builtHandlerOf n (lits s) (se_handler se).
Proof.
  induction 1 as [n Hs Hc IH Hp _]. intros prefix se. assert (Hwf : wf n) by (by apply wf_node). rewrite collect_eq, in_app_iff, in_flat_map. split.
  - intros [Hin | (child & Hchild & Hin)].
    + destruct (n_wrapped n) as [h |] eqn:E; [| done]. destruct Hin as [<- | []]. exists []. rewrite app_nil_r. split; [done |]. by constructor.
    + apply list_elem_of_In, list_elem_of_lookup in Hchild as (i & Hi). apply (IH i child Hi) in Hin as (s & Ese & Hr). exists (n_path child ++ s). split; [by rewrite !app_assoc in * |].
      rewrite lits_app. by eapply route_static.
  - intros (s & Ese & Hr). destruct s as [| c s].
    + left. apply (route_nil builtHandlerOf n Hwf) in Hr. unfold builtHandlerOf in Hr. rewrite Hr, app_nil_r in *. left. by rewrite <- Ese.
    + right. apply (route_lit builtHandlerOf n) in Hr as (i & child & Hi & ts & E & Hr). symmetry in E. apply (lits_inv _ _ (c :: s)) in E as (s' & Es & ->).
      exists child. split; [by apply list_elem_of_In, (list_elem_of_lookup_2 _ i) |]. apply (IH i child Hi). exists s'. split; [| done]. rewrite Ese, Es. cbn. by rewrite !app_assoc.
Qed.

(** A path registered without parameters is found through static nodes alone. *)
Lemma findLoop_static hof n s h : wf n -> route hof n (lits s) h -> forall fuel ps pending, (height n < fuel)%nat ->
  findLoop fuel hof tryBuilt n s ps pending = Some (Some h, ps).
Proof.
  intros Hwf Hr. remember (lits s) as ts eqn:Ets. revert s Ets. induction Hr as [n h Hh | n i child ts h Hi Hr IH | n p ts h Hp Hr IH | n c h Hc Hh]; intros s Ets fuel ps pending Hf.
  - destruct s; [| done]. destruct fuel; [lia |]. cbn. by rewrite Hh.
  - apply lits_inv in Ets as (s' & -> & Ets). destruct fuel as [| fuel]; [lia |]. pose proof Hwf as [Hs Hc _]. destruct (sh_child n Hs i child Hi) as (_ & Hne & _).
    assert (Hne' : n_path child ++ s' <> []) by (by destruct (n_path child)). cbn [findLoop].
    rewrite (proj2 (Z.eqb_neq _ 0)) by (rewrite zlen_app; pose proof (zlen_nonneg s'); destruct (n_path child) as [| x l]; [done | rewrite zlen_cons; pose proof (zlen_nonneg l); lia]).
    rewrite staticMatch_built by done. unfold staticStep. rewrite (staticChildFor_unique n i child s' Hwf Hi), zdrop_app_exact.
    apply IH; [by eapply Hc | done | pose proof (height_child n i child Hi); lia].
  - by destruct s.
  - by destruct s.
Qed.

Lemma findBuilt_static root s h : wf root -> route builtHandlerOf root (lits s) h -> findBuilt root (n_path root ++ s) = (Some h, []).
Proof.
  intros Hwf Hr. unfold findBuilt. destruct (0 <? zlen (n_path root)) eqn:E; cbn [andb].
  - assert (H : hasPrefix (n_path root ++ s) (n_path root) = true) by (apply hasPrefix_spec; by exists s). unfold hasPrefix in H. apply andb_true_iff in H as [H1 H2].
    rewrite H2. replace (zlen (n_path root ++ s) <? zlen (n_path root)) with false by lia. cbn [orb negb].
    rewrite zdrop_app_exact. by rewrite (findLoop_static builtHandlerOf root s h Hwf Hr) by lia.
  - assert (Hp : n_path root = []) by (destruct (n_path root) as [| x l]; [done | rewrite zlen_cons in E; pose proof (zlen_nonneg l); lia]).
    rewrite Hp. cbn [app]. by rewrite (findLoop_static builtHandlerOf root s h Hwf Hr) by lia.
Qed.

(** ** The built tree of a method *)

Section tree.
  Context (rs : list (bytes * HandlerFunc)) (mws : list Z).
  Hypothesis Hok : Forall (fun r => bytes_ok r.1) rs.
Let root := buildTree mws (register emptyNode rs).

(** The routes of the built tree are the registrations behind the middleware. *)
Lemma built_routes : wf root /\ forall ts w, below builtHandlerOf root ts w <-> exists h, registered rs ts = Some h /\ w = Chain h mws.
Proof.
  destruct (register_routes rs Hok) as (Hwf & Hpath & Hr). destruct (buildTree_spec mws _ Hwf Hpath) as [Hwf' Hb]. split; [exact Hwf' |].
  intros ts w. subst root. rewrite Hb, (fresh_route mws _ ts w (register_fresh rs)). by setoid_rewrite Hr.
Qed.

Lemma built_found path h ps : (exists rest, path = n_path root ++ rest /\ found builtHandlerOf root rest h ps) ->
  exists ts vs h0, registered rs ts = Some h0 /\ h = Chain h0 mws /\ matches ts path vs /\ recorded ps vs.
Proof.
  intros (rest & -> & ts & vs & Hr & Hm & Hrec). destruct built_routes as [_ Hb]. destruct (proj1 (Hb (lits (n_path root) ++ ts) h)) as (h0 & Hreg & ->); [by exists ts |].
  exists (lits (n_path root) ++ ts), vs, h0. split_and!; [done | done | | done]. apply matches_lits. by exists rest.
Qed.

Lemma built_static path : staticLookup (collectStaticRoutes root []) path = (fun h => Some (Chain h mws)) <$> registered rs (lits path) /\
  forall h, registered rs (lits path) = Some h -> findBuilt root path = (Some (Chain h mws), []).
Proof.
  destruct built_routes as [Hwf Hb].
  assert (Hin : forall s h, (exists r, s = n_path root ++ r /\ route builtHandlerOf root (lits r) h) <-> exists h0, registered rs (lits s) = Some h0 /\ h = Chain h0 mws).
  { intros s h. rewrite <- Hb. unfold below. split.
    - intros (r & -> & Hr). exists (lits r). by rewrite lits_app.
    - intros (ts & E & Hr). symmetry in E. apply lits_inv in E as (r & -> & ->). by exists r. }
  split.
  - pose proof (staticLookup_spec (collectStaticRoutes root []) path) as H. destruct (staticLookup _ path) as [oh |].
    + destruct H as (se & Hse & Ep & ->); [intros se (s & -> & _)%collect_spec; done |]. apply (collect_spec root Hwf) in Hse as (s & Ese & Hr). rewrite Ese in Ep. cbn in Ep.
      destruct (proj1 (Hin path (se_handler se))) as (h0 & -> & ->); [by exists s | done].
    + destruct (registered rs (lits path)) as [h0 |] eqn:E; [| done]. exfalso. destruct (proj2 (Hin path (Chain h0 mws))) as (r & Er & Hr); [by exists h0 |].
      apply (H ltac:(intros se (s & -> & _)%collect_spec; done) (mkStatic path (pathQuickHash path) (Chain h0 mws))); [| done].
      apply (collect_spec root Hwf). exists r. cbn [app se_handler]. by rewrite <- Er.
  - intros h E. destruct (proj2 (Hin path (Chain h mws))) as (r & -> & Hr); [by exists h |]. by apply findBuilt_static.
Qed.
End tree.

(** Building changes no answer. The tree of a method, its handlers wrapped
    in the middleware and its root collapsed, returns for a path only the
    wrapped handler of a registered pattern that matches it, with its values;
    with the backtracking flag it misses no route within the budget. The
    open-addressed index of static routes finds exactly the paths registered
    without parameters, with the handler the trie walk returns for them. *)
Theorem built_lookup_exact (rs : list (bytes * HandlerFunc)) (mws : list Z) (path : bytes) : Forall (fun r => bytes_ok r.1) rs ->
  let root := buildTree mws (register emptyNode rs) in
  match findBuiltOrBacktrack root path with
  | (Some h, ps) => exists ts vs h0, registered rs ts = Some h0 /\ h = Chain h0 mws /\ matches ts path vs /\ recorded ps vs
  | (None, _) => n_backtrackable root = true -> nodes root < routerBacktrackBudget -> forall ts vs h, registered rs ts = Some h -> ~ matches ts path vs
  end /\
  staticLookup (collectStaticRoutes root []) path = (fun h => Some (Chain h mws)) <$> registered rs (lits path) /\
  forall h, registered rs (lits path) = Some h -> findBuilt root path = (Some (Chain h mws), []).
Proof.
  intros Hok root. split; [| by apply built_static]. destruct (built_routes rs mws Hok) as [Hwf Hb]. fold root in Hwf, Hb. unfold findBuiltOrBacktrack.
  destruct (findBuilt root path) as [[h |] ps] eqn:E; [by apply built_found; [| apply findBuilt_sound] |].
  pose proof (backtracking_answers builtHandlerOf root path ps Hwf) as Hk. destruct (n_backtrackable root); [| intros [=]].
  destruct (findWithBacktracking root path ps builtHandlerOf) as [[h |] ps']; [by apply built_found |].
  intros _ Hn ts vs h Hreg Hm. destruct (proj2 (Hb ts (Chain h mws))) as (ts' & -> & Hr); [by exists h |]. apply matches_lits in Hm as (rest & -> & Hm).
  by apply (Hk Hn rest ts' vs (Chain h mws)).
Qed.

Lemma built_lookup_exact_witness :
  let rs := [(str "/users/:id", hUser 1); (str "/users/new", hUser 2); (str "/", hUser 3)] in
  Forall (fun r => bytes_ok r.1) rs /\
  staticLookup (collectStaticRoutes (buildTree [7] (register emptyNode rs)) []) (str "/users/new") = Some (Some (hMiddleware 7 (hUser 2))).
Proof.
  intros rs. assert (H : Forall (fun r => bytes_ok r.1) rs) by (repeat constructor; cbv; congruence). split; [exact H |].
  destruct (built_lookup_exact rs [7] (str "/users/new") H) as (_ & E & _). rewrite E. vm_compute. reflexivity.
Defined.

(** ** Where the built router answers differently *)

Definition get (r : router) (path : string) (id : Z) : router := Handle r (str "GET") (str path) (hUser id).

(** Three requests the router does not answer as its routes say. A built
    router misses a catch-all when the path ends inside the static nodes below
    it, where the same router answers before [Build]: the greedy search returns
    the handler of the node it stands on, and only trees with a parameter beside
    static children search again. The filter on the byte after the first slash
    is filled with the indices of the roots, which are at another position when a
    root's path is longer than a slash, so a path registered for another method
    gets 404 and not 405. Two patterns that share a parameter position share its
    name: the second registration renames the parameter of the first. *)
Theorem router_divergences :
  (let r := get (get (get (get NewRouter "/files/*path" 1) "/files/img/a" 2) "/files/img/b" 3) "/x" 4 in
   rt_handler (Lookup r (str "GET") (str "/files/img/") []) = Some (hUser 1) /\
   rt_handler (Lookup (Build r) (str "GET") (str "/files/img/") []) = Some hNotFound) /\
  (let r := Build (Handle (get NewRouter "/users" 1) (str "POST") (str "/items") (hUser 2)) in
   rt_handler (Lookup r (str "GET") (str "/items") []) = Some hNotFound /\ rt_handler (methodMiss r methodGET (str "/items")) = Some (hAllow hMethodNotAllowed)) /\
  (let r := get (get NewRouter "/users/:id" 1) "/users/:name/posts" 2 in
   Lookup r (str "GET") (str "/users/7") [] = mkRouted (Some (hUser 1)) [(str "name", str "7")] []).
Proof. vm_compute. by repeat split. Qed.
