(* ===== verification/RouterServe.v ===== *)
(** The router a server runs (src/core/router.go, server.go): routes of all
    methods registered on a new router, the implicit HEAD routes, [Build], and
    what [Lookup] answers: the index of static routes, the greedy search, the
    second search, the catch-all of a root, and 404, 405 and automatic OPTIONS. *)
From stdpp Require Import base list numbers list_numbers strings.
From Stdlib Require Import ZArith Lia ZifyBool.
From S2P Require Import Prelude Utils H1Scan Router RouterTrie RouterFind RouterBuild.

Open Scope list_scope.
Open Scope Z_scope.

(** ** What the greedy search does not miss *)

Lemma siblings_eq n : hasStaticParamSiblings n = (match n_param n with Some _ => 0 <? zlen (n_children n) | None => false end) || existsb hasStaticParamSiblings (n_children n) || match n_param n with Some p => hasStaticParamSiblings p | None => false end || match n_catch n with Some c => hasStaticParamSiblings c | None => false end.
Proof. destruct n as [? cs ? ? ? p c ? ? ? ?]. cbn [hasStaticParamSiblings n_param n_children n_catch]. reflexivity. Qed.

(** Where no node has both, every step of a route without catch-all is forced. *)
Lemma findLoop_complete hof n ts h : wf n -> hasStaticParamSiblings n = false -> route hof n ts h -> TCatch ∉ ts -> forall s vs, matches ts s vs -> forall fuel ps pending, (height n < fuel)%nat ->
  exists ps', findLoop fuel hof tryBuilt n s ps pending = Some (Some h, ps').
Proof.
  intros Hwf Hsib Hr. induction Hr as [n h Hh | n i child ts h Hi Hr IH | n p ts h Hp Hr IH | n c h Hc Hh]; intros Hnc s vs Hm fuel ps pending Hf; (destruct fuel as [| fuel]; [lia |]); rewrite siblings_eq in Hsib.
  - inversion Hm; subst. cbn. rewrite Hh. by eexists.
  - apply matches_lits in Hm as (s' & -> & Hm). pose proof Hwf as [Hs Hcw _]. destruct (sh_child n Hs i child Hi) as (_ & Hne & _). assert (Hne' : n_path child ++ s' <> []) by (by destruct (n_path child)). cbn [findLoop].
    rewrite (proj2 (Z.eqb_neq _ 0)) by (rewrite zlen_app; pose proof (zlen_nonneg s'); destruct (n_path child) as [| x l]; [done | rewrite zlen_cons; pose proof (zlen_nonneg l); lia]).
    rewrite staticMatch_built by done. unfold staticStep. rewrite (staticChildFor_unique n i child s' Hwf Hi), zdrop_app_exact. eapply IH; [by eapply Hcw | | | exact Hm | pose proof (height_child n i child Hi); lia].
    + apply orb_false_iff in Hsib as [Hsib _]. apply orb_false_iff in Hsib as [Hsib _]. apply orb_false_iff in Hsib as [_ Hsib]. destruct (hasStaticParamSiblings child) eqn:Ec; [| done]. rewrite <- Hsib. symmetry. apply existsb_exists. exists child. split; [apply list_elem_of_In; by eapply list_elem_of_lookup_2 | done].
    + intros Hin. apply Hnc. apply elem_of_app. by right.
  - inversion Hm as [| | ts' s0 vs' Hne Hm' |]; subst. rewrite Hp in Hsib. cbn [findLoop]. rewrite (proj2 (Z.eqb_neq _ 0)) by (destruct s as [| x l]; [done | rewrite zlen_cons; pose proof (zlen_nonneg l); lia]). rewrite staticMatch_built by done.
    assert (Hstep : staticStep n s = None). { unfold staticStep, staticChildFor. destruct (indexOf _ _ _) as [i |]; [| done]. destruct (n_children n) as [| x l]; [done |]. rewrite zlen_cons in Hsib. pose proof (zlen_nonneg l). lia. }
    rewrite Hstep, Hp. pose proof Hwf as [_ _ Hpw]. eapply IH; [by apply Hpw | | | exact Hm' | pose proof (height_param n p Hp); lia].
    + apply orb_false_iff in Hsib as [Hsib _]. by apply orb_false_iff in Hsib as [_ Hsib].
    + intros Hin. apply Hnc. by constructor.
  - exfalso. apply Hnc. by constructor.
Qed.

Lemma siblings_backtrackable n b : hasStaticParamSiblings (set_backtrackable n b) = hasStaticParamSiblings n.
Proof. by rewrite !siblings_eq. Qed.

Lemma buildTree_flag mws root : n_backtrackable (buildTree mws root) = hasStaticParamSiblings (buildTree mws root).
Proof. unfold buildTree. cbv zeta. by rewrite siblings_backtrackable. Qed.

Lemma findBuilt_complete root ts h rest vs : wf root -> hasStaticParamSiblings root = false -> route builtHandlerOf root ts h -> TCatch ∉ ts -> matches ts rest vs -> exists ps, findBuilt root (n_path root ++ rest) = (Some h, ps).
Proof.
  intros Hwf Hsib Hr Hnc Hm. destruct (findLoop_complete builtHandlerOf root ts h Hwf Hsib Hr Hnc rest vs Hm (S (height root)) [] None ltac:(lia)) as (ps & Hl). exists ps. unfold findBuilt. destruct (0 <? zlen (n_path root)) eqn:E; cbn [andb].
  - assert (H : hasPrefix (n_path root ++ rest) (n_path root) = true) by (apply hasPrefix_spec; by exists rest). unfold hasPrefix in H. apply andb_true_iff in H as [H1 H2].
    rewrite H2. replace (zlen (n_path root ++ rest) <? zlen (n_path root)) with false by lia. cbn [orb negb]. by rewrite zdrop_app_exact, Hl.
  - assert (Hp : n_path root = []) by (destruct (n_path root) as [| x l]; [done | rewrite zlen_cons in E; pose proof (zlen_nonneg l); lia]). rewrite Hp. cbn [app]. by rewrite Hl.
Qed.

(** ** One built tree *)

(** A pattern serves a path when it matches it; the catch-all of a root also
    takes the empty rest. *)
Definition serves (ts : list tok) (path : bytes) (vs : list bytes) : Prop := matches ts path vs \/ (ts = lits path ++ [TCatch] /\ vs = [[]]).

Lemma build_catch_handler mws n c : fresh n -> n_catch (buildNode mws n) = Some c -> is_Some (n_wrapped c).
Proof.
  intros [_ _ _ _ Hc]. rewrite build_catch. destruct (n_catch n) as [c0 |]; [| done]. intros [= <-]. destruct (Hc c0 eq_refl) as (_ & _ & [h Hh]). change (is_Some (builtHandlerOf (buildNode mws c0))). rewrite build_wrapped. unfold wrapOf. rewrite Hh. by eexists.
Qed.

Lemma buildTree_catch_handler mws root c : fresh root -> n_catch (buildTree mws root) = Some c -> is_Some (n_wrapped c).
Proof.
  intros Hf. unfold buildTree. cbv zeta. cbn [set_backtrackable n_catch]. pose proof (build_catch_handler mws root c Hf) as Hroot. destruct (n_path (buildNode mws root)); [| exact Hroot]. destruct (n_children (buildNode mws root)) as [| child [| ? ?]] eqn:Ec; [exact Hroot | | exact Hroot].
  destruct (n_wrapped (buildNode mws root)); [exact Hroot |]. destruct (n_param (buildNode mws root)); [exact Hroot |]. destruct (n_catch (buildNode mws root)) eqn:Ecat; [by rewrite <- Ecat in * |]. clear Hroot.
  assert (H0 : n_children (buildNode mws root) !! 0%nat = Some child) by (by rewrite Ec). apply build_child in H0 as (child0 & H0 & ->). destruct Hf as [_ _ Hch _ _]. apply build_catch_handler. by eapply Hch.
Qed.

Section tree.
  Context (rs : list (bytes * HandlerFunc)) (mws : list Z).
  Hypothesis Hok : Forall (fun r => bytes_ok r.1) rs.
Let root := buildTree mws (register emptyNode rs).

Lemma root_catch c rest : n_catch root = Some c -> exists h, n_wrapped c = Some (Chain h mws) /\ registered rs (lits (n_path root) ++ [TCatch]) = Some h /\ serves (lits (n_path root) ++ [TCatch]) (n_path root ++ rest) [rest].
Proof.
  intros Hc. destruct (buildTree_catch_handler mws _ c (register_fresh rs) Hc) as [w Hw]. destruct (built_routes rs mws Hok) as [_ Hb]. destruct (proj1 (Hb (lits (n_path root) ++ [TCatch]) w)) as (h & Hreg & ->); [exists [TCatch]; split; [done |]; by eapply route_catch |].
  exists h. split_and!; [done | done |]. destruct rest as [| b rest]; [right; by rewrite app_nil_r |]. left. apply matches_lits. exists (b :: rest). split; [done |]. by constructor.
Qed.

(** What the searches of the tree return is served. *)
Lemma tree_found path h ps : findBuiltOrBacktrack root path = (Some h, ps) -> exists ts vs h0, registered rs ts = Some h0 /\ h = Chain h0 mws /\ matches ts path vs /\ recorded ps vs.
Proof.
  destruct (built_routes rs mws Hok) as [Hwf _]. fold root in Hwf. unfold findBuiltOrBacktrack. destruct (findBuilt root path) as [[h' |] ps'] eqn:Ef; [intros [= -> ->]; by apply built_found; [| apply findBuilt_sound] |].
  pose proof (backtracking_answers builtHandlerOf root path ps' Hwf) as Hk. destruct (n_backtrackable root); [| done]. intros E. rewrite E in Hk. by apply built_found.
Qed.

(** What they do not return: with the flag a tree of as many nodes as the budget,
    without it a pattern that ends in a catch-all. *)
Definition missed (ts : list tok) : Prop := if n_backtrackable root then routerBacktrackBudget <= nodes root else TCatch ∈ ts.

Lemma tree_missed path ps ts vs h : findBuiltOrBacktrack root path = (None, ps) -> registered rs ts = Some h -> matches ts path vs -> missed ts.
Proof.
  intros Ef Hreg Hm. destruct (built_routes rs mws Hok) as [Hwf Hb]. fold root in Hwf, Hb. destruct (proj2 (Hb ts (Chain h mws))) as (ts' & -> & Hr); [by exists h |]. apply matches_lits in Hm as (rest & -> & Hm). unfold missed. unfold findBuiltOrBacktrack in Ef.
  destruct (findBuilt root (n_path root ++ rest)) as [[h' |] ps'] eqn:Eb; [done |]. destruct (n_backtrackable root) eqn:Efl.
  - pose proof (backtracking_answers builtHandlerOf root (n_path root ++ rest) ps' Hwf) as Hk. rewrite Ef in Hk. destruct (decide (nodes root < routerBacktrackBudget)) as [Hlt | Hge]; [| lia]. exfalso. by apply (Hk Hlt rest ts' vs (Chain h mws)).
  - destruct (decide (TCatch ∈ lits (n_path root) ++ ts')) as [Hin | Hn]; [done | exfalso]. subst root. rewrite buildTree_flag in Efl.
    destruct (findBuilt_complete _ ts' (Chain h mws) rest vs Hwf Efl Hr) as (ps2 & E2); [intros Hin; apply Hn, elem_of_app; by right | done | congruence].
Qed.
End tree.

(** ** The routes HEAD takes from GET *)

Definition noSlash (b : Z) : Prop := is_u8 b /\ b <> slashByte.

(** Below a parameter only a slash follows. *)
Definition slashOnly (p : node) : Prop := n_param p = None /\ n_catch p = None /\ forall i c, n_children p !! i = Some c -> head (n_path c) = Some slashByte.

(** The names in a trie can be read back from the paths of its routes. *)
Inductive named (n : node) : Prop :=
| named_node (Hchildren : forall i c, n_children n !! i = Some c -> named c) (Hparam : forall p, n_param n = Some p -> named p) (Hnames : forall p, n_param n = Some p -> slashOnly p /\ Forall noSlash (n_paramName p))
    (Hcatch : forall c, n_catch n = Some c -> bytes_ok (n_catchName c)).

Definition slashNext (s : bytes) : Prop := s = [] \/ head s = Some slashByte.

Lemma named_path s : named (pathNode s).
Proof. apply named_node; [intros i c [=] | intros ? [=] | intros ? [=] | intros ? [=]]. Qed.
Lemma named_rename p name : named p -> named (set_paramName p name).
Proof. intros [H1 H2 H3 H4]. by apply named_node. Qed.
Lemma named_split child k : named child -> named (splitChild child k).
Proof. intros [H1 H2 H3 H4]. apply named_node; [| intros ? [=] | intros ? [=] | intros ? [=]]. intros [| i] c Hc; [| discriminate Hc]. injection Hc as <-. apply named_node; [exact H1 | exact H2 | exact H3 | exact H4]. Qed.

Lemma addLoop_name fuel n remaining h : n_paramName (addLoop fuel n remaining h) = n_paramName n.
Proof. destruct fuel as [| fuel]; [done |]. destruct remaining as [| c rest]; [done |]. cbn [addLoop]. destruct (c =? colon); [done |]. destruct (c =? star); [done |]. destruct (indexOf _ _ _); [| done]. by destruct (n_children n !! n0). Qed.

Lemma segment_next s : slashNext (zdrop (segmentLen s) s).
Proof.
  induction s as [| c s IH]; [by left |]. cbn [segmentLen]. destruct (c =? slashByte) eqn:E; [apply Z.eqb_eq in E as ->; by right |]. pose proof (segmentLen_bound s). unfold zdrop in *. by replace (Z.to_nat (1 + segmentLen s)) with (S (Z.to_nat (segmentLen s))) by lia.
Qed.
Lemma segment_noSlash s : bytes_ok s -> Forall noSlash (ztake (segmentLen s) s).
Proof.
  induction 1 as [| c s Hc _ IH]; [done |]. cbn [segmentLen]. destruct (c =? slashByte) eqn:E; [done |]. pose proof (segmentLen_bound s). unfold ztake in *. replace (Z.to_nat (1 + segmentLen s)) with (S (Z.to_nat (segmentLen s))) by lia. constructor; [split; [done | lia] | done].
Qed.
Lemma segment_name name rest : Forall noSlash name -> slashNext rest -> segmentLen (name ++ rest) = zlen name.
Proof.
  intros Hn Hr. induction Hn as [| b name [_ Hb] _ IH]; cbn [app segmentLen]; [destruct Hr as [-> | Hr]; [done |]; destruct rest as [| x rest]; [done |]; injection Hr as ->; done |]. rewrite (proj2 (Z.eqb_neq _ _) Hb), IH, zlen_cons. lia.
Qed.

Lemma addLoop_named fuel n remaining h : wf n -> named n -> bytes_ok remaining -> (length remaining < fuel)%nat ->
  named (addLoop fuel n remaining h) /\ (slashOnly n -> slashNext remaining -> slashOnly (addLoop fuel n remaining h)).
Proof.
  revert n remaining. induction fuel as [| fuel IH]; intros n remaining Hwf Hn Hok Hf; [lia |]. pose proof Hn as [N1 N2 N3 N4]. pose proof Hwf as [Hs Hc Hp]. destruct remaining as [| c rest]; cbn [addLoop]; [split; [by apply named_node | done] |]. cbn [length] in Hf.
  assert (Hnext : slashNext (c :: rest) -> c = slashByte) by (intros [[=] | [= ->]]; done). destruct (c =? colon) eqn:Ecol; [| destruct (c =? star) eqn:Est; [| destruct (indexOf (n_indices n) c 0) as [i |] eqn:Ei]].
  - split; [| intros _ Hx; specialize (Hnext Hx); subst c; done]. pose proof (segmentLen_bound rest) as Hb. apply Forall_cons_1 in Hok as [Hc0 Hok]. set (name := zslice (c :: rest) 1 (1 + segmentLen rest)).
    assert (Hname : Forall noSlash name) by (subst name; unfold zslice; replace (1 + segmentLen rest - 1) with (segmentLen rest) by lia; exact (segment_noSlash rest Hok)).
    assert (Hrest : zdrop (1 + segmentLen rest) (c :: rest) = zdrop (segmentLen rest) rest) by (unfold zdrop; by replace (Z.to_nat (1 + segmentLen rest)) with (S (Z.to_nat (segmentLen rest))) by lia).
    set (p := match n_param n with Some p => p | None => paramNode name end). assert (P : wf p /\ named p /\ slashOnly p).
    { subst p. destruct (n_param n) as [q |] eqn:Eq; [split_and!; [by apply Hp | by apply N2 | by apply N3] |]. split_and!; [exact (wf_rename _ name (emptyShape [])) | exact (named_rename _ name (named_path [])) |]. split_and!; [done | done | by intros [] ? ?]. }
    destruct P as (P1 & P2 & P3). rewrite Hrest. destruct (IH (set_paramName p name) (zdrop (segmentLen rest) rest)) as [I1 I2]; [by apply wf_rename | by apply named_rename | by apply Forall_drop | unfold zdrop; rewrite length_drop; lia |].
    apply named_node; [exact N1 | by intros q [= <-] | | exact N4]. intros q [= <-]. split; [apply I2; [exact P3 | apply segment_next] | by rewrite addLoop_name].
  - split; [| intros _ Hx; specialize (Hnext Hx); subst c; done]. apply Forall_cons_1 in Hok as [_ Hok]. apply named_node; [exact N1 | exact N2 | exact N3 |]. by intros c' [= <-].
  - pose proof (indexOf_spec (n_indices n) c 0) as Hix. rewrite Ei in Hix. destruct Hix as (j & -> & Hj). cbn [Nat.add] in *. destruct (lookup_lt_is_Some_2 (n_children n) j) as [child Hchild]; [rewrite <- (sh_len n Hs); by eapply lookup_lt_Some |]. rewrite Hchild.
    destruct (sh_child n Hs j child Hchild) as (Hhd & _ & Hpl). rewrite Hj in Hhd. destruct (sharedChild_spec child c rest (Hc j child Hchild) Hpl Hok (eq_sym Hhd)) as (Hk & Hpath & Hhd' & Hpl' & Hwf' & _). fold (sharedChild child (c :: rest)). set (k := longestCommonPrefix (n_path child) (c :: rest)) in *.
    assert (Hlen : (length (zdrop k (c :: rest)) < fuel)%nat) by (unfold zdrop; rewrite length_drop; cbn [length]; lia). assert (Hok' : bytes_ok (zdrop k (c :: rest))) by (by apply Forall_drop).
    assert (Hns : named (sharedChild child (c :: rest))) by (unfold sharedChild; cbv zeta; destruct (_ <? _); [apply named_split |]; by eapply N1). destruct (IH (sharedChild child (c :: rest)) (zdrop k (c :: rest)) Hwf' Hns Hok' Hlen) as [I1 _]. destruct (addLoop_inserted fuel (sharedChild child (c :: rest)) (zdrop k (c :: rest)) h Hwf' Hok' Hlen) as (_ & Hp' & _).
    set (child'' := addLoop _ _ _ _) in *. assert (Hcase : forall i d, <[j := child'']> (n_children n) !! i = Some d -> d = child'' \/ n_children n !! i = Some d) by (intros i d Hd; apply list_lookup_insert_Some in Hd as [(_ & <- & _) | (_ & Hd)]; [by left | by right]).
    split; [apply named_node; [| exact N2 | exact N3 | exact N4]; intros i d Hd; destruct (Hcase i d Hd) as [-> | Hd']; [done | by eapply N1] |]. intros (S1 & S2 & S3) Hx. split_and!; [done | done |]. intros i d Hd. destruct (Hcase i d Hd) as [-> | Hd']; [rewrite Hp', Hhd', (Hnext Hx); done | by eapply S3].
  - pose proof (staticEnd_bound (c :: rest)) as Hb. assert (Hse : staticEnd (c :: rest) = 1 + staticEnd rest) by (cbn [staticEnd]; by rewrite Ecol, Est). pose proof (staticEnd_bound rest). set (seg := ztake (staticEnd (c :: rest)) (c :: rest)).
    assert (Hseg : seg = c :: ztake (staticEnd rest) rest) by (subst seg; rewrite Hse; unfold ztake; by replace (Z.to_nat (1 + staticEnd rest)) with (S (Z.to_nat (staticEnd rest))) by lia).
    assert (Hlen : (length (zdrop (staticEnd (c :: rest)) (c :: rest)) < fuel)%nat) by (unfold zdrop; rewrite length_drop; cbn [length]; lia). assert (Hok' : bytes_ok (zdrop (staticEnd (c :: rest)) (c :: rest))) by (by apply Forall_drop).
    destruct (IH (pathNode seg) _ (emptyShape seg) (named_path seg) Hok' Hlen) as [I1 _]. destruct (addLoop_inserted fuel (pathNode seg) _ h (emptyShape seg) Hok' Hlen) as (_ & Hp' & _). set (child'' := addLoop _ _ _ _) in *.
    assert (Hcase : forall i d, (n_children n ++ [child'']) !! i = Some d -> d = child'' \/ n_children n !! i = Some d) by (intros i d Hd; apply lookup_app_Some in Hd as [Hd | [_ Hd]]; [by right |]; apply list_lookup_singleton_Some in Hd as [_ <-]; by left).
    split; [apply named_node; [| exact N2 | exact N3 | exact N4]; intros i d Hd; destruct (Hcase i d Hd) as [-> | Hd']; [done | by eapply N1] |]. intros (S1 & S2 & S3) Hx. split_and!; [done | done |]. intros i d Hd. destruct (Hcase i d Hd) as [-> | Hd']; [rewrite Hp'; cbn [pathNode n_path]; rewrite Hseg, (Hnext Hx); done | by eapply S3].
Qed.

Lemma register_named rs : Forall (fun r => bytes_ok r.1) rs -> named (register emptyNode rs).
Proof.
  induction rs as [| [path h0] rs IH] using rev_ind; intros Hok; [exact (named_path []) |]. apply Forall_app in Hok as [Hok Hp]. apply Forall_cons_1 in Hp as [Hp _]. destruct (register_routes rs Hok) as (Hwf & _). rewrite register_snoc. apply addLoop_named; [done | by apply IH | done | lia].
Qed.

Lemma walk_eq n prefix : walkRoutes n prefix =
  match n_handler n, n_wrapped n with None, None => [] | _, _ => [(prefix ++ n_path n, n)] end ++ flat_map (fun x => walkRoutes x (prefix ++ n_path n)) (n_children n) ++
  match n_param n with Some p => walkRoutes p ((prefix ++ n_path n) ++ [colon] ++ n_paramName p) | None => [] end ++
  match n_catch n with Some c => [((prefix ++ n_path n) ++ [star] ++ n_catchName c, c)] | None => [] end.
Proof. by destruct n. Qed.

(** Every route visited is written as a pattern that stands for it. *)
Lemma walk_spec n : wf n -> named n -> forall prefix path x h, In (path, x) (walkRoutes n prefix) -> n_handler x = Some h ->
  exists rest, path = prefix ++ n_path n ++ rest /\ bytes_ok rest /\ route treeHandlerOf n (pattern rest) h /\ (slashOnly n -> slashNext rest).
Proof.
  induction 1 as [n Hs Hc IHc Hp IHp]. intros [N1 N2 N3 N4] prefix path x h Hin Hh. rewrite walk_eq, !in_app_iff in Hin. destruct Hin as [Hin | [Hin | [Hin | Hin]]].
  - assert (path = prefix ++ n_path n /\ x = n) as [-> ->] by (destruct (n_handler n); [| destruct (n_wrapped n); [| done]]; destruct Hin as [[= <- <-] | []]; done). exists []. rewrite app_nil_r. split_and!; [done | constructor | by constructor | intros _; by left].
  - apply in_flat_map in Hin as (child & Hchild & Hin). apply list_elem_of_In, list_elem_of_lookup in Hchild as (i & Hi). destruct (IHc i child Hi (N1 i child Hi) _ _ _ _ Hin Hh) as (rest & -> & R1 & R2 & _). destruct (sh_child n Hs i child Hi) as (_ & Hne & Hpl).
    exists (n_path child ++ rest). rewrite !app_assoc. split_and!; [done | apply Forall_app; split; [eapply Forall_impl; [exact Hpl |]; by intros ? [? _] | done] | rewrite pat_plain by done; by eapply route_static |]. intros (_ & _ & S3). right. specialize (S3 i child Hi). by destruct (n_path child).
  - destruct (n_param n) as [p |] eqn:Ep; [| done]. destruct (N3 p eq_refl) as [Hsl Hname]. destruct (IHp p eq_refl (N2 p eq_refl) _ _ _ _ Hin Hh) as (rest & -> & R1 & R2 & R3). rewrite (sh_param n Hs p Ep). specialize (R3 Hsl). exists (colon :: n_paramName p ++ rest). cbn [app]. rewrite <- !app_assoc. cbn [app]. split_and!; [done | | | intros [S1 _]; congruence].
    + constructor; [by vm_compute |]. apply Forall_app. split; [| done]. eapply Forall_impl; [exact Hname |]. by intros ? [? _].
    + rewrite pattern_param by done. rewrite (segment_name _ rest Hname R3). assert (zdrop (1 + zlen (n_paramName p)) (colon :: n_paramName p ++ rest) = rest) as ->; [| by eapply route_param]. unfold zdrop. pose proof (zlen_nonneg (n_paramName p)). replace (Z.to_nat (1 + zlen (n_paramName p))) with (S (length (n_paramName p))) by (unfold zlen; lia). cbn [drop]. by rewrite drop_app_length.
  - destruct (n_catch n) as [c |] eqn:Ec; [| done]. destruct Hin as [[= <- <-] | []]. exists (star :: n_catchName c). rewrite <- app_assoc. split_and!; [done | constructor; [by vm_compute | by apply N4] | by eapply route_catch | intros (_ & S2 & _); congruence].
Qed.

(** ** The routes of a server *)

Abbreviation registration := (bytes * bytes * HandlerFunc)%type.

Definition registerAll (rs : list registration) (r : router) : router := fold_left (fun r '(method, path, h) => Handle r method path h) rs r.
Definition routerOf (rs : list registration) (mws : list Z) : router := Use (registerAll rs NewRouter) mws.

(** The router a server runs: [ListenAndServe] builds it. *)
Definition serverRouter (rs : list registration) (mws : list Z) : router := Build (routerOf rs mws).

(** The registrations of a method, in their order. *)
Definition routesFor (rs : list registration) (i : nat) : list (bytes * HandlerFunc) :=
  flat_map (fun '(method, path, h) => if decide (methodIndex method = Some i) then [(path, h)] else []) rs.

(** What [addImplicitHEAD] registers. *)
Definition implicitHEAD (r : router) : list (bytes * HandlerFunc) :=
  match treeOf r methodGET with
  | None => []
  | Some get => flat_map (fun '(path, n) =>
      match n_handler n with
      | None => []
      | Some h =>
          match treeOf r methodHEAD with
          | Some head => match fst (findInTree head path) with Some _ => [] | None => [(path, h)] end
          | None => [(path, h)]
          end
      end) (walkRoutes get [])
  end.

Definition treeFor (l : list (bytes * HandlerFunc)) : option node := match l with [] => None | _ => Some (register emptyNode l) end.

(** The trees of a router are made by the routes [R] of each method. *)
Definition planted (r : router) (R : nat -> list (bytes * HandlerFunc)) : Prop := length (trees r) = methodCount /\ forall i, treeOf r i = if decide (i < methodCount)%nat then treeFor (R i) else None.

Lemma methodIndex_lt method i : methodIndex method = Some i -> (i < methodCount)%nat.
Proof. unfold methodIndex, methodCount. repeat (case_bool_decide; [intros [= <-]; lia |]). done. Qed.

Lemma planted_new : planted NewRouter (fun _ => []).
Proof. split; [done |]. intros i. unfold treeOf. case_decide as Hi; [| by rewrite lookup_ge_None_2 by (cbn; unfold methodCount in *; lia)]. unfold methodCount in Hi. by do 9 (destruct i as [| i]; [done |]). Qed.

Lemma treeFor_snoc l path h : treeFor (l ++ [(path, h)]) = Some (addRoute (match treeFor l with Some n => n | None => emptyNode end) path h).
Proof. unfold treeFor at 1. destruct (l ++ [(path, h)]) as [| x l'] eqn:El; [by destruct l |]. rewrite <- El, register_snoc. by destruct l. Qed.

Lemma planted_Handle r R method path h : planted r R -> planted (Handle r method path h) (fun i => R i ++ if decide (methodIndex method = Some i) then [(path, h)] else []).
Proof.
  intros [H1 H2]. unfold Handle. destruct (methodIndex method) as [j |] eqn:Em.
  - pose proof (methodIndex_lt method j Em) as Hj. split; [cbn; by rewrite length_insert |]. intros i. set (t := Some (addRoute _ path h)). change (match <[j := t]> (trees r) !! i with Some t => t | None => None end = (if decide (i < methodCount)%nat then treeFor (R i ++ if decide (Some j = Some i) then [(path, h)] else []) else None)). destruct (decide (Some j = Some i)) as [[= ->] | Hn].
    + rewrite list_lookup_insert_eq by (rewrite H1; done). subst t. rewrite treeFor_snoc, H2. by case_decide.
    + rewrite list_lookup_insert_ne by congruence. rewrite app_nil_r. exact (H2 i).
  - split; [done |]. intros i. rewrite H2. case_decide as Hi; [| done]. destruct (decide (None = Some i)); [done |]. by rewrite app_nil_r.
Qed.

Lemma planted_ext r R R' : (forall i, R i = R' i) -> planted r R -> planted r R'.
Proof. intros He [H1 H2]. split; [done |]. intros i. by rewrite H2, He. Qed.

Lemma planted_registerAll rs r R : planted r R -> planted (registerAll rs r) (fun i => R i ++ routesFor rs i).
Proof.
  revert r R. induction rs as [| [[method path] h] rs IH]; intros r R H; [eapply planted_ext; [| exact H]; intros i; by rewrite app_nil_r |]. cbn [registerAll fold_left]. eapply planted_ext; [| apply IH, planted_Handle, H]. intros i. cbn [routesFor flat_map]. by rewrite <- app_assoc.
Qed.

(** The routes a method has once the router is built. *)
Definition methodRoutes (rs : list registration) (i : nat) : list (bytes * HandlerFunc) :=
  routesFor rs i ++ if decide (i = methodHEAD) then implicitHEAD (registerAll rs NewRouter) else [].

Definition headOf (l : list (bytes * HandlerFunc)) : list registration := map (fun '(path, h) => (str "HEAD", path, h)) l.

Lemma routesFor_head l i : routesFor (headOf l) i = if decide (i = methodHEAD) then l else [].
Proof.
  assert (Hm : methodIndex (str "HEAD") = Some methodHEAD) by (by vm_compute). induction l as [| [path h] l IH]; [by case_decide |]. unfold headOf, routesFor in *. cbn [map flat_map]. rewrite IH. rewrite Hm. destruct (decide (i = methodHEAD)) as [-> | Hn]; [by rewrite decide_True | by rewrite decide_False by congruence].
Qed.

Lemma addImplicitHEAD_eq r : addImplicitHEAD r = registerAll (headOf (implicitHEAD r)) r.
Proof.
  assert (Hf : forall l r, fold_left (fun r '(path, h) => Handle r (str "HEAD") path h) l r = registerAll (headOf l) r) by (intros l; induction l as [| [path h] l IH]; intros r0; [done | apply IH]).
  unfold addImplicitHEAD, implicitHEAD. destruct (treeOf r methodGET); [| done]. cbv zeta. apply Hf.
Qed.

Lemma planted_server rs mws : planted (addImplicitHEAD (routerOf rs mws)) (methodRoutes rs).
Proof.
  rewrite addImplicitHEAD_eq. eapply planted_ext; [| apply planted_registerAll; exact (planted_registerAll rs NewRouter _ planted_new)]. intros i. cbn [app]. rewrite routesFor_head. done.
Qed.

Lemma Handle_rest r method path h : globalMiddleware (Handle r method path h) = globalMiddleware r /\ r_notFound (Handle r method path h) = r_notFound r /\ r_methodNotAllowed (Handle r method path h) = r_methodNotAllowed r /\ built (Handle r method path h) = built r.
Proof. unfold Handle. by destruct (methodIndex method). Qed.

Lemma registerAll_rest rs r : globalMiddleware (registerAll rs r) = globalMiddleware r /\ r_notFound (registerAll rs r) = r_notFound r /\ r_methodNotAllowed (registerAll rs r) = r_methodNotAllowed r /\ built (registerAll rs r) = built r.
Proof.
  revert r. induction rs as [| [[method path] h] rs IH]; intros r; [done |]. change (registerAll ((method, path, h) :: rs) r) with (registerAll rs (Handle r method path h)). destruct (IH (Handle r method path h)) as (-> & -> & -> & ->). apply Handle_rest.
Qed.

(** The implicit routes are routes of GET. *)
Lemma implicit_spec rs p h : Forall (fun r => bytes_ok r.1.2) rs -> In (p, h) (implicitHEAD (registerAll rs NewRouter)) -> bytes_ok p /\ registered (routesFor rs methodGET) (pattern p) = Some h.
Proof.
  intros Hok Hin. assert (Hg : Forall (fun r => bytes_ok r.1) (routesFor rs methodGET)).
  { apply List.Forall_forall. intros [path h0] H0. apply in_flat_map in H0 as ([[method path'] h'] & H1 & H2). rewrite List.Forall_forall in Hok. specialize (Hok _ H1). case_decide; [| done]. by destruct H2 as [[= <- <-] | []]. }
  destruct (planted_registerAll rs NewRouter _ planted_new) as [_ Ht]. specialize (Ht methodGET). cbn [app] in Ht. rewrite decide_True in Ht by (unfold methodGET, methodCount; lia). unfold implicitHEAD in Hin. rewrite Ht in Hin. unfold treeFor in Hin. destruct (routesFor rs methodGET) as [| x l] eqn:El; [done |]. rewrite <- El in *. clear x l El.
  apply in_flat_map in Hin as ([path n] & Hw & Hin). destruct (n_handler n) as [h0 |] eqn:Eh; [| done]. assert (p = path /\ h = h0) as [-> ->] by (destruct (treeOf (registerAll rs NewRouter) methodHEAD); [destruct (fst (findInTree _ path)); [done |] |]; by destruct Hin as [[= <- <-] | []]).
  destruct (register_routes _ Hg) as (Hwf & Hp & Hr). destruct (walk_spec _ Hwf (register_named _ Hg) [] path n h0 Hw Eh) as (rest & -> & R1 & R2 & _). rewrite Hp. split; [exact R1 |]. by apply Hr.
Qed.

Lemma methodRoutes_ok rs i : Forall (fun r => bytes_ok r.1.2) rs -> Forall (fun r => bytes_ok r.1) (methodRoutes rs i).
Proof.
  intros Hok. unfold methodRoutes. apply Forall_app. split; apply List.Forall_forall; intros [path h0] H0.
  - apply in_flat_map in H0 as ([[method path'] h'] & H1 & H2). rewrite List.Forall_forall in Hok. specialize (Hok _ H1). case_decide; [| done]. by destruct H2 as [[= <- <-] | []].
  - case_decide; [| done]. by apply (implicit_spec rs path h0).
Qed.

Section server.
  Context (rs : list registration) (mws : list Z).
  Hypothesis Hok : Forall (fun r => bytes_ok r.1.2) rs.
Let r := serverRouter rs mws.

Lemma server_eq : r = build (routerOf rs mws).
Proof. subst r. unfold serverRouter, Build. change (built (routerOf rs mws)) with (built (registerAll rs NewRouter)). by rewrite (proj2 (proj2 (proj2 (registerAll_rest rs NewRouter)))). Qed.

Lemma server_middleware : globalMiddleware (addImplicitHEAD (routerOf rs mws)) = mws /\ r_notFound (addImplicitHEAD (routerOf rs mws)) = hNotFound /\ r_methodNotAllowed (addImplicitHEAD (routerOf rs mws)) = hMethodNotAllowed.
Proof.
  rewrite addImplicitHEAD_eq. destruct (registerAll_rest (headOf (implicitHEAD (routerOf rs mws))) (routerOf rs mws)) as (-> & -> & -> & _). destruct (registerAll_rest rs NewRouter) as (H1 & H2 & H3 & _). unfold routerOf, Use. cbn [globalMiddleware r_notFound r_methodNotAllowed]. by rewrite H1, H2, H3.
Qed.

Lemma server_tree i : treeOf r i = if decide (i < methodCount)%nat then buildTree mws <$> treeFor (methodRoutes rs i) else None.
Proof.
  rewrite server_eq. destruct (planted_server rs mws) as [_ Ht]. specialize (Ht i). unfold build, treeOf in *. cbv zeta. cbn [trees]. rewrite (proj1 server_middleware), list_lookup_fmap. destruct (trees (addImplicitHEAD (routerOf rs mws)) !! i) as [t |]; cbn [fmap option_fmap option_map]; [rewrite Ht | symmetry in Ht]; case_decide; try done. by rewrite Ht.
Qed.

Lemma server_static i root : treeOf r i = Some root -> forall path, (match statics r !! i with Some (Some t) => lookupStatic t path | _ => None end) = staticLookup (collectStaticRoutes root []) path.
Proof.
  rewrite server_eq. unfold build, treeOf. cbv zeta. cbn [trees statics]. intros Ht path. rewrite list_lookup_fmap. destruct (map (fmap (buildTree _)) _ !! i) as [t |] eqn:Et; [| done]. subst t. cbn [fmap option_fmap option_map]. unfold staticLookup. by destruct (buildStatics _).
Qed.

(** A method of the server has a route that serves the path. *)
Definition hasRoute (i : nat) (path : bytes) : Prop := exists ts vs h, registered (methodRoutes rs i) ts = Some h /\ serves ts path vs.

Lemma server_root i root : treeOf r i = Some root -> root = buildTree mws (register emptyNode (methodRoutes rs i)).
Proof. rewrite server_tree. case_decide; [| done]. unfold treeFor. destruct (methodRoutes rs i) as [| x l]; [done |]. by intros [= <-]. Qed.

Lemma server_no_tree i : treeOf r i = None -> (i < methodCount)%nat -> methodRoutes rs i = [].
Proof. rewrite server_tree. intros Ht Hi. rewrite decide_True in Ht by done. unfold treeFor in Ht. by destruct (methodRoutes rs i). Qed.

Lemma lor_nonzero l acc : fold_left Z.lor l acc <> 0 -> acc <> 0 \/ exists x, In x l /\ x <> 0.
Proof.
  revert acc. induction l as [| x l IH]; intros acc H; [by left |]. destruct (IH _ H) as [H0 | (y & Hy & H0)]; [| right; exists y; split; [by right | done]]. destruct (decide (acc = 0)) as [-> | Hn]; [| by left]. right. exists x. split; [by left |]. by rewrite Z.lor_0_l in H0.
Qed.

(** A method that is allowed has a route for the path. *)
Lemma allowed_route idx path : allowedMask r idx path <> 0 -> exists i, i <> idx /\ hasRoute i path.
Proof.
  intros H. apply lor_nonzero in H as [H | (x & Hin & Hx)]; [done |]. apply list_elem_of_In, list_elem_of_lookup in Hin as (i & Hi). rewrite list_lookup_imap in Hi. destruct (trees r !! i) as [t |] eqn:Et; [| done]. injection Hi as <-. unfold allowedBit in Hx. destruct t as [root |]; [| done]. destruct (Nat.eqb i idx) eqn:Ei; [done |]. apply Nat.eqb_neq in Ei. exists i. split; [done |].
  assert (Hroot : treeOf r i = Some root) by (unfold treeOf; by rewrite Et). apply server_root in Hroot as ->. pose proof (methodRoutes_ok rs i Hok) as Hm. destruct (_ || _) eqn:Eo in Hx; [| done]. apply orb_true_iff in Eo as [Eo | Eo].
  - destruct (n_catch _) as [c |] eqn:Ec in Eo; [| done]. apply hasPrefix_spec in Eo as (rest & ->). destruct (root_catch _ mws Hm c rest Ec) as (h & _ & Hreg & Hs). by eexists _, _, h.
  - destruct (findBuiltOrBacktrack _ path) as [[h |] ps] eqn:Ef; [| done]. destruct (tree_found _ mws Hm path h ps Ef) as (ts & vs & h0 & Hreg & _ & Hmat & _). exists ts, vs, h0. split; [done | by left].
Qed.

(** What a path no search of its method finds is answered with. *)
Definition refusal (idx : nat) (path : bytes) (a : routed) : Prop :=
  (rt_handler a = Some (Chain hNotFound mws) /\ rt_allow a = []) \/
  (rt_handler a = Some (Chain (if Nat.eqb idx methodOPTIONS then hAutoOptions else hAllow hMethodNotAllowed) mws) /\ exists i, i <> idx /\ hasRoute i path).

Lemma server_wrapped : wrappedNotFound r = Chain hNotFound mws /\ wrappedMethodNotAllowed r = Chain (hAllow hMethodNotAllowed) mws /\ wrappedAutoOptions r = Chain hAutoOptions mws.
Proof. rewrite server_eq. destruct server_middleware as (H1 & H2 & H3). unfold build, applyMiddleware. cbv zeta. cbn [wrappedNotFound wrappedMethodNotAllowed wrappedAutoOptions]. by rewrite H1, H2, H3. Qed.

Lemma methodMiss_refusal idx path : refusal idx path (methodMiss r idx path).
Proof.
  destruct server_wrapped as (W1 & W2 & W3). unfold methodMiss. cbv zeta. destruct (allowedMask r idx path =? 0) eqn:Ea; [left; by rewrite W1 |]. right. split; [cbn; rewrite W2, W3; by destruct (Nat.eqb idx methodOPTIONS) |]. apply allowed_route. lia.
Qed.

(** What is answered is served; what is refused was missed. *)
Definition answered (idx : nat) (path : bytes) (a : routed) : Prop :=
  exists ts vs h, registered (methodRoutes rs idx) ts = Some h /\ serves ts path vs /\ rt_handler a = Some (Chain h mws) /\ recorded (rt_params a) vs /\ rt_allow a = [].

Lemma lookupTree_spec idx root path : treeOf r idx = Some root -> answered idx path (lookupTree r idx root path) \/
  refusal idx path (lookupTree r idx root path) /\ forall ts vs h, registered (methodRoutes rs idx) ts = Some h -> matches ts path vs -> missed (methodRoutes rs idx) mws ts.
Proof.
  intros Ht. pose proof (server_root idx root Ht) as ->. pose proof (methodRoutes_ok rs idx Hok) as Hm. set (root := buildTree mws (register emptyNode (methodRoutes rs idx))) in *. unfold lookupTree.
  assert (Hfound : forall h ps, findBuiltOrBacktrack root path = (Some h, ps) -> answered idx path (mkRouted (Some h) ps [])) by (intros h ps Ef; destruct (tree_found _ mws Hm path h ps Ef) as (ts & vs & h0 & Hreg & -> & Hmat & Hrec); exists ts, vs, h0; split_and!; [done | by left | done | done | done]).
  assert (Hmiss : forall ps, findBuiltOrBacktrack root path = (None, ps) -> answered idx path (match (if hasPrefix path (n_path root) then n_catch root else None) with Some c => mkRouted (n_wrapped c) [(n_catchName c, zdrop (zlen (n_path root)) path)] [] | None => if (1 <? zlen path) && negb (testFirst (validFirst r) (znth path 1)) then mkRouted (Some (wrappedNotFound r)) ps [] else methodMiss r idx path end) \/
    refusal idx path (match (if hasPrefix path (n_path root) then n_catch root else None) with Some c => mkRouted (n_wrapped c) [(n_catchName c, zdrop (zlen (n_path root)) path)] [] | None => if (1 <? zlen path) && negb (testFirst (validFirst r) (znth path 1)) then mkRouted (Some (wrappedNotFound r)) ps [] else methodMiss r idx path end) /\ forall ts vs h, registered (methodRoutes rs idx) ts = Some h -> matches ts path vs -> missed (methodRoutes rs idx) mws ts).
  { intros ps Ef. destruct (if hasPrefix path (n_path root) then n_catch root else None) as [c |] eqn:Ec.
    - left. destruct (hasPrefix path (n_path root)) eqn:Ep; [| done]. apply hasPrefix_spec in Ep as (rest & ->). rewrite zdrop_app_exact. destruct (root_catch _ mws Hm c rest Ec) as (h & Hw & Hreg & Hs). fold root in Hreg, Hs. eexists _, [rest], h. split_and!; [exact Hreg | exact Hs | exact Hw | done | done].
    - right. split; [| intros ts vs h Hreg Hmat; exact (tree_missed _ mws Hm path ps ts vs h Ef Hreg Hmat)]. destruct (_ && _); [left; by rewrite (proj1 server_wrapped) | apply methodMiss_refusal]. }
  unfold findBuiltOrBacktrack in Hfound, Hmiss. destruct (findBuilt root path) as [[h |] ps]; [left; by apply Hfound |]. destruct (if n_backtrackable root then _ else _) as [[h |] ps']; [left; by apply Hfound | by apply Hmiss].
Qed.
End server.

(** C13: the router of a server. Register any routes for any methods on a new
    router, add any middleware, and build it, as the server does. A lookup of a
    method and a path then gives: for a path registered without parameters, its
    handler behind the middleware, with no parameters; otherwise either the
    handler, behind the middleware, of a pattern registered for the method that
    serves the path (the one registered last for it), with the values of its
    parameters (the first eight), or a refusal: 404, or 405 (an automatic answer
    for OPTIONS) only when another method has a route that serves the path. A
    refused path is matched by no route of the method, except by patterns ending in
    a catch-all when no node has both static children and a parameter, and except
    in a tree with as many nodes as the budget of the second search when one has.
    The routes of HEAD are its own and implicit ones, each of which is a route of
    GET. *)
Theorem router_answers (rs : list registration) (mws : list Z) (method path : bytes) (idx : nat) : Forall (fun r => bytes_ok r.1.2) rs -> methodIndex method = Some idx ->
  let a := Lookup (serverRouter rs mws) method path [] in
  (forall h, registered (methodRoutes rs idx) (lits path) = Some h -> a = mkRouted (Some (Chain h mws)) [] []) /\
  (answered rs mws idx path a \/
   refusal rs mws idx path a /\ forall ts vs h, registered (methodRoutes rs idx) ts = Some h -> matches ts path vs -> missed (methodRoutes rs idx) mws ts) /\
  (idx = methodHEAD -> forall p h, In (p, h) (methodRoutes rs idx) -> In (p, h) (routesFor rs idx) \/ registered (routesFor rs methodGET) (pattern p) = Some h).
Proof.
  intros Hok Hidx a. subst a. set (r := serverRouter rs mws). assert (Hb : built r = true) by (subst r; rewrite server_eq; done). unfold Lookup. rewrite Hidx, Hb. unfold lookupBuilt.
  assert (Hhead : idx = methodHEAD -> forall p h, In (p, h) (methodRoutes rs idx) -> In (p, h) (routesFor rs idx) \/ registered (routesFor rs methodGET) (pattern p) = Some h).
  { intros -> p h Hin. unfold methodRoutes in Hin. apply in_app_iff in Hin as [Hin | Hin]; [by left | right]. rewrite decide_True in Hin by done. by apply (implicit_spec rs p h). }
  destruct (treeOf r idx) as [root |] eqn:Et.
  - assert (Hst : (match statics r !! idx with Some (Some t) => lookupStatic t path | _ => None end) = (fun h => Some (Chain h mws)) <$> registered (methodRoutes rs idx) (lits path)) by (subst r; rewrite (server_static rs mws idx root Et path), (server_root rs mws idx root Et); apply (built_static _ mws (methodRoutes_ok rs idx Hok) path)).
    rewrite Hst. destruct (registered (methodRoutes rs idx) (lits path)) as [h |] eqn:Er; cbn [fmap option_fmap option_map].
    + split_and!; [by intros h' [= <-] | | done]. left. exists (lits path), [], h. split_and!; [done | | done | done | done]. left. rewrite <- (app_nil_r (lits path)). apply matches_lits. exists []. rewrite app_nil_r. split; [done | constructor].
    + split_and!; [done | | done]. exact (lookupTree_spec rs mws Hok idx root path Et).
  - pose proof (server_no_tree rs mws idx Et (methodIndex_lt method idx Hidx)) as Hnil. rewrite Hnil in *. split_and!; [done | | by intros _ ? ? []]. right. split; [apply methodMiss_refusal; exact Hok | done].
Qed.

Definition demoRoutes : list registration := [(str "GET", str "/users/:id", hUser 1); (str "GET", str "/users/new", hUser 2); (str "POST", str "/items", hUser 3); (str "GET", str "/f/*p", hUser 5)].

Lemma router_answers_witness :
  Forall (fun r => bytes_ok r.1.2) demoRoutes /\
  Lookup (serverRouter demoRoutes [7]) (str "GET") (str "/users/new") [] = mkRouted (Some (hMiddleware 7 (hUser 2))) [] [] /\
  Lookup (serverRouter demoRoutes [7]) (str "GET") (str "/users/42") [] = mkRouted (Some (hMiddleware 7 (hUser 1))) [(str "id", str "42")] [] /\
  rt_handler (Lookup (serverRouter demoRoutes [7]) (str "HEAD") (str "/f/a/b") []) = Some (hMiddleware 7 (hUser 5)) /\
  rt_handler (Lookup (serverRouter demoRoutes [7]) (str "POST") (str "/users/42") []) = Some (hMiddleware 7 (hAllow hMethodNotAllowed)).
Proof.
  assert (H : Forall (fun r => bytes_ok r.1.2) demoRoutes) by (repeat constructor; cbv; congruence). split; [exact H |]. split; [| vm_compute; by repeat split].
  destruct (router_answers demoRoutes [7] (str "GET") (str "/users/new") 0 H eq_refl) as (Hs & _). apply Hs. vm_compute. reflexivity.
Defined.
