(* ===== verification/WsInflate.v ===== *)
(** Decompression of WebSocket messages (src/core/websocket_deflate.go,
    wsInflate): the loop around the inflater, its limit on the output and its
    budget for restarts. The inflater itself (compress/flate) and the growth of
    a slice are parameters. *)
From stdpp Require Import base list numbers.
From Stdlib Require Import ZArith Lia ZifyBool.
From S2P Require Import Prelude.

Open Scope list_scope.
Open Scope Z_scope.

Definition wsDeflateWindowSize : Z := 2 ^ 15.
Definition wsInflateMinGrowth : Z := 4096.
Definition wsInflateResetOverheadBytes : Z := 8 * 2 ^ 10.
Definition wsInflateResetBudgetFloor : Z := 2 ^ 20.
Definition wsInflateTail : bytes := [0x00; 0x00; 0xff; 0xff; 0x01; 0x00; 0x00; 0xff; 0xff].
Definition wsStatusInvalidPayload : Z := 1007.
Definition wsStatusMessageTooBig : Z := 1009.

(** What the inflater reads from: the message and, after it, the tail. *)
Record wsInflateSource := mkSource { is_cur : bytes; is_off : Z; is_tail : bytes }.
Definition source_reset (body tail : bytes) : wsInflateSource := mkSource body 0 tail.
Definition source_Len (s : wsInflateSource) : Z := zlen (is_cur s) - is_off s + zlen (is_tail s).

Inductive readErr := errNil | errEOF | errOther.

(** The inflater: its state, [Reset] with a dictionary, [Read] into a slice of
    the given length, and the capacity [slices.Grow] gives a full slice of a
    capacity that needs room for so many more. *)
Record Inflater := mkInflater {
  fstate : Type;
  flateReset : wsInflateSource -> bytes -> option fstate;
  flateRead : fstate -> wsInflateSource -> Z -> bytes * readErr * fstate * wsInflateSource;
  slicesGrow : Z -> Z -> Z }.

Section inflate.
  Context (I : Inflater) (limit : Z).

Definition resetBudget : Z := Z.max limit wsInflateResetBudgetFloor.

(** A message with its status, or the panic of [slices.Grow] for a negative
    size (and of a slice expression with a negative bound). *)
Inductive inflateResult := inflateOk (m : bytes) (status : Z) | inflatePanics.

(** The loop: the output, its capacity and the work of the restarts so far.
    [None] when the fuel runs out. *)
Fixpoint inflateLoop (fuel : nat) (fr : fstate I) (src : wsInflateSource) (out : bytes) (cap resetWork : Z) : option inflateResult :=
  match fuel with
  | O => None
  | S fuel =>
      let headroom := i64 (i64 (limit + 1) - zlen out) in
      let growth := Z.min (Z.max cap wsInflateMinGrowth) headroom in
      if (zlen out =? cap) && (growth <? 0) then Some inflatePanics
      else
        let cap := if zlen out =? cap then slicesGrow I cap growth else cap in
        if (headroom <? cap - zlen out) && (headroom <? 0) then Some inflatePanics
        else
          let room := if headroom <? cap - zlen out then headroom else cap - zlen out in
          let '(p, err, fr, src) := flateRead I fr src room in
          let out := out ++ p in
          if limit <? zlen out then Some (inflateOk [] wsStatusMessageTooBig)
          else
            match err with
            | errNil => inflateLoop fuel fr src out cap resetWork
            | errEOF =>
                if source_Len src =? 0 then Some (inflateOk out 0)
                else
                  let dict := zdrop (Z.max 0 (zlen out - wsDeflateWindowSize)) out in
                  let resetWork := i64 (resetWork + (zlen dict + wsInflateResetOverheadBytes)) in
                  if resetBudget <? resetWork then Some (inflateOk [] wsStatusMessageTooBig)
                  else match flateReset I src dict with
                       | None => Some (inflateOk [] wsStatusInvalidPayload)
                       | Some fr => inflateLoop fuel fr src out cap resetWork
                       end
            | errOther => Some (inflateOk [] wsStatusInvalidPayload)
            end
  end.

(** Reads that give a byte, and restarts. *)
Definition inflateFuel : nat := Z.to_nat (limit + 2 + resetBudget / wsInflateResetOverheadBytes).

Definition inflateRun (compressed : bytes) : option inflateResult :=
  let src := source_reset compressed wsInflateTail in
  match flateReset I src [] with
  | None => Some (inflateOk [] wsStatusInvalidPayload)
  | Some fr => inflateLoop inflateFuel fr src [] 0 0
  end.
(** What the caller gets; the panic, which it does not get to see, counts as a
    message that is not valid. *)
Definition wsInflate (compressed : bytes) : bytes * Z := match inflateRun compressed with Some (inflateOk m status) => (m, status) | _ => ([], wsStatusInvalidPayload) end.

(** What the documentation of [io.Reader], [flate] and [slices.Grow] promises:
    a read stays within its slice and, without an error, gives at least a byte
    when the slice has room; growing makes the room asked for. *)
Class InflaterOk : Prop := mkInflaterOk {
  io_read : forall fr src room, 0 < room -> let '(p, err, _, _) := flateRead I fr src room in zlen p <= room /\ (err = errNil -> 0 < zlen p);
  io_grow : forall cap n, 0 <= n -> cap + n <= slicesGrow I cap n }.
Context `{!InflaterOk}.

(** Below it no sum of the loop leaves the 64 bits. *)
Definition inflateLimitMax : Z := 2 ^ 63 - 2 ^ 16.

Lemma dict_short (out : bytes) : 0 <= zlen (zdrop (Z.max 0 (zlen out - wsDeflateWindowSize)) out) <= wsDeflateWindowSize.
Proof. split; [apply zlen_nonneg |]. unfold zdrop, zlen. rewrite length_drop. change wsDeflateWindowSize with 32768. lia. Qed.

(** Every turn gives a byte or costs a restart. *)
Lemma inflateLoop_ends fuel fr src out cap work : limit < inflateLimitMax -> zlen out <= limit -> zlen out <= cap -> 0 <= work <= resetBudget ->
  limit + 1 - zlen out + (resetBudget - work) / wsInflateResetOverheadBytes < Z.of_nat fuel ->
  exists m status, inflateLoop fuel fr src out cap work = Some (inflateOk m status) /\ zlen m <= limit /\ (status = 0 \/ status = wsStatusMessageTooBig \/ status = wsStatusInvalidPayload).
Proof.
  assert (Hnil : zlen (@nil Z) = 0) by done. change wsInflateResetOverheadBytes with 8192. intros Hlim. change inflateLimitMax with (2 ^ 63 - 65536) in Hlim. assert (Hbud : resetBudget < 2 ^ 63 - 65536) by (unfold resetBudget; change wsInflateResetBudgetFloor with 1048576; lia).
  revert fr src out cap work. induction fuel as [| fuel IH]; intros fr src out cap work Ho Hc Hw Hf; pose proof (zlen_nonneg out).
  { pose proof (Z.div_pos (resetBudget - work) 8192). lia. }
  cbn [inflateLoop]. change wsInflateResetOverheadBytes with 8192. rewrite (i64_small (limit + 1)), (i64_small (limit + 1 - zlen out)) by lia. set (growth := Z.min _ (limit + 1 - zlen out)). assert (Hgrow : 0 < growth) by (unfold growth, wsInflateMinGrowth; lia).
  replace (growth <? 0) with false by lia. rewrite andb_false_r. cbv zeta. set (cap' := if zlen out =? cap then _ else cap).
  assert (Hcap : zlen out < cap') by (subst cap'; destruct (zlen out =? cap) eqn:Ec; [pose proof (io_grow cap growth); lia | lia]).
  replace (limit + 1 - zlen out <? 0) with false by lia. rewrite andb_false_r.
  set (room := if limit + 1 - zlen out <? cap' - zlen out then _ else _). assert (Hroom : 0 < room <= cap' - zlen out) by (subst room; destruct (_ <? _) eqn:El; lia).
  pose proof (io_read fr src room ltac:(lia)) as Hr. destruct (flateRead I fr src room) as [[[p err] fr'] src']. destruct Hr as [Hp Hpos]. pose proof (zlen_nonneg p).
  rewrite zlen_app. destruct (limit <? zlen out + zlen p) eqn:El; [by eexists _, _; split; [done |]; split; [lia | auto] |].
  destruct err; [| destruct (source_Len src' =? 0) | by eexists _, _; split; [done |]; split; [lia | auto]].
  - specialize (Hpos eq_refl). apply IH; rewrite ?zlen_app; lia.
  - eexists _, _. split; [done |]. rewrite zlen_app. split; [lia | auto].
  - pose proof (dict_short (out ++ p)) as Hdict. rewrite zlen_app in Hdict. set (dict := zdrop _ (out ++ p)) in *. change wsDeflateWindowSize with 32768 in Hdict. rewrite i64_small by lia.
    destruct (resetBudget <? work + (zlen dict + 8192)) eqn:Eb; [by eexists _, _; split; [done |]; split; [lia | auto] |].
    destruct (flateReset I src' dict); [| by eexists _, _; split; [done |]; split; [lia | auto]]. apply IH; rewrite ?zlen_app; [lia | lia | lia |].
    assert (Hd : (resetBudget - (work + (zlen dict + 8192))) / 8192 <= (resetBudget - work) / 8192 - 1); [| lia].
    pose proof (Z.div_add (resetBudget - work) (-1) 8192). pose proof (Z.div_le_mono (resetBudget - (work + (zlen dict + 8192))) (resetBudget - work + -1 * 8192) 8192). lia.
Qed.

Lemma inflate_ends compressed : 0 <= limit < inflateLimitMax -> exists m status, inflateRun compressed = Some (inflateOk m status) /\ zlen m <= limit /\ (status = 0 \/ status = wsStatusMessageTooBig \/ status = wsStatusInvalidPayload).
Proof.
  intros Hl. unfold inflateRun. destruct (flateReset I _ _) as [fr |]; [| by eexists _, _; split; [done |]; split; [apply Hl | auto]]. change (zlen (@nil Z)) with 0 in *.
  assert (Hb : 0 <= resetBudget) by (unfold resetBudget; lia). pose proof (Z.div_pos resetBudget wsInflateResetOverheadBytes Hb ltac:(done)) as Hd.
  apply inflateLoop_ends; change (zlen (@nil Z)) with 0; [apply Hl | lia | lia | lia |]. unfold inflateFuel. rewrite !Z.sub_0_r. set (d := resetBudget / wsInflateResetOverheadBytes) in *. clearbody d. lia.
Qed.

(** Whatever the limit, no message that is returned is longer. *)
Lemma inflateLoop_bound fuel fr src out cap work m status : 0 <= limit -> inflateLoop fuel fr src out cap work = Some (inflateOk m status) -> zlen m <= limit.
Proof.
  intros Hl. revert fr src out cap work. induction fuel as [| fuel IH]; intros fr src out cap work; [done |]. cbn [inflateLoop]. cbv zeta.
  destruct (_ && _); [done |]. destruct (_ && _); [done |]. destruct (flateRead _ _ _ _) as [[[p err] fr'] src']. destruct (limit <? zlen (out ++ p)) eqn:E; [by intros [= <- <-] |].
  destruct err; [apply IH | | by intros [= <- <-]]. destruct (source_Len src' =? 0); [intros [= <- <-]; lia |]. destruct (resetBudget <? _); [by intros [= <- <-] |]. destruct (flateReset _ _ _); [apply IH | by intros [= <- <-]].
Qed.

Lemma wsInflate_bound compressed : 0 <= limit -> zlen (wsInflate compressed).1 <= limit.
Proof.
  intros Hl. unfold wsInflate. destruct (inflateRun compressed) as [[m status |] |] eqn:E; [| done ..]. unfold inflateRun in E. destruct (flateReset _ _ _); [by eapply inflateLoop_bound | by injection E as <- <-].
Qed.

(** At the largest limit the first turn asks for a negative size. *)
Lemma inflate_panics compressed : limit = 2 ^ 63 - 1 -> flateReset I (source_reset compressed wsInflateTail) [] <> None -> inflateRun compressed = Some inflatePanics.
Proof.
  intros Hlimit Hr. unfold inflateRun. destruct (flateReset _ _ _) as [fr |]; [| done]. assert (exists f, inflateFuel = S f) as (f & ->) by (exists (pred inflateFuel); assert (0 < inflateFuel)%nat; [| lia]; unfold inflateFuel; pose proof (Z.div_pos resetBudget wsInflateResetOverheadBytes ltac:(unfold resetBudget; lia) ltac:(done)); lia).
  cbn [inflateLoop]. assert (i64 (i64 (limit + 1) - zlen (@nil Z)) = - 2 ^ 63) as -> by by rewrite Hlimit. done.
Qed.
End inflate.

(** C38: Decompression ends and is bounded on every input: with an inflater that
    keeps to its slice and makes progress, and a limit more than 64 KiB below
    the largest [int64] (so that no sum of the loop wraps), the loop of
    [wsInflate] returns within one turn per output byte and one per restart
    its budget allows, and the message is never longer than the limit; anything
    else is reported as too big or invalid. With the largest [int64] as the
    limit the first turn panics, on every message the inflater starts to read. *)
Theorem ws_inflate_terminates (I : Inflater) `{!InflaterOk I} (limit : Z) (compressed : bytes) :
  (0 <= limit < inflateLimitMax ->
    exists m status, inflateRun I limit compressed = Some (inflateOk m status) /\ wsInflate I limit compressed = (m, status) /\ zlen m <= limit /\
      (status = 0 \/ status = wsStatusMessageTooBig \/ status = wsStatusInvalidPayload)) /\
  (limit = 2 ^ 63 - 1 -> flateReset I (source_reset compressed wsInflateTail) [] <> None -> inflateRun I limit compressed = Some inflatePanics).
Proof.
  split; [| by apply inflate_panics]. intros Hl. destruct (inflate_ends I limit compressed Hl) as (m & status & E & Hm & Hs). exists m, status. unfold wsInflate. by rewrite E.
Qed.

(** An inflater to run: stored bytes, given back as they are, a zero byte
    ending a block. *)
Definition demoRead (s : wsInflateSource) (room : Z) : bytes * readErr * unit * wsInflateSource :=
  match is_cur s with
  | [] => ([], errEOF, tt, mkSource [] 0 [])
  | 0 :: cur => ([], errEOF, tt, mkSource cur 0 (is_tail s))
  | cur => let p := ztake (Z.min room 1) cur in (p, errNil, tt, mkSource (zdrop (Z.min room 1) cur) 0 (is_tail s))
  end.
Definition demoInflater : Inflater := mkInflater unit (fun _ _ => Some tt) (fun _ => demoRead) (fun cap n => cap + n).

#[export] Instance demoInflater_ok : InflaterOk demoInflater.
Proof.
  apply mkInflaterOk; [| intros; cbn; lia]. intros fr src room Hr. cbn. unfold demoRead.
  assert (Hlen : forall (c : Z) (cur : bytes), 0 < zlen (ztake (Z.min room 1) (c :: cur)) <= room).
  { intros c cur. unfold ztake, zlen. rewrite length_take. cbn [length]. lia. }
  destruct (is_cur src) as [| [| c | c] cur]; try (split; [change (zlen (@nil Z)) with 0; lia | done]); (split; [| intros _]; apply Hlen).
Qed.

Lemma ws_inflate_terminates_witness : wsInflate demoInflater 6 [1; 2; 3; 0; 4; 5] = ([1; 2; 3; 4; 5], 0) /\ wsInflate demoInflater 4 [1; 2; 3; 0; 4; 5] = ([], wsStatusMessageTooBig) /\
  (exists m status, inflateRun demoInflater 6 [1; 2; 3; 0; 4; 5] = Some (inflateOk m status) /\ zlen m <= 6) /\ inflateRun demoInflater (2 ^ 63 - 1) [1; 2; 3] = Some inflatePanics.
Proof.
  split; [by vm_compute |]. split; [by vm_compute |]. split.
  - destruct (proj1 (ws_inflate_terminates demoInflater 6 [1; 2; 3; 0; 4; 5]) ltac:(unfold inflateLimitMax; lia)) as (m & status & E & _ & Hm & _). exists m, status. exact (conj E Hm).
  - apply (proj2 (ws_inflate_terminates demoInflater (2 ^ 63 - 1) [1; 2; 3])); [reflexivity | discriminate].
Defined.
