(* ===== verification/WebSocket.v ===== *)
(** Server-side WebSocket connections driven by the event loop
    (src/core/websocket.go, epoll_ws_linux_amd64.go, wsmask_amd64.go): frame
    headers and their checks, unmasking, fragmented messages, control frames and
    the closing handshake. *)
From stdpp Require Import base list numbers list_numbers strings.
From Stdlib Require Import ZArith Lia ZifyBool.
From S2P Require Import Prelude Utils H1Scan WsInflate.

Open Scope list_scope.
Open Scope Z_scope.

(** ** Constants *)

Definition wsOpContinuation : Z := 0.
Definition wsOpText : Z := 1.
Definition wsOpBinary : Z := 2.
Definition wsOpClose : Z := 8.
Definition wsOpPing : Z := 9.
Definition wsOpPong : Z := 10.
Definition wsStatusProtocolError : Z := 1002.
Definition wsStatusNoStatus : Z := 1005.
Definition wsStatusPolicyViolation : Z := 1008.
Definition wsMaxControlPayload : Z := 125.
Definition wsDefaultMaxMessageSize : Z := 4 * 1024 * 1024.
Definition wsRSV1 : Z := 0x40.
Definition wsRSVMask : Z := 0x70.
Definition wsPingMinInterval : Z := 100 * 1000000.
Definition wsPingWindow : Z := 10 * 1000000000.
Definition wsPingWindowMax : Z := 100.

(** ** Unmasking *)

(** The bytes of a little-endian word. *)
Fixpoint le_bytes (n : nat) (v : Z) : bytes :=
  match n with
  | O => []
  | S n => v mod 256 :: le_bytes n (v / 256)
  end.

(** [uint64(binary.LittleEndian.Uint32(maskKey[:])) * (1<<32 | 1)]. *)
Definition wsMaskWord (key : bytes) : Z := u64 (le_val key * (2 ^ 32 + 1)).

(** [payload[i] ^= maskKey[i&3]] from position [i] on. *)
Fixpoint maskTail (payload key : bytes) (i : Z) : bytes :=
  match payload with
  | [] => []
  | b :: payload => Z.lxor b (znth key (Z.land i 3)) :: maskTail payload key (i + 1)
  end.

(** Eight bytes at a time, then the rest. *)
Fixpoint maskWords (fuel : nat) (payload key : bytes) (i : Z) : bytes :=
  match fuel with
  | O => maskTail payload key i
  | S fuel =>
      if 8 <=? zlen payload
      then le_bytes 8 (Z.lxor (le_val (ztake 8 payload)) (wsMaskWord key)) ++ maskWords fuel (zdrop 8 payload) key (i + 8)
      else maskTail payload key i
  end.
Definition maskXORSWAR (payload key : bytes) : bytes := maskWords (length payload) payload key 0.

Definition wsMaskSIMDBlock : Z := 32.
Definition utf8SIMDMinLen : Z := 64.

(** ** UTF-8 *)

Definition cont (b : Z) : bool := (0x80 <=? b) && (b <=? 0xBF).

(** [utf8.Valid]: well-formed sequences only (no overlong forms, surrogates or
    values past 10FFFF). *)
Fixpoint utf8Valid (p : bytes) : bool :=
  match p with
  | [] => true
  | b0 :: p =>
      if b0 <? 0x80 then utf8Valid p
      else match p with
      | [] => false
      | b1 :: p1 =>
          if (0xC2 <=? b0) && (b0 <=? 0xDF) then cont b1 && utf8Valid p1
          else match p1 with
          | [] => false
          | b2 :: p2 =>
              if (0xE0 <=? b0) && (b0 <=? 0xEF) then
                (if b0 =? 0xE0 then 0xA0 <=? b1 else true) && (if b0 =? 0xED then b1 <=? 0x9F else true) && cont b1 && cont b2 && utf8Valid p2
              else match p2 with
              | [] => false
              | b3 :: p3 =>
                  if (0xF0 <=? b0) && (b0 <=? 0xF4) then
                    (if b0 =? 0xF0 then 0x90 <=? b1 else true) && (if b0 =? 0xF4 then b1 <=? 0x8F else true) && cont b1 && cont b2 && cont b3 && utf8Valid p3
                  else false
              end
          end
      end
  end.

(** ** Frame headers *)

Definition wsAppendFrameHeader (dst : bytes) (first payloadLen : Z) : bytes :=
  if payloadLen <=? 125 then dst ++ [first; u8 payloadLen]
  else if payloadLen <=? 65535 then dst ++ [first; 126; u8 (Z.shiftr payloadLen 8); u8 payloadLen]
  else dst ++ [first; 127; u8 (Z.shiftr payloadLen 56); u8 (Z.shiftr payloadLen 48); u8 (Z.shiftr payloadLen 40); u8 (Z.shiftr payloadLen 32);
               u8 (Z.shiftr payloadLen 24); u8 (Z.shiftr payloadLen 16); u8 (Z.shiftr payloadLen 8); u8 payloadLen].

Definition wsValidCloseCode (code : Z) : bool :=
  ((3000 <=? code) && (code <=? 4999)) ||
  (code =? 1000) || (code =? 1001) || (code =? 1002) || (code =? 1003) || (code =? 1007) || (code =? 1008) || (code =? 1009) || (code =? 1010) || (code =? 1011).

(** ** State *)

(** The fields of [WSConn] the protocol reads; [wc_clock] counts the readings
    of the clock. *)
Record wsConn := mkConn { wc_closed : bool; wc_closeCode : Z; wc_lastPing : Z; wc_pingCount : Z; wc_clock : nat }.

(** The frame being read: [frameFin], [frameOp], [remaining], [mask],
    [maskOff] and [ctrl[:ctrlN]] are only read while [inFrame]. *)
Record wsFrame := mkFrame { fr_fin : bool; fr_op : Z; fr_remaining : Z; fr_mask : bytes; fr_maskOff : Z; fr_ctrl : bytes }.

(** [wsLoopConn]: [wl_frame] is [inFrame] with its fields, [wl_message] is
    [inMessage] with [msgOp] and [msgCompressed]. [wl_out] is what was handed to
    the connection for sending, [wl_delivered] the calls of [OnMessage]. *)
Record wsLoop := mkLoop {
  wl_conn : wsConn;
  wl_frame : option wsFrame;
  wl_message : option (Z * bool);
  wl_msg : bytes;
  wl_outbox : bytes;
  wl_closeQueued : bool;
  wl_closing : bool;
  wl_out : bytes;
  wl_delivered : list (Z * bytes) }.

Definition with_conn (st : wsLoop) (c : wsConn) : wsLoop :=
  mkLoop c (wl_frame st) (wl_message st) (wl_msg st) (wl_outbox st) (wl_closeQueued st) (wl_closing st) (wl_out st) (wl_delivered st).
Definition with_frame (st : wsLoop) (f : option wsFrame) : wsLoop :=
  mkLoop (wl_conn st) f (wl_message st) (wl_msg st) (wl_outbox st) (wl_closeQueued st) (wl_closing st) (wl_out st) (wl_delivered st).
Definition with_message (st : wsLoop) (m : option (Z * bool)) : wsLoop :=
  mkLoop (wl_conn st) (wl_frame st) m (wl_msg st) (wl_outbox st) (wl_closeQueued st) (wl_closing st) (wl_out st) (wl_delivered st).
Definition with_msg (st : wsLoop) (m : bytes) : wsLoop :=
  mkLoop (wl_conn st) (wl_frame st) (wl_message st) m (wl_outbox st) (wl_closeQueued st) (wl_closing st) (wl_out st) (wl_delivered st).
Definition with_outbox (st : wsLoop) (o : bytes) (q : bool) : wsLoop :=
  mkLoop (wl_conn st) (wl_frame st) (wl_message st) (wl_msg st) o q (wl_closing st) (wl_out st) (wl_delivered st).
Definition deliver (st : wsLoop) (op : Z) (msg : bytes) : wsLoop :=
  mkLoop (wl_conn st) (wl_frame st) (wl_message st) (wl_msg st) (wl_outbox st) (wl_closeQueued st) (wl_closing st) (wl_out st) (wl_delivered st ++ [(op, msg)]).

(** The state of a connection just upgraded. *)
Definition newLoop : wsLoop := mkLoop (mkConn false 0 0 0 0) None None [] [] false false [] [].

(** ** The connection *)

(** What the connection runs in: the assembly routines, the clock, the
    inflater, and the settings negotiated and configured. *)
Record wsEnv := mkEnv {
  hasAVX2 : bool;
  maskXORAVX2 : bytes -> Z -> bytes;
  asciiPrefixAVX2 : bytes -> Z;
  UnixNano : nat -> Z;
  inflater : Inflater;
  MaxMessageSize : Z;
  compressionLevel : Z;
  outLimit : Z;
  connTLS : bool;
  wholeFrameLimit : Z }.

Section ws.
  Context (E : wsEnv).

Definition maskXOR (payload key : bytes) : bytes :=
  if hasAVX2 E && (wsMaskSIMDBlock <=? zlen payload) then
    let bulk := zlen payload - zlen payload mod wsMaskSIMDBlock in
    maskXORAVX2 E (ztake bulk payload) (wsMaskWord key) ++ maskXORSWAR (zdrop bulk payload) key
  else maskXORSWAR payload key.

Definition wsMaskAt (b key : bytes) (off : Z) : bytes :=
  let r := Z.land off 3 in
  maskXOR b (if r =? 0 then key else [znth key r; znth key (Z.land (r + 1) 3); znth key (Z.land (r + 2) 3); znth key (Z.land (r + 3) 3)]).

Definition validUTF8 (p : bytes) : bool :=
  if hasAVX2 E && (utf8SIMDMinLen <=? zlen p)
  then utf8Valid (zdrop (asciiPrefixAVX2 E (ztake (zlen p - zlen p mod wsMaskSIMDBlock) p)) p)
  else utf8Valid p.

Definition maxMessageSize : Z := if MaxMessageSize E <=? 0 then wsDefaultMaxMessageSize else MaxMessageSize E.

(** [closeCode.CompareAndSwap(0, code)]. *)
Definition noteCloseCode (st : wsLoop) (code : Z) : wsLoop :=
  let c := wl_conn st in
  if wc_closeCode c =? 0 then with_conn st (mkConn (wc_closed c) code (wc_lastPing c) (wc_pingCount c) (wc_clock c)) else st.

Definition writeClose (st : wsLoop) (payload : bytes) : wsLoop :=
  if wl_closeQueued st then st
  else with_outbox st (wsAppendFrameHeader (wl_outbox st) (Z.lor 0x80 wsOpClose) (zlen payload) ++ payload) true.

Definition closeWithPayload (st : wsLoop) (payload : bytes) : wsLoop :=
  let c := wl_conn st in
  if wc_closed c then st
  else
    let st := with_conn st (mkConn true (wc_closeCode c) (wc_lastPing c) (wc_pingCount c) (wc_clock c)) in
    let st := if 2 <=? zlen payload then noteCloseCode st (be_val (ztake 2 payload)) else st in
    writeClose st payload.

Definition closeWithStatus (st : wsLoop) (code : Z) : wsLoop := closeWithPayload st (be_bytes 2 code).
Definition Close (st : wsLoop) : wsLoop := closeWithPayload (noteCloseCode st wsStatusNoStatus) [].
Definition failBare (st : wsLoop) : wsLoop := Close (noteCloseCode st wsStatusProtocolError).

(** [write] for a control frame: never compressed, and shorter than what is
    sent without the outbox. *)
Definition writeControl (st : wsLoop) (opcode : Z) (data : bytes) : wsLoop :=
  if wl_closeQueued st then st
  else
    let st' := with_outbox st (wsAppendFrameHeader (wl_outbox st) (Z.lor 0x80 opcode) (zlen data) ++ data) (wl_closeQueued st) in
    if (0 <? outLimit E) && (outLimit E <? zlen (wl_outbox st')) then closeWithStatus st wsStatusPolicyViolation else st'.

(** The checks on the first two bytes: the state, and whether they passed. *)
Definition vetFrameHead (st : wsLoop) (b0 b1 : Z) : wsLoop * bool :=
  let inMessage := match wl_message st with Some _ => true | None => false end in
  let opcode := Z.land b0 0x0F in
  let rsv := Z.land b0 wsRSVMask in
  if negb (rsv =? 0) && (negb (rsv =? wsRSV1) || (compressionLevel E =? 0) || (opcode =? wsOpContinuation) || (wsOpClose <=? opcode)) then (failBare st, false)
  else if Z.land b1 0x80 =? 0 then (failBare st, false)
  else if wsOpClose <=? opcode then
    if (Z.land b0 0x80 =? 0) || (wsMaxControlPayload <? Z.land b1 0x7F) || (wsOpPong <? opcode) then (closeWithStatus st wsStatusProtocolError, false)
    else (st, true)
  else if wsOpBinary <? opcode then (closeWithStatus st wsStatusProtocolError, false)
  else if negb (Bool.eqb inMessage (opcode =? wsOpContinuation)) then (failBare st, false)
  else (st, true).

Definition vetPayloadLength (st : wsLoop) (payloadLen assembled : Z) : wsLoop * bool :=
  if payloadLen <? 0 then (failBare st, false)
  else if maxMessageSize - assembled <? payloadLen then (closeWithStatus st wsStatusMessageTooBig, false)
  else (st, true).

Definition handleCloseFrame (st : wsLoop) (payload : bytes) : wsLoop :=
  if zlen payload =? 1 then closeWithStatus st wsStatusProtocolError
  else if 2 <=? zlen payload then
    if negb (wsValidCloseCode (be_val (ztake 2 payload))) then closeWithStatus st wsStatusProtocolError
    else if negb (validUTF8 (zdrop 2 payload)) then closeWithStatus st wsStatusInvalidPayload
    else closeWithPayload st (ztake 2 payload)
  else Close st.

Definition handlePing (st : wsLoop) (payload : bytes) : wsLoop :=
  let c := wl_conn st in
  let now := UnixNano E (wc_clock c) in
  let last := wc_lastPing c in
  let set_count n := with_conn st (mkConn (wc_closed c) (wc_closeCode c) now n (S (wc_clock c))) in
  if negb (last =? 0) && (now - last <? wsPingMinInterval) then closeWithStatus (set_count (wc_pingCount c)) wsStatusProtocolError
  else if (last =? 0) || (wsPingWindow <? now - last) then writeControl (set_count 1) wsOpPong payload
  else
    let n := u32 (wc_pingCount c + 1) in
    if wsPingWindowMax <? n then closeWithStatus (set_count n) wsStatusProtocolError
    else writeControl (set_count n) wsOpPong payload.

(** The message, or the state after an error. *)
Definition completeMessage (st : wsLoop) (opcode : Z) (compressed : bool) (assembled : bytes) : wsLoop * option bytes :=
  let finish assembled :=
    if (opcode =? wsOpText) && negb (validUTF8 assembled) then (closeWithStatus st wsStatusInvalidPayload, None) else (st, Some assembled) in
  if compressed then
    let '(inflated, status) := wsInflate (inflater E) maxMessageSize assembled in
    if status =? wsStatusMessageTooBig then (closeWithStatus st status, None)
    else if status =? wsStatusInvalidPayload then (closeWithStatus st status, None)
    else finish inflated
  else finish assembled.

Definition controlFrame (st : wsLoop) (opcode : Z) (payload : bytes) : wsLoop :=
  if opcode =? wsOpClose then handleCloseFrame st payload
  else if opcode =? wsOpPing then handlePing st payload
  else st.

Definition finishMessage (st : wsLoop) (assembled : bytes) : wsLoop :=
  match wl_message st with
  | None => st
  | Some (op, compressed) =>
      let '(st, msg) := completeMessage (with_message st None) op compressed assembled in
      let st := match msg with Some m => deliver st op m | None => st end in
      with_msg st []
  end.

(** The state, whether the frame is complete, and what is left of the data. *)
Definition continueFrame (st : wsLoop) (f : wsFrame) (data : bytes) : wsLoop * bool * bytes :=
  let take := Z.min (zlen data) (fr_remaining f) in
  let chunk := wsMaskAt (ztake take data) (fr_mask f) (fr_maskOff f) in
  let control := wsOpClose <=? fr_op f in
  let ctrl := if control then fr_ctrl f ++ ztake (wsMaxControlPayload - zlen (fr_ctrl f)) chunk else fr_ctrl f in
  let st := if control then st else with_msg st (wl_msg st ++ chunk) in
  let remaining := fr_remaining f - take in
  if 0 <? remaining then
    (with_frame st (Some (mkFrame (fr_fin f) (fr_op f) remaining (fr_mask f) (fr_maskOff f + take) ctrl)), false, zdrop take data)
  else
    let st := with_frame st None in
    (if control then controlFrame st (fr_op f) ctrl else if fr_fin f then finishMessage st (wl_msg st) else st, true, zdrop take data).

Definition awaitsWholeFrame (st : wsLoop) (b0 hdrLen payloadLen : Z) : bool :=
  if connTLS E || (match wl_message st with Some _ => true | None => false end) || (Z.land b0 0x80 =? 0) || negb (Z.land b0 wsRSV1 =? 0) ||
     (wsOpClose <=? Z.land b0 0x0F) then false
  else hdrLen + payloadLen <=? wholeFrameLimit E.

(** [None] when more bytes are needed before anything changes. *)
Definition startFrame (st : wsLoop) (data : bytes) : option (wsLoop * bool * bytes) :=
  if zlen data <? 2 then None
  else
    let b0 := znth data 0 in
    let b1 := znth data 1 in
    let len7 := Z.land b1 0x7F in
    let extEnd := if len7 =? 126 then 4 else if len7 =? 127 then 10 else 2 in
    let '(st1, ok) := vetFrameHead st b0 b1 in
    if negb ok then Some (st1, true, data)
    else if zlen data <? extEnd then None
    else
      let payloadLen := if extEnd =? 4 then be_val (zslice data 2 4) else if extEnd =? 10 then i64 (be_val (zslice data 2 10)) else len7 in
      let opcode := Z.land b0 0x0F in
      let control := wsOpClose <=? opcode in
      let '(st2, ok) := vetPayloadLength st payloadLen (if control then 0 else zlen (wl_msg st)) in
      if negb ok then Some (st2, true, data)
      else
        let hdrLen := extEnd + 4 in
        if zlen data <? hdrLen then None
        else if (zlen data - hdrLen <? payloadLen) && awaitsWholeFrame st b0 hdrLen payloadLen then None
        else
          let mask := zslice data extEnd hdrLen in
          let rest := zdrop hdrLen data in
          let fin := negb (Z.land b0 0x80 =? 0) in
          let st := if negb control && (match wl_message st with Some _ => false | None => true end)
                    then with_message st (Some (opcode, negb (Z.land b0 wsRSV1 =? 0))) else st in
          if payloadLen <=? zlen rest then
            let payload := maskXOR (ztake payloadLen rest) mask in
            let rest := zdrop payloadLen rest in
            if control then Some (controlFrame st opcode payload, true, rest)
            else if fin && (zlen (wl_msg st) =? 0) && negb (match wl_message st with Some (_, c) => c | None => false end)
                 then Some (finishMessage st payload, true, rest)
            else
              let st := with_msg st (wl_msg st ++ payload) in
              Some (if fin then finishMessage st (wl_msg st) else st, true, rest)
          else
            let '(st, _, rest) := continueFrame st (mkFrame fin opcode payloadLen mask 0 []) rest in
            Some (st, false, rest).

(** [takeOutbox]: the outbox goes to the connection, and a queued close is
    seen. *)
Definition takeOutbox (st : wsLoop) : wsLoop :=
  mkLoop (wl_conn st) (wl_frame st) (wl_message st) (wl_msg st) [] (wl_closeQueued st)
         (if wl_closeQueued st then true else wl_closing st) (wl_out st ++ wl_outbox st) (wl_delivered st).

(** The loop of [wsServe] over the unread bytes, without the pause while the
    peer does not read and the deadlines. *)
Fixpoint serveLoop (fuel : nat) (st : wsLoop) (data : bytes) : wsLoop * bytes :=
  match fuel with
  | O => (st, data)
  | S fuel =>
      if wl_closing st then (st, data)
      else if zlen data =? 0 then (st, data)
      else
        match (match wl_frame st with Some f => Some (continueFrame st f data) | None => startFrame st data end) with
        | None => (st, data)
        | Some (st, done, data) =>
            if done then if zlen data =? 0 then (st, data) else serveLoop fuel (takeOutbox st) data
            else serveLoop fuel st data
        end
  end.

Definition wsServe (st : wsLoop) (data : bytes) : wsLoop * bytes :=
  let '(st, rest) := serveLoop (S (S (length data))) st data in (takeOutbox st, rest).
End ws.
