(* ===== verification/WebSocketProofs.v ===== *)
(** WebSocket connections: unmasking is the byte-wise definition, the frames
    read do not depend on how the bytes arrive, and on arbitrary input the
    limits hold (src/core/websocket.go, epoll_ws_linux_amd64.go). *)
From stdpp Require Import base list numbers list_numbers strings.
From Stdlib Require Import ZArith Lia ZifyBool.
From S2P Require Import Prelude Utils H1Scan WsInflate WebSocket.

Open Scope list_scope.
Open Scope Z_scope.

(** ** Unmasking *)

Definition key_ok (key : bytes) : Prop := bytes_ok key /\ zlen key = 4.

Lemma maskTail_app a b key i : maskTail (a ++ b) key i = maskTail a key i ++ maskTail b key (i + zlen a).
Proof.
  revert i. induction a as [| x a IH]; intros i; cbn; [by rewrite Z.add_0_r |]. rewrite IH, zlen_cons. do 3 f_equal. lia.
Qed.

Lemma zlen_maskTail p key i : zlen (maskTail p key i) = zlen p.
Proof. revert i. induction p as [| x p IH]; intros i; cbn; [done |]. by rewrite !zlen_cons, IH. Qed.

Lemma maskTail_mod p key i j : i mod 4 = j mod 4 -> 0 <= i -> 0 <= j -> maskTail p key i = maskTail p key j.
Proof.
  revert i j. induction p as [| x p IH]; intros i j E Hi Hj; [done |]. cbn. f_equal.
  - do 2 f_equal. change 3 with (2 ^ 2 - 1). rewrite !land_ones_mod by lia. done.
  - apply IH; [| lia | lia]. rewrite (Zplus_mod i), (Zplus_mod j), E. done.
Qed.

Lemma maskTail_rotate p k1 k2 r i : (forall j, 0 <= j -> znth k1 (j mod 4) = znth k2 ((r + j) mod 4)) -> 0 <= i -> maskTail p k1 i = maskTail p k2 (r + i).
Proof.
  intros H. revert i. induction p as [| x p IH]; intros i Hi; [done |]. cbn [maskTail]. f_equal.
  - f_equal. change 3 with (2 ^ 2 - 1). rewrite !land_ones_mod by lia. by apply H.
  - rewrite <- Z.add_assoc. apply IH. lia.
Qed.

(** A word xor, read back byte by byte. *)
Lemma le_bytes_lxor a b : bytes_ok a -> bytes_ok b -> length a = length b -> le_bytes (length a) (Z.lxor (le_val a) (le_val b)) = zip_with Z.lxor a b.
Proof.
  intros Ha. revert b. induction Ha as [| x a Hx _ IH]; intros [| y b] Hb Hl; try done. apply Forall_cons_1 in Hb as [Hy Hb]. cbn [length le_bytes le_val zip_with].
  rewrite lxor_cons by done. pose proof (lxor_u8 x y Hx Hy) as Hxy. unfold is_u8 in Hxy. rewrite (Z.mul_comm 256), Z.mod_add, Z.div_add by lia.
  rewrite Z.mod_small, (Z.div_small (Z.lxor x y)), Z.add_0_l by lia. f_equal. apply IH; [done | by simplify_eq/=].
Qed.

Lemma le_val_bound l : bytes_ok l -> 0 <= le_val l < 256 ^ zlen l.
Proof.
  induction 1 as [| b l Hb _ IH]; [by cbv |]. cbn [le_val]. rewrite zlen_cons, Z.pow_add_r, Z.pow_1_r by (try lia; apply zlen_nonneg). unfold is_u8 in Hb. lia.
Qed.

Lemma le_val_app a b : le_val (a ++ b) = le_val a + 256 ^ zlen a * le_val b.
Proof.
  induction a as [| x a IH]; [cbn [app le_val]; change (zlen (@nil Z)) with 0; lia |]. cbn [app le_val]. rewrite IH, zlen_cons, Z.pow_add_r, Z.pow_1_r by (try lia; apply zlen_nonneg). lia.
Qed.

Lemma wsMaskWord_twice key : key_ok key -> wsMaskWord key = le_val (key ++ key).
Proof.
  intros [Hk Hl]. unfold wsMaskWord. rewrite le_val_app, Hl. pose proof (le_val_bound key Hk) as Hb. rewrite Hl in Hb. change (256 ^ 4) with (2 ^ 32) in *.
  rewrite u64_small; [lia |]. lia.
Qed.

Lemma zip_mask a key : key_ok key -> zlen a = 8 -> zip_with Z.lxor a (key ++ key) = maskTail a key 0.
Proof.
  intros [_ Hk] Ha. do 4 (destruct key as [| ? key]; [by cbv in Hk |]). destruct key; [| unfold zlen in Hk; cbn [length] in Hk; lia].
  do 8 (destruct a as [| ? a]; [by cbv in Ha |]). destruct a; [done | unfold zlen in Ha; cbn [length] in Ha; lia].
Qed.

(** Eight bytes at a time, the mask is the byte-wise one. *)
Lemma maskWords_spec fuel p key i : bytes_ok p -> key_ok key -> 0 <= i -> i mod 4 = 0 -> maskWords fuel p key i = maskTail p key i.
Proof.
  revert p i. induction fuel as [| fuel IH]; intros p i Hp Hk Hi Hm; [done |]. cbn [maskWords]. destruct (8 <=? zlen p) eqn:E; [| done].
  assert (Hl : zlen (ztake 8 p) = 8) by (apply zlen_take; lia). assert (Hlk : zlen (key ++ key) = 8) by (rewrite zlen_app; destruct Hk; lia).
  rewrite wsMaskWord_twice by done. pose proof (le_bytes_lxor (ztake 8 p) (key ++ key)) as Hx. replace (length (ztake 8 p)) with 8%nat in Hx by (unfold zlen in Hl; lia).
  rewrite Hx; [| by apply Forall_take | apply Forall_app; split; apply Hk | unfold zlen in Hlk; lia]. rewrite zip_mask by done.
  rewrite IH; [| by apply Forall_drop | done | lia | rewrite Zplus_mod, Hm; done].
  rewrite <- (ztake_zdrop 8 p) at 3. rewrite maskTail_app, Hl. f_equal. apply maskTail_mod; [by rewrite Hm | lia | lia].
Qed.

Lemma maskXORSWAR_spec p key : bytes_ok p -> key_ok key -> maskXORSWAR p key = maskTail p key 0.
Proof. intros Hp Hk. by apply maskWords_spec. Qed.

(** ** The environment *)

(** What the assembly routines are documented to do: the mask routine is the
    portable one on whole blocks, and the ASCII scan returns a length of bytes
    below 128. *)
Class EnvOk (E : wsEnv) : Prop := mkEnvOk {
  env_mask : forall p key, zlen p mod wsMaskSIMDBlock = 0 -> bytes_ok p -> key_ok key -> maskXORAVX2 E p (wsMaskWord key) = maskXORSWAR p key;
  env_inflate :: InflaterOk (inflater E);
  env_ascii : forall p, 0 <= asciiPrefixAVX2 E p <= zlen p /\ Forall (fun b => b < 0x80) (ztake (asciiPrefixAVX2 E p) p) }.

Section env.
  Context (E : wsEnv) `{!EnvOk E}.

Lemma maskXOR_spec p key : bytes_ok p -> key_ok key -> maskXOR E p key = maskTail p key 0.
Proof.
  intros Hp Hk. unfold maskXOR. destruct (hasAVX2 E && _) eqn:Ea; [| by apply maskXORSWAR_spec]. cbv zeta. set (bulk := zlen p - zlen p mod wsMaskSIMDBlock).
  pose proof (Z.mod_pos_bound (zlen p) 32 ltac:(lia)) as Hm. pose proof (zlen_nonneg p). change wsMaskSIMDBlock with 32 in *.
  assert (Hb : 0 <= bulk <= zlen p) by (subst bulk; pose proof (Z.mod_le (zlen p) 32); lia).
  assert (Hb32 : bulk mod 32 = 0) by (subst bulk; rewrite Zminus_mod_idemp_r, Z.sub_diag; done).
  rewrite env_mask; [| rewrite zlen_take by lia; exact Hb32 | by apply Forall_take | done].
  rewrite !maskXORSWAR_spec by (done || by apply Forall_take || by apply Forall_drop).
  rewrite <- (ztake_zdrop bulk p) at 3. rewrite maskTail_app, zlen_take by lia. f_equal. apply maskTail_mod; [| lia | lia].
  change 32 with (4 * 8) in Hb32. assert (Hb4 : bulk mod 4 = 0); [| by rewrite Z.add_0_l, Hb4]. rewrite Z.rem_mul_r in Hb32 by lia. pose proof (Z.mod_pos_bound bulk 4). pose proof (Z.mod_pos_bound (bulk / 4) 8). lia.
Qed.

Lemma wsMaskAt_spec p key off : bytes_ok p -> key_ok key -> 0 <= off -> wsMaskAt E p key off = maskTail p key off.
Proof.
  intros Hp Hk Hoff. unfold wsMaskAt. cbv zeta. change 3 with (2 ^ 2 - 1). rewrite !land_ones_mod by lia. change (2 ^ 2) with 4. pose proof (Z.mod_pos_bound off 4 ltac:(lia)) as Hr.
  destruct (off mod 4 =? 0) eqn:E0.
  - rewrite maskXOR_spec by done. apply maskTail_mod; [| lia | lia]. rewrite Z.mod_0_l by lia. lia.
  - set (r := off mod 4) in *. destruct Hk as [Hkb Hkl]. do 4 (destruct key as [| ? key]; [by cbv in Hkl |]). destruct key; [| unfold zlen in Hkl; cbn [length] in Hkl; lia].
    assert (Hk' : forall i, 0 <= i < 4 -> is_u8 (znth [z; z0; z1; z2] i)).
    { intros i Hi. unfold znth. rewrite nth_lookup. destruct (lookup_lt_is_Some_2 [z; z0; z1; z2] (Z.to_nat i)) as [v Hv]; [cbn; lia |]. rewrite Hv. cbn. by eapply Forall_lookup_1 in Hkb. }
    rewrite maskXOR_spec; [| done | split; [| done]; repeat constructor; apply Hk'; try lia; apply Z.mod_pos_bound; lia].
    rewrite (maskTail_mod p _ off r); [| subst r; by rewrite Z.mod_mod by lia | lia | lia].
    rewrite <- (Z.add_0_r r) at 5. apply maskTail_rotate; [| lia]. intros j Hj.
    rewrite (Zplus_mod r j), (Z.mod_small r) by lia. pose proof (Z.mod_pos_bound j 4 ltac:(lia)).
    assert (Hjm : j mod 4 = 0 \/ j mod 4 = 1 \/ j mod 4 = 2 \/ j mod 4 = 3) by lia. assert (Hcase : r = 1 \/ r = 2 \/ r = 3) by lia.
    destruct Hcase as [-> | [-> | ->]], Hjm as [-> | [-> | [-> | ->]]]; reflexivity.
Qed.

Lemma utf8_ascii a p : Forall (fun b => b < 0x80) a -> utf8Valid (a ++ p) = utf8Valid p.
Proof. induction 1 as [| b a Hb _ IH]; [done |]. cbn [app utf8Valid]. by rewrite (proj2 (Z.ltb_lt b 0x80)). Qed.

(** Skipping an ASCII prefix does not change the verdict. *)
Lemma validUTF8_spec p : validUTF8 E p = utf8Valid p.
Proof.
  unfold validUTF8. destruct (_ && _); [| done]. set (q := ztake _ p). destruct (env_ascii q) as [Hr Ha]. set (r := asciiPrefixAVX2 E q) in *.
  assert (Hq : ztake r p = ztake r q).
  { assert (Hq : zlen q <= Z.max 0 (zlen p - zlen p mod wsMaskSIMDBlock)) by (subst q; unfold zlen at 1, ztake; rewrite length_take; lia).
    subst q. unfold ztake at 2 3. rewrite take_take. unfold ztake. f_equal. lia. }
  rewrite <- (utf8_ascii (ztake r q)) by done. by rewrite <- Hq, ztake_zdrop.
Qed.

(** ** One frame *)

(** What the first bytes of a frame say: more are needed, the frame is refused,
    or the frame with the state it starts in and the length of its header. *)
Inductive head := HNeed | HBad (st : wsLoop) | HOk (st : wsLoop) (f : wsFrame) (hdrLen : Z).

Definition extLen (b1 : Z) : Z := if Z.land b1 0x7F =? 126 then 4 else if Z.land b1 0x7F =? 127 then 10 else 2.
Lemma extLen_bound b : 2 <= extLen b <= 10.
Proof. unfold extLen. do 2 (destruct (_ =? _); [lia |]). lia. Qed.

Definition payloadLen (data : bytes) : Z :=
  let e := extLen (znth data 1) in if e =? 4 then be_val (zslice data 2 4) else if e =? 10 then i64 (be_val (zslice data 2 10)) else Z.land (znth data 1) 0x7F.

Definition parseHead (st : wsLoop) (data : bytes) : head :=
  if zlen data <? 2 then HNeed
  else
    let b0 := znth data 0 in let b1 := znth data 1 in let e := extLen b1 in
    let '(st1, ok) := vetFrameHead E st b0 b1 in
    if negb ok then HBad st1
    else if zlen data <? e then HNeed
    else
      let op := Z.land b0 0x0F in let control := wsOpClose <=? op in let n := payloadLen data in
      let '(st2, ok) := vetPayloadLength E st n (if control then 0 else zlen (wl_msg st)) in
      if negb ok then HBad st2
      else if zlen data <? e + 4 then HNeed
      else if (zlen data - (e + 4) <? n) && awaitsWholeFrame E st b0 (e + 4) n then HNeed
      else HOk (if negb control && (match wl_message st with Some _ => false | None => true end)
                then with_message st (Some (op, negb (Z.land b0 wsRSV1 =? 0))) else st)
               (mkFrame (negb (Z.land b0 0x80 =? 0)) op n (zslice data e (e + 4)) 0 []) (e + 4).

Lemma with_frame_id st : wl_frame st = None -> with_frame st None = st.
Proof. destruct st; cbn. by intros ->. Qed.

Lemma close_msg st m p : closeWithPayload (with_msg st m) p = with_msg (closeWithPayload st p) m.
Proof. unfold closeWithPayload, writeClose, noteCloseCode. destruct st as [[c cc lp pc ck] fr me ms ob cq cl ou de]. cbn. by destruct c, (2 <=? zlen p), (cc =? 0), cq. Qed.

(** The buffered bytes do not matter to the message that ends. *)
Lemma finish_msg st m a : wl_message st <> None -> finishMessage E (with_msg st m) a = finishMessage E st a.
Proof.
  unfold finishMessage. intros Hm. destruct (wl_message st) as [[op c] |] eqn:Em; cbn [with_msg wl_message]; rewrite Em; [| contradiction]. unfold completeMessage, closeWithStatus.
  change (with_message (with_msg st m) None) with (with_msg (with_message st None) m). cbv zeta beta.
  destruct c; [destruct (wsInflate (inflater E) (maxMessageSize E) a) as [infl status]; destruct (status =? wsStatusMessageTooBig); [by rewrite close_msg |];
               destruct (status =? wsStatusInvalidPayload); [by rewrite close_msg |] |].
  - destruct (_ && _); [by rewrite close_msg | done].
  - destruct (_ && _); [by rewrite close_msg | done].
Qed.

Lemma vetHead_ok st b0 b1 st' : vetFrameHead E st b0 b1 = (st', true) -> st' = st /\
  (wsOpClose <= Z.land b0 0x0F -> Z.land b1 0x7F <= wsMaxControlPayload /\ Z.land b0 0x0F <= wsOpPong) /\
  (Z.land b0 0x0F < wsOpClose -> Z.land b0 0x0F <= wsOpBinary /\ ((exists m, wl_message st = Some m) <-> Z.land b0 0x0F = wsOpContinuation)) /\
  (compressionLevel E = 0 -> Z.land b0 wsRSV1 = 0).
Proof.
  unfold vetFrameHead. cbv zeta. destruct (_ && _) eqn:Er; [done |].
  assert (Hr : compressionLevel E = 0 -> Z.land b0 wsRSV1 = 0).
  { intros Hl. rewrite Hl in Er. cbn [Z.eqb] in Er. rewrite orb_true_r in Er. cbn [orb] in Er. rewrite andb_true_r in Er. apply negb_false_iff, Z.eqb_eq in Er.
    change wsRSV1 with (Z.land wsRSVMask wsRSV1). by rewrite Z.land_assoc, Er. }
  clear Er. destruct (Z.land b1 0x80 =? 0); [done |]. destruct (wsOpClose <=? Z.land b0 0x0F) eqn:Ec.
  - destruct (_ || _) eqn:Eo; [done |]. intros [= <-]. split; [done |]. split; [lia |]. split; [lia | done].
  - destruct (wsOpBinary <? Z.land b0 0x0F) eqn:Eb; [done |]. destruct (negb _) eqn:En; [done |]. intros [= <-]. split; [done |]. split; [lia |]. split; [| done]. intros _. split; [lia |].
    apply negb_false_iff, eqb_prop in En. destruct (wl_message st) as [m |]; split; [lia | by exists m | by intros (? & ?) | lia].
Qed.

Lemma vetLen_ok st n a st' : vetPayloadLength E st n a = (st', true) -> st' = st /\ 0 <= n <= maxMessageSize E - a.
Proof. unfold vetPayloadLength. destruct (n <? 0) eqn:E0; [done |]. destruct (_ <? n) eqn:E1; [done |]. intros [= <-]. split; [done | lia]. Qed.

(** A frame whose header was accepted. *)
Record frame_new (st st0 : wsLoop) (f : wsFrame) : Prop := mkFrameNew {
  fn_len : 0 <= fr_remaining f;
  fn_off : fr_maskOff f = 0;
  fn_ctrl : fr_ctrl f = [];
  fn_control : wsOpClose <= fr_op f -> fr_remaining f <= wsMaxControlPayload /\ st0 = st;
  fn_data : fr_op f < wsOpClose -> (exists m, wl_message st0 = Some m) /\ (wl_message st0 = wl_message st \/ wl_message st = None) /\ fr_remaining f <= maxMessageSize E - zlen (wl_msg st);
  fn_op : 0 <= fr_op f <= wsOpPong;
  fn_message : forall op c, wl_message st0 = Some (op, c) -> wl_message st = Some (op, c) \/ ((op = wsOpText \/ op = wsOpBinary) /\ (compressionLevel E = 0 -> c = false));
  fn_same : st0 = with_message st (wl_message st0) }.

Lemma with_message_id st : with_message st (wl_message st) = st.
Proof. by destruct st. Qed.

Lemma parseHead_ok st data st0 f n : parseHead st data = HOk st0 f n -> frame_new st st0 f /\ n <= zlen data /\ 6 <= n /\ fr_mask f = zslice data (n - 4) n.
Proof.
  unfold parseHead. destruct (zlen data <? 2); [done |]. cbv zeta. set (b0 := znth data 0). set (b1 := znth data 1). destruct (vetFrameHead E st b0 b1) as [st1 []] eqn:Ev; [| done].
  cbn [negb]. destruct (zlen data <? extLen b1) eqn:El; [done |]. destruct (vetPayloadLength E st _ _) as [st2 []] eqn:Ep; [| done]. cbn [negb].
  destruct (zlen data <? extLen b1 + 4) eqn:Eh; [done |]. destruct (_ && awaitsWholeFrame _ _ _ _ _) eqn:Ea; [done |]. intros [= <- <- <-].
  apply vetHead_ok in Ev as (_ & Hc & Hd & Hrsv). apply vetLen_ok in Ep as (_ & Hn). set (op := Z.land b0 0x0F) in *.
  pose proof (extLen_bound b1) as He.
  split; [| split_and!; [lia | lia | cbn; f_equal; lia]]. assert (Hop0 : 0 <= op) by (apply Z.land_nonneg; right; lia).
  apply mkFrameNew; cbn [fr_remaining fr_maskOff fr_ctrl fr_op]; [lia | done | done | | | | |].
  - intros Hop. destruct (Hc Hop) as [H1 _]. split; [| by rewrite (proj2 (Z.leb_le _ _) Hop)].
    unfold payloadLen. fold b1. unfold extLen. unfold wsMaxControlPayload in *. rewrite (proj2 (Z.eqb_neq (Z.land b1 0x7F) 126)), (proj2 (Z.eqb_neq (Z.land b1 0x7F) 127)) by lia. cbn. lia.
  - intros Hop. rewrite (proj2 (Z.leb_gt _ _) Hop). cbn [negb andb]. rewrite (proj2 (Z.leb_gt _ _) Hop) in Hn.
    destruct (wl_message st) as [m |] eqn:Em; cbn; rewrite ?Em; (split; [by eexists |]); (split; [auto | lia]).
  - destruct (decide (wsOpClose <= op)) as [Ho | Ho]; [destruct (Hc Ho) as [_ Ho']; lia | destruct (Hd ltac:(lia)) as [Ho' _]; unfold wsOpBinary, wsOpPong in *; lia].
  - intros op' c. destruct (negb (wsOpClose <=? op) && _) eqn:Eb; [| by left]. cbn. intros [= <- <-]. right. apply andb_true_iff in Eb as [Eo Em].
    destruct (Hd ltac:(lia)) as [Ho Hi]. split; [| intros Hl; by rewrite (Hrsv Hl)]. destruct (wl_message st) as [m |] eqn:Emsg; [done |].
    assert (op <> wsOpContinuation) by (intros Eop; apply Hi in Eop as (? & ?); done). unfold wsOpContinuation, wsOpBinary, wsOpText in *. lia.
  - destruct (negb _ && _); [done | by rewrite with_message_id].
Qed.

Lemma zlen_maskXOR p key : bytes_ok p -> key_ok key -> zlen (maskXOR E p key) = zlen p.
Proof. intros Hp Hk. by rewrite maskXOR_spec, zlen_maskTail. Qed.

Lemma complete_continue st fin op n mask rest : bytes_ok rest -> key_ok mask -> wl_frame st = None -> 0 <= n -> (wsOpClose <= op -> n <= wsMaxControlPayload) -> (op < wsOpClose -> wl_message st <> None) ->
  (if n <=? zlen rest then
     if wsOpClose <=? op then Some (controlFrame E st op (maskXOR E (ztake n rest) mask), true, zdrop n rest)
     else if fin && (zlen (wl_msg st) =? 0) && negb (match wl_message st with Some (_, c) => c | None => false end)
          then Some (finishMessage E st (maskXOR E (ztake n rest) mask), true, zdrop n rest)
     else Some (if fin then finishMessage E (with_msg st (wl_msg st ++ maskXOR E (ztake n rest) mask)) (wl_msg (with_msg st (wl_msg st ++ maskXOR E (ztake n rest) mask)))
                else with_msg st (wl_msg st ++ maskXOR E (ztake n rest) mask), true, zdrop n rest)
   else let '(st, _, rest) := continueFrame E st (mkFrame fin op n mask 0 []) rest in Some (st, false, rest))
  = Some (continueFrame E st (mkFrame fin op n mask 0 []) rest).
Proof.
  intros Hok Hk Hf Hn Hc Hd. pose proof (zlen_nonneg rest). unfold continueFrame. cbn [fr_remaining fr_op fr_ctrl fr_mask fr_maskOff fr_fin]. cbv zeta. destruct (n <=? zlen rest) eqn:En.
  - rewrite Z.min_r, Z.sub_diag by lia. change (wsMaskAt E (ztake n rest) mask 0) with (maskXOR E (ztake n rest) mask). cbn [Z.ltb Z.compare app].
    destruct (wsOpClose <=? op) eqn:Eop.
    + rewrite with_frame_id by done. change (zlen (@nil Z)) with 0. rewrite Z.sub_0_r. do 4 f_equal. unfold ztake at 2. rewrite take_ge; [done |].
      pose proof (zlen_maskXOR (ztake n rest) mask ltac:(by apply Forall_take) Hk) as Hl. rewrite zlen_take in Hl by lia. unfold zlen in Hl. lia.
    + assert (Hfr : forall m, with_frame (with_msg st m) None = with_msg st m) by (intros m; by rewrite with_frame_id). rewrite Hfr. destruct fin; cbn [andb]; [| done].
      destruct ((zlen (wl_msg st) =? 0) && _) eqn:E0; [| done]. apply andb_true_iff in E0 as [E0 _].
      assert (Em : wl_msg st = []) by (destruct (wl_msg st) as [| x l]; [done | rewrite zlen_cons in E0; pose proof (zlen_nonneg l); lia]).
      rewrite Em. cbn [app]. rewrite finish_msg by (apply Hd; lia). done.
  - rewrite Z.min_l by lia. replace (0 <? n - zlen rest) with true by lia. done.
Qed.

(** Reading a whole frame at once is reading it piece by piece. *)
Lemma start_head st data : bytes_ok data -> wl_frame st = None -> startFrame E st data =
  match parseHead st data with HNeed => None | HBad st' => Some (st', true, data) | HOk st0 f n => Some (continueFrame E st0 f (zdrop n data)) end.
Proof.
  intros Hok Hf. destruct (parseHead st data) as [| | st0 f n] eqn:Eh; [| | pose proof Eh as Hnew; apply parseHead_ok in Hnew as (Hnew & Hn1 & Hn2 & Hmask)]; revert Eh; unfold parseHead, startFrame; (destruct (zlen data <? 2); [done |]); cbv zeta;
    fold (extLen (znth data 1)); fold (payloadLen data); destruct (vetFrameHead E st _ _) as [st1 []] eqn:Ev; cbn [negb]; try done; try (by intros [= <-]);
    (destruct (zlen data <? extLen (znth data 1)); [done |]); destruct (vetPayloadLength E st _ _) as [st2 []] eqn:Ep; cbn [negb]; try done; try (by intros [= <-]);
    (destruct (zlen data <? extLen (znth data 1) + 4) eqn:El; [done |]); (destruct (_ && awaitsWholeFrame E st _ _ _); [done |]); [done.. |].
  intros [= <- <- <-]. cbn [fr_mask] in Hmask. apply complete_continue; [by apply Forall_drop | | | exact (fn_len _ _ _ Hnew) | intros Hop; by apply (fn_control _ _ _ Hnew) | intros Hop; destruct (fn_data _ _ _ Hnew Hop) as ((m & ->) & _); done].
  - split; [by apply Forall_take, Forall_drop |]. pose proof (extLen_bound (znth data 1)). unfold zslice. rewrite zlen_take; [lia |]. rewrite zlen_drop; lia.
  - by destruct (negb _ && _).
Qed.

(** ** The invariant *)

Definition good (d : Z * bytes) : Prop :=
  (d.1 = wsOpText \/ d.1 = wsOpBinary) /\ (d.1 = wsOpText -> utf8Valid d.2 = true) /\ zlen d.2 <= maxMessageSize E.

(** The frame being read fits where it is collected. *)
Record frame_ok (st : wsLoop) (f : wsFrame) : Prop := mkFrameOk {
  fo_remaining : 0 < fr_remaining f;
  fo_mask : key_ok (fr_mask f);
  fo_off : 0 <= fr_maskOff f;
  fo_control : wsOpClose <= fr_op f -> zlen (fr_ctrl f) + fr_remaining f <= wsMaxControlPayload;
  fo_data : fr_op f < wsOpClose -> (exists m, wl_message st = Some m) /\ zlen (wl_msg st) + fr_remaining f <= maxMessageSize E }.

Record core (st : wsLoop) : Prop := mkCore {
  co_closed : wl_closeQueued st = wc_closed (wl_conn st);
  co_closing : wl_closing st = true -> wl_closeQueued st = true;
  co_msg : wl_message st = None -> wl_msg st = [];
  co_size : zlen (wl_msg st) <= maxMessageSize E;
  co_message : forall op c, wl_message st = Some (op, c) -> (op = wsOpText \/ op = wsOpBinary) /\ (compressionLevel E = 0 -> c = false);
  co_frame : forall f, wl_frame st = Some f -> frame_ok st f;
  co_good : Forall good (wl_delivered st) }.

(** Between two frames everything written is with the connection. *)
Record steady (st : wsLoop) : Prop := mkSteady {
  sd_core : core st;
  sd_outbox : wl_outbox st = [];
  sd_closing : wl_closing st = wl_closeQueued st }.

Lemma maxMessageSize_pos : 0 < maxMessageSize E.
Proof. unfold maxMessageSize, wsDefaultMaxMessageSize. destruct (_ <=? 0) eqn:E0; lia. Qed.

Lemma take_steady st : core st -> steady (takeOutbox st).
Proof.
  intros [H1 H2 H3 H4 H5 H6 H7]. apply mkSteady; [apply mkCore; cbn; try done | done | cbn; destruct (wl_closeQueued st); [done |]; destruct (wl_closing st); [by specialize (H2 eq_refl) | done]].
  - by destruct (wl_closeQueued st).
  - intros f Hf. destruct (H6 f Hf) as [F1 F2 F3 F4 F5]. by apply mkFrameOk.
Qed.

Lemma take_id st : steady st -> takeOutbox st = st.
Proof. intros [_ H1 H2]. destruct st as [? ? ? ? ob cq cl ? ?]; cbn in *. subst ob cl. unfold takeOutbox. cbn. rewrite app_nil_r. by destruct cq. Qed.

(** Operations that only write, close or count. *)
Record quiet (st st' : wsLoop) : Prop := mkQuiet {
  qu_frame : wl_frame st' = wl_frame st;
  qu_message : wl_message st' = wl_message st;
  qu_msg : wl_msg st' = wl_msg st;
  qu_closing : wl_closing st' = wl_closing st;
  qu_delivered : wl_delivered st' = wl_delivered st;
  qu_closed : wl_closeQueued st = wc_closed (wl_conn st) -> wl_closeQueued st' = wc_closed (wl_conn st');
  qu_mono : wl_closeQueued st = true -> wl_closeQueued st' = true }.

Lemma quiet_refl st : quiet st st.
Proof. by apply mkQuiet. Qed.
Lemma quiet_trans a b c : quiet a b -> quiet b c -> quiet a c.
Proof. intros [] []. apply mkQuiet; try congruence; auto. Qed.

Lemma quiet_core st st' : quiet st st' -> core st -> core st'.
Proof.
  intros [Q1 Q2 Q3 Q4 Q5 Q6 Q7] [H1 H2 H3 H4 H5 H6 H7]. apply mkCore; rewrite ?Q1, ?Q2, ?Q3, ?Q4, ?Q5; auto.
  intros f Hf. destruct (H6 f Hf) as [F1 F2 F3 F4 F5]. apply mkFrameOk; rewrite ?Q2, ?Q3; auto.
Qed.

Lemma noteCloseCode_quiet st code : quiet st (noteCloseCode st code).
Proof. unfold noteCloseCode. destruct (_ =? 0); [by apply mkQuiet | apply quiet_refl]. Qed.

Lemma closeWithPayload_quiet st p : quiet st (closeWithPayload st p) /\ (wl_closeQueued st = wc_closed (wl_conn st) -> wl_closeQueued (closeWithPayload st p) = true).
Proof.
  unfold closeWithPayload, writeClose, noteCloseCode. destruct st as [[c cc lp pc ck] fr me ms ob cq cl ou de]. cbn.
  destruct c; [split; [apply quiet_refl | done] |]. destruct (2 <=? zlen p), (cc =? 0), cq; (split; [apply mkQuiet |]); done.
Qed.

Lemma closeWithStatus_quiet st code : quiet st (closeWithStatus st code).
Proof. apply closeWithPayload_quiet. Qed.
Lemma Close_quiet st : quiet st (Close st).
Proof. eapply quiet_trans; [apply noteCloseCode_quiet | apply closeWithPayload_quiet]. Qed.
Lemma failBare_quiet st : quiet st (failBare st).
Proof. eapply quiet_trans; [apply noteCloseCode_quiet | apply Close_quiet]. Qed.
Lemma failBare_closes st : wl_closeQueued st = wc_closed (wl_conn st) -> wl_closeQueued (failBare st) = true.
Proof. intros H. unfold failBare, Close. apply closeWithPayload_quiet. by apply noteCloseCode_quiet, noteCloseCode_quiet. Qed.

Lemma writeControl_quiet st op data : quiet st (writeControl E st op data).
Proof.
  unfold writeControl. destruct (wl_closeQueued st) eqn:Eq; [apply quiet_refl |]. cbv zeta. destruct (_ && _); [apply closeWithStatus_quiet |].
  destruct st; cbn in *. subst. by apply mkQuiet.
Qed.

Lemma handlePing_quiet st p : quiet st (handlePing E st p).
Proof.
  unfold handlePing. cbv zeta. assert (Hc : forall n, quiet st (with_conn st (mkConn (wc_closed (wl_conn st)) (wc_closeCode (wl_conn st)) (UnixNano E (wc_clock (wl_conn st))) n (S (wc_clock (wl_conn st)))))) by (intros n; by apply mkQuiet).
  repeat split_if; (eapply quiet_trans; [apply Hc |]); apply closeWithStatus_quiet || apply writeControl_quiet.
Qed.

Lemma controlFrame_quiet st op p : quiet st (controlFrame E st op p).
Proof.
  unfold controlFrame, handleCloseFrame. repeat split_if; first [apply closeWithStatus_quiet | apply Close_quiet | apply handlePing_quiet | apply closeWithPayload_quiet | apply quiet_refl].
Qed.

(** A message that ends: delivered when it is acceptable, and nothing is kept. *)
Lemma finish_core st a op c : wl_message st = Some (op, c) -> wl_frame st = None -> wl_closeQueued st = wc_closed (wl_conn st) -> (wl_closing st = true -> wl_closeQueued st = true) ->
  (op = wsOpText \/ op = wsOpBinary) -> (compressionLevel E = 0 -> c = false) -> Forall good (wl_delivered st) -> zlen a <= maxMessageSize E ->
  core (finishMessage E st a) /\ wl_frame (finishMessage E st a) = None /\ wl_closing (finishMessage E st a) = wl_closing st.
Proof.
  intros Em Ef Hcl Hcg Hop Hc Hg Ha. unfold finishMessage. rewrite Em. destruct (completeMessage E (with_message st None) op c a) as [st1 msg] eqn:Ec.
  assert (Hq : quiet (with_message st None) st1 /\ forall m, msg = Some m -> (op = wsOpText -> utf8Valid m = true) /\ zlen m <= maxMessageSize E).
  { pose proof (wsInflate_bound (inflater E) (maxMessageSize E) a ltac:(pose proof maxMessageSize_pos; lia)) as Hinf. revert Ec. unfold completeMessage. cbv zeta beta. repeat split_if; try (intros [= <- <-]; split; [apply closeWithStatus_quiet | done]).
    all: try (destruct (wsInflate (inflater E) (maxMessageSize E) a) as [infl status]; repeat split_if; try (intros [= <- <-]; split; [apply closeWithStatus_quiet | done])).
    all: intros [= <- <-]; split; [apply quiet_refl |]; intros m [= <-]; split; try done; intros ->; rewrite validUTF8_spec in *; by destruct (utf8Valid _). }
  destruct Hq as [[Q1 Q2 Q3 Q4 Q5 Q6 Q7] Hm]. cbn in Q1, Q2, Q3, Q4, Q5, Q6, Q7. pose proof maxMessageSize_pos.
  assert (Hgood : forall m, msg = Some m -> good (op, m)).
  { intros m E0. by destruct (Hm m E0) as [Hu Hs]. }
  split; [| destruct msg; cbn; by rewrite ?Q1, ?Q4].
  destruct msg as [m |]; apply mkCore; cbn [with_msg deliver wl_closeQueued wl_conn wl_closing wl_message wl_msg wl_frame wl_delivered]; rewrite ?Q1, ?Q2, ?Q4, ?Q5; auto; try done.
  all: try (by change (zlen (@nil Z)) with 0; lia). all: try congruence. apply Forall_app. split; [done |]. constructor; [by apply Hgood | done].
Qed.

(** A frame that may be read in [st]: an accepted one, or the one in progress. *)
Definition frame_pre (st : wsLoop) (f : wsFrame) : Prop :=
  0 <= fr_remaining f /\ key_ok (fr_mask f) /\ 0 <= fr_maskOff f /\
  (wsOpClose <= fr_op f -> zlen (fr_ctrl f) + fr_remaining f <= wsMaxControlPayload) /\
  (fr_op f < wsOpClose -> (exists m, wl_message st = Some m) /\ zlen (wl_msg st) + fr_remaining f <= maxMessageSize E).

Lemma frame_ok_pre st f : frame_ok st f -> frame_pre st f.
Proof. intros [H1 H2 H3 H4 H5]. unfold frame_pre. split_and!; [lia | done | done | done | done]. Qed.

(** The frame after [n] bytes of it were read as [chunk]. *)
Definition advanceFrame (f : wsFrame) (chunk : bytes) : wsFrame :=
  mkFrame (fr_fin f) (fr_op f) (fr_remaining f - zlen chunk) (fr_mask f) (fr_maskOff f + zlen chunk)
          (if wsOpClose <=? fr_op f then fr_ctrl f ++ chunk else fr_ctrl f).
Definition advanceState (st : wsLoop) (f : wsFrame) (chunk : bytes) : wsLoop :=
  if wsOpClose <=? fr_op f then st else with_msg st (wl_msg st ++ chunk).

Definition endFrame (st : wsLoop) (f : wsFrame) : wsLoop :=
  let st := with_frame st None in
  if wsOpClose <=? fr_op f then controlFrame E st (fr_op f) (fr_ctrl f) else if fr_fin f then finishMessage E st (wl_msg st) else st.

(** Reading part of a frame, and its end. *)
Lemma continue_part st f data : bytes_ok data -> frame_pre st f -> zlen data < fr_remaining f ->
  let chunk := maskTail data (fr_mask f) (fr_maskOff f) in
  continueFrame E st f data = (with_frame (advanceState st f chunk) (Some (advanceFrame f chunk)), false, []).
Proof.
  intros Hok (H1 & H2 & H3 & H4 & H5) Hl. cbv zeta. unfold continueFrame, advanceState, advanceFrame. cbv zeta. rewrite Z.min_l by lia.
  rewrite wsMaskAt_spec by (done || by apply Forall_take). rewrite zlen_maskTail.
  assert (Ht : ztake (zlen data) data = data) by (unfold ztake; apply take_ge; unfold zlen; lia). rewrite Ht. replace (0 <? fr_remaining f - zlen data) with true by lia.
  rewrite zdrop_all by lia. destruct (wsOpClose <=? fr_op f) eqn:Eo; [| done]. do 5 f_equal. unfold ztake. f_equal. apply take_ge.
  specialize (H4 ltac:(lia)). pose proof (zlen_maskTail data (fr_mask f) (fr_maskOff f)) as El. unfold zlen in *. lia.
Qed.

Lemma continue_end st f data : bytes_ok data -> frame_pre st f -> fr_remaining f <= zlen data ->
  let chunk := maskTail (ztake (fr_remaining f) data) (fr_mask f) (fr_maskOff f) in
  continueFrame E st f data = (endFrame (advanceState st f chunk) (advanceFrame f chunk), true, zdrop (fr_remaining f) data).
Proof.
  intros Hok (H1 & H2 & H3 & H4 & H5) Hl. cbv zeta. unfold continueFrame, advanceState, advanceFrame, endFrame. cbv zeta. rewrite Z.min_r, Z.sub_diag by lia.
  rewrite wsMaskAt_spec by (done || by apply Forall_take). cbn [Z.ltb Z.compare fr_op fr_ctrl fr_fin].
  destruct (wsOpClose <=? fr_op f) eqn:Eo; [| done]. do 4 f_equal. unfold ztake at 1. f_equal. apply take_ge.
  specialize (H4 ltac:(lia)). pose proof (zlen_maskTail (ztake (fr_remaining f) data) (fr_mask f) (fr_maskOff f)) as El. rewrite zlen_take in El by lia. unfold zlen in *. lia.
Qed.

Lemma advance_pre st f chunk : frame_pre st f -> zlen chunk <= fr_remaining f -> frame_pre (advanceState st f chunk) (advanceFrame f chunk).
Proof.
  intros (H1 & H2 & H3 & H4 & H5) Hl. pose proof (zlen_nonneg chunk). unfold frame_pre, advanceFrame, advanceState. cbn. destruct (wsOpClose <=? fr_op f) eqn:Eo.
  - split_and!; [lia | done | lia | | lia]. rewrite zlen_app. lia.
  - split_and!; [lia | done | lia | lia |]. intros Ho. destruct (H5 Ho) as [Hm Hs]. cbn. split; [done |]. rewrite zlen_app. lia.
Qed.

Lemma advance_core st f chunk : core st -> frame_pre st f -> zlen chunk <= fr_remaining f -> core (with_frame (advanceState st f chunk) None).
Proof.
  intros [C1 C2 C3 C4 C5 C6 C7] (H1 & H2 & H3 & H4 & H5) Hl. unfold advanceState. destruct (wsOpClose <=? fr_op f) eqn:Eo; [by apply mkCore |].
  destruct (H5 ltac:(lia)) as [(m & Em) Hs]. apply mkCore; cbn; try done; [congruence | rewrite zlen_app; lia].
Qed.

(** The invariant over one piece of a frame. *)
Lemma continue_core st f data : bytes_ok data -> core st -> frame_pre st f ->
  let '(st', fin, rest) := continueFrame E st f data in
  core st' /\ wl_closing st' = wl_closing st /\
  if fin then wl_frame st' = None /\ rest = zdrop (fr_remaining f) data /\ fr_remaining f <= zlen data
  else rest = [] /\ zlen data < fr_remaining f /\ wl_outbox st' = wl_outbox st /\ wl_closeQueued st' = wl_closeQueued st.
Proof.
  intros Hok Hc Hp. destruct (decide (zlen data < fr_remaining f)) as [Hl | Hl].
  - rewrite continue_part by done. set (chunk := maskTail _ _ _). assert (Hlen : zlen chunk = zlen data) by apply zlen_maskTail.
    pose proof (advance_pre st f chunk Hp ltac:(lia)) as Hp'. destruct (advance_core st f chunk Hc Hp ltac:(lia)) as [C1 C2 C3 C4 C5 C6 C7].
    assert (Hsame : wl_closing (advanceState st f chunk) = wl_closing st /\ wl_outbox (advanceState st f chunk) = wl_outbox st /\ wl_closeQueued (advanceState st f chunk) = wl_closeQueued st) by (unfold advanceState; by destruct (_ <=? _)).
    destruct Hsame as (S1 & S2 & S3). split_and!; [| done | done | done | done | done]. apply mkCore; cbn in *; try done.
    intros f' [= <-]. destruct Hp' as (P1 & P2 & P3 & P4 & P5). apply mkFrameOk; cbn in *; try done. lia.
  - rewrite continue_end by (done || lia). set (chunk := maskTail _ _ _). assert (Hlen : zlen chunk = fr_remaining f) by (unfold chunk; rewrite zlen_maskTail, zlen_take; [done | destruct Hp; lia]).
    pose proof (advance_pre st f chunk Hp ltac:(lia)) as (_ & _ & _ & _ & P5). pose proof (advance_core st f chunk Hc Hp ltac:(lia)) as Hcore.
    assert (Hsame : wl_closing (advanceState st f chunk) = wl_closing st) by (unfold advanceState; by destruct (_ <=? _)).
    unfold endFrame. cbn [advanceFrame fr_op fr_fin fr_ctrl] in *. destruct (wsOpClose <=? fr_op f) eqn:Eo; [| destruct (fr_fin f)].
    + pose proof (controlFrame_quiet (with_frame (advanceState st f chunk) None) (fr_op f) (fr_ctrl f ++ chunk)) as Hq. split_and!; [by eapply quiet_core | | | done | lia].
      * rewrite (qu_closing _ _ Hq). exact Hsame.
      * by rewrite (qu_frame _ _ Hq).
    + destruct (P5 ltac:(lia)) as [((op & c) & Em) Hs]. destruct Hcore as [C1 C2 C3 C4 C5 C6 C7]. cbn in C1, C2, C4, C5, C7. destruct (C5 op c Em) as [Hop Hcc].
      destruct (finish_core (with_frame (advanceState st f chunk) None) (wl_msg (with_frame (advanceState st f chunk) None)) op c) as (F1 & F2 & F3); [done.. |].
      split_and!; [done | by rewrite F3 | done | done | lia].
    + split_and!; [done | done | done | done | lia].
Qed.

(** ** The loop *)

Definition step (st : wsLoop) (data : bytes) : option (wsLoop * bool * bytes) :=
  match wl_frame st with Some f => Some (continueFrame E st f data) | None => startFrame E st data end.

Lemma new_pre st st0 f data n : bytes_ok data -> core st -> wl_frame st = None -> parseHead st data = HOk st0 f n -> core st0 /\ frame_pre st0 f /\ wl_closing st0 = wl_closing st /\ wl_outbox st0 = wl_outbox st /\ wl_closeQueued st0 = wl_closeQueued st.
Proof.
  intros Hok [C1 C2 C3 C4 C5 C6 C7] Hf Hp. apply parseHead_ok in Hp as (Hn & Hn1 & Hn2 & Hm). pose proof Hn as [F1 F2 F3 F4 F5 F6 F7 F8]. rewrite F8. cbn.
  assert (Hk : key_ok (fr_mask f)).
  { rewrite Hm. split; [by apply Forall_take, Forall_drop |]. unfold zslice. rewrite zlen_take; [lia |]. rewrite zlen_drop; lia. }
  split_and!; try done.
  - apply mkCore; cbn; try done; [| intros op c Em; destruct (F7 op c Em) as [Em' | Hx]; [by apply C5 | exact Hx] | congruence].
    intros Em. apply C3. destruct (decide (wsOpClose <= fr_op f)) as [Ho | Ho]; [destruct (F4 Ho) as [_ E0]; by rewrite <- E0 | destruct (F5 ltac:(lia)) as ((m & E0) & _); congruence].
  - unfold frame_pre. cbn. rewrite F2, F3. change (zlen (@nil Z)) with 0. split_and!; [done | done | lia | intros Ho; destruct (F4 Ho); lia |]. intros Ho. destruct (F5 Ho) as (Hx & _ & Hs). split; [done | lia].
Qed.

Lemma vetHead_bad st b0 b1 st' : wl_closeQueued st = wc_closed (wl_conn st) -> vetFrameHead E st b0 b1 = (st', false) -> quiet st st' /\ wl_closeQueued st' = true.
Proof.
  intros Hc. unfold vetFrameHead. cbv zeta. repeat split_if; intros [= <-]; (split; [apply failBare_quiet || apply closeWithStatus_quiet | apply failBare_closes || apply closeWithPayload_quiet]; done).
Qed.

Lemma vetLen_bad st n a st' : wl_closeQueued st = wc_closed (wl_conn st) -> vetPayloadLength E st n a = (st', false) -> quiet st st' /\ wl_closeQueued st' = true.
Proof.
  intros Hc. unfold vetPayloadLength. repeat split_if; intros [= <-]; (split; [apply failBare_quiet || apply closeWithStatus_quiet | apply failBare_closes || apply closeWithPayload_quiet]; done).
Qed.

Lemma parseHead_bad st data st' : wl_closeQueued st = wc_closed (wl_conn st) -> parseHead st data = HBad st' -> quiet st st' /\ wl_closeQueued st' = true.
Proof.
  intros Hc. unfold parseHead. destruct (zlen data <? 2); [done |]. cbv zeta. destruct (vetFrameHead E st _ _) as [st1 []] eqn:Ev; cbn [negb]; [| intros [= <-]; by eapply vetHead_bad].
  destruct (zlen data <? _); [done |]. destruct (vetPayloadLength E st _ _) as [st2 []] eqn:Ep; cbn [negb]; [| intros [= <-]; by eapply vetLen_bad].
  repeat split_if; done.
Qed.

(** What a turn of the loop keeps, and that it gets somewhere. *)
Lemma step_core st data st' fin rest : bytes_ok data -> steady st -> wl_closing st = false -> data <> [] -> step st data = Some (st', fin, rest) ->
  core st' /\ wl_closing st' = false /\ bytes_ok rest /\ (length rest <= length data)%nat /\ ((length rest < length data)%nat \/ wl_closeQueued st' = true) /\
  (fin = false -> rest = [] /\ steady st').
Proof.
  intros Hok Hs Hcl Hne Hstep. pose proof Hs as [Hc Ho Hcc]. pose proof Hc as [C1 C2 C3 C4 C5 C6 C7]. unfold step in Hstep.
  assert (Hcont : forall st0 f d, core st0 -> frame_pre st0 f -> wl_closing st0 = false -> wl_outbox st0 = [] -> wl_closeQueued st0 = false -> bytes_ok d ->
    (length d <= length data)%nat -> ((length d < length data)%nat \/ 0 < fr_remaining f) -> continueFrame E st0 f d = (st', fin, rest) ->
    core st' /\ wl_closing st' = false /\ bytes_ok rest /\ (length rest <= length data)%nat /\ ((length rest < length data)%nat \/ wl_closeQueued st' = true) /\ (fin = false -> rest = [] /\ steady st')).
  { intros st0 f d Hc0 Hp0 Hcl0 Ho0 Hq0 Hd Hld Hpr Ec. pose proof (continue_core st0 f d Hd Hc0 Hp0) as H. rewrite Ec in H. destruct H as (K1 & K2 & K3).
    assert (Hnz : (0 < length data)%nat) by (destruct data; [done | cbn; lia]). destruct Hp0 as (P1 & _). destruct fin.
    - destruct K3 as (K3 & -> & K4). split_and!; [done | congruence | by apply Forall_drop | unfold zdrop; rewrite length_drop; lia | | done]. left. unfold zdrop, zlen in *. rewrite length_drop. lia.
    - destruct K3 as (-> & K4 & K5 & K6). split_and!; [done | congruence | by apply Forall_nil | cbn; lia | left; cbn; lia |]. intros _. split; [done |]. apply mkSteady; [done | congruence | congruence]. }
  destruct (wl_frame st) as [f |] eqn:Ef.
  - injection Hstep as Hstep. apply (Hcont st f data); [done | by apply frame_ok_pre, C6 | done | done | congruence | done | done | right; apply (C6 f eq_refl) | done].
  - rewrite start_head in Hstep by done. destruct (parseHead st data) as [| st1 | st0 f n] eqn:Eh; [done | |].
    + injection Hstep as <- <- <-. destruct (parseHead_bad st data st1 C1 Eh) as [Hq Hcq]. split_and!; [by eapply quiet_core | by rewrite (qu_closing _ _ Hq) | done | done | by right | done].
    + injection Hstep as Hstep. destruct (new_pre st st0 f data n Hok Hc Ef Eh) as (N1 & N2 & N3 & N4 & N5). apply parseHead_ok in Eh as (_ & Hn1 & Hn2 & _).
      assert (Hlen : (length (zdrop n data) < length data)%nat) by (unfold zdrop; rewrite length_drop; unfold zlen in *; lia).
      apply (Hcont st0 f (zdrop n data)); [done | done | congruence | congruence | congruence | by apply Forall_drop | lia | by left | done].
Qed.

(** The loop, with what is written handed over after every turn. *)
Fixpoint iter (fuel : nat) (st : wsLoop) (data : bytes) : wsLoop * bytes :=
  match fuel with
  | O => (st, data)
  | S fuel =>
      if wl_closing st then (st, data)
      else if zlen data =? 0 then (st, data)
      else match step st data with None => (st, data) | Some (st', _, rest) => iter fuel (takeOutbox st') rest end
  end.

Lemma iter_S fuel st data : iter (S fuel) st data =
  if wl_closing st then (st, data) else if zlen data =? 0 then (st, data)
  else match step st data with None => (st, data) | Some (st', _, rest) => iter fuel (takeOutbox st') rest end.
Proof. done. Qed.

Lemma nonempty (data : bytes) : (zlen data =? 0) = false -> data <> [].
Proof. by intros H ->. Qed.

Lemma serve_iter fuel st data : steady st -> bytes_ok data -> (let '(st', rest) := serveLoop E fuel st data in (takeOutbox st', rest)) = iter fuel st data.
Proof.
  revert st data. induction fuel as [| fuel IH]; intros st data Hs Hok; cbn [serveLoop iter]; [by rewrite take_id |].
  destruct (wl_closing st) eqn:Ec; [by rewrite take_id |]. destruct (zlen data =? 0) eqn:E0; [by rewrite take_id |]. fold (step st data).
  destruct (step st data) as [[[st' fin] rest] |] eqn:Es; [| by rewrite take_id].
  destruct (step_core st data st' fin rest Hok Hs Ec (nonempty _ E0) Es) as (K1 & K2 & K3 & K4 & K5 & K6). destruct fin.
  - destruct (zlen rest =? 0) eqn:Er; [| apply IH; [by apply take_steady | done]]. destruct fuel; [done |]. cbn [iter]. rewrite Er. by destruct (wl_closing (takeOutbox st')).
  - destruct (K6 eq_refl) as [-> Hs']. rewrite take_id by done. by apply IH.
Qed.

(** Enough turns: one per byte, and one to see the close. *)
Lemma iter_enough n m st data : steady st -> bytes_ok data -> (wl_closing st = true \/ (length data + 2 <= n)%nat) -> (wl_closing st = true \/ (length data + 2 <= m)%nat) ->
  iter n st data = iter m st data.
Proof.
  revert m st data. induction n as [| n IH]; intros m st data Hs Hok Hn Hm.
  - destruct m; [done |]. cbn [iter]. destruct (wl_closing st); [done | lia].
  - destruct m as [| m]; [cbn [iter]; destruct (wl_closing st); [done | lia] |]. cbn [iter]. destruct (wl_closing st) eqn:Ec; [done |]. destruct (zlen data =? 0) eqn:E0; [done |].
    destruct (step st data) as [[[st' fin] rest] |] eqn:Es; [| done]. destruct (step_core st data st' fin rest Hok Hs Ec (nonempty _ E0) Es) as (K1 & K2 & K3 & K4 & K5 & K6).
    assert (Hcl : wl_closeQueued st' = true -> wl_closing (takeOutbox st') = true) by (intros Hq; cbn; by rewrite Hq).
    apply IH; [by apply take_steady | done | destruct K5; [right; lia | left; auto] | destruct K5; [right; lia | left; auto]].
Qed.

Definition run (st : wsLoop) (data : bytes) : wsLoop * bytes := iter (length data + 2) st data.

Lemma wsServe_run st data : steady st -> bytes_ok data -> wsServe E st data = run st data.
Proof.
  intros Hs Hok. unfold wsServe, run. replace (length data + 2)%nat with (S (S (length data))) by lia. by apply serve_iter.
Qed.

Lemma run_step st data : steady st -> bytes_ok data -> run st data =
  if wl_closing st then (st, data) else if zlen data =? 0 then (st, data)
  else match step st data with None => (st, data) | Some (st', _, rest) => run (takeOutbox st') rest end.
Proof.
  intros Hs Hok. unfold run at 1. replace (length data + 2)%nat with (S (S (length data))) by lia. rewrite iter_S. destruct (wl_closing st) eqn:Ec; [done |]. destruct (zlen data =? 0) eqn:E0; [done |].
  destruct (step st data) as [[[st' fin] rest] |] eqn:Es; [| done]. destruct (step_core st data st' fin rest Hok Hs Ec (nonempty _ E0) Es) as (K1 & K2 & K3 & K4 & K5 & K6).
  assert (Hcl : wl_closeQueued st' = true -> wl_closing (takeOutbox st') = true) by (intros Hq; cbn; by rewrite Hq).
  unfold run.
  apply iter_enough; [by apply take_steady | done | destruct K5; [right; lia | left; auto] | right; lia].
Qed.

(** ** Pieces *)

Lemma znth_app_l (a b : bytes) i : 0 <= i < zlen a -> znth (a ++ b) i = znth a i.
Proof. intros Hi. unfold znth, zlen in *. by rewrite app_nth1 by lia. Qed.

Lemma zslice_app_l (a b : bytes) i j : 0 <= i -> i <= j -> j <= zlen a -> zslice (a ++ b) i j = zslice a i j.
Proof. intros. unfold zslice, ztake, zdrop, zlen in *. rewrite drop_app_le by lia. rewrite take_app_le; [done |]. rewrite length_drop. lia. Qed.

(** An accepted or refused header is so whatever follows. *)
Lemma parseHead_app st a b : parseHead st a <> HNeed -> parseHead st (a ++ b) = parseHead st a.
Proof.
  pose proof (zlen_nonneg b) as Hb. unfold parseHead. rewrite zlen_app. destruct (zlen a <? 2) eqn:E2; [done |]. replace (zlen a + zlen b <? 2) with false by lia. cbv zeta.
  rewrite !znth_app_l by lia. set (e := extLen (znth a 1)). pose proof (extLen_bound (znth a 1)) as He. fold e in He.
  destruct (vetFrameHead E st (znth a 0) (znth a 1)) as [st1 []]; cbn [negb]; [| done]. destruct (zlen a <? e) eqn:Ee; [done |]. replace (zlen a + zlen b <? e) with false by lia.
  assert (Hpl : payloadLen (a ++ b) = payloadLen a).
  { unfold payloadLen. rewrite znth_app_l by lia. fold e. destruct (e =? 4) eqn:E4; [by rewrite zslice_app_l by lia |]. destruct (e =? 10) eqn:E10; [by rewrite zslice_app_l by lia | done]. }
  rewrite Hpl. destruct (vetPayloadLength E st (payloadLen a) _) as [st2 []]; cbn [negb]; [| done]. destruct (zlen a <? e + 4) eqn:Eh; [done |]. replace (zlen a + zlen b <? e + 4) with false by lia.
  rewrite zslice_app_l by lia. destruct (awaitsWholeFrame E st _ _ _); rewrite ?andb_false_r, ?andb_true_r; [| done].
  destruct (zlen a - (e + 4) <? payloadLen a) eqn:El; [done |]. by replace (zlen a + zlen b - (e + 4) <? payloadLen a) with false by lia.
Qed.

(** A frame read in two pieces. *)
Lemma advance_twice st f c1 c2 : advanceFrame (advanceFrame f c1) c2 = advanceFrame f (c1 ++ c2) /\
  forall x, with_frame (advanceState (with_frame (advanceState st f c1) x) (advanceFrame f c1) c2) None = with_frame (advanceState st f (c1 ++ c2)) None.
Proof.
  unfold advanceFrame, advanceState. cbn [fr_op fr_fin fr_remaining fr_mask fr_maskOff fr_ctrl]. rewrite zlen_app. destruct (wsOpClose <=? fr_op f).
  - split; [f_equal; [lia | lia | by rewrite app_assoc] | done].
  - split; [f_equal; lia |]. intros x. cbn. by rewrite app_assoc.
Qed.

Lemma with_frame_twice st x y : with_frame (with_frame st x) y = with_frame st y.
Proof. done. Qed.

Lemma endFrame_frame st x f : endFrame (with_frame st x) f = endFrame st f.
Proof. done. Qed.

Lemma continue_split st f a b : bytes_ok a -> bytes_ok b -> frame_pre st f -> zlen a < fr_remaining f ->
  let c := maskTail a (fr_mask f) (fr_maskOff f) in
  continueFrame E st f (a ++ b) = continueFrame E (with_frame (advanceState st f c) (Some (advanceFrame f c))) (advanceFrame f c) b.
Proof.
  intros Ha Hb Hp Hl c. assert (Hc : zlen c = zlen a) by apply zlen_maskTail. pose proof (advance_pre st f c Hp ltac:(lia)) as Hp'. set (st1 := with_frame (advanceState st f c) (Some (advanceFrame f c))).
  assert (Hp1 : frame_pre st1 (advanceFrame f c)) by exact Hp'. assert (Hab : bytes_ok (a ++ b)) by (by apply Forall_app).
  assert (Hrem : fr_remaining (advanceFrame f c) = fr_remaining f - zlen a) by (cbn; lia). assert (Hoff : fr_maskOff (advanceFrame f c) = fr_maskOff f + zlen a) by (cbn; lia).
  destruct (decide (zlen (a ++ b) < fr_remaining f)) as [Hs | Hs]; rewrite zlen_app in Hs.
  - rewrite (continue_part st f (a ++ b)) by (done || by rewrite zlen_app). rewrite (continue_part st1 (advanceFrame f c) b) by (done || lia).
    rewrite Hoff. change (fr_mask (advanceFrame f c)) with (fr_mask f). rewrite maskTail_app. fold c. set (c2 := maskTail b _ _). destruct (advance_twice st f c c2) as [-> H2].
    specialize (H2 (Some (advanceFrame f c))). fold st1 in H2. do 2 f_equal. rewrite <- (with_frame_twice (advanceState st f (c ++ c2)) None), <- H2. done.
  - rewrite (continue_end st f (a ++ b)) by (done || rewrite zlen_app; lia). rewrite (continue_end st1 (advanceFrame f c) b) by (done || lia).
    rewrite Hoff, Hrem. change (fr_mask (advanceFrame f c)) with (fr_mask f).
    assert (Ht : ztake (fr_remaining f) (a ++ b) = a ++ ztake (fr_remaining f - zlen a) b).
    { unfold ztake. rewrite take_app. f_equal; [apply take_ge; unfold zlen in *; lia | f_equal; unfold zlen; lia]. }
    assert (Hd : zdrop (fr_remaining f) (a ++ b) = zdrop (fr_remaining f - zlen a) b).
    { unfold zdrop. rewrite drop_app_ge by (unfold zlen in *; lia). f_equal. unfold zlen. lia. }
    rewrite Ht, Hd, maskTail_app. fold c. set (c2 := maskTail (ztake _ b) _ _). destruct (advance_twice st f c c2) as [-> H2]. specialize (H2 (Some (advanceFrame f c))). fold st1 in H2.
    do 2 f_equal. rewrite <- (endFrame_frame (advanceState st f (c ++ c2)) None), <- H2. done.
Qed.

Lemma continue_done st f a b st' rest : bytes_ok a -> bytes_ok b -> frame_pre st f -> core st -> continueFrame E st f a = (st', true, rest) ->
  continueFrame E st f (a ++ b) = (st', true, rest ++ b).
Proof.
  intros Ha Hb Hp Hc Hs. pose proof (continue_core st f a Ha Hc Hp) as K. rewrite Hs in K. destruct K as (_ & _ & _ & _ & Hl). pose proof Hp as (Hr & _). pose proof (zlen_nonneg b).
  rewrite continue_end in Hs by done. rewrite continue_end; [| by apply Forall_app | done | rewrite zlen_app; lia]. injection Hs as <- <-.
  assert (Ht : ztake (fr_remaining f) (a ++ b) = ztake (fr_remaining f) a) by (unfold ztake; apply take_app_le; unfold zlen in *; lia).
  rewrite Ht. f_equal. unfold zdrop. apply drop_app_le. unfold zlen in *. lia.
Qed.

(** A turn over the first piece, seen from the whole. *)
Lemma step_split st a b st' fin rest : bytes_ok a -> bytes_ok b -> steady st -> step st a = Some (st', fin, rest) ->
  if fin then step st (a ++ b) = Some (st', true, rest ++ b) else step st (a ++ b) = step st' b /\ exists f, wl_frame st' = Some f.
Proof.
  intros Ha Hb [Hc Ho Hcc] Hs. pose proof Hc as [_ _ _ _ _ C6 _].
  assert (Hcont : forall st0 f d, core st0 -> frame_pre st0 f -> bytes_ok d -> continueFrame E st0 f d = (st', fin, rest) ->
    if fin then Some (continueFrame E st0 f (d ++ b)) = Some (st', true, rest ++ b) else Some (continueFrame E st0 f (d ++ b)) = step st' b /\ exists f, wl_frame st' = Some f).
  { intros st0 f d Hc0 Hp0 Hd E0. pose proof (continue_core st0 f d Hd Hc0 Hp0) as K. rewrite E0 in K. destruct fin; [by erewrite continue_done |].
    destruct K as (_ & _ & _ & Hl & _). rewrite continue_split by done. rewrite continue_part in E0 by done. injection E0 as <- _. split; [done | by eexists]. }
  assert (Hd : forall d, step st d = match wl_frame st with Some f => Some (continueFrame E st f d) | None => startFrame E st d end) by done. rewrite Hd in Hs. rewrite !(Hd (a ++ b)). clear Hd.
  destruct (wl_frame st) as [f |] eqn:Ef.
  - injection Hs as Hs. exact (Hcont st f a Hc (frame_ok_pre _ _ (C6 f eq_refl)) Ha Hs).
  - assert (Hab : bytes_ok (a ++ b)) by (by apply Forall_app). rewrite start_head in Hs |- * by done. destruct (parseHead st a) as [| st1 | st0 f n] eqn:Eh; [done | |].
    + injection Hs as <- <- <-. by rewrite parseHead_app, Eh by (by rewrite Eh).
    + injection Hs as Hs. rewrite parseHead_app, Eh by (by rewrite Eh). destruct (new_pre st st0 f a n Ha Hc Ef Eh) as (N1 & N2 & _). apply parseHead_ok in Eh as (_ & Hn1 & Hn2 & _).
      replace (zdrop n (a ++ b)) with (zdrop n a ++ b); [apply Hcont; [done | done | by apply Forall_drop | done] |]. unfold zdrop. rewrite drop_app_le; [done |]. unfold zlen in *. lia.
Qed.

Lemma run_closing st data : wl_closing st = true -> run st data = (st, data).
Proof. intros Hc. unfold run. rewrite Nat.add_comm. change (2 + length data)%nat with (S (S (length data))). by rewrite iter_S, Hc. Qed.

Lemma run_app n st a b : (length a <= n)%nat -> steady st -> bytes_ok a -> bytes_ok b -> run st (a ++ b) = let '(st1, r) := run st a in run st1 (r ++ b).
Proof.
  revert st a. induction n as [| n IH]; intros st a Hn Hs Ha Hb; (destruct (wl_closing st) eqn:Ec; [by rewrite !run_closing |]); rewrite (run_step st a), Ec by done.
  - destruct a; [done | cbn in Hn; lia].
  - destruct (zlen a =? 0) eqn:E0; [done |]. destruct (step st a) as [[[st' fin] rest] |] eqn:Es; [| done]. pose proof (nonempty a E0) as Hne.
    pose proof (step_split st a b st' fin rest Ha Hb Hs Es) as Hsp. destruct (step_core st a st' fin rest Ha Hs Ec Hne Es) as (K1 & K2 & K3 & K4 & K5 & K6).
    assert (Hab : bytes_ok (a ++ b)) by (by apply Forall_app). assert (Hz : (zlen (a ++ b) =? 0) = false) by (rewrite zlen_app; pose proof (zlen_nonneg a); pose proof (zlen_nonneg b); lia).
    rewrite (run_step st (a ++ b)), Ec, Hz by done. destruct fin.
    + rewrite Hsp. destruct (wl_closeQueued st') eqn:Eq.
      * assert (Hcl : wl_closing (takeOutbox st') = true) by (cbn; by rewrite Eq). by rewrite !run_closing.
      * apply IH; [destruct K5; [lia | done] | by apply take_steady | done | done].
    + destruct Hsp as [Hsp (f & Ef)]. rewrite Hsp. destruct (K6 eq_refl) as [-> Hs']. rewrite take_id by done. assert (Hnil : run st' [] = (st', [])) by (rewrite run_step, K2 by done; done). rewrite Hnil. cbn [app]. rewrite (run_step st' b), K2 by done.
      destruct (zlen b =? 0) eqn:Eb; [| unfold step; by rewrite Ef]. destruct b; [| rewrite zlen_cons in Eb; pose proof (zlen_nonneg b); lia]. rewrite app_nil_r in Hsp. rewrite <- Hsp, Es. rewrite take_id by done. by rewrite run_step, K2.
Qed.

Lemma run_steady n st data : (length data <= n)%nat -> steady st -> bytes_ok data -> steady (run st data).1.
Proof.
  revert st data. induction n as [| n IH]; intros st data Hn Hs Hok; rewrite run_step by done; (destruct (wl_closing st) eqn:Ec; [done |]).
  - destruct data; [done | cbn in Hn; lia].
  - destruct (zlen data =? 0) eqn:E0; [done |]. destruct (step st data) as [[[st' fin] rest] |] eqn:Es; [| done].
    destruct (step_core st data st' fin rest Hok Hs Ec (nonempty _ E0) Es) as (K1 & K2 & K3 & K4 & K5 & K6). destruct (wl_closeQueued st') eqn:Eq.
    + rewrite run_closing by (cbn; by rewrite Eq). by apply take_steady.
    + apply IH; [destruct K5; [lia | done] | by apply take_steady | done].
Qed.
End env.
