(* ===== verification/WebSocketServe.v ===== *)
(** WebSocket connections from their client's side: the frames read do not
    depend on how the bytes arrive, on arbitrary input the limits hold, and the
    messages a client sends are the messages delivered
    (src/core/epoll_ws_linux_amd64.go, websocket.go). *)
From stdpp Require Import base list numbers list_numbers strings.
From Stdlib Require Import ZArith Lia ZifyBool.
From S2P Require Import Prelude Utils H1Scan WsInflate WebSocket WebSocketProofs.

Open Scope list_scope.
Open Scope Z_scope.

(** The reads of a connection: each appends to the bytes not yet consumed. *)
Fixpoint feed (E : wsEnv) (st : wsLoop) (unread : bytes) (reads : list bytes) : wsLoop * bytes :=
  match reads with
  | [] => (st, unread)
  | r :: reads => let '(st', unread') := wsServe E st (unread ++ r) in feed E st' unread' reads
  end.

(** What a client sends: the header the connection itself writes, with the mask
    bit set, the key and the masked payload. *)
Definition clientHead (fin : bool) (op len : Z) : bytes :=
  match wsAppendFrameHeader [] ((if fin then 0x80 else 0) + op) len with b0 :: b1 :: ext => b0 :: (0x80 + b1) :: ext | h => h end.
Definition clientFrame (fin : bool) (op : Z) (key payload : bytes) : bytes := clientHead fin op (zlen payload) ++ key ++ maskTail payload key 0.

(** A message in fragments, each with a key of its own. *)
Fixpoint clientMessage (op : Z) (parts : list (bytes * bytes)) : bytes :=
  match parts with
  | [] => []
  | (key, payload) :: parts => clientFrame (match parts with [] => true | _ => false end) op key payload ++ clientMessage wsOpContinuation parts
  end.
Definition clientStream (msgs : list (Z * list (bytes * bytes))) : bytes := concat (map (fun '(op, parts) => clientMessage op parts) msgs).
Definition messageOf (m : Z * list (bytes * bytes)) : Z * bytes := (m.1, concat (map snd m.2)).

Section env.
  Context (E : wsEnv) `{!EnvOk E}.

Lemma newLoop_steady : steady E newLoop.
Proof. pose proof (maxMessageSize_pos E). apply mkSteady; [apply mkCore |..]; cbn; try done. change (zlen (@nil Z)) with 0. lia. Qed.

(** ** Arrival *)

Lemma run_rest n st data : (length data <= n)%nat -> steady E st -> bytes_ok data ->
  let '(st', rest) := run E st data in bytes_ok rest /\ (wl_closing st' = true \/ zlen rest < 14 \/ zlen rest < wholeFrameLimit E).
Proof.
  revert st data. induction n as [| n IH]; intros st data Hn Hs Hok; rewrite run_step by done; (destruct (wl_closing st) eqn:Ec; [split; [done | by left] |]).
  - destruct data; [split; [done | right; left; done] | cbn in Hn; lia].
  - destruct (zlen data =? 0) eqn:E0; [split; [done | right; left; lia] |]. destruct (step E st data) as [[[st' fin] rest] |] eqn:Es.
    + destruct (step_core E st data st' fin rest Hok Hs Ec (nonempty _ E0) Es) as (K1 & K2 & K3 & K4 & K5 & K6). destruct (wl_closeQueued st') eqn:Eq.
      * assert (Hcl : wl_closing (takeOutbox st') = true) by (cbn; by rewrite Eq). rewrite run_closing by done. split; [done | by left].
      * apply IH; [destruct K5; [lia | done] | by apply take_steady | done].
    + split; [done | right]. unfold step in Es. destruct (wl_frame st) as [f |] eqn:Ef; [done |]. rewrite (start_head E) in Es by done. destruct (parseHead E st data) eqn:Eh; try done. clear Es.
      revert Eh. unfold parseHead. destruct (zlen data <? 2) eqn:E2; [intros _; left; lia |]. cbv zeta. pose proof (extLen_bound (znth data 1)). destruct (vetFrameHead _ _ _ _) as [? []]; [| done].
      cbn [negb]. destruct (zlen data <? extLen _) eqn:Ex; [intros _; left; lia |]. destruct (vetPayloadLength _ _ _ _) as [? []]; [| done]. cbn [negb]. destruct (zlen data <? extLen _ + 4) eqn:Ey; [intros _; left; lia |].
      destruct (_ <? payloadLen data) eqn:El; [| done]. cbn [andb]. unfold awaitsWholeFrame. destruct (_ || _); [done |]. destruct (_ <=? wholeFrameLimit E) eqn:Ew; [| done]. intros _. right. lia.
Qed.

Lemma wsServe_steady st data : steady E st -> bytes_ok data -> steady E (wsServe E st data).1 /\ bytes_ok (wsServe E st data).2.
Proof.
  intros Hs Hok. rewrite wsServe_run by done. split; [by eapply run_steady |]. pose proof (run_rest _ st data (le_n _) Hs Hok) as H. destruct (run E st data). apply H.
Qed.

Lemma wsServe_app st a b : steady E st -> bytes_ok a -> bytes_ok b -> wsServe E st (a ++ b) = let '(st', r) := wsServe E st a in wsServe E st' (r ++ b).
Proof.
  intros Hs Ha Hb. assert (Hab : bytes_ok (a ++ b)) by (by apply Forall_app). destruct (wsServe_steady st a Hs Ha) as [Hs' Hr]. rewrite (wsServe_run E st (a ++ b)) by done. rewrite (run_app E _ st a b (le_n _)) by done.
  rewrite (wsServe_run E st a) in * by done. destruct (run E st a) as [st' r]. cbn in *. rewrite (wsServe_run E); [done | done | by apply Forall_app].
Qed.

Lemma wsServe_nil st : steady E st -> wsServe E st [] = (st, []).
Proof. intros Hs. rewrite (wsServe_run E), (run_step E) by (done || by apply Forall_nil). by destruct (wl_closing st). Qed.

Lemma feed_from st unread reads : steady E st -> bytes_ok unread -> Forall bytes_ok reads -> wsServe E st unread = (st, unread) -> feed E st unread reads = wsServe E st (unread ++ concat reads).
Proof.
  intros Hs Hu Hr. revert st unread Hs Hu. induction Hr as [| r reads Hr Hrs IH]; intros st unread Hs Hu Hid; cbn [feed concat]; [by rewrite app_nil_r |].
  assert (Hur : bytes_ok (unread ++ r)) by (by apply Forall_app). assert (Hcr : bytes_ok (concat reads)) by (by apply Forall_concat). pose proof (wsServe_steady st (unread ++ r) Hs Hur) as [Hs' Hu'].
  rewrite app_assoc, (wsServe_app st (unread ++ r)) by done. pose proof (wsServe_app st (unread ++ r) [] Hs Hur (Forall_nil_2 _)) as Hidem. rewrite app_nil_r in Hidem.
  destruct (wsServe E st (unread ++ r)) as [st' unread']. cbn in Hs', Hu'. apply IH; [done | done |]. by rewrite app_nil_r in Hidem.
Qed.

(** ** What a client sends *)

Lemma maskTail_twice p key i : maskTail (maskTail p key i) key i = p.
Proof. revert i. induction p as [| b p IH]; intros i; [done |]. cbn [maskTail]. by rewrite IH, Z.lxor_assoc, Z.lxor_nilpotent, Z.lxor_0_r. Qed.

Lemma maskTail_ok p key i : bytes_ok p -> key_ok key -> bytes_ok (maskTail p key i).
Proof.
  intros Hp [Hk Hl]. revert i. induction Hp as [| b p Hb _ IH]; intros i; [by apply Forall_nil |]. cbn [maskTail]. constructor; [| apply IH]. apply lxor_u8; [done |].
  change 3 with (2 ^ 2 - 1). rewrite land_ones_mod by lia. pose proof (Z.mod_pos_bound i (2 ^ 2)) as Hm. unfold znth. rewrite nth_lookup.
  destruct (lookup_lt_is_Some_2 key (Z.to_nat (i mod 2 ^ 2))) as [v Hv]; [unfold zlen in Hl; lia |]. rewrite Hv. cbn. by eapply Forall_lookup_1 in Hk.
Qed.

(** The second byte of a header: the mask bit and seven bits of length. *)
Lemma mask_byte x : 0 <= x < 128 -> Z.land (0x80 + x) 0x7F = x /\ (Z.land (0x80 + x) 0x80 =? 0) = false.
Proof.
  intros Hx. assert (H : forallb (fun x => (Z.land (0x80 + x) 0x7F =? x) && negb (Z.land (0x80 + x) 0x80 =? 0)) (seqZ 0 128) = true) by (by vm_compute).
  rewrite forallb_forall in H. specialize (H x (proj1 (list_elem_of_In _ _) (proj2 (elem_of_seqZ _ _ _) Hx))). lia.
Qed.

Lemma head_byte (fin : bool) op : op = 0 \/ op = 1 \/ op = 2 -> let b0 := (if fin then 0x80 else 0) + op in
  Z.land b0 0x0F = op /\ Z.land b0 wsRSVMask = 0 /\ Z.land b0 wsRSV1 = 0 /\ negb (Z.land b0 0x80 =? 0) = fin /\ is_u8 b0.
Proof. intros [-> | [-> | ->]]; destruct fin; by vm_compute. Qed.

(** The header, as the reader takes it apart. *)
Lemma clientHead_parts fin op n : 0 <= n < 2 ^ 63 -> op = 0 \/ op = 1 \/ op = 2 -> exists b1 ext, clientHead fin op n = ((if fin then 0x80 else 0) + op) :: b1 :: ext /\
  (Z.land b1 0x80 =? 0) = false /\ 2 + zlen ext = extLen b1 /\ bytes_ok (b1 :: ext) /\
  forall rest, payloadLen (((if fin then 0x80 else 0) + op) :: b1 :: ext ++ rest) = n.
Proof.
  intros Hn Hop. unfold clientHead, wsAppendFrameHeader. set (b0 := _ + op). destruct (n <=? 125) eqn:E1; [| destruct (n <=? 65535) eqn:E2]; cbn [app].
  - destruct (mask_byte (u8 n)) as [H1 H2]; [rewrite u8_small; lia |]. exists (0x80 + u8 n), []. rewrite u8_small in * by lia. split; [done |]. split; [done |].
    assert (He : extLen (128 + n) = 2) by (unfold extLen; rewrite H1; by replace (n =? 126) with false by lia; replace (n =? 127) with false by lia). rewrite He. split; [done |].
    split; [by repeat constructor; unfold is_u8; lia |]. intros rest. unfold payloadLen. change (znth (b0 :: 128 + n :: [] ++ rest) 1) with (128 + n). rewrite He. cbn [Z.eqb Pos.eqb]. done.
  - exists (0x80 + 126), (be_bytes 2 n). split; [by cbn; rewrite Z.shiftr_0_r |]. split; [done |]. split; [done |]. split; [constructor; [done | apply be_bytes_ok] |]. intros rest. unfold payloadLen.
    change (extLen (znth (b0 :: 0x80 + 126 :: be_bytes 2 n ++ rest) 1)) with 4. cbn [Z.eqb Pos.eqb].
    change (zslice (b0 :: 0x80 + 126 :: be_bytes 2 n ++ rest) 2 4) with (be_bytes 2 n). rewrite be_val_bytes. apply Z.mod_small. change (2 ^ (8 * Z.of_nat 2)) with 65536. lia.
  - exists (0x80 + 127), (be_bytes 8 n). split; [by cbn; rewrite Z.shiftr_0_r |]. split; [done |]. split; [done |]. split; [constructor; [done | apply be_bytes_ok] |]. intros rest. unfold payloadLen.
    change (extLen (znth (b0 :: 0x80 + 127 :: be_bytes 8 n ++ rest) 1)) with 10. cbn [Z.eqb Pos.eqb].
    change (zslice (b0 :: 0x80 + 127 :: be_bytes 8 n ++ rest) 2 10) with (be_bytes 8 n). rewrite be_val_bytes. change (2 ^ (8 * Z.of_nat 8)) with (2 ^ 64). rewrite Z.mod_small by lia. apply i64_small. lia.
Qed.

Definition opened (st : wsLoop) (op : Z) : wsLoop := match wl_message st with Some _ => st | None => with_message st (Some (op, false)) end.

Lemma client_parse st fin op key payload tail : key_ok key -> op = 0 \/ op = 1 \/ op = 2 -> (match wl_message st with Some _ => true | None => false end) = (op =? 0) ->
  zlen payload <= maxMessageSize E - zlen (wl_msg st) -> zlen payload < 2 ^ 63 ->
  exists h, parseHead E st (clientFrame fin op key payload ++ tail) = HOk (opened st op) (mkFrame fin op (zlen payload) key 0 []) h /\
    zdrop h (clientFrame fin op key payload ++ tail) = maskTail payload key 0 ++ tail.
Proof.
  intros [Hk Hkl] Hop Hm Hsz Hlt. pose proof (zlen_nonneg payload) as Hp0. pose proof (zlen_nonneg tail) as Ht0. destruct (head_byte fin op Hop) as (F1 & F2 & F3 & F4 & _).
  unfold clientFrame. destruct (clientHead_parts fin op (zlen payload) ltac:(lia) Hop) as (b1 & ext & -> & Hb1 & Hext & _ & Hpl). set (b0 := (if fin then 0x80 else 0) + op) in *.
  rewrite <- !app_assoc. cbn [app]. rewrite <- ?app_assoc. specialize (Hpl (key ++ maskTail payload key 0 ++ tail)). set (data := b0 :: b1 :: ext ++ _) in *. pose proof (zlen_nonneg ext) as He0.
  assert (Hlen : zlen data = extLen b1 + 4 + zlen payload + zlen tail) by (subst data; rewrite !zlen_cons, !zlen_app, zlen_maskTail; lia).
  assert (Hdata : data = ([b0; b1] ++ ext) ++ key ++ maskTail payload key 0 ++ tail) by (subst data; by rewrite <- app_assoc). assert (Hpre : zlen ([b0; b1] ++ ext) = extLen b1) by (rewrite zlen_app; change (zlen [b0; b1]) with 2; lia).
  exists (extLen b1 + 4). split.
  - unfold parseHead. replace (zlen data <? 2) with false by lia. cbv zeta. change (znth data 0) with b0. change (znth data 1) with b1.
    assert (Hv : vetFrameHead E st b0 b1 = (st, true)).
    { unfold vetFrameHead. cbv zeta. rewrite F1, F2, Hb1, Hm. change wsOpClose with 8. change wsOpBinary with 2. change wsOpContinuation with 0. cbn [Z.eqb negb andb]. replace (8 <=? op) with false by lia. replace (2 <? op) with false by lia. by destruct (op =? 0). }
    rewrite Hv. cbn [negb]. replace (zlen data <? extLen b1) with false by lia. rewrite F1. change wsOpClose with 8. replace (8 <=? op) with false by lia. rewrite Hpl.
    assert (Hl : vetPayloadLength E st (zlen payload) (zlen (wl_msg st)) = (st, true)) by (unfold vetPayloadLength; replace (zlen payload <? 0) with false by lia; by replace (maxMessageSize E - zlen (wl_msg st) <? zlen payload) with false by lia).
    rewrite Hl. cbn [negb andb]. replace (zlen data <? extLen b1 + 4) with false by lia. replace (zlen data - (extLen b1 + 4) <? zlen payload) with false by lia. cbn [andb]. rewrite F3, F4. unfold opened. do 2 f_equal.
    + by destruct (wl_message st).
    + rewrite Hdata. unfold zslice, zdrop, ztake. rewrite drop_app_ge by (unfold zlen in Hpre; lia). replace (Z.to_nat (extLen b1) - length ([b0; b1] ++ ext))%nat with 0%nat by (unfold zlen in Hpre; lia). rewrite drop_0.
      rewrite take_app_le by (unfold zlen in Hkl; lia). apply take_ge. unfold zlen in Hkl. lia.
  - rewrite Hdata, app_assoc. unfold zdrop. rewrite drop_app_ge by (rewrite length_app; unfold zlen in *; lia). replace (_ - _)%nat with 0%nat; [done |]. rewrite length_app. unfold zlen in *. lia.
Qed.

(** One frame of a message: kept, or the message is delivered. *)
Definition received (st : wsLoop) (fin : bool) (op : Z) (payload : bytes) : wsLoop :=
  let st := with_msg (opened st op) (wl_msg st ++ payload) in if fin then finishMessage E st (wl_msg st) else st.

Lemma client_step st fin op key payload tail : steady E st -> wl_frame st = None -> bytes_ok payload -> bytes_ok tail -> key_ok key -> op = 0 \/ op = 1 \/ op = 2 -> (match wl_message st with Some _ => true | None => false end) = (op =? 0) ->
  zlen payload <= maxMessageSize E - zlen (wl_msg st) -> zlen payload < 2 ^ 63 -> bytes_ok (clientFrame fin op key payload) ->
  step E st (clientFrame fin op key payload ++ tail) = Some (received st fin op payload, true, tail).
Proof.
  intros Hs Hf Hok Htl Hk Hop Hm Hsz Hlt Hcf. destruct (client_parse st fin op key payload tail Hk Hop Hm Hsz Hlt) as (h & Hh & Hd). assert (Hall : bytes_ok (clientFrame fin op key payload ++ tail)) by (by apply Forall_app).
  unfold step. rewrite Hf, (start_head E), Hh by done. destruct (new_pre E st _ _ _ h Hall (sd_core _ _ Hs) Hf Hh) as (_ & Hp & _). pose proof (zlen_nonneg tail). pose proof (zlen_maskTail payload key 0) as Hml. rewrite Hd. set (f := mkFrame fin op (zlen payload) key 0 []) in *.
  rewrite (continue_end E); [| apply Forall_app; split; [by apply maskTail_ok | done] | done | rewrite zlen_app; cbn; lia]. change (fr_remaining f) with (zlen payload). change (fr_mask f) with key. change (fr_maskOff f) with 0.
  assert (Ht : ztake (zlen payload) (maskTail payload key 0 ++ tail) = maskTail payload key 0) by (unfold ztake; rewrite take_app_le by (unfold zlen in *; lia); apply take_ge; unfold zlen in *; lia).
  assert (Hdr : zdrop (zlen payload) (maskTail payload key 0 ++ tail) = tail) by (unfold zdrop; rewrite drop_app_ge by (unfold zlen in *; lia); replace (_ - _)%nat with 0%nat by (unfold zlen in *; lia); done).
  rewrite Ht, Hdr, maskTail_twice. do 3 f_equal. unfold endFrame, advanceState, received. change (fr_op (advanceFrame f payload)) with op. change (fr_op f) with op. change (fr_fin (advanceFrame f payload)) with fin.
  change wsOpClose with 8. replace (8 <=? op) with false by lia. assert (Hmo : wl_msg (opened st op) = wl_msg st) by (unfold opened; by destruct (wl_message st)). rewrite Hmo.
  assert (Hwf : with_frame (with_msg (opened st op) (wl_msg st ++ payload)) None = with_msg (opened st op) (wl_msg st ++ payload)) by (apply with_frame_id; unfold opened; by destruct (wl_message st)). by rewrite Hwf.
Qed.

Lemma clientFrame_ok fin op key payload : op = 0 \/ op = 1 \/ op = 2 -> key_ok key -> bytes_ok payload -> zlen payload < 2 ^ 63 -> bytes_ok (clientFrame fin op key payload) /\ (0 < zlen (clientFrame fin op key payload)).
Proof.
  intros Hop Hk Hp Hl. unfold clientFrame. pose proof (zlen_nonneg payload). destruct (head_byte fin op Hop) as (_ & _ & _ & _ & F5). destruct (clientHead_parts fin op (zlen payload) ltac:(lia) Hop) as (b1 & ext & -> & _ & _ & Hb & _). split.
  - apply Forall_app. split; [by constructor |]. apply Forall_app. split; [apply Hk | by apply maskTail_ok].
  - rewrite zlen_app, zlen_cons. pose proof (zlen_nonneg (b1 :: ext)). pose proof (zlen_nonneg (key ++ maskTail payload key 0)). lia.
Qed.

Definition part_ok (kp : bytes * bytes) : Prop := key_ok kp.1 /\ bytes_ok kp.2.

(** A message the connection accepts. *)
Record sendable (m : Z * list (bytes * bytes)) : Prop := mkSendable {
  se_op : m.1 = wsOpText \/ m.1 = wsOpBinary;
  se_parts : m.2 <> [];
  se_bytes : Forall part_ok m.2;
  se_size : zlen (messageOf m).2 <= maxMessageSize E;
  se_text : m.1 = wsOpText -> utf8Valid (messageOf m).2 = true }.

(** A connection at rest, between two messages. *)
Definition atRest (st : wsLoop) : Prop := steady E st /\ wl_frame st = None /\ wl_closing st = false /\ wl_message st = None.

Definition idle (st : wsLoop) : wsLoop := with_msg (with_message st None) [].

Lemma finish_ok st op a : wl_message st = Some (op, false) -> (op = wsOpText -> utf8Valid a = true) -> finishMessage E st a = deliver (idle st) op a.
Proof.
  intros Hm Hu. unfold finishMessage, completeMessage. rewrite Hm. cbv zeta beta. rewrite (validUTF8_spec E). destruct (op =? wsOpText) eqn:Et; cbn [andb]; [| done]. by rewrite Hu by lia.
Qed.

Lemma take_written st : wl_outbox st = [] -> wl_closeQueued st = false -> takeOutbox st = st.
Proof. destruct st; cbn. intros -> ->. unfold takeOutbox. cbn. by rewrite app_nil_r. Qed.

Lemma clientMessage_bytes opx parts : (maxMessageSize E < 2 ^ 63) -> Forall part_ok parts -> zlen (concat (map snd parts)) <= maxMessageSize E -> opx = 0 \/ opx = 1 \/ opx = 2 -> bytes_ok (clientMessage opx parts).
Proof.
  intros Hmax Hp. revert opx. induction Hp as [| [key payload] parts [Hk Hpl] Hps IH]; intros opx Hsz Hop; cbn [clientMessage]; [by apply Forall_nil |]. cbn [map concat snd] in Hsz. rewrite zlen_app in Hsz.
  pose proof (zlen_nonneg (concat (map snd parts))). pose proof (zlen_nonneg payload). cbn in Hk, Hpl. apply Forall_app. split; [apply clientFrame_ok; [done | done | done | lia] | apply IH; [lia | by left]].
Qed.

Lemma message_run op parts tail : (maxMessageSize E < 2 ^ 63) -> bytes_ok tail -> Forall part_ok parts -> parts <> [] -> op = wsOpText \/ op = wsOpBinary -> forall st opx,
  steady E st -> wl_frame st = None -> wl_closing st = false -> (wl_message st = None /\ opx = op) \/ (wl_message st = Some (op, false) /\ opx = wsOpContinuation) ->
  zlen (wl_msg st ++ concat (map snd parts)) <= maxMessageSize E -> (op = wsOpText -> utf8Valid (wl_msg st ++ concat (map snd parts)) = true) ->
  run E st (clientMessage opx parts ++ tail) = run E (deliver (idle st) op (wl_msg st ++ concat (map snd parts))) tail.
Proof.
  intros Hmax Htl Hps. induction Hps as [| [key payload] parts [Hk Hpl] Hps IH]; intros Hne Hop st opx Hs Hf Hcl Hst Hsz Hu; [done |]. clear Hne. cbn [map concat snd fst] in *. pose proof Hs as [[C1 C2 C3 C4 C5 C6 C7] S2 S3].
  set (fin := match parts with [] => true | _ => false end). cbn [clientMessage]. fold fin. rewrite !zlen_app in Hsz. pose proof (zlen_nonneg payload). pose proof (zlen_nonneg (wl_msg st)). pose proof (zlen_nonneg (concat (map snd parts))).
  assert (Hox : opx = 0 \/ opx = 1 \/ opx = 2) by (unfold wsOpText, wsOpBinary, wsOpContinuation in *; lia). destruct (clientFrame_ok fin opx key payload Hox Hk Hpl ltac:(lia)) as [Hcf Hpos].
  assert (Hrest : bytes_ok (clientMessage wsOpContinuation parts ++ tail)) by (apply Forall_app; split; [apply clientMessage_bytes; [done | done | lia | by left] | done]).
  assert (Hm : (match wl_message st with Some _ => true | None => false end) = (opx =? 0)) by (unfold wsOpText, wsOpBinary, wsOpContinuation in *; destruct Hst as [[-> ->] | [-> ->]]; lia).
  rewrite <- app_assoc. assert (Hall : bytes_ok (clientFrame fin opx key payload ++ clientMessage wsOpContinuation parts ++ tail)) by (apply Forall_app; by split).
  rewrite (run_step E), Hcl by done. pose proof (zlen_nonneg (clientMessage wsOpContinuation parts ++ tail)). replace (zlen (clientFrame fin opx key payload ++ _) =? 0) with false by (rewrite zlen_app; lia).
  pose proof (client_step st fin opx key payload _ Hs Hf Hpl Hrest Hk Hox Hm ltac:(lia) ltac:(lia) Hcf) as Hstep. rewrite Hstep. assert (Hne : clientFrame fin opx key payload ++ clientMessage wsOpContinuation parts ++ tail <> []) by (intros Hz; apply app_eq_nil in Hz as [Hz _]; by rewrite Hz in Hpos).
  apply (step_core E) in Hstep as (K1 & _); [| done | done | done | done]. unfold received in *. assert (Ho : opened st opx = with_message st (Some (op, false))) by (unfold opened; destruct Hst as [[Em ->] | [Em ->]]; rewrite Em; [done |]; rewrite <- Em; by rewrite with_message_id).
  rewrite Ho in *. clear Ho. destruct parts as [| kp parts].
  - cbn [fin clientMessage app concat map]. subst fin. rewrite app_nil_r in Hu. rewrite (finish_ok _ op) by done. rewrite app_nil_r. rewrite take_written by (cbn; congruence). done.
  - subst fin. cbn beta iota in *. rewrite take_written in * by (cbn; congruence). rewrite IH; [| done | done | | done | done | by right | cbn [wl_msg with_msg]; rewrite !zlen_app; lia | cbn [wl_msg with_msg]; by rewrite <- app_assoc].
    + cbn [wl_msg with_msg]. by rewrite <- app_assoc.
    + rewrite <- (take_written (with_msg _ _)) by (cbn; congruence). by apply take_steady.
Qed.

Lemma idle_rest st : atRest st -> idle st = st.
Proof. intros ([[_ _ C3 _ _ _ _] _ _] & _ & _ & Hm). specialize (C3 Hm). destruct st; cbn in *. by subst. Qed.

Lemma good_deliver st op m : atRest st -> good E (op, m) -> atRest (deliver st op m).
Proof.
  intros ([[C1 C2 C3 C4 C5 C6 C7] S2 S3] & H2 & H3 & H4) Hg. split; [| done]. apply mkSteady; [apply mkCore |..]; cbn; try done; [| by apply Forall_app; split; [| constructor]].
  intros f Hf. congruence.
Qed.

Lemma stream_run msgs st : (maxMessageSize E < 2 ^ 63) -> Forall sendable msgs -> atRest st ->
  run E st (clientStream msgs) = (fold_left (fun st m => deliver st m.1 m.2) (map messageOf msgs) st, []).
Proof.
  intros Hmax Hm. revert st. induction Hm as [| [op parts] msgs Hs Hms IH]; intros st Hst.
  - destruct Hst as (Hs & _ & Hc & _). change (clientStream []) with (@nil Z). rewrite (run_step E), Hc by (done || by apply Forall_nil). done.
  - unfold clientStream. cbn [map concat fold_left]. fold (clientStream msgs). destruct Hs as [H1 H2 H3 H4 H5]. cbn [fst snd] in *. pose proof Hst as (Hsd & Hf & Hc & Hn). pose proof Hsd as [[_ _ C3 _ _ _ _] _ _].
    assert (Hb : bytes_ok (clientStream msgs)).
    { apply Forall_concat, Forall_map. eapply Forall_impl; [exact Hms |]. intros [op' parts'] [G1 G2 G3 G4 G5]. cbn in *. apply clientMessage_bytes; [done | done | done | unfold wsOpText, wsOpBinary in G1; lia]. }
    rewrite (message_run op parts) by (done || (by left) || (rewrite C3 by done; exact H4) || (rewrite C3 by done; exact H5)). rewrite C3, idle_rest by done. apply IH, good_deliver; [done |].
    split; [done |]. split; [done |]. done.
Qed.

Lemma fold_deliver msgs st : let st' := fold_left (fun st m => deliver st m.1 m.2) msgs st in
  st' = mkLoop (wl_conn st) (wl_frame st) (wl_message st) (wl_msg st) (wl_outbox st) (wl_closeQueued st) (wl_closing st) (wl_out st) (wl_delivered st ++ msgs).
Proof.
  revert st. induction msgs as [| [op m] msgs IH]; intros st; cbn [fold_left]; [rewrite app_nil_r; by destruct st |]. rewrite IH. cbn. by rewrite <- app_assoc.
Qed.
End env.

(** ** The properties *)

(** C20: The frames of a connection do not depend on how its bytes arrive: from
    any state between reads, serving the reads one after the other, each with
    what the last one left, is serving all the bytes at once. Headers, masks,
    payloads and multi-byte lengths may be cut anywhere; the state, the messages
    delivered, what is written and what is left unread are the same. *)
Theorem ws_incremental (E : wsEnv) `{!EnvOk E} (st : wsLoop) (reads : list bytes) : steady E st -> Forall bytes_ok reads -> feed E st [] reads = wsServe E st (concat reads).
Proof. intros Hs Hr. apply (feed_from E st [] reads); [done | by apply Forall_nil | done | by apply wsServe_nil]. Qed.

(** C22: Whatever a peer sends, the messages delivered are text or binary, text
    is well-formed UTF-8, none is longer than the limit, compressed or not; the
    message being collected and a control payload stay within
    their limits, and so do the bytes left unread; once the connection is
    closing, further input changes nothing. *)
Theorem ws_input_safe (E : wsEnv) `{!EnvOk E} (reads : list bytes) : Forall bytes_ok reads -> let '(st, unread) := feed E newLoop [] reads in
  (forall op m, (op, m) ∈ wl_delivered st -> (op = wsOpText \/ op = wsOpBinary) /\ (op = wsOpText -> utf8Valid m = true) /\ zlen m <= maxMessageSize E) /\
  zlen (wl_msg st) <= maxMessageSize E /\
  (forall f, wl_frame st = Some f -> 0 < fr_remaining f /\ (wsOpClose <= fr_op f -> zlen (fr_ctrl f) + fr_remaining f <= wsMaxControlPayload) /\ (fr_op f < wsOpClose -> zlen (wl_msg st) + fr_remaining f <= maxMessageSize E)) /\
  (wl_closing st = true \/ zlen unread < Z.max 14 (wholeFrameLimit E)) /\
  (wl_closing st = true -> forall more, bytes_ok more -> wsServe E st (unread ++ more) = (st, unread ++ more)).
Proof.
  intros Hr. pose proof (newLoop_steady E) as Hn. assert (Hc : bytes_ok (concat reads)) by (by apply Forall_concat). rewrite (feed_from E newLoop [] reads); [| done | by apply Forall_nil | done | by apply wsServe_nil]. cbn [app].
  destruct (wsServe_steady E newLoop (concat reads) Hn Hc) as [Hs Hu]. rewrite (wsServe_run E newLoop) in * by done. pose proof (run_rest E _ newLoop (concat reads) (le_n _) Hn Hc) as Hrest.
  destruct (run E newLoop (concat reads)) as [st unread]. cbn in Hs, Hu. destruct Hrest as [_ Hrest]. pose proof Hs as [[C1 C2 C3 C4 C5 C6 C7] S2 S3]. split_and!; [| done | | lia |].
  - intros op m Hin. rewrite Forall_forall in C7. exact (C7 (op, m) Hin).
  - intros f Hf. destruct (C6 f Hf) as [F1 F2 F3 F4 F5]. split_and!; [done | done | intros Ho; apply F5, Ho].
  - intros Hcl more Hm. rewrite (wsServe_run E) by (done || by apply Forall_app). by apply run_closing.
Qed.

(** C21: What a client sends is what the handler gets: any sequence of text and
    binary messages within the limit, each in any fragments with any mask keys,
    cut into reads in any way, is delivered message by message, in order and
    byte for byte; nothing is written and nothing is left unread. *)
Theorem ws_roundtrip (E : wsEnv) `{!EnvOk E} (st : wsLoop) (msgs : list (Z * list (bytes * bytes))) (reads : list bytes) :
  maxMessageSize E < 2 ^ 63 -> atRest E st -> Forall (sendable E) msgs -> Forall bytes_ok reads -> concat reads = clientStream msgs ->
  feed E st [] reads = (mkLoop (wl_conn st) None None [] [] false false (wl_out st) (wl_delivered st ++ map messageOf msgs), []).
Proof.
  intros Hmax Hst Hm Hr Hc. pose proof Hst as (Hs & Hf & Hcl & Hn). rewrite (feed_from E st [] reads); [| done | by apply Forall_nil | done | by apply wsServe_nil]. cbn [app].
  rewrite (wsServe_run E) by (done || by apply Forall_concat). rewrite Hc, stream_run by done. rewrite fold_deliver. destruct Hs as [[C1 C2 C3 C4 C5 C6 C7] S2 S3]. rewrite Hf, Hn, C3, S2, <- S3, Hcl by done. done.
Qed.

(** ** A connection to run *)

(** The assembly routines, as their documentation has them. *)
Fixpoint asciiLen (p : bytes) : Z := match p with b :: p => if b <? 0x80 then 1 + asciiLen p else 0 | [] => 0 end.
Definition demoEnv : wsEnv := mkEnv true (fun p w => maskXORSWAR p (le_bytes 4 w)) asciiLen (fun n => 1000000000 * Z.of_nat n) demoInflater 4096 0 65536 false 1024.

Lemma asciiLen_spec p : 0 <= asciiLen p <= zlen p /\ Forall (fun b => b < 0x80) (ztake (asciiLen p) p).
Proof.
  induction p as [| b p [IH1 IH2]]; [by vm_compute |]. cbn [asciiLen]. rewrite zlen_cons. destruct (b <? 0x80) eqn:Eb; [| pose proof (zlen_nonneg p); split; [lia | by apply Forall_nil]]. split; [lia |].
  unfold ztake in *. replace (Z.to_nat (1 + asciiLen p)) with (S (Z.to_nat (asciiLen p))) by lia. cbn [take]. constructor; [lia | done].
Qed.

Lemma le_bytes_val a n : bytes_ok a -> le_bytes (length a) (le_val a + 256 ^ zlen a * n) = a.
Proof.
  intros Ha. revert n. induction Ha as [| x a Hx _ IH]; intros n; [done |]. unfold is_u8 in Hx.
  assert (Hv : le_val (x :: a) + 256 ^ zlen (x :: a) * n = x + (le_val a + 256 ^ zlen a * n) * 256) by (rewrite zlen_cons, Z.pow_add_r, Z.pow_1_r by (try lia; apply zlen_nonneg); cbn [le_val]; lia).
  rewrite Hv. cbn [length le_bytes]. rewrite Z.mod_add, Z.div_add, Z.mod_small, Z.div_small, Z.add_0_l by lia. by rewrite IH.
Qed.

#[export] Instance demoEnv_ok : EnvOk demoEnv.
Proof.
  apply mkEnvOk; [| exact demoInflater_ok | apply asciiLen_spec]. intros p key _ Hp [Hk Hl]. cbn [maskXORAVX2 demoEnv]. f_equal. rewrite wsMaskWord_twice by done. rewrite le_val_app. pose proof (le_bytes_val key (le_val key) Hk) as H.
  by replace (length key) with 4%nat in H by (unfold zlen in Hl; lia).
Qed.

(** A text message in two fragments and a binary one, the reads cutting a header
    and a payload. *)
Definition demoMsgs : list (Z * list (bytes * bytes)) :=
  [(wsOpText, [([1; 2; 3; 4], [0xE2; 0x82]); ([9; 8; 7; 6], [0xAC])]); (wsOpBinary, [([0; 0; 0; 0], [255; 0; 7])])].
Definition demoReads : list bytes := [ztake 1 (clientStream demoMsgs); ztake 8 (zdrop 1 (clientStream demoMsgs)); zdrop 9 (clientStream demoMsgs)].

Lemma demoReads_ok : Forall bytes_ok demoReads.
Proof. unfold bytes_ok, is_u8. apply (bool_decide_unpack _). by vm_compute. Qed.

Lemma ws_incremental_witness : feed demoEnv newLoop [] demoReads = wsServe demoEnv newLoop (concat demoReads) /\ wl_delivered (wsServe demoEnv newLoop (concat demoReads)).1 = [(wsOpText, [0xE2; 0x82; 0xAC]); (wsOpBinary, [255; 0; 7])].
Proof. split; [apply (ws_incremental demoEnv newLoop demoReads); [apply newLoop_steady | apply demoReads_ok] | by vm_compute]. Defined.

(** A frame without a mask. *)
Lemma ws_input_safe_witness : let '(st, unread) := feed demoEnv newLoop [] [[0x81]; [1; 65]] in
  wl_closing st = true /\ wl_delivered st = [] /\ wl_out st = [0x88; 0] /\ wsServe demoEnv st (unread ++ [7]) = (st, unread ++ [7]).
Proof.
  assert (Hok : Forall bytes_ok [[0x81]; [1; 65]]) by (unfold bytes_ok, is_u8; apply (bool_decide_unpack _); by vm_compute). pose proof (ws_input_safe demoEnv [[0x81]; [1; 65]] Hok) as H. destruct (feed demoEnv newLoop [] [[0x81]; [1; 65]]) as [st unread] eqn:E.
  assert (Hst : st = (feed demoEnv newLoop [] [[0x81]; [1; 65]]).1) by (by rewrite E). assert (Hf : wl_closing st = true /\ wl_delivered st = [] /\ wl_out st = [0x88; 0]) by (rewrite Hst; by vm_compute).
  destruct Hf as (F1 & F2 & F3). destruct H as (_ & _ & _ & _ & H). split_and!; [done | done | done | apply H; [done | by repeat constructor]].
Defined.

Lemma ws_roundtrip_witness : (feed demoEnv newLoop [] demoReads).1.(wl_delivered) = map messageOf demoMsgs /\ (feed demoEnv newLoop [] demoReads).2 = [].
Proof.
  rewrite (ws_roundtrip demoEnv newLoop demoMsgs demoReads); [by vm_compute | done | | | apply demoReads_ok | by vm_compute].
  - split; [apply newLoop_steady | done].
  - repeat constructor; try done; try (by left); by right.
Defined.
