(* ===== verification/H2Frame.v ===== *)
(** HTTP/2 frames (src/core/h2_frame.go, h2_shared.go, consts.go): the writers,
    the reader, and the in-place split of a header block that is longer than a
    frame into HEADERS and CONTINUATION frames. *)
From stdpp Require Import base list numbers list_numbers.
From Stdlib Require Import ZArith Lia ZifyBool.
From S2P Require Import Prelude.

Open Scope list_scope.
Open Scope Z_scope.

(** ** Constants *)

Definition H2PrefaceLen : Z := 24.
Definition H2DefaultWindowSize : Z := 65535.
Definition H2DefaultMaxFrameSize : Z := 16384.
Definition H2MaxFrameSize : Z := 16777215.
Definition H2ConnectionWindowSize : Z := 4194304.
Definition H2FrameData : Z := 0.
Definition H2FrameHeaders : Z := 1.
Definition H2FramePriority : Z := 2.
Definition H2FrameRSTStream : Z := 3.
Definition H2FrameSettings : Z := 4.
Definition H2FramePushPromise : Z := 5.
Definition H2FramePing : Z := 6.
Definition H2FrameGoAway : Z := 7.
Definition H2FrameWindowUpdate : Z := 8.
Definition H2FrameContinuation : Z := 9.
Definition H2FlagEndStream : Z := 1.
Definition H2FlagEndHeaders : Z := 4.
Definition H2FlagPadded : Z := 8.
Definition H2FlagPriority : Z := 0x20.
Definition H2FlagAck : Z := 1.
Definition H2ErrNoError : Z := 0.
Definition H2ErrProtocol : Z := 1.
Definition H2ErrFlowControl : Z := 3.
Definition H2ErrStreamClosed : Z := 5.
Definition H2ErrFrameSize : Z := 6.
Definition H2ErrRefusedStream : Z := 7.
Definition H2ErrCancel : Z := 8.
Definition H2ErrCompression : Z := 9.
Definition H2ErrEnhanceYourCalm : Z := 0xb.
Definition H2SettingHeaderTableSize : Z := 1.
Definition H2SettingMaxConcurrentStreams : Z := 3.
Definition H2SettingInitialWindowSize : Z := 4.
Definition H2SettingMaxFrameSize : Z := 5.
Definition H2SettingMaxHeaderListSize : Z := 6.
Definition H2SettingEnableConnectProtocol : Z := 8.
Definition h2FrameHeaderLen : Z := 9.
Definition h2SettingEntryLen : Z := 6.

(** ** Frames *)

(** [H2Frame]; [Length] is the length of the payload. *)
Record H2Frame := mkH2 { f_type : Z; f_flags : Z; f_id : Z; f_payload : bytes }.

(** What [putH2FrameHeader] writes: the nine bytes of a header. *)
Definition putH2FrameHeader (typ flags streamID pLen : Z) : bytes := be_bytes 3 pLen ++ [typ; flags] ++ be_bytes 4 streamID.
Definition putH2FrameLength (frame : bytes) (n : Z) : bytes := be_bytes 3 n ++ zdrop 3 frame.

Definition appendH2FrameHeader (dst : bytes) (typ flags streamID pLen : Z) : bytes := dst ++ putH2FrameHeader typ flags streamID pLen.
Definition appendH2Frame (dst : bytes) (typ flags streamID : Z) (payload : bytes) : bytes := dst ++ putH2FrameHeader typ flags streamID (zlen payload) ++ payload.

Definition appendH2SettingsAckFrame (dst : bytes) : bytes := appendH2Frame dst H2FrameSettings H2FlagAck 0 [].
Definition appendH2WindowUpdateFrame (dst : bytes) (streamID increment : Z) : bytes := appendH2Frame dst H2FrameWindowUpdate 0 streamID (be_bytes 4 (Z.land increment 0x7fffffff)).
Definition appendH2GoAwayFrame (dst : bytes) (lastStream errCode : Z) : bytes := appendH2Frame dst H2FrameGoAway 0 0 (be_bytes 4 lastStream ++ be_bytes 4 errCode).
Definition appendH2RSTStreamFrame (dst : bytes) (streamID errCode : Z) : bytes := appendH2Frame dst H2FrameRSTStream 0 streamID (be_bytes 4 errCode).
Definition appendH2PingFrame (dst : bytes) (ack : bool) (data : bytes) : bytes := appendH2Frame dst H2FramePing (if ack then H2FlagAck else 0) 0 data.

(** [H2WriteSettings]: an empty frame, the entries, then the length in place. *)
Definition settingEntry (s : Z * Z) : bytes := be_bytes 2 s.1 ++ be_bytes 4 s.2.
Definition H2WriteSettings (dst : bytes) (settings : list (Z * Z)) : bytes :=
  let payloadLen := Z.of_nat (length settings) * h2SettingEntryLen in
  let off := zlen dst in
  let dst := appendH2Frame dst H2FrameSettings 0 0 [] in
  let dst := fold_left (fun dst s => dst ++ settingEntry s) settings dst in
  ztake off dst ++ putH2FrameLength (zdrop off dst) payloadLen.

Inductive h2ReadErr := ErrH2FrameTooLarge.
Definition H2ReadFrame (data : bytes) : H2Frame + h2ReadErr :=
  if zlen data <? 9 then inr ErrH2FrameTooLarge
  else
    let length := be_val (ztake 3 data) in
    if zlen data <? 9 + length then inr ErrH2FrameTooLarge
    else inl (mkH2 (znth data 3) (znth data 4) (Z.land (be_val (zslice data 5 9)) 0x7fffffff) (zslice data 9 (9 + length))).

(** ** Long header blocks *)

(** [copy(l[at:], data)] where there is room. *)
Definition splice (l : bytes) (at_ : Z) (data : bytes) : bytes := ztake at_ l ++ data ++ zdrop (at_ + zlen data) l.

(** The loop from the last chunk to the second: each is moved to its place and
    gets its header. *)
Fixpoint fragmentLoop (i : nat) (dst : bytes) (off maxFrame frames blockEnd streamID : Z) : bytes :=
  match i with
  | O => dst
  | S i' =>
      let k := Z.of_nat i in
      let chunkStart := off + h2FrameHeaderLen + k * maxFrame in
      let chunkLen := Z.min maxFrame (blockEnd - chunkStart) in
      let frameOff := off + k * (h2FrameHeaderLen + maxFrame) in
      let dst := splice dst (frameOff + h2FrameHeaderLen) (zslice dst chunkStart (chunkStart + chunkLen)) in
      let flags := if k =? frames - 1 then H2FlagEndHeaders else 0 in
      let dst := splice dst frameOff (putH2FrameHeader H2FrameContinuation flags streamID chunkLen) in
      fragmentLoop i' dst off maxFrame frames blockEnd streamID
  end.

(** [grown]: the bytes [slices.Grow] uncovers. *)
Definition fragmentH2HeadersFrame (dst grown : bytes) (off maxFrame : Z) : bytes :=
  let blockStart := off + h2FrameHeaderLen in
  let blockLen := zlen dst - blockStart in
  let streamID := be_val (zslice dst (off + 5) (off + 9)) in
  let flags := znth dst (off + 4) in
  let frames := (blockLen + maxFrame - 1) / maxFrame in
  let blockEnd := zlen dst in
  let dst := fragmentLoop (Z.to_nat (frames - 1)) (dst ++ ztake ((frames - 1) * h2FrameHeaderLen) grown) off maxFrame frames blockEnd streamID in
  splice dst off (putH2FrameHeader H2FrameHeaders (Z.land flags (Z.lnot H2FlagEndHeaders)) streamID maxFrame).

Definition finishH2HeadersFrame (dst grown : bytes) (off maxFrame : Z) : bytes :=
  let n := zlen dst - off - h2FrameHeaderLen in
  if maxFrame <? n then fragmentH2HeadersFrame dst grown off maxFrame
  else ztake off dst ++ putH2FrameLength (zdrop off dst) n.

(** ** What the frames say *)

Definition encodeFrame (f : H2Frame) : bytes := putH2FrameHeader (f_type f) (f_flags f) (f_id f) (zlen (f_payload f)) ++ f_payload f.
Definition encodeFrames (fs : list H2Frame) : bytes := concat (map encodeFrame fs).

Definition goAwayFrame (lastStream errCode : Z) : H2Frame := mkH2 H2FrameGoAway 0 0 (be_bytes 4 lastStream ++ be_bytes 4 errCode).
Definition rstFrame (streamID errCode : Z) : H2Frame := mkH2 H2FrameRSTStream 0 streamID (be_bytes 4 errCode).
Definition windowUpdateFrame (streamID increment : Z) : H2Frame := mkH2 H2FrameWindowUpdate 0 streamID (be_bytes 4 (Z.land increment 0x7fffffff)).
Definition settingsAckFrame : H2Frame := mkH2 H2FrameSettings H2FlagAck 0 [].
Definition pingFrame (ack : bool) (data : bytes) : H2Frame := mkH2 H2FramePing (if ack then H2FlagAck else 0) 0 data.
Definition dataFrame (flags streamID : Z) (payload : bytes) : H2Frame := mkH2 H2FrameData flags streamID payload.

(** The CONTINUATION frames for the rest of a header block. *)
Fixpoint continuations (fuel : nat) (streamID maxFrame : Z) (rest : bytes) : list H2Frame :=
  match fuel with
  | O => []
  | S fuel =>
      if zlen rest =? 0 then []
      else mkH2 H2FrameContinuation (if zlen rest <=? maxFrame then H2FlagEndHeaders else 0) streamID (ztake maxFrame rest) :: continuations fuel streamID maxFrame (zdrop maxFrame rest)
  end.

(** The frames of a header block. *)
Definition headersFrames (flags streamID maxFrame : Z) (block : bytes) : list H2Frame :=
  if maxFrame <? zlen block
  then mkH2 H2FrameHeaders (Z.land flags (Z.lnot H2FlagEndHeaders)) streamID (ztake maxFrame block) :: continuations (length block) streamID maxFrame (zdrop maxFrame block)
  else [mkH2 H2FrameHeaders flags streamID block].

Record frame_wf (f : H2Frame) : Prop := mkFrameWf {
  fw_type : is_u8 (f_type f);
  fw_flags : is_u8 (f_flags f);
  fw_id : 0 <= f_id f < 2 ^ 31;
  fw_len : zlen (f_payload f) < 2 ^ 24 }.

(** ** The writers append frames *)

Lemma zlen_header typ flags id n : zlen (putH2FrameHeader typ flags id n) = h2FrameHeaderLen.
Proof. done. Qed.

Lemma zlen_encode f : zlen (encodeFrame f) = h2FrameHeaderLen + zlen (f_payload f).
Proof. unfold encodeFrame. by rewrite zlen_app, zlen_header. Qed.

Lemma encodeFrames_cons f fs : encodeFrames (f :: fs) = encodeFrame f ++ encodeFrames fs.
Proof. done. Qed.

Lemma encodeFrames_app a b : encodeFrames (a ++ b) = encodeFrames a ++ encodeFrames b.
Proof. unfold encodeFrames. by rewrite map_app, concat_app. Qed.

Lemma settings_fold settings dst : fold_left (fun dst s => dst ++ settingEntry s) settings dst = dst ++ concat (map settingEntry settings).
Proof. revert dst. induction settings as [| s settings IH]; intros dst; cbn; [by rewrite app_nil_r |]. by rewrite IH, <- app_assoc. Qed.

Lemma zlen_entries settings : zlen (concat (map settingEntry settings)) = Z.of_nat (length settings) * h2SettingEntryLen.
Proof. induction settings as [| s settings IH]; [done |]. cbn [map concat length]. rewrite zlen_app, IH. change (zlen (settingEntry s)) with h2SettingEntryLen. unfold h2SettingEntryLen. lia. Qed.

(** A length written in place makes the bytes of a frame. *)
Lemma put_length dst typ flags id n payload : ztake (zlen dst) (appendH2Frame dst typ flags id n ++ payload) ++ putH2FrameLength (zdrop (zlen dst) (appendH2Frame dst typ flags id n ++ payload)) (zlen n + zlen payload)
  = dst ++ encodeFrame (mkH2 typ flags id (n ++ payload)).
Proof.
  unfold appendH2Frame. rewrite <- !app_assoc. rewrite ztake_app_exact, zdrop_app_exact. f_equal. unfold putH2FrameLength, encodeFrame, putH2FrameHeader. cbn [f_type f_flags f_id f_payload]. rewrite zlen_app, <- !app_assoc. done.
Qed.

Lemma H2WriteSettings_frame dst settings : H2WriteSettings dst settings = dst ++ encodeFrame (mkH2 H2FrameSettings 0 0 (concat (map settingEntry settings))).
Proof.
  unfold H2WriteSettings. rewrite settings_fold, <- zlen_entries. exact (put_length dst H2FrameSettings 0 0 [] (concat (map settingEntry settings))).
Qed.

(** ** Reading back *)

Lemma land_31 x : 0 <= x < 2 ^ 31 -> Z.land x 0x7fffffff = x.
Proof. intros H. change 0x7fffffff with (2 ^ 31 - 1). rewrite land_ones_mod by lia. by apply Z.mod_small. Qed.

Lemma read_encode f rest : frame_wf f -> H2ReadFrame (encodeFrame f ++ rest) = inl f.
Proof.
  intros [W1 W2 W3 W4]. pose proof (zlen_nonneg (f_payload f)). pose proof (zlen_nonneg rest). unfold H2ReadFrame. rewrite zlen_app, zlen_encode. unfold h2FrameHeaderLen. replace (_ <? 9) with false by lia.
  unfold encodeFrame. set (n := zlen (f_payload f)) in *. assert (Hl : be_val (ztake 3 ((putH2FrameHeader (f_type f) (f_flags f) (f_id f) n ++ f_payload f) ++ rest)) = n).
  { change (ztake 3 _) with (be_bytes 3 n). rewrite be_val_bytes. apply Z.mod_small. change (2 ^ (8 * Z.of_nat 3)) with (2 ^ 24). lia. }
  rewrite Hl. replace (_ <? _) with false by lia. assert (Hid : zslice ((putH2FrameHeader (f_type f) (f_flags f) (f_id f) n ++ f_payload f) ++ rest) 5 9 = be_bytes 4 (f_id f)) by done. rewrite Hid, be_val_bytes.
  change (2 ^ (8 * Z.of_nat 4)) with (2 ^ 32). rewrite Z.mod_small, land_31 by lia. rewrite <- app_assoc.
  assert (Hp : zslice (putH2FrameHeader (f_type f) (f_flags f) (f_id f) n ++ f_payload f ++ rest) 9 (9 + n) = f_payload f) by apply zslice_mid. rewrite Hp. by destruct f.
Qed.

(** ** Long header blocks *)

Lemma splice_mid (a x b d : bytes) : zlen x = zlen d -> splice (a ++ x ++ b) (zlen a) d = a ++ d ++ b.
Proof.
  intros H. unfold splice. rewrite ztake_app_exact. do 2 f_equal. rewrite <- zdrop_zdrop by apply zlen_nonneg. rewrite zdrop_app_exact, <- H. apply zdrop_app_exact.
Qed.

Lemma continuations_fuel fuel fuel' id M rest : 0 < M -> (length rest <= fuel)%nat -> (length rest <= fuel')%nat -> continuations fuel id M rest = continuations fuel' id M rest.
Proof.
  intros HM. revert fuel' rest. induction fuel as [| fuel IH]; intros fuel' rest Hf Hf'.
  - destruct rest; [| cbn in Hf; lia]. by destruct fuel'.
  - destruct fuel' as [| fuel']; [destruct rest; [done | cbn in Hf'; lia] |]. cbn [continuations]. destruct (zlen rest =? 0) eqn:E; [done |]. f_equal. apply IH; unfold zdrop, zlen in *; rewrite length_drop; lia.
Qed.

Lemma continuations_step id M rest : 0 < M -> rest <> [] -> continuations (length rest) id M rest =
  mkH2 H2FrameContinuation (if zlen rest <=? M then H2FlagEndHeaders else 0) id (ztake M rest) :: continuations (length (zdrop M rest)) id M (zdrop M rest).
Proof.
  intros HM Hne. destruct rest as [| x rest]; [done |]. cbn [length continuations]. replace (zlen (x :: rest) =? 0) with false by (rewrite zlen_cons; pose proof (zlen_nonneg rest); lia). f_equal.
  apply continuations_fuel; [done | unfold zdrop; rewrite length_drop; cbn [length]; lia | done].
Qed.

(** The chunk of index [i] within the block. *)
Lemma chunk_facts (block : bytes) M i : 0 < M -> 0 <= i -> i * M < zlen block ->
  let chunk := ztake M (zdrop (i * M) block) in
  ztake ((i + 1) * M) block = ztake (i * M) block ++ chunk /\ zlen (ztake (i * M) block) = i * M /\ zlen chunk = Z.min M (zlen block - i * M) /\
  zdrop M (zdrop (i * M) block) = zdrop ((i + 1) * M) block.
Proof.
  intros HM Hi Hl chunk. assert (Hd : zlen (zdrop (i * M) block) = zlen block - i * M) by (apply zlen_drop; lia). split_and!.
  - unfold chunk, ztake, zdrop. replace (Z.to_nat ((i + 1) * M)) with (Z.to_nat (i * M) + Z.to_nat M)%nat by lia. by rewrite <- take_take_drop.
  - apply zlen_take. lia.
  - unfold chunk, zlen in *. unfold ztake. rewrite length_take. lia.
  - rewrite zdrop_zdrop by lia. f_equal. lia.
Qed.

Lemma fragmentLoop_spec (pre hdr block : bytes) (M N id : Z) : 0 < M -> zlen hdr = h2FrameHeaderLen -> M < zlen block -> N = (zlen block + M - 1) / M ->
  forall (i : nat) (g : bytes), Z.of_nat i <= N - 1 -> zlen g = 9 * Z.of_nat i ->
  let conts l := encodeFrames (continuations (length l) id M l) in
  fragmentLoop i (pre ++ hdr ++ ztake ((Z.of_nat i + 1) * M) block ++ g ++ conts (zdrop ((Z.of_nat i + 1) * M) block)) (zlen pre) M N (zlen (pre ++ hdr ++ block)) id
  = pre ++ hdr ++ ztake M block ++ conts (zdrop M block).
Proof.
  intros HM Hh HL HN i. induction i as [| i IH]; intros g Hi Hg conts.
  - cbn [fragmentLoop]. change (Z.of_nat 0 + 1) with 1. rewrite Z.mul_1_l. destruct g; [done | rewrite zlen_cons in Hg; pose proof (zlen_nonneg g); lia].
  - set (k := Z.of_nat (S i)) in *. assert (Hk : k = Z.of_nat i + 1) by lia. pose proof (Z.mul_div_le (zlen block + M - 1) M HM) as Hlo. pose proof (Z.mod_pos_bound (zlen block + M - 1) M HM) as Hm. pose proof (Z.div_mod (zlen block + M - 1) M ltac:(lia)) as Hdm. rewrite <- HN in Hlo, Hdm.
    assert (HkL : 0 <= k * M < zlen block) by nia. destruct (chunk_facts block M k HM ltac:(lia) (proj2 HkL)) as (F1 & F2 & F3 & F4). set (chunk := ztake M (zdrop (k * M) block)) in *.
    set (A := pre ++ hdr ++ ztake (k * M) block). assert (HA : zlen A = zlen pre + h2FrameHeaderLen + k * M) by (unfold A; rewrite !zlen_app; lia).
    set (C := conts (zdrop ((k + 1) * M) block)). assert (Hdst : pre ++ hdr ++ ztake ((k + 1) * M) block ++ g ++ C = A ++ chunk ++ g ++ C) by (unfold A; rewrite F1, <- !app_assoc; done). rewrite Hdst.
    cbn [fragmentLoop]. fold k. rewrite !zlen_app, Hh. unfold h2FrameHeaderLen in *.
    replace (Z.min M (zlen pre + (9 + zlen block) - (zlen pre + 9 + k * M))) with (zlen chunk) by lia. replace (zlen pre + 9 + k * M) with (zlen A) by lia. rewrite zslice_mid.
    pose proof (zlen_nonneg chunk) as Hc0. set (cg := chunk ++ g). assert (Hcg : zlen cg = zlen chunk + 9 * k) by (unfold cg; rewrite zlen_app; lia).
    assert (S1 : splice (A ++ chunk ++ g ++ C) (zlen pre + k * (9 + M) + 9) chunk = (A ++ ztake (9 * k) cg) ++ chunk ++ C).
    { replace (A ++ chunk ++ g ++ C) with ((A ++ ztake (9 * k) cg) ++ zdrop (9 * k) cg ++ C) by (unfold cg; rewrite <- !app_assoc; f_equal; rewrite (app_assoc (ztake _ _)), ztake_zdrop, <- app_assoc; done).
      replace (zlen pre + k * (9 + M) + 9) with (zlen (A ++ ztake (9 * k) cg)) by (rewrite zlen_app, zlen_take by lia; lia). apply splice_mid. rewrite zlen_drop; lia. }
    rewrite S1. set (g' := ztake (9 * Z.of_nat i) cg). assert (Hg' : zlen g' = 9 * Z.of_nat i) by (apply zlen_take; lia). set (hd := putH2FrameHeader H2FrameContinuation _ id (zlen chunk)).
    assert (S2 : splice ((A ++ ztake (9 * k) cg) ++ chunk ++ C) (zlen pre + k * (9 + M)) hd = (A ++ g') ++ hd ++ chunk ++ C).
    { assert (Hsp : ztake (9 * k) cg = g' ++ ztake 9 (zdrop (9 * Z.of_nat i) cg)) by (unfold g', ztake, zdrop; replace (Z.to_nat (9 * k)) with (Z.to_nat (9 * Z.of_nat i) + Z.to_nat 9)%nat by lia; by rewrite <- take_take_drop).
      rewrite Hsp. rewrite (app_assoc A), <- (app_assoc (A ++ g')). replace (zlen pre + k * (9 + M)) with (zlen (A ++ g')) by (rewrite zlen_app; lia). apply splice_mid. rewrite zlen_take; [done |]. rewrite zlen_drop; lia. }
    rewrite S2. etransitivity; [| exact (IH g' ltac:(lia) Hg')]. fold conts. rewrite !zlen_app, Hh. f_equal. unfold A. rewrite <- !app_assoc. replace (Z.of_nat i + 1) with k by lia. do 4 f_equal. unfold C, conts.
    assert (Hne : zdrop (k * M) block <> []) by (intros E0; pose proof (zlen_drop (k * M) block ltac:(lia)) as Hd; rewrite E0 in Hd; change (zlen (@nil Z)) with 0 in Hd; lia).
    rewrite (continuations_step id M (zdrop (k * M) block)) by done. rewrite encodeFrames_cons, F4. fold chunk. unfold encodeFrame. cbn [f_type f_flags f_id f_payload]. rewrite <- app_assoc. f_equal. unfold hd. f_equal.
    rewrite zlen_drop by lia. destruct (k =? N - 1) eqn:Ek, (zlen block - k * M <=? M) eqn:El; try done; nia.
Qed.

(** The header block of [dst] is split into its frames. *)
Lemma finish_frames pre grown flags id block M : 0 < M -> 0 <= id < 2 ^ 31 -> zlen block < 2 ^ 24 -> zlen block * h2FrameHeaderLen <= zlen grown ->
  finishH2HeadersFrame (appendH2Frame pre H2FrameHeaders flags id [] ++ block) grown (zlen pre) M = pre ++ encodeFrames (headersFrames flags id M block).
Proof.
  intros HM Hid HL Hg. unfold finishH2HeadersFrame, headersFrames. set (hdr := putH2FrameHeader H2FrameHeaders flags id 0). assert (Hd : appendH2Frame pre H2FrameHeaders flags id [] ++ block = pre ++ hdr ++ block) by (unfold appendH2Frame; rewrite app_nil_r, <- app_assoc; done).
  assert (Hh : zlen hdr = 9) by done. rewrite Hd. rewrite !zlen_app, Hh. unfold h2FrameHeaderLen in *. replace (zlen pre + (9 + zlen block) - zlen pre - 9) with (zlen block) by lia. destruct (M <? zlen block) eqn:E.
  - unfold fragmentH2HeadersFrame. rewrite !zlen_app, Hh. unfold h2FrameHeaderLen. replace (zlen pre + (9 + zlen block) - (zlen pre + 9)) with (zlen block) by lia. set (N := (zlen block + M - 1) / M).
    pose proof (Z.mul_div_le (zlen block + M - 1) M HM) as Hlo. pose proof (Z.mod_pos_bound (zlen block + M - 1) M HM) as Hm. pose proof (Z.div_mod (zlen block + M - 1) M ltac:(lia)) as Hdm. fold N in Hlo, Hdm. assert (HN : 1 < N <= zlen block) by nia.
    assert (Hid' : be_val (zslice (pre ++ hdr ++ block) (zlen pre + 5) (zlen pre + 9)) = id).
    { assert (Hs : zslice (pre ++ hdr ++ block) (zlen pre + 5) (zlen pre + 9) = zslice (hdr ++ block) 5 9) by (unfold zslice; rewrite <- zdrop_zdrop by (try lia; apply zlen_nonneg); rewrite zdrop_app_exact; f_equal; lia).
      rewrite Hs. change (zslice (hdr ++ block) 5 9) with (be_bytes 4 id). rewrite be_val_bytes. apply Z.mod_small. change (2 ^ (8 * Z.of_nat 4)) with (2 ^ 32). lia. }
    assert (Hfl : znth (pre ++ hdr ++ block) (zlen pre + 4) = flags).
    { unfold znth. rewrite app_nth2 by (unfold zlen; lia). replace (Z.to_nat (zlen pre + 4) - length pre)%nat with 4%nat by (unfold zlen; lia). done. }
    rewrite Hid', Hfl. set (g := ztake ((N - 1) * 9) grown). assert (Hzg : zlen g = 9 * Z.of_nat (Z.to_nat (N - 1))) by (unfold g; rewrite zlen_take; nia).
    pose proof (fragmentLoop_spec pre hdr block M N id HM Hh ltac:(lia) eq_refl (Z.to_nat (N - 1)) g ltac:(lia) Hzg) as Hloop. cbv zeta in Hloop. replace (Z.of_nat (Z.to_nat (N - 1)) + 1) with N in Hloop by lia.
    assert (Htk : ztake (N * M) block = block) by (unfold ztake; apply take_ge; unfold zlen in *; nia). rewrite Htk, (zdrop_all (N * M) block) in Hloop by nia. change (encodeFrames (continuations (length (@nil Z)) id M [])) with (@nil Z) in Hloop. rewrite app_nil_r in Hloop.
    rewrite !zlen_app, Hh in Hloop. replace ((pre ++ hdr ++ block) ++ g) with (pre ++ hdr ++ block ++ g) by (by rewrite <- !app_assoc). rewrite Hloop. rewrite splice_mid by done. f_equal. rewrite encodeFrames_cons. unfold encodeFrame at 1. cbn [f_type f_flags f_id f_payload]. rewrite zlen_take by lia. rewrite <- app_assoc. do 2 f_equal.
    f_equal. apply continuations_fuel; [done | done |]. unfold zdrop. rewrite length_drop. lia.
  - rewrite <- Hd. pose proof (put_length pre H2FrameHeaders flags id [] block) as H. rewrite Z.add_0_l in H. rewrite H. cbn. by rewrite app_nil_r.
Qed.

Lemma continuations_facts fuel id M rest : 0 < M -> (length rest <= fuel)%nat -> concat (map f_payload (continuations fuel id M rest)) = rest /\
  Forall (fun f => f_type f = H2FrameContinuation /\ f_id f = id /\ 0 < zlen (f_payload f) <= M) (continuations fuel id M rest).
Proof.
  intros HM. revert rest. induction fuel as [| fuel IH]; intros rest Hf; cbn [continuations]; [destruct rest; [done | cbn in Hf; lia] |].
  destruct (zlen rest =? 0) eqn:E; [destruct rest; [done | rewrite zlen_cons in E; pose proof (zlen_nonneg rest); lia] |]. destruct (IH (zdrop M rest)) as [I1 I2]; [unfold zdrop, zlen in *; rewrite length_drop; lia |].
  split; [cbn; by rewrite I1, ztake_zdrop |]. constructor; [| done]. split; [done |]. split; [done |]. cbn. unfold zlen, ztake in *. rewrite length_take. lia.
Qed.

Lemma continuations_end fuel id M rest : 0 < M -> (length rest <= fuel)%nat -> rest <> [] -> exists fs f, continuations fuel id M rest = fs ++ [f] /\ f_flags f = H2FlagEndHeaders /\ Forall (fun f => f_flags f = 0) fs.
Proof.
  intros HM. revert rest. induction fuel as [| fuel IH]; intros rest Hf Hne; cbn [continuations]; [destruct rest; [done | cbn in Hf; lia] |].
  destruct (zlen rest =? 0) eqn:E; [destruct rest; [done | rewrite zlen_cons in E; pose proof (zlen_nonneg rest); lia] |]. destruct (zlen rest <=? M) eqn:El.
  - exists [], (mkH2 H2FrameContinuation H2FlagEndHeaders id (ztake M rest)). rewrite zdrop_all by lia. split; [by destruct fuel | done].
  - destruct (IH (zdrop M rest)) as (fs & f & -> & F1 & F2); [unfold zdrop, zlen in *; rewrite length_drop; lia | intros E0; pose proof (zlen_drop M rest ltac:(lia)) as Hd; rewrite E0 in Hd; change (zlen (@nil Z)) with 0 in Hd; lia |].
    eexists (_ :: fs), f. split; [done |]. split; [done |]. by constructor.
Qed.

(** Frames are read back as they were written: after any bytes, every
    writer appends the encoding of one frame, and the reader returns exactly
    that frame whatever follows, for types and flags of a byte, stream ids of 31
    bits and payloads of 24-bit length; settings come back entry by entry. *)
Theorem h2_frame_roundtrip (dst rest : bytes) (f : H2Frame) (settings : list (Z * Z)) (id inc code : Z) (data : bytes) :
  frame_wf f -> 0 <= id < 2 ^ 31 -> zlen data = 8 -> Z.of_nat (length settings) < 2 ^ 20 ->
  H2ReadFrame (zdrop (zlen dst) (appendH2Frame dst (f_type f) (f_flags f) (f_id f) (f_payload f)) ++ rest) = inl f /\
  H2ReadFrame (zdrop (zlen dst) (H2WriteSettings dst settings) ++ rest) = inl (mkH2 H2FrameSettings 0 0 (concat (map settingEntry settings))) /\
  H2ReadFrame (zdrop (zlen dst) (appendH2WindowUpdateFrame dst id inc) ++ rest) = inl (windowUpdateFrame id inc) /\
  H2ReadFrame (zdrop (zlen dst) (appendH2RSTStreamFrame dst id code) ++ rest) = inl (rstFrame id code) /\
  H2ReadFrame (zdrop (zlen dst) (appendH2GoAwayFrame dst id code) ++ rest) = inl (goAwayFrame id code) /\
  H2ReadFrame (zdrop (zlen dst) (appendH2PingFrame dst true data) ++ rest) = inl (pingFrame true data) /\
  H2ReadFrame (zdrop (zlen dst) (appendH2SettingsAckFrame dst) ++ rest) = inl settingsAckFrame.
Proof.
  intros Hf Hid Hd Hs. assert (Hr : forall g, frame_wf g -> H2ReadFrame (zdrop (zlen dst) (dst ++ encodeFrame g) ++ rest) = inl g) by (intros g Hg; rewrite zdrop_app_exact; by apply read_encode).
  rewrite H2WriteSettings_frame. split_and!.
  - by apply Hr.
  - apply Hr. apply mkFrameWf; cbn [f_type f_flags f_id f_payload]; [done | done | lia |]. rewrite zlen_entries. unfold h2SettingEntryLen. lia.
  - apply (Hr (windowUpdateFrame id inc)). by apply mkFrameWf.
  - apply (Hr (rstFrame id code)). by apply mkFrameWf.
  - apply (Hr (goAwayFrame id code)). by apply mkFrameWf.
  - apply (Hr (pingFrame true data)). apply mkFrameWf; cbn [pingFrame f_type f_flags f_id f_payload]; [done | done | lia | lia].
  - apply (Hr settingsAckFrame). by apply mkFrameWf.
Qed.

Lemma h2_frame_roundtrip_witness : H2ReadFrame (zdrop 2 (appendH2Frame [7; 7] H2FrameHeaders H2FlagEndHeaders 5 [1; 2; 3]) ++ [9]) = inl (mkH2 H2FrameHeaders H2FlagEndHeaders 5 [1; 2; 3]).
Proof.
  assert (Hf : frame_wf (mkH2 H2FrameHeaders H2FlagEndHeaders 5 [1; 2; 3])) by (by apply mkFrameWf).
  destruct (h2_frame_roundtrip [7; 7] [9] (mkH2 H2FrameHeaders H2FlagEndHeaders 5 [1; 2; 3]) [(H2SettingMaxFrameSize, 16384)] 1 10 2 [1; 2; 3; 4; 5; 6; 7; 8] Hf ltac:(lia) eq_refl ltac:(done)) as (H & _). exact H.
Defined.

(** A header block of any length becomes frames in place: what the split
    leaves behind, moving the chunks from the last to the first over the bytes
    the buffer grew by, whatever those were, is one HEADERS frame when the block
    fits, and otherwise a HEADERS frame without END_HEADERS and CONTINUATION
    frames of which only the last has it. The payloads are the block, in order,
    and none is longer than the limit. *)
Theorem h2_header_block_split (pre grown block : bytes) (flags id maxFrame : Z) : 0 < maxFrame -> 0 <= id < 2 ^ 31 -> zlen block < 2 ^ 24 -> zlen block * h2FrameHeaderLen <= zlen grown ->
  exists first rest, finishH2HeadersFrame (appendH2Frame pre H2FrameHeaders flags id [] ++ block) grown (zlen pre) maxFrame = pre ++ encodeFrames (first :: rest) /\
    concat (map f_payload (first :: rest)) = block /\ Forall (fun f => f_id f = id /\ zlen (f_payload f) <= maxFrame) (first :: rest) /\ f_type first = H2FrameHeaders /\
    if maxFrame <? zlen block
    then f_flags first = Z.land flags (Z.lnot H2FlagEndHeaders) /\ exists mid last, rest = mid ++ [last] /\ Forall (fun f => f_type f = H2FrameContinuation) rest /\ Forall (fun f => f_flags f = 0) mid /\ f_flags last = H2FlagEndHeaders
    else rest = [] /\ f_flags first = flags.
Proof.
  intros HM Hid HL Hg. rewrite finish_frames by done. unfold headersFrames. destruct (maxFrame <? zlen block) eqn:E.
  - destruct (continuations_facts (length block) id maxFrame (zdrop maxFrame block) HM) as [C1 C2]; [unfold zdrop; rewrite length_drop; lia |].
    destruct (continuations_end (length block) id maxFrame (zdrop maxFrame block) HM) as (mid & last & C3 & C4 & C5); [unfold zdrop; rewrite length_drop; lia | intros E0; pose proof (zlen_drop maxFrame block ltac:(lia)) as Hd; rewrite E0 in Hd; change (zlen (@nil Z)) with 0 in Hd; lia |].
    eexists _, _. split; [done |]. split; [cbn [map concat f_payload]; by rewrite C1, ztake_zdrop |]. split; [constructor; [split; [done |]; cbn; rewrite zlen_take; lia | eapply Forall_impl; [exact C2 |]; cbn; intros f (_ & F1 & F2); split; [done | lia]] |].
    split; [done |]. split; [done |]. exists mid, last. split; [done |]. split; [eapply Forall_impl; [exact C2 |]; cbn; by intros f (F1 & _) | done].
  - eexists _, []. split; [done |]. split; [cbn; by rewrite app_nil_r |]. split; [by constructor; [split; [done | cbn; lia] |] | done].
Qed.

Lemma h2_header_block_split_witness : finishH2HeadersFrame (appendH2Frame [] H2FrameHeaders 5 3 [] ++ [1; 2; 3; 4; 5]) (repeat 255 60) 0 2 =
  encodeFrames [mkH2 H2FrameHeaders 1 3 [1; 2]; mkH2 H2FrameContinuation 0 3 [3; 4]; mkH2 H2FrameContinuation 4 3 [5]] /\
  exists first rest, finishH2HeadersFrame (appendH2Frame [] H2FrameHeaders 5 3 [] ++ [1; 2; 3; 4; 5]) (repeat 255 60) 0 2 = encodeFrames (first :: rest) /\ concat (map f_payload (first :: rest)) = [1; 2; 3; 4; 5].
Proof.
  split; [by vm_compute |]. destruct (h2_header_block_split [] (repeat 255 60) [1; 2; 3; 4; 5] 5 3 2 ltac:(lia) ltac:(lia) ltac:(done) ltac:(done)) as (first & rest & H1 & H2 & _). by exists first, rest.
Defined.
