(* ===== verification/H2Conn.v ===== *)
(** An HTTP/2 connection of the event loop (src/core/epoll_h2_linux_amd64.go,
    epoll_h2_body_linux_amd64.go, epoll_h2_stream_linux_amd64.go,
    epoll_h2_direct_linux_amd64.go, h2_shared.go, h2_stream.go): frames, streams,
    both directions of flow control, request bodies, responses that are buffered,
    streamed or sent directly, and the limits. Without TLS; what is written is
    kept as the list of its frames. *)
From stdpp Require Import base list numbers list_numbers gmap.
From Stdlib Require Import ZArith Lia ZifyBool.
From S2P Require Import Prelude BodyBudget H2Frame.

Open Scope list_scope.
Open Scope Z_scope.

Definition h2MaxResetsPerWindow : Z := 200.
Definition h2ResetWindowNanos : Z := 1000000000.
Definition h2MaxCtrlPerWindow : Z := 5000.
Definition h2MaxWindowSize : Z := 2 ^ 31 - 1.
Definition h2GoAwayMinPayload : Z := 8.
Definition h2MaxRequestFields : Z := 128.
Definition h2ParkedBytesHardFactor : Z := 8.
Definition h2DirectSealMinBody : Z := H2DefaultMaxFrameSize.
Definition h2StreamPendingCap : Z := 256 * 2 ^ 10.
Definition h2StreamSocketHighMark : Z := 256 * 2 ^ 10.
Definition h2DirectMaxFrames : Z := 64.
Definition h2DirectSendHighMark : Z := 2 ^ 20.
Definition h2StatusHeaderListTooLarge : Z := 431.
Definition bodyStreamAckThreshold : Z := 32 * 2 ^ 10.
Definition StreamOpen : Z := 1.
Definition StreamHalfClosed : Z := 2.

(** ** Data *)

Abbreviation field := (bytes * bytes)%type.

(** The request of a stream and what its head declares; [q_declared] is the
    content-length, -1 without one. *)
Record h2Request := mkRequest { q_method : bytes; q_path : bytes; q_headers : list field; q_declared : Z; q_protocolSet : bool; q_webSocket : bool }.

(** A response as far as it is transmitted. *)
Record h2Response := mkResponse { r_status : Z; r_contentType : bytes; r_headers : list field; r_body : bytes }.

(** Where a stream is: in [st.streams], in the list [st.busy] while its handler
    runs, in [st.sending], or held by its stream writer alone. *)
Inductive place := Mapped | Busy | Sending | Draining.
#[export] Instance place_dec : EqDecision place.
Proof. solve_decision. Defined.

(** [H2Stream]. *)
Record H2Stream := mkStream {
  s_place : place;
  s_State : Z;
  s_Window : Z;
  s_RecvWindow : Z;
  s_req : h2Request;
  s_Body : bytes;
  s_bodyAccounted : Z;
  s_Trailers : list field;
  s_resp : option h2Response;
  s_respOff : Z;
  s_respHeadersSent : bool;
  s_stallBytes : Z;
  s_parkedBytes : Z;
  s_abandoned : bool;
  s_abandonCounted : bool }.

Definition set_place (s : H2Stream) (p : place) : H2Stream :=
  mkStream p (s_State s) (s_Window s) (s_RecvWindow s) (s_req s) (s_Body s) (s_bodyAccounted s) (s_Trailers s) (s_resp s) (s_respOff s) (s_respHeadersSent s) (s_stallBytes s) (s_parkedBytes s) (s_abandoned s) (s_abandonCounted s).
Definition set_State (s : H2Stream) (x : Z) : H2Stream :=
  mkStream (s_place s) x (s_Window s) (s_RecvWindow s) (s_req s) (s_Body s) (s_bodyAccounted s) (s_Trailers s) (s_resp s) (s_respOff s) (s_respHeadersSent s) (s_stallBytes s) (s_parkedBytes s) (s_abandoned s) (s_abandonCounted s).
Definition set_Window (s : H2Stream) (x : Z) : H2Stream :=
  mkStream (s_place s) (s_State s) x (s_RecvWindow s) (s_req s) (s_Body s) (s_bodyAccounted s) (s_Trailers s) (s_resp s) (s_respOff s) (s_respHeadersSent s) (s_stallBytes s) (s_parkedBytes s) (s_abandoned s) (s_abandonCounted s).
Definition set_RecvWindow (s : H2Stream) (x : Z) : H2Stream :=
  mkStream (s_place s) (s_State s) (s_Window s) x (s_req s) (s_Body s) (s_bodyAccounted s) (s_Trailers s) (s_resp s) (s_respOff s) (s_respHeadersSent s) (s_stallBytes s) (s_parkedBytes s) (s_abandoned s) (s_abandonCounted s).
Definition set_Body (s : H2Stream) (b : bytes) (n : Z) : H2Stream :=
  mkStream (s_place s) (s_State s) (s_Window s) (s_RecvWindow s) (s_req s) b n (s_Trailers s) (s_resp s) (s_respOff s) (s_respHeadersSent s) (s_stallBytes s) (s_parkedBytes s) (s_abandoned s) (s_abandonCounted s).
Definition set_Trailers (s : H2Stream) (t : list field) : H2Stream :=
  mkStream (s_place s) (s_State s) (s_Window s) (s_RecvWindow s) (s_req s) (s_Body s) (s_bodyAccounted s) t (s_resp s) (s_respOff s) (s_respHeadersSent s) (s_stallBytes s) (s_parkedBytes s) (s_abandoned s) (s_abandonCounted s).
Definition set_resp (s : H2Stream) (r : option h2Response) (off : Z) (sent : bool) : H2Stream :=
  mkStream (s_place s) (s_State s) (s_Window s) (s_RecvWindow s) (s_req s) (s_Body s) (s_bodyAccounted s) (s_Trailers s) r off sent (s_stallBytes s) (s_parkedBytes s) (s_abandoned s) (s_abandonCounted s).
Definition set_parked (s : H2Stream) (stall parked : Z) : H2Stream :=
  mkStream (s_place s) (s_State s) (s_Window s) (s_RecvWindow s) (s_req s) (s_Body s) (s_bodyAccounted s) (s_Trailers s) (s_resp s) (s_respOff s) (s_respHeadersSent s) stall parked (s_abandoned s) (s_abandonCounted s).
Definition set_abandoned (s : H2Stream) (a counted : bool) : H2Stream :=
  mkStream (s_place s) (s_State s) (s_Window s) (s_RecvWindow s) (s_req s) (s_Body s) (s_bodyAccounted s) (s_Trailers s) (s_resp s) (s_respOff s) (s_respHeadersSent s) (s_stallBytes s) (s_parkedBytes s) a counted.

(** [BodyReader]: the buffered bytes not read yet, the bytes read and not yet
    acknowledged. *)
Inductive bodyErr := errTooLarge | errAborted | errChunked.
Record BodyReader := mkReader { b_buf : bytes; b_eof : bool; b_err : option bodyErr; b_closed : bool; b_unacked : Z; b_ackQueued : bool; b_received : Z; b_trailers : list field }.

(** [h2BodyIn], with its reader; [i_open] says that the map still holds it. *)
Record h2BodyIn := mkBodyIn { i_open : bool; i_reader : BodyReader; i_recvWindow : Z; i_received : Z; i_declared : Z; i_tooLarge : bool; i_tunnel : bool }.

(** [epollH2StreamWriter]: [w_header] is [header] once [headerReady], [w_pending]
    the bytes from [pendingOff] on. *)
Record streamWriter := mkWriter {
  w_header : option bytes;
  w_pending : bytes;
  w_headersOut : bool;
  w_ended : bool;
  w_finished : bool;
  w_handlerDone : bool;
  w_registered : bool;
  w_endedEarly : bool;
  w_pumpQueued : bool;
  w_sendRST : bool;
  w_err : bool }.

Definition set_w_flags (w : streamWriter) (ended finished handlerDone registered endedEarly : bool) : streamWriter :=
  mkWriter (w_header w) (w_pending w) (w_headersOut w) ended finished handlerDone registered endedEarly (w_pumpQueued w) (w_sendRST w) (w_err w).
Definition set_w_data (w : streamWriter) (header : option bytes) (pending : bytes) (headersOut finished pumpQueued : bool) : streamWriter :=
  mkWriter header pending headersOut (w_ended w) finished (w_handlerDone w) (w_registered w) (w_endedEarly w) pumpQueued (w_sendRST w) (w_err w).

(** ** The reader of a streamed body *)

Definition claimAck (b : BodyReader) (buf : bytes) (closed : bool) (unacked : Z) : bool :=
  if b_ackQueued b || (unacked =? 0) then false
  else if (unacked <? bodyStreamAckThreshold) && (0 <? zlen buf) && negb closed then false
  else true.

(** [Read] with bytes buffered, into a slice of length [n]: what is read, and
    whether an acknowledgement is posted. *)
Definition body_Read (b : BodyReader) (n : Z) : bytes * bool * BodyReader :=
  let p := ztake n (b_buf b) in
  let buf := zdrop n (b_buf b) in
  let unacked := b_unacked b + zlen p in
  let notify := claimAck b buf (b_closed b) unacked in
  (p, notify, mkReader buf (b_eof b) (b_err b) (b_closed b) unacked (b_ackQueued b || notify) (b_received b) (b_trailers b)).

Definition body_Close (b : BodyReader) : bool * BodyReader :=
  if b_closed b then (false, b)
  else
    let unacked := b_unacked b + zlen (b_buf b) in
    let notify := claimAck b [] true unacked in
    (notify, mkReader [] (b_eof b) (b_err b) true unacked (b_ackQueued b || notify) (b_received b) (b_trailers b)).

Definition body_push (b : BodyReader) (data : bytes) : BodyReader :=
  if b_closed b then mkReader (b_buf b) (b_eof b) (b_err b) true (b_unacked b + zlen data) (b_ackQueued b) (b_received b + zlen data) (b_trailers b)
  else mkReader (b_buf b ++ data) (b_eof b) (b_err b) false (b_unacked b) (b_ackQueued b) (b_received b + zlen data) (b_trailers b).

Definition body_finish (b : BodyReader) (err : option bodyErr) : BodyReader :=
  if negb (b_eof b) && (match b_err b with None => true | _ => false end) then
    match err with
    | Some e => mkReader (b_buf b) (b_eof b) (Some e) (b_closed b) (b_unacked b) (b_ackQueued b) (b_received b) (b_trailers b)
    | None => mkReader (b_buf b) true (b_err b) (b_closed b) (b_unacked b) (b_ackQueued b) (b_received b) (b_trailers b)
    end
  else b.

Definition body_finishWithTrailers (b : BodyReader) (trailers : list field) : BodyReader :=
  if negb (b_eof b) && (match b_err b with None => true | _ => false end)
  then mkReader (b_buf b) true (b_err b) (b_closed b) (b_unacked b) (b_ackQueued b) (b_received b) trailers
  else b.

Definition body_takeAck (b : BodyReader) : Z * BodyReader :=
  (b_unacked b, mkReader (b_buf b) (b_eof b) (b_err b) (b_closed b) 0 false (b_received b) (b_trailers b)).

(** ** What the connection runs in *)

Inductive decodeErr := errMalformed | errHeaderListTooLarge | errCompression.
(** What admission and the synchronous parts of dispatch decide: the address is
    over its limit, the response is known at once, or a handler runs. *)
Inductive admission := Blocked | Answered (r : h2Response) | Handled.

(** The header codecs, the clock and the other components, and the settings. *)
Record h2Env := mkH2Env {
  Dec : Type;
  DecodeRequest : Dec -> bytes -> (list field * h2Request * bool + decodeErr) * Dec;
  DecodeInto : Dec -> bytes -> option (list field) * Dec;
  MemoizedRootRequest : Dec -> bytes -> bool;
  h2TrailerFields : list field -> option (list field);
  maxHeaderListSize : Z;
  Enc : Type;
  setPeerLimit : Enc -> Z -> Enc;
  pendingUpdate : Enc -> bool;
  encodeHead : Enc -> h2Response -> bytes * Enc;
  beginBlock : Enc -> bytes * Enc;
  UnixNano : nat -> Z;
  mapOrder : nat -> list Z -> list Z;
  requestSlot : nat -> bool;
  socketAccepts : nat -> Z -> Z;
  admitRequest : h2Request -> bytes -> list field -> admission;
  streamsH2Body : h2Request -> bool;
  requestBodyTooLarge : Z -> bool;
  bodyTooLarge : Z -> bool;
  rootFast : option (bytes * bytes);
  h2MaxFrameSize : Z;
  h2MaxStreams : Z;
  h2InitialWindow : Z;
  maxPendingWrite : Z;
  MaxWriteSize : Z;
  budgetCfg : budgetConfig }.

(** ** The connection *)

Record windows := mkWindows { initialWindowSize : Z; maxFrameSize : Z; connWindow : Z; recvConnWindow : Z; pendingConnWindow : Z }.
Record limiter := mkLimiter { rstCount : Z; rstWindow : Z; ctrlCount : Z; ctrlWindow : Z }.
Record header_state := mkHeaderState { expectContinuation : Z; headerEndStream : bool; headerAccum : bytes }.
Record counts := mkCounts { c_inFlight : Z; h2EndedInFlight : Z; h2Draining : Z; sendingBytes : Z; parkedBytes : Z }.
Record away := mkAway { peerGoingAway : bool; h2GoingAway : bool; h2PumpDue : bool; outArmed : bool; closeAfter : bool }.

(** [epollConn] with its [tlsWorkerH2State]. [h_out] are the frames written so
    far, [h_sent] how many of their bytes the socket took, [h_calls] the requests
    given to handlers, [h_tick] counts what is asked of the environment. *)
Record h2conn (E : h2Env) := mkH2Conn {
  h_dec : Dec E;
  h_enc : Enc E;
  h_win : windows;
  h_last : Z;
  h_high : Z;
  h_head : header_state;
  h_lim : limiter;
  h_objs : gmap Z H2Stream;
  h_bodies : gmap Z h2BodyIn;
  h_writers : gmap Z streamWriter;
  h_cnt : counts;
  h_away : away;
  h_budget : budget;
  h_out : list H2Frame;
  h_sent : Z;
  h_calls : list (Z * h2Request * bytes * list field);
  h_tick : nat }.
Arguments mkH2Conn {E}. Arguments h_dec {E}. Arguments h_enc {E}. Arguments h_win {E}. Arguments h_last {E}. Arguments h_high {E}. Arguments h_head {E}. Arguments h_lim {E}.
Arguments h_objs {E}. Arguments h_bodies {E}. Arguments h_writers {E}. Arguments h_cnt {E}. Arguments h_away {E}. Arguments h_budget {E}. Arguments h_out {E}. Arguments h_sent {E}.
Arguments h_calls {E}. Arguments h_tick {E}.

Section conn.
  Context {E : h2Env}.
  Implicit Types (c : h2conn E) (s : H2Stream) (id : Z).

Definition with_dec c x := mkH2Conn x (h_enc c) (h_win c) (h_last c) (h_high c) (h_head c) (h_lim c) (h_objs c) (h_bodies c) (h_writers c) (h_cnt c) (h_away c) (h_budget c) (h_out c) (h_sent c) (h_calls c) (h_tick c).
Definition with_enc c x := mkH2Conn (h_dec c) x (h_win c) (h_last c) (h_high c) (h_head c) (h_lim c) (h_objs c) (h_bodies c) (h_writers c) (h_cnt c) (h_away c) (h_budget c) (h_out c) (h_sent c) (h_calls c) (h_tick c).
Definition with_win c x := mkH2Conn (h_dec c) (h_enc c) x (h_last c) (h_high c) (h_head c) (h_lim c) (h_objs c) (h_bodies c) (h_writers c) (h_cnt c) (h_away c) (h_budget c) (h_out c) (h_sent c) (h_calls c) (h_tick c).
Definition with_ids c last high := mkH2Conn (h_dec c) (h_enc c) (h_win c) last high (h_head c) (h_lim c) (h_objs c) (h_bodies c) (h_writers c) (h_cnt c) (h_away c) (h_budget c) (h_out c) (h_sent c) (h_calls c) (h_tick c).
Definition with_head c x := mkH2Conn (h_dec c) (h_enc c) (h_win c) (h_last c) (h_high c) x (h_lim c) (h_objs c) (h_bodies c) (h_writers c) (h_cnt c) (h_away c) (h_budget c) (h_out c) (h_sent c) (h_calls c) (h_tick c).
Definition with_lim c x := mkH2Conn (h_dec c) (h_enc c) (h_win c) (h_last c) (h_high c) (h_head c) x (h_objs c) (h_bodies c) (h_writers c) (h_cnt c) (h_away c) (h_budget c) (h_out c) (h_sent c) (h_calls c) (h_tick c).
Definition with_objs c x := mkH2Conn (h_dec c) (h_enc c) (h_win c) (h_last c) (h_high c) (h_head c) (h_lim c) x (h_bodies c) (h_writers c) (h_cnt c) (h_away c) (h_budget c) (h_out c) (h_sent c) (h_calls c) (h_tick c).
Definition with_bodies c x := mkH2Conn (h_dec c) (h_enc c) (h_win c) (h_last c) (h_high c) (h_head c) (h_lim c) (h_objs c) x (h_writers c) (h_cnt c) (h_away c) (h_budget c) (h_out c) (h_sent c) (h_calls c) (h_tick c).
Definition with_writers c x := mkH2Conn (h_dec c) (h_enc c) (h_win c) (h_last c) (h_high c) (h_head c) (h_lim c) (h_objs c) (h_bodies c) x (h_cnt c) (h_away c) (h_budget c) (h_out c) (h_sent c) (h_calls c) (h_tick c).
Definition with_cnt c x := mkH2Conn (h_dec c) (h_enc c) (h_win c) (h_last c) (h_high c) (h_head c) (h_lim c) (h_objs c) (h_bodies c) (h_writers c) x (h_away c) (h_budget c) (h_out c) (h_sent c) (h_calls c) (h_tick c).
Definition with_away c x := mkH2Conn (h_dec c) (h_enc c) (h_win c) (h_last c) (h_high c) (h_head c) (h_lim c) (h_objs c) (h_bodies c) (h_writers c) (h_cnt c) x (h_budget c) (h_out c) (h_sent c) (h_calls c) (h_tick c).
Definition with_budget c x := mkH2Conn (h_dec c) (h_enc c) (h_win c) (h_last c) (h_high c) (h_head c) (h_lim c) (h_objs c) (h_bodies c) (h_writers c) (h_cnt c) (h_away c) x (h_out c) (h_sent c) (h_calls c) (h_tick c).
Definition with_out c x := mkH2Conn (h_dec c) (h_enc c) (h_win c) (h_last c) (h_high c) (h_head c) (h_lim c) (h_objs c) (h_bodies c) (h_writers c) (h_cnt c) (h_away c) (h_budget c) x (h_sent c) (h_calls c) (h_tick c).
Definition with_sent c x := mkH2Conn (h_dec c) (h_enc c) (h_win c) (h_last c) (h_high c) (h_head c) (h_lim c) (h_objs c) (h_bodies c) (h_writers c) (h_cnt c) (h_away c) (h_budget c) (h_out c) x (h_calls c) (h_tick c).
Definition with_call c x := mkH2Conn (h_dec c) (h_enc c) (h_win c) (h_last c) (h_high c) (h_head c) (h_lim c) (h_objs c) (h_bodies c) (h_writers c) (h_cnt c) (h_away c) (h_budget c) (h_out c) (h_sent c) (h_calls c ++ [x]) (h_tick c).
Definition tick c := mkH2Conn (h_dec c) (h_enc c) (h_win c) (h_last c) (h_high c) (h_head c) (h_lim c) (h_objs c) (h_bodies c) (h_writers c) (h_cnt c) (h_away c) (h_budget c) (h_out c) (h_sent c) (h_calls c) (S (h_tick c)).

(** ** Output and lookups *)

Definition emit c (fs : list H2Frame) : h2conn E := with_out c (h_out c ++ fs).
Definition goAway c (code : Z) : h2conn E := emit c [goAwayFrame (h_last c) code].

Definition frameSize (f : H2Frame) : Z := h2FrameHeaderLen + zlen (f_payload f).
Definition framesSize (fs : list H2Frame) : Z := zlen (encodeFrames fs).
Definition h2OutputBacklog c : Z := framesSize (h_out c) - h_sent c.

(** The stream a map or list of streams holds for an id. *)
Definition held c (p : place) id : option H2Stream :=
  match h_objs c !! id with Some s => if bool_decide (s_place s = p) then Some s else None | None => None end.
Definition isHeld c (p : place) id : bool := match held c p id with Some _ => true | None => false end.
Definition heldIds c (p : place) : list Z := (map_to_list (filter (fun kv => s_place kv.2 = p) (h_objs c))).*1.
Definition bodyIn c id : option h2BodyIn := match h_bodies c !! id with Some i => if i_open i then Some i else None | None => None end.
Definition bodyIsOpen c id : bool := match bodyIn c id with Some _ => true | None => false end.
Definition h2Streaming c id : option streamWriter := match h_writers c !! id with Some w => if w_registered w then Some w else None | None => None end.
Definition isStreaming c id : bool := match h2Streaming c id with Some _ => true | None => false end.
Definition streamingIds c : list Z := (map_to_list (filter (fun kv => w_registered kv.2 = true) (h_writers c))).*1.
Definition openBodies c : list Z := (map_to_list (filter (fun kv => i_open kv.2 = true) (h_bodies c))).*1.
Definition count (l : list Z) : Z := Z.of_nat (length l).

Definition put c id s : h2conn E := with_objs c (<[id := s]> (h_objs c)).

(** [stream.Reset] before the pool takes it: the reserved bytes are given back. *)
Definition resetStream c id s : h2conn E :=
  let b := if 0 <? s_bodyAccounted s then releaseConnBodyBytes (budgetCfg E) (h_budget c) (s_bodyAccounted s) else h_budget c in
  with_budget (with_objs c (delete id (h_objs c))) b.

Definition epollReleaseH2Stream c id : h2conn E := match held c Mapped id with Some s => resetStream c id s | None => c end.

Definition releaseSending c id s : h2conn E :=
  let n := h_cnt c in
  resetStream (with_cnt c (mkCounts (c_inFlight n) (h2EndedInFlight n) (h2Draining n) (sendingBytes n - s_stallBytes s) (parkedBytes n - s_parkedBytes s))) id s.

(** ** Limits *)

Definition countReset c : bool * h2conn E :=
  let now := UnixNano E (h_tick c) in
  let l := h_lim c in
  let '(count, window) := if h2ResetWindowNanos <? now - rstWindow l then (0, now) else (rstCount l, rstWindow l) in
  (h2MaxResetsPerWindow <? count + 1, with_lim (tick c) (mkLimiter (count + 1) window (ctrlCount l) (ctrlWindow l))).

Definition countCtrl c : bool * h2conn E :=
  let now := UnixNano E (h_tick c) in
  let l := h_lim c in
  let '(count, window) := if h2ResetWindowNanos <? now - ctrlWindow l then (0, now) else (ctrlCount l, ctrlWindow l) in
  (h2MaxCtrlPerWindow <? count + 1, with_lim (tick c) (mkLimiter (rstCount l) (rstWindow l) (count + 1) window)).

(** Handlers return whether the connection is to be closed. *)
Definition h2ChargeLimiter (r : bool * h2conn E) : bool * h2conn E := let '(tripped, c) := r in (tripped, if tripped then goAway c H2ErrEnhanceYourCalm else c).
Definition closing c (code : Z) : bool * h2conn E := (true, goAway c code).

Definition refuseH2Stream c id (errCode : Z) : bool * h2conn E := h2ChargeLimiter (countReset (emit c [rstFrame id errCode])).
Definition refuseH2StreamForEndedHandlers c id : bool * h2conn E := h2ChargeLimiter (countCtrl (emit c [rstFrame id H2ErrRefusedStream])).
Definition resetMalformedH2Stream c id : bool * h2conn E := refuseH2Stream c id H2ErrProtocol.

(** ** Sending *)

Definition dataFrameLimit c : Z := if maxFrameSize (h_win c) =? 0 then H2DefaultMaxFrameSize else maxFrameSize (h_win c).
Definition set_connWindow c (x : Z) : h2conn E :=
  let w := h_win c in with_win c (mkWindows (initialWindowSize w) (maxFrameSize w) x (recvConnWindow w) (pendingConnWindow w)).

Definition bodyOf s : bytes := match s_resp s with Some r => r_body r | None => [] end.

Definition h2AppendResponseHead c id : h2conn E :=
  match h_objs c !! id with
  | None => c
  | Some s =>
      match s_resp s with
      | None => c
      | Some r =>
          if s_respHeadersSent s then c
          else
            let '(block, enc) := encodeHead E (h_enc c) r in
            let flags := if zlen (r_body r) =? 0 then Z.lor H2FlagEndHeaders H2FlagEndStream else H2FlagEndHeaders in
            emit (put (with_enc c enc) id (set_resp s (s_resp s) (s_respOff s) true)) (headersFrames flags id (dataFrameLimit c) block)
      end
  end.

Definition h2DataChunk c s (bodyLen frameLimit : Z) : Z * Z :=
  let avail := Z.min (s_Window s) (connWindow (h_win c)) in
  if avail <=? 0 then (0, 0)
  else
    let n := Z.min (bodyLen - s_respOff s) (Z.min avail frameLimit) in
    (n, if s_respOff s + n =? bodyLen then H2FlagEndStream else 0).

Definition h2ConsumeData c id s (n : Z) : h2conn E :=
  put (set_connWindow c (connWindow (h_win c) - n)) id (set_Window (set_resp s (s_resp s) (s_respOff s + n) (s_respHeadersSent s)) (s_Window s - n)).

(** The loop of [h2AppendWindowed] with [used] bytes of the budget taken. *)
Fixpoint appendLoop (fuel : nat) c id (frameLimit used budget : Z) : h2conn E :=
  match fuel, h_objs c !! id with
  | S fuel, Some s =>
      let body := bodyOf s in
      if (s_respOff s <? zlen body) && (used <? budget) then
        let '(n, flags) := h2DataChunk c s (zlen body) frameLimit in
        if n <=? 0 then c
        else appendLoop fuel (h2ConsumeData (emit c [dataFrame flags id (zslice body (s_respOff s) (s_respOff s + n))]) id s n) id frameLimit (used + h2FrameHeaderLen + n) budget
      else c
  | _, _ => c
  end.

Definition sendDone c id : bool := match h_objs c !! id with Some s => zlen (bodyOf s) <=? s_respOff s | None => true end.
Definition bodyFuel c id : nat := match h_objs c !! id with Some s => length (bodyOf s) | None => O end.

Definition h2AppendWindowed c id (budget : Z) : bool * h2conn E :=
  let c' := h2AppendResponseHead c id in
  let c' := appendLoop (bodyFuel c' id) c' id (dataFrameLimit c') (framesSize (h_out c') - framesSize (h_out c)) budget in
  (sendDone c' id, c').

(** *** Straight to the socket *)

Definition h2SendsDirect c id (budget : Z) : bool :=
  if outArmed (h_away c) || (budget <? h2DirectSealMinBody) then false
  else match h_objs c !! id with Some s => h2DirectSealMinBody <=? zlen (bodyOf s) - s_respOff s | None => false end.

(** The frames made for one send, with the windows already charged. *)
Fixpoint directLoop (fuel : nat) c id (frameLimit sent budget : Z) (fs : list H2Frame) : h2conn E * list H2Frame :=
  match fuel, h_objs c !! id with
  | S fuel, Some s =>
      let body := bodyOf s in
      if (s_respOff s <? zlen body) && (sent <? budget) && (Z.of_nat (length fs) <? h2DirectMaxFrames) then
        let '(n, flags) := h2DataChunk c s (zlen body) frameLimit in
        if n <=? 0 then (c, fs)
        else directLoop fuel (h2ConsumeData c id s n) id frameLimit (sent + h2FrameHeaderLen + n) budget (fs ++ [dataFrame flags id (zslice body (s_respOff s) (s_respOff s + n))])
      else (c, fs)
  | _, _ => (c, fs)
  end.

(** [h2KeepPartialFrame]: the frames that are out, whole or in part, when the
    socket took [sent] of their bytes. *)
Fixpoint keptFrames (fs : list H2Frame) (sent : Z) : nat :=
  match fs with
  | [] => O
  | f :: fs => if frameSize f <=? sent then S (keptFrames fs (sent - frameSize f)) else 1%nat
  end.

Definition payloadSize (fs : list H2Frame) : Z := foldr (fun f n => zlen (f_payload f) + n) 0 fs.

Definition h2UnconsumeFrames c id (fs : list H2Frame) : h2conn E :=
  let unsent := payloadSize fs in
  match h_objs c !! id with
  | Some s => if unsent =? 0 then c else h2ConsumeData c id s (- unsent)
  | None => c
  end.

Definition h2SendFrames c id (fs : list H2Frame) : h2conn E :=
  let pending := h2OutputBacklog c in
  let sent := socketAccepts E (h_tick c) (pending + framesSize fs) in
  let kept := if sent <? pending then O else keptFrames fs (sent - pending) in
  h2UnconsumeFrames (with_sent (emit (tick c) (take kept fs)) (h_sent c + sent)) id (drop kept fs).

Definition h2SendWindowed c id (budget : Z) : bool * h2conn E :=
  let c := h2AppendResponseHead c id in
  let '(c, fs) := directLoop (bodyFuel c id) c id (dataFrameLimit c) 0 budget [] in
  let c := match fs with [] => c | _ => h2SendFrames c id fs end in
  (sendDone c id, c).

Definition h2EmitWindowed c id : bool * h2conn E :=
  let directBudget := h2DirectSendHighMark - h2OutputBacklog c in
  if h2SendsDirect c id directBudget then h2SendWindowed c id directBudget
  else h2AppendWindowed c id (h2StreamSocketHighMark - h2OutputBacklog c).

Definition emitH2Reset c id (errCode : Z) : h2conn E := emit c [rstFrame id errCode].

Definition h2SettleParked c id : h2conn E :=
  match h_objs c !! id with
  | None => c
  | Some s =>
      let pending := zlen (bodyOf s) - s_respOff s in
      let stall := if (s_Window s <=? 0) || (connWindow (h_win c) <=? 0) then pending else 0 in
      let n := h_cnt c in
      let sendingBytes' := sendingBytes n + (stall - s_stallBytes s) in
      let parkedBytes' := parkedBytes n + (pending - s_parkedBytes s) in
      let s := set_parked s stall pending in
      let c := put (with_cnt c (mkCounts (c_inFlight n) (h2EndedInFlight n) (h2Draining n) sendingBytes' parkedBytes')) id s in
      let windowCapped := (0 <? stall) && (maxPendingWrite E <? sendingBytes') in
      if windowCapped || (maxPendingWrite E * h2ParkedBytesHardFactor <? parkedBytes')
      then releaseSending (emitH2Reset c id H2ErrEnhanceYourCalm) id s
      else c
  end.

Definition h2ResumeStream c id : h2conn E :=
  let '(done, c) := h2EmitWindowed c id in
  if done then match h_objs c !! id with Some s => releaseSending c id s | None => c end
  else h2SettleParked c id.

Definition resumeHeld c id : h2conn E := if isHeld c Sending id then h2ResumeStream c id else c.
Definition h2ResumeSending c id : h2conn E :=
  if negb (id =? 0) then resumeHeld c id
  else fold_left resumeHeld (mapOrder E (h_tick c) (heldIds c Sending)) (tick c).

(** ** Streamed responses *)

Definition set_writer c id (w : streamWriter) : h2conn E := with_writers c (<[id := w]> (h_writers c)).
Definition drop_writer c id : h2conn E := with_writers c (delete id (h_writers c)).
Definition set_ended c (x : Z) : h2conn E := let n := h_cnt c in with_cnt c (mkCounts (c_inFlight n) x (h2Draining n) (sendingBytes n) (parkedBytes n)).
Definition set_draining c (x : Z) : h2conn E := let n := h_cnt c in with_cnt c (mkCounts (c_inFlight n) (h2EndedInFlight n) x (sendingBytes n) (parkedBytes n)).
Definition set_inFlight c (x : Z) : h2conn E := let n := h_cnt c in with_cnt c (mkCounts x (h2EndedInFlight n) (h2Draining n) (sendingBytes n) (parkedBytes n)).
Definition set_pumpDue c : h2conn E := let a := h_away c in with_away c (mkAway (peerGoingAway a) (h2GoingAway a) true (outArmed a) (closeAfter a)).

(** [sw.fail]. *)
Definition writer_fail (w : streamWriter) : streamWriter :=
  mkWriter (w_header w) (w_pending w) (w_headersOut w) (w_ended w) true (w_handlerDone w) (w_registered w) (w_endedEarly w) (w_pumpQueued w) (w_sendRST w) true.

(** DATA frames from the pending bytes while the windows and the backlog allow;
    [used] is what this pump has appended. *)
Fixpoint pumpLoop (fuel : nat) c id (w : streamWriter) (frameLimit used backlog : Z) : h2conn E * streamWriter :=
  match fuel, h_objs c !! id with
  | S fuel, Some s =>
      if (0 <? zlen (w_pending w)) && (backlog + used <? h2StreamSocketHighMark) then
        let avail := Z.min (connWindow (h_win c)) (s_Window s) in
        if avail <=? 0 then (c, w)
        else
          let n := Z.min (zlen (w_pending w)) (Z.min avail frameLimit) in
          let fin := w_ended w && (n =? zlen (w_pending w)) in
          let c := emit c [dataFrame (if fin then H2FlagEndStream else 0) id (ztake n (w_pending w))] in
          let c := put (set_connWindow c (connWindow (h_win c) - n)) id (set_Window s (s_Window s - n)) in
          let w := set_w_data w (w_header w) (zdrop n (w_pending w)) (w_headersOut w) (w_finished w || fin) (w_pumpQueued w) in
          pumpLoop fuel c id w frameLimit (used + h2FrameHeaderLen + n) backlog
      else (c, w)
  | _, _ => (c, w)
  end.

(** [h2PumpFrames] of a writer that holds no file: with one the DATA frames are
    those of FileSend.v. *)
Definition h2PumpFrames c id (w : streamWriter) (backlog : Z) : h2conn E * streamWriter :=
  let w := set_w_data w (w_header w) (w_pending w) (w_headersOut w) (w_finished w) false in
  if w_finished w then (c, w)
  else if w_err w then
    (if w_sendRST w then emit c [rstFrame id H2ErrCancel] else c, set_w_data w (w_header w) (w_pending w) (w_headersOut w) true false)
  else
    (* the header block, then data *)
    let data c w :=
      let frameLimit := if maxFrameSize (h_win c) <=? 0 then H2DefaultMaxFrameSize else maxFrameSize (h_win c) in
      let '(c, w) := pumpLoop (length (w_pending w)) c id w frameLimit 0 backlog in
      if negb (w_finished w) && w_ended w && (zlen (w_pending w) =? 0)
      then (emit c [dataFrame H2FlagEndStream id []], set_w_data w (w_header w) (w_pending w) (w_headersOut w) true (w_pumpQueued w))
      else (c, w) in
    if w_headersOut w then data c w
    else match w_header w with
         | None => (c, w)
         | Some block =>
             let fin := w_ended w && (zlen (w_pending w) =? 0) in
             let flags := if fin then Z.lor H2FlagEndHeaders H2FlagEndStream else H2FlagEndHeaders in
             let '(update, enc) := if pendingUpdate E (h_enc c) then beginBlock E (h_enc c) else ([], h_enc c) in
             let c := emit (with_enc c enc) (headersFrames flags id (dataFrameLimit c) (update ++ block)) in
             let w := set_w_data w (w_header w) (w_pending w) true (w_finished w || fin) (w_pumpQueued w) in
             if fin then (c, w) else data c w
         end.

Definition h2ReleaseStreaming c id : h2conn E :=
  let n := h2Draining (h_cnt c) in
  let c := drop_writer (set_draining c (if 0 <? n then n - 1 else n)) id in
  match h_objs c !! id with Some s => resetStream c id s | None => c end.

Definition h2SettleStream c id (w : streamWriter) : h2conn E :=
  if w_finished w && w_handlerDone w then h2ReleaseStreaming c id
  else if w_finished w && negb (w_endedEarly w)
       then set_ended (set_writer c id (set_w_flags w (w_ended w) (w_finished w) (w_handlerDone w) (w_registered w) true)) (h2EndedInFlight (h_cnt c) + 1)
  else c.

Definition h2PumpSealed c id : h2conn E :=
  match h_writers c !! id with
  | None => c
  | Some w =>
      let '(c, w) := h2PumpFrames c id w (h2OutputBacklog c) in
      h2SettleStream (set_writer c id w) id w
  end.

Definition h2UncountEndedEarly c id (w : streamWriter) : h2conn E :=
  let n := h2EndedInFlight (h_cnt c) in
  let c := if w_endedEarly w && (0 <? n) then set_ended c (n - 1) else c in
  set_writer c id (set_w_flags w (w_ended w) (w_finished w) (w_handlerDone w) (w_registered w) false).

Definition h2FinishStreamed c id (w : streamWriter) : h2conn E :=
  let finished := w_finished w in
  let w := set_w_flags w true finished true (w_registered w) (w_endedEarly w) in
  let c := h2UncountEndedEarly c id w in
  if finished then match h_objs c !! id with Some s => resetStream (drop_writer c id) id s | None => drop_writer c id end
  else
    let c := set_writer c id (set_w_flags w true finished true true false) in
    let c := match h_objs c !! id with Some s => put c id (set_place s Draining) | None => c end in
    h2PumpSealed (set_draining c (h2Draining (h_cnt c) + 1)) id.

Definition h2CancelStreaming c id : bool * h2conn E :=
  match h2Streaming c id with
  | None => (false, c)
  | Some w =>
      let w := writer_fail w in
      if w_handlerDone w then (true, h2ReleaseStreaming (set_writer c id w) id)
      else
        let c := set_writer c id (set_w_flags w (w_ended w) (w_finished w) (w_handlerDone w) false true) in
        (true, if w_endedEarly w then c else set_ended c (h2EndedInFlight (h_cnt c) + 1))
  end.

Definition h2WindowOpened c : h2conn E := match streamingIds c with [] => c | _ => set_pumpDue c end.

(** [h2PumpTask]: a posted pump registers the writer. *)
Definition h2PumpTask c id : h2conn E :=
  match h_writers c !! id with
  | None => c
  | Some w => h2PumpSealed (set_writer c id (set_w_flags w (w_ended w) (w_finished w) (w_handlerDone w) true (w_endedEarly w))) id
  end.

Definition h2Quiescent c : bool :=
  (c_inFlight (h_cnt c) =? 0) && (count (heldIds c Mapped) =? 0) && (count (heldIds c Sending) =? 0) && (count (streamingIds c) =? 0) && (count (openBodies c) =? 0).

Definition h2PumpBuffered c : h2conn E :=
  if negb (count (heldIds c Sending) =? 0) then h2ResumeSending c 0
  else if peerGoingAway (h_away c) && h2Quiescent c
       then let a := h_away c in with_away c (mkAway (peerGoingAway a) (h2GoingAway a) (h2PumpDue a) (outArmed a) true)
  else c.

Definition h2PumpAll c : h2conn E :=
  match streamingIds c with
  | [] => if negb (count (heldIds c Sending) =? 0) || peerGoingAway (h_away c) then h2PumpBuffered c else c
  | ids =>
      let c := fold_left h2PumpSealed (mapOrder E (h_tick c) ids) (tick c) in
      if negb (count (heldIds c Sending) =? 0) then h2ResumeSending c 0 else c
  end.

(** ** Streamed request bodies *)

Definition set_body c id (i : h2BodyIn) : h2conn E := with_bodies c (<[id := i]> (h_bodies c)).

Definition h2EndBodyIn c id (i : h2BodyIn) (err : option bodyErr) : h2conn E :=
  set_body c id (mkBodyIn false (body_finish (i_reader i) err) (i_recvWindow i) (i_received i) (i_declared i) (i_tooLarge i) (i_tunnel i)).

Definition h2AbortBodyIn c id : bool * h2conn E := match bodyIn c id with None => (false, c) | Some i => (true, h2EndBodyIn c id i (Some errAborted)) end.

Definition startH2BodyStream c id s : h2conn E :=
  set_body c id (mkBodyIn true (mkReader [] false None false 0 false 0 []) (s_RecvWindow s) 0 (q_declared (s_req s)) false (q_webSocket (s_req s))).

(** [h2BodyAcked]: what the handler has read is credited to the peer. *)
Definition h2BodyAcked c id : h2conn E :=
  match h_bodies c !! id with
  | None => c
  | Some i =>
      let '(n, reader) := body_takeAck (i_reader i) in
      let c := set_body c id (mkBodyIn (i_open i) reader (i_recvWindow i) (i_received i) (i_declared i) (i_tooLarge i) (i_tunnel i)) in
      if (n =? 0) || negb (i_open i) || i_tooLarge i then c
      else set_body (emit c [windowUpdateFrame id n]) id (mkBodyIn (i_open i) reader (i_recvWindow i + n) (i_received i) (i_declared i) (i_tooLarge i) (i_tunnel i))
  end.

Definition h2CreditConnWindow c (n : Z) : h2conn E :=
  let w := h_win c in
  let pending := u32 (pendingConnWindow w + n) in
  if H2ConnectionWindowSize / 2 <? pending
  then emit (with_win c (mkWindows (initialWindowSize w) (maxFrameSize w) (connWindow w) (recvConnWindow w + pending) 0)) [windowUpdateFrame 0 pending]
  else with_win c (mkWindows (initialWindowSize w) (maxFrameSize w) (connWindow w) (recvConnWindow w) pending).

Definition h2StripPadding (flags : Z) (payload : bytes) : bytes * bool :=
  if Z.land flags H2FlagPadded =? 0 then (payload, true)
  else match payload with
       | [] => ([], false)
       | padLen :: payload => if zlen payload <? padLen then ([], false) else (ztake (zlen payload - padLen) payload, true)
       end.

Definition h2DataCarriesNoBody (flags : Z) (payload : bytes) : bool := zlen (h2StripPadding flags payload).1 =? 0.
Definition h2LengthMismatch (declared received : Z) : bool := (0 <=? declared) && negb (declared =? received).

Definition rejectH2Body c id : bool * h2conn E :=
  let c := epollReleaseH2Stream (emit c [rstFrame id H2ErrProtocol]) id in
  h2ChargeLimiter (countReset (h2AbortBodyIn c id).2).

Definition h2StreamBodyData c id (i : h2BodyIn) (endStream : bool) (frameConsumed : Z) (payload : bytes) : bool * h2conn E :=
  let i := mkBodyIn (i_open i) (i_reader i) (i_recvWindow i - frameConsumed) (i_received i) (i_declared i) (i_tooLarge i) (i_tunnel i) in
  if i_recvWindow i <? 0 then (false, h2EndBodyIn (emit c [rstFrame id H2ErrFlowControl]) id i (Some errAborted))
  else
    let received := i_received i + zlen payload in
    let fresh := negb (i_tooLarge i) && (0 <? zlen payload) in
    if fresh && (0 <=? i_declared i) && (i_declared i <? received)
    then rejectH2Body (set_body c id (mkBodyIn (i_open i) (i_reader i) (i_recvWindow i) received (i_declared i) (i_tooLarge i) (i_tunnel i))) id
    else
      let i :=
        if fresh then
          if negb (i_tunnel i) && bodyTooLarge E received
          then mkBodyIn (i_open i) (body_finish (i_reader i) (Some errTooLarge)) (i_recvWindow i) received (i_declared i) true (i_tunnel i)
          else mkBodyIn (i_open i) (body_push (i_reader i) payload) (i_recvWindow i) received (i_declared i) (i_tooLarge i) (i_tunnel i)
        else i in
      if endStream then
        if negb (i_tooLarge i) && h2LengthMismatch (i_declared i) (i_received i) then rejectH2Body (set_body c id i) id
        else (false, h2EndBodyIn c id i None)
      else
        let padding := frameConsumed - zlen payload in
        if 0 <? padding
        then (false, set_body (emit c [windowUpdateFrame id padding]) id (mkBodyIn (i_open i) (i_reader i) (i_recvWindow i + padding) (i_received i) (i_declared i) (i_tooLarge i) (i_tunnel i)))
        else (false, set_body c id i).

(** ** Streams that end early *)

Definition cancelBusyStream c id : option H2Stream * h2conn E :=
  match held c Busy id with
  | Some s => if s_abandoned s then (None, c) else let s := set_abandoned s true (s_abandonCounted s) in (Some s, put c id s)
  | None => (None, c)
  end.

Definition abandonH2Stream c id : h2conn E :=
  let c := epollReleaseH2Stream c id in
  let c := match held c Sending id with Some s => releaseSending c id s | None => c end in
  let '(abandoned, c) := cancelBusyStream c id in
  let '(streamed, c) := h2CancelStreaming c id in
  let c := match streamed, abandoned with
           | false, Some s => set_ended (put c id (set_abandoned s true true)) (h2EndedInFlight (h_cnt c) + 1)
           | _, _ => c
           end in
  (h2AbortBodyIn c id).2.

Definition resetH2Stream c id (errCode : Z) : bool * h2conn E := refuseH2Stream (abandonH2Stream c id) id errCode.

(** ** Handlers *)

Definition textPlain : bytes := [116; 101; 120; 116; 47; 112; 108; 97; 105; 110; 59; 32; 99; 104; 97; 114; 115; 101; 116; 61; 117; 116; 102; 45; 56].
(** "Streaming/Hijack unsupported in epoll HTTP/2 backend", "Response Too Large". *)
Definition unsupportedText : bytes := [83; 116; 114; 101; 97; 109; 105; 110; 103; 47; 72; 105; 106; 97; 99; 107; 32; 117; 110; 115; 117; 112; 112; 111; 114; 116; 101; 100; 32; 105; 110; 32; 101; 112; 111; 108; 108; 32; 72; 84; 84; 80; 47; 50; 32; 98; 97; 99; 107; 101; 110; 100].
Definition tooLargeText : bytes := [82; 101; 115; 112; 111; 110; 115; 101; 32; 84; 111; 111; 32; 76; 97; 114; 103; 101].
Definition plainResponse (status : Z) (text : bytes) : h2Response := mkResponse status textPlain [] text.

Definition h2UncountAbandoned c id s : h2conn E :=
  let n := h2EndedInFlight (h_cnt c) in
  put (if s_abandonCounted s && (0 <? n) then set_ended c (n - 1) else c) id (set_abandoned s (s_abandoned s) false).

(** [finishH2Dispatch] for a stream whose handler returned with [r]; [streamed]
    when the handler hijacked or streamed in a way HTTP/2 does not have. *)
Definition finishH2Dispatch c id (r : h2Response) (streamed : bool) : h2conn E :=
  match held c Busy id with
  | None => c
  | Some s =>
      let n := c_inFlight (h_cnt c) in
      let c := set_inFlight c (if 0 <? n then n - 1 else n) in
      let c := h2UncountAbandoned c id s in
      let '(bodyOpen, c) := h2AbortBodyIn c id in
      let finish c :=
        if s_abandoned s then resetStream c id s
        else
          let r := if streamed then plainResponse 500 unsupportedText else r in
          let r := if (0 <? MaxWriteSize E) && (MaxWriteSize E <? zlen (r_body r)) then plainResponse 500 tooLargeText else r in
          let c := put c id (set_place (set_resp (set_abandoned s false false) (Some r) 0 false) Sending) in
          let '(done, c) := h2EmitWindowed c id in
          if done then
            let c := match h_objs c !! id with Some s => resetStream c id s | None => c end in
            if bodyOpen then emitH2Reset c id H2ErrNoError else c
          else h2SettleParked c id in
      match h_writers c !! id with
      | None => finish c
      | Some w =>
          let w := if s_abandoned s then writer_fail w else w in
          match w_header w with
          | Some _ => h2FinishStreamed (set_writer c id w) id w
          | None => finish (drop_writer c id)
          end
      end
  end.

(** [epollH2DispatchStream]. [Answered]: the response is known before a handler
    runs (a misdirected request, or a proxy with its answer at hand). A request a
    proxy backend has to be asked for is driven by another component and left
    out. *)
Definition epollH2DispatchStream c id s (streamBody : bool) : bool * h2conn E :=
  match admitRequest E (s_req s) (s_Body s) (s_Trailers s) with
  | Blocked => closing (resetStream c id s) H2ErrEnhanceYourCalm
  | admitted =>
      let c := set_inFlight (put c id (set_place s Busy)) (c_inFlight (h_cnt c) + 1) in
      match admitted with
      | Answered r => (false, finishH2Dispatch c id r false)
      | _ =>
          let c := with_call c (id, s_req s, s_Body s, s_Trailers s) in
          (false, if streamBody then startH2BodyStream c id s else c)
      end
  end.

Definition epollH2Dispatch c id (streamBody : bool) : bool * h2conn E :=
  match held c Mapped id with None => (false, c) | Some s => epollH2DispatchStream c id s streamBody end.

(** ** Settings and windows *)

Fixpoint settingsEntries (fuel : nat) (payload : bytes) : list (Z * Z) :=
  match fuel with
  | O => []
  | S fuel => if zlen payload <? 6 then [] else (be_val (zslice payload 0 2), be_val (zslice payload 2 6)) :: settingsEntries fuel (zdrop 6 payload)
  end.

(** One entry: the settings it makes, or the error it is. *)
Definition applySetting c (entry : Z * Z) : h2conn E + Z :=
  let '(id, val) := entry in
  let w := h_win c in
  if id =? H2SettingHeaderTableSize then inl (with_enc c (setPeerLimit E (h_enc c) val))
  else if id =? H2SettingMaxFrameSize then
    if (val <? 16384) || (H2MaxFrameSize <? val) then inr H2ErrProtocol
    else inl (with_win c (mkWindows (initialWindowSize w) val (connWindow w) (recvConnWindow w) (pendingConnWindow w)))
  else if id =? H2SettingInitialWindowSize then
    if 2147483647 <? val then inr H2ErrFlowControl
    else inl (with_win c (mkWindows val (maxFrameSize w) (connWindow w) (recvConnWindow w) (pendingConnWindow w)))
  else inl c.

(** The loop: [false] with the connection told to go away at the first error. *)
Fixpoint settingsLoop c (entries : list (Z * Z)) : bool * h2conn E :=
  match entries with
  | [] => (true, c)
  | e :: entries => match applySetting c e with inl c => settingsLoop c entries | inr code => (false, goAway c code) end
  end.

(** Every stream the connection holds is in one of the four places. *)
Definition h2ShiftStreamWindows c (delta : Z) : bool * h2conn E :=
  let objs := (fun s => set_Window s (s_Window s + delta)) <$> h_objs c in
  (forallb (fun kv => s_Window kv.2 <=? h2MaxWindowSize) (map_to_list objs), with_objs c objs).

Definition epollH2Settings c (payload : bytes) : bool * h2conn E :=
  let oldWindow := initialWindowSize (h_win c) in
  let '(ok, c) := settingsLoop c (settingsEntries (length payload) payload) in
  if negb ok then (false, c)
  else
    let delta := initialWindowSize (h_win c) - oldWindow in
    if delta =? 0 then (true, c)
    else
      let '(ok, c) := h2ShiftStreamWindows c delta in
      if negb ok then (false, goAway c H2ErrFlowControl)
      else (true, h2WindowOpened (if 0 <? delta then h2ResumeSending c 0 else c)).

Definition h2CreditWindow c id s (increment : Z) : option (h2conn E) :=
  let newWindow := s_Window s + increment in
  if h2MaxWindowSize <? newWindow then None else Some (put c id (set_Window s newWindow)).

Definition epollH2WindowUpdate c id (payload : bytes) : bool * h2conn E :=
  if negb (zlen payload =? 4) then closing c H2ErrFrameSize
  else
    let increment := Z.land (be_val payload) 0x7fffffff in
    if increment =? 0 then if id =? 0 then closing c H2ErrProtocol else resetH2Stream c id H2ErrProtocol
    else if id =? 0 then
      let c := set_connWindow c (connWindow (h_win c) + increment) in
      if h2MaxWindowSize <? connWindow (h_win c) then closing c H2ErrFlowControl
      else (false, h2WindowOpened (h2ResumeSending c 0))
    else
      let credit s after := match h2CreditWindow c id s increment with None => resetH2Stream c id H2ErrFlowControl | Some c => (false, after c) end in
      match held c Mapped id with
      | Some s => credit s (fun c => c)
      | None =>
          match held c Sending id with
          | Some s => credit s (fun c => h2ResumeSending c id)
          | None =>
              match h2Streaming c id, h_objs c !! id with
              | Some _, Some s => credit s h2WindowOpened
              | _, _ =>
                  if h_high c <? id then (false, c)
                  else match held c Busy id with Some s => credit s (fun c => c) | None => (false, c) end
              end
          end
      end.

(** ** Header blocks *)

Definition h2StreamAwaitingResponse c id : bool := isHeld c Sending id || isStreaming c id || isHeld c Busy id.

Definition discardH2ClosedStreamHeaders c (block : bytes) : bool * h2conn E :=
  let '(fields, dec) := DecodeInto E (h_dec c) block in
  let c := with_dec c dec in
  match fields with None => closing c H2ErrCompression | Some _ => h2ChargeLimiter (countReset c) end.

Definition refuseH2StreamGoingAway c id (block : bytes) : bool * h2conn E :=
  let '(r, dec) := DecodeRequest E (h_dec c) block in
  let c := with_dec c dec in
  match r with inr errCompression => closing c H2ErrCompression | _ => (false, emit c [rstFrame id H2ErrRefusedStream]) end.

Definition answerH2HeaderListTooLarge c id (endStream : bool) : bool * h2conn E :=
  let '(block, enc) := encodeHead E (h_enc c) (mkResponse h2StatusHeaderListTooLarge [] [] []) in
  let c := emit (with_enc c enc) (headersFrames (Z.lor H2FlagEndHeaders H2FlagEndStream) id (dataFrameLimit c) block) in
  let c := if endStream then c else emit c [rstFrame id H2ErrNoError] in
  h2ChargeLimiter (countReset c).

Definition h2PeerStreamsAtLimit c (limit : Z) : bool :=
  let n := h_cnt c in
  limit <=? count (heldIds c Mapped) + count (heldIds c Sending) + c_inFlight n - h2EndedInFlight n + h2Draining n.

Definition matchIndexedH2FastRootHeaderBlock (block : bytes) : bool :=
  (zlen block =? 3) && forallb (fun b => (b =? 0x82) || (b =? 0x84) || (b =? 0x87)) block &&
  existsb (Z.eqb 0x82) block && existsb (Z.eqb 0x84) block && existsb (Z.eqb 0x87) block.

(** The DATA frames of a memoised response. *)
Fixpoint fastDataFrames (fuel : nat) id (maxFrame : Z) (remaining : bytes) : list H2Frame :=
  match fuel with
  | O => []
  | S fuel =>
      if zlen remaining =? 0 then []
      else
        let chunk := if maxFrame <? zlen remaining then ztake maxFrame remaining else remaining in
        dataFrame (if zlen chunk =? zlen remaining then H2FlagEndStream else 0) id chunk :: fastDataFrames fuel id maxFrame (zdrop (zlen chunk) remaining)
  end.

(** [appendFastH2RootResponse]: framed when the response was built, or as its
    frames are needed. *)
Definition fastRootFrames id (maxFrame : Z) (fast : bytes * bytes) : list H2Frame :=
  let '(headerPayload, body) := fast in
  let endFlags := Z.lor H2FlagEndHeaders H2FlagEndStream in
  if (zlen headerPayload <=? H2DefaultMaxFrameSize) && (zlen body <=? H2DefaultMaxFrameSize) then
    if zlen body =? 0 then [mkH2 H2FrameHeaders endFlags id headerPayload]
    else [mkH2 H2FrameHeaders H2FlagEndHeaders id headerPayload; dataFrame H2FlagEndStream id body]
  else if zlen body =? 0 then headersFrames endFlags id maxFrame headerPayload
  else headersFrames H2FlagEndHeaders id maxFrame headerPayload ++ fastDataFrames (length body) id maxFrame body.

Definition h2FieldListSize (fields : list field) : Z := foldr (fun f n => zlen f.1 + zlen f.2 + 32 + n) 0 fields.
Definition notPseudo (f : field) : bool := match f.1 with [] => true | b :: _ => negb (b =? 58) end.

Definition epollH2Trailers c id (block : bytes) (endStream : bool) : bool * h2conn E :=
  let '(fields, dec) := DecodeInto E (h_dec c) block in
  let c := with_dec c dec in
  match fields with
  | None => closing c H2ErrCompression
  | Some fields =>
      if maxHeaderListSize E <? h2FieldListSize fields then rejectH2Body c id
      else
        let trailers := h2TrailerFields E fields in
        match held c Mapped id with
        | Some s =>
            if StreamHalfClosed <=? s_State s then (false, emit c [rstFrame id H2ErrStreamClosed])
            else match endStream, trailers with
                 | true, Some trailers =>
                     if h2LengthMismatch (q_declared (s_req s)) (zlen (s_Body s)) then rejectH2Body c id
                     else epollH2Dispatch (put c id (set_State (set_Trailers s trailers) StreamHalfClosed)) id false
                 | _, _ => rejectH2Body c id
                 end
        | None =>
            match bodyIn c id, endStream, trailers with
            | Some i, true, Some trailers =>
                if h2LengthMismatch (i_declared i) (i_received i) then rejectH2Body c id
                else (false, set_body c id (mkBodyIn false (body_finishWithTrailers (i_reader i) trailers) (i_recvWindow i) (i_received i) (i_declared i) (i_tooLarge i) (i_tunnel i)))
            | _, _, _ => rejectH2Body c id
            end
        end
  end.

(** A stream for a request that was let in. *)
Definition newStream (w : Z) (req : h2Request) (headers : list field) : H2Stream :=
  let method := if q_webSocket req then [71; 69; 84] else q_method req in
  let req := mkRequest method (q_path req) (List.filter notPseudo headers) (q_declared req) (q_protocolSet req) (q_webSocket req) in
  mkStream Mapped 0 w (h2InitialWindow E) req [] 0 [] None 0 false 0 0 false false.

Definition openStream c id (headers : list field) (req : h2Request) (endStream : bool) : bool * h2conn E :=
  let s := newStream (initialWindowSize (h_win c)) req headers in
  if endStream then
    if h2LengthMismatch (q_declared req) 0 then rejectH2Body (put c id s) id
    else epollH2DispatchStream c id s false
  else
    let c := put c id (set_State s StreamOpen) in
    if q_protocolSet req || streamsH2Body E (s_req s) then epollH2Dispatch c id true else (false, c).

(** [tryAcquireRequestSlot] and the memoised response: whether it was given. *)
Definition fastRootAnswer c id : bool * h2conn E :=
  match rootFast E with
  | None => (false, c)
  | Some fast => let ok := requestSlot E (h_tick c) in (ok, if ok then emit (tick c) (fastRootFrames id (maxFrameSize (h_win c)) fast) else tick c)
  end.

Definition decodedRequest c id (block : bytes) (endStream fastRoot : bool) : bool * h2conn E :=
  let '(r, dec) := DecodeRequest E (h_dec c) block in
  let c := with_dec c dec in
  match r with
  | inr errMalformed => resetMalformedH2Stream c id
  | inr errHeaderListTooLarge => answerH2HeaderListTooLarge c id endStream
  | inr errCompression => closing c H2ErrCompression
  | inl (headers, req, isRoot) =>
      let '(answered, c) := if endStream && fastRoot && isRoot then fastRootAnswer c id else (false, c) in
      if answered then (false, c)
      else if h2MaxRequestFields <? Z.of_nat (length headers) then refuseH2Stream c id H2ErrEnhanceYourCalm
      else if peerGoingAway (h_away c) || h2PeerStreamsAtLimit c (h2MaxStreams E) then refuseH2Stream c id H2ErrRefusedStream
      else if h2MaxStreams E <=? h2EndedInFlight (h_cnt c) then refuseH2StreamForEndedHandlers c id
      else if (zlen (q_method req) =? 0) || (zlen (q_path req) =? 0) then resetMalformedH2Stream c id
      else openStream c id headers req endStream
  end.

Definition epollH2DecodedHeaders c id (block : bytes) (endStream : bool) : bool * h2conn E :=
  let known := negb (id mod 2 =? 0) && (id <=? h_high c) in
  if known && (isHeld c Mapped id || bodyIsOpen c id) then epollH2Trailers c id block endStream
  else if known && endStream && negb (h2StreamAwaitingResponse c id) then discardH2ClosedStreamHeaders c block
  else if (id mod 2 =? 0) || (id <=? h_high c) then closing c H2ErrProtocol
  else
    let c := with_ids c (h_last c) id in
    if h2GoingAway (h_away c) then refuseH2StreamGoingAway c id block
    else
      let c := with_ids c id id in
      let fastRoot := (match rootFast E with Some _ => true | None => false end) && negb (pendingUpdate E (h_enc c)) in
      let '(answered, c) := if endStream && fastRoot && matchIndexedH2FastRootHeaderBlock block then fastRootAnswer c id else (false, c) in
      if answered then (false, c)
      else
        let '(answered, c) := if endStream && fastRoot && MemoizedRootRequest E (h_dec c) block then fastRootAnswer c id else (false, c) in
        if answered then (false, c) else decodedRequest c id block endStream fastRoot.

Definition set_header c id (endStream : bool) (accum : bytes) : h2conn E := with_head c (mkHeaderState id endStream accum).

Definition epollH2Headers c id (flags : Z) (payload : bytes) : bool * h2conn E :=
  if id =? 0 then closing c H2ErrProtocol
  else
    let unpadded :=
      if Z.land flags H2FlagPadded =? 0 then inl payload
      else match payload with
           | [] => inr H2ErrFrameSize
           | padLen :: payload => if zlen payload <? padLen then inr H2ErrProtocol else inl (ztake (zlen payload - padLen) payload)
           end in
    match unpadded with
    | inr code => closing c code
    | inl payload =>
        if negb (Z.land flags H2FlagPriority =? 0) && (zlen payload <? 5) then closing c H2ErrFrameSize
        else
          let payload := if Z.land flags H2FlagPriority =? 0 then payload else zdrop 5 payload in
          let endStream := negb (Z.land flags H2FlagEndStream =? 0) in
          if Z.land flags H2FlagEndHeaders =? 0 then (false, set_header c id endStream payload)
          else epollH2DecodedHeaders c id payload endStream
    end.

Definition epollH2Continuation c id (flags : Z) (payload : bytes) : bool * h2conn E :=
  let '(tripped, c) := if zlen payload =? 0 then h2ChargeLimiter (countCtrl c) else (false, c) in
  if tripped then (true, c)
  else
    let h := h_head c in
    let accum := headerAccum h ++ payload in
    if maxHeaderListSize E * 4 <? zlen accum then closing (set_header c 0 (headerEndStream h) accum) H2ErrEnhanceYourCalm
    else if Z.land flags H2FlagEndHeaders =? 0 then (false, set_header c (expectContinuation h) (headerEndStream h) accum)
    else epollH2DecodedHeaders (set_header c 0 (headerEndStream h) accum) id accum (headerEndStream h).

(** ** Frames *)

Definition epollH2Data c id (flags : Z) (payload : bytes) : bool * h2conn E :=
  if id =? 0 then closing c H2ErrProtocol
  else
    let consumed := zlen payload in
    let w := h_win c in
    let c := with_win c (mkWindows (initialWindowSize w) (maxFrameSize w) (connWindow w) (recvConnWindow w - consumed) (pendingConnWindow w)) in
    if recvConnWindow (h_win c) <? 0 then closing c H2ErrFlowControl
    else
      let c := h2CreditConnWindow c consumed in
      let '(payload, padOK) := h2StripPadding flags payload in
      let endStream := negb (Z.land flags H2FlagEndStream =? 0) in
      match held c Mapped id with
      | None =>
          match bodyIn c id with
          | None => (false, c)
          | Some i =>
              if negb padOK then (false, h2EndBodyIn (emit c [rstFrame id H2ErrProtocol]) id i (Some errAborted))
              else h2StreamBodyData c id i endStream consumed payload
          end
      | Some s =>
          if StreamHalfClosed <=? s_State s then (false, emit c [rstFrame id H2ErrStreamClosed])
          else if negb padOK then (false, emit c [rstFrame id H2ErrProtocol])
          else
            let s := set_RecvWindow s (s_RecvWindow s - consumed) in
            let c := put c id s in
            if s_RecvWindow s <? 0 then (false, epollReleaseH2Stream (emit c [rstFrame id H2ErrFlowControl]) id)
            else
              (* the body, or why it is not kept *)
              let kept :=
                if 0 <? zlen payload then
                  let '(ok, b) := tryReserveConnBodyBytes (budgetCfg E) (h_budget c) (zlen payload) in
                  let c := with_budget c b in
                  if negb ok then inr (false, epollReleaseH2Stream (emit c [rstFrame id H2ErrEnhanceYourCalm]) id)
                  else
                    let s := set_Body s (s_Body s ++ payload) (s_bodyAccounted s + zlen payload) in
                    let c := put c id s in
                    if (0 <=? q_declared (s_req s)) && (q_declared (s_req s) <? zlen (s_Body s)) then inr (rejectH2Body c id) else inl (s, c)
                else inl (s, c) in
              match kept with
              | inr r => r
              | inl (s, c) =>
                  if requestBodyTooLarge E (zlen (s_Body s)) then (false, epollReleaseH2Stream (emit c [rstFrame id H2ErrCancel]) id)
                  else if negb endStream then
                    if 0 <? consumed then (false, put (emit c [windowUpdateFrame id consumed]) id (set_RecvWindow s (s_RecvWindow s + consumed))) else (false, c)
                  else if h2LengthMismatch (q_declared (s_req s)) (zlen (s_Body s)) then rejectH2Body c id
                  else epollH2Dispatch (put c id (set_State s StreamHalfClosed)) id false
              end
      end.

Definition isCtrl (f : H2Frame) : bool :=
  (f_type f =? H2FrameSettings) || (f_type f =? H2FramePing) || (f_type f =? H2FramePriority) ||
  ((f_type f =? H2FrameData) && h2DataCarriesNoBody (f_flags f) (f_payload f)).

Definition set_peerGoingAway c : h2conn E := let a := h_away c in with_away c (mkAway true (h2GoingAway a) (h2PumpDue a) (outArmed a) (closeAfter a)).

Definition epollH2Frame c (f : H2Frame) : bool * h2conn E :=
  let '(tripped, c) := if isCtrl f then h2ChargeLimiter (countCtrl c) else (false, c) in
  let '(typ, flags, id, payload) := (f_type f, f_flags f, f_id f, f_payload f) in
  if tripped then (true, c)
  else if typ =? H2FrameSettings then
    if negb (id =? 0) then closing c H2ErrProtocol
    else if negb (Z.land flags H2FlagAck =? 0) then if 0 <? zlen payload then closing c H2ErrFrameSize else (false, c)
    else if negb (zlen payload mod 6 =? 0) then closing c H2ErrFrameSize
    else let '(ok, c) := epollH2Settings c payload in if ok then (false, emit c [settingsAckFrame]) else (true, c)
  else if typ =? H2FrameHeaders then epollH2Headers c id flags payload
  else if typ =? H2FrameContinuation then closing c H2ErrProtocol
  else if typ =? H2FrameData then epollH2Data c id flags payload
  else if typ =? H2FrameWindowUpdate then epollH2WindowUpdate c id payload
  else if typ =? H2FramePing then
    if negb (id =? 0) then closing c H2ErrProtocol
    else if negb (zlen payload =? 8) then closing c H2ErrFrameSize
    else (false, if Z.land flags H2FlagAck =? 0 then emit c [pingFrame true payload] else c)
  else if typ =? H2FrameRSTStream then
    if (id =? 0) || negb (zlen payload =? 4) then closing c H2ErrProtocol
    else h2ChargeLimiter (countReset (abandonH2Stream c id))
  else if typ =? H2FrameGoAway then
    if negb (id =? 0) then closing c H2ErrProtocol
    else if zlen payload <? h2GoAwayMinPayload then closing c H2ErrFrameSize
    else let c := set_peerGoingAway c in (h2Quiescent c, c)
  else if typ =? H2FramePriority then if (id =? 0) || negb (zlen payload =? 5) then closing c H2ErrProtocol else (false, c)
  else if typ =? H2FramePushPromise then closing c H2ErrProtocol
  else (false, c).

(** A turn of [epollProcessH2Frames] with a whole frame at hand. *)
Definition h2Frame c (f : H2Frame) : bool * h2conn E :=
  let expect := expectContinuation (h_head c) in
  if negb (expect =? 0) then
    if negb (f_type f =? H2FrameContinuation) || negb (f_id f =? expect) then closing c H2ErrProtocol
    else epollH2Continuation c (f_id f) (f_flags f) (f_payload f)
  else epollH2Frame c f.

(** [epollProcessH2Frames] after the preface: whether the connection closes, and
    the bytes left. Every turn takes the nine bytes of a header. *)
Fixpoint epollProcessH2Frames (fuel : nat) c (unread : bytes) : bool * h2conn E * bytes :=
  match fuel with
  | O => (false, c, unread)
  | S fuel =>
      if maxPendingWrite E <? h2OutputBacklog c then (true, goAway c H2ErrEnhanceYourCalm, unread)
      else if zlen unread <? 9 then (false, c, unread)
      else
        let frameLen := be_val (ztake 3 unread) in
        if h2MaxFrameSize E <? frameLen then (true, goAway c H2ErrFrameSize, unread)
        else if zlen unread <? 9 + frameLen then (false, c, unread)
        else
          let f := mkH2 (znth unread 3) (znth unread 4) (Z.land (be_val (zslice unread 5 9)) 0x7fffffff) (zslice unread 9 (9 + frameLen)) in
          let '(closeConn, c) := h2Frame c f in
          let unread := zdrop (9 + frameLen) unread in
          if closeConn then (true, c, unread) else epollProcessH2Frames fuel c unread
  end.

(** ** Handlers, the socket and shutdown *)

Inductive h2Event :=
| EvFrame (f : H2Frame)
| EvDone (id : Z) (r : h2Response) (streamed : bool)
| EvStart (id : Z) (block : bytes)
| EvWrite (id : Z) (data : bytes)
| EvFlush (id : Z)
| EvEnd (id : Z)
| EvStall (id : Z)
| EvPump (id : Z)
| EvRead (id n : Z)
| EvCloseBody (id : Z)
| EvAcked (id : Z)
| EvSent (n : Z) (armed : bool)
| EvPumpAll
| EvShutdown.

Definition newWriter : streamWriter := mkWriter None [] false false false false false false false false false.
Definition writerOf c id : streamWriter := match h_writers c !! id with Some w => w | None => newWriter end.

(** [claimPumpLocked]. *)
Definition claimPump (w : streamWriter) : streamWriter :=
  if w_pumpQueued w || w_finished w then w else set_w_data w (w_header w) (w_pending w) (w_headersOut w) (w_finished w) true.

(** [WriteHeader], one turn of the loop of [WriteChunk] once there is room,
    [Flush], [Close], and [WriteChunk] when the timer has run out. Only a running
    handler has a writer. *)
Definition onWriter c id (g : streamWriter -> streamWriter) : h2conn E := if isHeld c Busy id then set_writer c id (g (writerOf c id)) else c.
Definition writeHeader (block : bytes) (w : streamWriter) : streamWriter :=
  match w_header w with Some _ => w | None => claimPump (set_w_data w (Some block) (w_pending w) (w_headersOut w) (w_finished w) (w_pumpQueued w)) end.
Definition writeChunk (data : bytes) (w : streamWriter) : streamWriter :=
  match w_header w with
  | None => w
  | Some _ =>
      if w_ended w || w_err w then claimPump w
      else claimPump (set_w_data w (w_header w) (w_pending w ++ ztake (h2StreamPendingCap - zlen (w_pending w)) data) (w_headersOut w) (w_finished w) (w_pumpQueued w))
  end.
Definition closeWriter (w : streamWriter) : streamWriter := claimPump (set_w_flags w true (w_finished w) (w_handlerDone w) (w_registered w) (w_endedEarly w)).
Definition stallWriter (w : streamWriter) : streamWriter :=
  if w_err w || (zlen (w_pending w) <? h2StreamPendingCap) then w
  else claimPump (mkWriter (w_header w) (w_pending w) (w_headersOut w) (w_ended w) (w_finished w) (w_handlerDone w) (w_registered w) (w_endedEarly w) (w_pumpQueued w) true true).

Definition onBody c id (g : BodyReader -> BodyReader) : h2conn E :=
  match h_bodies c !! id with
  | Some i => set_body c id (mkBodyIn (i_open i) (g (i_reader i)) (i_recvWindow i) (i_received i) (i_declared i) (i_tooLarge i) (i_tunnel i))
  | None => c
  end.

Definition goAwayForShutdown c : h2conn E :=
  let a := h_away c in
  if h2GoingAway a then c else with_away (goAway c H2ErrNoError) (mkAway (peerGoingAway a) true (h2PumpDue a) (outArmed a) (closeAfter a)).

(** One event; [true] when the connection is to be closed. *)
Definition h2Step c (e : h2Event) : bool * h2conn E :=
  match e with
  | EvFrame f => if maxPendingWrite E <? h2OutputBacklog c then closing c H2ErrEnhanceYourCalm else h2Frame c f
  | EvDone id r streamed => (false, finishH2Dispatch c id r streamed)
  | EvStart id block => (false, onWriter c id (writeHeader block))
  | EvWrite id data => (false, onWriter c id (writeChunk data))
  | EvFlush id => (false, onWriter c id claimPump)
  | EvEnd id => (false, onWriter c id closeWriter)
  | EvStall id => (false, onWriter c id stallWriter)
  | EvPump id => (false, h2PumpTask c id)
  | EvRead id n => (false, onBody c id (fun b => (body_Read b n).2))
  | EvCloseBody id => (false, onBody c id (fun b => (body_Close b).2))
  | EvAcked id => (false, h2BodyAcked c id)
  | EvSent n armed =>
      let a := h_away c in
      (false, with_away (with_sent c (h_sent c + Z.max 0 (Z.min n (h2OutputBacklog c)))) (mkAway (peerGoingAway a) (h2GoingAway a) (h2PumpDue a) armed (closeAfter a)))
  | EvPumpAll => (false, h2PumpAll c)
  | EvShutdown => (false, goAwayForShutdown c)
  end.

(** Events until the connection is to be closed. *)
Fixpoint h2Run c (es : list h2Event) : bool * h2conn E :=
  match es with
  | [] => (false, c)
  | e :: es => let '(stop, c) := h2Step c e in if stop then (true, c) else h2Run c es
  end.
End conn.

(** [tlsWorkerH2State.init], with the flight of settings already written. *)
Definition h2Init (E : h2Env) (dec : Dec E) (enc : Enc E) (b : budget) : h2conn E :=
  mkH2Conn dec enc (mkWindows H2DefaultWindowSize H2DefaultMaxFrameSize H2DefaultWindowSize H2ConnectionWindowSize 0) 0 0 (mkHeaderState 0 false []) (mkLimiter 0 0 0 0)
    ∅ ∅ ∅ (mkCounts 0 0 0 0 0) (mkAway false false false false false) b [] 0 [] 0.

(** A small environment to run connections in: a header block is the method and
    the declared length plus one, every request goes to a handler. *)
Definition demoRequest (m d : Z) : h2Request := mkRequest [m] [47] [] (d - 1) false false.
Definition demoH2 (root : option (bytes * bytes)) : h2Env := mkH2Env
  nat (fun n block => match block with [m; d] => (inl ([], demoRequest m d, m =? 82), S n) | _ => (inr errMalformed, S n) end)
  (fun n block => (Some [([116], block)], S n)) (fun _ _ => false) (fun fields => Some fields) 65536
  unit (fun e _ => e) (fun _ => false) (fun e r => ([200; r_status r mod 256], e)) (fun e => ([], e))
  (fun n => Z.of_nat n) (fun _ ids => ids) (fun _ => true) (fun _ n => n)
  (fun _ _ _ => Handled) (fun _ => false) (fun n => 1000 <? n) (fun n => 1000 <? n) root 16384 100 65535 1000000 0 {| MaxInFlightBodyBytes := 100000; MaxBodySize := 100000 |}.
Definition demoInit (root : option (bytes * bytes)) : h2conn (demoH2 root) := h2Init (demoH2 root) O tt {| inFlight := 0; connReserved := 0 |}.
