(* ===== verification/H2Flow.v ===== *)
(** Flow control of an HTTP/2 connection: a peer that watches every frame never
    sees a window or the frame size exceeded, over any sequence of frames,
    handlers, pumps and socket events (src/core/epoll_h2_linux_amd64.go,
    epoll_h2_stream_linux_amd64.go, epoll_h2_direct_linux_amd64.go). *)
From stdpp Require Import base list numbers list_numbers gmap.
From Stdlib Require Import ZArith Lia ZifyBool.
From S2P Require Import Prelude BodyBudget H2Frame H2Conn.

Open Scope list_scope.
Open Scope Z_scope.

(** ** The peer *)

Definition isData (f : H2Frame) : bool := f_type f =? H2FrameData.
Definition dataSize (f : H2Frame) : Z := if isData f then zlen (f_payload f) else 0.

(** What a client knows: the room left on the connection, its settings, and for
    every stream what it granted less what came. *)
Record peer := mkPeer { p_conn : Z; p_init : Z; p_max : Z; p_adj : gmap Z Z }.
Definition adj (p : peer) (id : Z) : Z := match p_adj p !! id with Some n => n | None => 0 end.
Definition add_adj (p : peer) (id n : Z) : gmap Z Z := <[id := adj p id + n]> (p_adj p).

(** A frame of the server: refused when it is longer than the setting, or data
    beyond a window. *)
Definition peer_sees (p : peer) (f : H2Frame) : option peer :=
  if p_max p <? zlen (f_payload f) then None
  else
    let n := dataSize f in
    if n =? 0 then Some p
    else if (n <=? p_conn p) && (n <=? p_init p + adj p (f_id f)) then Some (mkPeer (p_conn p - n) (p_init p) (p_max p) (add_adj p (f_id f) (- n)))
    else None.

Fixpoint peer_sees_all (p : peer) (fs : list H2Frame) : option peer :=
  match fs with
  | [] => Some p
  | f :: fs => match peer_sees p f with Some p => peer_sees_all p fs | None => None end
  end.

(** A frame size out of range is not a setting. *)
Definition peer_setting (p : peer) (e : Z * Z) : peer :=
  if e.1 =? H2SettingMaxFrameSize then if (16384 <=? e.2) && (e.2 <=? H2MaxFrameSize) then mkPeer (p_conn p) (p_init p) e.2 (p_adj p) else p
  else if e.1 =? H2SettingInitialWindowSize then mkPeer (p_conn p) e.2 (p_max p) (p_adj p)
  else p.

(** A frame of its own: settings and window updates. *)
Definition peer_sends (p : peer) (f : H2Frame) : peer :=
  if (f_type f =? H2FrameSettings) && (Z.land (f_flags f) H2FlagAck =? 0) then fold_left peer_setting (settingsEntries (length (f_payload f)) (f_payload f)) p
  else if (f_type f =? H2FrameWindowUpdate) && (zlen (f_payload f) =? 4) then
    let n := Z.land (be_val (f_payload f)) 0x7fffffff in
    if f_id f =? 0 then mkPeer (p_conn p + n) (p_init p) (p_max p) (p_adj p) else mkPeer (p_conn p) (p_init p) (p_max p) (add_adj p (f_id f) n)
  else p.

(** The peer over a run of the connection. *)
Fixpoint watch {E} (p : peer) (c : h2conn E) (es : list h2Event) : option peer :=
  match es with
  | [] => Some p
  | e :: es =>
      let '(stop, c') := h2Step c e in
      let p := match e with EvFrame f => peer_sends p f | _ => p end in
      match peer_sees_all p (drop (length (h_out c)) (h_out c')) with
      | None => None
      | Some p => if stop then Some p else watch p c' es
      end
  end.

(** ** What a step may do *)

Definition dataLen (fs : list H2Frame) : Z := foldr (fun f n => dataSize f + n) 0 fs.
Definition dataOn (id : Z) (fs : list H2Frame) : Z := foldr (fun f n => (if f_id f =? id then dataSize f else 0) + n) 0 fs.

Lemma dataSize_nonneg f : 0 <= dataSize f.
Proof. unfold dataSize. destruct (isData f); [apply zlen_nonneg | lia]. Qed.
Lemma dataLen_app a b : dataLen (a ++ b) = dataLen a + dataLen b.
Proof. unfold dataLen. induction a as [| f a IH]; [done |]. cbn. lia. Qed.
Lemma dataOn_app id a b : dataOn id (a ++ b) = dataOn id a + dataOn id b.
Proof. unfold dataOn. induction a as [| f a IH]; [done |]. cbn. lia. Qed.
Lemma dataOn_bound id fs : 0 <= dataOn id fs <= dataLen fs.
Proof. unfold dataOn, dataLen. induction fs as [| f fs IH]; [done |]. cbn. pose proof (dataSize_nonneg f). destruct (f_id f =? id); lia. Qed.

Section flow.
  Context {E : h2Env}.
  Implicit Types (c : h2conn E) (x y z : option Z) (id : Z).

(** The window of a stream: of one that exists, or of one yet to be opened: its
    id is above all seen, or it is [x]. *)
Definition win x c id : option Z :=
  match h_objs c !! id with
  | Some s => Some (s_Window s)
  | None => if (h_high c <? id) || bool_decide (x = Some id) then Some (initialWindowSize (h_win c)) else None
  end.

(** From [c] to [c'] the frames written are within the windows, and what is left
    of the windows is at most what they were less the data. *)
Record flow x y c c' (fs : list H2Frame) : Prop := mkFlow {
  fl_out : h_out c' = h_out c ++ fs;
  fl_init : initialWindowSize (h_win c') = initialWindowSize (h_win c);
  fl_max : maxFrameSize (h_win c') = maxFrameSize (h_win c);
  fl_size : Forall (fun f => zlen (f_payload f) <= maxFrameSize (h_win c)) fs;
  fl_conn : connWindow (h_win c') <= connWindow (h_win c) - dataLen fs;
  fl_conn_ok : 0 < dataLen fs -> dataLen fs <= connWindow (h_win c);
  fl_used : forall id, 0 < dataOn id fs -> exists w, win x c id = Some w /\ dataOn id fs <= w;
  fl_left : forall id w', win y c' id = Some w' -> exists w, win x c id = Some w /\ w' <= w - dataOn id fs }.

Lemma flow_trans x y z c1 c2 c3 fs gs : flow x y c1 c2 fs -> flow y z c2 c3 gs -> flow x z c1 c3 (fs ++ gs).
Proof.
  intros [A1 A2 A3 A4 A5 A6 A7 A8] [B1 B2 B3 B4 B5 B6 B7 B8]. apply mkFlow.
  - by rewrite B1, A1, app_assoc.
  - congruence.
  - congruence.
  - apply Forall_app. split; [done | by rewrite A3 in B4].
  - rewrite dataLen_app. lia.
  - rewrite dataLen_app. intros H. pose proof (dataOn_bound 0 fs). pose proof (dataOn_bound 0 gs). destruct (decide (0 < dataLen gs)); lia.
  - intros id. rewrite dataOn_app. intros H. pose proof (dataOn_bound id fs). pose proof (dataOn_bound id gs). destruct (decide (0 < dataOn id gs)) as [Hg | Hg].
    + destruct (B7 id Hg) as (w' & Hw' & Hle). destruct (A8 id w' Hw') as (w & Hw & Hle2). exists w. split; [done | lia].
    + destruct (A7 id ltac:(lia)) as (w & Hw & Hle). exists w. split; [done | lia].
  - intros id w'' Hw''. destruct (B8 id w'' Hw'') as (w' & Hw' & Hle1). destruct (A8 id w' Hw') as (w & Hw & Hle2). exists w. split; [done |]. rewrite dataOn_app. lia.
Qed.

(** Streams have ids already seen, and a frame of 16384 bytes may be sent. *)
Record sane c : Prop := mkSane { sn_known : forall id s, h_objs c !! id = Some s -> id <= h_high c; sn_max : 16384 <= maxFrameSize (h_win c) }.

Definition flows x y c c' : Prop := sane c -> sane c' /\ exists fs, flow x y c c' fs.

Lemma flows_sane x y c c' : (sane c -> flows x y c c') -> flows x y c c'.
Proof. intros H Hs. by apply H. Qed.

Lemma flows_trans x y z c1 c2 c3 : flows x y c1 c2 -> flows y z c2 c3 -> flows x z c1 c3.
Proof. intros H1 H2 Hs. destruct (H1 Hs) as [Hs2 [fs F1]]. destruct (H2 Hs2) as [Hs3 [gs F2]]. split; [done |]. exists (fs ++ gs). by eapply flow_trans. Qed.

(** A frame without data, of a length any peer takes. *)
Definition calm (max : Z) (f : H2Frame) : Prop := dataSize f = 0 /\ zlen (f_payload f) <= max.

Lemma calm_dataLen max fs id : Forall (calm max) fs -> dataLen fs = 0 /\ dataOn id fs = 0.
Proof. unfold dataLen, dataOn. induction 1 as [| f fs [H1 H2] _ [IH1 IH2]]; [done |]. cbn. rewrite H1. destruct (f_id f =? id); lia. Qed.

(** Steps that send no data and leave the windows alone. *)
Lemma calm_flows x y c c' fs : h_out c' = h_out c ++ fs -> (sane c -> Forall (calm (maxFrameSize (h_win c))) fs) ->
  initialWindowSize (h_win c') = initialWindowSize (h_win c) -> maxFrameSize (h_win c') = maxFrameSize (h_win c) -> connWindow (h_win c') = connWindow (h_win c) ->
  (sane c -> forall id s, h_objs c' !! id = Some s -> id <= h_high c') -> (sane c -> forall id w, win y c' id = Some w -> win x c id = Some w) -> flows x y c c'.
Proof.
  intros H1 H2 H3 H4 H5 H6 H7 Hs. specialize (H2 Hs). specialize (H6 Hs). specialize (H7 Hs). split; [apply mkSane; [done | rewrite H4; apply Hs] |]. exists fs. pose proof (fun id => calm_dataLen _ fs id H2) as Hz. apply mkFlow; try done.
  - eapply Forall_impl; [exact H2 |]. by intros f [_ Hf].
  - destruct (Hz 0) as [-> _]. lia.
  - destruct (Hz 0) as [-> _]. lia.
  - intros id. destruct (Hz id) as [_ ->]. lia.
  - intros id w Hw. exists w. destruct (Hz id) as [_ ->]. split; [auto | lia].
Qed.

Lemma win_eq x c c' id : h_objs c' = h_objs c -> h_high c' = h_high c -> initialWindowSize (h_win c') = initialWindowSize (h_win c) -> win x c' id = win x c id.
Proof. intros E1 E2 E3. unfold win. by rewrite E1, E2, E3. Qed.

(** Steps the peer does not see. *)
Lemma silent_flows x c c' : h_out c' = h_out c -> h_objs c' = h_objs c -> h_high c' = h_high c -> initialWindowSize (h_win c') = initialWindowSize (h_win c) ->
  maxFrameSize (h_win c') = maxFrameSize (h_win c) -> connWindow (h_win c') = connWindow (h_win c) -> flows x x c c'.
Proof.
  intros H1 H2 H3 H4 H5 H6. apply (calm_flows x x c c' []); [by rewrite app_nil_r | by intros | done | done | done | |].
  - intros Hs id s. rewrite H2, H3. apply Hs.
  - intros Hs id w. by rewrite (win_eq x c c').
Qed.

Lemma flows_refl x c : flows x x c c.
Proof. by apply silent_flows. Qed.

Lemma emit_flows x c fs : (sane c -> Forall (calm (maxFrameSize (h_win c))) fs) -> flows x x c (emit c fs).
Proof. intros Hf. apply (calm_flows x x c _ fs); [done | done | done | done | done | by intros Hs id s; apply Hs |]. by intros. Qed.

(** A stream replaced by one with its window. *)
Lemma put_flows x c id s s' : h_objs c !! id = Some s -> s_Window s' = s_Window s -> flows x x c (put c id s').
Proof.
  intros Hs Hw. apply (calm_flows x x c _ []); [by rewrite app_nil_r | by intros | done | done | done | |].
  - intros Hsane id' s0. cbn. destruct (decide (id' = id)) as [-> | Hne]; [by intros _; apply (sn_known _ Hsane id s) |]. rewrite lookup_insert_ne by done. apply Hsane.
  - intros Hsane id' w. unfold win. cbn. destruct (decide (id' = id)) as [-> | Hne]; [rewrite lookup_insert_eq, Hs; congruence |]. by rewrite lookup_insert_ne by done.
Qed.

(** A stream that goes: its id is not opened again. *)
Lemma delete_flows c id b : flows None None c (with_budget (with_objs c (delete id (h_objs c))) b).
Proof.
  apply (calm_flows None None c _ []); [by rewrite app_nil_r | by intros | done | done | done | |].
  - intros Hsane id' s0. cbn. rewrite lookup_delete_Some. intros [_ H]. by apply (sn_known _ Hsane id' s0).
  - intros Hsane id' w. unfold win. cbn. destruct (decide (id' = id)) as [-> | Hne]; [| by rewrite lookup_delete_ne by done].
    rewrite lookup_delete_eq. destruct (h_objs c !! id) as [s |] eqn:Ed; [| done]. pose proof (sn_known _ Hsane id s Ed). replace (h_high c <? id) with false by lia. done.
Qed.

(** A stream is opened with the initial window. *)
Lemma open_flows c id s : h_objs c !! id = None -> id <= h_high c -> s_Window s = initialWindowSize (h_win c) -> flows (Some id) None c (put c id s).
Proof.
  intros Hn Hh Hw. apply (calm_flows (Some id) None c _ []); [by rewrite app_nil_r | by intros | done | done | done | |].
  - intros Hsane id' s0. cbn. destruct (decide (id' = id)) as [-> | Hne]; [done |]. rewrite lookup_insert_ne by done. apply Hsane.
  - intros Hsane id' w. unfold win. cbn. destruct (decide (id' = id)) as [-> | Hne].
    + rewrite lookup_insert_eq, Hn. rewrite bool_decide_true, orb_true_r by done. congruence.
    + rewrite lookup_insert_ne by done. destruct (h_objs c !! id'); [done |]. by destruct (h_high c <? id').
Qed.

Lemma ids_flows c last id : h_high c < id -> flows None (Some id) c (with_ids c last id).
Proof.
  intros Hh. apply (calm_flows None (Some id) c _ []); [by rewrite app_nil_r | by intros | done | done | done | |].
  - intros Hsane id' s0 Hs0. cbn in *. pose proof (sn_known _ Hsane id' s0 Hs0). lia.
  - intros Hsane id' w. unfold win. cbn. destruct (h_objs c !! id'); [done |]. destruct (id <? id') eqn:El; [by replace (h_high c <? id') with true by lia |]. cbn.
    destruct (bool_decide (Some id = Some id')) eqn:Eb; [| done]. apply bool_decide_eq_true in Eb as [= <-]. by replace (h_high c <? id) with true by lia.
Qed.

Lemma forget_flows x c : flows x None c c.
Proof.
  apply (calm_flows x None c c []); [by rewrite app_nil_r | by intros | done | done | done | by intros Hs; apply Hs |]. intros _ id w. unfold win. destruct (h_objs c !! id); [done |].
  destruct (h_high c <? id); [done |]. done.
Qed.

(** ** Frames that carry no data *)

Lemma calm_short c f : sane c -> f_type f <> H2FrameData -> zlen (f_payload f) <= 16384 -> Forall (calm (maxFrameSize (h_win c))) [f].
Proof. intros [_ Hm] Ht Hl. constructor; [| done]. split; [unfold dataSize, isData; by rewrite (proj2 (Z.eqb_neq _ _) Ht) | lia]. Qed.

Lemma headersFrames_calm flags id max block : 0 < max -> Forall (calm max) (headersFrames flags id max block).
Proof.
  intros Hm. unfold headersFrames. destruct (max <? zlen block) eqn:E0; constructor; try (split; [done |]; cbn).
  - rewrite zlen_take; lia.
  - destruct (continuations_facts (length block) id max (zdrop max block) Hm) as [_ H]; [unfold zdrop; rewrite length_drop; lia |]. eapply Forall_impl; [exact H |]. intros f (H1 & _ & H2). split; [unfold dataSize, isData; by rewrite H1 | lia].
  - lia.
  - done.
Qed.

Lemma frameLimit_max c : sane c -> dataFrameLimit c = maxFrameSize (h_win c).
Proof. intros [_ H]. unfold dataFrameLimit. by replace (maxFrameSize (h_win c) =? 0) with false by lia. Qed.

Lemma headers_flows x c flags id block : flows x x c (emit c (headersFrames flags id (dataFrameLimit c) block)).
Proof. apply emit_flows. intros Hs. rewrite frameLimit_max by done. apply headersFrames_calm. destruct Hs. lia. Qed.
End flow.

(** The last step of a chain of updates, when the peer does not see it or it is
    a short frame. *)
Ltac flow_back c1 := match goal with |- flows ?x ?y ?c _ => apply (flows_trans x y y c c1 _) end.
Ltac flow_silent :=
  lazymatch goal with
  | |- flows _ _ _ (with_dec ?c1 _) => flow_back c1; [| by apply silent_flows]
  | |- flows _ _ _ (with_enc ?c1 _) => flow_back c1; [| by apply silent_flows]
  | |- flows _ _ _ (with_head ?c1 _) => flow_back c1; [| by apply silent_flows]
  | |- flows _ _ _ (with_lim ?c1 _) => flow_back c1; [| by apply silent_flows]
  | |- flows _ _ _ (with_bodies ?c1 _) => flow_back c1; [| by apply silent_flows]
  | |- flows _ _ _ (with_writers ?c1 _) => flow_back c1; [| by apply silent_flows]
  | |- flows _ _ _ (with_cnt ?c1 _) => flow_back c1; [| by apply silent_flows]
  | |- flows _ _ _ (with_away ?c1 _) => flow_back c1; [| by apply silent_flows]
  | |- flows _ _ _ (with_budget ?c1 _) => flow_back c1; [| by apply silent_flows]
  | |- flows _ _ _ (with_sent ?c1 _) => flow_back c1; [| by apply silent_flows]
  | |- flows _ _ _ (with_call ?c1 _) => flow_back c1; [| by apply silent_flows]
  | |- flows _ _ _ (tick ?c1) => flow_back c1; [| by apply silent_flows]
  | |- flows _ _ _ (set_writer ?c1 _ _) => flow_back c1; [| by apply silent_flows]
  | |- flows _ _ _ (drop_writer ?c1 _) => flow_back c1; [| by apply silent_flows]
  | |- flows _ _ _ (set_ended ?c1 _) => flow_back c1; [| by apply silent_flows]
  | |- flows _ _ _ (set_draining ?c1 _) => flow_back c1; [| by apply silent_flows]
  | |- flows _ _ _ (set_inFlight ?c1 _) => flow_back c1; [| by apply silent_flows]
  | |- flows _ _ _ (set_pumpDue ?c1) => flow_back c1; [| by apply silent_flows]
  | |- flows _ _ _ (set_body ?c1 _ _) => flow_back c1; [| by apply silent_flows]
  | |- flows _ _ _ (set_header ?c1 _ _ _) => flow_back c1; [| by apply silent_flows]
  | |- flows _ _ _ (set_peerGoingAway ?c1) => flow_back c1; [| by apply silent_flows]
  | |- flows _ _ _ (emit ?c1 [_]) => flow_back c1; [| apply emit_flows; intros ?Hsane; apply calm_short; [done | done | cbn; (done || lia)]]
  | |- flows _ _ _ (goAway ?c1 _) => flow_back c1; [| apply emit_flows; intros ?Hsane; by apply calm_short]
  | |- flows _ _ _ (emitH2Reset ?c1 _ _) => flow_back c1; [| apply emit_flows; intros ?Hsane; by apply calm_short]
  | |- flows _ _ _ (h2EndBodyIn ?c1 _ _ _) => flow_back c1; [| by apply silent_flows]
  end.
Ltac flow_if := lazymatch goal with |- flows _ _ _ (if ?b then _ else _) => destruct b | |- flows _ _ _ (snd (if ?b then _ else _)) => destruct b | |- flows _ _ _ (fst (if ?b then _ else _)) => destruct b end.
Ltac flow_auto := repeat (first [apply flows_refl | assumption | flow_silent | apply forget_flows]).

Section ops.
  Context {E : h2Env}.
  Implicit Types (c : h2conn E) (x y z : option Z) (id : Z).

Lemma releaseStream_flows c id s : flows None None c (resetStream c id s).
Proof. apply delete_flows. Qed.

Lemma epollRelease_flows c id : flows None None c (epollReleaseH2Stream c id).
Proof. unfold epollReleaseH2Stream. destruct (held c Mapped id); [apply releaseStream_flows | apply flows_refl]. Qed.

Lemma releaseSending_flows c id s : flows None None c (releaseSending c id s).
Proof. unfold releaseSending. eapply flows_trans; [| apply releaseStream_flows]. flow_auto. Qed.

Lemma countReset_flows x c : flows x x c (countReset c).2.
Proof. unfold countReset. destruct (if _ <? _ then _ else _). cbn [snd]. flow_auto. Qed.
Lemma countCtrl_flows x c : flows x x c (countCtrl c).2.
Proof. unfold countCtrl. destruct (if _ <? _ then _ else _). cbn [snd]. flow_auto. Qed.

Lemma charge_flows x y c r : flows x y c r.2 -> flows x y c (h2ChargeLimiter r).2.
Proof. destruct r as [[] c1]; cbn; intros H; flow_auto. Qed.

Lemma held_lookup c p id s : held c p id = Some s -> h_objs c !! id = Some s /\ s_place s = p.
Proof. unfold held. destruct (h_objs c !! id) as [s' |]; [| done]. destruct (bool_decide _) eqn:Eb; [| done]. apply bool_decide_eq_true in Eb. by intros [= ->]. Qed.

Lemma put_after x y c c1 id s s' : flows x y c c1 -> h_objs c1 !! id = Some s -> s_Window s' = s_Window s -> flows x y c (put c1 id s').
Proof. intros H H1 H2. eapply flows_trans; [exact H | by eapply put_flows]. Qed.

(** ** Data *)

(** Frames of data on one stream. *)
Definition dataOf id (max : Z) (f : H2Frame) : Prop := f_type f = H2FrameData /\ f_id f = id /\ zlen (f_payload f) <= max.

Lemma dataOf_sizes id max fs : Forall (dataOf id max) fs -> dataLen fs = payloadSize fs /\ dataOn id fs = payloadSize fs /\ forall id', id' <> id -> dataOn id' fs = 0.
Proof.
  unfold dataLen, dataOn, payloadSize. induction 1 as [| f fs (H1 & H2 & H3) _ (IH1 & IH2 & IH3)]; [done |]. cbn. assert (Hd : dataSize f = zlen (f_payload f)) by (unfold dataSize, isData; by rewrite H1). rewrite Hd, H2, Z.eqb_refl.
  split_and!; [lia | lia |]. intros id' Hne. rewrite (proj2 (Z.eqb_neq id id')) by congruence. by rewrite IH3.
Qed.

Lemma payloadSize_app a b : payloadSize (a ++ b) = payloadSize a + payloadSize b.
Proof. unfold payloadSize. induction a as [| f a IH]; [done |]. cbn. lia. Qed.

Lemma payloadSize_nonneg fs : 0 <= payloadSize fs.
Proof. unfold payloadSize. induction fs as [| f fs IH]; [done |]. cbn. pose proof (zlen_nonneg (f_payload f)). lia. Qed.

Lemma data_flows c id s fs conn s' : h_objs c !! id = Some s -> (sane c -> Forall (dataOf id (maxFrameSize (h_win c))) fs) ->
  (0 < payloadSize fs -> payloadSize fs <= s_Window s /\ payloadSize fs <= connWindow (h_win c)) -> s_Window s' <= s_Window s - payloadSize fs -> conn <= connWindow (h_win c) - payloadSize fs ->
  flows None None c (put (set_connWindow (emit c fs) conn) id s').
Proof.
  intros Hs Hfs Hw Hw' Hconn Hsane. specialize (Hfs Hsane). destruct (dataOf_sizes _ _ _ Hfs) as (D1 & D2 & D3). pose proof (payloadSize_nonneg fs). split.
  - apply mkSane; [| apply Hsane]. intros id' s0. cbn. destruct (decide (id' = id)) as [-> | Hne]; [intros _; by apply (sn_known _ Hsane id s) |]. rewrite lookup_insert_ne by done. apply Hsane.
  - exists fs. apply mkFlow; cbn; try done; [| lia | rewrite D1; intros Hp; destruct (Hw Hp); lia | |].
    + eapply Forall_impl; [exact Hfs |]. intros f (_ & _ & Hf). lia.
    + intros id' Hp. destruct (decide (id' = id)) as [-> | Hne]; [| rewrite D3 in Hp by done; lia]. rewrite D2 in *. exists (s_Window s). split; [unfold win; by rewrite Hs | apply Hw, Hp].
    + intros id' w'. unfold win. cbn. destruct (decide (id' = id)) as [-> | Hne].
      * rewrite lookup_insert_eq. intros [= <-]. exists (s_Window s). rewrite Hs, D2. split; [done | lia].
      * rewrite lookup_insert_ne by done. intros Hw0. exists w'. split; [exact Hw0 |]. rewrite D3 by done. lia.
Qed.

Lemma zlen_slice_le (l : bytes) a n : 0 <= n -> zlen (zslice l a (a + n)) <= n.
Proof. intros Hn. unfold zslice, ztake, zlen. rewrite length_take. lia. Qed.

Lemma chunk_bound c s len limit n flags : h2DataChunk c s len limit = (n, flags) -> 0 < n -> n <= s_Window s /\ n <= connWindow (h_win c) /\ n <= limit.
Proof. unfold h2DataChunk. destruct (_ <=? 0) eqn:E0; intros [= <- <-]; lia. Qed.

Lemma appendLoop_flows fuel c id limit used budget : limit <= maxFrameSize (h_win c) -> flows None None c (appendLoop fuel c id limit used budget).
Proof.
  revert c used. induction fuel as [| fuel IH]; intros c used Hl; cbn [appendLoop]; [apply flows_refl |]. destruct (h_objs c !! id) as [s |] eqn:Es; [| apply flows_refl].
  destruct (_ && _); [| apply flows_refl]. destruct (h2DataChunk c s _ limit) as [n flags] eqn:Ec. destruct (n <=? 0) eqn:En; [apply flows_refl |]. destruct (chunk_bound _ _ _ _ _ _ Ec ltac:(lia)) as (B1 & B2 & B3).
  set (f := dataFrame flags id _). assert (Hf : zlen (f_payload f) <= n) by (apply zlen_slice_le; lia). assert (Hp : payloadSize [f] = zlen (f_payload f)) by (unfold payloadSize; cbn [foldr]; lia).
  eapply flows_trans; [| by apply IH]. unfold h2ConsumeData. apply (data_flows c id s [f]); [done | intros Hs; repeat constructor; lia | lia | cbn [s_Window set_Window]; lia | cbn [emit with_out h_win]; lia].
Qed.

Lemma responseHead_flows c id : flows None None c (h2AppendResponseHead c id).
Proof.
  unfold h2AppendResponseHead. destruct (h_objs c !! id) as [s |] eqn:Es; [| apply flows_refl]. destruct (s_resp s) as [r |] eqn:Er; [| apply flows_refl]. destruct (s_respHeadersSent s); [apply flows_refl |].
  destruct (encodeHead E (h_enc c) r) as [block enc]. eapply flows_trans; [| apply (headers_flows None (put (with_enc c enc) id _))]. eapply put_after; [flow_auto | exact Es | done].
Qed.

Lemma appendWindowed_flows c id budget : flows None None c (h2AppendWindowed c id budget).2.
Proof.
  unfold h2AppendWindowed. cbn [snd]. eapply flows_trans; [apply responseHead_flows |]. apply flows_sane. intros Hs. apply appendLoop_flows. by rewrite frameLimit_max.
Qed.

(** The frames of a direct send and the charge for them. *)
Lemma directLoop_spec fuel c id limit sent budget fs s : h_objs c !! id = Some s -> limit <= maxFrameSize (h_win c) ->
  exists new n, (directLoop fuel c id limit sent budget fs).2 = fs ++ new /\ Forall (dataOf id limit) new /\ payloadSize new <= n /\ (0 < n -> n <= s_Window s /\ n <= connWindow (h_win c)) /\ 0 <= n /\
    exists s', (directLoop fuel c id limit sent budget fs).1 = put (set_connWindow c (connWindow (h_win c) - n)) id s' /\ s_Window s' = s_Window s - n.
Proof.
  revert c sent fs s. induction fuel as [| fuel IH]; intros c sent fs s Hs Hl.
  - exists [], 0. cbn [directLoop snd fst]. split_and!; [by rewrite app_nil_r | by apply Forall_nil | done | lia | done |]. exists s. split; [| lia].
    unfold put, set_connWindow. rewrite Z.sub_0_r. destruct c as [? ? [] ? ? ? ? objs]. cbn in *. by rewrite insert_id.
  - assert (Hstop : exists new n, fs = fs ++ new /\ Forall (dataOf id limit) new /\ payloadSize new <= n /\ (0 < n -> n <= s_Window s /\ n <= connWindow (h_win c)) /\ 0 <= n /\
      exists s', c = put (set_connWindow c (connWindow (h_win c) - n)) id s' /\ s_Window s' = s_Window s - n).
    { exists [], 0. split_and!; [by rewrite app_nil_r | by apply Forall_nil | done | lia | done |]. exists s. split; [| lia]. unfold put, set_connWindow. rewrite Z.sub_0_r. destruct c as [? ? [] ? ? ? ? objs]. cbn in *. by rewrite insert_id. }
    cbn [directLoop]. rewrite Hs. destruct (_ && _ && _); [| exact Hstop]. destruct (h2DataChunk c s _ limit) as [n flags] eqn:Ec. destruct (n <=? 0) eqn:En; [exact Hstop |]. clear Hstop.
    destruct (chunk_bound _ _ _ _ _ _ Ec ltac:(lia)) as (B1 & B2 & B3). set (f := dataFrame flags id _). assert (Hf : zlen (f_payload f) <= n) by (apply zlen_slice_le; lia).
    destruct (IH (h2ConsumeData c id s n) (sent + h2FrameHeaderLen + n) (fs ++ [f]) (set_Window (set_resp s (s_resp s) (s_respOff s + n) (s_respHeadersSent s)) (s_Window s - n))) as (new & m & H1 & H2 & H3 & H4 & H5 & s' & H6 & H7); [by cbn; rewrite lookup_insert_eq | done |].
    cbn [s_Window set_Window h2ConsumeData put set_connWindow with_objs with_win h_win connWindow] in H4, H7. exists (f :: new), (n + m). rewrite H1, <- app_assoc. split_and!; [done | constructor; [split_and!; [done | done | lia] | done] | | intros _; destruct (decide (0 < m)) as [Hm | Hm]; [destruct (H4 Hm); split; lia | split; lia] | lia |].
    + change (payloadSize (f :: new)) with (zlen (f_payload f) + payloadSize new). lia.
    + exists s'. split; [| lia]. rewrite H6. unfold h2ConsumeData, put, set_connWindow. cbn. rewrite insert_insert_eq. by replace (connWindow (h_win c) - (n + m)) with (connWindow (h_win c) - n - m) by lia.
Qed.

Lemma flows_silent_after x y c c1 c2 : flows x y c c1 -> h_out c2 = h_out c1 -> h_objs c2 = h_objs c1 -> h_high c2 = h_high c1 -> h_win c2 = h_win c1 -> flows x y c c2.
Proof. intros H H1 H2 H3 H4. eapply flows_trans; [exact H |]. by apply silent_flows; rewrite ?H4. Qed.

(** What is charged and not sent is given back. *)
Lemma sendFrames_flows c id s fs n s' : h_objs c !! id = Some s -> Forall (dataOf id (maxFrameSize (h_win c))) fs -> payloadSize fs <= n -> (0 < n -> n <= s_Window s /\ n <= connWindow (h_win c)) -> 0 <= n ->
  s_Window s' = s_Window s - n -> flows None None c (h2SendFrames (put (set_connWindow c (connWindow (h_win c) - n)) id s') id fs).
Proof.
  intros Hs Hf Hp Hw Hn Hs'. unfold h2SendFrames. set (k := if _ <? _ then O else _). set (sent := socketAccepts E _ _). pose proof (payloadSize_app (take k fs) (drop k fs)) as Hsum. rewrite take_drop in Hsum.
  pose proof (payloadSize_nonneg (take k fs)) as Ht. pose proof (payloadSize_nonneg (drop k fs)) as Hd. set (u := payloadSize (drop k fs)) in *.
  set (s'' := if u =? 0 then s' else set_Window (set_resp s' (s_resp s') (s_respOff s' + - u) (s_respHeadersSent s')) (s_Window s' - - u)).
  assert (Hw'' : s_Window s'' = s_Window s - n + u) by (subst s''; destruct (u =? 0) eqn:Eu; cbn; lia).
  assert (HF : flows None None c (put (set_connWindow (emit c (take k fs)) (connWindow (h_win c) - n + u)) id s'')).
  { apply (data_flows c id s); [done | intros _; by apply Forall_take | | lia | lia]. intros Hpos. destruct (Hw ltac:(lia)). lia. }
  eapply flows_silent_after; [exact HF |..]; unfold h2UnconsumeFrames, h2ConsumeData; fold u; cbn; rewrite lookup_insert_eq; subst s''; destruct (u =? 0) eqn:Eu; cbn; rewrite ?insert_insert_eq; try done.
  - by replace (connWindow (h_win c) - n + u) with (connWindow (h_win c) - n) by lia.
  - by replace (connWindow (h_win c) - n + u) with (connWindow (h_win c) - n - - u) by lia.
Qed.

Lemma sendWindowed_flows c id budget : flows None None c (h2SendWindowed c id budget).2.
Proof.
  unfold h2SendWindowed. cbv zeta. eapply flows_trans; [apply (responseHead_flows c id) |]. generalize (h2AppendResponseHead c id). clear c. intros c. apply flows_sane. intros Hsane.
  destruct (h_objs c !! id) as [s |] eqn:Es.
  - pose proof (directLoop_spec (bodyFuel c id) c id (dataFrameLimit c) 0 budget [] s Es ltac:(by rewrite frameLimit_max)) as (new & n & H1 & H2 & H3 & H4 & H5 & s' & H6 & H7).
    destruct (directLoop _ c id (dataFrameLimit c) 0 budget []) as [c1 fs]. cbn [fst snd app] in *. subst fs c1. rewrite frameLimit_max in H2 by done. destruct new as [| f new].
    + cbn [snd]. eapply flows_silent_after; [apply (data_flows c id s [] (connWindow (h_win c) - n) s'); [done | intros _; by apply Forall_nil | cbn; lia | cbn; lia | cbn; lia] | cbn; by rewrite app_nil_r | done | done | done].
    + cbn [snd]. by eapply sendFrames_flows.
  - unfold bodyFuel. rewrite Es. cbn [directLoop snd]. apply flows_refl.
Qed.

Lemma emitWindowed_flows c id : flows None None c (h2EmitWindowed c id).2.
Proof. unfold h2EmitWindowed. cbv zeta. destruct (h2SendsDirect c id _); [apply sendWindowed_flows | apply appendWindowed_flows]. Qed.

(** ** Streams *)

Lemma settleParked_flows c id : flows None None c (h2SettleParked c id).
Proof.
  unfold h2SettleParked. destruct (h_objs c !! id) as [s |] eqn:Es; [| apply flows_refl]. cbv zeta. set (c1 := put _ id _). assert (H1 : flows None None c c1) by (eapply put_after; [flow_auto | exact Es | done]).
  flow_if; [| done]. eapply flows_trans; [| apply releaseSending_flows]. flow_auto.
Qed.

Lemma resumeStream_flows c id : flows None None c (h2ResumeStream c id).
Proof.
  unfold h2ResumeStream. pose proof (emitWindowed_flows c id) as H. destruct (h2EmitWindowed c id) as [[] c1]; cbn [snd] in H.
  - destruct (h_objs c1 !! id); [| done]. eapply flows_trans; [exact H | apply releaseSending_flows].
  - eapply flows_trans; [exact H | apply settleParked_flows].
Qed.

Lemma fold_flows {A} (g : h2conn E -> A -> h2conn E) l c : (forall c a, flows None None c (g c a)) -> flows None None c (fold_left g l c).
Proof. intros Hg. revert c. induction l as [| a l IH]; intros c; cbn; [apply flows_refl |]. eapply flows_trans; [apply Hg | apply IH]. Qed.

Lemma resumeSending_flows c id : flows None None c (h2ResumeSending c id).
Proof.
  assert (Hr : forall c id, flows None None c (resumeHeld c id)) by (intros c' id'; unfold resumeHeld; destruct (isHeld c' Sending id'); [apply resumeStream_flows | apply flows_refl]).
  unfold h2ResumeSending. destruct (negb _); [apply Hr |]. eapply flows_trans; [| by apply fold_flows]. flow_auto.
Qed.

(** ** Streamed responses *)

Lemma pumpLoop_flows fuel c id w limit used backlog : 0 <= limit <= maxFrameSize (h_win c) -> flows None None c (pumpLoop fuel c id w limit used backlog).1.
Proof.
  revert c w used. induction fuel as [| fuel IH]; intros c w used Hl; cbn [pumpLoop]; [apply flows_refl |]. destruct (h_objs c !! id) as [s |] eqn:Es; [| apply flows_refl].
  destruct (_ && _); [| apply flows_refl]. cbv zeta. destruct (_ <=? 0) eqn:Ea; [apply flows_refl |]. set (n := Z.min (zlen (w_pending w)) _). set (f := dataFrame _ id _). pose proof (zlen_nonneg (w_pending w)) as Hp0.
  assert (Hn : n <= s_Window s /\ n <= connWindow (h_win c) /\ n <= limit /\ 0 <= n <= zlen (w_pending w)) by lia.
  assert (Hf : zlen (f_payload f) = n) by (apply zlen_take; lia). assert (Hp : payloadSize [f] = n) by (unfold payloadSize; cbn [foldr]; lia).
  eapply flows_trans; [| by apply IH]. apply (data_flows c id s [f]); [done | intros Hs; repeat constructor; lia | lia | cbn [s_Window set_Window]; lia | cbn [emit with_out h_win]; lia].
Qed.

Lemma emptyData_flows c flags id : flows None None c (emit c [dataFrame flags id []]).
Proof. apply emit_flows. intros [_ Hm]. constructor; [| done]. split; [done | cbn; change (zlen (@nil Z)) with 0; lia]. Qed.

(** [h2PumpFrames] from the point where the header block is out. *)
Lemma pumpData_flows c id w backlog : flows None None c
  (let frameLimit := if maxFrameSize (h_win c) <=? 0 then H2DefaultMaxFrameSize else maxFrameSize (h_win c) in
   let '(c, w) := pumpLoop (length (w_pending w)) c id w frameLimit 0 backlog in
   if negb (w_finished w) && w_ended w && (zlen (w_pending w) =? 0)
   then (emit c [dataFrame H2FlagEndStream id []], set_w_data w (w_header w) (w_pending w) (w_headersOut w) true (w_pumpQueued w)) else (c, w)).1.
Proof.
  cbv zeta. apply flows_sane. intros [_ Hm]. replace (maxFrameSize (h_win c) <=? 0) with false by lia. pose proof (pumpLoop_flows (length (w_pending w)) c id w (maxFrameSize (h_win c)) 0 backlog ltac:(lia)) as H.
  destruct (pumpLoop _ c id w _ 0 backlog) as [c1 w1]. cbn [fst] in H. destruct (_ && _); [| exact H]. eapply flows_trans; [exact H | apply emptyData_flows].
Qed.

Lemma pumpFrames_flows c id w backlog : flows None None c (h2PumpFrames c id w backlog).1.
Proof.
  unfold h2PumpFrames. set (w0 := set_w_data w _ _ _ _ false). destruct (w_finished w0); [apply flows_refl |]. destruct (w_err w0); [destruct (w_sendRST w0); cbn [fst]; flow_auto |]. cbv beta.
  destruct (w_headersOut w0); [apply pumpData_flows |]. destruct (w_header w0) as [block |]; [| apply flows_refl]. destruct (if pendingUpdate E (h_enc c) then _ else _) as [update enc]. cbv zeta.
  set (c1 := emit (with_enc c enc) _). assert (H1 : flows None None c c1) by (eapply flows_trans; [| apply (headers_flows None (with_enc c enc))]; flow_auto).
  destruct (w_ended w0 && _); [exact H1 |]. eapply flows_trans; [exact H1 | apply pumpData_flows].
Qed.

Lemma releaseStreaming_flows c id : flows None None c (h2ReleaseStreaming c id).
Proof.
  unfold h2ReleaseStreaming. cbv zeta. destruct (h_objs _ !! id); [eapply flows_trans; [| apply releaseStream_flows] |]; flow_auto.
Qed.

Lemma settleStream_flows c id w : flows None None c (h2SettleStream c id w).
Proof. unfold h2SettleStream. destruct (_ && _); [apply releaseStreaming_flows |]. destruct (_ && _); flow_auto. Qed.

Lemma pumpSealed_flows c id : flows None None c (h2PumpSealed c id).
Proof.
  unfold h2PumpSealed. destruct (h_writers c !! id) as [w |]; [| apply flows_refl]. pose proof (pumpFrames_flows c id w (h2OutputBacklog c)) as H. destruct (h2PumpFrames c id w _) as [c1 w1]. cbn [fst] in H.
  eapply flows_trans; [| apply settleStream_flows]. flow_auto.
Qed.

Lemma uncountEnded_flows c id w : flows None None c (h2UncountEndedEarly c id w).
Proof. unfold h2UncountEndedEarly. cbv zeta. destruct (_ && _); flow_auto. Qed.

Lemma finishStreamed_flows c id w : flows None None c (h2FinishStreamed c id w).
Proof.
  unfold h2FinishStreamed. cbv zeta. set (w1 := set_w_flags w _ _ _ _ _). set (c1 := h2UncountEndedEarly c id w1). assert (H1 : flows None None c c1) by apply uncountEnded_flows. destruct (w_finished w).
  - destruct (h_objs c1 !! id); [eapply flows_trans; [| apply releaseStream_flows] |]; flow_auto.
  - eapply flows_trans; [| apply pumpSealed_flows]. flow_silent. destruct (h_objs _ !! id) as [s |] eqn:Es; [eapply put_after; [| exact Es | done] |]; flow_auto.
Qed.

Lemma cancelStreaming_flows c id : flows None None c (h2CancelStreaming c id).2.
Proof.
  unfold h2CancelStreaming. destruct (h2Streaming c id) as [w |]; [| apply flows_refl]. cbv zeta. destruct (w_handlerDone _); cbn [snd].
  - eapply flows_trans; [| apply releaseStreaming_flows]. flow_auto.
  - destruct (w_endedEarly _); flow_auto.
Qed.

Lemma windowOpened_flows c : flows None None c (h2WindowOpened c).
Proof. unfold h2WindowOpened. destruct (streamingIds c); flow_auto. Qed.

Lemma pumpTask_flows c id : flows None None c (h2PumpTask c id).
Proof. unfold h2PumpTask. destruct (h_writers c !! id); [| apply flows_refl]. eapply flows_trans; [| apply pumpSealed_flows]. flow_auto. Qed.

Lemma pumpAll_flows c : flows None None c (h2PumpAll c).
Proof.
  unfold h2PumpAll. destruct (streamingIds c) as [| i ids].
  - destruct (_ || _); [| apply flows_refl]. unfold h2PumpBuffered. destruct (negb _); [apply resumeSending_flows |]. destruct (_ && _); flow_auto.
  - cbv zeta. set (c1 := fold_left h2PumpSealed _ _). assert (H1 : flows None None c c1) by (eapply flows_trans; [| apply fold_flows; intros; apply pumpSealed_flows]; flow_auto).
    destruct (negb _); [| exact H1]. eapply flows_trans; [exact H1 | apply resumeSending_flows].
Qed.

(** ** Ends and beginnings *)

Lemma abortBodyIn_flows x c id : flows x x c (h2AbortBodyIn c id).2.
Proof. unfold h2AbortBodyIn. destruct (bodyIn c id); cbn [snd]; flow_auto. Qed.

Lemma cancelStreaming_objs c id s : h_objs (h2CancelStreaming c id).2 !! id = Some s -> h_objs c !! id = Some s.
Proof.
  unfold h2CancelStreaming. destruct (h2Streaming c id) as [w |]; [| done]. cbv zeta. destruct (w_handlerDone _); cbn [snd]; [| by destruct (w_endedEarly _)].
  unfold h2ReleaseStreaming. cbv zeta. cbn. destruct (h_objs c !! id) as [s0 |] eqn:Es; cbn; [by rewrite lookup_delete_eq | by rewrite Es].
Qed.

Lemma abandon_flows c id : flows None None c (abandonH2Stream c id).
Proof.
  unfold abandonH2Stream. cbv zeta. eapply flows_trans; [apply (epollRelease_flows c id) |]. generalize (epollReleaseH2Stream c id). clear c. intros c.
  set (c1 := match held c Sending id with Some _ => _ | None => _ end). assert (H1 : flows None None c c1) by (subst c1; destruct (held c Sending id); [apply releaseSending_flows | apply flows_refl]).
  eapply flows_trans; [exact H1 |]. clear H1. clearbody c1. clear c. rename c1 into c. unfold cancelBusyStream. destruct (held c Busy id) as [s |] eqn:Eb; [destruct (s_abandoned s) |].
  - pose proof (cancelStreaming_flows c id) as H. destruct (h2CancelStreaming c id) as [[] c2]; cbn [snd] in H; (eapply flows_trans; [exact H | apply abortBodyIn_flows]).
  - apply held_lookup in Eb as [Eb _]. set (s' := set_abandoned s true _). assert (H0 : flows None None c (put c id s')) by (by eapply put_flows). pose proof (cancelStreaming_flows (put c id s') id) as H.
    assert (Hsome : h2CancelStreaming (put c id s') id = (false, put c id s') \/ (h2CancelStreaming (put c id s') id).1 = true) by (unfold h2CancelStreaming; destruct (h2Streaming _ id); [right; cbv zeta; by destruct (w_handlerDone _) | by left]).
    destruct (h2CancelStreaming (put c id s') id) as [[] c2] eqn:Ecs; cbn [snd fst] in *.
    + eapply flows_trans; [exact H0 |]. eapply flows_trans; [exact H | apply abortBodyIn_flows].
    + destruct Hsome as [[= ->] | ?]; [| done]. eapply flows_trans; [| apply abortBodyIn_flows]. flow_silent. eapply put_after; [exact H0 | cbn; by rewrite lookup_insert_eq | done].
  - pose proof (cancelStreaming_flows c id) as H. destruct (h2CancelStreaming c id) as [[] c2]; cbn [snd] in H; (eapply flows_trans; [exact H | apply abortBodyIn_flows]).
Qed.

Lemma refuse_flows x c id code : flows x x c (refuseH2Stream c id code).2.
Proof. unfold refuseH2Stream. apply charge_flows. eapply flows_trans; [| apply countReset_flows]. flow_auto. Qed.
Lemma refuseEnded_flows x c id : flows x x c (refuseH2StreamForEndedHandlers c id).2.
Proof. unfold refuseH2StreamForEndedHandlers. apply charge_flows. eapply flows_trans; [| apply countCtrl_flows]. flow_auto. Qed.
Lemma reset_flows c id code : flows None None c (resetH2Stream c id code).2.
Proof. unfold resetH2Stream. eapply flows_trans; [apply abandon_flows | apply refuse_flows]. Qed.
Lemma closing_flows x c code : flows x x c (closing c code).2.
Proof. cbn [closing snd]. flow_auto. Qed.

Lemma rejectBody_flows c id : flows None None c (rejectH2Body c id).2.
Proof.
  unfold rejectH2Body. cbv zeta. apply charge_flows. eapply flows_trans; [| apply countReset_flows]. eapply flows_trans; [| apply abortBodyIn_flows]. eapply flows_trans; [| apply epollRelease_flows]. flow_auto.
Qed.

(** What a finished handler leaves to send. *)
Lemma respond_flows c id s r (bodyOpen : bool) : h_objs c !! id = Some s -> flows None None c
  (let c := put c id (set_place (set_resp (set_abandoned s false false) (Some r) 0 false) Sending) in
   let '(done, c) := h2EmitWindowed c id in
   if done then let c := match h_objs c !! id with Some s => resetStream c id s | None => c end in if bodyOpen then emitH2Reset c id H2ErrNoError else c
   else h2SettleParked c id).
Proof.
  intros Hs. cbv zeta. set (c1 := put c id _). assert (H1 : flows None None c c1) by (by eapply put_flows). pose proof (emitWindowed_flows c1 id) as H2. destruct (h2EmitWindowed c1 id) as [[] c2]; cbn [snd] in H2.
  - set (c3 := match h_objs c2 !! id with Some _ => _ | None => _ end). assert (H3 : flows None None c c3).
    { eapply flows_trans; [exact H1 |]. eapply flows_trans; [exact H2 |]. subst c3. destruct (h_objs c2 !! id); [apply releaseStream_flows | apply flows_refl]. }
    destruct bodyOpen; flow_auto.
  - eapply flows_trans; [exact H1 |]. eapply flows_trans; [exact H2 | apply settleParked_flows].
Qed.

Lemma finishDispatch_flows c id r streamed : flows None None c (finishH2Dispatch c id r streamed).
Proof.
  unfold finishH2Dispatch. destruct (held c Busy id) as [s |] eqn:Eb; [| apply flows_refl]. apply held_lookup in Eb as [Es _]. cbv zeta. set (c1 := set_inFlight c _). set (c2 := h2UncountAbandoned c1 id s).
  assert (H2 : flows None None c c2 /\ exists s2, h_objs c2 !! id = Some s2).
  { subst c2. unfold h2UncountAbandoned. cbv zeta. split; [| by eexists; cbn; rewrite lookup_insert_eq]. eapply put_after; [flow_if; subst c1; flow_auto | by destruct (_ && _) | done]. }
  destruct H2 as [H2 (s2 & Hs2)]. assert (Hw : s_Window s2 = s_Window s) by (subst c2; unfold h2UncountAbandoned in Hs2; cbn in Hs2; rewrite lookup_insert_eq in Hs2; by injection Hs2 as <-).
  pose proof (abortBodyIn_flows None c2 id) as H3. assert (Ho : h_objs (h2AbortBodyIn c2 id).2 = h_objs c2) by (unfold h2AbortBodyIn; by destruct (bodyIn c2 id)).
  destruct (h2AbortBodyIn c2 id) as [bodyOpen c3]. cbn [snd] in H3, Ho. assert (Hc3 : flows None None c c3) by (by eapply flows_trans). clear H2 H3. clearbody c2.
  (* the stream of [c3] has the window of [s] *)
  assert (Hfin : forall c4, flows None None c c4 -> h_objs c4 !! id = Some s2 -> flows None None c
    (if s_abandoned s then resetStream c4 id s
     else let r := if streamed then plainResponse 500 unsupportedText else r in let r := if (0 <? MaxWriteSize E) && (MaxWriteSize E <? zlen (r_body r)) then plainResponse 500 tooLargeText else r in
          let c := put c4 id (set_place (set_resp (set_abandoned s false false) (Some r) 0 false) Sending) in
          let '(done, c) := h2EmitWindowed c id in
          if done then let c := match h_objs c !! id with Some s => resetStream c id s | None => c end in if bodyOpen then emitH2Reset c id H2ErrNoError else c
          else h2SettleParked c id)).
  { intros c4 Hc4 Hs4. destruct (s_abandoned s); [eapply flows_trans; [exact Hc4 | apply releaseStream_flows] |]. cbv zeta. set (r' := if _ && _ then _ else _).
    assert (Hput : flows None None c (put c4 id s)) by (eapply put_after; [exact Hc4 | exact Hs4 | done]).
    pose proof (respond_flows (put c4 id s) id s r' bodyOpen ltac:(cbn; by rewrite lookup_insert_eq)) as Hr. cbv zeta in Hr. unfold put at 2 in Hr. cbn [put with_objs h_objs] in Hr. rewrite insert_insert_eq in Hr. eapply flows_trans; [exact Hput | exact Hr]. }
  cbv zeta in Hfin. destruct (h_writers c3 !! id) as [w |]; [| apply Hfin; [done | by rewrite Ho]]. set (w' := if s_abandoned s then _ else _). destruct (w_header w').
  - eapply flows_trans; [| apply finishStreamed_flows]. flow_auto.
  - apply Hfin; [flow_auto | by rewrite <- Ho in Hs2].
Qed.

(** A stream given to a handler: one the connection has, or a new one. *)
Lemma dispatchStream_flows x c id s streamBody : flows x None c c -> (forall s', s_Window s' = s_Window s -> flows x None c (put c id s')) -> flows x None c (epollH2DispatchStream c id s streamBody).2.
Proof.
  intros H0 Hput. unfold epollH2DispatchStream. specialize (Hput (set_place s Busy) eq_refl). destruct (admitRequest E (s_req s) (s_Body s) (s_Trailers s)) as [| r |]; cbn [snd].
  - eapply flows_trans; [| apply closing_flows]. eapply flows_trans; [exact H0 | apply releaseStream_flows].
  - eapply flows_trans; [| apply finishDispatch_flows]. flow_auto.
  - destruct streamBody; [unfold startH2BodyStream |]; flow_auto.
Qed.

Lemma dispatch_flows c id streamBody : flows None None c (epollH2Dispatch c id streamBody).2.
Proof.
  unfold epollH2Dispatch. destruct (held c Mapped id) as [s |] eqn:Eh; [| apply flows_refl]. apply held_lookup in Eh as [Es _]. apply dispatchStream_flows; [apply flows_refl |]. intros s' Hw. by eapply put_flows.
Qed.

Lemma creditConn_flows c n : flows None None c (h2CreditConnWindow c n).
Proof.
  unfold h2CreditConnWindow. cbv zeta. flow_if; [| by apply silent_flows]. flow_silent. by apply silent_flows.
Qed.

Lemma streamBodyData_flows c id i endStream n payload : flows None None c (h2StreamBodyData c id i endStream n payload).2.
Proof.
  unfold h2StreamBodyData. cbv zeta. flow_if; [cbn [snd]; flow_auto |]. flow_if; [eapply flows_trans; [| apply rejectBody_flows]; flow_auto |]. destruct endStream.
  - flow_if; [eapply flows_trans; [| apply rejectBody_flows]; flow_auto | cbn [snd]; flow_auto].
  - flow_if; cbn [snd]; flow_auto.
Qed.

Lemma held_emit c fs p id : held (emit c fs) p id = held c p id.
Proof. done. Qed.

Lemma data_frame_flows c id flags payload : flows None None c (epollH2Data c id flags payload).2.
Proof.
  unfold epollH2Data. destruct (id =? 0); [apply closing_flows |]. cbv zeta. set (c0 := with_win c _). assert (H0 : flows None None c c0) by (by apply silent_flows). flow_if; [eapply flows_trans; [exact H0 | apply closing_flows] |].
  eapply flows_trans; [exact H0 |]. eapply flows_trans; [apply (creditConn_flows c0 (zlen payload)) |]. generalize (h2CreditConnWindow c0 (zlen payload)). clear H0. clearbody c0. clear c c0. intros c.
  destruct (h2StripPadding flags payload) as [body padOK]. destruct (held c Mapped id) as [s |] eqn:Eh.
  - apply held_lookup in Eh as [Es _]. flow_if; [cbn [snd]; flow_auto |]. flow_if; [cbn [snd]; flow_auto |]. set (s1 := set_RecvWindow s _). set (c1 := put c id s1). assert (H1 : flows None None c c1) by (by eapply put_flows).
    assert (Hs1 : h_objs c1 !! id = Some s1) by (cbn; by rewrite lookup_insert_eq). flow_if; [cbn [snd]; eapply flows_trans; [| apply epollRelease_flows]; flow_auto |]. clearbody c1.
    set (kept := if 0 <? zlen body then _ else _).
    assert (Hk : match kept with inr r => flows None None c r.2 | inl (s2, c2) => flows None None c c2 /\ h_objs c2 !! id = Some s2 end).
    { subst kept. destruct (0 <? zlen body); [| by split]. destruct (tryReserveConnBodyBytes _ _ _) as [[] b]; cbn [negb]; [| cbn [snd]; eapply flows_trans; [| apply epollRelease_flows]; flow_auto].
      set (s2 := set_Body s1 _ _). set (c2 := put (with_budget c1 b) id s2). assert (H2 : flows None None c c2) by (eapply put_after; [flow_auto | exact Hs1 | done]). destruct (_ && _); [eapply flows_trans; [exact H2 | apply rejectBody_flows] |]. split; [done |]. cbn. by rewrite lookup_insert_eq. }
    destruct kept as [[s2 c2] | r]; [| exact Hk]. destruct Hk as [H2 Hs2]. flow_if; [cbn [snd]; eapply flows_trans; [| apply epollRelease_flows]; flow_auto |]. flow_if.
    + flow_if; cbn [snd]; [| done]. eapply put_after; [flow_auto | exact Hs2 | done].
    + flow_if; [eapply flows_trans; [exact H2 | apply rejectBody_flows] |]. eapply flows_trans; [| apply dispatch_flows]. eapply put_after; [exact H2 | exact Hs2 | done].
  - destruct (bodyIn c id) as [i |]; [| apply flows_refl]. flow_if; [cbn [snd]; flow_auto | apply streamBodyData_flows].
Qed.

Lemma trailers_flows c id block endStream : flows None None c (epollH2Trailers c id block endStream).2.
Proof.
  unfold epollH2Trailers. destruct (DecodeInto E (h_dec c) block) as [fields dec]. cbv zeta. set (c1 := with_dec c dec). assert (H1 : flows None None c c1) by (by apply silent_flows). eapply flows_trans; [exact H1 |]. clear H1. clearbody c1. clear c. rename c1 into c.
  destruct fields as [fields |]; [| apply closing_flows]. flow_if; [apply rejectBody_flows |]. destruct (held c Mapped id) as [s |] eqn:Eh.
  - apply held_lookup in Eh as [Es _]. flow_if; [cbn [snd]; flow_auto |]. destruct endStream; [| apply rejectBody_flows]. destruct (h2TrailerFields E fields); [| apply rejectBody_flows]. flow_if; [apply rejectBody_flows |].
    eapply flows_trans; [| apply dispatch_flows]. by eapply put_flows.
  - destruct (bodyIn c id) as [i |]; [| apply rejectBody_flows]. destruct endStream; [| apply rejectBody_flows]. destruct (h2TrailerFields E fields); [| apply rejectBody_flows]. flow_if; [apply rejectBody_flows |]. cbn [snd]. flow_auto.
Qed.

Lemma openStream_flows c id headers req endStream : h_objs c !! id = None -> id <= h_high c -> flows (Some id) None c (openStream c id headers req endStream).2.
Proof.
  intros Hn Hh. unfold openStream. cbv zeta. set (s := newStream _ req headers). assert (Hput : forall s', s_Window s' = s_Window s -> flows (Some id) None c (put c id s')) by (intros s' Hw; by apply open_flows).
  destruct endStream.
  - flow_if; [eapply flows_trans; [apply (Hput s eq_refl) | apply rejectBody_flows] |]. apply dispatchStream_flows; [apply forget_flows | exact Hput].
  - flow_if; cbn [snd]; [| by apply Hput]. eapply flows_trans; [apply (Hput (set_State s StreamOpen) eq_refl) | apply dispatch_flows].
Qed.

(** The memoised root response carries no data when its body is empty. *)
Definition rootSilent : Prop := match rootFast E with Some (_, body) => body = [] | None => True end.

Lemma fastRoot_flows x c id : rootSilent -> flows x x c (fastRootAnswer c id).2.
Proof.
  intros Hr. unfold fastRootAnswer, rootSilent in *. destruct (rootFast E) as [[head body] |]; [| apply flows_refl]. subst body. cbv zeta. destruct (requestSlot E (h_tick c)); cbn [snd]; [| flow_auto].
  apply flows_trans with (y := x) (c2 := tick c); [flow_auto |]. apply emit_flows. intros [_ Hm]. cbn in Hm. unfold fastRootFrames. change (zlen (@nil Z)) with 0. cbn [Z.eqb]. destruct (zlen head <=? H2DefaultMaxFrameSize) eqn:El; cbn [andb].
  - replace (0 <=? H2DefaultMaxFrameSize) with true by done. constructor; [| done]. split; [done |]. cbn. unfold H2DefaultMaxFrameSize in El. lia.
  - apply headersFrames_calm. cbn. lia.
Qed.

Lemma decoded_flows c id block endStream fastRoot : rootSilent -> h_objs c !! id = None -> id <= h_high c -> flows (Some id) None c (decodedRequest c id block endStream fastRoot).2.
Proof.
  intros Hr Hn Hh. unfold decodedRequest. destruct (DecodeRequest E (h_dec c) block) as [r dec]. cbv zeta. set (c1 := with_dec c dec). assert (H1 : flows (Some id) (Some id) c c1) by (by apply silent_flows).
  eapply flows_trans; [exact H1 |]. assert (Hn1 : h_objs c1 !! id = None) by done. assert (Hh1 : id <= h_high c1) by done. clear H1 Hn Hh. clearbody c1. clear c. rename c1 into c.
  assert (Hforget : forall c', flows None None c c' -> flows (Some id) None c c') by (intros c' H; eapply flows_trans; [apply forget_flows | exact H]).
  destruct r as [[[headers req] isRoot] | []]; [| apply Hforget, refuse_flows | | apply Hforget, closing_flows].
  - set (p := if endStream && fastRoot && isRoot then _ else _). assert (Hp : flows (Some id) (Some id) c p.2 /\ h_objs p.2 = h_objs c /\ h_high p.2 = h_high c).
    { subst p. destruct (endStream && fastRoot && isRoot); [| split; [apply flows_refl | done]]. split; [by apply fastRoot_flows |]. unfold fastRootAnswer. destruct (rootFast E); [| done]. cbv zeta. by destruct (requestSlot E (h_tick c)). }
    destruct p as [answered c1]. cbn [snd] in Hp. destruct Hp as (Hf & Ho & Hi). eapply flows_trans; [exact Hf |]. rewrite <- Ho in Hn1. rewrite <- Hi in Hh1. clear Hf Ho Hi Hforget. clear c. rename c1 into c.
    assert (Hforget : forall c', flows None None c c' -> flows (Some id) None c c') by (intros c' H; eapply flows_trans; [apply forget_flows | exact H]).
    destruct answered; [apply forget_flows |]. repeat (flow_if; [first [apply Hforget, refuse_flows | apply Hforget, refuseEnded_flows] |]). by apply openStream_flows.
  - unfold answerH2HeaderListTooLarge. destruct (encodeHead E (h_enc c) _) as [b enc]. cbv zeta. apply Hforget, charge_flows. eapply flows_trans; [| apply countReset_flows]. set (c1 := emit (with_enc c enc) _).
    assert (H1 : flows None None c c1) by (eapply flows_trans; [| apply (headers_flows None (with_enc c enc))]; flow_auto). destruct endStream; flow_auto.
Qed.

Lemma decodedHeaders_flows c id block endStream : rootSilent -> flows None None c (epollH2DecodedHeaders c id block endStream).2.
Proof.
  intros Hr. unfold epollH2DecodedHeaders. cbv zeta. flow_if; [apply trailers_flows |]. flow_if.
  { unfold discardH2ClosedStreamHeaders. destruct (DecodeInto E (h_dec c) block) as [fields dec]. cbv zeta. destruct fields; [apply charge_flows; eapply flows_trans; [| apply countReset_flows] | eapply flows_trans; [| apply closing_flows]]; flow_auto. }
  destruct ((id mod 2 =? 0) || (id <=? h_high c)) eqn:Eid; [apply closing_flows |]. assert (Hid : h_high c < id) by lia. flow_if.
  { unfold refuseH2StreamGoingAway. cbn [h_dec with_ids]. destruct (DecodeRequest E (h_dec c) block) as [r dec]. cbv zeta. set (c1 := with_dec _ dec). assert (H1 : flows None None c c1) by (eapply flows_trans; [apply (ids_flows c (h_last c) id Hid) |]; eapply flows_trans; [| apply forget_flows]; by apply silent_flows).
    destruct r as [? | []]; cbn [snd]; try (eapply flows_trans; [exact H1 | apply closing_flows]); flow_auto. }
  apply flows_sane. intros Hsane. assert (Hn : h_objs c !! id = None) by (destruct (h_objs c !! id) as [s |] eqn:Es; [pose proof (sn_known _ Hsane id s Es); lia | done]).
  eapply flows_trans; [apply (ids_flows c id id Hid) |]. change (with_ids (with_ids c (h_last c) id) id id) with (with_ids c id id). set (c0 := with_ids c id id). assert (Hn0 : h_objs c0 !! id = None) by done. assert (Hh0 : id <= h_high c0) by (cbn; lia).
  set (fr := (match rootFast E with Some _ => true | None => false end) && _). clearbody c0. clear c Hid Eid Hsane Hn. rename c0 into c.
  assert (Hfast : forall (b : bool) c, h_objs c !! id = None -> id <= h_high c -> let p := if b then fastRootAnswer c id else (false, c) in flows (Some id) (Some id) c p.2 /\ h_objs p.2 !! id = None /\ id <= h_high p.2).
  { intros b c1 Ho Hh p. subst p. destruct b; [| split; [apply flows_refl | done]]. split; [by apply fastRoot_flows |]. unfold fastRootAnswer. destruct (rootFast E); [| done]. cbv zeta. by destruct (requestSlot E (h_tick c1)). }
  destruct (Hfast (endStream && fr && matchIndexedH2FastRootHeaderBlock block) c Hn0 Hh0) as (F1 & F2 & F3). destruct (if endStream && fr && matchIndexedH2FastRootHeaderBlock block then _ else _) as [answered c1]. cbn [snd] in *.
  eapply flows_trans; [exact F1 |]. destruct answered; [apply forget_flows |]. destruct (Hfast (endStream && fr && MemoizedRootRequest E (h_dec c1) block) c1 F2 F3) as (G1 & G2 & G3).
  destruct (if endStream && fr && MemoizedRootRequest E (h_dec c1) block then _ else _) as [answered c2]. cbn [snd] in *. eapply flows_trans; [exact G1 |]. destruct answered; [apply forget_flows | by apply decoded_flows].
Qed.

Lemma headersFrame_flows c id flags payload : rootSilent -> flows None None c (epollH2Headers c id flags payload).2.
Proof.
  intros Hr. unfold epollH2Headers. destruct (id =? 0); [apply closing_flows |]. cbv zeta. destruct (if Z.land flags H2FlagPadded =? 0 then _ else _) as [p | code]; [| apply closing_flows]. flow_if; [apply closing_flows |]. flow_if; [cbn [snd]; flow_auto | by apply decodedHeaders_flows].
Qed.

Lemma continuation_flows c id flags payload : rootSilent -> flows None None c (epollH2Continuation c id flags payload).2.
Proof.
  intros Hr. unfold epollH2Continuation. set (p := if zlen payload =? 0 then _ else _). assert (Hp : flows None None c p.2) by (subst p; destruct (zlen payload =? 0); [apply charge_flows, countCtrl_flows | apply flows_refl]).
  destruct p as [[] c1]; cbn [snd] in Hp; [exact Hp |]. eapply flows_trans; [exact Hp |]. cbv zeta. flow_if; [eapply flows_trans; [| apply closing_flows]; flow_auto |]. flow_if; [cbn [snd]; flow_auto |].
  eapply flows_trans; [| by apply decodedHeaders_flows]. flow_auto.
Qed.
End ops.

(** ** The peer's books *)

Section books.
  Context {E : h2Env}.
  Implicit Types (c : h2conn E) (p : peer).

(** The connection never thinks it may send more than the peer granted. *)
Record books p c : Prop := mkBooks {
  bk_sane : sane c;
  bk_conn : connWindow (h_win c) <= p_conn p;
  bk_init : initialWindowSize (h_win c) = p_init p;
  bk_max : maxFrameSize (h_win c) = p_max p;
  bk_win : forall id w, win None c id = Some w -> w <= p_init p + adj p id }.

Lemma adj_add p id n id' : adj (mkPeer (p_conn p) (p_init p) (p_max p) (add_adj p id n)) id' = if id =? id' then adj p id + n else adj p id'.
Proof.
  unfold adj at 1, add_adj. cbn. destruct (id =? id') eqn:Eb; [apply Z.eqb_eq in Eb as ->; by rewrite lookup_insert_eq |]. apply Z.eqb_neq in Eb. by rewrite lookup_insert_ne.
Qed.

(** Frames within what is left are accepted, one by one. *)
Lemma sees_all p fs : Forall (fun f => zlen (f_payload f) <= p_max p) fs -> (0 < dataLen fs -> dataLen fs <= p_conn p) -> (forall id, 0 < dataOn id fs -> dataOn id fs <= p_init p + adj p id) ->
  exists p', peer_sees_all p fs = Some p' /\ p_conn p' = p_conn p - dataLen fs /\ p_init p' = p_init p /\ p_max p' = p_max p /\ forall id, adj p' id = adj p id - dataOn id fs.
Proof.
  intros Hs. revert p Hs. induction fs as [| f fs IH]; intros p Hs Hc Hw.
  - exists p. cbn. split_and!; [done | lia | done | done | intros; lia].
  - apply Forall_cons_1 in Hs as [Hf Hs]. change (dataLen (f :: fs)) with (dataSize f + dataLen fs) in *. assert (Hon : forall id, dataOn id (f :: fs) = (if f_id f =? id then dataSize f else 0) + dataOn id fs) by done.
    pose proof (dataSize_nonneg f) as Hn. pose proof (dataOn_bound 0 fs) as Hl. cbn [peer_sees_all]. unfold peer_sees. replace (p_max p <? zlen (f_payload f)) with false by lia. cbv zeta. destruct (dataSize f =? 0) eqn:E0.
    + destruct (IH p Hs) as (p' & H1 & H2 & H3 & H4 & H5); [intros; lia | intros id Hp; specialize (Hw id); rewrite Hon in Hw; destruct (f_id f =? id); lia |]. exists p'. split_and!; [done | lia | done | done |]. intros id. rewrite H5, Hon. destruct (f_id f =? id); lia.
    + specialize (Hw (f_id f)) as Hwf. rewrite Hon, Z.eqb_refl in Hwf. pose proof (dataOn_bound (f_id f) fs). replace (dataSize f <=? p_conn p) with true by lia. replace (dataSize f <=? p_init p + adj p (f_id f)) with true by lia. cbn [andb].
      set (q := mkPeer _ _ _ _). assert (Hq : forall id, adj q id = if f_id f =? id then adj p (f_id f) + - dataSize f else adj p id) by apply (adj_add p (f_id f) (- dataSize f)).
      destruct (IH q Hs) as (p' & H1 & H2 & H3 & H4 & H5).
      * cbn. lia.
      * intros id Hp. rewrite Hq. cbn. specialize (Hw id). rewrite Hon in Hw. destruct (f_id f =? id) eqn:Eb; [apply Z.eqb_eq in Eb; subst id |]; lia.
      * exists p'. split_and!; [done | cbn in H2; lia | done | done |]. intros id. rewrite H5, Hq, Hon. destruct (f_id f =? id) eqn:Eb; [apply Z.eqb_eq in Eb; subst id |]; lia.
Qed.

(** A step within the windows keeps the books. *)
Lemma books_flows p c c' : books p c -> flows None None c c' -> exists fs p', h_out c' = h_out c ++ fs /\ peer_sees_all p fs = Some p' /\ books p' c'.
Proof.
  intros [B1 B2 B3 B4 B5] Hf. destruct (Hf B1) as [Hs [fs [F1 F2 F3 F4 F5 F6 F7 F8]]].
  destruct (sees_all p fs) as (p' & H1 & H2 & H3 & H4 & H5).
  - by rewrite <- B4.
  - intros Hp. specialize (F6 Hp). lia.
  - intros id Hp. destruct (F7 id Hp) as (w & Hw & Hle). specialize (B5 id w Hw). lia.
  - exists fs, p'. split_and!; [done | done |]. apply mkBooks; [done | lia | congruence | congruence |]. intros id w' Hw'. destruct (F8 id w' Hw') as (w & Hw & Hle). specialize (B5 id w Hw). rewrite H3, H5. lia.
Qed.

Lemma books_more p q c : books p c -> p_conn p <= p_conn q -> p_init q = p_init p -> p_max q = p_max p -> (forall id, adj p id <= adj q id) -> books q c.
Proof.
  intros [B1 B2 B3 B4 B5] H1 H2 H3 H4. apply mkBooks; [done | lia | congruence | congruence |]. intros id w Hw. specialize (B5 id w Hw). specialize (H4 id). lia.
Qed.

(** What a step of the run must give. *)
Definition watched p c (r : bool * h2conn E) : Prop := exists p', peer_sees_all p (drop (length (h_out c)) (h_out r.2)) = Some p' /\ (r.1 = false -> books p' r.2).

Lemma watched_flows p c c0 r : books p c0 -> h_out c0 = h_out c -> flows None None c0 r.2 -> watched p c r.
Proof.
  intros Hb Ho Hf. destruct (books_flows p c0 r.2 Hb Hf) as (fs & p' & H1 & H2 & H3). exists p'. rewrite H1, Ho, drop_app_length. by split.
Qed.

(** A connection that closes with a frame that is not data. *)
Lemma watched_closing p c c' f : 16384 <= p_max p -> h_out c' = h_out c ++ [f] -> f_type f <> H2FrameData -> zlen (f_payload f) <= 16384 -> watched p c (true, c').
Proof.
  intros Hp Ho Ht Hl. unfold watched. cbn [fst snd]. rewrite Ho, drop_app_length. destruct (sees_all p [f]) as (p' & H1 & _).
  - constructor; [lia | done].
  - cbn. unfold dataSize, isData. rewrite (proj2 (Z.eqb_neq _ _) Ht). lia.
  - intros id. cbn. unfold dataSize, isData. rewrite (proj2 (Z.eqb_neq _ _) Ht). destruct (f_id f =? id); lia.
  - exists p'. by split.
Qed.

Lemma peer_setting_max p e : 16384 <= p_max p -> 16384 <= p_max (peer_setting p e).
Proof. intros H. unfold peer_setting. repeat split_if; cbn; lia. Qed.

Lemma peer_settings_max es p : 16384 <= p_max p -> 16384 <= p_max (fold_left peer_setting es p).
Proof. revert p. induction es as [| e es IH]; intros p H; cbn; [done |]. by apply IH, peer_setting_max. Qed.

Lemma peer_sends_max p f : 16384 <= p_max p -> 16384 <= p_max (peer_sends p f).
Proof. intros H. unfold peer_sends. repeat split_if; [by apply peer_settings_max | done | done | done]. Qed.

(** Settings that are in order: both sides apply the same. *)
Lemma settings_agree es p c : p_init p = initialWindowSize (h_win c) -> p_max p = maxFrameSize (h_win c) -> let '(ok, c') := settingsLoop c es in
  connWindow (h_win c') = connWindow (h_win c) /\ h_objs c' = h_objs c /\ h_high c' = h_high c /\ (if ok then h_out c' = h_out c else exists code, h_out c' = h_out c ++ [goAwayFrame (h_last c) code]) /\
  (ok = true -> (16384 <= maxFrameSize (h_win c) -> 16384 <= maxFrameSize (h_win c')) /\ let q := fold_left peer_setting es p in p_init q = initialWindowSize (h_win c') /\ p_max q = maxFrameSize (h_win c') /\ p_conn q = p_conn p /\ p_adj q = p_adj p).
Proof.
  revert p c. induction es as [| [id val] es IH]; intros p c H1 H2; cbn [settingsLoop]; [done |]. unfold applySetting. cbn [fold_left].
  assert (Hstep : forall c1, connWindow (h_win c1) = connWindow (h_win c) -> h_objs c1 = h_objs c -> h_high c1 = h_high c -> h_out c1 = h_out c -> h_last c1 = h_last c ->
    p_init (peer_setting p (id, val)) = initialWindowSize (h_win c1) -> p_max (peer_setting p (id, val)) = maxFrameSize (h_win c1) -> (16384 <= maxFrameSize (h_win c) -> 16384 <= maxFrameSize (h_win c1)) ->
    p_conn (peer_setting p (id, val)) = p_conn p -> p_adj (peer_setting p (id, val)) = p_adj p -> let '(ok, c') := settingsLoop c1 es in
    connWindow (h_win c') = connWindow (h_win c) /\ h_objs c' = h_objs c /\ h_high c' = h_high c /\ (if ok then h_out c' = h_out c else exists code, h_out c' = h_out c ++ [goAwayFrame (h_last c) code]) /\
    (ok = true -> (16384 <= maxFrameSize (h_win c) -> 16384 <= maxFrameSize (h_win c')) /\ let q := fold_left peer_setting es (peer_setting p (id, val)) in p_init q = initialWindowSize (h_win c') /\ p_max q = maxFrameSize (h_win c') /\ p_conn q = p_conn p /\ p_adj q = p_adj p)).
  { intros c1 E1 E2 E3 E4 E5 E6 E7 E8 E9 E10. specialize (IH (peer_setting p (id, val)) c1 E6 E7). destruct (settingsLoop c1 es) as [ok c']. rewrite E1, E2, E3, E4, E5, E9, E10 in IH. destruct IH as (I1 & I2 & I3 & I4 & I5). split_and!; [done | done | done | done |].
    intros Hok. destruct (I5 Hok) as [I6 I7]. split; [auto | done]. }
  unfold peer_setting in Hstep |- *. cbn [fst snd] in *. destruct (id =? H2SettingHeaderTableSize) eqn:Ea; [| destruct (id =? H2SettingMaxFrameSize) eqn:Eb; [| destruct (id =? H2SettingInitialWindowSize) eqn:Ec]].
  - assert (id = 1) as -> by (unfold H2SettingHeaderTableSize in Ea; lia). cbn in Hstep |- *. by apply Hstep.
  - destruct ((val <? 16384) || (H2MaxFrameSize <? val)) eqn:Ev; [split_and!; [done | done | done | by eexists | done] |]. replace (16384 <=? val) with true in * by lia. replace (val <=? H2MaxFrameSize) with true in * by lia. cbn [andb] in *. apply Hstep; cbn; try done. lia.
  - destruct (2147483647 <? val) eqn:Ev; [split_and!; [done | done | done | by eexists | done] |]. by apply Hstep.
  - by apply Hstep.
Qed.

Lemma shift_books p q c c1 delta : books p c -> h_objs c1 = h_objs c -> h_high c1 = h_high c -> connWindow (h_win c1) = connWindow (h_win c) -> 16384 <= maxFrameSize (h_win c1) ->
  initialWindowSize (h_win c1) = initialWindowSize (h_win c) + delta -> p_init q = initialWindowSize (h_win c1) -> p_max q = maxFrameSize (h_win c1) -> p_conn q = p_conn p -> p_adj q = p_adj p ->
  books q (with_objs c1 ((fun s => set_Window s (s_Window s + delta)) <$> h_objs c1)).
Proof.
  intros [B1 B2 B3 B4 B5] H1 H2 H3 H4 H5 H6 H7 H8 H9. assert (Ha : forall id, adj q id = adj p id) by (intros id; unfold adj; by rewrite H9). apply mkBooks; cbn; [| lia | congruence | congruence |].
  - apply mkSane; [| done]. intros id s. cbn. rewrite lookup_fmap, H1, H2. destruct (h_objs c !! id) as [s0 |] eqn:Es; [| done]. intros _. by apply (sn_known _ B1 id s0).
  - intros id w. specialize (B5 id). unfold win in *. cbn. rewrite lookup_fmap, Ha, H1, H2, H5 in *. destruct (h_objs c !! id) as [s |]; cbn.
    + intros [= <-]. specialize (B5 _ eq_refl). lia.
    + destruct (_ || _); [| done]. intros [= <-]. specialize (B5 _ eq_refl). lia.
Qed.

Lemma settings_watched p c payload (f : H2Frame) : books p c -> let q := fold_left peer_setting (settingsEntries (length payload) payload) p in
  watched q c (let '(ok, c') := epollH2Settings c payload in if ok then (false, emit c' [settingsAckFrame]) else (true, c')).
Proof.
  intros Hb q. pose proof Hb as [B1 B2 B3 B4 B5]. assert (Hq : 16384 <= p_max q) by (apply peer_settings_max; rewrite <- B4; apply B1). unfold epollH2Settings.
  pose proof (settings_agree (settingsEntries (length payload) payload) p c ltac:(done) ltac:(done)) as Ha. destruct (settingsLoop c _) as [ok c1]. destruct Ha as (A1 & A2 & A3 & A4 & A5). destruct ok; cbn [negb].
  - destruct (A5 eq_refl) as (A6 & A7 & A8 & A9 & A10). fold q in A7, A8, A9, A10. specialize (A6 ltac:(apply B1)). set (delta := initialWindowSize (h_win c1) - initialWindowSize (h_win c)). destruct (delta =? 0) eqn:Ed.
    + assert (Hb1 : books q c1).
      { apply mkBooks; [| lia | done | done |]. { apply mkSane; [| done]. intros id s. rewrite A2, A3. apply B1. }
        intros id w. assert (Hw : win None c1 id = win None c id) by (apply win_eq; [done | done | lia]). rewrite Hw. intros H. specialize (B5 id w H). unfold adj. rewrite A10. fold (adj p id). lia. }
      apply (watched_flows q c c1); [done | done |]. cbn [snd]. flow_auto.
    + pose proof (shift_books p q c c1 delta Hb A2 A3 A1 A6 ltac:(lia) A7 A8 A9 A10) as Hb2. unfold h2ShiftStreamWindows. cbv zeta. set (c2 := with_objs c1 _) in *. destruct (forallb _ _); cbn [negb].
      * apply (watched_flows q c c2); [done | done |]. cbn [snd]. flow_silent. eapply flows_trans; [| apply windowOpened_flows]. destruct (0 <? delta); [apply resumeSending_flows | apply flows_refl].
      * apply (watched_closing q c _ (goAwayFrame (h_last c2) H2ErrFlowControl)); [done | cbn; by rewrite A4 | done | done].
  - destruct A4 as [code A4]. by apply (watched_closing q c c1 (goAwayFrame (h_last c) code)).
Qed.

Lemma credit_books p c id s inc : books p c -> h_objs c !! id = Some s -> 0 <= inc -> books (mkPeer (p_conn p) (p_init p) (p_max p) (add_adj p id inc)) (put c id (set_Window s (s_Window s + inc))).
Proof.
  intros [B1 B2 B3 B4 B5] Hs Hi. apply mkBooks; [| done | done | done |].
  - apply mkSane; [| apply B1]. intros id' s'. cbn. destruct (decide (id' = id)) as [-> | Hne]; [intros _; by apply (sn_known _ B1 id s) |]. rewrite lookup_insert_ne by done. apply B1.
  - intros id' w. rewrite adj_add. specialize (B5 id'). unfold win in *. cbn. destruct (decide (id' = id)) as [-> | Hne].
    + rewrite lookup_insert_eq, Z.eqb_refl. rewrite Hs in B5. intros [= <-]. specialize (B5 _ eq_refl). lia.
    + rewrite lookup_insert_ne, (proj2 (Z.eqb_neq id id')) by done. exact (B5 w).
Qed.

Lemma windowUpdate_watched p c (f : H2Frame) : books p c -> f_type f = H2FrameWindowUpdate -> watched (peer_sends p f) c (epollH2WindowUpdate c (f_id f) (f_payload f)).
Proof.
  intros Hb Ht. pose proof Hb as [B1 B2 B3 B4 B5]. set (id := f_id f). set (inc := Z.land (be_val (f_payload f)) 0x7fffffff). assert (Hinc : 0 <= inc) by (apply Z.land_nonneg; right; lia).
  assert (Hsend : peer_sends p f = if zlen (f_payload f) =? 4 then if id =? 0 then mkPeer (p_conn p + inc) (p_init p) (p_max p) (p_adj p) else mkPeer (p_conn p) (p_init p) (p_max p) (add_adj p id inc) else p) by (unfold peer_sends; rewrite Ht; done).
  unfold epollH2WindowUpdate. rewrite Hsend. destruct (zlen (f_payload f) =? 4); cbn [negb]; [| apply (watched_flows p c c); [done | done | apply closing_flows]]. fold inc. cbv zeta.
  assert (Hmore : id <> 0 -> books (mkPeer (p_conn p) (p_init p) (p_max p) (add_adj p id inc)) c) by (intros _; eapply books_more; [exact Hb | done | done | done |]; intros id'; rewrite adj_add; destruct (id =? id') eqn:Ei; [apply Z.eqb_eq in Ei as <- |]; lia).
  destruct (id =? 0) eqn:E0.
  - destruct (inc =? 0) eqn:Ei.
    + apply (watched_flows _ c c); [| done | apply closing_flows]. eapply books_more; [exact Hb | cbn; lia | done | done | done].
    + set (c1 := set_connWindow c _). assert (Hb1 : books (mkPeer (p_conn p + inc) (p_init p) (p_max p) (p_adj p)) c1) by (apply mkBooks; cbn; [by apply mkSane; apply B1 | lia | done | done | exact B5]).
      destruct (h2MaxWindowSize <? _); (apply (watched_flows _ c c1); [exact Hb1 | done |]); [apply closing_flows |]. cbn [snd]. eapply flows_trans; [apply resumeSending_flows | apply windowOpened_flows].
  - assert (Hid : id <> 0) by lia. set (q := mkPeer _ _ _ (add_adj p id inc)). destruct (inc =? 0) eqn:Ei; [apply (watched_flows q c c); [by apply Hmore | done | apply reset_flows] |].
    assert (Hcredit : forall s (after : h2conn E -> h2conn E), h_objs c !! id = Some s -> (forall c, flows None None c (after c)) ->
      watched q c (match h2CreditWindow c id s inc with None => resetH2Stream c id H2ErrFlowControl | Some c => (false, after c) end)).
    { intros s after Hs Ha. unfold h2CreditWindow. destruct (_ <? _); [apply (watched_flows q c c); [by apply Hmore | done | apply reset_flows] |]. apply (watched_flows q c (put c id (set_Window s (s_Window s + inc)))); [by apply credit_books | done | apply Ha]. }
    assert (Hnone : watched q c (false, c)) by (apply (watched_flows q c c); [by apply Hmore | done | apply flows_refl]).
    destruct (held c Mapped id) as [s |] eqn:E1; [apply held_lookup in E1 as [E1 _]; apply (Hcredit s (fun c => c)); [done | intros; apply flows_refl] |].
    destruct (held c Sending id) as [s |] eqn:E2; [apply held_lookup in E2 as [E2 _]; apply (Hcredit s (fun c => h2ResumeSending c id)); [done | intros; apply resumeSending_flows] |].
    assert (Hbusy : watched q c (if h_high c <? id then (false, c) else match held c Busy id with Some s => match h2CreditWindow c id s inc with None => resetH2Stream c id H2ErrFlowControl | Some c => (false, c) end | None => (false, c) end)).
    { destruct (h_high c <? id); [exact Hnone |]. destruct (held c Busy id) as [s |] eqn:E3; [| exact Hnone]. apply held_lookup in E3 as [E3 _]. apply (Hcredit s (fun c => c)); [done | intros; apply flows_refl]. }
    destruct (h2Streaming c id) as [w |]; [| exact Hbusy]. destruct (h_objs c !! id) as [s |] eqn:E4; [| exact Hbusy]. apply (Hcredit s h2WindowOpened); [done | intros; apply windowOpened_flows].
Qed.

(** ** Every frame of the peer, every event *)

Lemma peer_sends_other p f : f_type f <> H2FrameSettings -> f_type f <> H2FrameWindowUpdate -> peer_sends p f = p.
Proof. intros H1 H2. unfold peer_sends. by rewrite (proj2 (Z.eqb_neq _ _) H1), (proj2 (Z.eqb_neq _ _) H2). Qed.

Lemma closed_watched p c c' code : 16384 <= p_max p -> h_out c' = h_out c -> watched p c (closing c' code).
Proof. intros Hp Ho. apply (watched_closing p c (goAway c' code) (goAwayFrame (h_last c') code)); [done | cbn; by rewrite Ho | done | done]. Qed.

(** The limiter on control frames changes nothing the peer has books on. *)
Lemma countCtrl_same c : h_out (countCtrl c).2 = h_out c /\ h_objs (countCtrl c).2 = h_objs c /\ h_high (countCtrl c).2 = h_high c /\ h_win (countCtrl c).2 = h_win c.
Proof. unfold countCtrl. by destruct (_ <? _). Qed.

Lemma books_same p c c' : books p c -> h_objs c' = h_objs c -> h_high c' = h_high c -> h_win c' = h_win c -> books p c'.
Proof.
  intros [[B0 B1] B2 B3 B4 B5] H1 H2 H3. apply mkBooks; rewrite ?H3; try done; [apply mkSane; rewrite ?H1, ?H2, ?H3; done |].
  intros id w. rewrite (win_eq None c c') by (done || by rewrite H3). apply B5.
Qed.

Lemma watched_from p c c1 r : h_out c1 = h_out c -> watched p c1 r -> watched p c r.
Proof. intros Ho (p' & H1 & H2). exists p'. by rewrite <- Ho. Qed.

Lemma settingsFrame_watched p c f : books p c -> f_type f = H2FrameSettings -> watched (peer_sends p f) c
  (if negb (f_id f =? 0) then closing c H2ErrProtocol
   else if negb (Z.land (f_flags f) H2FlagAck =? 0) then if 0 <? zlen (f_payload f) then closing c H2ErrFrameSize else (false, c)
   else if negb (zlen (f_payload f) mod 6 =? 0) then closing c H2ErrFrameSize
   else let '(ok, c) := epollH2Settings c (f_payload f) in if ok then (false, emit c [settingsAckFrame]) else (true, c)).
Proof.
  intros Hb Ht. assert (Hq : 16384 <= p_max (peer_sends p f)) by (apply peer_sends_max; rewrite <- (bk_max _ _ Hb); apply (bk_sane _ _ Hb)).
  destruct (negb (f_id f =? 0)); [by apply closed_watched |]. destruct (Z.land (f_flags f) H2FlagAck =? 0) eqn:Ea; cbn [negb].
  - destruct (negb _); [by apply closed_watched |]. unfold peer_sends. rewrite Ht, Ea. cbn [andb Z.eqb H2FrameSettings]. by apply settings_watched.
  - assert (peer_sends p f = p) as -> by (unfold peer_sends; rewrite Ht, Ea; done). destruct (0 <? _); [apply closed_watched; [| done]; rewrite <- (bk_max _ _ Hb); apply (bk_sane _ _ Hb) |]. apply (watched_flows p c c); [done | done | apply flows_refl].
Qed.

(** Frames that grant nothing. *)
Lemma quietFrame_flows c f : rootSilent (E := E) -> f_type f <> H2FrameSettings -> f_type f <> H2FrameWindowUpdate -> flows None None c (epollH2Frame c f).2.
Proof.
  intros Hr Hs Hw. unfold epollH2Frame. set (lim := if isCtrl f then h2ChargeLimiter (countCtrl c) else (false, c)). assert (Hl : flows None None c lim.2) by (unfold lim; destruct (isCtrl f); [apply charge_flows, countCtrl_flows | apply flows_refl]).
  destruct lim as [tripped c1]. cbn [snd] in Hl. flow_if; [exact Hl |]. eapply flows_trans; [exact Hl |]. rewrite (proj2 (Z.eqb_neq _ _) Hs), (proj2 (Z.eqb_neq _ _) Hw).
  flow_if; [by apply headersFrame_flows |]. flow_if; [apply closing_flows |]. flow_if; [apply data_frame_flows |]. flow_if.
  { flow_if; [apply closing_flows |]. destruct (zlen (f_payload f) =? 8) eqn:El; cbn [negb]; [| apply closing_flows]. cbn [snd]. flow_if; flow_auto. }
  flow_if. { flow_if; [apply closing_flows |]. apply charge_flows. eapply flows_trans; [apply abandon_flows | apply countReset_flows]. }
  flow_if. { flow_if; [apply closing_flows |]. flow_if; [apply closing_flows |]. cbn [snd]. flow_auto. }
  flow_if; [flow_if; [apply closing_flows | apply flows_refl] |]. flow_if; [apply closing_flows | apply flows_refl].
Qed.

Lemma epollFrame_watched p c f : rootSilent (E := E) -> books p c -> watched (peer_sends p f) c (epollH2Frame c f).
Proof.
  intros Hr Hb. assert (Hq : 16384 <= p_max (peer_sends p f)) by (apply peer_sends_max; rewrite <- (bk_max _ _ Hb); apply (bk_sane _ _ Hb)).
  destruct (decide (f_type f = H2FrameSettings)) as [Hs | Hs]; [| destruct (decide (f_type f = H2FrameWindowUpdate)) as [Hw | Hw]].
  - unfold epollH2Frame. assert (isCtrl f = true) as -> by (unfold isCtrl; by rewrite Hs). pose proof (countCtrl_same c) as (H1 & H2 & H3 & H4). unfold h2ChargeLimiter. destruct (countCtrl c) as [tripped c1]. cbn [snd] in *. destruct tripped.
    + by apply (closed_watched (peer_sends p f) c c1 H2ErrEnhanceYourCalm).
    + rewrite Hs. cbn [Z.eqb H2FrameSettings Pos.eqb]. apply (watched_from _ c c1); [done |]. apply settingsFrame_watched; [| done]. by apply (books_same p c c1).
  - unfold epollH2Frame. assert (isCtrl f = false) as -> by (unfold isCtrl; by rewrite Hw). rewrite Hw. by apply windowUpdate_watched.
  - rewrite peer_sends_other by done. apply (watched_flows p c c); [done | done |]. by apply quietFrame_flows.
Qed.

Lemma frame_watched p c f : rootSilent (E := E) -> books p c -> watched (peer_sends p f) c (h2Frame c f).
Proof.
  intros Hr Hb. unfold h2Frame. cbv zeta. destruct (negb (expectContinuation (h_head c) =? 0)); [| by apply epollFrame_watched].
  destruct (_ || _) eqn:Ef; [apply closed_watched; [| done]; apply peer_sends_max; rewrite <- (bk_max _ _ Hb); apply (bk_sane _ _ Hb) |].
  apply orb_false_iff in Ef as [Ef _]. apply negb_false_iff, Z.eqb_eq in Ef. rewrite peer_sends_other by (by rewrite Ef). apply (watched_flows p c c); [done | done |]. by apply continuation_flows.
Qed.

Lemma bodyAcked_flows c id : flows None None c (h2BodyAcked c id).
Proof.
  unfold h2BodyAcked. destruct (h_bodies c !! id) as [i |]; [| apply flows_refl]. destruct (body_takeAck _) as [n reader]. flow_if; flow_auto.
Qed.

Lemma onWriter_flows c id g : flows None None c (onWriter c id g).
Proof. unfold onWriter. flow_if; flow_auto. Qed.

Lemma onBody_flows c id g : flows None None c (onBody c id g).
Proof. unfold onBody. destruct (h_bodies c !! id); flow_auto. Qed.

(** The events that are not frames. *)
Lemma event_flows c e : (forall f, e <> EvFrame f) -> flows None None c (h2Step c e).2.
Proof.
  intros He. destruct e as [f | id r streamed | id block | id data | id | id | id | id | id n | id | id | n armed | |]; cbn [h2Step snd]; try (apply onWriter_flows || apply onBody_flows).
  - by destruct (He f).
  - apply finishDispatch_flows.
  - apply pumpTask_flows.
  - apply bodyAcked_flows.
  - flow_auto.
  - apply pumpAll_flows.
  - unfold goAwayForShutdown. flow_if; flow_auto.
Qed.

Definition after (p : peer) (e : h2Event) : peer := match e with EvFrame f => peer_sends p f | _ => p end.

Lemma step_watched p c e : rootSilent (E := E) -> books p c -> watched (after p e) c (h2Step c e).
Proof.
  intros Hr Hb. destruct e as [f | | | | | | | | | | | | |] eqn:Ee; try (apply (watched_flows p c c); [done | done |]; by apply event_flows).
  cbn [after h2Step]. destruct (_ <? _); [apply closed_watched; [| done]; apply peer_sends_max; rewrite <- (bk_max _ _ Hb); apply (bk_sane _ _ Hb) |]. by apply frame_watched.
Qed.

Lemma run_watched es p c : rootSilent (E := E) -> books p c -> is_Some (watch p c es).
Proof.
  intros Hr. revert p c. induction es as [| e es IH]; intros p c Hb; [by eexists |]. cbn [watch]. fold (after p e). destruct (step_watched p c e Hr Hb) as (p' & H1 & H2).
  destruct (h2Step c e) as [stop c']. cbn [fst snd] in *. rewrite H1. destruct stop; [by eexists |]. by apply IH, H2.
Qed.
End books.

(** What a client assumes of a server before any frame (RFC 9113). *)
Definition newPeer : peer := mkPeer 65535 65535 16384 ∅.

Lemma init_books E dec enc b : books newPeer (h2Init E dec enc b).
Proof.
  apply mkBooks; [apply mkSane; [| done]; intros id s; cbn; by rewrite lookup_empty | done | done | done |]. intros id w. unfold win, adj. cbn. rewrite !lookup_empty. destruct (_ || _); [| done]. intros [= <-]. unfold H2DefaultWindowSize. lia.
Qed.

(** C11: flow control and frame sizes. A peer that starts with the protocol's
    defaults and keeps account of every frame it sends (settings, also ones that
    shrink the windows of open streams, and window updates) and of every frame
    it receives never sees DATA beyond the connection's window or the stream's,
    nor a frame longer than its SETTINGS_MAX_FRAME_SIZE: for every sequence of
    frames, handler results, streamed writes, pumps and socket events, for
    buffered, streamed and directly sent responses and whatever part of a send
    the socket takes. It holds as long as the memoised response to the root has no
    body ([h2_divergences] shows what happens with one); responses sent from a file
    are in FileSend. *)
Theorem h2_flow_control E dec enc b es : rootSilent (E := E) -> is_Some (watch newPeer (h2Init E dec enc b) es).
Proof. intros Hr. apply run_watched; [done | apply init_books]. Qed.

Definition demoSettings (n : Z) : h2Event := EvFrame (mkH2 H2FrameSettings 0 0 (settingEntry (H2SettingInitialWindowSize, n))).
Definition demoHeaders (id : Z) (flags : Z) : h2Event := EvFrame (mkH2 H2FrameHeaders flags id [71; 0]).
Definition demoUpdate (id n : Z) : h2Event := EvFrame (windowUpdateFrame id n).
Definition demoDone (id : Z) (body : bytes) : h2Event := EvDone id (mkResponse 200 [] [] body) false.

(** A response of ten bytes over a window of four, which a setting makes
    negative before an update opens it again. *)
Definition demoTransfer : list h2Event := [demoSettings 4; demoHeaders 1 5; demoDone 1 [0; 1; 2; 3; 4; 5; 6; 7; 8; 9]; demoSettings 2; demoUpdate 1 3; demoUpdate 1 8].

Lemma h2_flow_control_witness : is_Some (watch newPeer (demoInit None) demoTransfer) /\
  filter (fun f => f_type f = H2FrameData) (h_out (h2Run (demoInit None) demoTransfer).2) = [dataFrame 0 1 [0; 1; 2; 3]; dataFrame 0 1 [4]; dataFrame H2FlagEndStream 1 [5; 6; 7; 8; 9]].
Proof. split; [apply (h2_flow_control (demoH2 None) O tt _ demoTransfer); exact I | by vm_compute]. Defined.

(** A memoised answer to the root with three bytes, to a peer with windows of
    two; and DATA with more padding than payload before a whole request. *)
Definition rootTransfer : list h2Event := [demoSettings 2; EvFrame (mkH2 H2FrameHeaders 5 1 [0x82; 0x84; 0x87])].
Definition paddedUpload : list h2Event :=
  [demoHeaders 1 4; EvFrame (mkH2 H2FrameData H2FlagPadded 1 [9; 1; 1]); EvFrame (mkH2 H2FrameData H2FlagEndStream 1 [65; 66]); demoDone 1 []].

(** Where a connection leaves the protocol. The memoised response to the
    root is sent whatever the windows are and is not charged to them: the peer
    sees DATA beyond its window, and the connection's window is unchanged. And
    DATA with bad padding resets the stream but keeps it: a request on it is
    still given to a handler and answered after the RST_STREAM. *)
Theorem h2_divergences :
  watch newPeer (demoInit (Some ([130], [1; 2; 3]))) rootTransfer = None /\
  connWindow (h_win (h2Run (demoInit (Some ([130], [1; 2; 3]))) rootTransfer).2) = H2DefaultWindowSize /\
  h_calls (h2Run (demoInit None) paddedUpload).2 = [(1, demoRequest 71 0, [65; 66], [])] /\
  h_out (h2Run (demoInit None) paddedUpload).2 = [rstFrame 1 H2ErrProtocol; mkH2 H2FrameHeaders 5 1 [200; 200]].
Proof. by vm_compute. Qed.
