(* ===== verification/H2Serve.v ===== *)
(** What an HTTP/2 connection does with what a peer sends: the windows it gives,
    the header blocks it decodes, the requests it hands to handlers
    (src/core/epoll_h2_linux_amd64.go, epoll_h2_body_linux_amd64.go,
    request_body_stream.go). *)
From stdpp Require Import base list numbers list_numbers gmap.
From Stdlib Require Import ZArith Lia ZifyBool.
From S2P Require Import Prelude BodyBudget H2Frame H2Conn H2Flow.

Open Scope list_scope.
Open Scope Z_scope.

(** ** Steps that answer nothing and take nothing in *)

(** Room a frame gives on the connection. *)
Definition isConnUpdate (f : H2Frame) : bool := (f_type f =? H2FrameWindowUpdate) && (f_id f =? 0).
Definition connGrant (fs : list H2Frame) : Z := foldr (fun f n => (if isConnUpdate f then Z.land (be_val (f_payload f)) 0x7fffffff else 0) + n) 0 fs.

Lemma connGrant_app a b : connGrant (a ++ b) = connGrant a + connGrant b.
Proof. unfold connGrant. induction a as [| f a IH]; [done |]. cbn [app foldr]. lia. Qed.

Lemma connGrant_none fs : Forall (fun f => isConnUpdate f = false) fs -> connGrant fs = 0.
Proof. unfold connGrant. induction 1 as [| f fs Hf _ IH]; [done |]. cbn [foldr]. by rewrite Hf, IH. Qed.

(** A streamed body against its declared length: the reader never got more, an
    open body has not ended, and one that ended got exactly that many bytes. *)
Definition measured (i : h2BodyIn) : Prop :=
  (0 <= i_declared i -> b_received (i_reader i) <= i_declared i) /\ (i_open i = true -> b_eof (i_reader i) = false) /\
  (b_eof (i_reader i) = true -> h2LengthMismatch (i_declared i) (b_received (i_reader i)) = false).

(** While it is open, the bytes counted are those the reader got, until it is
    too large and has failed. *)
Definition counted (i : h2BodyIn) : Prop := i_open i = true ->
  (i_tooLarge i = false -> b_received (i_reader i) = i_received i) /\ (i_tooLarge i = true -> b_err (i_reader i) <> None).

Lemma aborted_measured i err w received tooLarge tunnel : measured i -> measured (mkBodyIn false (body_finish (i_reader i) (Some err)) w received (i_declared i) tooLarge tunnel).
Proof. intros (H1 & H2 & H3). unfold measured, body_finish. cbn. destruct (negb _ && _); by cbn. Qed.

Section still.
  Context {E : h2Env}.
  Implicit Types (c : h2conn E) (id : Z).

(** The decoder, the receiving side and the requests are untouched: frames go
    out, streams leave [st.streams], bodies end. *)
Record still c c' : Prop := mkStill {
  st_calls : h_calls c' = h_calls c;
  st_recv : recvConnWindow (h_win c') = recvConnWindow (h_win c);
  st_pend : pendingConnWindow (h_win c') = pendingConnWindow (h_win c);
  st_dec : h_dec c' = h_dec c;
  st_high : h_high c' = h_high c;
  st_head : h_head c' = h_head c;
  st_out : exists fs, h_out c' = h_out c ++ fs /\ Forall (fun f => isConnUpdate f = false) fs;
  st_mapped : forall id s', held c' Mapped id = Some s' -> exists s, held c Mapped id = Some s /\ s_req s' = s_req s /\ s_Body s' = s_Body s /\ s_RecvWindow s' = s_RecvWindow s;
  st_bodies : forall id, match h_bodies c' !! id, h_bodies c !! id with Some i', Some i => i' = i \/ (i_open i' = false /\ i_declared i' = i_declared i /\ (measured i -> measured i')) | None, None => True | _, _ => False end }.

Lemma still_eq c c' : h_calls c' = h_calls c -> recvConnWindow (h_win c') = recvConnWindow (h_win c) -> pendingConnWindow (h_win c') = pendingConnWindow (h_win c) -> h_dec c' = h_dec c ->
  h_high c' = h_high c -> h_head c' = h_head c -> h_out c' = h_out c -> h_objs c' = h_objs c -> h_bodies c' = h_bodies c -> still c c'.
Proof.
  intros H1 H2 H3 H4 H5 H6 H7 H8 H9. apply mkStill; try done.
  - exists []. by rewrite app_nil_r.
  - intros id s'. unfold held. rewrite H8. intros H. by exists s'.
  - intros id. rewrite H9. destruct (h_bodies c !! id); auto.
Qed.

Lemma still_refl c : still c c.
Proof. by apply still_eq. Qed.

Lemma still_trans c1 c2 c3 : still c1 c2 -> still c2 c3 -> still c1 c3.
Proof.
  intros [A1 A2 A3 A4 A5 A6 (fs & A7 & A7') A8 A9] [B1 B2 B3 B4 B5 B6 (gs & B7 & B7') B8 B9]. apply mkStill; try congruence.
  - exists (fs ++ gs). rewrite B7, A7, app_assoc. split; [done | by apply Forall_app].
  - intros id s3 H3. destruct (B8 id s3 H3) as (s2 & H2 & E1 & E2 & E3). destruct (A8 id s2 H2) as (s1 & H1 & F1 & F2 & F3). exists s1. split_and!; congruence.
  - intros id. specialize (A9 id). specialize (B9 id). destruct (h_bodies c3 !! id) as [i3 |], (h_bodies c2 !! id) as [i2 |], (h_bodies c1 !! id) as [i1 |]; try done. destruct A9 as [-> | (P1 & P2 & P3)], B9 as [-> | (Q1 & Q2 & Q3)]; auto; right; split_and!; [done | congruence | auto].
Qed.

Lemma emit_still c fs : Forall (fun f => isConnUpdate f = false) fs -> still c (emit c fs).
Proof. intros H. apply mkStill; try done; [by exists fs | by eauto |]. intros id. cbn. destruct (h_bodies c !! id); auto. Qed.

(** A stream that is not in [st.streams] when it is put. *)
Lemma put_still c id s : s_place s <> Mapped -> still c (put c id s).
Proof.
  intros Hp. apply mkStill; try done; [by exists []; rewrite app_nil_r | |].
  - intros id' s'. unfold held. cbn. destruct (decide (id' = id)) as [-> | Hne]; [rewrite lookup_insert_eq, bool_decide_false by done; done |]. rewrite lookup_insert_ne by done. intros H. by exists s'.
  - intros id'. cbn. destruct (h_bodies c !! id'); auto.
Qed.

(** A stream put back where it was. *)
Lemma put_back_still c id s s' : h_objs c !! id = Some s -> s_place s' = s_place s -> s_req s' = s_req s -> s_Body s' = s_Body s -> s_RecvWindow s' = s_RecvWindow s -> still c (put c id s').
Proof.
  intros Hs H1 H2 H3 H4. apply mkStill; try done; [by exists []; rewrite app_nil_r | |].
  - intros id' s1. unfold held. cbn. destruct (decide (id' = id)) as [-> | Hne]; [| rewrite lookup_insert_ne by done; intros H; by exists s1]. rewrite lookup_insert_eq, Hs, H1. destruct (bool_decide _); [| done]. intros [= <-]. by exists s.
  - intros id'. cbn. destruct (h_bodies c !! id'); auto.
Qed.

Lemma delete_still c id b : still c (with_budget (with_objs c (delete id (h_objs c))) b).
Proof.
  apply mkStill; try done; [by exists []; rewrite app_nil_r | |].
  - intros id' s'. unfold held. cbn. destruct (decide (id' = id)) as [-> | Hne]; [by rewrite lookup_delete_eq |]. rewrite lookup_delete_ne by done. intros H. by exists s'.
  - intros id'. cbn. destruct (h_bodies c !! id'); auto.
Qed.

(** A body that ends. *)
Lemma endBody_still c id i i' : h_bodies c !! id = Some i -> i_open i' = false -> i_declared i' = i_declared i -> (measured i -> measured i') -> still c (set_body c id i').
Proof.
  intros Hi Ho Hd Hm. apply mkStill; try done; [by exists []; rewrite app_nil_r | by eauto |]. intros id'. cbn. destruct (decide (id' = id)) as [-> | Hne]; [rewrite lookup_insert_eq, Hi; auto |]. rewrite lookup_insert_ne by done. destruct (h_bodies c !! id'); auto.
Qed.

Lemma headersFrames_still flags id max block : Forall (fun f => isConnUpdate f = false) (headersFrames flags id max block).
Proof.
  unfold headersFrames. destruct (max <? zlen block); repeat constructor. generalize (length block) as fuel, (zdrop max block) as rest. intros fuel. induction fuel as [| fuel IH]; intros rest; cbn [continuations]; [by constructor |]. repeat split_if; repeat constructor; apply IH.
Qed.
End still.

Ltac still_back c1 := match goal with |- still ?c _ => apply (still_trans c c1 _) end.
Ltac still_step :=
  lazymatch goal with
  | |- still ?c ?c => apply still_refl
  | |- still _ (with_enc ?c1 _) => still_back c1; [| by apply still_eq]
  | |- still _ (with_lim ?c1 _) => still_back c1; [| by apply still_eq]
  | |- still _ (with_writers ?c1 _) => still_back c1; [| by apply still_eq]
  | |- still _ (with_cnt ?c1 _) => still_back c1; [| by apply still_eq]
  | |- still _ (with_away ?c1 _) => still_back c1; [| by apply still_eq]
  | |- still _ (with_budget ?c1 _) => still_back c1; [| by apply still_eq]
  | |- still _ (with_sent ?c1 _) => still_back c1; [| by apply still_eq]
  | |- still _ (tick ?c1) => still_back c1; [| by apply still_eq]
  | |- still _ (set_connWindow ?c1 _) => still_back c1; [| by apply still_eq]
  | |- still _ (set_writer ?c1 _ _) => still_back c1; [| by apply still_eq]
  | |- still _ (drop_writer ?c1 _) => still_back c1; [| by apply still_eq]
  | |- still _ (set_ended ?c1 _) => still_back c1; [| by apply still_eq]
  | |- still _ (set_draining ?c1 _) => still_back c1; [| by apply still_eq]
  | |- still _ (set_inFlight ?c1 _) => still_back c1; [| by apply still_eq]
  | |- still _ (set_pumpDue ?c1) => still_back c1; [| by apply still_eq]
  | |- still _ (set_peerGoingAway ?c1) => still_back c1; [| by apply still_eq]
  | |- still _ (emit ?c1 _) => still_back c1; [| apply emit_still; first [apply headersFrames_still | by repeat constructor]]
  | |- still _ (goAway ?c1 _) => still_back c1; [| apply emit_still; by repeat constructor]
  | |- still _ (emitH2Reset ?c1 _ _) => still_back c1; [| apply emit_still; by repeat constructor]
  | |- still _ (resetStream ?c1 _ _) => still_back c1; [| apply delete_still]
  | |- still _ (if ?b then _ else _) => destruct b
  | |- still _ (snd (if ?b then _ else _)) => destruct b
  | |- still _ (fst (if ?b then _ else _)) => destruct b
  | |- still _ (snd (_, _)) => cbn [snd]
  | |- still _ (fst (_, _)) => cbn [fst]
  end.
Ltac still_auto := repeat (first [assumption | still_step]).

Section ops.
  Context {E : h2Env}.
  Implicit Types (c : h2conn E) (id : Z).

Lemma epollRelease_still c id : still c (epollReleaseH2Stream c id).
Proof. unfold epollReleaseH2Stream. destruct (held c Mapped id); still_auto. Qed.

Lemma releaseSending_still c id s : still c (releaseSending c id s).
Proof. unfold releaseSending. still_auto. Qed.

Lemma countReset_still c : still c (countReset c).2.
Proof. unfold countReset. destruct (if _ <? _ then _ else _). still_auto. Qed.
Lemma countCtrl_still c : still c (countCtrl c).2.
Proof. unfold countCtrl. destruct (if _ <? _ then _ else _). still_auto. Qed.
Lemma charge_still c r : still c r.2 -> still c (h2ChargeLimiter r).2.
Proof. destruct r as [[] c1]; cbn; intros H; still_auto. Qed.

Lemma consume_still c id s n : h_objs c !! id = Some s -> still c (h2ConsumeData c id s n).
Proof. intros Hs. unfold h2ConsumeData. still_back (set_connWindow c (connWindow (h_win c) - n)); [still_auto |]. by eapply put_back_still. Qed.

Lemma responseHead_still c id : still c (h2AppendResponseHead c id).
Proof.
  unfold h2AppendResponseHead. destruct (h_objs c !! id) as [s |] eqn:Es; [| still_auto]. destruct (s_resp s) as [r |]; [| still_auto]. destruct (s_respHeadersSent s); [still_auto |]. destruct (encodeHead E (h_enc c) r) as [block enc]. still_step.
  still_back (with_enc c enc); [still_auto |]. by eapply put_back_still.
Qed.

Lemma appendLoop_still fuel c id limit used budget : still c (appendLoop fuel c id limit used budget).
Proof.
  revert c used. induction fuel as [| fuel IH]; intros c used; cbn [appendLoop]; [still_auto |]. destruct (h_objs c !! id) as [s |] eqn:Es; [| still_auto]. destruct (_ && _); [| still_auto]. destruct (h2DataChunk c s _ limit) as [n flags]. destruct (n <=? 0); [still_auto |].
  eapply still_trans; [| apply IH]. eapply still_trans; [| by apply consume_still]. still_auto.
Qed.

Lemma directLoop_still fuel c id limit sent budget fs : still c (directLoop fuel c id limit sent budget fs).1 /\
  (Forall (fun f => isConnUpdate f = false) fs -> Forall (fun f => isConnUpdate f = false) (directLoop fuel c id limit sent budget fs).2).
Proof.
  revert c sent fs. induction fuel as [| fuel IH]; intros c sent fs; cbn [directLoop]; [split; [still_auto | done] |]. destruct (h_objs c !! id) as [s |] eqn:Es; [| split; [still_auto | done]].
  destruct (_ && _ && _); [| split; [still_auto | done]]. destruct (h2DataChunk c s _ limit) as [n flags]. destruct (n <=? 0); [split; [still_auto | done] |].
  destruct (IH (h2ConsumeData c id s n) (sent + h2FrameHeaderLen + n) (fs ++ [dataFrame flags id (zslice (bodyOf s) (s_respOff s) (s_respOff s + n))])) as [I1 I2]. split; [eapply still_trans; [by apply consume_still | exact I1] |]. intros H. apply I2. apply Forall_app. split; [done | by repeat constructor].
Qed.

Lemma sendFrames_still c id fs : Forall (fun f => isConnUpdate f = false) fs -> still c (h2SendFrames c id fs).
Proof.
  intros Hf. unfold h2SendFrames, h2UnconsumeFrames. cbv zeta. set (kept := if _ <? _ then _ else _). set (c1 := with_sent _ _). assert (H1 : still c c1) by (subst c1; still_step; still_back (tick c); [still_auto | apply emit_still; by apply Forall_take]).
  destruct (h_objs c1 !! id) as [s |] eqn:Es; [| done]. destruct (_ =? 0); [done |]. eapply still_trans; [exact H1 | by apply consume_still].
Qed.

Lemma emitWindowed_still c id : still c (h2EmitWindowed c id).2.
Proof.
  unfold h2EmitWindowed. cbv zeta. destruct (h2SendsDirect c id _).
  - unfold h2SendWindowed. cbv zeta. generalize (h2DirectSendHighMark - h2OutputBacklog c). intros budget. eapply still_trans; [apply (responseHead_still c id) |]. generalize (h2AppendResponseHead c id). clear c. intros c.
    pose proof (directLoop_still (bodyFuel c id) c id (dataFrameLimit c) 0 budget []) as [H1 H2]. destruct (directLoop (bodyFuel c id) c id (dataFrameLimit c) 0 budget []) as [c1 fs]. cbn [fst snd] in *. destruct fs as [| f fs]; [done |].
    eapply still_trans; [exact H1 |]. apply sendFrames_still. by apply H2.
  - unfold h2AppendWindowed. cbn [snd]. eapply still_trans; [apply responseHead_still | apply appendLoop_still].
Qed.

Lemma settleParked_still c id : still c (h2SettleParked c id).
Proof.
  unfold h2SettleParked. destruct (h_objs c !! id) as [s |] eqn:Es; [| still_auto]. cbv zeta. set (c1 := put _ id _). assert (H1 : still c c1) by (eapply still_trans; [| by eapply (put_back_still (with_cnt c _) id s)]; still_auto).
  still_step; [| done]. eapply still_trans; [| apply releaseSending_still]. still_auto.
Qed.

Lemma resumeStream_still c id : still c (h2ResumeStream c id).
Proof.
  unfold h2ResumeStream. pose proof (emitWindowed_still c id) as H. destruct (h2EmitWindowed c id) as [[] c1]; cbn [snd] in H.
  - destruct (h_objs c1 !! id); [| done]. eapply still_trans; [exact H | apply releaseSending_still].
  - eapply still_trans; [exact H | apply settleParked_still].
Qed.

Lemma fold_still {A} (g : h2conn E -> A -> h2conn E) l c : (forall c a, still c (g c a)) -> still c (fold_left g l c).
Proof. intros Hg. revert c. induction l as [| a l IH]; intros c; cbn; [still_auto |]. eapply still_trans; [apply Hg | apply IH]. Qed.

Lemma resumeSending_still c id : still c (h2ResumeSending c id).
Proof.
  assert (Hr : forall c id, still c (resumeHeld c id)) by (intros c' id'; unfold resumeHeld; destruct (isHeld c' Sending id'); [apply resumeStream_still | still_auto]).
  unfold h2ResumeSending. destruct (negb _); [apply Hr |]. eapply still_trans; [| by apply fold_still]. still_auto.
Qed.

(** *** Streamed responses *)

Lemma pumpLoop_still fuel c id w limit used backlog : still c (pumpLoop fuel c id w limit used backlog).1.
Proof.
  revert c w used. induction fuel as [| fuel IH]; intros c w used; cbn [pumpLoop]; [still_auto |]. destruct (h_objs c !! id) as [s |] eqn:Es; [| still_auto]. destruct (_ && _); [| still_auto]. cbv zeta. destruct (_ <=? 0); [still_auto |].
  eapply still_trans; [| apply IH]. match goal with |- still _ (put ?c1 _ _) => still_back c1 end; [still_auto |]. by eapply put_back_still.
Qed.

Lemma pumpFrames_still c id w backlog : still c (h2PumpFrames c id w backlog).1.
Proof.
  unfold h2PumpFrames. set (w0 := set_w_data w _ _ _ _ false). destruct (w_finished w0); [still_auto |]. destruct (w_err w0); [still_auto |]. cbv beta zeta.
  assert (Hdata : forall c w limit, still c (let '(c, w) := pumpLoop (length (w_pending w)) c id w limit 0 backlog in
    if negb (w_finished w) && w_ended w && (zlen (w_pending w) =? 0)
    then (emit c [dataFrame H2FlagEndStream id []], set_w_data w (w_header w) (w_pending w) (w_headersOut w) true (w_pumpQueued w)) else (c, w)).1).
  { intros c1 w1 limit. pose proof (pumpLoop_still (length (w_pending w1)) c1 id w1 limit 0 backlog) as H. destruct (pumpLoop _ c1 id w1 limit 0 backlog) as [c2 w2]. cbn [fst] in H. still_auto. }
  destruct (w_headersOut w0); [apply Hdata |]. destruct (w_header w0) as [block |]; [| still_auto]. destruct (if pendingUpdate E (h_enc c) then _ else _) as [update enc]. still_step; [still_auto |]. eapply still_trans; [| apply Hdata]. still_auto.
Qed.

Lemma releaseStreaming_still c id : still c (h2ReleaseStreaming c id).
Proof. unfold h2ReleaseStreaming. cbv zeta. destruct (h_objs _ !! id); still_auto. Qed.

Lemma pumpSealed_still c id : still c (h2PumpSealed c id).
Proof.
  unfold h2PumpSealed. destruct (h_writers c !! id) as [w |]; [| still_auto]. pose proof (pumpFrames_still c id w (h2OutputBacklog c)) as H. destruct (h2PumpFrames c id w _) as [c1 w1]. cbn [fst] in H.
  unfold h2SettleStream. still_step; [eapply still_trans; [| apply releaseStreaming_still] |]; still_auto.
Qed.

Lemma finishStreamed_still c id w : still c (h2FinishStreamed c id w).
Proof.
  unfold h2FinishStreamed. cbv zeta. set (w1 := set_w_flags w _ _ _ _ _). set (c1 := h2UncountEndedEarly c id w1). assert (H1 : still c c1) by (subst c1; unfold h2UncountEndedEarly; cbv zeta; still_auto). destruct (w_finished w).
  - destruct (h_objs c1 !! id); still_auto.
  - eapply still_trans; [| apply pumpSealed_still]. still_step. destruct (h_objs _ !! id) as [s |]; [| still_auto]. match goal with |- still _ (put ?c2 _ _) => still_back c2 end; [still_auto | by apply put_still].
Qed.

Lemma cancelStreaming_still c id : still c (h2CancelStreaming c id).2.
Proof. unfold h2CancelStreaming. destruct (h2Streaming c id) as [w |]; [| still_auto]. cbv zeta. destruct (w_handlerDone _); cbn [snd]; [eapply still_trans; [| apply releaseStreaming_still] |]; still_auto. Qed.

Lemma windowOpened_still c : still c (h2WindowOpened c).
Proof. unfold h2WindowOpened. destruct (streamingIds c); still_auto. Qed.

Lemma pumpTask_still c id : still c (h2PumpTask c id).
Proof. unfold h2PumpTask. destruct (h_writers c !! id); [| still_auto]. eapply still_trans; [| apply pumpSealed_still]. still_auto. Qed.

Lemma pumpAll_still c : still c (h2PumpAll c).
Proof.
  unfold h2PumpAll. destruct (streamingIds c) as [| i ids].
  - still_step; [| still_auto]. unfold h2PumpBuffered. still_step; [apply resumeSending_still |]. cbv zeta. still_auto.
  - cbv zeta. set (c1 := fold_left h2PumpSealed _ _). assert (H1 : still c c1) by (eapply still_trans; [| apply fold_still; intros; apply pumpSealed_still]; still_auto).
    still_step; [| exact H1]. eapply still_trans; [exact H1 | apply resumeSending_still].
Qed.

(** *** Ends *)

Lemma bodyIn_lookup c id i : bodyIn c id = Some i -> h_bodies c !! id = Some i /\ i_open i = true.
Proof. unfold bodyIn. destruct (h_bodies c !! id) as [i' |]; [| done]. destruct (i_open i') eqn:Eo; [| done]. by intros [= ->]. Qed.

Lemma abortBodyIn_still c id : still c (h2AbortBodyIn c id).2.
Proof. unfold h2AbortBodyIn. destruct (bodyIn c id) as [i |] eqn:Ei; cbn [snd]; [| still_auto]. apply bodyIn_lookup in Ei as [Ei _]. eapply endBody_still; [exact Ei | done | done | exact (aborted_measured i _ _ _ _ _)]. Qed.

Lemma abandon_still c id : still c (abandonH2Stream c id).
Proof.
  unfold abandonH2Stream. cbv zeta. eapply still_trans; [apply (epollRelease_still c id) |]. generalize (epollReleaseH2Stream c id). clear c. intros c.
  set (c1 := match held c Sending id with Some _ => _ | None => _ end). assert (H1 : still c c1) by (subst c1; destruct (held c Sending id); [apply releaseSending_still | still_auto]). clearbody c1.
  assert (H2 : still c (cancelBusyStream c1 id).2 /\ forall s, (cancelBusyStream c1 id).1 = Some s -> s_place s = Busy).
  { unfold cancelBusyStream. destruct (held c1 Busy id) as [s |] eqn:Eb; [| done]. apply held_lookup in Eb as [_ Hp]. destruct (s_abandoned s); [done |]. split; [cbn [snd]; eapply still_trans; [exact H1 | apply put_still; by rewrite <- Hp || cbn; congruence] |]. intros s' [= <-]. exact Hp. }
  destruct (cancelBusyStream c1 id) as [abandoned c2]. cbn [fst snd] in H2. destruct H2 as [H2 Hp]. pose proof (cancelStreaming_still c2 id) as H3. destruct (h2CancelStreaming c2 id) as [streamed c3]. cbn [snd] in H3.
  assert (H4 : still c c3) by (by eapply still_trans). eapply still_trans; [| apply abortBodyIn_still]. destruct streamed; [done |]. destruct abandoned as [s |]; [| done]. still_step. still_back c3; [done |]. apply put_still. cbn. rewrite (Hp s eq_refl). done.
Qed.

Lemma refuse_still c id code : still c (refuseH2Stream c id code).2.
Proof. unfold refuseH2Stream. apply charge_still. eapply still_trans; [| apply countReset_still]. still_auto. Qed.
Lemma refuseEnded_still c id : still c (refuseH2StreamForEndedHandlers c id).2.
Proof. unfold refuseH2StreamForEndedHandlers. apply charge_still. eapply still_trans; [| apply countCtrl_still]. still_auto. Qed.
Lemma reset_still c id code : still c (resetH2Stream c id code).2.
Proof. unfold resetH2Stream. eapply still_trans; [apply abandon_still | apply refuse_still]. Qed.
Lemma closing_still c code : still c (closing c code).2.
Proof. unfold closing. still_auto. Qed.
Lemma rejectBody_still c id : still c (rejectH2Body c id).2.
Proof. unfold rejectH2Body. cbv zeta. apply charge_still. eapply still_trans; [| apply countReset_still]. eapply still_trans; [| apply abortBodyIn_still]. eapply still_trans; [| apply epollRelease_still]. still_auto. Qed.

(** *** Handlers that return *)

Lemma finishDispatch_still c id r streamed : still c (finishH2Dispatch c id r streamed).
Proof.
  unfold finishH2Dispatch. destruct (held c Busy id) as [s |] eqn:Eb; [| still_auto]. apply held_lookup in Eb as [_ Hp]. cbv zeta. set (c1 := set_inFlight c _). assert (H1 : still c c1) by (subst c1; still_auto). clearbody c1.
  set (c2 := h2UncountAbandoned c1 id s). assert (H2 : still c c2) by (subst c2; unfold h2UncountAbandoned; cbv zeta; match goal with |- still _ (put ?c3 _ _) => still_back c3 end; [still_auto | apply put_still; cbn; by rewrite Hp]). clearbody c2.
  pose proof (abortBodyIn_still c2 id) as H3. destruct (h2AbortBodyIn c2 id) as [bodyOpen c3]. cbn [snd] in H3. assert (Hc3 : still c c3) by (by eapply still_trans). clear H1 H2 H3.
  assert (Hfin : forall c4 r, still c c4 -> still c
    (if s_abandoned s then resetStream c4 id s
     else let '(done, c) := h2EmitWindowed (put c4 id (set_place (set_resp (set_abandoned s false false) (Some r) 0 false) Sending)) id in
          if done then if bodyOpen then emitH2Reset (match h_objs c !! id with Some s => resetStream c id s | None => c end) id H2ErrNoError else match h_objs c !! id with Some s => resetStream c id s | None => c end
          else h2SettleParked c id)).
  { intros c4 r' Hc4. destruct (s_abandoned s); [still_auto |]. set (c5 := put c4 id _). assert (H5 : still c c5) by (still_back c4; [done | by apply put_still]). clearbody c5. pose proof (emitWindowed_still c5 id) as H6. destruct (h2EmitWindowed c5 id) as [[] c6]; cbn [snd] in H6.
    - assert (H7 : still c (match h_objs c6 !! id with Some s => resetStream c6 id s | None => c6 end)) by (destruct (h_objs c6 !! id); [still_step |]; by eapply still_trans). still_auto.
    - eapply still_trans; [exact H5 |]. eapply still_trans; [exact H6 | apply settleParked_still]. }
  destruct (h_writers c3 !! id) as [w |]; [| by apply Hfin]. set (w' := if s_abandoned s then _ else _). destruct (w_header w').
  - eapply still_trans; [| apply finishStreamed_still]. still_auto.
  - apply Hfin. still_auto.
Qed.

(** *** Settings, window updates and the events that are not frames *)

Lemma settings_still c es : still c (settingsLoop c es).2.
Proof.
  revert c. induction es as [| e es IH]; intros c; cbn [settingsLoop]; [still_auto |]. assert (He : match applySetting c e with inl c' => still c c' | inr _ => True end).
  { unfold applySetting. destruct e as [id val]. repeat split_if; first [exact I | by apply still_eq]. }
  destruct (applySetting c e) as [c' | code]; [eapply still_trans; [exact He | apply IH] | still_auto].
Qed.

Lemma shift_still c delta : still c (h2ShiftStreamWindows c delta).2.
Proof.
  unfold h2ShiftStreamWindows. cbn [snd]. apply mkStill; try done; [by exists []; rewrite app_nil_r | |].
  - intros id s'. unfold held. cbn. rewrite lookup_fmap. destruct (h_objs c !! id) as [s |]; [| done]. cbn. destruct (bool_decide (s_place s = Mapped)); [| done]. intros [= <-]. by exists s.
  - intros id. cbn. destruct (h_bodies c !! id); auto.
Qed.

Lemma epollSettings_still c payload : still c (epollH2Settings c payload).2.
Proof.
  unfold epollH2Settings. pose proof (settings_still c (settingsEntries (length payload) payload)) as H. destruct (settingsLoop c _) as [[] c1]; cbn [snd negb] in *; [| done]. set (delta := _ - _). destruct (delta =? 0); [done |].
  pose proof (shift_still c1 delta) as H2. destruct (h2ShiftStreamWindows c1 delta) as [[] c2]; cbn [snd negb] in *; [| still_step; by eapply still_trans].
  eapply still_trans; [| apply windowOpened_still]. still_step; [eapply still_trans; [| apply resumeSending_still] |]; by eapply still_trans.
Qed.

Lemma windowUpdate_still c id payload : still c (epollH2WindowUpdate c id payload).2.
Proof.
  unfold epollH2WindowUpdate. cbv zeta. set (inc := Z.land _ _). still_step; [apply closing_still |]. still_step; [still_step; [apply closing_still | apply reset_still] |]. still_step.
  { still_step; [eapply still_trans; [| apply closing_still]; still_auto |]. cbn [snd]. eapply still_trans; [| apply windowOpened_still]. eapply still_trans; [| apply resumeSending_still]. still_auto. }
  assert (Hcredit : forall s (after : h2conn E -> h2conn E), h_objs c !! id = Some s -> (forall c, still c (after c)) ->
    still c (match h2CreditWindow c id s inc with None => resetH2Stream c id H2ErrFlowControl | Some c => (false, after c) end).2).
  { intros s after Hs Ha. unfold h2CreditWindow. destruct (_ <? _); [apply reset_still |]. cbn [snd]. eapply still_trans; [| apply Ha]. by eapply put_back_still. }
  destruct (held c Mapped id) as [s |] eqn:E1; [apply held_lookup in E1 as [E1 _]; apply (Hcredit s (fun c => c)); [done | intros; apply still_refl] |].
  destruct (held c Sending id) as [s |] eqn:E2; [apply held_lookup in E2 as [E2 _]; apply (Hcredit s (fun c => h2ResumeSending c id)); [done | intros; apply resumeSending_still] |].
  assert (Hbusy : still c (if h_high c <? id then (false, c) else match held c Busy id with Some s => match h2CreditWindow c id s inc with None => resetH2Stream c id H2ErrFlowControl | Some c => (false, c) end | None => (false, c) end).2).
  { still_step; [still_auto |]. destruct (held c Busy id) as [s |] eqn:E3; [| still_auto]. apply held_lookup in E3 as [E3 _]. apply (Hcredit s (fun c => c)); [done | intros; apply still_refl]. }
  destruct (h2Streaming c id) as [w |]; [| exact Hbusy]. destruct (h_objs c !! id) as [s |] eqn:E4; [| exact Hbusy]. apply (Hcredit s h2WindowOpened); [done | intros; apply windowOpened_still].
Qed.

(** The events of handlers and the socket, but those on a request body. *)
Lemma event_still c e : match e with EvFrame _ | EvRead _ _ | EvCloseBody _ | EvAcked _ => True | _ => still c (h2Step c e).2 end.
Proof.
  destruct e as [f | id r streamed | id block | id data | id | id | id | id | id n | id | id | n armed | |]; cbn [h2Step snd]; try exact I; try (unfold onWriter; still_auto).
  - apply finishDispatch_still.
  - apply pumpTask_still.
  - apply pumpAll_still.
  - unfold goAwayForShutdown. cbv zeta. still_auto.
Qed.
End ops.

(** ** What holds between steps *)

Section serving.
  Context {E : h2Env}.
  Implicit Types (c : h2conn E) (id : Z) (s : H2Stream).

Definition callIds c : list Z := map (fun x => fst (fst (fst x))) (h_calls c).

(** A streamed body that is being read: what the peer may not send is what the
    handler has not read or what is not yet credited, and when the handler has
    read everything the credit is on its way. *)
Definition body_ok (i : h2BodyIn) : Prop := i_open i = true -> i_tooLarge i = false ->
  i_recvWindow i + zlen (b_buf (i_reader i)) + b_unacked (i_reader i) = h2InitialWindow E /\ 0 <= b_unacked (i_reader i) /\
  (b_closed (i_reader i) = false -> b_buf (i_reader i) = [] -> 0 < b_unacked (i_reader i) -> b_ackQueued (i_reader i) = true).

Definition fits (body : bytes) : Prop := body = [] \/ requestBodyTooLarge E (zlen body) = false.

(** A request that was handed over: the length of its body is the declared one,
    unless the body is streamed. *)
Definition call_ok c (x : Z * h2Request * bytes * list field) : Prop :=
  let '(id, req, body, _) := x in id <= h_high c /\ ((exists i, h_bodies c !! id = Some i /\ i_declared i = q_declared req) \/ h2LengthMismatch (q_declared req) (zlen body) = false) /\ fits body.

Definition mapped_ok c id s : Prop := id <= h_high c /\ (id ∉ callIds c) /\ s_RecvWindow s = h2InitialWindow E /\ fits (s_Body s).

Record serving c : Prop := mkServing {
  sv_recv : recvConnWindow (h_win c) + pendingConnWindow (h_win c) = H2ConnectionWindowSize;
  sv_pend : 0 <= pendingConnWindow (h_win c) <= H2ConnectionWindowSize / 2;
  sv_body : forall id i, h_bodies c !! id = Some i -> id <> 0 /\ body_ok i /\ measured i /\ counted i;
  sv_mapped : forall id s, held c Mapped id = Some s -> mapped_ok c id s;
  sv_once : NoDup (callIds c);
  sv_calls : Forall (call_ok c) (h_calls c) }.

Lemma still_serving c c' : still c c' -> serving c -> serving c'.
Proof.
  intros [A1 A2 A3 A4 A5 A6 A7 A8 A9] [S1 S2 S3 S4 S5 S6]. assert (Hids : callIds c' = callIds c) by (unfold callIds; by rewrite A1). apply mkServing.
  - by rewrite A2, A3.
  - by rewrite A3.
  - intros id i' Hi'. specialize (A9 id). rewrite Hi' in A9. destruct (h_bodies c !! id) as [i |] eqn:Ei; [| done]. destruct (S3 id i Ei) as (H1 & H2 & H3 & H4). destruct A9 as [-> | (Ho & _ & Hm)]; [done |]. split_and!; [done | intros Hopen; congruence | by apply Hm | intros Hopen; congruence].
  - intros id s' Hs'. destruct (A8 id s' Hs') as (s & Hs & E1 & E2 & E3). unfold mapped_ok. rewrite Hids, E2, E3, A5. by apply S4.
  - by rewrite Hids.
  - rewrite A1. eapply Forall_impl; [exact S6 |]. intros [[[id req] body] tr] (H1 & H2 & H3). split_and!; [by rewrite A5 | | done]. destruct H2 as [(i & Hi & Hd) | H2]; [left | by right]. specialize (A9 id). rewrite Hi in A9. destruct (h_bodies c' !! id) as [i' |]; [| done]. exists i'. split; [done |]. destruct A9 as [-> | (_ & Hd' & _)]; congruence.
Qed.

Lemma put_serving c id s : serving c -> mapped_ok c id s -> serving (put c id s).
Proof.
  intros [S1 S2 S3 S4 S5 S6] Hm. apply mkServing; try done. intros id' s'. unfold held. cbn. destruct (decide (id' = id)) as [-> | Hne]; [rewrite lookup_insert_eq; destruct (bool_decide _); [| done]; by intros [= <-] |].
  rewrite lookup_insert_ne by done. apply S4.
Qed.

(** A step that does not close takes [n] bytes of the peer's window and gives
    what it grants; [D] is what becomes of the decoder. *)
Definition turned c (r : bool * h2conn E) (n : Z) (D : Dec E -> Prop) : Prop := r.1 = false -> serving c ->
  exists fs, h_out r.2 = h_out c ++ fs /\ recvConnWindow (h_win r.2) = recvConnWindow (h_win c) - n + connGrant fs /\ serving r.2 /\ D (h_dec r.2).

Lemma still_turned c r : still c r.2 -> turned c r 0 (eq (h_dec c)).
Proof.
  intros Hs _ Hv. pose proof (st_out _ _ Hs) as (fs & H1 & H2). exists fs. split_and!; [done | rewrite (st_recv _ _ Hs), connGrant_none by done; lia | by eapply still_serving | by rewrite (st_dec _ _ Hs)].
Qed.

Lemma turned_closing c r n D : r.1 = true -> turned c r n D.
Proof. intros H1 H2. congruence. Qed.

Lemma turned_trans c c1 r n D : turned c (false, c1) n (eq (h_dec c)) -> turned c1 r 0 D -> turned c r n D.
Proof.
  intros H1 H2 Hr Hv. destruct (H1 eq_refl Hv) as (fs & A1 & A2 & A3 & A4). destruct (H2 Hr A3) as (gs & B1 & B2 & B3 & B4). exists (fs ++ gs). cbn [snd] in *. split_and!; [by rewrite B1, A1, app_assoc | rewrite connGrant_app; lia | done | done].
Qed.

Lemma still_then c c1 r n D : still c c1 -> turned c1 r n D -> turned c r n D.
Proof.
  intros Hs H2 Hr Hv. destruct (still_turned c (false, c1) Hs eq_refl Hv) as (fs & A1 & A2 & A3 & A4). destruct (H2 Hr A3) as (gs & B1 & B2 & B3 & B4). exists (fs ++ gs). cbn [snd] in *. split_and!; [by rewrite B1, A1, app_assoc | rewrite connGrant_app; lia | done | done].
Qed.

Lemma turned_serving c r n D : (serving c -> turned c r n D) -> turned c r n D.
Proof. intros H Hr Hv. by apply H. Qed.

(** ** A stream while it is changed *)

(** [c1] is [c] but for the stream [id]. *)
Definition but id c c1 : Prop := still c (with_objs c1 (delete id (h_objs c1))).

Lemma but_release id c c1 : but id c c1 -> still c (epollReleaseH2Stream c1 id).
Proof.
  intros H. unfold epollReleaseH2Stream. destruct (held c1 Mapped id) as [s |] eqn:Eh.
  - unfold resetStream. cbv zeta. eapply still_trans; [exact H |]. by apply still_eq.
  - destruct H as [A1 A2 A3 A4 A5 A6 A7 A8 A9]. apply mkStill; try done. intros id' s' Hs'. destruct (decide (id' = id)) as [-> | Hne]; [congruence |]. apply A8. unfold held in *. cbn. by rewrite lookup_delete_ne.
Qed.

Lemma but_emit id c c1 fs : but id c c1 -> Forall (fun f => isConnUpdate f = false) fs -> but id c (emit c1 fs).
Proof. intros H Hf. unfold but. eapply still_trans; [exact H |]. exact (emit_still (with_objs c1 (delete id (h_objs c1))) fs Hf). Qed.

Lemma but_put id c c1 s : but id c c1 -> but id c (put c1 id s).
Proof. intros H. unfold but, put. cbn. rewrite delete_insert_eq. exact H. Qed.

Lemma but_budget id c c1 b : but id c c1 -> but id c (with_budget c1 b).
Proof. intros H. unfold but. eapply still_trans; [exact H |]. by apply still_eq. Qed.

Lemma but_refl id c : but id c c.
Proof. exact (delete_still c id (h_budget c)). Qed.

(** [c1] with the stream replaced. *)
Lemma but_replace id c c1 s : but id c c1 -> s_place s <> Mapped -> still c (put c1 id s).
Proof.
  intros H Hp. pose proof (put_still (with_objs c1 (delete id (h_objs c1))) id s Hp) as H2. unfold put in H2. cbn in H2. rewrite insert_delete_eq in H2. eapply still_trans; [exact H | exact H2].
Qed.

Lemma but_serving id c c1 s : but id c c1 -> serving c -> mapped_ok c id s -> serving (put c1 id s).
Proof.
  intros H Hv Hm. pose proof (still_serving _ _ H Hv) as H2. pose proof (put_serving _ id s H2) as H3. unfold put in H3. cbn in H3. rewrite insert_delete_eq in H3. apply H3. unfold mapped_ok, callIds. cbn. pose proof (st_calls _ _ H) as H4. pose proof (st_high _ _ H) as H5. cbn in H4, H5. by rewrite H4, H5.
Qed.

Lemma but_reject id c c1 : but id c c1 -> still c (rejectH2Body c1 id).2.
Proof.
  intros H. unfold rejectH2Body. cbv zeta. apply charge_still. eapply still_trans; [| apply countReset_still]. eapply still_trans; [| apply abortBodyIn_still]. apply but_release. apply but_emit; [done | by repeat constructor].
Qed.

(** ** Requests handed over *)

(** [c1] is [c] but for the stream; the stream of [c1] may be handed over. *)
Lemma dispatchStream_turned id c c1 s streamBody : but id c c1 -> id <= h_high c -> id <> 0 -> id ∉ callIds c -> fits (s_Body s) ->
  (if streamBody : bool then s_RecvWindow s = h2InitialWindow E else h2LengthMismatch (q_declared (s_req s)) (zlen (s_Body s)) = false) ->
  turned c (epollH2DispatchStream c1 id s streamBody) 0 (eq (h_dec c)).
Proof.
  intros Hb Hh Hz Hn Hf Hl. unfold epollH2DispatchStream. destruct (admitRequest E (s_req s) (s_Body s) (s_Trailers s)) as [| r |]; [by apply turned_closing | |].
  - apply still_turned. cbn [snd]. eapply still_trans; [| apply finishDispatch_still]. still_step. by apply but_replace.
  - set (c2 := set_inFlight _ _). assert (H2 : still c c2) by (subst c2; still_step; by apply but_replace). apply (still_then c c2 _ _ _ H2). rewrite <- (st_dec _ _ H2). intros _ Hv. exists []. cbn [snd]. assert (Hids : callIds c2 = callIds c) by (unfold callIds; by rewrite (st_calls _ _ H2)).
    assert (Hhigh : id <= h_high c2) by (by rewrite (st_high _ _ H2)). assert (Hid2 : held c2 Mapped id = None) by (subst c2; unfold held; cbn; by rewrite lookup_insert_eq).
    assert (Hbase : forall c3, h_calls c3 = h_calls c2 ++ [(id, s_req s, s_Body s, s_Trailers s)] -> h_win c3 = h_win c2 -> h_high c3 = h_high c2 -> h_objs c3 = h_objs c2 ->
      (forall id' i, h_bodies c3 !! id' = Some i -> id' <> 0 /\ body_ok i /\ measured i /\ counted i) -> (forall id', id' <> id -> h_bodies c3 !! id' = h_bodies c2 !! id') ->
      ((exists i, h_bodies c3 !! id = Some i /\ i_declared i = q_declared (s_req s)) \/ h2LengthMismatch (q_declared (s_req s)) (zlen (s_Body s)) = false) -> serving c3).
    { intros c3 E1 E2 E3 E4 E5 E6 E7. assert (Hids3 : callIds c3 = callIds c ++ [id]) by (unfold callIds; rewrite E1, map_app; fold (callIds c2); by rewrite Hids). destruct Hv as [S1 S2 S3 S4 S5 S6]. apply mkServing; try (by rewrite E2); [done | | |].
      - intros id' s' Hs'. assert (Hs2 : held c2 Mapped id' = Some s') by (unfold held in *; by rewrite E4 in Hs'). destruct (S4 id' s' Hs2) as (M0 & M1 & M2 & M3). split_and!; [by rewrite E3 | | done | done]. rewrite Hids3. rewrite elem_of_app, list_elem_of_singleton. intros [H | ->]; [by rewrite Hids in M1 | congruence].
      - rewrite Hids3. apply NoDup_app. rewrite Hids in S5. split_and!; [done | | apply NoDup_singleton]. intros x Hx. rewrite list_elem_of_singleton. by intros ->.
      - rewrite E1. apply Forall_app. split; [| constructor; [| done]; split_and!; [by rewrite E3 | done | done]]. rewrite Forall_forall in S6 |- *. intros [[[id' req] body] tr] Hx. destruct (S6 _ Hx) as (H1 & H3 & H4). split_and!; [by rewrite E3 | | done]. destruct H3 as [H3 | H3]; [left | by right]. rewrite E6; [done |]. intros ->. apply Hn. rewrite <- Hids. unfold callIds. apply list_elem_of_In, in_map_iff. exists (id, req, body, tr). split; [done | by apply list_elem_of_In]. }
    split_and!; [destruct streamBody; by rewrite app_nil_r | destruct streamBody; cbn; lia | | by destruct streamBody]. destruct streamBody.
    + apply Hbase; try done.
      * intros id' i. unfold startH2BodyStream. cbn. destruct (decide (id' = id)) as [-> | Hne]; [rewrite lookup_insert_eq; intros [= <-]; split_and!; [done | intros _ _; cbn; change (zlen (@nil Z)) with 0; split_and!; [lia | lia | lia] | by split_and!; cbn | by intros _; cbn] |]. rewrite lookup_insert_ne by done. apply (sv_body _ Hv).
      * intros id' Hne. unfold startH2BodyStream. cbn. by rewrite lookup_insert_ne.
      * left. unfold startH2BodyStream. cbn. rewrite lookup_insert_eq. by eexists.
    + apply Hbase; try done; [apply (sv_body _ Hv) | by right].
Qed.

Lemma dispatch_turned id c c1 s streamBody : but id c c1 -> id <= h_high c -> id <> 0 -> id ∉ callIds c -> fits (s_Body s) -> s_place s = Mapped ->
  (if streamBody : bool then s_RecvWindow s = h2InitialWindow E else h2LengthMismatch (q_declared (s_req s)) (zlen (s_Body s)) = false) ->
  turned c (epollH2Dispatch (put c1 id s) id streamBody) 0 (eq (h_dec c)).
Proof.
  intros Hb Hh Hz Hn Hf Hp Hl. unfold epollH2Dispatch. assert (held (put c1 id s) Mapped id = Some s) as -> by (unfold held; cbn; rewrite lookup_insert_eq, bool_decide_true by done; done). apply dispatchStream_turned; try done. by apply but_put.
Qed.

(** ** Data *)

Lemma strip_length flags payload body : h2StripPadding flags payload = (body, true) -> zlen body <= zlen payload.
Proof.
  unfold h2StripPadding. split_if; [intros [= <-]; lia |]. destruct payload as [| padLen payload]; [done |]. split_if; [done |]. intros [= <-]. rewrite zlen_cons. unfold zlen, ztake. rewrite length_take. lia.
Qed.

(** A body that was changed before its stream is rejected. *)
Lemma reject_body_still c id i i' : h_bodies c !! id = Some i -> i_declared i' = i_declared i -> (measured i -> measured i') -> still c (rejectH2Body (set_body c id i') id).2.
Proof.
  intros Hi Hd Hm. unfold rejectH2Body. cbv zeta. apply charge_still. eapply still_trans; [| apply countReset_still]. set (c1 := epollReleaseH2Stream (emit c [rstFrame id H2ErrProtocol]) id).
  assert (H1 : still c c1) by (subst c1; eapply still_trans; [| apply epollRelease_still]; still_auto). assert (Hb : h_bodies c1 = h_bodies c) by (subst c1; unfold epollReleaseH2Stream; by destruct (held _ Mapped id)).
  assert (epollReleaseH2Stream (emit (set_body c id i') [rstFrame id H2ErrProtocol]) id = set_body c1 id i') as ->.
  { subst c1. unfold epollReleaseH2Stream. change (held (emit (set_body c id i') _) Mapped id) with (held (emit c [rstFrame id H2ErrProtocol]) Mapped id). by destruct (held _ Mapped id). }
  unfold h2AbortBodyIn, bodyIn. cbn [set_body with_bodies h_bodies]. rewrite lookup_insert_eq. destruct (i_open i') eqn:Eo; cbn [snd].
  - eapply still_trans; [exact H1 |]. unfold h2EndBodyIn, set_body. cbn. rewrite insert_insert_eq. eapply (endBody_still c1 id i); [by rewrite Hb | done | done | intros Hx; by apply aborted_measured, Hm].
  - eapply still_trans; [exact H1 |]. by eapply (endBody_still c1 id i); [rewrite Hb | | |].
Qed.

(** [i] in place of [i0], of the same stream. *)
Definition follows (i0 i : h2BodyIn) : Prop := i_declared i = i_declared i0 /\ measured i /\ counted i.

Lemma set_body_serving c id i0 i : serving c -> id <> 0 -> body_ok i -> h_bodies c !! id = Some i0 -> follows i0 i -> serving (set_body c id i).
Proof.
  intros [S1 S2 S3 S4 S5 S6] Hz Hi Hs (Hd & Hm & Hc). apply mkServing; try done.
  - intros id' i'. cbn. destruct (decide (id' = id)) as [-> | Hne]; [rewrite lookup_insert_eq; by intros [= <-] |]. rewrite lookup_insert_ne by done. apply S3.
  - eapply Forall_impl; [exact S6 |]. intros [[[id' req] body] tr] (H1 & H2 & H3). split_and!; [done | | done]. destruct H2 as [(i1 & H2 & H4) | H2]; [left | by right]. cbn. destruct (decide (id' = id)) as [-> | Hne]; [rewrite lookup_insert_eq; exists i; split; [done | congruence] | rewrite lookup_insert_ne by done; by exists i1].
Qed.

(** A body that goes on. *)
Lemma body_turned c id i0 i fs : id <> 0 -> body_ok i -> h_bodies c !! id = Some i0 -> follows i0 i -> Forall (fun f => isConnUpdate f = false) fs -> turned c (false, set_body (emit c fs) id i) 0 (eq (h_dec c)).
Proof.
  intros Hz Hi Hs Hfo Hf _ Hv. exists fs. cbn [snd]. split_and!; [done | cbn; rewrite connGrant_none by done; lia | | done]. apply (set_body_serving _ _ i0); [| done | done | done | done]. by eapply still_serving; [apply emit_still |].
Qed.

Lemma windowUpdate_other id n : id <> 0 -> Forall (fun f => isConnUpdate f = false) [windowUpdateFrame id n].
Proof. intros H. constructor; [| done]. unfold isConnUpdate. cbn [windowUpdateFrame f_type f_id]. by rewrite (proj2 (Z.eqb_neq _ _) H), andb_false_r. Qed.

Lemma emit_nil c : emit c [] = c.
Proof. unfold emit, with_out. rewrite app_nil_r. by destruct c. Qed.

(** The reader gets a payload that keeps within the declared length. *)
Lemma push_follows i w payload tunnel (b : bool) : measured i -> counted i -> i_open i = true ->
  let fresh := negb (i_tooLarge i) && (0 <? zlen payload) in
  fresh && (0 <=? i_declared i) && (i_declared i <? i_received i + zlen payload) = false ->
  follows i (if fresh then
      if b then mkBodyIn (i_open i) (body_finish (i_reader i) (Some errTooLarge)) w (i_received i + zlen payload) (i_declared i) true tunnel
      else mkBodyIn (i_open i) (body_push (i_reader i) payload) w (i_received i + zlen payload) (i_declared i) (i_tooLarge i) tunnel
    else mkBodyIn (i_open i) (i_reader i) w (i_received i) (i_declared i) (i_tooLarge i) tunnel).
Proof.
  intros (M1 & M2 & M3) Hc Ho fresh Hf. destruct (Hc Ho) as [C1 C2]. specialize (M2 Ho). unfold follows, measured, counted. destruct fresh eqn:Ef; [| by cbn]. subst fresh. destruct (i_tooLarge i) eqn:Et; [done |]. specialize (C1 eq_refl). destruct b.
  - unfold body_finish. rewrite M2. cbn [negb andb]. destruct (b_err (i_reader i)) eqn:Ee; cbn; rewrite ?Ee, ?M2; by split_and!.
  - unfold body_push. destruct (b_closed (i_reader i)); cbn; rewrite ?M2, ?Et; (split_and!; [done | lia | done | done | intros _; split; [lia | done]]).
Qed.

(** A body ends when its length is the declared one, or after it failed. *)
Lemma ended_measured i w received tooLarge tunnel trailers : measured i -> counted i -> i_open i = true -> negb (i_tooLarge i) && h2LengthMismatch (i_declared i) (i_received i) = false ->
  measured (mkBodyIn false (body_finish (i_reader i) None) w received (i_declared i) tooLarge tunnel) /\
  measured (mkBodyIn false (body_finishWithTrailers (i_reader i) trailers) w received (i_declared i) tooLarge tunnel).
Proof.
  intros (M1 & M2 & M3) Hc Ho Hf. destruct (Hc Ho) as [C1 C2]. specialize (M2 Ho). unfold measured, body_finish, body_finishWithTrailers. rewrite M2. cbn [negb andb i_reader i_declared i_open]. destruct (b_err (i_reader i)) as [e |]; [split; by split_and!; rewrite ?M2 |]. cbn [b_received b_eof].
  destruct (i_tooLarge i); [by destruct (C2 eq_refl) |]. cbn [negb andb] in Hf. rewrite <- (C1 eq_refl) in Hf. split; by split_and!.
Qed.

Lemma streamBodyData_turned c id i endStream n payload : bodyIn c id = Some i -> zlen payload <= n -> turned c (h2StreamBodyData c id i endStream n payload) 0 (eq (h_dec c)).
Proof.
  intros Hi Hn. apply bodyIn_lookup in Hi as [Hi Ho]. apply turned_serving. intros Hv. destruct (sv_body _ Hv id i Hi) as (Hz & Hok & Hme & Hco). pose proof (zlen_nonneg payload) as Hp0. unfold h2StreamBodyData. cbv zeta. cbn [i_recvWindow i_tooLarge i_received i_declared i_tunnel i_reader i_open].
  split_if; [apply still_turned; cbn [snd]; eapply still_trans; [| eapply endBody_still; [exact Hi | done | done | exact (aborted_measured i _ _ _ _ _)]]; still_auto |].
  match goal with |- context [if ?b then _ else _] => destruct b eqn:Eover end; [apply still_turned; eapply reject_body_still; [exact Hi | done |]; by intros (M1 & M2 & M3) |]. set (fresh := negb (i_tooLarge i) && (0 <? zlen payload)). set (i1 := if fresh then _ else _).
  assert (Hopen : i_open i1 = true) by (subst i1; repeat split_if; exact Ho).
  assert (Hrecv : i_recvWindow i1 = i_recvWindow i - n) by (subst i1; repeat split_if; done).
  assert (Hok1 : forall m, m = n - zlen payload -> body_ok (mkBodyIn (i_open i1) (i_reader i1) (i_recvWindow i1 + m) (i_received i1) (i_declared i1) (i_tooLarge i1) (i_tunnel i1))).
  { intros m ->. intros _ Ht. cbn in Ht. cbn [i_recvWindow i_reader]. rewrite Hrecv. subst i1 fresh. destruct (i_tooLarge i) eqn:Et; [cbn [negb andb i_tooLarge] in Ht; congruence |]. cbn [negb andb] in *. destruct (Hok Ho Et) as (K1 & K2 & K3).
    destruct (0 <? zlen payload) eqn:Ep; [| cbn [i_reader]; split_and!; [lia | done | done]]. destruct (negb (i_tunnel i) && _); [done |]. cbn [i_reader] in *. unfold body_push. destruct (b_closed (i_reader i)) eqn:Ec; cbn [b_buf b_unacked b_closed b_ackQueued].
    - split_and!; [lia | lia | done].
    - rewrite zlen_app. split_and!; [lia | lia |]. intros _ Hnil. apply app_eq_nil in Hnil as [_ ->]. done. }
  assert (Hfo : follows i i1) by (subst i1; by apply push_follows).
  destruct endStream.
  - match goal with |- context [if ?b then _ else _] => destruct b eqn:Emis end; [apply still_turned; destruct Hfo as (D1 & D2 & _); by eapply reject_body_still |]. pose proof (body_turned c id i (mkBodyIn false (body_finish (i_reader i1) None) (i_recvWindow i1) (i_received i1) (i_declared i1) (i_tooLarge i1) (i_tunnel i1)) [] Hz) as Hb. rewrite emit_nil in Hb. apply Hb; [done | done | | by constructor].
    destruct Hfo as (D1 & D2 & D3). split; [exact D1 |]. split; [| done]. by eapply ended_measured.
  - split_if.
    + apply (body_turned c id i); [done | by apply Hok1 | done | by destruct i1 | by apply windowUpdate_other].
    + pose proof (body_turned c id i i1 [] Hz) as Hb. rewrite emit_nil in Hb. apply Hb; [| done | done | by constructor]. specialize (Hok1 0 ltac:(lia)). rewrite Z.add_0_r in Hok1. by destruct i1.
Qed.

Lemma connGrant_update n : 0 <= n < 2 ^ 31 -> connGrant [windowUpdateFrame 0 n] = n.
Proof. intros Hn. unfold connGrant. cbn [foldr isConnUpdate windowUpdateFrame f_type f_id f_payload H2FrameWindowUpdate Z.eqb Pos.eqb andb]. rewrite be_val_bytes, (land_31 n) by lia. rewrite Z.mod_small by lia. rewrite land_31 by lia. lia. Qed.

Lemma credit_turned c n : 0 <= n <= recvConnWindow (h_win c) ->
  let w := h_win c in turned c (false, h2CreditConnWindow (with_win c (mkWindows (initialWindowSize w) (maxFrameSize w) (connWindow w) (recvConnWindow w - n) (pendingConnWindow w))) n) n (eq (h_dec c)).
Proof.
  intros Hn w _ Hv. pose proof Hv as [S1 S2 S3 S4 S5 S6]. subst w. unfold h2CreditConnWindow. cbn [h_win with_win recvConnWindow pendingConnWindow initialWindowSize maxFrameSize connWindow]. unfold H2ConnectionWindowSize in *. change (4194304 / 2) with 2097152 in *.
  set (w := h_win c) in *. unfold u32. rewrite Z.mod_small by lia. destruct (2097152 <? pendingConnWindow w + n) eqn:Ep; cbn [snd].
  - exists [windowUpdateFrame 0 (pendingConnWindow w + n)]. rewrite connGrant_update by lia. split_and!; [done | cbn; lia | | done]. apply mkServing; try done; cbn; unfold H2ConnectionWindowSize; change (4194304 / 2) with 2097152; lia.
  - exists []. split_and!; [by rewrite app_nil_r | cbn; lia | | done]. apply mkServing; try done; cbn; unfold H2ConnectionWindowSize; change (4194304 / 2) with 2097152; lia.
Qed.

(** DATA on a stream in [st.streams]. *)
Lemma mappedData_turned c id s (endStream : bool) consumed payload : held c Mapped id = Some s -> id <> 0 -> 0 <= consumed ->
  turned c (let s := set_RecvWindow s (s_RecvWindow s - consumed) in
            let c := put c id s in
            if s_RecvWindow s <? 0 then (false, epollReleaseH2Stream (emit c [rstFrame id H2ErrFlowControl]) id)
            else
              let kept :=
                if 0 <? zlen payload then
                  let '(ok, b) := tryReserveConnBodyBytes (budgetCfg E) (h_budget c) (zlen payload) in
                  let c := with_budget c b in
                  if negb ok then inr (false, epollReleaseH2Stream (emit c [rstFrame id H2ErrEnhanceYourCalm]) id)
                  else
                    let s := set_Body s (s_Body s ++ payload) (s_bodyAccounted s + zlen payload) in
                    let c := put c id s in
                    if (0 <=? q_declared (s_req s)) && (q_declared (s_req s) <? zlen (s_Body s)) then inr (rejectH2Body c id) else inl (s, c)
                else inl (s, c) in
              match kept with
              | inr r => r
              | inl (s, c) =>
                  if requestBodyTooLarge E (zlen (s_Body s)) then (false, epollReleaseH2Stream (emit c [rstFrame id H2ErrCancel]) id)
                  else if negb endStream then
                    if 0 <? consumed then (false, put (emit c [windowUpdateFrame id consumed]) id (set_RecvWindow s (s_RecvWindow s + consumed))) else (false, c)
                  else if h2LengthMismatch (q_declared (s_req s)) (zlen (s_Body s)) then rejectH2Body c id
                  else epollH2Dispatch (put c id (set_State s StreamHalfClosed)) id false
              end) 0 (eq (h_dec c)).
Proof.
  intros Hh Hz Hc. apply turned_serving. intros Hv. destruct (sv_mapped _ Hv id s Hh) as (M1 & M2 & M3 & M4). apply held_lookup in Hh as [Hs Hp]. cbv zeta. set (s1 := set_RecvWindow s (s_RecvWindow s - consumed)). set (c1 := put c id s1).
  assert (Hb1 : but id c c1) by apply but_put, but_refl. assert (Hs1 : h_objs c1 !! id = Some s1) by (cbn; by rewrite lookup_insert_eq). assert (Ho1 : h_out c1 = h_out c) by done. assert (Hd1 : h_dec c1 = h_dec c) by done. clearbody c1.
  assert (Hrel : forall c2 code, but id c c2 -> turned c (false, epollReleaseH2Stream (emit c2 [rstFrame id code]) id) 0 (eq (h_dec c))) by (intros c2 code H; apply still_turned; cbn [snd]; apply but_release, but_emit; [done | by repeat constructor]).
  destruct (s_RecvWindow s1 <? 0); [by apply Hrel |]. set (kept := if 0 <? zlen payload then _ else _).
  assert (Hk : match kept with inr r => turned c r 0 (eq (h_dec c)) | inl (s2, c2) => but id c c2 /\ h_objs c2 !! id = Some s2 /\ h_out c2 = h_out c /\ h_dec c2 = h_dec c /\ s_place s2 = Mapped /\ s_RecvWindow s2 = s_RecvWindow s - consumed end).
  { subst kept. destruct (0 <? zlen payload); [| split_and!; done]. destruct (tryReserveConnBodyBytes _ _ _) as [[] b]; cbn [negb]; [| by apply Hrel, but_budget]. set (s2 := set_Body s1 _ _).
    destruct (_ && _); [apply still_turned, but_reject, but_put; by apply but_budget |]. split_and!; try done; [by apply but_put, but_budget | cbn; by rewrite lookup_insert_eq]. }
  destruct kept as [[s2 c2] | r]; [| exact Hk]. destruct Hk as (Hb2 & Hs2 & Ho2 & Hd2 & Hp2 & Hw2). destruct (requestBodyTooLarge E (zlen (s_Body s2))) eqn:Et; [by apply Hrel |]. destruct endStream; cbn [negb].
  - destruct (h2LengthMismatch _ _) eqn:Em; [by apply still_turned, but_reject |]. apply dispatch_turned; try done. by right.
  - assert (Hfit : fits (s_Body s2)) by (by right). destruct (0 <? consumed) eqn:Ec.
    + intros _ _. pose proof (st_out _ _ Hb2) as (fs & F1 & F2). cbn in F1. pose proof (st_recv _ _ Hb2) as F3. cbn in F3. exists [windowUpdateFrame id consumed]. cbn [snd]. split_and!.
      * cbn. by rewrite Ho2.
      * rewrite (connGrant_none [_]) by (by apply windowUpdate_other). cbn. lia.
      * apply (but_serving id c); [apply but_emit; [done | by apply windowUpdate_other] | done |]. split_and!; [done | done | | done]. cbn. lia.
      * by cbn.
    + assert (Hput : put c2 id s2 = c2) by (unfold put; rewrite insert_id by done; by destruct c2). intros _ _. exists []. cbn [snd]. pose proof (st_recv _ _ Hb2) as F3. cbn in F3. split_and!; [by rewrite Ho2, app_nil_r | cbn; lia | | done].
      rewrite <- Hput. apply (but_serving id c); [done | done |]. split_and!; [done | done | lia | done].
Qed.

Lemma data_turned c id flags payload : turned c (epollH2Data c id flags payload) (zlen payload) (eq (h_dec c)).
Proof.
  unfold epollH2Data. destruct (id =? 0) eqn:Ez; [by apply turned_closing |]. cbv zeta. set (c0 := with_win c _). destruct (recvConnWindow (h_win c0) <? 0) eqn:Er; [by apply turned_closing |]. pose proof (zlen_nonneg payload) as Hp.
  assert (Hle : 0 <= zlen payload <= recvConnWindow (h_win c)) by (unfold c0 in Er; cbn in Er; lia). pose proof (credit_turned c (zlen payload) Hle) as Hcr. cbv zeta in Hcr. fold c0 in Hcr. eapply turned_trans; [exact Hcr |].
  assert (Hdec : h_dec (h2CreditConnWindow c0 (zlen payload)) = h_dec c) by (unfold h2CreditConnWindow; cbv zeta; split_if; done). rewrite <- Hdec. generalize (h2CreditConnWindow c0 (zlen payload)). clear Hcr Hdec Er Hle. clearbody c0. clear c c0. intros c.
  destruct (h2StripPadding flags payload) as [body padOK] eqn:Est. destruct (held c Mapped id) as [s |] eqn:Eh.
  - split_if; [apply still_turned; still_auto |]. destruct padOK; cbn [negb]; [| apply still_turned; still_auto]. apply (mappedData_turned c id s (negb (Z.land flags H2FlagEndStream =? 0)) (zlen payload) body); [done | lia | lia].
  - destruct (bodyIn c id) as [i |] eqn:Ei; [| apply still_turned; still_auto]. destruct padOK; cbn [negb].
    + apply streamBodyData_turned; [done | by eapply strip_length].
    + apply still_turned. cbn [snd]. apply bodyIn_lookup in Ei as [Ei _]. eapply still_trans; [| eapply (endBody_still (emit c _)); [exact Ei | done | done | exact (aborted_measured i _ _ _ _ _)]]. still_auto.
Qed.

(** ** Header blocks *)

(** A block goes through the decoder once and has no error of compression, or is
    one of those whose meaning is known without it. *)
Inductive decoded (d : Dec E) (block : bytes) : Dec E -> Prop :=
| dec_request : (DecodeRequest E d block).1 <> inr errCompression -> decoded d block (DecodeRequest E d block).2
| dec_fields : (DecodeInto E d block).1 <> None -> decoded d block (DecodeInto E d block).2
| dec_indexed : matchIndexedH2FastRootHeaderBlock block = true -> decoded d block d
| dec_memo : MemoizedRootRequest E d block = true -> decoded d block d.

Lemma turned_dec c r d (D : Dec E -> Prop) : (r.1 = false -> D d) -> turned (with_dec c d) r 0 (eq d) -> turned c r 0 D.
Proof.
  intros HD Ht Hr Hv. specialize (HD Hr). assert (Hv1 : serving (with_dec c d)) by (destruct Hv; by apply mkServing). destruct (Ht Hr Hv1) as (fs & H1 & H2 & H3 & H4). exists fs. split_and!; [done | done | done | by rewrite <- H4].
Qed.

Lemma ids_serving c last id : h_high c <= id -> serving c -> serving (with_ids c last id).
Proof.
  intros Hh [S1 S2 S3 S4 S5 S6]. apply mkServing; try done.
  - intros id' s Hs. destruct (S4 id' s Hs) as (M1 & M2). split; [cbn; lia | exact M2].
  - eapply Forall_impl; [exact S6 |]. intros [[[id' req] body] tr] (H1 & H2). split; [cbn; lia | exact H2].
Qed.

Lemma turned_ids c last id r D : h_high c <= id -> turned (with_ids c last id) r 0 D -> turned c r 0 D.
Proof. intros Hh Ht Hr Hv. exact (Ht Hr (ids_serving c last id Hh Hv)). Qed.

Lemma new_id c id : serving c -> h_high c < id -> id ∉ callIds c.
Proof.
  intros Hv Hh Hin. unfold callIds in Hin. apply list_elem_of_In, in_map_iff in Hin as ([[[id' req] body] tr] & <- & Hx). cbn in Hh. pose proof (sv_calls _ Hv) as Hc. rewrite Forall_forall in Hc. specialize (Hc _ (proj2 (list_elem_of_In _ _) Hx)) as (H1 & _). lia.
Qed.

Lemma fastData_calm fuel id max body : Forall (fun f => isConnUpdate f = false) (fastDataFrames fuel id max body).
Proof. revert body. induction fuel as [| fuel IH]; intros body; cbn [fastDataFrames]; [by constructor |]. destruct (zlen body =? 0); [by constructor |]. constructor; [done | apply IH]. Qed.

Lemma fastRoot_still c id : still c (fastRootAnswer c id).2.
Proof.
  unfold fastRootAnswer. destruct (rootFast E) as [[head body] |]; [| still_auto]. cbv zeta. cbn [snd]. still_step; [| still_auto]. still_back (tick c); [still_auto |]. apply emit_still. unfold fastRootFrames.
  repeat split_if; first [apply headersFrames_still | apply Forall_app; split; [apply headersFrames_still | apply fastData_calm] | by repeat constructor].
Qed.

Lemma trailers_turned c id block endStream : id <> 0 -> turned c (epollH2Trailers c id block endStream) 0 (decoded (h_dec c) block).
Proof.
  intros Hz. unfold epollH2Trailers. pose proof (dec_fields (h_dec c) block) as HD. destruct (DecodeInto E (h_dec c) block) as [fields dec]. cbn [fst snd] in HD. apply (turned_dec c _ dec); [intros Hr; apply HD; by destruct fields |]. set (c1 := with_dec c dec). change dec with (h_dec c1). clearbody c1. clear HD c. rename c1 into c.
  destruct fields as [fields |]; [| by apply turned_closing]. assert (Hrej : turned c (rejectH2Body c id) 0 (eq (h_dec c))) by apply still_turned, rejectBody_still. split_if; [exact Hrej |]. cbv zeta. destruct (held c Mapped id) as [s |] eqn:Eh.
  - split_if; [apply still_turned; still_auto |]. destruct endStream; [| exact Hrej]. destruct (h2TrailerFields E fields) as [trailers |]; [| exact Hrej]. destruct (h2LengthMismatch _ _) eqn:Em; [exact Hrej |]. apply turned_serving. intros Hv. destruct (sv_mapped _ Hv id s Eh) as (M1 & M2 & M3 & M4). apply held_lookup in Eh as [_ Hp].
    apply dispatch_turned; try done. apply but_refl.
  - destruct (bodyIn c id) as [i |] eqn:Ei; [| exact Hrej]. destruct endStream; [| exact Hrej]. destruct (h2TrailerFields E fields) as [trailers |]; [| exact Hrej]. match goal with |- context [if ?b then _ else _] => destruct b eqn:Emis end; [exact Hrej |]. apply bodyIn_lookup in Ei as [Ei Eo]. apply turned_serving. intros Hv. destruct (sv_body _ Hv id i Ei) as (Hzi & _ & Hme & Hco). set (i1 := mkBodyIn _ _ _ _ _ _ _). pose proof (body_turned c id i i1 [] Hzi) as Hb. rewrite emit_nil in Hb. apply Hb; [done | done | | by constructor].
    split; [done |]. split; [| done]. apply ended_measured; [done | done | done |]. rewrite Emis. apply andb_false_r.
Qed.

Lemma openStream_turned c id headers req endStream : id <= h_high c -> id <> 0 -> id ∉ callIds c -> turned c (openStream c id headers req endStream) 0 (eq (h_dec c)).
Proof.
  intros Hh Hz Hn. unfold openStream. cbv zeta. set (s := newStream _ req headers). destruct endStream.
  - destruct (h2LengthMismatch _ _) eqn:Em; [apply still_turned, but_reject, but_put, but_refl |]. apply dispatchStream_turned; try done; [apply but_refl | by left].
  - split_if; [apply dispatch_turned; try done; [apply but_refl | by left] |]. intros _ Hv. exists []. cbn [snd]. split_and!; [by rewrite app_nil_r | cbn; lia | | done]. apply (but_serving id c); [apply but_refl | done |]. split_and!; [done | done | done | by left].
Qed.

Lemma decodedRequest_turned c id block endStream fastRoot : id <= h_high c -> id <> 0 -> id ∉ callIds c -> turned c (decodedRequest c id block endStream fastRoot) 0 (decoded (h_dec c) block).
Proof.
  intros Hh Hz Hn. unfold decodedRequest. pose proof (dec_request (h_dec c) block) as HD. destruct (DecodeRequest E (h_dec c) block) as [r dec]. cbn [fst snd] in HD. apply (turned_dec c _ dec); [intros Hr; apply HD; by intros -> |]. set (c1 := with_dec c dec). change dec with (h_dec c1).
  assert (Hh1 : id <= h_high c1) by done. assert (Hn1 : id ∉ callIds c1) by done. clearbody c1. clear HD Hh Hn c. rename c1 into c, Hh1 into Hh, Hn1 into Hn. destruct r as [[[headers req] isRoot] | []].
  - set (p := if endStream && fastRoot && isRoot then _ else _). assert (Hp : still c p.2) by (subst p; still_step; [apply fastRoot_still | still_auto]). destruct p as [answered c1]. cbn [snd] in Hp.
    destruct answered; [by apply still_turned |]. apply (still_then c c1 _ _ _ Hp). rewrite <- (st_dec _ _ Hp). assert (Hh1 : id <= h_high c1) by (by rewrite (st_high _ _ Hp)). assert (Hn1 : id ∉ callIds c1) by (unfold callIds; by rewrite (st_calls _ _ Hp)).
    repeat (split_if; [apply still_turned; first [apply refuse_still | apply refuseEnded_still] |]). by apply openStream_turned.
  - apply still_turned, refuse_still.
  - apply still_turned. unfold answerH2HeaderListTooLarge. destruct (encodeHead E (h_enc c) _) as [b enc]. cbv zeta. apply charge_still. eapply still_trans; [| apply countReset_still]. still_auto.
  - by apply turned_closing.
Qed.

Lemma decodedHeaders_turned c id block endStream : turned c (epollH2DecodedHeaders c id block endStream) 0 (decoded (h_dec c) block).
Proof.
  unfold epollH2DecodedHeaders. cbv zeta. destruct (negb (id mod 2 =? 0) && (id <=? h_high c) && (isHeld c Mapped id || bodyIsOpen c id)) eqn:E1.
  { apply trailers_turned. intros ->. done. }
  split_if.
  { unfold discardH2ClosedStreamHeaders. pose proof (dec_fields (h_dec c) block) as HD. destruct (DecodeInto E (h_dec c) block) as [fields dec]. cbn [fst snd] in HD. apply (turned_dec c _ dec); [intros Hr; apply HD; by destruct fields |]. set (c1 := with_dec c dec). change dec with (h_dec c1). clearbody c1. destruct fields; [| by apply turned_closing]. apply still_turned, charge_still, countReset_still. }
  destruct ((id mod 2 =? 0) || (id <=? h_high c)) eqn:Eid; [by apply turned_closing |]. assert (Hid : h_high c < id) by lia. assert (Hz : id <> 0) by (intros ->; done). split_if.
  { unfold refuseH2StreamGoingAway. cbn [h_dec with_ids]. pose proof (dec_request (h_dec c) block) as HD. destruct (DecodeRequest E (h_dec c) block) as [r dec]. cbn [fst snd] in HD. apply (turned_ids c (h_last c) id); [lia |]. apply (turned_dec _ _ dec); [intros Hr; apply HD; by intros -> |]. set (c1 := with_dec _ dec). change dec with (h_dec c1). clearbody c1.
    destruct r as [? | []]; first [by apply turned_closing | apply still_turned; still_auto]. }
  apply turned_serving. intros Hv. pose proof (new_id c id Hv Hid) as Hn. change (with_ids (with_ids c (h_last c) id) id id) with (with_ids c id id). apply (turned_ids c id id); [lia |]. set (c0 := with_ids c id id). assert (Hh0 : id <= h_high c0) by (cbn; lia). assert (Hn0 : id ∉ callIds c0) by done.
  assert (Hd0 : h_dec c0 = h_dec c) by done. rewrite <- Hd0. set (fr := (match rootFast E with Some _ => true | None => false end) && _). clearbody c0. clear c Hid Eid Hv Hn E1 Heqb Heqb0 Hd0. rename c0 into c.
  assert (Hstep : forall (b : bool), let p := if b then fastRootAnswer c id else (false, c) in still c p.2 /\ (p.1 = true -> b = true)) by (intros b; split; [still_step; [apply fastRoot_still | still_auto] | by destruct b]).
  destruct (Hstep (endStream && fr && matchIndexedH2FastRootHeaderBlock block)) as [F1 F2]. destruct (if endStream && fr && matchIndexedH2FastRootHeaderBlock block then _ else _) as [answered c1]. cbn [fst snd] in *. clear Hstep. destruct answered.
  { intros _ Hv1. destruct (still_turned c (false, c1) F1 eq_refl Hv1) as (fs & H1 & H2 & H3 & H4). exists fs. split_and!; [done | done | done |]. rewrite <- H4. apply dec_indexed. specialize (F2 eq_refl). by destruct (matchIndexedH2FastRootHeaderBlock block); [| rewrite andb_false_r in F2]. }
  apply (still_then c c1 _ _ _ F1). rewrite <- (st_dec _ _ F1). assert (Hh1 : id <= h_high c1) by (by rewrite (st_high _ _ F1)). assert (Hn1 : id ∉ callIds c1) by (unfold callIds; by rewrite (st_calls _ _ F1)).
  set (b2 := endStream && fr && MemoizedRootRequest E (h_dec c1) block). assert (G : still c1 (if b2 then fastRootAnswer c1 id else (false, c1)).2) by (still_step; [apply fastRoot_still | still_auto]). assert (Gb : (if b2 then fastRootAnswer c1 id else (false, c1)).1 = true -> b2 = true) by (by destruct b2).
  destruct (if b2 then _ else _) as [answered c2]. cbn [fst snd] in *. destruct answered.
  { intros _ Hv1. destruct (still_turned c1 (false, c2) G eq_refl Hv1) as (fs & H1 & H2 & H3 & H4). exists fs. split_and!; [done | done | done |]. rewrite <- H4. apply dec_memo. specialize (Gb eq_refl). subst b2. by destruct (MemoizedRootRequest E (h_dec c1) block); [| rewrite andb_false_r in Gb]. }
  apply (still_then c1 c2 _ _ _ G). rewrite <- (st_dec _ _ G). apply decodedRequest_turned; [by rewrite (st_high _ _ G) | done | unfold callIds; by rewrite (st_calls _ _ G)].
Qed.

(** ** Frames and events *)

(** The header block fragment of a HEADERS frame. *)
Definition headerFragment (flags : Z) (payload : bytes) : bytes :=
  let payload := if Z.land flags H2FlagPadded =? 0 then payload else match payload with [] => [] | padLen :: payload => ztake (zlen payload - padLen) payload end in
  if Z.land flags H2FlagPriority =? 0 then payload else zdrop 5 payload.

(** The header block a frame completes. *)
Definition blockEnd c (f : H2Frame) : option bytes :=
  if Z.land (f_flags f) H2FlagEndHeaders =? 0 then None
  else if negb (expectContinuation (h_head c) =? 0) then Some (headerAccum (h_head c) ++ f_payload f)
  else if f_type f =? H2FrameHeaders then Some (headerFragment (f_flags f) (f_payload f))
  else None.

Lemma set_header_turned c id endStream accum : turned c (false, set_header c id endStream accum) 0 (eq (h_dec c)).
Proof. intros _ Hv. exists []. cbn [snd]. split_and!; [by rewrite app_nil_r | cbn; lia | | done]. destruct Hv. by apply mkServing. Qed.

Lemma headersFrame_turned c id flags payload : turned c (epollH2Headers c id flags payload) 0
  (if Z.land flags H2FlagEndHeaders =? 0 then eq (h_dec c) else decoded (h_dec c) (headerFragment flags payload)).
Proof.
  unfold epollH2Headers, headerFragment. destruct (id =? 0); [by apply turned_closing |]. cbv zeta. set (payload' := if Z.land flags H2FlagPadded =? 0 then payload else match payload with [] => [] | padLen :: payload => _ end).
  set (u := if Z.land flags H2FlagPadded =? 0 then inl payload else _). assert (Hu : match u with inl p => p = payload' | inr _ => True end).
  { subst u payload'. destruct (Z.land flags H2FlagPadded =? 0); [done |]. destruct payload as [| padLen payload]; [done |]. by destruct (zlen payload <? padLen). }
  destruct u as [p | code]; [subst p | by apply turned_closing]. split_if; [by apply turned_closing |]. destruct (Z.land flags H2FlagEndHeaders =? 0); [apply set_header_turned | apply decodedHeaders_turned].
Qed.

Lemma continuation_turned c id flags payload : turned c (epollH2Continuation c id flags payload) 0
  (if Z.land flags H2FlagEndHeaders =? 0 then eq (h_dec c) else decoded (h_dec c) (headerAccum (h_head c) ++ payload)).
Proof.
  unfold epollH2Continuation. set (p := if zlen payload =? 0 then _ else _). assert (Hp : still c p.2) by (subst p; still_step; [apply charge_still, countCtrl_still | still_auto]). destruct p as [tripped c1]. cbn [snd] in Hp. destruct tripped; [by apply turned_closing |].
  apply (still_then c c1 _ _ _ Hp). rewrite <- (st_dec _ _ Hp), <- (st_head _ _ Hp). cbv zeta. split_if; [by apply turned_closing |]. destruct (Z.land flags H2FlagEndHeaders =? 0); [apply set_header_turned |].
  intros Hr Hv. refine (decodedHeaders_turned (set_header c1 0 _ _) id _ _ Hr _). destruct Hv. by apply mkServing.
Qed.

Lemma epollFrame_turned c f : turned c (epollH2Frame c f) (dataSize f)
  (if f_type f =? H2FrameHeaders then if Z.land (f_flags f) H2FlagEndHeaders =? 0 then eq (h_dec c) else decoded (h_dec c) (headerFragment (f_flags f) (f_payload f)) else eq (h_dec c)).
Proof.
  unfold epollH2Frame. set (p := if isCtrl f then _ else _). assert (Hp : still c p.2) by (subst p; still_step; [apply charge_still, countCtrl_still | still_auto]). destruct p as [tripped c1]. cbn [snd] in Hp. destruct tripped; [by apply turned_closing |].
  apply (still_then c c1 _ _ _ Hp). rewrite <- (st_dec _ _ Hp). assert (Hd : f_type f <> H2FrameData -> dataSize f = 0) by (intros Hne; unfold dataSize, isData; by rewrite (proj2 (Z.eqb_neq _ _) Hne)).
  destruct (f_type f =? H2FrameSettings) eqn:E1.
  { assert (f_type f = H2FrameSettings) as Ht by lia. rewrite Hd, Ht by (by rewrite Ht). split_if; [by apply turned_closing |]. split_if; [split_if; [by apply turned_closing | apply still_turned; still_auto] |]. split_if; [by apply turned_closing |].
    pose proof (epollSettings_still c1 (f_payload f)) as Hs. destruct (epollH2Settings c1 (f_payload f)) as [[] c2]; [| by apply turned_closing]. apply still_turned. cbn [snd] in *. still_auto. }
  destruct (f_type f =? H2FrameHeaders) eqn:E2. { rewrite Hd by (unfold H2FrameData, H2FrameHeaders in *; lia). apply headersFrame_turned. }
  destruct (f_type f =? H2FrameContinuation); [by apply turned_closing |]. destruct (f_type f =? H2FrameData) eqn:E3. { unfold dataSize, isData. rewrite E3. apply data_turned. } rewrite Hd by lia. clear Hd.
  split_if; [apply still_turned, windowUpdate_still |]. split_if; [repeat (split_if; [by apply turned_closing |]); apply still_turned; still_auto |].
  split_if; [split_if; [by apply turned_closing |]; apply still_turned, charge_still; eapply still_trans; [apply abandon_still | apply countReset_still] |].
  split_if; [repeat (split_if; [by apply turned_closing |]); apply still_turned; still_auto |]. split_if; [split_if; [by apply turned_closing | apply still_turned; still_auto] |]. split_if; [by apply turned_closing | apply still_turned; still_auto].
Qed.

(** What becomes of the decoder. *)
Definition decodedAs c (b : option bytes) (d : Dec E) : Prop := match b with None => d = h_dec c | Some b => decoded (h_dec c) b d end.

Lemma frame_turned c f : turned c (h2Frame c f) (dataSize f) (decodedAs c (blockEnd c f)).
Proof.
  unfold h2Frame. cbv zeta. unfold decodedAs, blockEnd. destruct (expectContinuation (h_head c) =? 0) eqn:Ee; cbn [negb].
  - intros Hr Hv. destruct (epollFrame_turned c f Hr Hv) as (fs & H1 & H2 & H3 & H4). exists fs. split_and!; [done | done | done |]. destruct (Z.land (f_flags f) H2FlagEndHeaders =? 0), (f_type f =? H2FrameHeaders); by try symmetry.
  - destruct (_ || _) eqn:Et; [by apply turned_closing |]. assert (Ht : f_type f = H2FrameContinuation) by lia. assert (dataSize f = 0) as -> by (unfold dataSize, isData; by rewrite Ht). intros Hr Hv. destruct (continuation_turned c (f_id f) (f_flags f) (f_payload f) Hr Hv) as (fs & H1 & H2 & H3 & H4).
    exists fs. split_and!; [done | done | done |]. destruct (Z.land (f_flags f) H2FlagEndHeaders =? 0); by try symmetry.
Qed.

Lemma onBody_turned c id g : (forall b, zlen (b_buf (g b)) + b_unacked (g b) = zlen (b_buf b) + b_unacked b /\ (0 <= b_unacked b -> 0 <= b_unacked (g b)) /\
    ((b_closed b = false -> b_buf b = [] -> 0 < b_unacked b -> b_ackQueued b = true) -> b_closed (g b) = false -> b_buf (g b) = [] -> 0 < b_unacked (g b) -> b_ackQueued (g b) = true) /\ b_received (g b) = b_received b /\ b_eof (g b) = b_eof b /\ b_err (g b) = b_err b) ->
  turned c (false, onBody c id g) 0 (eq (h_dec c)).
Proof.
  intros Hg. unfold onBody. destruct (h_bodies c !! id) as [i |] eqn:Ei; [| apply still_turned; still_auto]. apply turned_serving. intros Hv. destruct (sv_body _ Hv id i Ei) as (Hz & Hok & Hme & Hco). destruct (Hg (i_reader i)) as (G1 & G2 & G3 & G4 & G5 & G6).
  pose proof (body_turned c id i (mkBodyIn (i_open i) (g (i_reader i)) (i_recvWindow i) (i_received i) (i_declared i) (i_tooLarge i) (i_tunnel i)) [] Hz) as Hb. rewrite emit_nil in Hb. apply Hb; [| done | unfold follows, measured, counted; cbn; by rewrite G4, G5, G6 | by constructor].
  intros Ho Ht. cbn in *. destruct (Hok Ho Ht) as (K1 & K2 & K3). split_and!; [lia | by apply G2 | by apply G3].
Qed.

Lemma read_turned c id n : turned c (false, onBody c id (fun b => (body_Read b n).2)) 0 (eq (h_dec c)).
Proof.
  apply onBody_turned. intros b. unfold body_Read. cbn [snd b_buf b_unacked b_closed b_ackQueued]. assert (Hs : zlen (b_buf b) = zlen (ztake n (b_buf b)) + zlen (zdrop n (b_buf b))) by (rewrite <- zlen_app; unfold ztake, zdrop; by rewrite take_drop). pose proof (zlen_nonneg (ztake n (b_buf b))) as Hp.
  split_and!; [lia | lia | | done | done | done]. intros _ Hc Hbuf Hpos. rewrite Hbuf in *. unfold claimAck. destruct (b_ackQueued b); [done |]. cbn [orb]. rewrite (proj2 (Z.eqb_neq _ 0)) by lia. change (zlen (@nil Z)) with 0. by rewrite andb_false_r.
Qed.

Lemma close_turned c id : turned c (false, onBody c id (fun b => (body_Close b).2)) 0 (eq (h_dec c)).
Proof.
  apply onBody_turned. intros b. unfold body_Close. destruct (b_closed b) eqn:Ec; cbn [snd b_buf b_unacked b_closed b_ackQueued]; [split_and!; [done | done | congruence | done | done | done] |]. change (zlen (@nil Z)) with 0. pose proof (zlen_nonneg (b_buf b)). split_and!; [lia | lia | done | done | done | done].
Qed.

Lemma acked_turned c id : turned c (false, h2BodyAcked c id) 0 (eq (h_dec c)).
Proof.
  unfold h2BodyAcked. destruct (h_bodies c !! id) as [i |] eqn:Ei; [| apply still_turned; still_auto]. apply turned_serving. intros Hv. destruct (sv_body _ Hv id i Ei) as (Hz & Hok & Hme & Hco). unfold body_takeAck. set (reader := mkReader _ _ _ _ _ _ _ _).
  destruct (_ || i_tooLarge i) eqn:Eb.
  - set (i1 := mkBodyIn _ _ _ _ _ _ _). pose proof (body_turned c id i i1 [] Hz) as Hb. rewrite emit_nil in Hb. apply Hb; [| done | done | by constructor]. intros Ho Ht. cbn in Ho, Ht. rewrite Ho, Ht in Eb. cbn in Eb. destruct (Hok Ho Ht) as (K1 & K2 & K3). cbn. split_and!; [lia | lia | lia].
  - unfold set_body. cbn. set (i1 := mkBodyIn _ _ (i_recvWindow i + _) _ _ _ _). pose proof (body_turned c id i i1 [windowUpdateFrame id (b_unacked (i_reader i))] Hz) as Hb. unfold set_body in Hb. cbn in Hb. unfold emit, with_bodies. cbn. rewrite insert_insert_eq. apply Hb; [| done | done | by apply windowUpdate_other].
    intros Ho Ht. cbn in Ho, Ht. destruct (Hok Ho Ht) as (K1 & K2 & K3). cbn. split_and!; [lia | lia | lia].
Qed.

(** The block a step completes, and the data it takes. *)
Definition eventBlock c (e : h2Event) : option bytes := match e with EvFrame f => blockEnd c f | _ => None end.
Definition eventData (e : h2Event) : Z := match e with EvFrame f => dataSize f | _ => 0 end.

Lemma step_turned c e : turned c (h2Step c e) (eventData e) (decodedAs c (eventBlock c e)).
Proof.
  assert (Hsame : forall r, turned c r 0 (eq (h_dec c)) -> turned c r 0 (decodedAs c None)) by (intros r Ht Hr Hv; destruct (Ht Hr Hv) as (fs & H1 & H2 & H3 & H4); exists fs; split_and!; by try symmetry).
  pose proof (event_still c e) as Hs. destruct e as [f | id r streamed | id block | id data | id | id | id | id | id n | id | id | n armed | |]; cbn [eventBlock eventData]; try (by apply Hsame, still_turned).
  - cbn [h2Step]. split_if; [by apply turned_closing | apply frame_turned].
  - apply Hsame, read_turned.
  - apply Hsame, close_turned.
  - apply Hsame, acked_turned.
Qed.
End serving.

(** ** Runs *)

(** The room a peer has on the connection, by its own account: data it sends
    takes it, updates it gets give it. *)
Fixpoint room {E} (g : Z) (c : h2conn E) (es : list h2Event) : Z :=
  match es with
  | [] => g
  | e :: es => let '(stop, c') := h2Step c e in let g := g - eventData e + connGrant (drop (length (h_out c)) (h_out c')) in if stop then g else room g c' es
  end.

(** The header blocks a peer completes. *)
Fixpoint blocks {E} (c : h2conn E) (es : list h2Event) : list bytes :=
  match es with
  | [] => []
  | e :: es => let '(stop, c') := h2Step c e in (match eventBlock c e with Some b => [b] | None => [] end) ++ if stop then [] else blocks c' es
  end.

(** Blocks one after the other. *)
Inductive decodes {E} : Dec E -> list bytes -> Dec E -> Prop :=
| decodes_nil d : decodes d [] d
| decodes_cons d b d1 bs d2 : decoded d b d1 -> decodes d1 bs d2 -> decodes d (b :: bs) d2.

Lemma run_serving {E} (es : list h2Event) (c : h2conn E) : serving c -> (h2Run c es).1 = false -> let c' := (h2Run c es).2 in
  serving c' /\ room (recvConnWindow (h_win c)) c es = recvConnWindow (h_win c') /\ decodes (h_dec c) (blocks c es) (h_dec c').
Proof.
  revert c. induction es as [| e es IH]; intros c Hv; cbn [h2Run room blocks]; [intros _; split_and!; [done | done | constructor] |]. pose proof (step_turned c e) as Ht. destruct (h2Step c e) as [[] c1]; [done |]. intros Hs.
  destruct (Ht eq_refl Hv) as (fs & H1 & H2 & H3 & H4). cbn [snd] in *. destruct (IH c1 H3 Hs) as (I1 & I2 & I3). split_and!; [done | by rewrite H1, drop_app_length, <- H2 |].
  unfold decodedAs in H4. destruct (eventBlock c e) as [b |]; cbn [app]; [by econstructor | by rewrite <- H4].
Qed.

Lemma init_serving E dec enc b : serving (h2Init E dec enc b).
Proof. apply mkServing; [done | done | intros id i; cbn; by rewrite lookup_empty | intros id s; unfold held; cbn; by rewrite lookup_empty | constructor | constructor]. Qed.

(** C23: the receive windows. Whatever a peer, the handlers and the socket have
    done, a connection that is open leaves the peer, by the peer's own account of
    the WINDOW_UPDATE frames it got, at least half of the connection's window, so
    that no stream waits for another; a stream whose body is collected always has
    its whole window; and of a streamed body only the bytes the handler has not
    read or whose credit is not out yet are held back, with the credit queued
    once everything is read. *)
Theorem h2_receive_windows E dec enc b es : (h2Run (h2Init E dec enc b) es).1 = false -> let c := (h2Run (h2Init E dec enc b) es).2 in
  H2ConnectionWindowSize / 2 <= room H2ConnectionWindowSize (h2Init E dec enc b) es <= H2ConnectionWindowSize /\
  (forall id s, held c Mapped id = Some s -> s_RecvWindow s = h2InitialWindow E) /\
  (forall id i, bodyIn c id = Some i -> i_tooLarge i = false -> let r := i_reader i in
     i_recvWindow i + zlen (b_buf r) + b_unacked r = h2InitialWindow E /\ (b_closed r = false -> b_buf r = [] -> 0 < b_unacked r -> b_ackQueued r = true)).
Proof.
  intros Hs c. destruct (run_serving es _ (init_serving E dec enc b) Hs) as (Hv & Hr & _). fold c in Hv, Hr. cbn [h2Init h_win recvConnWindow] in Hr. rewrite Hr. destruct Hv as [S1 S2 S3 S4 S5 S6]. split_and!.
  - unfold H2ConnectionWindowSize in *. change (4194304 / 2) with 2097152 in *. lia.
  - lia.
  - intros id s Hh. apply (S4 id s Hh).
  - intros id i Hi Ht. apply bodyIn_lookup in Hi as [Hi Ho]. destruct (S3 id i Hi) as (_ & Hok & _). destruct (Hok Ho Ht) as (K1 & _ & K3). by split.
Qed.

(** C17: requests. While a connection is open, no stream has been handed to a
    handler twice, and every request handed over keeps to the length its head
    declared. The body that came with it, whether its last part came with DATA, with
    trailers or not at all, is within the limit and exactly as long as declared; or
    the body is streamed: then its reader never gets more than the declared length,
    and it only sees the end of the body after exactly that many bytes (otherwise
    it sees an error, or is still waiting). *)
Theorem h2_requests_once E dec enc b es : (h2Run (h2Init E dec enc b) es).1 = false -> let c := (h2Run (h2Init E dec enc b) es).2 in
  NoDup (callIds c) /\ forall id req body trailers, (id, req, body, trailers) ∈ h_calls c -> id <= h_high c /\
    ((q_declared req < 0 \/ zlen body = q_declared req) \/
     exists i, h_bodies c !! id = Some i /\ i_declared i = q_declared req /\ (0 <= q_declared req -> b_received (i_reader i) <= q_declared req) /\
       (b_eof (i_reader i) = true -> q_declared req < 0 \/ b_received (i_reader i) = q_declared req)) /\
    (body = [] \/ requestBodyTooLarge E (zlen body) = false).
Proof.
  intros Hs c. destruct (run_serving es _ (init_serving E dec enc b) Hs) as (Hv & _). fold c in Hv. destruct Hv as [S1 S2 S3 S4 S5 S6]. split; [done |].
  intros id req body trailers Hin. rewrite Forall_forall in S6. destruct (S6 _ Hin) as (H1 & H2 & H3). split_and!; [done | | done]. destruct H2 as [(i & Hi & Hd) | Hm]; [right | left; unfold h2LengthMismatch in Hm; lia].
  destruct (S3 id i Hi) as (_ & _ & (M1 & _ & M3) & _). rewrite Hd in *. exists i. split_and!; [done | done | done |]. intros He. specialize (M3 He). unfold h2LengthMismatch in M3. lia.
Qed.

(** ** The decoder and the peer's encoder *)

(** What a connection relies on of its decoder of headers: the dynamic table it
    stands at, the effect a header block has on it, that both ways to decode have
    it, and that the blocks of the root request that are answered without the
    decoder have none. *)
Class TableDecoder (E : h2Env) := {
  Table : Type;
  shows : Dec E -> Table -> Prop;
  blockFits : bytes -> Prop;
  blockEffect : Table -> bytes -> option Table;
  request_reads : forall d t b, shows d t -> blockFits b -> (DecodeRequest E d b).1 <> inr errCompression -> exists t', blockEffect t b = Some t' /\ shows (DecodeRequest E d b).2 t';
  fields_reads : forall d t b, shows d t -> blockFits b -> (DecodeInto E d b).1 <> None -> exists t', blockEffect t b = Some t' /\ shows (DecodeInto E d b).2 t';
  memoised_idle : forall d t b, shows d t -> MemoizedRootRequest E d b = true -> blockEffect t b = Some t;
  indexed_idle : forall t b, matchIndexedH2FastRootHeaderBlock b = true -> blockEffect t b = Some t }.

(** The peer's blocks, each once and in order. *)
Fixpoint tableAfter {E} {TD : TableDecoder E} (t : Table) (bs : list bytes) : option Table :=
  match bs with [] => Some t | b :: bs => match blockEffect t b with Some t => tableAfter t bs | None => None end end.

Lemma decodes_reads {E} {TD : TableDecoder E} d bs d' : decodes d bs d' -> forall t, shows d t -> Forall blockFits bs -> exists t', tableAfter t bs = Some t' /\ shows d' t'.
Proof.
  induction 1 as [d | d b d1 bs d2 Hd _ IH]; intros t Hs Hf; cbn [tableAfter]; [by exists t |]. apply Forall_cons in Hf as [Hb Hf].
  assert (H1 : exists t', blockEffect t b = Some t' /\ shows d1 t') by (destruct Hd as [He | He | Hm | Hm]; [by apply request_reads | by apply fields_reads | exists t; split; [by apply indexed_idle | done] | exists t; split; [by eapply memoised_idle | done]]).
  destruct H1 as (t1 & -> & Hs1). by apply IH.
Qed.

(** The decoder of an open connection stands at the table the peer's blocks make. *)
Lemma decoder_sync E {TD : TableDecoder E} dec t enc b es : shows dec t -> (h2Run (h2Init E dec enc b) es).1 = false -> Forall blockFits (blocks (h2Init E dec enc b) es) ->
  exists t', tableAfter t (blocks (h2Init E dec enc b) es) = Some t' /\ shows (h_dec (h2Run (h2Init E dec enc b) es).2) t'.
Proof.
  intros Hs Ho Hf. destruct (run_serving es _ (init_serving E dec enc b) Ho) as (_ & _ & H3). by eapply decodes_reads.
Qed.

(** An upload whose head comes in two frames and whose body comes in two, the
    first one padded. *)
Definition demoUpload : list h2Event :=
  [EvFrame (mkH2 H2FrameHeaders 0 1 [71]); EvFrame (mkH2 H2FrameContinuation H2FlagEndHeaders 1 [5]); EvFrame (mkH2 H2FrameData H2FlagPadded 1 [1; 65; 66; 0]); EvFrame (mkH2 H2FrameData H2FlagEndStream 1 [67; 68])].
Definition uploaded : h2conn (demoH2 None) := (h2Run (demoInit None) demoUpload).2.

Lemma h2_receive_windows_witness : (h2Run (demoInit None) demoUpload).1 = false /\ H2ConnectionWindowSize / 2 <= room H2ConnectionWindowSize (demoInit None) demoUpload /\ room H2ConnectionWindowSize (demoInit None) demoUpload = 4194298.
Proof. split; [by vm_compute |]. split; [| by vm_compute]. apply (h2_receive_windows (demoH2 None) O tt {| inFlight := 0; connReserved := 0 |} demoUpload). by vm_compute. Defined.

Lemma h2_requests_once_witness : NoDup (callIds uploaded) /\ h_calls uploaded = [(1, demoRequest 71 5, [65; 66; 67; 68], [])].
Proof. split; [| by vm_compute]. apply (h2_requests_once (demoH2 None) O tt {| inFlight := 0; connReserved := 0 |} demoUpload). by vm_compute. Defined.

