(* ===== verification/H2Body.v ===== *)
(** The body of an HTTP/2 response on its way out, and the bytes of a connection
    on their way in (src/core/epoll_h2_linux_amd64.go,
    epoll_h2_direct_linux_amd64.go): what a turn of the sender writes and why it
    stops, and that the byte loop sees exactly the frames that were encoded. *)
From stdpp Require Import base list numbers list_numbers gmap.
From Stdlib Require Import ZArith Lia ZifyBool.
From S2P Require Import Prelude BodyBudget H2Frame H2Conn H2Flow.

Open Scope list_scope.
Open Scope Z_scope.

(** ** The frames of a body *)

(** DATA frames that carry the body from [off] to [stop], one after the other;
    the one that reaches the end has END_STREAM. *)
Fixpoint carries (id : Z) (body : bytes) (off : Z) (fs : list H2Frame) (stop : Z) : Prop :=
  match fs with
  | [] => stop = off
  | f :: fs => exists n, 0 < n /\ off + n <= zlen body /\ f = dataFrame (if off + n =? zlen body then H2FlagEndStream else 0) id (zslice body off (off + n)) /\ carries id body (off + n) fs stop
  end.

Lemma carries_le id body fs off stop : carries id body off fs stop -> off <= zlen body -> off <= stop <= zlen body.
Proof. revert off. induction fs as [| f fs IH]; intros off; cbn [carries]; [intros -> ?; lia |]. intros (n & H1 & H2 & _ & H3) _. specialize (IH _ H3 H2). lia. Qed.

Lemma carries_app id body fs gs off mid stop : carries id body off fs mid -> carries id body mid gs stop -> carries id body off (fs ++ gs) stop.
Proof. revert off. induction fs as [| f fs IH]; intros off; cbn [carries app]; [by intros -> |]. intros (n & H1 & H2 & H3 & H4) Hg. exists n. split_and!; try done. by apply IH. Qed.

Lemma carries_size id body fs off stop : carries id body off fs stop -> 0 <= off -> payloadSize fs = stop - off.
Proof.
  unfold payloadSize. revert off. induction fs as [| f fs IH]; intros off; cbn [carries foldr]; [intros ->; lia |]. intros (n & H1 & H2 & -> & H4) Ho. cbn [f_payload dataFrame]. rewrite zlen_slice by lia. rewrite (IH _ H4) by lia. lia.
Qed.

(** A part of the frames carries a part of the body. *)
Lemma carries_take id body fs k off stop : carries id body off fs stop -> exists mid, carries id body off (take k fs) mid /\ carries id body mid (drop k fs) stop.
Proof.
  revert k off. induction fs as [| f fs IH]; intros [| k] off; cbn [carries take drop].
  - intros ->. by exists off.
  - intros ->. by exists off.
  - intros H. exists off. split; [done | exact H].
  - intros (n & H1 & H2 & H3 & H4). destruct (IH k _ H4) as (mid & M1 & M2). exists mid. split; [| done]. by exists n.
Qed.

Lemma zslice_split {A} (l : list A) a b c : 0 <= a <= b -> b <= c -> zslice l a b ++ zslice l b c = zslice l a c.
Proof.
  intros H1 H2. unfold zslice, ztake, zdrop. replace (Z.to_nat (c - a)) with (Z.to_nat (b - a) + Z.to_nat (c - b))%nat by lia. rewrite <- take_take_drop. f_equal. rewrite drop_drop. do 2 f_equal. lia.
Qed.

Lemma carries_bytes id body fs off stop : carries id body off fs stop -> 0 <= off -> concat (map f_payload fs) = zslice body off stop.
Proof.
  revert off. induction fs as [| f fs IH]; intros off; cbn [carries map concat]; [intros -> ?; unfold zslice, ztake; by replace (Z.to_nat (off - off)) with O by lia |]. intros (n & H1 & H2 & -> & H4) Ho. cbn [f_payload dataFrame]. rewrite (IH _ H4) by lia.
  apply zslice_split; [lia |]. pose proof (carries_le _ _ _ _ _ H4 H2). lia.
Qed.

Lemma zslice_all {A} (l : list A) : zslice l 0 (zlen l) = l.
Proof. unfold zslice, ztake, zlen. rewrite zdrop_0, Z.sub_0_r, Nat2Z.id. by apply take_ge. Qed.

(** END_STREAM is on the last frame of a whole body and on no other. *)
Lemma carries_end id body fs off stop : carries id body off fs stop -> off <= zlen body -> forall f, f ∈ fs -> f_flags f = H2FlagEndStream -> stop = zlen body /\ last fs = Some f.
Proof.
  revert off. induction fs as [| g fs IH]; intros off; cbn [carries]; [intros _ _ f H; by apply not_elem_of_nil in H |]. intros (n & H1 & H2 & -> & H4) Ho f Hin Hf.
  destruct (off + n =? zlen body) eqn:Ee.
  - pose proof (carries_le _ _ _ _ _ H4 H2) as Hle. destruct fs as [| g fs]; [| cbn [carries] in H4; destruct H4 as (m & ? & ? & _); lia]. cbn [carries] in H4. apply list_elem_of_singleton in Hin as ->. split; [lia | done].
  - apply elem_of_cons in Hin as [-> | Hin]; [done |]. destruct (IH _ H4 H2 f Hin Hf) as [K1 K2]. split; [done |]. destruct fs as [| g' fs]; [done |]. exact K2.
Qed.

Lemma carries_last id body fs off : carries id body off fs (zlen body) -> off < zlen body -> exists f, last fs = Some f /\ f_flags f = H2FlagEndStream.
Proof.
  revert off. induction fs as [| f fs IH]; intros off; cbn [carries]; [intros ->; lia |]. intros (n & H1 & H2 & -> & H4) _. destruct (decide (off + n = zlen body)) as [He | He].
  - rewrite (proj2 (Z.eqb_eq _ _) He). destruct fs as [| g fs]; [by eexists |]. cbn [carries] in H4. destruct H4 as (m & ? & ? & _). lia.
  - destruct (IH _ H4 ltac:(lia)) as (g & G1 & G2). exists g. split; [| done]. by destruct fs.
Qed.

Lemma carries_data id body fs off stop : carries id body off fs stop -> 0 <= off -> Forall (fun f => f_type f = H2FrameData /\ f_id f = id /\ 0 < zlen (f_payload f)) fs.
Proof.
  revert off. induction fs as [| f fs IH]; intros off; cbn [carries]; [by constructor |]. intros (n & N1 & N2 & -> & N4) Ho. constructor; [split_and!; [done | done |]; cbn [f_payload dataFrame]; rewrite zlen_slice; lia |]. apply (IH (off + n)); [done | lia].
Qed.

Lemma framesSize_app fs gs : framesSize (fs ++ gs) = framesSize fs + framesSize gs.
Proof. unfold framesSize. by rewrite encodeFrames_app, zlen_app. Qed.

Lemma framesSize_one f : framesSize [f] = h2FrameHeaderLen + zlen (f_payload f).
Proof. unfold framesSize. rewrite encodeFrames_cons. change (encodeFrames []) with (@nil Z). rewrite app_nil_r. apply zlen_encode. Qed.

Section body.
  Context {E : h2Env}.
  Implicit Types (c : h2conn E) (s : H2Stream) (id : Z).

(** [k] more bytes of a response sent. *)
Definition advance s (k : Z) : H2Stream := set_Window (set_resp s (s_resp s) (s_respOff s + k) (s_respHeadersSent s)) (s_Window s - k).

Lemma advance_0 s : advance s 0 = s.
Proof. unfold advance. rewrite Z.add_0_r, Z.sub_0_r. by destruct s. Qed.
Lemma advance_add s a b : advance (advance s a) b = advance s (a + b).
Proof. unfold advance. cbn [s_resp s_respOff s_respHeadersSent s_Window set_Window set_resp]. rewrite <- Z.add_assoc, <- Z.sub_add_distr. by destruct s. Qed.
Lemma bodyOf_advance s k : bodyOf (advance s k) = bodyOf s.
Proof. done. Qed.
Lemma respOff_advance s k : s_respOff (advance s k) = s_respOff s + k.
Proof. done. Qed.

(** A chunk is the most the windows, the frame and the body allow. *)
Lemma chunk_spec c s len limit n flags : h2DataChunk c s len limit = (n, flags) -> s_respOff s < len -> 0 < limit ->
  (n = 0 /\ (s_Window s <= 0 \/ connWindow (h_win c) <= 0)) \/ (0 < n /\ s_respOff s + n <= len /\ flags = if s_respOff s + n =? len then H2FlagEndStream else 0).
Proof. unfold h2DataChunk. cbv zeta. split_if; intros [= <- <-] Ho Hl; [left; lia |]. right. split_and!; [lia | lia | done]. Qed.

(** Where a loop over chunks may stop. *)
Definition stopped c s (k len : Z) : Prop := s_respOff s + k = len \/ s_Window s - k <= 0 \/ connWindow (h_win c) - k <= 0.

Lemma appendLoop_spec fuel c id limit used budget s : h_objs c !! id = Some s -> 0 < limit -> 0 <= s_respOff s <= zlen (bodyOf s) -> zlen (bodyOf s) - s_respOff s <= Z.of_nat fuel ->
  let c' := appendLoop fuel c id limit used budget in
  exists fs k, h_out c' = h_out c ++ fs /\ carries id (bodyOf s) (s_respOff s) fs (s_respOff s + k) /\ h_objs c' !! id = Some (advance s k) /\ connWindow (h_win c') = connWindow (h_win c) - k /\ h_sent c' = h_sent c /\
    (stopped c s k (zlen (bodyOf s)) \/ budget <= used + framesSize fs).
Proof.
  revert c used s. induction fuel as [| fuel IH]; intros c used s Hs Hl Ho Hf; cbv zeta.
  { exists [], 0. cbn [appendLoop carries]. rewrite app_nil_r, advance_0. split_and!; try done; [lia | lia |]. left. left. lia. }
  assert (Hstop : (stopped c s 0 (zlen (bodyOf s)) \/ budget <= used) -> exists fs k, h_out c = h_out c ++ fs /\ carries id (bodyOf s) (s_respOff s) fs (s_respOff s + k) /\ h_objs c !! id = Some (advance s k) /\ connWindow (h_win c) = connWindow (h_win c) - k /\ h_sent c = h_sent c /\
    (stopped c s k (zlen (bodyOf s)) \/ budget <= used + framesSize fs)).
  { intros H. exists [], 0. cbn [carries]. rewrite app_nil_r, advance_0. split_and!; try done; [lia | lia |]. change (framesSize []) with 0. by rewrite Z.add_0_r. }
  cbn [appendLoop]. rewrite Hs. destruct ((s_respOff s <? zlen (bodyOf s)) && (used <? budget)) eqn:Eg; [| apply Hstop; unfold stopped; lia].
  destruct (h2DataChunk c s (zlen (bodyOf s)) limit) as [n flags] eqn:Ec. destruct (chunk_spec _ _ _ _ _ _ Ec ltac:(lia) Hl) as [[-> Hw] | (Hn & Hle & Hflags)]; [cbn; apply Hstop; unfold stopped; lia |]. replace (n <=? 0) with false by lia. clear Hstop.
  set (f := dataFrame flags id _). set (c1 := h2ConsumeData (emit c [f]) id s n). assert (Hs1 : h_objs c1 !! id = Some (advance s n)) by (subst c1; cbn; by rewrite lookup_insert_eq).
  destruct (IH c1 (used + h2FrameHeaderLen + n) (advance s n) Hs1 Hl) as (fs & k & H1 & H2 & H3 & H4 & H5 & H6); [rewrite bodyOf_advance, respOff_advance; lia | rewrite bodyOf_advance, respOff_advance; lia |]. rewrite bodyOf_advance, respOff_advance in *.
  exists (f :: fs), (n + k). rewrite H1, H3, H4, advance_add. split_and!; [cbn; by rewrite <- app_assoc | | done | cbn; lia | by rewrite H5 |].
  - exists n. split_and!; [done | done | subst f; by rewrite Hflags |]. by replace (s_respOff s + (n + k)) with (s_respOff s + n + k) by lia.
  - assert (Hfs : framesSize (f :: fs) = h2FrameHeaderLen + n + framesSize fs) by (change (f :: fs) with ([f] ++ fs); rewrite framesSize_app, framesSize_one; cbn [f f_payload dataFrame]; rewrite zlen_slice by lia; lia).
    destruct H6 as [H6 | H6]; [left | right; lia]. unfold stopped in *. cbn in H6. lia.
Qed.

(** The frames of a direct send, before the socket has taken any. *)
Lemma directLoop_carries fuel c id limit sent budget fs0 s : h_objs c !! id = Some s -> 0 < limit -> 0 <= s_respOff s <= zlen (bodyOf s) -> zlen (bodyOf s) - s_respOff s <= Z.of_nat fuel ->
  let '(c', fs) := directLoop fuel c id limit sent budget fs0 in
  exists new k, fs = fs0 ++ new /\ carries id (bodyOf s) (s_respOff s) new (s_respOff s + k) /\ h_objs c' !! id = Some (advance s k) /\ connWindow (h_win c') = connWindow (h_win c) - k /\ h_out c' = h_out c /\ h_sent c' = h_sent c /\ h_tick c' = h_tick c /\
    (stopped c s k (zlen (bodyOf s)) \/ budget <= sent + framesSize new \/ h2DirectMaxFrames <= Z.of_nat (length fs)).
Proof.
  revert c sent fs0 s. induction fuel as [| fuel IH]; intros c sent fs0 s Hs Hl Ho Hf.
  { cbn [directLoop]. exists [], 0. rewrite app_nil_r, advance_0. cbn [carries]. split_and!; try done; try lia. left. left. lia. }
  assert (Hstop : (stopped c s 0 (zlen (bodyOf s)) \/ budget <= sent \/ h2DirectMaxFrames <= Z.of_nat (length fs0)) -> exists new k, fs0 = fs0 ++ new /\ carries id (bodyOf s) (s_respOff s) new (s_respOff s + k) /\ h_objs c !! id = Some (advance s k) /\ connWindow (h_win c) = connWindow (h_win c) - k /\ h_out c = h_out c /\ h_sent c = h_sent c /\ h_tick c = h_tick c /\
    (stopped c s k (zlen (bodyOf s)) \/ budget <= sent + framesSize new \/ h2DirectMaxFrames <= Z.of_nat (length fs0))).
  { intros H. exists [], 0. rewrite app_nil_r, advance_0. cbn [carries]. split_and!; try done; try lia. change (framesSize []) with 0. by rewrite Z.add_0_r. }
  cbn [directLoop]. rewrite Hs. destruct (_ && _ && _) eqn:Eg; [| apply Hstop; unfold stopped; lia]. destruct (h2DataChunk c s (zlen (bodyOf s)) limit) as [n flags] eqn:Ec. destruct (chunk_spec _ _ _ _ _ _ Ec ltac:(lia) Hl) as [[-> Hw] | (Hn & Hle & Hflags)]; [apply Hstop; unfold stopped; lia |].
  replace (n <=? 0) with false by lia. clear Hstop. set (f := dataFrame flags id _). set (c1 := h2ConsumeData c id s n). assert (Hs1 : h_objs c1 !! id = Some (advance s n)) by (subst c1; cbn; by rewrite lookup_insert_eq).
  specialize (IH c1 (sent + h2FrameHeaderLen + n) (fs0 ++ [f]) (advance s n) Hs1 Hl ltac:(rewrite bodyOf_advance, respOff_advance; lia) ltac:(rewrite bodyOf_advance, respOff_advance; lia)). rewrite bodyOf_advance, respOff_advance in IH. destruct (directLoop _ c1 id limit _ budget _) as [c' fs]. destruct IH as (new & k & H1 & H2 & H3 & H4 & H5 & H6 & H7 & H8).
  exists (f :: new), (n + k). split_and!; [by rewrite H1, <- app_assoc | | by rewrite H3, advance_add | rewrite H4; cbn; lia | done | done | done |].
  - exists n. split_and!; [done | done | subst f; by rewrite Hflags |]. by replace (s_respOff s + (n + k)) with (s_respOff s + n + k) by lia.
  - assert (Hfs : framesSize (f :: new) = h2FrameHeaderLen + n + framesSize new) by (change (f :: new) with ([f] ++ new); rewrite framesSize_app, framesSize_one; cbn [f f_payload dataFrame]; rewrite zlen_slice by lia; lia).
    destruct H8 as [H8 | [H8 | H8]]; [left | right; left; lia | by right; right]. unfold stopped in *. cbn in H8. lia.
Qed.

(** Frames whose bytes are all taken are all kept. *)
Lemma kept_all fs sent : framesSize fs <= sent -> keptFrames fs sent = length fs.
Proof.
  revert sent. induction fs as [| f fs IH]; intros sent H; cbn [keptFrames length]; [done |]. change (f :: fs) with ([f] ++ fs) in H. rewrite framesSize_app, framesSize_one in H. unfold frameSize. assert (0 <= framesSize fs) by apply zlen_nonneg. replace (_ <=? sent) with true by lia. by rewrite IH by lia.
Qed.

(** What the socket did not take is the response's again. *)
Lemma sendFrames_spec c id s fs k : h_objs c !! id = Some (advance s k) -> carries id (bodyOf s) (s_respOff s) fs (s_respOff s + k) -> 0 <= s_respOff s ->
  let c' := h2SendFrames c id fs in exists fs' k', h_out c' = h_out c ++ fs' /\ carries id (bodyOf s) (s_respOff s) fs' (s_respOff s + k') /\ h_objs c' !! id = Some (advance s k') /\ connWindow (h_win c') = connWindow (h_win c) + k - k' /\
    (fs' = fs /\ k' = k \/ exists rest, fs = fs' ++ rest /\ socketAccepts E (h_tick c) (h2OutputBacklog c + framesSize fs) < h2OutputBacklog c + framesSize fs).
Proof.
  intros Hs Hc Ho. cbv zeta. unfold h2SendFrames. cbv zeta. set (kept := if _ <? _ then O else _). destruct (carries_take _ _ _ kept _ _ Hc) as (mid & M1 & M2). assert (Hoff : s_respOff s <= mid).
  { pose proof (carries_size _ _ _ _ _ M1 Ho) as Hsz. pose proof (payloadSize_nonneg (take kept fs)). lia. }
  pose proof (carries_size _ _ _ _ _ M2 ltac:(lia)) as Hu. assert (Hshort : take kept fs = fs /\ mid - s_respOff s = k \/ exists rest, fs = take kept fs ++ rest /\ socketAccepts E (h_tick c) (h2OutputBacklog c + framesSize fs) < h2OutputBacklog c + framesSize fs).
  { destruct (decide (socketAccepts E (h_tick c) (h2OutputBacklog c + framesSize fs) < h2OutputBacklog c + framesSize fs)) as [Hlt | Hge]; [right; exists (drop kept fs); by rewrite take_drop | left]. assert (Hall : kept = length fs) by (subst kept; assert (0 <= framesSize fs) by apply zlen_nonneg; replace (_ <? h2OutputBacklog c) with false by lia; apply kept_all; lia). rewrite Hall in *. split; [by apply take_ge |]. rewrite drop_all in Hu. cbn in Hu. lia. }
  exists (take kept fs), (mid - s_respOff s). replace (s_respOff s + (mid - s_respOff s)) with mid by lia. unfold h2UnconsumeFrames. cbn [h_objs with_sent emit with_out tick]. rewrite Hs, Hu.
  destruct (_ =? 0) eqn:Eu.
  - cbn. replace (mid - s_respOff s) with k in * by lia. split_and!; [done | done | done | lia | exact Hshort].
  - unfold h2ConsumeData. cbn. rewrite lookup_insert_eq. split_and!; [done | done | | lia | exact Hshort]. f_equal. change (advance (advance s k) (- (s_respOff s + k - mid)) = advance s (mid - s_respOff s)). rewrite advance_add. f_equal. lia.
Qed.

(** ** A turn of the sender *)

Definition headFrames c id s (r : h2Response) : list H2Frame :=
  if s_respHeadersSent s then []
  else headersFrames (if zlen (r_body r) =? 0 then Z.lor H2FlagEndHeaders H2FlagEndStream else H2FlagEndHeaders) id (dataFrameLimit c) (encodeHead E (h_enc c) r).1.

Lemma responseHead_spec c id s r : h_objs c !! id = Some s -> s_resp s = Some r -> let c' := h2AppendResponseHead c id in
  h_out c' = h_out c ++ headFrames c id s r /\ h_objs c' !! id = Some (set_resp s (Some r) (s_respOff s) true) /\ h_win c' = h_win c /\ h_sent c' = h_sent c /\ h_tick c' = h_tick c.
Proof.
  intros Hs Hr. cbv zeta. unfold h2AppendResponseHead, headFrames. rewrite Hs, Hr. destruct (s_respHeadersSent s) eqn:Eh.
  - rewrite app_nil_r. split_and!; try done. rewrite Hs. f_equal. destruct s. cbn in *. by subst.
  - destruct (encodeHead E (h_enc c) r) as [block enc]. cbn. rewrite lookup_insert_eq. done.
Qed.

(** After the frames [fs] and some more, the socket took less of what was waiting
    than all of it. *)
Definition tookLess c (fs : list H2Frame) : Prop :=
  exists rest, socketAccepts E (h_tick c) (framesSize (h_out c ++ fs ++ rest) - h_sent c) < framesSize (h_out c ++ fs ++ rest) - h_sent c.

(** What a turn writes, charges and leaves. *)
Lemma emitWindowed_spec c id s r : h_objs c !! id = Some s -> s_resp s = Some r -> 0 <= s_respOff s <= zlen (r_body r) -> 0 < dataFrameLimit c ->
  let '(done, c') := h2EmitWindowed c id in exists fs k,
  h_out c' = h_out c ++ headFrames c id s r ++ fs /\ carries id (r_body r) (s_respOff s) fs (s_respOff s + k) /\ h_objs c' !! id = Some (advance (set_resp s (Some r) (s_respOff s) true) k) /\
  connWindow (h_win c') = connWindow (h_win c) - k /\ done = (zlen (r_body r) <=? s_respOff s + k) /\
  (done = false -> s_Window s - k <= 0 \/ connWindow (h_win c') <= 0 \/
   if h2SendsDirect c id (h2DirectSendHighMark - h2OutputBacklog c)
   then h2DirectSendHighMark - h2OutputBacklog c <= framesSize fs \/ h2DirectMaxFrames <= Z.of_nat (length fs) \/ tookLess c (headFrames c id s r ++ fs)
   else h2StreamSocketHighMark <= h2OutputBacklog c').
Proof.
  intros Hs Hr Ho Hl. destruct (responseHead_spec c id s r Hs Hr) as (R1 & R2 & R3 & R4 & R5). unfold h2EmitWindowed. cbv zeta. set (c1 := h2AppendResponseHead c id) in *. set (s1 := set_resp s (Some r) (s_respOff s) true) in *.
  assert (Hl1 : 0 < dataFrameLimit c1) by (unfold dataFrameLimit in *; by rewrite R3). assert (Hb1 : bodyOf s1 = r_body r) by done. assert (Hfuel : bodyFuel c1 id = length (r_body r)) by (unfold bodyFuel; by rewrite R2).
  assert (Hdone : forall c' k, h_objs c' !! id = Some (advance s1 k) -> sendDone c' id = (zlen (r_body r) <=? s_respOff s + k)) by (intros c' k H; unfold sendDone; by rewrite H).
  destruct (h2SendsDirect c id _) eqn:Ed.
  - unfold h2SendWindowed. cbv zeta. fold c1. pose proof (directLoop_carries (bodyFuel c1 id) c1 id (dataFrameLimit c1) 0 (h2DirectSendHighMark - h2OutputBacklog c) [] s1 R2 Hl1 ltac:(rewrite Hb1; exact Ho) ltac:(rewrite Hb1, Hfuel; unfold zlen; cbn; lia)) as H.
    destruct (directLoop (bodyFuel c1 id) c1 id (dataFrameLimit c1) 0 _ []) as [c2 fs]. destruct H as (new & k & -> & H2 & H3 & H4 & H5 & H6 & H7 & H8). cbn [app] in *. rewrite Hb1 in H2, H8.
    assert (Hstop : forall c' n, n = k -> connWindow (h_win c') = connWindow (h_win c) - k -> (zlen (r_body r) <=? s_respOff s + n) = false -> s_Window s - n <= 0 \/ connWindow (h_win c') <= 0 \/ h2DirectSendHighMark - h2OutputBacklog c <= framesSize new \/ h2DirectMaxFrames <= Z.of_nat (length new)).
    { intros c' n -> Hw Hnd. destruct H8 as [H8 | [H8 | H8]]; [| right; right; left; lia | by right; right; right]. unfold stopped in H8. rewrite R3 in H8. change (s_respOff s1) with (s_respOff s) in H8. change (s_Window s1) with (s_Window s) in H8. lia. }
    destruct new as [| f new].
    + exists [], k. rewrite H5, R1, H4, R3, app_nil_r. split_and!; [done | done | done | done | by apply Hdone |]. rewrite (Hdone c2 k H3). intros Hnd. specialize (Hstop c2 k eq_refl ltac:(by rewrite H4, R3) Hnd). rewrite H4, R3 in Hstop. tauto.
    + destruct (sendFrames_spec c2 id s1 (f :: new) k H3 H2 ltac:(exact (proj1 Ho))) as (fs' & k' & F1 & F2 & F3 & F4 & F5). exists fs', k'. rewrite F1, F4, H5, R1, H4, R3. split_and!; [by rewrite app_assoc | done | done | lia | by apply Hdone |]. rewrite (Hdone _ k' F3). intros Hnd.
      destruct F5 as [[-> ->] | (rest & Hrest & Hn)]; [| right; right; right; right; exists rest; unfold h2OutputBacklog in Hn; rewrite H7, R5, H5, H6, R1, R4, Hrest in Hn; rewrite <- app_assoc, !framesSize_app in *; by replace (framesSize (h_out c) + (framesSize (headFrames c id s r) + (framesSize fs' + framesSize rest)) - h_sent c) with (framesSize (h_out c) + framesSize (headFrames c id s r) - h_sent c + (framesSize fs' + framesSize rest)) by lia]. specialize (Hstop (h2SendFrames c2 id (f :: new)) k eq_refl ltac:(rewrite F4, H4, R3; lia) Hnd). rewrite F4, H4, R3 in Hstop. tauto.
  - unfold h2AppendWindowed. cbv zeta. fold c1. rewrite Hfuel.
    destruct (appendLoop_spec (length (r_body r)) c1 id (dataFrameLimit c1) (framesSize (h_out c1) - framesSize (h_out c)) (h2StreamSocketHighMark - h2OutputBacklog c) s1 R2 Hl1) as (fs & k & H1 & H2 & H3 & H4 & H5 & H6); [rewrite Hb1; exact Ho | rewrite Hb1; unfold zlen; cbn; lia |].
    rewrite Hb1 in H2, H6. set (c2 := appendLoop _ c1 id _ _ _) in *. exists fs, k. rewrite H4, R3. split_and!; [by rewrite H1, R1, app_assoc | exact H2 | exact H3 | done | by apply Hdone |]. intros Hnd. rewrite (Hdone c2 k H3) in Hnd. destruct H6 as [H6 | H6].
    + unfold stopped in H6. rewrite R3 in H6. change (s_respOff s1) with (s_respOff s) in H6. change (s_Window s1) with (s_Window s) in H6. lia.
    + right. right. unfold h2OutputBacklog in *. rewrite H5, R4, H1, framesSize_app. lia.
Qed.

End body.

(** C39: progress of a response. A turn that does not finish its response stops
    only because a window is used up or, when the response is buffered, because the
    connection has its share of bytes waiting for the socket, or, when it is sent
    straight to the socket, because the turn has made its share of frames (by
    their bytes or by their number) or the socket took less than it was offered:
    otherwise every byte the peer has room for is sent. The windows are charged
    exactly what was sent, and the turn says it is done exactly when the body is
    out. *)
Theorem h2_sender_progress E (c : h2conn E) (id : Z) (s : H2Stream) (r : h2Response) : h_objs c !! id = Some s -> s_resp s = Some r -> 0 <= s_respOff s <= zlen (r_body r) -> 0 < dataFrameLimit c ->
  exists s' fs, h_objs (h2EmitWindowed c id).2 !! id = Some s' /\ s_respOff s <= s_respOff s' <= zlen (r_body r) /\ s_Window s' = s_Window s - (s_respOff s' - s_respOff s) /\ connWindow (h_win (h2EmitWindowed c id).2) = connWindow (h_win c) - (s_respOff s' - s_respOff s) /\
    h_out (h2EmitWindowed c id).2 = h_out c ++ headFrames c id s r ++ fs /\ carries id (r_body r) (s_respOff s) fs (s_respOff s') /\
    ((h2EmitWindowed c id).1 = true <-> s_respOff s' = zlen (r_body r)) /\
    (s_respOff s' < zlen (r_body r) ->
     s_Window s' <= 0 \/ connWindow (h_win (h2EmitWindowed c id).2) <= 0 \/
     if h2SendsDirect c id (h2DirectSendHighMark - h2OutputBacklog c)
     then h2DirectSendHighMark - h2OutputBacklog c <= framesSize fs \/ h2DirectMaxFrames <= Z.of_nat (length fs) \/ tookLess c (headFrames c id s r ++ fs)
     else h2StreamSocketHighMark <= h2OutputBacklog (h2EmitWindowed c id).2).
Proof.
  intros Hs Hr Ho Hl. pose proof (emitWindowed_spec c id s r Hs Hr Ho Hl) as H. destruct (h2EmitWindowed c id) as [done c']. cbn [fst snd]. destruct H as (fs & k & H1 & H2 & H3 & H4 & H5 & H6). pose proof (carries_le _ _ _ _ _ H2 ltac:(lia)) as Hk. eexists _, fs. split; [exact H3 |].
  rewrite respOff_advance. cbn [s_respOff set_resp advance set_Window s_Window]. split_and!; [lia | lia | lia | lia | exact H1 | exact H2 | rewrite H5; lia |]. intros Hlt. apply H6. lia.
Qed.

(** ** Bytes to frames *)

Lemma be_val_nonneg (l : bytes) : bytes_ok l -> 0 <= be_val l.
Proof.
  unfold be_val. intros Hl. assert (Hacc : forall acc, 0 <= acc -> 0 <= fold_left (fun acc b => Z.lor (Z.shiftl acc 8) b) l acc); [| by apply Hacc]. induction Hl as [| b l Hb _ IH]; intros acc Ha; cbn [fold_left]; [done |].
  apply IH. apply Z.lor_nonneg. split; [by apply Z.shiftl_nonneg | unfold is_u8 in Hb; lia].
Qed.

Section bytes.
  Context {E : h2Env}.
  Implicit Types (c : h2conn E).

Lemma encode_length f (rest : bytes) : frame_wf f -> be_val (ztake 3 (encodeFrame f ++ rest)) = zlen (f_payload f).
Proof.
  intros [_ _ _ W]. pose proof (zlen_nonneg (f_payload f)). change (ztake 3 (encodeFrame f ++ rest)) with (be_bytes 3 (zlen (f_payload f))). rewrite be_val_bytes. apply Z.mod_small. change (2 ^ (8 * Z.of_nat 3)) with (2 ^ 24). lia.
Qed.

(** One turn of the loop is one frame. *)
Lemma loop_frame fuel c f (rest : bytes) : frame_wf f -> zlen (f_payload f) <= h2MaxFrameSize E ->
  exists unread, epollProcessH2Frames (S fuel) c (encodeFrame f ++ rest) = let '(stop, c') := h2Step c (EvFrame f) in if stop then (true, c', unread) else epollProcessH2Frames fuel c' rest.
Proof.
  intros Hf Hm. cbn [epollProcessH2Frames h2Step]. destruct (maxPendingWrite E <? h2OutputBacklog c) eqn:Eb; [by eexists |]. pose proof (zlen_nonneg (f_payload f)) as Hp. pose proof (zlen_nonneg rest) as Hr. pose proof (read_encode f rest Hf) as Hread. unfold H2ReadFrame in Hread.
  rewrite !encode_length by done. rewrite encode_length in Hread by done. rewrite zlen_app, zlen_encode in *. unfold h2FrameHeaderLen in *. replace (9 + zlen (f_payload f) + zlen rest <? 9) with false in * by lia. replace (h2MaxFrameSize E <? zlen (f_payload f)) with false by lia.
  replace (9 + zlen (f_payload f) + zlen rest <? 9 + zlen (f_payload f)) with false in * by lia. apply (f_equal (fun x => match x with inl g => g | inr _ => f end)) in Hread. cbv beta iota in Hread. rewrite Hread. assert (zdrop (9 + zlen (f_payload f)) (encodeFrame f ++ rest) = rest) as ->.
  { replace (9 + zlen (f_payload f)) with (zlen (encodeFrame f)) by (rewrite zlen_encode; unfold h2FrameHeaderLen; lia). apply zdrop_app_exact. }
  exists rest. by destruct (h2Frame c f) as [[] c'].
Qed.

(** The loop over bytes that hold no whole frame it would take. *)
Definition loopEnd c (rest : bytes) : bool * h2conn E * bytes :=
  if maxPendingWrite E <? h2OutputBacklog c then (true, goAway c H2ErrEnhanceYourCalm, rest)
  else if (9 <=? zlen rest) && (h2MaxFrameSize E <? be_val (ztake 3 rest)) then (true, goAway c H2ErrFrameSize, rest)
  else (false, c, rest).
Definition noFrame (rest : bytes) : Prop := zlen rest < 9 \/ h2MaxFrameSize E < be_val (ztake 3 rest) \/ zlen rest < 9 + be_val (ztake 3 rest).

Lemma loop_rest fuel c (rest : bytes) : noFrame rest -> epollProcessH2Frames (S fuel) c rest = loopEnd c rest.
Proof.
  intros Hr. cbn [epollProcessH2Frames]. unfold loopEnd, noFrame in *. destruct (maxPendingWrite E <? _); [done |]. cbv zeta. destruct (zlen rest <? 9) eqn:E1; [by replace (9 <=? zlen rest) with false by lia |]. replace (9 <=? zlen rest) with true by lia. cbn [andb].
  destruct (h2MaxFrameSize E <? be_val (ztake 3 rest)) eqn:E2; [done |]. by replace (zlen rest <? _) with true by lia.
Qed.

Lemma loop_frames fs fuel c (rest : bytes) : Forall (fun f => frame_wf f /\ zlen (f_payload f) <= h2MaxFrameSize E) fs -> noFrame rest -> (length fs < fuel)%nat ->
  let '(stop, c') := h2Run c (map EvFrame fs) in
  if stop then exists unread, epollProcessH2Frames fuel c (encodeFrames fs ++ rest) = (true, c', unread) else epollProcessH2Frames fuel c (encodeFrames fs ++ rest) = loopEnd c' rest.
Proof.
  intros Hf Hr. revert c fuel. induction fs as [| f fs IH]; intros c [| fuel] Hl; cbn [length] in Hl; try lia.
  - by apply loop_rest.
  - apply Forall_cons_1 in Hf as [[W1 W2] Hf]. rewrite encodeFrames_cons, <- app_assoc. destruct (loop_frame fuel c f (encodeFrames fs ++ rest) W1 W2) as (unread & ->). cbn [map h2Run]. destruct (h2Step c (EvFrame f)) as [[] c1]; [by eexists |]. apply IH; [done | lia].
Qed.

(** Each turn takes at least nine bytes. *)
Lemma loop_fuel fuel fuel' c (unread : bytes) : bytes_ok unread -> (length unread < fuel)%nat -> (length unread < fuel')%nat -> epollProcessH2Frames fuel c unread = epollProcessH2Frames fuel' c unread.
Proof.
  revert fuel' c unread. induction fuel as [| fuel IH]; intros [| fuel'] c unread Hb H1 H2; try lia. cbn [epollProcessH2Frames]. destruct (maxPendingWrite E <? _); [done |]. cbv zeta. destruct (zlen unread <? 9) eqn:E1; [done |]. destruct (h2MaxFrameSize E <? _); [done |]. set (len := be_val (ztake 3 unread)). destruct (zlen unread <? 9 + len) eqn:E2; [done |].
  destruct (h2Frame c _) as [[] c1]; [done |]. assert (Hlen : 0 <= len) by (apply be_val_nonneg, Forall_take, Hb). assert (Hdrop : (length (zdrop (9 + len) unread) < length unread)%nat) by (unfold zdrop, zlen in *; rewrite length_drop; lia). apply IH; [by apply Forall_drop | lia | lia].
Qed.
End bytes.

(** C29: the byte loop. The bytes of any frames, followed by a part of a frame or
    by the header of one that is too long, have exactly the effect of handling
    the frames one by one, up to the first that closes the connection; what is
    left over is kept for the next read or refused. The loop ends on any input:
    fuel beyond the number of bytes makes no difference. *)
Theorem h2_byte_loop E (c : h2conn E) (fs : list H2Frame) (rest : bytes) (fuel : nat) : Forall (fun f => frame_wf f /\ zlen (f_payload f) <= h2MaxFrameSize E) fs -> noFrame (E := E) rest -> (length fs < fuel)%nat ->
  (if (h2Run c (map EvFrame fs)).1 then (epollProcessH2Frames fuel c (encodeFrames fs ++ rest)).1 = h2Run c (map EvFrame fs)
   else epollProcessH2Frames fuel c (encodeFrames fs ++ rest) = loopEnd (h2Run c (map EvFrame fs)).2 rest) /\
  forall unread fuel1 fuel2, bytes_ok unread -> (length unread < fuel1)%nat -> (length unread < fuel2)%nat -> epollProcessH2Frames fuel1 c unread = epollProcessH2Frames fuel2 c unread.
Proof.
  intros Hf Hr Hl. split; [| intros; by apply loop_fuel]. pose proof (loop_frames fs fuel c rest Hf Hr Hl) as H. destruct (h2Run c (map EvFrame fs)) as [[] c']; cbn [fst snd] in *; [by destruct H as (unread & ->) | done].
Qed.

(** ** Examples *)

Definition byteFrames : list H2Frame := [mkH2 H2FrameHeaders 4 1 [71; 0]; mkH2 H2FrameData 0 1 [65; 66]].

Lemma h2_byte_loop_witness : epollProcessH2Frames 100 (demoInit None) (encodeFrames byteFrames ++ [0; 0; 5; 0]) = loopEnd (h2Run (demoInit None) (map EvFrame byteFrames)).2 [0; 0; 5; 0] /\
  (epollProcessH2Frames 100 (demoInit None) (encodeFrames byteFrames ++ [0; 0; 5; 0])).2 = [0; 0; 5; 0] /\ h_out (epollProcessH2Frames 100 (demoInit None) (encodeFrames byteFrames)).1.2 = [windowUpdateFrame 1 2].
Proof.
  split; [| by vm_compute]. apply (h2_byte_loop (demoH2 None) (demoInit None) byteFrames [0; 0; 5; 0] 100).
  - repeat constructor; cbn; unfold is_u8; try lia; by vm_compute.
  - left. by vm_compute.
  - cbn. lia.
Defined.

(** A response of five bytes on a stream with a window of three, and after the
    window has grown by four. *)
Definition demoResponse : h2Response := mkResponse 200 [] [] [1; 2; 3; 4; 5].
Definition demoStream (w off : Z) (sent : bool) : H2Stream := mkStream Sending StreamHalfClosed w 65535 (demoRequest 71 0) [] 0 [] (Some demoResponse) off sent 0 0 false false.
Definition responseTurn1 : h2conn (demoH2 None) := put (demoInit None) 1 (demoStream 3 0 false).
Definition responseTurn2 : h2conn (demoH2 None) := put (h2EmitWindowed responseTurn1 1).2 1 (demoStream 4 3 true).

Lemma h2_sender_progress_witness : exists s', h_objs (h2EmitWindowed responseTurn1 1).2 !! 1 = Some s' /\ s_Window s' = 3 - (s_respOff s' - 0) /\ h_objs (h2EmitWindowed responseTurn1 1).2 !! 1 = Some (demoStream 0 3 true).
Proof.
  destruct (h2_sender_progress (demoH2 None) responseTurn1 1 (demoStream 3 0 false) demoResponse) as (s' & fs & H1 & _ & H2 & _); [by vm_compute | done | by vm_compute | by vm_compute |]. exists s'. split_and!; [exact H1 | exact H2 | by vm_compute].
Defined.
