(* ===== verification/H2Delivery.v ===== *)
(** Delivery of HTTP/2 responses over whole connections
    (src/core/epoll_h2_linux_amd64.go, epoll_h2_direct_linux_amd64.go): the frames
    of one stream among everything a connection writes, whatever happens to it and
    to the other streams. *)
From stdpp Require Import base list numbers list_numbers gmap.
From Stdlib Require Import ZArith Lia ZifyBool.
From S2P Require Import Prelude BodyBudget H2Frame H2Conn H2Flow H2Serve H2Body.

Open Scope list_scope.
Open Scope Z_scope.

(** ** What a stream has been sent *)

(** The response a stream gets when its handler returns [r]. *)
Definition finalResponse (E : h2Env) (r : h2Response) (streamed : bool) : h2Response :=
  let r := if streamed then plainResponse 500 unsupportedText else r in
  if (0 <? MaxWriteSize E) && (MaxWriteSize E <? zlen (r_body r)) then plainResponse 500 tooLargeText else r.

Definition headFlags (r : h2Response) : Z := if zlen (r_body r) =? 0 then Z.lor H2FlagEndHeaders H2FlagEndStream else H2FlagEndHeaders.

(** The header block of [r], once, and its body up to [off] in DATA frames. *)
Definition delivered (E : h2Env) (k : Z) (r : h2Response) (off : Z) (fs : list H2Frame) : Prop :=
  exists enc max data, fs = headersFrames (headFlags r) k max (encodeHead E enc r).1 ++ data /\ carries k (r_body r) 0 data off.

(** The answers that are given without a stream: the memoised root response, and
    the refusal of a header list that is too large. *)
Definition shortcut (E : h2Env) (k : Z) (fs : list H2Frame) : Prop :=
  (exists max fast, rootFast E = Some fast /\ fs = fastRootFrames k max fast) \/
  (exists max enc, fs = headersFrames (Z.lor H2FlagEndHeaders H2FlagEndStream) k max (encodeHead E enc (mkResponse h2StatusHeaderListTooLarge [] [] [])).1).

Section Own.

Context (k : Z).

(** The frames of the response on stream [k], and whether the stream was reset. *)
Definition isOwn (f : H2Frame) : bool := (f_id f =? k) && ((f_type f =? H2FrameData) || (f_type f =? H2FrameHeaders) || (f_type f =? H2FrameContinuation)).
Definition own (fs : list H2Frame) : list H2Frame := List.filter isOwn fs.
Definition isCut (f : H2Frame) : bool := (f_type f =? H2FrameRSTStream) && (f_id f =? k).
Definition cut (fs : list H2Frame) : Prop := existsb isCut fs = true.

Lemma own_app a b : own (a ++ b) = own a ++ own b.
Proof. apply List.filter_app. Qed.
Lemma cut_more a b : cut a -> cut (a ++ b).
Proof. unfold cut. rewrite existsb_app. by intros ->. Qed.
Lemma own_none fs : Forall (fun f => isOwn f = false) fs -> own fs = [].
Proof. induction 1 as [| f fs Hf _ IH]; [done |]. cbn. by rewrite Hf. Qed.
Lemma own_all fs : Forall (fun f => isOwn f = true) fs -> own fs = fs.
Proof. induction 1 as [| f fs Hf _ IH]; [done |]. cbn. rewrite Hf. f_equal. exact IH. Qed.
Lemma own_other id fs : id <> k -> Forall (fun f => f_id f = id) fs -> own fs = [].
Proof. intros Hn Hf. apply own_none. eapply Forall_impl; [exact Hf |]. intros f Hid. cbv beta in Hid. unfold isOwn. by rewrite Hid, (proj2 (Z.eqb_neq _ _) Hn). Qed.

Lemma headersFrames_own flags max block : Forall (fun f => isOwn f = true) (headersFrames flags k max block).
Proof.
  assert (Hc : forall fuel rest, Forall (fun f => isOwn f = true) (continuations fuel k max rest)) by (intros fuel; induction fuel as [| fuel IH]; intros rest; cbn [continuations]; [by constructor |]; split_if; constructor; [unfold isOwn; cbn; by rewrite Z.eqb_refl | apply IH]).
  unfold headersFrames. split_if; (constructor; [unfold isOwn; cbn; by rewrite Z.eqb_refl |]); [apply Hc | constructor].
Qed.

Lemma carries_own body fs off stop : carries k body off fs stop -> 0 <= off -> Forall (fun f => isOwn f = true) fs.
Proof. intros Hc Ho. eapply Forall_impl; [apply (carries_data _ _ _ _ _ Hc Ho) |]. intros f (H1 & H2 & _). unfold isOwn. by rewrite H1, H2, Z.eqb_refl. Qed.

End Own.

Lemma headersFrames_id flags id max block : Forall (fun f => f_id f = id) (headersFrames flags id max block).
Proof.
  assert (Hc : forall fuel rest, Forall (fun f => f_id f = id) (continuations fuel id max rest)) by (intros fuel; induction fuel as [| fuel IH]; intros rest; cbn [continuations]; [by constructor |]; split_if; constructor; [done | apply IH]).
  unfold headersFrames. split_if; (constructor; [done |]); [apply Hc | constructor].
Qed.

(** ** Operations on one stream *)

Section Beside.
  Context {E : h2Env}.
  Implicit Types (c : h2conn E) (id : Z).

(** Only stream [id] is touched, and only its frames are written. *)
Record beside id c c' : Prop := mkBeside {
  be_objs : forall j, j <> id -> h_objs c' !! j = h_objs c !! j;
  be_writers : h_writers c' = h_writers c;
  be_high : h_high c' = h_high c;
  be_limit : maxFrameSize (h_win c') = maxFrameSize (h_win c);
  be_out : exists fs, h_out c' = h_out c ++ fs /\ Forall (fun f => f_id f = id) fs }.

Lemma beside_same id c c' : h_objs c' = h_objs c -> h_writers c' = h_writers c -> h_high c' = h_high c -> maxFrameSize (h_win c') = maxFrameSize (h_win c) -> h_out c' = h_out c -> beside id c c'.
Proof. intros H1 H2 H3 H4 H5. apply mkBeside; try done; [by rewrite H1 |]. exists []. by rewrite app_nil_r. Qed.
Lemma beside_refl id c : beside id c c.
Proof. by apply beside_same. Qed.
Lemma beside_trans id c1 c2 c3 : beside id c1 c2 -> beside id c2 c3 -> beside id c1 c3.
Proof.
  intros [A1 A2 A3 A4 (fs & A5 & A6)] [B1 B2 B3 B4 (gs & B5 & B6)]. apply mkBeside; try congruence; [intros j Hj; rewrite B1, A1; done |]. exists (fs ++ gs). rewrite B5, A5, app_assoc. split; [done | by apply Forall_app].
Qed.
Lemma beside_emit id c fs : Forall (fun f => f_id f = id) fs -> beside id c (emit c fs).
Proof. intros H. apply mkBeside; try done. by exists fs. Qed.
Lemma beside_put id c s : beside id c (put c id s).
Proof. apply mkBeside; try done; [intros j Hj; cbn; by rewrite lookup_insert_ne |]. exists []. by rewrite app_nil_r. Qed.

Lemma consume_beside id c s n : beside id c (h2ConsumeData c id s n).
Proof. unfold h2ConsumeData. eapply beside_trans; [| apply beside_put]. by apply beside_same. Qed.

Lemma responseHead_beside c id : beside id c (h2AppendResponseHead c id).
Proof.
  unfold h2AppendResponseHead. destruct (h_objs c !! id) as [s |]; [| apply beside_refl]. destruct (s_resp s) as [r |]; [| apply beside_refl]. destruct (s_respHeadersSent s); [apply beside_refl |]. destruct (encodeHead E (h_enc c) r) as [block enc].
  eapply beside_trans; [| apply beside_emit, headersFrames_id]. eapply beside_trans; [| apply beside_put]. by apply beside_same.
Qed.

Lemma appendLoop_beside fuel id limit used budget c : beside id c (appendLoop fuel c id limit used budget).
Proof.
  revert c used. induction fuel as [| fuel IH]; intros c used; cbn [appendLoop]; [apply beside_refl |]. destruct (h_objs c !! id) as [s |]; [| apply beside_refl]. split_if; [| apply beside_refl]. destruct (h2DataChunk _ _ _ _) as [n flags]. split_if; [apply beside_refl |].
  eapply beside_trans; [| apply IH]. eapply beside_trans; [| apply consume_beside]. apply beside_emit. by constructor.
Qed.

Lemma directLoop_beside fuel id limit sent budget c fs : beside id c (directLoop fuel c id limit sent budget fs).1 /\ (Forall (fun f => f_id f = id) fs -> Forall (fun f => f_id f = id) (directLoop fuel c id limit sent budget fs).2).
Proof.
  revert c sent fs. induction fuel as [| fuel IH]; intros c sent fs; cbn [directLoop]; [split; [apply beside_refl | done] |]. destruct (h_objs c !! id) as [s |]; [| split; [apply beside_refl | done]]. split_if; [| split; [apply beside_refl | done]]. destruct (h2DataChunk _ _ _ _) as [n flags]. split_if; [split; [apply beside_refl | done] |].
  match goal with |- context [directLoop fuel ?c1 id limit ?s1 budget ?fs1] => destruct (IH c1 s1 fs1) as [I1 I2] end. split; [eapply beside_trans; [apply consume_beside | exact I1] |]. intros H. apply I2. apply Forall_app. split; [done | by constructor].
Qed.

Lemma sendFrames_beside id c fs : Forall (fun f => f_id f = id) fs -> beside id c (h2SendFrames c id fs).
Proof.
  intros Hf. unfold h2SendFrames, h2UnconsumeFrames. cbv zeta. set (kept := if _ <? _ then _ else _). set (c1 := with_sent _ _). assert (H1 : beside id c c1) by (apply (beside_trans id c (emit (tick c) (take kept fs))); [apply (beside_trans id c (tick c)); [by apply beside_same | apply beside_emit; by apply Forall_take] | by apply beside_same]).
  destruct (h_objs c1 !! id) as [s |]; [| done]. split_if; [done |]. eapply beside_trans; [exact H1 | apply consume_beside].
Qed.

Lemma emitWindowed_beside c id : beside id c (h2EmitWindowed c id).2.
Proof.
  unfold h2EmitWindowed. cbv zeta. destruct (h2SendsDirect c id _).
  - unfold h2SendWindowed. cbv zeta. generalize (h2DirectSendHighMark - h2OutputBacklog c). intros budget. eapply beside_trans; [apply (responseHead_beside c id) |]. generalize (h2AppendResponseHead c id). clear c. intros c.
    pose proof (directLoop_beside (bodyFuel c id) id (dataFrameLimit c) 0 budget c []) as [H1 H2]. destruct (directLoop (bodyFuel c id) c id (dataFrameLimit c) 0 budget []) as [c1 fs]. cbn [fst snd] in *. destruct fs as [| f fs]; [done |]. eapply beside_trans; [exact H1 |]. apply sendFrames_beside. by apply H2.
  - unfold h2AppendWindowed. cbn [snd]. eapply beside_trans; [apply responseHead_beside | apply appendLoop_beside].
Qed.

Lemma pumpLoop_beside fuel id limit used backlog c w : beside id c (pumpLoop fuel c id w limit used backlog).1.
Proof.
  revert c w used. induction fuel as [| fuel IH]; intros c w used; cbn [pumpLoop]; [apply beside_refl |]. destruct (h_objs c !! id) as [s |]; [| apply beside_refl]. split_if; [| apply beside_refl]. cbv zeta. split_if; [apply beside_refl |].
  eapply beside_trans; [| apply IH]. eapply beside_trans; [| apply beside_put]. match goal with |- beside _ _ (set_connWindow ?c1 _) => apply (beside_trans id c c1) end; [apply beside_emit; by constructor | by apply beside_same].
Qed.

Lemma pumpFrames_beside c id w backlog : beside id c (h2PumpFrames c id w backlog).1.
Proof.
  unfold h2PumpFrames. set (w0 := set_w_data w _ _ _ _ false). destruct (w_finished w0); [apply beside_refl |]. destruct (w_err w0); [cbn [fst]; split_if; [apply beside_emit; by constructor | apply beside_refl] |]. cbv beta zeta.
  assert (Hdata : forall c w limit, beside id c (let '(c, w) := pumpLoop (length (w_pending w)) c id w limit 0 backlog in
    if negb (w_finished w) && w_ended w && (zlen (w_pending w) =? 0)
    then (emit c [dataFrame H2FlagEndStream id []], set_w_data w (w_header w) (w_pending w) (w_headersOut w) true (w_pumpQueued w)) else (c, w)).1).
  { intros c1 w1 limit. pose proof (pumpLoop_beside (length (w_pending w1)) id limit 0 backlog c1 w1) as H. destruct (pumpLoop _ c1 id w1 limit 0 backlog) as [c2 w2]. cbn [fst] in H. split_if; cbn [fst]; [| done]. eapply beside_trans; [exact H |]. apply beside_emit. by constructor. }
  destruct (w_headersOut w0); [apply Hdata |]. destruct (w_header w0) as [block |]; [| apply beside_refl]. destruct (if pendingUpdate E (h_enc c) then _ else _) as [update enc].
  assert (H1 : forall flags, beside id c (emit (with_enc c enc) (headersFrames flags id (dataFrameLimit c) (update ++ block)))) by (intros flags; eapply beside_trans; [| apply beside_emit, headersFrames_id]; by apply beside_same).
  split_if; cbn [fst]; [apply H1 |]. eapply beside_trans; [apply H1 | apply Hdata].
Qed.

End Beside.

(** ** The ledger of a stream *)

Section Ledger.
  Context {E : h2Env} (k : Z) (given : h2Response -> Prop).
  Implicit Types (c : h2conn E) (id : Z) (s : H2Stream).
  Local Abbreviation own := (own k).
  Local Abbreviation cut := (cut k).

(** A writer that has not been used for a response. *)
Definition quietWriter (w : streamWriter) : Prop := w_header w = None /\ w_headersOut w = false /\ w_handlerDone w = false.

(** What was sent for a stream whose response is under way. *)
Definition underWay (r : h2Response) (s : H2Stream) (fs : list H2Frame) : Prop :=
  0 <= s_respOff s <= zlen (r_body r) /\ if s_respHeadersSent s then delivered E k r (s_respOff s) fs else s_respOff s = 0 /\ fs = [].

(** What was sent for a stream the connection does not hold. *)
Definition concluded (fs : list H2Frame) : Prop := fs = [] \/ shortcut E k fs \/ exists r, given r /\ delivered E k r (zlen (r_body r)) fs.

Definition entry (o : option H2Stream) (w : option streamWriter) (high : Z) (out : list H2Frame) : Prop :=
  cut out \/
  (match w with Some w => quietWriter w | None => True end /\
   match o with
   | Some s =>
       k <= high /\
       match s_place s with
       | Mapped | Busy => own out = []
       | Sending => w = None /\ exists r, s_resp s = Some r /\ given r /\ underWay r s (own out)
       | Draining => False
       end
   | None => (high < k -> own out = [] /\ w = None) /\ concluded (own out)
   end).

Definition ledger c : Prop := 0 < maxFrameSize (h_win c) /\ entry (h_objs c !! k) (h_writers c !! k) (h_high c) (h_out c).

(** The stream may be dropped: its response is complete, or it was reset. *)
Definition mayDrop c : Prop := cut (h_out c) \/ concluded (own (h_out c)) /\ k <= h_high c.

Lemma ledger_limit c : ledger c -> 0 < dataFrameLimit c.
Proof. intros [H _]. unfold dataFrameLimit. by rewrite (proj2 (Z.eqb_neq _ 0)) by lia. Qed.

Lemma ledger_cut c : 0 < maxFrameSize (h_win c) -> cut (h_out c) -> ledger c.
Proof. intros H1 H2. split; [done | by left]. Qed.

Lemma entry_emit o w high out fs : own fs = [] -> entry o w high out -> entry o w high (out ++ fs).
Proof. intros Hf [H | H]; [left; by apply cut_more |]. right. by rewrite (own_app k), Hf, app_nil_r. Qed.

(** Frames that are not of the response. *)
Lemma ledger_emit c fs : own fs = [] -> ledger c -> ledger (emit c fs).
Proof. intros Hf [H1 H2]. split; [done |]. by apply entry_emit. Qed.

(** Another stream. *)
Lemma ledger_beside id c c' : beside id c c' -> id <> k -> ledger c -> ledger c'.
Proof.
  intros [B1 B2 B3 B4 (fs & B5 & B6)] Hn [H1 H2]. split; [by rewrite B4 |]. rewrite B1, B2, B3, B5 by done. apply entry_emit; [| done]. by apply (own_other k id).
Qed.

Lemma ledger_put_other c id s : id <> k -> ledger c -> ledger (put c id s).
Proof. intros Hn. apply ledger_beside with id; [apply beside_put | done]. Qed.

(** The same stream with the same response. *)
Lemma ledger_put_same c id s s' : h_objs c !! id = Some s -> s_place s' = s_place s -> s_resp s' = s_resp s -> s_respOff s' = s_respOff s -> s_respHeadersSent s' = s_respHeadersSent s -> ledger c -> ledger (put c id s').
Proof.
  intros Hs E1 E2 E3 E4 H. destruct (decide (id = k)) as [-> | Hn]; [| by apply ledger_put_other]. destruct H as [H1 H2]. split; [done |]. rewrite Hs in H2. cbn. rewrite lookup_insert_eq. destruct H2 as [H2 | H2]; [by left | right]. unfold underWay in *. by rewrite E1, E2, E3, E4.
Qed.

(** A stream that was reset. *)
Lemma ledger_put_cut c id s : (id = k -> cut (h_out c)) -> ledger c -> ledger (put c id s).
Proof. intros Hc H. destruct (decide (id = k)) as [-> | Hn]; [| by apply ledger_put_other]. apply ledger_cut; [apply H | by apply Hc]. Qed.

(** A stream that waits for its response. *)
Lemma ledger_put_waiting c id s : (s_place s = Mapped \/ s_place s = Busy) -> (id = k -> k <= h_high c /\ own (h_out c) = []) -> ledger c -> ledger (put c id s).
Proof.
  intros Hp Hw H. destruct (decide (id = k)) as [-> | Hn]; [| by apply ledger_put_other]. destruct (Hw eq_refl) as [W1 W2]. destruct H as [H1 H2]. split; [done |]. cbn. rewrite lookup_insert_eq. destruct H2 as [H2 | [H2 _]]; [by left | right]. split; [done |]. split; [done |]. by destruct Hp as [-> | ->].
Qed.

(** What is known of a stream that waits. *)
Lemma ledger_waiting c id s : ledger c -> h_objs c !! id = Some s -> (s_place s = Mapped \/ s_place s = Busy) -> cut (h_out c) \/ (id = k -> k <= h_high c /\ own (h_out c) = []).
Proof.
  intros [_ [H | [_ H]]] Hs Hp; [by left | right]. intros ->. rewrite Hs in H. destruct H as [H1 H2]. split; [done |]. by destruct Hp as [Ep | Ep]; rewrite Ep in H2.
Qed.

(** A stream that waits is put back at the front of its answer. *)
Lemma ledger_moved c id s s' : ledger c -> h_objs c !! id = Some s -> (s_place s = Mapped \/ s_place s = Busy) -> (s_place s' = Mapped \/ s_place s' = Busy) -> ledger (put c id s').
Proof.
  intros H Hs Hp Hp'. destruct (ledger_waiting c id s H Hs Hp) as [Hc | Hw]; [by apply ledger_cut; [apply H |] | by apply ledger_put_waiting].
Qed.

(** A stream that waits is dropped. *)
Lemma entry_dropped c b id : ledger c -> (id = k -> mayDrop c) -> ledger (with_budget (with_objs c (delete id (h_objs c))) b).
Proof.
  intros [H1 H2] Hd. split; [done |]. cbn. destruct (decide (id = k)) as [-> | Hn]; [rewrite lookup_delete_eq | by rewrite lookup_delete_ne]. destruct (Hd eq_refl) as [Hc | [Hc Hh]]; [by left |]. destruct H2 as [H2 | [H2 _]]; [by left | right]. split_and!; [done | lia | done].
Qed.

Lemma ledger_reset_waiting c id s : ledger c -> h_objs c !! id = Some s -> (s_place s = Mapped \/ s_place s = Busy) -> ledger (resetStream c id s).
Proof.
  intros H Hs Hp. apply entry_dropped; [done |]. intros ->. destruct (ledger_waiting c k s H Hs Hp) as [Hc | Hw]; [by left | right]. destruct (Hw eq_refl) as [W1 W2]. split; [by left | done].
Qed.

Lemma ledger_reset_other c id s : id <> k -> ledger c -> ledger (resetStream c id s).
Proof. intros Hn H. by apply entry_dropped. Qed.

(** Writers. *)
Lemma ledger_set_writer c id w : (id = k -> cut (h_out c) \/ quietWriter w /\ (is_Some (h_writers c !! k) \/ exists s, h_objs c !! k = Some s /\ s_place s = Busy)) -> ledger c -> ledger (set_writer c id w).
Proof.
  intros Hw [H1 H2]. split; [done |]. cbn. destruct (decide (id = k)) as [-> | Hn]; [rewrite lookup_insert_eq | by rewrite lookup_insert_ne]. destruct (Hw eq_refl) as [Hc | [Hq Hd]]; [by left |]. destruct H2 as [H2 | [H2 H3]]; [by left | right]. split; [done |].
  destruct Hd as [[w0 Hw0] | (s & Hs & Hp)].
  - rewrite Hw0 in *. destruct (h_objs c !! k) as [s |]; [| destruct H3 as [H3 H4]; split; [intros Hlt; by destruct (H3 Hlt) | done]]. destruct H3 as [H3 H4]. split; [done |]. destruct (s_place s); try done. by destruct H4.
  - rewrite Hs in *. destruct H3 as [H3 H4]. rewrite Hp in *. by split.
Qed.

Lemma ledger_drop_writer c id : ledger c -> ledger (drop_writer c id).
Proof.
  intros [H1 H2]. split; [done |]. cbn. destruct (decide (id = k)) as [-> | Hn]; [rewrite lookup_delete_eq | by rewrite lookup_delete_ne]. destruct H2 as [H2 | [H2 H3]]; [by left | right]. split; [done |]. destruct (h_objs c !! k) as [s |].
  - destruct H3 as [H3 H4]. split; [done |]. destruct (s_place s); try done. by destruct H4.
  - destruct H3 as [H3 H4]. split; [| done]. intros Hlt. by destruct (H3 Hlt).
Qed.

(** ** Sending *)

(** A turn of the stream's own response, when it is not reset. *)
Lemma emitWindowed_own c s r : h_objs c !! k = Some s -> s_place s = Sending -> s_resp s = Some r -> underWay r s (own (h_out c)) -> 0 < dataFrameLimit c ->
  let '(done, c') := h2EmitWindowed c k in exists s', h_objs c' !! k = Some s' /\ s_place s' = Sending /\ s_resp s' = Some r /\ 0 <= s_respOff s' <= zlen (r_body r) /\ s_respHeadersSent s' = true /\
    delivered E k r (s_respOff s') (own (h_out c')) /\ done = (zlen (r_body r) <=? s_respOff s').
Proof.
  intros Hs Hp Hr [Ho Hu] Hlim. pose proof (emitWindowed_spec c k s r Hs Hr Ho Hlim) as Hspec. destruct (h2EmitWindowed c k) as [done c']. destruct Hspec as (fs & n & S1 & S2 & S3 & _ & S5 & _). pose proof (carries_le _ _ _ _ _ S2 ltac:(lia)) as Hle. set (s' := advance _ n) in S3.
  assert (Hown : own (headFrames c k s r ++ fs) = headFrames c k s r ++ fs).
  { apply own_all. apply Forall_app. split; [unfold headFrames; destruct (s_respHeadersSent s); [by constructor | apply headersFrames_own] | by apply (carries_own k (r_body r) _ (s_respOff s) (s_respOff s + n)); [| lia]]. }
  exists s'. change (s_respOff s') with (s_respOff s + n). split_and!; try done; try lia. rewrite S1, (own_app k), Hown. unfold headFrames. destruct (s_respHeadersSent s).
  - destruct Hu as (enc & max & data & -> & Hc). exists enc, max, (data ++ fs). cbn [app]. rewrite app_assoc. split; [done |]. by eapply carries_app.
  - destruct Hu as [E0 ->]. cbn [app]. exists (h_enc c), (dataFrameLimit c), fs. split; [done |]. by rewrite E0 in S2 |- *.
Qed.

(** A turn of any response; one that is complete may be dropped. *)
Lemma emitWindowed_ledger c id : ledger c -> (id = k -> exists s, h_objs c !! k = Some s /\ s_place s = Sending) ->
  ledger (h2EmitWindowed c id).2 /\ ((h2EmitWindowed c id).1 = true -> id = k -> mayDrop (h2EmitWindowed c id).2).
Proof.
  intros H Hid. destruct (decide (id = k)) as [-> | Hn]; [| split; [by eapply ledger_beside; [apply emitWindowed_beside | |] | done]]. destruct (Hid eq_refl) as (s & Hs & Hp). pose proof (ledger_limit c H) as Hlim. pose proof (emitWindowed_beside c k) as [_ B2 B3 B4 (gs & B5 & _)].
  destruct H as [Hm [Hc | [Hq He]]].
  { assert (Hc' : cut (h_out (h2EmitWindowed c k).2)) by (rewrite B5; by apply cut_more). split; [apply ledger_cut; [by rewrite B4 | done] |]. intros _ _. by left. }
  rewrite Hs in He. destruct He as [Hh He]. rewrite Hp in He. destruct He as (Hw & r & Hr & Hg & Hu). pose proof (emitWindowed_own c s r Hs Hp Hr Hu Hlim) as Ho. destruct (h2EmitWindowed c k) as [done c']. cbn [fst snd] in *. destruct Ho as (s' & S1 & S2 & S3 & S4 & S5 & S6 & S7). split.
  - split; [by rewrite B4 |]. rewrite S1, B2, B3, Hw. right. split; [done |]. rewrite S2. split; [done |]. split; [done |]. exists r. split_and!; try done. split; [done |]. by rewrite S5.
  - intros -> _. right. split; [| by rewrite B3]. right. right. exists r. split; [done |]. by replace (zlen (r_body r)) with (s_respOff s') by lia.
Qed.

(** A response that is complete may go; so may one whose stream is reset. *)
Lemma releaseSending_ledger c id s : ledger c -> (id = k -> mayDrop c) -> ledger (releaseSending c id s).
Proof. intros H Hd. unfold releaseSending. by apply (entry_dropped (with_cnt c _)). Qed.

Lemma rst_cut c id code : id = k -> cut (h_out (emit c [rstFrame id code])).
Proof. intros ->. unfold cut. cbn. rewrite existsb_app. cbn. unfold isCut. cbn. rewrite Z.eqb_refl. by rewrite orb_true_r. Qed.

Lemma control_own f : (f_type f =? H2FrameData) || (f_type f =? H2FrameHeaders) || (f_type f =? H2FrameContinuation) = false -> own [f] = [].
Proof. intros Hf. apply own_none. constructor; [| constructor]. unfold isOwn. by rewrite Hf, andb_false_r. Qed.

Lemma rst_own id code : own [rstFrame id code] = [].
Proof. by apply control_own. Qed.

Lemma settleParked_ledger c id : ledger c -> ledger (h2SettleParked c id).
Proof.
  intros H. unfold h2SettleParked. destruct (h_objs c !! id) as [s |] eqn:Es; [| done]. cbv zeta. set (c1 := put _ id _). assert (H1 : ledger c1) by (eapply (ledger_put_same (with_cnt c _)); [exact Es | done | done | done | done | exact H]). clearbody c1. match goal with |- ledger (if ?b then _ else _) => destruct b end; [| done].
  apply releaseSending_ledger; [apply ledger_emit; [apply rst_own | done] |]. intros ->. left. by apply rst_cut.
Qed.

Lemma resumeStream_ledger c id : ledger c -> (id = k -> exists s, h_objs c !! k = Some s /\ s_place s = Sending) -> ledger (h2ResumeStream c id).
Proof.
  intros H Hid. unfold h2ResumeStream. destruct (emitWindowed_ledger c id H Hid) as [H1 H2]. destruct (h2EmitWindowed c id) as [done c1]. cbn [fst snd] in *. destruct done; [| by apply settleParked_ledger]. destruct (h_objs c1 !! id); [| done]. apply releaseSending_ledger; [done | by apply H2].
Qed.

Lemma held_Some c p id s : held c p id = Some s -> h_objs c !! id = Some s /\ s_place s = p.
Proof. unfold held. destruct (h_objs c !! id) as [s0 |]; [| done]. case_bool_decide; [| done]. by intros [= ->]. Qed.
Lemma isHeld_true c p id : isHeld c p id = true -> exists s, h_objs c !! id = Some s /\ s_place s = p.
Proof. unfold isHeld. destruct (held c p id) as [s |] eqn:Eh; [| done]. intros _. exists s. by apply held_Some. Qed.

Lemma fold_ledger {A} (g : h2conn E -> A -> h2conn E) (l : list A) c : (forall c a, ledger c -> ledger (g c a)) -> ledger c -> ledger (fold_left g l c).
Proof. intros Hg. revert c. induction l as [| a l IH]; intros c H; [done |]. apply IH. by apply Hg. Qed.

Lemma resumeHeld_ledger c id : ledger c -> ledger (resumeHeld c id).
Proof. intros H. unfold resumeHeld. destruct (isHeld c Sending id) eqn:Eh; [| done]. apply resumeStream_ledger; [done |]. intros <-. by apply isHeld_true. Qed.

Lemma resumeSending_ledger c id : ledger c -> ledger (h2ResumeSending c id).
Proof. intros H. unfold h2ResumeSending. split_if; [by apply resumeHeld_ledger |]. apply fold_ledger; [apply resumeHeld_ledger | exact H]. Qed.

(** ** Writers *)

Lemma pumpFrames_quiet c id w backlog : quietWriter w -> let '(c', w') := h2PumpFrames c id w backlog in quietWriter w' /\ (c' = c \/ c' = emit c [rstFrame id H2ErrCancel]).
Proof.
  intros (Q1 & Q2 & Q3). unfold h2PumpFrames. cbn [w_finished w_err w_headersOut w_header set_w_data]. rewrite Q1, Q2. destruct (w_finished w); [split; [done | by left] |]. destruct (w_err w); [| split; [done | by left]]. split; [done |]. split_if; [by right | by left].
Qed.

Lemma releaseStreaming_ledger c id : (id = k -> cut (h_out c)) -> ledger c -> ledger (h2ReleaseStreaming c id).
Proof.
  intros Hc H. unfold h2ReleaseStreaming. cbv zeta. set (c1 := drop_writer _ id). assert (H1 : ledger c1) by (apply ledger_drop_writer; exact H). assert (E1 : h_out c1 = h_out c) by done. clearbody c1. destruct (h_objs c1 !! id) as [s |]; [| done].
  apply entry_dropped; [done |]. intros Hk. left. rewrite E1. by apply Hc.
Qed.

(** A writer of the stream, if it was not reset, is quiet. *)
Definition idle c id w : Prop := id = k -> cut (h_out c) \/ quietWriter w /\ is_Some (h_writers c !! k).

Lemma ledger_idle c id w : ledger c -> h_writers c !! id = Some w -> idle c id w.
Proof. intros [_ [H | [H _]]] Hw ->; [by left |]. rewrite Hw in *. right. by split. Qed.
Lemma idle_set_writer c id w : idle c id w -> ledger c -> ledger (set_writer c id w).
Proof. intros Hi. apply ledger_set_writer. intros Hk. destruct (Hi Hk) as [Hc | [Hq Hs]]; [by left | right]. split; [done | by left]. Qed.

Lemma settleStream_ledger c id w : idle c id w -> ledger c -> ledger (h2SettleStream c id w).
Proof.
  intros Hi H. unfold h2SettleStream. destruct (w_finished w && w_handlerDone w) eqn:Ef.
  - apply releaseStreaming_ledger; [| done]. intros Hk. destruct (Hi Hk) as [Hc | [(_ & _ & Q3) _]]; [done |]. rewrite Q3, andb_false_r in Ef. done.
  - split_if; [| done]. apply (idle_set_writer c id (set_w_flags _ _ _ _ _ _)); [exact Hi | done].
Qed.

Lemma pumpSealed_ledger c id : ledger c -> ledger (h2PumpSealed c id).
Proof.
  intros H. unfold h2PumpSealed. destruct (h_writers c !! id) as [w |] eqn:Ew; [| done]. pose proof (ledger_idle c id w H Ew) as Hi. generalize (h2OutputBacklog c). intros backlog. pose proof (pumpFrames_beside c id w backlog) as Hb.
  assert (Hgoal : ledger (h2PumpFrames c id w backlog).1 /\ idle (h2PumpFrames c id w backlog).1 id (h2PumpFrames c id w backlog).2).
  { destruct (decide (id = k)) as [-> | Hn]; [| split; [by apply (ledger_beside id c) | by intros ?]]. destruct (Hi eq_refl) as [Hc | [Hq Hs]].
    - destruct Hb as [_ _ _ B4 (fs & B5 & _)]. assert (Hc' : cut (h_out (h2PumpFrames c k w backlog).1)) by (rewrite B5; by apply cut_more). split; [apply ledger_cut; [rewrite B4; apply H | done] | by left].
    - pose proof (pumpFrames_quiet c k w backlog Hq) as Hp. destruct (h2PumpFrames c k w backlog) as [c' w']. destruct Hp as [Hq' [-> | ->]]; cbn [fst snd]; (split; [| intros _]); [done | by right | by apply ledger_emit; [apply rst_own |] | by left; apply rst_cut]. }
  destruct (h2PumpFrames c id w backlog) as [c' w']. cbn [fst snd] in *. destruct Hgoal as [G1 G2]. apply settleStream_ledger; [| by apply idle_set_writer]. intros Hk. destruct (G2 Hk) as [G | [Gq Gs]]; [by left | right]. split; [done |]. cbn. subst id. rewrite lookup_insert_eq. by eexists.
Qed.

Lemma pumpTask_ledger c id : ledger c -> ledger (h2PumpTask c id).
Proof.
  intros H. unfold h2PumpTask. destruct (h_writers c !! id) as [w |] eqn:Ew; [| done]. apply pumpSealed_ledger. apply idle_set_writer; [| done]. exact (ledger_idle c id w H Ew).
Qed.

Lemma pumpBuffered_ledger c : ledger c -> ledger (h2PumpBuffered c).
Proof. intros H. unfold h2PumpBuffered. split_if; [by apply resumeSending_ledger |]. split_if; exact H. Qed.

Lemma pumpAll_ledger c : ledger c -> ledger (h2PumpAll c).
Proof.
  intros H. unfold h2PumpAll. destruct (streamingIds c) as [| id ids]; [split_if; [by apply pumpBuffered_ledger | done] |]. set (c1 := fold_left _ _ _). assert (H1 : ledger c1) by (apply fold_ledger; [apply pumpSealed_ledger | exact H]). clearbody c1. split_if; [by apply resumeSending_ledger | done].
Qed.

Lemma onWriter_ledger c id g : (id = k -> forall w, quietWriter w -> quietWriter (g w)) -> ledger c -> ledger (onWriter c id g).
Proof.
  intros Hg H. unfold onWriter. destruct (isHeld c Busy id) eqn:Eh; [| done]. apply ledger_set_writer; [| done]. intros ->. pose proof H as [_ [Hc | [Hq _]]]; [by left | right]. split; [| right; by apply isHeld_true]. apply Hg; [done |]. unfold writerOf. by destruct (h_writers c !! k).
Qed.

(** ** Limits and resets *)

Lemma goAway_ledger c code : ledger c -> ledger (goAway c code).
Proof. by apply ledger_emit, control_own. Qed.
Lemma countReset_ledger c : ledger c -> ledger (countReset c).2.
Proof. intros H. unfold countReset. cbv zeta. destruct (if _ <? _ then _ else _). exact H. Qed.
Lemma countCtrl_ledger c : ledger c -> ledger (countCtrl c).2.
Proof. intros H. unfold countCtrl. cbv zeta. destruct (if _ <? _ then _ else _). exact H. Qed.
Lemma charge_ledger (r : bool * h2conn E) : ledger r.2 -> ledger (h2ChargeLimiter r).2.
Proof. destruct r as [[] c]; cbn [h2ChargeLimiter snd]; [apply goAway_ledger | done]. Qed.

Lemma reset_ledger c id code : ledger c -> ledger (emit c [rstFrame id code]).
Proof. apply ledger_emit, rst_own. Qed.
Lemma refuse_ledger c id code : ledger c -> ledger (refuseH2Stream c id code).2.
Proof. intros H. apply charge_ledger, countReset_ledger. by apply reset_ledger. Qed.

Lemma release_ledger c id : ledger c -> ledger (epollReleaseH2Stream c id).
Proof. intros H. unfold epollReleaseH2Stream. destruct (held c Mapped id) as [s |] eqn:Eh; [| done]. apply held_Some in Eh as [Hs Hp]. apply ledger_reset_waiting; [done | done | by left]. Qed.

Lemma abortBody_ledger c id : ledger c -> ledger (h2AbortBodyIn c id).2.
Proof. intros H. unfold h2AbortBodyIn. destruct (bodyIn c id); exact H. Qed.

Lemma rejectBody_ledger c id : ledger c -> ledger (rejectH2Body c id).2.
Proof. intros H. unfold rejectH2Body. apply charge_ledger, countReset_ledger, abortBody_ledger, release_ledger. by apply reset_ledger. Qed.

Lemma cancelStreaming_ledger c id : id <> k -> ledger c -> ledger (h2CancelStreaming c id).2.
Proof.
  intros Hn H. unfold h2CancelStreaming. destruct (h2Streaming c id) as [w |]; [| done]. assert (Hw : forall w', ledger (set_writer c id w')) by (intros w'; by apply ledger_set_writer). cbv zeta. split_if; cbn [snd]; [by apply releaseStreaming_ledger |]. split_if; apply (Hw _).
Qed.

Lemma abandon_ledger c id : id <> k -> ledger c -> ledger (abandonH2Stream c id).
Proof.
  intros Hn H. unfold abandonH2Stream. cbv zeta. apply (release_ledger c id) in H. revert H. generalize (epollReleaseH2Stream c id). clear c. intros c H.
  set (c1 := match held c Sending id with Some _ => _ | None => _ end). assert (H1 : ledger c1) by (subst c1; destruct (held c Sending id) as [s |]; [by apply releaseSending_ledger | done]). clearbody c1. clear c H.
  assert (H2 : ledger (cancelBusyStream c1 id).2) by (unfold cancelBusyStream; destruct (held c1 Busy id) as [s |]; [| done]; split_if; [done | by apply ledger_put_other]). destruct (cancelBusyStream c1 id) as [abandoned c2]. cbn [snd] in H2.
  pose proof (cancelStreaming_ledger c2 id Hn H2) as H3. destruct (h2CancelStreaming c2 id) as [streamed c3]. cbn [snd] in H3. apply abortBody_ledger. destruct streamed; [done |]. destruct abandoned; [| done]. exact (ledger_put_other c3 id _ Hn H3).
Qed.

Lemma abandon_limit c id : h_win (abandonH2Stream c id) = h_win c.
Proof.
  unfold abandonH2Stream. cbv zeta. transitivity (h_win (epollReleaseH2Stream c id)); [| unfold epollReleaseH2Stream; by destruct (held c Mapped id)]. generalize (epollReleaseH2Stream c id). clear c. intros c.
  transitivity (h_win (match held c Sending id with Some s => releaseSending c id s | None => c end)); [| by destruct (held c Sending id)]. generalize (match held c Sending id with Some s => releaseSending c id s | None => c end). clear c. intros c.
  assert (Ha : forall c, h_win (h2AbortBodyIn c id).2 = h_win c) by (intros c'; unfold h2AbortBodyIn; by destruct (bodyIn c' id)). assert (H1 : h_win (cancelBusyStream c id).2 = h_win c) by (unfold cancelBusyStream; destruct (held c Busy id); [by split_if | done]). destruct (cancelBusyStream c id) as [abandoned c1]. cbn [snd] in H1.
  assert (H2 : h_win (h2CancelStreaming c1 id).2 = h_win c1).
  { unfold h2CancelStreaming. destruct (h2Streaming c1 id) as [w |]; [| done]. cbv zeta. split_if; cbn [snd]; [unfold h2ReleaseStreaming; cbv zeta; by destruct (h_objs _ !! id) | by split_if]. }
  destruct (h2CancelStreaming c1 id) as [streamed c2]. cbn [snd] in H2. rewrite Ha, <- H1, <- H2. destruct streamed; [done |]. by destruct abandoned.
Qed.

Lemma resetStream_ledger c id code : ledger c -> ledger (resetH2Stream c id code).2.
Proof.
  intros H. unfold resetH2Stream. destruct (decide (id = k)) as [-> | Hn]; [| by apply refuse_ledger, abandon_ledger]. apply charge_ledger, countReset_ledger, ledger_cut; [| by apply rst_cut]. change (0 < maxFrameSize (h_win (abandonH2Stream c k))). rewrite abandon_limit. apply H.
Qed.

(** ** Handlers *)

(** The handler returns: the response starts. *)
Lemma ledger_put_sending c id s s' r : ledger c -> h_objs c !! id = Some s -> s_place s = Busy -> (id = k -> h_writers c !! k = None /\ given r) -> s_place s' = Sending -> s_resp s' = Some r -> s_respOff s' = 0 -> s_respHeadersSent s' = false -> ledger (put c id s').
Proof.
  intros H Hs Hp Hk E1 E2 E3 E4. destruct (decide (id = k)) as [-> | Hn]; [| by apply ledger_put_other]. destruct (Hk eq_refl) as [Hw Hg]. destruct (ledger_waiting c k s H Hs ltac:(by right)) as [Hc | W]; [apply ledger_cut; [apply H | done] |]. destruct (W eq_refl) as [W1 W2].
  split; [apply H |]. cbn. rewrite lookup_insert_eq, Hw. right. split; [done |]. rewrite E1. split; [done |]. split; [done |]. exists r. split_and!; [done | done |]. unfold underWay. rewrite E3, E4. pose proof (zlen_nonneg (r_body r)). split; [lia |]. by split.
Qed.

Lemma finishStreamed_ledger c id w : (id = k -> cut (h_out c)) -> ledger c -> ledger (h2FinishStreamed c id w).
Proof.
  intros Hc H. assert (Hw : forall c w, (id = k -> cut (h_out c)) -> ledger c -> ledger (set_writer c id w)) by (intros c0 w0 Hc0; apply ledger_set_writer; intros Hk; left; by apply Hc0).
  unfold h2FinishStreamed. cbv zeta. set (w1 := set_w_flags _ _ _ _ _ _). set (c1 := h2UncountEndedEarly c id w1). assert (H1 : ledger c1 /\ h_out c1 = h_out c) by (subst c1; unfold h2UncountEndedEarly; cbv zeta; destruct (_ && _); (split; [by apply Hw | done])). destruct H1 as [H1 O1]. clearbody c1. rewrite <- O1 in Hc. split_if.
  - destruct (h_objs c1 !! id); [apply entry_dropped; [by apply ledger_drop_writer |]; intros Hk; left; by apply Hc | by apply ledger_drop_writer].
  - apply pumpSealed_ledger. set (c2 := set_writer c1 id _). assert (H2 : ledger c2) by (by apply Hw). change (ledger (match h_objs c2 !! id with Some s => put c2 id (set_place s Draining) | None => c2 end)). destruct (h_objs c2 !! id); [| done]. by apply ledger_put_cut.
Qed.

Lemma finishDispatch_ledger c id r streamed : ledger c -> (id = k -> given (finalResponse E r streamed)) -> ledger (finishH2Dispatch c id r streamed).
Proof.
  intros H Hg. unfold finishH2Dispatch. destruct (held c Busy id) as [s |] eqn:Eh; [| done]. apply held_lookup in Eh as [Hs Hp]. cbv zeta. set (c1 := h2UncountAbandoned _ id s).
  assert (H1 : ledger c1) by (subst c1; unfold h2UncountAbandoned; cbv zeta; destruct (_ && _); [apply (ledger_put_same (set_ended (set_inFlight c _) _) id s) | apply (ledger_put_same (set_inFlight c _) id s)]; try done; exact H). assert (S1 : exists s1, h_objs c1 !! id = Some s1 /\ s_place s1 = Busy) by (subst c1; unfold h2UncountAbandoned; cbv zeta; exists (set_abandoned s (s_abandoned s) false); split; [destruct (_ && _); cbn; apply lookup_insert_eq | exact Hp]). clearbody c1.
  pose proof (abortBody_ledger c1 id H1) as H2. assert (S2 : exists s1, h_objs (h2AbortBodyIn c1 id).2 !! id = Some s1 /\ s_place s1 = Busy) by (unfold h2AbortBodyIn; by destruct (bodyIn c1 id)). destruct (h2AbortBodyIn c1 id) as [bodyOpen c2]. cbn [snd] in H2, S2. clear c1 H1 S1 H Hs.
  assert (Hfin : forall c, ledger c -> (exists s1, h_objs c !! id = Some s1 /\ s_place s1 = Busy) -> h_writers c !! id = None -> ledger (if s_abandoned s then resetStream c id s
    else let '(done, c) := h2EmitWindowed (put c id (set_place (set_resp (set_abandoned s false false) (Some (finalResponse E r streamed)) 0 false) Sending)) id in
      if done then (let c := match h_objs c !! id with Some s => resetStream c id s | None => c end in if bodyOpen then emitH2Reset c id H2ErrNoError else c) else h2SettleParked c id)).
  { clear c c2 H2 S2. intros c H (s1 & Hs1 & Hp1) Hw. split_if; [apply entry_dropped; [done |]; intros ->; destruct (ledger_waiting c k s1 H Hs1 ltac:(by right)) as [Hc | Hwait]; [by left | right]; destruct (Hwait eq_refl); split; [by left | done] |].
    set (c1 := put c id _). assert (H1 : ledger c1) by (eapply (ledger_put_sending c id s1); [done | done | done | intros ->; split; [done | by apply Hg] | done | done | done | done]). assert (S1 : id = k -> exists s, h_objs c1 !! k = Some s /\ s_place s = Sending) by (intros <-; eexists; split; [apply lookup_insert_eq | done]). clearbody c1.
    destruct (emitWindowed_ledger c1 id H1 S1) as [H2 H3]. destruct (h2EmitWindowed c1 id) as [[] c2]; cbn [fst snd] in *; [| by apply settleParked_ledger]. set (c3 := match h_objs c2 !! id with Some _ => _ | None => _ end). assert (H4 : ledger c3) by (subst c3; destruct (h_objs c2 !! id); [apply entry_dropped; [done | by apply H3] | done]). clearbody c3. destruct bodyOpen; [by apply reset_ledger | done]. }
  destruct (h_writers c2 !! id) as [w |] eqn:Ew; [| by apply Hfin]. set (w' := if s_abandoned s then _ else _). destruct (w_header w') as [block |] eqn:Eb.
  - assert (Hc : id = k -> cut (h_out c2)) by (intros ->; destruct (ledger_idle c2 k w H2 Ew eq_refl) as [Hc | [(Q & _) _]]; [done |]; subst w'; destruct (s_abandoned s); cbn in Eb; congruence). apply finishStreamed_ledger; [done |]. apply ledger_set_writer; [| done]. intros Hk. left. by apply Hc.
  - apply Hfin; [by apply ledger_drop_writer | done | apply lookup_delete_eq].
Qed.

(** Nothing was sent for the stream yet. *)
Definition unanswered c id : Prop := id = k -> cut (h_out c) \/ own (h_out c) = [] /\ k <= h_high c.

Lemma held_unanswered c p id s : ledger c -> held c p id = Some s -> p = Mapped \/ p = Busy -> unanswered c id.
Proof. intros H Eh Hp ->. apply held_lookup in Eh as [Hs <-]. destruct (ledger_waiting c k s H Hs Hp) as [Hc | Hw]; [by left | right]. by destruct (Hw eq_refl). Qed.

Lemma ledger_open c id s : unanswered c id -> (s_place s = Mapped \/ s_place s = Busy) -> ledger c -> ledger (put c id s).
Proof.
  intros Hu Hp H. destruct (decide (id = k)) as [-> | Hn]; [| by apply ledger_put_other]. destruct (Hu eq_refl) as [Hc | [W1 W2]]; [by apply ledger_put_cut | by apply ledger_put_waiting].
Qed.

Lemma ledger_drop_unanswered c id s : unanswered c id -> ledger c -> ledger (resetStream c id s).
Proof. intros Hu H. apply entry_dropped; [done |]. intros Hk. destruct (Hu Hk) as [Hc | [W1 W2]]; [by left | right]. split; [by left | done]. Qed.

Context (answered_given : forall req body trailers r, admitRequest E req body trailers = Answered r -> given (finalResponse E r false)).

Lemma dispatchStream_ledger c id s streamBody : unanswered c id -> ledger c -> ledger (epollH2DispatchStream c id s streamBody).2.
Proof.
  intros Hu H. unfold epollH2DispatchStream. destruct (admitRequest E _ _ _) as [| r |] eqn:Ea; [by apply goAway_ledger, ledger_drop_unanswered | |]; cbv zeta; (assert (H1 : ledger (put c id (set_place s Busy))) by (apply ledger_open; [done | by right | done])); cbn [snd].
  - apply finishDispatch_ledger; [exact H1 |]. intros _. by eapply answered_given.
  - destruct streamBody; exact H1.
Qed.

Lemma dispatch_ledger c id streamBody : ledger c -> ledger (epollH2Dispatch c id streamBody).2.
Proof. intros H. unfold epollH2Dispatch. destruct (held c Mapped id) as [s |] eqn:Eh; [| done]. apply dispatchStream_ledger; [| done]. eapply held_unanswered; [done | exact Eh | by left]. Qed.

(** ** Request bodies *)

Lemma emit_control c f : (f_type f =? H2FrameData) || (f_type f =? H2FrameHeaders) || (f_type f =? H2FrameContinuation) = false -> ledger c -> ledger (emit c [f]).
Proof. intros Hf. by apply ledger_emit, control_own. Qed.

Lemma creditConn_ledger c n : ledger c -> ledger (h2CreditConnWindow c n).
Proof. intros H. unfold h2CreditConnWindow. cbv zeta. split_if; [by apply emit_control | exact H]. Qed.

Lemma bodyAcked_ledger c id : ledger c -> ledger (h2BodyAcked c id).
Proof.
  intros H. unfold h2BodyAcked. destruct (h_bodies c !! id) as [i |]; [| done]. destruct (body_takeAck (i_reader i)) as [n reader]. cbv zeta. split_if; [exact H |]. exact (emit_control c (windowUpdateFrame id n) eq_refl H).
Qed.

Lemma streamBodyData_ledger c id i endStream consumed payload : ledger c -> ledger (h2StreamBodyData c id i endStream consumed payload).2.
Proof.
  intros H. unfold h2StreamBodyData. cbv zeta. match goal with |- context [if ?b then (false, h2EndBodyIn _ _ _ _) else _] => destruct b end; [exact (reset_ledger c id _ H) |].
  match goal with |- context [if ?b then rejectH2Body _ _ else _] => destruct b end; [by apply rejectBody_ledger |]. destruct endStream.
  - match goal with |- context [if ?b then rejectH2Body _ _ else (_, _)] => destruct b end; [by apply rejectBody_ledger | exact H].
  - match goal with |- context [if ?b then (false, set_body (emit _ _) _ _) else _] => destruct b end; [exact (emit_control c (windowUpdateFrame id _) eq_refl H) | exact H].
Qed.

Lemma releaseReset_ledger c id code : ledger c -> ledger (epollReleaseH2Stream (emit c [rstFrame id code]) id).
Proof. intros H. by apply release_ledger, reset_ledger. Qed.

Lemma data_ledger c id flags payload : ledger c -> ledger (epollH2Data c id flags payload).2.
Proof.
  intros H. unfold epollH2Data. split_if; [by apply goAway_ledger |]. cbv zeta. set (c0 := with_win c _). assert (H0 : ledger c0) by exact H. clearbody c0. split_if; [by apply goAway_ledger |]. apply (creditConn_ledger _ (zlen payload)) in H0. revert H0. generalize (h2CreditConnWindow c0 (zlen payload)). clear dependent c. clear dependent c0. intros c H.
  destruct (h2StripPadding flags payload) as [body padOK]. destruct (held c Mapped id) as [s |] eqn:Eh.
  2: { destruct (bodyIn c id) as [i |]; [| done]. split_if; [exact (reset_ledger c id _ H) | by apply streamBodyData_ledger]. }
  pose proof (held_unanswered c Mapped id s H Eh ltac:(by left)) as Hu. apply held_lookup in Eh as [Hs Hp]. split_if; [by apply reset_ledger |]. split_if; [by apply reset_ledger |]. set (s1 := set_RecvWindow s _). assert (P1 : s_place s1 = Mapped) by exact Hp. set (c1 := put c id s1). assert (H1 : ledger c1) by (apply ledger_open; [done | by left | done]). assert (U1 : unanswered c1 id) by exact Hu. clearbody c1 s1. clear dependent s. clear dependent c.
  split_if; [by apply releaseReset_ledger |]. set (kept := if 0 <? zlen body then _ else _).
  assert (Hk : match kept with inr r => ledger r.2 | inl (s2, c2) => s_place s2 = Mapped /\ ledger c2 /\ unanswered c2 id end).
  { subst kept. split_if; [| done]. destruct (tryReserveConnBodyBytes _ _ _) as [ok b]. split_if; [by apply releaseReset_ledger |]. set (s2 := set_Body s1 _ _). set (c2 := put _ id s2). assert (H2 : ledger c2) by (apply (ledger_open (with_budget c1 b)); [done | by left | done]). assert (U2 : unanswered c2 id) by exact U1. split_if; [by apply rejectBody_ledger | done]. }
  destruct kept as [[s2 c2] | r]; [| done]. destruct Hk as (P2 & H2 & U2). split_if; [by apply releaseReset_ledger |]. split_if.
  - split_if; [| done]. apply (ledger_open (emit c2 [windowUpdateFrame id _])); [| by left | by apply emit_control]. intros Hk. destruct (U2 Hk) as [Hc | [W1 W2]]; [left; by apply cut_more | right]. split; [| done]. cbn [h_out emit with_out]. by rewrite (own_app k), W1, control_own.
  - split_if; [by apply rejectBody_ledger |]. apply dispatch_ledger. apply ledger_open; [done | by left | done].
Qed.

Lemma trailers_ledger c id block endStream : ledger c -> ledger (epollH2Trailers c id block endStream).2.
Proof.
  intros H. unfold epollH2Trailers. destruct (DecodeInto E (h_dec c) block) as [fields dec]. cbv zeta. set (c1 := with_dec c dec). assert (H1 : ledger c1) by exact H. clearbody c1. clear c H. destruct fields as [fields |]; [| by apply goAway_ledger]. pose proof (rejectBody_ledger c1 id H1) as Hr. split_if; [done |]. destruct (held c1 Mapped id) as [s |] eqn:Eh.
  - split_if; [by apply reset_ledger |]. destruct endStream; [| done]. destruct (h2TrailerFields E fields) as [trailers |]; [| done]. split_if; [done |]. pose proof (held_unanswered c1 Mapped id s H1 Eh ltac:(by left)) as Hu. apply held_lookup in Eh as [Hs Hp]. apply dispatch_ledger. apply ledger_open; [done | by left | done].
  - destruct (bodyIn c1 id) as [i |]; [| done]. destruct endStream; [| done]. destruct (h2TrailerFields E fields) as [trailers |]; [| done]. split_if; [done | exact H1].
Qed.

(** ** Settings and windows *)

Lemma settingsLoop_ledger entries c : ledger c -> ledger (settingsLoop c entries).2.
Proof.
  revert c. induction entries as [| [id val] entries IH]; intros c H; cbn [settingsLoop]; [done |]. unfold applySetting. cbv zeta. split_if; [by apply IH |]. split_if; [split_if; [by apply goAway_ledger |]; apply IH; destruct H as [_ H]; split; [cbn; lia | exact H] |]. split_if; [split_if; [by apply goAway_ledger | by apply IH] | by apply IH].
Qed.

Lemma shiftWindows_ledger c delta : ledger c -> ledger (h2ShiftStreamWindows c delta).2.
Proof.
  intros [H1 H2]. unfold h2ShiftStreamWindows. split; [done |]. cbn [snd h_objs with_objs h_writers h_high h_out]. rewrite lookup_fmap. destruct (h_objs c !! k) as [s |]; exact H2.
Qed.

Lemma windowOpened_ledger c : ledger c -> ledger (h2WindowOpened c).
Proof. intros H. unfold h2WindowOpened. destruct (streamingIds c); exact H. Qed.

Lemma settings_ledger c payload : ledger c -> ledger (epollH2Settings c payload).2.
Proof.
  intros H. unfold epollH2Settings. pose proof (settingsLoop_ledger (settingsEntries (length payload) payload) c H) as H1. destruct (settingsLoop c _) as [ok c1]. cbn [snd] in H1. split_if; [done |]. cbv zeta. split_if; [done |]. pose proof (shiftWindows_ledger c1 (initialWindowSize (h_win c1) - initialWindowSize (h_win c)) H1) as H2. destruct (h2ShiftStreamWindows c1 _) as [ok2 c2]. cbn [snd] in H2. split_if; [by apply goAway_ledger |]. apply windowOpened_ledger. split_if; [by apply resumeSending_ledger | done].
Qed.

Lemma credit_ledger c id s n after : ledger c -> h_objs c !! id = Some s -> (forall c, ledger c -> ledger (after c)) ->
  ledger (match h2CreditWindow c id s n with None => resetH2Stream c id H2ErrFlowControl | Some c => (false, after c) end).2.
Proof.
  intros H Hs Ha. unfold h2CreditWindow. cbv zeta. split_if; [by apply resetStream_ledger |]. apply Ha. by apply (ledger_put_same c id s).
Qed.

Lemma windowUpdate_ledger c id payload : ledger c -> ledger (epollH2WindowUpdate c id payload).2.
Proof.
  intros H. unfold epollH2WindowUpdate. split_if; [by apply goAway_ledger |]. cbv zeta. split_if; [split_if; [by apply goAway_ledger | by apply resetStream_ledger] |]. split_if; [split_if; [by apply goAway_ledger |]; apply windowOpened_ledger, resumeSending_ledger; exact H |].
  destruct (held c Mapped id) as [s |] eqn:E1; [apply held_lookup in E1 as [E1 _]; by apply credit_ledger |]. destruct (held c Sending id) as [s |] eqn:E2; [apply held_lookup in E2 as [E2 _]; apply credit_ledger; [done | done |]; intros; by apply resumeSending_ledger |].
  assert (Hrest : ledger (if h_high c <? id then (false, c) else match held c Busy id with Some s => match h2CreditWindow c id s (Z.land (be_val payload) 2147483647) with None => resetH2Stream c id H2ErrFlowControl | Some c => (false, c) end | None => (false, c) end).2).
  { split_if; [done |]. destruct (held c Busy id) as [s |] eqn:E3; [| done]. apply held_lookup in E3 as [E3 _]. by apply (credit_ledger c id s _ (fun c => c)). }
  destruct (h2Streaming c id) as [w |]; [| exact Hrest]. destruct (h_objs c !! id) as [s |] eqn:E3; [| exact Hrest]. apply credit_ledger; [done | done | apply windowOpened_ledger].
Qed.

(** ** Header blocks *)

(** The connection has just learnt of the stream. *)
Definition opened c id : Prop := id = k -> cut (h_out c) \/ own (h_out c) = [] /\ k <= h_high c /\ h_objs c !! k = None.

Lemma opened_unanswered c id : opened c id -> unanswered c id.
Proof. intros Ho Hk. destruct (Ho Hk) as [Hc | (W1 & W2 & _)]; [by left | by right]. Qed.

Lemma ledger_ids c last id : h_high c < id -> ledger c -> ledger (with_ids c last id) /\ opened (with_ids c last id) id.
Proof.
  intros Hh [H1 H2]. split.
  - split; [done |]. cbn. destruct H2 as [H2 | [H2 H3]]; [by left | right]. split; [done |]. destruct (h_objs c !! k) as [s |]; destruct H3 as [H3 H4]; (split; [| done]); [lia |]. intros Hlt. apply H3. lia.
  - intros ->. cbn. destruct H2 as [H2 | [_ H2]]; [by left | right]. destruct (h_objs c !! k) as [s |]; destruct H2 as [H2 _]; [lia |]. destruct (H2 Hh). split_and!; [done | lia | done].
Qed.

(** A stream that is answered at once. *)
Lemma ledger_answered c id fs : opened c id -> Forall (fun f => f_id f = id) fs -> (id = k -> own fs = fs /\ shortcut E k fs) -> ledger c -> ledger (emit c fs).
Proof.
  intros Ho Hf Hs H. destruct (decide (id = k)) as [-> | Hn]; [| by eapply ledger_beside; [apply beside_emit | |]]. destruct H as [H1 H2]. destruct (Hs eq_refl) as [Hs1 Hs2]. destruct (Ho eq_refl) as [Hc | (W1 & W2 & W3)]; [apply ledger_cut; [done | by apply cut_more] |].
  split; [done |]. cbn. rewrite W3 in *. destruct H2 as [H2 | [H2 _]]; [left; by apply cut_more | right]. split_and!; [done | lia |]. rewrite (own_app k), W1, Hs1. by right; left.
Qed.

Lemma fastData_own fuel id max rest : Forall (fun f => f_type f = H2FrameData /\ f_id f = id) (fastDataFrames fuel id max rest).
Proof. revert rest. induction fuel as [| fuel IH]; intros rest; cbn [fastDataFrames]; [constructor |]. split_if; [constructor |]. constructor; [done | apply IH]. Qed.

Lemma fastRoot_own id max fast : Forall (fun f => f_id f = id) (fastRootFrames id max fast) /\ (id = k -> own (fastRootFrames id max fast) = fastRootFrames id max fast).
Proof.
  destruct fast as [header body]. unfold fastRootFrames. cbv zeta.
  assert (Hone : forall t flags payload, t = H2FrameHeaders \/ t = H2FrameData -> id = k -> isOwn k (mkH2 t flags id payload) = true) by (intros t flags payload Ht ->; unfold isOwn; cbn [f_id f_type]; rewrite Z.eqb_refl; by destruct Ht as [-> | ->]).
  split; [split_if; [split_if; by repeat constructor |]; split_if; [apply headersFrames_id |]; apply Forall_app; split; [apply headersFrames_id |]; eapply Forall_impl; [apply fastData_own |]; by intros f [_ ?] |].
  intros Hk. apply own_all. split_if; [split_if; repeat constructor; apply Hone; auto |]. subst id. split_if; [apply headersFrames_own |]. apply Forall_app. split; [apply headersFrames_own |]. eapply Forall_impl; [apply fastData_own |]. intros f [Ht Hi]. unfold isOwn. by rewrite Ht, Hi, Z.eqb_refl.
Qed.

Lemma fastRootAnswer_ledger c id : opened c id -> ledger c -> let '(answered, c') := fastRootAnswer c id in ledger c' /\ (answered = false -> opened c' id).
Proof.
  intros Ho H. unfold fastRootAnswer. destruct (rootFast E) as [fast |] eqn:Ef; [| done]. cbv zeta. destruct (requestSlot E (h_tick c)); [| done]. split; [| done]. destruct (fastRoot_own id (maxFrameSize (h_win c)) fast) as [F1 F2]. apply (ledger_answered (tick c) id); [done | done | | done]. intros Hk. split; [by apply F2 |]. subst id. left. by eexists _, fast.
Qed.

Lemma tooLarge_ledger c id endStream : opened c id -> ledger c -> ledger (answerH2HeaderListTooLarge c id endStream).2.
Proof.
  intros Ho H. unfold answerH2HeaderListTooLarge. destruct (encodeHead E (h_enc c) _) as [block enc] eqn:Ee. cbv zeta. apply charge_ledger, countReset_ledger. set (c1 := emit _ _). assert (H1 : ledger c1).
  { apply (ledger_answered (with_enc c enc) id); [done | apply headersFrames_id | | done]. intros ->. split; [apply own_all, headersFrames_own |]. right. exists (dataFrameLimit c), (h_enc c). by rewrite Ee. }
  clearbody c1. destruct endStream; [done | by apply reset_ledger].
Qed.

Lemma openStream_ledger c id headers req endStream : unanswered c id -> ledger c -> ledger (openStream c id headers req endStream).2.
Proof.
  intros Hu H. unfold openStream. cbv zeta. set (s := newStream _ _ _). assert (Hput : forall s', s_place s' = Mapped -> ledger (put c id s')) by (intros s' Hp; apply ledger_open; [done | by left | done]). destruct endStream.
  - split_if; [by apply rejectBody_ledger, Hput | by apply dispatchStream_ledger].
  - split_if; [by apply dispatch_ledger, Hput | by apply Hput].
Qed.

Lemma decodedRequest_ledger c id block endStream fastRoot : opened c id -> ledger c -> ledger (decodedRequest c id block endStream fastRoot).2.
Proof.
  intros Ho H. unfold decodedRequest. destruct (DecodeRequest E (h_dec c) block) as [r dec]. cbv zeta. set (c1 := with_dec c dec). assert (H1 : ledger c1) by exact H. assert (O1 : opened c1 id) by exact Ho. clearbody c1. clear c Ho H. destruct r as [[[headers req] isRoot] | []]; [| by apply refuse_ledger | by apply tooLarge_ledger | by apply goAway_ledger].
  assert (Hans : let '(answered, c') := (if endStream && fastRoot && isRoot then fastRootAnswer c1 id else (false, c1)) in ledger c' /\ (answered = false -> opened c' id)) by (destruct (_ && _ && _); [by apply fastRootAnswer_ledger | done]).
  destruct (if endStream && fastRoot && isRoot then _ else _) as [[] c2]; destruct Hans as [H2 O2]; [done |]. specialize (O2 eq_refl). split_if; [by apply refuse_ledger |]. split_if; [by apply refuse_ledger |]. split_if; [by apply charge_ledger, countCtrl_ledger, reset_ledger |]. split_if; [by apply refuse_ledger |]. apply openStream_ledger; [by apply opened_unanswered | done].
Qed.

Lemma decodedHeaders_ledger c id block endStream : ledger c -> ledger (epollH2DecodedHeaders c id block endStream).2.
Proof.
  intros H. unfold epollH2DecodedHeaders. cbv zeta. split_if; [by apply trailers_ledger |]. split_if; [unfold discardH2ClosedStreamHeaders; destruct (DecodeInto E (h_dec c) block) as [[fields |] dec]; [by apply charge_ledger, countReset_ledger | by apply goAway_ledger] |]. split_if; [by apply goAway_ledger |].
  destruct (ledger_ids c (h_last c) id ltac:(lia) H) as [H1 O1]. set (c1 := with_ids c (h_last c) id) in *. split_if; [unfold refuseH2StreamGoingAway; destruct (DecodeRequest E (h_dec c1) block) as [[? | []] dec]; try (by apply reset_ledger); by apply goAway_ledger |].
  set (c2 := with_ids c1 id id). assert (H2 : ledger c2) by exact H1. assert (O2 : opened c2 id) by exact O1. clearbody c2. generalize ((match rootFast E with Some _ => true | None => false end) && negb (pendingUpdate E (h_enc c2))). intros fastRoot.
  assert (Hans : forall (b : bool) c, ledger c -> opened c id -> let '(answered, c') := (if b then fastRootAnswer c id else (false, c)) in ledger c' /\ (answered = false -> opened c' id)) by (intros [] c' Hc' Oc'; [by apply fastRootAnswer_ledger | done]).
  pose proof (Hans (endStream && fastRoot && matchIndexedH2FastRootHeaderBlock block) c2 H2 O2) as A1. destruct (if _ && _ then fastRootAnswer c2 id else _) as [[] c3]; destruct A1 as [H3 O3]; [done |]. specialize (O3 eq_refl).
  pose proof (Hans (endStream && fastRoot && MemoizedRootRequest E (h_dec c3) block) c3 H3 O3) as A2. destruct (if _ && _ then fastRootAnswer c3 id else _) as [[] c4]; destruct A2 as [H4 O4]; [done |]. by apply decodedRequest_ledger; [apply O4 |].
Qed.

(** ** Frames and events *)

Lemma headers_ledger c id flags payload : ledger c -> ledger (epollH2Headers c id flags payload).2.
Proof.
  intros H. unfold epollH2Headers. split_if; [by apply goAway_ledger |]. cbv zeta. set (unpadded := if Z.land flags H2FlagPadded =? 0 then _ else _). clearbody unpadded. destruct unpadded as [body | code]; [| by apply goAway_ledger]. split_if; [by apply goAway_ledger |]. match goal with |- context [if Z.land flags H2FlagEndHeaders =? 0 then _ else _] => destruct (Z.land flags H2FlagEndHeaders =? 0) end; [exact H | by apply decodedHeaders_ledger].
Qed.

Lemma continuation_ledger c id flags payload : ledger c -> ledger (epollH2Continuation c id flags payload).2.
Proof.
  intros H. unfold epollH2Continuation. assert (H1 : ledger (if zlen payload =? 0 then h2ChargeLimiter (countCtrl c) else (false, c)).2) by (split_if; [by apply charge_ledger, countCtrl_ledger | done]). destruct (if zlen payload =? 0 then _ else _) as [[] c1]; cbn [snd] in H1; [done |]. cbv zeta. split_if; [by apply goAway_ledger |]. split_if; [exact H1 | by apply decodedHeaders_ledger].
Qed.

(** The peer resets the stream. *)
Definition peerResets (f : H2Frame) : bool := (f_type f =? H2FrameRSTStream) && (f_id f =? k).

Lemma frame_ledger c f : peerResets f = false -> ledger c -> ledger (h2Frame c f).2.
Proof.
  intros Hf H. unfold h2Frame. cbv zeta. split_if; [split_if; [by apply goAway_ledger | by apply continuation_ledger] |]. unfold epollH2Frame. assert (H1 : ledger (if isCtrl f then h2ChargeLimiter (countCtrl c) else (false, c)).2) by (split_if; [by apply charge_ledger, countCtrl_ledger | done]). destruct (if isCtrl f then _ else _) as [[] c1]; cbn [snd] in H1; [done |].
  split_if. { split_if; [by apply goAway_ledger |]. split_if; [split_if; [by apply goAway_ledger | done] |]. split_if; [by apply goAway_ledger |]. pose proof (settings_ledger c1 (f_payload f) H1) as H2. destruct (epollH2Settings c1 (f_payload f)) as [[] c2]; [by apply emit_control | done]. }
  split_if; [by apply headers_ledger |]. split_if; [by apply goAway_ledger |]. split_if; [by apply data_ledger |]. split_if; [by apply windowUpdate_ledger |]. split_if. { split_if; [by apply goAway_ledger |]. split_if; [by apply goAway_ledger |]. cbn [snd]. split_if; [by apply emit_control | done]. }
  destruct (f_type f =? H2FrameRSTStream) eqn:Er. { split_if; [by apply goAway_ledger |]. apply charge_ledger, countReset_ledger, abandon_ledger; [| done]. unfold peerResets in Hf. rewrite Er in Hf. cbn in Hf. lia. }
  split_if; [split_if; [by apply goAway_ledger |]; split_if; [by apply goAway_ledger | exact H1] |]. split_if; [split_if; [by apply goAway_ledger | done] |]. split_if; [by apply goAway_ledger | done].
Qed.

Lemma claimPump_quiet w : quietWriter w -> quietWriter (claimPump w).
Proof. intros H. unfold claimPump. by split_if. Qed.

(** An event that lets the response be: its handler does not stream it, and what
    it returns is given. *)
Definition lawful (e : h2Event) : Prop :=
  match e with
  | EvFrame f => peerResets f = false
  | EvDone id r streamed => id = k -> given (finalResponse E r streamed)
  | EvStart id _ => id <> k
  | _ => True
  end.

Lemma step_ledger c e : lawful e -> ledger c -> ledger (h2Step c e).2.
Proof.
  intros He H. destruct e as [f | id r streamed | id block | id data | id | id | id | id | id n | id | id | n armed | |]; cbn [h2Step snd lawful] in *.
  - split_if; [by apply goAway_ledger | by apply frame_ledger].
  - by apply finishDispatch_ledger.
  - by apply onWriter_ledger.
  - apply onWriter_ledger; [| done]. intros _ w Hw. unfold writeChunk. destruct Hw as (Q1 & Q2). by rewrite Q1.
  - apply onWriter_ledger; [| done]. intros _ w Hw. by apply claimPump_quiet.
  - apply onWriter_ledger; [| done]. intros _ w Hw. by apply claimPump_quiet.
  - apply onWriter_ledger; [| done]. intros _ w Hw. unfold stallWriter. split_if; [done | by apply claimPump_quiet].
  - by apply pumpTask_ledger.
  - unfold onBody. destruct (h_bodies c !! id); exact H.
  - unfold onBody. destruct (h_bodies c !! id); exact H.
  - by apply bodyAcked_ledger.
  - exact H.
  - by apply pumpAll_ledger.
  - unfold goAwayForShutdown. cbv zeta. split_if; [done | by apply goAway_ledger].
Qed.

Lemma run_ledger es c : Forall lawful es -> ledger c -> ledger (h2Run c es).2.
Proof.
  intros He. revert c. induction He as [| e es He _ IH]; intros c H; cbn [h2Run]; [done |]. pose proof (step_ledger c e He H) as H1. destruct (h2Step c e) as [[] c1]; cbn [snd] in *; [done | by apply IH].
Qed.
End Ledger.

(** ** The property *)

(** An event after which the stream's response is still owed whole: the peer does
    not reset the stream, and the handler does not stream its response. *)
Definition owes (k : Z) (e : h2Event) : bool :=
  match e with EvFrame f => negb (peerResets k f) | EvStart id _ => negb (id =? k) | _ => true end.

(** The response stream [k] may get: what its handler returned, or what admission
    answered in its place. *)
Definition answerTo (E : h2Env) (k : Z) (es : list h2Event) (r : h2Response) : Prop :=
  exists r0 streamed, r = finalResponse E r0 streamed /\ (EvDone k r0 streamed ∈ es \/ streamed = false /\ exists req body trailers, admitRequest E req body trailers = Answered r0).

(** The header block of [r], once, and the first [off] bytes of its body. *)
Definition sentUpTo (E : h2Env) (k : Z) (r : h2Response) (off : Z) (fs : list H2Frame) : Prop :=
  exists head data, fs = head ++ data /\
  (exists enc max, head = headersFrames (headFlags r) k max (encodeHead E enc r).1) /\ concat (map f_payload data) = ztake off (r_body r) /\ Forall (fun f => f_type f = H2FrameData /\ f_id f = k /\ 0 < zlen (f_payload f)) data /\
  (forall f, f ∈ data -> f_flags f = H2FlagEndStream -> off = zlen (r_body r) /\ last data = Some f) /\ (off = zlen (r_body r) -> 0 < zlen (r_body r) -> exists f, last data = Some f /\ f_flags f = H2FlagEndStream).

Lemma delivered_bytes E k r off fs : delivered E k r off fs -> 0 <= off <= zlen (r_body r) -> sentUpTo E k r off fs.
Proof.
  intros (enc & max & data & -> & Hc) Ho. eexists _, data. split; [done |]. split; [by eexists _, _ |]. split_and!.
  - rewrite (carries_bytes _ _ _ _ _ Hc) by lia. unfold zslice. by rewrite zdrop_0, Z.sub_0_r.
  - by apply (carries_data _ _ _ _ _ Hc).
  - intros f Hin Hf. exact (carries_end _ _ _ _ _ Hc ltac:(lia) f Hin Hf).
  - intros -> Hp. by apply (carries_last _ _ _ _ Hc).
Qed.

Lemma ledger_init E k given dec enc b : ledger k given (h2Init E dec enc b).
Proof. split; [done |]. right. split; [done |]. split; [done | by left]. Qed.

(** C16: delivery of a response, over whole connections. Run a connection from its
    start through any frames, handler results, windows, socket answers and
    shutdown, in which the peer does not reset stream [k] and its handler does
    not stream its response. Unless the server reset the stream, what it wrote
    for the stream is: nothing while the request is read or its handler runs;
    while the response is being sent, the header block of that response, once,
    and the bytes of its body up to the offset the stream has reached; and for a
    stream that is gone nothing (refused or dropped), one of the two answers given
    without a stream, or the header block and the whole body. The response is the
    one the handler returned for that stream or admission gave in its place. The
    DATA frames are never empty, their payloads put together are exactly the bytes
    of the body, and END_STREAM is on the last one and only when the body is
    complete. *)
Theorem h2_response_delivery E (dec : Dec E) (enc : Enc E) (b : budget) (k : Z) (es : list h2Event) : forallb (owes k) es = true ->
  let c := (h2Run (h2Init E dec enc b) es).2 in
  let fs := own k (h_out c) in
  cut k (h_out c) \/
  match h_objs c !! k with
  | Some s =>
      match s_place s with
      | Mapped | Busy => fs = []
      | Sending => exists r, s_resp s = Some r /\ answerTo E k es r /\ 0 <= s_respOff s <= zlen (r_body r) /\ if s_respHeadersSent s then sentUpTo E k r (s_respOff s) fs else s_respOff s = 0 /\ fs = []
      | Draining => False
      end
  | None => fs = [] \/ shortcut E k fs \/ exists r, answerTo E k es r /\ sentUpTo E k r (zlen (r_body r)) fs
  end.
Proof.
  intros Hes c fs. assert (Hl : ledger k (answerTo E k es) c).
  { apply run_ledger; [| | apply ledger_init].
    - intros req body trailers r Ha. exists r, false. split; [done |]. right. split; [done |]. by eexists _, _, _.
    - apply Forall_forall. intros e He. rewrite forallb_forall in Hes. specialize (Hes e ltac:(by apply list_elem_of_In)). destruct e; cbn in *; try done; [by destruct (peerResets k f) | intros ->; by exists r, streamed; split; [| left] | lia]. }
  destruct Hl as [_ [Hc | [_ Hl]]]; [by left | right]. fold fs in Hl. destruct (h_objs c !! k) as [s |].
  - destruct Hl as [_ Hl]. destruct (s_place s); try done. destruct Hl as (_ & r & Hr & Hg & Ho & Hu). exists r. split_and!; try done; try lia. destruct (s_respHeadersSent s); [| done]. by apply delivered_bytes.
  - destruct Hl as [_ [Hl | [Hl | (r & Hg & Hl)]]]; [by left | by right; left |]. right. right. exists r. split; [done |]. apply delivered_bytes; [done |]. pose proof (zlen_nonneg (r_body r)). lia.
Qed.

(** Three bytes of a response of five, then, with the window grown, the rest. *)
Definition deliveryStart : list h2Event := [EvFrame (mkH2 H2FrameSettings 0 0 [0; 4; 0; 0; 0; 3]); EvFrame (mkH2 H2FrameHeaders 5 1 [71; 0]); EvDone 1 demoResponse false].
Definition deliveryRest : list h2Event := [EvFrame (mkH2 H2FrameWindowUpdate 0 1 [0; 0; 0; 9])].
Definition deliveryRun (es : list h2Event) : h2conn (demoH2 None) := (h2Run (demoInit None) es).2.

Lemma h2_response_delivery_witness :
  (exists s, h_objs (deliveryRun deliveryStart) !! 1 = Some s /\ s_place s = Sending /\ s_respOff s = 3) /\
  own 1 (h_out (deliveryRun (deliveryStart ++ deliveryRest))) = [mkH2 H2FrameHeaders 4 1 [200; 200]; dataFrame 0 1 [1; 2; 3]; dataFrame H2FlagEndStream 1 [4; 5]] /\
  exists r, answerTo (demoH2 None) 1 (deliveryStart ++ deliveryRest) r /\ sentUpTo (demoH2 None) 1 r (zlen (r_body r)) (own 1 (h_out (deliveryRun (deliveryStart ++ deliveryRest)))).
Proof.
  split; [eexists; split; [by vm_compute | by vm_compute] |]. split; [by vm_compute |].
  pose proof (h2_response_delivery (demoH2 None) O tt {| inFlight := 0; connReserved := 0 |} 1 (deliveryStart ++ deliveryRest) eq_refl) as H. cbv zeta in H. change (h2Run (h2Init (demoH2 None) O tt {| inFlight := 0; connReserved := 0 |}) (deliveryStart ++ deliveryRest)).2 with (deliveryRun (deliveryStart ++ deliveryRest)) in H.
  destruct H as [H | H]; [by vm_compute in H |]. assert (Hn : h_objs (deliveryRun (deliveryStart ++ deliveryRest)) !! 1 = None) by (vm_compute; reflexivity). rewrite Hn in H. assert (Ho : own 1 (h_out (deliveryRun (deliveryStart ++ deliveryRest))) = [mkH2 H2FrameHeaders 4 1 [200; 200]; dataFrame 0 1 [1; 2; 3]; dataFrame H2FlagEndStream 1 [4; 5]]) by (vm_compute; reflexivity).
  rewrite Ho in *. destruct H as [H | [[(max & fast & H & _) | (max & enc & H)] | H]]; [discriminate H | discriminate H | | exact H]. exfalso. apply (f_equal (fun l => match l with f :: _ => f_flags f | [] => 0 end)) in H. unfold headersFrames in H. destruct (max <? _); discriminate H.
Defined.
