(* ===== verification/Chunked.v ===== *)
(** Chunked transfer coding (src/core/chunked_decoder.go, trailers.go,
    asyncChunkedComplete of conn_shared.go, decodeChunkedInto of
    epoll_h1_linux_amd64.go and the chunk writer of stream.go). Positions in
    a slice that only move forward are the list of the bytes left. *)
From stdpp Require Import base list numbers strings.
From Stdlib Require Import ZArith Lia ZifyBool.
From S2P Require Import Prelude Utils H1Scan.

Open Scope list_scope.
Open Scope Z_scope.

Definition chunkedFramingLineMax : Z := 4096.

Inductive chunkState := chunkedAwaitSize | chunkedInData | chunkedAwaitDataEnd | chunkedInTrailer | chunkedDone.

#[export] Instance chunkState_eq_dec : EqDecision chunkState.
Proof. solve_decision. Defined.

Record chunkedDecoder := {
  cd_state : chunkState;
  captureTrailers : bool;
  cd_left : Z;
  trailerBytes : Z;
  cd_trailers : list (bytes * bytes);
}.
Definition newChunkedDecoder (capture : bool) : chunkedDecoder :=
  {| cd_state := chunkedAwaitSize; captureTrailers := capture; cd_left := 0; trailerBytes := 0; cd_trailers := [] |}.
Definition set_state (d : chunkedDecoder) (s : chunkState) (left : Z) : chunkedDecoder :=
  {| cd_state := s; captureTrailers := captureTrailers d; cd_left := left; trailerBytes := trailerBytes d; cd_trailers := cd_trailers d |}.
Definition set_trailers (d : chunkedDecoder) (n : Z) (ts : list (bytes * bytes)) : chunkedDecoder :=
  {| cd_state := cd_state d; captureTrailers := captureTrailers d; cd_left := cd_left d; trailerBytes := n; cd_trailers := ts |}.

(** ** The chunk-size line *)

Fixpoint skipBWS (b : bytes) : bytes :=
  match b with
  | c :: b' => if (c =? 32) || (c =? 9) then skipBWS b' else b
  | [] => []
  end.
Fixpoint skipToken (b : bytes) : bytes :=
  match b with
  | c :: b' => if h1TokenChar c then skipToken b' else b
  | [] => []
  end.

Definition qdtextByte (c : Z) : bool :=
  (c =? 9) || (c =? 32) || (c =? 0x21) || ((0x23 <=? c) && (c <=? 0x5b)) || ((0x5d <=? c) && (c <=? 0x7e)) || (0x80 <=? c).
Definition quotedPairByte (c : Z) : bool := (c =? 9) || ((32 <=? c) && (c <=? 0x7e)) || (0x80 <=? c).

(** Inside a quoted string: what follows it, [None] for -1. *)
Fixpoint quotedLoop (b : bytes) : option bytes :=
  match b with
  | [] => None
  | c :: b =>
      if c =? 34 then Some b else
      if c =? 92 then
        match b with
        | [] => None
        | e :: b => if negb (quotedPairByte e) then None else quotedLoop b
        end
      else if negb (qdtextByte c) then None else quotedLoop b
  end.
Definition skipChunkExtValue (b : bytes) : option bytes :=
  let token := let rest := skipToken b in if zlen rest <? zlen b then Some rest else None in
  match b with
  | [] => token
  | c :: b' => if negb (c =? 34) then token else quotedLoop b'
  end.

(** Each extension takes at least its semicolon, so a turn per byte is
    enough. *)
Fixpoint extLoop (fuel : nat) (ext : bytes) : bool :=
  match ext with
  | [] => true
  | _ :: _ =>
      match fuel with
      | O => false
      | S fuel =>
          match skipBWS ext with
          | [] => false
          | c :: ext =>
              if negb (c =? 59) then false else
              let ext := skipBWS ext in
              let rest := skipToken ext in
              if zlen rest =? zlen ext then false else
              match skipBWS rest with
              | e :: v =>
                  if e =? 61 then
                    match skipChunkExtValue (skipBWS v) with
                    | None => false
                    | Some rest => extLoop fuel rest
                    end
                  else extLoop fuel rest
              | [] => extLoop fuel rest
              end
          end
      end
  end.
Definition validChunkExtensions (ext : bytes) : bool := extLoop (length ext) ext.

Fixpoint hexDigits (line : bytes) : Z :=
  match line with
  | c :: line => if hexValid c then 1 + hexDigits line else 0
  | [] => 0
  end.

Definition parseChunkSizeLine (line : bytes) : option Z :=
  if (zlen line =? 0) || negb (znth line (zlen line - 1) =? 13) then None else
  let line := ztake (zlen line - 1) line in
  let digits := hexDigits line in
  match parseHex64Bytes (ztake digits line) with
  | None => None
  | Some size => if negb (validChunkExtensions (zdrop digits line)) then None else Some size
  end.

(** ** Trailers *)

Definition trailerFieldForbidden (name : bytes) : bool :=
  match zlen name with
  | 4 => EqualFoldASCII name (str "host")
  | 7 => EqualFoldASCII name (str "trailer")
  | 10 => EqualFoldASCII name (str "connection")
  | 14 => EqualFoldASCII name (str "content-length")
  | 17 => EqualFoldASCII name (str "transfer-encoding")
  | _ => false
  end.
Definition appendTrailerField (dst : list (bytes * bytes)) (name value : bytes) : list (bytes * bytes) :=
  if trailerFieldForbidden name then dst else dst ++ [(name, value)].

Fixpoint indexByteLoop (b : bytes) (c i : Z) : Z :=
  match b with
  | [] => -1
  | x :: b => if x =? c then i else indexByteLoop b c (i + 1)
  end.
Definition indexByteFrom (b : bytes) (c from : Z) : Z := indexByteLoop (zdrop from b) c from.

Section Decoder.

Context (hasAVX2 : bool) (h1HeaderLineAVX2 : bytes -> Z * Z).

Definition splitTrailerLine (line : bytes) : option (bytes * bytes) :=
  let '(special, nameEnd) := h1HeaderLineSpecials hasAVX2 h1HeaderLineAVX2 line in
  let '(end_, bad) := classifyFirstSpecial line special in
  if bad || negb (end_ =? zlen line - 2) || negb (validH1Colon (ztake end_ line) nameEnd) then None
  else Some (ztake nameEnd line, trimOWS (zslice line (nameEnd + 1) end_)).

Inductive chunkErr := errChunkedMalformed.

(** A chunk-size line or a trailer line. *)
Definition nextLine (d : chunkedDecoder) (src : bytes) : res chunkErr (Z * bytes) * chunkedDecoder :=
  let nl := indexByteFrom (ztake (Z.min (zlen src) chunkedFramingLineMax) src) 10 0 in
  if nl <? 0 then
    if chunkedFramingLineMax <=? zlen src then (Err errChunkedMalformed, d) else (Ok (0, []), d)
  else if bool_decide (cd_state d = chunkedInTrailer) then
    let d := set_trailers d (trailerBytes d + (nl + 1)) (cd_trailers d) in
    if chunkedFramingLineMax <? trailerBytes d then (Err errChunkedMalformed, d) else
    if (nl =? 1) && (znth src 0 =? 13) then (Ok (nl + 1, []), set_state d chunkedDone (cd_left d)) else
    match splitTrailerLine (ztake (nl + 1) src) with
    | None => (Err errChunkedMalformed, d)
    | Some (name, value) =>
        (Ok (nl + 1, []),
         if captureTrailers d then set_trailers d (trailerBytes d) (appendTrailerField (cd_trailers d) name value) else d)
    end
  else
    match parseChunkSizeLine (ztake nl src) with
    | None => (Err errChunkedMalformed, d)
    | Some size => (Ok (nl + 1, []), if size =? 0 then set_state d chunkedInTrailer (cd_left d) else set_state d chunkedInData size)
    end.

(** [next]: the number of bytes consumed and the body bytes among them. *)
Definition next (d : chunkedDecoder) (src : bytes) : res chunkErr (Z * bytes) * chunkedDecoder :=
  match cd_state d with
  | chunkedInData =>
      let n := Z.min (zlen src) (cd_left d) in
      let left := cd_left d - n in
      (Ok (n, ztake n src), set_state d (if left =? 0 then chunkedAwaitDataEnd else chunkedInData) left)
  | chunkedAwaitDataEnd =>
      if zlen src <? 2 then (Ok (0, []), d) else
      if negb (znth src 0 =? 13) || negb (znth src 1 =? 10) then (Err errChunkedMalformed, d) else
      (Ok (2, []), set_state d chunkedAwaitSize (cd_left d))
  | chunkedDone => (Ok (0, []), d)
  | _ => nextLine d src
  end.

Definition done (d : chunkedDecoder) : bool := bool_decide (cd_state d = chunkedDone).

(** ** The two loops over it *)

(** [(bodyEnd, status, resume)]; [None] when the fuel runs out. *)
Fixpoint asyncLoop (fuel : nat) (d : chunkedDecoder) (buf : bytes) (pos chunkStart : Z) : option (Z * Z * Z) :=
  match fuel with
  | O => None
  | S fuel =>
      match next d (zdrop pos buf) with
      | (Err _, _) => Some (0, -1, chunkStart)
      | (Ok (n, _), d) =>
          if n =? 0 then Some (0, 0, chunkStart) else
          let pos := pos + n in
          if done d then Some (pos, 1, pos) else
          asyncLoop fuel d buf pos (if bool_decide (cd_state d = chunkedAwaitSize) then pos else chunkStart)
      end
  end.
(** Every turn but the last consumes a byte. *)
Definition asyncChunkedComplete (buf : bytes) (pos : Z) : option (Z * Z * Z) :=
  asyncLoop (S (length (zdrop pos buf))) (newChunkedDecoder false) buf pos pos.

(** The body and the trailers, or [None] for [ok = false]. *)
Fixpoint decodeChunkedLoop (fuel : nat) (d : chunkedDecoder) (dst src : bytes) : option (option (bytes * list (bytes * bytes))) :=
  if done d then Some (Some (dst, cd_trailers d)) else
  match fuel with
  | O => None
  | S fuel =>
      match next d src with
      | (Err _, _) => Some None
      | (Ok (n, data), d) => if n =? 0 then Some None else decodeChunkedLoop fuel d (dst ++ data) (zdrop n src)
      end
  end.
Definition decodeChunkedInto (dst src : bytes) : option (option (bytes * list (bytes * bytes))) :=
  decodeChunkedLoop (S (length src)) (newChunkedDecoder true) dst src.

End Decoder.

(** ** The writer *)

Definition h1LastChunk : bytes := [48; 13; 10; 13; 10].
Definition appendH1Chunk (buf data : bytes) : bytes := buf ++ appendHex [] (zlen data) ++ [13; 10] ++ data ++ [13; 10].
