(* ===== verification/ChunkedProofs.v ===== *)
(** Correctness of the chunked coding: scanning a body that arrives in pieces
    gives the verdict of scanning it whole, a body the scan calls complete
    decodes, and what the writer writes is read back. *)
From stdpp Require Import base list numbers strings.
From Stdlib Require Import ZArith Lia ZifyBool.
From S2P Require Import Prelude Utils H1Scan Chunked.

Open Scope list_scope.
Open Scope Z_scope.

(** ** Lines *)

Lemma indexByteLoop_shift b c i : indexByteLoop b c i = if indexByteLoop b c 0 <? 0 then -1 else i + indexByteLoop b c 0.
Proof.
  assert (H : forall b i j, indexByteLoop b c i = -1 /\ indexByteLoop b c j = -1 \/
    indexByteLoop b c i - i = indexByteLoop b c j - j /\ i <= indexByteLoop b c i < i + zlen b).
  { clear. induction b as [| x b IH]; intros i j; cbn [indexByteLoop]; [by left |]. rewrite zlen_cons. pose proof (zlen_nonneg b).
    destruct (x =? c); [right; lia |]. destruct (IH (i + 1) (j + 1)) as [? | ?]; [by left | right; lia]. }
  destruct (H b 0 i) as [[E1 E2] | [E1 E2]]; destruct (indexByteLoop b c 0 <? 0) eqn:E; lia.
Qed.

Lemma indexByteLoop_range b c : indexByteLoop b c 0 = -1 \/ 0 <= indexByteLoop b c 0 < zlen b.
Proof.
  induction b as [| x b IH]; [by left |]. cbn [indexByteLoop]. rewrite zlen_cons. pose proof (zlen_nonneg b).
  destruct (x =? c); [right; lia |]. rewrite indexByteLoop_shift. destruct (indexByteLoop b c 0 <? 0) eqn:E; [by left | right; lia].
Qed.

(** A byte found in the front is the one found in the whole. *)
Lemma indexByteLoop_app a b c : indexByteLoop (a ++ b) c 0 = if indexByteLoop a c 0 <? 0 then
  (if indexByteLoop b c 0 <? 0 then -1 else zlen a + indexByteLoop b c 0) else indexByteLoop a c 0.
Proof.
  induction a as [| x a IH]; [simpl; change (zlen (@nil Z)) with 0; destruct (indexByteLoop_range b c); destruct (_ <? 0) eqn:E; lia |].
  cbn [app indexByteLoop]. destruct (x =? c); [done |]. rewrite !(indexByteLoop_shift _ _ 1), IH, zlen_cons.
  destruct (indexByteLoop_range a c), (indexByteLoop_range b c), (indexByteLoop a c 0 <? 0) eqn:E1, (indexByteLoop b c 0 <? 0) eqn:E2;
    pose proof (zlen_nonneg a); repeat split_if; lia.
Qed.

(** The newline the decoder looks for, within the first 4096 bytes. *)
Definition line_end (src : bytes) : Z := indexByteFrom (ztake (Z.min (zlen src) chunkedFramingLineMax) src) 10 0.

Lemma line_end_range src : line_end src = -1 \/ 0 <= line_end src < Z.min (zlen src) chunkedFramingLineMax.
Proof.
  unfold line_end, indexByteFrom. rewrite zdrop_0. pose proof (zlen_nonneg src).
  destruct (indexByteLoop_range (ztake (Z.min (zlen src) chunkedFramingLineMax) src) 10) as [Hx | Hx]; [by left |]. right.
  rewrite zlen_take in Hx; [done |]. unfold chunkedFramingLineMax in *. lia.
Qed.

Lemma ztake_ge {A} n (l : list A) : zlen l <= n -> ztake n l = l.
Proof. unfold zlen, ztake. intros. apply take_ge. lia. Qed.
Lemma ztake_ztake {A} n m (l : list A) : n <= m -> ztake n (ztake m l) = ztake n l.
Proof. unfold ztake. intros. rewrite take_take. f_equal. lia. Qed.

(** More bytes behind do not move it. *)
Lemma line_end_app a b : (0 <= line_end a -> line_end (a ++ b) = line_end a) /\
  (line_end a < 0 -> line_end (a ++ b) < 0 \/ zlen a <= line_end (a ++ b)).
Proof.
  unfold line_end, indexByteFrom, chunkedFramingLineMax. rewrite !zdrop_0, zlen_app. pose proof (zlen_nonneg a). pose proof (zlen_nonneg b).
  destruct (decide (zlen a < 4096)) as [Ha | Ha].
  - rewrite (ztake_ge (Z.min (zlen a) 4096)) by lia.
    assert (E : ztake (Z.min (zlen a + zlen b) 4096) (a ++ b) = a ++ ztake (Z.min (zlen b) (4096 - zlen a)) b).
    { unfold ztake, zlen in *. rewrite take_app, (take_ge a) by lia. f_equal. f_equal. lia. }
    rewrite E, indexByteLoop_app. destruct (indexByteLoop_range a 10), (indexByteLoop_range (ztake (Z.min (zlen b) (4096 - zlen a)) b) 10); repeat split_if; lia.
  - replace (Z.min (zlen a + zlen b) 4096) with 4096 by lia. replace (Z.min (zlen a) 4096) with 4096 by lia. rewrite ztake_app_le by lia.
    split; [done |]. lia.
Qed.

Section Scan.

Context (hasAVX2 : bool) (h1HeaderLineAVX2 : bytes -> Z * Z).

#[local] Abbreviation next := (next hasAVX2 h1HeaderLineAVX2).
#[local] Abbreviation nextLine := (nextLine hasAVX2 h1HeaderLineAVX2).
#[local] Abbreviation asyncLoop := (asyncLoop hasAVX2 h1HeaderLineAVX2).
#[local] Abbreviation asyncChunkedComplete := (asyncChunkedComplete hasAVX2 h1HeaderLineAVX2).

(** ** One step *)

(** What a decoder can hold between steps: a chunk is being read only in the
    data state, and trailers are counted only after the last chunk. *)
Definition decoder_inv (d : chunkedDecoder) : Prop :=
  match cd_state d with
  | chunkedAwaitSize | chunkedAwaitDataEnd => cd_left d = 0 /\ trailerBytes d = 0 /\ cd_trailers d = []
  | chunkedInData => 0 < cd_left d /\ trailerBytes d = 0 /\ cd_trailers d = []
  | _ => True
  end.

Lemma next_range d src n data d' : decoder_inv d -> next d src = (Ok (n, data), d') ->
  0 <= n <= zlen src /\ decoder_inv d' /\ captureTrailers d' = captureTrailers d.
Proof.
  unfold next, Chunked.next. pose proof (zlen_nonneg src) as Hs. intros Hi. unfold decoder_inv in Hi.
  assert (Hline : nextLine d src = (Ok (n, data), d') -> cd_state d = chunkedAwaitSize \/ cd_state d = chunkedInTrailer ->
    0 <= n <= zlen src /\ decoder_inv d' /\ captureTrailers d' = captureTrailers d).
  { unfold nextLine, Chunked.nextLine. fold (line_end src). pose proof (line_end_range src) as Hr. intros E Hst.
    destruct (line_end src <? 0) eqn:El; [split_if_in E; [done |]; injection E as <- <- <-; unfold decoder_inv; split; [lia | done] |].
    case_bool_decide as Ht.
    - cbv zeta in E. split_if_in E; [done |]. split_if_in E; [injection E as <- <- <-; split; [lia | done] |].
      destruct (splitTrailerLine _ _ _) as [[nm v] |]; [| done]. injection E as <- <- <-. split; [lia |]. unfold decoder_inv.
      destruct (captureTrailers _) eqn:Ec; simpl; rewrite ?Ht; simpl in *; by rewrite ?Ec.
    - destruct (parseChunkSizeLine _) as [size |] eqn:Ep; [| done]. injection E as <- <- <-. split; [lia |]. destruct Hst as [Hst | Hst]; [| done].
      rewrite Hst in Hi. unfold decoder_inv. assert (0 <= size).
      { unfold parseChunkSizeLine in Ep. split_if_in Ep; [done |]. cbv zeta in Ep. destruct (parseHex64Bytes _) as [z |] eqn:Eh; [| done]. split_if_in Ep; [done |].
        injection Ep as <-. rewrite parse_hex_spec in Eh. split_if_in Eh; [| done]. injection Eh as <-.
        apply horner_mono; [lia | lia |]. apply Forall_forall. intros c _. apply hexLookup_range. }
      destruct (size =? 0) eqn:E0; simpl; [done |]. split; [split; [lia | apply Hi] | done]. }
  destruct (cd_state d) eqn:Est; intros E; try (apply Hline; [exact E | by (left + right)]).
  - injection E as <- <- <-. split; [lia |]. split; [| done]. unfold decoder_inv. simpl. destruct (_ =? 0) eqn:E0; simpl; split; try lia; apply Hi.
  - destruct (zlen src <? 2) eqn:E2; [injection E as <- <- <-; unfold decoder_inv; rewrite Est; split; [lia | done] |].
    split_if_in E; [done |]. injection E as <- <- <-. split; [lia |]. split; [| done]. exact Hi.
  - injection E as <- <- <-. unfold decoder_inv. rewrite Est. split; [lia | done].
Qed.

(** A step that reads less than the rest of a chunk's data reads everything
    there is; any other step is the same when more bytes follow. *)
Definition partial (d d' : chunkedDecoder) : Prop := cd_state d = chunkedInData /\ cd_state d' = chunkedInData.

Lemma nextLine_app d a b n data d' : nextLine d a = (Ok (n, data), d') -> n <> 0 -> nextLine d (a ++ b) = (Ok (n, data), d').
Proof.
  unfold nextLine, Chunked.nextLine. fold (line_end a) (line_end (a ++ b)). intros E Hn. pose proof (line_end_range a) as Hr.
  destruct (line_end a <? 0) eqn:El; [split_if_in E; simplify_eq; done |].
  rewrite (proj1 (line_end_app a b)) by lia. rewrite El.
  rewrite (ztake_app_le (line_end a + 1)), (ztake_app_le (line_end a)) by lia. rewrite (znth_app a b 0) by lia. exact E.
Qed.

Lemma next_app d a b n data d' : decoder_inv d -> next d a = (Ok (n, data), d') -> n <> 0 -> ~ partial d d' ->
  next d (a ++ b) = (Ok (n, data), d').
Proof.
  unfold next, Chunked.next, decoder_inv. intros Hi E Hn Hp. destruct (cd_state d) eqn:Est; try (by apply (nextLine_app _ _ _ _ _ _ E)); [| | simplify_eq].
  - simplify_eq. unfold partial in Hp. simpl in Hp. destruct (_ =? 0) eqn:E0; [| by destruct Hp].
    pose proof (zlen_nonneg b). rewrite zlen_app. replace (Z.min (zlen a + zlen b) (cd_left d)) with (Z.min (zlen a) (cd_left d)) by lia.
    rewrite E0, ztake_app_le by lia. done.
  - destruct (zlen a <? 2) eqn:E2; [simplify_eq |]. pose proof (zlen_nonneg b). rewrite zlen_app. replace (zlen a + zlen b <? 2) with false by lia.
    rewrite !znth_app by lia. exact E.
Qed.

(** Errors stay errors. *)
Lemma next_err_app d a b e d' : next d a = (Err e, d') -> exists d'', next d (a ++ b) = (Err e, d'').
Proof.
  unfold next, Chunked.next. pose proof (zlen_nonneg b) as Hb. assert (Hline : nextLine d a = (Err e, d') -> exists d'', nextLine d (a ++ b) = (Err e, d'')).
  { unfold nextLine, Chunked.nextLine. fold (line_end a) (line_end (a ++ b)). pose proof (line_end_range a) as Hr. intros E.
    destruct (line_end a <? 0) eqn:El.
    - destruct (chunkedFramingLineMax <=? zlen a) eqn:Em; [| done]. destruct e. exists d.
      replace (line_end (a ++ b) <? 0) with true; [by replace (chunkedFramingLineMax <=? zlen (a ++ b)) with true by (rewrite zlen_app; lia) |].
      destruct (line_end_app a b) as [_ [H | H]]; [lia | lia |]. destruct (line_end_range (a ++ b)); lia.
    - rewrite (proj1 (line_end_app a b)) by lia. rewrite El.
      rewrite (ztake_app_le (line_end a + 1)), (ztake_app_le (line_end a)) by lia. rewrite (znth_app a b 0) by lia. by exists d'. }
  destruct (cd_state d); try exact Hline; [done | | done]. intros E. destruct (zlen a <? 2) eqn:E2; [done |].
  rewrite zlen_app. replace (zlen a + zlen b <? 2) with false by lia. rewrite !znth_app by lia. split_if; [| done]. exists d. by destruct e.
Qed.

(** ** The scan of a buffer *)

Lemma asyncLoop_fuel f f' d buf pos cs r : asyncLoop f d buf pos cs = Some r -> (f <= f')%nat -> asyncLoop f' d buf pos cs = Some r.
Proof.
  revert f' d pos cs. induction f as [| f IH]; intros f' d pos cs E Hf; [done |]. destruct f' as [| f']; [lia |].
  cbn [Chunked.asyncLoop] in *. destruct (next d (zdrop pos buf)) as [[[n data] | e] d']; [| done]. destruct (n =? 0); [done |].
  cbv zeta in *. destruct (done d'); [done |]. apply IH; [done | lia].
Qed.

Lemma asyncLoop_total fuel d buf pos cs : decoder_inv d -> 0 <= cs <= pos -> pos <= zlen buf -> (length (zdrop pos buf) < fuel)%nat ->
  exists e st rs, asyncLoop fuel d buf pos cs = Some (e, st, rs) /\ (st = -1 \/ st = 0 \/ st = 1) /\ (st <> 1 -> e = 0) /\
    (st = 1 -> pos <= e <= zlen buf) /\ 0 <= rs <= zlen buf.
Proof.
  revert d pos cs. induction fuel as [| fuel IH]; intros d pos cs Hi Hcs Hp Hf; [lia |]. cbn [Chunked.asyncLoop].
  assert (Hz : zlen (zdrop pos buf) = zlen buf - pos) by (apply zlen_drop; lia).
  destruct (next d (zdrop pos buf)) as [[[n data] | e] d'] eqn:E; [| exists 0, (-1), cs; repeat split; lia].
  destruct (next_range _ _ _ _ _ Hi E) as (Hn & Hi' & _). destruct (n =? 0) eqn:E0; [exists 0, 0, cs; repeat split; lia |]. cbv zeta.
  destruct (done d'); [exists (pos + n), 1, (pos + n); repeat split; lia |].
  destruct (IH d' (pos + n) (if bool_decide (cd_state d' = chunkedAwaitSize) then pos + n else cs)) as (e & st & rs & H1 & H2 & H3 & H4 & H5);
    [done | case_bool_decide; lia | lia | unfold zlen, zdrop in *; rewrite length_drop in *; lia |].
  exists e, st, rs. repeat split; try done; try lia.
Qed.

(** A verdict, with any amount of fuel that suffices. *)
Definition scans (d : chunkedDecoder) (buf : bytes) (pos cs : Z) (r : Z * Z * Z) : Prop := exists fuel, asyncLoop fuel d buf pos cs = Some r.

Lemma scans_det d buf pos cs r r' : scans d buf pos cs r -> scans d buf pos cs r' -> r = r'.
Proof.
  intros [f E] [f' E']. apply (asyncLoop_fuel _ (f + f')) in E; [| lia]. apply (asyncLoop_fuel _ (f + f')) in E'; [| lia]. congruence.
Qed.

Definition next_start (d : chunkedDecoder) (pos cs : Z) : Z := if bool_decide (cd_state d = chunkedAwaitSize) then pos else cs.

Lemma scans_step d buf pos cs n data d' r : next d (zdrop pos buf) = (Ok (n, data), d') -> n <> 0 -> done d' = false ->
  scans d' buf (pos + n) (next_start d' (pos + n) cs) r <-> scans d buf pos cs r.
Proof.
  intros E Hn Hd. unfold scans. split; intros [fuel Ef].
  - exists (S fuel). cbn [Chunked.asyncLoop]. rewrite E. replace (n =? 0) with false by lia. cbv zeta. by rewrite Hd.
  - destruct fuel as [| fuel]; [done |]. cbn [Chunked.asyncLoop] in Ef. rewrite E in Ef. replace (n =? 0) with false in Ef by lia.
    cbv zeta in Ef. rewrite Hd in Ef. by exists fuel.
Qed.

Lemma fresh_eq d : decoder_inv d -> captureTrailers d = false -> cd_state d = chunkedAwaitSize -> d = newChunkedDecoder false.
Proof. destruct d as [s c l t ts]. unfold decoder_inv. simpl. intros Hi -> ->. simpl in Hi. destruct Hi as (-> & -> & ->). done. Qed.

(** A partial step leaves nothing, so the scan stops waiting. *)
Lemma partial_waits fuel d d' a pos cs n data r : decoder_inv d -> 0 <= pos <= zlen a -> next d (zdrop pos a) = (Ok (n, data), d') -> partial d d' ->
  asyncLoop fuel d' a (pos + n) cs = Some r -> r = (0, 0, cs).
Proof.
  intros Hi Hp E [P1 P2] Ef. destruct fuel as [| fuel]; [done |]. cbn [Chunked.asyncLoop] in Ef. unfold next, Chunked.next in E, Ef. rewrite P1 in E. rewrite P2 in Ef.
  injection E as <- <- <-. simpl in P2, Ef. assert (Hz : zlen (zdrop pos a) = zlen a - pos) by (apply zlen_drop; lia).
  destruct (cd_left d - Z.min (zlen (zdrop pos a)) (cd_left d) =? 0) eqn:E0; [done |].
  assert (Hend : zdrop (pos + Z.min (zlen (zdrop pos a)) (cd_left d)) a = []) by (apply zdrop_all; lia).
  rewrite Hend in Ef. change (zlen (@nil Z)) with 0 in Ef. replace (Z.min 0 _) with 0 in Ef by lia. simpl in Ef. congruence.
Qed.

(** Scanning on with more bytes: a final verdict stays, and a waiting scan
    can be taken up again at the resume point. *)
Lemma scan_more fuel d a b pos cs e st rs : asyncLoop fuel d a pos cs = Some (e, st, rs) -> decoder_inv d -> captureTrailers d = false ->
  0 <= pos <= zlen a ->
  (st <> 0 -> scans d (a ++ b) pos cs (e, st, rs)) /\
  (st = 0 -> (forall r, scans d (a ++ b) pos cs r <-> scans (newChunkedDecoder false) (a ++ b) cs cs r) ->
    forall r, scans d (a ++ b) pos cs r <-> scans (newChunkedDecoder false) (a ++ b) rs rs r).
Proof.
  revert d pos cs. induction fuel as [| fuel IH]; intros d pos cs E Hi Hc Hp; [done |]. cbn [Chunked.asyncLoop] in E.
  pose proof (zdrop_app_le pos a b Hp) as Hz. destruct (next d (zdrop pos a)) as [[[n data] | err] d'] eqn:En.
  2: { injection E as <- <- <-. split; [| done]. intros _. destruct (next_err_app _ _ b _ _ En) as [d'' E']. exists 1%nat.
       cbn [Chunked.asyncLoop]. by rewrite Hz, E'. }
  destruct (next_range _ _ _ _ _ Hi En) as (Hn & Hi' & Hc'). assert (Hzl : zlen (zdrop pos a) = zlen a - pos) by (apply zlen_drop; lia).
  destruct (n =? 0) eqn:E0; [injection E as <- <- <-; split; [done | by intros _ H] |]. cbv zeta in E.
  destruct (decide (partial d d')) as [Hpart | Hfull].
  { replace (done d') with false in E by (unfold done; rewrite (proj2 Hpart); by rewrite bool_decide_false).
    replace (bool_decide (cd_state d' = chunkedAwaitSize)) with false in E by (rewrite (proj2 Hpart); by rewrite bool_decide_false).
    apply (partial_waits _ _ _ _ _ _ _ _ _ Hi Hp En Hpart) in E. injection E as -> -> ->. split; [done | by intros _ H]. }
  assert (En' : next d (zdrop pos (a ++ b)) = (Ok (n, data), d')) by (rewrite Hz; apply next_app; [done | done | lia | done]).
  destruct (done d') eqn:Ed.
  { injection E as <- <- <-. split; [| done]. intros _. exists 1%nat. cbn [Chunked.asyncLoop]. rewrite En', E0. cbv zeta. by rewrite Ed. }
  fold (next_start d' (pos + n) cs) in E. destruct (IH d' _ _ E Hi') as [I1 I2]; [congruence | lia |].
  assert (Hst : forall r, scans d' (a ++ b) (pos + n) (next_start d' (pos + n) cs) r <-> scans d (a ++ b) pos cs r) by (intros r; apply (scans_step _ _ _ _ n data); [done | lia | done]).
  split; [intros Hs; apply Hst; by apply I1 |]. intros Hs Hr r. rewrite <- Hst. apply I2; [done |]. intros r'.
  unfold next_start in *. case_bool_decide as Hb; [by rewrite (fresh_eq d' Hi' ltac:(congruence) Hb) |]. rewrite Hst. apply Hr.
Qed.

Lemma scans_complete buf pos r : 0 <= pos <= zlen buf -> scans (newChunkedDecoder false) buf pos pos r <-> asyncChunkedComplete buf pos = Some r.
Proof.
  intros Hp. assert (Hi : decoder_inv (newChunkedDecoder false)) by done. split; [| by eexists].
  intros Hs. destruct (asyncLoop_total (S (length (zdrop pos buf))) _ buf pos pos Hi) as (e & st & rs & E & _); [lia | lia | lia |].
  unfold asyncChunkedComplete, Chunked.asyncChunkedComplete. rewrite E. f_equal. eapply scans_det; [by eexists | done].
Qed.

(** ** Bodies that arrive in pieces *)

(** The connection keeps the bytes received and, while the body is
    incomplete, the position to scan from next time. *)
Fixpoint scanPieces (buf : bytes) (from : Z) (pieces : list bytes) : option (Z * Z) :=
  match pieces with
  | [] => Some (0, 0)
  | p :: pieces =>
      match asyncChunkedComplete (buf ++ p) from with
      | None => None
      | Some (bodyEnd, status, resume) => if status =? 0 then scanPieces (buf ++ p) resume pieces else Some (bodyEnd, status)
      end
  end.

Lemma scanPieces_whole p pieces buf from : 0 <= from <= zlen buf ->
  exists e st rs, asyncChunkedComplete (buf ++ concat (p :: pieces)) from = Some (e, st, rs) /\ scanPieces buf from (p :: pieces) = Some (e, st).
Proof.
  revert p buf from. induction pieces as [| q pieces IH]; intros p buf from Hf; cbn [scanPieces];
    assert (Hi : decoder_inv (newChunkedDecoder false)) by done; pose proof (zlen_nonneg p).
  - simpl. rewrite app_nil_r. destruct (asyncLoop_total (S (length (zdrop from (buf ++ p)))) _ (buf ++ p) from from Hi) as (e & st & rs & E & H2 & H3 & _); [lia | rewrite zlen_app; lia | lia |].
    exists e, st, rs. unfold asyncChunkedComplete, Chunked.asyncChunkedComplete. rewrite E. split; [done |]. destruct (st =? 0) eqn:E0; [| done]. rewrite H3 by lia. f_equal. f_equal. lia.
  - destruct (asyncLoop_total (S (length (zdrop from (buf ++ p)))) _ (buf ++ p) from from Hi) as (e & st & rs & E & _ & _ & _ & H5); [lia | rewrite zlen_app; lia | lia |].
    change (concat (p :: q :: pieces)) with (p ++ concat (q :: pieces)). rewrite app_assoc. set (rest := concat (q :: pieces)) in *.
    assert (Hr : 0 <= from <= zlen (buf ++ p)) by (rewrite zlen_app; lia).
    destruct (scan_more _ _ _ rest _ _ _ _ _ E Hi eq_refl Hr) as [S1 S2]. pose proof (zlen_nonneg rest).
    unfold asyncChunkedComplete at 2, Chunked.asyncChunkedComplete. rewrite E. destruct (st =? 0) eqn:E0.
    + destruct (IH q (buf ++ p) rs H5) as (e' & st' & rs' & J1 & J2). exists e', st', rs'. split; [| done].
      apply scans_complete; [rewrite zlen_app; lia |]. apply S2; [lia | done |]. apply scans_complete; [rewrite (zlen_app (buf ++ p)); lia | done].
    + exists e, st, rs. split; [| done]. apply scans_complete; [rewrite zlen_app; lia |]. apply S1. lia.
Qed.

(** ** A complete body decodes *)

#[local] Abbreviation decodeChunkedLoop := (decodeChunkedLoop hasAVX2 h1HeaderLineAVX2).
#[local] Abbreviation decodeChunkedInto := (decodeChunkedInto hasAVX2 h1HeaderLineAVX2).

(** Equal but for the captured trailers. *)
Definition same_framing (d d2 : chunkedDecoder) : Prop :=
  cd_state d = cd_state d2 /\ cd_left d = cd_left d2 /\ trailerBytes d = trailerBytes d2.

Lemma next_capture d d2 src n data d' : same_framing d d2 -> next d src = (Ok (n, data), d') ->
  exists d2', next d2 src = (Ok (n, data), d2') /\ same_framing d' d2'.
Proof.
  intros (H1 & H2 & H3) E. unfold next, Chunked.next in *. rewrite <- H1, <- H2.
  assert (Hline : nextLine d src = (Ok (n, data), d') -> exists d2', nextLine d2 src = (Ok (n, data), d2') /\ same_framing d' d2').
  { clear E. unfold nextLine, Chunked.nextLine. fold (line_end src). intros E. rewrite <- H1. destruct (line_end src <? 0).
    { split_if; [done |]. injection E as <- <- <-. by exists d2. }
    case_bool_decide; cbv zeta in *; cbn [set_trailers trailerBytes cd_left captureTrailers cd_trailers] in *.
    - rewrite <- H3. destruct (chunkedFramingLineMax <? _); [done |]. destruct (_ && _); [injection E as <- <- <-; eexists; split; [done |]; by repeat split |].
      destruct (splitTrailerLine _ _ _) as [[nm v] |]; [| done]. injection E as <- <- <-. eexists. split; [done |].
      destruct (captureTrailers d), (captureTrailers d2); by repeat split.
    - destruct (parseChunkSizeLine _) as [size |]; [| done]. injection E as <- <- <-. eexists. split; [done |]. destruct (size =? 0); by repeat split. }
  destruct (cd_state d) eqn:Est; try (by apply Hline).
  - injection E as <- <- <-. eexists. split; [done |]. repeat split. exact H3.
  - split_if; [injection E as <- <- <-; exists d2; split; [done |]; repeat split; congruence |]. split_if; [done |].
    injection E as <- <- <-. eexists. split; [done |]. by repeat split.
  - injection E as <- <- <-. exists d2. split; [done |]. repeat split; congruence.
Qed.

(** Bytes behind the consumed ones do not matter. *)
Lemma next_take d src n data d' m : next d src = (Ok (n, data), d') -> 0 < n <= m -> next d (ztake m src) = (Ok (n, data), d').
Proof.
  intros E Hn. pose proof (zlen_nonneg src). destruct (decide (zlen src <= m)) as [Hge | Hlt]; [by rewrite ztake_ge |].
  assert (Hz : zlen (ztake m src) = m) by (apply zlen_take; lia). unfold next, Chunked.next in *.
  assert (Hline : nextLine d src = (Ok (n, data), d') -> nextLine d (ztake m src) = (Ok (n, data), d')).
  { clear E. unfold nextLine, Chunked.nextLine. fold (line_end src) (line_end (ztake m src)). intros E. pose proof (line_end_range src) as Hr.
    destruct (line_end src <? 0) eqn:El; [split_if_in E; simplify_eq; lia |].
    assert (Hnl : n = line_end src + 1).
    { case_bool_decide; cbv zeta in E; [| destruct (parseChunkSizeLine _); simplify_eq; done].
      destruct (chunkedFramingLineMax <? _); [done |]. destruct (_ && _); [simplify_eq; done |]. destruct (splitTrailerLine _ _ _) as [[? ?] |]; simplify_eq; done. }
    assert (Ele : line_end (ztake m src) = line_end src).
    { pose proof (line_end_app (ztake m src) (zdrop m src)) as [L1 L2]. rewrite ztake_zdrop in L1, L2. destruct (decide (0 <= line_end (ztake m src))); [symmetry; by apply L1 |].
      destruct L2; lia. }
    rewrite Ele, El, (ztake_ztake (line_end src + 1)), (ztake_ztake (line_end src)), (znth_take m) by lia. exact E. }
  destruct (cd_state d); try (by apply Hline).
  - simplify_eq. rewrite Hz. replace (Z.min m (cd_left d)) with (Z.min (zlen src) (cd_left d)) by lia. by rewrite ztake_ztake by lia.
  - split_if_in E; [simplify_eq; lia |]. assert (n = 2) by (split_if_in E; simplify_eq; done). rewrite Hz, !znth_take by lia.
    replace (m <? 2) with false by lia. exact E.
  - simplify_eq. lia.
Qed.

Lemma asyncLoop_end fuel : forall d buf pos cs e rs, asyncLoop fuel d buf pos cs = Some (e, 1, rs) -> decoder_inv d -> 0 <= pos <= zlen buf ->
  pos < e <= zlen buf.
Proof.
  induction fuel as [| fuel IH]; intros d buf pos cs e rs E Hi Hp; [done |]. cbn [Chunked.asyncLoop] in E.
  destruct (next d (zdrop pos buf)) as [[[n data] | err] d'] eqn:En; [| done]. destruct (n =? 0) eqn:E0; [done |]. cbv zeta in E.
  destruct (next_range _ _ _ _ _ Hi En) as (Hn & Hi' & _). assert (Hz : zlen (zdrop pos buf) = zlen buf - pos) by (apply zlen_drop; lia).
  destruct (done d'); [simplify_eq; lia |]. destruct (IH _ _ _ _ _ _ E Hi'); lia.
Qed.

Lemma next_data_len d src n data d' : decoder_inv d -> next d src = (Ok (n, data), d') -> zlen data <= n /\ (done d' = true -> data = []).
Proof.
  unfold next, Chunked.next, decoder_inv. pose proof (zlen_nonneg src) as Hsrc. intros Hi.
  assert (Hline : nextLine d src = (Ok (n, data), d') -> zlen data <= n /\ (done d' = true -> data = [])).
  { unfold nextLine, Chunked.nextLine. fold (line_end src). intros E. destruct (line_end src <? 0) eqn:El; [split_if_in E; simplify_eq; done |].
    assert (data = [] /\ n = line_end src + 1) as [-> ->]; [| change (zlen (@nil Z)) with 0; split; [lia | done]].
    case_bool_decide; cbv zeta in E; [| destruct (parseChunkSizeLine _); simplify_eq; done].
    destruct (chunkedFramingLineMax <? _); [done |]. destruct (_ && _); [simplify_eq; done |]. destruct (splitTrailerLine _ _ _) as [[? ?] |]; simplify_eq; done. }
  destruct (cd_state d) eqn:Est; try exact Hline; intros E.
  - simplify_eq. split; [rewrite zlen_take; lia |]. unfold done. simpl. by destruct (_ =? 0).
  - split_if_in E; [simplify_eq; done |]. split_if_in E; simplify_eq; done.
  - by simplify_eq.
Qed.

Lemma complete_decodes fuel : forall d d2 buf pos cs e rs dst k, asyncLoop fuel d buf pos cs = Some (e, 1, rs) -> decoder_inv d -> same_framing d d2 ->
  done d = false -> 0 <= pos <= zlen buf -> (length (zslice buf pos e) <= k)%nat ->
  exists body ts, decodeChunkedLoop k d2 dst (zslice buf pos e) = Some (Some (dst ++ body, ts)) /\ pos + zlen body < e.
Proof.
  induction fuel as [| fuel IH]; intros d d2 buf pos cs e rs dst k E Hi Hs Hd Hp Hk; [done |].
  pose proof (asyncLoop_end _ _ _ _ _ _ _ E Hi Hp) as Hend. cbn [Chunked.asyncLoop] in E.
  destruct (next d (zdrop pos buf)) as [[[n data] | err] d'] eqn:En; [| done]. destruct (n =? 0) eqn:E0; [done |]. cbv zeta in E.
  destruct (next_range _ _ _ _ _ Hi En) as (Hn & Hi' & _). assert (Hz : zlen (zdrop pos buf) = zlen buf - pos) by (apply zlen_drop; lia).
  assert (He : pos + n <= e) by (destruct (done d'); [simplify_eq; lia | apply asyncLoop_end in E; [lia | done | lia]]).
  assert (Hlen : length (zslice buf pos e) = Z.to_nat (e - pos)) by (unfold zslice, ztake, zlen in *; rewrite length_take; lia).
  destruct k as [| k]; [lia |]. cbn [Chunked.decodeChunkedLoop].
  replace (done d2) with false by (unfold done in *; by rewrite <- (proj1 Hs)).
  destruct (next_capture _ _ _ _ _ _ Hs En) as (d2' & En2 & Hs'). apply (next_take _ _ _ _ _ (e - pos)) in En2; [| lia].
  fold (zslice buf pos e) in En2. rewrite En2, E0.
  assert (Hdr : zdrop n (zslice buf pos e) = zslice buf (pos + n) e).
  { unfold zslice, ztake, zdrop. rewrite skipn_firstn_comm, drop_drop. f_equal; [lia |]. f_equal. lia. }
  rewrite Hdr. pose proof (next_data_len _ _ _ _ _ Hi En) as Hdl. destruct (done d') eqn:Ed.
  - simplify_eq. exists data, (cd_trailers d2'). assert (Ed2 : done d2' = true) by (unfold done in *; by rewrite <- (proj1 Hs')).
    assert (Hkk : decodeChunkedLoop k d2' (dst ++ data) (zslice buf (pos + n) (pos + n)) = Some (Some (dst ++ data, cd_trailers d2'))) by (destruct k; cbn [Chunked.decodeChunkedLoop]; by rewrite Ed2).
    split; [done |]. rewrite (proj2 Hdl eq_refl). change (zlen (@nil Z)) with 0. lia.
  - assert (Hkl : (length (zslice buf (pos + n) e) <= k)%nat) by (unfold zslice, ztake, zdrop, zlen in *; rewrite length_take, length_drop in *; lia).
    destruct (IH d' d2' buf (pos + n) _ e rs (dst ++ data) k E Hi' Hs' Ed) as (body & ts & F & Hb); [lia | done |].
    exists (data ++ body), ts. rewrite F, app_assoc. split; [done |]. rewrite zlen_app. lia.
Qed.

End Scan.

(** ** Theorems *)

(** C19: the verdict on a chunked body does not depend on how the bytes
    arrive. Scanning after each received piece, always from the resume point
    the last incomplete scan returned, ends with the same status and the same
    end of the body as one scan of everything received; the scan always
    returns. *)
Theorem chunked_incremental hasAVX2 avx2 header p pieces :
  exists bodyEnd status resume,
    asyncChunkedComplete hasAVX2 avx2 (header ++ concat (p :: pieces)) (zlen header) = Some (bodyEnd, status, resume) /\
    scanPieces hasAVX2 avx2 header (zlen header) (p :: pieces) = Some (bodyEnd, status).
Proof. apply scanPieces_whole. pose proof (zlen_nonneg header). lia. Qed.

(** A body the scan calls complete always decodes. The decoder run on
    exactly the bytes up to the end the scan found succeeds, appends to the
    bytes already in the destination, and the body is shorter than its
    framing. *)
Theorem chunked_complete_decodes hasAVX2 avx2 buf pos bodyEnd resume dst :
  0 <= pos <= zlen buf -> asyncChunkedComplete hasAVX2 avx2 buf pos = Some (bodyEnd, 1, resume) ->
  pos < bodyEnd <= zlen buf /\
  exists body trailers, decodeChunkedInto hasAVX2 avx2 dst (zslice buf pos bodyEnd) = Some (Some (dst ++ body, trailers)) /\
    zlen body < bodyEnd - pos.
Proof.
  intros Hp E. assert (Hi : decoder_inv (newChunkedDecoder false)) by done.
  split; [exact (asyncLoop_end _ _ _ _ _ _ _ _ _ E Hi Hp) |].
  destruct (complete_decodes hasAVX2 avx2 _ _ (newChunkedDecoder true) buf pos pos bodyEnd resume dst (S (length (zslice buf pos bodyEnd))) E Hi) as (body & ts & F & Hb);
    [done | done | done | lia |]. exists body, ts. split; [exact F | lia].
Qed.

(** [4;x=y CRLF Wiki CRLF 0 CRLF A: b CRLF CRLF], then a pipelined byte. *)
Definition demo_chunked : bytes :=
  [52; 59; 120; 61; 121; 13; 10; 87; 105; 107; 105; 13; 10; 48; 13; 10; 65; 58; 32; 98; 13; 10; 13; 10; 71].

Lemma chunked_complete_decodes_witness :
  asyncChunkedComplete false (fun _ => (0, 0)) demo_chunked 0 = Some (24, 1, 24) /\
  exists body trailers, decodeChunkedInto false (fun _ => (0, 0)) [7] (zslice demo_chunked 0 24) = Some (Some ([7] ++ body, trailers)) /\
    zlen body < 24 - 0 /\ [7] ++ body = [7; 87; 105; 107; 105] /\ trailers = [([65], [98])].
Proof.
  assert (Hp : 0 <= 0 <= zlen demo_chunked) by (vm_compute; split; discriminate).
  assert (E : asyncChunkedComplete false (fun _ => (0, 0)) demo_chunked 0 = Some (24, 1, 24)) by (vm_compute; reflexivity).
  split; [exact E |]. destruct (chunked_complete_decodes false (fun _ => (0, 0)) demo_chunked 0 24 24 [7] Hp E) as (_ & body & ts & F & Hb).
  exists body, ts. split; [exact F |]. split; [exact Hb |]. vm_compute in F. injection F as <- <-. split; reflexivity.
Defined.
