(* ===== verification/ChunkedRoundtrip.v ===== *)
(** What the chunk writer writes is read back: bodies split into any chunks,
    with trailers. The assembly scan is assumed to return what the portable
    scan returns, as the repository's tests compare the two. *)
From stdpp Require Import base list numbers strings.
From Stdlib Require Import ZArith Lia ZifyBool.
From S2P Require Import Prelude Utils H1Scan Chunked ChunkedProofs.

Open Scope list_scope.
Open Scope Z_scope.

(** ** Lines *)

Lemma indexByteLoop_absent a c : Forall (fun x => x <> c) a -> indexByteLoop a c 0 = -1.
Proof.
  induction 1 as [| x a Hx _ IH]; [done |]. cbn [indexByteLoop]. replace (x =? c) with false by lia. rewrite indexByteLoop_shift, IH. done.
Qed.

(** The line ends at the newline when it is short enough. *)
Lemma line_end_at a rest : Forall (fun x => x <> 10) a -> zlen a < chunkedFramingLineMax -> line_end (a ++ 10 :: rest) = zlen a.
Proof.
  intros Ha Hl. pose proof (zlen_nonneg a). pose proof (zlen_nonneg rest). change (a ++ 10 :: rest) with (a ++ [10] ++ rest). rewrite app_assoc.
  assert (E : line_end (a ++ [10]) = zlen a).
  { unfold line_end, indexByteFrom, chunkedFramingLineMax in *. rewrite zdrop_0, ztake_ge by (rewrite zlen_snoc; lia).
    rewrite indexByteLoop_app, (indexByteLoop_absent a) by done. simpl. lia. }
  rewrite <- E. apply (proj1 (line_end_app (a ++ [10]) rest)). lia.
Qed.

Lemma hexDigits_all s rest : forallb hexValid s = true -> (match rest with c :: _ => hexValid c = false | [] => True end) ->
  hexDigits (s ++ rest) = zlen s.
Proof.
  intros Hs Hr. induction s as [| c s IH]; cbn [app hexDigits].
  - change (zlen (@nil Z)) with 0. destruct rest as [| c rest]; [done |]. cbn [hexDigits]. by rewrite Hr.
  - cbn [forallb] in Hs. apply andb_true_iff in Hs as [-> Hs]. rewrite IH, zlen_cons by done. done.
Qed.

Lemma zget_last (s : bytes) c : znth (s ++ [c]) (zlen (s ++ [c]) - 1) = c.
Proof. rewrite zlen_snoc. unfold znth, zlen. rewrite nth_lookup, lookup_app_r by lia. replace (Z.to_nat _ - length s)%nat with 0%nat by lia. done. Qed.

(** The size line the writer writes. *)
Lemma parse_size_line s size : spells hexValid hexLookup 16 s size -> 1 <= zlen s -> 0 <= size <= maxParsedLength ->
  parseChunkSizeLine (s ++ [13]) = Some size.
Proof.
  intros [Hv Hh] Hl Hs. unfold parseChunkSizeLine. rewrite zget_last. rewrite zlen_snoc. replace (zlen s + 1 =? 0) with false by lia.
  change (13 =? 13) with true. cbn [negb orb]. replace (zlen s + 1 - 1) with (zlen s) by lia. rewrite ztake_app_exact. cbv zeta.
  pose proof (hexDigits_all s [] Hv I) as Hd. rewrite app_nil_r in Hd. rewrite Hd, ztake_ge by lia.
  rewrite parse_hex_spec, Hv, Hh. replace (0 <? zlen s) with true by lia. replace (size <=? maxParsedLength) with true by lia. cbn [andb].
  rewrite zdrop_all by lia. done.
Qed.

Section Decode.

Context (hasAVX2 : bool) (avx2 : bytes -> Z * Z).
Hypothesis avx2_portable : forall p, bytes_ok p -> avx2ScanMinLen <= zlen p -> avx2 p = h1HeaderLineSWAR p.

#[local] Abbreviation next := (next hasAVX2 avx2).
#[local] Abbreviation decodeChunkedLoop := (decodeChunkedLoop hasAVX2 avx2).

(** ** Runs of the decoder *)

(** What the decoder makes of the front of [src]: the body bytes, and the rest. *)
Inductive chunkRun : chunkedDecoder -> bytes -> chunkedDecoder -> bytes -> bytes -> Prop :=
| run_stop d src : chunkRun d src d [] src
| run_step d src n data d1 d2 more rest : done d = false -> next d src = (Ok (n, data), d1) -> n <> 0 -> chunkRun d1 (zdrop n src) d2 more rest -> chunkRun d src d2 (data ++ more) rest.

Definition decodes (d : chunkedDecoder) (dst src : bytes) (r : bytes * list (bytes * bytes) * bytes) : Prop :=
  exists d' data, chunkRun d src d' data r.2 /\ done d' = true /\ r.1 = (dst ++ data, cd_trailers d').

Lemma run_loop d src d' data rest : chunkRun d src d' data rest -> done d' = true -> forall dst, exists fuel, decodeChunkedLoop fuel d dst src = Some (Some (dst ++ data, cd_trailers d')).
Proof.
  induction 1 as [d src | d src n data d1 d2 more rest Hd E Hn _ IH]; intros Hdone dst; [exists 0%nat; cbn [Chunked.decodeChunkedLoop]; by rewrite Hdone, app_nil_r |].
  destruct (IH Hdone (dst ++ data)) as [f Ef]. exists (S f). cbn [Chunked.decodeChunkedLoop]. rewrite Hd, E. replace (n =? 0) with false by lia. by rewrite Ef, <- app_assoc.
Qed.

Lemma decodeLoop_fuel f f' d dst src r : decodeChunkedLoop f d dst src = Some r -> (f <= f')%nat -> decodeChunkedLoop f' d dst src = Some r.
Proof.
  revert f' d dst src. induction f as [| f IH]; intros f' d dst src E Hf; destruct f' as [| f']; try lia; cbn [Chunked.decodeChunkedLoop] in *; try done.
  - destruct (done d); done.
  - destruct (done d); [done |]. destruct (next d src) as [[[n data] | e] d']; [| done]. destruct (n =? 0); [done |]. apply IH; [done | lia].
Qed.

Lemma decodeLoop_total f d dst src : decoder_inv d -> (length src < f)%nat -> exists r, decodeChunkedLoop f d dst src = Some r.
Proof.
  revert d dst src. induction f as [| f IH]; intros d dst src Hi Hf; [lia |]. cbn [Chunked.decodeChunkedLoop]. destruct (done d); [by eexists |].
  destruct (next d src) as [[[n data] | e] d'] eqn:E; [| by eexists]. destruct (next_range _ _ _ _ _ _ _ Hi E) as (Hn & Hi' & _).
  destruct (n =? 0) eqn:E0; [by eexists |]. apply IH; [done |]. unfold zdrop, zlen in *. rewrite length_drop. lia.
Qed.

Lemma decodes_into dst src r : decodes (newChunkedDecoder true) dst src r -> decodeChunkedInto hasAVX2 avx2 dst src = Some (Some r.1).
Proof.
  intros (d' & data & Hrun & Hdone & ->). destruct (run_loop _ _ _ _ _ Hrun Hdone dst) as [f E]. unfold decodeChunkedInto. destruct (decodeLoop_total (S (length src)) (newChunkedDecoder true) dst src) as [r' E']; [done | lia |].
  rewrite E'. apply (decodeLoop_fuel _ (f + S (length src))) in E; [| lia]. apply (decodeLoop_fuel _ (f + S (length src))) in E'; [| lia]. congruence.
Qed.

Lemma decodes_step d dst src n data d' r : done d = false -> next d src = (Ok (n, data), d') -> n <> 0 ->
  decodes d' (dst ++ data) (zdrop n src) r -> decodes d dst src r.
Proof.
  intros Hd E Hn (d2 & more & Hrun & Hdone & Hr). exists d2, (data ++ more). split; [by eapply run_step |]. split; [done |]. by rewrite Hr, <- app_assoc.
Qed.

(** ** A chunk *)

Definition at_size (ts : list (bytes * bytes)) : chunkedDecoder :=
  {| cd_state := chunkedAwaitSize; captureTrailers := true; cd_left := 0; trailerBytes := 0; cd_trailers := ts |}.

Lemma hex_not_newline s : forallb hexValid s = true -> Forall (fun x => x <> 10) (s ++ [13]).
Proof.
  intros H. apply Forall_app. split; [| by repeat constructor]. apply Forall_forall. intros x Hx ->. rewrite forallb_forall in H.
  apply list_elem_of_In, H in Hx. done.
Qed.

Lemma next_size_line d s size rest : cd_state d = chunkedAwaitSize -> spells hexValid hexLookup 16 s size -> 1 <= zlen s <= 16 -> 0 <= size <= maxParsedLength ->
  next d (s ++ [13; 10] ++ rest) =
    (Ok (zlen s + 2, []), if size =? 0 then set_state d chunkedInTrailer (cd_left d) else set_state d chunkedInData size).
Proof.
  intros Hst Hs Hl Hsz. unfold next, Chunked.next. rewrite Hst. unfold nextLine. fold (line_end (s ++ [13; 10] ++ rest)).
  replace (s ++ [13; 10] ++ rest) with ((s ++ [13]) ++ 10 :: rest) by (by rewrite <- app_assoc).
  rewrite line_end_at by (apply hex_not_newline, Hs || (rewrite zlen_snoc; unfold chunkedFramingLineMax; lia)).
  replace (zlen (s ++ [13]) <? 0) with false by (rewrite zlen_snoc; lia). rewrite Hst, bool_decide_false by done.
  rewrite ztake_app_exact, (parse_size_line s size) by (done || lia). rewrite zlen_snoc. by replace (zlen s + 1 + 1) with (zlen s + 2) by lia.
Qed.

Lemma decodes_chunk dst data rest ts r : 0 < zlen data <= maxParsedLength ->
  decodes (at_size ts) (dst ++ data) rest r -> decodes (at_size ts) dst (appendH1Chunk [] data ++ rest) r.
Proof.
  intros Hd Hr. change maxParsedLength with (2 ^ 50) in Hd. destruct (appendHex_spells [] (zlen data)) as (s & Es & Hs & Hl & _); [lia |]. unfold appendH1Chunk. rewrite Es. cbn [app].
  replace ((s ++ 13 :: 10 :: data ++ [13; 10]) ++ rest) with (s ++ [13; 10] ++ (data ++ 13 :: 10 :: rest)) by (by rewrite <- !app_assoc; cbn [app]; rewrite <- app_assoc).
  eapply (decodes_step (at_size ts)); [done | apply (next_size_line _ s (zlen data)); [done | done | done | change maxParsedLength with (2 ^ 50); lia] | lia |].
  replace (zlen data =? 0) with false by lia. rewrite app_nil_r.
  replace (zdrop (zlen s + 2) _) with (data ++ 13 :: 10 :: rest) by (replace (zlen s + 2) with (zlen (s ++ [13; 10])) by (by rewrite zlen_app); rewrite app_assoc; by rewrite zdrop_app_exact).
  pose proof (zlen_nonneg rest). eapply (decodes_step (set_state (at_size ts) chunkedInData (zlen data))); [done | unfold next, Chunked.next; cbn [cd_state set_state cd_left]; reflexivity | |].
  { rewrite zlen_app, !zlen_cons. lia. }
  replace (Z.min (zlen (data ++ 13 :: 10 :: rest)) (zlen data)) with (zlen data) by (rewrite zlen_app, !zlen_cons; lia).
  rewrite Z.sub_diag, zdrop_app_exact, ztake_app_exact. cbn [Z.eqb].
  eapply (decodes_step _ _ _ 2 []); [done | unfold next, Chunked.next; cbn [cd_state set_state cd_left]; rewrite !zlen_cons; replace (1 + (1 + zlen rest) <? 2) with false by lia; reflexivity | done |].
  by rewrite app_nil_r.
Qed.

(** ** Trailers *)

Definition trailer_line (f : bytes * bytes) : bytes := fst f ++ 58 :: 32 :: snd f ++ [13; 10].
Definition trailer_ok (f : bytes * bytes) : Prop :=
  fst f <> [] /\ forallb h1TokenChar (fst f) = true /\ bytes_ok (fst f) /\ bytes_ok (snd f) /\
  forallb (fun c => negb (isH1Special c)) (snd f) = true /\ trimOWS (snd f) = snd f.

Lemma zlen_trailer_line f : zlen (trailer_line f) = zlen (fst f) + zlen (snd f) + 4.
Proof. unfold trailer_line. rewrite zlen_app, !zlen_cons, zlen_app. change (zlen [13; 10]) with 2. lia. Qed.

Lemma nonToken_at n rest i : forallb h1TokenChar n = true -> nonTokenLoop (n ++ 58 :: rest) i = i + zlen n.
Proof.
  revert i. induction n as [| c n IH]; intros i H; cbn [app nonTokenLoop].
  - change (h1TokenChar 58) with false. change (zlen (@nil Z)) with 0. cbn [negb]. lia.
  - cbn [forallb] in H. apply andb_true_iff in H as [-> H]. cbn [negb]. rewrite IH, zlen_cons by done. lia.
Qed.

Lemma scan_value v i : forallb (fun c => negb (isH1Special c)) v = true -> scanTail (v ++ [13; 10]) i = i + zlen v.
Proof.
  revert i. induction v as [| c v IH]; intros i H; cbn [app scanTail].
  - change (isH1Special 13) with true. change (zlen (@nil Z)) with 0. cbv iota. lia.
  - cbn [forallb] in H. apply andb_true_iff in H as [H1 H]. destruct (isH1Special c); [done |]. rewrite IH, zlen_cons by done. lia.
Qed.

Lemma trailer_line_ok f : trailer_ok f -> bytes_ok (trailer_line f).
Proof.
  intros (_ & _ & Hn & Hv & _). unfold trailer_line, bytes_ok in *. apply Forall_app. split; [done |].
  repeat (constructor; [unfold is_u8; lia |]). apply Forall_app. split; [done |]. repeat (constructor; [unfold is_u8; lia |]). constructor.
Qed.

(** The scan of a trailer line, by either routine. *)
Lemma scan_trailer f : trailer_ok f -> h1HeaderLineSpecials hasAVX2 avx2 (trailer_line f) = (zlen (trailer_line f) - 2, zlen (fst f)).
Proof.
  intros Hf. assert (E : h1HeaderLineSpecials hasAVX2 avx2 (trailer_line f) = h1HeaderLineSWAR (trailer_line f)).
  { unfold h1HeaderLineSpecials. destruct (hasAVX2 && _) eqn:Ea; [| done]. apply avx2_portable; [by apply trailer_line_ok | lia]. }
  rewrite E, zlen_trailer_line. destruct Hf as (Hne & Ht & Hn & Hv & Hs & _). unfold h1HeaderLineSWAR, firstNonTokenByte, trailer_line.
  rewrite nonToken_at, Z.add_0_l by done. pose proof (zlen_nonneg (fst f)). replace (zlen (fst f) <? 0) with false by lia. rewrite zdrop_app_exact.
  assert (Hr : firstH1SpecialSWAR (58 :: 32 :: snd f ++ [13; 10]) = 2 + zlen (snd f)).
  { unfold firstH1SpecialSWAR. rewrite swarLoop_spec.
    - cbn [scanTail]. change (isH1Special 58) with false. change (isH1Special 32) with false. cbv iota. rewrite scan_value by done. lia.
    - repeat (constructor; [unfold is_u8; lia |]). apply Forall_app. split; [done |]. repeat (constructor; [unfold is_u8; lia |]). constructor. }
  rewrite Hr. pose proof (zlen_nonneg (snd f)). replace (2 + zlen (snd f) <? 0) with false by lia. f_equal. lia.
Qed.

Lemma znth_app_r a b i : zlen a <= i -> znth (a ++ b) i = znth b (i - zlen a).
Proof. intros H. unfold znth, zlen in *. rewrite app_nth2 by lia. f_equal. lia. Qed.

Lemma split_trailer f : trailer_ok f -> splitTrailerLine hasAVX2 avx2 (trailer_line f) = Some f.
Proof.
  intros Hf. unfold splitTrailerLine. rewrite scan_trailer by done. destruct f as [n v]. pose proof (zlen_trailer_line (n, v)) as Hz.
  destruct Hf as (Hne & _ & _ & _ & _ & Htrim). cbn [fst snd] in *. pose proof (zlen_nonneg v). pose proof (zlen_nonneg n).
  assert (Hsplit : trailer_line (n, v) = (n ++ 58 :: 32 :: v) ++ [13; 10]) by (unfold trailer_line; simpl; by rewrite <- app_assoc).
  assert (Hzs : zlen (n ++ 58 :: 32 :: v) = zlen n + zlen v + 2) by (rewrite zlen_app, !zlen_cons; lia).
  unfold classifyFirstSpecial. rewrite Hz. replace (zlen n + zlen v + 4 - 2) with (zlen n + zlen v + 2) by lia.
  replace (zlen n + zlen v + 2 <? 0) with false by lia. unfold classifyH1Special.
  rewrite Hz, Hsplit, !znth_app_r, Hzs by lia. replace (zlen n + zlen v + 2 - (zlen n + zlen v + 2)) with 0 by lia.
  replace (zlen n + zlen v + 2 + 1 - (zlen n + zlen v + 2)) with 1 by lia. change (znth [13; 10] 0 =? 13) with true. change (znth [13; 10] 1 =? 10) with true.
  replace (zlen n + zlen v + 2 + 1 =? zlen n + zlen v + 4) with false by lia. cbv iota. rewrite <- Hsplit, Z.eqb_refl. cbn [negb orb].
  assert (Ht : ztake (zlen n + zlen v + 2) (trailer_line (n, v)) = n ++ 58 :: 32 :: v) by (rewrite Hsplit, <- Hzs; apply ztake_app_exact).
  rewrite Ht. unfold validH1Colon. rewrite Hzs, znth_app_r, Z.sub_diag by lia. change (znth (58 :: 32 :: v) 0 =? 58) with true.
  assert (0 < zlen n) by (destruct n as [| c n]; [done | rewrite zlen_cons; pose proof (zlen_nonneg n); lia]).
  replace (0 <? zlen n) with true by lia. replace (zlen n <? zlen n + zlen v + 2) with true by lia. cbn [negb andb].
  unfold trailer_line. cbn [fst snd]. rewrite ztake_app_exact. f_equal. f_equal.
  unfold zslice. replace (zlen n + 1) with (zlen (n ++ [58])) by (by rewrite zlen_snoc). change (n ++ 58 :: 32 :: v ++ [13; 10]) with (n ++ [58] ++ ((32 :: v) ++ [13; 10])).
  rewrite app_assoc, zdrop_app_exact, zlen_snoc. replace (zlen n + zlen v + 2 - (zlen n + 1)) with (zlen (32 :: v)) by (rewrite zlen_cons; lia).
  rewrite ztake_app_exact. exact Htrim.
Qed.

Definition in_trailer (k : Z) (ts : list (bytes * bytes)) : chunkedDecoder :=
  {| cd_state := chunkedInTrailer; captureTrailers := true; cd_left := 0; trailerBytes := k; cd_trailers := ts |}.

Lemma token_not_control c : h1TokenChar c = true -> c <> 10 /\ c <> 13.
Proof. split; intros ->; done. Qed.

Lemma trailer_no_newline f : trailer_ok f -> Forall (fun x => x <> 10) (fst f ++ 58 :: 32 :: snd f ++ [13]).
Proof.
  intros (_ & Ht & _ & _ & Hs & _). rewrite forallb_forall in Ht, Hs. apply Forall_app. split.
  - apply Forall_forall. intros x Hx. by apply token_not_control, Ht, list_elem_of_In.
  - repeat (constructor; [done |]). apply Forall_app. split; [| by repeat constructor]. apply Forall_forall. intros x Hx ->. by apply list_elem_of_In, Hs in Hx.
Qed.

Lemma decodes_trailer dst f rest k ts r : trailer_ok f -> 0 <= k -> k + zlen (trailer_line f) <= chunkedFramingLineMax ->
  decodes (in_trailer (k + zlen (trailer_line f)) (appendTrailerField ts (fst f) (snd f))) dst rest r ->
  decodes (in_trailer k ts) dst (trailer_line f ++ rest) r.
Proof.
  intros Hf Hk Hl Hr. pose proof (zlen_trailer_line f) as Hz. pose proof (zlen_nonneg (fst f)). pose proof (zlen_nonneg (snd f)).
  apply (decodes_step _ _ _ (zlen (trailer_line f)) [] (in_trailer (k + zlen (trailer_line f)) (appendTrailerField ts (fst f) (snd f)))); [done | | lia | by rewrite app_nil_r, zdrop_app_exact].
  unfold next, Chunked.next. cbn [in_trailer cd_state]. unfold nextLine. fold (line_end (trailer_line f ++ rest)).
  assert (El : line_end (trailer_line f ++ rest) = zlen (trailer_line f) - 1).
  { replace (trailer_line f ++ rest) with ((fst f ++ 58 :: 32 :: snd f ++ [13]) ++ 10 :: rest) by (unfold trailer_line; rewrite <- !app_assoc; simpl; by rewrite <- !app_assoc).
    rewrite line_end_at; [| by apply trailer_no_newline |]; rewrite !zlen_app, !zlen_cons, zlen_snoc; lia. }
  rewrite El. replace (zlen (trailer_line f) - 1 <? 0) with false by lia. rewrite bool_decide_true by done. cbv zeta. cbn [set_trailers trailerBytes captureTrailers cd_trailers in_trailer].
  replace (zlen (trailer_line f) - 1 + 1) with (zlen (trailer_line f)) by lia. replace (chunkedFramingLineMax <? _) with false by lia.
  replace (_ && _) with false by lia. rewrite ztake_app_exact, split_trailer by done. by destruct f.
Qed.

Lemma decodes_end dst rest k ts : 0 <= k -> k + 2 <= chunkedFramingLineMax -> decodes (in_trailer k ts) dst ([13; 10] ++ rest) (dst, ts, rest).
Proof.
  intros Hk Hl. apply (decodes_step _ _ _ 2 [] (set_state (in_trailer (k + 2) ts) chunkedDone 0)); [done | | done | eexists _, []; split; [apply run_stop | by rewrite !app_nil_r]].
  unfold next, Chunked.next. cbn [in_trailer cd_state]. unfold nextLine. fold (line_end ([13; 10] ++ rest)).
  assert (El : line_end ([13; 10] ++ rest) = 1) by (apply (line_end_at [13] rest); [by repeat constructor | done]).
  rewrite El. rewrite bool_decide_true by done. cbv zeta. cbn [set_trailers trailerBytes captureTrailers cd_trailers in_trailer app]. change (1 <? 0) with false. cbv iota.
  replace (chunkedFramingLineMax <? k + (1 + 1)) with false by lia. done.
Qed.

Definition trailers_size (fs : list (bytes * bytes)) : Z := zlen (concat (map trailer_line fs)).

Lemma decodes_trailers dst fs rest k ts : Forall trailer_ok fs -> 0 <= k -> k + trailers_size fs + 2 <= chunkedFramingLineMax ->
  decodes (in_trailer k ts) dst (concat (map trailer_line fs) ++ [13; 10] ++ rest) (dst, foldl (fun ts f => appendTrailerField ts (fst f) (snd f)) ts fs, rest).
Proof.
  intros Hfs. revert k ts. induction Hfs as [| f fs Hf _ IH]; intros k ts Hk Hl.
  - apply decodes_end; [done |]. change (trailers_size []) with 0 in Hl. lia.
  - cbn [map concat foldl]. rewrite <- app_assoc. unfold trailers_size in *. cbn [map concat] in Hl. rewrite zlen_app in Hl.
    pose proof (zlen_nonneg (concat (map trailer_line fs))). pose proof (zlen_nonneg (trailer_line f)).
    apply decodes_trailer; [done | done | lia |]. apply IH; lia.
Qed.

(** The last chunk, the trailers and the empty line. *)
Definition last_chunk (fs : list (bytes * bytes)) : bytes := [48; 13; 10] ++ concat (map trailer_line fs) ++ [13; 10].

Lemma decodes_last dst fs rest : Forall trailer_ok fs -> trailers_size fs + 2 <= chunkedFramingLineMax ->
  decodes (at_size []) dst (last_chunk fs ++ rest) (dst, foldl (fun ts f => appendTrailerField ts (fst f) (snd f)) [] fs, rest).
Proof.
  intros Hfs Hl. apply (decodes_step _ _ _ 3 [] (in_trailer 0 [])); [done | | done |].
  - unfold last_chunk. rewrite <- app_assoc. apply (next_size_line (at_size []) [48] 0 ((concat (map trailer_line fs) ++ [13; 10]) ++ rest)); [done | done | done | change maxParsedLength with (2 ^ 50); lia].
  - rewrite app_nil_r. replace (zdrop 3 (last_chunk fs ++ rest)) with (concat (map trailer_line fs) ++ [13; 10] ++ rest) by (unfold last_chunk; by rewrite <- !app_assoc).
    apply decodes_trailers; [done | lia | lia].
Qed.

Lemma decodes_chunks datas dst fs rest : Forall (fun data => 0 < zlen data <= maxParsedLength) datas -> Forall trailer_ok fs ->
  trailers_size fs + 2 <= chunkedFramingLineMax ->
  decodes (at_size []) dst (concat (map (appendH1Chunk []) datas) ++ last_chunk fs ++ rest)
    (dst ++ concat datas, foldl (fun ts f => appendTrailerField ts (fst f) (snd f)) [] fs, rest).
Proof.
  intros Hd Hfs Hl. revert dst. induction Hd as [| data datas Hdata _ IH]; intros dst; cbn [map concat].
  - rewrite app_nil_r. by apply decodes_last.
  - rewrite <- app_assoc. apply decodes_chunk; [done |]. rewrite (app_assoc dst). apply IH.
Qed.

End Decode.

Lemma appendH1Chunk_foldl datas buf : foldl appendH1Chunk buf datas = buf ++ concat (map (appendH1Chunk []) datas).
Proof.
  revert buf. induction datas as [| data datas IH]; intros buf; [by rewrite app_nil_r |]. cbn [foldl map concat]. rewrite IH.
  unfold appendH1Chunk. by rewrite <- !app_assoc.
Qed.

(** Chunked bodies round-trip. For any non-empty chunks of at most 2^50
    bytes, what the chunk writer writes, followed by a last chunk with
    well-formed trailers of at most 4096 bytes (without trailers it is the
    constant [h1LastChunk]) and by whatever the next request is, decodes to
    the concatenation of the chunks and to the trailers except those a trailer
    must not carry. *)
Theorem chunked_roundtrip hasAVX2 avx2 dst datas fs rest :
  (forall p, bytes_ok p -> avx2ScanMinLen <= zlen p -> avx2 p = h1HeaderLineSWAR p) ->
  Forall (fun data => 0 < zlen data <= maxParsedLength) datas -> Forall trailer_ok fs -> trailers_size fs + 2 <= chunkedFramingLineMax ->
  last_chunk [] = h1LastChunk /\
  decodeChunkedInto hasAVX2 avx2 dst (foldl appendH1Chunk [] datas ++ last_chunk fs ++ rest)
  = Some (Some (dst ++ concat datas, foldl (fun ts f => appendTrailerField ts (fst f) (snd f)) [] fs)).
Proof.
  intros Havx Hd Hfs Hl. split; [done |]. rewrite appendH1Chunk_foldl. by apply (decodes_into _ _ _ _ (_, rest)), decodes_chunks.
Qed.

Definition demo_trailers : list (bytes * bytes) := [([88], [49; 32; 50]); (str "Host", [97])].

Lemma chunked_roundtrip_witness :
  decodeChunkedInto true h1HeaderLineSWAR [] (foldl appendH1Chunk [] [[1; 2; 3]; replicate 20 7] ++ last_chunk demo_trailers ++ [71])
  = Some (Some ([1; 2; 3] ++ replicate 20 7, [([88], [49; 32; 50])])).
Proof.
  assert (Hd : Forall (fun data => 0 < zlen data <= maxParsedLength) [[1; 2; 3]; replicate 20 7]) by (repeat constructor; vm_compute; done).
  assert (Hf : Forall trailer_ok demo_trailers).
  { constructor; [| constructor; [| constructor]]; (split; [done |]); repeat split; try (vm_compute; reflexivity); repeat constructor; vm_compute; done. }
  assert (Hl : trailers_size demo_trailers + 2 <= chunkedFramingLineMax) by (vm_compute; discriminate).
  assert (Ha : forall p, bytes_ok p -> avx2ScanMinLen <= zlen p -> h1HeaderLineSWAR p = h1HeaderLineSWAR p) by (intros; reflexivity).
  exact (proj2 (chunked_roundtrip true h1HeaderLineSWAR [] [[1; 2; 3]; replicate 20 7] demo_trailers [71] Ha Hd Hf Hl)).
Defined.
