(* ===== verification/HpackRequest.v ===== *)
(** Requests out of HPACK header blocks (src/core/hpack.go): the checks on every
    field, the meaning of the pseudo-header fields, the decoder with its short cut
    for simple GET requests, the limit on the header list and the memo of the last
    block, and the trailers of a request (src/core/trailers.go). *)
From stdpp Require Import base list numbers strings.
From Stdlib Require Import ZArith Lia ZifyBool.
From S2P Require Import Prelude Utils H1Scan HttpText HpackInt Huffman HpackTable HpackDyn Hpack Chunked.

Open Scope list_scope.
Open Scope Z_scope.

(** ** Fields *)

Definition h2FieldNameValid (c : Z) : bool := (0x21 <=? c) && (c <? 0x7f) && negb (c =? 58) && negb ((65 <=? c) && (c <=? 90)).

Definition isValidH2FieldName (name : bytes) : bool :=
  match name with
  | [] => false
  | c :: rest => if c =? 58 then negb (zlen rest =? 0) && forallb h2FieldNameValid rest else forallb h2FieldNameValid name
  end.

Definition isBlank (c : Z) : bool := (c =? 32) || (c =? 9).
Definition isValidH2FieldValue (value : bytes) : bool :=
  if (0 <? zlen value) && (isBlank (znth value 0) || isBlank (znth value (zlen value - 1))) then false
  else negb (containsLineBreak value lineBreakCRLFNUL).

Definition isH2Method (value : bytes) : bool := bytes_eqb value (str "GET") || isH1Token value.

Definition isH2ConnectionSpecificField (name value : bytes) : bool :=
  if existsb (bytes_eqb name) [str "connection"; str "proxy-connection"; str "keep-alive"; str "transfer-encoding"; str "upgrade"] then true
  else if bytes_eqb name (str "te") then negb (EqualFoldASCII value (str "trailers"))
  else false.

(** ** The request *)

Record hpackRequestMeta := mkMeta {
  m_method : bytes;
  m_path : bytes;
  m_rawPath : bytes;
  m_query : bytes;
  m_scheme : bytes;
  m_authority : bytes;
  m_headerCount : Z;
  m_contentLength : Z;
  m_pseudoMask : Z;
  m_sawRegular : bool;
  m_hasContentLength : bool;
  m_allowProtocol : bool;
  m_protocolSet : bool;
  m_protocolWebSocket : bool }.

Definition newMeta (allow : bool) : hpackRequestMeta := mkMeta [] [] [] [] [] [] 0 0 0 false false allow false false.
Definition set_method (m : hpackRequestMeta) (mask : Z) (v : bytes) : hpackRequestMeta :=
  mkMeta v (m_path m) (m_rawPath m) (m_query m) (m_scheme m) (m_authority m) (m_headerCount m) (m_contentLength m) mask (m_sawRegular m) (m_hasContentLength m) (m_allowProtocol m) (m_protocolSet m) (m_protocolWebSocket m).
Definition set_path (m : hpackRequestMeta) (mask : Z) (path raw query : bytes) : hpackRequestMeta :=
  mkMeta (m_method m) path raw query (m_scheme m) (m_authority m) (m_headerCount m) (m_contentLength m) mask (m_sawRegular m) (m_hasContentLength m) (m_allowProtocol m) (m_protocolSet m) (m_protocolWebSocket m).
Definition set_scheme (m : hpackRequestMeta) (mask : Z) (v : bytes) : hpackRequestMeta :=
  mkMeta (m_method m) (m_path m) (m_rawPath m) (m_query m) v (m_authority m) (m_headerCount m) (m_contentLength m) mask (m_sawRegular m) (m_hasContentLength m) (m_allowProtocol m) (m_protocolSet m) (m_protocolWebSocket m).
Definition set_authority (m : hpackRequestMeta) (mask : Z) (v : bytes) : hpackRequestMeta :=
  mkMeta (m_method m) (m_path m) (m_rawPath m) (m_query m) (m_scheme m) v (m_headerCount m) (m_contentLength m) mask (m_sawRegular m) (m_hasContentLength m) (m_allowProtocol m) (m_protocolSet m) (m_protocolWebSocket m).
Definition set_protocol (m : hpackRequestMeta) (mask : Z) (isSet ws : bool) : hpackRequestMeta :=
  mkMeta (m_method m) (m_path m) (m_rawPath m) (m_query m) (m_scheme m) (m_authority m) (m_headerCount m) (m_contentLength m) mask (m_sawRegular m) (m_hasContentLength m) (m_allowProtocol m) isSet ws.
Definition set_regular (m : hpackRequestMeta) : hpackRequestMeta :=
  mkMeta (m_method m) (m_path m) (m_rawPath m) (m_query m) (m_scheme m) (m_authority m) (m_headerCount m) (m_contentLength m) (m_pseudoMask m) true (m_hasContentLength m) (m_allowProtocol m) (m_protocolSet m) (m_protocolWebSocket m).
Definition set_length (m : hpackRequestMeta) (n : Z) : hpackRequestMeta :=
  mkMeta (m_method m) (m_path m) (m_rawPath m) (m_query m) (m_scheme m) (m_authority m) (m_headerCount m) n (m_pseudoMask m) (m_sawRegular m) true (m_allowProtocol m) (m_protocolSet m) (m_protocolWebSocket m).
Definition count_header (m : hpackRequestMeta) : hpackRequestMeta :=
  mkMeta (m_method m) (m_path m) (m_rawPath m) (m_query m) (m_scheme m) (m_authority m) (m_headerCount m + 1) (m_contentLength m) (m_pseudoMask m) (m_sawRegular m) (m_hasContentLength m) (m_allowProtocol m) (m_protocolSet m) (m_protocolWebSocket m).

Definition declaredLength (m : hpackRequestMeta) : Z := if m_hasContentLength m then m_contentLength m else -1.

Definition hpackPseudoMethod : Z := 1.
Definition hpackPseudoScheme : Z := 2.
Definition hpackPseudoPath : Z := 4.
Definition hpackPseudoAuthority : Z := 8.
Definition hpackPseudoProtocol : Z := 16.
Definition seen (m : hpackRequestMeta) (bit : Z) : bool := negb (Z.land (m_pseudoMask m) bit =? 0).
Definition mark (m : hpackRequestMeta) (bit : Z) : Z := Z.lor (m_pseudoMask m) bit.

(** [observeHeader]; [None] is [ErrH2BadHeader], its only error. *)
Definition observeHeader (m : hpackRequestMeta) (name value : bytes) : option hpackRequestMeta :=
  if negb (isValidH2FieldName name) then None
  else if znth name 0 =? 58 then
    if m_sawRegular m then None
    else if bytes_eqb name (str ":method") then
      if seen m hpackPseudoMethod || (negb (zlen value =? 0) && negb (isH2Method value)) then None
      else Some (set_method m (mark m hpackPseudoMethod) value)
    else if bytes_eqb name (str ":path") then
      if seen m hpackPseudoPath || negb (isValidH2Path value) then None
      else Some (set_path m (mark m hpackPseudoPath) (if bytes_eqb value [slash] then [slash] else sanitizeRequestPath value) value (splitPathQuery value).2)
    else if negb (isValidH2FieldValue value) then None
    else if bytes_eqb name (str ":scheme") then
      if seen m hpackPseudoScheme then None else Some (set_scheme m (mark m hpackPseudoScheme) value)
    else if bytes_eqb name (str ":authority") then
      if seen m hpackPseudoAuthority then None
      else if negb (ValidateHost value) then None
      else Some (set_authority m (mark m hpackPseudoAuthority) value)
    else if bytes_eqb name (str ":protocol") then
      if negb (m_allowProtocol m) || seen m hpackPseudoProtocol then None
      else Some (set_protocol m (mark m hpackPseudoProtocol) (negb (zlen value =? 0)) (EqualFoldASCII value (str "websocket")))
    else None
  else if negb (isValidH2FieldValue value) then None
  else
    let m := set_regular m in
    if isH2ConnectionSpecificField name value then None
    else if bytes_eqb name (str "content-length") then
      match parseUint value with
      | None => None
      | Some n => if m_hasContentLength m && negb (n =? m_contentLength m) then None else Some (set_length m n)
      end
    else Some m.

Definition pathFormValid (m : hpackRequestMeta) : bool :=
  match m_rawPath m with [] => false | c :: _ => (c =? slash) || (bytes_eqb (m_rawPath m) (str "*") && bytes_eqb (m_method m) (str "OPTIONS")) end.

(** [true] when there is no error; the error is [errH2MalformedRequest]. *)
Definition validateConnect (m : hpackRequestMeta) : bool :=
  if seen m hpackPseudoProtocol then
    bytes_eqb (m_method m) (str "CONNECT") && m_protocolSet m && negb (zlen (m_authority m) =? 0) && negb (zlen (m_scheme m) =? 0) && negb (zlen (m_path m) =? 0) &&
    negb (zlen (m_rawPath m) =? 0) && (znth (m_rawPath m) 0 =? slash)
  else negb (zlen (m_authority m) =? 0) && (zlen (m_scheme m) =? 0) && (zlen (m_path m) =? 0).

Definition validate (m : hpackRequestMeta) : bool :=
  if seen m hpackPseudoProtocol || bytes_eqb (m_method m) (str "CONNECT") then validateConnect m
  else negb (zlen (m_method m) =? 0) && negb (zlen (m_scheme m) =? 0) && negb (zlen (m_path m) =? 0) && pathFormValid m.

Inductive requestErr := errHpack (e : hpackErr) | errH2MalformedRequest | errH2HeaderListTooLarge.

Definition h2TrailerFields (fields : list field) : option (list field) :=
  fold_left (fun acc f =>
    match acc with
    | None => None
    | Some trailers =>
        if negb (isValidH2FieldName f.1) || (znth f.1 0 =? 58) || negb (isValidH2FieldValue f.2) || isH2ConnectionSpecificField f.1 f.2 then None
        else Some (appendTrailerField trailers f.1 f.2)
    end) fields (Some []).

(** ** The decoder *)

Section Request.

Context (hpackHashBytes : bytes -> Z).

(** A field that was read: observed, appended, counted, and the limit. *)
Definition takeField (m : hpackRequestMeta) (headers : list field) (f : field) : option (list field * hpackRequestMeta) :=
  match observeHeader m f.1 f.2 with None => None | Some m => Some (headers ++ [f], count_header m) end.
Definition limitFields (d : HpackDecoder) (headers : list field) (m : hpackRequestMeta) (rest : bytes) : res requestErr (list field * hpackRequestMeta * bytes) * HpackDecoder :=
  if maxHeaders <? zlen headers then (Err (errHpack ErrTooManyHeaders), d) else (Ok (headers, m, rest), d).
Definition badHeader (d : HpackDecoder) : res requestErr (list field * hpackRequestMeta * bytes) * HpackDecoder := (Err (errHpack ErrH2BadHeader), d).

(** One turn of the loop of [DecodeIntoRequest]. *)
Definition requestStep (d : HpackDecoder) (m : hpackRequestMeta) (headers : list field) (b : Z) (data : bytes) : res requestErr (list field * hpackRequestMeta * bytes) * HpackDecoder :=
  if negb (Z.land b 0x80 =? 0) then
    let '(idx, n) := HpackDecodeInt data 7 in
    if n <=? 0 then badHeader d
    else
      let '(found, t) := lookupIndex (d_table d) idx in
      let d := with_table d t in
      match found with
      | None => badHeader d
      | Some f => match takeField m headers f with None => badHeader d | Some (headers, m) => limitFields d headers m (zdrop n data) end
      end
  else if negb (Z.land b 0x40 =? 0) then
    let '(r, d) := decodeLiteral hpackHashBytes d 6 data in
    match r with
    | Err e => (Err (errHpack e), d)
    | Ok (name, val, rest) =>
        match takeField m headers (name, val) with
        | None => badHeader d
        | Some (headers, m) => limitFields (with_table d (addEntry (d_table d) name val)) headers m rest
        end
    end
  else if negb (Z.land b 0x20 =? 0) then
    if 0 <? m_headerCount m then (Err (errHpack ErrHpackSizeUpdateAfterField), d)
    else
      let '(maxSize, n) := HpackDecodeInt data 5 in
      if n <=? 0 then badHeader d
      else if u64 (protocolMaxSize (d_table d)) <? maxSize then (Err (errHpack ErrHpackTableSizeExceeded), d)
      else limitFields (with_table d (setMaxSize (d_table d) maxSize)) headers m (zdrop n data)
  else
    let '(r, d) := decodeLiteral hpackHashBytes d 4 data in
    match r with
    | Err e => (Err (errHpack e), d)
    | Ok (name, val, rest) => match takeField m headers (name, val) with None => badHeader d | Some (headers, m) => limitFields d headers m rest end
    end.

Fixpoint requestLoop (fuel : nat) (d : HpackDecoder) (m : hpackRequestMeta) (headers : list field) (data : bytes) : option (res requestErr (list field * hpackRequestMeta) * HpackDecoder) :=
  match data with
  | [] => Some (if validate m then Ok (headers, m) else Err errH2MalformedRequest, d)
  | b :: _ =>
      match fuel with
      | O => None
      | S fuel =>
          match requestStep d m headers b data with
          | (Err e, d) => Some (Err e, d)
          | (Ok (headers, m, rest), d) => requestLoop fuel d m headers rest
          end
      end
  end.

(** [decodeSimpleGetPathHTTPSRequest]; [None] when the block is not of its form. *)
Definition simpleMeta (raw path : bytes) : hpackRequestMeta := mkMeta (str "GET") path raw (splitPathQuery raw).2 (str "https") [] 3 0 0 false false false false false.
Definition decodeSimple (d : HpackDecoder) (data : bytes) : option (res requestErr (list field * hpackRequestMeta)) * HpackDecoder :=
  if (zlen data <? 4) || negb (znth data 0 =? 0x82) || negb (znth data 1 =? 0x04) || negb (znth data (zlen data - 1) =? 0x87) then (None, d)
  else
    let '(raw, n, d) := decodeString hpackHashBytes d (zdrop 2 data) in
    if (n <=? 0) || negb (2 + n + 1 =? zlen data) then (None, d)
    else if negb (isValidH2Path raw) then (Some (Err (errHpack ErrH2BadHeader)), d)
    else
      let path := sanitizeRequestPath raw in
      let m := simpleMeta raw path in
      if validate m then (Some (Ok ([(str ":method", str "GET"); (str ":path", path); (str ":scheme", str "https")], m)), d)
      else (Some (Err errH2MalformedRequest), d).

Definition DecodeIntoRequest (allow : bool) (d : HpackDecoder) (data : bytes) : option (res requestErr (list field * hpackRequestMeta) * HpackDecoder) :=
  let '(r, d) := decodeSimple d data in
  match r with
  | Some r => Some (r, d)
  | None => requestLoop (length data) d (newMeta allow) [] data
  end.

(** ** The limit on the header list *)

Definition hpackHuffmanMaxExpandNum : Z := 8.
Definition hpackHuffmanMaxExpandDen : Z := 5.
Definition hpackStaticFieldMaxSize : Z := foldr (fun f n => Z.max (zlen f.1 + zlen f.2) n) 0 HpackStaticTable + hpackEntryOverhead.
Definition fieldListSize (fields : list field) : Z := foldr (fun f n => zlen f.1 + zlen f.2 + hpackEntryOverhead + n) 0 fields.

Definition fieldListTooLarge (maxHeaderListSize : Z) (t : dynTable) (blockLen : Z) (headers : list field) (indexedRefBytes : Z) : bool :=
  let bound := blockLen * hpackHuffmanMaxExpandNum ÷ hpackHuffmanMaxExpandDen + zlen headers * (hpackStaticFieldMaxSize + dynNameMax t) + indexedRefBytes in
  (maxHeaderListSize <? bound) && (maxHeaderListSize <? fieldListSize headers).

(** ** The memo *)

(** [HpackDecoder] with what a request needs; [memoValid] is with the table. *)
Record requestDecoder := mkRequestDecoder {
  rd_dec : HpackDecoder;
  memoBlock : bytes;
  memoHeaders : list field;
  memoMeta : hpackRequestMeta;
  memoRoot : bool;
  allowExtendedConnect : bool;
  rd_maxHeaderListSize : Z }.

Definition with_rd (rd : requestDecoder) (d : HpackDecoder) : requestDecoder :=
  mkRequestDecoder d (memoBlock rd) (memoHeaders rd) (memoMeta rd) (memoRoot rd) (allowExtendedConnect rd) (rd_maxHeaderListSize rd).

Definition hpackMemoMaxBlock : Z := 512.

Definition MemoizedRootRequest (rd : requestDecoder) (data : bytes) : bool :=
  memoValid (d_table (rd_dec rd)) && memoRoot rd && bytes_eqb data (memoBlock rd).

Definition storeMemo (rd : requestDecoder) (block : bytes) (m : hpackRequestMeta) (isRoot : bool) (headers : list field) : requestDecoder :=
  let t := d_table (rd_dec rd) in
  let t := set_meta t (maxTableSize t) (dynRefBytes t) (dynNameMax t) (tableGen t) true in
  mkRequestDecoder (with_table (rd_dec rd) t) block headers m isRoot (allowExtendedConnect rd) (rd_maxHeaderListSize rd).

Definition isRootRequest (m : hpackRequestMeta) : bool := bytes_eqb (m_method m) (str "GET") && bytes_eqb (m_path m) [slash].

Definition DecodeRequest (rd : requestDecoder) (data : bytes) : option (res requestErr (list field * hpackRequestMeta * bool) * requestDecoder) :=
  if memoValid (d_table (rd_dec rd)) && bytes_eqb data (memoBlock rd) then Some (Ok (memoHeaders rd, memoMeta rd, memoRoot rd), rd)
  else
    let gen := tableGen (d_table (rd_dec rd)) in
    let refStart := dynRefBytes (d_table (rd_dec rd)) in
    match DecodeIntoRequest (allowExtendedConnect rd) (rd_dec rd) data with
    | None => None
    | Some (Err e, d) => Some (Err e, with_rd rd d)
    | Some (Ok (headers, m), d) =>
        let rd := with_rd rd d in
        if fieldListTooLarge (rd_maxHeaderListSize rd) (d_table d) (zlen data) headers (dynRefBytes (d_table d) - refStart) then Some (Err errH2HeaderListTooLarge, rd)
        else
          let isRoot := isRootRequest m in
          Some (Ok (headers, m, isRoot), if (tableGen (d_table d) =? gen) && (zlen data <=? hpackMemoMaxBlock) then storeMemo rd data m isRoot headers else rd)
    end.

(** ** The metadata only *)

(** [decodeStringSelective]: the string, or its length when it is not wanted. *)
Definition hpackSkipString (data : bytes) : option Z :=
  if zlen data =? 0 then None
  else
    let '(sLen, n) := HpackDecodeInt data 7 in
    if (n <=? 0) || (zlen data <? sLen) || (zlen data <? n + sLen) then None else Some (n + sLen).
Definition decodeStringSelective (d : HpackDecoder) (data : bytes) (want : bool) : option (bytes * Z) * HpackDecoder :=
  if zlen data =? 0 then (None, d)
  else if negb want then ((fun n => ([], n)) <$> hpackSkipString data, d)
  else
    let '(s, n, d) := decodeString hpackHashBytes d data in
    if (n <=? 0) || (zlen data <? n) then (None, d) else (Some (s, n), d).

(** The integer and the name of a literal. *)
Definition metaName (d : HpackDecoder) (bits : Z) (data : bytes) : option (bytes * bytes) * HpackDecoder :=
  let '(idx, n) := HpackDecodeInt data bits in
  if n <=? 0 then (None, d)
  else
    let data := zdrop n data in
    if 0 <? idx then ((fun name => (name, data)) <$> lookupName (d_table d) idx, d)
    else
      let '(r, d) := decodeStringSelective d data true in
      match r with None => (None, d) | Some (name, n) => (Some (name, zdrop n data), d) end.

Definition wantValue (name : bytes) : bool := existsb (bytes_eqb name) [str ":method"; str ":path"; str ":scheme"; str ":authority"; str ":protocol"].

Definition metaStep (d : HpackDecoder) (m : hpackRequestMeta) (b : Z) (data : bytes) : res requestErr (hpackRequestMeta * bytes) * HpackDecoder :=
  let bad d := (Err (errHpack ErrH2BadHeader), d) in
  let checked d m rest := (if maxHeaders <? m_headerCount m then Err (errHpack ErrTooManyHeaders) else Ok (m, rest), d) in
  if negb (Z.land b 0x80 =? 0) then
    let '(idx, n) := HpackDecodeInt data 7 in
    if n <=? 0 then bad d
    else
      let '(found, t) := lookupIndex (d_table d) idx in
      let d := with_table d t in
      match found with
      | None => bad d
      | Some (name, value) => match observeHeader m name value with None => bad d | Some m => checked d (count_header m) (zdrop n data) end
      end
  else if negb (Z.land b 0x40 =? 0) then
    let '(r, d) := metaName d 6 data in
    match r with
    | None => bad d
    | Some (name, data) =>
        let '(r, d) := decodeStringSelective d data true in
        match r with
        | None => bad d
        | Some (value, n) =>
            match observeHeader m name value with
            | None => bad d
            | Some m => checked (with_table d (addEntry (d_table d) name value)) (count_header m) (zdrop n data)
            end
        end
    end
  else if negb (Z.land b 0x20 =? 0) then
    if 0 <? m_headerCount m then (Err (errHpack ErrHpackSizeUpdateAfterField), d)
    else
      let '(maxSize, n) := HpackDecodeInt data 5 in
      if n <=? 0 then bad d
      else if u64 (protocolMaxSize (d_table d)) <? maxSize then (Err (errHpack ErrHpackTableSizeExceeded), d)
      else checked (with_table d (setMaxSize (d_table d) maxSize)) m (zdrop n data)
  else
    let '(r, d) := metaName d 4 data in
    match r with
    | None => bad d
    | Some (name, data) =>
        let '(r, d) := decodeStringSelective d data (wantValue name) in
        match r with
        | None => bad d
        | Some (value, n) => match observeHeader m name value with None => bad d | Some m => checked d (count_header m) (zdrop n data) end
        end
    end.

Fixpoint metaLoop (fuel : nat) (d : HpackDecoder) (m : hpackRequestMeta) (data : bytes) : option (res requestErr hpackRequestMeta * HpackDecoder) :=
  match data with
  | [] => Some (if validate m then Ok m else Err errH2MalformedRequest, d)
  | b :: _ =>
      match fuel with
      | O => None
      | S fuel => match metaStep d m b data with (Err e, d) => Some (Err e, d) | (Ok (m, rest), d) => metaLoop fuel d m rest end
      end
  end.
Definition DecodeRequestMeta (allow : bool) (d : HpackDecoder) (data : bytes) : option (res requestErr hpackRequestMeta * HpackDecoder) :=
  metaLoop (length data) d (newMeta allow) data.

End Request.
