(* ===== verification/HpackRequestProofs.v ===== *)
(** HPACK requests (src/core/hpack.go): the decoder with its memo, its short cut
    and its Huffman cache against a plain decoder over the list of table entries;
    the estimate that spares adding up the header list; what an accepted request
    satisfies. *)
From stdpp Require Import base list numbers strings.
From Stdlib Require Import ZArith Lia ZifyBool.
From S2P Require Import Prelude Utils H1Scan HttpText HpackInt Huffman HuffmanProofs HpackTable HpackDyn Hpack HpackProofs Chunked HpackRequest.

Open Scope list_scope.
Open Scope Z_scope.

(** ** The bookkeeping of the table *)

Definition book (t : dynTable) : Z * Z * Z * bool := (dynRefBytes t, dynNameMax t, tableGen t, memoValid t).

Lemma dynPut_book t i e : book (dynPut t i e) = book t.
Proof. unfold dynPut. by destruct (0 <? _). Qed.

Lemma evictLoop_book fuel t extra : book (evictLoop fuel t extra) = book t.
Proof. revert t. induction fuel as [| fuel IH]; intros t; cbn [evictLoop]; [done |]. cbv zeta. destruct (_ && _); [| done]. rewrite IH. apply (dynPut_book t). Qed.

Lemma growDynRing_book t : book (growDynRing t) = book t.
Proof. unfold growDynRing. cbv zeta. by destruct (_ <=? _). Qed.

Lemma addEntry_book t name value : book (addEntry t name value) = (dynRefBytes t, Z.max (dynNameMax t) (zlen name), u64 (tableGen t + 1), false).
Proof.
  unfold addEntry. cbv zeta. set (t0 := set_meta t _ _ _ _ _). set (t1 := evict t0 _). assert (H1 : book t1 = book t0) by apply evictLoop_book. set (t2 := if _ && _ then growDynRing t1 else t1).
  assert (H2 : book t2 = book t0) by (subst t2; destruct (_ && _); [rewrite growDynRing_book |]; exact H1). destruct ((_ <=? maxTableSize t2) && _); [| exact H2]. transitivity (book t2); [exact (dynPut_book (set_span t2 _ _ _) 0 _) | exact H2].
Qed.

Lemma setMaxSize_book t m : book (setMaxSize t m) = (dynRefBytes t, dynNameMax t, u64 (tableGen t + 1), false).
Proof. unfold setMaxSize, evict. apply evictLoop_book. Qed.

Definition names_ok (t : dynTable) (l : list field) : Prop := Forall (fun f => zlen f.1 <= dynNameMax t) l.

Lemma keep_sub budget l f : f ∈ keep budget l -> f ∈ l.
Proof.
  revert budget. induction l as [| g l IH]; intros budget; cbn [keep]; [done |]. destruct (_ <=? _); [| intros H; by apply not_elem_of_nil in H]. rewrite !elem_of_cons. intros [-> | H]; [by left | right; by eapply IH].
Qed.

(** An index that finds a field of the dynamic table charges its size. *)
Lemma lookupIndex_book t l idx : dyn_rep t l -> 0 <= idx < 2 ^ 64 -> exists k, 0 <= k /\ book (lookupIndex t idx).2 = (dynRefBytes t + k, dynNameMax t, tableGen t, memoValid t) /\
  forall f, (lookupIndex t idx).1 = Some f -> f ∈ HpackStaticTable \/ k = field_size f.
Proof.
  intros R Hidx. unfold lookupIndex. change (zlen HpackStaticTable) with 62. destruct (idx <? 62) eqn:E1.
  - exists 0. cbn [fst snd]. rewrite Z.add_0_r. split_and!; [done | done |]. intros f. destruct (idx =? 0); [done |]. intros H. left. by eapply list_elem_of_lookup_2.
  - rewrite u64_small, (rep_len _ _ R) by lia. destruct (idx - 62 <? zlen l) eqn:E2; [| exists 0; cbn [fst snd]; rewrite Z.add_0_r; done].
    destruct (l !! Z.to_nat (idx - 62)) as [f |] eqn:Ef; [| apply lookup_ge_None in Ef; unfold zlen in E2; lia]. pose proof (dynGet_rep t l _ f R Ef) as Hg. rewrite Z2Nat.id in Hg by lia. rewrite Hg. cbn [fst snd de_size de_name de_value entry_of]. exists (field_size f). pose proof (field_size_pos f).
    split_and!; [lia | done |]. intros g [= <-]. right. by destruct f.
Qed.

(** ** Sizes *)

Lemma static_sizes : Forall (fun f : field => zlen f.1 + zlen f.2 + 32 <= hpackStaticFieldMaxSize) HpackStaticTable /\ 32 <= hpackStaticFieldMaxSize.
Proof. split; [| by vm_compute]. apply (bool_decide_unpack _). by vm_compute. Qed.

Lemma fieldListSize_snoc headers f : fieldListSize (headers ++ [f]) = fieldListSize headers + (zlen f.1 + zlen f.2 + 32).
Proof. unfold fieldListSize. induction headers as [| g headers IH]; cbn [app foldr]; unfold hpackEntryOverhead in *; lia. Qed.

Lemma fieldListSize_nonneg headers : 0 <= fieldListSize headers.
Proof. unfold fieldListSize, hpackEntryOverhead. induction headers as [| f headers IH]; cbn [foldr]; [lia |]. pose proof (zlen_nonneg f.1). pose proof (zlen_nonneg f.2). lia. Qed.

(** The shortest code has five bits. *)
Lemma codes_length s : syms_ok s -> 5 * zlen s <= zlen (codes s).
Proof. unfold codes. induction 1 as [| c s Hc _ IH]; [done |]. cbn [flat_map]. rewrite zlen_cons, zlen_app, zlen_code by done. destruct (code_range c Hc). lia. Qed.

Lemma huffman_expands raw s : bytes_ok raw -> hpackHuffmanDecode raw = Some s -> 5 * zlen s <= 8 * zlen raw.
Proof.
  intros Hr Hd. destruct (decode_spells raw s Hr Hd) as (m & Hs & Hb & _). pose proof (codes_length s Hs) as Hc. apply (f_equal length) in Hb. rewrite length_bits_of, length_app in Hb. unfold zlen in *. lia.
Qed.

Lemma string_expands data s n : bytes_ok data -> HpackDecodeString data = (s, n) -> 0 < n -> 5 * zlen s <= 8 * n /\ n <= zlen data.
Proof.
  intros Hok. unfold HpackDecodeString. destruct (zlen data =? 0); [intros [= <- <-] ?; lia |]. destruct (HpackDecodeInt data 7) as [sLen k] eqn:Ei. destruct (HpackDecodeInt_range data 7 sLen k Hok ltac:(lia) Ei) as (Hu & Hk & _). unfold is_u64 in Hu.
  destruct (_ || _) eqn:Ec; [intros [= <- <-] ?; lia |]. assert (Hlen : zlen (zslice data k (k + sLen)) = sLen) by (rewrite zlen_slice; lia). destruct (negb _).
  - destruct (hpackHuffmanDecode _) as [v |] eqn:Ed; intros [= <- <-] Hn; [| lia]. apply huffman_expands in Ed; [lia |]. unfold zslice, ztake. apply Forall_take. by apply zdrop_ok.
  - intros [= <- <-] Hn. lia.
Qed.

(** A literal, with the names of the table at most [K] long. *)
Lemma literal_expands l bits data name val rest K : bytes_ok data -> 1 <= bits <= 8 -> Forall (fun f : field => zlen f.1 <= K) l -> 0 <= K -> specLiteral l bits data = Ok (name, val, rest) ->
  5 * (zlen name + zlen val + 32) <= 8 * (zlen data - zlen rest) + 5 * (hpackStaticFieldMaxSize + K).
Proof.
  intros Hok Hbits Hl HK. unfold specLiteral. destruct (HpackDecodeInt data bits) as [idx n] eqn:Ei. destruct (HpackDecodeInt_range _ _ _ _ Hok Hbits Ei) as (Hu & Hn & _). unfold is_u64 in Hu. destruct (n <=? 0) eqn:En; [done |]. cbv zeta.
  set (data1 := zdrop n data). assert (H1 : zlen data1 = zlen data - n) by (apply zlen_drop; lia). assert (Hok1 : bytes_ok data1) by (by apply zdrop_ok). destruct static_sizes as [Hst Hs32]. pose proof (zlen_nonneg name) as Hname.
  assert (Hval : forall data2, bytes_ok data2 -> (let '(val0, k) := HpackDecodeString data2 in if k <=? 0 then Err ErrH2BadHeader else Ok (name, val0, zdrop k data2)) = Ok (name, val, rest) -> 5 * zlen val <= 8 * (zlen data2 - zlen rest) /\ zlen rest <= zlen data2).
  { intros data2 Hok2. destruct (HpackDecodeString data2) as [v k] eqn:Es. destruct (k <=? 0) eqn:Ek; [done |]. intros [= -> <-]. destruct (string_expands _ _ _ Hok2 Es ltac:(lia)) as [B1 B2]. rewrite zlen_drop by lia. lia. }
  destruct (0 <? idx) eqn:E0.
  - destruct (specLookup l idx) as [f |] eqn:Ef; cbn [fmap option_fmap option_map]; [| done]. intros H. assert (f.1 = name) as <- by (destruct (HpackDecodeString data1) as [v k]; destruct (k <=? 0); [done | by injection H]). destruct (Hval data1 Hok1 H) as [V1 V2].
    assert (Hf : zlen f.1 + 32 <= hpackStaticFieldMaxSize + K).
    { unfold specLookup in Ef. destruct (idx =? 0); [done |]. destruct (idx <? 62); apply list_elem_of_lookup_2 in Ef; [rewrite Forall_forall in Hst; specialize (Hst f Ef); pose proof (zlen_nonneg f.2); lia | rewrite Forall_forall in Hl; specialize (Hl f Ef); lia]. }
    lia.
  - destruct (HpackDecodeString data1) as [nm k] eqn:Es. destruct (k <=? 0) eqn:Ek; [done |]. destruct (string_expands _ _ _ Hok1 Es ltac:(lia)) as [B1 B2]. intros H.
    assert (nm = name) as -> by (destruct (HpackDecodeString (zdrop k data1)) as [v j]; destruct (j <=? 0); [done | by injection H]). destruct (Hval (zdrop k data1) ltac:(by apply zdrop_ok) H) as [V1 V2]. rewrite zlen_drop in V1, V2 by lia. lia.
Qed.

(** ** The decoder of requests over a list *)

Definition limitSpec (s : Z * list field) (headers : list field) (m : hpackRequestMeta) (rest : bytes) : res requestErr (list field * hpackRequestMeta * bytes) * (Z * list field) :=
  (if maxHeaders <? zlen headers then Err (errHpack ErrTooManyHeaders) else Ok (headers, m, rest), s).
Definition badSpec (s : Z * list field) : res requestErr (list field * hpackRequestMeta * bytes) * (Z * list field) := (Err (errHpack ErrH2BadHeader), s).

Definition specRequestStep (limit : Z) (s : Z * list field) (m : hpackRequestMeta) (headers : list field) (b : Z) (data : bytes) : res requestErr (list field * hpackRequestMeta * bytes) * (Z * list field) :=
  let '(max, l) := s in
  if 128 <=? b then
    let '(idx, n) := HpackDecodeInt data 7 in
    if n <=? 0 then badSpec s
    else match specLookup l idx with
         | None => badSpec s
         | Some f => match takeField m headers f with None => badSpec s | Some (headers, m) => limitSpec s headers m (zdrop n data) end
         end
  else if 64 <=? b then
    match specLiteral l 6 data with
    | Err e => (Err (errHpack e), s)
    | Ok (name, val, rest) => match takeField m headers (name, val) with None => badSpec s | Some (headers, m) => limitSpec (max, spec_add max l (name, val)) headers m rest end
    end
  else if 32 <=? b then
    if 0 <? m_headerCount m then (Err (errHpack ErrHpackSizeUpdateAfterField), s)
    else
      let '(maxSize, n) := HpackDecodeInt data 5 in
      if n <=? 0 then badSpec s
      else if limit <? maxSize then (Err (errHpack ErrHpackTableSizeExceeded), s)
      else limitSpec (maxSize, keep maxSize l) headers m (zdrop n data)
  else
    match specLiteral l 4 data with
    | Err e => (Err (errHpack e), s)
    | Ok (name, val, rest) => match takeField m headers (name, val) with None => badSpec s | Some (headers, m) => limitSpec s headers m rest end
    end.

Fixpoint specRequestLoop (fuel : nat) (limit : Z) (s : Z * list field) (m : hpackRequestMeta) (headers : list field) (data : bytes) : option (res requestErr (list field * hpackRequestMeta) * (Z * list field)) :=
  match data with
  | [] => Some (if validate m then Ok (headers, m) else Err errH2MalformedRequest, s)
  | b :: _ =>
      match fuel with
      | O => None
      | S fuel => match specRequestStep limit s m headers b data with (Err e, s) => Some (Err e, s) | (Ok (headers, m, rest), s) => specRequestLoop fuel limit s m headers rest end
      end
  end.

(** What a step does to the table: [k] updates. *)
Record touched (t t' : dynTable) (s s' : Z * list field) (k : Z) : Prop := mkTouched {
  tc_pos : 0 <= k;
  tc_gen : tableGen t' = u64 (tableGen t + k);
  tc_none : k = 0 -> memoValid t' = memoValid t /\ s' = s;
  tc_some : 0 < k -> memoValid t' = false;
  tc_refs : dynRefBytes t <= dynRefBytes t';
  tc_names : dynNameMax t <= dynNameMax t' }.

Lemma touched_same t s : is_u64 (tableGen t) -> touched t t s s 0.
Proof. intros H. apply mkTouched; try done; try lia. rewrite Z.add_0_r. symmetry. by apply u64_small. Qed.

Lemma touched_trans t1 t2 t3 s1 s2 s3 k1 k2 : touched t1 t2 s1 s2 k1 -> touched t2 t3 s2 s3 k2 -> touched t1 t3 s1 s3 (k1 + k2).
Proof.
  intros [A1 A2 A3 A4 A5 A6] [B1 B2 B3 B4 B5 B6]. apply mkTouched; [lia | | | | lia | lia].
  - rewrite B2, A2. unfold u64. rewrite Zplus_mod_idemp_l. f_equal. lia.
  - intros H. destruct (A3 ltac:(lia)) as [Ea1 Ea2], (B3 ltac:(lia)) as [Eb1 Eb2]. split; congruence.
  - intros H. destruct (decide (0 < k2)) as [Hk | Hk]; [by apply B4 |]. destruct (B3 ltac:(lia)) as [-> _]. apply A4. lia.
Qed.

Lemma touched_gen t t' s s' k : touched t t' s s' k -> is_u64 (tableGen t) -> k < 2 ^ 64 -> tableGen t' = tableGen t -> k = 0.
Proof. intros [H1 H2 _ _ _ _] Hu Hk He. unfold is_u64 in Hu. rewrite H2 in He. unfold u64 in He. destruct (decide (tableGen t + k < 2 ^ 64)) as [Hlt | Hge]; [rewrite Z.mod_small in He by lia; lia |]. rewrite (Z.mod_eq _ (2 ^ 64)) in He by lia. assert ((tableGen t + k) / 2 ^ 64 = 1) as Hd by (symmetry; apply (Z.div_unique _ _ _ (tableGen t + k - 2 ^ 64)); lia). rewrite Hd in He. lia. Qed.

(** A decoder and the list it stands for. *)
Record tracked (limit : Z) (d : HpackDecoder) (s : Z * list field) : Prop := mkTracked {
  tr_ok : decoder_ok limit d s;
  tr_names : names_ok (d_table d) (snd s);
  tr_max : 0 <= dynNameMax (d_table d);
  tr_gen : is_u64 (tableGen (d_table d)) }.

(** What a step does to what is left and to the list of fields. *)
Definition progress (t t' : dynTable) (headers : list field) (data : bytes) (headers' : list field) (rest : bytes) : Prop :=
  (length rest < length data)%nat /\ bytes_ok rest /\ zlen headers' <= maxHeaders /\ zlen headers <= zlen headers' /\
  5 * (fieldListSize headers' - fieldListSize headers) <= 8 * (zlen data - zlen rest) + 5 * ((zlen headers' - zlen headers) * (hpackStaticFieldMaxSize + dynNameMax t')) + 5 * (dynRefBytes t' - dynRefBytes t).

Lemma takeField_spec m headers f headers' m' : takeField m headers f = Some (headers', m') -> headers' = headers ++ [f] /\ m_headerCount m' = m_headerCount m + 1.
Proof.
  unfold takeField. destruct (observeHeader m f.1 f.2) as [m1 |] eqn:Eo; [| done]. intros [= <- <-]. split; [done |]. cbn. f_equal. unfold observeHeader in Eo. repeat (split_if_in Eo; try done); try by injection Eo as <-.
  destruct (parseUint f.2); [| done]. split_if_in Eo; [done |]. by injection Eo as <-.
Qed.

Section Refinement.

Context (hash : bytes -> Z) (limit : Z) (Hlimit : 0 <= limit < 2 ^ 32).

Lemma decodeLiteral_table d bits data r d' : cache_ok d -> decodeLiteral hash d bits data = (r, d') -> d_table d' = d_table d.
Proof.
  intros Hc. unfold decodeLiteral. destruct (HpackDecodeInt data bits) as [idx n]. destruct (n <=? 0); [by intros [= _ <-] |]. cbv zeta.
  assert (Hval : forall dd name rest, cache_ok dd -> (let '(val, n0, d0) := decodeString hash dd rest in if n0 <=? 0 then (Err ErrH2BadHeader, d0) else (Ok (name, val, zdrop n0 rest), d0)) = (r, d') -> d_table d' = d_table dd).
  { intros dd name rest Hdd. destruct (decodeString hash dd rest) as [[v k] d2] eqn:Es. destruct (decodeString_plain hash _ _ _ _ _ Hdd Es) as (_ & _ & Ht). destruct (k <=? 0); intros [= _ <-]; exact Ht. }
  destruct (0 <? idx); [destruct (lookupName _ idx) as [name |]; [by apply Hval | by intros [= _ <-]] |]. destruct (decodeString hash d _) as [[v k] d2] eqn:Es. destruct (decodeString_plain hash _ _ _ _ _ Hc Es) as (_ & Hc2 & Ht).
  destruct (k <=? 0); [intros [= _ <-]; exact Ht |]. intros H. rewrite <- Ht. by eapply Hval.
Qed.

(** What a step keeps and what it adds. *)
Definition stepGood (d : HpackDecoder) (s : Z * list field) (headers : list field) (data : bytes) (r : res requestErr (list field * hpackRequestMeta * bytes)) (d' : HpackDecoder) (s' : Z * list field) : Prop :=
  tracked limit d' s' /\ (exists k, 0 <= k <= 1 /\ touched (d_table d) (d_table d') s s' k) /\
  match r with Ok (hs, m', rest) => progress (d_table d) (d_table d') headers data hs rest /\ m_headerCount m' = zlen hs | Err _ => True end.

Lemma err_good d s headers data e : tracked limit d s -> stepGood d s headers data (Err e) d s.
Proof. intros H. split; [exact H |]. split; [| done]. exists 0. split; [lia |]. apply touched_same, H. Qed.

(** A step that ends with the check of the limit on the number of fields. *)
Lemma limit_good d d1 s s1 headers data hs m' rest k : tracked limit d1 s1 -> 0 <= k <= 1 -> touched (d_table d) (d_table d1) s s1 k -> (length rest < length data)%nat -> bytes_ok rest ->
  zlen headers <= zlen hs -> m_headerCount m' = zlen hs ->
  5 * (fieldListSize hs - fieldListSize headers) <= 8 * (zlen data - zlen rest) + 5 * ((zlen hs - zlen headers) * (hpackStaticFieldMaxSize + dynNameMax (d_table d1))) + 5 * (dynRefBytes (d_table d1) - dynRefBytes (d_table d)) ->
  exists r, limitFields d1 hs m' rest = (r, d1) /\ limitSpec s1 hs m' rest = (r, s1) /\ stepGood d s headers data r d1 s1.
Proof.
  intros Ht Hk Hto Hl Hr Hle Hm Hs. unfold limitFields, limitSpec. destruct (maxHeaders <? zlen hs) eqn:E; eexists; split_and!; try reflexivity; split; try exact Ht; (split; [by exists k |]); [done |]. split; [| exact Hm]. unfold progress. split_and!; try done. lia.
Qed.

Lemma with_table_table d t : d_table (with_table d t) = t.
Proof. done. Qed.

(** A field added to the list of fields. *)
Lemma field_good d d1 s s1 m headers data f rest k : tracked limit d1 s1 -> 0 <= k <= 1 -> touched (d_table d) (d_table d1) s s1 k -> (length rest < length data)%nat -> bytes_ok rest -> m_headerCount m = zlen headers ->
  5 * (zlen f.1 + zlen f.2 + 32) <= 8 * (zlen data - zlen rest) + 5 * (hpackStaticFieldMaxSize + dynNameMax (d_table d1)) + 5 * (dynRefBytes (d_table d1) - dynRefBytes (d_table d)) ->
  forall hs m', takeField m headers f = Some (hs, m') ->
  exists r, limitFields d1 hs m' rest = (r, d1) /\ limitSpec s1 hs m' rest = (r, s1) /\ stepGood d s headers data r d1 s1.
Proof.
  intros Ht Hk Hto Hl Hr Hm Hs hs m' Htf. destruct (takeField_spec _ _ _ _ _ Htf) as [-> Hm']. apply (limit_good _ _ _ _ _ _ _ _ _ k); try done.
  - rewrite zlen_snoc. lia.
  - rewrite zlen_snoc. lia.
  - rewrite zlen_snoc, fieldListSize_snoc. lia.
Qed.

Lemma u64_in_range x : is_u64 (u64 x).
Proof. unfold is_u64, u64. apply Z.mod_pos_bound. lia. Qed.

Lemma add_tracked d max l name val : tracked limit d (max, l) ->
  let d' := with_table d (addEntry (d_table d) name val) in
  tracked limit d' (max, spec_add max l (name, val)) /\ touched (d_table d) (d_table d') (max, l) (max, spec_add max l (name, val)) 1.
Proof.
  intros [[Hc Ht] Hn Hm Hg]. pose proof (addEntry_book (d_table d) name val) as Hb. unfold book in Hb. injection Hb as B1 B2 B3 B4. cbv zeta. unfold names_ok in Hn. cbn [snd] in Hn. split.
  - apply mkTracked; rewrite ?with_table_table; [split; [exact Hc | exact (table_step_good limit _ _ (TAdd name val) (proj2 Hlimit) I Ht)] | | lia | rewrite B3; apply u64_in_range].
    unfold names_ok. cbn [snd]. rewrite B2. apply Forall_forall. intros f Hf. unfold spec_add in Hf. destruct (_ <=? _); [| by apply not_elem_of_nil in Hf]. apply elem_of_cons in Hf as [-> | Hf]; [cbn [fst]; lia |]. apply keep_sub in Hf. rewrite Forall_forall in Hn. specialize (Hn f Hf). lia.
  - apply mkTouched; rewrite ?with_table_table; try lia; done.
Qed.

Lemma resize_tracked d max l n : tracked limit d (max, l) -> 0 <= n <= limit ->
  let d' := with_table d (setMaxSize (d_table d) n) in
  tracked limit d' (n, keep n l) /\ touched (d_table d) (d_table d') (max, l) (n, keep n l) 1.
Proof.
  intros [[Hc Ht] Hn Hm Hg] Hle. pose proof (setMaxSize_book (d_table d) n) as Hb. unfold book in Hb. injection Hb as B1 B2 B3 B4. cbv zeta. unfold names_ok in Hn. cbn [snd] in Hn. split.
  - apply mkTracked; rewrite ?with_table_table; [split; [exact Hc | exact (table_step_good limit _ _ (TMax n) (proj2 Hlimit) Hle Ht)] | | lia | rewrite B3; apply u64_in_range].
    unfold names_ok. cbn [snd]. rewrite B2. apply Forall_forall. intros f Hf. apply keep_sub in Hf. rewrite Forall_forall in Hn. by apply Hn.
  - apply mkTouched; rewrite ?with_table_table; try lia; done.
Qed.

Lemma lookup_tracked d s idx : tracked limit d s -> is_u64 idx ->
  let d' := with_table d (lookupIndex (d_table d) idx).2 in
  (lookupIndex (d_table d) idx).1 = specLookup (snd s) idx /\ tracked limit d' s /\ touched (d_table d) (d_table d') s s 0 /\
  forall f, specLookup (snd s) idx = Some f -> zlen f.1 + zlen f.2 + 32 <= hpackStaticFieldMaxSize + (dynRefBytes (d_table d') - dynRefBytes (d_table d)).
Proof.
  intros [[Hc Ht] Hn Hm Hg] Hi. pose proof Ht as (R & M1 & P1 & S1). pose proof (lookupIndex_rep _ _ idx R Hi) as El. fold (specLookup (snd s) idx) in El. destruct (lookupIndex_book _ _ idx R Hi) as (k & Hk & Hb & Hf). unfold book in Hb. injection Hb as B1 B2 B3 B4. cbv zeta. rewrite !with_table_table. split_and!.
  - exact El.
  - apply mkTracked; rewrite ?with_table_table; [split; [exact Hc |] | | lia | by rewrite B3].
    + pose proof (table_step_good limit _ s (TLookup idx) (proj2 Hlimit) I Ht) as H. by destruct s.
    + unfold names_ok in *. by rewrite B2.
  - apply mkTouched; try lia; [| done]. rewrite B3, Z.add_0_r. symmetry. by apply u64_small.
  - intros f E. rewrite B1. destruct static_sizes as [Hst H32]. destruct (Hf f) as [H | H]; [congruence | rewrite Forall_forall in Hst; specialize (Hst f H); lia |]. rewrite H. unfold field_size, hpackEntryOverhead. destruct f; cbn [fst snd]. lia.
Qed.

Lemma literal_tracked d s bits b data r d' : tracked limit d s -> bytes_ok (b :: data) -> 1 <= bits <= 8 -> decodeLiteral hash d bits (b :: data) = (r, d') ->
  specLiteral (snd s) bits (b :: data) = r /\ tracked limit d' s /\ d_table d' = d_table d /\
  match r with Err _ => True | Ok (name, val, rest) => (length rest < length (b :: data))%nat /\ bytes_ok rest /\ 5 * (zlen name + zlen val + 32) <= 8 * (zlen (b :: data) - zlen rest) + 5 * (hpackStaticFieldMaxSize + dynNameMax (d_table d)) end.
Proof.
  intros [Hok Hn Hm Hg] Hb Hbits E. pose proof (decodeLiteral_table d bits (b :: data) r d' (proj1 Hok) E) as Ht. destruct (decodeLiteral_plain hash limit d s bits b data r d' (proj2 Hlimit) Hok Hb Hbits E) as (Hr & Hok' & Hrest). split; [exact Hr |].
  split; [apply mkTracked; unfold names_ok in *; rewrite ?Ht; done |]. split; [exact Ht |]. destruct r as [[[name val] rest] | e]; [| done]. destruct Hrest as [H1 H2]. split_and!; [exact H1 | exact H2 |]. by apply (literal_expands (snd s) bits).
Qed.

Definition stepRefines (d : HpackDecoder) (s : Z * list field) (headers : list field) (data : bytes) (step : res requestErr (list field * hpackRequestMeta * bytes) * HpackDecoder) (spec : res requestErr (list field * hpackRequestMeta * bytes) * (Z * list field)) : Prop :=
  exists r d' s', step = (r, d') /\ spec = (r, s') /\ stepGood d s headers data r d' s'.

Lemma bad_refines d d1 s headers data : tracked limit d1 s -> touched (d_table d) (d_table d1) s s 0 -> stepRefines d s headers data (badHeader d1) (badSpec s).
Proof. intros Ht Hto. exists (Err (errHpack ErrH2BadHeader)), d1, s. split; [done |]. split; [done |]. split; [exact Ht |]. split; [| done]. by exists 0. Qed.

Lemma err_refines d d1 s headers data e : tracked limit d1 s -> d_table d1 = d_table d -> stepRefines d s headers data (Err e, d1) (Err e, s).
Proof. intros Ht He. exists (Err e), d1, s. split; [done |]. split; [done |]. split; [exact Ht |]. split; [| done]. exists 0. split; [lia |]. rewrite He. apply touched_same. rewrite <- He. apply Ht. Qed.

Lemma take_refines d d1 s s1 m headers data f rest k (bad : HpackDecoder) : tracked limit bad s -> touched (d_table d) (d_table bad) s s 0 ->
  tracked limit d1 s1 -> 0 <= k <= 1 -> touched (d_table d) (d_table d1) s s1 k -> (length rest < length data)%nat -> bytes_ok rest -> m_headerCount m = zlen headers ->
  5 * (zlen f.1 + zlen f.2 + 32) <= 8 * (zlen data - zlen rest) + 5 * (hpackStaticFieldMaxSize + dynNameMax (d_table d1)) + 5 * (dynRefBytes (d_table d1) - dynRefBytes (d_table d)) ->
  stepRefines d s headers data
    (match takeField m headers f with None => badHeader bad | Some (headers, m) => limitFields d1 headers m rest end)
    (match takeField m headers f with None => badSpec s | Some (headers, m) => limitSpec s1 headers m rest end).
Proof.
  intros Hb Hbt Ht Hk Hto Hl Hr Hm Hs. destruct (takeField m headers f) as [[hs m'] |] eqn:Et; [| by apply bad_refines]. destruct (field_good d d1 s s1 m headers data f rest k Ht Hk Hto Hl Hr Hm Hs hs m' Et) as (r & E1 & E2 & Hg). by exists r, d1, s1.
Qed.

Lemma requestStep_refines d s m headers b data : tracked limit d s -> bytes_ok (b :: data) -> zlen headers <= maxHeaders -> m_headerCount m = zlen headers ->
  stepRefines d s headers (b :: data) (requestStep hash d m headers b (b :: data)) (specRequestStep limit s m headers b (b :: data)).
Proof.
  intros Ht Hok Hh Hm. pose proof (touched_same (d_table d) s (tr_gen _ _ _ Ht)) as Hsame. destruct (flag_bits b) as (F1 & F2 & F3); [by apply Forall_cons_1 in Hok as [? _] |]. destruct s as [max l]. unfold requestStep, specRequestStep.
  assert (Hshr : forall n, 0 < n -> (length (zdrop n (b :: data)) < length (b :: data))%nat /\ zlen (zdrop n (b :: data)) <= zlen (b :: data)).
  { intros n Hn. pose proof (zdrop_shrinks n b data Hn). unfold zlen. cbn [length] in *. lia. }
  rewrite F1. destruct (128 <=? b) eqn:B1; [| rewrite F2 by lia; destruct (64 <=? b) eqn:B2; [| rewrite F3 by lia; destruct (32 <=? b) eqn:B3]].
  - destruct (HpackDecodeInt (b :: data) 7) as [idx n] eqn:Ei. destruct (HpackDecodeInt_range (b :: data) 7 idx n Hok ltac:(lia) Ei) as (Hidx & _ & _). destruct (n <=? 0) eqn:En; [by apply bad_refines |]. destruct (Hshr n ltac:(lia)) as [S1 S2].
    destruct (lookup_tracked d (max, l) idx Ht Hidx) as (El & Ht' & Hto & Hsz). destruct (lookupIndex (d_table d) idx) as [found t]. cbn [fst snd] in *. rewrite El. pose proof (tr_max _ _ _ Ht') as Hmax.
    destruct (specLookup l idx) as [f |]; [| by apply bad_refines]. specialize (Hsz f eq_refl). apply (take_refines d _ _ _ m headers _ f _ 0); try done; [by apply zdrop_ok | lia].
  - destruct (decodeLiteral hash d 6 (b :: data)) as [r d1] eqn:El. destruct (literal_tracked d (max, l) 6 b data r d1 Ht Hok ltac:(lia) El) as (Hr & Ht1 & Htab & Hrest). cbn [snd] in Hr. rewrite Hr. destruct r as [[[name val] rest] | e]; [| by apply err_refines].
    destruct Hrest as (R1 & R2 & R3). destruct (add_tracked d1 max l name val Ht1) as [Ht2 Hto]. rewrite Htab in Hto at 1. pose proof (tc_names _ _ _ _ _ Hto). pose proof (tc_refs _ _ _ _ _ Hto).
    apply (take_refines d _ _ _ m headers _ (name, val) rest 1); try done; [by rewrite Htab | cbn [fst snd]; lia].
  - destruct (0 <? m_headerCount m) eqn:Ec; [by apply err_refines |]. destruct (HpackDecodeInt (b :: data) 5) as [n k] eqn:Ei. destruct (HpackDecodeInt_range (b :: data) 5 n k Hok ltac:(lia) Ei) as (Hidx & _ & _). unfold is_u64 in Hidx. destruct (k <=? 0) eqn:En; [by apply bad_refines |]. destruct (Hshr k ltac:(lia)) as [S1 S2].
    destruct Ht as [[Hc (R & M1 & P1 & S)] Hn Hmx Hg] eqn:EHt. clear EHt. rewrite P1, u64_small by lia. destruct (limit <? n) eqn:E; [by apply err_refines |]. destruct (resize_tracked d max l n Ht ltac:(lia)) as [Ht2 Hto]. pose proof (tc_refs _ _ _ _ _ Hto).
    destruct (limit_good d _ (max, l) _ headers (b :: data) headers m (zdrop k (b :: data)) 1 Ht2 ltac:(lia) Hto S1 ltac:(by apply zdrop_ok) ltac:(lia) Hm ltac:(lia)) as (r & E1 & E2 & Hgood). by eexists _, _, _.
  - destruct (decodeLiteral hash d 4 (b :: data)) as [r d1] eqn:El. destruct (literal_tracked d (max, l) 4 b data r d1 Ht Hok ltac:(lia) El) as (Hr & Ht1 & Htab & Hrest). cbn [snd] in Hr. rewrite Hr. destruct r as [[[name val] rest] | e]; [| by apply err_refines].
    destruct Hrest as (R1 & R2 & R3). apply (take_refines d _ _ _ m headers _ (name, val) rest 0); try done; rewrite ?Htab; try done. cbn [fst snd]; lia.
Qed.

(** The whole block: the results agree, the table is updated at most once per
    byte, and the list of fields is bounded by what the block can spell. *)
Lemma requestLoop_refines fuel d s m headers data : (length data <= fuel)%nat -> tracked limit d s -> bytes_ok data -> zlen headers <= maxHeaders -> m_headerCount m = zlen headers ->
  exists r d' s' k, requestLoop hash fuel d m headers data = Some (r, d') /\ specRequestLoop fuel limit s m headers data = Some (r, s') /\ tracked limit d' s' /\
    k <= zlen data /\ touched (d_table d) (d_table d') s s' k /\
    match r with
    | Ok (hs, m') => zlen hs <= maxHeaders /\ zlen headers <= zlen hs /\ m_headerCount m' = zlen hs /\
        5 * (fieldListSize hs - fieldListSize headers) <= 8 * zlen data + 5 * ((zlen hs - zlen headers) * (hpackStaticFieldMaxSize + dynNameMax (d_table d'))) + 5 * (dynRefBytes (d_table d') - dynRefBytes (d_table d))
    | Err _ => True
    end.
Proof.
  revert d s m headers data. induction fuel as [| fuel IH]; intros d s m headers [| b data] Hf Ht Hok Hh Hm; try (cbn [length] in Hf; lia).
  1, 2: eexists _, d, s, 0; split_and!; [reflexivity | reflexivity | exact Ht | done | apply touched_same, Ht |]; destruct (validate m); [| done]; change (zlen (@nil Z)) with 0; split_and!; try done; lia.
  cbn [requestLoop specRequestLoop]. destruct (requestStep_refines d s m headers b data Ht Hok Hh Hm) as (r & d1 & s1 & -> & -> & Ht1 & (k & Hk & Hto) & Hr). pose proof (zlen_nonneg data). rewrite zlen_cons in *.
  destruct r as [[[hs m1] rest] | e]; [| exists (Err e), d1, s1, k; split_and!; try done; lia]. destruct Hr as [(P1 & P2 & P3 & P4 & P5) Hm1]. cbn [length] in *.
  destruct (IH d1 s1 m1 hs rest ltac:(lia) Ht1 P2 P3 Hm1) as (r & d2 & s2 & k2 & -> & -> & Ht2 & Hk2 & Hto2 & Hr). assert (Hrest : zlen rest <= zlen data) by (unfold zlen; lia).
  exists r, d2, s2, (k + k2). split_and!; [done | done | exact Ht2 | lia | by eapply touched_trans |]. destruct r as [[hs' m'] | e]; [| done]. destruct Hr as (Q1 & Q2 & Q3 & Q4). split_and!; [lia | lia | exact Q3 |]. rewrite zlen_cons in P5.
  pose proof (tc_names _ _ _ _ _ Hto2) as Hnm. assert ((zlen hs - zlen headers) * (hpackStaticFieldMaxSize + dynNameMax (d_table d1)) <= (zlen hs - zlen headers) * (hpackStaticFieldMaxSize + dynNameMax (d_table d2))) by (apply Z.mul_le_mono_nonneg_l; lia). lia.
Qed.

End Refinement.
