(* ===== verification/HpackMemo.v ===== *)
(** HPACK requests over a connection (src/core/hpack.go): the decoder with its
    memo, its short cut and the estimate of the header list against a plain
    decoder that has none of them. *)
From stdpp Require Import base list numbers strings.
From Stdlib Require Import ZArith Lia ZifyBool.
From S2P Require Import Prelude Utils H1Scan HttpText HpackInt Huffman HuffmanProofs HpackTable HpackDyn Hpack HpackProofs Chunked HpackRequest HpackRequestProofs.

Open Scope list_scope.
Open Scope Z_scope.

(** ** The size of a cleaned path *)

Definition weight (segs : list bytes) : Z := foldr (fun s n => 1 + zlen s + n) 0 segs.

Lemma weight_app a b : weight (a ++ b) = weight a + weight b.
Proof. unfold weight. induction a as [| s a IH]; cbn [app foldr]; lia. Qed.

Lemma weight_nonneg segs : 0 <= weight segs.
Proof. unfold weight. induction segs as [| s segs IH]; cbn [foldr]; [lia |]. pose proof (zlen_nonneg s). lia. Qed.

Lemma weight_split p : weight (splitSlash p) = 1 + zlen p.
Proof.
  induction p as [| x p IH]; [done |]. rewrite zlen_cons. cbn [splitSlash]. destruct (x =? slash); [unfold weight in *; cbn [foldr]; change (zlen (@nil Z)) with 0; lia |]. destruct (splitSlash_cons p) as (h & t & Eh). rewrite Eh in *. unfold weight in *. cbn [foldr] in *. rewrite zlen_cons. lia.
Qed.

Lemma weight_resolve segs acc : weight (fold_left pushSegment segs acc) <= weight acc + weight segs.
Proof.
  revert acc. induction segs as [| s segs IH]; intros acc; cbn [fold_left]; [unfold weight; cbn; lia |]. etransitivity; [apply IH |]. assert (weight (pushSegment acc s) <= weight acc + (1 + zlen s)); [| unfold weight in *; cbn [foldr]; lia]. pose proof (zlen_nonneg s).
  unfold pushSegment. destruct (_ || _); [lia |]. destruct (bool_decide _); [destruct (0 <? _); [| lia] | rewrite weight_app; unfold weight; cbn [foldr]; lia].
  pose proof (weight_nonneg (zdrop (zlen acc - 1) acc)). assert (weight acc = weight (ztake (zlen acc - 1) acc) + weight (zdrop (zlen acc - 1) acc)) by (unfold ztake, zdrop; by rewrite <- weight_app, take_drop). lia.
Qed.

Lemma zlen_pathOf segs : zlen (pathOf segs) <= Z.max 1 (weight segs).
Proof.
  destruct segs as [| s segs]; [done |]. unfold pathOf. generalize (s :: segs) as l. clear s segs. intros l. transitivity (weight l); [| lia]. unfold weight. induction l as [| s l IH]; [done |]. cbn [map concat foldr]. rewrite zlen_app, zlen_cons. lia.
Qed.

Lemma sanitize_length path : zlen (sanitizeRequestPath path) <= zlen path + 1.
Proof.
  rewrite sanitize_cut. assert (Hu : zlen (until pathStop path) <= zlen path) by (induction path as [| x path IH]; cbn [until]; [done |]; destruct (pathStop x); rewrite ?zlen_cons; pose proof (zlen_nonneg path); [unfold zlen at 1; cbn; lia | lia]).
  destruct (sanitize_cases (until pathStop path)) as [(q & _ & _ & ->) | ->]; [lia |]. pose proof (zlen_pathOf (resolve (splitSlash (until pathStop path)))). pose proof (weight_resolve (splitSlash (until pathStop path)) []) as Hw. fold (resolve (splitSlash (until pathStop path))) in Hw. rewrite weight_split in Hw. change (weight []) with 0 in Hw. pose proof (zlen_nonneg (until pathStop path)). lia.
Qed.

(** ** The plain decoder *)

(** What the server reads of the result. *)
Definition visible (m : hpackRequestMeta) : bytes * bytes * bytes * bytes * bytes * bytes * Z * Z * bool * bool :=
  (m_method m, m_path m, m_rawPath m, m_query m, m_scheme m, m_authority m, m_headerCount m, declaredLength m, m_protocolSet m, m_protocolWebSocket m).

(** The block is ":method: GET", a literal ":path" and ":scheme: https". *)
Definition simpleForm (data : bytes) : bool :=
  (4 <=? zlen data) && (znth data 0 =? 0x82) && (znth data 1 =? 0x04) && (znth data (zlen data - 1) =? 0x87) &&
  (let '(_, n) := HpackDecodeString (zdrop 2 data) in (0 <? n) && (2 + n + 1 =? zlen data)).

Definition cleanPath (f : field) : field := if bytes_eqb f.1 (str ":path") then (f.1, sanitizeRequestPath f.2) else f.

(** The fields and the request of a block: no memo, no short cut, no limit on
    the list. *)
Definition specRequest (limit : Z) (allow : bool) (s : Z * list field) (data : bytes) : option (res requestErr (list field * hpackRequestMeta) * (Z * list field)) :=
  specRequestLoop (length data) limit s (newMeta allow) [] data.

(** What the server returns, in terms of the plain decoder: in the simple form
    the list has the cleaned path, and the list is held against the limit. *)
Definition servedRequest (limit : Z) (maxList : Z) (allow : bool) (s : Z * list field) (data : bytes) : option (res requestErr (list field * hpackRequestMeta) * (Z * list field)) :=
  match specRequestLoop (length data) limit s (newMeta allow) [] data with
  | Some (Ok (headers, m), s) =>
      let headers := if simpleForm data then map cleanPath headers else headers in
      Some (if maxList <? fieldListSize headers then Err errH2HeaderListTooLarge else Ok (headers, m), s)
  | r => r
  end.

(** ** The short cut *)

Lemma simple_shape data : simpleForm data = true -> exists body raw n, data = 0x82 :: 0x04 :: body ++ [0x87] /\ HpackDecodeString (body ++ [0x87]) = (raw, n) /\ 0 < n /\ zlen body = n.
Proof.
  unfold simpleForm. rewrite !andb_true_iff. intros [[[[H1 H2] H3] H4] H5]. destruct data as [| a [| b rest]]; [done | by cbn in H1 |]. change (znth (a :: b :: rest) 0) with a in H2. change (znth (a :: b :: rest) 1) with b in H3. change (zdrop 2 (a :: b :: rest)) with rest in H5.
  rewrite !zlen_cons in *. destruct (HpackDecodeString rest) as [raw n] eqn:Es. destruct rest as [| y rest] using rev_ind; [by cbn in H1 |]. clear IHrest. rewrite zlen_snoc in *. exists rest, raw, n.
  assert (Ey : znth (a :: b :: rest ++ [y]) (1 + (1 + (zlen rest + 1)) - 1) = y).
  { unfold znth. replace (Z.to_nat (1 + (1 + (zlen rest + 1)) - 1)) with (S (S (length rest))) by (unfold zlen; lia). cbn [nth]. rewrite app_nth2 by lia. by rewrite Nat.sub_diag. }
  rewrite Ey in H4. assert (a = 0x82) as -> by lia. assert (b = 0x04) as -> by lia. assert (y = 0x87) as -> by lia. split_and!; [done | done | lia | lia].
Qed.

Lemma static_step limit s m headers b f rest : (b = 0x82 /\ f = (str ":method", str "GET")) \/ (b = 0x87 /\ f = (str ":scheme", str "https")) ->
  specRequestStep limit s m headers b (b :: rest) = match takeField m headers f with None => badSpec s | Some (hs, m') => limitSpec s hs m' rest end.
Proof. destruct s as [max l]. intros [[-> ->] | [-> ->]]; reflexivity. Qed.

Definition simpleHeaders (path : bytes) : list field := [(str ":method", str "GET"); (str ":path", path); (str ":scheme", str "https")].

(** The plain decoder on a block of the simple form. *)
Lemma simple_spec limit s allow body raw n : HpackDecodeString (body ++ [0x87]) = (raw, n) -> 0 < n -> zlen body = n ->
  let data := 0x82 :: 0x04 :: body ++ [0x87] in
  exists r, specRequestLoop (length data) limit s (newMeta allow) [] data = Some (r, s) /\
    if isValidH2Path raw then
      if validate (simpleMeta raw (sanitizeRequestPath raw)) then exists m, r = Ok (simpleHeaders raw, m) /\ visible m = visible (simpleMeta raw (sanitizeRequestPath raw))
      else r = Err errH2MalformedRequest
    else r = Err (errHpack ErrH2BadHeader).
Proof.
  intros Hs Hn Hl. cbv zeta. set (m1 := count_header (set_method (newMeta allow) 1 (str "GET"))). set (h1 := (str ":method", str "GET")).
  assert (E1 : specRequestStep limit s (newMeta allow) [] 0x82 (0x82 :: 0x04 :: body ++ [0x87]) = (Ok ([h1], m1, 0x04 :: body ++ [0x87]), s)) by (rewrite (static_step _ _ _ _ _ h1) by (left; done); by destruct allow).
  assert (E2 : specRequestStep limit s m1 [h1] 0x04 (0x04 :: body ++ [0x87]) = match takeField m1 [h1] (str ":path", raw) with None => badSpec s | Some (hs, m') => limitSpec s hs m' [0x87] end).
  { destruct s as [max l]. change (specRequestStep limit (max, l) m1 [h1] 4 (4 :: body ++ [135])) with (match specLiteral l 4 (4 :: body ++ [135]) with Err e => (Err (errHpack e), (max, l)) | Ok (name, val, rest) => match takeField m1 [h1] (name, val) with None => badSpec (max, l) | Some (headers, m) => limitSpec (max, l) headers m rest end end).
    change (specLiteral l 4 (4 :: body ++ [135])) with (let '(val, n) := HpackDecodeString (body ++ [135]) in if n <=? 0 then Err ErrH2BadHeader else Ok (str ":path", val, zdrop n (body ++ [135]))). rewrite Hs. replace (n <=? 0) with false by lia.
    by replace (zdrop n (body ++ [135])) with [135] by (rewrite <- Hl; unfold zdrop, zlen; by rewrite Nat2Z.id, drop_app_length). }
  cbn [length specRequestLoop]. rewrite E1. cbn [length]. rewrite E2. unfold takeField at 1. cbn [fst snd].
  assert (Eo : observeHeader m1 (str ":path") raw = if isValidH2Path raw then Some (set_path m1 5 (sanitizeRequestPath raw) raw (splitPathQuery raw).2) else None).
  { transitivity (if negb (isValidH2Path raw) then None else Some (set_path m1 5 (if bytes_eqb raw [slash] then [slash] else sanitizeRequestPath raw) raw (splitPathQuery raw).2)); [by destruct allow |]. destruct (isValidH2Path raw); [| done]. cbn [negb]. destruct (bytes_eqb raw [slash]) eqn:E; [| done]. apply bytes_eqb_spec in E as ->. done. }
  rewrite Eo. destruct (isValidH2Path raw); [| by eexists]. set (m2 := count_header (set_path m1 5 _ raw _)). assert (E3 : length body <> 0%nat) by (unfold zlen in Hl; lia). rewrite length_app, Nat.add_comm. cbn [length Nat.add].
  change (limitSpec s ([h1] ++ [(str ":path", raw)]) m2 [135]) with (@Ok requestErr _ ([h1; (str ":path", raw)], m2, [135]), s). cbn [specRequestLoop]. rewrite (static_step _ _ _ _ _ (str ":scheme", str "https")) by (right; done).
  set (m3 := count_header (set_scheme m2 7 (str "https"))). assert (Et : takeField m2 [h1; (str ":path", raw)] (str ":scheme", str "https") = Some (simpleHeaders raw, m3)) by (by destruct allow). rewrite Et. change (limitSpec s (simpleHeaders raw) m3 []) with (@Ok requestErr _ (simpleHeaders raw, m3, @nil Z), s).
  destruct (length body) as [| k]; [done |]. cbn [specRequestLoop]. eexists. split; [reflexivity |].
  assert (Ev : validate m3 = validate (simpleMeta raw (sanitizeRequestPath raw))) by (by destruct allow). rewrite Ev. destruct (validate _); [| done]. exists m3. by destruct allow.
Qed.

Section Refinement.

Context (hash : bytes -> Z) (limit : Z) (Hlimit : 0 <= limit < 2 ^ 32).

Lemma tracked_cache d d' s : tracked limit d s -> cache_ok d' -> d_table d' = d_table d -> tracked limit d' s.
Proof. intros [[Hc Ht] Hn Hm Hg] Hc' E. apply mkTracked; unfold names_ok in *; rewrite ?E; try done. split; [done | by rewrite E]. Qed.

(** The short cut is taken on the blocks of the simple form, and only there. *)
Lemma decodeSimple_cases d s data : tracked limit d s -> bytes_ok data -> exists r d', decodeSimple hash d data = (r, d') /\ tracked limit d' s /\ d_table d' = d_table d /\
  if simpleForm data then exists body raw n, data = 0x82 :: 0x04 :: body ++ [0x87] /\ HpackDecodeString (body ++ [0x87]) = (raw, n) /\ 0 < n /\ zlen body = n /\
    r = Some (if isValidH2Path raw then if validate (simpleMeta raw (sanitizeRequestPath raw)) then Ok (simpleHeaders (sanitizeRequestPath raw), simpleMeta raw (sanitizeRequestPath raw)) else Err errH2MalformedRequest else Err (errHpack ErrH2BadHeader))
  else r = None.
Proof.
  intros Ht Hok. unfold decodeSimple. destruct (simpleForm data) eqn:Es.
  - pose proof (simple_shape data Es) as (body & raw & n & Hd & Hs & Hn & Hl). assert (Hlen : zlen data = n + 3) by (rewrite Hd, !zlen_cons, zlen_snoc; lia). unfold simpleForm in Es. rewrite !andb_true_iff in Es. destruct Es as [[[[E1 E2] E3] E4] _].
    rewrite E2, E3, E4. replace (zlen data <? 4) with false by lia. cbn [negb orb]. assert (Hz : zdrop 2 data = body ++ [0x87]) by (by rewrite Hd). rewrite Hz.
    destruct (decodeString hash d (body ++ [0x87])) as [[raw' n'] d'] eqn:Ed. destruct (decodeString_plain hash _ _ _ _ _ (proj1 (tr_ok _ _ _ Ht)) Ed) as (Es & Hc & Htab). rewrite Hs in Es. injection Es as <- <-. pose proof (tracked_cache d d' s Ht Hc Htab) as Ht'.
    replace ((n <=? 0) || negb (2 + n + 1 =? zlen data)) with false by lia. eexists _, d'. split; [| split; [exact Ht' |]; split; [exact Htab |]; exists body, raw, n; split_and!; try done]. destruct (isValidH2Path raw); [cbn [negb]; destruct (validate _); done | done].
  - unfold simpleForm in Es. destruct (_ || _) eqn:Ec; [by exists None, d |]. destruct (decodeString hash d (zdrop 2 data)) as [[raw' n'] d'] eqn:Ed. destruct (decodeString_plain hash _ _ _ _ _ (proj1 (tr_ok _ _ _ Ht)) Ed) as (Es' & Hc & Htab). rewrite Es' in Es.
    exists None, d'. split; [| split; [by apply (tracked_cache d) | done]]. replace ((n' <=? 0) || negb (2 + n' + 1 =? zlen data)) with true by lia. done.
Qed.

(** Agreement of the decoder with the plain one on a whole block. *)
Definition blockAgrees (data : bytes) (t t' : dynTable) (r r0 : res requestErr (list field * hpackRequestMeta)) : Prop :=
  match r, r0 with
  | Ok (hs, m), Ok (hs0, m0) => hs = (if simpleForm data then map cleanPath hs0 else hs0) /\ visible m = visible m0 /\
      5 * fieldListSize hs <= 8 * zlen data + 5 * (zlen hs * (hpackStaticFieldMaxSize + dynNameMax t')) + 5 * (dynRefBytes t' - dynRefBytes t)
  | Err e, Err e0 => e = e0
  | _, _ => False
  end.

Lemma static_max : hpackStaticFieldMaxSize = 60.
Proof. by vm_compute. Qed.

Lemma DecodeIntoRequest_refines allow d s data : tracked limit d s -> bytes_ok data ->
  exists r d' r0 s' k, DecodeIntoRequest hash allow d data = Some (r, d') /\ specRequestLoop (length data) limit s (newMeta allow) [] data = Some (r0, s') /\ tracked limit d' s' /\
    k <= zlen data /\ touched (d_table d) (d_table d') s s' k /\ blockAgrees data (d_table d) (d_table d') r r0.
Proof.
  intros Ht Hok. unfold DecodeIntoRequest. destruct (decodeSimple_cases d s data Ht Hok) as (r & d1 & -> & Ht1 & Htab & Hr). unfold blockAgrees. destruct (simpleForm data).
  - destruct Hr as (body & raw & n & Hd & Hs & Hn & Hl & ->). destruct (simple_spec limit s allow body raw n Hs Hn Hl) as (r0 & E0 & Hr0). rewrite <- Hd in E0. eexists _, d1, r0, s, 0. split_and!; [reflexivity | exact E0 | exact Ht1 | apply zlen_nonneg | rewrite Htab; apply touched_same, Ht |]. rewrite Htab.
    destruct (isValidH2Path raw); [| by subst r0]. destruct (validate _); [| by subst r0]. destruct Hr0 as (m & -> & Hv). split_and!; [done | done |].
    assert (Hb : bytes_ok (body ++ [0x87])) by (subst data; apply Forall_cons_1 in Hok as [_ Hok]; by apply Forall_cons_1 in Hok as [_ Hok]). destruct (string_expands _ _ _ Hb Hs Hn) as [H1 H2]. pose proof (sanitize_length raw) as Hsz. pose proof (tr_max _ _ _ Ht) as Hmax.
    rewrite Hd, !zlen_cons, zlen_snoc, static_max. change (fieldListSize (simpleHeaders (sanitizeRequestPath raw))) with (42 + (5 + zlen (sanitizeRequestPath raw) + 32 + 44)). change (zlen (simpleHeaders (sanitizeRequestPath raw))) with 3. lia.
  - subst r. destruct (requestLoop_refines hash limit Hlimit (length data) d1 s (newMeta allow) [] data (le_n _) Ht1 Hok ltac:(done) eq_refl) as (r & d' & s' & k & E1 & E2 & Ht' & Hk & Hto & Hr). rewrite Htab in Hto, Hr. exists r, d', r, s', k. split_and!; try done.
    destruct r as [[hs m] | e]; [| done]. split_and!; [done | done |]. change (zlen (@nil field)) with 0 in Hr. change (fieldListSize []) with 0 in Hr. destruct Hr as (_ & _ & _ & Hr). lia.
Qed.

(** The estimate never hides a list that is too large. *)
Lemma tooLarge_exact maxList (data : bytes) t t' hs : 5 * fieldListSize hs <= 8 * zlen data + 5 * (zlen hs * (hpackStaticFieldMaxSize + dynNameMax t')) + 5 * (dynRefBytes t' - dynRefBytes t) ->
  fieldListTooLarge maxList t' (zlen data) hs (dynRefBytes t' - dynRefBytes t) = (maxList <? fieldListSize hs).
Proof.
  intros H. unfold fieldListTooLarge, hpackHuffmanMaxExpandNum, hpackHuffmanMaxExpandDen. pose proof (zlen_nonneg data). rewrite Z.quot_div_nonneg by lia. pose proof (Z.div_mod (zlen data * 8) 5 ltac:(lia)). pose proof (Z.mod_pos_bound (zlen data * 8) 5 ltac:(lia)). lia.
Qed.

(** ** The memo *)

Record memoOk (rd : requestDecoder) (s : Z * list field) : Prop := mkMemoOk {
  mo_tracked : tracked limit (rd_dec rd) s;
  mo_memo : memoValid (d_table (rd_dec rd)) = true -> exists m, servedRequest limit (rd_maxHeaderListSize rd) (allowExtendedConnect rd) s (memoBlock rd) = Some (Ok (memoHeaders rd, m), s) /\
    visible (memoMeta rd) = visible m /\ memoRoot rd = isRootRequest m }.

Definition shown (r : res requestErr (list field * hpackRequestMeta * bool)) := match r with Ok (hs, m, isRoot) => Ok (hs, visible m, isRoot) | Err e => Err e end.
Definition shownSpec (r : res requestErr (list field * hpackRequestMeta)) := shown (match r with Ok (hs, m) => Ok (hs, m, isRootRequest m) | Err e => Err e end).

Lemma root_visible m m' : visible m = visible m' -> isRootRequest m = isRootRequest m'.
Proof. unfold visible, isRootRequest. intros [= -> -> _ _ _ _ _ _ _ _]. done. Qed.

(** Whatever leaves the table alone keeps the memo. *)
Lemma memoOk_touched rd d' s s' k : memoOk rd s -> tracked limit d' s' -> touched (d_table (rd_dec rd)) (d_table d') s s' k -> memoOk (with_rd rd d') s'.
Proof.
  intros [Ht Hm] Ht' [H1 H2 H3 H4 _ _]. apply mkMemoOk; [done |]. cbn [rd_dec with_rd memoBlock memoHeaders memoMeta memoRoot allowExtendedConnect rd_maxHeaderListSize]. intros Hv. destruct (decide (k = 0)) as [-> | Hk]; [| rewrite H4 in Hv by lia; done]. destruct (H3 eq_refl) as [E ->]. rewrite E in Hv. by apply Hm.
Qed.

Lemma DecodeRequest_refines rd s data : memoOk rd s -> bytes_ok data -> zlen data < 2 ^ 63 ->
  exists r rd' r0 s', DecodeRequest hash rd data = Some (r, rd') /\ servedRequest limit (rd_maxHeaderListSize rd) (allowExtendedConnect rd) s data = Some (r0, s') /\ memoOk rd' s' /\ shown r = shownSpec r0 /\
    rd_maxHeaderListSize rd' = rd_maxHeaderListSize rd /\ allowExtendedConnect rd' = allowExtendedConnect rd.
Proof.
  intros Hmo Hok Hlen. pose proof Hmo as [Ht Hm]. unfold DecodeRequest. destruct (memoValid _ && bytes_eqb data (memoBlock rd)) eqn:Ememo.
  { apply andb_true_iff in Ememo as [Hv E]. apply bytes_eqb_spec in E as ->. destruct (Hm Hv) as (m & Hs & Hvis & Hroot). eexists _, rd, _, s. split_and!; [reflexivity | exact Hs | exact Hmo | | done | done]. cbn [shown shownSpec]. by rewrite Hvis, Hroot. }
  destruct (DecodeIntoRequest_refines (allowExtendedConnect rd) (rd_dec rd) s data Ht Hok) as (r & d' & r0 & s' & k & E1 & E2 & Ht' & Hk & Hto & Hag). rewrite E1. pose proof (memoOk_touched rd d' s s' k Hmo Ht' Hto) as Hmo'. unfold servedRequest. rewrite E2.
  destruct r as [[hs m] | e], r0 as [[hs0 m0] | e0]; cbn [blockAgrees] in Hag; try done; [| subst e0; eexists _, _, _, s'; split_and!; [reflexivity | reflexivity | exact Hmo' | done | done | done]].
  destruct Hag as (Ehs & Hvis & Hsz). cbv zeta. rewrite <- Ehs. rewrite tooLarge_exact by done. cbn [rd_maxHeaderListSize with_rd]. destruct (rd_maxHeaderListSize rd <? fieldListSize hs) eqn:Elarge; [eexists _, _, _, s'; split_and!; [reflexivity | reflexivity | exact Hmo' | done | done | done] |].
  eexists _, _, _, s'. split_and!; [reflexivity | reflexivity | | cbn [shown shownSpec]; by rewrite Hvis, (root_visible _ _ Hvis) | by destruct ((tableGen _ =? _) && _) | by destruct ((tableGen _ =? _) && _)].
  destruct ((tableGen (d_table d') =? _) && _) eqn:Es; [| exact Hmo']. apply andb_true_iff in Es as [Eg _]. assert (k = 0) as -> by (eapply touched_gen; [exact Hto | apply Ht | lia | lia]). destruct (tc_none _ _ _ _ _ Hto eq_refl) as [_ ->].
  apply mkMemoOk; [by destruct Ht' as [[Hc (R & T)] Hn Hx Hg]; apply mkTracked; try done; split; [done |]; split; [destruct R; by split | done] |].
  intros _. exists m0. unfold servedRequest. cbn [storeMemo memoBlock memoHeaders memoMeta memoRoot with_rd allowExtendedConnect rd_maxHeaderListSize]. rewrite E2. cbv zeta. rewrite <- Ehs, Elarge. split_and!; [done | done | by apply root_visible].
Qed.

(** ** Header blocks that are not requests *)

Lemma decodeStep_tracked d s headers b data r d' r' s' : tracked limit d s -> bytes_ok (b :: data) -> zlen headers <= maxHeaders ->
  decodeStep hash d headers b (b :: data) = (r, d') -> specStep limit s headers b (b :: data) = (r', s') -> tracked limit d' s' /\ exists k, 0 <= k <= 1 /\ touched (d_table d) (d_table d') s s' k.
Proof.
  intros Ht Hok Hh. pose proof (touched_same (d_table d) s (tr_gen _ _ _ Ht)) as Hsame. assert (Hkeep : forall d1, tracked limit d1 s -> touched (d_table d) (d_table d1) s s 0 -> tracked limit d1 s /\ exists k, 0 <= k <= 1 /\ touched (d_table d) (d_table d1) s s k) by (intros d1 H1 H2; split; [exact H1 | by exists 0]).
  destruct (flag_bits b) as (F1 & F2 & F3); [by apply Forall_cons_1 in Hok as [? _] |]. destruct s as [max l]. unfold decodeStep, specStep. rewrite F1. destruct (128 <=? b) eqn:B1; [| rewrite F2 by lia; destruct (64 <=? b) eqn:B2; [| rewrite F3 by lia; destruct (32 <=? b) eqn:B3]].
  - destruct (HpackDecodeInt (b :: data) 7) as [idx n] eqn:Ei. destruct (HpackDecodeInt_range (b :: data) 7 idx n Hok ltac:(lia) Ei) as (Hidx & _ & _). destruct (n <=? 0); [intros [= _ <-] [= _ <-]; by apply Hkeep |].
    destruct (lookup_tracked limit Hlimit d (max, l) idx Ht Hidx) as (El & Ht' & Hto & _). destruct (lookupIndex (d_table d) idx) as [found t]. cbn [fst snd] in *. rewrite El. destruct (specLookup l idx) as [f |]; [| intros [= _ <-] [= _ <-]; by apply Hkeep]. destruct (maxHeaders <? _); intros [= _ <-] [= _ <-]; by apply Hkeep.
  - destruct (decodeLiteral hash d 6 (b :: data)) as [r1 d1] eqn:El. destruct (literal_tracked hash limit Hlimit d (max, l) 6 b data r1 d1 Ht Hok ltac:(lia) El) as (Hr & Ht1 & Htab & _). cbn [snd] in Hr. rewrite Hr. destruct r1 as [[[name val] rest] | e]; [| intros [= _ <-] [= _ <-]; apply Hkeep; by rewrite ?Htab]. rewrite push_field_spec by done.
    destruct (maxHeaders <? _); intros [= _ <-] [= _ <-]; [apply Hkeep; by rewrite ?Htab |]. destruct (add_tracked limit Hlimit d1 max l name val Ht1) as [Ht2 Hto]. rewrite Htab in Hto at 1. split; [exact Ht2 |]. by exists 1.
  - destruct headers as [| h headers]; [change (0 <? zlen (@nil (bytes * bytes))) with false; cbv iota | rewrite zlen_cons; pose proof (zlen_nonneg headers); replace (0 <? 1 + zlen headers) with true by lia; intros [= _ <-] [= _ <-]; by apply Hkeep].
    destruct (HpackDecodeInt (b :: data) 5) as [n k] eqn:Ei. destruct (HpackDecodeInt_range (b :: data) 5 n k Hok ltac:(lia) Ei) as (Hidx & _ & _). unfold is_u64 in Hidx. destruct (k <=? 0); [intros [= _ <-] [= _ <-]; by apply Hkeep |].
    pose proof (tr_ok _ _ _ Ht) as [_ (_ & _ & P1 & _)]. rewrite P1, u64_small by lia. destruct (limit <? n) eqn:E; intros [= _ <-] [= _ <-]; [by apply Hkeep |]. destruct (resize_tracked limit Hlimit d max l n Ht ltac:(lia)) as [Ht2 Hto]. split; [exact Ht2 |]. by exists 1.
  - destruct (decodeLiteral hash d 4 (b :: data)) as [r1 d1] eqn:El. destruct (literal_tracked hash limit Hlimit d (max, l) 4 b data r1 d1 Ht Hok ltac:(lia) El) as (Hr & Ht1 & Htab & _). cbn [snd] in Hr. rewrite Hr. destruct r1 as [[[name val] rest] | e]; [| intros [= _ <-] [= _ <-]; apply Hkeep; by rewrite ?Htab].
    destruct (maxHeaders <? _); intros [= _ <-] [= _ <-]; apply Hkeep; by rewrite ?Htab.
Qed.

Lemma decodeLoop_tracked fuel d s headers data r d' r' s' : tracked limit d s -> bytes_ok data -> zlen headers <= maxHeaders ->
  decodeLoop hash fuel d headers data = Some (r, d') -> specLoop fuel limit s headers data = Some (r', s') -> tracked limit d' s' /\ exists k, touched (d_table d) (d_table d') s s' k.
Proof.
  revert d s headers data. induction fuel as [| fuel IH]; intros d s headers [| b data] Ht Hok Hh; cbn [decodeLoop specLoop]; try done.
  1, 2: intros [= _ <-] [= _ <-]; split; [exact Ht |]; exists 0; apply touched_same, Ht.
  pose proof (decodeStep_refines hash limit d s headers b data Hlimit (tr_ok _ _ _ Ht) Hok Hh) as Hst. destruct (decodeStep hash d headers b (b :: data)) as [r1 d1] eqn:E1. destruct (specStep limit s headers b (b :: data)) as [r2 s1] eqn:E2. destruct Hst as (<- & _ & Hr).
  destruct (decodeStep_tracked _ _ _ _ _ _ _ _ _ Ht Hok Hh E1 E2) as [Ht1 (k & _ & Hto)]. destruct r1 as [[hs rest] | e]; [| intros [= _ <-] [= _ <-]; split; [exact Ht1 | by exists k]]. destruct Hr as (_ & H2 & H3). intros F1 F2. destruct (IH d1 s1 hs rest Ht1 H2 H3 F1 F2) as [Ht2 (k2 & Hto2)]. split; [exact Ht2 |]. exists (k + k2). by eapply touched_trans.
Qed.

Lemma memoOk_fields rd s data : memoOk rd s -> bytes_ok data ->
  exists r d' s', DecodeInto hash (rd_dec rd) data = Some (r, d') /\ specDecode limit s data = Some (r, s') /\ memoOk (with_rd rd d') s'.
Proof.
  intros Hmo Hok. pose proof Hmo as [Ht _]. destruct (decodeLoop_refines hash limit (length data) (rd_dec rd) s [] data Hlimit (le_n _) (tr_ok _ _ _ Ht) Hok ltac:(done)) as (r & d' & s' & E1 & E2 & _ & _). exists r, d', s'. split; [exact E1 |]. split; [exact E2 |].
  destruct (decodeLoop_tracked _ _ _ [] _ _ _ _ _ Ht Hok ltac:(done) E1 E2) as [Ht' (k & Hto)]. by eapply memoOk_touched.
Qed.

End Refinement.

(** ** A connection *)

(** The header blocks of a connection in the order they are complete: requests,
    and the blocks [handleH2Trailers] reads field by field. *)
Inductive headerBlock := requestBlock (data : bytes) | fieldBlock (data : bytes).
Definition blockBytes (b : headerBlock) : bytes := match b with requestBlock data | fieldBlock data => data end.
Abbreviation request := (bytes * bytes * bytes * bytes * bytes * bytes * Z * Z * bool * bool)%type.
Inductive blockResult := asRequest (r : res requestErr (list field * request * bool)) | asFields (r : res hpackErr (list field)).

Fixpoint readBlocks (hash : bytes -> Z) (rd : requestDecoder) (blocks : list headerBlock) : option (list blockResult * requestDecoder) :=
  match blocks with
  | [] => Some ([], rd)
  | requestBlock data :: blocks =>
      match DecodeRequest hash rd data with
      | None => None
      | Some (r, rd) => match readBlocks hash rd blocks with None => None | Some (rs, rd) => Some (asRequest (shown r) :: rs, rd) end
      end
  | fieldBlock data :: blocks =>
      match DecodeInto hash (rd_dec rd) data with
      | None => None
      | Some (r, d) => match readBlocks hash (with_rd rd d) blocks with None => None | Some (rs, rd) => Some (asFields r :: rs, rd) end
      end
  end.

Fixpoint servedReadBlocks (limit maxList : Z) (allow : bool) (s : Z * list field) (blocks : list headerBlock) : option (list blockResult * (Z * list field)) :=
  match blocks with
  | [] => Some ([], s)
  | requestBlock data :: blocks =>
      match servedRequest limit maxList allow s data with
      | None => None
      | Some (r, s) => match servedReadBlocks limit maxList allow s blocks with None => None | Some (rs, s) => Some (asRequest (shownSpec r) :: rs, s) end
      end
  | fieldBlock data :: blocks =>
      match specDecode limit s data with
      | None => None
      | Some (r, s) => match servedReadBlocks limit maxList allow s blocks with None => None | Some (rs, s) => Some (asFields r :: rs, s) end
      end
  end.

Definition newRequestDecoder (tableSize maxList : Z) (allow : bool) : requestDecoder := mkRequestDecoder (newHpackDecoder tableSize) [] [] (newMeta false) false allow maxList.

Lemma newRequestDecoder_ok limit maxList allow : 0 <= limit -> memoOk limit (newRequestDecoder limit maxList allow) (limit, []).
Proof. intros H. apply mkMemoOk; [| done]. apply mkTracked; [by apply newHpackDecoder_ok | by constructor | done | done]. Qed.

Lemma readBlocks_refines hash limit blocks rd s : 0 <= limit < 2 ^ 32 -> memoOk limit rd s -> Forall (fun b => bytes_ok (blockBytes b) /\ zlen (blockBytes b) < 2 ^ 63) blocks ->
  exists rs rd' s', readBlocks hash rd blocks = Some (rs, rd') /\ servedReadBlocks limit (rd_maxHeaderListSize rd) (allowExtendedConnect rd) s blocks = Some (rs, s') /\ memoOk limit rd' s'.
Proof.
  intros Hl Hmo Hb. revert rd s Hmo. induction Hb as [| [data | data] blocks [Hok Hlen] _ IH]; intros rd s Hmo; cbn [readBlocks servedReadBlocks blockBytes] in *; [by exists [], rd, s | |].
  - destruct (DecodeRequest_refines hash limit Hl rd s data Hmo Hok Hlen) as (r & rd1 & r0 & s1 & -> & -> & Hmo1 & -> & Em & Ea). destruct (IH rd1 s1 Hmo1) as (rs & rd2 & s2 & -> & E2 & Hmo2). rewrite Em, Ea in E2. rewrite E2. by eexists _, _, _.
  - destruct (memoOk_fields hash limit Hl rd s data Hmo Hok) as (r & d1 & s1 & -> & -> & Hmo1). destruct (IH _ s1 Hmo1) as (rs & rd2 & s2 & -> & E2 & Hmo2). cbn [rd_maxHeaderListSize allowExtendedConnect with_rd] in E2. rewrite E2. by eexists _, _, _.
Qed.

(** The blocks read by the plain decoder. *)
Inductive plainResult := plainRequest (r : res requestErr (list field * hpackRequestMeta)) | plainFields (r : res hpackErr (list field)).

Fixpoint specReadBlocks (limit : Z) (allow : bool) (s : Z * list field) (blocks : list headerBlock) : option (list plainResult * (Z * list field)) :=
  match blocks with
  | [] => Some ([], s)
  | requestBlock data :: blocks =>
      match specRequest limit allow s data with
      | None => None
      | Some (r, s) => match specReadBlocks limit allow s blocks with None => None | Some (rs, s) => Some (plainRequest r :: rs, s) end
      end
  | fieldBlock data :: blocks =>
      match specDecode limit s data with
      | None => None
      | Some (r, s) => match specReadBlocks limit allow s blocks with None => None | Some (rs, s) => Some (plainFields r :: rs, s) end
      end
  end.

(** What the server makes of a block against what the plain decoder reads in it.
    Errors and trailers are the same. A request is the same, and so are its
    fields, but that a block of the simple form has its path cleaned in the list;
    it is refused exactly when that list is larger than the limit. *)
Inductive blockServed (maxList : Z) : headerBlock -> blockResult -> plainResult -> Prop :=
| served_fields data r : blockServed maxList (fieldBlock data) (asFields r) (plainFields r)
| served_error data e : blockServed maxList (requestBlock data) (asRequest (Err e)) (plainRequest (Err e))
| served_request data hs m : simpleForm data = false ->
    blockServed maxList (requestBlock data) (asRequest (if maxList <? fieldListSize hs then Err errH2HeaderListTooLarge else Ok (hs, visible m, isRootRequest m))) (plainRequest (Ok (hs, m)))
| served_simple data raw hs m : simpleForm data = true -> hs = simpleHeaders (sanitizeRequestPath raw) -> m_path m = sanitizeRequestPath raw -> m_rawPath m = raw ->
    blockServed maxList (requestBlock data) (asRequest (if maxList <? fieldListSize hs then Err errH2HeaderListTooLarge else Ok (hs, visible m, isRootRequest m))) (plainRequest (Ok (simpleHeaders raw, m))).

Lemma served_plain limit maxList allow s data r s' : servedRequest limit maxList allow s data = Some (r, s') ->
  exists r0, specRequest limit allow s data = Some (r0, s') /\ blockServed maxList (requestBlock data) (asRequest (shownSpec r)) (plainRequest r0).
Proof.
  unfold servedRequest, specRequest. destruct (specRequestLoop _ limit s _ [] data) as [[[[hs m] | e] s1] |] eqn:E; [| intros [= <- <-]; eexists; split; [reflexivity | constructor] | done]. cbv zeta. intros [= <- <-]. eexists. split; [reflexivity |]. destruct (simpleForm data) eqn:Es.
  - destruct (simple_shape data Es) as (body & raw & n & Hd & Hs & Hn & Hl). destruct (simple_spec limit s allow body raw n Hs Hn Hl) as (r0 & E0 & Hr0). rewrite <- Hd, E in E0. injection E0 as <- _. destruct (isValidH2Path raw); [| done]. destruct (validate _); [| done]. destruct Hr0 as (m' & [= -> ->] & Hv).
    unfold visible in Hv. injection Hv as _ V1 V2 _ _ _ _ _ _ _. pose proof (served_simple maxList data raw _ m' Es eq_refl V1 V2) as H. change (map cleanPath (simpleHeaders raw)) with (simpleHeaders (sanitizeRequestPath raw)). by destruct (maxList <? _).
  - pose proof (served_request maxList data hs m Es) as H. by destruct (maxList <? _).
Qed.

Lemma servedRead_plain limit maxList allow blocks s rs s' : servedReadBlocks limit maxList allow s blocks = Some (rs, s') ->
  exists rs0, specReadBlocks limit allow s blocks = Some (rs0, s') /\ Forall3 (blockServed maxList) blocks rs rs0.
Proof.
  revert s rs. induction blocks as [| [data | data] blocks IH]; intros s rs; cbn [servedReadBlocks specReadBlocks]; [intros [= <- <-]; exists []; split; [done | constructor] | |].
  - destruct (servedRequest limit maxList allow s data) as [[r s1] |] eqn:E; [| done]. destruct (served_plain _ _ _ _ _ _ _ E) as (r0 & -> & Hb). destruct (servedReadBlocks _ _ _ s1 blocks) as [[rs1 s2] |] eqn:E1; [| done]. intros [= <- <-]. destruct (IH _ _ E1) as (rs0 & -> & Hf). eexists. split; [reflexivity | by constructor].
  - destruct (specDecode limit s data) as [[r s1] |] eqn:E; [| done]. destruct (servedReadBlocks _ _ _ s1 blocks) as [[rs1 s2] |] eqn:E1; [| done]. intros [= <- <-]. destruct (IH _ _ E1) as (rs0 & -> & Hf). eexists. split; [reflexivity |]. constructor; [constructor | done].
Qed.

(** C27: the decoder of HTTP/2 requests is total and implements a plain decoder.
    Over any sequence of header blocks of a connection (requests and trailers in
    any order, any bytes) its results are those of a decoder that has no memo of
    the last block, no short cut for simple GET requests, no Huffman cache, keeps
    the dynamic table as a list and adds the header list up field by field: the
    generation counter never leaves a stale memo, and the estimate of the header
    list never lets a list over the limit through. They differ in one place, which
    the statement spells out: for the blocks the short cut takes (":method: GET", a
    literal path and ":scheme: https") the list of fields has the cleaned path in
    place of the one sent, and is measured with it; the request, its raw path
    included, is the same. *)
Theorem hpack_request_refines hash limit maxList allow blocks : 0 <= limit < 2 ^ 32 -> Forall (fun b => bytes_ok (blockBytes b) /\ zlen (blockBytes b) < 2 ^ 63) blocks ->
  exists rs rd' rs0 s', readBlocks hash (newRequestDecoder limit maxList allow) blocks = Some (rs, rd') /\ specReadBlocks limit allow (limit, []) blocks = Some (rs0, s') /\
    Forall3 (blockServed maxList) blocks rs rs0 /\ memoOk limit rd' s'.
Proof.
  intros Hl Hb. destruct (readBlocks_refines hash limit blocks (newRequestDecoder limit maxList allow) (limit, [])) as (rs & rd' & s' & E1 & E2 & Hmo); [done | apply newRequestDecoder_ok; lia | done |].
  destruct (servedRead_plain _ _ _ _ _ _ _ E2) as (rs0 & E0 & Hf). by exists rs, rd', rs0, s'.
Qed.

(** A request that adds its authority to the table, one that refers to it twice
    in a row, trailers that push another field in front, the same block again,
    which now refers to that field, a simple GET and a list over the limit. *)
Definition demo_connection : list headerBlock :=
  [requestBlock [0x82; 0x86; 0x84; 0x41; 0x03; 97; 46; 98]; requestBlock [0x82; 0x86; 0x84; 0xbe]; requestBlock [0x82; 0x86; 0x84; 0xbe];
   fieldBlock [0x40; 1; 120; 1; 121]; requestBlock [0x82; 0x86; 0x84; 0xbe]; requestBlock ([0x82; 0x04; 7] ++ str "/a/../b" ++ [0x87]); requestBlock [0x82; 0x86; 0x84; 0xbe; 0xbe; 0xbe]].

Lemma hpack_request_refines_witness : exists rs rd' rs0 s', readBlocks (fun _ => 0) (newRequestDecoder 4096 200 false) demo_connection = Some (rs, rd') /\
  specReadBlocks 4096 false (4096, []) demo_connection = Some (rs0, s') /\ Forall3 (blockServed 200) demo_connection rs rs0 /\
  let plain path raw := (str "GET", path, raw, [] : bytes) in
  let http path := [(str ":method", str "GET"); (str ":scheme", str "http"); (str ":path", path)] in
  rs = [asRequest (Ok (http (str "/") ++ [(str ":authority", str "a.b")], (plain (str "/") (str "/"), str "http", str "a.b", 4, -1, false, false), true));
        asRequest (Ok (http (str "/") ++ [(str ":authority", str "a.b")], (plain (str "/") (str "/"), str "http", str "a.b", 4, -1, false, false), true));
        asRequest (Ok (http (str "/") ++ [(str ":authority", str "a.b")], (plain (str "/") (str "/"), str "http", str "a.b", 4, -1, false, false), true));
        asFields (Ok [(str "x", str "y")]);
        asRequest (Ok (http (str "/") ++ [(str "x", str "y")], (plain (str "/") (str "/"), str "http", [], 4, -1, false, false), true));
        asRequest (Ok ([(str ":method", str "GET"); (str ":path", str "/b"); (str ":scheme", str "https")], (plain (str "/b") (str "/a/../b"), str "https", [], 3, -1, false, false), false));
        asRequest (Err errH2HeaderListTooLarge)].
Proof.
  assert (Hl : 0 <= 4096 < 2 ^ 32) by lia.
  assert (Hb : Forall (fun b => bytes_ok (blockBytes b) /\ zlen (blockBytes b) < 2 ^ 63) demo_connection) by (unfold bytes_ok, is_u8; apply (bool_decide_unpack _); by vm_compute).
  destruct (hpack_request_refines (fun _ => 0) 4096 200 false demo_connection Hl Hb) as (rs & rd' & rs0 & s' & E1 & E2 & Hf & _). exists rs, rd', rs0, s'. split; [exact E1 |]. split; [exact E2 |]. split; [exact Hf |]. vm_compute in E1. injection E1 as <- _. vm_compute. reflexivity.
Defined.
