(* ===== verification/HpackValid.v ===== *)
(** What an accepted HTTP/2 request satisfies (src/core/hpack.go, [observeHeader]
    and [validate]): the pseudo-header fields, the fields that follow them, the
    declared length and the form of the path. *)
From stdpp Require Import base list numbers strings.
From Stdlib Require Import ZArith Lia ZifyBool.
From S2P Require Import Prelude Utils H1Scan HttpText HpackInt Huffman HpackTable HpackDyn Hpack HpackProofs Chunked HpackRequest HpackRequestProofs HpackMemo.

Open Scope list_scope.
Open Scope Z_scope.

(** ** The effect of one field *)

Definition pseudoNames : list bytes := [str ":method"; str ":scheme"; str ":path"; str ":authority"; str ":protocol"].
Definition bitOf (name : bytes) : Z :=
  if bytes_eqb name (str ":method") then hpackPseudoMethod else if bytes_eqb name (str ":scheme") then hpackPseudoScheme else if bytes_eqb name (str ":path") then hpackPseudoPath
  else if bytes_eqb name (str ":authority") then hpackPseudoAuthority else hpackPseudoProtocol.

(** A field that is not a pseudo-header field: its name is lower case and its
    value clean, and it says nothing about the connection. *)
Definition regularField (f : field) : Prop :=
  isValidH2FieldName f.1 = true /\ znth f.1 0 <> 58 /\ isValidH2FieldValue f.2 = true /\ isH2ConnectionSpecificField f.1 f.2 = false.

(** The values a pseudo-header field may have. *)
Definition pseudoValue (f : field) : Prop :=
  (f.1 = str ":method" -> f.2 = [] \/ isH2Method f.2 = true) /\ (f.1 = str ":path" -> isValidH2Path f.2 = true) /\
  (f.1 = str ":authority" -> ValidateHost f.2 = true /\ isValidH2FieldValue f.2 = true) /\ (f.1 = str ":scheme" -> isValidH2FieldValue f.2 = true).

Definition cleaned (value : bytes) : bytes := if bytes_eqb value [slash] then [slash] else sanitizeRequestPath value.

Lemma cleaned_sanitize value : cleaned value = sanitizeRequestPath value.
Proof. unfold cleaned. destruct (bytes_eqb value [slash]) eqn:E; [| done]. apply bytes_eqb_spec in E as ->. by vm_compute. Qed.

Inductive observed (m : hpackRequestMeta) : field -> hpackRequestMeta -> Prop :=
| obs_method value : observed m (str ":method", value) (set_method m (mark m hpackPseudoMethod) value)
| obs_path value : observed m (str ":path", value) (set_path m (mark m hpackPseudoPath) (sanitizeRequestPath value) value (splitPathQuery value).2)
| obs_scheme value : observed m (str ":scheme", value) (set_scheme m (mark m hpackPseudoScheme) value)
| obs_authority value : observed m (str ":authority", value) (set_authority m (mark m hpackPseudoAuthority) value)
| obs_protocol value : m_allowProtocol m = true -> observed m (str ":protocol", value) (set_protocol m (mark m hpackPseudoProtocol) (negb (zlen value =? 0)) (EqualFoldASCII value (str "websocket"))).

Lemma observe_cases m f m' : observeHeader m f.1 f.2 = Some m' ->
  (m_sawRegular m = false /\ seen m (bitOf f.1) = false /\ pseudoValue f /\ observed m f m') \/
  (regularField f /\ ((f.1 <> str "content-length" /\ m' = set_regular m) \/
    (f.1 = str "content-length" /\ exists n, parseUint f.2 = Some n /\ (m_hasContentLength m = true -> n = m_contentLength m) /\ m' = set_length (set_regular m) n))).
Proof.
  destruct f as [name value]. cbn [fst snd]. unfold observeHeader. destruct (isValidH2FieldName name) eqn:En; [| done]. cbn [negb]. destruct (znth name 0 =? 58) eqn:Ec.
  - destruct (m_sawRegular m); [done |]. intros H. left. split; [done |]. unfold bitOf, pseudoValue. cbn [fst snd].
    destruct (bytes_eqb name (str ":method")) eqn:E1; [apply bytes_eqb_spec in E1 as -> | destruct (bytes_eqb name (str ":path")) eqn:E2; [apply bytes_eqb_spec in E2 as -> |]].
    + destruct (seen m hpackPseudoMethod); [done |]. cbn [orb] in H. destruct (negb (zlen value =? 0) && _) eqn:Ev; [done |]. injection H as <-. split; [done |]. split; [| constructor]. split_and!; try done. intros _. destruct value as [| x value]; [by left | right]. rewrite zlen_cons in Ev. pose proof (zlen_nonneg value). by destruct (isH2Method (x :: value)); [| cbn in Ev; lia].
    + destruct (seen m hpackPseudoPath) eqn:Es; [done |]. cbn [orb] in H. destruct (isValidH2Path value) eqn:Ev; [| done]. injection H as <-. fold (cleaned value). rewrite cleaned_sanitize. split; [exact Es |]. split; [| constructor]. by split_and!.
    + destruct (isValidH2FieldValue value) eqn:Ev; [| done]. cbn [negb] in H. destruct (bytes_eqb name (str ":scheme")) eqn:E3; [apply bytes_eqb_spec in E3 as -> | destruct (bytes_eqb name (str ":authority")) eqn:E4; [apply bytes_eqb_spec in E4 as -> | destruct (bytes_eqb name (str ":protocol")) eqn:E5; [apply bytes_eqb_spec in E5 as -> | done]]].
      * destruct (seen m hpackPseudoScheme); [done |]. injection H as <-. split; [done |]. split; [by split_and! | constructor].
      * destruct (seen m hpackPseudoAuthority) eqn:Es; [done |]. destruct (ValidateHost value) eqn:Eh; [| done]. injection H as <-. split; [first [exact Es | reflexivity] |]. split; [by split_and! | constructor].
      * destruct (m_allowProtocol m) eqn:Ea; [| done]. cbn [negb orb] in H. destruct (seen m hpackPseudoProtocol) eqn:Es; [done |]. injection H as <-. split; [first [exact Es | reflexivity] |]. split; [by split_and! | by constructor].
  - destruct (isValidH2FieldValue value) eqn:Ev; [| done]. cbn [negb]. destruct (isH2ConnectionSpecificField name value) eqn:Ei; [done |]. intros H. right. split; [split_and!; try done; cbn [fst]; lia |]. destruct (bytes_eqb name (str "content-length")) eqn:El.
    + apply bytes_eqb_spec in El. right. split; [done |]. destruct (parseUint value) as [n |]; [| done]. exists n. split; [done |]. cbn [m_hasContentLength m_contentLength set_regular] in H. destruct (m_hasContentLength m); cbn [andb] in H; [| by injection H as <-]. destruct (n =? m_contentLength m) eqn:Eq; [| done]. injection H as <-. split; [intros _; lia | done].
    + left. injection H as <-. split; [| done]. intros ->. done.
Qed.

Lemma seen_mark m bit bit' : seen (set_regular m) bit = seen m bit /\ Z.land (mark m bit') bit = Z.lor (Z.land (m_pseudoMask m) bit) (Z.land bit' bit).
Proof. split; [done |]. unfold mark. apply Z.land_lor_distr_l. Qed.

Lemma mask_seen x bit bit' : negb (Z.land (Z.lor x bit') bit =? 0) = negb (Z.land x bit =? 0) || negb (Z.land bit' bit =? 0).
Proof.
  rewrite Z.land_lor_distr_l. destruct (Z.land x bit =? 0) eqn:E1, (Z.land bit' bit =? 0) eqn:E2; cbn [negb orb]; rewrite ?negb_true_iff, ?negb_false_iff, ?Z.eqb_eq, ?Z.eqb_neq in *; rewrite Z.lor_eq_0_iff; tauto.
Qed.

(** ** The fields read so far *)

Definition valueOf (fields : list field) (name : bytes) : bytes := default [] (assoc_get fields name).

Lemma assoc_get_snoc (fields : list field) name n v : assoc_get (fields ++ [(n, v)]) name = match assoc_get fields name with Some x => Some x | None => if bytes_eqb n name then Some v else None end.
Proof. induction fields as [| [k x] fields IH]; [done |]. cbn [app assoc_get]. by destruct (bytes_eqb k name). Qed.

Lemma assoc_get_None (fields : list field) name : name ∉ map fst fields -> assoc_get fields name = None.
Proof. induction fields as [| [k x] fields IH]; [done |]. cbn [map fst assoc_get]. rewrite not_elem_of_cons. intros [H1 H2]. destruct (bytes_eqb k name) eqn:E; [apply bytes_eqb_spec in E; congruence | by apply IH]. Qed.

Lemma valueOf_snoc fields n v name : n ∉ map fst fields -> valueOf (fields ++ [(n, v)]) name = if bytes_eqb n name then v else valueOf fields name.
Proof.
  intros H. unfold valueOf. rewrite assoc_get_snoc. destruct (bytes_eqb n name) eqn:E; [apply bytes_eqb_spec in E as <-; by rewrite assoc_get_None |]. by destruct (assoc_get fields name).
Qed.

(** The state after the pseudo-header fields [ps] and the fields [rs]. *)
Record readSoFar (allow : bool) (ps rs : list field) (m : hpackRequestMeta) : Prop := mkReadSoFar {
  rf_regular : m_sawRegular m = false -> rs = [];
  rf_nodup : NoDup (map fst ps);
  rf_pseudo : Forall (fun f => f.1 ∈ pseudoNames /\ pseudoValue f /\ (f.1 = str ":protocol" -> allow = true)) ps;
  rf_fields : Forall regularField rs;
  rf_seen : forall name, name ∈ pseudoNames -> seen m (bitOf name) = bool_decide (name ∈ map fst ps);
  rf_allow : m_allowProtocol m = allow;
  rf_method : m_method m = valueOf ps (str ":method");
  rf_scheme : m_scheme m = valueOf ps (str ":scheme");
  rf_authority : m_authority m = valueOf ps (str ":authority");
  rf_raw : m_rawPath m = valueOf ps (str ":path");
  rf_query : m_query m = (splitPathQuery (m_rawPath m)).2;
  rf_path : m_path m = if bool_decide (str ":path" ∈ map fst ps) then sanitizeRequestPath (m_rawPath m) else [];
  rf_protocol : m_protocolSet m = negb (zlen (valueOf ps (str ":protocol")) =? 0);
  rf_websocket : m_protocolWebSocket m = EqualFoldASCII (valueOf ps (str ":protocol")) (str "websocket");
  rf_length : forall v, (str "content-length", v) ∈ rs -> m_hasContentLength m = true /\ parseUint v = Some (m_contentLength m);
  rf_declared : m_hasContentLength m = true -> exists v, (str "content-length", v) ∈ rs;
  rf_count : m_headerCount m = zlen ps + zlen rs }.

Lemma readSoFar_start allow : readSoFar allow [] [] (newMeta allow).
Proof. apply mkReadSoFar; try done; try apply NoDup_nil_2; try apply Forall_nil_2. intros v H. by apply not_elem_of_nil in H. Qed.

Lemma bit_distinct : forall n1 n2, n1 ∈ pseudoNames -> n2 ∈ pseudoNames -> negb (Z.land (bitOf n1) (bitOf n2) =? 0) = bool_decide (n2 = n1).
Proof. intros n1 n2 H1 H2. unfold pseudoNames in *. rewrite !elem_of_cons, elem_of_nil in H1, H2. by destruct H1 as [-> | [-> | [-> | [-> | [-> | []]]]]], H2 as [-> | [-> | [-> | [-> | [-> | []]]]]]. Qed.

Lemma pseudo_snoc (ps : list field) name value : NoDup (map fst ps) -> name ∉ map fst ps -> NoDup (map fst (ps ++ [(name, value)])).
Proof. intros H1 H2. rewrite map_app. apply NoDup_app. split_and!; [exact H1 | | apply NoDup_singleton]. intros x Hx Hn. apply list_elem_of_singleton in Hn. cbn in Hn. congruence. Qed.

Lemma seen_snoc m bits (ps : list field) name value : name ∈ pseudoNames -> (forall n, n ∈ pseudoNames -> seen m (bitOf n) = bool_decide (n ∈ map fst ps)) -> bits = mark m (bitOf name) ->
  forall n, n ∈ pseudoNames -> negb (Z.land bits (bitOf n) =? 0) = bool_decide (n ∈ map fst (ps ++ [(name, value)])).
Proof.
  intros Hn Hs -> n Hin. unfold mark. rewrite mask_seen, bit_distinct by done. fold (seen m (bitOf n)). rewrite Hs by done. rewrite <- bool_decide_or. apply bool_decide_ext. rewrite map_app, elem_of_app. cbn [map fst]. by rewrite list_elem_of_singleton.
Qed.

(** The comparisons of the names, which are constants. *)
Ltac names_compute :=
  repeat match goal with
  | |- context [bytes_eqb ?a ?b] => let v := eval vm_compute in (bytes_eqb a b) in change (bytes_eqb a b) with v
  | |- context [bool_decide (str ?a = str ?b)] => let v := eval vm_compute in (bool_decide (str a = str b)) in change (bool_decide (str a = str b)) with v
  end; cbv iota.

(** A pseudo-header field after others. *)
Lemma read_pseudo allow ps m f m' : readSoFar allow ps [] m -> m_sawRegular m = false -> seen m (bitOf f.1) = false -> pseudoValue f -> observed m f m' -> readSoFar allow (ps ++ [f]) [] (count_header m').
Proof.
  intros R Hr Hs Hv Ho. assert (Hname : f.1 ∈ pseudoNames) by (unfold pseudoNames; rewrite !elem_of_cons; destruct Ho; cbn [fst]; tauto). assert (Hnew : f.1 ∉ map fst ps) by (intros H; rewrite (rf_seen _ _ _ _ R) in Hs by done; by apply bool_decide_eq_false in Hs).
  destruct R as [R1 R2 R3 R4 R5 R6 R7 R8 R9 R10 R11 R12 R13 R14 R15 R16 R17]. pose proof (fun bits => seen_snoc m bits ps f.1 f.2 Hname R5) as Hbits. assert (Hval : forall n, valueOf (ps ++ [f]) n = if bytes_eqb f.1 n then f.2 else valueOf ps n) by (intros n; destruct f; by apply valueOf_snoc).
  assert (Hpath : bool_decide (str ":path" ∈ map fst (ps ++ [f])) = bool_decide (str ":path" ∈ map fst ps) || bool_decide (str ":path" = f.1)) by (rewrite <- bool_decide_or; apply bool_decide_ext; rewrite map_app, elem_of_app; cbn [map fst]; by rewrite list_elem_of_singleton).
  assert (Hall : Forall (fun f => f.1 ∈ pseudoNames /\ pseudoValue f /\ (f.1 = str ":protocol" -> allow = true)) (ps ++ [f])).
  { apply Forall_app. split; [exact R3 |]. apply Forall_singleton. split_and!; [exact Hname | exact Hv |]. destruct Ho; intros E; vm_compute in E; try discriminate E. congruence. }
  assert (Hnd : NoDup (map fst (ps ++ [f]))) by (destruct f; by apply pseudo_snoc).
  assert (Hcount : m_headerCount m' + 1 = zlen (ps ++ [f]) + zlen (@nil field)) by (clear - Ho R17; rewrite zlen_snoc; change (zlen (@nil field)) with 0 in *; destruct Ho; cbn [m_headerCount set_method set_path set_scheme set_authority set_protocol]; lia).
  destruct Ho; (apply mkReadSoFar; rewrite ?Hval, ?Hpath; cbn [fst snd]; [exact R1 | exact Hnd | exact Hall | exact R4 | exact (Hbits _ eq_refl) | exact R6 | first [exact R7 | reflexivity] | first [exact R8 | reflexivity] | first [exact R9 | reflexivity] | first [exact R10 | reflexivity] | first [exact R11 | reflexivity] | | first [exact R13 | reflexivity] | first [exact R14 | reflexivity] | exact R15 | exact R16 | exact Hcount]); names_compute; rewrite ?orb_true_r, ?orb_false_r; first [exact R12 | reflexivity].
Qed.

(** A field after the pseudo-header fields. *)
Lemma read_regular allow ps rs m f : readSoFar allow ps rs m -> regularField f -> f.1 <> str "content-length" -> readSoFar allow ps (rs ++ [f]) (count_header (set_regular m)).
Proof.
  intros [R1 R2 R3 R4 R5 R6 R7 R8 R9 R10 R11 R12 R13 R14 R15 R16 R17] Hf Hn. apply mkReadSoFar; try assumption; [discriminate | by apply Forall_app; split; [| apply Forall_singleton] | | | ].
  - intros v. rewrite elem_of_app, list_elem_of_singleton. intros [H | E]; [exact (R15 v H) | destruct Hn; by rewrite <- E].
  - intros H. destruct (R16 H) as [v Hv]. exists v. apply elem_of_app. by left.
  - rewrite zlen_snoc. cbn [m_headerCount count_header set_regular]. clear - R17. lia.
Qed.

Lemma read_length allow ps rs m f n : readSoFar allow ps rs m -> regularField f -> f.1 = str "content-length" -> parseUint f.2 = Some n -> (m_hasContentLength m = true -> n = m_contentLength m) ->
  readSoFar allow ps (rs ++ [f]) (count_header (set_length (set_regular m) n)).
Proof.
  intros [R1 R2 R3 R4 R5 R6 R7 R8 R9 R10 R11 R12 R13 R14 R15 R16 R17] Hf Hn Hp He. apply mkReadSoFar; try assumption; [discriminate | by apply Forall_app; split; [| apply Forall_singleton] | | | ].
  - intros v. rewrite elem_of_app, list_elem_of_singleton. intros [H | <-]; (split; [done |]); cbn [m_contentLength count_header set_length]; [| exact Hp]. destruct (R15 v H) as [H1 H2]. by rewrite (He H1).
  - intros _. exists f.2. apply elem_of_app. right. apply list_elem_of_singleton. by rewrite <- Hn, <- surjective_pairing.
  - rewrite zlen_snoc. cbn [m_headerCount count_header set_regular set_length]. clear - R17. lia.
Qed.

(** The list of fields read, split after its pseudo-header fields. *)
Definition readList (allow : bool) (headers : list field) (m : hpackRequestMeta) : Prop := exists ps rs, headers = ps ++ rs /\ readSoFar allow ps rs m.

Lemma take_reads allow m headers f hs m' : readList allow headers m -> takeField m headers f = Some (hs, m') -> readList allow hs m'.
Proof.
  intros (ps & rs & -> & R). unfold takeField. destruct (observeHeader m f.1 f.2) as [m1 |] eqn:Eo; [| done]. intros [= <- <-]. destruct (observe_cases m f m1 Eo) as [(H1 & H2 & H3 & H4) | [Hf [[Hn ->] | (Hn & n & Hp & He & ->)]]].
  - assert (rs = []) as -> by exact (rf_regular _ _ _ _ R H1). exists (ps ++ [f]), []. split; [by rewrite !app_nil_r |]. by apply (read_pseudo allow ps m).
  - exists ps, (rs ++ [f]). split; [by rewrite app_assoc |]. by apply read_regular.
  - exists ps, (rs ++ [f]). split; [by rewrite app_assoc |]. by apply read_length.
Qed.

Lemma step_reads limit s m headers b data hs m' rest s' allow : readList allow headers m -> specRequestStep limit s m headers b data = (Ok (hs, m', rest), s') -> readList allow hs m'.
Proof.
  intros R. assert (Hlim : forall s0 hs0 m0 r0, readList allow hs0 m0 -> limitSpec s0 hs0 m0 r0 = (Ok (hs, m', rest), s') -> readList allow hs m') by (unfold limitSpec; intros s0 hs0 m0 r0 R0; destruct (_ <? _); [done |]; by intros [= <- <- _ _]).
  assert (Htake : forall s0 s1 f r0, match takeField m headers f with None => badSpec s0 | Some (hs, m) => limitSpec s1 hs m r0 end = (Ok (hs, m', rest), s') -> readList allow hs m').
  { intros s0 s1 f r0. destruct (takeField m headers f) as [[hs1 m1] |] eqn:Et; [| done]. apply Hlim. by apply (take_reads allow m headers f). }
  destruct s as [max l]. unfold specRequestStep. destruct (128 <=? b); [| destruct (64 <=? b); [| destruct (32 <=? b)]].
  - destruct (HpackDecodeInt data 7) as [idx n]. destruct (n <=? 0); [done |]. destruct (specLookup l idx) as [f |]; [apply Htake | done].
  - destruct (specLiteral l 6 data) as [[[name val] rest0] | e]; [apply Htake | done].
  - destruct (0 <? _); [done |]. destruct (HpackDecodeInt data 5) as [n k]. destruct (k <=? 0); [done |]. destruct (limit <? n); [done |]. by apply Hlim.
  - destruct (specLiteral l 4 data) as [[[name val] rest0] | e]; [apply Htake | done].
Qed.

Lemma loop_reads fuel limit s m headers data hs m' s' allow : readList allow headers m -> specRequestLoop fuel limit s m headers data = Some (Ok (hs, m'), s') -> readList allow hs m' /\ validate m' = true.
Proof.
  revert s m headers data. induction fuel as [| fuel IH]; intros s m headers [| b data] R; cbn [specRequestLoop]; try done.
  1, 2: destruct (validate m) eqn:Ev; [| done]; intros [= <- <- _]; done.
  destruct (specRequestStep limit s m headers b (b :: data)) as [[[[hs1 m1] rest] | e] s1] eqn:Es; [| done]. apply IH. by eapply step_reads.
Qed.

(** ** Accepted requests *)

(** The form [validate] asks for, by the kind of the request. *)
Definition requestForm (allow : bool) (ps : list field) (m : hpackRequestMeta) : Prop :=
  let value := valueOf ps in
  ((str ":protocol" ∉ map fst ps) /\ m_method m <> str "CONNECT" /\ m_method m <> [] /\ m_scheme m <> [] /\ ((exists p, m_rawPath m = slash :: p) \/ (m_rawPath m = str "*" /\ m_method m = str "OPTIONS"))) \/
  ((str ":protocol" ∉ map fst ps) /\ m_method m = str "CONNECT" /\ m_authority m <> [] /\ m_scheme m = [] /\ (str ":path" ∉ map fst ps)) \/
  (allow = true /\ value (str ":protocol") <> [] /\ m_method m = str "CONNECT" /\ m_authority m <> [] /\ m_scheme m <> [] /\ exists p, m_rawPath m = slash :: p).

Lemma zlen_is_nil (b : bytes) : (zlen b =? 0) = true <-> b = [].
Proof. destruct b as [| x b]; [done |]. rewrite zlen_cons. pose proof (zlen_nonneg b). split; [lia | done]. Qed.

Lemma zlen_not_nil (b : bytes) : negb (zlen b =? 0) = true <-> b <> [].
Proof. rewrite negb_true_iff. destruct (zlen b =? 0) eqn:E; split; try done; [apply zlen_is_nil in E; done |]. intros _ ->. done. Qed.

Lemma sanitize_not_nil path : sanitizeRequestPath path <> [].
Proof. rewrite sanitize_cut. destruct (sanitizeSplit_spec (until pathStop path)) as [(q & E) _]. by rewrite E. Qed.

Lemma first_slash (b : bytes) : znth b 0 = slash -> exists p, b = slash :: p.
Proof. destruct b as [| x b]; [done |]. change (znth (x :: b) 0) with x. intros ->. by exists b. Qed.

Lemma validate_form allow ps rs m : readSoFar allow ps rs m -> validate m = true -> requestForm allow ps m.
Proof.
  intros R. unfold validate, validateConnect, requestForm. pose proof (rf_seen _ _ _ _ R (str ":protocol") ltac:(unfold pseudoNames; rewrite !elem_of_cons; tauto)) as Hp. change (bitOf (str ":protocol")) with hpackPseudoProtocol in Hp. rewrite Hp. destruct (bool_decide (str ":protocol" ∈ map fst ps)) eqn:Ep; cbn [orb].
  - rewrite !andb_true_iff, !zlen_not_nil, bytes_eqb_spec. intros [[[[[[H1 H2] H3] H4] H5] H6] H7]. right; right. rewrite (rf_protocol _ _ _ _ R) in H2. apply zlen_not_nil in H2. split_and!; try done; [| apply first_slash; clear - H7; lia].
    apply bool_decide_eq_true in Ep. apply list_elem_of_fmap in Ep as (f & Ef & Hf). pose proof (rf_pseudo _ _ _ _ R) as Hall. rewrite Forall_forall in Hall. destruct (Hall f Hf) as (_ & _ & Ha). by apply Ha.
  - apply bool_decide_eq_false in Ep. destruct (bytes_eqb (m_method m) (str "CONNECT")) eqn:Ec.
    + apply bytes_eqb_spec in Ec. rewrite !andb_true_iff, zlen_not_nil, !zlen_is_nil. intros [[H1 H2] H3]. right; left. split_and!; try done. intros Hin. rewrite (rf_path _ _ _ _ R), bool_decide_eq_true_2 in H3 by done. by apply sanitize_not_nil in H3.
    + rewrite !andb_true_iff, !zlen_not_nil. intros [[[H1 H2] H3] H4]. left. split_and!; try done; [intros E; by rewrite E in Ec |]. unfold pathFormValid in H4. destruct (m_rawPath m) as [| c p] eqn:Er; [done |]. apply orb_true_iff in H4 as [H4 | H4]; [left; exists p; f_equal; clear - H4; lia |]. apply andb_true_iff in H4 as [H4 H5]. apply bytes_eqb_spec in H4, H5. right. by rewrite H4.
Qed.

(** An accepted request: the fields are pseudo-header fields, each at most once,
    then fields that are lower case, clean and not about the connection; the
    request is read off them, and the lengths declared agree. *)
Definition wellFormed (allow : bool) (fields : list field) (m : hpackRequestMeta) : Prop :=
  exists ps rs, (fields = ps ++ rs \/ fields = map cleanPath (ps ++ rs)) /\ NoDup (map fst ps) /\ Forall (fun f => f.1 ∈ pseudoNames /\ pseudoValue f /\ (f.1 = str ":protocol" -> allow = true)) ps /\ Forall regularField rs /\
    m_method m = valueOf ps (str ":method") /\ m_scheme m = valueOf ps (str ":scheme") /\ m_authority m = valueOf ps (str ":authority") /\ m_rawPath m = valueOf ps (str ":path") /\
    m_path m = (if bool_decide (str ":path" ∈ map fst ps) then sanitizeRequestPath (m_rawPath m) else []) /\
    (forall v, (str "content-length", v) ∈ rs -> parseUint v = Some (declaredLength m)) /\ (declaredLength m <> -1 -> exists v, (str "content-length", v) ∈ rs) /\
    requestForm allow ps m.

Lemma request_wellFormed limit maxList allow s data hs m s' : servedRequest limit maxList allow s data = Some (Ok (hs, m), s') -> wellFormed allow hs m.
Proof.
  unfold servedRequest. destruct (specRequestLoop _ limit s _ [] data) as [[[[hs0 m0] | e] s0] |] eqn:E; [| done | done]. cbv zeta. destruct (maxList <? _); [done |]. intros [= <- <- _].
  destruct (loop_reads _ _ _ _ _ _ _ _ _ allow ltac:(exists [], []; split; [done | apply readSoFar_start]) E) as [(ps & rs & -> & R) Hv]. exists ps, rs. pose proof (validate_form _ _ _ _ R Hv). unfold declaredLength. split_and!; try apply R; [by destruct (simpleForm data); [right | left] | | | done].
  - intros v Hin. destruct (rf_length _ _ _ _ R v Hin) as [-> ->]. done.
  - destruct (m_hasContentLength m0) eqn:Eh; [| done]. intros _. by apply (rf_declared _ _ _ _ R).
Qed.

Definition acceptedOk (allow : bool) (maxList : Z) (r : blockResult) : Prop :=
  match r with asRequest (Ok (hs, req, isRoot)) => exists m, req = visible m /\ isRoot = isRootRequest m /\ wellFormed allow hs m /\ fieldListSize hs <= maxList | _ => True end.

Lemma specRead_accepted limit maxList allow s blocks rs s' : servedReadBlocks limit maxList allow s blocks = Some (rs, s') -> Forall (acceptedOk allow maxList) rs.
Proof.
  revert s rs. induction blocks as [| [data | data] blocks IH]; intros s rs; cbn [servedReadBlocks]; [by intros [= <- _] | |].
  - destruct (servedRequest limit maxList allow s data) as [[r s1] |] eqn:E; [| done]. destruct (servedReadBlocks _ _ _ s1 blocks) as [[rs1 s2] |] eqn:E1; [| done]. intros [= <- <-]. constructor; [| by eapply IH]. destruct r as [[hs m] | e]; [| done]. exists m. split_and!; [done | done | by eapply request_wellFormed |].
    unfold servedRequest in E. destruct (specRequestLoop _ limit s _ [] data) as [[[[hs0 m0] | e] s0] |]; [| done | done]. cbv zeta in E. destruct (maxList <? _) eqn:El; [done |]. injection E as <- _ _. clear - El. lia.
  - destruct (specDecode limit s data) as [[r s1] |]; [| done]. destruct (servedReadBlocks _ _ _ s1 blocks) as [[rs1 s2] |] eqn:E1; [| done]. intros [= <- <-]. constructor; [exact I | by eapply IH].
Qed.

(** C28: whatever a connection sends, an HTTP/2 request the decoder accepts is
    well formed: its pseudo-header fields are known, come first and occur once,
    ":protocol" only where extended CONNECT is allowed; every other field has a
    lower-case name, a value without line breaks or surrounding blanks and does
    not speak of the connection; method, scheme, authority and path are those
    fields, the path with its dot segments resolved; all content-length fields
    declare the length the request reports; an ordinary request has a method, a
    scheme and a path that starts with a slash ("*" for OPTIONS), CONNECT has an
    authority alone; and the fields are within the limit on the header list. *)
Theorem h2_request_wellformed hash limit maxList allow blocks rs rd' : 0 <= limit < 2 ^ 32 -> Forall (fun b => bytes_ok (blockBytes b) /\ zlen (blockBytes b) < 2 ^ 63) blocks ->
  readBlocks hash (newRequestDecoder limit maxList allow) blocks = Some (rs, rd') -> Forall (acceptedOk allow maxList) rs.
Proof.
  intros Hl Hb Hr. destruct (readBlocks_refines hash limit blocks (newRequestDecoder limit maxList allow) (limit, []) Hl ltac:(apply newRequestDecoder_ok; lia) Hb) as (rs1 & rd1 & s1 & E1 & E2 & _). rewrite E1 in Hr. injection Hr as <- <-. by eapply specRead_accepted.
Qed.

Lemma h2_request_wellformed_witness : exists rs rd', readBlocks (fun _ => 0) (newRequestDecoder 4096 200 false) demo_connection = Some (rs, rd') /\ length rs = 7%nat /\ Forall (acceptedOk false 200) rs.
Proof.
  assert (Hl : 0 <= 4096 < 2 ^ 32) by lia.
  assert (Hb : Forall (fun b => bytes_ok (blockBytes b) /\ zlen (blockBytes b) < 2 ^ 63) demo_connection) by (unfold bytes_ok, is_u8; apply (bool_decide_unpack _); by vm_compute).
  destruct (readBlocks (fun _ => 0) (newRequestDecoder 4096 200 false) demo_connection) as [[rs rd'] |] eqn:E; [| vm_compute in E; discriminate E].
  exists rs, rd'. split; [reflexivity |]. split; [vm_compute in E; injection E as <- _; reflexivity |]. exact (h2_request_wellformed (fun _ => 0) 4096 200 false demo_connection rs rd' Hl Hb E).
Defined.

(** ** Where the code differs from what it says *)

Definition outcome {A B : Type} (r : option (res requestErr A * B)) : option (res requestErr A) := fst <$> r.

(** A GET with the path "/a/../b", and one with a content-length that is a
    literal without indexing. *)
Definition dottedBlock : bytes := [0x82; 0x04; 7] ++ str "/a/../b" ++ [0x87].
Definition lengthBlock : bytes := [0x82; 0x84; 0x87; 0x0f; 0x0d; 1; 53].

(** Two places where the HPACK request decoder does not do what it says.
    [DecodeIntoRequest] "decodes like [DecodeInto]", but on a simple GET the list
    has the path with its dot segments removed instead of the one sent; and
    [DecodeRequestMeta], which only skips values it does not need, refuses a
    request that [DecodeRequest] accepts, because it checks the empty string it
    read in place of a content-length. *)
Theorem hpack_request_divergences :
  let hash := fun _ : bytes => 0 in let d := newHpackDecoder 4096 in
  (exists d', DecodeInto hash d dottedBlock = Some (Ok (simpleHeaders (str "/a/../b")), d')) /\
  (exists m d', DecodeIntoRequest hash false d dottedBlock = Some (Ok (simpleHeaders (str "/b"), m), d')) /\
  (exists hs m d', DecodeIntoRequest hash false d lengthBlock = Some (Ok (hs, m), d') /\ declaredLength m = 5) /\
  outcome (DecodeRequestMeta hash false d lengthBlock) = Some (Err (errHpack ErrH2BadHeader)).
Proof. cbv zeta. split_and!; [eexists; vm_compute; reflexivity | eexists _, _; vm_compute; reflexivity | eexists _, _, _; split; vm_compute; reflexivity | vm_compute; reflexivity]. Qed.
