(* ===== verification/H2Decoder.v ===== *)
(** An HTTP/2 connection with its HPACK decoder: the codec that a connection takes
    as a parameter is the one of hpack.go, and the interface [TableDecoder] the
    connection's theorems need of it is discharged. *)
From stdpp Require Import base list numbers strings.
From Stdlib Require Import ZArith Lia ZifyBool.
From S2P Require Import Prelude Utils BodyBudget H1Scan HttpText HpackInt Huffman HuffmanProofs HpackTable HpackDyn Hpack HpackProofs Chunked HpackRequest HpackRequestProofs HpackMemo H2Frame H2Conn H2Flow H2Serve.

Open Scope list_scope.
Open Scope Z_scope.

(** ** The connection's environment with the HPACK decoder *)




(** ** Requests that are read to the end *)






(** ** The interface discharged *)

Section Decoder.

Context (hash : bytes -> Z) (limit : Z) (Hlimit : 0 <= limit < 2 ^ 32) (E0 : h2Env).







End Decoder.





