(* ===== verification/H1Head.v ===== *)
(** HTTP/1 request heads (src/core/h1_plain.go, h1_reject.go and the header
    lookup of request.go): the parser of the request line and the fields, the
    short cut for "GET /", and the headers a request remembers. The AVX2
    assembly routines are section variables. *)
From stdpp Require Import base list numbers strings.
From Stdlib Require Import ZArith Lia ZifyBool.
From S2P Require Import Prelude Utils H1Scan HttpText HpackDyn.

Open Scope list_scope.
Open Scope Z_scope.

Definition CR : Z := 13.
Definition LF : Z := 10.
Definition SP : Z := 32.

(** ** Small parts *)

Inductive h1RejectReason := h1RejectNone | h1RejectRequestLine | h1RejectName | h1RejectCTL | h1RejectFold | h1RejectNoColon | h1RejectHost | h1RejectTransferEncoding.
Inductive h1Expect := h1ExpectNone | h1ExpectContinue | h1ExpectUnknown.

#[export] Instance h1RejectReason_eq_dec : EqDecision h1RejectReason.
Proof. solve_decision. Defined.
#[export] Instance h1Expect_eq_dec : EqDecision h1Expect.
Proof. solve_decision. Defined.

Definition asciiEqualFoldBytes (line value : bytes) : bool :=
  (zlen line =? zlen value) && forallb (fun p => asciiLower (fst p) =? asciiLower (snd p)) (zip line value).

Definition classifyExpect (prev : h1Expect) (value : bytes) : h1Expect :=
  if bool_decide (prev = h1ExpectUnknown) || (zlen value =? 0) then prev
  else if asciiEqualFoldBytes value (str "100-continue") then h1ExpectContinue else h1ExpectUnknown.

Definition h1HeaderLineReject (line : bytes) : h1RejectReason :=
  if (znth line 0 =? 32) || (znth line 0 =? 9) then h1RejectFold
  else if IndexByte line 58 <=? 0 then h1RejectNoColon else h1RejectName.

(** The loop of [splitAbsoluteForm]: the index of the first '/' or '?'. *)
Fixpoint authorityEnd (after : bytes) (i : Z) : Z :=
  match after with [] => i | c :: after => if (c =? 47) || (c =? 63) then i else authorityEnd after (i + 1) end.
Definition splitAbsoluteForm (target : bytes) : option (bytes * bytes) :=
  let split schemeLen :=
    let after := zdrop schemeLen target in
    let e := authorityEnd after 0 in
    let rest := zdrop e after in
    Some (ztake e after, if (zlen rest =? 0) || (znth rest 0 =? 63) then slash :: rest else rest) in
  if (7 <=? zlen target) && EqualFoldASCII (ztake 7 target) (str "http://") then split 7
  else if (8 <=? zlen target) && EqualFoldASCII (ztake 8 target) (str "https://") then split 8
  else None.

(** [containsTokenFold]: a comma-separated list, one turn per part. *)
Fixpoint tokenListLoop (fuel : nat) (header token : bytes) : bool :=
  match header with
  | [] => false
  | _ :: _ =>
      match fuel with
      | O => false
      | S fuel =>
          let i := IndexByte header 44 in
          let '(part, rest) := if 0 <=? i then (ztake i header, zdrop (i + 1) header) else (header, []) in
          if EqualFoldASCII (trimOWS part) token then true else tokenListLoop fuel rest token
      end
  end.
Definition containsTokenFold (header token : bytes) : bool := tokenListLoop (length header) header token.

Definition connectionOptionList (options : bytes) : bool * bool := (containsTokenFold options (str "close"), containsTokenFold options (str "keep-alive")).
Definition connectionOptions (value : bytes) : bool * bool :=
  if asciiEqualFoldBytes value (str "keep-alive") then (false, true)
  else if asciiEqualFoldBytes value (str "close") then (true, false)
  else connectionOptionList value.

Definition validH1Version (v : bytes) : bool :=
  (zlen v =? 8) && bytes_eqb (ztake 7 v) (str "HTTP/1.") && ((znth v 7 =? 48) || (znth v 7 =? 49)).

(** ** The request *)

(** The headers with a slot of their own: [headerCacheMask] with the string of
    each bit that is set. *)
Inductive headerCacheKey := headerCacheContentLength | headerCacheConnection | headerCacheTransferEncoding | headerCacheHost | headerCacheAcceptEncoding | headerCacheOrigin
  | headerCacheXForwardedFor | headerCacheXRealIP | headerCacheAuthorization | headerCacheUpgrade | headerCacheWSKey | headerCacheWSVersion.
#[export] Instance headerCacheKey_eq_dec : EqDecision headerCacheKey.
Proof. solve_decision. Defined.

Definition headerCache : Type := list (headerCacheKey * bytes).
Fixpoint cacheGet (c : headerCache) (k : headerCacheKey) : option bytes :=
  match c with [] => None | (k', v) :: c => if bool_decide (k' = k) then Some v else cacheGet c k end.
Definition cacheSet (c : headerCache) (k : headerCacheKey) (v : bytes) : headerCache := (k, v) :: List.filter (fun e => negb (bool_decide (e.1 = k))) c.

Record h1Request := mkH1Request {
  q_Method : bytes;
  q_Proto : bytes;
  q_Path : bytes;
  q_Query : bytes;
  q_RawPath : bytes;
  q_Host : bytes;
  q_Headers : list field;
  q_expect : h1Expect;
  q_cache : headerCache;
  q_aliasesReadBuf : bool }.

Definition emptyRequest : h1Request := mkH1Request [] [] [] [] [] [] [] h1ExpectNone [] false.
Definition set_line (q : h1Request) (method proto path query raw : bytes) : h1Request := mkH1Request method proto path query raw (q_Host q) (q_Headers q) (q_expect q) (q_cache q) (q_aliasesReadBuf q).
Definition add_header (q : h1Request) (f : field) : h1Request := mkH1Request (q_Method q) (q_Proto q) (q_Path q) (q_Query q) (q_RawPath q) (q_Host q) (q_Headers q ++ [f]) (q_expect q) (q_cache q) (q_aliasesReadBuf q).
Definition set_host (q : h1Request) (host : bytes) : h1Request := mkH1Request (q_Method q) (q_Proto q) (q_Path q) (q_Query q) (q_RawPath q) host (q_Headers q) (q_expect q) (cacheSet (q_cache q) headerCacheHost host) (q_aliasesReadBuf q).
Definition set_expect (q : h1Request) (e : h1Expect) : h1Request := mkH1Request (q_Method q) (q_Proto q) (q_Path q) (q_Query q) (q_RawPath q) (q_Host q) (q_Headers q) e (q_cache q) (q_aliasesReadBuf q).
Definition set_cached (q : h1Request) (k : headerCacheKey) (v : bytes) : h1Request := mkH1Request (q_Method q) (q_Proto q) (q_Path q) (q_Query q) (q_RawPath q) (q_Host q) (q_Headers q) (q_expect q) (cacheSet (q_cache q) k v) (q_aliasesReadBuf q).
Definition set_aliases (q : h1Request) : h1Request := mkH1Request (q_Method q) (q_Proto q) (q_Path q) (q_Query q) (q_RawPath q) (q_Host q) (q_Headers q) (q_expect q) (q_cache q) true.

(** [findHeader] and [Header]; a lookup fills the slot. *)
Fixpoint findHeader (headers : list field) (name : bytes) : option bytes :=
  match headers with [] => None | h :: headers => if (zlen h.1 =? zlen name) && EqualFoldASCII h.1 name then Some h.2 else findHeader headers name end.
Definition cacheHeaderLookup (q : h1Request) (k : headerCacheKey) (name : bytes) : bytes * h1Request :=
  match cacheGet (q_cache q) k with
  | Some v => (v, q)
  | None => let v := default [] (findHeader (q_Headers q) name) in (v, set_cached q k v)
  end.
Definition cachedNames : list (bytes * headerCacheKey) :=
  [(str "Host", headerCacheHost); (str "Origin", headerCacheOrigin); (str "Upgrade", headerCacheUpgrade); (str "X-Real-IP", headerCacheXRealIP); (str "Connection", headerCacheConnection);
   (str "Authorization", headerCacheAuthorization); (str "Content-Length", headerCacheContentLength); (str "Accept-Encoding", headerCacheAcceptEncoding); (str "X-Forwarded-For", headerCacheXForwardedFor);
   (str "Transfer-Encoding", headerCacheTransferEncoding); (str "Sec-WebSocket-Key", headerCacheWSKey); (str "Sec-WebSocket-Version", headerCacheWSVersion)].
Definition Header (q : h1Request) (name : bytes) : bytes * h1Request :=
  match List.find (fun e => EqualFoldASCII name e.1) cachedNames with
  | Some (full, k) => cacheHeaderLookup q k full
  | None => (default [] (findHeader (q_Headers q) name), q)
  end.

(** ** The result and the state of the loop *)

Record h1Head := mkH1Head {
  headerEnd : Z;
  contentLength : Z;
  hasContentLength : bool;
  closeConn : bool;
  reject : h1RejectReason;
  chunkedEncoding : bool;
  tooLarge : bool;
  head_ok : bool }.
Definition headIncomplete : h1Head := mkH1Head 0 0 false false h1RejectNone false false false.
Definition headTooLarge : h1Head := mkH1Head 0 0 false false h1RejectNone false true false.
Definition headReject (r : h1RejectReason) : h1Head := mkH1Head 0 0 false false r false false true.

Record headState := mkHeadState {
  s_req : h1Request;
  s_contentLength : Z;
  s_hasContentLength : bool;
  s_close : bool;
  s_keepAlive : bool;
  s_badTE : bool;
  s_chunked : bool;
  s_hosts : Z }.
Definition with_req (s : headState) (q : h1Request) : headState := mkHeadState q (s_contentLength s) (s_hasContentLength s) (s_close s) (s_keepAlive s) (s_badTE s) (s_chunked s) (s_hosts s).
Definition with_length (s : headState) (n : Z) : headState := mkHeadState (s_req s) n true (s_close s) (s_keepAlive s) (s_badTE s) (s_chunked s) (s_hosts s).
Definition with_conn (s : headState) (close keep : bool) : headState := mkHeadState (s_req s) (s_contentLength s) (s_hasContentLength s) close keep (s_badTE s) (s_chunked s) (s_hosts s).
Definition with_te (s : headState) (bad chunked : bool) : headState := mkHeadState (s_req s) (s_contentLength s) (s_hasContentLength s) (s_close s) (s_keepAlive s) bad chunked (s_hosts s).
Definition with_hosts (s : headState) : headState := mkHeadState (s_req s) (s_contentLength s) (s_hasContentLength s) (s_close s) (s_keepAlive s) (s_badTE s) (s_chunked s) (s_hosts s + 1).
Definition cached (s : headState) (k : headerCacheKey) (v : bytes) : headState := with_req s (set_cached (s_req s) k v).

(** [(name[0] == upper || name[0] == lower) && EqualFoldASCII(name, full)]. *)
Definition nameIs (name full : bytes) : bool :=
  ((znth name 0 =? znth full 0) || (znth name 0 =? asciiLower (znth full 0))) && EqualFoldASCII name full.

Definition lengthField (s : headState) (val : bytes) : headState :=
  let parsed := parseUint val in
  with_length s
    (if s_hasContentLength s then
       match parsed with Some n => if (s_contentLength s <? 0) || negb (n =? s_contentLength s) then -1 else s_contentLength s | None => -1 end
     else match parsed with Some n => n | None => -1 end).

(** The switch over a field; [None] rejects the host. *)
Definition headField (s : headState) (name val : bytes) (hostSafe : bool) : option headState :=
  let n := zlen name in
  if n =? 4 then
      if nameIs name (str "Host") then
        let s := with_hosts s in
        if negb hostSafe && negb (ValidateHost val) then None else Some (with_req s (set_host (s_req s) val))
      else Some s
  else if n =? 6 then
      if nameIs name (str "Origin") then Some (cached s headerCacheOrigin val)
      else if nameIs name (str "Expect") then Some (with_req s (set_expect (s_req s) (classifyExpect (q_expect (s_req s)) val)))
      else Some s
  else if n =? 7 then Some (if nameIs name (str "Upgrade") then cached s headerCacheUpgrade val else s)
  else if n =? 9 then Some (if nameIs name (str "X-Real-IP") then cached s headerCacheXRealIP val else s)
  else if n =? 10 then
      Some (if nameIs name (str "Connection") then
              let s := cached s headerCacheConnection val in
              let '(closeRequested, keepAliveListed) := connectionOptions val in
              with_conn s (s_close s || closeRequested) (s_keepAlive s || keepAliveListed)
            else s)
  else if n =? 13 then Some (if nameIs name (str "Authorization") then cached s headerCacheAuthorization val else s)
  else if n =? 14 then Some (if nameIs name (str "Content-Length") then lengthField (cached s headerCacheContentLength val) val else s)
  else if n =? 15 then
      Some (if nameIs name (str "Accept-Encoding") then cached s headerCacheAcceptEncoding val
            else if nameIs name (str "X-Forwarded-For") then cached s headerCacheXForwardedFor val else s)
  else if n =? 17 then
      Some (if nameIs name (str "Transfer-Encoding") then
              let s := cached s headerCacheTransferEncoding val in
              if EqualFoldASCII val (str "chunked") then with_te s (s_badTE s) true else with_te s true (s_chunked s)
            else if nameIs name (str "Sec-WebSocket-Key") then cached s headerCacheWSKey val else s)
  else if n =? 21 then Some (if nameIs name (str "Sec-WebSocket-Version") then cached s headerCacheWSVersion val else s)
  else Some s.

(** The empty line: the checks on the whole head. *)
Definition headEnd (s : headState) (http10 : bool) (absolute : option bytes) (nl : Z) : h1Head * h1Request :=
  if s_badTE s || (s_chunked s && (s_hasContentLength s || http10)) then (headReject h1RejectTransferEncoding, s_req s)
  else if (1 <? s_hosts s) || ((s_hosts s =? 0) && negb http10) then (headReject h1RejectHost, s_req s)
  else
    let q := s_req s in
    let q := if http10 then set_expect q h1ExpectNone else q in
    let q := match absolute with Some host => set_host q host | None => q end in
    (mkH1Head (nl + 2) (s_contentLength s) (s_hasContentLength s) (s_close s || (http10 && negb (s_keepAlive s))) h1RejectNone (s_chunked s) false true, set_aliases q).

Definition h1ScalarScanMax : Z := 32.

Section Parse.

Context (hasAVX2 : bool) (firstH1SpecialAVX2 : bytes -> Z) (h1HeaderLineAVX2 : bytes -> Z * Z).

Definition firstH1Special (p : bytes) : Z := if hasAVX2 && (avx2ScanMinLen <=? zlen p) then firstH1SpecialAVX2 p else firstH1SpecialSWAR p.

(** [for pos := idx + 2; pos < len(data);]; every turn passes a line. *)
Fixpoint headLoop (fuel : nat) (data : bytes) (maxBytes maxCount : Z) (http10 : bool) (absolute : option bytes) (s : headState) (pos : Z) : option (h1Head * h1Request) :=
  if zlen data <=? pos then Some (headIncomplete, s_req s)
  else match fuel with
  | O => None
  | S fuel =>
      if maxBytes <? pos then Some (headTooLarge, s_req s)
      else
        let remaining := zdrop pos data in
        let '(special, nameEnd, hostSafe) :=
          if zlen remaining <? h1ScalarScanMax then h1HeaderLineScalar remaining
          else let '(special, nameEnd) := h1HeaderLineSpecials hasAVX2 h1HeaderLineAVX2 remaining in (special, nameEnd, false) in
        let '(lineEndOff, bad) := classifyFirstSpecial remaining special in
        if bad then Some (headReject h1RejectCTL, s_req s)
        else if lineEndOff <? 0 then Some (if maxBytes <? zlen data then headTooLarge else headIncomplete, s_req s)
        else
          let nl := pos + lineEndOff in
          if nl =? pos then Some (headEnd s http10 absolute nl)
          else
            let line := zslice data pos nl in
            if negb (validH1Colon line nameEnd) then Some (headReject (h1HeaderLineReject line), s_req s)
            else
              let name := ztake nameEnd line in
              let val := trimOWS (zdrop (nameEnd + 1) line) in
              let s := with_req s (add_header (s_req s) (name, val)) in
              if maxCount <? zlen (q_Headers (s_req s)) then Some (mkH1Head (nl + 2) (s_contentLength s) (s_hasContentLength s) (s_close s) h1RejectNone (s_chunked s) true false, s_req s)
              else
                match headField s name val hostSafe with
                | None => Some (headReject h1RejectHost, s_req s)
                | Some s => headLoop fuel data maxBytes maxCount http10 absolute s (nl + 2)
                end
  end.

Definition defaultMaxHeaderCount : Z := 128.

Definition parseH1RequestHead (data : bytes) (req : h1Request) (maxHeaderBytes maxHeaderCount : Z) : option (h1Head * h1Request) :=
  let maxBytes := if maxHeaderBytes <=? 0 then 8192 else maxHeaderBytes in
  let maxCount := if maxHeaderCount <=? 0 then defaultMaxHeaderCount else maxHeaderCount in
  let '(idx, bad) := classifyFirstSpecial data (firstH1Special data) in
  if bad then Some (headReject h1RejectRequestLine, req)
  else if idx <? 0 then Some (if maxBytes <? zlen data then headTooLarge else headIncomplete, req)
  else
    let rl := ztake idx data in
    let sp1 := IndexByte rl SP in
    if sp1 <? 0 then Some (headReject h1RejectRequestLine, req)
    else
      let sp2 := IndexByte (zdrop (sp1 + 1) rl) SP in
      if sp2 <=? 0 then Some (headReject h1RejectRequestLine, req)
      else
        let sp2 := sp2 + (sp1 + 1) in
        if negb (validH1Version (zdrop (sp2 + 1) rl)) then Some (headReject h1RejectRequestLine, req)
        else
          let http10 := znth rl (sp2 + 8) =? 48 in
          let proto := if http10 then str "HTTP/1.0" else str "HTTP/1.1" in
          let methodBytes := ztake sp1 rl in
          if negb (isH1Token methodBytes) then Some (headReject h1RejectRequestLine, set_line req (q_Method req) proto (q_Path req) (q_Query req) (q_RawPath req))
          else
            let rawURI := zslice rl (sp1 + 1) sp2 in
            let absolute := if (0 <? zlen rawURI) && negb (znth rawURI 0 =? slash) then splitAbsoluteForm rawURI else None in
            let badHost := match absolute with Some (host, _) => (zlen host =? 0) || negb (ValidateHost host) | None => false end in
            if badHost then Some (headReject h1RejectHost, set_line req methodBytes proto (q_Path req) (q_Query req) (q_RawPath req))
            else
              let rawURI := match absolute with Some (_, target) => target | None => rawURI end in
              let '(pathPart, query) := splitPathQuery rawURI in
              let req := set_line req methodBytes proto (sanitizeSplitPath pathPart) query rawURI in
              headLoop (length data) data maxBytes maxCount http10 (fst <$> absolute) (mkHeadState req 0 false false false false false 0) (idx + 2).

End Parse.
