(* ===== verification/H1HeadProofs.v ===== *)
(** HTTP/1 request heads: the parser against the lines of the head, what an
    accepted head is, and that the verdict does not depend on how the bytes
    arrive. *)
From stdpp Require Import base list numbers strings.
From Stdlib Require Import ZArith Lia ZifyBool.
From S2P Require Import Prelude Utils H1Scan HttpText HpackDyn H1Head.

Open Scope list_scope.
Open Scope Z_scope.

(** ** Lines *)

Inductive cutRes := CutNone | CutBad | CutLine (line rest : bytes).

(** The bytes up to CR LF; a control character before it is bad. *)
Fixpoint cutLine (p : bytes) : cutRes :=
  match p with
  | [] => CutNone
  | c :: p' =>
      if isH1Special c then
        if c =? CR then match p' with [] => CutNone | d :: rest => if d =? LF then CutLine [] rest else CutBad end else CutBad
      else match cutLine p' with CutLine line rest => CutLine (c :: line) rest | r => r end
  end.

Definition plain (l : bytes) : Prop := Forall (fun c => isH1Special c = false) l.

Lemma cut_line p line rest : cutLine p = CutLine line rest -> p = line ++ CR :: LF :: rest /\ plain line.
Proof.
  revert line. induction p as [| c p IH]; intros line; cbn [cutLine]; [done |]. destruct (isH1Special c) eqn:Ec.
  - destruct (c =? CR) eqn:E; [| done]. destruct p as [| d p]; [done |]. destruct (d =? LF) eqn:E2; [| done]. intros [= <- <-]. assert (c = CR) as -> by lia. assert (d = LF) as -> by lia. split; [done | constructor].
  - destruct (cutLine p) as [| | l r]; try done. intros [= <- <-]. destruct (IH l eq_refl) as [-> Hl]. split; [done | by constructor].
Qed.

Lemma cut_render line rest : plain line -> cutLine (line ++ CR :: LF :: rest) = CutLine line rest.
Proof. induction 1 as [| c line Hc _ IH]; [done |]. cbn [app cutLine]. by rewrite Hc, IH. Qed.

Lemma cut_app p q : match cutLine p with CutNone => True | CutBad => cutLine (p ++ q) = CutBad | CutLine line rest => cutLine (p ++ q) = CutLine line (rest ++ q) end.
Proof.
  induction p as [| c p IH]; cbn [cutLine app]; [done |]. destruct (isH1Special c); [destruct (c =? CR); [| done]; destruct p as [| d p]; [done |]; cbn [app]; by destruct (d =? LF) |]. destruct (cutLine p) as [| | line rest]; [done | by rewrite IH | by rewrite IH].
Qed.

(** What the scan and [classifyFirstSpecial] make of the bytes. *)
Lemma classify_cut p i : 0 <= i -> forall full, (zlen full = i + zlen p /\ forall k, 0 <= k -> znth full (i + k) = znth p k) ->
  match cutLine p with
  | CutNone => classifyFirstSpecial full (scanTail p i) = (-1, false)
  | CutBad => (classifyFirstSpecial full (scanTail p i)).2 = true
  | CutLine line _ => classifyFirstSpecial full (scanTail p i) = (i + zlen line, false)
  end.
Proof.
  revert i. induction p as [| c p IH]; intros i Hi full [Hl Hn]; cbn [cutLine scanTail]; [done |]. rewrite zlen_cons in Hl. pose proof (zlen_nonneg p). destruct (isH1Special c) eqn:Ec.
  - unfold classifyFirstSpecial, classifyH1Special. replace (i <? 0) with false by lia. pose proof (Hn 0 ltac:(lia)) as H0. rewrite Z.add_0_r in H0. rewrite H0. change (znth (c :: p) 0) with c. unfold CR. destruct (c =? 13) eqn:E; [| done].
    destruct p as [| d p]; [change (zlen (@nil Z)) with 0 in Hl; by replace (i + 1 =? zlen full) with true by lia |]. rewrite zlen_cons in Hl. pose proof (zlen_nonneg p). replace (i + 1 =? zlen full) with false by lia. rewrite (Hn 1) by lia. change (znth (c :: d :: p) 1) with d. unfold LF. destruct (d =? 10); [by rewrite Z.add_0_r | done].
  - specialize (IH (i + 1) ltac:(lia) full). assert (Hf : zlen full = i + 1 + zlen p /\ forall k, 0 <= k -> znth full (i + 1 + k) = znth p k).
    { split; [lia |]. intros k Hk. replace (i + 1 + k) with (i + (k + 1)) by lia. rewrite Hn by lia. unfold znth. by replace (Z.to_nat (k + 1)) with (S (Z.to_nat k)) by lia. }
    specialize (IH Hf). destruct (cutLine p) as [| | line rest]; [done | done |]. rewrite IH. f_equal. rewrite zlen_cons. lia.
Qed.

Lemma classify_first p : match cutLine p with
  | CutNone => classifyFirstSpecial p (scanTail p 0) = (-1, false)
  | CutBad => (classifyFirstSpecial p (scanTail p 0)).2 = true
  | CutLine line _ => classifyFirstSpecial p (scanTail p 0) = (zlen line, false)
  end.
Proof. pose proof (classify_cut p 0 ltac:(lia) p ltac:(split; [lia | done])) as H. by destruct (cutLine p). Qed.

(** ** Fields *)

(** A field line: a token, a colon, and the rest. *)
Fixpoint tokenPrefix (l : bytes) : bytes * bytes :=
  match l with [] => ([], []) | c :: l' => if h1TokenChar c then let '(t, r) := tokenPrefix l' in (c :: t, r) else ([], l) end.
Definition fieldOf (line : bytes) : option (bytes * bytes) :=
  let '(name, rest) := tokenPrefix line in match name, rest with _ :: _, 58 :: value => Some (name, value) | _, _ => None end.

Lemma tokenPrefix_app l : let '(t, r) := tokenPrefix l in l = t ++ r /\ Forall (fun c => h1TokenChar c = true) t /\ match r with c :: _ => h1TokenChar c = false | [] => True end.
Proof. induction l as [| c l IH]; cbn [tokenPrefix]; [done |]. destruct (h1TokenChar c) eqn:E; [| done]. destruct (tokenPrefix l) as [t r]. destruct IH as (-> & H1 & H2). split_and!; [done | by constructor | done]. Qed.

Lemma tokenPrefix_token t r : Forall (fun c => h1TokenChar c = true) t -> match r with c :: _ => h1TokenChar c = false | [] => True end -> tokenPrefix (t ++ r) = (t, r).
Proof. induction 1 as [| c t Hc _ IH]; intros Hr; cbn [app tokenPrefix]; [destruct r as [| c r]; cbn [tokenPrefix]; [done | by rewrite Hr] |]. rewrite Hc. by rewrite IH. Qed.

Lemma token_plain c : h1TokenChar c = true -> isH1Special c = false.
Proof. unfold h1TokenChar, isH1Special, tokenPunct. cbn [existsb]. lia. Qed.

Lemma nonToken_prefix l c r i : h1TokenChar c = false -> nonTokenLoop (l ++ c :: r) i = i + zlen (tokenPrefix l).1.
Proof.
  intros Hc. revert i. induction l as [| x l IH]; intros i; cbn [app nonTokenLoop tokenPrefix]; [rewrite Hc; cbn [negb fst]; unfold zlen; cbn [length]; lia |]. destruct (h1TokenChar x); cbn [negb]; [| cbn [fst]; unfold zlen; cbn [length]; lia]. rewrite IH. destruct (tokenPrefix l) as [t r']. cbn [fst]. rewrite zlen_cons. lia.
Qed.

Lemma nonToken_none p i : nonTokenLoop p i = -1 -> 0 <= i -> Forall (fun c => h1TokenChar c = true) p.
Proof. revert i. induction p as [| c p IH]; intros i; cbn [nonTokenLoop]; [constructor |]. destruct (h1TokenChar c) eqn:E; cbn [negb]; [| lia]. intros H Hi. constructor; [done | by apply (IH (i + 1)); [| lia]]. Qed.

Lemma scanTail_plain p : plain p -> forall q i, scanTail (p ++ q) i = scanTail q (i + zlen p).
Proof. induction 1 as [| c p Hc _ IH]; intros q i; [by rewrite Z.add_0_r |]. cbn [app scanTail]. rewrite Hc, IH, zlen_cons. f_equal. lia. Qed.

(** The header scan finds the first control character of the whole slice. *)
Lemma lineSWAR_special p : bytes_ok p -> (h1HeaderLineSWAR p).1 = scanTail p 0.
Proof.
  intros Hp. unfold h1HeaderLineSWAR, firstNonTokenByte. destruct (scalarName_spec p 0 ltac:(lia)) as [[_ E] | (k & Hk & E & _)]; rewrite E.
  - cbn [fst]. pose proof (nonToken_none p 0 E ltac:(lia)) as Ht. assert (Hpl : plain p) by (eapply Forall_impl; [exact Ht | apply token_plain]). rewrite <- (app_nil_r p), (scanTail_plain p Hpl [] 0). done.
  - rewrite Z.add_0_l in *. replace (Z.of_nat k <? 0) with false by lia. unfold firstH1SpecialSWAR, zdrop. rewrite Nat2Z.id, swarLoop_spec by (by apply Forall_drop).
    assert (Ht : Forall (fun c => h1TokenChar c = true) (take k p)).
    { clear Hp Hk. revert p E. assert (G : forall p i, 0 <= i -> nonTokenLoop p i = i + Z.of_nat k -> Forall (fun c => h1TokenChar c = true) (take k p)); [| by intros p E; apply (G p 0)].
      induction k as [| k IHk]; intros p i Hi E; [constructor |]. destruct p as [| c p]; cbn [nonTokenLoop] in E; [lia |]. destruct (h1TokenChar c) eqn:Ec; cbn [negb] in E; [| lia]. cbn [take]. constructor; [done |]. apply (IHk p (i + 1)); lia. }
    assert (Hpl : plain (take k p)) by (eapply Forall_impl; [exact Ht | apply token_plain]). rewrite <- (take_drop k p) at 3. rewrite (scanTail_plain _ Hpl), Z.add_0_l. assert (zlen (take k p) = Z.of_nat k) as -> by (unfold zlen; rewrite length_take; lia). rewrite (scanTail_shift (drop k p) (Z.of_nat k)). by destruct (scanTail (drop k p) 0 <? 0).
Qed.

Lemma lineSWAR_both p : bytes_ok p -> h1HeaderLineSWAR p = (scanTail p 0, firstNonTokenByte p).
Proof.
  intros Hp. rewrite <- (lineSWAR_special p Hp). unfold h1HeaderLineSWAR. cbv zeta. destruct (firstNonTokenByte p <? 0) eqn:E; [| by destruct (firstH1SpecialSWAR (zdrop (firstNonTokenByte p) p) <? 0)]. cbn [fst]. f_equal. unfold firstNonTokenByte in *. destruct (scalarName_spec p 0 ltac:(lia)) as [[_ E'] | (k & _ & E' & _)]; rewrite E' in *; lia.
Qed.

Lemma dropOWS_sub v c : c ∈ dropOWS v -> c ∈ v.
Proof. induction v as [| x v IH]; cbn [dropOWS]; [done |]. destruct (isOWS x); [| done]. intros H. apply elem_of_cons. right. by apply IH. Qed.

Lemma trimOWS_sub v c : c ∈ trimOWS v -> c ∈ dropOWS v.
Proof. unfold trimOWS. rewrite list_elem_of_In, <- in_rev, <- list_elem_of_In. intros H. apply dropOWS_sub in H. by rewrite list_elem_of_In, <- in_rev, <- list_elem_of_In in H. Qed.

Lemma hostSafe_valid v : forallb hostByte (dropOWS v) = true -> ValidateHost (trimOWS v) = true.
Proof.
  intros H. rewrite (hostLoop_spec (trimOWS v) 0 0 0 0 : ValidateHost (trimOWS v) = forallb hostByte (trimOWS v)). rewrite forallb_forall in *. intros c Hc. apply H. apply list_elem_of_In, trimOWS_sub. by apply list_elem_of_In.
Qed.

(** ** The switch by folded names *)

Definition lower (name : bytes) : bytes := map asciiLower name.

Lemma nameIs_lower name full : 65 <= znth full 0 <= 90 -> nameIs name full = bytes_eqb (lower name) (lower full).
Proof.
  intros Hf. unfold nameIs. rewrite EqualFoldASCII_spec. unfold lower. destruct (bytes_eqb (map asciiLower name) (map asciiLower full)) eqn:E; [| by rewrite andb_false_r]. rewrite andb_true_r. apply bytes_eqb_spec in E. destruct name as [| x name], full as [| y full]; try done.
  injection E as E _. change (znth (x :: name) 0) with x. change (znth (y :: full) 0) with y in *. unfold asciiLower in *. destruct ((65 <=? x) && (x <=? 90)) eqn:Ex; destruct ((65 <=? y) && (y <=? 90)) eqn:Ey; lia.
Qed.

Definition refField (s : headState) (name val : bytes) : option headState :=
  let n := lower name in
  if bytes_eqb n (str "host") then (if ValidateHost val then Some (with_req (with_hosts s) (set_host (s_req s) val)) else None)
  else Some (if bytes_eqb n (str "origin") then cached s headerCacheOrigin val
  else if bytes_eqb n (str "expect") then with_req s (set_expect (s_req s) (classifyExpect (q_expect (s_req s)) val))
  else if bytes_eqb n (str "upgrade") then cached s headerCacheUpgrade val
  else if bytes_eqb n (str "x-real-ip") then cached s headerCacheXRealIP val
  else if bytes_eqb n (str "connection") then
    with_conn (cached s headerCacheConnection val) (s_close s || (connectionOptions val).1) (s_keepAlive s || (connectionOptions val).2)
  else if bytes_eqb n (str "authorization") then cached s headerCacheAuthorization val
  else if bytes_eqb n (str "content-length") then lengthField (cached s headerCacheContentLength val) val
  else if bytes_eqb n (str "accept-encoding") then cached s headerCacheAcceptEncoding val
  else if bytes_eqb n (str "x-forwarded-for") then cached s headerCacheXForwardedFor val
  else if bytes_eqb n (str "transfer-encoding") then
    (if EqualFoldASCII val (str "chunked") then with_te (cached s headerCacheTransferEncoding val) (s_badTE s) true else with_te (cached s headerCacheTransferEncoding val) true (s_chunked s))
  else if bytes_eqb n (str "sec-websocket-key") then cached s headerCacheWSKey val
  else if bytes_eqb n (str "sec-websocket-version") then cached s headerCacheWSVersion val else s).

Lemma lower_length name full : bytes_eqb (lower name) full = true -> zlen name = zlen full.
Proof. intros E. apply bytes_eqb_spec in E. subst full. unfold lower, zlen. by rewrite length_map. Qed.

Lemma headField_ref s name val hostSafe : (hostSafe = true -> ValidateHost val = true) -> headField s name val hostSafe = refField s name val.
Proof.
  intros Hsafe. unfold headField. rewrite !nameIs_lower by (vm_compute; split; discriminate).
  assert (Hhost : negb hostSafe && negb (ValidateHost val) = negb (ValidateHost val)) by (destruct hostSafe; [rewrite Hsafe by done |]; done). rewrite Hhost.
  change (lower (str "Host")) with (str "host"). change (lower (str "Origin")) with (str "origin"). change (lower (str "Expect")) with (str "expect"). change (lower (str "Upgrade")) with (str "upgrade"). change (lower (str "X-Real-IP")) with (str "x-real-ip").
  change (lower (str "Connection")) with (str "connection"). change (lower (str "Authorization")) with (str "authorization"). change (lower (str "Content-Length")) with (str "content-length"). change (lower (str "Accept-Encoding")) with (str "accept-encoding").
  change (lower (str "X-Forwarded-For")) with (str "x-forwarded-for"). change (lower (str "Transfer-Encoding")) with (str "transfer-encoding"). change (lower (str "Sec-WebSocket-Key")) with (str "sec-websocket-key"). change (lower (str "Sec-WebSocket-Version")) with (str "sec-websocket-version").
  unfold refField. cbv zeta.
  destruct (bytes_eqb (lower name) (str "host")) eqn:N0; [assert (L : zlen name = 4) by exact (lower_length _ _ N0); rewrite L; by destruct (ValidateHost val) |].
  destruct (bytes_eqb (lower name) (str "origin")) eqn:N1; [assert (L : zlen name = 6) by exact (lower_length _ _ N1); rewrite L; reflexivity |].
  destruct (bytes_eqb (lower name) (str "expect")) eqn:N2; [assert (L : zlen name = 6) by exact (lower_length _ _ N2); rewrite L; reflexivity |].
  destruct (bytes_eqb (lower name) (str "upgrade")) eqn:N3; [assert (L : zlen name = 7) by exact (lower_length _ _ N3); rewrite L; reflexivity |].
  destruct (bytes_eqb (lower name) (str "x-real-ip")) eqn:N4; [assert (L : zlen name = 9) by exact (lower_length _ _ N4); rewrite L; reflexivity |].
  destruct (bytes_eqb (lower name) (str "connection")) eqn:N5; [assert (L : zlen name = 10) by exact (lower_length _ _ N5); rewrite L; by destruct (connectionOptions val) |].
  destruct (bytes_eqb (lower name) (str "authorization")) eqn:N6; [assert (L : zlen name = 13) by exact (lower_length _ _ N6); rewrite L; reflexivity |].
  destruct (bytes_eqb (lower name) (str "content-length")) eqn:N7; [assert (L : zlen name = 14) by exact (lower_length _ _ N7); rewrite L; reflexivity |].
  destruct (bytes_eqb (lower name) (str "accept-encoding")) eqn:N8; [assert (L : zlen name = 15) by exact (lower_length _ _ N8); rewrite L; reflexivity |].
  destruct (bytes_eqb (lower name) (str "x-forwarded-for")) eqn:N9; [assert (L : zlen name = 15) by exact (lower_length _ _ N9); rewrite L; reflexivity |].
  destruct (bytes_eqb (lower name) (str "transfer-encoding")) eqn:N10; [assert (L : zlen name = 17) by exact (lower_length _ _ N10); rewrite L; by destruct (EqualFoldASCII val (str "chunked")) |].
  destruct (bytes_eqb (lower name) (str "sec-websocket-key")) eqn:N11; [assert (L : zlen name = 17) by exact (lower_length _ _ N11); rewrite L; reflexivity |].
  destruct (bytes_eqb (lower name) (str "sec-websocket-version")) eqn:N12; [assert (L : zlen name = 21) by exact (lower_length _ _ N12); rewrite L; reflexivity |].
  repeat match goal with |- context [if zlen name =? ?k then _ else _] => destruct (zlen name =? k) end; reflexivity.
Qed.

(** ** The head as lines *)

Inductive headEnding := EndOut | EndNone | EndBad | EndDone (rest : bytes).

Inductive headLines : bytes -> list bytes -> headEnding -> Prop :=
| hl_out : headLines [] [] EndOut
| hl_none p : p <> [] -> cutLine p = CutNone -> headLines p [] EndNone
| hl_bad p : cutLine p = CutBad -> headLines p [] EndBad
| hl_done p rest : cutLine p = CutLine [] rest -> headLines p [] (EndDone rest)
| hl_line p c line rest lines e : cutLine p = CutLine (c :: line) rest -> headLines rest lines e -> headLines p ((c :: line) :: lines) e.

Lemma headLines_total p : exists lines e, headLines p lines e.
Proof.
  remember (length p) as n eqn:Hn. revert p Hn. induction n as [n IH] using lt_wf_ind. intros p ->. destruct (cutLine p) as [| | line rest] eqn:E.
  - destruct p as [| c p]; [exists [], EndOut; constructor | exists [], EndNone; by constructor].
  - exists [], EndBad. by constructor.
  - destruct line as [| c line]; [exists [], (EndDone rest); by constructor |]. destruct (cut_line _ _ _ E) as [Hp _]. destruct (IH (length rest) ltac:(rewrite Hp, length_app; simpl; lia) rest eq_refl) as (lines & e & H). exists ((c :: line) :: lines), e. by eapply hl_line.
Qed.

(** The verdict over the lines, from position [pos] of [total] bytes. *)
Fixpoint judge (lines : list bytes) (e : headEnding) (total maxBytes maxCount : Z) (http10 : bool) (absolute : option bytes) (s : headState) (pos : Z) : h1Head * h1Request :=
  match lines with
  | [] =>
      match e with
      | EndOut => (headIncomplete, s_req s)
      | _ =>
          if maxBytes <? pos then (headTooLarge, s_req s)
          else match e with EndBad => (headReject h1RejectCTL, s_req s) | EndDone _ => headEnd s http10 absolute pos | _ => (if maxBytes <? total then headTooLarge else headIncomplete, s_req s) end
      end
  | line :: lines =>
      if maxBytes <? pos then (headTooLarge, s_req s)
      else match fieldOf line with
      | None => (headReject (h1HeaderLineReject line), s_req s)
      | Some (name, value) =>
          let val := trimOWS value in
          let s := with_req s (add_header (s_req s) (name, val)) in
          if maxCount <? zlen (q_Headers (s_req s)) then (mkH1Head (pos + zlen line + 2) (s_contentLength s) (s_hasContentLength s) (s_close s) h1RejectNone (s_chunked s) true false, s_req s)
          else match refField s name val with
          | None => (headReject h1RejectHost, s_req s)
          | Some s => judge lines e total maxBytes maxCount http10 absolute s (pos + zlen line + 2)
          end
      end
  end.

Section Scans.

Context (hasAVX2 : bool) (firstH1SpecialAVX2 : bytes -> Z) (h1HeaderLineAVX2 : bytes -> Z * Z).
Context (Hfirst : forall p, bytes_ok p -> avx2ScanMinLen <= zlen p -> firstH1SpecialAVX2 p = firstH1SpecialSWAR p).
Context (Hline : forall p, bytes_ok p -> avx2ScanMinLen <= zlen p -> h1HeaderLineAVX2 p = h1HeaderLineSWAR p).

Lemma firstSpecial_scan p : bytes_ok p -> firstH1Special hasAVX2 firstH1SpecialAVX2 p = scanTail p 0.
Proof.
  intros Hp. assert (Hs : firstH1SpecialSWAR p = scanTail p 0) by (by apply swarLoop_spec). unfold firstH1Special. destruct (hasAVX2 && _) eqn:E; [| done]. apply andb_true_iff in E as [_ E]. rewrite Hfirst by (done || lia). done.
Qed.

Lemma specials_spec p : bytes_ok p -> h1HeaderLineSpecials hasAVX2 h1HeaderLineAVX2 p = (scanTail p 0, firstNonTokenByte p).
Proof. intros Hp. rewrite <- (lineSWAR_both p Hp). unfold h1HeaderLineSpecials. destruct (hasAVX2 && _) eqn:E; [| done]. apply andb_true_iff in E as [_ E]. apply Hline; [done | lia]. Qed.

(** The scan of a line, whichever routine does it. *)
Definition scanLine (p : bytes) : Z * Z * bool :=
  if zlen p <? h1ScalarScanMax then h1HeaderLineScalar p else let '(special, nameEnd) := h1HeaderLineSpecials hasAVX2 h1HeaderLineAVX2 p in (special, nameEnd, false).

Lemma scanLine_spec p : bytes_ok p -> exists hostSafe, scanLine p = (scanTail p 0, firstNonTokenByte p, hostSafe) /\
  (hostSafe = true -> forallb hostByte (dropOWS (zslice p (firstNonTokenByte p + 1) (scanTail p 0))) = true).
Proof.
  intros Hp. unfold scanLine. destruct (zlen p <? h1ScalarScanMax) eqn:El.
  - destruct (h1_scans_agree p Hp) as [_ H]. destruct (h1HeaderLineScalar p) as [[special nameEnd] hostSafe]. destruct H as [H1 H2]. rewrite (lineSWAR_both p Hp) in H1. injection H1 as -> ->. exists hostSafe. split; [done |]. intros ->. symmetry in H2. by apply andb_true_iff in H2 as [_ H2].
  - exists false. split; [| done]. by rewrite (specials_spec p Hp).
Qed.

(** The name and the value the parser cuts out of a line. *)
Lemma line_field line rest : plain line ->
  let p := line ++ CR :: LF :: rest in
  firstNonTokenByte p = zlen (tokenPrefix line).1 /\ scanTail p 0 = zlen line /\
  validH1Colon line (firstNonTokenByte p) = bool_decide (is_Some (fieldOf line)) /\
  forall name value, fieldOf line = Some (name, value) -> ztake (firstNonTokenByte p) line = name /\ zdrop (firstNonTokenByte p + 1) line = value /\ zslice p (firstNonTokenByte p + 1) (zlen line) = value.
Proof.
  intros Hpl. cbv zeta. unfold firstNonTokenByte. rewrite (nonToken_prefix line CR (LF :: rest) 0) by done. rewrite (scanTail_plain line Hpl). cbn [scanTail]. change (isH1Special CR) with true. cbv iota. rewrite !Z.add_0_l. split; [done |]. split; [done |]. unfold fieldOf, validH1Colon. pose proof (tokenPrefix_app line) as Ht. destruct (tokenPrefix line) as [t r]. destruct Ht as (E & Ht & Hr). cbn [fst]. pose proof (zlen_nonneg t).
  assert (Hlen : zlen line = zlen t + zlen r) by (rewrite E; apply zlen_app). split.
  - destruct t as [| x t]; [rewrite bool_decide_eq_false_2; [done |]; intros [v Hv]; discriminate Hv |]. rewrite zlen_cons in *. pose proof (zlen_nonneg t). destruct r as [| c r].
    + change (zlen (@nil Z)) with 0 in Hlen. rewrite bool_decide_eq_false_2 by (intros [v Hv]; discriminate Hv). lia.
    + rewrite zlen_cons in Hlen. pose proof (zlen_nonneg r). assert (En : znth line (1 + zlen t) = c) by (rewrite E; unfold znth; replace (Z.to_nat (1 + zlen t)) with (length (x :: t)) by (unfold zlen; simpl; lia); rewrite app_nth2 by lia; by rewrite Nat.sub_diag). rewrite En.
      replace ((0 <? 1 + zlen t) && (1 + zlen t <? zlen line)) with true by lia. cbn [andb]. destruct (c =? 58) eqn:Ec; [assert (c = 58) as -> by lia; by rewrite bool_decide_eq_true_2 by done |]. rewrite bool_decide_eq_false_2; [done |]. intros [v Hv]. destruct c as [| q |]; try done; repeat (destruct q as [q | q |]; try done).
  - intros name value. destruct t as [| x t]; [done |]. destruct r as [| c r]; [done |]. intros Hf. assert (c = 58) as -> by (destruct c as [| q |]; try done; repeat (destruct q as [q | q |]; try done)). injection Hf as <- <-. subst line. split; [by rewrite ztake_app_exact |].
    assert (Hd : forall k, zdrop (zlen (x :: t) + 1) ((x :: t) ++ 58 :: k) = k) by (intros k; change ((x :: t) ++ 58 :: k) with ((x :: t) ++ [58] ++ k); rewrite app_assoc, <- (zlen_snoc (x :: t) 58); apply zdrop_app_exact). split; [apply Hd |].
    unfold zslice. replace (((x :: t) ++ 58 :: r) ++ CR :: LF :: rest) with ((x :: t) ++ 58 :: (r ++ CR :: LF :: rest)) by (by rewrite <- app_assoc). rewrite Hd, Hlen, (zlen_cons 58 r). replace (zlen (x :: t) + (1 + zlen r) - (zlen (x :: t) + 1)) with (zlen r) by lia. apply ztake_app_exact.
Qed.

(** The loop computes the verdict over the lines. *)
Lemma headLoop_judge fuel data maxBytes maxCount http10 absolute lines e : bytes_ok data -> forall s pos, 0 <= pos -> headLines (zdrop pos data) lines e -> (length (zdrop pos data) <= fuel)%nat ->
  headLoop hasAVX2 h1HeaderLineAVX2 fuel data maxBytes maxCount http10 absolute s pos = Some (judge lines e (zlen data) maxBytes maxCount http10 absolute s pos).
Proof.
  intros Hok. revert lines e. induction fuel as [| fuel IH]; intros lines e s pos Hpos Hl Hf.
  { destruct (zdrop pos data) as [| c p] eqn:Ed; [| cbn [length] in Hf; lia]. inversion Hl; subst; try done. cbn [headLoop judge]. replace (zlen data <=? pos) with true; [done |]. apply (f_equal zlen) in Ed. unfold zlen, zdrop in Ed. rewrite length_drop in Ed. cbn in Ed. unfold zlen. lia. }
  cbn [headLoop]. destruct (zlen data <=? pos) eqn:Eend.
  { rewrite zdrop_all in Hl by lia. inversion Hl; subst; try done. }
  assert (Hlen : zlen (zdrop pos data) = zlen data - pos) by (apply zlen_drop; lia). assert (Hpok : bytes_ok (zdrop pos data)) by (apply Forall_drop; exact Hok). cbv zeta. fold (scanLine (zdrop pos data)). destruct (scanLine_spec (zdrop pos data) Hpok) as (hostSafe & Es & Hsafe). rewrite Es. pose proof (classify_first (zdrop pos data)) as Hc.
  inversion Hl as [E0 | p Hne Ec | p Ec | p rest Ec | p c line rest lines' e' Ec Hrest]; subst; rewrite ?Ec in Hc.
  - symmetry in E0. apply (f_equal zlen) in E0. change (zlen (@nil Z)) with 0 in E0. lia.
  - rewrite Hc. cbn [judge]. destruct (maxBytes <? pos); [done |]. change (-1 <? 0) with true. cbv iota. done.
  - destruct (classifyFirstSpecial (zdrop pos data) (scanTail (zdrop pos data) 0)) as [k bad]. cbn [snd] in Hc. subst bad. cbn [judge]. by destruct (maxBytes <? pos).
  - rewrite Hc. change (zlen (@nil Z)) with 0. change (0 <? 0) with false. rewrite Z.add_0_r, Z.eqb_refl. cbn [judge]. by destruct (maxBytes <? pos).
  - rewrite Hc. set (full := c :: line) in *. assert (Hfull : 1 <= zlen full) by (unfold full; rewrite zlen_cons; pose proof (zlen_nonneg line); lia). replace (zlen full <? 0) with false by lia. replace (pos + zlen full =? pos) with false by lia. cbn [judge]. destruct (maxBytes <? pos) eqn:Eb; [done |].
    destruct (cut_line _ _ _ Ec) as [Ep Hplain]. destruct (line_field full rest Hplain) as (L1 & L2 & L3 & L4). rewrite <- Ep in L1, L2, L3, L4. assert (Eline : zslice data pos (pos + zlen full) = full) by (unfold zslice; rewrite Ep; replace (pos + zlen full - pos) with (zlen full) by lia; apply ztake_app_exact). rewrite Eline, L3.
    destruct (fieldOf full) as [[name value] |] eqn:Efield; [| rewrite bool_decide_eq_false_2 by (intros [v Hv]; discriminate Hv); done]. rewrite bool_decide_eq_true_2 by done. cbn [negb]. destruct (L4 name value eq_refl) as (-> & -> & Hv). rewrite L2, Hv in Hsafe.
    destruct (maxCount <? _); [done |]. rewrite headField_ref by (intros H; apply hostSafe_valid, Hsafe, H). destruct (refField _ name (trimOWS value)) as [s' |]; [| done].
    assert (Ed : zdrop (pos + zlen full + 2) data = rest).
    { rewrite <- Z.add_assoc, <- zdrop_zdrop by lia. rewrite Ep. change (full ++ CR :: LF :: rest) with (full ++ [CR; LF] ++ rest). rewrite app_assoc. replace (zlen full + 2) with (zlen (full ++ [CR; LF])) by (rewrite zlen_app; done). apply zdrop_app_exact. }
    apply IH; [lia | by rewrite Ed |]. rewrite Ed. rewrite Ep in Hf. rewrite length_app in Hf. unfold full in Hf. cbn [length] in Hf. lia.
Qed.

(** ** The whole head *)

(** The request line, and what follows with the request it starts. *)
Definition requestLine (rl : bytes) (req : h1Request) (k : h1Request -> bool -> option bytes -> h1Head * h1Request) : h1Head * h1Request :=
  let sp1 := IndexByte rl SP in
  if sp1 <? 0 then (headReject h1RejectRequestLine, req)
  else
    let sp2 := IndexByte (zdrop (sp1 + 1) rl) SP in
    if sp2 <=? 0 then (headReject h1RejectRequestLine, req)
    else
      let sp2 := sp2 + (sp1 + 1) in
      if negb (validH1Version (zdrop (sp2 + 1) rl)) then (headReject h1RejectRequestLine, req)
      else
        let http10 := znth rl (sp2 + 8) =? 48 in
        let proto := if http10 then str "HTTP/1.0" else str "HTTP/1.1" in
        let methodBytes := ztake sp1 rl in
        if negb (isH1Token methodBytes) then (headReject h1RejectRequestLine, set_line req (q_Method req) proto (q_Path req) (q_Query req) (q_RawPath req))
        else
          let rawURI := zslice rl (sp1 + 1) sp2 in
          let absolute := if (0 <? zlen rawURI) && negb (znth rawURI 0 =? slash) then splitAbsoluteForm rawURI else None in
          if match absolute with Some (host, _) => (zlen host =? 0) || negb (ValidateHost host) | None => false end
          then (headReject h1RejectHost, set_line req methodBytes proto (q_Path req) (q_Query req) (q_RawPath req))
          else
            let rawURI := match absolute with Some (_, target) => target | None => rawURI end in
            let '(pathPart, query) := splitPathQuery rawURI in
            k (set_line req methodBytes proto (sanitizeSplitPath pathPart) query rawURI) http10 (fst <$> absolute).

Definition startState (req : h1Request) : headState := mkHeadState req 0 false false false false false 0.
Definition effectiveBytes (maxHeaderBytes : Z) : Z := if maxHeaderBytes <=? 0 then 8192 else maxHeaderBytes.
Definition effectiveCount (maxHeaderCount : Z) : Z := if maxHeaderCount <=? 0 then defaultMaxHeaderCount else maxHeaderCount.

Definition verdict (rl : bytes) (lines : list bytes) (e : headEnding) (total : Z) (req : h1Request) (maxBytes maxCount : Z) : h1Head * h1Request :=
  requestLine rl req (fun req http10 absolute => judge lines e total maxBytes maxCount http10 absolute (startState req) (zlen rl + 2)).

Abbreviation parseHead := (parseH1RequestHead hasAVX2 firstH1SpecialAVX2 h1HeaderLineAVX2).

Lemma parse_verdict data req maxHeaderBytes maxHeaderCount : bytes_ok data ->
  parseHead data req maxHeaderBytes maxHeaderCount =
  match cutLine data with
  | CutNone => Some (if effectiveBytes maxHeaderBytes <? zlen data then headTooLarge else headIncomplete, req)
  | CutBad => Some (headReject h1RejectRequestLine, req)
  | CutLine rl rest => parseHead data req maxHeaderBytes maxHeaderCount
  end /\
  forall rl rest lines e, cutLine data = CutLine rl rest -> headLines rest lines e ->
    parseHead data req maxHeaderBytes maxHeaderCount = Some (verdict rl lines e (zlen data) req (effectiveBytes maxHeaderBytes) (effectiveCount maxHeaderCount)).
Proof.
  intros Hok. unfold parseH1RequestHead. fold (effectiveBytes maxHeaderBytes) (effectiveCount maxHeaderCount). rewrite firstSpecial_scan by done. pose proof (classify_first data) as Hc. split.
  - destruct (cutLine data) as [| | rl rest]; [by rewrite Hc | | done]. destruct (classifyFirstSpecial data (scanTail data 0)) as [k bad]. cbn [snd] in Hc. by subst bad.
  - intros rl rest lines e Ec Hl. rewrite Ec in Hc. rewrite Hc. destruct (cut_line _ _ _ Ec) as [Ed _]. pose proof (zlen_nonneg rl). replace (zlen rl <? 0) with false by lia. cbv zeta. assert (Et : ztake (zlen rl) data = rl) by (rewrite Ed; apply ztake_app_exact). rewrite !Et. unfold verdict, requestLine. cbv zeta.
    destruct (IndexByte rl SP <? 0); [done |]. destruct (IndexByte (zdrop (IndexByte rl SP + 1) rl) SP <=? 0); [done |]. destruct (negb (validH1Version _)); [done |]. destruct (negb (isH1Token _)); [done |]. cbv zeta.
    set (absolute := if _ && _ then splitAbsoluteForm _ else None). destruct (match absolute with Some _ => _ | None => _ end); [done |]. destruct (splitPathQuery _) as [pathPart query].
    apply headLoop_judge; [done | lia | |].
    + rewrite Ed. change (rl ++ CR :: LF :: rest) with (rl ++ [CR; LF] ++ rest). rewrite app_assoc. replace (zlen rl + 2) with (zlen (rl ++ [CR; LF])) by (rewrite zlen_app; done). by rewrite zdrop_app_exact.
    + unfold zdrop. rewrite length_drop. lia.
Qed.

Lemma parse_total data req maxHeaderBytes maxHeaderCount : bytes_ok data -> exists h q, parseHead data req maxHeaderBytes maxHeaderCount = Some (h, q).
Proof.
  intros Hok. destruct (parse_verdict data req maxHeaderBytes maxHeaderCount Hok) as [H1 H2]. destruct (cutLine data) as [| | rl rest] eqn:Ec; [rewrite H1; by eexists _, _ | rewrite H1; by eexists _, _ |].
  destruct (headLines_total rest) as (lines & e & Hl). rewrite (H2 rl rest lines e eq_refl Hl). destruct (verdict _ _ _ _ _ _ _) as [h q]. by exists h, q.
Qed.

(** ** More bytes *)

Definition extends (lines : list bytes) (e : headEnding) (lines' : list bytes) (e' : headEnding) : Prop :=
  match e with
  | EndBad => lines' = lines /\ e' = EndBad
  | EndDone rest => lines' = lines /\ exists more, e' = EndDone (rest ++ more)
  | _ => exists more, lines' = lines ++ more
  end.

Lemma headLines_extends p q lines e lines' e' : headLines p lines e -> headLines (p ++ q) lines' e' -> extends lines e lines' e'.
Proof.
  intros H. revert lines' e'. induction H as [| p Hne Hc | p Hc | p rest Hc | p c line rest lines e Hc Hl IH]; intros lines' e' H'; cbn [extends].
  - by exists lines'.
  - by exists lines'.
  - pose proof (cut_app p q) as Ha. rewrite Hc in Ha. inversion H' as [E0 | p' Hn Hp | p' Hp | p' r Hp | p' c' l' r' ls' e0 Hp Hr]; subst; try congruence; [by rewrite <- E0 in Ha | done].
  - pose proof (cut_app p q) as Ha. rewrite Hc in Ha. inversion H' as [E0 | p' Hn Hp | p' Hp | p' r Hp | p' c' l' r' ls' e0 Hp Hr]; subst; try congruence; [by rewrite <- E0 in Ha |]. rewrite Hp in Ha. injection Ha as ->. split; [done | by exists q].
  - pose proof (cut_app p q) as Ha. rewrite Hc in Ha. inversion H' as [E0 | p' Hn Hp | p' Hp | p' r Hp | p' c' l' r' ls' e0 Hp Hr]; subst; try congruence; [by rewrite <- E0 in Ha |]. rewrite Hp in Ha. injection Ha as -> -> ->. specialize (IH _ _ Hr). destruct e; cbn [extends] in *.
    + destruct IH as (more & ->). by exists more.
    + destruct IH as (more & ->). by exists more.
    + by destruct IH as [-> ->].
    + destruct IH as [-> IH]. by split.
Qed.

Definition acceptedHead (h : h1Head) : Prop := head_ok h = true /\ reject h = h1RejectNone.

Section Judge.

Context (maxBytes maxCount : Z) (http10 : bool) (absolute : option bytes).

Lemma judge_stable lines e total lines' e' total' : extends lines e lines' e' -> forall s pos, head_ok (judge lines e total maxBytes maxCount http10 absolute s pos).1 = true ->
  judge lines' e' total' maxBytes maxCount http10 absolute s pos = judge lines e total maxBytes maxCount http10 absolute s pos.
Proof.
  revert lines'. induction lines as [| line lines IH]; intros lines' He s pos.
  - cbn [judge]. destruct e as [| | | rest]; cbn [extends] in He; [done | destruct (maxBytes <? pos); [done |]; by destruct (maxBytes <? total) | destruct He as [-> ->]; cbn [judge]; by destruct (maxBytes <? pos) | destruct He as [-> [more ->]]; cbn [judge]; by destruct (maxBytes <? pos)].
  - assert (Hs : exists rest, lines' = line :: rest /\ extends lines e rest e') by (destruct e; cbn [extends] in *; [destruct He as [more ->]; by eexists; split; [| exists more] | destruct He as [more ->]; by eexists; split; [| exists more] | destruct He as [-> ->]; by eexists | destruct He as [-> He]; by eexists]).
    destruct Hs as (rest & -> & He'). cbn [judge]. destruct (maxBytes <? pos); [done |]. destruct (fieldOf line) as [[name value] |]; [| done]. cbv zeta. destruct (maxCount <? _); [done |]. destruct (refField _ name (trimOWS value)) as [s' |]; [| done]. by apply IH.
Qed.

(** Where the whole head is accepted, a part of it is incomplete. *)
Lemma judge_prefix lines e total lines' e' total' : extends lines e lines' e' -> e = EndOut \/ e = EndNone -> total <= maxBytes ->
  forall s pos, acceptedHead (judge lines' e' total' maxBytes maxCount http10 absolute s pos).1 -> (judge lines e total maxBytes maxCount http10 absolute s pos).1 = headIncomplete.
Proof.
  intros He Hne Ht. revert lines' He. induction lines as [| line lines IH]; intros lines' He s pos.
  - intros [Ha Hr]. cbn [judge]. destruct Hne as [-> | ->]; [done |]. destruct (maxBytes <? pos) eqn:Eb; [| by replace (maxBytes <? total) with false by lia]. exfalso. destruct lines' as [| l ls]; cbn [judge] in Ha; rewrite Eb in Ha; [destruct e'; done | done].
  - assert (Hs : exists rest, lines' = line :: rest /\ extends lines e rest e') by (destruct Hne as [-> | ->]; destruct He as [more ->]; by eexists; split; [| exists more]). destruct Hs as (rest & -> & He'). cbn [judge]. destruct (maxBytes <? pos); [by intros [? _] |]. destruct (fieldOf line) as [[name value] |]; [| intros [_ H]; cbn in H; unfold h1HeaderLineReject in H; repeat split_if_in H; done]. cbv zeta. destruct (maxCount <? _); [by intros [? _] |]. destruct (refField _ name (trimOWS value)) as [s' |]; [| by intros [_ ?]]. by apply IH.
Qed.

End Judge.

(** ** The request line *)

Lemma index_split s c : 0 <= IndexByte s c -> exists a b, s = a ++ c :: b /\ (c ∉ a) /\ IndexByte s c = zlen a.
Proof.
  unfold IndexByte. assert (G : forall i, 0 <= i -> 0 <= indexFrom s c i -> exists a b, s = a ++ c :: b /\ (c ∉ a) /\ indexFrom s c i = i + zlen a); [| intros H; destruct (G 0 ltac:(lia) H) as (a & b & E1 & E2 & E3); by exists a, b].
  induction s as [| x s IH]; intros i Hi; cbn [indexFrom]; [lia |]. destruct (x =? c) eqn:E.
  - intros _. assert (x = c) as -> by lia. exists [], s. split_and!; [done | by apply not_elem_of_nil | change (zlen (@nil Z)) with 0; lia].
  - intros H. destruct (IH (i + 1) ltac:(lia) H) as (a & b & -> & Ha & ->). exists (x :: a), b. split_and!; [done | apply not_elem_of_cons; split; [lia | done] | rewrite zlen_cons; lia].
Qed.

Lemma index_first a b c : c ∉ a -> IndexByte (a ++ c :: b) c = zlen a.
Proof.
  unfold IndexByte. intros H. assert (G : forall i, indexFrom (a ++ c :: b) c i = i + zlen a); [| by rewrite G]. induction a as [| x a IH]; intros i; cbn [app indexFrom]; [rewrite Z.eqb_refl; change (zlen (@nil Z)) with 0; lia |]. apply not_elem_of_cons in H as [Hx Ha]. replace (x =? c) with false by lia. rewrite IH, zlen_cons by done. lia.
Qed.

Lemma index_absent s c : c ∉ s -> IndexByte s c = -1.
Proof.
  unfold IndexByte. intros H. assert (G : forall i, indexFrom s c i = -1); [| apply G]. induction s as [| x s IH]; intros i; [done |].
  apply not_elem_of_cons in H as [H1 H2]. cbn [indexFrom]. replace (x =? c) with false by lia. by apply IH.
Qed.

Lemma zdrop_cons {A} (a b : list A) c : zdrop (zlen a + 1) (a ++ c :: b) = b.
Proof. rewrite <- (zlen_snoc a c). change (a ++ c :: b) with (a ++ [c] ++ b). rewrite app_assoc. apply zdrop_app_exact. Qed.

(** Method, target and version, and the request they start. *)
Record lineOk (rl : bytes) (req : h1Request) (req' : h1Request) (http10 : bool) (absolute : option bytes) (method target : bytes) : Prop := mkLineOk {
  ln_bytes : rl = method ++ SP :: target ++ SP :: (if http10 then str "HTTP/1.0" else str "HTTP/1.1");
  ln_method : isH1Token method = true;
  ln_target : target <> [] /\ (SP ∉ target);
  ln_host : match absolute with Some host => host <> [] /\ ValidateHost host = true | None => True end;
  ln_req : exists raw, req' = set_line req method (if http10 then str "HTTP/1.0" else str "HTTP/1.1") (sanitizeSplitPath (splitPathQuery raw).1) (splitPathQuery raw).2 raw /\
    match absolute with
    | Some host => znth target 0 <> slash /\ splitAbsoluteForm target = Some (host, raw)
    | None => raw = target /\ (znth target 0 = slash \/ splitAbsoluteForm target = None)
    end }.

Lemma version_cases v : validH1Version v = true -> v = (if znth v 7 =? 48 then str "HTTP/1.0" else str "HTTP/1.1").
Proof.
  unfold validH1Version. rewrite !andb_true_iff, orb_true_iff. intros [[H1 H2] H3]. apply bytes_eqb_spec in H2. destruct v as [| x0 [| x1 [| x2 [| x3 [| x4 [| x5 [| x6 [| x7 [| x8 v]]]]]]]]]; try (unfold zlen in H1; cbn [length] in H1; lia).
  change (znth [x0; x1; x2; x3; x4; x5; x6; x7] 7) with x7 in *. change (ztake 7 [x0; x1; x2; x3; x4; x5; x6; x7]) with [x0; x1; x2; x3; x4; x5; x6] in H2. vm_compute in H2. injection H2 as -> -> -> -> -> -> ->. destruct (x7 =? 48) eqn:E; [assert (x7 = 48) as -> by lia; reflexivity | destruct H3 as [H3 | H3]; [lia |]; assert (x7 = 49) as -> by lia; reflexivity].
Qed.

(** The line is rejected whatever follows. *)
Ltac refused := left; eexists _, _; split; [| intros k; reflexivity]; discriminate.

Lemma requestLine_cases rl req : (exists r q, r <> h1RejectNone /\ forall k, requestLine rl req k = (headReject r, q)) \/
  (exists req' http10 absolute method target, lineOk rl req req' http10 absolute method target /\ forall k, requestLine rl req k = k req' http10 absolute).
Proof.
  unfold requestLine. destruct (IndexByte rl SP <? 0) eqn:E1; [refused |]. destruct (index_split rl SP ltac:(lia)) as (method & after & Hrl & Hm & Hi1). rewrite Hi1. assert (Ha : zdrop (zlen method + 1) rl = after) by (rewrite Hrl, <- (zlen_snoc method SP); change (method ++ SP :: after) with (method ++ [SP] ++ after); rewrite app_assoc; apply zdrop_app_exact). rewrite Ha.
  destruct (IndexByte after SP <=? 0) eqn:E2; [refused |]. destruct (index_split after SP ltac:(lia)) as (target & version & Hafter & Ht & Hi2). rewrite Hi2 in *. cbv zeta. pose proof (zlen_nonneg method).
  assert (Hv : zdrop (zlen target + (zlen method + 1) + 1) rl = version).
  { replace (zlen target + (zlen method + 1) + 1) with ((zlen method + 1) + (zlen target + 1)) by lia. rewrite <- zdrop_zdrop by lia. rewrite Ha, Hafter, <- (zlen_snoc target SP). change (target ++ SP :: version) with (target ++ [SP] ++ version). rewrite app_assoc. apply zdrop_app_exact. }
  rewrite Hv. destruct (validH1Version version) eqn:E3; cbn [negb]; [| refused]. pose proof (version_cases version E3) as Hver.
  assert (Hn : znth rl (zlen target + (zlen method + 1) + 8) = znth version 7).
  { rewrite <- Hv. unfold znth, zdrop. rewrite !nth_lookup. f_equal. rewrite lookup_drop. f_equal. lia. }
  rewrite Hn. set (http10 := znth version 7 =? 48) in *. assert (Hmb : ztake (zlen method) rl = method) by (rewrite Hrl; apply ztake_app_exact). rewrite Hmb. destruct (isH1Token method) eqn:E4; cbn [negb]; [| refused].
  assert (Htg : zslice rl (zlen method + 1) (zlen target + (zlen method + 1)) = target) by (unfold zslice; rewrite Ha, Hafter; replace (zlen target + (zlen method + 1) - (zlen method + 1)) with (zlen target) by lia; apply ztake_app_exact). rewrite Htg. replace (0 <? zlen target) with true by lia. cbn [andb].
  assert (Hbytes : rl = method ++ SP :: target ++ SP :: (if http10 then str "HTTP/1.0" else str "HTTP/1.1")) by (rewrite <- Hver, Hrl, Hafter; done). assert (Hne : target <> []) by (intros ->; discriminate E2).
  destruct (negb (znth target 0 =? slash)) eqn:Esl.
  - destruct (splitAbsoluteForm target) as [[host raw] |] eqn:Eab.
    + destruct ((zlen host =? 0) || negb (ValidateHost host)) eqn:Eh; [refused |]. right. apply orb_false_iff in Eh as [Eh1 Eh2]. destruct (splitPathQuery raw) as [pathPart query] eqn:Esp. eexists _, http10, (Some host), method, target. split; [| intros k; reflexivity]. apply mkLineOk; try done; [split; [intros ->; done | by destruct (ValidateHost host)] |]. exists raw. rewrite Esp. split; [done |]. split; [lia | done].
    + right. destruct (splitPathQuery target) as [pathPart query] eqn:Esp. eexists _, http10, None, method, target. split; [| intros k; reflexivity]. apply mkLineOk; try done. exists target. rewrite Esp. split; [done |]. split; [done | by right].
  - right. destruct (splitPathQuery target) as [pathPart query] eqn:Esp. eexists _, http10, None, method, target. split; [| intros k; reflexivity]. apply mkLineOk; try done. exists target. rewrite Esp. split; [done |]. split; [done | left; lia].
Qed.

Lemma verdict_stable rl lines e total lines' e' total' req maxBytes maxCount : extends lines e lines' e' -> head_ok (verdict rl lines e total req maxBytes maxCount).1 = true ->
  verdict rl lines' e' total' req maxBytes maxCount = verdict rl lines e total req maxBytes maxCount.
Proof.
  intros He. unfold verdict. destruct (requestLine_cases rl req) as [(r & q & _ & Hk) | (req' & http10 & absolute & method & target & _ & Hk)]; rewrite !Hk; [done |]. by apply judge_stable.
Qed.

Lemma verdict_prefix rl lines e total lines' e' total' req maxBytes maxCount : extends lines e lines' e' -> e = EndOut \/ e = EndNone -> total <= maxBytes ->
  acceptedHead (verdict rl lines' e' total' req maxBytes maxCount).1 -> (verdict rl lines e total req maxBytes maxCount).1 = headIncomplete.
Proof.
  intros He Hne Ht. unfold verdict. destruct (requestLine_cases rl req) as [(r & q & Hr & Hk) | (req' & http10 & absolute & method & target & _ & Hk)]; rewrite !Hk; [intros [_ H]; cbn in H; congruence |]. by apply judge_prefix.
Qed.

(** ** The fields of an accepted head *)

Definition named (n : bytes) (f : field) : bool := bytes_eqb (lower f.1) n.
Definition isChunked (f : field) : bool := EqualFoldASCII f.2 (str "chunked").
Definition asksClose (f : field) : bool := (connectionOptions f.2).1.
Definition asksKeepAlive (f : field) : bool := (connectionOptions f.2).2.
Definition hosts (fs : list field) : Z := zlen (List.filter (named (str "host")) fs).

(** The ways to frame the body that the fields of a head allow, each following
    one field and ignoring the rest. *)
Inductive bodyFraming := NoBody | LengthBody (n : Z) | ChunkedBody | UnknownBody.

Inductive mayFrame (fs : list field) : bodyFraming -> Prop :=
| frame_te f : f ∈ fs -> named (str "transfer-encoding") f = true -> mayFrame fs (if isChunked f then ChunkedBody else UnknownBody)
| frame_cl f : f ∈ fs -> named (str "content-length") f = true -> mayFrame fs (match parseUint f.2 with Some n => LengthBody n | None => UnknownBody end)
| frame_none : existsb (named (str "transfer-encoding")) fs = false -> existsb (named (str "content-length")) fs = false -> mayFrame fs NoBody.

(** No length can be read from the fields, or two. *)
Definition lengthsConflict (fs : list field) : Prop :=
  mayFrame fs UnknownBody \/ exists n m, n <> m /\ mayFrame fs (LengthBody n) /\ mayFrame fs (LengthBody m).

Lemma length_frames fs f n : f ∈ fs -> named (str "content-length") f = true -> parseUint f.2 = Some n -> mayFrame fs (LengthBody n).
Proof. intros H1 H2 H3. pose proof (frame_cl fs f H1 H2) as H. by rewrite H3 in H. Qed.

Lemma length_unknown fs f : f ∈ fs -> named (str "content-length") f = true -> parseUint f.2 = None -> lengthsConflict fs.
Proof. intros H1 H2 H3. left. pose proof (frame_cl fs f H1 H2) as H. by rewrite H3 in H. Qed.

Lemma conflict_snoc fs f : lengthsConflict fs -> lengthsConflict (fs ++ [f]).
Proof.
  assert (Hm : forall fr, fr <> NoBody -> mayFrame fs fr -> mayFrame (fs ++ [f]) fr) by (intros fr Hne Hx; inversion Hx as [g Hg Hn | g Hg Hn | _ _]; subst; [apply frame_te; [apply elem_of_app; by left | done] | apply frame_cl; [apply elem_of_app; by left | done] | by destruct Hne]).
  intros [H | (n & m & Hnm & H1 & H2)]; [left; by apply Hm | right; exists n, m; split; [done |]; split; by apply Hm].
Qed.

Lemma parseUint_nonneg s n : parseUint s = Some n -> 0 <= n.
Proof.
  unfold parseUint. destruct (zlen s =? 0); [done |]. assert (H : forall m, 0 <= m -> parseUintLoop s m = Some n -> 0 <= n); [| by apply H]. induction s as [| c s IH]; intros m Hm; cbn [parseUintLoop]; [by intros [= <-] |]. destruct (digitVal c =? 255); [done |]. destruct (_ || _) eqn:E; [done |]. apply IH. lia.
Qed.

(** What the state says of the fields read. *)
Record fieldsRead (fs : list field) (s : headState) : Prop := mkFieldsRead {
  fr_headers : q_Headers (s_req s) = fs;
  fr_hosts : s_hosts s = hosts fs;
  fr_valid : Forall (fun f => named (str "host") f = true -> ValidateHost f.2 = true) fs;
  fr_chunked : s_chunked s = existsb (fun f => named (str "transfer-encoding") f && isChunked f) fs;
  fr_bad : s_badTE s = existsb (fun f => named (str "transfer-encoding") f && negb (isChunked f)) fs;
  fr_length : s_hasContentLength s = existsb (named (str "content-length")) fs;
  fr_agree : 0 <= s_contentLength s -> Forall (fun f => named (str "content-length") f = true -> parseUint f.2 = Some (s_contentLength s)) fs;
  fr_zero : s_hasContentLength s = false -> s_contentLength s = 0;
  fr_close : s_close s = existsb (fun f => named (str "connection") f && asksClose f) fs;
  fr_keep : s_keepAlive s = existsb (fun f => named (str "connection") f && asksKeepAlive f) fs;
  fr_conflict : s_contentLength s < 0 -> lengthsConflict fs }.

Definition lineOf (q : h1Request) : bytes * bytes * bytes * bytes * bytes := (q_Method q, q_Proto q, q_Path q, q_Query q, q_RawPath q).

(** The effect of one field on what matters for the framing. *)
Record fieldEffect (s : headState) (f : field) (s' : headState) : Prop := mkFieldEffect {
  fe_headers : q_Headers (s_req s') = q_Headers (s_req s);
  fe_hosts : s_hosts s' = s_hosts s + (if named (str "host") f then 1 else 0);
  fe_valid : named (str "host") f = true -> ValidateHost f.2 = true;
  fe_chunked : s_chunked s' = s_chunked s || (named (str "transfer-encoding") f && isChunked f);
  fe_bad : s_badTE s' = s_badTE s || (named (str "transfer-encoding") f && negb (isChunked f));
  fe_length : s_hasContentLength s' = s_hasContentLength s || named (str "content-length") f;
  fe_value : s_contentLength s' = if named (str "content-length") f then s_contentLength (lengthField s f.2) else s_contentLength s;
  fe_close : s_close s' = s_close s || (named (str "connection") f && asksClose f);
  fe_keep : s_keepAlive s' = s_keepAlive s || (named (str "connection") f && asksKeepAlive f);
  fe_line : lineOf (s_req s') = lineOf (s_req s);
  fe_expect : named (str "expect") f = false -> q_expect (s_req s') = q_expect (s_req s) }.

Lemma effect_none s f s' : (forall n, n ∈ [str "host"; str "transfer-encoding"; str "content-length"; str "connection"] -> named n f = false) ->
  (q_Headers (s_req s'), s_hosts s', s_chunked s', s_badTE s', s_hasContentLength s', s_contentLength s', s_close s', s_keepAlive s', lineOf (s_req s')) = (q_Headers (s_req s), s_hosts s, s_chunked s, s_badTE s, s_hasContentLength s, s_contentLength s, s_close s, s_keepAlive s, lineOf (s_req s)) -> (named (str "expect") f = false -> q_expect (s_req s') = q_expect (s_req s)) -> fieldEffect s f s'.
Proof.
  intros Hn HE HX. assert (E9 : lineOf (s_req s') = lineOf (s_req s)) by congruence. injection HE as E1 E2 E3 E4 E5 E6 E7 E8 _ _ _ _ _. assert (H1 : named (str "host") f = false) by (apply Hn; rewrite !elem_of_cons; tauto). assert (H2 : named (str "transfer-encoding") f = false) by (apply Hn; rewrite !elem_of_cons; tauto). assert (H3 : named (str "content-length") f = false) by (apply Hn; rewrite !elem_of_cons; tauto). assert (H4 : named (str "connection") f = false) by (apply Hn; rewrite !elem_of_cons; tauto).
  apply mkFieldEffect; rewrite ?H1, ?H2, ?H3, ?H4; cbn [andb]; rewrite ?orb_false_r, ?Z.add_0_r; done.
Qed.

Lemma named_other n f t : lower f.1 = n -> named t f = bytes_eqb n t.
Proof. intros E. unfold named. by rewrite E. Qed.

(** The other names: the known one is none of the four. *)
Ltac other_name E := apply bytes_eqb_spec in E; apply effect_none; [intros n Hn; rewrite (named_other _ _ n E); repeat (apply elem_of_cons in Hn as [-> | Hn]; [vm_compute; reflexivity |]); by apply not_elem_of_nil in Hn | reflexivity | rewrite (named_other _ _ _ E); vm_compute; done].

Lemma refField_effect s f s' : refField s f.1 f.2 = Some s' -> fieldEffect s f s'.
Proof.
  unfold refField. cbv zeta. destruct (bytes_eqb (lower f.1) (str "host")) eqn:E0.
  { destruct (ValidateHost f.2) eqn:Ev; [| done]. intros [= <-]. apply bytes_eqb_spec in E0. pose proof (fun t => named_other _ f t E0) as Hn. apply mkFieldEffect; rewrite ?Hn; try done; [change (bytes_eqb (str "host") (str "transfer-encoding")) with false | change (bytes_eqb (str "host") (str "transfer-encoding")) with false | change (bytes_eqb (str "host") (str "content-length")) with false | change (bytes_eqb (str "host") (str "connection")) with false | change (bytes_eqb (str "host") (str "connection")) with false]; cbn [andb]; by rewrite orb_false_r. }
  intros H. injection H as <-. destruct (bytes_eqb (lower f.1) (str "origin")) eqn:E1; [other_name E1 |]. destruct (bytes_eqb (lower f.1) (str "expect")) eqn:E2; [other_name E2 |]. destruct (bytes_eqb (lower f.1) (str "upgrade")) eqn:E3; [other_name E3 |]. destruct (bytes_eqb (lower f.1) (str "x-real-ip")) eqn:E4; [other_name E4 |].
  destruct (bytes_eqb (lower f.1) (str "connection")) eqn:E5.
  { apply bytes_eqb_spec in E5. pose proof (fun t => named_other _ f t E5) as Hn. apply mkFieldEffect; rewrite ?Hn; try done; [change (bytes_eqb (str "connection") (str "host")) with false; cbv iota; by rewrite Z.add_0_r | change (bytes_eqb (str "connection") (str "transfer-encoding")) with false | change (bytes_eqb (str "connection") (str "transfer-encoding")) with false | change (bytes_eqb (str "connection") (str "content-length")) with false]; cbn [andb]; by rewrite orb_false_r. }
  destruct (bytes_eqb (lower f.1) (str "authorization")) eqn:E6; [other_name E6 |].
  destruct (bytes_eqb (lower f.1) (str "content-length")) eqn:E7.
  { apply bytes_eqb_spec in E7. pose proof (fun t => named_other _ f t E7) as Hn. apply mkFieldEffect; rewrite ?Hn; try done; [change (bytes_eqb (str "content-length") (str "host")) with false; cbv iota; by rewrite Z.add_0_r | change (bytes_eqb (str "content-length") (str "transfer-encoding")) with false | change (bytes_eqb (str "content-length") (str "transfer-encoding")) with false | change (bytes_eqb (str "content-length") (str "content-length")) with true; by rewrite orb_true_r | change (bytes_eqb (str "content-length") (str "connection")) with false | change (bytes_eqb (str "content-length") (str "connection")) with false]; cbn [andb]; by rewrite orb_false_r. }
  destruct (bytes_eqb (lower f.1) (str "accept-encoding")) eqn:E8; [other_name E8 |]. destruct (bytes_eqb (lower f.1) (str "x-forwarded-for")) eqn:E9; [other_name E9 |].
  destruct (bytes_eqb (lower f.1) (str "transfer-encoding")) eqn:E10.
  { apply bytes_eqb_spec in E10. pose proof (fun t => named_other _ f t E10) as Hn. fold (isChunked f). apply mkFieldEffect; rewrite ?Hn; [by destruct (isChunked f) | | | | | | | | | by destruct (isChunked f) | intros _; by destruct (isChunked f)]; change (bytes_eqb (str "transfer-encoding") (str "host")) with false; change (bytes_eqb (str "transfer-encoding") (str "transfer-encoding")) with true; change (bytes_eqb (str "transfer-encoding") (str "content-length")) with false; change (bytes_eqb (str "transfer-encoding") (str "connection")) with false; cbn [andb]; destruct (isChunked f); cbn [negb]; rewrite ?orb_false_r, ?orb_true_r, ?Z.add_0_r; done. }
  destruct (bytes_eqb (lower f.1) (str "sec-websocket-key")) eqn:E11; [other_name E11 |]. destruct (bytes_eqb (lower f.1) (str "sec-websocket-version")) eqn:E12; [other_name E12 |].
  apply effect_none; [| done | done]. intros n Hn. unfold named. repeat (apply elem_of_cons in Hn as [-> | Hn]; [assumption |]). by apply not_elem_of_nil in Hn.
Qed.

Lemma fieldsRead_start req : q_Headers req = [] -> fieldsRead [] (startState req).
Proof. intros H. by apply mkFieldsRead. Qed.

Lemma fieldsRead_step fs s f s' : fieldsRead fs s -> fieldEffect (with_req s (add_header (s_req s) f)) f s' -> fieldsRead (fs ++ [f]) s'.
Proof.
  intros [R1 R2 R3 R4 R5 R6 R7 R8 R9 R10 R11] [F1 F2 F3 F4 F5 F6 F7 F8 F9 _ _]. cbn [s_req s_hosts s_chunked s_badTE s_hasContentLength s_contentLength s_close s_keepAlive with_req q_Headers add_header] in *.
  apply mkFieldsRead; rewrite ?existsb_app; cbn [existsb]; rewrite ?orb_false_r; [by rewrite F1, R1 | | by apply Forall_app; split; [| apply Forall_singleton] | by rewrite F4, R4 | by rewrite F5, R5 | by rewrite F6, R6 | | | by rewrite F8, R9 | by rewrite F9, R10 |].
  - rewrite F2, R2. unfold hosts. rewrite List.filter_app. cbn [List.filter]. destruct (named (str "host") f); [by rewrite zlen_snoc | by rewrite app_nil_r, Z.add_0_r].
  - rewrite F7. destruct (named (str "content-length") f) eqn:En.
    + unfold lengthField. cbn [s_contentLength with_length s_hasContentLength with_req]. destruct (s_hasContentLength s) eqn:Eh.
      * destruct (parseUint f.2) as [n |] eqn:Ep; [| intros Hneg; by destruct Hneg]. destruct ((s_contentLength s <? 0) || negb (n =? s_contentLength s)) eqn:Ec; [intros Hneg; by destruct Hneg |]. intros Hc. apply Forall_app. split; [by apply R7 |]. apply Forall_singleton. intros _. rewrite Ep. f_equal. clear - Ec. lia.
      * intros Hc. apply Forall_app. try rewrite Eh in R6. split; [| apply Forall_singleton; intros _; destruct (parseUint f.2) as [n |]; [done | by destruct Hc]].
        rewrite Forall_forall. intros g Hg Hgn. exfalso. symmetry in R6. assert (Hx : existsb (named (str "content-length")) fs = true) by (apply existsb_exists; exists g; split; [by apply list_elem_of_In | done]). congruence.
    + intros Hc. apply Forall_app. split; [by apply R7 |]. apply Forall_singleton. by rewrite En.
  - rewrite F6, F7. intros Hf. apply orb_false_iff in Hf as [Hf1 Hf2]. rewrite Hf2. by apply R8.
  - rewrite F7. destruct (named (str "content-length") f) eqn:En; [| intros Hc; by apply conflict_snoc, R11]. assert (Hin : f ∈ fs ++ [f]) by (apply elem_of_app; right; by apply list_elem_of_singleton). unfold lengthField. cbn [s_contentLength with_length s_hasContentLength with_req].
    destruct (parseUint f.2) as [n |] eqn:Ep; [| intros _; by eapply length_unknown]. destruct (s_hasContentLength s) eqn:Eh; [| intros Hc; apply parseUint_nonneg in Ep; exfalso; clear - Ep Hc; lia]. destruct (s_contentLength s <? 0) eqn:Eneg; [intros _; apply conflict_snoc, R11; clear - Eneg; lia |]. cbn [orb]. destruct (n =? s_contentLength s) eqn:Eq; cbn [negb]; [intros Hc; exfalso; clear - Hc Eneg; lia |]. intros _.
    assert (H0 : 0 <= s_contentLength s) by (clear - Eneg; lia). try rewrite Eh in R6. symmetry in R6. apply existsb_exists in R6 as (g & Hg & Hgn). apply list_elem_of_In in Hg. specialize (R7 H0). rewrite Forall_forall in R7. specialize (R7 g Hg Hgn).
    right. exists n, (s_contentLength s). split; [clear - Eq; lia |]. split; [by eapply length_frames |]. eapply length_frames; [apply elem_of_app; left; exact Hg | exact Hgn | exact R7].
Qed.

(** A line and its field. *)
Definition lineField (line : bytes) (f : field) : Prop := exists value, fieldOf line = Some (f.1, value) /\ f.2 = trimOWS value.

Lemma judge_accepted maxBytes maxCount http10 absolute lines e total s pos fs : fieldsRead fs s -> acceptedHead (judge lines e total maxBytes maxCount http10 absolute s pos).1 ->
  exists rest more s', e = EndDone rest /\ Forall2 lineField lines more /\ fieldsRead (fs ++ more) s' /\ lineOf (s_req s') = lineOf (s_req s) /\ (more = [] \/ zlen (fs ++ more) <= maxCount) /\
    let nl := pos + foldr (fun line n => zlen line + 2 + n) 0 lines in
    nl <= maxBytes /\ judge lines e total maxBytes maxCount http10 absolute s pos = headEnd s' http10 absolute nl.
Proof.
  revert s pos fs. induction lines as [| line lines IH]; intros s pos fs R Ha.
  - cbn [judge foldr] in *. destruct Ha as [Ha1 Ha2]. destruct e as [| | | rest]; [done | | |]; destruct (maxBytes <? pos) eqn:Eb; try done; [by destruct (maxBytes <? total) |]. exists rest, [], s. rewrite app_nil_r. split_and!; try done; [by left | clear - Eb; lia | f_equal; clear; lia].
  - cbn [judge foldr] in *. destruct (maxBytes <? pos) eqn:Eb; [by destruct Ha |]. destruct (fieldOf line) as [[name value] |] eqn:Ef; [| destruct Ha as [_ H]; cbn in H; unfold h1HeaderLineReject in H; repeat split_if_in H; done]. cbv zeta in *. destruct (maxCount <? _) eqn:Ec; [by destruct Ha |].
    destruct (refField _ name (trimOWS value)) as [s1 |] eqn:Er; [| by destruct Ha]. pose proof (refField_effect _ (name, trimOWS value) s1 Er) as He. pose proof (fieldsRead_step fs s (name, trimOWS value) s1 R He) as R1. destruct (IH s1 _ _ R1 Ha) as (rest & more & s' & -> & Hm & R' & Hline' & Hcnt & Hnl & ->). exists rest, ((name, trimOWS value) :: more), s'. rewrite <- app_assoc in *. cbn [app] in *. split_and!; try done.
    + constructor; [by exists value | done].
    + rewrite Hline'. exact (fe_line _ _ _ He).
    + right. cbn [q_Headers s_req with_req add_header] in Ec. rewrite (fr_headers _ _ R) in Ec. destruct Hcnt as [-> | Hcnt]; [clear - Ec; lia | exact Hcnt].
    + clear - Hnl. lia.
    + f_equal. clear. lia.
Qed.

(** An accepted head, as bytes and as a request. *)
Record headAccepted (data : bytes) (maxBytes maxCount : Z) (h : h1Head) (q : h1Request) : Prop := mkHeadAccepted {
  ha_bytes : exists method target http10 lines rest,
    data = (method ++ SP :: target ++ SP :: (if http10 : bool then str "HTTP/1.0" else str "HTTP/1.1")) ++ [CR; LF] ++ concat (map (fun l => l ++ [CR; LF]) lines) ++ [CR; LF] ++ rest /\
    headerEnd h = zlen data - zlen rest /\ isH1Token method = true /\ target <> [] /\ (SP ∉ target) /\ plain target /\ Forall2 lineField lines (q_Headers q) /\ Forall plain lines /\
    q_Method q = method /\ q_Proto q = (if http10 then str "HTTP/1.0" else str "HTTP/1.1") /\ q_Path q = sanitizeSplitPath (splitPathQuery (q_RawPath q)).1 /\
    (chunkedEncoding h = true -> http10 = false) /\ (hosts (q_Headers q) = 1 \/ (http10 = true /\ hosts (q_Headers q) = 0)) /\
    closeConn h = existsb (fun f => named (str "connection") f && asksClose f) (q_Headers q) || (http10 && negb (existsb (fun f => named (str "connection") f && asksKeepAlive f) (q_Headers q)));
  ha_limits : zlen (q_Headers q) <= maxCount /\ headerEnd h <= maxBytes + 2 /\ tooLarge h = false;
  ha_chunked : chunkedEncoding h = existsb (named (str "transfer-encoding")) (q_Headers q);
  ha_only : chunkedEncoding h = true -> hasContentLength h = false /\ Forall (fun f => named (str "transfer-encoding") f = true -> isChunked f = true) (q_Headers q);
  ha_length : hasContentLength h = existsb (named (str "content-length")) (q_Headers q) /\ (hasContentLength h = false -> contentLength h = 0);
  ha_agree : 0 <= contentLength h -> Forall (fun f => named (str "content-length") f = true -> parseUint f.2 = Some (contentLength h)) (q_Headers q);
  ha_hosts : Forall (fun f => named (str "host") f = true -> ValidateHost f.2 = true) (q_Headers q);
  ha_conflict : contentLength h < 0 -> lengthsConflict (q_Headers q) }.

Lemma headLines_bytes p lines rest : headLines p lines (EndDone rest) -> p = concat (map (fun l => l ++ [CR; LF]) lines) ++ [CR; LF] ++ rest /\ Forall plain lines.
Proof.
  remember (EndDone rest) as e eqn:He. induction 1 as [| p Hne Hc | p Hc | p r Hc | p c line r lines e Hc _ IH]; try done.
  - injection He as ->. destruct (cut_line _ _ _ Hc) as [-> _]. split; [done | constructor].
  - destruct (IH He) as [-> Hp]. destruct (cut_line _ _ _ Hc) as [-> Hl]. split; [| by constructor]. cbn [map concat]. rewrite <- !app_assoc. done.
Qed.

Lemma lines_length lines : zlen (concat (map (fun l : bytes => l ++ [CR; LF]) lines)) = foldr (fun line n => zlen line + 2 + n) 0 lines.
Proof. induction lines as [| l lines IH]; [done |]. cbn [map concat foldr]. rewrite !zlen_app, IH. change (zlen [CR; LF]) with 2. lia. Qed.

Lemma existsb_split {A} (P Q : A -> bool) l : existsb P l = existsb (fun x => P x && Q x) l || existsb (fun x => P x && negb (Q x)) l.
Proof. induction l as [| x l IH]; [done |]. cbn [existsb]. rewrite IH. destruct (P x), (Q x); cbn [andb negb orb]; by rewrite ?orb_true_r. Qed.

Lemma existsb_none {A} (P : A -> bool) l : existsb P l = false -> Forall (fun x => P x = false) l.
Proof. induction l as [| x l IH]; cbn [existsb]; [constructor |]. intros H. apply orb_false_iff in H as [H1 H2]. constructor; [done | by apply IH]. Qed.

Lemma headEnd_accepted data method target http10 absolute lines rest fs s maxBytes maxCount nl h q :
  data = (method ++ SP :: target ++ SP :: (if http10 : bool then str "HTTP/1.0" else str "HTTP/1.1")) ++ [CR; LF] ++ concat (map (fun l => l ++ [CR; LF]) lines) ++ [CR; LF] ++ rest ->
  isH1Token method = true -> target <> [] -> SP ∉ target -> plain target -> Forall plain lines -> Forall2 lineField lines fs -> fieldsRead fs s -> zlen fs <= maxCount ->
  nl + 2 = zlen data - zlen rest -> nl <= maxBytes -> q_Method (s_req s) = method -> q_Proto (s_req s) = (if http10 then str "HTTP/1.0" else str "HTTP/1.1") ->
  q_Path (s_req s) = sanitizeSplitPath (splitPathQuery (q_RawPath (s_req s))).1 ->
  headEnd s http10 absolute nl = (h, q) -> acceptedHead h -> headAccepted data maxBytes maxCount h q.
Proof.
  intros Hd Hm Ht1 Ht2 Ht3 Hpl Hf2 [R1 R2 R3 R4 R5 R6 R7 R8 R9 R10 R11] Hcnt Hnl Hmb Hq1 Hq2 Hq3. unfold headEnd. destruct (s_badTE s || (s_chunked s && (s_hasContentLength s || http10))) eqn:E1; [intros [= <- <-] [_ H]; done |]. apply orb_false_iff in E1 as [Ebad Ech].
  destruct ((1 <? s_hosts s) || ((s_hosts s =? 0) && negb http10)) eqn:E2; [intros [= <- <-] [_ H]; done |]. intros [= <- <-] _. set (q0 := if http10 then set_expect (s_req s) h1ExpectNone else s_req s). set (q1 := match absolute with Some host => set_host q0 host | None => q0 end).
  assert (Hq : q_Headers q1 = fs /\ lineOf q1 = lineOf (s_req s)) by (unfold q1, q0; destruct absolute, http10; split; done). destruct Hq as [Hhdr Hline']. unfold lineOf in Hline'. injection Hline' as L1 L2 L3 L4 L5.
  assert (Hte : existsb (named (str "transfer-encoding")) fs = s_chunked s) by (rewrite (existsb_split _ isChunked), <- R4, <- R5, Ebad; apply orb_false_r).
  assert (Hhosts : hosts fs = 1 \/ (http10 = true /\ hosts fs = 0)) by (rewrite <- R2; assert (0 <= s_hosts s) by (rewrite R2; apply zlen_nonneg); clear - E2 H; destruct http10; lia).
  apply mkHeadAccepted; cbn [headerEnd contentLength hasContentLength closeConn chunkedEncoding q_Headers set_aliases q_Method q_Proto q_Path q_RawPath]; rewrite ?Hhdr.
  - exists method, target, http10, lines, rest. rewrite L1, L2, L3, L5, R9, R10. split_and!; try done. intros Hc. rewrite Hc in Ech. by destruct (s_hasContentLength s), http10.
  - split; [exact Hcnt |]. split; [clear - Hmb; lia | reflexivity].
  - by rewrite Hte.
  - intros Hc. rewrite Hc in Ech. cbn [andb] in Ech. apply orb_false_iff in Ech as [Ech _]. split; [done |]. symmetry in R5. rewrite Ebad in R5. apply existsb_none in R5. eapply Forall_impl; [exact R5 |]. intros f Hf Hn. cbv beta in Hf. rewrite Hn in Hf. cbn [andb] in Hf. by destruct (isChunked f).
  - split; [exact R6 | exact R8].
  - exact R7.
  - exact R3.
  - exact R11.
Qed.

(** What an accepted head is. *)
Lemma head_sound data req maxHeaderBytes maxHeaderCount h q : bytes_ok data -> q_Headers req = [] ->
  parseHead data req maxHeaderBytes maxHeaderCount = Some (h, q) -> acceptedHead h -> headAccepted data (effectiveBytes maxHeaderBytes) (effectiveCount maxHeaderCount) h q.
Proof.
  intros Hok Hq Hp Ha. destruct (parse_verdict data req maxHeaderBytes maxHeaderCount Hok) as [H1 H2]. destruct (cutLine data) as [| | rl rest] eqn:Ec; [rewrite H1 in Hp; injection Hp as <- <-; destruct Ha as [Ha _]; by destruct (_ <? _) | rewrite H1 in Hp; injection Hp as <- <-; by destruct Ha as [_ ?] |]. clear H1.
  destruct (headLines_total rest) as (lines & e & Hl). rewrite (H2 rl rest lines e eq_refl Hl) in Hp. unfold verdict in Hp. destruct (requestLine_cases rl req) as [(r & q0 & Hr & Hk) | (req' & http10 & absolute & method & target & L & Hk)]; rewrite Hk in Hp; [injection Hp as <- <-; destruct Ha as [_ Ha]; by destruct Hr |].
  destruct L as [Lb Lm [Lt1 Lt2] _ (raw & Lq & _)]. injection Hp as Hp. destruct (cut_line _ _ _ Ec) as [Ed Hrl]. assert (R0 : fieldsRead [] (startState req')) by (apply fieldsRead_start; rewrite Lq; exact Hq).
  destruct (judge_accepted (effectiveBytes maxHeaderBytes) (effectiveCount maxHeaderCount) http10 absolute lines e (zlen data) (startState req') (zlen rl + 2) [] R0 ltac:(rewrite Hp; exact Ha)) as (rest' & more & s' & -> & Hf2 & R' & Hline' & Hcnt & Hnl & Hj). rewrite Hp in Hj. destruct (headLines_bytes _ _ _ Hl) as [Hb Hpl]. cbn [app] in *.
  unfold lineOf in Hline'. cbn [s_req startState] in Hline'. rewrite Lq in Hline'. injection Hline' as M1 M2 M3 M4 M5. assert (Hpt : plain target) by (rewrite Lb in Hrl; apply Forall_app in Hrl as [_ Hrl]; apply Forall_cons_1 in Hrl as [_ Hrl]; by apply Forall_app in Hrl as [Hrl _]).
  apply (headEnd_accepted data method target http10 absolute lines rest' more s' _ _ (zlen rl + 2 + foldr (fun line n => zlen line + 2 + n) 0 lines)); try done.
  - rewrite Ed, Hb, Lb. done.
  - destruct Hcnt as [-> | Hcnt]; [| exact Hcnt]. change (zlen (@nil field)) with 0. unfold effectiveCount, defaultMaxHeaderCount. destruct (maxHeaderCount <=? 0) eqn:E; [done | clear - E; lia].
  - rewrite Ed, Hb. rewrite zlen_app, !zlen_cons, zlen_app, lines_length. change ([CR; LF] ++ rest') with (CR :: LF :: rest'). rewrite !zlen_cons. clear. lia.
  - by rewrite M3, M5.
Qed.

(** The framing the parser reports. *)
Definition framingOf (h : h1Head) : bodyFraming := if chunkedEncoding h then ChunkedBody else if hasContentLength h then LengthBody (contentLength h) else NoBody.

(** Every way to read the framing fields is the one the parser reports, unless
    the length is -1. *)
Lemma framing_agrees data maxBytes maxCount h q fr : headAccepted data maxBytes maxCount h q -> 0 <= contentLength h -> mayFrame (q_Headers q) fr -> fr = framingOf h.
Proof.
  intros [_ _ Hc Ho [Hl _] Ha _ _] H0 [f Hf Hn | f Hf Hn | Ht Hn]; unfold framingOf.
  - assert (Et : chunkedEncoding h = true) by (rewrite Hc; apply existsb_exists; exists f; split; [by apply list_elem_of_In | done]). rewrite Et. destruct (Ho Et) as [_ Hall]. rewrite Forall_forall in Hall. by rewrite (Hall f Hf Hn).
  - assert (El : hasContentLength h = true) by (rewrite Hl; apply existsb_exists; exists f; split; [by apply list_elem_of_In | done]). destruct (chunkedEncoding h); [destruct (Ho eq_refl) as [Hx _]; congruence |]. rewrite El. specialize (Ha H0). rewrite Forall_forall in Ha. by rewrite (Ha f Hf Hn).
  - rewrite Hc, Ht, Hl, Hn. done.
Qed.

Lemma negative_length data maxBytes maxCount h q : headAccepted data maxBytes maxCount h q -> contentLength h < 0 -> chunkedEncoding h = false /\ hasContentLength h = true.
Proof.
  intros [_ _ _ Ho [_ Hz] _ _ _] H0. assert (El : hasContentLength h = true) by (destruct (hasContentLength h); [done |]; rewrite (Hz eq_refl) in H0; lia). split; [| done]. destruct (chunkedEncoding h); [| done]. destruct (Ho eq_refl) as [Hx _]. congruence.
Qed.

(** ** However the bytes arrive *)

Lemma parse_cut data req maxHeaderBytes maxHeaderCount h q : bytes_ok data -> parseHead data req maxHeaderBytes maxHeaderCount = Some (h, q) ->
  match cutLine data with
  | CutNone => h = if effectiveBytes maxHeaderBytes <? zlen data then headTooLarge else headIncomplete
  | CutBad => h = headReject h1RejectRequestLine /\ q = req
  | CutLine rl rest => forall lines e, headLines rest lines e -> (h, q) = verdict rl lines e (zlen data) req (effectiveBytes maxHeaderBytes) (effectiveCount maxHeaderCount)
  end.
Proof.
  intros Hok Hp. destruct (parse_verdict data req maxHeaderBytes maxHeaderCount Hok) as [H1 H2]. destruct (cutLine data) as [| | rl rest] eqn:Ec; [rewrite H1 in Hp; by injection Hp as <- <- | rewrite H1 in Hp; by injection Hp as <- <- |]. intros lines e Hl. rewrite (H2 rl rest lines e eq_refl Hl) in Hp. by injection Hp.
Qed.

Lemma headEnd_end s http10 absolute nl : acceptedHead (headEnd s http10 absolute nl).1 -> headerEnd (headEnd s http10 absolute nl).1 = nl + 2.
Proof. unfold headEnd. destruct (_ || _); [by intros [_ ?] |]. destruct (_ || _); [by intros [_ ?] | done]. Qed.

Lemma judge_end maxBytes maxCount http10 absolute lines e total s pos : acceptedHead (judge lines e total maxBytes maxCount http10 absolute s pos).1 ->
  exists rest, e = EndDone rest /\ headerEnd (judge lines e total maxBytes maxCount http10 absolute s pos).1 = pos + foldr (fun line n => zlen line + 2 + n) 0 lines + 2.
Proof.
  revert s pos. induction lines as [| line lines IH]; intros s pos Ha.
  - cbn [judge foldr] in *. destruct e as [| | | rest]; [by destruct Ha | | |]; destruct (maxBytes <? pos); try (by destruct Ha); [by destruct (maxBytes <? total); destruct Ha |]. exists rest. split; [done |]. rewrite headEnd_end by done. lia.
  - cbn [judge foldr] in *. destruct (maxBytes <? pos); [by destruct Ha |]. destruct (fieldOf line) as [[name value] |]; [| destruct Ha as [_ H]; cbn in H; unfold h1HeaderLineReject in H; repeat split_if_in H; done]. cbv zeta in *. destruct (maxCount <? _); [by destruct Ha |]. destruct (refField _ name (trimOWS value)) as [s1 |]; [| by destruct Ha]. destruct (IH _ _ Ha) as (rest & -> & ->). exists rest. split; [done | lia].
Qed.

Lemma verdict_end rl lines e total req maxBytes maxCount : acceptedHead (verdict rl lines e total req maxBytes maxCount).1 ->
  exists rest, e = EndDone rest /\ headerEnd (verdict rl lines e total req maxBytes maxCount).1 = zlen rl + 2 + foldr (fun line n => zlen line + 2 + n) 0 lines + 2.
Proof.
  unfold verdict. destruct (requestLine_cases rl req) as [(r & q0 & Hr & Hk) | (req' & http10 & absolute & method & target & _ & Hk)]; rewrite !Hk; [intros [_ H]; by destruct Hr |]. apply judge_end.
Qed.

(** The verdict on an HTTP/1 head does not depend on how its bytes arrive.
    A head that is accepted or rejected on some bytes is accepted or rejected
    the same way, with the same request, whatever bytes follow; and of a head
    that is accepted every proper part within the limit on its bytes is
    incomplete, neither rejected nor too large. The parser is total. *)
Lemma head_stable data more req maxHeaderBytes maxHeaderCount : bytes_ok (data ++ more) ->
  exists h q h' q', parseHead data req maxHeaderBytes maxHeaderCount = Some (h, q) /\ parseHead (data ++ more) req maxHeaderBytes maxHeaderCount = Some (h', q') /\
    (head_ok h = true -> h' = h /\ q' = q) /\
    (acceptedHead h' -> zlen data < headerEnd h' -> zlen data <= effectiveBytes maxHeaderBytes -> h = headIncomplete).
Proof.
  intros Hok. pose proof Hok as Hok'. apply Forall_app in Hok' as [Hd Hm]. destruct (parse_total data req maxHeaderBytes maxHeaderCount Hd) as (h & q & E1). destruct (parse_total (data ++ more) req maxHeaderBytes maxHeaderCount Hok) as (h' & q' & E2). exists h, q, h', q'. split; [done |]. split; [done |].
  pose proof (parse_cut _ _ _ _ _ _ Hd E1) as H1. pose proof (parse_cut _ _ _ _ _ _ Hok E2) as H2. pose proof (cut_app data more) as Hc. destruct (cutLine data) as [| | rl rest] eqn:Ec.
  - split; [subst h; by destruct (_ <? _) |]. intros _ _ Hle. by replace (effectiveBytes maxHeaderBytes <? zlen data) with false in H1 by lia.
  - rewrite Hc in H2. destruct H1 as [-> ->], H2 as [-> ->]. split; [done |]. by intros [_ ?].
  - rewrite Hc in H2. destruct (headLines_total rest) as (lines & e & Hl). destruct (headLines_total (rest ++ more)) as (lines' & e' & Hl'). specialize (H1 _ _ Hl). specialize (H2 _ _ Hl'). pose proof (headLines_extends _ _ _ _ _ _ Hl Hl') as He. split.
    + intros Hh. rewrite (verdict_stable rl lines e (zlen data) lines' e' (zlen (data ++ more)) req _ _ He) in H2 by (rewrite <- H1; exact Hh). rewrite <- H1 in H2. by injection H2.
    + intros Ha Hlt Hle. apply (f_equal fst) in H1, H2. cbn [fst] in H1, H2. destruct e as [| | | rest0] eqn:Ee.
      * rewrite H1. eapply verdict_prefix; [exact He | by left | exact Hle | rewrite <- H2; exact Ha].
      * rewrite H1. eapply verdict_prefix; [exact He | by right | exact Hle | rewrite <- H2; exact Ha].
      * exfalso. destruct He as [-> ->]. rewrite H2 in Ha. destruct (verdict_end _ _ _ _ _ _ _ Ha) as (r & Hr & _). done.
      * exfalso. destruct He as [-> [more' ->]]. rewrite H2 in Ha. destruct (verdict_end _ _ _ _ _ _ _ Ha) as (r & _ & Hend). rewrite <- H2 in Hend. destruct (cut_line _ _ _ Ec) as [Ed _]. destruct (headLines_bytes _ _ _ Hl) as [Hb _]. rewrite Hend, Ed, Hb in Hlt. rewrite zlen_app, !zlen_cons, zlen_app, lines_length in Hlt. pose proof (zlen_nonneg rest0). change ([CR; LF] ++ rest0) with (CR :: LF :: rest0) in Hlt. rewrite !zlen_cons in Hlt. lia.
Qed.


(** ** Valid heads are accepted *)

Definition fieldLine (f : field) : bytes := f.1 ++ 58 :: 32 :: f.2.
Definition fieldGood (f : field) : Prop :=
  isH1Token f.1 = true /\ plain f.2 /\ trimOWS f.2 = f.2 /\ (named (str "host") f = true -> ValidateHost f.2 = true).
Definition requestHead (method target : bytes) (http10 : bool) (fs : list field) : bytes :=
  (method ++ SP :: target ++ SP :: (if http10 then str "HTTP/1.0" else str "HTTP/1.1")) ++ [CR; LF] ++ concat (map (fun l => l ++ [CR; LF]) (map fieldLine fs)) ++ [CR; LF].

Lemma isH1Token_spec b : isH1Token b = true -> b <> [] /\ Forall (fun c => h1TokenChar c = true) b.
Proof. unfold isH1Token. rewrite andb_true_iff. intros [H1 H2]. split; [intros ->; done |]. apply Forall_forall. rewrite forallb_forall in H2. intros c Hc. apply H2. by apply list_elem_of_In. Qed.

Lemma trim_space v : trimOWS v = v -> trimOWS (32 :: v) = v.
Proof. intros H. unfold trimOWS in *. cbn [dropOWS]. change (isOWS 32) with true. cbv iota. exact H. Qed.

Lemma fieldOf_line f : fieldGood f -> fieldOf (fieldLine f) = Some (f.1, 32 :: f.2) /\ plain (fieldLine f) /\ exists c l, fieldLine f = c :: l.
Proof.
  intros (Ht & Hv & _ & _). destruct (isH1Token_spec _ Ht) as [Hne Htok]. unfold fieldOf, fieldLine. rewrite (tokenPrefix_token f.1 (58 :: 32 :: f.2)) by done. destruct f.1 as [| c name] eqn:E; [done |]. split; [done |]. split; [| by eexists _, _].
  apply Forall_app. split; [eapply Forall_impl; [exact Htok | apply token_plain] |]. by repeat constructor.
Qed.

Lemma headLines_render fs rest : Forall fieldGood fs -> headLines (concat (map (fun l => l ++ [CR; LF]) (map fieldLine fs)) ++ [CR; LF] ++ rest) (map fieldLine fs) (EndDone rest).
Proof.
  induction 1 as [| f fs Hf _ IH]; [by apply hl_done |]. destruct (fieldOf_line f Hf) as (_ & Hp & c & l & E). cbn [map concat]. rewrite <- !app_assoc. rewrite E in Hp |- *. eapply hl_line; [by apply cut_render | exact IH].
Qed.

Lemma refField_some s f : (named (str "host") f = true -> ValidateHost f.2 = true) -> exists s', refField s f.1 f.2 = Some s'.
Proof. intros H. unfold refField, named in *. destruct (bytes_eqb (lower f.1) (str "host")); [| by eexists]. rewrite H by done. by eexists. Qed.

Lemma judge_lines maxBytes maxCount http10 absolute lines fs rest total : Forall2 lineField lines fs -> Forall (fun f => named (str "host") f = true -> ValidateHost f.2 = true) fs ->
  forall s pos done, fieldsRead done s -> zlen done + zlen fs <= maxCount -> pos + foldr (fun line n => zlen line + 2 + n) 0 lines <= maxBytes ->
  exists s', fieldsRead (done ++ fs) s' /\ lineOf (s_req s') = lineOf (s_req s) /\ (existsb (named (str "expect")) fs = false -> q_expect (s_req s') = q_expect (s_req s)) /\
    judge lines (EndDone rest) total maxBytes maxCount http10 absolute s pos = headEnd s' http10 absolute (pos + foldr (fun line n => zlen line + 2 + n) 0 lines).
Proof.
  induction 1 as [| line f lines fs Hlf Hrest IH]; intros Hv s pos done R Hc Hb; cbn [foldr judge existsb] in *.
  - exists s. rewrite app_nil_r. split_and!; [exact R | reflexivity | done |]. replace (maxBytes <? pos) with false by (clear - Hb; lia). f_equal. clear; lia.
  - apply Forall_cons_1 in Hv as [Hv Hvs]. destruct Hlf as (value & Ef & Et). assert (Hpos : pos <= maxBytes) by (assert (0 <= foldr (fun line n => zlen line + 2 + n) 0 lines) by (clear; induction lines as [| g lines IHf]; cbn [foldr]; [lia |]; pose proof (zlen_nonneg g); lia); pose proof (zlen_nonneg line); clear - Hb H H0; lia). replace (maxBytes <? pos) with false by (clear - Hpos; lia).
    rewrite Ef. cbv zeta. rewrite <- Et. rewrite zlen_cons in Hc. assert (Ecnt : (maxCount <? zlen (q_Headers (s_req (with_req s (add_header (s_req s) (f.1, f.2)))))) = false).
    { cbn [s_req with_req add_header q_Headers]. rewrite (fr_headers _ _ R), zlen_snoc. pose proof (zlen_nonneg fs). clear - Hc H. lia. }
    rewrite Ecnt. destruct (refField_some (with_req s (add_header (s_req s) (f.1, f.2))) f Hv) as [s1 Es]. rewrite Es. rewrite <- surjective_pairing in Es. pose proof (refField_effect _ f s1 Es) as He. pose proof (fieldsRead_step done s f s1 R He) as R1.
    destruct (IH Hvs s1 (pos + zlen line + 2) (done ++ [f]) R1) as (s' & R' & L' & X' & ->); [rewrite zlen_snoc; clear - Hc; lia | clear - Hb; lia |]. exists s'. rewrite <- app_assoc in R'. split_and!; [exact R' | rewrite L'; exact (fe_line _ _ _ He) | | f_equal; clear; lia]. intros Hx. apply orb_false_iff in Hx as [Hx1 Hx2]. rewrite X' by exact Hx2. exact (fe_expect _ _ _ He Hx1).
Qed.

Lemma good_lines fs : Forall fieldGood fs -> Forall2 lineField (map fieldLine fs) fs /\ Forall (fun f => named (str "host") f = true -> ValidateHost f.2 = true) fs.
Proof.
  induction 1 as [| f fs Hf _ [IH1 IH2]]; [split; constructor |]. destruct (fieldOf_line f Hf) as (Ef & _). pose proof Hf as (_ & _ & Ht & Hv). split; [| by constructor]. cbn [map]. constructor; [| exact IH1]. exists (32 :: f.2). split; [exact Ef | by rewrite trim_space].
Qed.

(** What frames the body of a request. *)
Definition framingOk (http10 : bool) (fs : list field) : Prop :=
  Forall (fun f => named (str "transfer-encoding") f = true -> isChunked f = true) fs /\
  (existsb (named (str "transfer-encoding")) fs = true -> existsb (named (str "content-length")) fs = false /\ http10 = false) /\
  (hosts fs = 1 \/ (http10 = true /\ hosts fs = 0)) /\
  exists n, Forall (fun f => named (str "content-length") f = true -> parseUint f.2 = Some n) fs.

(** Unambiguous framing fields give one framing. *)
Lemma framingOk_conflict http10 fs : framingOk http10 fs -> ~ lengthsConflict fs.
Proof.
  intros (Hte & _ & _ & n & Hcl). rewrite Forall_forall in Hte, Hcl. assert (Hone : forall fr, mayFrame fs fr -> fr = ChunkedBody \/ fr = LengthBody n \/ fr = NoBody).
  { intros fr [f Hf Hn | f Hf Hn | _ _]; [left; by rewrite (Hte f Hf Hn) | right; left; by rewrite (Hcl f Hf Hn) | by right; right]. }
  intros [H | (a & b & Hne & Ha & Hb)]; [by destruct (Hone _ H) as [? | [? | ?]] |]. destruct (Hone _ Ha) as [? | [[= ->] | ?]]; [done | | done]. by destruct (Hone _ Hb) as [? | [[= ->] | ?]].
Qed.

Lemma requestLine_render method target http10 req : isH1Token method = true -> plain target -> SP ∉ target -> znth target 0 = slash ->
  let line := method ++ SP :: target ++ SP :: (if http10 : bool then str "HTTP/1.0" else str "HTTP/1.1") in
  plain line /\ exists req' absolute, absolute = None /\ (q_Headers req' = q_Headers req /\ q_expect req' = q_expect req) /\ lineOf req' = (method, (if http10 then str "HTTP/1.0" else str "HTTP/1.1"), sanitizeSplitPath (splitPathQuery target).1, (splitPathQuery target).2, target) /\
    forall k, requestLine line req k = k req' http10 absolute.
Proof.
  intros Hm Hp Hs H0. cbv zeta. destruct (isH1Token_spec _ Hm) as [Hmne Hmt]. assert (Hspm : SP ∉ method) by (intros Hin; rewrite Forall_forall in Hmt; specialize (Hmt SP Hin); by vm_compute in Hmt).
  set (line := method ++ SP :: target ++ SP :: (if http10 then str "HTTP/1.0" else str "HTTP/1.1")). split; [apply Forall_app; split; [eapply Forall_impl; [exact Hmt | apply token_plain] |]; constructor; [done |]; apply Forall_app; split; [exact Hp |]; constructor; [done |]; destruct http10; apply (bool_decide_unpack _); by vm_compute |].
  eexists (set_line req method _ _ _ target), None. split; [done |]. split; [done |]. split; [reflexivity |]. intros k. unfold requestLine. set (version := if http10 then str "HTTP/1.0" else str "HTTP/1.1") in *.
  assert (I1 : IndexByte line SP = zlen method) by (by apply index_first). rewrite I1. pose proof (zlen_nonneg method). replace (zlen method <? 0) with false by lia. cbv zeta.
  assert (D1 : zdrop (zlen method + 1) line = target ++ SP :: version) by (apply zdrop_cons). rewrite D1. assert (I2 : IndexByte (target ++ SP :: version) SP = zlen target) by (by apply index_first). rewrite I2. assert (Ht : 0 < zlen target) by (destruct target as [| x t]; [done | rewrite zlen_cons; pose proof (zlen_nonneg t); lia]). replace (zlen target <=? 0) with false by lia.
  assert (D2 : zdrop (zlen target + (zlen method + 1) + 1) line = version) by (replace (zlen target + (zlen method + 1) + 1) with ((zlen method + 1) + (zlen target + 1)) by lia; rewrite <- zdrop_zdrop by lia; rewrite D1; apply zdrop_cons). rewrite D2.
  assert (Hv : validH1Version version = true /\ (znth version 7 =? 48) = http10) by (unfold version; destruct http10; split; by vm_compute). destruct Hv as [-> Hv]. cbn [negb].
  assert (Hn : znth line (zlen target + (zlen method + 1) + 8) = znth version 7) by (rewrite <- D2; unfold znth, zdrop; rewrite !nth_lookup; f_equal; rewrite lookup_drop; f_equal; lia). rewrite Hn, Hv. assert (T1 : ztake (zlen method) line = method) by apply ztake_app_exact. rewrite T1, Hm. cbn [negb].
  assert (T2 : zslice line (zlen method + 1) (zlen target + (zlen method + 1)) = target) by (unfold zslice; rewrite D1; replace (zlen target + (zlen method + 1) - (zlen method + 1)) with (zlen target) by lia; apply ztake_app_exact). rewrite T2, H0. change (slash =? slash) with true. cbn [negb]. rewrite andb_false_r. destruct (splitPathQuery target) as [p qq]. done.
Qed.

(** C40: Every valid HTTP/1 head is accepted: what a client writes (a token
    method, an origin-form target, field lines "name: value" with one host and
    an unambiguous framing) is parsed back as exactly its method, target and
    fields, the head ends where it was written, and the body is framed as the
    fields say, whatever follows it and whatever vector routines scan it. *)
Theorem h1_head_roundtrip method target http10 fs rest req maxHeaderBytes maxHeaderCount : bytes_ok (requestHead method target http10 fs ++ rest) -> q_Headers req = [] ->
  isH1Token method = true -> plain target -> SP ∉ target -> znth target 0 = slash -> Forall fieldGood fs -> framingOk http10 fs ->
  zlen fs <= effectiveCount maxHeaderCount -> zlen (requestHead method target http10 fs) <= effectiveBytes maxHeaderBytes + 2 ->
  exists h q, parseHead (requestHead method target http10 fs ++ rest) req maxHeaderBytes maxHeaderCount = Some (h, q) /\ acceptedHead h /\
    headerEnd h = zlen (requestHead method target http10 fs) /\ q_Method q = method /\ q_RawPath q = target /\ q_Path q = sanitizeSplitPath (splitPathQuery target).1 /\ q_Headers q = fs /\
    chunkedEncoding h = existsb (named (str "transfer-encoding")) fs /\ hasContentLength h = existsb (named (str "content-length")) fs /\
    (forall fr, mayFrame fs fr -> fr = framingOf h) /\
    closeConn h = existsb (fun f => named (str "connection") f && asksClose f) fs || (http10 && negb (existsb (fun f => named (str "connection") f && asksKeepAlive f) fs)).
Proof.
  intros Hok Hq Hm Hp Hs H0 Hf Hframing Hc Hb. pose proof (framingOk_conflict http10 fs Hframing) as Hnc. destruct Hframing as (Hte & Hone & Hhosts & _). set (line := method ++ SP :: target ++ SP :: (if http10 then str "HTTP/1.0" else str "HTTP/1.1")). destruct (requestLine_render method target http10 req Hm Hp Hs H0) as [Hpl (req' & absolute & -> & [Hq' _] & Hl' & Hk)]. fold line in Hpl, Hk.
  set (after := concat (map (fun l => l ++ [CR; LF]) (map fieldLine fs)) ++ [CR; LF] ++ rest). assert (Edata : requestHead method target http10 fs ++ rest = line ++ CR :: LF :: after) by (unfold requestHead; fold line; unfold after; rewrite <- !app_assoc; done).
  assert (Elen : zlen (requestHead method target http10 fs) = zlen line + 2 + foldr (fun l n => zlen l + 2 + n) 0 (map fieldLine fs) + 2) by (unfold requestHead; fold line; rewrite !zlen_app, lines_length; change (zlen [CR; LF]) with 2; clear; lia).
  assert (Ecut : cutLine (requestHead method target http10 fs ++ rest) = CutLine line after) by (rewrite Edata; by apply cut_render). destruct (parse_verdict _ req maxHeaderBytes maxHeaderCount Hok) as [_ HV]. rewrite (HV line after _ _ Ecut (headLines_render fs rest Hf)). unfold verdict. rewrite Hk.
  assert (R0 : fieldsRead [] (startState req')) by (apply fieldsRead_start; by rewrite Hq').
  destruct (good_lines fs Hf) as [Hlines Hvalid].
  destruct (judge_lines (effectiveBytes maxHeaderBytes) (effectiveCount maxHeaderCount) http10 None (map fieldLine fs) fs rest (zlen (requestHead method target http10 fs ++ rest)) Hlines Hvalid (startState req') (zlen line + 2) [] R0) as (s' & R' & L' & _ & ->); [change (zlen (@nil field)) with 0; clear - Hc; lia | clear - Hb Elen; lia |]. cbn [app s_req startState] in *. destruct R' as [R1 R2 R3 R4 R5 R6 R7 R8 R9 R10 R11]. rewrite Hl' in L'. unfold lineOf in L'. injection L' as M1 M2 M3 M4 M5.
  assert (Ebad : s_badTE s' = false).
  { rewrite R5. apply not_true_is_false. intros Ex. apply existsb_exists in Ex as (f & Hin & Hx). apply andb_true_iff in Hx as [Hx1 Hx2]. rewrite Forall_forall in Hte. rewrite (Hte f) in Hx2; [done | by apply list_elem_of_In | done]. }
  assert (Ech : s_chunked s' = existsb (named (str "transfer-encoding")) fs) by (pose proof (existsb_split (named (str "transfer-encoding")) isChunked fs) as Hx; rewrite <- R4, <- R5, Ebad, orb_false_r in Hx; exact (eq_sym Hx)).
  unfold headEnd. rewrite Ebad. cbn [orb]. assert (E1 : s_chunked s' && (s_hasContentLength s' || http10) = false) by (apply not_true_is_false; intros Hx; apply andb_true_iff in Hx as [Hx1 Hx2]; rewrite Ech in Hx1; destruct (Hone Hx1) as [H1 H2]; rewrite R6, H1, H2 in Hx2; discriminate Hx2). rewrite E1. rewrite R2.
  assert (E2 : (1 <? hosts fs) || ((hosts fs =? 0) && negb http10) = false) by (clear - Hhosts; destruct Hhosts as [-> | [-> ->]]; done). rewrite E2. eexists _, _. split; [reflexivity |].
  assert (Hn0 : 0 <= s_contentLength s') by (destruct (decide (s_contentLength s' < 0)) as [Hneg | Hpos]; [by destruct (Hnc (R11 Hneg)) | clear - Hpos; lia]).
  assert (Hfr : forall fr, mayFrame fs fr -> fr = if s_chunked s' then ChunkedBody else if s_hasContentLength s' then LengthBody (s_contentLength s') else NoBody).
  { rewrite Ech, R6. intros fr [f Hin Hx | f Hin Hx | Hx1 Hx2].
    - assert (existsb (named (str "transfer-encoding")) fs = true) as -> by (apply existsb_exists; exists f; split; [by apply list_elem_of_In | done]). rewrite Forall_forall in Hte. by rewrite (Hte f Hin Hx).
    - assert (Hex : existsb (named (str "content-length")) fs = true) by (apply existsb_exists; exists f; split; [by apply list_elem_of_In | done]). rewrite Hex. destruct (existsb (named (str "transfer-encoding")) fs) eqn:Et; [destruct (Hone eq_refl) as [Hy _]; congruence |]. specialize (R7 Hn0). rewrite Forall_forall in R7. by rewrite (R7 f Hin Hx).
    - by rewrite Hx1, Hx2. }
  unfold framingOf. cbn [headerEnd chunkedEncoding hasContentLength closeConn contentLength]. assert (Hq1 : forall b : bool, q_Headers (if b then set_expect (s_req s') h1ExpectNone else s_req s') = fs /\ lineOf (if b then set_expect (s_req s') h1ExpectNone else s_req s') = lineOf (s_req s')) by (intros []; done).
  destruct (Hq1 http10) as [Q1 Q2]. unfold lineOf in Q2. injection Q2 as N1 N2 N3 N4 N5. cbn [q_Method q_RawPath q_Path q_Headers set_aliases]. rewrite Q1, N1, N3, N5, M1, M3, M5, R9, R10. split_and!; try done.
Qed.

End Scans.

(** ** Concrete heads *)

Definition demo_fields : list field := [(str "Host", str "a.b"); (str "Content-Length", str "3"); (str "connection", str "Close")].
Definition demo_head : bytes := requestHead (str "POST") (str "/a/../b?x=1") false demo_fields.
Abbreviation plainParse := (parseH1RequestHead false firstH1SpecialSWAR h1HeaderLineSWAR).

Lemma swar_first : forall p, bytes_ok p -> avx2ScanMinLen <= zlen p -> firstH1SpecialSWAR p = firstH1SpecialSWAR p.
Proof. done. Qed.
Lemma swar_line : forall p, bytes_ok p -> avx2ScanMinLen <= zlen p -> h1HeaderLineSWAR p = h1HeaderLineSWAR p.
Proof. done. Qed.

Ltac concrete := unfold bytes_ok, is_u8, plain; apply (bool_decide_unpack _); vm_compute; exact I.

Lemma h1_head_roundtrip_witness : exists h q, plainParse (demo_head ++ str "abc") emptyRequest 0 0 = Some (h, q) /\ acceptedHead h /\ headerEnd h = zlen demo_head /\ q_Headers q = demo_fields /\ hasContentLength h = true /\ closeConn h = true.
Proof.
  assert (Hf : Forall fieldGood demo_fields) by (repeat constructor; try (intros Hn; vm_compute in Hn |- *; reflexivity); concrete).
  assert (Hfr : framingOk false demo_fields) by (split; [repeat constructor; intros Hn; vm_compute in Hn; discriminate Hn | split; [intros Hn; vm_compute in Hn; discriminate Hn | split; [left; vm_compute; reflexivity | exists 3; repeat constructor; intros Hn; vm_compute in Hn |- *; try discriminate Hn; reflexivity]]]).
  destruct (h1_head_roundtrip false firstH1SpecialSWAR h1HeaderLineSWAR swar_first swar_line (str "POST") (str "/a/../b?x=1") false demo_fields (str "abc") emptyRequest 0 0 ltac:(concrete) eq_refl eq_refl ltac:(concrete) ltac:(apply (bool_decide_unpack _); vm_compute; exact I) eq_refl Hf Hfr ltac:(vm_compute; discriminate) ltac:(vm_compute; discriminate)) as (h & q & E & Ha & E1 & _ & _ & _ & E2 & _ & E3 & _ & E4).
  exists h, q. rewrite E3, E4. split_and!; try done.
Defined.

(** Two X-Forwarded-For fields, and a head that ends just at the limit. *)
Definition twice_head : bytes := requestHead (str "GET") (str "/") false [(str "Host", str "a"); (str "X-Forwarded-For", str "1.1.1.1"); (str "X-Forwarded-For", str "2.2.2.2"); (str "X-Other", str "1"); (str "X-Other", str "2")].
Definition exact_head : bytes := requestHead (str "GET") (str "/") false [(str "Host", str "a")].

(** Two places where HTTP/1 requests are not what the code says.
    [Header] "returns the first matching request header", but of the headers the
    parser remembers it returns the last one, so that X-Forwarded-For or
    Authorization sent twice reads differently from any other header sent twice;
    and a head that ends exactly at the limit is accepted when it arrives whole
    and refused as too large when its last byte comes later. *)
Theorem h1_head_divergences :
  (exists h q, plainParse twice_head emptyRequest 0 0 = Some (h, q) /\ acceptedHead h /\ findHeader (q_Headers q) (str "x-forwarded-for") = Some (str "1.1.1.1") /\
     (Header q (str "x-forwarded-for")).1 = str "2.2.2.2" /\ (Header q (str "x-other")).1 = str "1") /\
  (exists h q q', plainParse exact_head emptyRequest 25 0 = Some (h, q) /\ acceptedHead h /\ plainParse (ztake 26 exact_head) emptyRequest 25 0 = Some (headTooLarge, q') /\ exact_head = ztake 26 exact_head ++ [LF]).
Proof.
  split; [eexists _, _; split_and!; [vm_compute; reflexivity | split; reflexivity | vm_compute; reflexivity | vm_compute; reflexivity | vm_compute; reflexivity] | eexists _, _, _; split_and!; [vm_compute; reflexivity | split; reflexivity | vm_compute; reflexivity | vm_compute; reflexivity]].
Qed.
