(* ===== verification/H1Root.v ===== *)
(** The short cut for "GET /" (src/core/h1_plain.go, [matchPlainRootFastRequest],
    with the word search of indexcrlf_amd64.go and the bit sets of h1scan.go). The
    AVX2 assembly routines are section variables. *)
From stdpp Require Import base list numbers strings.
From Stdlib Require Import ZArith Lia ZifyBool.
From S2P Require Import Prelude Utils H1Scan HttpText HpackDyn H1Head.

Open Scope list_scope.
Open Scope Z_scope.

(** ** The end of the head *)

Definition crlfcrlf : bytes := [CR; LF; CR; LF].

(** The candidates of a word: bytes equal to CR, and perhaps others. *)
Definition crMask (w : Z) : Z := let x := Z.lxor w (0x0D * swarOnes) in Z.land (andnot (u64 (x - swarOnes)) x) swarHigh.

(** [pos+4 <= n] and the four bytes at [pos], read as one word, are the pattern. *)
Definition patAt (b : bytes) (j : Z) : bool := (j + 4 <=? zlen b) && (le_val (ztake 4 (zdrop j b)) =? 0x0A0D0A0D).

Fixpoint crLoop (fuel : nat) (b : bytes) (found : Z) : option Z :=
  match fuel with
  | O => None
  | S fuel => if found =? 0 then None else let j := Z.shiftr (TrailingZeros64 found) 3 in if patAt b j then Some j else crLoop fuel b (Z.land found (found - 1))
  end.

Fixpoint crlfTail (b : bytes) (i : Z) : Z := match b with [] => -1 | _ :: b' => if 4 <=? zlen b then if patAt b 0 then i else crlfTail b' (i + 1) else -1 end.

Fixpoint crlfWords (fuel : nat) (b : bytes) (i : Z) : Z :=
  match fuel with
  | O => crlfTail b i
  | S fuel =>
      if 8 <=? zlen b then match crLoop 9 b (crMask (le_val (ztake 8 b))) with Some j => i + j | None => crlfWords fuel (zdrop 8 b) (i + 8) end
      else crlfTail b i
  end.
Definition indexCRLFCRLFSwar (b : bytes) : Z := if zlen b <? 4 then -1 else crlfWords (length b) b 0.

(** ** The fields of a root request *)

Record rootFastState := mkRootState { rt_hosts : Z; rt_maxCount : Z; rt_keepAlive : bool }.

Definition rootField (st : rootFastState) (name value : bytes) (hostSafe : bool) : option rootFastState :=
  let n := zlen name in
  if n =? 4 then
    if asciiEqualFoldBytes name (str "host") then
      let st := mkRootState (rt_hosts st + 1) (rt_maxCount st) (rt_keepAlive st) in
      if hostSafe || ValidateHost (trimOWS value) then Some st else None
    else Some st
  else if n =? 10 then
    if asciiEqualFoldBytes name (str "connection") then
      let value := trimOWS value in
      Some (if negb (asciiEqualFoldBytes value (str "keep-alive")) && (connectionOptionList value).1 then mkRootState (rt_hosts st) (rt_maxCount st) false else st)
    else Some st
  else if (n =? 6) || (n =? 14) || (n =? 17) then
    if negb (asciiEqualFoldBytes name (str "expect")) && negb (asciiEqualFoldBytes name (str "content-length")) && negb (asciiEqualFoldBytes name (str "transfer-encoding")) then Some st else None
  else Some st.

(** [for i < len(fields)] and not at a CR: the value, the classes seen, the
    classes common to all, and what is left. *)
Fixpoint valueLoop (p : bytes) (seen common : Z) : bytes * Z * Z * bytes :=
  match p with
  | [] => ([], seen, common, [])
  | c :: p' =>
      if c =? CR then ([], seen, common, p)
      else let class := h1FieldClass c in let '(v, seen, common, rest) := valueLoop p' (Z.lor seen class) (Z.land common class) in (c :: v, seen, common, rest)
  end.

(** The field at position [i]: name, value, the next position, and whether every
    byte of the value may be in a host. *)
Definition rootFieldScalar (fields : bytes) (i : Z) : option (bytes * bytes * Z * bool) :=
  match scalarName (zdrop i fields) i with
  | None => None
  | Some (colon, rest) =>
      if (colon =? i) || negb (znth rest 0 =? 58) then None
      else
        let name := zslice fields i colon in
        let '(valueStart, rest) := skipOWS (zdrop 1 rest) (colon + 1) in
        let '(value, seen, common, rest) := valueLoop rest 0 0xff in
        let i := valueStart + zlen value in
        if (zlen fields <=? i + 1) || negb (Z.land seen h1ClassSpecial =? 0) || negb (znth rest 1 =? LF) then None
        else Some (name, value, i + 2, negb (Z.land common h1ClassHost =? 0))
  end.

Section Root.

Context (hasAVX2 : bool) (h1HeaderLineAVX2 : bytes -> Z * Z) (indexCRLF4AVX2 : bytes -> Z) (h1BlockIndexAVX2 : bytes -> option (list Z * list Z * list Z)).

Definition indexCRLFCRLF (b : bytes) : Z := if zlen b <? 4 then -1 else if hasAVX2 then indexCRLF4AVX2 b else indexCRLFCRLFSwar b.

Definition findHeaderTerminatorBytes (buf : bytes) (start : Z) : Z :=
  if zlen buf <=? start then -1
  else let idx := indexCRLFCRLF (zdrop start buf) in if idx <? 0 then -1 else start + idx + 4.

Definition rootFieldVector (fields : bytes) (i : Z) : option (bytes * bytes * Z) :=
  let rest := zdrop i fields in
  let '(special, nameEnd) := h1HeaderLineSpecials hasAVX2 h1HeaderLineAVX2 rest in
  let '(e, bad) := classifyFirstSpecial rest special in
  if bad || (e <=? 0) || negb (validH1Colon (ztake e rest) nameEnd) then None
  else Some (ztake nameEnd rest, trimOWS (zslice rest (nameEnd + 1) e), i + e + 2).

(** [for i+1 < len(buf)]; [None] when the fuel runs out. *)
Fixpoint scanFields (fuel : nat) (st : rootFastState) (buf : bytes) (i : Z) : option (option (Z * rootFastState)) :=
  if zlen buf <=? i + 1 then Some None
  else match fuel with
  | O => None
  | S fuel =>
      if znth buf i =? CR then Some (if znth buf (i + 1) =? LF then Some (i + 2, st) else None)
      else match rootFieldScalar buf i with
      | None => Some None
      | Some (name, value, next, hostSafe) => match rootField st name value hostSafe with None => Some None | Some st => scanFields fuel st buf next end
      end
  end.

Fixpoint lineFields (fuel : nat) (st : rootFastState) (block : bytes) (i count : Z) : option (option rootFastState) :=
  if zlen block <=? i then Some (if count <=? rt_maxCount st then Some st else None)
  else match fuel with
  | O => None
  | S fuel =>
      let field := if h1ScalarScanMax <=? zlen block - i then (fun r => (r, false)) <$> rootFieldVector block i
                   else (fun r => (r.1, r.2)) <$> rootFieldScalar block i in
      match field with
      | None => Some None
      | Some (name, value, next, hostSafe) => match rootField st name value hostSafe with None => Some None | Some st => lineFields fuel st block next (count + 1) end
      end
  end.

(** ** The index of a block *)

Definition h1BlockMaxBytes : Z := 1024.
Definition h1BlockMinBytes : Z := 48.

Definition h1BlockIndex (block : bytes) : option (list Z * list Z * list Z) :=
  let n := zlen block in
  if negb hasAVX2 || (n <? 2) || (h1BlockMaxBytes <? n) || negb (znth block (n - 2) =? CR) || negb (znth block (n - 1) =? LF) then None
  else h1BlockIndexAVX2 block.

Definition wordAt (words : list Z) (i : Z) : Z := nth (Z.to_nat i) words 0.

(** [for w == 0]: the next word with a bit. *)
Fixpoint nextWord (fuel : nat) (words : list Z) (i chunks : Z) (w : Z) : option (Z * Z) :=
  if negb (w =? 0) then Some (i, w)
  else match fuel with
  | O => None
  | S fuel => let i := i + 1 in if chunks <=? i then None else nextWord fuel words i chunks (wordAt words i)
  end.
Definition h1NextBit (words : list Z) (from chunks : Z) : Z :=
  let i := Z.shiftr from 6 in
  if chunks <=? i then -1
  else
    let w := Z.land (wordAt words i) (u64 (Z.shiftl (2 ^ 64 - 1) (Z.land from 63))) in
    match nextWord (Z.to_nat (chunks - i)) words i chunks w with
    | None => -1
    | Some (i, w) => Z.lor (Z.shiftl i 6) (TrailingZeros64 w)
    end.

(** [for c := idx.cands[ci]; c != 0; c &= c - 1]; a word has 64 bits. *)
Fixpoint candLoop (fuel : nat) (st : rootFastState) (block : bytes) (starts ends : list Z) (chunks ci c : Z) : option rootFastState :=
  match fuel with
  | O => Some st
  | S fuel =>
      if c =? 0 then Some st
      else
        let start := Z.lor (Z.shiftl ci 6) (TrailingZeros64 c) in
        let colon := h1NextBit ends start chunks in
        let next := h1NextBit starts colon chunks in
        let e := if 0 <=? next then next - 2 else zlen block - 2 in
        match rootField st (zslice block start colon) (zslice block (colon + 1) e) false with
        | None => None
        | Some st => candLoop fuel st block starts ends chunks ci (Z.land c (c - 1))
        end
  end.
Fixpoint chunkLoop (n : nat) (st : rootFastState) (block : bytes) (starts ends cands : list Z) (chunks ci : Z) : option rootFastState :=
  match n with
  | O => Some st
  | S n => match candLoop 65 st block starts ends chunks ci (wordAt cands ci) with None => None | Some st => chunkLoop n st block starts ends cands chunks (ci + 1) end
  end.

(** [bits.OnesCount64]. *)
Fixpoint onesPos (p : positive) : Z := match p with xH => 1 | xO p => onesPos p | xI p => 1 + onesPos p end.
Definition OnesCount64 (w : Z) : Z := match w with Zpos p => onesPos p | _ => 0 end.

Definition minH1FieldLineBytes : Z := 4.
Definition maxH1FieldStartsPerChunk : Z := 16.

Fixpoint startsLoop (n : nat) (starts : list Z) (chunks maxCount ci count : Z) : bool :=
  match n with
  | O => count <=? maxCount
  | S n =>
      let count := count + OnesCount64 (wordAt starts ci) in
      if count + (chunks - 1 - ci) * maxH1FieldStartsPerChunk <=? maxCount then true else startsLoop n starts chunks maxCount (ci + 1) count
  end.
Definition h1BlockStartsWithin (starts : list Z) (chunks maxCount : Z) : bool := startsLoop (Z.to_nat chunks) starts chunks maxCount 0 0.

(** [None] when the block is not indexed. *)
Definition indexedFields (st : rootFastState) (block : bytes) : option (option rootFastState) :=
  match h1BlockIndex block with
  | None => None
  | Some (starts, ends, cands) =>
      let chunks := Z.shiftr (zlen block + 63) 6 in
      Some (match chunkLoop (Z.to_nat chunks) st block starts ends cands chunks 0 with
            | None => None
            | Some st => if (zlen block <=? rt_maxCount st * minH1FieldLineBytes) || h1BlockStartsWithin starts chunks (rt_maxCount st) then Some st else None
            end)
  end.

Definition rootFields (st : rootFastState) (block : bytes) : option (option rootFastState) :=
  match (if h1BlockMinBytes <=? zlen block then indexedFields st block else None) with
  | Some r => Some r
  | None => lineFields (length block) st block 0 0
  end.

(** [rootFastHeaders]: whether to keep the connection, [None] when not ok. *)
Definition rootFastHeaders (block : bytes) (maxHeaderCount : Z) : option (option bool) :=
  match rootFields (mkRootState 0 maxHeaderCount true) block with
  | None => None
  | Some (Some st) => Some (if rt_hosts st =? 1 then Some (rt_keepAlive st) else None)
  | Some None => Some None
  end.

(** ** The request *)

Definition rootPrefix16 : bytes := str "GET / HTTP/1.1" ++ [CR; LF].
Definition rootScalarScanMaxBytes : Z := 96.
Definition rootFastUncountedHeadLen (maxHeaderCount : Z) : Z := zlen rootPrefix16 + maxHeaderCount * minH1FieldLineBytes + 2.

Definition endsWithHeaderTerminator (buf : bytes) (lineLen : Z) : bool :=
  let n := zlen buf in (lineLen <=? n - 2) && (4 <=? n) && bytes_eqb (zdrop (n - 4) buf) crlfcrlf.

(** Where the head ends and whether to keep the connection; [None] when it is
    not ok or more must be read, which the caller does not tell apart. First the
    second half, which looks for the end of the head. *)
Definition fastFromTerminator (buf : bytes) (lineLen maxHeaderCount : Z) : option (option (Z * bool)) :=
  let headerEnd := findHeaderTerminatorBytes buf lineLen in
  if headerEnd <? 0 then Some None
  else match rootFastHeaders (zslice buf lineLen (headerEnd - 2)) maxHeaderCount with
  | None => None
  | Some None => Some None
  | Some (Some keepAlive) => Some (Some (headerEnd, keepAlive))
  end.
Definition parsePlainFastRootRequest (buf : bytes) (lineLen maxHeaderCount : Z) : option (option (Z * bool)) :=
  if zlen buf <=? rootScalarScanMaxBytes then
    match scanFields (length buf) (mkRootState 0 0 true) buf lineLen with
    | None => None
    | Some (Some (headerEnd, st)) => if rt_hosts st =? 1 then Some (Some (headerEnd, rt_keepAlive st)) else fastFromTerminator buf lineLen maxHeaderCount
    | Some None => fastFromTerminator buf lineLen maxHeaderCount
    end
  else if endsWithHeaderTerminator buf lineLen then
    match rootFastHeaders (zslice buf lineLen (zlen buf - 2)) maxHeaderCount with
    | None => None
    | Some (Some keepAlive) => Some (Some (zlen buf, keepAlive))
    | Some None => fastFromTerminator buf lineLen maxHeaderCount
    end
  else fastFromTerminator buf lineLen maxHeaderCount.

Definition countByte (c : Z) (b : bytes) : Z := zlen (List.filter (Z.eqb c) b).
Definition scalarRootFieldsExceed (data : bytes) (consumed maxHeaderCount : Z) : bool :=
  (consumed <=? rootScalarScanMaxBytes) && (maxHeaderCount <? countByte LF (zslice data (zlen rootPrefix16) (consumed - 2))).

(** What is consumed and whether the connection closes, where there is a
    memoised response ([maxHeaderCount] is the limit kept with it). *)
Definition matchPlainRootFastRequest (data : bytes) (maxHeaderSize maxHeaderCount : Z) : option (option (Z * bool)) :=
  if (zlen data <? zlen rootPrefix16 + 4) || negb (bytes_eqb (ztake 16 data) rootPrefix16) then Some None
  else
    let maxHeaderBytes := if maxHeaderSize <=? 0 then 8192 else maxHeaderSize in
    match parsePlainFastRootRequest data (zlen rootPrefix16) maxHeaderCount with
    | None => None
    | Some None => Some None
    | Some (Some (consumed, keepAlive)) =>
        if (maxHeaderBytes <? consumed - 2) || ((rootFastUncountedHeadLen maxHeaderCount <? consumed) && scalarRootFieldsExceed data consumed maxHeaderCount) then Some None
        else Some (Some (consumed, negb keepAlive))
    end.

End Root.
