(* ===== verification/H1RootProofs.v ===== *)
(** The short cut for "GET /": whatever it answers, the parser of request heads
    accepts as a GET for the root without a body, at the same length and with the
    same decision about the connection. *)
From stdpp Require Import base list numbers strings.
From Stdlib Require Import ZArith Lia ZifyBool.
From S2P Require Import Prelude Utils H1Scan HttpText HpackDyn H1Head H1HeadProofs H1Root.

Open Scope list_scope.
Open Scope Z_scope.

(** ** The fields, by folded names *)

Definition rootRef (st : rootFastState) (f : field) : option rootFastState :=
  if named (str "host") f then (if ValidateHost f.2 then Some (mkRootState (rt_hosts st + 1) (rt_maxCount st) (rt_keepAlive st)) else None)
  else if named (str "connection") f then Some (if asksClose f then mkRootState (rt_hosts st) (rt_maxCount st) false else st)
  else if named (str "expect") f || named (str "content-length") f || named (str "transfer-encoding") f then None
  else Some st.

Fixpoint rootFold (st : rootFastState) (fs : list field) : option rootFastState :=
  match fs with [] => Some st | f :: fs => match rootRef st f with None => None | Some st => rootFold st fs end end.

Lemma fold_named name full : asciiEqualFoldBytes name full = bytes_eqb (lower name) (lower full).
Proof.
  unfold asciiEqualFoldBytes, lower. apply eq_bool_prop_intro. rewrite !Is_true_true, andb_true_iff, bytes_eqb_spec. split.
  - intros [Hl Hf]. assert (El : length name = length full) by (unfold zlen in Hl; lia). clear Hl. revert full El Hf. induction name as [| x name IH]; intros [| y full] El Hf; try done. cbn [zip_with forallb map] in *. apply andb_true_iff in Hf as [H1 H2]. cbn [fst snd] in H1. f_equal; [lia |]. apply IH; [by injection El | exact H2].
  - intros E. assert (El : length name = length full) by (apply (f_equal length) in E; by rewrite !length_map in E). split; [unfold zlen; lia |]. revert full E El. induction name as [| x name IH]; intros [| y full] E El; try done. injection E as E1 E2. cbn [zip_with forallb fst snd]. rewrite (IH full E2) by (by injection El). lia.
Qed.

Lemma lower_cases x y : 97 <= y <= 122 -> asciiLower x = y -> x = y \/ x = y - 32.
Proof. unfold asciiLower. destruct ((65 <=? x) && (x <=? 90)) eqn:E; lia. Qed.

(** "close" alone is a list that asks to close. *)
Lemma close_listed v : bytes_eqb (lower v) (str "close") = true -> containsTokenFold v (str "close") = true.
Proof.
  intros E. apply bytes_eqb_spec in E. destruct v as [| a [| b [| c [| d [| e [| f v]]]]]]; try done. change (str "close") with [99; 108; 111; 115; 101] in E. unfold lower in E. cbn [map] in E. injection E as Ea Eb Ec Ed Ee.
  apply lower_cases in Ea as [-> | ->]; [| | lia]; apply lower_cases in Eb as [-> | ->]; try lia; apply lower_cases in Ec as [-> | ->]; try lia; apply lower_cases in Ed as [-> | ->]; try lia; apply lower_cases in Ee as [-> | ->]; try lia; vm_compute; reflexivity.
Qed.

Lemma asksClose_list f : asksClose f = negb (bytes_eqb (lower f.2) (str "keep-alive")) && (connectionOptionList f.2).1.
Proof.
  unfold asksClose, connectionOptions. rewrite !fold_named. change (lower (str "keep-alive")) with (str "keep-alive"). change (lower (str "close")) with (str "close"). destruct (bytes_eqb (lower f.2) (str "keep-alive")); [done |]. cbn [negb andb]. destruct (bytes_eqb (lower f.2) (str "close")) eqn:E; [| done]. cbn [fst connectionOptionList]. by rewrite (close_listed _ E).
Qed.

Lemma rootField_ref st name value hostSafe : (hostSafe = true -> ValidateHost (trimOWS value) = true) -> rootField st name value hostSafe = rootRef st (name, trimOWS value).
Proof.
  intros Hs. assert (Hh : hostSafe || ValidateHost (trimOWS value) = ValidateHost (trimOWS value)) by (destruct hostSafe; [by rewrite Hs | done]). unfold rootField, rootRef. rewrite asksClose_list. unfold named. cbn [fst snd]. rewrite !fold_named, Hh.
  change (lower (str "host")) with (str "host"). change (lower (str "connection")) with (str "connection"). change (lower (str "keep-alive")) with (str "keep-alive"). change (lower (str "expect")) with (str "expect"). change (lower (str "content-length")) with (str "content-length"). change (lower (str "transfer-encoding")) with (str "transfer-encoding"). cbv zeta.
  destruct (bytes_eqb (lower name) (str "host")) eqn:E1; [rewrite (lower_length _ _ E1 : zlen name = 4); reflexivity |]. destruct (bytes_eqb (lower name) (str "connection")) eqn:E2; [rewrite (lower_length _ _ E2 : zlen name = 10); reflexivity |].
  destruct (bytes_eqb (lower name) (str "expect")) eqn:E3; [rewrite (lower_length _ _ E3 : zlen name = 6); reflexivity |]. destruct (bytes_eqb (lower name) (str "content-length")) eqn:E4; [rewrite (lower_length _ _ E4 : zlen name = 14); reflexivity |]. destruct (bytes_eqb (lower name) (str "transfer-encoding")) eqn:E5; [rewrite (lower_length _ _ E5 : zlen name = 17); reflexivity |].
  cbn [negb andb orb]. destruct (zlen name =? 4); [done |]. destruct (zlen name =? 10); [done |]. by destruct ((zlen name =? 6) || (zlen name =? 14) || (zlen name =? 17)).
Qed.

Lemma rootFold_facts fs : forall st st', rootFold st fs = Some st' ->
  Forall (fun f => named (str "host") f = true -> ValidateHost f.2 = true) fs /\ rt_hosts st' = rt_hosts st + hosts fs /\ rt_maxCount st' = rt_maxCount st /\
  rt_keepAlive st' = rt_keepAlive st && negb (existsb (fun f => named (str "connection") f && asksClose f) fs) /\
  existsb (named (str "expect")) fs = false /\ existsb (named (str "content-length")) fs = false /\ existsb (named (str "transfer-encoding")) fs = false.
Proof.
  assert (Hother : forall f a b, named (str a) f = true -> bytes_eqb (str a) (str b) = false -> named (str b) f = false) by (unfold named; intros f a b H1 H2; apply bytes_eqb_spec in H1; by rewrite H1).
  induction fs as [| f fs IH]; intros st st'; cbn [rootFold existsb].
  - intros [= <-]. rewrite andb_true_r. unfold hosts. cbn [List.filter]. change (zlen (@nil field)) with 0. rewrite Z.add_0_r. split_and!; done.
  - unfold rootRef. destruct (named (str "host") f) eqn:E1.
    + destruct (ValidateHost f.2) eqn:Ev; [| done]. intros H. destruct (IH _ _ H) as (F1 & F2 & F3 & F4 & F5 & F6 & F7). cbn [rt_hosts rt_maxCount rt_keepAlive] in *. rewrite (Hother f "host" "connection" E1 eq_refl), (Hother f "host" "expect" E1 eq_refl), (Hother f "host" "content-length" E1 eq_refl), (Hother f "host" "transfer-encoding" E1 eq_refl). cbn [andb orb]. split_and!; try done; [by constructor |]. unfold hosts in *. cbn [List.filter]. rewrite E1, zlen_cons, F2. clear. lia.
    + assert (Hh : hosts (f :: fs) = hosts fs) by (unfold hosts; cbn [List.filter]; by rewrite E1). rewrite Hh. destruct (named (str "connection") f) eqn:E2.
      * rewrite (Hother f "connection" "expect" E2 eq_refl), (Hother f "connection" "content-length" E2 eq_refl), (Hother f "connection" "transfer-encoding" E2 eq_refl). intros H. destruct (IH _ _ H) as (F1 & F2 & F3 & F4 & F5 & F6 & F7). cbn [andb orb]. destruct (asksClose f); cbn [rt_hosts rt_maxCount rt_keepAlive orb negb] in *; split_and!; try done; try (constructor; [by rewrite E1 | done]). by rewrite F4, andb_false_r.
      * destruct (named (str "expect") f); [done |]. destruct (named (str "content-length") f); [done |]. destruct (named (str "transfer-encoding") f); [done |]. cbn [orb]. intros H. destruct (IH _ _ H) as (F1 & F2 & F3 & F4 & F5 & F6 & F7). cbn [andb orb]. split_and!; try done. constructor; [by rewrite E1 | done].
Qed.

(** ** What the parser makes of such fields *)

(** The fields of a head from position 16: lines, an empty line, the rest. *)
Definition rootLines (p : bytes) (lines : list bytes) (fs : list field) (rest : bytes) : Prop :=
  p = concat (map (fun l => l ++ [CR; LF]) lines) ++ rest /\ Forall plain lines /\ Forall2 lineField lines fs.

Lemma lineField_cons line f : lineField line f -> exists c l, line = c :: l.
Proof. intros (v & Hf & _). destruct line as [| c l]; [discriminate Hf | by exists c, l]. Qed.

Lemma rootLines_head p lines fs rest : rootLines p lines fs (CR :: LF :: rest) -> headLines p lines (EndDone rest).
Proof.
  intros (-> & Hp & H2). revert Hp. induction H2 as [| line f lines fs Hlf _ IH]; intros Hp; [by apply hl_done |]. apply Forall_cons_1 in Hp as [Hpl Hps]. destruct (lineField_cons _ _ Hlf) as (c & l & ->). cbn [map concat]. rewrite <- app_assoc. eapply hl_line; [rewrite <- app_assoc; by apply cut_render | by apply IH].
Qed.

Lemma rootLines_cons line f p lines fs rest : plain line -> lineField line f -> rootLines p lines fs rest -> rootLines (line ++ CR :: LF :: p) (line :: lines) (f :: fs) rest.
Proof. intros Hp Hf (-> & Hps & H2). split_and!; [cbn [map concat]; by rewrite <- !app_assoc | by constructor | by constructor]. Qed.

(** The request the short cut stands for. *)
Record rootRequest (h : h1Head) (q : h1Request) (consumed : Z) (close : bool) : Prop := mkRootRequest {
  rr_accepted : acceptedHead h;
  rr_end : headerEnd h = consumed;
  rr_close : closeConn h = close;
  rr_body : chunkedEncoding h = false /\ hasContentLength h = false;
  rr_line : lineOf q = (str "GET", str "HTTP/1.1", [slash], [], [slash]);
  rr_expect : q_expect q = h1ExpectNone }.

Section Accept.

Context (hasAVX2 : bool) (firstH1SpecialAVX2 : bytes -> Z) (h1HeaderLineAVX2 : bytes -> Z * Z).
Context (Hfirst : forall p, bytes_ok p -> avx2ScanMinLen <= zlen p -> firstH1SpecialAVX2 p = firstH1SpecialSWAR p).
Context (Hline : forall p, bytes_ok p -> avx2ScanMinLen <= zlen p -> h1HeaderLineAVX2 p = h1HeaderLineSWAR p).

Lemma root_accept data req lines fs rest st maxHeaderBytes maxHeaderCount : bytes_ok data -> q_Headers req = [] -> q_expect req = h1ExpectNone ->
  data = rootPrefix16 ++ zdrop 16 data -> rootLines (zdrop 16 data) lines fs (CR :: LF :: rest) -> rootFold (mkRootState 0 (rt_maxCount st) true) fs = Some st -> rt_hosts st = 1 ->
  zlen fs <= effectiveCount maxHeaderCount -> zlen data - zlen rest - 2 <= effectiveBytes maxHeaderBytes ->
  exists h q, parseH1RequestHead hasAVX2 firstH1SpecialAVX2 h1HeaderLineAVX2 data req maxHeaderBytes maxHeaderCount = Some (h, q) /\ rootRequest h q (zlen data - zlen rest) (negb (rt_keepAlive st)).
Proof.
  intros Hok Hq Hx Hd Hl Hfold Hone Hc Hb. destruct (rootFold_facts _ _ _ Hfold) as (F1 & F2 & _ & F4 & F5 & F6 & F7). cbn [rt_hosts rt_keepAlive andb] in *. pose proof Hl as (Hbytes & Hpl & H2). set (after := zdrop 16 data) in *.
  set (line := str "GET" ++ SP :: [slash] ++ SP :: str "HTTP/1.1"). assert (Ecut : cutLine data = CutLine line after) by (rewrite Hd; reflexivity). destruct (requestLine_render (str "GET") [slash] false req eq_refl ltac:(repeat constructor) ltac:(apply (bool_decide_unpack _); vm_compute; exact I) eq_refl) as [_ (req' & absolute & -> & [Hq' Hx'] & Hl' & Hk)]. cbv zeta in Hk. fold line in Hk.
  destruct (parse_verdict hasAVX2 firstH1SpecialAVX2 h1HeaderLineAVX2 Hfirst Hline data req maxHeaderBytes maxHeaderCount Hok) as [_ HV]. rewrite (HV line after lines _ Ecut (rootLines_head _ _ _ _ Hl)). unfold verdict. rewrite Hk.
  assert (Hsum : foldr (fun l n => zlen l + 2 + n) 0 lines = zlen data - 16 - 2 - zlen rest).
  { rewrite <- lines_length. rewrite Hd at 1. rewrite zlen_app, Hbytes, zlen_app, !zlen_cons. change (zlen rootPrefix16) with 16. clear. lia. }
  assert (R0 : fieldsRead [] (startState req')) by (apply fieldsRead_start; by rewrite Hq').
  destruct (judge_lines (effectiveBytes maxHeaderBytes) (effectiveCount maxHeaderCount) false None lines fs rest (zlen data) H2 F1 (startState req') (zlen line + 2) [] R0) as (s' & R' & L' & X' & ->); [change (zlen (@nil field)) with 0; clear - Hc; lia | change (zlen line + 2) with 16; rewrite Hsum; clear - Hb; lia |]. change (zlen line + 2) with 16. rewrite Hsum.
  destruct R' as [R1 R2 R3 R4 R5 R6 R7 R8 R9 R10 R11]. cbn [app s_req startState] in *. rewrite Hl' in L'. unfold lineOf in L'. injection L' as M1 M2 M3 M4 M5. rewrite Hone in F2.
  pose proof (existsb_split (named (str "transfer-encoding")) isChunked fs) as Hte. rewrite <- R4, <- R5, F7 in Hte. symmetry in Hte. apply orb_false_iff in Hte as [T1 T2]. rewrite F6 in R6.
  assert (Hh : s_hosts s' = 1) by (rewrite R2, F2; reflexivity). unfold headEnd. rewrite T1, T2, R6, Hh. cbn [orb andb]. change ((1 <? 1) || ((1 =? 0) && negb false)) with false. cbv iota. eexists _, _. split; [reflexivity |]. cbn [orb andb negb] in *.
  apply mkRootRequest; cbn [headerEnd closeConn chunkedEncoding hasContentLength set_aliases lineOf q_expect q_Method q_Proto q_Path q_Query q_RawPath].
  - split; reflexivity.
  - clear. lia.
  - rewrite F4, negb_involutive, orb_false_r. exact R9.
  - split; reflexivity.
  - unfold lineOf. cbn [set_aliases q_Method q_Proto q_Path q_Query q_RawPath]. rewrite M1, M2, M3, M4, M5. reflexivity.
  - rewrite (X' F5), <- Hx, <- Hx'. reflexivity.
Qed.
End Accept.

(** ** One field *)

(** A field line at position [i], as [next], [name] and [value] describe it. *)
Definition fieldAt (p : bytes) (i : Z) (name value : bytes) (next : Z) : Prop :=
  exists line v, zdrop i p = line ++ CR :: LF :: zdrop next p /\ next = i + zlen line + 2 /\ plain line /\ fieldOf line = Some (name, v) /\ trimOWS v = trimOWS value.

Lemma scalarName_prefix p i colon rest : scalarName p i = Some (colon, rest) -> exists t, tokenPrefix p = (t, rest) /\ colon = i + zlen t /\ p = t ++ rest /\ rest <> [].
Proof.
  revert i. induction p as [| c p IH]; intros i; cbn [scalarName tokenPrefix]; [done |]. destruct (class_bits c) as (-> & _ & _). destruct (h1TokenChar c).
  - intros H. destruct (IH (i + 1) H) as (t & Et & -> & -> & Hr). exists (c :: t). rewrite Et, zlen_cons. split_and!; [done | lia | done | done].
  - intros [= <- <-]. exists []. change (zlen (@nil Z)) with 0. split_and!; [done | lia | done | done].
Qed.

Lemma skipOWS_cut p i : let '(j, rest) := skipOWS p i in exists ows, p = ows ++ rest /\ j = i + zlen ows /\ Forall (fun c => isOWS c = true) ows.
Proof.
  revert i. induction p as [| c p IH]; intros i; cbn [skipOWS]; [exists []; change (zlen (@nil Z)) with 0; split_and!; [done | lia | constructor] |]. destruct (isOWS c) eqn:E.
  - specialize (IH (i + 1)). destruct (skipOWS p (i + 1)) as [j rest]. destruct IH as (ows & -> & -> & H). exists (c :: ows). rewrite zlen_cons. split_and!; [done | lia | by constructor].
  - exists []. change (zlen (@nil Z)) with 0. split_and!; [done | lia | constructor].
Qed.

Lemma class_special x y : (Z.land (Z.lor x y) h1ClassSpecial =? 0) = (Z.land x h1ClassSpecial =? 0) && (Z.land y h1ClassSpecial =? 0).
Proof. rewrite Z.land_lor_distr_l. apply eq_bool_prop_intro. rewrite andb_True, !Is_true_true, !Z.eqb_eq. apply Z.lor_eq_0_iff. Qed.

Lemma class_host x : (Z.land x h1ClassHost =? 0) = negb (Z.testbit x 1).
Proof.
  change h1ClassHost with (2 ^ 1). destruct (Z.testbit x 1) eqn:E; cbn [negb].
  - apply Z.eqb_neq. intros H0. apply (f_equal (fun z => Z.testbit z 1)) in H0. by rewrite Z.land_spec, E in H0.
  - apply Z.eqb_eq. apply Z.bits_inj'. intros n Hn. rewrite Z.land_spec, Z.bits_0, Z.pow2_bits_eqb by lia. destruct (1 =? n) eqn:En; [| by rewrite andb_false_r]. replace n with 1 by lia. by rewrite E.
Qed.

Lemma valueLoop_spec p : forall seen common v seen' common' rest, valueLoop p seen common = (v, seen', common', rest) ->
  p = v ++ rest /\ match rest with c :: _ => c = CR | [] => True end /\ ((Z.land seen' h1ClassSpecial =? 0) = true -> (Z.land seen h1ClassSpecial =? 0) = true /\ plain v) /\
  (negb (Z.land common' h1ClassHost =? 0) = true -> Z.testbit common 1 = true /\ forallb hostByte v = true).
Proof.
  induction p as [| c p IH]; intros seen common v seen' common' rest; cbn [valueLoop].
  - intros [= <- <- <- <-]. rewrite class_host, negb_involutive. split_and!; [done | done | intros ->; split; [done | constructor] | done].
  - destruct (c =? CR) eqn:Ec; [intros [= <- <- <- <-]; rewrite class_host, negb_involutive; split_and!; [done | lia | intros ->; split; [done | constructor] | done] |].
    destruct (valueLoop p (Z.lor seen (h1FieldClass c)) (Z.land common (h1FieldClass c))) as [[[v0 s0] c0] r0] eqn:El. intros [= <- <- <- <-]. destruct (IH _ _ _ _ _ _ El) as (-> & Hr & Hs & Hh). destruct (class_bits c) as (_ & B1 & B2). split_and!; [done | done | |].
    + intros H. destruct (Hs H) as [H1 H2]. rewrite class_special in H1. apply andb_true_iff in H1 as [H1 H3]. split; [done |]. constructor; [by rewrite <- B1, H3 | done].
    + intros H. destruct (Hh H) as [H1 H2]. rewrite Z.land_spec in H1. apply andb_true_iff in H1 as [H1 H3]. split; [done |]. cbn [forallb]. rewrite H2, andb_true_r. unfold hostByte. by rewrite <- B2, class_host, H3.
Qed.

Lemma trim_ows ows v : Forall (fun c => isOWS c = true) ows -> trimOWS (ows ++ v) = trimOWS v.
Proof. intros H. unfold trimOWS. do 2 f_equal. f_equal. induction H as [| c ows Hc _ IH]; [done |]. cbn [app dropOWS]. by rewrite Hc. Qed.

Lemma host_trim v : forallb hostByte v = true -> ValidateHost (trimOWS v) = true.
Proof. intros H. apply hostSafe_valid. rewrite forallb_forall in *. intros c Hc. apply H. apply list_elem_of_In, dropOWS_sub, list_elem_of_In. exact Hc. Qed.

Lemma scalar_field p i name value next hostSafe : 0 <= i -> rootFieldScalar p i = Some (name, value, next, hostSafe) -> fieldAt p i name value next /\ (hostSafe = true -> ValidateHost (trimOWS value) = true).
Proof.
  intros Hi. unfold rootFieldScalar. destruct (scalarName (zdrop i p) i) as [[colon rest] |] eqn:En; [| done]. destruct (scalarName_prefix _ _ _ _ En) as (t & Et & Ec & Ep & Hr). destruct ((colon =? i) || negb (znth rest 0 =? 58)) eqn:E1; [done |]. apply orb_false_iff in E1 as [E1 E2]. apply negb_false_iff in E2. destruct rest as [| c rest]; [done |]. change (znth (c :: rest) 0) with c in E2. assert (c = 58) as -> by (clear - E2; lia). clear E2 Hr.
  change (zdrop 1 (58 :: rest)) with rest. pose proof (skipOWS_cut rest (colon + 1)) as Hs. destruct (skipOWS rest (colon + 1)) as [vs r]. destruct Hs as (ows & -> & -> & Hows). destruct (valueLoop r 0 255) as [[[v seen] common] r'] eqn:Ev. destruct (valueLoop_spec _ _ _ _ _ _ _ Ev) as (-> & Hr & Hseen & Hcommon). cbv zeta.
  destruct ((zlen p <=? colon + 1 + zlen ows + zlen v + 1) || negb (Z.land seen h1ClassSpecial =? 0) || negb (znth r' 1 =? LF)) eqn:E3; [done |]. apply orb_false_iff in E3 as [E3 E4]. apply orb_false_iff in E3 as [E3 E5]. apply negb_false_iff in E4, E5. destruct (Hseen E5) as [_ Hv]. intros [= <- <- <- <-].
  assert (Hlen : zlen (zdrop i p) = zlen p - i) by (destruct (decide (i < zlen p)); [apply zlen_drop; lia | rewrite zdrop_all in Ep by lia; destruct t; discriminate Ep]).
  assert (Htot : zlen p - i = zlen t + 1 + zlen ows + zlen v + zlen r') by (rewrite <- Hlen, Ep, zlen_app, zlen_cons, !zlen_app; clear; lia).
  destruct r' as [| c1 [| c2 r']]; [change (zlen (@nil Z)) with 0 in Htot; clear - Htot E3 Ec; lia | rewrite zlen_cons in Htot; change (zlen (@nil Z)) with 0 in Htot; clear - Htot E3 Ec; lia |]. change (znth (c1 :: c2 :: r') 1) with c2 in E4. assert (c2 = LF) as -> by (clear - E4; lia). subst c1.
  split; [| intros H; destruct (Hcommon H) as [_ H']; by apply host_trim].
  assert (Ename : zslice p i colon = t) by (unfold zslice; rewrite Ep, Ec; replace (i + zlen t - i) with (zlen t) by (clear; lia); apply ztake_app_exact). rewrite Ename.
  set (line := t ++ 58 :: ows ++ v). assert (Eline : zdrop i p = line ++ CR :: LF :: r') by (rewrite Ep; unfold line; rewrite <- app_assoc; cbn [app]; by rewrite <- app_assoc).
  assert (Hll : zlen line = zlen t + 1 + zlen ows + zlen v) by (unfold line; rewrite zlen_app, zlen_cons, zlen_app; clear; lia). pose proof (zlen_nonneg line).
  assert (Enext : colon + 1 + zlen ows + zlen v + 2 = i + (zlen line + 2)) by (rewrite Hll, Ec; clear; lia). rewrite Enext. exists line, (ows ++ v).
  assert (Ht : Forall (fun c => h1TokenChar c = true) t /\ t <> []) by (pose proof (tokenPrefix_app (zdrop i p)) as Ht; rewrite Et in Ht; destruct Ht as (_ & Ht & _); split; [exact Ht | intros ->; change (zlen (@nil Z)) with 0 in Ec; clear - Ec E1; lia]). destruct Ht as [Ht Htn].
  split_and!; [| clear; lia | | | by apply trim_ows].
  - rewrite <- zdrop_zdrop by (clear - Hi H; lia). rewrite Eline. replace (zdrop (zlen line + 2) (line ++ CR :: LF :: r')) with r'; [done |]. change (line ++ CR :: LF :: r') with (line ++ [CR; LF] ++ r'). rewrite app_assoc. replace (zlen line + 2) with (zlen (line ++ [CR; LF])) by (by rewrite zlen_app). by rewrite zdrop_app_exact.
  - apply Forall_app. split; [eapply Forall_impl; [exact Ht | apply token_plain] |]. constructor; [done |]. apply Forall_app. split; [| exact Hv]. eapply Forall_impl; [exact Hows | apply isOWS_plain].
  - unfold fieldOf, line. rewrite (tokenPrefix_token t (58 :: ows ++ v) Ht eq_refl). clear - Htn. destruct t; [by destruct Htn | reflexivity].
Qed.

Lemma dropOWS_idem v : dropOWS (dropOWS v) = dropOWS v.
Proof. induction v as [| c v IH]; cbn [dropOWS]; [done |]. destruct (isOWS c) eqn:E; [done |]. cbn [dropOWS]. by rewrite E. Qed.

Lemma dropOWS_last v c : isOWS c = false -> exists w, dropOWS (v ++ [c]) = w ++ [c].
Proof. intros Hc. induction v as [| x v [w IH]]; cbn [app dropOWS]; [exists []; by rewrite Hc |]. destruct (isOWS x); [by exists w | by exists (x :: v)]. Qed.

Lemma dropOWS_head v : match dropOWS v with c :: _ => isOWS c = false | [] => True end.
Proof. induction v as [| x v IH]; cbn [dropOWS]; [done |]. destruct (isOWS x) eqn:E; [exact IH | done]. Qed.

Lemma trim_trim v : trimOWS (trimOWS v) = trimOWS v.
Proof.
  unfold trimOWS. pose proof (dropOWS_head v) as Hh. destruct (dropOWS v) as [| c u]; [done |]. cbn [rev]. destruct (dropOWS_last (rev u) c Hh) as [w Ew]. rewrite Ew, rev_app_distr. cbn [rev app dropOWS]. rewrite Hh. cbn [rev]. rewrite rev_involutive, <- Ew, dropOWS_idem, Ew, rev_app_distr. done.
Qed.

Section Vector.

Context (hasAVX2 : bool) (h1HeaderLineAVX2 : bytes -> Z * Z).
Context (Hline : forall p, bytes_ok p -> avx2ScanMinLen <= zlen p -> h1HeaderLineAVX2 p = h1HeaderLineSWAR p).

Lemma vector_field p i name value next : bytes_ok p -> 0 <= i -> rootFieldVector hasAVX2 h1HeaderLineAVX2 p i = Some (name, value, next) -> fieldAt p i name value next.
Proof.
  intros Hok Hi. unfold rootFieldVector. cbv zeta. set (rest := zdrop i p). assert (Hrok : bytes_ok rest) by (by apply Forall_drop).
  rewrite (specials_spec hasAVX2 h1HeaderLineAVX2 Hline rest Hrok). pose proof (classify_first rest) as Hc. destruct (cutLine rest) as [| | line after] eqn:Ecut.
  - rewrite Hc. done.
  - destruct (classifyFirstSpecial rest (scanTail rest 0)) as [e bad]. cbn [snd] in Hc. by rewrite Hc.
  - rewrite Hc. cbn [orb]. destruct (cut_line _ _ _ Ecut) as [Er Hpl]. destruct (line_field line after Hpl) as (L1 & L2 & L3 & L4). rewrite <- Er in L1, L2, L3, L4. assert (Et : ztake (zlen line) rest = line) by (rewrite Er; apply ztake_app_exact). rewrite Et, L3. destruct (zlen line <=? 0) eqn:E0; [done |]. cbn [orb]. destruct (fieldOf line) as [[n v] |] eqn:Ef; [| rewrite bool_decide_eq_false_2 by (intros [x Hx]; discriminate Hx); done]. rewrite bool_decide_eq_true_2 by done. cbn [negb]. destruct (L4 n v eq_refl) as (V1 & V2 & V3). rewrite V3.
    assert (V4 : ztake (firstNonTokenByte rest) rest = n).
    { rewrite <- V1. rewrite Er at 2. unfold ztake. rewrite take_app_le; [done |]. rewrite L1. pose proof (tokenPrefix_app line) as Ht. destruct (tokenPrefix line) as [t r]. destruct Ht as [-> _]. cbn [fst]. unfold zlen. rewrite length_app. lia. }
    rewrite V4. intros [= <- <- <-]. exists line, v. pose proof (zlen_nonneg line).
    split_and!; [| reflexivity | exact Hpl | exact Ef | by rewrite trim_trim].
    rewrite <- Z.add_assoc, <- zdrop_zdrop by lia. fold rest. rewrite Er at 1. f_equal. do 2 f_equal. rewrite Er. symmetry. change (line ++ CR :: LF :: after) with (line ++ [CR; LF] ++ after). rewrite app_assoc. replace (zlen line + 2) with (zlen (line ++ [CR; LF])) by (by rewrite zlen_app). apply zdrop_app_exact.
Qed.
End Vector.

(** ** Short heads and heads line by line *)

Lemma fieldAt_cons p i name value next lines fs rest : fieldAt p i name value next -> rootLines (zdrop next p) lines fs rest -> exists line, rootLines (zdrop i p) (line :: lines) ((name, trimOWS value) :: fs) rest.
Proof. intros (line & v & E & _ & Hp & Hf & Ht) H. exists line. rewrite E. apply rootLines_cons; [exact Hp | exists v; cbn [fst snd]; by rewrite Ht | exact H]. Qed.

Lemma fieldAt_next p i name value next : 0 <= i -> fieldAt p i name value next -> i + 2 <= next <= zlen p /\ (length (zdrop next p) < length (zdrop i p))%nat.
Proof.
  intros Hi (line & v & E & -> & _ & _ & _). pose proof (zlen_nonneg line). assert (Hl : zlen (zdrop i p) = zlen p - i) by (destruct (decide (i <= zlen p)); [by apply zlen_drop | rewrite zdrop_all in E by lia; destruct line; discriminate E]). apply (f_equal zlen) in E as E'. rewrite Hl, zlen_app, !zlen_cons in E'. pose proof (zlen_nonneg (zdrop (i + zlen line + 2) p)). split; [lia |].
  rewrite E, length_app. cbn [length]. lia.
Qed.

Lemma rootFold_count st fs st' : rootFold st fs = Some st' -> rt_maxCount st' = rt_maxCount st.
Proof. intros H. by destruct (rootFold_facts _ _ _ H) as (_ & _ & H' & _). Qed.

Lemma scanFields_spec fuel buf : forall st i, 0 <= i -> (length (zdrop i buf) <= fuel)%nat -> exists r, scanFields fuel st buf i = Some r /\
  match r with
  | None => True
  | Some (e, st') => exists lines fs rest, rootLines (zdrop i buf) lines fs (CR :: LF :: rest) /\ rootFold st fs = Some st' /\ e = zlen buf - zlen rest
  end.
Proof.
  induction fuel as [| fuel IH]; intros st i Hi Hf; cbn [scanFields].
  - assert (Hz : zlen buf <= i) by (destruct (decide (zlen buf <= i)); [done |]; pose proof (zlen_drop i buf ltac:(lia)) as Hl; unfold zlen in *; lia). replace (zlen buf <=? i + 1) with true by lia. by eexists.
  - destruct (zlen buf <=? i + 1) eqn:Ez; [by eexists |]. pose proof (zlen_drop i buf ltac:(lia)) as Hl. destruct (znth buf i =? CR) eqn:Ec.
    + destruct (znth buf (i + 1) =? LF) eqn:El; [| by eexists]. eexists. split; [done |]. assert (Hd : zdrop i buf = CR :: LF :: zdrop (i + 2) buf).
      { rewrite <- zdrop_zdrop by lia. assert (H0 : znth (zdrop i buf) 0 = CR) by (unfold znth, zdrop in *; rewrite nth_lookup, lookup_drop, Nat.add_0_r, <- nth_lookup; lia). assert (H1 : znth (zdrop i buf) 1 = LF) by (unfold znth, zdrop in *; rewrite nth_lookup, lookup_drop, <- nth_lookup; replace (Z.to_nat i + Z.to_nat 1)%nat with (Z.to_nat (i + 1)) by lia; lia).
        destruct (zdrop i buf) as [| x [| y w]]; [change (zlen (@nil Z)) with 0 in Hl; lia | rewrite zlen_cons in Hl; change (zlen (@nil Z)) with 0 in Hl; lia |]. change (znth (x :: y :: w) 0) with x in H0. change (znth (x :: y :: w) 1) with y in H1. by subst. }
      exists [], [], (zdrop (i + 2) buf). split; [rewrite Hd; split_and!; [done | constructor | constructor] |]. split; [done |]. rewrite zlen_drop by lia. lia.
    + destruct (rootFieldScalar buf i) as [[[[name value] next] hostSafe] |] eqn:Ef; [| by eexists]. destruct (scalar_field _ _ _ _ _ _ Hi Ef) as [Hat Hsafe]. rewrite (rootField_ref st name value hostSafe Hsafe). destruct (rootRef st (name, trimOWS value)) as [st1 |] eqn:Er; [| by eexists]. destruct (fieldAt_next _ _ _ _ _ Hi Hat) as [Hn Hlt].
      destruct (IH st1 next ltac:(lia) ltac:(lia)) as (r & -> & Hr). exists r. split; [done |]. destruct r as [[e st'] |]; [| done]. destruct Hr as (lines & fs & rest & H1 & H2 & H3). destruct (fieldAt_cons _ _ _ _ _ _ _ _ Hat H1) as [line H4]. exists (line :: lines), ((name, trimOWS value) :: fs), rest. split_and!; [done | cbn [rootFold]; by rewrite Er | done].
Qed.

Section Lines.

Context (hasAVX2 : bool) (h1HeaderLineAVX2 : bytes -> Z * Z).
Context (Hline : forall p, bytes_ok p -> avx2ScanMinLen <= zlen p -> h1HeaderLineAVX2 p = h1HeaderLineSWAR p).

Lemma lineFields_spec fuel block : bytes_ok block -> forall st i count, 0 <= i -> (length (zdrop i block) <= fuel)%nat -> exists r, lineFields hasAVX2 h1HeaderLineAVX2 fuel st block i count = Some r /\
  match r with
  | None => True
  | Some st' => exists lines fs, rootLines (zdrop i block) lines fs [] /\ rootFold st fs = Some st' /\ count + zlen fs <= rt_maxCount st'
  end.
Proof.
  intros Hok. induction fuel as [| fuel IH]; intros st i count Hi Hf; cbn [lineFields].
  - assert (Hz : zlen block <= i) by (destruct (decide (zlen block <= i)); [done |]; pose proof (zlen_drop i block ltac:(lia)) as Hl; unfold zlen in *; lia). replace (zlen block <=? i) with true by lia. eexists. split; [done |]. destruct (count <=? rt_maxCount st) eqn:E; [| done]. exists [], []. rewrite zdrop_all by done. change (zlen (@nil field)) with 0. split_and!; [split_and!; [done | constructor | constructor] | done | lia].
  - destruct (zlen block <=? i) eqn:Ez.
    { eexists. split; [done |]. destruct (count <=? rt_maxCount st) eqn:E; [| done]. exists [], []. rewrite zdrop_all by lia. change (zlen (@nil field)) with 0. split_and!; [split_and!; [done | constructor | constructor] | done | lia]. }
    cbv zeta. set (field := if h1ScalarScanMax <=? zlen block - i then _ else _).
    assert (Hfield : match field with None => True | Some (name, value, next, hostSafe) => fieldAt block i name value next /\ (hostSafe = true -> ValidateHost (trimOWS value) = true) end).
    { unfold field. destruct (h1ScalarScanMax <=? zlen block - i).
      - destruct (rootFieldVector hasAVX2 h1HeaderLineAVX2 block i) as [[[name value] next] |] eqn:Ev; [| done]. cbn. split; [by eapply vector_field | done].
      - destruct (rootFieldScalar block i) as [[[[name value] next] hostSafe] |] eqn:Ev; [| done]. cbn. by apply scalar_field. }
    destruct field as [[[[name value] next] hostSafe] |]; [| by eexists]. destruct Hfield as [Hat Hsafe]. rewrite (rootField_ref st name value hostSafe Hsafe). destruct (rootRef st (name, trimOWS value)) as [st1 |] eqn:Er; [| by eexists]. destruct (fieldAt_next _ _ _ _ _ Hi Hat) as [Hn Hlt].
    destruct (IH st1 next (count + 1) ltac:(lia) ltac:(lia)) as (r & -> & Hr). exists r. split; [done |]. destruct r as [st' |]; [| done]. destruct Hr as (lines & fs & H1 & H2 & H3). destruct (fieldAt_cons _ _ _ _ _ _ _ _ Hat H1) as [line H4]. exists (line :: lines), ((name, trimOWS value) :: fs). split_and!; [done | cbn [rootFold]; by rewrite Er | rewrite zlen_cons; lia].
Qed.

End Lines.
