(* ===== verification/H1RootIndex.v ===== *)
(** The block index of a "GET /" head: bit sets of field starts, of the ends of
    names and of the names worth a look, from which the fields are read out. *)
From stdpp Require Import base list list_numbers numbers strings sorting.
From Stdlib Require Import ZArith Lia ZifyBool Sorted.
From S2P Require Import Prelude Utils H1Scan HttpText HpackDyn H1Head H1HeadProofs H1Root H1RootProofs.

Open Scope list_scope.
Open Scope Z_scope.

(** ** What the assembly routine computes *)

Definition wordOf (ps : list Z) (i : Z) : Z := foldr (fun p w => if Z.shiftr p 6 =? i then Z.lor w (Z.shiftl 1 (Z.land p 63)) else w) 0 ps.
Definition wordsOf (ps : list Z) : list Z := map (wordOf ps) (seqZ 0 16).

Definition candidate (c : Z) : bool := existsb (Z.eqb c) (str "cehtCEHT").

(** The starts of the fields and of their colons, line by line. *)
Fixpoint blockFields (fuel : nat) (block : bytes) (pos : Z) : option (list (Z * Z)) :=
  if zlen block <=? pos then Some []
  else match fuel with
  | O => None
  | S fuel =>
      let rest := zdrop pos block in
      let nameEnd := firstNonTokenByte rest in
      let '(e, bad) := classifyFirstSpecial rest (scanTail rest 0) in
      if bad || (e <=? 0) || negb (validH1Colon (ztake e rest) nameEnd) then None
      else match blockFields fuel block (pos + e + 2) with None => None | Some l => Some ((pos, pos + nameEnd) :: l) end
  end.

(** The index the tests compare the assembly routine with (h1block_amd64_test.go). *)
Definition h1BlockIndexRef (block : bytes) : option (list Z * list Z * list Z) :=
  match blockFields (length block) block 0 with
  | None => None
  | Some l => Some (wordsOf (map fst l), wordsOf (map snd l), wordsOf (List.filter (fun p => candidate (znth block p)) (map fst l)))
  end.

(** ** Bits *)

Lemma split_64 p i k : 0 <= k < 64 -> (Z.shiftr p 6 =? i) && (Z.land p 63 =? k) = (p =? 64 * i + k).
Proof.
  intros Hk. rewrite Z.shiftr_div_pow2 by lia. change 63 with (Z.ones 6). rewrite Z.land_ones by lia. change (2 ^ 6) with 64. pose proof (Z.div_mod p 64 ltac:(lia)). pose proof (Z.mod_pos_bound p 64 ltac:(lia)). lia.
Qed.

Lemma land63 p : 0 <= Z.land p 63 < 64.
Proof. change 63 with (Z.ones 6). rewrite Z.land_ones by lia. apply Z.mod_pos_bound. lia. Qed.

Lemma wordOf_bit ps i k : 0 <= k < 64 -> Z.testbit (wordOf ps i) k = existsb (fun p => p =? 64 * i + k) ps.
Proof.
  intros Hk. induction ps as [| p ps IH]; cbn [wordOf foldr existsb]; [apply Z.bits_0 |]. fold (wordOf ps i). rewrite <- (split_64 p i k Hk). destruct (Z.shiftr p 6 =? i); cbn [andb orb]; [| exact IH]. rewrite Z.lor_spec, IH, orb_comm. f_equal. pose proof (land63 p). rewrite Z.shiftl_1_l, Z.pow2_bits_eqb by lia. done.
Qed.

Lemma wordOf_range ps i : 0 <= wordOf ps i < 2 ^ 64.
Proof.
  induction ps as [| p ps IH]; cbn [wordOf foldr]; [lia |]. fold (wordOf ps i). destruct (Z.shiftr p 6 =? i); [| exact IH]. pose proof (land63 p). assert (H2 : 0 <= 2 ^ Z.land p 63 < 2 ^ 64) by (split; [lia | apply Z.pow_lt_mono_r; lia]). rewrite Z.shiftl_1_l. split; [apply Z.lor_nonneg; lia |].
  assert (Hlog : forall x, 0 <= x < 2 ^ 64 -> Z.log2 x < 64) by (intros x Hx; destruct (decide (x = 0)) as [-> | Hn]; [done | apply Z.log2_lt_pow2; lia]). destruct (decide (Z.lor (wordOf ps i) (2 ^ Z.land p 63) = 0)) as [-> | Hn]; [lia |]. apply Z.log2_lt_pow2; [pose proof (proj2 (Z.lor_nonneg (wordOf ps i) (2 ^ Z.land p 63))); lia |]. rewrite Z.log2_lor by lia. pose proof (Hlog _ IH). pose proof (Hlog _ H2). lia.
Qed.

Lemma wordAt_wordsOf ps i : 0 <= i < 16 -> wordAt (wordsOf ps) i = wordOf ps i.
Proof.
  intros Hi. unfold wordAt, wordsOf. rewrite nth_lookup, list_lookup_fmap, lookup_seqZ_lt by lia. cbn. f_equal. lia.
Qed.

Lemma bit_high w n : 0 <= w < 2 ^ 64 -> 64 <= n -> Z.testbit w n = false.
Proof. intros Hw Hn. rewrite <- (Z.mod_small w (2 ^ 64)) by lia. apply Z.mod_pow2_bits_high. lia. Qed.

(** The least element from [from] on, or none. *)
Definition nextIn (ps : list Z) (from r : Z) : Prop :=
  (r = -1 /\ Forall (fun p => p < from) ps) \/ (r ∈ ps /\ from <= r /\ Forall (fun p => from <= p -> r <= p) ps).

Lemma nextWord_spec fuel ps chunks : chunks <= 16 -> forall i w from, 0 <= i < chunks -> 64 * i <= from < 64 * i + 64 -> (Z.to_nat (chunks - i) <= fuel)%nat -> 0 <= w < 2 ^ 64 ->
  (forall k, 0 <= k < 64 -> Z.testbit w k = existsb (fun p => p =? 64 * i + k) ps && (from <=? 64 * i + k)) -> Forall (fun p => 0 <= p < 64 * chunks) ps ->
  nextIn ps from (match nextWord fuel (wordsOf ps) i chunks w with None => -1 | Some (i, w) => Z.lor (Z.shiftl i 6) (TrailingZeros64 w) end).
Proof.
  intros Hch. induction fuel as [| fuel IH]; intros i w from Hi Hfrom Hf Hw Hbits Hps; [lia |]. cbn [nextWord]. destruct (w =? 0) eqn:E0; cbn [negb].
  - assert (w = 0) as -> by lia. assert (Hnone : Forall (fun p => from <= p -> 64 * (i + 1) <= p) ps).
    { apply Forall_forall. intros p Hp Hle. destruct (decide (64 * (i + 1) <= p)); [done |]. specialize (Hbits (p - 64 * i) ltac:(lia)). rewrite Z.bits_0 in Hbits. symmetry in Hbits. apply andb_false_iff in Hbits as [Hb | Hb]; [| lia]. exfalso. apply not_true_iff_false in Hb. apply Hb. apply existsb_exists. exists p. split; [by apply list_elem_of_In | lia]. }
    destruct (chunks <=? i + 1) eqn:Ec.
    + left. split; [done |]. rewrite Forall_forall in *. intros p Hp. specialize (Hnone p Hp). specialize (Hps p Hp). lia.
    + rewrite wordAt_wordsOf by lia. destruct (IH (i + 1) (wordOf ps (i + 1)) (64 * (i + 1))) as [[-> H] | (H1 & H2 & H3)]; [lia | lia | lia | apply wordOf_range | | done | |].
      * intros k Hk. rewrite wordOf_bit by done. replace (64 * (i + 1) <=? 64 * (i + 1) + k) with true by lia. by rewrite andb_true_r.
      * left. split; [done |]. rewrite Forall_forall in *. intros p Hp. specialize (Hnone p Hp). specialize (H p Hp). cbv beta in *. lia.
      * right. split; [exact H1 |]. split; [lia |]. rewrite Forall_forall in *. intros p Hp Hle. specialize (Hnone p Hp Hle). by apply (H3 p Hp).
  - destruct (lowest_bit w ltac:(lia)) as (Ht & Hb & Hlow & _). set (t := TrailingZeros64 w) in *. assert (Ht64 : t < 64) by (destruct (decide (t < 64)); [done |]; rewrite (bit_high w t) in Hb by lia; done).
    assert (E : Z.lor (Z.shiftl i 6) t = 64 * i + t) by (rewrite Z.shiftl_mul_pow2, lor_disjoint by lia; lia). rewrite E. pose proof (Hbits t ltac:(lia)) as Hbt. rewrite Hb in Hbt. symmetry in Hbt. apply andb_true_iff in Hbt as [H1 H2]. apply existsb_exists in H1 as (p & Hp & Hpe). right. split; [replace (64 * i + t) with p by lia; by apply list_elem_of_In |]. split; [lia |].
    apply Forall_forall. intros q Hq Hle. destruct (decide (64 * i + t <= q)); [done |]. assert (Hz : Z.testbit w (q - 64 * i) = false) by (apply Hlow; lia). rewrite Hbits in Hz by lia. apply andb_false_iff in Hz as [Hz | Hz]; [| lia]. exfalso. apply not_true_iff_false in Hz. apply Hz. apply existsb_exists. exists q. split; [by apply list_elem_of_In | lia].
Qed.

Lemma h1NextBit_spec ps from chunks : chunks <= 16 -> 0 <= from -> Forall (fun p => 0 <= p < 64 * chunks) ps -> nextIn ps from (h1NextBit (wordsOf ps) from chunks).
Proof.
  intros Hch Hfrom Hps. unfold h1NextBit. cbv zeta. assert (Hi : Z.shiftr from 6 = from / 64) by (by rewrite Z.shiftr_div_pow2 by lia). pose proof (Z.div_mod from 64 ltac:(lia)). pose proof (Z.mod_pos_bound from 64 ltac:(lia)). assert (Hm : Z.land from 63 = from mod 64) by (change 63 with (Z.ones 6); by rewrite Z.land_ones by lia). rewrite Hi, Hm. destruct (chunks <=? from / 64) eqn:E.
  - left. split; [done |]. eapply Forall_impl; [exact Hps |]. cbv beta. intros p Hp. lia.
  - assert (0 <= from / 64) by (apply Z.div_pos; lia). rewrite wordAt_wordsOf by lia. apply nextWord_spec; [done | lia | lia | lia | | | done].
    + pose proof (wordOf_range ps (from / 64)) as Hr. split; [apply Z.land_nonneg; lia |]. eapply Z.le_lt_trans; [| exact (proj2 Hr)]. apply Z.ldiff_le; [lia |]. apply Z.bits_inj'. intros n Hn. rewrite Z.ldiff_spec, Z.land_spec, Z.bits_0. destruct (Z.testbit (wordOf ps (from / 64)) n); [by rewrite andb_false_r | done].
    + intros k Hk. rewrite Z.land_spec, wordOf_bit by done. f_equal. unfold u64. rewrite Z.mod_pow2_bits_low, Z.shiftl_spec by lia. destruct (from <=? 64 * (from / 64) + k) eqn:E2; [change (2 ^ 64 - 1) with (Z.ones 64); apply Z.ones_spec_low; lia | apply Z.testbit_neg_r; lia].
Qed.

(** ** Fields and their positions *)

Inductive indexed (block : bytes) : Z -> list (Z * Z) -> list bytes -> list field -> Prop :=
| ix_nil : indexed block (zlen block) [] [] []
| ix_cons i line name v l lines fs : 0 <= i -> zdrop i block = line ++ CR :: LF :: zdrop (i + zlen line + 2) block -> plain line -> fieldOf line = Some (name, v) ->
    indexed block (i + zlen line + 2) l lines fs -> indexed block i ((i, i + zlen name) :: l) (line :: lines) ((name, trimOWS v) :: fs).

Lemma indexed_lines block i l lines fs : indexed block i l lines fs -> rootLines (zdrop i block) lines fs [] /\ length l = length fs.
Proof.
  induction 1 as [| i line name v l lines fs Hi E Hp Hf _ [IH1 IH2]]; [rewrite zdrop_all by lia; split; [split_and!; [done | constructor | constructor] | done] |]. split; [| cbn [length]; by rewrite IH2]. rewrite E. apply rootLines_cons; [done | by exists v | done].
Qed.

Lemma fieldOf_parts line name v : fieldOf line = Some (name, v) -> line = name ++ 58 :: v /\ 0 < zlen name.
Proof.
  unfold fieldOf. pose proof (tokenPrefix_app line) as Ht. destruct (tokenPrefix line) as [t r]. destruct Ht as (-> & _ & _). destruct t as [| x t]; [done |]. destruct r as [| c r]; [done |]. intros Hf. assert (c = 58) as -> by (destruct c as [| q |]; try done; repeat (destruct q as [q | q |]; try done)). injection Hf as <- <-. split; [done |]. rewrite zlen_cons. pose proof (zlen_nonneg t). lia.
Qed.

(** Positions go up, and stay in the block. *)
Lemma indexed_range block i l lines fs : indexed block i l lines fs -> i <= zlen block /\ Forall (fun e => i <= e.1 /\ e.1 < e.2 /\ e.2 + 3 <= zlen block) l.
Proof.
  induction 1 as [| i line name v l lines fs Hi E Hp Hf _ [IH1 IH2]]; [split; [lia | constructor] |]. destruct (fieldOf_parts _ _ _ Hf) as [El Hn]. assert (Hl : zlen line = zlen name + 1 + zlen v) by (rewrite El, zlen_app, zlen_cons; lia). pose proof (zlen_nonneg v). split; [lia |]. constructor; [cbn [fst snd]; lia |]. eapply Forall_impl; [exact IH2 |]. cbv beta. intros e He. lia.
Qed.

(** The slices between the positions are the name and the value. *)
Lemma indexed_slices block i line name v : 0 <= i -> zdrop i block = line ++ CR :: LF :: zdrop (i + zlen line + 2) block -> fieldOf line = Some (name, v) ->
  zslice block i (i + zlen name) = name /\ zslice block (i + zlen name + 1) (i + zlen line) = v /\ znth block i = znth name 0.
Proof.
  intros Hi E Hf. destruct (fieldOf_parts _ _ _ Hf) as [El Hn]. set (rest := zdrop (i + zlen line + 2) block) in *. rewrite El in E. rewrite <- app_assoc in E. cbn [app] in E. assert (Hl : zlen line = zlen name + 1 + zlen v) by (rewrite El, zlen_app, zlen_cons; lia). pose proof (zlen_nonneg v). split_and!.
  - unfold zslice. rewrite E. replace (i + zlen name - i) with (zlen name) by lia. apply ztake_app_exact.
  - unfold zslice. rewrite <- Z.add_assoc, <- zdrop_zdrop by lia. rewrite E. change (name ++ 58 :: v ++ CR :: LF :: rest) with (name ++ [58] ++ v ++ CR :: LF :: rest). rewrite app_assoc, <- (zlen_snoc name 58), zdrop_app_exact. replace (i + zlen line - (i + zlen (name ++ [58]))) with (zlen v) by (rewrite zlen_snoc; lia). apply ztake_app_exact.
  - destruct name as [| x name]; [change (zlen (@nil Z)) with 0 in Hn; lia |]. change (znth (x :: name) 0) with x. unfold znth, zdrop in *. rewrite nth_lookup. replace (block !! Z.to_nat i) with (drop (Z.to_nat i) block !! 0%nat) by (rewrite lookup_drop; f_equal; lia). by rewrite E.
Qed.

Lemma blockFields_indexed fuel block : forall pos l, 0 <= pos <= zlen block -> blockFields fuel block pos = Some l -> exists lines fs, indexed block pos l lines fs.
Proof.
  induction fuel as [| fuel IH]; intros pos l Hpos; cbn [blockFields].
  - destruct (zlen block <=? pos) eqn:E; [| done]. intros [= <-]. assert (pos = zlen block) as -> by lia. exists [], []. constructor.
  - destruct (zlen block <=? pos) eqn:E; [intros [= <-]; assert (pos = zlen block) as -> by lia; exists [], []; constructor |]. cbv zeta. set (rest := zdrop pos block). pose proof (classify_first rest) as Hc. destruct (cutLine rest) as [| | line after] eqn:Ecut; [by rewrite Hc | destruct (classifyFirstSpecial rest (scanTail rest 0)) as [e bad]; cbn [snd] in Hc; by rewrite Hc |].
    rewrite Hc. cbn [orb]. destruct (cut_line _ _ _ Ecut) as [Er Hpl]. destruct (line_field line after Hpl) as (L1 & _ & L3 & _). rewrite <- Er in L1, L3. assert (Et : ztake (zlen line) rest = line) by (rewrite Er; apply ztake_app_exact). rewrite Et, L3. destruct (zlen line <=? 0) eqn:E0; [done |]. cbn [orb].
    destruct (fieldOf line) as [[n v] |] eqn:Ef; [| rewrite bool_decide_eq_false_2 by (intros [x Hx]; discriminate Hx); done]. rewrite bool_decide_eq_true_2 by done. cbn [negb]. destruct (blockFields fuel block (pos + zlen line + 2)) as [l' |] eqn:Er'; [| done]. intros [= <-].
    assert (Hlen : zlen rest = zlen block - pos) by (apply zlen_drop; lia). assert (Hafter : after = zdrop (pos + zlen line + 2) block).
    { rewrite <- Z.add_assoc, <- zdrop_zdrop by lia. fold rest. rewrite Er. change (line ++ CR :: LF :: after) with (line ++ [CR; LF] ++ after). rewrite app_assoc. replace (zlen line + 2) with (zlen (line ++ [CR; LF])) by (by rewrite zlen_app). by rewrite zdrop_app_exact. }
    assert (Hn : zlen (tokenPrefix line).1 = zlen n) by (unfold fieldOf in Ef; destruct (tokenPrefix line) as [t r]; destruct t as [| x t]; [done |]; destruct r as [| c r]; [done |]; destruct c as [| q |]; try done; repeat (destruct q as [q | q |]; try done); by injection Ef as <- _).
    destruct (IH (pos + zlen line + 2) l') as (lines & fs & H); [rewrite Er, zlen_app, !zlen_cons in Hlen; pose proof (zlen_nonneg after); lia | exact Er' |]. exists (line :: lines), ((n, trimOWS v) :: fs). rewrite L1, Hn. eapply ix_cons; [lia | by rewrite <- Hafter | done | done | exact H].
Qed.

(** ** The loop over the candidates *)

Section Steps.

Context (block : bytes) (starts ends : list Z) (chunks : Z).

(** The body of the loop for the field at [start]. *)
Definition stepAt (st : rootFastState) (start : Z) : option rootFastState :=
  let colon := h1NextBit ends start chunks in
  let next := h1NextBit starts colon chunks in
  rootField st (zslice block start colon) (zslice block (colon + 1) (if 0 <=? next then next - 2 else zlen block - 2)) false.
Fixpoint steps (st : rootFastState) (ps : list Z) : option rootFastState :=
  match ps with [] => Some st | p :: ps => match stepAt st p with None => None | Some st => steps st ps end end.

Lemma steps_app st ps qs : steps st (ps ++ qs) = match steps st ps with None => None | Some st => steps st qs end.
Proof. revert st. induction ps as [| p ps IH]; intros st; cbn [app steps]; [done |]. destruct (stepAt st p); [apply IH | done]. Qed.

Lemma candLoop_steps ci : 0 <= ci -> forall ps fuel st c, (length ps < fuel)%nat -> 0 <= c < 2 ^ 64 -> StronglySorted Z.lt ps -> Forall (fun p => 64 * ci <= p < 64 * ci + 64) ps ->
  (forall k, 0 <= k < 64 -> Z.testbit c k = existsb (fun p => p =? 64 * ci + k) ps) -> candLoop fuel st block starts ends chunks ci c = steps st ps.
Proof.
  intros Hci. induction ps as [| p ps IH]; intros fuel st c Hf Hc Hs Hr Hb; (destruct fuel as [| fuel]; [cbn [length] in Hf; lia |]); cbn [candLoop steps].
  - assert (c = 0) as ->; [| done]. apply Z.bits_inj'. intros n Hn. rewrite Z.bits_0. destruct (decide (n < 64)); [by rewrite Hb by lia | apply bit_high; lia].
  - apply StronglySorted_inv in Hs as [Hs Hlt]. apply Forall_cons_1 in Hr as [Hp Hr]. assert (Hset : Z.testbit c (p - 64 * ci) = true) by (rewrite Hb by lia; cbn [existsb]; replace (p =? 64 * ci + (p - 64 * ci)) with true by lia; done). assert (Hpos : 0 < c) by (destruct (decide (c = 0)) as [-> |]; [by rewrite Z.bits_0 in Hset | lia]). replace (c =? 0) with false by lia.
    destruct (lowest_bit c Hpos) as (Ht & Hbt & Hlow & Hclear). set (t := TrailingZeros64 c) in *. assert (Et : t = p - 64 * ci).
    { assert (t <= p - 64 * ci) by (apply Z.nlt_ge; intros Hn; rewrite (Hlow _ Hn) in Hset; done). rewrite Hb in Hbt by lia. cbn [existsb] in Hbt. apply orb_true_iff in Hbt as [Hbt | Hbt]; [lia |]. apply existsb_exists in Hbt as (q & Hq & Hqe). rewrite Forall_forall in Hlt. specialize (Hlt q (proj2 (list_elem_of_In _ _) Hq)). lia. }
    assert (Es : Z.lor (Z.shiftl ci 6) t = p) by (rewrite Z.shiftl_mul_pow2, lor_disjoint by lia; lia). cbv zeta. rewrite Es. change (rootField st (zslice block p (h1NextBit ends p chunks)) (zslice block (h1NextBit ends p chunks + 1) (if 0 <=? h1NextBit starts (h1NextBit ends p chunks) chunks then h1NextBit starts (h1NextBit ends p chunks) chunks - 2 else zlen block - 2)) false) with (stepAt st p). destruct (stepAt st p) as [st' |]; [| done].
    apply IH; [cbn [length] in Hf; lia | | done | done |].
    + split; [apply Z.land_nonneg; lia |]. eapply Z.le_lt_trans; [| exact (proj2 Hc)]. apply Z.ldiff_le; [lia |]. apply Z.bits_inj'. intros n Hn. rewrite Z.ldiff_spec, Z.land_spec, Z.bits_0. destruct (Z.testbit c n); [by rewrite andb_false_r | done].
    + intros k Hk. rewrite Hclear, Hb by done. cbn [existsb]. destruct (k =? t) eqn:Ek.
      * rewrite andb_false_r. symmetry. apply not_true_iff_false. intros Hx. apply existsb_exists in Hx as (q & Hq & Hqe). rewrite Forall_forall in Hlt. specialize (Hlt q (proj2 (list_elem_of_In _ _) Hq)). lia.
      * rewrite andb_true_r. replace (p =? 64 * ci + k) with false by lia. done.
Qed.

(** A sorted list in a range is not longer than the range. *)
Lemma sorted_length ps : StronglySorted Z.lt ps -> forall a b, a <= b -> Forall (fun p => a <= p < b) ps -> zlen ps <= b - a.
Proof.
  induction 1 as [| p ps Hs IH Hlt]; intros a b Hab Hr; [change (zlen (@nil Z)) with 0; lia |]. apply Forall_cons_1 in Hr as [Hp Hr]. rewrite zlen_cons. assert (zlen ps <= b - (p + 1)); [| lia]. apply IH; [lia |]. rewrite Forall_forall in *. intros q Hq. specialize (Hlt q Hq). specialize (Hr q Hq). lia.
Qed.

(** The part of a sorted list below a bound, and the rest. *)
Lemma sorted_split (R : Z -> Z -> Prop) ps m : (forall x y, R x y -> x < y) -> StronglySorted R ps -> exists a b, ps = a ++ b /\ Forall (fun p => p < m) a /\ Forall (fun p => m <= p) b /\ StronglySorted R a /\ StronglySorted R b.
Proof.
  intros HR. induction 1 as [| p ps Hs IH Hlt]; [exists [], []; split_and!; done || constructor |]. destruct (decide (p < m)) as [Hp | Hp].
  - destruct IH as (a & b & -> & Ha & Hb & Sa & Sb). exists (p :: a), b. apply Forall_app in Hlt as [Hla _]. split_and!; [done | by constructor | done | by constructor | done].
  - exists [], (p :: ps). split_and!; [done | constructor | | constructor | by constructor]. constructor; [lia |]. eapply Forall_impl; [exact Hlt |]. cbv beta. intros q Hq. apply HR in Hq. lia.
Qed.

Lemma chunkLoop_steps cs : chunks <= 16 -> StronglySorted Z.lt cs -> forall n ci st ps, 0 <= ci -> Z.of_nat n = chunks - ci -> (exists pre, cs = pre ++ ps /\ Forall (fun p => p < 64 * ci) pre) -> Forall (fun p => 64 * ci <= p < 64 * chunks) ps ->
  chunkLoop n st block starts ends (wordsOf cs) chunks ci = steps st ps.
Proof.
  intros Hch Hs. induction n as [| n IH]; intros ci st ps Hci Hn (pre & -> & Hpre) Hr; cbn [chunkLoop].
  - destruct ps as [| p ps]; [done |]. apply Forall_cons_1 in Hr as [Hp _]. lia.
  - assert (Hsp : StronglySorted Z.lt ps) by (by apply StronglySorted_app_1_r in Hs). destruct (sorted_split Z.lt ps (64 * ci + 64) ltac:(done) Hsp) as (a & b & -> & Ha & Hb & Sa & Sb). apply Forall_app in Hr as [Hra Hrb].
    rewrite wordAt_wordsOf by lia. assert (Hrange : Forall (fun p => 64 * ci <= p < 64 * ci + 64) a) by (rewrite Forall_forall in *; intros p Hp; specialize (Ha p Hp); specialize (Hra p Hp); cbv beta in *; lia). rewrite (candLoop_steps ci Hci a 65 st _); [| | apply wordOf_range | done | done |].
    + rewrite steps_app. destruct (steps st a) as [st' |]; [| done]. apply IH; [lia | lia | |].
      * exists (pre ++ a). rewrite <- app_assoc. split; [done |]. apply Forall_app. split; [eapply Forall_impl; [exact Hpre |]; cbv beta; lia | eapply Forall_impl; [exact Ha |]; cbv beta; lia].
      * rewrite Forall_forall in *. intros p Hp. specialize (Hb p Hp). specialize (Hrb p Hp). cbv beta in *. lia.
    + pose proof (sorted_length a Sa (64 * ci) (64 * ci + 64) ltac:(lia) Hrange) as Hl. unfold zlen in Hl. lia.
    + intros k Hk. rewrite wordOf_bit by done. rewrite !existsb_app. assert (Z1 : existsb (fun p => p =? 64 * ci + k) pre = false) by (apply not_true_iff_false; intros Hx; apply existsb_exists in Hx as (q & Hq & Hqe); rewrite Forall_forall in Hpre; specialize (Hpre q (proj2 (list_elem_of_In _ _) Hq)); cbv beta in *; lia).
      assert (Z2 : existsb (fun p => p =? 64 * ci + k) b = false) by (apply not_true_iff_false; intros Hx; apply existsb_exists in Hx as (q & Hq & Hqe); rewrite Forall_forall in Hb; specialize (Hb q (proj2 (list_elem_of_In _ _) Hq)); cbv beta in *; lia). by rewrite Z1, Z2, orb_false_r.
Qed.

End Steps.

(** ** The candidates are the fields that matter *)

Lemma nextIn_at ps from q r : q ∈ ps -> from <= q -> Forall (fun p => from <= p -> q <= p) ps -> nextIn ps from r -> r = q.
Proof.
  intros Hq Hle Hall [[_ H] | (H1 & H2 & H3)]; rewrite Forall_forall in *; [specialize (H q Hq); cbv beta in H; lia |]. specialize (Hall r H1 H2). specialize (H3 q Hq Hle). lia.
Qed.

Lemma nextIn_none ps from r : Forall (fun p => p < from) ps -> nextIn ps from r -> r = -1.
Proof. intros Hall [[-> _] | (H1 & H2 & _)]; [done |]. rewrite Forall_forall in Hall. specialize (Hall r H1). cbv beta in Hall. lia. Qed.

Lemma named_first n f x rest : named n f = true -> n = x :: rest -> 97 <= x <= 122 -> znth f.1 0 = x \/ znth f.1 0 = x - 32.
Proof.
  unfold named. intros E -> Hx. apply bytes_eqb_spec in E. destruct f.1 as [| y name]; [done |]. unfold lower in E. cbn [map] in E. injection E as E _. change (znth (y :: name) 0) with y. by apply lower_cases.
Qed.

Lemma not_candidate st f : candidate (znth f.1 0) = false -> rootRef st f = Some st.
Proof.
  intros Hc. assert (Hno : forall n x rest, n = x :: rest -> 97 <= x <= 122 -> candidate x = true -> candidate (x - 32) = true -> named n f = false).
  { intros n x rest En Hx H1 H2. apply not_true_iff_false. intros Hn. destruct (named_first n f x rest Hn En Hx) as [E | E]; rewrite E in Hc; congruence. }
  unfold rootRef. rewrite (Hno (str "host") 104 _ eq_refl), (Hno (str "connection") 99 _ eq_refl), (Hno (str "expect") 101 _ eq_refl), (Hno (str "content-length") 99 _ eq_refl), (Hno (str "transfer-encoding") 116 _ eq_refl) by (lia || reflexivity). done.
Qed.

Lemma steps_indexed block chunks L : chunks <= 16 -> Forall (fun e => 0 <= e.1 < 64 * chunks /\ 0 <= e.2 < 64 * chunks) L ->
  forall i l lines fs, indexed block i l lines fs -> forall pre st, L = pre ++ l -> Forall (fun e => e.1 < e.2 < i) pre ->
  steps block (wordsOf (map fst L)) (wordsOf (map snd L)) chunks st (List.filter (fun p => candidate (znth block p)) (map fst l)) = rootFold st fs.
Proof.
  intros Hch HL. assert (H1 : Forall (fun p => 0 <= p < 64 * chunks) (map fst L)) by (apply Forall_fmap; eapply Forall_impl; [exact HL |]; cbv beta; by intros e [He _]). assert (H2 : Forall (fun p => 0 <= p < 64 * chunks) (map snd L)) by (apply Forall_fmap; eapply Forall_impl; [exact HL |]; cbv beta; by intros e [_ He]).
  induction 1 as [| i line name v l lines fs Hi E Hp Hf Hix IH]; intros pre st EL Hpre; [done |]. destruct (fieldOf_parts _ _ _ Hf) as [Eline Hn]. assert (Hl : zlen line = zlen name + 1 + zlen v) by (rewrite Eline, zlen_app, zlen_cons; lia). pose proof (zlen_nonneg v). destruct (indexed_slices block i line name v Hi E Hf) as (S1 & S2 & S3). destruct (indexed_range _ _ _ _ _ Hix) as [Hend Hrange].
  assert (Hnext : forall st', steps block (wordsOf (map fst L)) (wordsOf (map snd L)) chunks st' (List.filter (fun p => candidate (znth block p)) (map fst l)) = rootFold st' fs).
  { intros st'. apply (IH (pre ++ [(i, i + zlen name)])); [by rewrite <- app_assoc |]. apply Forall_app. split; [eapply Forall_impl; [exact Hpre |]; cbv beta; intros e He; lia | constructor; [cbn [fst snd]; lia | constructor]]. }
  cbn [map List.filter fst rootFold]. destruct (candidate (znth block i)) eqn:Ec; [| rewrite not_candidate by (cbn [fst]; by rewrite <- S3); apply Hnext].
  cbn [steps]. unfold stepAt. assert (Ecolon : h1NextBit (wordsOf (map snd L)) i chunks = i + zlen name).
  { eapply nextIn_at; [| | | apply h1NextBit_spec; [done | lia | exact H2]]; [rewrite EL, map_app; apply elem_of_app; right; cbn [map snd]; apply elem_of_cons; by left | lia |]. rewrite EL, map_app. apply Forall_app. split; [apply Forall_fmap; eapply Forall_impl; [exact Hpre |]; cbn; intros e He; lia |]. cbn [map snd]. constructor; [lia |]. apply Forall_fmap. eapply Forall_impl; [exact Hrange |]. cbn. intros e He. lia. }
  cbv zeta. rewrite Ecolon. assert (Eend : (let next := h1NextBit (wordsOf (map fst L)) (i + zlen name) chunks in if 0 <=? next then next - 2 else zlen block - 2) = i + zlen line).
  { assert (Hb : Forall (fun p => p < i + zlen name) (map fst (pre ++ [(i, i + zlen name)]))) by (rewrite map_app; apply Forall_app; split; [apply Forall_fmap; eapply Forall_impl; [exact Hpre |]; cbn; intros e He; lia | cbn [map fst]; constructor; [lia | constructor]]).
    assert (Hnb : nextIn (map fst L) (i + zlen name) (h1NextBit (wordsOf (map fst L)) (i + zlen name) chunks)) by (apply h1NextBit_spec; [done | lia | exact H1]). cbv zeta. clear IH Hnext Eline Ecolon. inversion Hix as [E1 E2 | i' line' name' v' l' lines' fs' Hi' E' Hp' Hf' Hix']; subst.
    - rewrite (nextIn_none _ _ _ Hb Hnb). change (0 <=? -1) with false. cbv iota. lia.
    - apply (nextIn_at _ _ (i + zlen line + 2)) in Hnb; [rewrite Hnb; replace (0 <=? i + zlen line + 2) with true by lia; lia | rewrite map_app; apply elem_of_app; right; cbn [map fst]; apply elem_of_cons; right; apply elem_of_cons; by left | lia |].
      change (pre ++ (i, i + zlen name) :: ?x) with (pre ++ [(i, i + zlen name)] ++ x). rewrite app_assoc, map_app. apply Forall_app. split; [eapply Forall_impl; [exact Hb |]; cbv beta; lia |]. apply Forall_fmap. eapply Forall_impl; [exact Hrange |]. cbn. intros e He. lia. }
  cbv zeta in Eend. rewrite Eend, S1, S2, rootField_ref by done. destruct (rootRef st (name, trimOWS v)); [apply Hnext | done].
Qed.

(** ** Counting the fields *)

Definition apart (a b : Z) : Prop := a + minH1FieldLineBytes <= b.

Lemma apart_length ps : StronglySorted apart ps -> forall a b, a <= b -> Forall (fun p => a <= p < b) ps -> 4 * zlen ps <= b - a + 3.
Proof.
  unfold apart, minH1FieldLineBytes. induction 1 as [| p ps Hs IH Hlt]; intros a b Hab Hr; [change (zlen (@nil Z)) with 0; lia |]. apply Forall_cons_1 in Hr as [Hp Hr]. rewrite zlen_cons. destruct (decide (p + 4 <= b)) as [Hb | Hb].
  - assert (4 * zlen ps <= b - (p + 4) + 3); [| lia]. apply IH; [lia |]. rewrite Forall_forall in *. intros q Hq. specialize (Hlt q Hq). specialize (Hr q Hq). cbv beta in *. lia.
  - destruct ps as [| q ps]; [change (zlen (@nil Z)) with 0; lia |]. apply Forall_cons_1 in Hlt as [Hq _]. apply Forall_cons_1 in Hr as [Hr _]. lia.
Qed.

Lemma indexed_apart block i l lines fs : indexed block i l lines fs -> StronglySorted apart (map fst l) /\ 4 * zlen l <= zlen block - i.
Proof.
  induction 1 as [| i line name v l lines fs Hi E Hp Hf Hix [IH1 IH2]]; [split; [constructor | change (zlen (@nil (Z * Z))) with 0; lia] |]. destruct (fieldOf_parts _ _ _ Hf) as [Eline Hn]. assert (Hl : zlen line = zlen name + 1 + zlen v) by (rewrite Eline, zlen_app, zlen_cons; lia). pose proof (zlen_nonneg v). destruct (indexed_range _ _ _ _ _ Hix) as [_ Hrange]. split; [| rewrite zlen_cons; lia].
  cbn [map fst]. constructor; [exact IH1 |]. apply Forall_fmap. eapply Forall_impl; [exact Hrange |]. unfold apart, minH1FieldLineBytes. cbn. intros e He. lia.
Qed.

Lemma ones_half w : 0 <= w -> OnesCount64 w = w mod 2 + OnesCount64 (w / 2).
Proof.
  intros Hw. destruct w as [| p | p]; [done | | lia]. destruct p as [p | p |]; [| | done].
  - replace (Zpos p~1 mod 2) with 1 by (rewrite Pos2Z.inj_xI, Z.add_comm, Z.mul_comm, Z.mod_add by lia; done). replace (Zpos p~1 / 2) with (Zpos p) by (rewrite Pos2Z.inj_xI, Z.add_comm, Z.mul_comm, Z.div_add by lia; done). done.
  - replace (Zpos p~0 mod 2) with 0 by (rewrite Pos2Z.inj_xO, Z.mul_comm, Z.mod_mul by lia; done). replace (Zpos p~0 / 2) with (Zpos p) by (rewrite Pos2Z.inj_xO, Z.mul_comm, Z.div_mul by lia; done). done.
Qed.

Lemma sorted_pred ps : StronglySorted Z.lt ps -> StronglySorted Z.lt (map Z.pred ps).
Proof. induction 1 as [| p ps Hs IH Hlt]; cbn [map]; constructor; [done |]. apply Forall_fmap. eapply Forall_impl; [exact Hlt |]. cbn. lia. Qed.

(** Every position a word holds is counted. *)
Lemma ones_count k : forall w ps, 0 <= w < 2 ^ Z.of_nat k -> StronglySorted Z.lt ps -> Forall (fun p => 0 <= p /\ Z.testbit w p = true) ps -> zlen ps <= OnesCount64 w.
Proof.
  induction k as [| k IH]; intros w ps Hw Hs Hb.
  - assert (w = 0) as -> by (simpl in Hw; lia). destruct ps as [| p ps]; [done |]. apply Forall_cons_1 in Hb as [[_ Hb] _]. by rewrite Z.bits_0 in Hb.
  - rewrite ones_half by lia. assert (Hhalf : 0 <= w / 2 < 2 ^ Z.of_nat k) by (split; [apply Z.div_pos; lia | apply Z.div_lt_upper_bound; [lia |]; replace (2 * 2 ^ Z.of_nat k) with (2 ^ Z.of_nat (S k)) by (rewrite Nat2Z.inj_succ, Z.pow_succ_r by lia; done); lia]).
    assert (Hhi : forall qs, Forall (fun p => 0 < p /\ Z.testbit w p = true) qs -> StronglySorted Z.lt qs -> zlen qs <= OnesCount64 (w / 2)).
    { intros qs Hq Hsq. replace (zlen qs) with (zlen (map Z.pred qs)) by (unfold zlen; by rewrite length_map). apply IH; [done | by apply sorted_pred |]. apply Forall_fmap. eapply Forall_impl; [exact Hq |]. intros p [Hp Ht]. unfold compose. split; [lia |]. rewrite Z.div2_bits by lia. by replace (Z.succ (Z.pred p)) with p by lia. }
    pose proof (Z.mod_pos_bound w 2 ltac:(lia)). destruct ps as [| p ps]; [specialize (Hhi [] ltac:(constructor) ltac:(constructor)); change (zlen (@nil Z)) with 0 in *; lia |]. apply StronglySorted_inv in Hs as [Hs Hlt]. apply Forall_cons_1 in Hb as [[Hp0 Hp] Hb].
    assert (Hrest : Forall (fun p => 0 < p /\ Z.testbit w p = true) ps) by (rewrite Forall_forall in *; intros q Hq; specialize (Hlt q Hq); destruct (Hb q Hq); split; [lia | done]). destruct (decide (p = 0)) as [-> | Hne].
    + rewrite zlen_cons. specialize (Hhi ps Hrest Hs). assert (w mod 2 = 1); [| lia]. rewrite Z.bit0_odd in Hp. rewrite Zmod_odd, Hp. done.
    + specialize (Hhi (p :: ps)). assert (zlen (p :: ps) <= OnesCount64 (w / 2)); [| lia]. apply Hhi; [constructor; [split; [lia | done] | done] | by constructor].
Qed.

Lemma startsLoop_count chunks maxCount L : chunks <= 16 -> StronglySorted apart L -> forall n ci count ps, 0 <= ci -> Z.of_nat n = chunks - ci -> (exists pre, L = pre ++ ps) -> Forall (fun p => 64 * ci <= p < 64 * chunks) ps ->
  startsLoop n (wordsOf L) chunks maxCount ci count = true -> count + zlen ps <= maxCount.
Proof.
  intros Hch Hs. assert (HR : forall x y, apart x y -> x < y) by (unfold apart, minH1FieldLineBytes; lia). induction n as [| n IH]; intros ci count ps Hci Hn [pre EL] Hr; cbn [startsLoop].
  - destruct ps as [| p ps]; [change (zlen (@nil Z)) with 0; lia |]. apply Forall_cons_1 in Hr as [Hp _]. lia.
  - assert (Hsp : StronglySorted apart ps) by (rewrite EL in Hs; by apply StronglySorted_app_1_r in Hs). destruct (sorted_split apart ps (64 * ci + 64) HR Hsp) as (a & b & -> & Ha & Hb & Sa & Sb). apply Forall_app in Hr as [Hra Hrb]. rewrite wordAt_wordsOf by lia.
    assert (Hones : zlen a <= OnesCount64 (wordOf L ci)).
    { replace (zlen a) with (zlen (map (fun p => p - 64 * ci) a)) by (unfold zlen; by rewrite length_map). apply (ones_count 64); [apply wordOf_range | |].
      - clear - Sa HR. induction Sa as [| p a Sa IH Hlt]; cbn [map]; constructor; [done |]. apply Forall_fmap. eapply Forall_impl; [exact Hlt |]. cbn. intros q Hq. apply HR in Hq. lia.
      - apply Forall_fmap, Forall_forall. intros p Hp. rewrite Forall_forall in *. specialize (Ha p Hp). specialize (Hra p Hp). cbn in *. split; [lia |]. rewrite wordOf_bit by lia. apply existsb_exists. exists p. split; [apply list_elem_of_In; rewrite EL; apply elem_of_app; right; apply elem_of_app; by left | lia]. }
    assert (Hrest : 4 * zlen b <= 64 * (chunks - 1 - ci) + 3).
    { replace (64 * (chunks - 1 - ci)) with (64 * chunks - (64 * ci + 64)) by lia. apply apart_length; [exact Sb | lia |]. rewrite Forall_forall in *. intros p Hp. specialize (Hb p Hp). specialize (Hrb p Hp). cbv beta in *. lia. }
    rewrite zlen_app. destruct (count + OnesCount64 (wordOf L ci) + (chunks - 1 - ci) * maxH1FieldStartsPerChunk <=? maxCount) eqn:E; [unfold maxH1FieldStartsPerChunk in E; lia |]. intros H. apply IH with (ps := b) in H; [lia | lia | lia | exists (pre ++ a); by rewrite <- app_assoc |]. rewrite Forall_forall in *. intros p Hp. specialize (Hb p Hp). specialize (Hrb p Hp). cbv beta in *. lia.
Qed.

(** ** The end of the head *)

Lemma pat_bytes b j : bytes_ok b -> 0 <= j -> patAt b j = true -> zdrop j b = crlfcrlf ++ zdrop (j + 4) b /\ j + 4 <= zlen b.
Proof.
  intros Hok Hj H. unfold patAt in H. apply andb_true_iff in H as [H1 H2]. split; [| lia]. rewrite <- zdrop_zdrop by lia. assert (E : ztake 4 (zdrop j b) = crlfcrlf).
  { apply le_val_inj; [apply Forall_take; by apply Forall_drop | repeat constructor; by vm_compute | | change (le_val crlfcrlf) with 168626701; lia]. change (length crlfcrlf) with 4%nat. pose proof (zlen_drop j b ltac:(lia)) as Hl. pose proof (zlen_take 4 (zdrop j b) ltac:(lia)) as Ht. unfold zlen in Ht. lia. }
  rewrite <- E at 1. unfold ztake, zdrop. by rewrite take_drop.
Qed.

Lemma crLoop_pat fuel b m j : crLoop fuel b m = Some j -> 0 <= m -> 0 <= j /\ patAt b j = true.
Proof.
  revert m. induction fuel as [| fuel IH]; intros m; cbn [crLoop]; [done |]. destruct (m =? 0) eqn:E; [done |]. cbv zeta. intros H Hm. destruct (lowest_bit m ltac:(lia)) as (Ht & _). destruct (patAt b (Z.shiftr (TrailingZeros64 m) 3)) eqn:Ep; [injection H as <-; split; [apply Z.shiftr_nonneg; lia | done] |]. apply (IH _ H). apply Z.land_nonneg. lia.
Qed.

Lemma patAt_drop b k j : 0 <= k <= zlen b -> 0 <= j -> patAt (zdrop k b) j = true -> patAt b (k + j) = true.
Proof. intros Hk Hj. unfold patAt. rewrite zdrop_zdrop, zlen_drop by lia. intros H. apply andb_true_iff in H as [H1 H2]. rewrite H2. lia. Qed.

Lemma crlfTail_pat b : forall i, 0 <= i -> 0 <= crlfTail b i -> i <= crlfTail b i /\ patAt b (crlfTail b i - i) = true.
Proof.
  induction b as [| c b IH]; intros i Hi; cbn [crlfTail]; [lia |]. destruct (4 <=? zlen (c :: b)) eqn:El; [| lia]. destruct (patAt (c :: b) 0) eqn:Ep; [intros _; split; [lia |]; by rewrite Z.sub_diag |]. intros H. destruct (IH (i + 1) ltac:(lia) H) as [H1 H2]. split; [lia |].
  replace (crlfTail b (i + 1) - i) with (1 + (crlfTail b (i + 1) - (i + 1))) by lia. apply patAt_drop; [rewrite zlen_cons in *; pose proof (zlen_nonneg b); lia | lia | exact H2].
Qed.

Lemma crMask_nonneg w : 0 <= crMask w.
Proof. unfold crMask. apply Z.land_nonneg. right. by vm_compute. Qed.

Lemma crlfWords_pat fuel : forall b i, 0 <= i -> 0 <= crlfWords fuel b i -> i <= crlfWords fuel b i /\ patAt b (crlfWords fuel b i - i) = true.
Proof.
  induction fuel as [| fuel IH]; intros b i Hi; cbn [crlfWords]; [by apply crlfTail_pat |]. destruct (8 <=? zlen b) eqn:El; [| by apply crlfTail_pat]. destruct (crLoop 9 b (crMask (le_val (ztake 8 b)))) as [j |] eqn:Ec.
  - destruct (crLoop_pat _ _ _ _ Ec (crMask_nonneg _)) as [H1 H2]. intros _. split; [lia |]. by replace (i + j - i) with j by lia.
  - intros H. destruct (IH (zdrop 8 b) (i + 8) ltac:(lia) H) as [H1 H2]. split; [lia |]. replace (crlfWords fuel (zdrop 8 b) (i + 8) - i) with (8 + (crlfWords fuel (zdrop 8 b) (i + 8) - (i + 8))) by lia. apply patAt_drop; [lia | lia | exact H2].
Qed.

Section Fast.

Context (hasAVX2 : bool) (firstH1SpecialAVX2 : bytes -> Z) (h1HeaderLineAVX2 : bytes -> Z * Z) (indexCRLF4AVX2 : bytes -> Z) (h1BlockIndexAVX2 : bytes -> option (list Z * list Z * list Z)).
Context (Hfirst : forall p, bytes_ok p -> avx2ScanMinLen <= zlen p -> firstH1SpecialAVX2 p = firstH1SpecialSWAR p).
Context (Hline : forall p, bytes_ok p -> avx2ScanMinLen <= zlen p -> h1HeaderLineAVX2 p = h1HeaderLineSWAR p).
Context (Hcrlf : forall b, bytes_ok b -> 4 <= zlen b -> indexCRLF4AVX2 b = indexCRLFCRLFSwar b).
Context (Hindex : forall block, bytes_ok block -> 2 <= zlen block <= h1BlockMaxBytes -> zdrop (zlen block - 2) block = [CR; LF] -> h1BlockIndexAVX2 block = h1BlockIndexRef block).

Lemma terminator_spec buf start e : bytes_ok buf -> 0 <= start -> findHeaderTerminatorBytes hasAVX2 indexCRLF4AVX2 buf start = e -> 0 <= e -> start + 4 <= e <= zlen buf /\ zdrop (e - 4) buf = crlfcrlf ++ zdrop e buf.
Proof.
  intros Hok Hs. unfold findHeaderTerminatorBytes. destruct (zlen buf <=? start) eqn:E; [lia |]. pose proof (zlen_drop start buf ltac:(lia)) as Hl. assert (Hdok : bytes_ok (zdrop start buf)) by (by apply Forall_drop). cbv zeta.
  assert (Ei : indexCRLFCRLF hasAVX2 indexCRLF4AVX2 (zdrop start buf) = indexCRLFCRLFSwar (zdrop start buf)) by (unfold indexCRLFCRLF; destruct (zlen (zdrop start buf) <? 4) eqn:E4; [unfold indexCRLFCRLFSwar; by rewrite E4 | destruct hasAVX2; [apply Hcrlf; [done | lia] | done]]). rewrite Ei. unfold indexCRLFCRLFSwar. destruct (zlen (zdrop start buf) <? 4); [cbn; lia |]. set (j := crlfWords (length (zdrop start buf)) (zdrop start buf) 0).
  destruct (j <? 0) eqn:Ej; [lia |]. intros <- _. destruct (crlfWords_pat (length (zdrop start buf)) (zdrop start buf) 0 ltac:(lia) ltac:(fold j; lia)) as [_ Hp]. fold j in Hp. rewrite Z.sub_0_r in Hp. destruct (pat_bytes (zdrop start buf) j Hdok ltac:(lia) Hp) as [H1 H2]. rewrite !zdrop_zdrop in H1 by lia. split; [lia |]. replace (start + j + 4 - 4) with (start + j) by lia. rewrite H1. do 2 f_equal. lia.
Qed.

Lemma filter_sorted f ps : StronglySorted Z.lt ps -> StronglySorted Z.lt (List.filter f ps).
Proof. induction 1 as [| p ps Hs IH Hlt]; cbn [List.filter]; [constructor |]. destruct (f p); [| done]. constructor; [done |]. rewrite Forall_forall in *. intros q Hq. apply Hlt. apply list_elem_of_In in Hq. apply filter_In in Hq as [Hq _]. by apply list_elem_of_In. Qed.

Lemma indexed_spec st block r : bytes_ok block -> indexedFields hasAVX2 h1BlockIndexAVX2 st block = Some (Some r) -> exists lines fs, rootLines block lines fs [] /\ rootFold st fs = Some r /\ zlen fs <= rt_maxCount r.
Proof.
  intros Hok. unfold indexedFields, h1BlockIndex. cbv zeta. destruct (negb hasAVX2 || (zlen block <? 2) || (h1BlockMaxBytes <? zlen block) || negb (znth block (zlen block - 2) =? CR) || negb (znth block (zlen block - 1) =? LF)) eqn:E; [done |]. rewrite !orb_false_iff, !negb_false_iff in E. destruct E as ((((_ & E1) & E2) & E3) & E4).
  assert (Hend : zdrop (zlen block - 2) block = [CR; LF]).
  { assert (Hl : zlen (zdrop (zlen block - 2) block) = 2) by (rewrite zlen_drop by lia; lia). assert (H0 : znth (zdrop (zlen block - 2) block) 0 = CR) by (unfold znth, zdrop in *; rewrite nth_lookup, lookup_drop, Nat.add_0_r, <- nth_lookup; lia). assert (H1 : znth (zdrop (zlen block - 2) block) 1 = LF) by (unfold znth, zdrop in *; rewrite nth_lookup, lookup_drop, <- nth_lookup; replace (Z.to_nat (zlen block - 2) + Z.to_nat 1)%nat with (Z.to_nat (zlen block - 1)) by lia; lia).
    destruct (zdrop (zlen block - 2) block) as [| x [| y [| z w]]]; try (unfold zlen in Hl; cbn [length] in Hl; lia). change (znth [x; y] 0) with x in H0. change (znth [x; y] 1) with y in H1. by subst. }
  rewrite (Hindex block Hok ltac:(lia) Hend). unfold h1BlockIndexRef. destruct (blockFields (length block) block 0) as [l |] eqn:Eb; [| done]. destruct (blockFields_indexed (length block) block 0 l ltac:(lia) Eb) as (lines & fs & Hix). destruct (indexed_range _ _ _ _ _ Hix) as [_ Hr]. destruct (indexed_apart _ _ _ _ _ Hix) as [Hap Hfour]. destruct (indexed_lines _ _ _ _ _ Hix) as [Hrl Hlen]. change (zdrop 0 block) with block in Hrl.
  set (chunks := Z.shiftr (zlen block + 63) 6). unfold h1BlockMaxBytes in *. assert (Hch : 0 <= chunks <= 16 /\ zlen block <= 64 * chunks) by (unfold chunks; rewrite Z.shiftr_div_pow2 by lia; change (2 ^ 6) with 64; pose proof (Z.div_mod (zlen block + 63) 64 ltac:(lia)); pose proof (Z.mod_pos_bound (zlen block + 63) 64 ltac:(lia)); lia). destruct Hch as [Hch Hcov].
  set (cs := List.filter (fun p => candidate (znth block p)) (map fst l)). assert (Hsorted : StronglySorted Z.lt (map fst l)) by (clear - Hap; induction Hap as [| p ps Hs IH Hlt]; constructor; [done |]; eapply Forall_impl; [exact Hlt |]; unfold apart, minH1FieldLineBytes; lia).
  assert (Hst : Forall (fun p => 0 <= p < 64 * chunks) (map fst l)) by (apply Forall_fmap; eapply Forall_impl; [exact Hr |]; cbn; intros e He; lia).
  rewrite (chunkLoop_steps block _ _ chunks cs ltac:(lia) (filter_sorted _ _ Hsorted) (Z.to_nat chunks) 0 st cs ltac:(lia) ltac:(lia)); [| by exists [] | rewrite Forall_forall in *; intros p Hp; specialize (Hst p); apply list_elem_of_In in Hp; apply filter_In in Hp as [Hp _]; specialize (Hst (proj2 (list_elem_of_In _ _) Hp)); lia].
  unfold cs. rewrite (steps_indexed block chunks l ltac:(lia) ltac:(eapply Forall_impl; [exact Hr |]; cbn; intros e He; lia) 0 l lines fs Hix [] st eq_refl ltac:(constructor)). destruct (rootFold st fs) as [st' |] eqn:Ef; [| done]. unfold minH1FieldLineBytes.
  destruct ((zlen block <=? rt_maxCount st' * 4) || h1BlockStartsWithin (wordsOf (map fst l)) chunks (rt_maxCount st')) eqn:Ew; [| done]. intros [= <-]. exists lines, fs. split_and!; [exact Hrl | exact Ef |]. assert (Hcount : zlen fs = zlen l) by (unfold zlen; by rewrite Hlen). rewrite Hcount. apply orb_true_iff in Ew as [Ew | Ew]; [lia |].
  unfold h1BlockStartsWithin in Ew. apply (startsLoop_count chunks (rt_maxCount st') (map fst l) ltac:(lia) Hap (Z.to_nat chunks) 0 0 (map fst l) ltac:(lia) ltac:(lia) ltac:(by exists []) ltac:(eapply Forall_impl; [exact Hst |]; cbv beta; lia)) in Ew. unfold zlen in *. rewrite length_map in Ew. lia.
Qed.

(** ** The whole short cut *)

Abbreviation fastFields := (rootFields hasAVX2 h1HeaderLineAVX2 h1BlockIndexAVX2).
Abbreviation fastHeaders := (rootFastHeaders hasAVX2 h1HeaderLineAVX2 h1BlockIndexAVX2).
Abbreviation matchRoot := (matchPlainRootFastRequest hasAVX2 h1HeaderLineAVX2 indexCRLF4AVX2 h1BlockIndexAVX2).

Lemma rootFields_spec st block : bytes_ok block -> exists r, fastFields st block = Some r /\
  match r with None => True | Some st' => exists lines fs, rootLines block lines fs [] /\ rootFold st fs = Some st' /\ zlen fs <= rt_maxCount st' end.
Proof.
  intros Hok. unfold rootFields. destruct (if h1BlockMinBytes <=? zlen block then indexedFields hasAVX2 h1BlockIndexAVX2 st block else None) as [r |] eqn:E.
  - exists r. split; [done |]. destruct r as [st' |]; [| done]. destruct (h1BlockMinBytes <=? zlen block); [| done]. by apply indexed_spec.
  - destruct (lineFields_spec hasAVX2 h1HeaderLineAVX2 Hline (length block) block Hok st 0 0 ltac:(lia)) as (r & Er & Hr); [unfold zdrop; rewrite length_drop; lia |]. exists r. split; [done |]. destruct r as [st' |]; [| done]. exact Hr.
Qed.

(** What the short cut has read: field lines, the empty line, and the rest. *)
Definition rootHead (data : bytes) (maxCount consumed : Z) (keepAlive : bool) : Prop :=
  exists lines fs rest st, rootLines (zdrop 16 data) lines fs (CR :: LF :: rest) /\ rootFold (mkRootState 0 (rt_maxCount st) true) fs = Some st /\ rt_hosts st = 1 /\
    zlen fs <= maxCount /\ consumed = zlen data - zlen rest /\ keepAlive = rt_keepAlive st.

Lemma fastHeaders_spec data e maxCount : bytes_ok data -> 20 <= e <= zlen data -> zdrop (e - 4) data = crlfcrlf ++ zdrop e data ->
  exists r, fastHeaders (zslice data 16 (e - 2)) maxCount = Some r /\ forall keepAlive, r = Some keepAlive -> rootHead data maxCount e keepAlive.
Proof.
  intros Hok He Hend. unfold rootFastHeaders. destruct (rootFields_spec (mkRootState 0 maxCount true) (zslice data 16 (e - 2))) as (r & -> & Hr); [apply Forall_take; by apply Forall_drop |]. destruct r as [st |]; [| by eexists]. eexists. split; [done |]. intros keepAlive. destruct (rt_hosts st =? 1) eqn:E1; [| done]. intros [= <-]. destruct Hr as (lines & fs & (Hl & Hp & H2) & Hf & Hc). pose proof (rootFold_count _ _ _ Hf) as Hm. cbn [rt_maxCount] in Hm.
  exists lines, fs, (zdrop e data), st. split; [| split; [by rewrite Hm | split; [lia | split; [lia | split; [rewrite zlen_drop by lia; lia | done]]]]]. split_and!; [| done | done]. rewrite app_nil_r in Hl. rewrite <- Hl. assert (E2 : zdrop (e - 2) data = CR :: LF :: zdrop e data).
  { replace (e - 2) with ((e - 4) + 2) by lia. rewrite <- zdrop_zdrop by lia. rewrite Hend. reflexivity. }
  rewrite <- E2. unfold zslice. replace (e - 2) with (16 + (e - 2 - 16)) at 2 by lia. rewrite <- zdrop_zdrop by lia. unfold ztake, zdrop. by rewrite take_drop.
Qed.

Lemma countByte_lines lines : Forall plain lines -> countByte LF (concat (map (fun l => l ++ [CR; LF]) lines)) = zlen lines.
Proof.
  assert (Happ : forall a b, countByte LF (a ++ b) = countByte LF a + countByte LF b) by (intros a b; unfold countByte; rewrite List.filter_app; apply zlen_app). assert (Hp : forall l, plain l -> countByte LF l = 0).
  { induction 1 as [| c l Hc _ IH]; [done |]. unfold countByte in *. cbn [List.filter]. destruct (LF =? c) eqn:E; [| exact IH]. assert (c = LF) as -> by lia. discriminate Hc. }
  induction 1 as [| l lines Hl _ IH]; [done |]. cbn [map concat]. rewrite !Happ, IH, (Hp l Hl), zlen_cons. change (countByte LF [CR; LF]) with 1. lia.
Qed.

Lemma lines_four lines fs : Forall2 lineField lines fs -> 4 * zlen fs <= zlen (concat (map (fun l => l ++ [CR; LF]) lines)) /\ zlen lines = zlen fs.
Proof.
  induction 1 as [| l f lines fs Hlf _ [IH1 IH2]]; [done |]. destruct Hlf as (v & Hf & _). destruct (fieldOf_parts _ _ _ Hf) as [-> Hn]. cbn [map concat]. rewrite !zlen_app. change (zlen [CR; LF]) with 2. rewrite !zlen_cons. pose proof (zlen_nonneg v). lia.
Qed.

Lemma fastRequest_spec data maxCount : bytes_ok data -> 20 <= zlen data -> exists r, parsePlainFastRootRequest hasAVX2 h1HeaderLineAVX2 indexCRLF4AVX2 h1BlockIndexAVX2 data 16 maxCount = Some r /\
  forall consumed keepAlive, r = Some (consumed, keepAlive) -> exists n, rootHead data n consumed keepAlive /\ (n = maxCount \/ consumed <= rootScalarScanMaxBytes).
Proof.
  intros Hok Hlen. unfold parsePlainFastRootRequest. assert (Hslow : exists r, fastFromTerminator hasAVX2 h1HeaderLineAVX2 indexCRLF4AVX2 h1BlockIndexAVX2 data 16 maxCount = Some r /\ forall consumed keepAlive, r = Some (consumed, keepAlive) -> exists n, rootHead data n consumed keepAlive /\ (n = maxCount \/ consumed <= rootScalarScanMaxBytes)).
  { unfold fastFromTerminator. cbv zeta. destruct (findHeaderTerminatorBytes hasAVX2 indexCRLF4AVX2 data 16 <? 0) eqn:E; [by eexists |]. destruct (terminator_spec data 16 (findHeaderTerminatorBytes hasAVX2 indexCRLF4AVX2 data 16) Hok ltac:(lia) eq_refl ltac:(lia)) as [H1 H2]. destruct (fastHeaders_spec data _ maxCount Hok H1 H2) as (r & -> & Hr). destruct r as [k |]; [| by eexists]. eexists. split; [done |]. intros consumed keepAlive [= <- <-]. exists maxCount. split; [by apply Hr | by left]. }
  destruct (zlen data <=? rootScalarScanMaxBytes) eqn:Es.
  - destruct (scanFields_spec (length data) data (mkRootState 0 0 true) 16 ltac:(lia)) as (r & -> & Hr); [unfold zdrop; rewrite length_drop; lia |]. destruct r as [[e st] |]; [| exact Hslow]. destruct (rt_hosts st =? 1) eqn:E1; [| exact Hslow]. eexists. split; [done |]. intros consumed keepAlive [= <- <-]. destruct Hr as (lines & fs & rest & H1 & H2 & ->). pose proof (rootFold_count _ _ _ H2) as Hm. cbn [rt_maxCount] in Hm.
    exists (zlen fs). split; [| right; pose proof (zlen_nonneg rest); lia]. exists lines, fs, rest, st. rewrite Hm. split_and!; [done | done | lia | lia | done | done].
  - destruct (endsWithHeaderTerminator data 16) eqn:Ee; [| exact Hslow]. unfold endsWithHeaderTerminator in Ee. cbv zeta in Ee. apply andb_true_iff in Ee as [_ Ee]. apply bytes_eqb_spec in Ee. destruct (fastHeaders_spec data (zlen data) maxCount Hok ltac:(lia)) as (r & -> & Hr); [by rewrite Ee, zdrop_all |]. destruct r as [k |]; [| exact Hslow]. eexists. split; [done |]. intros consumed keepAlive [= <- <-]. exists maxCount. split; [by apply Hr | by left].
Qed.

(** The short cut against the parser. *)
Lemma root_fast_accepts data req maxHeaderSize maxHeaderCount : bytes_ok data -> q_Headers req = [] -> q_expect req = h1ExpectNone ->
  exists r, matchRoot data maxHeaderSize (effectiveCount maxHeaderCount) = Some r /\
    forall consumed close, r = Some (consumed, close) ->
      exists h q, parseH1RequestHead hasAVX2 firstH1SpecialAVX2 h1HeaderLineAVX2 data req maxHeaderSize maxHeaderCount = Some (h, q) /\ rootRequest h q consumed close.
Proof.
  intros Hok Hq Hx. unfold matchPlainRootFastRequest. change (zlen rootPrefix16) with 16. fold (effectiveBytes maxHeaderSize). cbv zeta. destruct ((zlen data <? 16 + 4) || negb (bytes_eqb (ztake 16 data) rootPrefix16)) eqn:E; [by eexists |]. apply orb_false_iff in E as [E1 E2]. apply negb_false_iff, bytes_eqb_spec in E2.
  destruct (fastRequest_spec data (effectiveCount maxHeaderCount) Hok ltac:(clear - E1; lia)) as (r & -> & Hr). destruct r as [[consumed keepAlive] |]; [| by eexists]. destruct ((effectiveBytes maxHeaderSize <? consumed - 2) || _) eqn:E3; [by eexists |]. apply orb_false_iff in E3 as [E3 E4]. eexists. split; [done |]. intros c k [= <- <-].
  destruct (Hr consumed keepAlive eq_refl) as (n & (lines & fs & rest & st & Hl & Hf & H1 & Hn & Ec & ->) & Hor). pose proof Hl as (Hb & Hp & H2). destruct (lines_four _ _ H2) as [Hfour Hll]. assert (Ed : data = rootPrefix16 ++ zdrop 16 data) by (rewrite <- E2; unfold ztake, zdrop; by rewrite take_drop). assert (Htot : zlen data - 16 = zlen (concat (map (fun l => l ++ [CR; LF]) lines)) + (2 + zlen rest)) by (rewrite <- zlen_drop by (clear - E1; lia); rewrite Hb, zlen_app, !zlen_cons; clear; lia).
  rewrite Ec. eapply (root_accept hasAVX2 firstH1SpecialAVX2 h1HeaderLineAVX2 Hfirst Hline data req lines fs rest st); try eassumption; [| clear - E3 Ec; lia].
  destruct Hor as [-> | Hsmall]; [exact Hn |]. destruct (rootFastUncountedHeadLen (effectiveCount maxHeaderCount) <? consumed) eqn:Eu; cbn [andb] in E4.
  - unfold scalarRootFieldsExceed in E4. replace (consumed <=? rootScalarScanMaxBytes) with true in E4 by (clear - Hsmall; lia). cbn [andb] in E4. change (zlen rootPrefix16) with 16 in E4. assert (Es : zslice data 16 (consumed - 2) = concat (map (fun l => l ++ [CR; LF]) lines)) by (unfold zslice; rewrite Hb; replace (consumed - 2 - 16) with (zlen (concat (map (fun l => l ++ [CR; LF]) lines))) by (clear - Htot Ec; lia); apply ztake_app_exact).
    rewrite Es, (countByte_lines _ Hp), Hll in E4. clear - E4. lia.
  - unfold rootFastUncountedHeadLen, minH1FieldLineBytes in Eu. change (zlen rootPrefix16) with 16 in Eu. clear - Eu Hfour Htot Ec. lia.
Qed.

(** C26: the short cut for "GET /" never answers what the parser would not. On
    every input it returns; and whenever it claims a request at the start of the
    bytes received, the parser of request heads accepts those bytes too, ends the
    head at the same place, finds GET, "/", HTTP/1.1, no body and no expectation,
    stays within the same limits on size and number of fields, and decides the
    same about closing the connection: over the scalar scan of short heads, the
    scan line by line, and the bit index of a block of up to 1024 bytes, whatever
    vector routines there are that agree with the portable ones. *)
Theorem h1_root_fast_agrees data req maxHeaderSize maxHeaderCount : bytes_ok data -> q_Headers req = [] -> q_expect req = h1ExpectNone ->
  exists r, matchRoot data maxHeaderSize (effectiveCount maxHeaderCount) = Some r /\
    forall consumed close, r = Some (consumed, close) ->
      exists h q, parseH1RequestHead hasAVX2 firstH1SpecialAVX2 h1HeaderLineAVX2 data req maxHeaderSize maxHeaderCount = Some (h, q) /\ rootRequest h q consumed close.
Proof. apply root_fast_accepts. Qed.

End Fast.

(** ** A concrete request *)

Definition root_fields : list field := [(str "Host", str "example.org"); (str "User-Agent", str "x/1.0 (a long enough name)"); (str "Accept", str "text/html"); (str "Connection", str "close")].
Definition root_head : bytes := requestHead (str "GET") (str "/") false root_fields.

Lemma h1_root_fast_agrees_witness : exists h q, matchPlainRootFastRequest true h1HeaderLineSWAR indexCRLFCRLFSwar h1BlockIndexRef (root_head ++ str "GET /") 0 128 = Some (Some (zlen root_head, true)) /\
  parseH1RequestHead true firstH1SpecialSWAR h1HeaderLineSWAR (root_head ++ str "GET /") emptyRequest 0 0 = Some (h, q) /\ rootRequest h q (zlen root_head) true.
Proof.
  destruct (h1_root_fast_agrees true firstH1SpecialSWAR h1HeaderLineSWAR indexCRLFCRLFSwar h1BlockIndexRef swar_first swar_line ltac:(done) ltac:(done) (root_head ++ str "GET /") emptyRequest 0 0 ltac:(concrete) eq_refl eq_refl) as (r & Er & H).
  assert (E : r = Some (zlen root_head, true)) by (vm_compute in Er |- *; injection Er as <-; reflexivity). destruct (H _ _ E) as (h & q & H1 & H2). exists h, q. split_and!; [rewrite E in Er; exact Er | exact H1 | exact H2].
Defined.
