(* ===== verification/H1Resp.v ===== *)
(** HTTP/1 responses (src/core/h1.go, the writers of h1_plain.go and stream.go,
    the response object of response.go): a buffered response as bytes, the head
    of a streamed one, and the checks on header values. The line with the date
    is an argument. *)
From stdpp Require Import base list numbers strings.
From Stdlib Require Import ZArith Lia ZifyBool.
From S2P Require Import Prelude Utils H1Scan HttpText HpackDyn H1Head Chunked.

Open Scope list_scope.
Open Scope Z_scope.

(** ** The response *)

(** [r_method] is the method of [lazyReq]; [r_tails] are the two heads' ends of
    its server. *)
Record Response := mkResponse {
  StatusCode : Z;
  r_Headers : list field;
  r_body : bytes;
  bodyString : bytes;
  bodyIsText : bool;
  ContentType : bytes;
  r_method : bytes;
  r_tails : option (bytes * bytes) }.

Definition notBreak (c : Z) : bool := negb (c =? 13) && negb (c =? 10) && negb (c =? 0).
Definition sanitizeHeaderValue (v : bytes) : bytes :=
  if (IndexByte v 13 <? 0) && (IndexByte v 10 <? 0) && (IndexByte v 0 <? 0) then v else List.filter notBreak v.
Definition SetHeader (r : Response) (name value : bytes) : Response :=
  mkResponse (StatusCode r) (r_Headers r ++ [(sanitizeHeaderValue name, sanitizeHeaderValue value)]) (r_body r) (bodyString r) (bodyIsText r) (ContentType r) (r_method r) (r_tails r).
Definition Status (r : Response) (code : Z) : Response :=
  mkResponse code (r_Headers r) (r_body r) (bodyString r) (bodyIsText r) (ContentType r) (r_method r) (r_tails r).
Definition setText (r : Response) (contentType s : bytes) : Response :=
  mkResponse (StatusCode r) (r_Headers r) [] s true contentType (r_method r) (r_tails r).
Definition setBytes (r : Response) (contentType b : bytes) : Response :=
  mkResponse (StatusCode r) (r_Headers r) b [] false contentType (r_method r) (r_tails r).
Definition resp_Reset (r : Response) : Response := mkResponse 200 [] [] [] false [] [] None.

Definition textPlain : bytes := str "text/plain; charset=utf-8".
Definition textHTML : bytes := str "text/html; charset=utf-8".
Definition appJSON : bytes := str "application/json; charset=utf-8".
Definition octetStream : bytes := str "application/octet-stream".
Definition resp_String (r : Response) (s : bytes) : Response := setText r textPlain s.
Definition resp_HTML (r : Response) (s : bytes) : Response := setText r textHTML s.
Definition resp_Bytes (r : Response) (b : bytes) : Response := setBytes r octetStream b.
Definition resp_JSON (r : Response) (b : bytes) : Response := setBytes r appJSON b.
Definition resp_SetBody (r : Response) (b : bytes) : Response := setBytes r (ContentType r) b.

Definition bodyBytesUnsafe (r : Response) : bytes := if bodyIsText r then bodyString r else r_body r.
Definition appendBody (r : Response) (dst : bytes) : bytes := if bodyIsText r then dst ++ bodyString r else dst ++ r_body r.
Definition BodyLen (r : Response) : Z := if bodyIsText r then zlen (bodyString r) else zlen (r_body r).

(** Whether the body is left out, and whether Content-Length is. *)
Definition responseBodyDispositionSlow (method : bytes) (statusCode : Z) : bool * bool :=
  if (100 <=? statusCode) && (statusCode <? 200) then (true, true)
  else if (statusCode =? 204) || (statusCode =? 205) || (statusCode =? 304) then (true, true)
  else if negb (zlen method =? 0) then
    let suppressBody := EqualFoldASCII method (str "HEAD") in
    if (200 <=? statusCode) && (statusCode <? 300) && EqualFoldASCII method (str "CONNECT") then (true, true) else (suppressBody, false)
  else (false, false).
Definition responseBodyDisposition (method : bytes) (statusCode : Z) : bool * bool :=
  if (statusCode =? 200) && negb (zlen method =? 4) && negb (zlen method =? 7) then (false, false) else responseBodyDispositionSlow method statusCode.

Definition headerContentLength (r : Response) : Z := if (responseBodyDisposition (r_method r) (StatusCode r)).2 then -1 else BodyLen r.
Definition transmittedBodyLen (r : Response) : Z := if (responseBodyDisposition (r_method r) (StatusCode r)).1 then 0 else BodyLen r.
Definition transmittedBodyBytes (r : Response) : bytes := if transmittedBodyLen r =? 0 then [] else bodyBytesUnsafe r.
Definition appendTransmittedBody (r : Response) (dst : bytes) : bytes := if transmittedBodyLen r =? 0 then dst else appendBody r dst.

(** ** Lines *)

Definition crlf : bytes := [CR; LF].

Definition statusLineTexts : list (Z * bytes) :=
  [(200, str "OK"); (201, str "Created"); (202, str "Accepted"); (204, str "No Content"); (206, str "Partial Content");
   (301, str "Moved Permanently"); (302, str "Found"); (303, str "See Other"); (304, str "Not Modified"); (307, str "Temporary Redirect"); (308, str "Permanent Redirect");
   (400, str "Bad Request"); (401, str "Unauthorized"); (403, str "Forbidden"); (404, str "Not Found");
   (405, str "Method Not Allowed"); (408, str "Request Timeout"); (412, str "Precondition Failed"); (413, str "Payload Too Large");
   (416, str "Range Not Satisfiable"); (426, str "Upgrade Required"); (429, str "Too Many Requests"); (431, str "Request Header Fields Too Large");
   (500, str "Internal Server Error"); (502, str "Bad Gateway"); (503, str "Service Unavailable")].

Definition statusTextTable : list (Z * bytes) :=
  [(200, str "OK"); (201, str "Created"); (204, str "No Content"); (206, str "Partial Content"); (301, str "Moved Permanently"); (302, str "Found"); (304, str "Not Modified");
   (400, str "Bad Request"); (401, str "Unauthorized"); (403, str "Forbidden"); (404, str "Not Found"); (405, str "Method Not Allowed"); (408, str "Request Timeout");
   (412, str "Precondition Failed"); (413, str "Payload Too Large"); (416, str "Range Not Satisfiable"); (421, str "Misdirected Request"); (429, str "Too Many Requests");
   (431, str "Request Header Fields Too Large"); (500, str "Internal Server Error"); (502, str "Bad Gateway"); (503, str "Service Unavailable")].

Fixpoint codeText (table : list (Z * bytes)) (code : Z) : option bytes :=
  match table with [] => None | (c, text) :: table => if c =? code then Some text else codeText table code end.
Definition StatusText (code : Z) : bytes := default (str "Unknown") (codeText statusTextTable code).

Definition statusLine (code : Z) (text : bytes) : bytes := appendUint (str "HTTP/1.1 ") code ++ [SP] ++ text ++ crlf.
(** [statusLines], filled at start-up. *)
Definition statusLines (code : Z) : option bytes := statusLine code <$> codeText statusLineTexts code.
Definition appendStatusLine (buf : bytes) (code : Z) : bytes :=
  match (if (0 <? code) && (code <? 600) then statusLines code else None) with
  | Some line => buf ++ line
  | None => buf ++ statusLine code (StatusText code)
  end.

Definition headersHaveFold (headers : list field) (name : bytes) : bool := existsb (fun h => EqualFoldASCII h.1 name) headers.

Definition appendHeaderValueStripped (dst value : bytes) : bytes :=
  if negb (containsLineBreak value lineBreakCRLFNUL) then dst ++ value
  else dst ++ List.filter notBreak value.
Definition appendContentTypeHeader (dst contentType : bytes) : bytes := appendHeaderValueStripped (dst ++ str "Content-Type: ") contentType ++ crlf.

Definition ctPrefixTextPlain : bytes := str "Content-Type: text/plain; charset=utf-8" ++ crlf.
Definition ctPrefixTextHTML : bytes := str "Content-Type: text/html; charset=utf-8" ++ crlf.
Definition ctPrefixJSON : bytes := str "Content-Type: application/json; charset=utf-8" ++ crlf.
Definition ctPrefixOctet : bytes := str "Content-Type: application/octet-stream" ++ crlf.

Definition plainContentTypePresets : list bytes := [[]; ctPrefixJSON; ctPrefixTextPlain; ctPrefixTextHTML; ctPrefixOctet].
Definition plainContentTypePreset (contentType : bytes) : Z :=
  if bytes_eqb contentType [] then 0
  else if bytes_eqb contentType appJSON then 1
  else if bytes_eqb contentType textPlain then 2
  else if bytes_eqb contentType textHTML then 3
  else if bytes_eqb contentType octetStream then 4 else -1.

Definition ctPrefixLookup (ct : bytes) : option bytes :=
  if zlen ct =? 25 then if bytes_eqb ct textPlain then Some ctPrefixTextPlain else None
  else if zlen ct =? 24 then if bytes_eqb ct textHTML then Some ctPrefixTextHTML else if bytes_eqb ct octetStream then Some ctPrefixOctet else None
  else if zlen ct =? 31 then if bytes_eqb ct appJSON then Some ctPrefixJSON else None
  else None.

Definition appendH1HeaderFields (dst : bytes) (headers : list field) : bytes :=
  foldl (fun dst h => dst ++ h.1 ++ [58; SP] ++ h.2 ++ crlf) dst headers.

Definition connKeepAlive : bytes := str "Connection: keep-alive" ++ crlf ++ str "Server: ALOS" ++ crlf.
Definition connClose : bytes := str "Connection: close" ++ crlf ++ str "Server: ALOS" ++ crlf.
(** The heads' ends a server is set up with. *)
Definition serverTails (serverName : bytes) : bytes * bytes :=
  (str "Connection: keep-alive" ++ crlf ++ str "Server: " ++ serverName ++ crlf ++ crlf, str "Connection: close" ++ crlf ++ str "Server: " ++ serverName ++ crlf ++ crlf).
Definition serverConnHeadTail (r : Response) (keepAlive : bool) : bytes :=
  match r_tails r with
  | Some (keep, close) => if keepAlive then keep else close
  | None => if keepAlive then connKeepAlive ++ crlf else connClose ++ crlf
  end.

(** [smallCL] below 256, and the same line written out above. *)
Definition smallCL (n : Z) : bytes := appendUint (str "Content-Length: ") n ++ crlf.
Definition appendContentLength (dst : bytes) (n : Z) : bytes :=
  if n <? 256 then dst ++ smallCL n else appendUint (dst ++ str "Content-Length: ") n ++ crlf.

Section Date.

Context (dateLine : bytes).

Definition appendDateUnlessSet (dst : bytes) (headers : list field) : bytes :=
  if negb (zlen headers =? 0) && headersHaveFold headers (str "Date") then dst else dst ++ dateLine.

(** [ok200] of the current date line. *)
Definition ok200 (preset : Z) : bytes := default [] (statusLines 200) ++ dateLine ++ nth (Z.to_nat preset) plainContentTypePresets [].
Definition plainOKHead (r : Response) : option bytes :=
  let preset := plainContentTypePreset (ContentType r) in
  if (0 <=? preset) && ((zlen (r_Headers r) =? 0) || negb (headersHaveFold (r_Headers r) (str "Date"))) then Some (ok200 preset) else None.

Definition appendPlainContentType (dst : bytes) (r : Response) : bytes :=
  let ct := ContentType r in
  if bytes_eqb ct [] then dst
  else if bytes_eqb ct appJSON then dst ++ ctPrefixJSON
  else if bytes_eqb ct textPlain then dst ++ ctPrefixTextPlain
  else if bytes_eqb ct textHTML then dst ++ ctPrefixTextHTML
  else if bytes_eqb ct octetStream then dst ++ ctPrefixOctet
  else appendHeaderValueStripped (dst ++ str "Content-Type: ") ct ++ crlf.

Definition appendPlainResponseMode (r : Response) (dst : bytes) (keepAlive includeBody : bool) : bytes :=
  let head := if StatusCode r =? 200 then plainOKHead r else None in
  let dst :=
    match head with
    | Some head => dst ++ head
    | None => appendPlainContentType (appendDateUnlessSet (appendStatusLine dst (StatusCode r)) (r_Headers r)) r
    end in
  let '(suppressBody, omitContentLength) := responseBodyDisposition (r_method r) (StatusCode r) in
  let dst := if omitContentLength then dst else appendContentLength dst (BodyLen r) in
  let dst := appendH1HeaderFields dst (r_Headers r) ++ serverConnHeadTail r keepAlive in
  if includeBody && negb suppressBody then appendBody r dst else dst.
Definition appendPlainResponse (r : Response) (dst : bytes) : bytes := appendPlainResponseMode r dst true true.
Definition appendPlainResponseClose (r : Response) (dst : bytes) : bytes := appendPlainResponseMode r dst false true.

(** [BuildH1Response], with [serverConnHeaders] and the empty line. *)
Definition BuildH1Response (r : Response) : bytes :=
  let headerBodyLen := headerContentLength r in
  let buf := appendDateUnlessSet (appendStatusLine [] (StatusCode r)) (r_Headers r) in
  let buf := if bytes_eqb (ContentType r) [] then buf else match ctPrefixLookup (ContentType r) with Some pre => buf ++ pre | None => appendContentTypeHeader buf (ContentType r) end in
  let buf := if 0 <=? headerBodyLen then appendUint (buf ++ str "Content-Length: ") headerBodyLen ++ crlf else buf in
  appendTransmittedBody r (appendH1HeaderFields buf (r_Headers r) ++ serverConnHeadTail r true).

(** [refreshMemoizedDate]: the date line after the first LF, where it is one. *)
Definition httpDateLineLen : Z := 37.
Definition refreshMemoizedDate (response : bytes) : bytes :=
  let at_ := IndexByte response LF + 1 in
  if (at_ =? 0) || (zlen response - at_ <? httpDateLineLen) then response
  else
    let line := zslice response at_ (at_ + httpDateLineLen) in
    if negb (bytes_eqb (ztake 6 line) (str "Date: ")) || negb (bytes_eqb (zdrop (httpDateLineLen - 2) line) crlf) then response
    else ztake at_ response ++ dateLine ++ zdrop (at_ + httpDateLineLen) response.
Definition appendMemoizedResponse (dst memo : bytes) : bytes := dst ++ refreshMemoizedDate memo.

(** ** Streamed responses *)

(** Whether the body is chunked, and whether there is a Connection field. *)
Fixpoint classifyH1StreamHeaders (headers : list field) (chunked hasConnection : bool) : bool * bool :=
  match headers with
  | [] => (chunked, hasConnection)
  | h :: headers =>
      if EqualFoldASCII h.1 (str "connection") then classifyH1StreamHeaders headers chunked true
      else if EqualFoldASCII h.1 (str "transfer-encoding") then classifyH1StreamHeaders headers (EqualFoldASCII h.2 (str "chunked")) hasConnection
      else if EqualFoldASCII h.1 (str "content-length") then classifyH1StreamHeaders headers false hasConnection
      else classifyH1StreamHeaders headers chunked hasConnection
  end.

(** The loop of [appendH1StreamHead]: the fields, whether Connection and Server
    are among them, and the Alt-Svc line that is still to be written. *)
Fixpoint streamFields (buf : bytes) (headers : list field) (hasConnection hasServer : bool) (altSvc : option bytes) : bytes * bool * bool * option bytes :=
  match headers with
  | [] => (buf, hasConnection, hasServer, altSvc)
  | h :: headers =>
      streamFields (buf ++ h.1 ++ [58; SP] ++ h.2 ++ crlf) headers (hasConnection || EqualFoldASCII h.1 (str "connection")) (hasServer || EqualFoldASCII h.1 (str "server"))
        (if EqualFoldASCII h.1 (str "alt-svc") then None else altSvc)
  end.
Definition appendH1StreamHead (buf : bytes) (statusCode : Z) (headers : list field) (contentType : bytes) (chunked closeAfter : bool) (serverName : bytes) (altSvc : option bytes) : bytes :=
  let buf := appendDateUnlessSet (appendStatusLine buf statusCode) headers in
  let buf := if bytes_eqb contentType [] then buf else appendContentTypeHeader buf contentType in
  let buf := if chunked then buf ++ str "Transfer-Encoding: chunked" ++ crlf else buf in
  let '(buf, hasConnection, hasServer, altSvc) := streamFields buf headers false false altSvc in
  let buf := if hasConnection then buf else buf ++ (if closeAfter then str "Connection: close" else str "Connection: keep-alive") ++ crlf in
  let buf := if hasServer then buf else buf ++ str "Server: " ++ serverName ++ crlf in
  let buf := match altSvc with Some line => buf ++ line | None => buf end in
  buf ++ crlf.

End Date.
