(* ===== verification/H1RespProofs.v ===== *)
(** HTTP/1 responses as a client reads them: a client that follows RFC 9112
    (lines end in CR LF, section 6.3 for the length of the body) gets back exactly
    the status, the fields and the body of a response, and the bytes after it. *)
From stdpp Require Import base list list_numbers numbers strings.
From Stdlib Require Import ZArith Lia ZifyBool.
From S2P Require Import Prelude Utils H1Scan HttpText HpackDyn H1Head H1HeadProofs Chunked ChunkedProofs ChunkedRoundtrip H1Resp.

Open Scope list_scope.
Open Scope Z_scope.

(** ** The client *)

Fixpoint crlfLine (p : bytes) : option (bytes * bytes) :=
  match p with
  | [] => None
  | c :: p' =>
      match p' with
      | [] => None
      | d :: rest => if (c =? CR) && (d =? LF) then Some ([], rest) else match crlfLine p' with Some (l, rest) => Some (c :: l, rest) | None => None end
      end
  end.

(** The lines up to the empty one, and what follows. *)
Fixpoint readHead (fuel : nat) (p : bytes) : option (list bytes * bytes) :=
  match fuel with
  | O => None
  | S fuel =>
      match crlfLine p with
      | None => None
      | Some ([], rest) => Some ([], rest)
      | Some (l, rest) => match readHead fuel rest with Some (ls, rest) => Some (l :: ls, rest) | None => None end
      end
  end.

Definition readStatus (l : bytes) : option Z :=
  if bytes_eqb (ztake 9 l) (str "HTTP/1.1 ") && (znth l 12 =? SP) then parseUint (zslice l 9 12) else None.
Definition readField (l : bytes) : option field :=
  let i := IndexByte l 58 in if i <=? 0 then None else Some (ztake i l, trimOWS (zdrop (i + 1) l)).
Fixpoint readFields (ls : list bytes) : option (list field) :=
  match ls with
  | [] => Some []
  | l :: ls => match readField l, readFields ls with Some f, Some fs => Some (f :: fs) | _, _ => None end
  end.

Fixpoint readChunked (fuel : nat) (d : chunkedDecoder) (dst p : bytes) : option (bytes * bytes) :=
  if done d then Some (dst, p)
  else match fuel with
  | O => None
  | S fuel =>
      match next false h1HeaderLineSWAR d p with
      | (Ok (n, data), d) => if n =? 0 then None else readChunked fuel d (dst ++ data) (zdrop n p)
      | (Err _, _) => None
      end
  end.

(** Section 6.3: no body, chunked, a length, or everything up to the end. *)
Definition noBody (method : bytes) (code : Z) : bool :=
  EqualFoldASCII method (str "HEAD") || ((100 <=? code) && (code <? 200)) || (code =? 204) || (code =? 304) ||
  (EqualFoldASCII method (str "CONNECT") && (200 <=? code) && (code <? 300)).
Definition readBody (method : bytes) (code : Z) (fs : list field) (rest : bytes) : option (bytes * bytes) :=
  if noBody method code then Some ([], rest)
  else match List.filter (named (str "transfer-encoding")) fs with
  | [f] => if isChunked f then readChunked (length rest) (newChunkedDecoder true) [] rest else None
  | _ :: _ => None
  | [] =>
      match List.filter (named (str "content-length")) fs with
      | [f] => match parseUint f.2 with Some n => if n <=? zlen rest then Some (ztake n rest, zdrop n rest) else None | None => None end
      | _ :: _ => None
      | [] => Some (rest, [])
      end
  end.
Definition clientRead (method p : bytes) : option (Z * list field * bytes * bytes) :=
  match readHead (length p) p with
  | Some (status :: lines, rest) =>
      match readStatus status, readFields lines with
      | Some code, Some fs => match readBody method code fs rest with Some (body, rest) => Some (code, fs, body, rest) | None => None end
      | _, _ => None
      end
  | _ => None
  end.

(** ** Lines *)

Definition clean (l : bytes) : Prop := Forall (fun c => c <> CR /\ c <> LF) l.

Lemma crlfLine_clean l rest : clean l -> crlfLine (l ++ crlf ++ rest) = Some (l, rest).
Proof.
  induction 1 as [| c l [H1 H2] _ IH]; [done |]. cbn [app]. assert (Hne : exists d p, l ++ crlf ++ rest = d :: p) by (destruct l as [| d l]; by eexists _, _). destruct Hne as (d & p & E). rewrite E in *. cbn [crlfLine] in *. replace ((c =? CR) && (d =? LF)) with false by lia. by rewrite IH.
Qed.

Definition unlines (ls : list bytes) : bytes := concat (map (fun l => l ++ crlf) ls).
Definition goodLine (l : bytes) : Prop := l <> [] /\ clean l.

Lemma readHead_lines ls rest fuel : Forall goodLine ls -> (length ls < fuel)%nat -> readHead fuel (unlines ls ++ crlf ++ rest) = Some (ls, rest).
Proof.
  intros H. revert fuel. induction H as [| l ls [Hne Hc] _ IH]; intros fuel Hf; (destruct fuel as [| fuel]; [cbn [length] in Hf; lia |]); [done |]. unfold unlines in *. cbn [map concat readHead]. rewrite <- !app_assoc, crlfLine_clean by done. destruct l as [| c l]; [done |]. rewrite IH by (cbn [length] in Hf; lia). done.
Qed.

Lemma unlines_length ls : (length ls <= length (unlines ls))%nat.
Proof. unfold unlines. induction ls as [| l ls IH]; [done |]. cbn [map concat length]. rewrite !length_app. cbn [length crlf]. lia. Qed.

(** A field as it is written, and as it is read. *)
Definition fline (h : field) : bytes := h.1 ++ [58; SP] ++ h.2.
Definition headerOk (h : field) : Prop := isH1Token h.1 = true /\ clean h.2.
Definition readAs (h : field) : field := (h.1, trimOWS h.2).

Lemma token_clean b : isH1Token b = true -> clean b.
Proof. intros H. apply isH1Token_spec in H as [_ H]. eapply Forall_impl; [exact H |]. cbv beta. intros c Hc. split; intros ->; discriminate Hc. Qed.

Lemma fline_good h : headerOk h -> goodLine (fline h).
Proof.
  intros [H1 H2]. split; [unfold fline; destruct h.1; [discriminate H1 | done] |]. apply Forall_app. split; [by apply token_clean |]. by repeat constructor.
Qed.

Lemma trim_sp v : trimOWS (SP :: v) = trimOWS v.
Proof. done. Qed.

Lemma readField_fline h : headerOk h -> readField (fline h) = Some (readAs h).
Proof.
  intros [H1 H2]. unfold readField, fline. change (h.1 ++ [58; SP] ++ h.2) with (h.1 ++ 58 :: SP :: h.2). rewrite index_first, zdrop_cons, ztake_app_exact, trim_sp; [| apply isH1Token_spec in H1 as [_ H]; intros Hin; rewrite Forall_forall in H; specialize (H _ Hin); discriminate H]. apply isH1Token_spec in H1 as [Hne _]. destruct h.1 as [| c n] eqn:E; [done |]. rewrite zlen_cons. pose proof (zlen_nonneg n). replace (1 + zlen n <=? 0) with false by lia. unfold readAs. by rewrite E.
Qed.

Lemma readFields_flines hs : Forall headerOk hs -> readFields (map fline hs) = Some (map readAs hs).
Proof. induction 1 as [| h hs Hh _ IH]; [done |]. cbn [map readFields]. by rewrite readField_fline, IH. Qed.

(** ** The bytes of a response *)

Definition reason (code : Z) : bytes := match (if (0 <? code) && (code <? 600) then codeText statusLineTexts code else None) with Some t => t | None => StatusText code end.
Definition statusBytes (code : Z) : bytes := appendUint (str "HTTP/1.1 ") code ++ [SP] ++ reason code.

Lemma appendStatusLine_spec buf code : appendStatusLine buf code = buf ++ statusBytes code ++ crlf.
Proof.
  unfold appendStatusLine, statusLines, statusBytes, reason, statusLine. destruct ((0 <? code) && (code <? 600)); [| by rewrite <- !app_assoc]. destruct (codeText statusLineTexts code); cbn [fmap option_fmap option_map]; by rewrite <- !app_assoc.
Qed.

Lemma appendUint_dst dst n : appendUint dst n = dst ++ appendUint [] n.
Proof. unfold appendUint. by destruct (n =? 0). Qed.

Lemma filter_all {A} (f : A -> bool) l : forallb f l = true -> List.filter f l = l.
Proof. induction l as [| x l IH]; cbn [forallb List.filter]; [done |]. intros H. apply andb_true_iff in H as [-> H]. by rewrite IH. Qed.

Lemma stripped dst v : bytes_ok v -> appendHeaderValueStripped dst v = dst ++ List.filter notBreak v.
Proof.
  intros Hv. unfold appendHeaderValueStripped. destruct (text_checks_exact v true Hv) as [E _]. rewrite E. destruct (existsb (isLineBreak true) v) eqn:Ex; cbn [negb]; [done |]. rewrite filter_all; [done |]. apply forallb_forall. intros c Hc. apply not_true_iff_false in Ex. unfold notBreak. destruct (isLineBreak true c) eqn:Eb; [exfalso; apply Ex; apply existsb_exists; by exists c |]. unfold isLineBreak in Eb. lia.
Qed.

Lemma notBreak_clean v : clean (List.filter notBreak v).
Proof. apply Forall_forall. intros c Hc. apply list_elem_of_In, filter_In in Hc as [_ Hc]. unfold notBreak, CR, LF in *. lia. Qed.

Lemma fields_append dst hs : appendH1HeaderFields dst hs = dst ++ unlines (map fline hs).
Proof.
  unfold appendH1HeaderFields, unlines, fline. revert dst. induction hs as [| h hs IH]; intros dst; cbn [foldl map concat]; [by rewrite app_nil_r |]. rewrite IH, <- !app_assoc. done.
Qed.

Lemma unlines_app a b : unlines (a ++ b) = unlines a ++ unlines b.
Proof. unfold unlines. by rewrite map_app, concat_app. Qed.

Section Render.

Context (date serverName : bytes).
Definition dateLineOf : bytes := str "Date: " ++ date ++ crlf.

(** The fields before those of the handler, and after. *)
Definition dateField (hs : list field) : list field := if headersHaveFold hs (str "Date") then [] else [(str "Date", date)].
Definition typeField (ct : bytes) : list field := if bytes_eqb ct [] then [] else [(str "Content-Type", List.filter notBreak ct)].
Definition lengthFields (r : Response) : list field := if (responseBodyDisposition (r_method r) (StatusCode r)).2 then [] else [(str "Content-Length", appendUint [] (BodyLen r))].
Definition tailFields (keepAlive : bool) : list field := [(str "Connection", if keepAlive then str "keep-alive" else str "close"); (str "Server", serverName)].
Definition rawFields (r : Response) (keepAlive : bool) : list field := dateField (r_Headers r) ++ typeField (ContentType r) ++ lengthFields r ++ r_Headers r ++ tailFields keepAlive.

(** Server names the ends of heads are built from. *)
Definition tailsOk (r : Response) : Prop := r_tails r = Some (serverTails serverName) \/ (r_tails r = None /\ serverName = str "ALOS").

Lemma date_append dst hs : appendDateUnlessSet dateLineOf dst hs = dst ++ unlines (map fline (dateField hs)).
Proof.
  unfold appendDateUnlessSet, dateField. destruct (headersHaveFold hs (str "Date")) eqn:E; [rewrite andb_true_r; destruct hs as [| h hs]; [discriminate E |]; rewrite zlen_cons; pose proof (zlen_nonneg hs); replace (1 + zlen hs =? 0) with false by lia; by rewrite app_nil_r |]. rewrite andb_false_r. unfold dateLineOf, unlines, fline. cbn [map concat fst snd]. rewrite app_nil_r, <- !app_assoc. done.
Qed.

Lemma type_append dst r : bytes_ok (ContentType r) -> appendPlainContentType dst r = dst ++ unlines (map fline (typeField (ContentType r))).
Proof.
  intros Hok. unfold appendPlainContentType, typeField. destruct (bytes_eqb (ContentType r) []) eqn:E0; [by rewrite app_nil_r |].
  assert (Hpre : forall ct pre, bytes_eqb (ContentType r) ct = true -> forallb notBreak ct = true -> pre = unlines (map fline [(str "Content-Type", ct)]) -> dst ++ pre = dst ++ unlines (map fline [(str "Content-Type", List.filter notBreak (ContentType r))])) by (intros ct pre E Hc ->; apply bytes_eqb_spec in E; by rewrite E, filter_all).
  destruct (bytes_eqb (ContentType r) appJSON) eqn:E1; [apply (Hpre _ _ E1); reflexivity |]. destruct (bytes_eqb (ContentType r) textPlain) eqn:E2; [apply (Hpre _ _ E2); reflexivity |]. destruct (bytes_eqb (ContentType r) textHTML) eqn:E3; [apply (Hpre _ _ E3); reflexivity |]. destruct (bytes_eqb (ContentType r) octetStream) eqn:E4; [apply (Hpre _ _ E4); reflexivity |].
  rewrite stripped by done. unfold unlines, fline. cbn [map concat fst snd]. rewrite app_nil_r, <- !app_assoc. done.
Qed.

Lemma length_append dst r : (if (responseBodyDisposition (r_method r) (StatusCode r)).2 then dst else appendContentLength dst (BodyLen r)) = dst ++ unlines (map fline (lengthFields r)).
Proof.
  unfold lengthFields. destruct (responseBodyDisposition (r_method r) (StatusCode r)).2; [by rewrite app_nil_r |]. unfold appendContentLength, smallCL, unlines, fline. cbn [map concat fst snd]. rewrite (appendUint_dst (dst ++ _)), (appendUint_dst (str "Content-Length: ")), app_nil_r. destruct (BodyLen r <? 256); rewrite <- !app_assoc; done.
Qed.

Lemma tail_append r keepAlive : tailsOk r -> serverConnHeadTail r keepAlive = unlines (map fline (tailFields keepAlive)) ++ crlf.
Proof. unfold serverConnHeadTail, unlines, fline, tailFields. intros [-> | [-> E]]; [| rewrite E]; destruct keepAlive; cbn [map concat fst snd]; unfold serverTails, connKeepAlive, connClose; rewrite ?app_nil_r, <- ?app_assoc; reflexivity. Qed.

(** The cached head of a 200 response is what would be written. *)
Lemma okHead_append dst r head : plainOKHead dateLineOf r = Some head -> bytes_ok (ContentType r) ->
  dst ++ head = appendPlainContentType (appendDateUnlessSet dateLineOf (appendStatusLine dst 200) (r_Headers r)) r.
Proof.
  unfold plainOKHead. cbv zeta. destruct ((0 <=? plainContentTypePreset (ContentType r)) && _) eqn:E; [| done]. intros [= <-] Hok. apply andb_true_iff in E as [E1 E2]. assert (Ed : headersHaveFold (r_Headers r) (str "Date") = false) by (destruct (r_Headers r) as [| h hs]; [done |]; rewrite zlen_cons in E2; pose proof (zlen_nonneg hs); apply orb_true_iff in E2 as [E2 | E2]; [lia | by apply negb_true_iff in E2]).
  rewrite date_append. unfold dateField. rewrite Ed, appendStatusLine_spec. unfold ok200, appendPlainContentType. change (default [] (statusLines 200)) with (statusBytes 200 ++ crlf). replace (unlines (map fline [(str "Date", date)])) with dateLineOf by (unfold dateLineOf, unlines, fline; cbn [map concat fst snd]; by rewrite app_nil_r, <- !app_assoc).
  unfold plainContentTypePreset in *. destruct (bytes_eqb (ContentType r) []); [change (nth (Z.to_nat 0) plainContentTypePresets []) with (@nil Z); by rewrite app_nil_r, <- !app_assoc |].
  destruct (bytes_eqb (ContentType r) appJSON); [change (nth (Z.to_nat 1) plainContentTypePresets []) with ctPrefixJSON; by rewrite <- !app_assoc |]. destruct (bytes_eqb (ContentType r) textPlain); [change (nth (Z.to_nat 2) plainContentTypePresets []) with ctPrefixTextPlain; by rewrite <- !app_assoc |].
  destruct (bytes_eqb (ContentType r) textHTML); [change (nth (Z.to_nat 3) plainContentTypePresets []) with ctPrefixTextHTML; by rewrite <- !app_assoc |]. destruct (bytes_eqb (ContentType r) octetStream); [change (nth (Z.to_nat 4) plainContentTypePresets []) with ctPrefixOctet; by rewrite <- !app_assoc |]. by vm_compute in E1.
Qed.

Definition sentBody (r : Response) : bytes := if (responseBodyDisposition (r_method r) (StatusCode r)).1 then [] else bodyBytesUnsafe r.

Lemma plain_render r dst keepAlive includeBody : bytes_ok (ContentType r) -> tailsOk r ->
  appendPlainResponseMode dateLineOf r dst keepAlive includeBody = dst ++ unlines (statusBytes (StatusCode r) :: map fline (rawFields r keepAlive)) ++ crlf ++ (if includeBody then sentBody r else []).
Proof.
  intros Hok Ht. unfold appendPlainResponseMode. cbv zeta. set (head := if StatusCode r =? 200 then plainOKHead dateLineOf r else None).
  assert (Ehead : match head with Some head => dst ++ head | None => appendPlainContentType (appendDateUnlessSet dateLineOf (appendStatusLine dst (StatusCode r)) (r_Headers r)) r end = dst ++ unlines (statusBytes (StatusCode r) :: map fline (dateField (r_Headers r) ++ typeField (ContentType r)))).
  { assert (E : match head with Some head => dst ++ head | None => appendPlainContentType (appendDateUnlessSet dateLineOf (appendStatusLine dst (StatusCode r)) (r_Headers r)) r end = appendPlainContentType (appendDateUnlessSet dateLineOf (appendStatusLine dst (StatusCode r)) (r_Headers r)) r).
    { unfold head. destruct (StatusCode r =? 200) eqn:E200; [| done]. destruct (plainOKHead dateLineOf r) as [h |] eqn:Eh; [| done]. assert (StatusCode r = 200) as -> by lia. by apply okHead_append. }
    rewrite E, type_append, date_append, appendStatusLine_spec by done. change (statusBytes (StatusCode r) :: map fline (dateField (r_Headers r) ++ typeField (ContentType r))) with ([statusBytes (StatusCode r)] ++ map fline (dateField (r_Headers r) ++ typeField (ContentType r))). rewrite map_app, !unlines_app. unfold unlines at 3. cbn [map concat]. by rewrite app_nil_r, <- !app_assoc. }
  rewrite Ehead. pose proof (length_append (dst ++ unlines (statusBytes (StatusCode r) :: map fline (dateField (r_Headers r) ++ typeField (ContentType r)))) r) as El. unfold sentBody. destruct (responseBodyDisposition (r_method r) (StatusCode r)) as [suppressBody omit]. cbn [fst snd] in *. rewrite El, fields_append, tail_append by done.
  unfold rawFields. change (statusBytes (StatusCode r) :: map fline ?l) with ([statusBytes (StatusCode r)] ++ map fline l). rewrite !map_app, !unlines_app. destruct includeBody, suppressBody; cbn [andb negb]; unfold appendBody, bodyBytesUnsafe; destruct (bodyIsText r); rewrite ?app_nil_r, <- ?app_assoc; reflexivity.
Qed.

End Render.

(** ** What is read back *)

Lemma code_digits code : 100 <= code <= 999 -> zlen (appendUint [] code) = 3 /\ parseUint (appendUint [] code) = Some code.
Proof.
  intros Hc. assert (H : forallb (fun n => (zlen (appendUint [] n) =? 3) && bool_decide (parseUint (appendUint [] n) = Some n)) (seqZ 100 900) = true) by (vm_compute; reflexivity). rewrite forallb_forall in H. specialize (H code (proj1 (list_elem_of_In _ _) (proj2 (elem_of_seqZ 100 900 code) ltac:(lia)))). apply andb_true_iff in H as [H1 H2]. apply bool_decide_eq_true in H2. split; [lia | done].
Qed.

Lemma readStatus_bytes code : 100 <= code <= 999 -> readStatus (statusBytes code) = Some code.
Proof.
  intros Hc. destruct (code_digits code Hc) as [Hl Hp]. unfold readStatus, statusBytes. rewrite appendUint_dst. set (s := appendUint [] code) in *. set (http := str "HTTP/1.1 "). assert (H9 : zlen http = 9) by reflexivity. rewrite <- !app_assoc.
  assert (T : ztake 9 (http ++ s ++ [SP] ++ reason code) = http) by (rewrite <- H9; apply ztake_app_exact). rewrite T. assert (D : zdrop 9 (http ++ s ++ [SP] ++ reason code) = s ++ [SP] ++ reason code) by (rewrite <- H9; apply zdrop_app_exact).
  assert (N : znth (http ++ s ++ [SP] ++ reason code) 12 = SP) by (unfold znth; rewrite nth_lookup; replace ((http ++ s ++ [SP] ++ reason code) !! Z.to_nat 12) with (zdrop 9 (http ++ s ++ [SP] ++ reason code) !! 3%nat) by (unfold zdrop; rewrite lookup_drop; done); rewrite D, lookup_app_r by (unfold zlen in Hl; lia); replace (3 - length s)%nat with 0%nat by (unfold zlen in Hl; lia); done).
  rewrite N. unfold zslice. rewrite D. replace (12 - 9) with (zlen s) by lia. rewrite ztake_app_exact, Hp. reflexivity.
Qed.

Lemma digits_clean n : 0 <= n < 2 ^ 63 -> clean (appendUint [] n).
Proof.
  intros Hn. destruct (appendUint_spells [] n Hn) as (s & -> & [Hs _] & _). apply Forall_forall. intros c Hc. rewrite forallb_forall in Hs. specialize (Hs c (proj1 (list_elem_of_In _ _) Hc)). unfold is_digit, CR, LF in *. lia.
Qed.

Lemma codeText_in table code t : codeText table code = Some t -> t ∈ map snd table.
Proof. induction table as [| [c x] table IH]; cbn [codeText map]; [done |]. destruct (c =? code); [intros [= ->]; by left | intros H; right; by apply IH]. Qed.

Lemma reason_clean code : clean (reason code).
Proof.
  assert (H1 : Forall clean (map snd statusLineTexts)) by (unfold clean; apply (bool_decide_unpack _); vm_compute; exact I). assert (H2 : Forall clean (map snd statusTextTable)) by (unfold clean; apply (bool_decide_unpack _); vm_compute; exact I). assert (H3 : clean (str "Unknown")) by (unfold clean; apply (bool_decide_unpack _); vm_compute; exact I).
  rewrite Forall_forall in H1, H2. unfold reason, StatusText. destruct ((0 <? code) && (code <? 600)); [destruct (codeText statusLineTexts code) eqn:E; [by apply H1; eapply codeText_in |] |]; (destruct (codeText statusTextTable code) eqn:E'; cbn [default]; [by apply H2; eapply codeText_in | done]).
Qed.

Lemma status_good code : 100 <= code <= 999 -> goodLine (statusBytes code).
Proof.
  intros Hc. unfold statusBytes. split; [rewrite appendUint_dst; discriminate |]. rewrite appendUint_dst. apply Forall_app. split; [apply Forall_app; split; [unfold clean; apply (bool_decide_unpack _); vm_compute; exact I | apply digits_clean; lia] |]. apply Forall_app. split; [by repeat constructor | apply reason_clean].
Qed.

(** The fields a handler leaves to the server. *)
Definition framingName (h : field) : bool := named (str "transfer-encoding") h || named (str "content-length") h.

Record responseOk (date serverName : bytes) (r : Response) : Prop := mkResponseOk {
  ro_date : clean date;
  ro_server : clean serverName;
  ro_tails : tailsOk serverName r;
  ro_headers : Forall headerOk (r_Headers r);
  ro_framing : existsb framingName (r_Headers r) = false;
  ro_type : bytes_ok (ContentType r);
  ro_code : 100 <= StatusCode r <= 999;
  ro_body : BodyLen r <= maxParsedLength }.

Lemma BodyLen_spec r : BodyLen r = zlen (bodyBytesUnsafe r).
Proof. unfold BodyLen, bodyBytesUnsafe. by destruct (bodyIsText r). Qed.

Lemma raw_headersOk date serverName r keepAlive : responseOk date serverName r -> Forall headerOk (rawFields date serverName r keepAlive).
Proof.
  intros [H1 H2 H3 H4 H5 H6 H7 H8]. unfold rawFields. rewrite BodyLen_spec in H8. pose proof (zlen_nonneg (bodyBytesUnsafe r)). change maxParsedLength with (2 ^ 50) in H8. repeat (apply Forall_app; split).
  - unfold dateField. destruct (headersHaveFold _ _); [constructor |]. constructor; [split; [reflexivity | exact H1] | constructor].
  - unfold typeField. destruct (bytes_eqb _ _); [constructor |]. constructor; [split; [reflexivity | apply notBreak_clean] | constructor].
  - unfold lengthFields. destruct (responseBodyDisposition _ _).2; [constructor |]. constructor; [split; [reflexivity | rewrite BodyLen_spec; apply digits_clean; lia] | constructor].
  - exact H4.
  - unfold tailFields. constructor; [split; [reflexivity | destruct keepAlive; unfold clean; apply (bool_decide_unpack _); vm_compute; exact I] |]. constructor; [split; [reflexivity | exact H2] | constructor].
Qed.

Lemma filter_named_read n hs : List.filter (named n) (map readAs hs) = map readAs (List.filter (named n) hs).
Proof. induction hs as [| h hs IH]; [done |]. cbn [map List.filter]. change (named n (readAs h)) with (named n h). destruct (named n h); [cbn [map]; by rewrite IH | exact IH]. Qed.

Lemma filter_none {A} (f : A -> bool) l : existsb f l = false -> List.filter f l = [].
Proof. induction l as [| x l IH]; cbn [existsb List.filter]; [done |]. intros H. apply orb_false_iff in H as [-> H]. by apply IH. Qed.

Lemma framing_none hs : existsb framingName hs = false -> List.filter (named (str "transfer-encoding")) hs = [] /\ List.filter (named (str "content-length")) hs = [].
Proof.
  intros H. split; apply filter_none; apply not_true_iff_false; intros Hx; apply existsb_exists in Hx as (h & Hin & Hh); apply not_true_iff_false in H; apply H; apply existsb_exists; exists h; (split; [done |]); unfold framingName; rewrite Hh; by rewrite ?orb_true_r.
Qed.

(** Of the fields written, only Content-Length frames the body. *)
Lemma raw_framing date serverName r keepAlive : existsb framingName (r_Headers r) = false ->
  List.filter (named (str "transfer-encoding")) (rawFields date serverName r keepAlive) = [] /\ List.filter (named (str "content-length")) (rawFields date serverName r keepAlive) = lengthFields r.
Proof.
  intros H. destruct (framing_none _ H) as [F1 F2]. unfold rawFields, dateField, typeField, lengthFields, tailFields. rewrite !List.filter_app, F1, F2.
  destruct (headersHaveFold _ _), (bytes_eqb _ _), (responseBodyDisposition _ _).2; split; reflexivity.
Qed.

Lemma disposition_noBody method code : code <> 205 -> let '(suppressBody, omit) := responseBodyDisposition method code in suppressBody = noBody method code /\ (omit = true -> suppressBody = true).
Proof.
  intros Hc. assert (Hlen : forall full, EqualFoldASCII method full = true -> zlen method = zlen full) by (intros full E; rewrite EqualFoldASCII_spec in E; apply bytes_eqb_spec in E; apply (f_equal zlen) in E; unfold zlen in *; by rewrite !length_map in E).
  unfold responseBodyDisposition, responseBodyDispositionSlow, noBody. destruct ((code =? 200) && negb (zlen method =? 4) && negb (zlen method =? 7)) eqn:E0.
  - apply andb_true_iff in E0 as [E0 E2]. apply andb_true_iff in E0 as [E0 E1]. assert (code = 200) as -> by lia. destruct (EqualFoldASCII method (str "HEAD")) eqn:Eh; [apply Hlen in Eh; rewrite Eh in E1; discriminate E1 |]. destruct (EqualFoldASCII method (str "CONNECT")) eqn:Ec; [apply Hlen in Ec; rewrite Ec in E2; discriminate E2 |]. split; [reflexivity | done].
  - destruct ((100 <=? code) && (code <? 200)) eqn:E1; [split; [by rewrite orb_true_r | done] |]. replace (code =? 205) with false by lia. destruct (code =? 204) eqn:E2; [cbn [orb]; split; [by rewrite !orb_true_r | done] |]. cbn [orb]. destruct (code =? 304) eqn:E3; [split; [by rewrite !orb_true_r | done] |]. rewrite !orb_false_r.
    destruct (zlen method =? 0) eqn:Em; cbn [negb].
    + destruct (EqualFoldASCII method (str "HEAD")) eqn:Eh; [apply Hlen in Eh; rewrite Eh in Em; discriminate Em |]. destruct (EqualFoldASCII method (str "CONNECT")) eqn:Ec; [apply Hlen in Ec; rewrite Ec in Em; discriminate Em |]. split; [reflexivity | done].
    + destruct (EqualFoldASCII method (str "CONNECT")) eqn:Ec.
      * rewrite andb_true_r. cbn [andb]. destruct ((200 <=? code) && (code <? 300)); [split; [by rewrite orb_true_r | done] | split; [by rewrite orb_false_r | done]].
      * rewrite andb_false_r. split; [by rewrite orb_false_r | done].
Qed.

(** The head of any message of good lines is read back. *)
Lemma clientRead_lines method code hs rest : 100 <= code <= 999 -> Forall headerOk hs ->
  clientRead method (unlines (statusBytes code :: map fline hs) ++ crlf ++ rest) = match readBody method code (map readAs hs) rest with Some (body, rest) => Some (code, map readAs hs, body, rest) | None => None end.
Proof.
  intros Hc Hh. unfold clientRead. rewrite readHead_lines; [by rewrite readStatus_bytes, readFields_flines | constructor; [by apply status_good |]; apply Forall_fmap; eapply Forall_impl; [exact Hh |]; apply fline_good |].
  rewrite !length_app. pose proof (unlines_length (statusBytes code :: map fline hs)). cbn [length crlf] in *. lia.
Qed.

Lemma sanitize_clean v : clean (sanitizeHeaderValue v).
Proof.
  unfold sanitizeHeaderValue. destruct ((IndexByte v 13 <? 0) && (IndexByte v 10 <? 0) && (IndexByte v 0 <? 0)) eqn:E; [| apply notBreak_clean]. apply andb_true_iff in E as [E _]. apply andb_true_iff in E as [E1 E2]. apply Forall_forall. intros c Hc.
  assert (Hin : forall x, (IndexByte v x <? 0) = true -> c <> x); [| split; apply Hin; done]. intros x Ex ->. apply list_elem_of_split in Hc as (a & b & ->). clear - Ex. unfold IndexByte in Ex. assert (G : forall i, 0 <= i -> 0 <= indexFrom (a ++ x :: b) x i); [| specialize (G 0 ltac:(lia)); lia]. clear Ex. induction a as [| y a IH]; intros i Hi; cbn [app indexFrom]; [by rewrite Z.eqb_refl |]. destruct (y =? x); [lia |]. apply IH. lia.
Qed.

Lemma absent_index v x : x ∉ v -> IndexByte v x = -1.
Proof.
  unfold IndexByte. generalize 0. induction v as [| y v IH]; intros i H; cbn [indexFrom]; [done |]. apply not_elem_of_cons in H as [H1 H2]. replace (y =? x) with false by lia. by apply IH.
Qed.

Lemma sanitize_token name : isH1Token name = true -> sanitizeHeaderValue name = name.
Proof.
  intros H. apply isH1Token_spec in H as [_ H]. rewrite Forall_forall in H. unfold sanitizeHeaderValue. rewrite !absent_index by (intros Hin; specialize (H _ Hin); discriminate H). done.
Qed.

Lemma trim_none v : (forall c, c ∈ v -> isOWS c = false) -> trimOWS v = v.
Proof.
  intros H. assert (Hd : forall w, (forall c, c ∈ w -> isOWS c = false) -> dropOWS w = w) by (intros [| c w] Hw; [done |]; cbn [dropOWS]; by rewrite (Hw c) by (apply elem_of_cons; by left)). unfold trimOWS. rewrite (Hd v H). rewrite Hd; [apply rev_involutive |]. intros c Hc. apply H. rewrite list_elem_of_In in Hc |- *. by apply in_rev in Hc.
Qed.

(** C37: a buffered response is framed so that a client reads exactly it. It is
    for every status from 100 to 999 but 205, and for responses to which the handler
    added no Content-Length or Transfer-Encoding of its own. A client of RFC 9112
    that reads what [appendPlainResponseMode] wrote gets the status, the fields
    (the date, the type, the length, those of the handler, the server's) and the
    body that is to be sent for the method and the status, and leaves the bytes of
    the next response alone, whether the head comes from the cache or not. Setting
    a header with [SetHeader] keeps this, whatever its value, when its name is a
    token and not one of those two: it never adds a line. *)
Theorem h1_response_roundtrip date serverName r keepAlive dst next : responseOk date serverName r -> StatusCode r <> 205 ->
  (exists out, appendPlainResponseMode (dateLineOf date) r dst keepAlive true = dst ++ out /\
    clientRead (r_method r) (out ++ next) = Some (StatusCode r, map readAs (rawFields date serverName r keepAlive), sentBody r, next)) /\
  forall name value, isH1Token name = true -> framingName (name, value) = false -> responseOk date serverName (SetHeader r name value).
Proof.
  intros Hr H205. split.
  - eexists. split; [apply (plain_render _ serverName); [exact (ro_type _ _ _ Hr) | exact (ro_tails _ _ _ Hr)] |]. rewrite <- !app_assoc, clientRead_lines by (exact (ro_code _ _ _ Hr) || by apply raw_headersOk). cbv iota.
    assert (E : readBody (r_method r) (StatusCode r) (map readAs (rawFields date serverName r keepAlive)) (sentBody r ++ next) = Some (sentBody r, next)); [| by rewrite E]. unfold readBody, sentBody. pose proof (disposition_noBody (r_method r) (StatusCode r) H205) as Hd. destruct (raw_framing date serverName r keepAlive (ro_framing _ _ _ Hr)) as [F1 F2]. unfold lengthFields in F2. destruct (responseBodyDisposition (r_method r) (StatusCode r)) as [suppressBody omit]. destruct Hd as [-> Hom]. cbn [fst snd] in *. destruct (noBody (r_method r) (StatusCode r)); [done |]. destruct omit; [by specialize (Hom eq_refl) |].
    rewrite !filter_named_read, F1, F2. cbn [map readAs fst snd]. pose proof (ro_body _ _ _ Hr) as Hb. rewrite BodyLen_spec in Hb |- *. pose proof (zlen_nonneg (bodyBytesUnsafe r)). change maxParsedLength with (2 ^ 50) in Hb. destruct (appendUint_spells [] (zlen (bodyBytesUnsafe r)) ltac:(lia)) as (s & -> & [Hs1 Hs2] & Hlen & _). cbn [app].
    assert (Hdig : forall c, c ∈ s -> isOWS c = false) by (intros c Hc; rewrite forallb_forall in Hs1; specialize (Hs1 c (proj1 (list_elem_of_In _ _) Hc)); unfold is_digit, isOWS in *; lia). rewrite trim_none by done. rewrite parse_dec_spec, Hs1, Hs2. change maxParsedLength with (2 ^ 50). replace (0 <? zlen s) with true by lia. replace (zlen (bodyBytesUnsafe r) <=? 2 ^ 50) with true by lia. cbn [andb]. rewrite zlen_app. pose proof (zlen_nonneg next). replace (zlen (bodyBytesUnsafe r) <=? zlen (bodyBytesUnsafe r) + zlen next) with true by lia. by rewrite ztake_app_exact, zdrop_app_exact.
  - intros name value Hn Hf. destruct Hr as [H1 H2 H3 H4 H5 H6 H7 H8]. assert (Hs : sanitizeHeaderValue name = name) by (by apply sanitize_token). constructor; try done; cbn [SetHeader r_Headers].
    + apply Forall_app. split; [done |]. constructor; [split; cbn [fst snd]; [by rewrite Hs | apply sanitize_clean] | constructor].
    + rewrite existsb_app, H5. cbn [existsb orb]. rewrite orb_false_r. unfold framingName, named in *. cbn [fst] in *. by rewrite Hs.
Qed.

(** ** Streamed responses *)

Lemma run_readChunked d src d' data rest : chunkRun false h1HeaderLineSWAR d src d' data rest -> decoder_inv d -> done d' = true -> forall fuel dst, (length src <= fuel)%nat -> readChunked fuel d dst src = Some (dst ++ data, rest).
Proof.
  induction 1 as [d src | d src n data d1 d2 more rest Hd E Hn _ IH]; intros Hi Hdone fuel dst Hf; [destruct fuel; cbn [readChunked]; by rewrite Hdone, app_nil_r |].
  destruct (next_range _ _ _ _ _ _ _ Hi E) as (Hr & Hi' & _). destruct fuel as [| fuel]; [unfold zlen in Hr; lia |]. cbn [readChunked]. rewrite Hd, E. replace (n =? 0) with false by lia. rewrite IH; [by rewrite <- app_assoc | done | done |]. unfold zdrop, zlen in *. rewrite length_drop. lia.
Qed.

Lemma readChunked_chunks datas next : Forall (fun data => 0 < zlen data <= maxParsedLength) datas ->
  readChunked (length (foldl appendH1Chunk [] datas ++ h1LastChunk ++ next)) (newChunkedDecoder true) [] (foldl appendH1Chunk [] datas ++ h1LastChunk ++ next) = Some (concat datas, next).
Proof.
  intros Hd. rewrite appendH1Chunk_foldl. cbn [app]. change h1LastChunk with (last_chunk []). destruct (decodes_chunks false h1HeaderLineSWAR swar_line datas [] [] next Hd ltac:(constructor) ltac:(vm_compute; discriminate)) as (d' & data & Hrun & Hdone & Hr). cbn [fst snd app] in *. injection Hr as -> _. apply (run_readChunked (at_size []) _ _ _ _ Hrun ltac:(done) Hdone). done.
Qed.

Lemma streamFields_spec hs : forall buf hc hv alt, streamFields buf hs hc hv alt =
  (buf ++ unlines (map fline hs), hc || headersHaveFold hs (str "connection"), hv || headersHaveFold hs (str "server"), if headersHaveFold hs (str "alt-svc") then None else alt).
Proof.
  induction hs as [| h hs IH]; intros buf hc hv alt; cbn [streamFields headersHaveFold existsb]; [cbn [map]; unfold unlines; cbn [map concat]; by rewrite app_nil_r, !orb_false_r |]. rewrite IH. unfold headersHaveFold, unlines, fline. cbn [map concat existsb]. rewrite <- !orb_assoc, <- !app_assoc. destruct (EqualFoldASCII h.1 (str "alt-svc")); cbn [orb]; [destruct (existsb (fun h0 => EqualFoldASCII h0.1 (str "alt-svc")) hs); reflexivity | reflexivity].
Qed.

Section StreamHead.

Context (date serverName : bytes).

Definition altLine (alt : option bytes) : option bytes := (fun v => fline (str "alt-svc", v) ++ crlf) <$> alt.
Definition streamRaw (hs : list field) (ct : bytes) (chunked closeAfter : bool) (alt : option bytes) : list field :=
  dateField date hs ++ typeField ct ++ (if chunked then [(str "Transfer-Encoding", str "chunked")] else []) ++ hs ++
  (if headersHaveFold hs (str "connection") then [] else [(str "Connection", if closeAfter then str "close" else str "keep-alive")]) ++
  (if headersHaveFold hs (str "server") then [] else [(str "Server", serverName)]) ++
  (if headersHaveFold hs (str "alt-svc") then [] else match alt with Some v => [(str "alt-svc", v)] | None => [] end).

Lemma stream_render buf code hs ct chunked closeAfter alt : bytes_ok ct ->
  appendH1StreamHead (dateLineOf date) buf code hs ct chunked closeAfter serverName (altLine alt) = buf ++ unlines (statusBytes code :: map fline (streamRaw hs ct chunked closeAfter alt)) ++ crlf.
Proof.
  intros Hct. unfold appendH1StreamHead. cbv zeta. rewrite date_append, appendStatusLine_spec. unfold streamRaw. set (pre := (buf ++ statusBytes code ++ crlf) ++ unlines (map fline (dateField date hs))).
  assert (E : (if bytes_eqb ct [] then pre else appendContentTypeHeader pre ct) = pre ++ unlines (map fline (typeField ct))).
  { unfold typeField, appendContentTypeHeader. destruct (bytes_eqb ct []); [by rewrite app_nil_r |]. rewrite stripped by done. unfold unlines, fline. cbn [map concat fst snd]. rewrite app_nil_r, <- !app_assoc. done. }
  rewrite E. unfold pre. rewrite streamFields_spec. cbn [orb]. change (statusBytes code :: map fline ?l) with ([statusBytes code] ++ map fline l). rewrite !map_app, !unlines_app. unfold unlines at 8. cbn [map concat]. unfold altLine. destruct chunked, (headersHaveFold hs (str "connection")), (headersHaveFold hs (str "server")), (headersHaveFold hs (str "alt-svc")), closeAfter, alt as [v |]; unfold unlines; cbn [map concat fline fst snd fmap option_fmap option_map]; rewrite ?app_nil_r, <- ?app_assoc; reflexivity.
Qed.

End StreamHead.

Lemma fold_lower a b : EqualFoldASCII a b = bytes_eqb (lower a) (lower b).
Proof. apply EqualFoldASCII_spec. Qed.

(** Without framing fields of the handler the body is chunked. *)
Lemma classify_free hs : existsb framingName hs = false -> forall hc, (classifyH1StreamHeaders hs true hc).1 = true.
Proof.
  induction hs as [| h hs IH]; intros H hc; cbn [classifyH1StreamHeaders existsb] in *; [done |]. apply orb_false_iff in H as [H1 H2]. unfold framingName, named in H1. apply orb_false_iff in H1 as [H1 H3]. rewrite !fold_lower. change (lower (str "transfer-encoding")) with (str "transfer-encoding"). change (lower (str "content-length")) with (str "content-length"). rewrite H1, H3. destruct (bytes_eqb (lower h.1) (lower (str "connection"))); by apply IH.
Qed.

Record streamOk (date serverName : bytes) (code : Z) (hs : list field) (ct : bytes) (alt : option bytes) : Prop := mkStreamOk {
  so_date : clean date;
  so_server : clean serverName;
  so_headers : Forall headerOk hs;
  so_framing : existsb framingName hs = false;
  so_type : bytes_ok ct;
  so_code : 100 <= code <= 999;
  so_alt : match alt with Some v => clean v | None => True end }.

Lemma streamRaw_ok date serverName code hs ct chunked closeAfter alt : streamOk date serverName code hs ct alt -> Forall headerOk (streamRaw date serverName hs ct chunked closeAfter alt).
Proof.
  intros [H1 H2 H3 H4 H5 H6 H7]. unfold streamRaw. repeat (apply Forall_app; split).
  - unfold dateField. destruct (headersHaveFold _ _); [constructor |]. constructor; [split; [reflexivity | exact H1] | constructor].
  - unfold typeField. destruct (bytes_eqb _ _); [constructor |]. constructor; [split; [reflexivity | apply notBreak_clean] | constructor].
  - destruct chunked; [| constructor]. constructor; [split; [reflexivity | unfold clean; apply (bool_decide_unpack _); vm_compute; exact I] | constructor].
  - exact H3.
  - destruct (headersHaveFold _ _); [constructor |]. constructor; [split; [reflexivity | destruct closeAfter; unfold clean; apply (bool_decide_unpack _); vm_compute; exact I] | constructor].
  - destruct (headersHaveFold _ _); [constructor |]. constructor; [split; [reflexivity | exact H2] | constructor].
  - destruct (headersHaveFold _ _); [constructor |]. destruct alt as [v |]; constructor; [split; [reflexivity | exact H7] | constructor].
Qed.

(** A streamed response without framing fields of the handler: the head, the
    chunks and the last chunk are read back as the bytes written. *)
Theorem h1_stream_roundtrip date serverName method code hs ct closeAfter alt datas next : streamOk date serverName code hs ct alt -> noBody method code = false -> Forall (fun data => 0 < zlen data <= maxParsedLength) datas ->
  clientRead method (appendH1StreamHead (dateLineOf date) [] code hs ct (classifyH1StreamHeaders hs true false).1 closeAfter serverName (altLine alt) ++ foldl appendH1Chunk [] datas ++ h1LastChunk ++ next)
  = Some (code, map readAs (streamRaw date serverName hs ct true closeAfter alt), concat datas, next).
Proof.
  intros Hok Hn Hd. rewrite (classify_free hs (so_framing _ _ _ _ _ _ Hok)), stream_render by (exact (so_type _ _ _ _ _ _ Hok)). cbn [app]. rewrite <- !app_assoc, clientRead_lines by (exact (so_code _ _ _ _ _ _ Hok) || by eapply streamRaw_ok).
  assert (E : readBody method code (map readAs (streamRaw date serverName hs ct true closeAfter alt)) (foldl appendH1Chunk [] datas ++ h1LastChunk ++ next) = Some (concat datas, next)); [| by rewrite E]. unfold readBody. rewrite Hn, filter_named_read. destruct (framing_none _ (so_framing _ _ _ _ _ _ Hok)) as [F1 _].
  assert (E : List.filter (named (str "transfer-encoding")) (streamRaw date serverName hs ct true closeAfter alt) = [(str "Transfer-Encoding", str "chunked")]); [| rewrite E; cbn [map]; change (isChunked (readAs (str "Transfer-Encoding", str "chunked"))) with true; cbv iota; by apply readChunked_chunks].
  unfold streamRaw, dateField, typeField. rewrite !List.filter_app, F1. destruct (headersHaveFold hs (str "Date")), (bytes_eqb ct []), (headersHaveFold hs (str "connection")), (headersHaveFold hs (str "server")), (headersHaveFold hs (str "alt-svc")), closeAfter, alt; reflexivity.
Qed.

(** ** Concrete responses *)

Definition demo_date : bytes := str "Thu, 01 Jan 1970 00:00:00 GMT".
Definition demo_response : Response := SetHeader (mkResponse 200 [] [] (str "hello") true textPlain (str "GET") None) (str "X-A") (str "1" ++ [13; 10] ++ str "Set-Cookie: a").
Definition reset_response : Response := mkResponse 205 [] [] [] false [] (str "POST") None.

Lemma h1_response_roundtrip_witness : exists out, appendPlainResponseMode (dateLineOf demo_date) demo_response [] true true = [] ++ out /\
  clientRead (str "GET") (out ++ str "HTTP") = Some (200, map readAs (rawFields demo_date (str "ALOS") demo_response true), str "hello", str "HTTP").
Proof.
  assert (Hok : responseOk demo_date (str "ALOS") demo_response).
  { constructor; try (unfold clean, bytes_ok, is_u8; apply (bool_decide_unpack _); vm_compute; exact I). }
  exact (proj1 (h1_response_roundtrip demo_date (str "ALOS") demo_response true [] (str "HTTP") Hok ltac:(discriminate))).
Defined.

(** Where a client reads something else than the response. A 205 response is
    sent without a body and without Content-Length on a connection that stays
    open, so the client takes the next response for its body; a handler that
    streams and names Transfer-Encoding: chunked itself gets the field twice, or,
    with a Content-Length beside it, a body that is not chunked under a head that
    says it is: neither can be read. *)
Theorem h1_response_divergences :
  (let out := appendPlainResponseMode (dateLineOf demo_date) reset_response [] true true in
   let next := appendPlainResponseMode (dateLineOf demo_date) demo_response [] true true in
   exists fs, clientRead (str "POST") (out ++ next) = Some (205, fs, next, []) /\ (str "Connection", str "keep-alive") ∈ fs) /\
  (let hs := [(str "Transfer-Encoding", str "chunked")] in
   (classifyH1StreamHeaders hs true false).1 = true /\
   clientRead (str "GET") (appendH1StreamHead (dateLineOf demo_date) [] 200 hs [] true false (str "ALOS") None ++ appendH1Chunk [] (str "ok") ++ h1LastChunk) = None) /\
  (let hs := [(str "Transfer-Encoding", str "chunked"); (str "Content-Length", str "2")] in
   (classifyH1StreamHeaders hs true false).1 = false /\
   clientRead (str "GET") (appendH1StreamHead (dateLineOf demo_date) [] 200 hs [] false false (str "ALOS") None ++ str "ok") = None).
Proof.
  split; [eexists; split; [vm_compute; reflexivity | apply (bool_decide_unpack _); vm_compute; exact I] |]. split; split; vm_compute; reflexivity.
Qed.
