(* ===== verification/H1Conn.v ===== *)
(** HTTP/1 connections of the event loop (src/core/epoll_h1_linux_amd64.go,
    epoll_h1_body_linux_amd64.go, epoll_h1_out_linux_amd64.go, with the parts of
    epoll_backend_linux_amd64.go that read, flush and close them): one plain-text
    connection of a server without a reverse proxy. What is written is the list of
    its responses; deadlines are not part of the state. *)
From stdpp Require Import base list numbers strings.
From Stdlib Require Import ZArith Lia ZifyBool.
From S2P Require Import Prelude Utils BodyBudget H1Scan HttpText HpackDyn Chunked H2Conn H1Head H1Root H1Resp.

Open Scope list_scope.
Open Scope Z_scope.

(** ** What a connection runs in *)

(** What a flush finds: all output taken, the socket full, an error or too much
    output pending. *)
Inductive h1Flush := FlushDrained | FlushBlocked | FlushFailed.

(** The assembly routines, the limits, and what other parts decide at a given
    moment: the shutdown, free request slots, the memoised response, the bytes of
    bodies other connections hold, the output not taken, the socket, whether
    consumed bytes are still in the read buffer. *)
Record h1Env := mkH1Env {
  x_hasAVX2 : bool;
  x_firstSpecial : bytes -> Z;
  x_headerLine : bytes -> Z * Z;
  x_indexCRLF4 : bytes -> Z;
  x_blockIndex : bytes -> option (list Z * list Z * list Z);
  x_maxHeaderSize : Z;
  x_maxHeaderCount : Z;
  x_maxBodySize : Z;
  x_maxRead : Z;
  x_streamBodyAbove : Z;
  x_inlineHandlers : bool;
  x_maxPendingWrite : Z;
  x_budget : budgetConfig;
  x_shuttingDown : nat -> bool;
  x_requestSlot : nat -> bool;
  x_rootFast : nat -> bool;
  x_otherBodies : nat -> Z;
  x_pendingWrite : nat -> Z;
  x_flush : nat -> h1Flush;
  x_lingers : nat -> bool;
  x_held : nat -> bool;
  x_misdirects : h1Request -> bool }.

(** ** The connection *)

Record h1BodyIn := mkH1BodyIn { in_reader : BodyReader; in_left : Z; in_chunk : chunkedDecoder; in_done : bool; in_broken : bool }.

Inductive h1Out :=
| OutMemo (keepAlive : bool)
| OutContinue
| OutResponse (r : Response) (keepAlive : bool)
| OutStreamed (keepAlive : bool).

(** What a handler is given. *)
Record h1Handed := mkHanded { hd_req : h1Request; hd_body : bytes; hd_trailers : list field; hd_streams : bool }.

(** The input consumed, piece by piece: a blank line, a request the memoised
    response answers, a request handed over (its head, and its body unless it is
    streamed), a whole streamed body with the bytes pushed and the trailers. *)
Inductive h1Piece :=
| PcBlank
| PcRoot
| PcRequest (r : h1Handed)
| PcBody (data : bytes) (trailers : list field).

(** [dispatching], [h1DispatchClose], whether a long response is being written,
    and its [h1OutKeepAlive]. *)
Record h1Run := mkRun { dispatching : bool; h1DispatchClose : bool; r_outBusy : bool; h1OutKeepAlive : bool }.
Record h1Ends := mkEnds { e_closeAfter : bool; e_lingering : bool; e_closed : bool; e_detached : bool; e_inputEOF : bool }.
(** A record of the connection's life: the responses, the whole input, its
    pieces, and of a streamed body that is not complete the bytes consumed and
    those pushed to the reader. *)
Record h1Log := mkLog { l_out : list h1Out; l_received : bytes; l_pieces : list h1Piece; l_taken : bytes; l_pushed : bytes }.

Record h1conn := mkH1Conn {
  c_unread : bytes;
  c_chunkScanPos : Z;
  c_run : h1Run;
  c_continueSent : bool;
  c_accounted : Z;
  c_in : option h1BodyIn;
  c_ends : h1Ends;
  c_tick : nat;
  c_log : h1Log }.

Definition idleRun : h1Run := mkRun false false false false.
Definition newH1Conn : h1conn := mkH1Conn [] 0 idleRun false 0 None (mkEnds false false false false false) 0 (mkLog [] [] [] [] []).

Definition set_unread (c : h1conn) u := mkH1Conn u (c_chunkScanPos c) (c_run c) (c_continueSent c) (c_accounted c) (c_in c) (c_ends c) (c_tick c) (c_log c).
Definition set_scan (c : h1conn) p := mkH1Conn (c_unread c) p (c_run c) (c_continueSent c) (c_accounted c) (c_in c) (c_ends c) (c_tick c) (c_log c).
Definition set_run (c : h1conn) r := mkH1Conn (c_unread c) (c_chunkScanPos c) r (c_continueSent c) (c_accounted c) (c_in c) (c_ends c) (c_tick c) (c_log c).
Definition set_continue (c : h1conn) b := mkH1Conn (c_unread c) (c_chunkScanPos c) (c_run c) b (c_accounted c) (c_in c) (c_ends c) (c_tick c) (c_log c).
Definition set_accounted (c : h1conn) n := mkH1Conn (c_unread c) (c_chunkScanPos c) (c_run c) (c_continueSent c) n (c_in c) (c_ends c) (c_tick c) (c_log c).
Definition set_in (c : h1conn) i := mkH1Conn (c_unread c) (c_chunkScanPos c) (c_run c) (c_continueSent c) (c_accounted c) i (c_ends c) (c_tick c) (c_log c).
Definition set_ends (c : h1conn) e := mkH1Conn (c_unread c) (c_chunkScanPos c) (c_run c) (c_continueSent c) (c_accounted c) (c_in c) e (c_tick c) (c_log c).
Definition set_log (c : h1conn) l := mkH1Conn (c_unread c) (c_chunkScanPos c) (c_run c) (c_continueSent c) (c_accounted c) (c_in c) (c_ends c) (c_tick c) l.
Definition tick (c : h1conn) := mkH1Conn (c_unread c) (c_chunkScanPos c) (c_run c) (c_continueSent c) (c_accounted c) (c_in c) (c_ends c) (S (c_tick c)) (c_log c).

Definition put (c : h1conn) (o : h1Out) : h1conn := let l := c_log c in set_log c (mkLog (l_out l ++ [o]) (l_received l) (l_pieces l) (l_taken l) (l_pushed l)).
Definition receive (c : h1conn) (p : bytes) : h1conn := let l := c_log c in set_log (set_unread c (c_unread c ++ p)) (mkLog (l_out l) (l_received l ++ p) (l_pieces l) (l_taken l) (l_pushed l)).
Definition piece (c : h1conn) (p : h1Piece) : h1conn := let l := c_log c in set_log c (mkLog (l_out l) (l_received l) (l_pieces l ++ [p]) (l_taken l) (l_pushed l)).
Definition bodyTaken (c : h1conn) (taken pushed : bytes) : h1conn := let l := c_log c in set_log c (mkLog (l_out l) (l_received l) (l_pieces l) taken pushed).

Definition set_closeAfter (c : h1conn) : h1conn := let e := c_ends c in set_ends c (mkEnds true (e_lingering e) (e_closed e) (e_detached e) (e_inputEOF e)).
Definition set_inputEOF (c : h1conn) : h1conn := let e := c_ends c in set_ends c (mkEnds (e_closeAfter e) (e_lingering e) (e_closed e) (e_detached e) true).

(** [h1Unread] is [c_unread]; the bytes before it are [h1Off]. *)
Definition h1Advance (c : h1conn) (n : Z) : h1conn := set_unread c (zdrop n (c_unread c)).

Definition freshResponse : Response := resp_Reset (mkResponse 0 [] [] [] false [] [] None).
Definition h1Reject (c : h1conn) (status : Z) (msg : bytes) : h1conn := put c (OutResponse (resp_String (Status freshResponse status) msg) false).
Definition h1ServiceUnavailable (c : h1conn) (keepAlive : bool) : h1conn := put c (OutResponse (resp_String (Status freshResponse 503) (str "Service Unavailable")) keepAlive).

Definition h1BodyStreamCap : Z := 256 * 1024.
Definition h1NoContentLength : Z := -1.
Definition chunkedFramingSlack : Z := 2 ^ 16.
Definition h1DirectBodyMin : Z := 16 * 1024.

Inductive h1Step := h1StepNeedInput | h1StepDispatched | h1StepClose.

Section Conn.

Context (e : h1Env).

Definition headOf (data : bytes) : option (h1Head * h1Request) := parseH1RequestHead (x_hasAVX2 e) (x_firstSpecial e) (x_headerLine e) data emptyRequest (x_maxHeaderSize e) (x_maxHeaderCount e).
(** [matchPlainRootFastRequest] of a server with a memoised response; its count
    of fields is the one the parser uses. *)
Definition rootFastOf (data : bytes) : option (option (Z * bool)) :=
  matchPlainRootFastRequest (x_hasAVX2 e) (x_headerLine e) (x_indexCRLF4 e) (x_blockIndex e) data (x_maxHeaderSize e) (if x_maxHeaderCount e <=? 0 then defaultMaxHeaderCount else x_maxHeaderCount e).
Definition chunkNext : chunkedDecoder -> bytes -> res chunkErr (Z * bytes) * chunkedDecoder := next (x_hasAVX2 e) (x_headerLine e).

(** ** Bodies *)

Definition h1_bodyTooLarge (n : Z) : bool := (0 <? x_maxBodySize e) && (x_maxBodySize e <? n).

Definition reserveH1BodyBudget (c : h1conn) (received : Z) : bool * h1conn :=
  if received <=? c_accounted c then (true, c)
  else if (tryReserveBodyBytes (x_budget e) (x_otherBodies e (c_tick c) + c_accounted c) (received - c_accounted c)).1 then (true, set_accounted c received)
  else (false, c).
Definition releaseH1BodyBudget (c : h1conn) : h1conn := if c_accounted c <=? 0 then c else set_accounted c 0.

Definition streamsH1Body (chunked hasContentLength : bool) (contentLength : Z) : bool :=
  if (x_streamBodyAbove e <=? 0) || x_inlineHandlers e then false
  else chunked || (hasContentLength && (x_streamBodyAbove e <? contentLength)).

Definition h1Continue (c : h1conn) (q : h1Request) : h1conn :=
  match q_expect q with
  | h1ExpectContinue => if c_continueSent c then c else put (set_continue c true) OutContinue
  | _ => c
  end.

Definition buffered (b : BodyReader) : Z := zlen (b_buf b).
Definition h1BodyStreaming (c : h1conn) : bool := match c_in c with Some i => negb (in_done i) | None => false end.
Definition h1BodyWantsInput (c : h1conn) : bool := match c_in c with Some i => negb (in_done i) && (buffered (in_reader i) <? h1BodyStreamCap) | None => false end.

(** [in.end]; a body that is complete is a piece of the input. *)
Definition in_end (c : h1conn) (i : h1BodyIn) (err : option bodyErr) : h1conn :=
  match err with
  | Some err => set_in c (Some (mkH1BodyIn (body_finish (in_reader i) (Some err)) (in_left i) (in_chunk i) true true))
  | None =>
      let c := set_in c (Some (mkH1BodyIn (body_finishWithTrailers (in_reader i) (cd_trailers (in_chunk i))) (in_left i) (in_chunk i) true false)) in
      bodyTaken (piece c (PcBody (l_pushed (c_log c)) (cd_trailers (in_chunk i)))) [] []
  end.

(** Bytes consumed from the input, and what of them is pushed to the reader. *)
Definition in_take (c : h1conn) (n : Z) (data : bytes) : h1conn :=
  h1Advance (bodyTaken c (l_taken (c_log c) ++ ztake n (c_unread c)) (l_pushed (c_log c) ++ data)) n.

(** The loop of [h1FeedBody]; every turn but the last consumes a byte. *)
Fixpoint feedLoop (fuel : nat) (c : h1conn) (i : h1BodyIn) : option h1conn :=
  if in_done i then Some c
  else
    let data := c_unread c in
    let room := h1BodyStreamCap - buffered (in_reader i) in
    if (zlen data =? 0) || (room <=? 0) then Some c
    else match fuel with
    | O => None
    | S fuel =>
        if negb (in_left i =? h1NoContentLength) then
          let n := Z.min (Z.min (zlen data) room) (in_left i) in
          let i := mkH1BodyIn (body_push (in_reader i) (ztake n data)) (in_left i - n) (in_chunk i) false (in_broken i) in
          let c := set_in (in_take c n (ztake n data)) (Some i) in
          if in_left i =? 0 then Some (in_end c i None) else feedLoop fuel c i
        else
          let src := if bool_decide (cd_state (in_chunk i) = chunkedInData) then ztake (Z.min (zlen data) room) data else data in
          match chunkNext (in_chunk i) src with
          | (Err _, d) => Some (in_end c (mkH1BodyIn (in_reader i) (in_left i) d false (in_broken i)) (Some errChunked))
          | (Ok (consumed, chunk), d) =>
              let i := mkH1BodyIn (in_reader i) (in_left i) d false (in_broken i) in
              if consumed =? 0 then Some (set_in c (Some i))
              else if (0 <? zlen chunk) && h1_bodyTooLarge (b_received (in_reader i) + zlen chunk) then Some (in_end c i (Some errTooLarge))
              else
                let i := if 0 <? zlen chunk then mkH1BodyIn (body_push (in_reader i) chunk) (in_left i) d false (in_broken i) else i in
                let c := set_in (in_take c consumed chunk) (Some i) in
                if done d then Some (in_end c i None) else feedLoop fuel c i
          end
    end.
Definition h1FeedBody (c : h1conn) : option h1conn := match c_in c with Some i => feedLoop (length (c_unread c)) c i | None => Some c end.

Definition newReader : BodyReader := mkReader [] false None false 0 false 0 [].
Definition startH1BodyStream (c : h1conn) (q : h1Request) (chunked : bool) (contentLength : Z) : option h1conn :=
  let i := mkH1BodyIn newReader (if chunked then h1NoContentLength else contentLength) (newChunkedDecoder true) false false in
  let c := bodyTaken (set_in c (Some i)) [] [] in
  h1FeedBody (match q_expect q with h1ExpectContinue => put c OutContinue | _ => c end).

(** The body is given up when the handler returns before its end. *)
Definition h1EndBodyStream (c : h1conn) : bool * h1conn :=
  match c_in c with
  | None => (false, c)
  | Some i => (if in_done i then in_broken i else true, set_in c None)
  end.

(** ** Requests *)

(** What a request that is not streamed needs before it is handed over. *)
Inductive h1BodyStep :=
| BodyReady (body : bytes) (trailers : list field) (consumed : Z)
| BodyWait
| BodyReject (status : Z) (msg : bytes).

(** The chunked branch of [serveH1]. *)
Definition collectChunked (c : h1conn) (data : bytes) (h : h1Head) : option (h1BodyStep * h1conn) :=
  let headerEnd := headerEnd h in
  let scanFrom := if (headerEnd <? c_chunkScanPos c) && (c_chunkScanPos c <=? zlen data) then c_chunkScanPos c else headerEnd in
  match asyncChunkedComplete (x_hasAVX2 e) (x_headerLine e) data scanFrom with
  | None => None
  | Some (bodyEnd, status, resume) =>
      if status =? -1 then Some (BodyReject 400 (str "Bad Request"), set_scan c 0)
      else
        let received := if status =? 0 then zlen data - headerEnd else bodyEnd - headerEnd in
        let '(ok, c) := reserveH1BodyBudget c received in
        if negb ok then Some (BodyReject 503 (str "Request Body Capacity Exhausted"), c)
        else if status =? 0 then
          let c := set_scan c resume in
          if h1_bodyTooLarge (zlen data - headerEnd - chunkedFramingSlack) then Some (BodyReject 413 (str "Payload Too Large"), c)
          else Some (BodyWait, c)
        else
          let c := set_scan c 0 in
          match decodeChunkedInto (x_hasAVX2 e) (x_headerLine e) [] (zslice data headerEnd bodyEnd) with
          | None => None
          | Some None => Some (BodyReject 400 (str "Bad Request"), c)
          | Some (Some (decoded, trailers)) =>
              if h1_bodyTooLarge (zlen decoded) then Some (BodyReject 413 (str "Payload Too Large"), c)
              else Some (BodyReady decoded trailers bodyEnd, c)
          end
  end.

(** The branches on Content-Length. *)
Definition collectLength (c : h1conn) (data : bytes) (h : h1Head) (streamBody : bool) : h1BodyStep * h1conn :=
  if contentLength h <? 0 then (BodyReject 400 (str "Bad Request"), c)
  else if h1_bodyTooLarge (contentLength h) then (BodyReject 413 (str "Payload Too Large"), c)
  else if streamBody then (BodyReady [] [] (headerEnd h), c)
  else
    let bodyEnd := i64 (headerEnd h + contentLength h) in
    if bodyEnd <? headerEnd h then (BodyReject 400 (str "Bad Request"), c)
    else if x_maxRead e <? bodyEnd then (BodyReject 413 (str "Payload Too Large"), c)
    else
      let '(ok, c) := reserveH1BodyBudget c (Z.min (zlen data) bodyEnd - headerEnd h) in
      if negb ok then (BodyReject 503 (str "Request Body Capacity Exhausted"), c)
      else if zlen data <? bodyEnd then (BodyWait, c)
      else (BodyReady (zslice data (headerEnd h) bodyEnd) [] bodyEnd, c).

(** A head excludes both framings at once. *)
Definition collectBody (c : h1conn) (data : bytes) (h : h1Head) (streamBody : bool) : option (h1BodyStep * h1conn) :=
  if chunkedEncoding h && negb streamBody then collectChunked c data h
  else if hasContentLength h then Some (collectLength c data h streamBody)
  else Some (BodyReady [] [] (headerEnd h), c).

(** From the end of a collected request to its handler. The refusal of a client
    with too many connections is not reached, since [acquireIPConn] always returns
    true; a request for a reverse proxy is not handed to a handler and is left
    out. *)
Definition h1HandOver (c : h1conn) (h : h1Head) (q : h1Request) (closing streamBody : bool) (body : bytes) (trailers : list field) (consumed : Z) : option (h1conn * h1Step) :=
  if x_misdirects e q then Some (h1Reject c 421 (str "Misdirected Request"), h1StepClose)
  else
    let c := piece c (PcRequest (mkHanded q body trailers streamBody)) in
    let c := set_run (set_continue (h1Advance c consumed) false) (mkRun true closing false false) in
    match (if streamBody then startH1BodyStream c q (chunkedEncoding h) (contentLength h) else Some c) with
    | None => None
    | Some c => Some (c, h1StepDispatched)
    end.

(** A request head at the start of [data]. *)
Definition h1Request_turn (c : h1conn) (data : bytes) : option (h1conn * h1Step) :=
  match headOf data with
  | None => None
  | Some (h, q) =>
      if tooLarge h then Some (h1Reject c 431 (str "Request Header Fields Too Large"), h1StepClose)
      else if negb (head_ok h) then Some (c, h1StepNeedInput)
      else
        let closing := closeConn h || x_shuttingDown e (c_tick c) in
        match reject h with
        | h1RejectNone =>
            match q_expect q with
            | h1ExpectUnknown => Some (h1Reject c 417 (str "Expectation Failed"), h1StepClose)
            | _ =>
                let streamBody := streamsH1Body (chunkedEncoding h) (hasContentLength h) (contentLength h) in
                match collectBody c data h streamBody with
                | None => None
                | Some (BodyReject status msg, c) => Some (h1Reject c status msg, h1StepClose)
                | Some (BodyWait, c) => Some (h1Continue c q, h1StepNeedInput)
                | Some (BodyReady body trailers consumed, c) => h1HandOver c h q closing streamBody body trailers consumed
                end
            end
        | _ => Some (h1Reject c 400 (str "Bad Request"), h1StepClose)
        end
  end.

(** The short cut, when it applies and the server is not shutting down. *)
Definition rootMatch (c : h1conn) (data : bytes) : option (option (Z * bool)) :=
  if x_rootFast e (c_tick c) then
    match rootFastOf data with
    | None => None
    | Some None => Some None
    | Some (Some r) => Some (if x_shuttingDown e (c_tick c) then None else Some r)
    end
  else Some None.

(** [for len(c.h1Unread()) > 0] of [serveH1]; every turn that goes on consumes. *)
Fixpoint h1ServeLoop (fuel : nat) (c : h1conn) : option (h1conn * h1Step) :=
  let data := c_unread c in
  if zlen data =? 0 then Some (c, h1StepNeedInput)
  else match fuel with
  | O => None
  | S fuel =>
      let c := tick c in
      if x_maxPendingWrite e <? x_pendingWrite e (c_tick c) then Some (c, h1StepClose)
      else if (2 <=? zlen data) && (znth data 0 =? CR) && (znth data 1 =? LF) then h1ServeLoop fuel (h1Advance (piece c PcBlank) 2)
      else
        match rootMatch c data with
        | None => None
        | Some (Some (consumed, closing)) =>
            let c := if x_requestSlot e (c_tick c) then put c (OutMemo (negb closing)) else h1ServiceUnavailable c (negb closing) in
            let c := h1Advance (piece c PcRoot) consumed in
            if closing then Some (c, h1StepClose) else h1ServeLoop fuel c
        | Some None => h1Request_turn c data
        end
  end.
Definition serveH1 (c : h1conn) : option (h1conn * h1Step) :=
  match h1FeedBody c with
  | None => None
  | Some c => if dispatching (c_run c) then Some (c, h1StepDispatched) else h1ServeLoop (length (c_unread c)) c
  end.

(** ** The socket *)

Definition closeH1Conn (c : h1conn) : h1conn :=
  let c := releaseH1BodyBudget c in
  mkH1Conn [] 0 idleRun false (c_accounted c) None (mkEnds false false true (e_detached (c_ends c)) false) (c_tick c) (c_log c).

(** Lingering waits for the peer to close and drops what it sends. *)
Definition closeAfterResponse (c : h1conn) : h1conn :=
  if negb (dispatching (c_run c)) && x_lingers e (c_tick c) then
    let n := c_ends c in tick (set_ends c (mkEnds (e_closeAfter n) true (e_closed n) (e_detached n) (e_inputEOF n)))
  else closeH1Conn (tick c).

Definition flush (c : h1conn) : bool * h1conn :=
  if e_lingering (c_ends c) then (false, c)
  else
    match x_flush e (c_tick c) with
    | FlushFailed => (false, closeH1Conn (tick c))
    | FlushBlocked => (true, tick c)
    | FlushDrained => if e_closeAfter (c_ends c) then (false, closeAfterResponse (tick c)) else (true, tick c)
    end.
(** Whether all output is with the socket. *)
Definition settled (c : h1conn) : bool := match x_flush e (c_tick c) with FlushDrained => true | _ => false end.

Definition serviceBuffered (c : h1conn) (closed peerClosed : bool) : option h1conn :=
  let served :=
    if (0 <? zlen (c_unread c)) || x_held e (c_tick c) then
      match serveH1 c with
      | None => None
      | Some (c, step) =>
          let c := match step with h1StepClose => set_closeAfter c | _ => c end in
          Some (if dispatching (c_run c) && negb (e_closeAfter (c_ends c)) then (true, c) else flush c)
      end
    else Some (if negb (dispatching (c_run c)) && (0 <? x_pendingWrite e (c_tick c)) then flush c else (true, c)) in
  match served with
  | None => None
  | Some (false, c) => Some c
  | Some (true, c) =>
      if closed then Some (closeH1Conn c)
      else if dispatching (c_run c) then Some c
      else if peerClosed || e_inputEOF (c_ends c) then Some (if settled c then closeH1Conn (tick c) else set_closeAfter (tick c))
      else Some c
  end.

(** A streamed body whose peer has closed ends the connection. *)
Definition abortStarvedBody (c : h1conn) : h1conn :=
  if negb (e_closed (c_ends c)) && e_inputEOF (c_ends c) && h1BodyStreaming c && (zlen (c_unread c) =? 0) then closeH1Conn c else c.

(** [readOnce] when the socket gives [p]; [full] says that the buffer cannot
    grow, and then a connection that makes no progress is closed. *)
Definition readOnce (c : h1conn) (p : bytes) (full peerClosed : bool) : option h1conn :=
  if e_lingering (c_ends c) then Some c
  else if dispatching (c_run c) && negb (h1BodyWantsInput c) then Some c
  else
    let c := receive c p in
    let fullAt := zlen (c_unread c) in
    match serviceBuffered c false peerClosed with
    | None => None
    | Some c =>
        let c := abortStarvedBody c in
        if negb full || e_closed (c_ends c) || e_lingering (c_ends c) || dispatching (c_run c) then Some c
        else if zlen (c_unread c) <? fullAt then Some c
        else Some (closeH1Conn c)
    end.
(** [readOnce] at the end of the peer's input. *)
Definition readEOF (c : h1conn) : option h1conn :=
  if e_lingering (c_ends c) then Some (closeH1Conn c)
  else if dispatching (c_run c) && negb (h1BodyWantsInput c) then Some c
  else if h1BodyStreaming c then abortStarvedBody <$> serviceBuffered (set_inputEOF c) false false
  else serviceBuffered c true false.

(** ** Handlers *)

(** What a handler leaves: a buffered response; a streamed one whose head is
    written, and whether its framing and headers allow keep-alive; a stream that
    cannot be used; the connection itself. *)
Inductive h1Outcome :=
| DResponse (r : Response)
| DStreamed (keepOk : bool)
| DUnavailable
| DTakenOver.

Definition h1LargeBody (r : Response) : bool := h1DirectBodyMin <=? transmittedBodyLen r.

Definition finishH1Dispatch (c : h1conn) (o : h1Outcome) : option h1conn :=
  let '(mustClose, c) := h1EndBodyStream c in
  let reqClose := h1DispatchClose (c_run c) || mustClose || x_shuttingDown e (c_tick c) in
  let c := tick (releaseH1BodyBudget c) in
  match o with
  | DTakenOver => let n := c_ends c in Some (set_ends (set_run c idleRun) (mkEnds (e_closeAfter n) (e_lingering n) (e_closed n) true (e_inputEOF n)))
  | DStreamed keepOk =>
      let keepAlive := negb reqClose && negb (h1DispatchClose (c_run c)) && keepOk in
      Some (set_run (put c (OutStreamed keepAlive)) (mkRun true (h1DispatchClose (c_run c)) true keepAlive))
  | DUnavailable => Some (set_closeAfter (set_run (put c (OutResponse (resp_String (Status freshResponse 500) (str "Streaming/Hijack unavailable")) false)) idleRun))
  | DResponse r =>
      let c := put c (OutResponse r (negb reqClose)) in
      if h1LargeBody r then Some (set_run c (mkRun true (h1DispatchClose (c_run c)) true (negb reqClose)))
      else
        let c := set_run c idleRun in
        if reqClose then Some (set_closeAfter c) else serviceBuffered c false false
  end.

(** The long response is written: [h1FinishOut] and what [flushPending] does after. *)
Definition h1FinishOut (c : h1conn) : option h1conn :=
  let keepAlive := h1OutKeepAlive (c_run c) in
  let c := set_run c idleRun in
  let c := if keepAlive then c else set_closeAfter c in
  let '(open, c) := flush c in
  if negb open then Some c else if keepAlive then serviceBuffered c false false else Some c.

Definition h1BodyAcked (c : h1conn) (i : h1BodyIn) : option h1conn :=
  let c := set_in c (Some (mkH1BodyIn (body_takeAck (in_reader i)).2 (in_left i) (in_chunk i) (in_done i) (in_broken i))) in
  match h1FeedBody c with
  | None => None
  | Some c =>
      let c := abortStarvedBody c in
      if e_closed (c_ends c) || negb (h1BodyWantsInput c) then Some c else serviceBuffered c false false
  end.

(** ** Events *)

Inductive h1Event :=
| EvBytes (p : bytes) (full peerClosed : bool)
| EvEOF
| EvDone (o : h1Outcome)
| EvOutDone
| EvRead (n : Z)
| EvCloseBody
| EvAck
| EvFlush
| EvTimeout.

Definition onReader (c : h1conn) (g : BodyReader -> BodyReader) : h1conn :=
  match c_in c with Some i => set_in c (Some (mkH1BodyIn (g (in_reader i)) (in_left i) (in_chunk i) (in_done i) (in_broken i))) | None => c end.

(** One event. A handler's result comes while it runs, the end of a long
    response while one is written. *)
Definition h1Event_step (c : h1conn) (ev : h1Event) : option h1conn :=
  if e_closed (c_ends c) || e_detached (c_ends c) then Some c
  else match ev with
  | EvBytes p full peerClosed => readOnce c p full peerClosed
  | EvEOF => readEOF c
  | EvDone o => if dispatching (c_run c) && negb (r_outBusy (c_run c)) then finishH1Dispatch c o else Some c
  | EvOutDone => if dispatching (c_run c) && r_outBusy (c_run c) then h1FinishOut c else Some c
  | EvRead n => Some (onReader c (fun b => (body_Read b n).2))
  | EvCloseBody => Some (onReader c (fun b => (body_Close b).2))
  | EvAck => match c_in c with Some i => h1BodyAcked c i | None => Some c end
  | EvFlush => Some (flush c).2
  | EvTimeout => Some (closeH1Conn c)
  end.

Fixpoint h1Run_events (c : h1conn) (evs : list h1Event) : option h1conn :=
  match evs with
  | [] => Some c
  | ev :: evs => match h1Event_step c ev with None => None | Some c => h1Run_events c evs end
  end.

End Conn.
