(* ===== verification/H1ConnFraming.v ===== *)
(** The framing of an HTTP/1 connection's input: which requests and bodies a
    string of bytes is, defined on the whole string and without limits on bodies.
    It is unique, and more bytes only extend it. *)
From stdpp Require Import base list numbers strings.
From Stdlib Require Import ZArith Lia ZifyBool.
From S2P Require Import Prelude Utils BodyBudget H1Scan HttpText HpackDyn Chunked ChunkedProofs ChunkedRoundtrip H2Conn H1Head H1HeadProofs H1Root H1RootProofs H1RootIndex H1Resp H1Conn.

Open Scope list_scope.
Open Scope Z_scope.

(** ** Runs of the chunked decoder *)

Lemma ztake_add_app {A} n k (a b : list A) : zlen a = n -> 0 <= k -> ztake (n + k) (a ++ b) = a ++ ztake k b.
Proof. intros <- Hk. unfold ztake, zlen. rewrite take_app_ge by lia. do 2 f_equal. lia. Qed.
Lemma zdrop_add_app {A} n k (a b : list A) : zlen a = n -> 0 <= k -> zdrop (n + k) (a ++ b) = zdrop k b.
Proof. intros <- Hk. unfold zdrop, zlen. rewrite drop_app_ge by lia. f_equal. lia. Qed.

Section Runs.

Context (hasAVX2 : bool) (avx2 : bytes -> Z * Z).
Local Abbreviation next := (Chunked.next hasAVX2 avx2).
Local Abbreviation chunkRun := (ChunkedRoundtrip.chunkRun hasAVX2 avx2).

Lemma run_det d src d1 data1 rest1 : chunkRun d src d1 data1 rest1 -> done d1 = true -> forall d2 data2 rest2, chunkRun d src d2 data2 rest2 -> done d2 = true -> d1 = d2 /\ data1 = data2 /\ rest1 = rest2.
Proof.
  induction 1 as [d src | d src n data d1 d' more rest Hd E Hn _ IH]; intros H1 d2 data2 rest2 H2 Hdone; inversion H2; subst; try congruence; [done |].
  match goal with H : next d src = _ |- _ => rewrite E in H; injection H as -> -> -> end.
  match goal with H : chunkRun _ _ d2 _ _ |- _ => destruct (IH H1 _ _ _ H Hdone) as (-> & -> & ->) end. done.
Qed.

Lemma run_inv d src d' data rest : chunkRun d src d' data rest -> decoder_inv d -> decoder_inv d'.
Proof. induction 1 as [| d src n data d1 d' more rest Hd E Hn _ IH]; [done |]. intros Hi. apply IH. by destruct (next_range _ _ _ _ _ _ _ Hi E) as (_ & ? & _). Qed.

Lemma run_extend d src d' data rest more : chunkRun d src d' data rest -> decoder_inv d -> done d' = true -> chunkRun d (src ++ more) d' data (rest ++ more).
Proof.
  induction 1 as [d src | d src n data d1 d' data' rest Hd E Hn Hrun IH]; intros Hi Hdone; [apply run_stop |].
  destruct (next_range _ _ _ _ _ _ _ Hi E) as (Hr & Hi1 & _). assert (Hnp : ~ partial d d1).
  { intros [P1 P2]. unfold Chunked.next in E. rewrite P1 in E. injection E as En _ Ed. subst d1. cbn [set_state cd_state] in P2. destruct (cd_left d - n =? 0) eqn:El; [by destruct (_ =? 0) eqn:E2 in P2; [| subst n; rewrite El in E2] |].
    inversion Hrun; subst; [unfold done in Hdone; rewrite bool_decide_eq_true in Hdone; cbn in Hdone; by destruct (_ =? 0) |].
    match goal with H : Chunked.next _ _ _ (zdrop _ _) = _ |- _ => unfold Chunked.next in H; cbn [set_state cd_state cd_left] in H; replace (cd_left d - Z.min (zlen src) (cd_left d) =? 0) with false in H by lia; cbn [set_state cd_state cd_left] in H; injection H as <- _ _ end.
    match goal with H : Z.min (zlen (zdrop _ _)) _ <> 0 |- _ => apply H end. pose proof (zlen_nonneg src). rewrite (zdrop_all (Z.min (zlen src) (cd_left d))) by lia. change (zlen (@nil Z)) with 0. lia. }
  eapply run_step; [done | by eapply next_app | done |]. rewrite zdrop_app_le by lia. by apply IH.
Qed.

(** Data taken in smaller portions. *)
Lemma run_portion d src m n data d1 more d2 data2 rest : decoder_inv d -> done d = false -> next d (ztake m src) = (Ok (n, data), d1) -> 0 <= m -> n <> 0 -> cd_state d = chunkedInData \/ ztake m src = src ->
  chunkRun d1 more d2 data2 rest -> done d2 = true -> chunkRun d (ztake n src ++ more) d2 (data ++ data2) rest.
Proof.
  intros Hi Hd E Hm Hn Hst Hrun Hdone. destruct (next_range _ _ _ _ _ _ _ Hi E) as (Hr & Hi1 & _). assert (Ht : ztake n (ztake m src) = ztake n src).
  { destruct Hst as [_ | ->]; [| done]. apply ztake_ztake. pose proof (zlen_nonneg (ztake m src)). unfold ztake, zlen in Hr. rewrite length_take in Hr. lia. }
  assert (E' : next d (ztake n src) = (Ok (n, data), d1)) by (rewrite <- Ht; apply (next_take _ _ _ _ _ _ _ _ E); lia). assert (Hl : zlen (ztake n src) = n) by (rewrite <- Ht; apply zlen_take; lia).
  destruct (decide (partial d d1)) as [[P1 P2] | Hp].
  - unfold Chunked.next in E'. rewrite P1, Hl in E'. injection E' as En Edata Ed. inversion Hrun as [| ? ? n1 data1 d3 ? more3 ? H3 H4 H5 H6]; subst d2; [unfold done in Hdone; rewrite bool_decide_eq_true in Hdone; congruence |]. subst.
    unfold Chunked.next in H4. rewrite P2 in H4. unfold decoder_inv in Hi. rewrite P1 in Hi. pose proof (zlen_nonneg more).
    assert (Hle : n <= cd_left d) by lia. replace (Z.min n (cd_left d)) with n in * by lia. injection H4 as <- <- <-. assert (Et : ztake n (ztake n src) = ztake n src) by (apply ztake_ge; lia). rewrite Et. clear Et Ht E. cbn [set_state cd_left cd_state] in *. set (a := ztake n src) in *.
    rewrite app_assoc. eapply (run_step _ _ _ _ (n + Z.min (zlen more) (cd_left d - n))); [done | | lia |].
    + unfold Chunked.next. rewrite P1, zlen_app, Hl. replace (Z.min (n + zlen more) (cd_left d)) with (n + Z.min (zlen more) (cd_left d - n)) by lia. rewrite ztake_add_app by lia. reflexivity.
    + rewrite zdrop_add_app by lia. cbn [set_state cd_left cd_state] in *. replace (cd_left d - (n + Z.min (zlen more) (cd_left d - n))) with (cd_left d - n - Z.min (zlen more) (cd_left d - n)) by lia. exact H6.
  - eapply run_step; [done | by eapply next_app | done |]. replace (zdrop n (ztake n src ++ more)) with more; [done |]. rewrite <- Hl at 1. by rewrite zdrop_app_exact.
Qed.

Lemma loop_run fuel : forall d dst src out ts, decodeChunkedLoop hasAVX2 avx2 fuel d dst src = Some (Some (out, ts)) ->
  exists d' data rest, chunkRun d src d' data rest /\ done d' = true /\ out = dst ++ data /\ ts = cd_trailers d'.
Proof.
  induction fuel as [| fuel IH]; intros d dst src out ts; cbn [decodeChunkedLoop]; (destruct (done d) eqn:Hd; [intros [= <- <-]; exists d, [], src; split; [apply run_stop |]; by rewrite app_nil_r |]); [done |].
  destruct (next d src) as [[[n data] | er] d1] eqn:E; [| done]. destruct (n =? 0) eqn:En; [done |]. intros H. destruct (IH _ _ _ _ _ H) as (d' & data' & rest & H1 & H2 & -> & ->). exists d', (data ++ data'), rest. split; [eapply run_step; [done | done | lia | done] |]. by rewrite app_assoc.
Qed.

Lemma scan_run fuel : forall d d2 buf pos cs e rs, asyncLoop hasAVX2 avx2 fuel d buf pos cs = Some (e, 1, rs) -> decoder_inv d -> same_framing d d2 -> done d = false -> 0 <= pos <= zlen buf ->
  exists d' data, chunkRun d2 (zdrop pos buf) d' data (zdrop e buf) /\ done d' = true.
Proof.
  induction fuel as [| fuel IH]; intros d d2 buf pos cs e rs E Hi Hs Hd Hp; [done |]. cbn [asyncLoop] in E. destruct (next d (zdrop pos buf)) as [[[n data] | er] d1] eqn:En; [| done]. destruct (n =? 0) eqn:E0; [done |].
  destruct (next_range _ _ _ _ _ _ _ Hi En) as (Hr & Hi1 & _). rewrite zlen_drop in Hr by lia. destruct (next_capture _ _ _ _ _ _ _ _ Hs En) as (d2' & En2 & Hs'). assert (Hd2 : done d2 = false) by (destruct Hs as (E1 & _ & _); unfold done in *; by rewrite <- E1).
  assert (Ez : zdrop n (zdrop pos buf) = zdrop (pos + n) buf) by (apply zdrop_zdrop; lia). destruct (done d1) eqn:Ed1.
  - injection E as <- <-. exists d2', (data ++ []). split; [eapply run_step; [done | done | lia |]; rewrite Ez; apply run_stop |]. destruct Hs' as (E1 & _ & _). unfold done in *. by rewrite <- E1.
  - destruct (IH _ d2' _ _ _ _ _ E Hi1 Hs' Ed1 ltac:(lia)) as (d' & data' & H1 & H2). exists d', (data ++ data'). split; [| done]. eapply run_step; [done | done | lia |]. by rewrite Ez.
Qed.

(** A body the scan finds complete, and its decoded form. *)
Lemma complete_run buf pos e rs body ts : 0 <= pos <= zlen buf -> asyncChunkedComplete hasAVX2 avx2 buf pos = Some (e, 1, rs) -> decodeChunkedInto hasAVX2 avx2 [] (zslice buf pos e) = Some (Some (body, ts)) ->
  exists d, chunkRun (newChunkedDecoder true) (zdrop pos buf) d body (zdrop e buf) /\ done d = true /\ ts = cd_trailers d.
Proof.
  intros Hp Ha Hd. pose proof (asyncLoop_end _ _ _ _ _ _ _ _ _ Ha ltac:(done) Hp) as He. destruct (scan_run _ _ (newChunkedDecoder true) _ _ _ _ _ Ha ltac:(done) ltac:(done) ltac:(done) Hp) as (d' & data & H1 & H2).
  destruct (loop_run _ _ _ _ _ _ Hd) as (d2 & data2 & rest & H3 & H4 & -> & ->). apply (run_extend _ _ _ _ _ (zdrop e buf)) in H3; [| done | done]. cbn [app]. assert (Es : zslice buf pos e ++ zdrop e buf = zdrop pos buf).
  { unfold zslice. rewrite <- (ztake_zdrop (e - pos) (zdrop pos buf)) at 2. rewrite zdrop_zdrop by lia. do 2 f_equal. lia. }
  rewrite Es in H3. destruct (run_det _ _ _ _ _ H3 H4 _ _ _ H1 H2) as (-> & -> & Er). exists d'. split; [| done]. rewrite Er in H3. exact H3.
Qed.

Lemma run_ok d src d' data rest : chunkRun d src d' data rest -> bytes_ok src -> bytes_ok rest.
Proof. induction 1 as [| d src n data d1 d' more rest Hd E Hn _ IH]; [done |]. intros H. apply IH. by apply Forall_drop. Qed.

End Runs.

(** ** The framing *)

(** What is assumed of the assembly routines: they compute what the portable
    scans do, and the block index what its reference does. *)
Class H1EnvOk (e : h1Env) : Prop := {
  env_first : forall p, bytes_ok p -> avx2ScanMinLen <= zlen p -> x_firstSpecial e p = firstH1SpecialSWAR p;
  env_line : forall p, bytes_ok p -> avx2ScanMinLen <= zlen p -> x_headerLine e p = h1HeaderLineSWAR p;
  env_crlf : forall b, bytes_ok b -> 4 <= zlen b -> x_indexCRLF4 e b = indexCRLFCRLFSwar b;
  env_index : forall block, bytes_ok block -> 2 <= zlen block <= h1BlockMaxBytes -> zdrop (zlen block - 2) block = [CR; LF] -> x_blockIndex e block = h1BlockIndexRef block }.

(** Between requests, or before the body of a request with the given head. *)
Inductive fmode := AtHead | AtBody (h : h1Head).
Inductive frame := FBlank | FHead (q : h1Request) | FBody (data : bytes) (trailers : list field).

Section Framing.

Context (e : h1Env) {Hok : H1EnvOk e}.

(** [data] starts with a body of the kind [h] announces. *)
Definition bodyFramed (h : h1Head) (data body : bytes) (trailers : list field) (rest : bytes) : Prop :=
  if chunkedEncoding h then exists d, chunkRun (x_hasAVX2 e) (x_headerLine e) (newChunkedDecoder true) data d body rest /\ done d = true /\ trailers = cd_trailers d
  else if hasContentLength h then 0 <= contentLength h <= zlen data /\ body = ztake (contentLength h) data /\ trailers = [] /\ rest = zdrop (contentLength h) data
  else body = [] /\ trailers = [] /\ rest = data.

Inductive frameStep : fmode -> bytes -> frame -> fmode -> bytes -> Prop :=
| fs_blank rest : frameStep AtHead (CR :: LF :: rest) FBlank AtHead rest
| fs_head data h q : headOf e data = Some (h, q) -> acceptedHead h -> frameStep AtHead data (FHead q) (AtBody h) (zdrop (headerEnd h) data)
| fs_body h data body trailers rest : bodyFramed h data body trailers rest -> frameStep (AtBody h) data (FBody body trailers) AtHead rest.

Inductive framing : fmode -> bytes -> list frame -> fmode -> bytes -> Prop :=
| fr_stop m data : framing m data [] m data
| fr_step m data f m1 data1 fs m2 rest : frameStep m data f m1 data1 -> framing m1 data1 fs m2 rest -> framing m data (f :: fs) m2 rest.

Lemma framing_snoc m data fs m1 data1 f m2 rest : framing m data fs m1 data1 -> frameStep m1 data1 f m2 rest -> framing m data (fs ++ [f]) m2 rest.
Proof. induction 1; intros Hs; cbn [app]; econstructor; eauto. apply fr_stop. Qed.

(** The head parser: it returns, an accepted head is within the data, a verdict
    stands. *)
Lemma headOf_total data : bytes_ok data -> exists h q, headOf e data = Some (h, q).
Proof. intros H. unfold headOf. apply (parse_total _ _ _ env_first env_line). exact H. Qed.

Lemma headOf_sound data h q : bytes_ok data -> headOf e data = Some (h, q) -> acceptedHead h -> headAccepted data (effectiveBytes (x_maxHeaderSize e)) (effectiveCount (x_maxHeaderCount e)) h q.
Proof. intros H Hp Ha. by apply (head_sound (x_hasAVX2 e) (x_firstSpecial e) (x_headerLine e) env_first env_line data emptyRequest). Qed.

Lemma headOf_end data h q : bytes_ok data -> headOf e data = Some (h, q) -> acceptedHead h -> 4 <= headerEnd h <= zlen data.
Proof.
  intros H Hp Ha. destruct (headOf_sound _ _ _ H Hp Ha) as [(method & target & http10 & lines & rest & E1 & -> & _) _ _ _ _ _ _ _]. apply (f_equal zlen) in E1. rewrite !zlen_app in E1. change (zlen [CR; LF]) with 2 in E1.
  pose proof (zlen_nonneg rest). pose proof (zlen_nonneg (method ++ SP :: target ++ SP :: (if http10 then str "HTTP/1.0" else str "HTTP/1.1"))). pose proof (zlen_nonneg (concat (map (fun l => l ++ [CR; LF]) lines))). rewrite !zlen_app in *. clear - E1 H0 H1 H2. lia.
Qed.

Lemma headOf_stable data more h q : bytes_ok (data ++ more) -> headOf e data = Some (h, q) -> head_ok h = true -> headOf e (data ++ more) = Some (h, q).
Proof.
  intros H Hp Ha. destruct (head_stable (x_hasAVX2 e) (x_firstSpecial e) (x_headerLine e) env_first env_line data more emptyRequest (x_maxHeaderSize e) (x_maxHeaderCount e) H) as (h1 & q1 & h2 & q2 & E1 & E2 & Hs & _).
  unfold headOf in *. rewrite Hp in E1. injection E1 as <- <-. destruct (Hs Ha) as [-> ->]. exact E2.
Qed.

Lemma headOf_blank rest h q : bytes_ok rest -> headOf e (CR :: LF :: rest) = Some (h, q) -> ~ acceptedHead h.
Proof.
  intros H Hp Ha. assert (Hb : bytes_ok (CR :: LF :: rest)) by (repeat (constructor; [unfold is_u8; vm_compute; by split |]); exact H).
  destruct (headOf_sound _ _ _ Hb Hp Ha) as [(method & target & http10 & lines & rest' & E1 & _ & Hm & _) _ _ _ _ _ _ _]. unfold isH1Token in Hm. destruct method as [| c method]; [done |]. cbn [app] in E1. injection E1 as <- _. done.
Qed.

Lemma frameStep_ok m data f m1 rest : frameStep m data f m1 rest -> bytes_ok data -> bytes_ok rest.
Proof.
  intros [r | d h q _ _ | h d body ts r Hb] H; [by do 2 apply Forall_inv_tail in H | by apply Forall_drop |]. unfold bodyFramed in Hb. destruct (chunkedEncoding h); [destruct Hb as (d' & Hr & _); by eapply run_ok |].
  destruct (hasContentLength h); [destruct Hb as (_ & _ & _ & ->); by apply Forall_drop | by destruct Hb as (_ & _ & ->)].
Qed.

Lemma bodyFramed_det h data body ts rest body' ts' rest' : bodyFramed h data body ts rest -> bodyFramed h data body' ts' rest' -> body = body' /\ ts = ts' /\ rest = rest'.
Proof.
  unfold bodyFramed. destruct (chunkedEncoding h); [| destruct (hasContentLength h); [intros (_ & -> & -> & ->) (_ & -> & -> & ->); done | intros (-> & -> & ->) (-> & -> & ->); done]].
  intros (d & H1 & H2 & ->) (d' & H3 & H4 & ->). by destruct (run_det _ _ _ _ _ _ _ H1 H2 _ _ _ H3 H4) as (-> & -> & ->).
Qed.

Lemma bodyFramed_extend h data body ts rest more : bodyFramed h data body ts rest -> bodyFramed h (data ++ more) body ts (rest ++ more).
Proof.
  unfold bodyFramed. destruct (chunkedEncoding h); [intros (d & H1 & H2 & ->); exists d; split; [by apply run_extend | done] |]. destruct (hasContentLength h); [| by intros (-> & -> & ->)].
  intros (H1 & -> & -> & ->). rewrite zlen_app, ztake_app_le, zdrop_app_le by lia. pose proof (zlen_nonneg more). split_and!; [lia | lia | done | done | done].
Qed.

Lemma frameStep_det m data f1 m1 r1 f2 m2 r2 : bytes_ok data -> frameStep m data f1 m1 r1 -> frameStep m data f2 m2 r2 -> f1 = f2 /\ m1 = m2 /\ r1 = r2.
Proof.
  intros H H1. inversion H1 as [r | d h q Hp Ha | h d body ts r Hb]; subst; intros H2; inversion H2 as [r' | d' h' q' Hp' Ha' | h' d' body' ts' r' Hb']; subst; try done.
  - exfalso. eapply headOf_blank; [| exact Hp' | exact Ha']. by do 2 apply Forall_inv_tail in H.
  - exfalso. eapply headOf_blank; [| exact Hp | exact Ha]. by do 2 apply Forall_inv_tail in H.
  - rewrite Hp in Hp'. by injection Hp' as <- <-.
  - by destruct (bodyFramed_det _ _ _ _ _ _ _ _ Hb Hb') as (-> & -> & ->).
Qed.

Lemma frameStep_extend m data f m1 rest more : bytes_ok (data ++ more) -> frameStep m data f m1 rest -> frameStep m (data ++ more) f m1 (rest ++ more).
Proof.
  intros H Hs. inversion Hs as [r | d h q Hp Ha | h d body ts r Hb]; subst; [apply fs_blank | | apply fs_body; by apply bodyFramed_extend].
  pose proof H as H'. apply Forall_app in H' as [Hd _]. pose proof (headOf_end _ _ _ Hd Hp Ha). rewrite <- zdrop_app_le by lia. eapply fs_head; [| done]. apply headOf_stable; [done | done | by destruct Ha].
Qed.

Lemma framing_extend m data fs m1 rest more : framing m data fs m1 rest -> bytes_ok (data ++ more) -> framing m (data ++ more) fs m1 (rest ++ more).
Proof.
  induction 1 as [| m data f m1 data1 fs m2 rest Hs _ IH]; intros H; [apply fr_stop |]. pose proof (frameStep_extend _ _ _ _ _ more H Hs) as Hs'. eapply fr_step; [exact Hs' |]. apply IH. by eapply frameStep_ok.
Qed.

Lemma framing_ok m data fs m1 rest : framing m data fs m1 rest -> bytes_ok data -> bytes_ok rest.
Proof. induction 1 as [| m data f m1 data1 fs m2 rest Hs _ IH]; intros H; [done |]. apply IH. by eapply frameStep_ok. Qed.

(** Two framings of one input are the same as far as both go. *)
Lemma framing_comparable m data fs1 m1 r1 : framing m data fs1 m1 r1 -> bytes_ok data -> forall fs2 m2 r2, framing m data fs2 m2 r2 -> fs1 `prefix_of` fs2 \/ fs2 `prefix_of` fs1.
Proof.
  induction 1 as [| m data f m1 data1 fs m2 rest Hs Hf IH]; intros H fs2 m3 r3 H2; [left; apply prefix_nil |]. inversion H2 as [| ? ? f' m4 data4 fs' ? ? Hs' Hf']; subst; [right; apply prefix_nil |].
  destruct (frameStep_det _ _ _ _ _ _ _ _ H Hs Hs') as (<- & <- & <-). destruct (IH ltac:(by eapply frameStep_ok) _ _ _ Hf') as [Hp | Hp]; [left | right]; by apply prefix_cons.
Qed.

End Framing.
