(* ===== verification/H1ConnProofs.v ===== *)
(** The proofs about HTTP/1 connections: over every sequence of events the
    requests handed over are the framing of the bytes received, and each has one
    answer. *)
From stdpp Require Import base list numbers strings.
From Stdlib Require Import ZArith Lia ZifyBool.
From S2P Require Import Prelude Utils BodyBudget H1Scan HttpText HpackDyn Chunked ChunkedProofs ChunkedRoundtrip H2Conn H1Head H1HeadProofs H1Root H1RootProofs H1RootIndex H1Resp H1Conn H1ConnFraming.

Open Scope list_scope.
Open Scope Z_scope.

(** ** What a connection has consumed *)

Inductive pieceFrames : h1Piece -> list frame -> Prop :=
| pf_blank : pieceFrames PcBlank [FBlank]
| pf_root q : lineOf q = (str "GET", str "HTTP/1.1", [slash], [], [slash]) -> pieceFrames PcRoot [FHead q; FBody [] []]
| pf_request q body trailers : pieceFrames (PcRequest (mkHanded q body trailers false)) [FHead q; FBody body trailers]
| pf_stream q : pieceFrames (PcRequest (mkHanded q [] [] true)) [FHead q]
| pf_body data trailers : pieceFrames (PcBody data trailers) [FBody data trailers].

Definition isRequest (p : h1Piece) : bool := match p with PcRoot | PcRequest _ => true | _ => false end.
Definition isAnswer (o : h1Out) : bool := match o with OutContinue => false | _ => true end.
Definition requests (c : h1conn) : nat := length (List.filter isRequest (l_pieces (c_log c))).
Definition answers (c : h1conn) : nat := length (List.filter isAnswer (l_out (c_log c))).
(** A handler is running. *)
Definition running (c : h1conn) : bool := dispatching (c_run c) && negb (r_outBusy (c_run c)).

Definition live (c : h1conn) : Prop := e_closeAfter (c_ends c) = false /\ e_closed (c_ends c) = false /\ e_detached (c_ends c) = false.

Section Inv.

Context (e : h1Env) {Hok : H1EnvOk e}.
Local Abbreviation scans := (ChunkedProofs.scans (x_hasAVX2 e) (x_headerLine e)).
Local Abbreviation chunkRun := (ChunkedRoundtrip.chunkRun (x_hasAVX2 e) (x_headerLine e)).

Definition framedTo (c : h1conn) (m : fmode) (rest : bytes) : Prop :=
  exists fss, Forall2 pieceFrames (l_pieces (c_log c)) fss /\ framing e AtHead (l_received (c_log c)) (concat fss) m rest.

(** A streamed body so far: what it took, what was pushed and what is to come. *)
Definition progress (h : h1Head) (i : h1BodyIn) (taken pushed : bytes) : Prop :=
  if in_left i =? h1NoContentLength then
    chunkedEncoding h = true /\
    forall more d data rest, chunkRun (in_chunk i) more d data rest -> done d = true -> chunkRun (newChunkedDecoder true) (taken ++ more) d (pushed ++ data) rest
  else
    chunkedEncoding h = false /\ hasContentLength h = true /\ contentLength h = zlen taken + in_left i /\ pushed = taken /\ in_chunk i = newChunkedDecoder true.

Definition framedIn (c : h1conn) (i : h1BodyIn) : Prop :=
  if in_done i then in_broken i = true \/ framedTo c AtHead (c_unread c)
  else exists h, framedTo c (AtBody h) (l_taken (c_log c) ++ c_unread c) /\ progress h i (l_taken (c_log c)) (l_pushed (c_log c)).

Definition scanOk (c : h1conn) : Prop :=
  c_chunkScanPos c = 0 \/
  exists h q, headOf e (c_unread c) = Some (h, q) /\ acceptedHead h /\ chunkedEncoding h = true /\ streamsH1Body e true (hasContentLength h) (contentLength h) = false /\ 0 <= c_chunkScanPos c <= zlen (c_unread c) /\
    forall more r, scans (newChunkedDecoder false) (c_unread c ++ more) (headerEnd h) (headerEnd h) r <-> scans (newChunkedDecoder false) (c_unread c ++ more) (c_chunkScanPos c) (c_chunkScanPos c) r.

(** A long response after which the connection closes. *)
Definition doomed (c : h1conn) : Prop := dispatching (c_run c) = true /\ r_outBusy (c_run c) = true /\ h1OutKeepAlive (c_run c) = false.

Record framed (c : h1conn) : Prop := mkFramed {
  fd_some : exists m rest, framedTo c m rest;
  fd_in : match c_in c with
          | None => doomed c \/ (framedTo c AtHead (c_unread c) /\ scanOk c)
          | Some i => running c = true /\ c_chunkScanPos c = 0 /\ framedIn c i
          end;
  fd_answers : (requests c = answers c + if running c then 1 else 0)%nat }.

Definition bodyOk (i : h1BodyIn) : Prop := in_done i = false -> decoder_inv (in_chunk i) /\ done (in_chunk i) = false /\ (in_left i = h1NoContentLength \/ 0 < in_left i).
Record wf (c : h1conn) : Prop := mkWf {
  wf_unread : bytes_ok (c_unread c);
  wf_received : bytes_ok (l_received (c_log c));
  wf_in : match c_in c with Some i => bodyOk i | None => True end;
  wf_run : c_in c = None \/ running c = true }.

(** ** Streamed bodies *)

(** What feeding a body leaves alone. *)
Record fed (c c' : h1conn) : Prop := mkFed {
  fe_run : c_run c' = c_run c;
  fe_ends : c_ends c' = c_ends c;
  fe_scan : c_chunkScanPos c' = c_chunkScanPos c;
  fe_received : l_received (c_log c') = l_received (c_log c);
  fe_requests : requests c' = requests c;
  fe_answers : answers c' = answers c }.

Lemma fed_refl c : fed c c.
Proof. by split. Qed.
Lemma fed_trans c c' c'' : fed c c' -> fed c' c'' -> fed c c''.
Proof. intros [] []. split; congruence. Qed.

Lemma framedTo_piece c c' p fs m rest m' rest' : framedTo c m rest -> pieceFrames p fs -> l_pieces (c_log c') = l_pieces (c_log c) ++ [p] -> l_received (c_log c') = l_received (c_log c) ->
  (forall m0 data0 fs0, framing e m0 data0 fs0 m rest -> framing e m0 data0 (fs0 ++ fs) m' rest') -> framedTo c' m' rest'.
Proof.
  intros (fss & H1 & H2) Hp E1 E2 Hx. exists (fss ++ [fs]). rewrite E1, E2, concat_app. cbn [concat]. rewrite app_nil_r. split; [apply Forall2_app; [done | by repeat constructor] | by apply Hx].
Qed.

Lemma framedTo_same c c' m rest : l_pieces (c_log c') = l_pieces (c_log c) -> l_received (c_log c') = l_received (c_log c) -> framedTo c m rest -> framedTo c' m rest.
Proof. intros E1 E2 (fss & H1 & H2). exists fss. by rewrite E1, E2. Qed.

(** The end of a body whose bytes are all taken. *)
Lemma in_end_framed c i h : framedTo c (AtBody h) (l_taken (c_log c) ++ c_unread c) -> bodyFramed e h (l_taken (c_log c) ++ c_unread c) (l_pushed (c_log c)) (cd_trailers (in_chunk i)) (c_unread c) ->
  framedTo (in_end c i None) AtHead (c_unread (in_end c i None)).
Proof.
  intros H Hb. eapply (framedTo_piece c _ (PcBody (l_pushed (c_log c)) (cd_trailers (in_chunk i)))); [exact H | apply pf_body | done | done |]. intros m0 data0 fs0 Hf. eapply framing_snoc; [exact Hf |]. by apply fs_body.
Qed.

Lemma taken_unread n (taken u : bytes) : (taken ++ ztake n u) ++ zdrop n u = taken ++ u.
Proof. rewrite <- app_assoc. f_equal. apply ztake_zdrop. Qed.

Lemma requests_body c data ts : requests (piece c (PcBody data ts)) = requests c.
Proof. unfold requests, piece, set_log. cbn [c_log l_pieces]. rewrite List.filter_app. cbn [List.filter isRequest]. by rewrite app_nil_r. Qed.

(** Some bytes of a body of known length. *)
Lemma progress_length h i taken pushed u n d b br : progress h i taken pushed -> (in_left i =? h1NoContentLength) = false -> 0 < n <= zlen u -> n <= in_left i -> d = in_chunk i ->
  let i' := mkH1BodyIn br (in_left i - n) d false b in
  (in_left i - n = 0 -> bodyFramed e h ((taken ++ ztake n u) ++ zdrop n u) (pushed ++ ztake n u) (cd_trailers d) (zdrop n u)) /\ (0 < in_left i - n -> progress h i' (taken ++ ztake n u) (pushed ++ ztake n u)).
Proof.
  unfold progress, bodyFramed. intros Hp El Hn Hl ->. cbv zeta. rewrite El in Hp. destruct Hp as (H1 & H2 & H3 & -> & Hc). assert (Ht : zlen (ztake n u) = n) by (apply zlen_take; lia). rewrite H1, H2. split.
  - intros E0. rewrite Hc, zlen_app, !zlen_app, Ht. pose proof (zlen_nonneg (zdrop n u)). pose proof (zlen_nonneg taken). assert (E : contentLength h = zlen (taken ++ ztake n u)) by (rewrite zlen_app; lia). split_and!; [lia | lia | by rewrite E, ztake_app_exact | done | by rewrite E, zdrop_app_exact].
  - intros E0. cbn [in_left]. unfold h1NoContentLength. replace (in_left i - n =? -1) with false by lia. rewrite zlen_app, Ht. split_and!; [done | done | lia | done | done].
Qed.

(** A step of the decoder. *)
Lemma progress_chunk h i taken pushed u m n chunk d b br : progress h i taken pushed -> (in_left i =? h1NoContentLength) = true -> decoder_inv (in_chunk i) -> done (in_chunk i) = false ->
  0 <= m -> (cd_state (in_chunk i) = chunkedInData \/ ztake m u = u) -> chunkNext e (in_chunk i) (ztake m u) = (Ok (n, chunk), d) -> n <> 0 ->
  let i' := mkH1BodyIn br (in_left i) d false b in
  0 < n <= zlen u /\ decoder_inv d /\
  (done d = true -> bodyFramed e h ((taken ++ ztake n u) ++ zdrop n u) (pushed ++ chunk) (cd_trailers d) (zdrop n u)) /\ (done d = false -> progress h i' (taken ++ ztake n u) (pushed ++ chunk)).
Proof.
  unfold progress, bodyFramed. intros Hp El Hi Hd Hm Hst E Hn. cbv zeta. rewrite El in Hp. cbn [in_left]. rewrite El. destruct Hp as [Hc Hp]. rewrite Hc. destruct (next_range _ _ _ _ _ _ _ Hi E) as (Hr & Hi1 & _).
  assert (Hl : n <= zlen u) by (unfold ztake, zlen in *; rewrite length_take in Hr; lia). split_and!; [lia | lia | done | |].
  - intros Hdone. exists d. split; [| done]. rewrite <- app_assoc. apply Hp; [| done]. rewrite <- (app_nil_r chunk). by eapply run_portion; [| | | | | | apply run_stop |].
  - intros Hnd. split; [done |]. intros more d2 data2 rest Hrun Hdone. rewrite <- !app_assoc. apply Hp; [| done]. by eapply run_portion.
Qed.

Lemma next_zero d src data d' : decoder_inv d -> 0 < zlen src -> chunkNext e d src = (Ok (0, data), d') -> d' = d.
Proof.
  unfold chunkNext, next, decoder_inv. intros Hi Hs. destruct (cd_state d) eqn:Est.
  1, 4: unfold nextLine; rewrite Est; pose proof (line_end_range src) as Hr; unfold line_end in Hr; destruct (_ <? 0) eqn:E0; [destruct (_ <=? _); [done | by intros [= _ <-]] |]; cbn [bool_decide]; intros H; repeat (split_if_in H || case_match); simplify_eq; lia.
  - intros [= E _ _]. lia.
  - intros H. repeat split_if_in H; by simplify_eq.
  - by intros [= _ <-].
Qed.

Definition taking (c : h1conn) (n : Z) (data : bytes) (i : h1BodyIn) : h1conn := set_in (in_take c n data) (Some i).

Lemma taking_fed c n data i : fed c (taking c n data i).
Proof. by split. Qed.
Lemma in_running c i : wf c -> c_in c = Some i -> running c = true.
Proof. intros Hw Hi. destruct (wf_run _ Hw); [congruence | done]. Qed.
Lemma taking_wf c n data i : wf c -> bodyOk i -> running c = true -> wf (taking c n data i).
Proof. intros [H1 H2 H3 H4] Hi Hr. split; [by apply Forall_drop | done | exact Hi | by right]. Qed.
Lemma end_fed c i err : fed c (in_end c i err).
Proof. destruct err as [er |]; [by split |]. split; try done. exact (requests_body (set_in c _) _ _). Qed.
Lemma end_wf c i err : bytes_ok (c_unread c) -> bytes_ok (l_received (c_log c)) -> running c = true -> wf (in_end c i err).
Proof. intros H1 H2 H3. destruct err as [er |]; split; try done; by right. Qed.

(** The outcome of feeding. *)
Definition feeds (c : h1conn) (i : h1BodyIn) (r : option h1conn) : Prop :=
  exists c' i', r = Some c' /\ c_in c' = Some i' /\ wf c' /\ fed c c' /\ (framedIn c i -> (exists m rest, framedTo c m rest) -> framedIn c' i' /\ exists m rest, framedTo c' m rest).

Lemma feeds_broken c i i' er : wf c -> running c = true -> feeds c i (Some (in_end c i' (Some er))).
Proof. intros Hw Hrn. eexists _, _. split; [done |]. split; [done |]. split; [destruct Hw; by apply end_wf |]. split; [apply end_fed |]. intros _ (m & rest & H). split; [by left |]. exists m, rest. by eapply framedTo_same; [| | exact H]. Qed.

Lemma feeds_end c i n data i' : wf c -> running c = true -> in_done i = false ->
  (forall h, progress h i (l_taken (c_log c)) (l_pushed (c_log c)) -> bodyFramed e h ((l_taken (c_log c) ++ ztake n (c_unread c)) ++ zdrop n (c_unread c)) (l_pushed (c_log c) ++ data) (cd_trailers (in_chunk i')) (zdrop n (c_unread c))) ->
  feeds c i (Some (in_end (taking c n data i') i' None)).
Proof.
  intros Hw Hrn Hd Hb. eexists _, _. split; [done |]. split; [done |]. split; [destruct Hw; apply end_wf; [by apply Forall_drop | done | done] |]. split; [eapply fed_trans; [apply taking_fed | apply end_fed] |]. intros Hf _. unfold framedIn in *. rewrite Hd in Hf. destruct Hf as (h & Hf & Hp). cbn [in_done].
  assert (H : framedTo (in_end (taking c n data i') i' None) AtHead (c_unread (in_end (taking c n data i') i' None))); [| split; [by right | by eexists _, _]]. eapply (in_end_framed _ _ h); [| by apply Hb]. cbn. rewrite taken_unread. by eapply framedTo_same; [| | exact Hf].
Qed.

Lemma feeds_more c i n data i' r : wf c -> in_done i = false -> bodyOk i' -> in_done i' = false ->
  (forall h, progress h i (l_taken (c_log c)) (l_pushed (c_log c)) -> progress h i' (l_taken (c_log c) ++ ztake n (c_unread c)) (l_pushed (c_log c) ++ data)) ->
  feeds (taking c n data i') i' r -> feeds c i r.
Proof.
  intros Hw Hd Hi' Hd' Hp (c' & i2 & -> & H1 & H2 & H3 & H4). eexists _, _. split; [done |]. split; [exact H1 |]. split; [done |]. split; [eapply fed_trans; [apply taking_fed | done] |]. intros Hf (m & rest & Hs). apply H4; [| exists m, rest; by eapply framedTo_same; [| | exact Hs]].
  unfold framedIn in *. rewrite Hd in Hf. rewrite Hd'. destruct Hf as (h & Hf & Hpr). exists h. split; [| by apply Hp]. cbn. rewrite taken_unread. by eapply framedTo_same; [| | exact Hf].
Qed.

Lemma feed_spec fuel : forall c i, wf c -> c_in c = Some i -> (length (c_unread c) <= fuel)%nat -> feeds c i (feedLoop e fuel c i).
Proof.
  induction fuel as [| fuel IH]; intros c i Hw Hin Hf; cbn [feedLoop]; (destruct (in_done i) eqn:Hdone; [by exists c, i |]); cbv zeta; (destruct ((zlen (c_unread c) =? 0) || (h1BodyStreamCap - buffered (in_reader i) <=? 0)) eqn:E0; [by exists c, i |]).
  { unfold zlen in E0. exfalso. lia. }
  apply orb_false_iff in E0 as [E0 E1]. pose proof (wf_in _ Hw) as Hb. rewrite Hin in Hb. destruct (Hb Hdone) as (Hi & Hd & Hl). pose proof (in_running _ _ Hw Hin) as Hrn. pose proof (zlen_nonneg (c_unread c)) as Hu. set (u := c_unread c) in *. set (room := h1BodyStreamCap - buffered (in_reader i)) in *.
  assert (Hlen : forall n, 0 < n <= zlen u -> (length (zdrop n u) <= fuel)%nat) by (intros n Hn; unfold zdrop, zlen in *; rewrite length_drop; lia).
  destruct (in_left i =? h1NoContentLength) eqn:El; cbn [negb].
  - set (m := if bool_decide (cd_state (in_chunk i) = chunkedInData) then Z.min (zlen u) room else zlen u).
    assert (Em : (if bool_decide (cd_state (in_chunk i) = chunkedInData) then ztake (Z.min (zlen u) room) u else u) = ztake m u) by (unfold m; destruct (bool_decide _); [done | by rewrite ztake_ge]). rewrite Em.
    assert (Hm : 0 < m /\ (cd_state (in_chunk i) = chunkedInData \/ ztake m u = u)) by (unfold m; destruct (bool_decide _) eqn:Eb; [split; [lia | left; by apply bool_decide_eq_true in Eb] | split; [lia | right; by apply ztake_ge]]). destruct Hm as [Hm Hst].
    destruct (chunkNext e (in_chunk i) (ztake m u)) as [[[n chunk] | er] d] eqn:En; [| by apply feeds_broken]. destruct (n =? 0) eqn:En0.
    + assert (n = 0) as -> by lia. assert (d = in_chunk i) as -> by (apply (next_zero _ (ztake m u) chunk); [done | unfold ztake, zlen in *; rewrite length_take; lia | exact En]).
      exists (set_in c (Some (mkH1BodyIn (in_reader i) (in_left i) (in_chunk i) false (in_broken i)))), (mkH1BodyIn (in_reader i) (in_left i) (in_chunk i) false (in_broken i)). split_and!; [done | done | destruct Hw; split; [done | done | by intros _ | by right] | by split |]. unfold framedIn. rewrite Hdone. cbn [in_done]. intros H1 H2. by split.
    + cbn [in_reader]. destruct ((0 <? zlen chunk) && _) eqn:Et; [by apply feeds_broken |]. set (i' := if 0 <? zlen chunk then _ else _).
      assert (Hi' : i' = mkH1BodyIn (in_reader i') (in_left i) d false (in_broken i)) by (unfold i'; by destruct (0 <? zlen chunk)). rewrite Hi'. fold (taking c n chunk (mkH1BodyIn (in_reader i') (in_left i) d false (in_broken i))).
      assert (Hstep : 0 < n <= zlen u /\ decoder_inv d) by (destruct (next_range _ _ _ _ _ _ _ Hi En) as (Hr & Hi1 & _); unfold ztake, zlen in *; rewrite length_take in Hr; split; [lia | done]). destruct Hstep as [Hn Hid].
      assert (Hpc := fun h Hp => progress_chunk h i (l_taken (c_log c)) (l_pushed (c_log c)) u m n chunk d (in_broken i) (in_reader i') Hp El Hi Hd ltac:(lia) Hst En ltac:(lia)). cbv zeta in Hpc.
      destruct (done d) eqn:Edone.
      * apply feeds_end; [done | done | done |]. intros h Hp. destruct (Hpc h Hp) as (_ & _ & Hx & _). by apply Hx.
      * eapply (feeds_more c i n chunk (mkH1BodyIn (in_reader i') (in_left i) d false (in_broken i))); [done | done | | done | intros h Hp; destruct (Hpc h Hp) as (_ & _ & _ & Hx); by apply Hx | apply IH; [apply taking_wf; [done | | done] | done | by apply Hlen]]; intros _; split_and!; try done; by left.
  - assert (Hleft : 0 < in_left i) by lia. set (n := Z.min (Z.min (zlen u) room) (in_left i)) in *. assert (Hn : 0 < n <= zlen u /\ n <= in_left i) by lia. clearbody n. set (i' := mkH1BodyIn _ (in_left i - n) _ _ _). fold (taking c n (ztake n u) i'). cbn [in_left i'].
    assert (Hpl := fun h Hp => progress_length h i (l_taken (c_log c)) (l_pushed (c_log c)) u n (in_chunk i) (in_broken i) (body_push (in_reader i) (ztake n u)) Hp El ltac:(lia) ltac:(lia) eq_refl). cbv zeta in Hpl. fold i' in Hpl.
    destruct (in_left i - n =? 0) eqn:Ez; cbv iota.
    + apply feeds_end; [done | done | done |]. intros h Hp. destruct (Hpl h Hp) as [Hx _]. apply Hx. lia.
    + eapply (feeds_more c i n (ztake n u) i'); [done | done | | done | intros h Hp; destruct (Hpl h Hp) as [_ Hx]; apply Hx; lia | apply IH; [apply taking_wf; [done | | done] | done | apply Hlen; lia]]; intros _; cbn; split_and!; try done; right; lia.
Qed.

(** ** Collecting a body *)

(** Only the scan position, the accounted bytes and the output change. *)
Record kept (c c' : h1conn) : Prop := mkKept {
  kp_unread : c_unread c' = c_unread c;
  kp_run : c_run c' = c_run c;
  kp_in : c_in c' = c_in c;
  kp_ends : c_ends c' = c_ends c;
  kp_received : l_received (c_log c') = l_received (c_log c);
  kp_pieces : l_pieces (c_log c') = l_pieces (c_log c);
  kp_answers : answers c' = answers c }.

Lemma kept_refl c : kept c c.
Proof. by split. Qed.
Lemma kept_trans c c' c'' : kept c c' -> kept c' c'' -> kept c c''.
Proof. intros [] []. split; congruence. Qed.
Lemma kept_scan c n : kept c (set_scan c n).
Proof. by split. Qed.
Lemma kept_reserve c n : kept c (reserveH1BodyBudget e c n).2 /\ c_chunkScanPos (reserveH1BodyBudget e c n).2 = c_chunkScanPos c.
Proof. unfold reserveH1BodyBudget. by repeat split_if. Qed.
Lemma kept_continue c q : kept c (h1Continue c q) /\ c_chunkScanPos (h1Continue c q) = c_chunkScanPos c.
Proof.
  unfold h1Continue. destruct (q_expect q); [done | | done]. destruct (c_continueSent c); [done |]. split; [| done]. split; try done. unfold answers, put, set_log. cbn. rewrite List.filter_app. cbn [List.filter isAnswer]. by rewrite app_nil_r.
Qed.

Lemma scanOk_kept c c' : kept c c' -> c_chunkScanPos c' = c_chunkScanPos c -> scanOk c -> scanOk c'.
Proof. intros [K1 _ _ _ _ _ _] E. unfold scanOk. by rewrite K1, E. Qed.

(** The position is about the head at the start of the input. *)
Lemma scanOk_head c h q : scanOk c -> headOf e (c_unread c) = Some (h, q) -> c_chunkScanPos c = 0 \/ (chunkedEncoding h = true /\ streamsH1Body e true (hasContentLength h) (contentLength h) = false /\ 0 <= c_chunkScanPos c <= zlen (c_unread c) /\
  forall more r, scans (newChunkedDecoder false) (c_unread c ++ more) (headerEnd h) (headerEnd h) r <-> scans (newChunkedDecoder false) (c_unread c ++ more) (c_chunkScanPos c) (c_chunkScanPos c) r).
Proof. intros [H | (h' & q' & E & _ & Hc & Hst & Hr & Hs)] Hp; [by left | right]. rewrite Hp in E. injection E as <- <-. done. Qed.

(** What collecting a body leaves, for the head [h] of the input. *)
Definition collected (c : h1conn) (h : h1Head) (streamBody : bool) (r : option (h1BodyStep * h1conn)) : Prop :=
  exists step c', r = Some (step, c') /\ kept c c' /\
    match step with
    | BodyReject _ _ => True
    | BodyWait => scanOk c -> scanOk c'
    | BodyReady body trailers consumed =>
        headerEnd h <= consumed <= zlen (c_unread c) /\ (scanOk c -> c_chunkScanPos c' = 0) /\
        if streamBody then body = [] /\ trailers = [] /\ consumed = headerEnd h /\ (chunkedEncoding h = false -> 0 <= contentLength h)
        else scanOk c -> bodyFramed e h (zdrop (headerEnd h) (c_unread c)) body trailers (zdrop consumed (c_unread c))
    end.

Lemma collectChunked_spec c h q : wf c -> headOf e (c_unread c) = Some (h, q) -> acceptedHead h -> chunkedEncoding h = true -> streamsH1Body e true (hasContentLength h) (contentLength h) = false -> collected c h false (collectChunked e c (c_unread c) h).
Proof.
  intros Hw Hp Ha Hc Hstream. pose proof (headOf_end e _ _ _ (wf_unread _ Hw) Hp Ha) as He. unfold collectChunked. set (u := c_unread c) in *. set (from := if (headerEnd h <? c_chunkScanPos c) && (c_chunkScanPos c <=? zlen u) then c_chunkScanPos c else headerEnd h).
  assert (Hfrom : headerEnd h <= from <= zlen u) by (unfold from; destruct ((headerEnd h <? c_chunkScanPos c) && (c_chunkScanPos c <=? zlen u)) eqn:E; lia).
  destruct (asyncLoop_total (x_hasAVX2 e) (x_headerLine e) (S (length (zdrop from u))) (newChunkedDecoder false) u from from) as (bodyEnd & status & resume & Ea & Hst & _ & Hend & Hres); [done | lia | lia | lia |]. unfold asyncChunkedComplete. rewrite Ea.
  assert (Hsame : scanOk c -> forall more r, scans (newChunkedDecoder false) (u ++ more) (headerEnd h) (headerEnd h) r <-> scans (newChunkedDecoder false) (u ++ more) from from r).
  { intros Hs more r. unfold from. destruct ((headerEnd h <? c_chunkScanPos c) && (c_chunkScanPos c <=? zlen u)) eqn:E; [| done]. destruct (scanOk_head _ _ _ Hs Hp) as [H0 | (_ & _ & _ & H)]; [lia | apply H]. }
  destruct (status =? -1) eqn:E1; [eexists _, _; split; [done |]; split; [apply kept_scan | done] |]. set (received := if status =? 0 then zlen u - headerEnd h else bodyEnd - headerEnd h). destruct (kept_reserve c received) as [Hk Hks]. destruct (reserveH1BodyBudget e c received) as [ok c1]. cbn [snd] in *.
  destruct ok; cbn [negb]; [| eexists _, _; by split]. destruct (status =? 0) eqn:E0.
  - destruct (h1_bodyTooLarge e _); (eexists _, _; split; [done |]; split; [eapply kept_trans; [exact Hk | apply kept_scan] |]); [done |]. intros Hs. right. exists h, q. cbn. rewrite (kp_unread _ _ Hk). fold u. split_and!; try done; try lia.
    intros more r. rewrite (Hsame Hs). assert (status = 0) as -> by lia. destruct (scan_more _ _ _ _ _ more _ _ _ _ _ Ea) as [_ H]; [done | done | lia |]. by apply H.
  - assert (status = 1) as -> by lia. unfold decodeChunkedInto at 1. destruct (decodeLoop_total (x_hasAVX2 e) (x_headerLine e) (S (length (zslice u (headerEnd h) bodyEnd))) (newChunkedDecoder true) [] (zslice u (headerEnd h) bodyEnd)) as [r Er]; [done | lia |]. rewrite Er.
    assert (Hk' : kept c (set_scan c1 0)) by (eapply kept_trans; [exact Hk | apply kept_scan]). destruct r as [[decoded trailers] |]; [| eexists _, _; by split]. destruct (h1_bodyTooLarge e _); (eexists _, _; split; [done |]; split; [exact Hk' |]); [done |]. specialize (Hend eq_refl).
    fold u. split; [lia |]. split; [done |]. intros Hs. unfold bodyFramed. rewrite Hc. apply (complete_run _ _ _ _ _ resume); [lia | | exact Er]. apply scans_complete; [lia |]. rewrite <- (app_nil_r u). apply (Hsame Hs). rewrite app_nil_r. by eexists.
Qed.

Lemma end_no_wrap he cl : 0 <= he -> 0 <= cl <= 2 ^ 50 -> he <= i64 (he + cl) -> i64 (he + cl) = he + cl.
Proof.
  intros H0 H1 H2. apply i64_small. split; [lia |]. destruct (decide (he + cl < 2 ^ 63)); [done | exfalso]. unfold i64 in H2. pose proof (Z.mod_pos_bound (he + cl + 2 ^ 63) (2 ^ 64) ltac:(lia)).
  assert (E : (he + cl + 2 ^ 63) mod 2 ^ 64 = he + cl + 2 ^ 63 - 2 ^ 64) by (symmetry; apply (Z.mod_unique _ _ 1); lia). lia.
Qed.

Lemma length_small data h q : bytes_ok data -> headOf e data = Some (h, q) -> acceptedHead h -> hasContentLength h = true -> 0 <= contentLength h -> 0 <= contentLength h <= 2 ^ 50.
Proof.
  intros Hb Hp Ha Hl H0. split; [done |]. pose proof (headOf_sound e _ _ _ Hb Hp Ha) as [_ _ _ _ [Hx _] Hg _ _]. rewrite Hl in Hx. symmetry in Hx. apply existsb_exists in Hx as (f & Hf & Hn). specialize (Hg H0). rewrite Forall_forall in Hg. specialize (Hg f (proj2 (list_elem_of_In _ _) Hf) Hn).
  pose proof (parse_dec_spec f.2) as Hd. rewrite Hg in Hd. change maxParsedLength with (2 ^ 50) in Hd. destruct (_ && _) eqn:E in Hd; [| done]. injection Hd as Hd. lia.
Qed.

Lemma collectLength_spec c h q streamBody : wf c -> headOf e (c_unread c) = Some (h, q) -> acceptedHead h -> chunkedEncoding h = false -> hasContentLength h = true -> collected c h streamBody (Some (collectLength e c (c_unread c) h streamBody)).
Proof.
  intros Hw Hp Ha Hc Hl. pose proof (headOf_end e _ _ _ (wf_unread _ Hw) Hp Ha) as He. assert (Hz : scanOk c -> c_chunkScanPos c = 0) by (intros Hs; destruct (scanOk_head _ _ _ Hs Hp) as [H0 | (H1 & _)]; [done | congruence]). unfold collectLength. set (u := c_unread c) in *.
  destruct (contentLength h <? 0) eqn:E0; [eexists _, _; split; [done |]; split; [apply kept_refl | done] |]. destruct (h1_bodyTooLarge e _); [eexists _, _; split; [done |]; split; [apply kept_refl | done] |]. destruct streamBody.
  { eexists _, _. split; [done |]. split; [apply kept_refl |]. fold u. split; [lia |]. split; [done |]. split_and!; try done. lia. }
  set (bodyEnd := i64 (headerEnd h + contentLength h)). destruct (bodyEnd <? headerEnd h) eqn:E1; [eexists _, _; split; [done |]; split; [apply kept_refl | done] |]. destruct (x_maxRead e <? bodyEnd); [eexists _, _; split; [done |]; split; [apply kept_refl | done] |].
  destruct (kept_reserve c (Z.min (zlen u) bodyEnd - headerEnd h)) as [Hk Hks]. destruct (reserveH1BodyBudget e c _) as [ok c1]. cbn [snd] in *. destruct ok; cbn [negb]; [| eexists _, _; by split].
  destruct (zlen u <? bodyEnd) eqn:E2; [eexists _, _; split; [done |]; split; [exact Hk |]; by apply scanOk_kept |]. eexists _, _. split; [done |]. split; [exact Hk |]. fold u. split; [lia |]. split; [intros Hs; rewrite Hks; by apply Hz |]. intros _. unfold bodyFramed. rewrite Hc, Hl.
  assert (Eb : bodyEnd = headerEnd h + contentLength h) by (unfold bodyEnd in *; apply end_no_wrap; [lia | eapply length_small; [exact (wf_unread _ Hw) | exact Hp | done | done | lia] | lia]). rewrite zlen_drop by lia. rewrite Eb in *. split_and!; [lia | lia | | done |].
  - unfold zslice. by replace (headerEnd h + contentLength h - headerEnd h) with (contentLength h) by lia.
  - rewrite zdrop_zdrop by lia. done.
Qed.

Lemma collectBody_spec c h q : wf c -> headOf e (c_unread c) = Some (h, q) -> acceptedHead h -> let streamBody := streamsH1Body e (chunkedEncoding h) (hasContentLength h) (contentLength h) in collected c h streamBody (collectBody e c (c_unread c) h streamBody).
Proof.
  intros Hw Hp Ha streamBody. pose proof (headOf_end e _ _ _ (wf_unread _ Hw) Hp Ha) as He. pose proof (ha_only _ _ _ _ _ (headOf_sound e _ _ _ (wf_unread _ Hw) Hp Ha)) as Honly. unfold collectBody. destruct (chunkedEncoding h) eqn:Ec.
  - destruct (Honly eq_refl) as [Hcl _]. destruct streamBody eqn:Es; cbn [andb negb]; [| by eapply collectChunked_spec]. rewrite Hcl. eexists _, _. split; [done |]. split; [apply kept_refl |]. split; [lia |]. split; [| split_and!; try done; congruence]. intros Hs. destruct (scanOk_head _ _ _ Hs Hp) as [H0 | (_ & H1 & _)]; [done | unfold streamBody in Es; congruence].
  - cbn [andb]. destruct (hasContentLength h) eqn:Eh; [by eapply collectLength_spec |]. eexists _, _. split; [done |]. split; [apply kept_refl |]. split; [lia |]. split; [intros Hs; destruct (scanOk_head _ _ _ Hs Hp) as [H0 | (H1 & _)]; [done | congruence] |].
    assert (Es : streamBody = false) by (unfold streamBody, streamsH1Body; by destruct (_ || _)). rewrite Es. intros _. unfold bodyFramed. by rewrite Ec, Eh.
Qed.

(** ** Serving requests *)

Definition serves (P : Prop) (c : h1conn) (r : option (h1conn * h1Step)) : Prop :=
  exists c' st, r = Some (c', st) /\ wf c' /\ c_ends c' = c_ends c /\ (P -> st <> h1StepClose -> framed c').

Lemma wf_same c c' : c_unread c' = c_unread c -> l_received (c_log c') = l_received (c_log c) -> c_in c' = c_in c -> c_run c' = c_run c -> wf c -> wf c'.
Proof. intros E1 E2 E3 E4 [H1 H2 H3 H4]. unfold running in *. split; unfold running; by rewrite ?E1, ?E2, ?E3, ?E4. Qed.

Lemma wf_idle c : bytes_ok (c_unread c) -> bytes_ok (l_received (c_log c)) -> c_in c = None -> wf c.
Proof. intros H1 H2 H3. split; [done | done | by rewrite H3 | by left]. Qed.

Lemma serves_close P c c' : wf c' -> c_ends c' = c_ends c -> serves P c (Some (c', h1StepClose)).
Proof. intros Hw He. exists c', h1StepClose. by split_and!. Qed.

(** Between requests. *)
Definition between (c : h1conn) : Prop := c_in c = None /\ dispatching (c_run c) = false.
Lemma between_framed c : between c -> framed c -> framedTo c AtHead (c_unread c) /\ scanOk c /\ requests c = answers c.
Proof.
  intros [H1 H2] [_ Hi Ha]. rewrite H1 in Hi. unfold running in Ha. rewrite H2 in Ha. cbn [andb] in Ha. destruct Hi as [[Hd _] | [Hf Hs]]; [congruence | split_and!; [done | done | lia]].
Qed.
Lemma framed_between c : between c -> framedTo c AtHead (c_unread c) -> scanOk c -> requests c = answers c -> framed c.
Proof. intros [H1 H2] Hf Hs Ha. split; [by eexists _, _ | rewrite H1; by right | unfold running; rewrite H2; cbn [andb]; lia]. Qed.

Lemma requests_piece c p : isRequest p = true -> requests (piece c p) = S (requests c).
Proof. intros H. unfold requests, piece, set_log. cbn [c_log l_pieces]. rewrite List.filter_app. cbn [List.filter]. rewrite H, length_app. cbn. lia. Qed.
Lemma answers_put c o : answers (put c o) = (answers c + if isAnswer o then 1 else 0)%nat.
Proof. unfold answers, put, set_log. cbn [c_log l_out]. rewrite List.filter_app, length_app. cbn [List.filter]. by destruct (isAnswer o). Qed.

(** A request handed over, with its body or before it. *)
Lemma start_spec c h q : wf c -> running c = true -> (chunkedEncoding h = false -> hasContentLength h = true /\ 0 < contentLength h) ->
  exists c', startH1BodyStream e c q (chunkedEncoding h) (contentLength h) = Some c' /\ wf c' /\ c_ends c' = c_ends c /\
    (framedTo c (AtBody h) (c_unread c) -> (requests c = answers c + 1)%nat -> c_chunkScanPos c = 0 -> framed c').
Proof.
  intros Hw Hrun Hlen. unfold startH1BodyStream. set (i := mkH1BodyIn newReader _ _ false false). set (c1 := match q_expect q with h1ExpectContinue => _ | _ => _ end).
  assert (Hc1 : c_in c1 = Some i /\ c_unread c1 = c_unread c /\ l_taken (c_log c1) = [] /\ l_pushed (c_log c1) = [] /\ c_run c1 = c_run c /\ c_ends c1 = c_ends c /\ c_chunkScanPos c1 = c_chunkScanPos c /\ l_pieces (c_log c1) = l_pieces (c_log c) /\ l_received (c_log c1) = l_received (c_log c) /\ answers c1 = answers c).
  { unfold c1. destruct (q_expect q); split_and!; try done. rewrite answers_put. cbn [isAnswer]. rewrite Nat.add_0_r. done. }
  destruct Hc1 as (K1 & K2 & K3 & K4 & K5 & K6 & K7 & K8 & K9 & K10). assert (Hi : bodyOk i) by (intros _; unfold i; cbn; split_and!; try done; destruct (chunkedEncoding h); [by left | right; by apply Hlen]).
  assert (Hw1 : wf c1) by (destruct Hw; split; rewrite ?K1, ?K2, ?K9; try done; right; unfold running in *; by rewrite K5). unfold h1FeedBody. rewrite K1. destruct (feed_spec (length (c_unread c1)) c1 i Hw1 K1 ltac:(lia)) as (c' & i' & -> & Hin & Hw' & Hfed & Hf). exists c'. destruct Hfed as [F1 F2 F3 F4 F5 F6]. split_and!; [done | done | by rewrite F2 |].
  intros Hto Hreq Hs. assert (Hto1 : framedTo c1 (AtBody h) (c_unread c1)) by (rewrite K2; by eapply framedTo_same; [| | exact Hto]). destruct Hf as [Hfi Hsome].
  - unfold framedIn. cbn [in_done i]. exists h. rewrite K3, K4. split; [done |]. unfold progress. destruct (chunkedEncoding h) eqn:Ec; cbn [in_left i in_chunk]; [split; [done | by intros; cbn] |]. destruct (Hlen eq_refl) as [Hh Hp]. unfold h1NoContentLength. replace (contentLength h =? -1) with false by lia. split_and!; [done | done | change (zlen (@nil Z)) with 0; lia | done | done].
  - by eexists _, _.
  - assert (Hr' : running c' = true) by (unfold running in *; by rewrite F1, K5). split; [done | rewrite Hin; split_and!; [done | by rewrite F3, K7 | done] |]. rewrite Hr', F5, F6, K10. unfold requests in *. by rewrite K8.
Qed.

Lemma handOver_spec P c h q closing body trailers consumed : wf c -> between c -> headOf e (c_unread c) = Some (h, q) -> acceptedHead h -> headerEnd h <= consumed <= zlen (c_unread c) ->
  (P -> framedTo c AtHead (c_unread c) /\ requests c = answers c /\ c_chunkScanPos c = 0) ->
  let streamBody := streamsH1Body e (chunkedEncoding h) (hasContentLength h) (contentLength h) in
  (if streamBody then body = [] /\ trailers = [] /\ consumed = headerEnd h else P -> bodyFramed e h (zdrop (headerEnd h) (c_unread c)) body trailers (zdrop consumed (c_unread c))) ->
  serves P c (h1HandOver e c h q closing streamBody body trailers consumed).
Proof.
  intros Hw Hb Hp Ha He HP streamBody Hbody. unfold h1HandOver. destruct (x_misdirects e q); [by apply serves_close; [eapply wf_same; [.. | exact Hw] |] |]. set (c1 := set_run _ _).
  assert (Hw1 : wf c1) by (destruct Hw, Hb as [Hb _]; split; [by apply Forall_drop | done | cbn; by rewrite Hb | by right]). assert (Hreq : P -> (requests c1 = answers c1 + 1)%nat).
  { intros Hf. destruct (HP Hf) as (_ & Hr & _). change (requests c1) with (requests (piece c (PcRequest (mkHanded q body trailers streamBody)))). rewrite requests_piece by done. change (answers c1) with (answers c). lia. }
  assert (Hhead : forall m0 data0 fs0, framing e m0 data0 fs0 AtHead (c_unread c) -> framing e m0 data0 (fs0 ++ [FHead q]) (AtBody h) (zdrop (headerEnd h) (c_unread c))) by (intros m0 data0 fs0 Hf; eapply framing_snoc; [exact Hf | by apply fs_head]).
  destruct streamBody eqn:Est.
  - destruct Hbody as (-> & -> & ->). destruct (start_spec c1 h q Hw1 eq_refl) as (c2 & -> & Hw2 & He2 & Hf2).
    { intros Ec. unfold streamBody, streamsH1Body in Est. rewrite Ec in Est. cbn [orb] in Est. destruct ((x_streamBodyAbove e <=? 0) || x_inlineHandlers e) eqn:E; [done |]. apply andb_true_iff in Est as [E1 E2]. split; [done | lia]. }
    exists c2, h1StepDispatched. split_and!; [done | done | done |]. intros Hf _. destruct (HP Hf) as (Hto & _ & Hs). apply Hf2; [| by apply Hreq | exact Hs]. eapply (framedTo_piece c _ (PcRequest (mkHanded q [] [] true))); [exact Hto | apply pf_stream | done | done | exact Hhead].
  - exists c1, h1StepDispatched. split_and!; [done | done | done |]. intros Hf _. destruct (HP Hf) as (Hto & _ & Hs). assert (Hto1 : framedTo c1 AtHead (c_unread c1)).
    { eapply (framedTo_piece c _ (PcRequest (mkHanded q body trailers false))); [exact Hto | apply pf_request | done | done |]. intros m0 data0 fs0 Hx. apply Hhead in Hx. change [FHead q; FBody body trailers] with ([FHead q] ++ [FBody body trailers]). rewrite app_assoc. eapply framing_snoc; [exact Hx |]. apply fs_body. by apply Hbody. }
    split; [by eexists _, _ | destruct Hb as [Hb _]; cbn; rewrite Hb; right; split; [exact Hto1 | by left] |]. change (running c1) with true. cbv iota. by apply Hreq.
Qed.

Lemma kept_wf c c' : kept c c' -> wf c -> wf c'.
Proof. intros [K1 K2 K3 _ K5 _ _]. by apply wf_same. Qed.
Lemma kept_between c c' : kept c c' -> between c -> between c'.
Proof. intros [_ K2 K3 _ _ _ _]. unfold between. by rewrite K2, K3. Qed.
Lemma kept_framed c c' : kept c c' -> between c -> framed c -> framedTo c' AtHead (c_unread c') /\ requests c' = answers c'.
Proof.
  intros K Hb Hf. destruct (between_framed _ Hb Hf) as (Hto & _ & Ha). destruct K as [K1 _ _ _ K5 K6 K7]. rewrite K1, K7, <- Ha. unfold requests. rewrite K6. split; [by eapply framedTo_same; [| | exact Hto] | done].
Qed.

Lemma serves_reject P c c' status msg : kept c c' -> wf c -> serves P c (Some (h1Reject c' status msg, h1StepClose)).
Proof. intros K Hw. apply serves_close; [eapply wf_same; [.. | exact (kept_wf _ _ K Hw)]; done | exact (kp_ends _ _ K)]. Qed.

Lemma request_spec c : wf c -> between c -> serves (framed c) c (h1Request_turn e c (c_unread c)).
Proof.
  intros Hw Hb. unfold h1Request_turn. destruct (headOf_total e _ (wf_unread _ Hw)) as (h & q & Hp). rewrite Hp. destruct (tooLarge h); [by apply serves_reject; [apply kept_refl |] |]. destruct (head_ok h) eqn:Eok; cbn [negb]; [| by exists c, h1StepNeedInput].
  destruct (reject h) eqn:Er; try (by apply serves_reject; [apply kept_refl |]). assert (Ha : acceptedHead h) by done.
  assert (Hgo : serves (framed c) c match collectBody e c (c_unread c) h (streamsH1Body e (chunkedEncoding h) (hasContentLength h) (contentLength h)) with
    | None => None | Some (BodyReject status msg, c) => Some (h1Reject c status msg, h1StepClose) | Some (BodyWait, c) => Some (h1Continue c q, h1StepNeedInput)
    | Some (BodyReady body trailers consumed, c1) => h1HandOver e c1 h q (closeConn h || x_shuttingDown e (c_tick c)) (streamsH1Body e (chunkedEncoding h) (hasContentLength h) (contentLength h)) body trailers consumed end); [| by destruct (q_expect q); [| | apply serves_reject; [apply kept_refl |]]].
  destruct (collectBody_spec c h q Hw Hp Ha) as (step & c' & -> & K & Hst). destruct step as [body trailers consumed | | status msg].
  - destruct Hst as (Hr & Hz & Hbody). destruct (handOver_spec (framed c) c' h q (closeConn h || x_shuttingDown e (c_tick c)) body trailers consumed (kept_wf _ _ K Hw) (kept_between _ _ K Hb)) as (c2 & st & E & H1 & H2 & H3); try (rewrite (kp_unread _ _ K); done); try done.
    + intros Hf. destruct (kept_framed _ _ K Hb Hf) as [F1 F2]. split_and!; [done | done |]. apply Hz. by destruct (between_framed _ Hb Hf) as (_ & ? & _).
    + rewrite (kp_unread _ _ K). destruct (streamsH1Body e _ _ _); [by destruct Hbody as (-> & -> & -> & _) |]. intros Hf. apply Hbody. by destruct (between_framed _ Hb Hf) as (_ & ? & _).
    + exists c2, st. split_and!; [done | done | by rewrite H2, (kp_ends _ _ K) | done].
  - destruct (kept_continue c' q) as [K2 Es]. exists (h1Continue c' q), h1StepNeedInput. pose proof (kept_trans _ _ _ K K2) as K3. split_and!; [done | by eapply kept_wf | exact (kp_ends _ _ K3) |]. intros Hf _. destruct (between_framed _ Hb Hf) as (_ & Hs & _). destruct (kept_framed _ _ K3 Hb Hf) as [F1 F2]. apply framed_between; [by eapply kept_between | done | | done]. eapply scanOk_kept; [exact K2 | done | by apply Hst].
  - by apply serves_reject.
Qed.

Lemma serves_weaken (P Q : Prop) c c' r : (P -> Q) -> c_ends c' = c_ends c -> serves Q c' r -> serves P c r.
Proof. intros H He (c2 & st & -> & H1 & H2 & H3). exists c2, st. split_and!; [done | done | congruence |]. intros Hp. by apply H3, H. Qed.

Lemma root_spec c : wf c -> exists r, rootMatch e c (c_unread c) = Some r /\
  forall consumed closing, r = Some (consumed, closing) -> exists h q, headOf e (c_unread c) = Some (h, q) /\ rootRequest h q consumed closing.
Proof.
  intros Hw. unfold rootMatch. destruct (x_rootFast e (c_tick c)); [| by eexists]. unfold rootFastOf. fold (effectiveCount (x_maxHeaderCount e)).
  destruct (root_fast_accepts (x_hasAVX2 e) (x_firstSpecial e) (x_headerLine e) (x_indexCRLF4 e) (x_blockIndex e) env_first env_line env_crlf env_index (c_unread c) emptyRequest (x_maxHeaderSize e) (x_maxHeaderCount e) (wf_unread _ Hw) eq_refl eq_refl) as (r & -> & Hr).
  destruct r as [[consumed closing] |]; [| by eexists]. eexists. split; [done |]. intros n k E. destruct (x_shuttingDown e (c_tick c)); [done |]. injection E as <- <-. by apply Hr.
Qed.

(** A blank line, or a request of the short cut, is consumed. *)
Lemma blank_framed c rest : wf c -> between c -> c_unread c = CR :: LF :: rest -> framed c -> framed (h1Advance (piece (tick c) PcBlank) 2).
Proof.
  intros Hw Hb Eu Hf. destruct (between_framed _ Hb Hf) as (Hto & Hs & Ha). assert (E2 : zdrop 2 (c_unread c) = rest) by (by rewrite Eu). apply framed_between; [exact Hb | | |].
  - cbn [h1Advance set_unread c_unread piece set_log tick]. rewrite E2. eapply (framedTo_piece c _ PcBlank); [exact Hto | apply pf_blank | done | done |]. intros m0 data0 fs0 Hx. eapply framing_snoc; [exact Hx |]. rewrite Eu. apply fs_blank.
  - left. destruct Hs as [H0 | (h & q & Hp & Hacc & _)]; [exact H0 | exfalso]. rewrite Eu in Hp. apply (headOf_blank e rest h q); [| exact Hp | exact Hacc]. pose proof (wf_unread _ Hw) as Hu. rewrite Eu in Hu. by do 2 apply Forall_inv_tail in Hu.
  - unfold requests, answers in *. cbn. rewrite List.filter_app. cbn [List.filter isRequest]. by rewrite app_nil_r.
Qed.

Lemma root_framed c o h q consumed closing : wf c -> between c -> headOf e (c_unread c) = Some (h, q) -> rootRequest h q consumed closing -> isAnswer o = true -> framed c -> framed (h1Advance (piece (put (tick c) o) PcRoot) consumed).
Proof.
  intros Hw Hb Hp [Hacc He _ [Hc Hl] Hline _] Ho Hf. destruct (between_framed _ Hb Hf) as (Hto & Hs & Ha). apply framed_between; [exact Hb | | |].
  - eapply (framedTo_piece c _ PcRoot); [exact Hto | by apply pf_root | done | done |]. intros m0 data0 fs0 Hx. change [FHead q; FBody [] []] with ([FHead q] ++ [FBody [] []]). rewrite app_assoc. eapply framing_snoc; [eapply framing_snoc; [exact Hx | by apply fs_head] |]. apply fs_body. unfold bodyFramed. rewrite Hc, Hl, He. done.
  - left. destruct (scanOk_head _ _ _ Hs Hp) as [H0 | (H1 & _)]; [exact H0 | congruence].
  - change (requests _) with (requests (piece (put (tick c) o) PcRoot)). rewrite requests_piece by done. change (answers _) with (answers (put (tick c) o)) at 1. rewrite answers_put, Ho. change (requests (put (tick c) o)) with (requests c). change (answers (tick c)) with (answers c). lia.
Qed.

Lemma h1ServeLoop_spec fuel : forall c, wf c -> between c -> (length (c_unread c) <= fuel)%nat -> serves (framed c) c (h1ServeLoop e fuel c).
Proof.
  induction fuel as [| fuel IH]; intros c Hw Hb Hf; cbn [h1ServeLoop]; (destruct (zlen (c_unread c) =? 0) eqn:E0; [by exists c, h1StepNeedInput |]); [unfold zlen in E0; exfalso; lia |].
  assert (Hwt : wf (tick c)) by (by eapply wf_same; [.. | exact Hw]). destruct (x_maxPendingWrite e <? _); [by apply serves_close |].
  destruct ((2 <=? zlen (c_unread c)) && (znth (c_unread c) 0 =? CR) && (znth (c_unread c) 1 =? LF)) eqn:Ebl.
  - destruct (c_unread c) as [| a [| b rest]] eqn:Eu; [done | change (zlen [a]) with 1 in Ebl; discriminate Ebl |]. change (znth (a :: b :: rest) 0) with a in Ebl. change (znth (a :: b :: rest) 1) with b in Ebl. assert (a = CR /\ b = LF) as [-> ->] by lia.
    eapply serves_weaken; [| | apply IH]; [by apply (blank_framed _ rest) | done | destruct Hwt as [H1 H2 H3 H4]; split; [by apply Forall_drop | done | done | done] | exact Hb | change (length (zdrop 2 (c_unread c)) <= fuel)%nat; rewrite Eu; change (zdrop 2 (CR :: LF :: rest)) with rest; cbn [length] in Hf; lia].
  - destruct (root_spec (tick c) Hwt) as (r & Er & Hr). change (c_unread (tick c)) with (c_unread c) in Er, Hr. rewrite Er. destruct r as [[consumed closing] |].
    + destruct (Hr _ _ eq_refl) as (h & q & Hp & Hroot). pose proof (headOf_end e _ _ _ (wf_unread _ Hw) Hp (rr_accepted _ _ _ _ Hroot)) as He. rewrite (rr_end _ _ _ _ Hroot) in He. set (c1 := h1Advance _ _).
      assert (Hc1 : wf c1 /\ c_ends c1 = c_ends c /\ between c1 /\ c_unread c1 = zdrop consumed (c_unread c)) by (unfold c1, h1ServiceUnavailable; destruct Hw; destruct (x_requestSlot e _); split_and!; (exact Hb || (split; [by apply Forall_drop | done | done | done]) || done)). destruct Hc1 as (Hw1 & He1 & Hb1 & Eu1).
      destruct closing; [by apply serves_close |]. eapply serves_weaken; [| exact He1 | apply IH; [done | done | rewrite Eu1; unfold zdrop; rewrite length_drop; unfold zlen in *; lia]].
      unfold c1, h1ServiceUnavailable. intros Hfr. destruct (x_requestSlot e _); by eapply root_framed.
    + eapply (serves_weaken _ (framed (tick c))); [| done | apply (request_spec (tick c)); [done | exact Hb]]. intros [F1 F2 F3]. by split.
Qed.

Lemma serve_spec c : wf c -> exists c' st, serveH1 e c = Some (c', st) /\ wf c' /\ c_ends c' = c_ends c /\ (framed c -> st <> h1StepClose -> framed c').
Proof.
  intros Hw. unfold serveH1, h1FeedBody. assert (Hfeed : exists c1, match c_in c with Some i => feedLoop e (length (c_unread c)) c i | None => Some c end = Some c1 /\ wf c1 /\ c_ends c1 = c_ends c /\ (framed c -> framed c1) /\ (c_in c = None -> c1 = c)).
  { destruct (c_in c) as [i |] eqn:Hin; [| by exists c]. destruct (feed_spec (length (c_unread c)) c i Hw Hin ltac:(lia)) as (c' & i' & -> & Hin' & Hw' & [F1 F2 F3 F4 F5 F6] & Hf). exists c'. split_and!; [done | done | done | | done]. intros [Hs Hi Ha]. rewrite Hin in Hi. destruct Hi as (Hr & Hz & Hfi). destruct (Hf Hfi Hs) as [Hfi' Hs'].
    unfold running in *. split; [done | rewrite Hin'; unfold running; rewrite F1, F3; by split_and! | unfold running; by rewrite F1, F5, F6]. }
  destruct Hfeed as (c1 & -> & Hw1 & He1 & Hf1 & Hn). destruct (dispatching (c_run c1)) eqn:Ed; [exists c1, h1StepDispatched; split_and!; [done | done | done | by intros Hf _; apply Hf1] |].
  destruct (c_in c1) eqn:Ein1.
  - exfalso. pose proof (in_running _ _ Hw1 Ein1) as Hr. unfold running in Hr. by rewrite Ed in Hr.
  - destruct (h1ServeLoop_spec (length (c_unread c1)) c1 Hw1 ltac:(by split) ltac:(lia)) as (c2 & st & -> & H1 & H2 & H3). exists c2, st. split_and!; [done | done | congruence |]. intros Hf. by apply H3, Hf1.
Qed.

(** ** Events *)

Record Inv (c : h1conn) : Prop := mkInv { inv_wf : wf c; inv_live : live c -> framed c }.

Lemma framed_same c c' : c_unread c' = c_unread c -> c_chunkScanPos c' = c_chunkScanPos c -> c_run c' = c_run c -> c_in c' = c_in c -> c_log c' = c_log c -> framed c -> framed c'.
Proof.
  destruct c, c'. cbn. intros -> -> -> -> -> [F1 F2 F3]. split; [exact F1 | exact F2 | exact F3].
Qed.
Lemma live_same c c' : c_ends c' = c_ends c -> live c' -> live c.
Proof. unfold live. by intros ->. Qed.
Lemma inv_same c c' : c_unread c' = c_unread c -> c_chunkScanPos c' = c_chunkScanPos c -> c_run c' = c_run c -> c_in c' = c_in c -> c_log c' = c_log c -> c_ends c' = c_ends c -> Inv c -> Inv c'.
Proof. intros E1 E2 E3 E4 E5 E6 [Hw Hf]. split; [by eapply wf_same; [.. | exact Hw]; rewrite ?E5 |]. intros Hl. eapply framed_same; [.. | apply Hf; by eapply live_same]; done. Qed.
Lemma inv_tick c : Inv c -> Inv (tick c).
Proof. by apply inv_same. Qed.

Lemma inv_close c : wf c -> Inv (closeH1Conn c).
Proof. intros [H1 H2 _ _]. unfold closeH1Conn, releaseH1BodyBudget. split; [split; [constructor | by destruct (_ <=? _) | done | by left] |]. intros (_ & Hc & _). done. Qed.
Lemma inv_closeAfter c : wf c -> Inv (set_closeAfter c).
Proof. intros Hw. split; [by eapply wf_same; [.. | exact Hw] |]. by intros [Hc _]. Qed.

Lemma inv_flush c : Inv c -> Inv (flush e c).2.
Proof.
  intros Hi. unfold flush. destruct (e_lingering (c_ends c)); [done |]. destruct (x_flush e (c_tick c)); [| by apply inv_tick | apply inv_close; apply (inv_wf _ (inv_tick _ Hi))].
  destruct (e_closeAfter (c_ends c)) eqn:Ea; [| by apply inv_tick]. cbn [snd]. unfold closeAfterResponse. destruct (_ && _); [| apply inv_close; apply (inv_wf _ (inv_tick _ (inv_tick _ Hi)))]. split; [eapply wf_same; [.. | exact (inv_wf _ Hi)]; done |]. intros [Hc _]. cbn in Hc. congruence.
Qed.

Lemma service_spec c closed peerClosed : Inv c -> exists c', serviceBuffered e c closed peerClosed = Some c' /\ Inv c'.
Proof.
  intros Hi. unfold serviceBuffered. set (served := if _ || _ then _ else _). assert (Hs : exists b c1, served = Some (b, c1) /\ Inv c1).
  { unfold served. destruct (_ || _).
    - destruct (serve_spec c (inv_wf _ Hi)) as (c1 & st & -> & Hw1 & He1 & Hf1). set (c2 := match st with h1StepClose => set_closeAfter c1 | _ => c1 end). assert (Hi2 : Inv c2) by (unfold c2; destruct st; [| | by apply inv_closeAfter]; (split; [done |]; intros Hl; apply Hf1; [apply (inv_live _ Hi); by eapply live_same | done])).
      destruct (_ && _); [by eexists _, _ |]. pose proof (inv_flush _ Hi2). destruct (flush e c2) as [b c3]. by exists b, c3.
    - destruct (_ && _); [| by eexists _, _]. pose proof (inv_flush _ Hi). destruct (flush e c) as [b c3]. by exists b, c3. }
  destruct Hs as (b & c1 & -> & Hi1). destruct b; [| by exists c1]. destruct closed; [eexists; split; [done |]; apply inv_close; apply (inv_wf _ Hi1) |]. destruct (dispatching _); [by exists c1 |]. destruct (_ || _); [| by exists c1].
  eexists. split; [done |]. destruct (settled e c1); [apply inv_close | apply inv_closeAfter]; apply (inv_wf _ (inv_tick _ Hi1)).
Qed.

Lemma framedTo_receive c p m rest : bytes_ok (l_received (c_log c)) -> bytes_ok p -> framedTo c m rest -> framedTo (receive c p) m (rest ++ p).
Proof. intros H1 H2 (fss & F1 & F2). exists fss. split; [exact F1 |]. apply framing_extend; [done | done | by apply Forall_app]. Qed.

Lemma inv_receive c p : bytes_ok p -> Inv c -> Inv (receive c p).
Proof.
  intros Hp [Hw Hf]. destruct Hw as [W1 W2 W3 W4]. split; [split; [by apply Forall_app | by apply Forall_app | done | done] |]. intros Hl. destruct (Hf Hl) as [(m & rest & F1) F2 F3]. pose proof (fun m rest => framedTo_receive c p m rest W2 Hp) as Hto. split; [eexists _, _; by apply Hto | | exact F3].
  change (c_in (receive c p)) with (c_in c). destruct (c_in c) as [i |].
  - destruct F2 as (R1 & R2 & R3). split_and!; [done | done |]. unfold framedIn in *. destruct (in_done i); [destruct R3 as [R3 | R3]; [by left | right; by apply Hto] |]. destruct R3 as (h & R3 & R4). exists h. split; [| done]. cbn. rewrite app_assoc. by apply Hto.
  - destruct F2 as [F2 | [F2 F4]]; [by left | right]. split; [by apply Hto |]. destruct F4 as [F4 | (h & q & Hh & Ha & Hc & Hst & Hr & Hs)]; [by left | right]. exists h, q. cbn. rewrite zlen_app. pose proof (zlen_nonneg p). split_and!; try done; try lia; [apply headOf_stable; [done | by apply Forall_app | done | by destruct Ha] |]. intros more r. rewrite <- app_assoc. apply Hs.
Qed.

Lemma inv_abort c : Inv c -> Inv (abortStarvedBody c).
Proof. intros Hi. unfold abortStarvedBody. destruct (_ && _); [apply inv_close; apply (inv_wf _ Hi) | done]. Qed.

Lemma read_spec c p full peerClosed : bytes_ok p -> Inv c -> exists c', readOnce e c p full peerClosed = Some c' /\ Inv c'.
Proof.
  intros Hp Hi. unfold readOnce. destruct (e_lingering _); [by exists c |]. destruct (_ && _); [by exists c |]. destruct (service_spec (receive c p) false peerClosed (inv_receive c p Hp Hi)) as (c1 & -> & Hi1). apply inv_abort in Hi1. destruct (_ || _); [by eexists |]. destruct (_ <? _); [by eexists |]. eexists. split; [done |]. apply inv_close. apply (inv_wf _ Hi1).
Qed.

Lemma eof_spec c : Inv c -> exists c', readEOF e c = Some c' /\ Inv c'.
Proof.
  intros Hi. unfold readEOF. destruct (e_lingering _); [eexists; split; [done |]; apply inv_close; apply (inv_wf _ Hi) |]. destruct (_ && _); [by exists c |]. destruct (h1BodyStreaming c); [| by apply service_spec].
  assert (Hi1 : Inv (set_inputEOF c)) by (destruct Hi as [Hw Hf]; split; [by eapply wf_same; [.. | exact Hw] |]; intros Hl; by eapply framed_same; [.. | apply Hf; exact Hl]). destruct (service_spec (set_inputEOF c) false false Hi1) as (c1 & -> & Hi2). eexists. split; [done |]. by apply inv_abort.
Qed.

(** The end of a streamed body, finished or not. *)
Lemma endBody_spec c : Inv c -> running c = true -> exists mustClose, h1EndBodyStream c = (mustClose, set_in c None) /\ wf (set_in c None) /\
  (live c -> (exists m rest, framedTo c m rest) /\ (requests c = answers c + 1)%nat /\ (mustClose = false -> framedTo c AtHead (c_unread c) /\ scanOk c)).
Proof.
  intros [Hw Hf] Hr. unfold h1EndBodyStream. assert (Hw' : wf (set_in c None)) by (destruct Hw; split; [done | done | done | by left]). destruct (c_in c) as [i |] eqn:Hin.
  - eexists. split; [done |]. split; [done |]. intros Hl. destruct (Hf Hl) as [F1 F2 F3]. rewrite Hr in F3. rewrite Hin in F2. destruct F2 as (_ & Hz & F2). split_and!; [done | done |]. unfold framedIn in F2. destruct (in_done i); [| done]. intros Hb. destruct F2 as [F2 | F2]; [congruence |]. split; [done | by left].
  - exists false. split; [f_equal; destruct c; cbn in *; by subst |]. split; [done |]. intros Hl. destruct (Hf Hl) as [F1 F2 F3]. rewrite Hr in F3. rewrite Hin in F2. split_and!; [done | done |]. intros _. unfold running in Hr. destruct F2 as [(D1 & D2 & _) | F2]; [rewrite D1, D2 in Hr; done | done].
Qed.

(** A long response begins; without keep-alive nothing is read after it. *)
Lemma framed_long c c' keep : c_unread c' = c_unread c -> c_chunkScanPos c' = c_chunkScanPos c -> c_in c' = None -> l_pieces (c_log c') = l_pieces (c_log c) -> l_received (c_log c') = l_received (c_log c) ->
  dispatching (c_run c') = true -> r_outBusy (c_run c') = true -> h1OutKeepAlive (c_run c') = keep -> answers c' = S (answers c) ->
  (exists m rest, framedTo c m rest) -> (requests c = answers c + 1)%nat -> (keep = true -> framedTo c AtHead (c_unread c) /\ scanOk c) -> framed c'.
Proof.
  intros E1 E2 E3 E4 E5 E6 E7 E8 E9 (m & rest & Hs) Hr Hk. assert (Hto : forall m rest, framedTo c m rest -> framedTo c' m rest) by (intros m' r'; by apply framedTo_same). split; [eexists _, _; by apply Hto | rewrite E3 |].
  - destruct keep; [right | by left]. destruct (Hk eq_refl) as [K1 K2]. rewrite E1. split; [by apply Hto |]. unfold scanOk in *. by rewrite E1, E2.
  - unfold running. rewrite E6, E7. cbn [andb negb]. unfold requests in *. rewrite E4, E9. lia.
Qed.

Lemma answers_release c : answers (releaseH1BodyBudget c) = answers c /\ requests (releaseH1BodyBudget c) = requests c.
Proof. unfold releaseH1BodyBudget. by destruct (_ <=? _). Qed.

Lemma finish_spec c o : Inv c -> running c = true -> exists c', finishH1Dispatch e c o = Some c' /\ Inv c'.
Proof.
  intros Hi Hr. unfold finishH1Dispatch. destruct (endBody_spec c Hi Hr) as (mustClose & -> & Hw & Hl). cbn [c_run set_in]. set (reqClose := h1DispatchClose (c_run c) || mustClose || _). set (c1 := tick (releaseH1BodyBudget (set_in c None))).
  assert (K : c_unread c1 = c_unread c /\ c_chunkScanPos c1 = c_chunkScanPos c /\ c_run c1 = c_run c /\ c_in c1 = None /\ c_log c1 = c_log c /\ c_ends c1 = c_ends c) by (unfold c1, releaseH1BodyBudget; destruct (_ <=? _); by split_and!). destruct K as (K1 & K2 & K3 & K4 & K5 & K6).
  clearbody c1. assert (Hu : bytes_ok (c_unread c1) /\ bytes_ok (l_received (c_log c1))) by (destruct Hw; rewrite K1, K5; by split). destruct Hu as [Hu1 Hu2]. assert (Hput : forall o, isAnswer o = true -> answers (put c1 o) = S (answers c)) by (intros o' Ho; rewrite answers_put, Ho; unfold answers; rewrite K5; lia).
  assert (Hlive : forall c', c_ends c' = c_ends c1 -> live c' -> live c) by (intros c' E; apply live_same; congruence). assert (Hlong : forall o close keep, isAnswer o = true -> (keep = true -> reqClose = false) -> Inv (set_run (put c1 o) (mkRun true close true keep))).
  { intros o' close keep Ho Hkeep. split; [by apply wf_idle |]. intros Hlv. destruct (Hl (Hlive _ eq_refl Hlv)) as (F1 & F2 & F3). apply (framed_long c _ keep); try done; [by cbn; rewrite K5 | by cbn; rewrite K5 | by apply Hput |]. intros ->. apply F3. specialize (Hkeep eq_refl). unfold reqClose in Hkeep. apply orb_false_iff in Hkeep as [Hkeep _]. by apply orb_false_iff in Hkeep as [_ ?]. }
  destruct o as [r | keepOk | |].
  - destruct (h1LargeBody r); [eexists; split; [done |]; apply Hlong; [done |]; by destruct reqClose |]. set (c2 := set_run _ idleRun). destruct reqClose eqn:Erc; [eexists; split; [done |]; apply inv_closeAfter; by apply wf_idle |].
    apply service_spec. split; [by apply wf_idle |]. intros Hlv. destruct (Hl (Hlive _ eq_refl Hlv)) as (_ & F2 & F3). destruct F3 as [F3 F4]; [unfold reqClose in Erc; apply orb_false_iff in Erc as [Erc _]; by apply orb_false_iff in Erc as [_ ?] |]. apply framed_between; [by split | | |].
    + change (c_unread c2) with (c_unread c1). rewrite K1. eapply framedTo_same; [.. | exact F3]; by cbn; rewrite K5.
    + unfold scanOk in *. change (c_unread c2) with (c_unread c1). change (c_chunkScanPos c2) with (c_chunkScanPos c1). by rewrite K1, K2.
    + change (answers c2) with (answers (put c1 (OutResponse r true))). rewrite Hput by done. unfold requests in *. cbn. rewrite K5. lia.
  - eexists. split; [done |]. apply Hlong; [done |]. by destruct reqClose.
  - eexists. split; [done |]. apply inv_closeAfter. by apply wf_idle.
  - eexists. split; [done |]. split; [by apply wf_idle |]. by intros (_ & _ & Hd).
Qed.

Lemma finishOut_spec c : Inv c -> dispatching (c_run c) = true -> r_outBusy (c_run c) = true -> exists c', h1FinishOut e c = Some c' /\ Inv c'.
Proof.
  intros [Hw Hf] Hd Hb. unfold h1FinishOut. assert (Hr : running c = false) by (unfold running; by rewrite Hd, Hb). assert (Hin : c_in c = None) by (destruct (wf_run _ Hw); [done | congruence]).
  assert (Hw1 : wf (set_run c idleRun)) by (destruct Hw; by apply wf_idle). destruct (h1OutKeepAlive (c_run c)) eqn:Ek.
  - assert (Hi : Inv (set_run c idleRun)).
    { split; [done |]. intros Hl. destruct (Hf Hl) as [_ F2 F3]. rewrite Hin in F2. rewrite Hr in F3. destruct F2 as [(_ & _ & Hk) | [F2 F4]]; [congruence |]. apply framed_between; [by split | exact F2 | exact F4 |]. change (requests (set_run c idleRun)) with (requests c). change (answers (set_run c idleRun)) with (answers c). lia. }
    pose proof (inv_flush _ Hi) as Hi2. destruct (flush e (set_run c idleRun)) as [b c2]. cbn [snd] in Hi2. destruct b; cbn [negb]; [by apply service_spec | by eexists].
  - pose proof (inv_flush _ (inv_closeAfter _ Hw1)) as Hi2. destruct (flush e _) as [b c2]. cbn [snd] in Hi2. destruct b; by eexists.
Qed.

Lemma reader_inv c i b : Inv c -> c_in c = Some i -> Inv (set_in c (Some (mkH1BodyIn b (in_left i) (in_chunk i) (in_done i) (in_broken i)))).
Proof.
  intros [[W1 W2 W3 W4] Hf] Hin. rewrite Hin in W3. split; [split; [done | done | exact W3 | right; destruct W4; [congruence | done]] |]. intros Hl. destruct (Hf Hl) as [F1 F2 F3]. rewrite Hin in F2. destruct F2 as (R1 & R2 & R3). split; [exact F1 | by split_and! | exact F3].
Qed.

Lemma acked_spec c i : Inv c -> c_in c = Some i -> exists c', h1BodyAcked e c i = Some c' /\ Inv c'.
Proof.
  intros Hi Hin. unfold h1BodyAcked, h1FeedBody. pose proof (reader_inv c i (body_takeAck (in_reader i)).2 Hi Hin) as Hi1. set (i1 := mkH1BodyIn _ _ _ _ _) in *. cbn [c_in set_in]. set (c1 := set_in c (Some i1)) in *.
  destruct (feed_spec (length (c_unread c1)) c1 i1 (inv_wf _ Hi1) eq_refl ltac:(lia)) as (c2 & i2 & -> & Hin2 & Hw2 & [G1 G2 G3 G4 G5 G6] & Hf2).
  assert (Hi2 : Inv c2). { split; [done |]. intros Hl. destruct (inv_live _ Hi1 (live_same _ _ G2 Hl)) as [F1 F2 F3]. cbn [c_in set_in c1] in F2. destruct F2 as (R1 & R2 & R3). destruct (Hf2 R3 F1) as [R4 R5]. split; [done | rewrite Hin2; split_and!; [unfold running in *; by rewrite G1 | by rewrite G3 | done] |]. unfold running in *. by rewrite G5, G6, G1. }
  apply inv_abort in Hi2. destruct (_ || _); [by eexists | by apply service_spec].
Qed.

Definition eventOk (ev : h1Event) : Prop := match ev with EvBytes p _ _ => bytes_ok p | _ => True end.

Lemma event_spec c ev : eventOk ev -> Inv c -> exists c', h1Event_step e c ev = Some c' /\ Inv c'.
Proof.
  intros Hev Hi. unfold h1Event_step. destruct (_ || _); [by exists c |]. destruct ev as [p full pc | | o | | n | | | |].
  - by apply read_spec.
  - by apply eof_spec.
  - destruct (dispatching (c_run c) && negb (r_outBusy (c_run c))) eqn:E; [by apply finish_spec | by exists c].
  - destruct (dispatching (c_run c) && r_outBusy (c_run c)) eqn:E; [apply andb_true_iff in E as [E1 E2]; by apply finishOut_spec | by exists c].
  - eexists. split; [done |]. unfold onReader. destruct (c_in c) eqn:E; [by apply reader_inv | done].
  - eexists. split; [done |]. unfold onReader. destruct (c_in c) eqn:E; [by apply reader_inv | done].
  - destruct (c_in c) eqn:E; [by apply acked_spec | by exists c].
  - eexists. split; [done |]. by apply inv_flush.
  - eexists. split; [done |]. apply inv_close. apply (inv_wf _ Hi).
Qed.

Lemma inv_new : Inv newH1Conn.
Proof. split; [split; [constructor | constructor | done | by left] |]. intros _. apply framed_between; [done | exists []; split; [constructor | apply fr_stop] | by left | done]. Qed.

Lemma run_spec evs : forall c, Forall eventOk evs -> Inv c -> exists c', h1Run_events e c evs = Some c' /\ Inv c'.
Proof. induction evs as [| ev evs IH]; intros c Hev Hi; cbn [h1Run_events]; [by exists c |]. apply Forall_cons in Hev as [H1 H2]. destruct (event_spec c ev H1 Hi) as (c1 & -> & Hi1). by apply IH. Qed.

(** The framing a live connection has followed; between requests it is at the
    first byte not consumed. *)
Lemma inv_framing c : Inv c -> live c -> exists fss m rest, Forall2 pieceFrames (l_pieces (c_log c)) fss /\ framing e AtHead (l_received (c_log c)) (concat fss) m rest /\ (between c -> m = AtHead /\ rest = c_unread c).
Proof.
  intros Hi Hl. pose proof (inv_live _ Hi Hl) as Hf. destruct (c_in c) eqn:Hin.
  - destruct (fd_some _ Hf) as (m & rest & fss & F1 & F2). exists fss, m, rest. split_and!; [done | done |]. intros [H _]. congruence.
  - destruct (dispatching (c_run c)) eqn:Hd.
    + destruct (fd_some _ Hf) as (m & rest & fss & F1 & F2). exists fss, m, rest. split_and!; [done | done |]. intros [_ H]. congruence.
    + destruct (between_framed c ltac:(by split) Hf) as ((fss & F1 & F2) & _). by exists fss, AtHead, (c_unread c).
Qed.

End Inv.

(** C12: an HTTP/1 connection hands over exactly the requests its bytes are. Over
    every sequence of reads of any size, handler results, writes, flushes and
    timeouts, the connection never gets stuck, and until it has decided to close:
    the requests handed over (by the parser or answered by the short cut), with
    their bodies (collected, decoded or streamed) and trailers, are the framing of
    the bytes received; between requests it stands at the first byte after them;
    any other way to frame the same bytes, or more bytes of the same connection,
    agrees with it as far as both go, so the segmentation of the input, the
    streaming and the state of the server do not change what a request is; and
    each request has been answered once, in order, but the one whose handler runs. *)
Theorem h1_requests_framed e evs : H1EnvOk e -> Forall eventOk evs ->
  exists c, h1Run_events e newH1Conn evs = Some c /\
    (live c -> exists fss m rest, Forall2 pieceFrames (l_pieces (c_log c)) fss /\ framing e AtHead (l_received (c_log c)) (concat fss) m rest /\
      (between c -> m = AtHead /\ rest = c_unread c) /\
      (forall more fs' m' rest', bytes_ok more -> framing e AtHead (l_received (c_log c) ++ more) fs' m' rest' -> concat fss `prefix_of` fs' \/ fs' `prefix_of` concat fss) /\
      (requests c = answers c + if running c then 1 else 0)%nat).
Proof.
  intros Hok Hev. destruct (run_spec e evs newH1Conn Hev (inv_new e)) as (c & E & Hi). exists c. split; [exact E |]. intros Hl. destruct (inv_framing e c Hi Hl) as (fss & m & rest & F1 & F2 & F3). exists fss, m, rest. split_and!; [done | done | done | | exact (fd_answers _ _ (inv_live _ _ Hi Hl))].
  intros more fs' m' rest' Hm Hf'. assert (Hb : bytes_ok (l_received (c_log c) ++ more)) by (apply Forall_app; split; [exact (wf_received _ (inv_wf _ _ Hi)) | done]). eapply (framing_comparable e); [by apply (framing_extend e AtHead _ _ m rest more F2) | done | exact Hf'].
Qed.

(** ** A concrete server *)

Definition demo_env (flushes : h1Flush) : h1Env :=
  mkH1Env false firstH1SpecialSWAR h1HeaderLineSWAR indexCRLFCRLFSwar h1BlockIndexRef 0 0 0 65536 1 false 65536
    {| MaxInFlightBodyBytes := 1000; MaxBodySize := 1000 |} (fun _ => false) (fun _ => true) (fun _ => true) (fun _ => 0) (fun _ => 0) (fun _ => flushes) (fun _ => true) (fun _ => false) (fun _ => false).
#[export] Instance demo_env_ok flushes : H1EnvOk (demo_env flushes).
Proof. by split. Qed.

Definition demo_get : bytes := requestHead (str "GET") (str "/a") false [(str "Host", str "a")].
Definition demo_chunks : bytes := requestHead (str "POST") (str "/b") false [(str "Host", str "a"); (str "Transfer-Encoding", str "chunked")] ++ appendH1Chunk [] (str "hello") ++ h1LastChunk.
Definition demo_events : list h1Event :=
  [EvBytes (demo_get ++ ztake 60 demo_chunks) false false; EvDone (DResponse (resp_String freshResponse (str "ok"))); EvBytes (zdrop 60 demo_chunks) false false; EvRead 3; EvDone (DResponse (resp_String freshResponse (str "ok")))].


Lemma h1_requests_framed_witness : exists c, h1Run_events (demo_env FlushDrained) newH1Conn demo_events = Some c /\ live c /\ l_received (c_log c) = demo_get ++ demo_chunks /\
  exists fss m rest, Forall2 pieceFrames (l_pieces (c_log c)) fss /\ framing (demo_env FlushDrained) AtHead (l_received (c_log c)) (concat fss) m rest /\ (requests c = 2)%nat.
Proof.
  assert (Hev : Forall eventOk demo_events) by (repeat (constructor; [first [exact I | concrete] |]); constructor).
  destruct (h1_requests_framed (demo_env FlushDrained) demo_events (demo_env_ok FlushDrained) Hev) as (c & E & H). assert (Hl : live c /\ l_received (c_log c) = demo_get ++ demo_chunks /\ (requests c = 2)%nat) by (vm_compute in E; injection E as <-; unfold live; split_and!; vm_compute; reflexivity).
  destruct Hl as (Hl & Hr & H2). destruct (H Hl) as (fss & m & rest & F1 & F2 & _). exists c. split; [exact E |]. split; [exact Hl |]. split; [exact Hr |]. exists fss, m, rest. split; [exact F1 |]. split; [exact F2 | exact H2].
Defined.

(** C25: an HTTP/1 request head that the parser accepts is a request line, field
    lines and an empty line, byte for byte: a token method, a target without spaces
    or controls, version 1.0 or 1.1, and fields "token:value" without controls; the
    headers are those fields with the values trimmed, there is exactly one valid
    Host (at most one in 1.0), no more fields than the limit, and no more bytes
    than the limit and the final line end. When the length it reports is not
    negative, every way to read the framing fields, following any one of them,
    gives the framing the parser reports: two readers cannot differ. It is negative
    only when a Content-Length cannot be read or two of them differ, and the
    connection refuses such a head: it answers 400 (or 417, to an unknown
    expectation) and closes, and hands nothing over. *)
Theorem h1_head_sound e data h q : H1EnvOk e -> bytes_ok data -> headOf e data = Some (h, q) -> acceptedHead h ->
  headAccepted data (effectiveBytes (x_maxHeaderSize e)) (effectiveCount (x_maxHeaderCount e)) h q /\
  (0 <= contentLength h -> forall fr, mayFrame (q_Headers q) fr -> fr = framingOf h) /\
  (contentLength h < 0 -> lengthsConflict (q_Headers q) /\
    forall c, exists status msg, (status = 400 \/ status = 417) /\ h1Request_turn e c data = Some (h1Reject c status msg, h1StepClose)).
Proof.
  intros Hok Hb Hp Ha. pose proof (headOf_sound e data h q Hb Hp Ha) as Hs. split; [exact Hs |]. split; [intros H0 fr; by apply (framing_agrees _ _ _ _ _ _ Hs) |]. intros H0. split; [by apply (ha_conflict _ _ _ _ _ Hs) |].
  destruct (negative_length _ _ _ _ _ Hs H0) as [Ec El]. intros c. pose proof Ha as [Ha1 Ha2]. unfold h1Request_turn. destruct (ha_limits _ _ _ _ _ Hs) as (_ & _ & Hsm). rewrite Hp, Ha1, Ha2, Hsm. cbn [negb]. unfold collectBody, collectLength. rewrite Ec, El. replace (contentLength h <? 0) with true by (clear - H0; lia). cbn [andb]. destruct (q_expect q); eexists _, _; (split; [| reflexivity]); auto.
Qed.

Definition clash_head : bytes := requestHead (str "POST") (str "/") false [(str "Host", str "a"); (str "Content-Length", str "3"); (str "Content-Length", str "4")].

Lemma h1_head_sound_witness : exists h q h' q', headOf (demo_env FlushDrained) (demo_head ++ str "abc") = Some (h, q) /\ headAccepted (demo_head ++ str "abc") 8192 128 h q /\
  (forall fr, mayFrame (q_Headers q) fr -> fr = LengthBody 3) /\
  headOf (demo_env FlushDrained) clash_head = Some (h', q') /\ acceptedHead h' /\ lengthsConflict (q_Headers q').
Proof.
  destruct (headOf (demo_env FlushDrained) (demo_head ++ str "abc")) as [[h q] |] eqn:E; [| vm_compute in E; discriminate E]. destruct (headOf (demo_env FlushDrained) clash_head) as [[h' q'] |] eqn:E'; [| vm_compute in E'; discriminate E']. exists h, q, h', q'.
  assert (Ha : acceptedHead h /\ framingOf h = LengthBody 3 /\ contentLength h = 3) by (vm_compute in E; injection E as <- _; split_and!; [split; vm_compute; reflexivity | vm_compute; reflexivity | vm_compute; reflexivity]). destruct Ha as (Ha & Ef & E3). assert (Ha' : acceptedHead h' /\ contentLength h' = -1) by (vm_compute in E'; injection E' as <- _; split; [split; vm_compute; reflexivity | vm_compute; reflexivity]). destruct Ha' as (Ha' & E1).
  destruct (h1_head_sound (demo_env FlushDrained) (demo_head ++ str "abc") h q (demo_env_ok FlushDrained) ltac:(concrete) E Ha) as (H1 & H2 & _). destruct (h1_head_sound (demo_env FlushDrained) clash_head h' q' (demo_env_ok FlushDrained) ltac:(concrete) E' Ha') as (_ & _ & H3).
  rewrite Ef, E3 in H2. split_and!; [reflexivity | exact H1 | exact (H2 ltac:(lia)) | reflexivity | exact Ha' | apply H3; lia].
Defined.

(** A client that sends a request in the body of another. *)
Definition smuggled : bytes := requestHead (str "GET") (str "/evil") false [(str "Host", str "a")].
Definition carrier_head : bytes := requestHead (str "POST") (str "/b") false [(str "Host", str "a"); (str "Transfer-Encoding", str "chunked")].
Definition carrier_size : bytes := str "1f" ++ [CR; LF].

(** A connection that is to be closed goes on serving. The handler of a
    request with a streamed body answers before the body is read; the response
    says "Connection: close" and the connection is marked to be closed after it.
    As long as the socket does not take the response, bytes that arrive are parsed
    as new requests: here the rest of the body, which the framing of the bytes
    says is a body and nothing else, is handed to a handler as a request of its
    own. *)
Theorem h1_close_divergence : exists c c' r q1 q2,
  h1Run_events (demo_env FlushBlocked) newH1Conn [EvBytes (carrier_head ++ carrier_size) false false; EvDone (DResponse (resp_String (Status freshResponse 413) []))] = Some c /\
  e_closeAfter (c_ends c) = true /\ l_out (c_log c) = [OutResponse r false] /\
  h1Event_step (demo_env FlushBlocked) c (EvBytes smuggled false false) = Some c' /\
  l_pieces (c_log c') = [PcRequest (mkHanded q1 [] [] true); PcRequest (mkHanded q2 [] [] false)] /\ q_Path q2 = str "/evil" /\
  l_received (c_log c') = carrier_head ++ carrier_size ++ smuggled /\
  framing (demo_env FlushBlocked) AtHead (carrier_head ++ carrier_size ++ smuggled ++ [CR; LF] ++ h1LastChunk) [FHead q1; FBody smuggled []] AtHead [].
Proof.
  eexists _, _, _, _, _. split_and!; [vm_compute; reflexivity | vm_compute; reflexivity | vm_compute; reflexivity | vm_compute; reflexivity | vm_compute; reflexivity | vm_compute; reflexivity | vm_compute; reflexivity |].
  eapply fr_step; [eapply fs_head; [vm_compute; reflexivity | by split] |]. eapply fr_step; [| apply fr_stop]. apply fs_body. unfold bodyFramed. cbn [chunkedEncoding].
  destruct (complete_run false h1HeaderLineSWAR (carrier_size ++ smuggled ++ [CR; LF] ++ h1LastChunk) 0 (zlen (carrier_size ++ smuggled ++ [CR; LF] ++ h1LastChunk)) (zlen (carrier_size ++ smuggled ++ [CR; LF] ++ h1LastChunk)) smuggled []) as (d & Hd & H1 & H2); [by vm_compute | vm_compute; reflexivity | vm_compute; reflexivity |].
  exists d. split; [exact Hd | by split].
Qed.
