(* ===== verification/H2Enc.v ===== *)
(** Response heads of HTTP/2 (src/core/h2_enctable.go, h2_headers.go,
    h2_headmemo.go, the writers of header frames of h2_shared.go): the encoder's
    dynamic table, the choice of representation for each field, and the memo of
    the last block. The dates are objects, compared by identity; [dateAt] is the
    text of the object. *)
From stdpp Require Import base list numbers strings.
From Stdlib Require Import ZArith Lia ZifyBool.
From S2P Require Import Prelude Utils HpackInt HpackTable HpackDyn Hpack H1Resp.

Open Scope list_scope.
Open Scope Z_scope.

Definition h2EncTableMaxSize : Z := 4096.
Definition h2EncIndexMaxValue : Z := 128.
Definition hpackDynamicIndexMin : Z := zlen HpackStaticTable.
Definition hpackStaticDate : Z := 33.
Definition hpackStaticContentLength : Z := 28.
Definition hpackStaticContentType : Z := 31.
Definition hpackStaticServer : Z := 54.
Definition h2DateValueLen : Z := 29.

Definition h2HeadMemoMaxFields : Z := 16.
Definition h2HeadMemoMaxKey : Z := 1024.
Definition h2HeadMemoMissBackoff : Z := 64.

Record h2HeadMemo := mkHeadMemo {
  m_gen : Z;
  m_status : Z;
  m_contentLength : Z;
  m_date : Z;
  m_ctLen : Z;
  m_key : bytes;
  m_headerLens : list Z;
  m_block : bytes;
  m_probation : bool;
  m_skip : Z }.

(** [t_entries], oldest first; [t_gen] is a [uint32]. *)
Record hpackEncTable := mkEncTable {
  t_entries : list field;
  t_size : Z;
  t_maxSize : Z;
  t_pendingUpdate : bool;
  t_gen : Z;
  t_headMemo : option h2HeadMemo }.

Definition set_memo (t : hpackEncTable) (m : option h2HeadMemo) : hpackEncTable := mkEncTable (t_entries t) (t_size t) (t_maxSize t) (t_pendingUpdate t) (t_gen t) m.
Definition nextGen (t : hpackEncTable) : Z := u32 (t_gen t + 1).

(** ** The table *)

Definition hpackEncEntrySize (name value : bytes) : Z := zlen name + zlen value + hpackEntryOverhead.

Definition enc_reset (t : hpackEncTable) : hpackEncTable := mkEncTable [] 0 h2EncTableMaxSize false (nextGen t) (t_headMemo t).

Fixpoint evictFront (entries : list field) (size limit : Z) : list field * Z :=
  match entries with
  | [] => ([], size)
  | f :: rest => if limit <? size then evictFront rest (size - hpackEncEntrySize f.1 f.2) limit else (entries, size)
  end.
Definition evictTo (t : hpackEncTable) (limit : Z) : hpackEncTable :=
  let '(entries, size) := evictFront (t_entries t) (t_size t) limit in
  if zlen entries =? zlen (t_entries t) then t else mkEncTable entries size (t_maxSize t) (t_pendingUpdate t) (nextGen t) (t_headMemo t).

Definition enc_setPeerLimit (t : hpackEncTable) (limit : Z) : hpackEncTable :=
  let newMax := Z.min limit h2EncTableMaxSize in
  if newMax =? t_maxSize t then t
  else
    let t := evictTo (mkEncTable (t_entries t) (t_size t) newMax (t_pendingUpdate t) (t_gen t) (t_headMemo t)) newMax in
    mkEncTable (t_entries t) (t_size t) (t_maxSize t) true (nextGen t) (t_headMemo t).

(** From the newest entry; the first argument is the table newest first. *)
Fixpoint findEntry (newest : list field) (name value : bytes) (idx : Z) : Z :=
  match newest with
  | [] => 0
  | f :: newest => if bytes_eqb f.2 value && bytes_eqb f.1 name then idx else findEntry newest name value (idx + 1)
  end.
Definition enc_find (t : hpackEncTable) (name value : bytes) : Z := findEntry (rev (t_entries t)) name value hpackDynamicIndexMin.

Definition enc_add (t : hpackEncTable) (name value : bytes) : hpackEncTable :=
  let size := hpackEncEntrySize name value in
  if t_maxSize t <? size then evictTo t 0
  else
    let t := evictTo t (t_maxSize t - size) in
    mkEncTable (t_entries t ++ [(name, value)]) (t_size t + size) (t_maxSize t) (t_pendingUpdate t) (nextGen t) (t_headMemo t).

Definition enc_beginBlock (t : hpackEncTable) (buf : bytes) : bytes * hpackEncTable :=
  if t_pendingUpdate t then (EncodeInt buf 0x20 5 (t_maxSize t), mkEncTable (t_entries t) (t_size t) (t_maxSize t) false (t_gen t) (t_headMemo t)) else (buf, t).

(** ** Fields *)

(** The encoder: the process-wide cache and the bytes written. *)
Abbreviation encoder := (fieldCache * bytes)%type.
Definition enc_static (enc : encoder) (idx : Z) (value : bytes) : encoder := let '(buf, cache) := encodeStaticFieldCached enc.1 enc.2 idx value in (cache, buf).
Definition enc_fold (enc : encoder) (name value : bytes) : encoder := let '(buf, cache) := EncodeHeaderFold enc.1 enc.2 name value in (cache, buf).

Definition encodeField (t : hpackEncTable) (enc : encoder) (staticNameIdx : Z) (lowerName value : bytes) : hpackEncTable * encoder :=
  let idx := enc_find t lowerName value in
  if 0 <? idx then (t, (enc.1, EncodeIndexed enc.2 idx))
  else if (h2EncIndexMaxValue <? zlen value) || (t_maxSize t <? hpackEncEntrySize lowerName value) then
    (t, if 0 <? staticNameIdx then enc_static enc staticNameIdx value else (enc.1, EncodeString (EncodeString (enc.2 ++ [0x00]) lowerName) value))
  else
    let buf := if 0 <? staticNameIdx then EncodeInt enc.2 0x40 6 staticNameIdx else EncodeString (enc.2 ++ [0x40]) lowerName in
    (enc_add t lowerName value, (enc.1, EncodeString buf value)).

Definition indexable (name lower : bytes) : option bytes := if EqualFoldASCII name lower then Some lower else None.
Definition h2IndexableResponseField (name : bytes) : option bytes :=
  match zlen name with
  | 4 => indexable name (str "vary")
  | 7 => indexable name (str "alt-svc")
  | 13 => indexable name (str "cache-control")
  | 15 => indexable name (str "x-frame-options")
  | 16 => indexable name (str "content-encoding")
  | 22 => indexable name (str "x-content-type-options")
  | 25 => indexable name (str "strict-transport-security")
  | 27 => indexable name (str "access-control-allow-origin")
  | 29 => indexable name (str "access-control-expose-headers")
  | 32 => indexable name (str "access-control-allow-credentials")
  | _ => None
  end.

Definition isConnectionSpecificResponseName (name : bytes) : bool :=
  match zlen name with
  | 2 => headerNameIs name (str "te")
  | 7 => headerNameIs name (str "upgrade")
  | 10 => headerNameIs name (str "connection") || headerNameIs name (str "keep-alive")
  | 16 => headerNameIs name (str "proxy-connection")
  | 17 => headerNameIs name (str "transfer-encoding")
  | _ => false
  end.
Definition connectionSpecificResponseLengthMask : Z := Z.lor (Z.lor (Z.lor (Z.lor (2 ^ 2) (2 ^ 7)) (2 ^ 10)) (2 ^ 16)) (2 ^ 17).
Definition isConnectionSpecificResponseField (name : bytes) : bool :=
  (zlen name <? 64) && negb (Z.land connectionSpecificResponseLengthMask (Z.shiftl 1 (zlen name)) =? 0) && isConnectionSpecificResponseName name.

(** ** Response heads *)

(** With a table, or without one ([None]). *)
Definition encodeH2StaticField (t : option hpackEncTable) (enc : encoder) (staticIdx : Z) (lowerName value : bytes) : option hpackEncTable * encoder :=
  match t with
  | None => (None, enc_static enc staticIdx value)
  | Some t => let '(t, enc) := encodeField t enc staticIdx lowerName value in (Some t, enc)
  end.
Definition encodeH2CustomField (t : option hpackEncTable) (enc : encoder) (name value : bytes) : option hpackEncTable * encoder :=
  match t with
  | Some t' =>
      match h2IndexableResponseField name with
      | Some lower => let '(t, enc) := encodeField t' enc (hpackFindStaticNameFold lower) lower value in (Some t, enc)
      | None => (t, enc_fold enc name value)
      end
  | None => (t, enc_fold enc name value)
  end.

(** The loop over the headers, with what has been written. *)
Fixpoint headerLoop (t : option hpackEncTable) (enc : encoder) (headers : list field) (wroteType wroteLength wroteServer : bool) : option hpackEncTable * encoder * bool :=
  match headers with
  | [] => (t, enc, wroteServer)
  | (name, value) :: headers =>
      if (zlen name =? 0) || (znth name 0 =? 58) || isConnectionSpecificResponseField name then headerLoop t enc headers wroteType wroteLength wroteServer
      else if EqualFoldASCII name (str "content-type") then
        if wroteType then headerLoop t enc headers true wroteLength wroteServer
        else let '(t, enc) := encodeH2StaticField t enc hpackStaticContentType (str "content-type") value in headerLoop t enc headers true wroteLength wroteServer
      else if EqualFoldASCII name (str "content-length") then
        headerLoop t (if wroteLength then enc else enc_fold enc name value) headers wroteType true wroteServer
      else if EqualFoldASCII name (str "server") then
        if wroteServer then headerLoop t enc headers wroteType wroteLength true
        else let '(t, enc) := encodeH2StaticField t enc hpackStaticServer (str "server") value in headerLoop t enc headers wroteType wroteLength true
      else let '(t, enc) := encodeH2CustomField t enc name value in headerLoop t enc headers wroteType wroteLength wroteServer
  end.

Section Dates.

Context (dateAt : Z -> bytes).

Definition appendH2DateFieldPrefix (dst : bytes) : bytes := EncodeInt (EncodeInt dst 0x00 4 hpackStaticDate) 0x00 7 h2DateValueLen.
Definition h2DateField_enc (date : Z) : bytes := appendH2DateFieldPrefix [] ++ dateAt date.

Definition encodeH2ResponseHeadersDated (t : option hpackEncTable) (enc : encoder) (date statusCode : Z) (contentType : bytes) (contentLength : Z) (headers : list field) (serverName : bytes) : option hpackEncTable * encoder :=
  let '(t, enc) := match t with Some t => let '(buf, t) := enc_beginBlock t enc.2 in (Some t, (enc.1, buf)) | None => (None, enc) end in
  let enc := (enc.1, EncodeStatus enc.2 statusCode) in
  let '(t, enc) :=
    if headersHaveFold headers (str "date") then (t, enc)
    else match t with
         | None => (None, (enc.1, enc.2 ++ h2DateField_enc date))
         | Some t => let '(t, enc) := encodeField t enc hpackStaticDate (str "date") (dateAt date) in (Some t, enc)
         end in
  let hasType := negb (bytes_eqb contentType []) in
  let '(t, enc) := if hasType then encodeH2StaticField t enc hpackStaticContentType (str "content-type") contentType else (t, enc) in
  let hasLength := 0 <=? contentLength in
  let enc := if hasLength then (enc.1, EncodeString (EncodeInt enc.2 0x00 4 hpackStaticContentLength) (appendUint [] contentLength)) else enc in
  let '(t, enc, wroteServer) := headerLoop t enc headers hasType hasLength false in
  if wroteServer then (t, enc) else encodeH2StaticField t enc hpackStaticServer (str "server") serverName.

Definition encodeH2ResponseHeaders (enc : encoder) (date statusCode : Z) (contentType : bytes) (contentLength : Z) (headers : list field) (serverName : bytes) : encoder :=
  (encodeH2ResponseHeadersDated None enc date statusCode contentType contentLength headers serverName).2.

(** ** The memo *)

Definition h2HeadMemoEligible (headers : list field) : bool :=
  if h2HeadMemoMaxFields <? zlen headers then false
  else (foldr (fun f n => zlen f.1 + zlen f.2 + n) 0 headers <=? h2HeadMemoMaxKey) && negb (headersHaveFold headers (str "date")).

Definition set_probation (m : h2HeadMemo) (probation : bool) (skip : Z) : h2HeadMemo := mkHeadMemo (m_gen m) (m_status m) (m_contentLength m) (m_date m) (m_ctLen m) (m_key m) (m_headerLens m) (m_block m) probation skip.

Definition headMemoReady (t : hpackEncTable) (headers : list field) : bool * hpackEncTable :=
  match t_headMemo t with
  | Some m => if 0 <? m_skip m then (false, set_memo t (Some (set_probation m (m_probation m) (m_skip m - 1)))) else ((zlen headers =? 0) || h2HeadMemoEligible headers, t)
  | None => ((zlen headers =? 0) || h2HeadMemoEligible headers, t)
  end.

(** [headersMatch] over the names and values in order. *)
Fixpoint headersMatch (key : bytes) (lens : list Z) (off : Z) (texts : list bytes) : bool :=
  match texts with
  | [] => off =? zlen key
  | s :: texts =>
      match lens with
      | [] => false
      | n :: lens => if negb (n =? zlen s) || (zlen key <? off + n) || negb (bytes_eqb (zslice key off (off + n)) s) then false else headersMatch key lens (off + n) texts
      end
  end.
Definition headerTexts (headers : list field) : list bytes := concat (map (fun h => [h.1; h.2]) headers).

Definition memo_matches (m : h2HeadMemo) (gen date status : Z) (contentType : bytes) (contentLength : Z) (headers : list field) (serverName : bytes) : bool :=
  if negb (m_gen m =? gen) || negb (m_date m =? date) || negb (m_status m =? status) || negb (m_contentLength m =? contentLength)
     || negb (zlen (m_headerLens m) =? 2 * zlen headers) || (zlen (m_block m) =? 0) || negb (m_ctLen m =? zlen contentType) then false
  else
    let n := m_ctLen m + zlen serverName in
    if (zlen (m_key m) <? n) || negb (bytes_eqb (ztake (m_ctLen m) (m_key m)) contentType) || negb (bytes_eqb (zslice (m_key m) (m_ctLen m) n) serverName) then false
    else if zlen headers =? 0 then zlen (m_key m) =? n
    else headersMatch (m_key m) (m_headerLens m) n (headerTexts headers).

Definition memo_remember (skip gen date status : Z) (contentType : bytes) (contentLength : Z) (headers : list field) (serverName block : bytes) : h2HeadMemo :=
  mkHeadMemo gen status contentLength date (zlen contentType) (contentType ++ serverName ++ concat (headerTexts headers)) (map zlen (headerTexts headers)) block true skip.

Definition encodeH2ResponseHeadersRemembered (t : hpackEncTable) (enc : encoder) (date statusCode : Z) (contentType : bytes) (contentLength : Z) (headers : list field) (serverName : bytes) : hpackEncTable * encoder :=
  let gen := t_gen t in
  let start := zlen enc.2 in
  let '(t', enc) := encodeH2ResponseHeadersDated (Some t) enc date statusCode contentType contentLength headers serverName in
  let t := default t t' in
  if negb (t_gen t =? gen) then (t, enc)
  else
    let remember skip := (set_memo t (Some (memo_remember skip gen date statusCode contentType contentLength headers serverName (zdrop start enc.2))), enc) in
    match t_headMemo t with
    | None => remember 0
    | Some m => if m_probation m && (m_gen m =? gen) && (m_date m =? date) then (set_memo t (Some (set_probation m false h2HeadMemoMissBackoff)), enc) else remember (m_skip m)
    end.

Definition encodeH2ResponseHeadersIndexed (t : hpackEncTable) (enc : encoder) (date statusCode : Z) (contentType : bytes) (contentLength : Z) (headers : list field) (serverName : bytes) : hpackEncTable * encoder :=
  let plain t := let '(t', enc) := encodeH2ResponseHeadersDated (Some t) enc date statusCode contentType contentLength headers serverName in (default t t', enc) in
  if t_pendingUpdate t then plain t
  else
    let '(ready, t) := headMemoReady t headers in
    if negb ready then plain t
    else
      match t_headMemo t with
      | Some m =>
          if memo_matches m (t_gen t) date statusCode contentType contentLength headers serverName then (set_memo t (Some (set_probation m false (m_skip m))), (enc.1, enc.2 ++ m_block m))
          else encodeH2ResponseHeadersRemembered t enc date statusCode contentType contentLength headers serverName
      | None => encodeH2ResponseHeadersRemembered t enc date statusCode contentType contentLength headers serverName
      end.

(** ** Header blocks in frames *)

(** The block of [appendH2ResponseHeadersFrameIndexed], of
    [appendH2StatusOnlyResponseIndexed], and of [appendH2HeaderBlockFrame]. *)
Definition responseBlock (t : hpackEncTable) (cache : fieldCache) (date : Z) (r : Response) (serverName : bytes) : hpackEncTable * encoder :=
  encodeH2ResponseHeadersIndexed t (cache, []) date (StatusCode r) (ContentType r) (headerContentLength r) (r_Headers r) serverName.
Definition statusOnlyBlock (t : hpackEncTable) (cache : fieldCache) (date status : Z) (serverName : bytes) : hpackEncTable * encoder :=
  encodeH2ResponseHeadersIndexed t (cache, []) date status [] 0 [] serverName.
Definition appendH2HeaderBlock (t : hpackEncTable) (block : bytes) : hpackEncTable * bytes :=
  if negb (t_pendingUpdate t) then (t, block) else let '(buf, t) := enc_beginBlock t [] in (t, buf ++ block).

(** The memoised root response: its date is replaced where it stands. *)
Definition h2StatusFieldLen (block : bytes) : Z :=
  if zlen block =? 0 then 0 else if negb (Z.land (znth block 0) 0x80 =? 0) || (zlen block <? 2) then 1 else 2 + Z.land (znth block 1) 0x7f.
Definition refreshH2DateField (date : Z) (block : bytes) : bytes :=
  let at_ := h2StatusFieldLen block in
  let field := h2DateField_enc date in
  let prefix := appendH2DateFieldPrefix [] in
  if (zlen block - at_ <? zlen field) || negb (bytes_eqb (zslice block at_ (at_ + zlen prefix)) prefix) then block
  else ztake at_ block ++ field ++ zdrop (at_ + zlen field) block.

End Dates.
