(* ===== verification/H2EncTable.v ===== *)
(** The encoder's table against the peer's: the lines that use and change the
    dynamic table, the entries of the encoder as a prefix of the peer's, and
    what one field writes. *)
From stdpp Require Import base list numbers strings.
From Stdlib Require Import ZArith Lia ZifyBool.
From S2P Require Import Prelude Utils HpackInt HpackTable HpackDyn Hpack HpackProofs HpackRoundtrip H2Enc.

Open Scope list_scope.
Open Scope Z_scope.

(** ** Runs of lines *)

(** From the state [s], the bytes [w] add the fields [fs] and leave [s']. *)
Definition reads (limit : Z) (s : Z * list field) (w : bytes) (fs : list field) (s' : Z * list field) : Prop :=
  exists k, (k <= length w)%nat /\ forall headers rest fuel, zlen headers + zlen fs <= maxHeaders ->
    specLoop (k + fuel) limit s headers (w ++ rest) = specLoop fuel limit s' (headers ++ fs) rest.

Lemma reads_nil limit s : reads limit s [] [] s.
Proof. exists O. split; [done |]. intros headers rest fuel _. by rewrite app_nil_r. Qed.

Lemma reads_app limit s1 s2 s3 w1 w2 fs1 fs2 : reads limit s1 w1 fs1 s2 -> reads limit s2 w2 fs2 s3 -> reads limit s1 (w1 ++ w2) (fs1 ++ fs2) s3.
Proof.
  intros (k1 & L1 & H1) (k2 & L2 & H2). exists (k1 + k2)%nat. split; [rewrite length_app; lia |]. intros headers rest fuel Hn.
  rewrite zlen_app in Hn. pose proof (zlen_nonneg fs2). pose proof (zlen_nonneg fs1). replace (k1 + k2 + fuel)%nat with (k1 + (k2 + fuel))%nat by lia.
  rewrite <- app_assoc, H1 by lia. rewrite H2 by (rewrite zlen_app; lia). by rewrite app_assoc.
Qed.

Lemma reads_decode limit s w fs s' : reads limit s w fs s' -> zlen fs <= maxHeaders -> specDecode limit s w = Some (Ok fs, s').
Proof.
  intros (k & L & H) Hn. unfold specDecode. replace (length w) with (k + (length w - k))%nat by lia.
  specialize (H [] [] (length w - k)%nat ltac:(change (zlen (@nil field)) with 0; lia)). rewrite app_nil_r in H. rewrite H. by destruct (length w - k)%nat.
Qed.

(** One line, from its step. *)
Lemma reads_line limit s b tl f s' :
  (forall headers rest, zlen headers < maxHeaders -> specStep limit s headers b ((b :: tl) ++ rest) = (Ok (headers ++ [f], rest), s')) ->
  reads limit s (b :: tl) [f] s'.
Proof.
  intros H. exists 1%nat. split; [simpl; lia |]. intros headers rest fuel Hn. change (zlen [f]) with 1 in Hn. cbn [Nat.add specLoop app].
  specialize (H headers rest ltac:(lia)). cbn [app] in H. by rewrite H.
Qed.

Lemma reads_encodes limit s enc f : encodes enc f -> reads limit s enc [f] s.
Proof. intros (_ & b & tl & -> & H). apply reads_line. intros headers rest Hh. by apply H. Qed.

(** An entry of the dynamic table, by its index. *)
Lemma reads_dynamic limit max l k f : l !! k = Some f -> Z.of_nat k < 2 ^ 60 ->
  exists w, (forall buf, EncodeIndexed buf (62 + Z.of_nat k) = buf ++ w) /\ reads limit (max, l) w [f] (max, l).
Proof.
  intros Hf Hk. exists (int_bytes 0x80 7 (62 + Z.of_nat k)). split; [intros buf; apply (EncodeInt7 true); lia |].
  destruct (int_bytes_head 0x80 7 (62 + Z.of_nat k) []) as (low & Hlow & tl & Etl); [lia | lia |]. rewrite app_nil_r in Etl.
  pose proof (zlen_int_bytes 0x80 7 (62 + Z.of_nat k)) as Hz.
  assert (Hd : forall rest, HpackDecodeInt (int_bytes 0x80 7 (62 + Z.of_nat k) ++ rest) 7 = (62 + Z.of_nat k, zlen (int_bytes 0x80 7 (62 + Z.of_nat k))))
    by (intros rest; apply int_bytes_decode; [apply (prefix7 true) | unfold is_u64; lia]).
  rewrite Etl in *. apply reads_line. intros headers rest Hh. unfold specStep. replace (128 <=? 128 + low) with true by lia.
  rewrite Hd. replace (_ <=? 0) with false by lia. unfold specLookup. replace (62 + Z.of_nat k =? 0) with false by lia. replace (62 + Z.of_nat k <? 62) with false by lia.
  replace (Z.to_nat (62 + Z.of_nat k - 62)) with k by lia. rewrite Hf, zdrop_app_exact. unfold push_field. by replace (zlen headers <? maxHeaders) with true by lia.
Qed.

Lemma prefix6 : prefix_ok 0x40 6.
Proof. split; [lia |]. exists 1. lia. Qed.

(** A literal that both sides add to their tables: with a static name, or a new name. *)
Lemma reads_adding limit max l idx name value ne ve : 0 <= idx <= 61 -> 0 < zlen ve -> (forall rest, HpackDecodeString (ve ++ rest) = (value, zlen ve)) ->
  (if 0 <? idx then ne = [] /\ static_name idx = name else 0 < zlen ne /\ forall rest, HpackDecodeString (ne ++ rest) = (name, zlen ne)) ->
  reads limit (max, l) (int_bytes 0x40 6 idx ++ ne ++ ve) [(name, value)] (max, spec_add max l (name, value)).
Proof.
  intros Hi Hv0 Hv Hn. destruct (int_bytes_head 0x40 6 idx (ne ++ ve)) as (low & Hlow & tl & Etl); [lia | lia |]. change (2 ^ 6) with 64 in Hlow.
  pose proof (zlen_int_bytes 0x40 6 idx) as Hz. rewrite Etl. apply reads_line. intros headers rest Hh. rewrite <- Etl. unfold specStep.
  replace (128 <=? 64 + low) with false by lia. replace (64 <=? 64 + low) with true by lia. unfold specLiteral. rewrite <- app_assoc.
  rewrite int_bytes_decode by (apply prefix6 || (unfold is_u64; lia)). replace (_ <=? 0) with false by lia. rewrite zdrop_app_exact.
  assert (Hname : (if 0 <? idx then (fun f => (f.1, (ne ++ ve) ++ rest)) <$> specLookup l idx
    else let '(n, k) := HpackDecodeString ((ne ++ ve) ++ rest) in if k <=? 0 then None else Some (n, zdrop k ((ne ++ ve) ++ rest))) = Some (name, ve ++ rest)).
  { destruct (0 <? idx) eqn:E.
    - destruct Hn as [-> <-]. destruct (static_lookup l idx) as [v ->]; [lia |]. done.
    - destruct Hn as [Hn0 Hn]. rewrite <- app_assoc, Hn. replace (zlen ne <=? 0) with false by lia. by rewrite zdrop_app_exact. }
  rewrite Hname, Hv. replace (zlen ve <=? 0) with false by lia. rewrite zdrop_app_exact. unfold push_field. by replace (zlen headers <? maxHeaders) with true by lia.
Qed.

(** A size update, at the start of a block. *)
Lemma size_update limit max l m rest fuel : 0 <= m <= limit -> m < 2 ^ 32 ->
  specLoop (S fuel) limit (max, l) [] (int_bytes 0x20 5 m ++ rest) = specLoop fuel limit (m, keep m l) [] rest.
Proof.
  intros Hm H32. assert (P5 : prefix_ok 0x20 5) by (split; [lia |]; exists 1; lia).
  destruct (int_bytes_head 0x20 5 m rest) as (low & Hlow & tl & Etl); [lia | lia |]. change (2 ^ 5) with 32 in Hlow. pose proof (zlen_int_bytes 0x20 5 m) as Hz.
  rewrite Etl. cbn [specLoop]. rewrite <- Etl. unfold specStep. replace (128 <=? 32 + low) with false by lia. replace (64 <=? 32 + low) with false by lia.
  replace (32 <=? 32 + low) with true by lia. rewrite int_bytes_decode by (done || (unfold is_u64; lia)). replace (_ <=? 0) with false by lia.
  replace (limit <? m) with false by lia. by rewrite zdrop_app_exact.
Qed.

(** ** Eviction *)

Lemma keep_prefix m l : keep m l `prefix_of` l.
Proof. revert m. induction l as [| f l IH]; intros m; [done |]. simpl. destruct (_ <=? _); [by apply prefix_cons | apply prefix_nil]. Qed.

Lemma keep_mono a l m M : a `prefix_of` l -> m <= M -> keep m a `prefix_of` keep M l.
Proof.
  revert l m M. induction a as [| f a IH]; intros l m M Hp Hm; [apply prefix_nil |]. destruct l as [| g l]; [by apply prefix_nil_not in Hp |].
  pose proof (prefix_cons_inv_1 _ _ _ _ Hp) as ->. apply prefix_cons_inv_2 in Hp. simpl. destruct (field_size g <=? m) eqn:E; [| apply prefix_nil].
  replace (field_size g <=? M) with true by lia. apply prefix_cons, IH; [done | lia].
Qed.

Lemma add_mono a l m M f : a `prefix_of` l -> m <= M -> spec_add m a f `prefix_of` spec_add M l f.
Proof.
  intros Hp Hm. unfold spec_add. destruct (field_size f <=? m) eqn:E; [| apply prefix_nil]. replace (field_size f <=? M) with true by lia. apply prefix_cons, keep_mono; [done | lia].
Qed.

Lemma table_size_rev l : table_size (rev l) = table_size l.
Proof. induction l as [| f l IH]; [done |]. simpl. rewrite table_size_app, IH. simpl. lia. Qed.

Lemma entry_size f : hpackEncEntrySize f.1 f.2 = field_size f.
Proof. unfold hpackEncEntrySize, field_size. lia. Qed.

Lemma evictFront_keep entries limit : 0 <= limit -> let r := evictFront entries (table_size entries) limit in
  rev r.1 = keep limit (rev entries) /\ r.2 = table_size r.1.
Proof.
  intros Hl. cbv zeta. induction entries as [| f entries IH]; [done |]. cbn [evictFront]. destruct (limit <? table_size (f :: entries)) eqn:E.
  - rewrite entry_size. replace (table_size (f :: entries) - field_size f) with (table_size entries) by (simpl; lia). cbn [rev].
    rewrite keep_snoc; [done |]. change (rev entries ++ [f]) with (rev (f :: entries)). rewrite table_size_rev. lia.
  - rewrite keep_all; [done |]. rewrite table_size_rev. lia.
Qed.

(** ** The encoder's table and the peer's *)

(** The size is the entries', within the bound. *)
Definition sized (t : hpackEncTable) : Prop := t_size t = table_size (t_entries t) /\ t_size t <= t_maxSize t <= h2EncTableMaxSize.
(** The entries, newest first, are a prefix of the peer's. *)
Definition tracks (t : hpackEncTable) (s : Z * list field) : Prop := rev (t_entries t) `prefix_of` s.2 /\ sized t /\ t_maxSize t <= s.1.

(** [t'] comes from [t] by at most [n] changes. *)
Definition grows (t t' : hpackEncTable) (n : Z) : Prop :=
  t_gen t <= t_gen t' <= t_gen t + n /\ (t_gen t' = t_gen t -> t' = t) /\
  t_maxSize t' = t_maxSize t /\ t_pendingUpdate t' = t_pendingUpdate t /\ t_headMemo t' = t_headMemo t.

Lemma grows_refl t n : 0 <= n -> grows t t n.
Proof. intros H. split_and!; try done; lia. Qed.
Lemma grows_trans t1 t2 t3 n1 n2 : grows t1 t2 n1 -> grows t2 t3 n2 -> grows t1 t3 (n1 + n2).
Proof.
  intros (A1 & B1 & C1 & D1 & E1) (A2 & B2 & C2 & D2 & E2). split_and!; try congruence; try lia. intros E. rewrite B2 by lia. apply B1. lia.
Qed.

Lemma nextGen_small t : 0 <= t_gen t -> t_gen t + 1 < 2 ^ 32 -> nextGen t = t_gen t + 1.
Proof. intros H1 H2. unfold nextGen, u32. apply Z.mod_small. lia. Qed.

Lemma evictTo_spec t limit : 0 <= limit -> 0 <= t_gen t -> t_gen t + 1 < 2 ^ 32 -> t_size t = table_size (t_entries t) ->
  let t' := evictTo t limit in
  rev (t_entries t') = keep limit (rev (t_entries t)) /\ t_size t' = table_size (t_entries t') /\ grows t t' 1.
Proof.
  intros Hl H0 Hg Hs. cbv zeta. unfold evictTo. pose proof (evictFront_keep (t_entries t) limit Hl) as [Hk Ht]. rewrite <- Hs in Hk, Ht. destruct (evictFront _ _ _) as [entries size].
  cbn [fst snd] in *. destruct (zlen entries =? zlen (t_entries t)) eqn:E.
  - assert (rev entries = rev (t_entries t)) as E'.
    { rewrite Hk. apply prefix_length_eq; [apply keep_prefix |]. rewrite <- Hk, !length_rev. unfold zlen in E. lia. }
    rewrite <- Hk, E'. split_and!; [done | done | apply grows_refl; lia].
  - split_and!; [done | done |]. cbn [t_gen t_maxSize t_pendingUpdate t_headMemo]. unfold grows. cbn [t_gen t_maxSize t_pendingUpdate t_headMemo]. rewrite nextGen_small by lia. split_and!; try done; lia.
Qed.

(** Adding an entry that fits. *)
Lemma enc_add_spec t name value : 0 <= t_gen t -> t_gen t + 2 < 2 ^ 32 -> t_size t = table_size (t_entries t) -> field_size (name, value) <= t_maxSize t ->
  let t' := enc_add t name value in
  rev (t_entries t') = spec_add (t_maxSize t) (rev (t_entries t)) (name, value) /\ t_size t' = table_size (t_entries t') /\
  t_size t' <= t_maxSize t /\ grows t t' 2 /\ t_gen t < t_gen t'.
Proof.
  intros H0 Hg Hs Hf. cbv zeta. unfold enc_add. rewrite (entry_size (name, value) : hpackEncEntrySize name value = _). replace (t_maxSize t <? field_size (name, value)) with false by lia.
  destruct (evictTo_spec t (t_maxSize t - field_size (name, value))) as (Hk & Hz & G); [lia | lia | lia | done |]. set (t1 := evictTo t _) in *.
  pose proof G as (G1 & _ & G3 & G4 & G5). assert (Hn : nextGen t1 = t_gen t1 + 1) by (apply nextGen_small; lia).
  assert (Hb : table_size (t_entries t1) <= t_maxSize t - field_size (name, value)) by (rewrite <- table_size_rev, Hk; apply keep_size; lia).
  cbn [t_entries t_size t_gen t_maxSize]. rewrite rev_app_distr, table_size_app. split_and!.
  - cbn [rev app]. unfold spec_add. replace (field_size (name, value) <=? t_maxSize t) with true by lia. by rewrite Hk.
  - simpl. lia.
  - lia.
  - unfold grows. cbn [t_gen t_maxSize t_pendingUpdate t_headMemo]. rewrite Hn. split_and!; try done; lia.
  - lia.
Qed.

Lemma findEntry_spec newest name value idx : findEntry newest name value idx = 0 \/
  exists k, newest !! k = Some (name, value) /\ findEntry newest name value idx = idx + Z.of_nat k.
Proof.
  revert idx. induction newest as [| f newest IH]; intros idx; [by left |]. cbn [findEntry]. destruct (_ && _) eqn:E.
  - apply andb_true_iff in E as [E1 E2]. apply bytes_eqb_spec in E1, E2. right. exists O. destruct f as [n v]. simpl in *. subst. split; [done | lia].
  - destruct (IH (idx + 1)) as [H | (k & Hk & H)]; [by left |]. right. exists (S k). split; [done | lia].
Qed.

(** ** What a writer of fields does *)

(** [n] fields can be written. *)
Definition room (t : hpackEncTable) (n : Z) : Prop := sized t /\ 0 <= t_gen t /\ t_gen t + 2 * n < 2 ^ 32.

(** [w] are lines that carry [fs] from any peer that [t] tracks to one that
    [t'] tracks; when the table is as before, so is the peer's. *)
Definition writes (t t' : hpackEncTable) (w : bytes) (fs : list field) : Prop :=
  grows t t' (2 * zlen fs) /\ sized t' /\
  forall limit s, tracks t s -> exists s', reads limit s w fs s' /\ tracks t' s' /\ (t_gen t' = t_gen t -> s' = s) /\ s'.1 = s.1.

(** The same, with a table or without one. *)
Definition oroom (t : option hpackEncTable) (n : Z) : Prop := match t with Some t => room t n | None => True end.
Definition owrites (t t' : option hpackEncTable) (w : bytes) (fs : list field) : Prop :=
  match t, t' with
  | Some t, Some t' => writes t t' w fs
  | None, None => forall limit s, reads limit s w fs s
  | _, _ => False
  end.

Lemma writes_still t w fs : sized t -> (forall limit s, tracks t s -> reads limit s w fs s) -> writes t t w fs.
Proof.
  intros Hz H. split; [apply grows_refl; pose proof (zlen_nonneg fs); lia |]. split; [done |]. intros limit s Hs. exists s. split; [by apply H | done].
Qed.

Lemma owrites_still t w fs : oroom t (zlen fs) -> (forall limit s, reads limit s w fs s) -> owrites t t w fs.
Proof. intros Hr H. destruct t as [t |]; [| done]. apply writes_still; [apply Hr | by intros limit s _]. Qed.

Lemma owrites_room t1 t2 w n fs : oroom t1 (zlen fs + n) -> 0 <= n -> owrites t1 t2 w fs -> oroom t2 n.
Proof.
  destruct t1 as [t1 |], t2 as [t2 |]; simpl; try done. intros (_ & H0 & Hg) Hn ((B & _) & Hz & _). split; [done | lia].
Qed.

Lemma oroom_le t n m : m <= n -> oroom t n -> oroom t m.
Proof. intros Hm. destruct t as [t |]; [| done]. intros (? & ? & ?). split_and!; try done. lia. Qed.

Lemma owrites_app t1 t2 t3 w1 w2 fs1 fs2 : owrites t1 t2 w1 fs1 -> owrites t2 t3 w2 fs2 -> owrites t1 t3 (w1 ++ w2) (fs1 ++ fs2).
Proof.
  destruct t1 as [t1 |], t2 as [t2 |], t3 as [t3 |]; simpl; try done; [| intros H1 H2 limit s; by eapply reads_app].
  intros (G1 & Z1 & R1) (G2 & Z2 & R2). unfold writes. rewrite zlen_app. replace (2 * (_ + _)) with (2 * zlen fs1 + 2 * zlen fs2) by lia.
  split; [by eapply grows_trans |]. split; [done |]. intros limit s Hs. destruct (R1 limit s Hs) as (s1 & D1 & T1 & E1 & M1). destruct (R2 limit s1 T1) as (s2 & D2 & T2 & E2 & M2).
  exists s2. split; [by eapply reads_app |]. split; [done |]. destruct G1 as (B1 & _), G2 as (B2 & _). split; [intros E; rewrite E2 by lia; apply E1; lia | congruence].
Qed.

(** The static index handed to [encodeField] names the field. *)
Definition names (idx : Z) (name : bytes) : Prop := idx = 0 \/ (1 <= idx <= 61 /\ static_name idx = name).

Lemma literal_writes cache buf idx name value : field_cache_ok cache -> names idx name -> text_ok name -> text_ok value ->
  exists w cache', (if 0 <? idx then enc_static (cache, buf) idx value else (cache, EncodeString (EncodeString (buf ++ [0x00]) name) value)) = (cache', buf ++ w) /\
    field_cache_ok cache' /\ encodes w (name, value).
Proof.
  intros Hc Hi [Hn Hnl] [Hv Hvl]. destruct (0 <? idx) eqn:E.
  - destruct Hi as [-> | [Hi <-]]; [done |]. destruct (encodes_static (write := EncodeString) (view := fun s => s) idx value Hi Hv Hvl) as (w & He & Hw).
    unfold enc_static. cbn [fst snd]. destruct (encodeStaticFieldCached_plain cache buf idx value Hc Hi Hv Hvl) as (cache' & -> & Hc'). exists w, cache'. by rewrite He.
  - destruct (encodes_literal (wn := EncodeString) (vn := fun s => s) (wv := EncodeString) (vv := fun s => s) name value Hn Hnl Hv Hvl) as (w & He & Hw).
    exists w, cache. by rewrite He.
Qed.

Lemma adding_writes buf idx name value : names idx name -> text_ok name -> text_ok value ->
  exists w, EncodeString (if 0 <? idx then EncodeInt buf 0x40 6 idx else EncodeString (buf ++ [0x40]) name) value = buf ++ w /\
    forall limit max l, reads limit (max, l) w [(name, value)] (max, spec_add max l (name, value)).
Proof.
  intros Hi [Hn Hnl] [Hv Hvl]. destruct (string_writer (write := EncodeString) (view := fun s => s) value Hv Hvl) as (ve & Hwv & _ & Hv0 & Hdv).
  destruct (string_writer (write := EncodeString) (view := fun s => s) name Hn Hnl) as (ne & Hwn & _ & Hn0 & Hdn). destruct (0 <? idx) eqn:E.
  - destruct Hi as [-> | [Hi Hs]]; [done |]. exists (int_bytes 0x40 6 idx ++ ve). rewrite Hwv, EncodeInt_bytes by (apply prefix6 || (unfold is_u64; lia)).
    split; [by rewrite app_assoc |]. intros limit max l. apply (reads_adding limit max l idx name value [] ve); [lia | done | done |]. by rewrite E.
  - assert (idx = 0) as -> by (destruct Hi; lia). exists ([0x40] ++ ne ++ ve). rewrite Hwv, Hwn, <- !app_assoc. split; [done |].
    intros limit max l. by apply (reads_adding limit max l 0 name value ne ve).
Qed.

Lemma encodeField_writes t cache buf idx name value : field_cache_ok cache -> names idx name -> text_ok name -> text_ok value -> room t 1 ->
  exists w t' cache', encodeField t (cache, buf) idx name value = (t', (cache', buf ++ w)) /\ field_cache_ok cache' /\ writes t t' w [(name, value)].
Proof.
  intros Hc Hi Hn Hv (Hz & H0 & Hg). unfold encodeField. cbn [fst snd]. unfold enc_find. change hpackDynamicIndexMin with 62.
  destruct (findEntry_spec (rev (t_entries t)) name value 62) as [-> | (k & Hk & ->)].
  - change (0 <? 0) with false. cbv iota. destruct ((_ <? _) || _) eqn:E.
    + destruct (literal_writes cache buf idx name value Hc Hi Hn Hv) as (w & cache' & -> & Hc' & Hw). exists w, t, cache'. split; [done |]. split; [done |].
      apply writes_still; [done |]. intros limit s _. by apply reads_encodes.
    + apply orb_false_iff in E as [_ E]. rewrite (entry_size (name, value) : hpackEncEntrySize name value = _) in E.
      destruct (adding_writes buf idx name value Hi Hn Hv) as (w & -> & Hw). exists w, (enc_add t name value), cache. split; [done |]. split; [done |].
      destruct (enc_add_spec t name value) as (A1 & A2 & A3 & A4 & A5); [lia | lia | apply Hz | lia |]. pose proof A4 as (_ & _ & A6 & _). destruct Hz as [Hz1 Hz2].
      assert (Hz' : sized (enc_add t name value)) by (split; [done | lia]).
      split; [exact A4 |]. split; [done |]. intros limit [max l] (Hp & _ & Hb). exists (max, spec_add max l (name, value)). split; [apply Hw |].
      split; [| split; [intros; lia | done]]. split; [cbn [snd]; rewrite A1; by apply add_mono |]. split; [done | cbn [fst] in *; lia].
  - replace (0 <? 62 + Z.of_nat k) with true by lia.
    assert (Hk60 : Z.of_nat k < 2 ^ 60).
    { destruct Hz as [Hz1 Hz2]. apply lookup_lt_Some in Hk. rewrite length_rev in Hk. pose proof (table_size_len (t_entries t)). unfold zlen, h2EncTableMaxSize in *. lia. }
    exists (int_bytes 0x80 7 (62 + Z.of_nat k)), t, cache. split; [by rewrite <- (EncodeInt7 true) by lia |]. split; [done |].
    apply writes_still; [done |]. intros limit [max l] (Hp & _). destruct (reads_dynamic limit max l k (name, value)) as (w & He & Hw); [by eapply prefix_lookup_Some | done |].
    specialize (He []). unfold EncodeIndexed in He. rewrite (EncodeInt7 true) in He by lia. cbn [app] in He. by rewrite He.
Qed.
