(* ===== verification/H2EncProofs.v ===== *)
(** Response heads of HTTP/2 read back by the peer: what one response writes
    against a reference list of fields, the memo of the last block, and a whole
    connection (SETTINGS, responses, streamed blocks, the memoised root
    response) against the peer's decoder. *)
From stdpp Require Import base list numbers strings.
From Stdlib Require Import ZArith Lia ZifyBool.
From S2P Require Import Prelude Utils HpackInt HpackTable HpackDyn Hpack HpackProofs HpackRoundtrip H1Resp H2Enc H2EncTable.

Open Scope list_scope.
Open Scope Z_scope.

(** ** The fields of a response *)

(** Fields that a response carries at most once. *)
Definition singleFields : list bytes := [str "content-type"; str "content-length"; str "server"].
(** Fields of the connection, which HTTP/2 forbids. *)
Definition connectionFields : list bytes := [str "te"; str "upgrade"; str "connection"; str "keep-alive"; str "proxy-connection"; str "transfer-encoding"].

Definition named (name : bytes) (fs : list field) : bool := existsb (fun f => bytes_eqb f.1 name) fs.
Definition isOneOf (name : bytes) (ns : list bytes) : bool := existsb (bytes_eqb name) ns.

(** [f] after [fs], unless it is the second of its name. *)
Definition once (fs : list field) (f : field) : list field := if isOneOf f.1 singleFields && named f.1 fs then fs else fs ++ [f].

Definition lowered (h : field) : field := (map asciiLower h.1, h.2).
Definition sendable (h : field) : bool := negb (bytes_eqb h.1 []) && negb (znth h.1 0 =? 58) && negb (isOneOf (lowered h).1 connectionFields).

Definition headTail (contentType : bytes) (contentLength : Z) (headers : list field) (serverName : bytes) : list field :=
  foldl once []
    ((if bytes_eqb contentType [] then [] else [(str "content-type", contentType)]) ++
     (if 0 <=? contentLength then [(str "content-length", appendUint [] contentLength)] else []) ++
     map lowered (List.filter sendable headers) ++ [(str "server", serverName)]).

Definition headFields (date : bytes) (status : Z) (contentType : bytes) (contentLength : Z) (headers : list field) (serverName : bytes) : list field :=
  [(str ":status", appendUint [] status)] ++
  (if named (str "date") (map lowered headers) then [] else [(str "date", date)]) ++
  headTail contentType contentLength headers serverName.

(** What a handler can set. *)
Definition header_ok (h : field) : Prop := text_ok h.1 /\ text_ok h.2.

(** ** Names *)

Lemma fold_literal name low : map asciiLower low = low -> EqualFoldASCII name low = bytes_eqb (map asciiLower name) low.
Proof. intros H. rewrite EqualFoldASCII_spec. by rewrite H. Qed.

Lemma headerNameIs_spec name low : headerNameIs name low = bytes_eqb (map asciiLower name) low.
Proof.
  apply eq_true_iff_eq. rewrite bytes_eqb_spec. unfold headerNameIs. rewrite andb_true_iff. revert low. induction name as [| c name IH]; intros [| d low]; rewrite ?zlen_cons, ?zlen_nil; cbn [zip zip_with forallb map fst snd].
  - done.
  - pose proof (zlen_nonneg low). split; [lia | done].
  - pose proof (zlen_nonneg name). split; [lia | done].
  - specialize (IH low). rewrite andb_true_iff. split.
    + intros (H1 & H2 & H3). f_equal; [lia | apply IH; split; [lia | done]].
    + intros [= <- H]. apply IH in H as [H1 H2]. split_and!; [lia | lia | done].
Qed.

Lemma other_length name low : zlen name <> zlen low -> bytes_eqb (map asciiLower name) low = false.
Proof.
  intros H. destruct (bytes_eqb _ _) eqn:E; [| done]. apply bytes_eqb_spec in E. subst low. unfold zlen in H. by rewrite length_map in H.
Qed.

Lemma connection_field_spec name : isConnectionSpecificResponseField name = isOneOf (map asciiLower name) connectionFields.
Proof.
  assert (L : forall n, zlen name = n -> forall low, n <> zlen low -> bytes_eqb (map asciiLower name) low = false) by (intros n <-; apply other_length).
  assert (P : isConnectionSpecificResponseName name = isOneOf (map asciiLower name) connectionFields).
  { unfold isConnectionSpecificResponseName, isOneOf, connectionFields. cbn [existsb]. rewrite !headerNameIs_spec. destruct (zlen name) as [| p | p] eqn:E.
    1, 3: rewrite !(L _ eq_refl) by (vm_compute; discriminate); reflexivity.
    repeat match goal with |- context [match ?q with _ => _ end] => lazymatch type of q with positive => is_var q; destruct q end end;
      repeat match goal with |- context [bytes_eqb (map asciiLower _) ?low] => rewrite (L _ eq_refl low) by (vm_compute; discriminate) end; rewrite ?orb_false_r; reflexivity. }
  unfold isConnectionSpecificResponseField. rewrite P. destruct (isOneOf _ connectionFields) eqn:E; [| by rewrite andb_false_r]. rewrite andb_true_r.
  unfold isOneOf, connectionFields in E. apply existsb_exists in E as (low & Hin & E). apply bytes_eqb_spec in E. assert (Hz : zlen name = zlen low) by (subst low; unfold zlen; by rewrite length_map).
  rewrite Hz. clear - Hin. repeat (destruct Hin as [<- | Hin]; [vm_compute; reflexivity |]). done.
Qed.

Lemma indexable_spec name lower : h2IndexableResponseField name = Some lower -> lower = map asciiLower name.
Proof.
  assert (H : forall low, map asciiLower low = low -> indexable name low = Some lower -> lower = map asciiLower name).
  { intros low Hl. unfold indexable. rewrite fold_literal by done. destruct (bytes_eqb _ _) eqn:E; [| done]. intros [= <-]. symmetry. by apply bytes_eqb_spec. }
  unfold h2IndexableResponseField. destruct (zlen name) as [| p | p]; try done.
  repeat match goal with |- context [match ?q with _ => _ end] => lazymatch type of q with positive => is_var q; destruct q end end; try done; apply H; reflexivity.
Qed.

Lemma static_names name : names (hpackFindStaticNameFold (map asciiLower name)) (map asciiLower name).
Proof.
  rewrite findFold_low. assert (E : map asciiLower (map asciiLower name) = map asciiLower name).
  { rewrite List.map_map. apply List.map_ext. intros c. unfold asciiLower. destruct ((65 <=? c) && (c <=? 90)) eqn:E; [| by rewrite E]. by replace (_ && _) with false by lia. }
  rewrite E. destruct (findFoldLow_correct (map asciiLower name)) as (Hr & _ & Hn). destruct (decide (0 < findFoldLow (map asciiLower name))); [right | left; lia]. split; [lia | auto].
Qed.

(** ** The fields one by one *)

Lemma static_writes t cache buf idx name value : field_cache_ok cache -> 1 <= idx <= 61 -> static_name idx = name -> text_ok name -> text_ok value -> oroom t 1 ->
  exists w t' cache', encodeH2StaticField t (cache, buf) idx name value = (t', (cache', buf ++ w)) /\ field_cache_ok cache' /\ owrites t t' w [(name, value)].
Proof.
  intros Hc Hi Hs Hn Hv Hr. destruct t as [t |]; cbn [encodeH2StaticField].
  - destruct (encodeField_writes t cache buf idx name value) as (w & t' & cache' & -> & Hc' & Hw); try done; [by right |]. by exists w, (Some t'), cache'.
  - destruct (literal_writes cache buf idx name value) as (w & cache' & E & Hc' & Hw); try done; [by right |]. replace (0 <? idx) with true in E by lia.
    exists w, None, cache'. rewrite E. split; [done |]. split; [done |]. intros limit s. by apply reads_encodes.
Qed.

Lemma fold_writes t cache buf name value : field_cache_ok cache -> text_ok name -> text_ok value -> oroom t 1 ->
  exists w cache', enc_fold (cache, buf) name value = (cache', buf ++ w) /\ field_cache_ok cache' /\ owrites t t w [(map asciiLower name, value)].
Proof.
  intros Hc Hn Hv Hr. destruct (encodes_header_fold name value Hn Hv) as (w & Hw & He). destruct (He cache buf Hc) as (cache' & E & Hc').
  exists w, cache'. unfold enc_fold. cbn [fst snd]. rewrite E. split; [done |]. split; [done |]. rewrite ToLowerASCII_map in Hw.
  apply owrites_still; [done |]. intros limit s. by apply reads_encodes.
Qed.

Lemma custom_writes t cache buf name value : field_cache_ok cache -> text_ok name -> text_ok value -> oroom t 1 ->
  exists w t' cache', encodeH2CustomField t (cache, buf) name value = (t', (cache', buf ++ w)) /\ field_cache_ok cache' /\ owrites t t' w [(map asciiLower name, value)].
Proof.
  intros Hc Hn Hv Hr. destruct (fold_writes t cache buf name value Hc Hn Hv Hr) as (w & cache' & E & Hc' & Hw).
  destruct t as [t |]; cbn [encodeH2CustomField]; [| by exists w, None, cache'; rewrite E].
  destruct (h2IndexableResponseField name) as [low |] eqn:Ei; [| by exists w, (Some t), cache'; rewrite E]. clear w cache' E Hc' Hw. apply indexable_spec in Ei as ->.
  destruct (encodeField_writes t cache buf _ (map asciiLower name) value Hc (static_names name)) as (w & t' & cache' & -> & Hc' & Hw); [by apply lower_text_ok | done | done |].
  by exists w, (Some t'), cache'.
Qed.

(** ** The loop over the headers *)

Lemma named_snoc n fs f : named n (fs ++ [f]) = named n fs || bytes_eqb f.1 n.
Proof. unfold named. rewrite existsb_app. simpl. by rewrite orb_false_r. Qed.

Lemma once_new fs f : named f.1 fs = false \/ isOneOf f.1 singleFields = false -> once fs f = fs ++ [f].
Proof. intros [H | H]; unfold once; rewrite H; [by rewrite andb_false_r | done]. Qed.
Lemma once_again fs f : named f.1 fs = true -> isOneOf f.1 singleFields = true -> once fs f = fs.
Proof. intros H1 H2. unfold once. by rewrite H1, H2. Qed.

Lemma sendable_spec name value : sendable (name, value) = negb ((zlen name =? 0) || (znth name 0 =? 58) || isConnectionSpecificResponseField name).
Proof.
  rewrite connection_field_spec. unfold sendable, lowered. cbn [fst]. rewrite !negb_orb. do 2 f_equal. f_equal. destruct name as [| c name]; [done |].
  rewrite zlen_cons. pose proof (zlen_nonneg name). by replace (1 + zlen name =? 0) with false by lia.
Qed.

(** The flags say what has been sent. *)
Definition flags_ok (sent : list field) (wroteType wroteLength wroteServer : bool) : Prop :=
  wroteType = named (str "content-type") sent /\ wroteLength = named (str "content-length") sent /\ wroteServer = named (str "server") sent.

Lemma flags_snoc sent a b c f : flags_ok sent a b c ->
  flags_ok (sent ++ [f]) (a || bytes_eqb f.1 (str "content-type")) (b || bytes_eqb f.1 (str "content-length")) (c || bytes_eqb f.1 (str "server")).
Proof. intros (-> & -> & ->). unfold flags_ok. by rewrite !named_snoc. Qed.

(** One header: skipped, or written and counted. *)
Definition headerStep (t : option hpackEncTable) (enc : encoder) (h : field) (a b c : bool) : option hpackEncTable * encoder * (bool * bool * bool) :=
  let '(name, value) := h in
  if negb (sendable h) then (t, enc, (a, b, c))
  else if bytes_eqb (lowered h).1 (str "content-type") then
    if a then (t, enc, (true, b, c)) else (encodeH2StaticField t enc hpackStaticContentType (str "content-type") value, (true, b, c))
  else if bytes_eqb (lowered h).1 (str "content-length") then (t, if b then enc else enc_fold enc name value, (a, true, c))
  else if bytes_eqb (lowered h).1 (str "server") then
    if c then (t, enc, (a, b, true)) else (encodeH2StaticField t enc hpackStaticServer (str "server") value, (a, b, true))
  else (encodeH2CustomField t enc name value, (a, b, c)).

Lemma headerLoop_cons t enc h hs a b c :
  headerLoop t enc (h :: hs) a b c = let '(t, enc, (a, b, c)) := headerStep t enc h a b c in headerLoop t enc hs a b c.
Proof.
  destruct h as [name value]. unfold headerStep. cbn [headerLoop]. rewrite !fold_literal by reflexivity. rewrite sendable_spec, negb_involutive. cbn [lowered fst].
  destruct (_ || _); [done |]. destruct (bytes_eqb _ (str "content-type")); [destruct a; [done |]; by destruct (encodeH2StaticField _ _ _ _ _) |].
  destruct (bytes_eqb _ (str "content-length")); [done |]. destruct (bytes_eqb _ (str "server")); [destruct c; [done |]; by destruct (encodeH2StaticField _ _ _ _ _) |].
  by destruct (encodeH2CustomField _ _ _ _).
Qed.

Ltac text_literal := split; [apply (bool_decide_unpack _); vm_compute; exact I | reflexivity].

Lemma headerStep_writes t cache buf h sent a b c : field_cache_ok cache -> header_ok h -> flags_ok sent a b c -> oroom t 1 ->
  exists w t' cache' fs a' b' c', headerStep t (cache, buf) h a b c = (t', (cache', buf ++ w), (a', b', c')) /\ field_cache_ok cache' /\
    owrites t t' w fs /\ zlen fs <= 1 /\ (if sendable h then once sent (lowered h) else sent) = sent ++ fs /\ flags_ok (sent ++ fs) a' b' c'.
Proof.
  intros Hc [Hn Hv] Hf Hr. destruct h as [name value]. cbn [fst snd] in Hn, Hv. unfold headerStep.
  assert (Hskip : forall a' b' c', flags_ok sent a' b' c' -> exists w t' cache' fs a0 b0 c0, (t, (cache, buf), (a', b', c')) = (t', (cache', buf ++ w), (a0, b0, c0)) /\ field_cache_ok cache' /\
    owrites t t' w fs /\ zlen fs <= 1 /\ sent = sent ++ fs /\ flags_ok (sent ++ fs) a0 b0 c0).
  { intros a' b' c' Hf'. exists [], t, cache, [], a', b', c'. rewrite !app_nil_r. split; [done |]. split; [done |]. split; [| done]. apply owrites_still; [by apply (oroom_le t 1) | intros; apply reads_nil]. }
  destruct (sendable (name, value)) eqn:Es; cbn [negb]; [| by apply Hskip]. set (low := (lowered (name, value)).1). change (lowered (name, value)) with (low, value).
  assert (Hput : forall w t' cache' a' b' c', field_cache_ok cache' -> owrites t t' w [(low, value)] -> named low sent = false \/ isOneOf low singleFields = false ->
    flags_ok (sent ++ [(low, value)]) a' b' c' -> exists w0 t0 cache0 fs a0 b0 c0, (t', (cache', buf ++ w), (a', b', c')) = (t0, (cache0, buf ++ w0), (a0, b0, c0)) /\ field_cache_ok cache0 /\
    owrites t t0 w0 fs /\ zlen fs <= 1 /\ once sent (low, value) = sent ++ fs /\ flags_ok (sent ++ fs) a0 b0 c0).
  { intros w t' cache' a' b' c' Hc' Hw Hnew Hf'. exists w, t', cache', [(low, value)], a', b', c'. split_and!; try done. by apply once_new. }
  pose proof (flags_snoc sent a b c (low, value) Hf) as Hf1. cbn [fst] in Hf1. pose proof Hf as (Ha & Hb & Hc0).
  destruct (bytes_eqb low (str "content-type")) eqn:E1; [| destruct (bytes_eqb low (str "content-length")) eqn:E2; [| destruct (bytes_eqb low (str "server")) eqn:E3]].
  - apply bytes_eqb_spec in E1. rewrite orb_true_r in Hf1. rewrite E1 in *. destruct a; [rewrite once_again by (done || reflexivity); by apply Hskip |].
    destruct (static_writes t cache buf hpackStaticContentType (str "content-type") value) as (w & t' & cache' & -> & Hc' & Hw); try done; [text_literal |].
    apply Hput; [done | done | by left | by rewrite !orb_false_r in Hf1].
  - apply bytes_eqb_spec in E2. rewrite orb_true_r in Hf1. destruct b.
    { rewrite E2, once_again by (done || reflexivity). apply Hskip. exact Hf. }
    destruct (fold_writes t cache buf name value Hc Hn Hv Hr) as (w & cache' & -> & Hc' & Hw).
    apply Hput; [done | done | left; by rewrite E2 |]. rewrite orb_false_r, E2, orb_false_r in Hf1. by rewrite E2.
  - apply bytes_eqb_spec in E3. rewrite orb_true_r in Hf1. rewrite E3 in *. destruct c; [rewrite once_again by (done || reflexivity); by apply Hskip |].
    destruct (static_writes t cache buf hpackStaticServer (str "server") value) as (w & t' & cache' & -> & Hc' & Hw); try done; [text_literal |].
    apply Hput; [done | done | by left | by rewrite !orb_false_r in Hf1].
  - destruct (custom_writes t cache buf name value Hc Hn Hv Hr) as (w & t' & cache' & -> & Hc' & Hw). rewrite !orb_false_r in Hf1.
    apply Hput; [done | done | right | done]. unfold isOneOf, singleFields. cbn [existsb]. by rewrite E1, E2, E3.
Qed.

Lemma headerLoop_writes hs : Forall header_ok hs -> forall t cache buf sent a b c, field_cache_ok cache -> flags_ok sent a b c -> oroom t (zlen hs) ->
  exists w t' cache' fs, headerLoop t (cache, buf) hs a b c = (t', (cache', buf ++ w), named (str "server") (sent ++ fs)) /\ field_cache_ok cache' /\
    owrites t t' w fs /\ zlen fs <= zlen hs /\ foldl once sent (map lowered (List.filter sendable hs)) = sent ++ fs.
Proof.
  induction 1 as [| h hs Hh _ IH]; intros t cache buf sent a b c Hc Hf Hr.
  { exists [], t, cache, []. rewrite !app_nil_r. destruct Hf as (_ & _ & ->). split_and!; try done. apply owrites_still; [done | intros; apply reads_nil]. }
  rewrite zlen_cons in *. pose proof (zlen_nonneg hs) as Hz. destruct (headerStep_writes t cache buf h sent a b c Hc Hh Hf) as (w1 & t1 & c1 & fs1 & a1 & b1 & s1 & E1 & Hc1 & Hw1 & Hz1 & Hs1 & Hf1).
  { eapply oroom_le; [| exact Hr]. lia. }
  destruct (IH t1 c1 (buf ++ w1) (sent ++ fs1) a1 b1 s1 Hc1 Hf1) as (w2 & t2 & c2 & fs2 & E2 & Hc2 & Hw2 & Hz2 & Hs2).
  { eapply owrites_room; [| done | exact Hw1]. eapply oroom_le; [| exact Hr]. lia. }
  exists (w1 ++ w2), t2, c2, (fs1 ++ fs2). rewrite headerLoop_cons, E1, E2. rewrite <- !app_assoc in *. split; [done |]. split; [done |]. split; [by eapply owrites_app |].
  split; [rewrite zlen_app; lia |]. cbn [List.filter]. destruct (sendable h); cbn [map foldl]; by rewrite <- Hs2, <- Hs1.
Qed.

(** ** One response *)

Section Heads.

Context (dateAt : Z -> bytes).
Hypothesis dateAt_ok : forall d, bytes_ok (dateAt d) /\ zlen (dateAt d) = h2DateValueLen.

Record head := mkHead { h_date : Z; h_status : Z; h_contentType : bytes; h_contentLength : Z; h_headers : list field; h_server : bytes }.
Definition fieldsOf (h : head) : list field := headFields (dateAt (h_date h)) (h_status h) (h_contentType h) (h_contentLength h) (h_headers h) (h_server h).
Definition head_ok (h : head) : Prop :=
  0 <= h_status h < 2 ^ 63 /\ text_ok (h_contentType h) /\ h_contentLength h < 2 ^ 63 /\ Forall header_ok (h_headers h) /\ zlen (h_headers h) <= 123 /\ text_ok (h_server h).

(** The fields without the size update: the first two, and the rest. *)
Definition datedTail (t : option hpackEncTable) (enc : encoder) (h : head) : option hpackEncTable * encoder :=
  let hasType := negb (bytes_eqb (h_contentType h) []) in
  let '(t, enc) := if hasType then encodeH2StaticField t enc hpackStaticContentType (str "content-type") (h_contentType h) else (t, enc) in
  let hasLength := 0 <=? h_contentLength h in
  let enc := if hasLength then (enc.1, EncodeString (EncodeInt enc.2 0x00 4 hpackStaticContentLength) (appendUint [] (h_contentLength h))) else enc in
  let '(t, enc, wroteServer) := headerLoop t enc (h_headers h) hasType hasLength false in
  if wroteServer then (t, enc) else encodeH2StaticField t enc hpackStaticServer (str "server") (h_server h).
Definition datedBody (t : option hpackEncTable) (enc : encoder) (h : head) : option hpackEncTable * encoder :=
  let enc := (enc.1, EncodeStatus enc.2 (h_status h)) in
  let '(t, enc) :=
    if headersHaveFold (h_headers h) (str "date") then (t, enc)
    else match t with
         | None => (None, (enc.1, enc.2 ++ h2DateField_enc dateAt (h_date h)))
         | Some t => let '(t, enc) := encodeField t enc hpackStaticDate (str "date") (dateAt (h_date h)) in (Some t, enc)
         end in
  datedTail t enc h.

Definition dated (t : option hpackEncTable) (enc : encoder) (h : head) : option hpackEncTable * encoder :=
  encodeH2ResponseHeadersDated dateAt t enc (h_date h) (h_status h) (h_contentType h) (h_contentLength h) (h_headers h) (h_server h).

Lemma dated_body t enc h : dated t enc h =
  let '(t, enc) := match t with Some t => let '(buf, t) := enc_beginBlock t enc.2 in (Some t, (enc.1, buf)) | None => (None, enc) end in datedBody t enc h.
Proof. unfold dated, encodeH2ResponseHeadersDated, datedBody, datedTail. done. Qed.

Lemma date_text d : text_ok (dateAt d).
Proof. destruct (dateAt_ok d) as [H1 H2]. split; [done |]. rewrite H2. done. Qed.

(** The date as a literal of its own. *)
Lemma dateField_encodes d : encodes (h2DateField_enc dateAt d) (str "date", dateAt d).
Proof.
  destruct (date_text d) as [H1 H2]. destruct (encodes_static (write := writeRaw) (view := fun s => s) 33 (dateAt d)) as (enc & He & Henc); [lia | done | done |].
  specialize (He []). unfold writeRaw in He. rewrite (proj2 (dateAt_ok d)) in He. cbn [app] in He. unfold h2DateField_enc, appendH2DateFieldPrefix. unfold hpackStaticDate. by rewrite He.
Qed.

Lemma date_writes t cache buf d : field_cache_ok cache -> oroom t 1 ->
  exists w t' cache', match t with
    | None => (None, (cache, buf ++ h2DateField_enc dateAt d))
    | Some t => let '(t, enc) := encodeField t (cache, buf) hpackStaticDate (str "date") (dateAt d) in (Some t, enc)
    end = (t', (cache', buf ++ w)) /\ field_cache_ok cache' /\ owrites t t' w [(str "date", dateAt d)] /\ (t = None -> w = h2DateField_enc dateAt d).
Proof.
  intros Hc Hr. destruct t as [t |].
  - destruct (encodeField_writes t cache buf hpackStaticDate (str "date") (dateAt d) Hc) as (w & t' & cache' & -> & Hc' & Hw); [right; split; [done | reflexivity] | text_literal | apply date_text | done |].
    by exists w, (Some t'), cache'.
  - exists (h2DateField_enc dateAt d), None, cache. split_and!; try done. intros limit s. by apply reads_encodes, dateField_encodes.
Qed.

Lemma length_writes t buf n : 0 <= n < 2 ^ 63 -> oroom t 1 ->
  exists w, EncodeString (EncodeInt buf 0x00 4 hpackStaticContentLength) (appendUint [] n) = buf ++ w /\ owrites t t w [(str "content-length", appendUint [] n)].
Proof.
  intros Hn Hr. destruct (appendUint_text n Hn) as [H1 H2]. destruct (encodes_static (write := EncodeString) (view := fun s => s) 28 (appendUint [] n)) as (w & He & Hw); [lia | done | done |].
  exists w. split; [apply He |]. apply owrites_still; [done |]. intros limit s. by apply reads_encodes.
Qed.

Lemma fold_date hs : headersHaveFold hs (str "date") = named (str "date") (map lowered hs).
Proof.
  unfold headersHaveFold, named. induction hs as [| h hs IH]; [done |]. cbn [existsb map]. rewrite IH. f_equal. unfold lowered. cbn [fst]. by apply fold_literal.
Qed.

Lemma owrites_none t : oroom t 0 -> owrites t t [] [].
Proof. intros H. apply owrites_still; [done | intros; apply reads_nil]. Qed.

(** The content type and length, when there is one. *)
Lemma type_length_writes t cache buf h : head_ok h -> field_cache_ok cache -> oroom t 2 ->
  let sent := (if bytes_eqb (h_contentType h) [] then [] else [(str "content-type", h_contentType h)]) ++ (if 0 <=? h_contentLength h then [(str "content-length", appendUint [] (h_contentLength h))] else []) in
  exists w t' cache', (let '(t, enc) := if negb (bytes_eqb (h_contentType h) []) then encodeH2StaticField t (cache, buf) hpackStaticContentType (str "content-type") (h_contentType h) else (t, (cache, buf)) in
      (t, if 0 <=? h_contentLength h then (enc.1, EncodeString (EncodeInt enc.2 0x00 4 hpackStaticContentLength) (appendUint [] (h_contentLength h))) else enc)) = (t', (cache', buf ++ w)) /\
    field_cache_ok cache' /\ owrites t t' w sent /\ zlen sent <= 2 /\ flags_ok sent (negb (bytes_eqb (h_contentType h) [])) (0 <=? h_contentLength h) false.
Proof.
  intros (_ & Ht & Hl & _) Hc Hr sent. subst sent. set (ctF := if bytes_eqb (h_contentType h) [] then _ else _). set (clF := if 0 <=? h_contentLength h then _ else _).
  assert (H1 : exists w t' cache', (if negb (bytes_eqb (h_contentType h) []) then encodeH2StaticField t (cache, buf) hpackStaticContentType (str "content-type") (h_contentType h) else (t, (cache, buf)))
      = (t', (cache', buf ++ w)) /\ field_cache_ok cache' /\ owrites t t' w ctF /\ zlen ctF <= 1).
  { unfold ctF. destruct (bytes_eqb (h_contentType h) []); cbn [negb].
    - exists [], t, cache. rewrite app_nil_r. split_and!; try done. apply owrites_none. by apply (oroom_le t 2).
    - destruct (static_writes t cache buf hpackStaticContentType (str "content-type") (h_contentType h)) as (w & t' & cache' & E & Hc' & Hw); try done; [text_literal | by apply (oroom_le t 2) |]. by exists w, t', cache'. }
  destruct H1 as (w1 & t1 & c1 & -> & Hc1 & Hw1 & Hz1). pose proof (zlen_nonneg ctF).
  assert (Hr1 : oroom t1 1) by (eapply owrites_room; [| | exact Hw1]; [eapply oroom_le; [| exact Hr]; lia | lia]).
  assert (H2 : exists w, (if 0 <=? h_contentLength h then (c1, EncodeString (EncodeInt (buf ++ w1) 0x00 4 hpackStaticContentLength) (appendUint [] (h_contentLength h))) else (c1, buf ++ w1))
      = (c1, (buf ++ w1) ++ w) /\ owrites t1 t1 w clF /\ zlen clF <= 1).
  { unfold clF. destruct (0 <=? h_contentLength h) eqn:E.
    - destruct (length_writes t1 (buf ++ w1) (h_contentLength h)) as (w & -> & Hw); [lia | done |]. by exists w.
    - exists []. rewrite app_nil_r. split_and!; try done. apply owrites_none. by apply (oroom_le t1 1). }
  destruct H2 as (w2 & E2 & Hw2 & Hz2). exists (w1 ++ w2), t1, c1. cbn [fst snd]. rewrite E2, <- app_assoc. split; [done |]. split; [done |].
  split; [by eapply owrites_app |]. split; [rewrite zlen_app; lia |]. unfold ctF, clF. destruct (bytes_eqb (h_contentType h) []), (0 <=? h_contentLength h); split_and!; reflexivity.
Qed.

Lemma datedTail_writes t cache buf h : head_ok h -> field_cache_ok cache -> oroom t 126 ->
  let fs := headTail (h_contentType h) (h_contentLength h) (h_headers h) (h_server h) in
  exists w t' cache', datedTail t (cache, buf) h = (t', (cache', buf ++ w)) /\ field_cache_ok cache' /\ owrites t t' w fs /\ zlen fs <= 126.
Proof.
  intros Hh Hc Hr. destruct (type_length_writes t cache buf h Hh Hc) as (w1 & t1 & c1 & E1 & Hc1 & Hw1 & Hz1 & Hf1); [by apply (oroom_le t 126) |].
  destruct Hh as (_ & _ & _ & Hhs & Hn & Hsv). unfold datedTail, headTail. cbv zeta in *. rewrite (app_assoc (if bytes_eqb (h_contentType h) [] then _ else _)).
  set (sent := (if bytes_eqb (h_contentType h) [] then _ else _) ++ _) in *. pose proof (zlen_nonneg sent).
  destruct (if negb _ then _ else _) as [t0 enc0]. injection E1 as -> ->.
  assert (Hr1 : oroom t1 124) by (eapply owrites_room; [| | exact Hw1]; [eapply oroom_le; [| exact Hr]; lia | lia]).
  destruct (headerLoop_writes (h_headers h) Hhs t1 c1 (buf ++ w1) sent _ _ _ Hc1 Hf1) as (w2 & t2 & c2 & fs2 & E2 & Hc2 & Hw2 & Hz2 & Hs2); [by apply (oroom_le t1 124); [lia |] |].
  rewrite E2. pose proof (zlen_nonneg fs2). assert (Hr2 : oroom t2 1) by (eapply owrites_room; [| | exact Hw2]; [eapply oroom_le; [| exact Hr1]; lia | lia]).
  assert (Hfold : foldl once [] (sent ++ map lowered (List.filter sendable (h_headers h)) ++ [(str "server", h_server h)]) = once (sent ++ fs2) (str "server", h_server h)).
  { rewrite foldl_app. replace (foldl once [] sent) with sent by (unfold sent; destruct (bytes_eqb (h_contentType h) []), (0 <=? h_contentLength h); reflexivity).
    rewrite foldl_app, Hs2. done. }
  rewrite Hfold. destruct (named (str "server") (sent ++ fs2)) eqn:Es.
  - exists (w1 ++ w2), t2, c2. rewrite once_again by done. rewrite <- app_assoc. split_and!; try done; [by eapply owrites_app | rewrite zlen_app; lia].
  - rewrite once_new by (by left). destruct (static_writes t2 c2 ((buf ++ w1) ++ w2) hpackStaticServer (str "server") (h_server h)) as (w3 & t3 & c3 & -> & Hc3 & Hw3); try done; [text_literal |].
    exists (w1 ++ w2 ++ w3), t3, c3. rewrite <- !app_assoc. split_and!; try done; [by do 2 (eapply owrites_app; [done |]) |]. rewrite !zlen_app. change (zlen [_]) with 1. lia.
Qed.

Lemma datedBody_writes t cache buf h : head_ok h -> field_cache_ok cache -> oroom t 128 ->
  exists ws wd wt t' cache', datedBody t (cache, buf) h = (t', (cache', buf ++ ws ++ wd ++ wt)) /\ field_cache_ok cache' /\
    owrites t t' (ws ++ wd ++ wt) (fieldsOf h) /\ zlen (fieldsOf h) <= 128 /\
    (t = None -> EncodeStatus [] (h_status h) = ws /\ (named (str "date") (map lowered (h_headers h)) = false -> wd = h2DateField_enc dateAt (h_date h)) /\
      forall limit s, reads limit s wt (headTail (h_contentType h) (h_contentLength h) (h_headers h) (h_server h)) s).
Proof.
  intros Hh Hc Hr. destruct (encodes_status (h_status h)) as (ws & Es & Hs); [apply Hh |]. unfold datedBody, fieldsOf, headFields. cbn [fst snd]. rewrite Es, fold_date.
  set (dateF := if named _ _ then [] else [_]).
  assert (Hr1 : oroom t 127) by (by apply (oroom_le t 128)). assert (Hw0 : owrites t t ws [(str ":status", appendUint [] (h_status h))])
    by (apply owrites_still; [by apply (oroom_le t 128) | intros; by apply reads_encodes]).
  assert (Hd : exists wd t' cache', (if named (str "date") (map lowered (h_headers h)) then (t, (cache, buf ++ ws)) else match t with
      | None => (None, (cache, (buf ++ ws) ++ h2DateField_enc dateAt (h_date h)))
      | Some t => let '(t, enc) := encodeField t (cache, buf ++ ws) hpackStaticDate (str "date") (dateAt (h_date h)) in (Some t, enc)
      end) = (t', (cache', (buf ++ ws) ++ wd)) /\ field_cache_ok cache' /\ owrites t t' wd dateF /\ zlen dateF <= 1 /\
      (t = None -> named (str "date") (map lowered (h_headers h)) = false -> wd = h2DateField_enc dateAt (h_date h))).
  { unfold dateF. destruct (named (str "date") _).
    - exists [], t, cache. rewrite app_nil_r. split_and!; try done. apply owrites_none. by apply (oroom_le t 127).
    - destruct (date_writes t cache (buf ++ ws) (h_date h) Hc) as (w & t' & cache' & E & Hc' & Hw & Hn); [by apply (oroom_le t 127) |]. exists w, t', cache'. split_and!; try done. by intros Hx _; apply Hn. }
  destruct Hd as (wd & t1 & c1 & -> & Hc1 & Hw1 & Hz1 & Hn1). pose proof (zlen_nonneg dateF).
  assert (Hr2 : oroom t1 126) by (eapply owrites_room; [| | exact Hw1]; [eapply oroom_le; [| exact Hr1]; lia | lia]).
  destruct (datedTail_writes t1 c1 ((buf ++ ws) ++ wd) h Hh Hc1 Hr2) as (wt & t2 & c2 & -> & Hc2 & Hw2 & Hz2).
  exists ws, wd, wt, t2, c2. rewrite <- !app_assoc. split; [done |]. split; [done |]. split; [by do 2 (eapply owrites_app; [done |]) |].
  split; [rewrite !zlen_app; change (zlen [_]) with 1; lia |]. intros ->. split; [by apply (Es []) |]. split; [by apply Hn1 |].
  destruct t1 as [t1 |]; [done |]. destruct t2 as [t2 |]; [done |]. exact Hw2.
Qed.

(** ** The memoised root response *)

Lemma statusFieldLen code rest : 0 <= code < 2 ^ 63 -> h2StatusFieldLen (EncodeStatus [] code ++ rest) = zlen (EncodeStatus [] code).
Proof.
  intros Hc. assert (Hlit : h2StatusFieldLen (writeRaw (EncodeInt [] 0x00 4 8) (appendUint [] code) ++ rest) = zlen (writeRaw (EncodeInt [] 0x00 4 8) (appendUint [] code))).
  { destruct (appendUint_spells [] code Hc) as (s & -> & _ & Hl & _). cbn [app]. unfold writeRaw. rewrite !EncodeInt_bytes by (apply prefix4 || apply (prefix7 false) || (unfold is_u64; lia)).
    change (int_bytes 0 4 8) with [8]. unfold int_bytes. replace (zlen s <? 2 ^ 7 - 1) with true by lia. cbn [app]. rewrite Z.add_0_l. unfold h2StatusFieldLen. rewrite !zlen_cons, zlen_app. pose proof (zlen_nonneg rest).
    replace (_ =? 0) with false by lia. change (znth (8 :: _) 0) with 8. change (znth (8 :: ?x :: _) 1) with x. change (Z.land 8 128) with 0. cbn [negb orb Z.eqb].
    replace (_ <? 2) with false by lia. change 127 with (2 ^ 7 - 1). rewrite land_ones_mod, Z.mod_small by lia. lia. }
  assert (Hidx : forall idx, 8 <= idx <= 14 -> h2StatusFieldLen (EncodeIndexed [] idx ++ rest) = zlen (EncodeIndexed [] idx)).
  { intros idx Hi. assert (idx = 8 \/ idx = 9 \/ idx = 10 \/ idx = 11 \/ idx = 12 \/ idx = 13 \/ idx = 14) as H by lia. pose proof (zlen_nonneg rest).
    repeat (destruct H as [-> | H]); try subst idx; unfold h2StatusFieldLen; match goal with |- context [EncodeIndexed [] ?i] => let v := eval vm_compute in (EncodeIndexed [] i) in change (EncodeIndexed [] i) with v end;
    cbn [app]; rewrite !zlen_cons; (replace (1 + zlen rest =? 0) with false by lia); reflexivity. }
  clear Hc. unfold EncodeStatus, writeRaw in *.
  repeat match goal with |- context [match ?z with _ => _ end] =>
    lazymatch z with context [match _ with _ => _ end] => fail | _ => idtac end;
    lazymatch type of z with Z => is_var z; destruct z | positive => is_var z; destruct z end end; try exact Hlit; apply Hidx; lia.
Qed.

Definition with_date (h : head) (d : Z) : head := mkHead d (h_status h) (h_contentType h) (h_contentLength h) (h_headers h) (h_server h).
Definition plainBlock (cache : fieldCache) (h : head) : bytes :=
  (encodeH2ResponseHeaders dateAt (cache, []) (h_date h) (h_status h) (h_contentType h) (h_contentLength h) (h_headers h) (h_server h)).2.

Lemma plainBlock_reads cache h : head_ok h -> field_cache_ok cache -> zlen (fieldsOf h) <= 128 /\ forall limit s, reads limit s (plainBlock cache h) (fieldsOf h) s.
Proof.
  intros Hh Hc. destruct (datedBody_writes None cache [] h Hh Hc I) as (ws & wd & wt & t' & c' & E & _ & Hw & Hz & _). split; [done |].
  pose proof (dated_body None (cache, []) h) as Ed. cbv iota in Ed. rewrite E in Ed. unfold plainBlock, encodeH2ResponseHeaders. unfold dated in Ed. rewrite Ed. destruct t'; [done | exact Hw].
Qed.

Lemma zlen_date d : zlen (h2DateField_enc dateAt d) = zlen (appendH2DateFieldPrefix []) + 29.
Proof. unfold h2DateField_enc. rewrite zlen_app, (proj2 (dateAt_ok d)). done. Qed.

(** Replacing the date in place gives the block of the new date. *)
Lemma refresh_reads cache h d : head_ok h -> field_cache_ok cache -> named (str "date") (map lowered (h_headers h)) = false ->
  zlen (fieldsOf (with_date h d)) <= 128 /\ forall limit s, reads limit s (refreshH2DateField dateAt d (plainBlock cache h)) (fieldsOf (with_date h d)) s.
Proof.
  intros Hh Hc Hn. destruct (plainBlock_reads cache (with_date h d) Hh Hc) as [Hz _]. split; [done |].
  destruct (datedBody_writes None cache [] h Hh Hc I) as (ws & wd & wt & t' & c' & E & _ & _ & _ & Hnone). destruct (Hnone eq_refl) as (Es & Hwd & Hwt). specialize (Hwd Hn). subst wd. clear Hnone.
  assert (Eb : plainBlock cache h = ws ++ h2DateField_enc dateAt (h_date h) ++ wt).
  { pose proof (dated_body None (cache, []) h) as Ed. cbv iota in Ed. rewrite E in Ed. unfold plainBlock, encodeH2ResponseHeaders. unfold dated in Ed. by rewrite Ed. }
  assert (Er : refreshH2DateField dateAt d (plainBlock cache h) = ws ++ h2DateField_enc dateAt d ++ wt).
  { unfold refreshH2DateField. rewrite Eb. rewrite <- Es, statusFieldLen by apply Hh. rewrite Es. pose proof (zlen_date d) as Hd. pose proof (zlen_date (h_date h)) as Hd0.
    rewrite !zlen_app. pose proof (zlen_nonneg wt). replace (_ - _ <? _) with false by lia. unfold h2DateField_enc at 1. rewrite <- !app_assoc, zslice_mid.
    replace (bytes_eqb _ _) with true by (symmetry; by apply bytes_eqb_spec). cbn [negb orb]. rewrite ztake_app_exact. do 2 f_equal.
    rewrite Hd, <- Hd0, <- zdrop_zdrop, zdrop_app_exact by apply zlen_nonneg. apply zdrop_app_exact. }
  intros limit s. rewrite Er. unfold fieldsOf, headFields. cbn [with_date h_date h_status h_contentType h_contentLength h_headers h_server]. rewrite Hn.
  destruct (encodes_status (h_status h)) as (ws' & Es' & Hs); [apply Hh |]. specialize (Es' []). rewrite Es in Es'. cbn [app] in Es'. subst ws'.
  eapply reads_app; [by apply reads_encodes |]. eapply reads_app; [apply reads_encodes, dateField_encodes | apply Hwt].
Qed.

(** ** The memo *)

Definition remembered (m : h2HeadMemo) (h : head) : Prop :=
  m_status m = h_status h /\ m_contentLength m = h_contentLength h /\ m_date m = h_date h /\ m_ctLen m = zlen (h_contentType h) /\
  m_key m = h_contentType h ++ h_server h ++ concat (headerTexts (h_headers h)) /\ m_headerLens m = map zlen (headerTexts (h_headers h)).

Lemma headersMatch_spec key texts : forall lens off, 0 <= off <= zlen key -> length lens = length texts -> headersMatch key lens off texts = true ->
  lens = map zlen texts /\ zdrop off key = concat texts.
Proof.
  induction texts as [| x texts IH]; intros lens off Ho Hl H; destruct lens as [| n lens]; try discriminate Hl.
  - cbn [headersMatch] in H. split; [done |]. apply zdrop_all. lia.
  - cbn [headersMatch] in H. destruct (negb (n =? zlen x)) eqn:E1; [done |]. destruct (zlen key <? off + n) eqn:E2; [done |]. destruct (bytes_eqb (zslice key off (off + n)) x) eqn:E3; [| done]. cbn [negb orb] in H.
    assert (n = zlen x) as -> by lia. apply bytes_eqb_spec in E3. pose proof (zlen_nonneg x). destruct (IH lens (off + zlen x)) as [-> Hd]; [lia | simpl in Hl; lia | done |].
    split; [done |]. cbn [concat]. rewrite <- Hd, <- E3 at 1. unfold zslice. replace (off + zlen x - off) with (zlen x) by lia. rewrite <- (ztake_zdrop (zlen x) (zdrop off key)) at 1. f_equal. apply zdrop_zdrop; lia.
Qed.

Lemma concat_inj (xs ys : list bytes) : map zlen xs = map zlen ys -> concat xs = concat ys -> xs = ys.
Proof.
  revert ys. induction xs as [| x xs IH]; intros [| y ys] Hl Hc; try discriminate Hl; [done |]. cbn [map concat] in *. injection Hl as Hxy Hl.
  apply app_inj_1 in Hc as [-> Hc]; [by rewrite (IH ys) | unfold zlen in Hxy; lia].
Qed.

Lemma headerTexts_inj hs ks : headerTexts hs = headerTexts ks -> hs = ks.
Proof.
  revert ks. unfold headerTexts. induction hs as [| [a b] hs IH]; intros [| [c d] ks] E; try discriminate E; [done |]. cbn [map concat app fst snd] in E. injection E as -> -> E. by rewrite (IH ks).
Qed.

Lemma length_headerTexts hs : length (headerTexts hs) = (2 * length hs)%nat.
Proof. unfold headerTexts. induction hs as [| h hs IH]; [done |]. cbn [map concat app length]. rewrite IH. lia. Qed.

(** A match is a match of every argument. *)
Lemma memo_matches_sound m gen h0 h : remembered m h0 ->
  memo_matches m gen (h_date h) (h_status h) (h_contentType h) (h_contentLength h) (h_headers h) (h_server h) = true -> m_gen m = gen /\ h0 = h.
Proof.
  intros (R1 & R2 & R3 & R4 & R5 & R6) H. unfold memo_matches in H. destruct (_ || negb (m_ctLen m =? _)) eqn:E; [done |].
  rewrite !orb_false_iff, !negb_false_iff in E. destruct E as ((((((E1 & E2) & E3) & E4) & E5) & _) & E7). cbv zeta in H.
  destruct (_ || negb (bytes_eqb (zslice _ _ _) _)) eqn:E; [done |]. rewrite !orb_false_iff, !negb_false_iff in E. destruct E as ((E8 & E9) & E10).
  apply bytes_eqb_spec in E9, E10. destruct h0 as [d0 st0 ct0 cl0 hs0 sv0], h as [d st ct cl hs sv]. cbn [h_date h_status h_contentType h_contentLength h_headers h_server] in *.
  split; [lia |]. rewrite R4 in *. rewrite R5 in E9. rewrite ztake_app_exact in E9. subst ct0. pose proof (zlen_nonneg sv) as Hsv. pose proof (zlen_nonneg ct) as Hct.
  assert (Hlen : length (m_headerLens m) = length (headerTexts hs)) by (rewrite length_headerTexts; unfold zlen in E5; lia).
  assert (Hm : headersMatch (m_key m) (m_headerLens m) (zlen ct + zlen sv) (headerTexts hs) = true).
  { destruct hs as [| x hs]; [destruct (m_headerLens m); [|discriminate Hlen]; cbn; rewrite Z.eqb_sym; exact H |].
    rewrite zlen_cons in H. pose proof (zlen_nonneg hs). by replace (1 + zlen hs =? 0) with false in H by lia. }
  apply headersMatch_spec in Hm as [Hl Hd]; [| lia | done]. rewrite R6 in Hl.
  assert (Hkey : zdrop (zlen ct) (m_key m) = sv0 ++ concat (headerTexts hs0)) by (rewrite R5; apply zdrop_app_exact).
  rewrite <- zdrop_zdrop, Hkey in Hd by lia. unfold zslice in E10. rewrite Hkey in E10. replace (_ + _ - _) with (zlen sv) in E10 by lia.
  assert (Hall : sv ++ concat (headerTexts hs) = sv0 ++ concat (headerTexts hs0)) by (rewrite <- E10 at 1; rewrite <- Hd; apply ztake_zdrop).
  assert (Hcl : length (concat (headerTexts hs)) = length (concat (headerTexts hs0))).
  { rewrite !length_concat. f_equal. apply (f_equal (map Z.to_nat)) in Hl. rewrite !List.map_map in Hl. unfold zlen in Hl. clear - Hl. revert Hl.
    generalize (headerTexts hs) (headerTexts hs0). intros a b. revert b. induction a as [| x a IH]; intros [| y b] Hl; try discriminate Hl; [done |]. cbn [map fmap list_fmap] in *. injection Hl as H1 H2. f_equal; [lia | by apply IH]. }
  apply app_inj_2 in Hall as [-> Hcc]; [| lia]. apply eq_sym, concat_inj in Hcc; [| done]. apply headerTexts_inj in Hcc as ->. f_equal; lia.
Qed.

(** The memo, while its generation is the table's, is a block for its key. *)
Definition memo_ok (t : hpackEncTable) : Prop :=
  match t_headMemo t with
  | None => True
  | Some m => 0 <= m_gen m <= t_gen t /\ (m_gen m = t_gen t -> exists h, remembered m h /\ zlen (fieldsOf h) <= 128 /\ forall limit s, tracks t s -> reads limit s (m_block m) (fieldsOf h) s)
  end.

Lemma memo_ok_grows t t' n : grows t t' n -> memo_ok t -> memo_ok t'.
Proof.
  intros (B & Hsame & _ & _ & Hm) H. unfold memo_ok in *. rewrite Hm. destruct (t_headMemo t) as [m |]; [| done]. destruct H as [H1 H2]. split; [lia |].
  intros E. assert (t' = t) as -> by (apply Hsame; lia). by apply H2.
Qed.

(** The server's table against the peer's limit and table. *)
Definition linked (t : hpackEncTable) (limit : Z) (s : Z * list field) : Prop :=
  rev (t_entries t) `prefix_of` s.2 /\ sized t /\ 0 <= t_gen t /\ t_maxSize t = Z.min limit h2EncTableMaxSize /\ (t_pendingUpdate t = false -> t_maxSize t = s.1) /\ memo_ok t.

Definition cleared (t : hpackEncTable) : hpackEncTable := mkEncTable (t_entries t) (t_size t) (t_maxSize t) false (t_gen t) (t_headMemo t).

Lemma sized_max t : sized t -> 0 <= t_maxSize t <= 4096.
Proof. intros [H1 H2]. pose proof (table_size_len (t_entries t)). pose proof (zlen_nonneg (t_entries t)). unfold h2EncTableMaxSize in *. lia. Qed.

(** The size update that opens a block when one is due. *)
Lemma beginBlock_reads t limit s : linked t limit s -> exists u s', (forall buf, enc_beginBlock t buf = (buf ++ u, cleared t)) /\ tracks (cleared t) s' /\
  (t_pendingUpdate t = false -> u = [] /\ s' = s) /\ (t_pendingUpdate t = true -> u = int_bytes 0x20 5 (t_maxSize t)) /\ s'.1 = t_maxSize t /\
  forall w fs s2, reads limit s' w fs s2 -> zlen fs <= 128 -> specDecode limit s (u ++ w) = Some (Ok fs, s2).
Proof.
  intros (Hp & Hz & H0 & Hl & Hs & _). unfold enc_beginBlock. pose proof (sized_max t Hz) as Hm. destruct (t_pendingUpdate t) eqn:E.
  - exists (int_bytes 0x20 5 (t_maxSize t)), (t_maxSize t, keep (t_maxSize t) s.2).
    split; [intros buf; rewrite EncodeInt_bytes; [done | split; [lia |]; exists 1; lia | unfold is_u64; lia] |].
    split; [split_and!; cbn [fst snd]; [| exact Hz | done] |].
    { change (t_entries (cleared t)) with (t_entries t). rewrite <- (keep_all (t_maxSize t) (rev (t_entries t))) by (rewrite table_size_rev; destruct Hz; lia). by apply keep_mono. }
    split; [done |]. split; [done |]. split; [done |]. intros w fs s2 (k & Hk & Hr) Hn. pose proof (zlen_int_bytes 0x20 5 (t_maxSize t)) as Hu. unfold specDecode. rewrite length_app. set (u := int_bytes _ _ _) in *.
    assert (Hfu : exists f, (length u + length w)%nat = S (k + f)) by (exists (length u - 1 + (length w - k))%nat; unfold zlen in Hu; lia). destruct Hfu as [f ->].
    destruct s as [max l]. unfold u. rewrite size_update by (unfold h2EncTableMaxSize in *; lia). specialize (Hr [] [] f ltac:(change (zlen (@nil field)) with 0; unfold maxHeaders; lia)). rewrite app_nil_r in Hr. cbn [snd app] in *. rewrite Hr. by destruct f.
  - exists [], s. split; [intros buf; rewrite app_nil_r; unfold cleared; rewrite <- E; by destruct t |]. split; [split_and!; [exact Hp | exact Hz | change (t_maxSize (cleared t)) with (t_maxSize t); rewrite Hs by done; lia] |]. split; [done |]. split; [done |]. split; [by rewrite Hs |].
    intros w fs s2 Hr Hn. by apply reads_decode.
Qed.

(** A block opens with the size update that is due, and none is due after it. *)
Definition updated (t t' : hpackEncTable) (block : bytes) : Prop :=
  t_pendingUpdate t' = false /\ (t_pendingUpdate t = true -> exists w, block = int_bytes 0x20 5 (t_maxSize t) ++ w).

(** A response written without the memo. *)
Lemma dated_reads t limit s cache h : linked t limit s -> head_ok h -> field_cache_ok cache -> t_gen t + 256 < 2 ^ 32 ->
  exists t' w cache' s', dated (Some t) (cache, []) h = (Some t', (cache', w)) /\ field_cache_ok cache' /\ specDecode limit s w = Some (Ok (fieldsOf h), s') /\
    linked t' limit s' /\ t_gen t' <= t_gen t + 256 /\ zlen (fieldsOf h) <= 128 /\ updated t t' w /\
    (t_pendingUpdate t = false -> t_gen t' = t_gen t -> t' = t /\ forall limit s, tracks t s -> reads limit s w (fieldsOf h) s).
Proof.
  intros L Hh Hc Hg. pose proof L as (_ & Hz & H0 & Hl & _ & Hmemo). destruct (beginBlock_reads t limit s L) as (u & s1 & Eb & T1 & Hu & Hu2 & M1 & Hdec).
  destruct (datedBody_writes (Some (cleared t)) cache u h Hh Hc) as (ws & wd & wt & t' & c' & E & Hc' & Hw & Hzf & _); [split_and!; [exact Hz | exact H0 | exact Hg] |].
  destruct t' as [t' |]; [| done]. destruct Hw as (G & Hz' & Hr). destruct (Hr limit s1 T1) as (s' & D & T' & _ & M'). set (w := ws ++ wd ++ wt) in *.
  exists t', (u ++ w), c', s'. rewrite dated_body. cbn [fst snd]. rewrite Eb. cbn [app fst snd]. rewrite E. split; [done |]. split; [done |]. split; [by eapply Hdec |].
  pose proof G as (B & Hsame & Hmx & Hpd & Hmm). change (t_gen (cleared t)) with (t_gen t) in *. split.
  { destruct T' as (T1' & _ & T3'). split_and!; [exact T1' | done | lia | rewrite Hmx; exact Hl | intros _; rewrite Hmx, M', M1; done | eapply memo_ok_grows; [exact G | exact Hmemo]]. }
  split; [lia |]. split; [done |]. split; [split; [by rewrite Hpd | intros Hp; rewrite (Hu2 Hp); by exists w] |]. intros Hp Hgen. destruct (Hu Hp) as [-> _]. assert (cleared t = t) as Ec by (unfold cleared; rewrite <- Hp; by destruct t).
  split; [rewrite <- Ec; by apply Hsame |]. intros limit' s0 Hs0. rewrite <- Ec in Hs0. destruct (Hr limit' s0 Hs0) as (s2 & D2 & _ & E2 & _). rewrite (E2 Hgen) in D2. exact D2.
Qed.

Definition indexed (t : hpackEncTable) (enc : encoder) (h : head) : hpackEncTable * encoder :=
  encodeH2ResponseHeadersIndexed dateAt t enc (h_date h) (h_status h) (h_contentType h) (h_contentLength h) (h_headers h) (h_server h).

Lemma linked_memo t limit s m : linked t limit s -> memo_ok (set_memo t m) -> linked (set_memo t m) limit s.
Proof. intros (H1 & H2 & H3 & H4 & H5 & _) Hm. by split_and!. Qed.

(** Changing the memo's counters only. *)
Lemma memo_ok_probation t m p k : t_headMemo t = Some m -> memo_ok t -> memo_ok (set_memo t (Some (set_probation m p k))).
Proof. unfold memo_ok. intros -> H. exact H. Qed.

(** What one response does to the connection. *)
Definition responds (t : hpackEncTable) (limit : Z) (s : Z * list field) (h : head) (r : hpackEncTable * encoder) : Prop :=
  exists s', specDecode limit s r.2.2 = Some (Ok (fieldsOf h), s') /\ linked r.1 limit s' /\ t_gen r.1 <= t_gen t + 256 /\ field_cache_ok r.2.1 /\ updated t r.1 r.2.2.

Lemma plain_responds t limit s cache h : linked t limit s -> head_ok h -> field_cache_ok cache -> t_gen t + 256 < 2 ^ 32 ->
  responds t limit s h (let '(t', enc) := dated (Some t) (cache, []) h in (default t t', enc)).
Proof.
  intros L Hh Hc Hg. destruct (dated_reads t limit s cache h L Hh Hc Hg) as (t' & w & c' & s' & -> & Hc' & D & L' & G & _ & U & _). by exists s'.
Qed.

Lemma remembered_responds t limit s cache h : linked t limit s -> head_ok h -> field_cache_ok cache -> t_gen t + 256 < 2 ^ 32 -> t_pendingUpdate t = false ->
  responds t limit s h (encodeH2ResponseHeadersRemembered dateAt t (cache, []) (h_date h) (h_status h) (h_contentType h) (h_contentLength h) (h_headers h) (h_server h)).
Proof.
  intros L Hh Hc Hg Hp. destruct (dated_reads t limit s cache h L Hh Hc Hg) as (t' & w & c' & s' & E & Hc' & D & L' & G & Hz & U & Hm). unfold dated in E.
  unfold encodeH2ResponseHeadersRemembered. rewrite E. change (default t (Some t')) with t'. cbn [fst snd]. destruct (t_gen t' =? t_gen t) eqn:Eg; cbn [negb]; [| by exists s'].
  destruct Hm as [-> Hr]; [done | lia |]. pose proof L' as (_ & _ & H0 & _ & _ & Hmemo).
  assert (Hnew : forall k, responds t limit s h (set_memo t (Some (memo_remember k (t_gen t) (h_date h) (h_status h) (h_contentType h) (h_contentLength h) (h_headers h) (h_server h) (zdrop (zlen (@nil Z)) w))), (c', w))).
  { intros k. exists s'. split; [done |]. split; [| split_and!; [done | done | split; [exact Hp | by rewrite Hp]]]. apply linked_memo; [done |]. unfold memo_ok. cbn [set_memo t_headMemo t_gen memo_remember m_gen]. split; [lia |]. intros _. exists h. by split. }
  destruct (t_headMemo t) as [m |] eqn:Em; [| apply Hnew]. destruct (_ && _); [| apply Hnew]. exists s'. split; [done |]. split; [| split_and!; [done | done | split; [exact Hp | by rewrite Hp]]].
  apply linked_memo; [done |]. by apply memo_ok_probation.
Qed.

Lemma indexed_responds t limit s cache h : linked t limit s -> head_ok h -> field_cache_ok cache -> t_gen t + 256 < 2 ^ 32 -> responds t limit s h (indexed t (cache, []) h).
Proof.
  intros L Hh Hc Hg. unfold indexed, encodeH2ResponseHeadersIndexed. destruct (t_pendingUpdate t) eqn:Ep; [by apply plain_responds |].
  assert (Hready : exists b t1, headMemoReady t (h_headers h) = (b, t1) /\ linked t1 limit s /\ t_gen t1 = t_gen t /\ t_pendingUpdate t1 = false).
  { unfold headMemoReady. destruct (t_headMemo t) as [m |] eqn:Em; [| by eexists _, t]. destruct (0 <? m_skip m); [| by eexists _, t]. eexists _, _. split; [done |].
    split; [| done]. apply linked_memo; [done |]. apply memo_ok_probation; [done |]. apply L. }
  destruct Hready as (b & t1 & -> & L1 & Eg & Ep1). assert (Hlift : forall r, responds t1 limit s h r -> responds t limit s h r) by (intros r (s' & D & L' & G & C & U & _); exists s'; rewrite <- Eg; split_and!; [done | done | done | done | split; [exact U | by rewrite Ep]]).
  apply Hlift. rewrite <- Eg in Hg. destruct b; cbn [negb]; [| by apply plain_responds]. destruct (t_headMemo t1) as [m |] eqn:Em; [| by apply remembered_responds].
  destruct (memo_matches m _ _ _ _ _ _ _) eqn:Em2; [| by apply remembered_responds]. pose proof L1 as (H1 & H2 & H3 & H4 & H5 & Hmemo).
  pose proof Hmemo as Hmemo'. unfold memo_ok in Hmemo'. rewrite Em in Hmemo'. destruct Hmemo' as [Hb Hv].
  assert (Hgen : m_gen m = t_gen t1) by (unfold memo_matches in Em2; destruct (m_gen m =? t_gen t1) eqn:E; [lia | done]).
  destruct (Hv Hgen) as (h0 & R & Hz & Hr). destruct (memo_matches_sound m _ h0 h R Em2) as [_ ->]. exists s. split; [| split; [| split_and!; [cbn; lia | done | split; [exact Ep1 | by rewrite Ep1]]]].
  - cbn [fst snd app]. apply reads_decode; [| done]. apply Hr. split_and!; [done | done | rewrite (H5 Ep1); lia].
  - apply linked_memo; [done |]. by apply memo_ok_probation.
Qed.

(** ** A connection *)

(** What happens on the server's side: a new connection, the peer's table
    limit, a response of [appendH2ResponseHeadersFrameIndexed] or
    [appendH2StatusOnlyResponseIndexed], the head of a streamed response (without
    an Alt-Svc field added by the server), the memoised root response. The caches
    are whatever the process has at the time. *)
Inductive event :=
| Connect
| Settings (limit : Z)
| Respond (cache : fieldCache) (date : Z) (r : Response) (serverName : bytes)
| StatusOnly (cache : fieldCache) (date status : Z) (serverName : bytes)
| Stream (cache : fieldCache) (h : head)
| Root (cache : fieldCache) (h : head) (date : Z).

Definition headSent (ev : event) : option head :=
  match ev with
  | Connect | Settings _ => None
  | Respond _ date r serverName => Some (mkHead date (StatusCode r) (ContentType r) (headerContentLength r) (r_Headers r) serverName)
  | StatusOnly _ date status serverName => Some (mkHead date status [] 0 [] serverName)
  | Stream _ h => Some h
  | Root _ h date => Some (with_date h date)
  end.
Definition cacheOf (ev : event) : fieldCache :=
  match ev with Connect | Settings _ => newFieldCache | Respond c _ _ _ | StatusOnly c _ _ _ | Stream c _ | Root c _ _ => c end.

(** The table and the block sent; the root response is the memoised one unless
    a size update is due, when it goes the general way. *)
Definition sent (t : hpackEncTable) (ev : event) : hpackEncTable * bytes :=
  match ev with
  | Connect => (enc_reset t, [])
  | Settings limit => (enc_setPeerLimit t limit, [])
  | Respond cache date r serverName => let '(t, enc) := responseBlock dateAt t cache date r serverName in (t, enc.2)
  | StatusOnly cache date status serverName => let '(t, enc) := statusOnlyBlock dateAt t cache date status serverName in (t, enc.2)
  | Stream cache h => appendH2HeaderBlock t (plainBlock cache h)
  | Root cache h date =>
      if t_pendingUpdate t then let '(t, enc) := indexed t (cache, []) (with_date h date) in (t, enc.2) else (t, refreshH2DateField dateAt date (plainBlock cache h))
  end.

(** The block opens with a dynamic table size update to at most [m]. *)
Definition signals (m : Z) (block : bytes) : bool :=
  match block with
  | [] => false
  | b :: _ => (32 <=? b) && (b <? 64) && (let '(n, k) := HpackDecodeInt block 5 in (0 <? k) && (n <=? m))
  end.

(** A limit below the size of the table in use has to be answered: [owed] is
    the smallest such limit since the last block. *)
Definition owes (owed : option Z) (inUse limit : Z) : option Z :=
  if limit <? inUse then Some (match owed with Some m => Z.min m limit | None => limit end) else owed.

(** A decoder that holds the peer to RFC 9113 (4.3.1) and RFC 7541 (4.2): after
    such limits the next block has to start by reducing the table to the smallest
    of them. *)
Definition peerDecode (owed : option Z) (limit : Z) (s : Z * list field) (block : bytes) : option (res hpackErr (list field) * (Z * list field)) :=
  match owed with
  | Some m => if signals m block then specDecode limit s block else Some (Err ErrH2BadHeader, s)
  | None => specDecode limit s block
  end.

(** The peer: its limit, its table, what it is owed, and what it decodes. *)
Fixpoint exchange (t : hpackEncTable) (limit : Z) (s : Z * list field) (owed : option Z) (evs : list event) : option (list (res hpackErr (list field))) :=
  match evs with
  | [] => Some []
  | ev :: evs =>
      let '(t, block) := sent t ev in
      match ev with
      | Connect => exchange t 4096 (4096, []) None evs
      | Settings limit => exchange t limit s (owes owed s.1 limit) evs
      | _ => match peerDecode owed limit s block with Some (r, s) => cons r <$> exchange t limit s None evs | None => None end
      end
  end.

(** Whenever a block is sent, the last limit is no larger than those that lowered
    the table since the block before it. *)
Fixpoint settled (inUse limit : Z) (owed : option Z) (evs : list event) : bool :=
  match evs with
  | [] => true
  | Connect :: evs => settled 4096 4096 None evs
  | Settings limit :: evs => settled inUse limit (owes owed inUse limit) evs
  | _ :: evs => match owed with Some m => limit <=? m | None => true end && settled (Z.min limit h2EncTableMaxSize) limit None evs
  end.

Definition event_ok (ev : event) : Prop :=
  match ev with
  | Settings limit => 0 <= limit < 2 ^ 32
  | Root _ h _ => head_ok h /\ named (str "date") (map lowered (h_headers h)) = false
  | _ => match headSent ev with Some h => head_ok h | None => True end
  end /\ field_cache_ok (cacheOf ev).

Lemma setPeerLimit_linked t limit s n : linked t limit s -> 0 <= n -> t_gen t + 2 < 2 ^ 32 ->
  linked (enc_setPeerLimit t n) n s /\ t_gen (enc_setPeerLimit t n) <= t_gen t + 2 /\ (n < s.1 \/ t_pendingUpdate t = true -> t_pendingUpdate (enc_setPeerLimit t n) = true).
Proof.
  intros L Hn Hg. pose proof L as (H1 & H2 & H3 & H4 & H5 & H6). unfold enc_setPeerLimit. pose proof (sized_max t H2). destruct (_ =? t_maxSize t) eqn:E.
  - split; [split_and!; try done; lia |]. split; [lia |]. intros [Hlt | Hp]; [| done]. destruct (t_pendingUpdate t); [done |]. rewrite (H5 eq_refl) in E. lia.
  - set (m := Z.min n h2EncTableMaxSize) in *. set (t0 := mkEncTable _ _ m _ _ _). assert (Hm : 0 <= m <= 4096) by (unfold m, h2EncTableMaxSize; lia).
    destruct (evictTo_spec t0 m) as (Hk & Hz & G); [lia | exact H3 | cbn; lia | apply H2 |]. set (t1 := evictTo t0 m) in *.
    pose proof G as (B & _ & Gm & _ & Gm2). change (t_gen t0) with (t_gen t) in *. cbn [t_gen]. rewrite nextGen_small by lia. split; [| split; [lia | done]].
    assert (Hb : table_size (t_entries t1) <= m) by (rewrite <- table_size_rev, Hk; apply keep_size; lia).
    split_and!; cbn [t_entries t_size t_maxSize t_gen t_pendingUpdate].
    + rewrite Hk. etransitivity; [apply keep_prefix | exact H1].
    + split; cbn [t_entries t_size t_maxSize]; [done |]. rewrite Gm. change (t_maxSize t0) with m. unfold h2EncTableMaxSize. lia.
    + lia.
    + by rewrite Gm.
    + done.
    + unfold memo_ok. cbn [t_headMemo t_gen]. rewrite Gm2. change (t_headMemo t0) with (t_headMemo t). unfold memo_ok in H6. destruct (t_headMemo t) as [mm |]; [| done].
      split; [lia |]. intros E'. lia.
Qed.

Lemma connect_linked t limit s : linked t limit s -> t_gen t + 1 < 2 ^ 32 -> linked (enc_reset t) 4096 (4096, []) /\ t_gen (enc_reset t) <= t_gen t + 1.
Proof.
  intros (_ & _ & H3 & _ & _ & H6) Hg. unfold enc_reset. rewrite nextGen_small by lia. split; [| cbn; lia].
  split_and!; cbn [t_entries t_size t_maxSize t_gen t_pendingUpdate snd fst]; try done; [lia |]. unfold memo_ok in *. cbn [t_headMemo t_gen]. destruct (t_headMemo t) as [m |]; [| done]. split; [lia |]. intros; lia.
Qed.

Lemma stream_responds t limit s cache h : linked t limit s -> head_ok h -> field_cache_ok cache ->
  exists s', specDecode limit s (appendH2HeaderBlock t (plainBlock cache h)).2 = Some (Ok (fieldsOf h), s') /\ linked (appendH2HeaderBlock t (plainBlock cache h)).1 limit s' /\
    t_gen (appendH2HeaderBlock t (plainBlock cache h)).1 = t_gen t /\ updated t (appendH2HeaderBlock t (plainBlock cache h)).1 (appendH2HeaderBlock t (plainBlock cache h)).2.
Proof.
  intros L Hh Hc. destruct (plainBlock_reads cache h Hh Hc) as [Hz Hr]. destruct (beginBlock_reads t limit s L) as (u & s1 & Eb & T1 & Hu & Hu2 & M1 & Hdec). exists s1.
  pose proof L as (_ & H2 & H3 & H4 & _ & H6). assert (L1 : linked (cleared t) limit s1) by (destruct T1 as (T1 & _ & T3); split_and!; try done).
  unfold appendH2HeaderBlock. destruct (t_pendingUpdate t) eqn:Ep; cbn [negb].
  - rewrite Eb. cbn [app fst snd]. split; [by apply Hdec |]. split; [done |]. split; [done |]. split; [done |]. intros _. rewrite (Hu2 eq_refl). by eexists.
  - destruct (Hu eq_refl) as [-> ->]. cbn [fst snd]. split; [by apply reads_decode |]. split; [done |]. split; [done |]. split; [done | by rewrite Ep].
Qed.

(** A limit that is owed is below the size in use, and an update is due. *)
Definition owedOk (t : hpackEncTable) (s : Z * list field) (owed : option Z) : Prop :=
  s.1 <= h2EncTableMaxSize /\ match owed with Some m => m < s.1 /\ t_pendingUpdate t = true | None => True end.

Lemma signals_update m n w : 0 <= n < 2 ^ 32 -> signals m (int_bytes 0x20 5 n ++ w) = (n <=? m).
Proof.
  intros Hn. assert (P5 : prefix_ok 0x20 5) by (split; [lia |]; exists 1; lia). destruct (int_bytes_head 0x20 5 n w) as (low & Hlow & tl & Etl); [lia | lia |]. change (2 ^ 5) with 32 in Hlow. pose proof (zlen_int_bytes 0x20 5 n) as Hz.
  unfold signals. rewrite Etl. rewrite <- Etl, int_bytes_decode by (done || (unfold is_u64; lia)). lia.
Qed.

(** The peer takes a block exactly when the last limit answers what is owed. *)
Lemma peerDecode_updated t t' limit s owed block : linked t limit s -> owedOk t s owed -> updated t t' block ->
  peerDecode owed limit s block = if match owed with Some m => limit <=? m | None => true end then specDecode limit s block else Some (Err ErrH2BadHeader, s).
Proof.
  intros (_ & Hz & _ & Hm & _) [Hs Ho] [_ Hu]. unfold peerDecode. destruct owed as [m |]; [| done]. destruct Ho as [Hlt Hp]. destruct (Hu Hp) as [w ->]. pose proof (sized_max t Hz). rewrite signals_update by lia. unfold h2EncTableMaxSize in *. by replace (t_maxSize t <=? m) with (limit <=? m) by lia.
Qed.

Lemma owes_ok t n s owed : owedOk t s owed -> (n < s.1 \/ t_pendingUpdate t = true -> t_pendingUpdate (enc_setPeerLimit t n) = true) -> owedOk (enc_setPeerLimit t n) s (owes owed s.1 n).
Proof.
  intros [Hs Ho] Hp. split; [done |]. unfold owes. destruct (n <? s.1) eqn:E; [| destruct owed as [m |]; [| done]; destruct Ho; split; [done | apply Hp; by right]]. destruct owed as [m |]; (split; [lia | apply Hp; left; lia]).
Qed.

Lemma cons_iff {A} (x y : A) o l : cons x <$> o = Some (y :: l) <-> x = y /\ o = Some l.
Proof. destruct o as [l' |]; cbn; [| by split; [| intros [_ ?]]]. split; [by intros [= -> ->] | by intros [-> [= ->]]]. Qed.

Lemma exchange_correct evs : forall t limit s owed, linked t limit s -> owedOk t s owed -> Forall event_ok evs -> t_gen t + 256 * zlen evs < 2 ^ 32 ->
  exchange t limit s owed evs = Some (map (fun h => Ok (fieldsOf h)) (omap headSent evs)) <-> settled s.1 limit owed evs = true.
Proof.
  induction evs as [| ev evs IH]; intros t limit s owed L O Hev Hg; [done |]. apply Forall_cons in Hev as [[Ho Hc] Hev]. rewrite zlen_cons in Hg. pose proof (zlen_nonneg evs).
  assert (Hone : forall h s' t' block, specDecode limit s block = Some (Ok (fieldsOf h), s') -> linked t' limit s' -> t_gen t' <= t_gen t + 256 -> updated t t' block ->
    match peerDecode owed limit s block with Some (r, s) => cons r <$> exchange t' limit s None evs | None => None end = Some (Ok (fieldsOf h) :: map (fun h => Ok (fieldsOf h)) (omap headSent evs)) <->
    match owed with Some m => limit <=? m | None => true end && settled (Z.min limit h2EncTableMaxSize) limit None evs = true).
  { intros h s' t' block D L' Hg' U. rewrite (peerDecode_updated t t' limit s owed block L O U). destruct (match owed with Some m => limit <=? m | None => true end); cbn [andb]; [rewrite D | rewrite cons_iff; by split; [intros [? _] |]]. rewrite cons_iff.
    assert (E1 : s'.1 = Z.min limit h2EncTableMaxSize) by (destruct U as [U _], L' as (_ & _ & _ & L4 & L5 & _); by rewrite <- L5). rewrite (IH t' limit s' None L' ltac:(split; [rewrite E1; lia | exact I]) Hev ltac:(lia)). rewrite E1. tauto. }
  destruct ev as [| n | c d r sv | c d st sv | c h | c h d]; cbn [exchange settled sent headSent omap list_omap cacheOf] in *; fold (omap headSent evs).
  - destruct (connect_linked t limit s L) as [L' Hg']; [lia |]. apply IH; [done | done | done | lia].
  - destruct (setPeerLimit_linked t limit s n L) as (L' & Hg' & Hp); [lia | lia |]. apply IH; [done | by apply owes_ok | done | lia].
  - pose proof (indexed_responds t limit s c (mkHead d (StatusCode r) (ContentType r) (headerContentLength r) (r_Headers r) sv) L Ho Hc ltac:(lia)) as R. unfold responseBlock.
    unfold indexed in R. cbn [h_date h_status h_contentType h_contentLength h_headers h_server] in R. destruct (encodeH2ResponseHeadersIndexed _ _ _ _ _ _ _ _ _) as [t' [c' w]].
    destruct R as (s' & D & L' & G & _ & U). cbn [fst snd] in *. by eapply Hone.
  - pose proof (indexed_responds t limit s c (mkHead d st [] 0 [] sv) L Ho Hc ltac:(lia)) as R. unfold statusOnlyBlock.
    unfold indexed in R. cbn [h_date h_status h_contentType h_contentLength h_headers h_server] in R. destruct (encodeH2ResponseHeadersIndexed _ _ _ _ _ _ _ _ _) as [t' [c' w]].
    destruct R as (s' & D & L' & G & _ & U). cbn [fst snd] in *. by eapply Hone.
  - destruct (stream_responds t limit s c h L Ho Hc) as (s' & D & L' & G & U). destruct (appendH2HeaderBlock _ _) as [t' w]. cbn [fst snd] in *. eapply Hone; [done | done | lia | done].
  - destruct Ho as [Ho Hn]. destruct (t_pendingUpdate t) eqn:Ep.
    + pose proof (indexed_responds t limit s c (with_date h d) L Ho Hc ltac:(lia)) as R. destruct (indexed _ _ _) as [t' [c' w]]. destruct R as (s' & D & L' & G & _ & U). cbn [fst snd] in *. by eapply Hone.
    + destruct (refresh_reads c h d Ho Hc Hn) as [Hz Hr]. eapply Hone; [by apply reads_decode | exact L | lia | split; [done | by rewrite Ep]].
Qed.
End Heads.

(** A table of a new connection object. *)
Definition zeroEncTable : hpackEncTable := mkEncTable [] 0 0 false 0 None.

(** C31: the heads of HTTP/2 responses reach the peer. Over any sequence of (up to
    2^23) new connections on the same table, changes of the peer's table limit,
    responses, status-only answers, streamed heads and memoised root responses, of
    up to 123 headers each, with any valid field cache at each one: a peer that
    insists on the size updates it is owed reads every block without an error as
    exactly the fields of its response (the status, the date unless the handler set
    one, content type and length, the handler's headers lower-cased without those
    of the connection and without a second content type, length or server, and the
    server's name unless set) if and only if it never lowers its limit and raises it
    again between two blocks, that is, if at every block its last limit is no larger
    than those that lowered the table since the block before. So the encoder's table
    (its indexes, evictions and size updates) stays with the peer's, the memo of the
    last block is used only where it spells the same response, and the smallest
    limit is announced only when it is also the last one. *)
Theorem h2_response_heads dateAt evs :
  (forall d, bytes_ok (dateAt d) /\ zlen (dateAt d) = h2DateValueLen) -> Forall event_ok evs -> 256 * zlen evs < 2 ^ 31 ->
  exchange dateAt (enc_reset zeroEncTable) 4096 (4096, []) None evs = Some (map (fun h => Ok (fieldsOf dateAt h)) (omap headSent evs)) <-> settled 4096 4096 None evs = true.
Proof.
  intros Hd Hev Hn. apply (exchange_correct dateAt Hd evs); [| done | done | change (t_gen (enc_reset zeroEncTable)) with 1; lia].
  unfold linked, sized, memo_ok. split_and!; try (vm_compute; (done || discriminate)). apply prefix_nil.
Qed.

Definition demoDates (d : Z) : bytes := if d =? 0 then str "Thu, 01 Jan 1970 00:00:00 GMT" else str "Thu, 01 Jan 1970 00:00:01 GMT".
Definition demoResponse : Response := mkResponse 200 [(str "Cache-Control", str "no-store"); (str "Connection", str "close"); (str "X-Id", str "7")] (str "hi") [] false (str "text/plain") (str "GET") None.
Definition demoRoot : head := mkHead 0 418 (str "text/plain") 2 [(str "Server", str "tea"); (str "server", str "pot")] (str "ALOS").
Definition demoEvents : list event :=
  [Respond newFieldCache 0 demoResponse (str "ALOS"); Respond newFieldCache 0 demoResponse (str "ALOS"); Respond newFieldCache 0 demoResponse (str "ALOS");
   Settings 64; Root newFieldCache demoRoot 1; Stream newFieldCache demoRoot; Root newFieldCache demoRoot 1; Connect; StatusOnly newFieldCache 1 404 (str "ALOS")].

Definition textCheck (s : bytes) : bool := forallb (fun c => (0 <=? c) && (c <? 256)) s && (zlen s <? 2 ^ 60).
Definition headCheck (h : head) : bool :=
  (0 <=? h_status h) && (h_status h <? 2 ^ 63) && textCheck (h_contentType h) && (h_contentLength h <? 2 ^ 63) &&
  forallb (fun f => textCheck f.1 && textCheck f.2) (h_headers h) && (zlen (h_headers h) <=? 123) && textCheck (h_server h).

Lemma textCheck_ok s : textCheck s = true -> text_ok s.
Proof.
  intros H. apply andb_true_iff in H as [H1 H2]. split; [| lia]. apply Forall_forall. intros c Hc. rewrite forallb_forall in H1. apply list_elem_of_In, H1 in Hc. unfold is_u8. lia.
Qed.
Lemma headCheck_ok h : headCheck h = true -> head_ok h.
Proof.
  intros H. unfold headCheck in H. rewrite !andb_true_iff in H. destruct H as ((((((H1 & H2) & H3) & H4) & H5) & H6) & H7).
  split_and!; try lia; try (by apply textCheck_ok). apply Forall_forall. intros f Hf. rewrite forallb_forall in H5. apply list_elem_of_In, H5, andb_true_iff in Hf as [Hn Hv]. split; by apply textCheck_ok.
Qed.

(** Three times the same response (indexed from the second on, from the memo at
    the third), a smaller table, the root response with a size update and with
    its date replaced, a streamed head, and a new connection. *)
Lemma h2_response_heads_witness :
  exchange demoDates (enc_reset zeroEncTable) 4096 (4096, []) None demoEvents
  = Some (map Ok
      (let hi := [(str ":status", str "200"); (str "date", demoDates 0); (str "content-type", str "text/plain"); (str "content-length", str "2");
         (str "cache-control", str "no-store"); (str "x-id", str "7"); (str "server", str "ALOS")] in
       let tea d := [(str ":status", str "418"); (str "date", demoDates d); (str "content-type", str "text/plain"); (str "content-length", str "2"); (str "server", str "tea")] in
       [hi; hi; hi; tea 1; tea 0; tea 1; [(str ":status", str "404"); (str "date", demoDates 1); (str "content-length", str "0"); (str "server", str "ALOS")]])).
Proof.
  assert (Hd : forall d, bytes_ok (demoDates d) /\ zlen (demoDates d) = h2DateValueLen).
  { intros d. unfold demoDates. destruct (d =? 0); (split; [apply (bool_decide_unpack _); vm_compute; exact I | reflexivity]). }
  assert (Hc : field_cache_ok newFieldCache) by (apply Forall_replicate; exact I).
  assert (H1 : head_ok demoRoot) by (apply headCheck_ok; vm_compute; reflexivity).
  assert (H2 : event_ok (Respond newFieldCache 0 demoResponse (str "ALOS"))) by (split; [apply headCheck_ok; vm_compute; reflexivity | exact Hc]).
  assert (H3 : event_ok (StatusOnly newFieldCache 1 404 (str "ALOS"))) by (split; [apply headCheck_ok; vm_compute; reflexivity | exact Hc]).
  assert (H5 : Forall event_ok demoEvents).
  { repeat apply Forall_cons_2; [exact H2 | exact H2 | exact H2 | split; [lia | exact Hc] | | split; [exact H1 | exact Hc] | | split; [exact I | exact Hc] | exact H3 | apply Forall_nil_2];
      (split; [split; [exact H1 | reflexivity] | exact Hc]). }
  assert (H4 : 256 * zlen demoEvents < 2 ^ 31) by reflexivity.
  etransitivity; [exact (proj2 (h2_response_heads demoDates demoEvents Hd H5 H4) ltac:(vm_compute; reflexivity)) | vm_compute; reflexivity].
Defined.

(** A limit that is lowered and raised again before the next block: only the
    last size is announced, and a peer that waits for the smallest refuses the
    block. *)
Lemma h2_limit_divergence : exchange demoDates (enc_reset zeroEncTable) 4096 (4096, []) None [Settings 64; Settings 4096; Stream newFieldCache demoRoot] = Some [Err ErrH2BadHeader].
Proof. vm_compute. reflexivity. Qed.
