(* ===== verification/RateLimit.v ===== *)
(** Rate limits: the token bucket of src/core/ratelimit.go, sequentially and
    with many goroutines on its two atomic words, and the limiter of requests of
    src/core/ratelimit_engine.go and ratelimit_middleware.go (rules, counters,
    clean-up). The clock is an argument of every operation that reads it; regular
    expressions and the /64 of an address are parameters; the map of clients is a
    finite map. Durations are nanoseconds. *)
From stdpp Require Import base list numbers gmap.
From Stdlib Require Import ZArith Lia ZifyBool.
From S2P Require Import Prelude Utils HttpText.

Open Scope list_scope.
Open Scope Z_scope.

(** ** The token bucket *)

Definition nanosPerSecond : Z := 1000000000.
Definition bytesPerMbps : Z := 125000.
Definition maxBandwidthMbps : Z := 250000.
Definition minDeficitSleep : Z := 50000.
Definition maxDeficitSleep : Z := 10000000.
Definition connLimiterDefaultBurst : Z := 65536.
Definition globalLimiterBurst : Z := 2 ^ 20.

Record TokenBucket := mkBucket { tb_tokens : Z; tb_lastTime : Z; tb_rate : Z; tb_burst : Z }.

Definition NewTokenBucket (now ratePerSec burst : Z) : TokenBucket :=
  let burst := if ratePerSec <=? 0 then 0 else if burst <=? 0 then ratePerSec else burst in
  mkBucket burst now ratePerSec burst.

(** [bits.Mul64] and [bits.Div64]. *)
Definition mul64 (a b : Z) : Z * Z := (u64 a * u64 b / 2 ^ 64, (u64 a * u64 b) mod 2 ^ 64).
Definition div64 (hi lo y : Z) : Z := (hi * 2 ^ 64 + lo) / y.

Definition mulDivCapped (a b divisor limit : Z) : Z :=
  let '(hi, lo) := mul64 a b in
  if u64 divisor <=? hi then limit
  else
    let quotient := if hi =? 0 then lo / u64 divisor else div64 hi lo (u64 divisor) in
    if u64 limit <=? quotient then limit else i64 quotient.

Definition refilled (burst current tokensToAdd : Z) : Z := if tokensToAdd <? burst - current then current + tokensToAdd else burst.

Definition refill (tb : TokenBucket) (now : Z) : TokenBucket :=
  let elapsed := now - tb_lastTime tb in
  if elapsed <=? 0 then tb
  else
    let tokensToAdd := mulDivCapped elapsed (tb_rate tb) nanosPerSecond (tb_burst tb) in
    if tokensToAdd <=? 0 then tb else mkBucket (refilled (tb_burst tb) (tb_tokens tb) tokensToAdd) now (tb_rate tb) (tb_burst tb).

Definition Allow (tb : TokenBucket) (now tokens : Z) : bool * TokenBucket :=
  if tokens <=? 0 then (true, tb)
  else if tb_burst tb <? tokens then (tb_burst tb <=? 0, tb)
  else
    let tb := refill tb now in
    if tb_tokens tb <? tokens then (false, tb) else (true, mkBucket (tb_tokens tb - tokens) (tb_lastTime tb) (tb_rate tb) (tb_burst tb)).

(** How long [sleepForDeficit] sleeps. *)
Definition sleepForDeficit (tb : TokenBucket) (now n : Z) : Z * TokenBucket :=
  let tb := refill tb now in
  let deficit := n - tb_tokens tb in
  if (deficit <=? 0) || (tb_rate tb <=? 0) then (minDeficitSleep, tb)
  else (Z.max (mulDivCapped deficit nanosPerSecond (tb_rate tb) maxDeficitSleep) minDeficitSleep, tb).

Record BandwidthConfig := mkBandwidth { MaxUploadRate : Z; MaxDownloadRate : Z; BurstSize : Z }.
Definition mbpsToBytesPerSec (mbps : Z) : Z := Z.min mbps maxBandwidthMbps * bytesPerMbps.
Definition burstBytes (c : BandwidthConfig) (defaultBytes : Z) : Z := if BurstSize c <=? 0 then defaultBytes else mbpsToBytesPerSec (BurstSize c).
Definition bucketFor (now rate burst : Z) : option TokenBucket := if 0 <? rate then Some (NewTokenBucket now (mbpsToBytesPerSec rate) burst) else None.
Definition NewConnectionLimiter (now : Z) (c : BandwidthConfig) : option TokenBucket * option TokenBucket :=
  let burst := burstBytes c connLimiterDefaultBurst in (bucketFor now (MaxUploadRate c) burst, bucketFor now (MaxDownloadRate c) burst).
Definition NewGlobalLimiter (now : Z) (c : BandwidthConfig) : option TokenBucket * option TokenBucket :=
  let burst := burstBytes c globalLimiterBurst in (bucketFor now (MaxUploadRate c) burst, bucketFor now (MaxDownloadRate c) burst).

(** ** Many goroutines on one bucket *)

(** Where a goroutine is inside [Allow n] ([n = 0]: a refill of its own). *)
Inductive bphase :=
| BIdle
| BClock (n now : Z)          (** read the clock *)
| BLast (n now last : Z)      (** loaded [lastTime] *)
| BAdd (n add : Z)            (** moved [lastTime], the tokens are to be added *)
| BAddLoaded (n add cur : Z)  (** in the loop that adds them, after the load *)
| BSpend (n : Z)              (** in the loop that spends, before the load *)
| BSpendLoaded (n cur : Z).   (** after the load *)

(** [bs_granted] is the ghost total of what [Allow] granted. *)
Record bsys := mkBsys { bs_tokens : Z; bs_last : Z; bs_granted : Z; bs_threads : list bphase }.

Definition goes (s : bsys) (t : nat) (ph : bphase) : bsys := mkBsys (bs_tokens s) (bs_last s) (bs_granted s) (<[t := ph]> (bs_threads s)).

(** One atomic operation of goroutine [t]; the clock reads anything. *)
Inductive bucket_step (rate burst : Z) (s : bsys) : bsys -> Prop :=
| b_start t n now : bs_threads s !! t = Some BIdle -> 0 <= n <= burst -> 0 <= now < 2 ^ 62 -> bucket_step rate burst s (goes s t (BClock n now))
| b_last t n now : bs_threads s !! t = Some (BClock n now) -> bucket_step rate burst s (goes s t (BLast n now (bs_last s)))
| b_norefill t n now last : bs_threads s !! t = Some (BLast n now last) ->
    now - last <= 0 \/ mulDivCapped (now - last) rate nanosPerSecond burst <= 0 -> bucket_step rate burst s (goes s t (BSpend n))
| b_moved t n now last : bs_threads s !! t = Some (BLast n now last) -> 0 < now - last -> 0 < mulDivCapped (now - last) rate nanosPerSecond burst ->
    bs_last s = last ->
    bucket_step rate burst s (mkBsys (bs_tokens s) now (bs_granted s) (<[t := BAdd n (mulDivCapped (now - last) rate nanosPerSecond burst)]> (bs_threads s)))
| b_lost t n now last : bs_threads s !! t = Some (BLast n now last) -> 0 < now - last -> 0 < mulDivCapped (now - last) rate nanosPerSecond burst ->
    bs_last s <> last -> bucket_step rate burst s (goes s t (BSpend n))
| b_addload t n add : bs_threads s !! t = Some (BAdd n add) -> bucket_step rate burst s (goes s t (BAddLoaded n add (bs_tokens s)))
| b_added t n add cur : bs_threads s !! t = Some (BAddLoaded n add cur) -> bs_tokens s = cur ->
    bucket_step rate burst s (mkBsys (refilled burst cur add) (bs_last s) (bs_granted s) (<[t := BSpend n]> (bs_threads s)))
| b_addretry t n add cur : bs_threads s !! t = Some (BAddLoaded n add cur) -> bs_tokens s <> cur -> bucket_step rate burst s (goes s t (BAdd n add))
| b_done t : bs_threads s !! t = Some (BSpend 0) -> bucket_step rate burst s (goes s t BIdle)
| b_spendload t n : bs_threads s !! t = Some (BSpend n) -> 0 < n -> bucket_step rate burst s (goes s t (BSpendLoaded n (bs_tokens s)))
| b_refused t n cur : bs_threads s !! t = Some (BSpendLoaded n cur) -> cur < n -> bucket_step rate burst s (goes s t BIdle)
| b_spent t n cur : bs_threads s !! t = Some (BSpendLoaded n cur) -> n <= cur -> bs_tokens s = cur ->
    bucket_step rate burst s (mkBsys (cur - n) (bs_last s) (bs_granted s + n) (<[t := BIdle]> (bs_threads s)))
| b_spendretry t n cur : bs_threads s !! t = Some (BSpendLoaded n cur) -> n <= cur -> bs_tokens s <> cur -> bucket_step rate burst s (goes s t (BSpend n)).

(** ** The limiter of requests *)

Definition rlEpochShift : Z := 39.
Definition rlCountMask : Z := 2 ^ rlEpochShift - 1.
Definition rlEpochMask : Z := 2 ^ 24 - 1.
Definition rlBlockedFlag : Z := 2 ^ 63.
Definition rlRetiredState : Z := 2 ^ 64 - 1.
Definition rlMaxBlockDeadline : Z := Z.ldiff rlRetiredState rlBlockedFlag - 1.
Definition rlEngineIdleGrace : Z := 60 * nanosPerSecond.
Definition rateLimitBlockFor : Z := 30 * nanosPerSecond.

Definition rlEpochOf (now windowNanos : Z) : Z :=
  let windowNanos := if windowNanos <=? 0 then 1 else windowNanos in
  u64 (Z.shiftl (Z.land (u64 (Z.quot now windowNanos)) rlEpochMask) rlEpochShift).
Definition rlBlockDeadline (now blockNanos : Z) : Z := now + Z.min (Z.max blockNanos 0) (rlMaxBlockDeadline - now).

Inductive rlOutcome := rlAllowed | rlLimited (retryAfter : Z) | rlRetired.

Record rlCounter := mkCounter { c_state : Z; c_reset : Z }.

(** The loop of [admit] when the compare-and-swap succeeds: the decision is a
    function of the word loaded. *)
Definition rlAdmit (c : rlCounter) (now windowNanos maxReqs blockNanos : Z) : rlOutcome * rlCounter :=
  let epoch := rlEpochOf now windowNanos in
  let cur := c_state c in
  let same := Z.ldiff cur rlCountMask =? epoch in
  let blocked := negb (Z.land cur rlBlockedFlag =? 0) in
  let until := Z.ldiff cur rlBlockedFlag in
  if negb same && blocked && (cur =? rlRetiredState) then (rlRetired, c)
  else if negb same && blocked && (now <? until) then (rlLimited (until - now), c)
  else
    let count := if same then Z.land cur rlCountMask + 1 else 1 in
    if maxReqs <? count then
      let blockNanos := if blockNanos <=? 0 then windowNanos else blockNanos in
      (rlLimited blockNanos, mkCounter (Z.lor rlBlockedFlag (rlBlockDeadline now blockNanos)) (c_reset c))
    else if rlCountMask <? count then (rlAllowed, c)
    else (rlAllowed, mkCounter (Z.lor epoch count) (if count =? 1 then now + windowNanos else c_reset c)).

Definition retireIfIdle (c : rlCounter) (now idleGrace : Z) : bool * rlCounter :=
  let cur := c_state c in
  if cur =? rlRetiredState then (true, c)
  else if negb (Z.land cur rlBlockedFlag =? 0) && (now <=? Z.ldiff cur rlBlockedFlag) then (false, c)
  else if now <=? c_reset c + idleGrace then (false, c)
  else (true, mkCounter rlRetiredState (c_reset c)).

(** *** Rules *)

Record RateLimitRule := mkRule { r_Path : bytes; r_MaxReqs : Z; r_Window : Z; r_BlockFor : Z }.
Inductive matcher := matchExact (path : bytes) | matchPrefix (prefix : bytes) | matchRegex (pattern : option bytes).
Record compiledRule := mkCompiled { cr_rule : RateLimitRule; cr_kind : matcher }.

Definition isIPv4Text (ip : bytes) : bool := (3 <? zlen ip) && ((znth ip 3 =? 46) || (znth ip 2 =? 46) || (znth ip 1 =? 46)).

Section Engine.

(** [regexp.Compile] accepts the pattern; [MatchString]; the text of the /64 of
    an IPv6 address that is not a mapped IPv4 one ([net/netip]). *)
Context (reValid : bytes -> bool) (reMatch : bytes -> bytes -> bool) (prefix64 : bytes -> option bytes).

Definition compileRule (rule : RateLimitRule) : compiledRule :=
  let path := r_Path rule in
  if (0 <? zlen path) && (znth path 0 =? 126) then mkCompiled rule (matchRegex (if reValid (zdrop 1 path) then Some (zdrop 1 path) else None))
  else if (0 <? zlen path) && (znth path (zlen path - 1) =? 42) then mkCompiled rule (matchPrefix (ztake (zlen path - 1) path))
  else mkCompiled rule (matchExact path).

Definition rule_match (cr : compiledRule) (path : bytes) : bool :=
  match cr_kind cr with
  | matchExact exact => bytes_eqb path exact
  | matchPrefix prefix => (zlen prefix <=? zlen path) && bytes_eqb (ztake (zlen prefix) path) prefix
  | matchRegex None => false
  | matchRegex (Some re) => reMatch re path
  end.
Definition specificity (cr : compiledRule) : Z :=
  match cr_kind cr with
  | matchExact exact => zlen exact + 10000
  | matchPrefix prefix => zlen prefix
  | matchRegex _ => zlen (r_Path (cr_rule cr))
  end.

Definition SetRules (rules : list RateLimitRule) : list compiledRule := map compileRule rules.
Definition otherPath (path : bytes) (cr : compiledRule) : bool := negb (bytes_eqb (r_Path (cr_rule cr)) path).
Definition AddRule (old : list compiledRule) (rule : RateLimitRule) : list compiledRule := List.filter (otherPath (r_Path rule)) old ++ [compileRule rule].
Definition RemoveRule (old : list compiledRule) (path : bytes) : list compiledRule := List.filter (otherPath path) old.

Fixpoint matchLoop (rules : list compiledRule) (path : bytes) (best : option compiledRule) (bestSpec : Z) : option compiledRule :=
  match rules with
  | [] => best
  | cr :: rules =>
      if rule_match cr path && (bestSpec <? specificity cr) then matchLoop rules path (Some cr) (specificity cr) else matchLoop rules path best bestSpec
  end.
Definition matchRule (rules : list compiledRule) (path : bytes) : option compiledRule := matchLoop rules path None (-1).

(** *** Clients *)

Definition rateLimitKeyForIP (ip : bytes) : bytes :=
  if isIPv4Text ip || (IndexByte ip 58 <? 0) then ip else default ip (prefix64 ip).
Definition clientKey (ip : bytes) : bytes := if isIPv4Text ip then ip else rateLimitKeyForIP ip.
Definition rlKey (ip : bytes) (cr : compiledRule) : bytes := clientKey ip ++ [124] ++ r_Path (cr_rule cr).

Abbreviation clients := (gmap (list Z) rlCounter).

(** [storeClient] then [admit], again while the entry is retired. *)
Definition storeClient (cs : clients) (key : bytes) (resetAt : Z) : rlCounter * clients :=
  match cs !! key with Some c => (c, cs) | None => let c := mkCounter 0 resetAt in (c, <[key := c]> cs) end.
Definition admitRule (c : rlCounter) (now : Z) (r : RateLimitRule) : rlOutcome * rlCounter := rlAdmit c now (r_Window r) (r_MaxReqs r) (r_BlockFor r).
Definition Check (rules : list compiledRule) (cs : clients) (now : Z) (ip path : bytes) : option rlOutcome * clients :=
  match matchRule rules path with
  | None => (None, cs)
  | Some cr =>
      let key := rlKey ip cr in
      let '(c, cs) := storeClient cs key (now + r_Window (cr_rule cr)) in
      match admitRule c now (cr_rule cr) with
      | (rlRetired, _) =>
          let '(c, cs) := storeClient (delete key cs) key (now + r_Window (cr_rule cr)) in
          let '(o, c) := admitRule c now (cr_rule cr) in (Some o, <[key := c]> cs)
      | (o, c) => (Some o, <[key := c]> cs)
      end
  end.

(** The two halves of [retireIdleRateLimitEntries] on one entry: other
    goroutines may run between them. *)
Definition retireEntry (cs : clients) (now idleGrace : Z) (key : bytes) : clients :=
  match cs !! key with Some c => <[key := (retireIfIdle c now idleGrace).2]> cs | None => cs end.
Definition deleteEntry (cs : clients) (key : bytes) : clients :=
  match cs !! key with Some c => if c_state c =? rlRetiredState then delete key cs else cs | None => cs end.

End Engine.
