(* ===== verification/RateLimitProofs.v ===== *)
(** Rate limits: the token bucket never grants more than its burst and its rate,
    under any interleaving; the limiter of requests answers as a fixed-window
    limiter without clean-up. *)
From stdpp Require Import base list numbers strings gmap relations.
From Stdlib Require Import ZArith Lia ZifyBool.
From S2P Require Import Prelude Utils HttpText RateLimit.

Open Scope list_scope.
Open Scope Z_scope.

(** ** The token bucket *)

Lemma mulDivCapped_spec a b d l : 0 <= a < 2 ^ 63 -> 0 <= b < 2 ^ 63 -> 0 < d < 2 ^ 63 -> 0 <= l < 2 ^ 63 -> mulDivCapped a b d l = Z.min (a * b / d) l.
Proof.
  intros Ha Hb Hd Hl. unfold mulDivCapped, mul64. rewrite !u64_small by lia. assert (Hab : 0 <= a * b) by lia. set (p := a * b) in *.
  pose proof (Z.div_mod p (2 ^ 64) ltac:(lia)) as Hdm. pose proof (Z.mod_pos_bound p (2 ^ 64) ltac:(lia)) as Hm. destruct (d <=? p / 2 ^ 64) eqn:E1.
  - rewrite Z.min_r; [done |]. transitivity (2 ^ 64); [lia |]. apply Z.div_le_lower_bound; [lia |]. nia.
  - assert (Hq : (if p / 2 ^ 64 =? 0 then p mod 2 ^ 64 / d else div64 (p / 2 ^ 64) (p mod 2 ^ 64) d) = p / d).
    { unfold div64. destruct (p / 2 ^ 64 =? 0) eqn:E2; [f_equal; lia |]. f_equal. lia. }
    rewrite Hq. pose proof (Z.div_pos p d Hab ltac:(lia)). destruct (l <=? p / d) eqn:E3; [lia |]. rewrite i64_small by lia. lia.
Qed.

(** What goroutines have taken out of [lastTime] and not yet added. *)
Definition adding (ph : bphase) : Z := match ph with BAdd _ add | BAddLoaded _ add _ => add | _ => 0 end.
Definition adding_all (phs : list bphase) : Z := foldr (fun ph n => adding ph + n) 0 phs.

Definition bphase_ok (ph : bphase) : Prop :=
  match ph with
  | BIdle => True
  | BClock n now => 0 <= n /\ 0 <= now < 2 ^ 62
  | BLast n now last => 0 <= n /\ 0 <= now < 2 ^ 62 /\ 0 <= last
  | BAdd n add | BAddLoaded n add _ => 0 <= n /\ 0 <= add
  | BSpend n | BSpendLoaded n _ => 0 <= n
  end.
Definition bucket_ok (burst : Z) (s : bsys) : Prop := 0 <= bs_tokens s <= burst /\ 0 <= bs_last s /\ Forall bphase_ok (bs_threads s).

(** What can be granted without the clock moving. *)
Definition funds (s : bsys) : Z := bs_granted s + bs_tokens s + adding_all (bs_threads s).

Lemma adding_insert phs t ph ph' : phs !! t = Some ph -> adding_all (<[t := ph']> phs) = adding_all phs - adding ph + adding ph'.
Proof.
  revert t. induction phs as [| p phs IH]; intros [| t] Ht; try done.
  - injection Ht as ->. simpl. lia.
  - change (<[S t := ph']> (p :: phs)) with (p :: <[t := ph']> phs). cbn [adding_all foldr]. change (foldr _ 0 ?l) with (adding_all l). rewrite (IH t Ht). lia.
Qed.
Lemma adding_nonneg phs : Forall bphase_ok phs -> 0 <= adding_all phs.
Proof. induction 1 as [| p phs Hp _ IH]; [done |]. cbn [adding_all foldr]. change (foldr _ 0 ?l) with (adding_all l). destruct p; cbn in *; lia. Qed.

Section Bucket.

Context (rate burst : Z).
Hypothesis rate_ok : 0 < rate < 2 ^ 62.
Hypothesis burst_ok : 0 < burst < 2 ^ 62.

Lemma add_amount now last : 0 <= now < 2 ^ 62 -> 0 <= last -> 0 < now - last ->
  0 <= mulDivCapped (now - last) rate nanosPerSecond burst <= (now - last) * rate / nanosPerSecond.
Proof.
  intros Hn Hl He. rewrite mulDivCapped_spec by (unfold nanosPerSecond; lia). pose proof (Z.div_pos ((now - last) * rate) nanosPerSecond ltac:(nia) ltac:(done)). set (q := _ / _) in *. clearbody q. lia.
Qed.

Lemma div_superadd a b d : 0 < d -> a / d + b / d <= (a + b) / d.
Proof. intros Hd. apply Z.div_le_lower_bound; [done |]. pose proof (Z.mul_div_le a d Hd). pose proof (Z.mul_div_le b d Hd). lia. Qed.

(** One step: the clock pays for what is added. *)
Lemma bucket_step_ok s s' : bucket_ok burst s -> bucket_step rate burst s s' ->
  bucket_ok burst s' /\ bs_last s <= bs_last s' /\ bs_granted s <= bs_granted s' /\ funds s' <= funds s + (bs_last s' - bs_last s) * rate / nanosPerSecond.
Proof.
  intros (Ht & Hl & Hph) Hstep.
  assert (H0 : forall n, (n - n) * rate / nanosPerSecond = 0) by (intros n; replace ((n - n) * rate) with 0 by lia; done).
  assert (Hgo : forall t ph ph', bs_threads s !! t = Some ph -> bphase_ok ph' -> adding ph' = adding ph -> bucket_ok burst (goes s t ph') /\ bs_last s <= bs_last (goes s t ph') /\
    bs_granted s <= bs_granted (goes s t ph') /\ funds (goes s t ph') <= funds s + (bs_last (goes s t ph') - bs_last s) * rate / nanosPerSecond).
  { intros t ph ph' Hlk Hok Ha. unfold goes, funds, bucket_ok. cbn [bs_tokens bs_last bs_granted bs_threads]. rewrite H0, (adding_insert _ _ _ _ Hlk). split_and!; try lia. by apply Forall_insert. }
  destruct Hstep as [t n now Ht' Hn Hnow | t n now Ht' | t n now last Ht' _ | t n now last Ht' He Ha Hlast | t n now last Ht' He Ha Hlast | t n add Ht' | t n add cur Ht' Hc
    | t n add cur Ht' Hc | t Ht' | t n Ht' Hn | t n cur Ht' Hn | t n cur Ht' Hn Hc | t n cur Ht' Hn Hc];
    pose proof (Forall_lookup_1 _ _ _ _ Hph Ht') as Hok; cbn in Hok; try (eapply Hgo; [exact Ht' | cbn; lia | cbn; lia]).
  - subst last. destruct (add_amount now (bs_last s)) as [A1 A2]; [lia | lia | lia |]. unfold funds, bucket_ok. cbn [bs_tokens bs_last bs_granted bs_threads]. rewrite (adding_insert _ _ _ _ Ht'). cbn [adding].
    set (q := (now - bs_last s) * rate / nanosPerSecond) in *. set (a := mulDivCapped _ _ _ _) in *. clearbody q a.
    split_and!; try lia. apply Forall_insert; [done |]. cbn. lia.
  - subst cur. unfold funds, bucket_ok. cbn [bs_tokens bs_last bs_granted bs_threads]. rewrite H0, (adding_insert _ _ _ _ Ht'). cbn [adding]. unfold refilled. destruct (_ <? _) eqn:E; (split_and!; try lia; apply Forall_insert; [done | cbn; lia]).
  - subst cur. unfold funds, bucket_ok. cbn [bs_tokens bs_last bs_granted bs_threads]. rewrite H0, (adding_insert _ _ _ _ Ht'). cbn [adding]. split_and!; try lia. by apply Forall_insert.
Qed.

Lemma bucket_run_ok s s' : rtc (bucket_step rate burst) s s' -> bucket_ok burst s ->
  bucket_ok burst s' /\ bs_last s <= bs_last s' /\ bs_granted s <= bs_granted s' /\ funds s' <= funds s + (bs_last s' - bs_last s) * rate / nanosPerSecond.
Proof.
  induction 1 as [s | s s1 s2 H1 _ IH]; intros Hok; [rewrite Z.sub_diag, Z.mul_0_l, Zdiv_0_l; split_and!; try done; lia |].
  destruct (bucket_step_ok s s1 Hok H1) as (O1 & L1 & G1 & F1). destruct (IH O1) as (O2 & L2 & G2 & F2). split; [done |]. split; [lia |]. split; [lia |].
  pose proof (div_superadd ((bs_last s1 - bs_last s) * rate) ((bs_last s2 - bs_last s1) * rate) nanosPerSecond ltac:(done)) as Hs.
  replace ((bs_last s1 - bs_last s) * rate + (bs_last s2 - bs_last s1) * rate) with ((bs_last s2 - bs_last s) * rate) in Hs by lia. set (q1 := _ / _) in F1 |- *. set (q2 := _ / _) in F2 |- *. set (q3 := (bs_last s2 - bs_last s) * rate / _) in Hs |- *. fold q1 q2 in Hs. clearbody q1 q2 q3. lia.
Qed.
End Bucket.

(** A new bucket with [k] goroutines that use it. *)
Definition bucketSys (tb : TokenBucket) (k : nat) : bsys := mkBsys (tb_tokens tb) (tb_lastTime tb) 0 (replicate k BIdle).

(** C7: a token bucket never grants more than its burst and its rate. Whatever
    the goroutines do, in any interleaving of their atomic operations and with
    any readings of the clock: from any moment [s] to any later moment [s'], what
    [Allow] grants is at most the tokens of the bucket (with those being added)
    and what the rate gives for the time between; since its creation that is the
    burst and the rate times the time; and the tokens stay between none and the
    burst. A call of [Allow] on its own succeeds exactly when the tokens, filled
    up for the time since the last refill and capped at the burst, suffice; it
    takes them then and only then, and time that gave no whole token still counts
    for the next refill. *)
Theorem token_bucket_rate t0 ratePerSec burst k s s' : 0 < ratePerSec < 2 ^ 62 -> 0 < burst < 2 ^ 62 -> 0 <= t0 ->
  rtc (bucket_step ratePerSec burst) (bucketSys (NewTokenBucket t0 ratePerSec burst) k) s -> rtc (bucket_step ratePerSec burst) s s' ->
  bs_granted s <= bs_granted s' /\ 0 <= bs_tokens s' <= burst /\ t0 <= bs_last s <= bs_last s' /\
  bs_granted s' - bs_granted s <= bs_tokens s + adding_all (bs_threads s) + (bs_last s' - bs_last s) * ratePerSec / nanosPerSecond /\
  bs_granted s' <= burst + (bs_last s' - t0) * ratePerSec / nanosPerSecond /\
  (forall tb now n, 0 <= tb_tokens tb <= burst -> tb_rate tb = ratePerSec -> tb_burst tb = burst -> 0 <= tb_lastTime tb < now -> now < 2 ^ 62 -> 0 < n <= burst ->
     let gained := (now - tb_lastTime tb) * ratePerSec / nanosPerSecond in
     let full := Z.min burst (tb_tokens tb + gained) in
     Allow tb now n = (n <=? full, mkBucket (if n <=? full then full - n else full) (if gained =? 0 then tb_lastTime tb else now) ratePerSec burst)).
Proof.
  intros Hr Hb Ht H1 H2. assert (Hok : bucket_ok burst (bucketSys (NewTokenBucket t0 ratePerSec burst) k)).
  { unfold bucketSys, NewTokenBucket. replace (ratePerSec <=? 0) with false by lia. replace (burst <=? 0) with false by lia. split_and!; cbn; try lia. by apply Forall_replicate. }
  assert (Hf : funds (bucketSys (NewTokenBucket t0 ratePerSec burst) k) = burst /\ bs_last (bucketSys (NewTokenBucket t0 ratePerSec burst) k) = t0 /\ bs_granted (bucketSys (NewTokenBucket t0 ratePerSec burst) k) = 0).
  { unfold bucketSys, NewTokenBucket, funds. replace (ratePerSec <=? 0) with false by lia. replace (burst <=? 0) with false by lia. cbn [bs_tokens bs_granted bs_last bs_threads tb_tokens tb_lastTime].
    assert (adding_all (replicate k BIdle) = 0) as -> by (clear; induction k as [| k IH]; [done | exact IH]). lia. }
  destruct Hf as (Hf1 & Hf2 & Hf3). destruct (bucket_run_ok ratePerSec burst Hr Hb _ _ H1 Hok) as (O1 & L1 & G1 & F1). destruct (bucket_run_ok ratePerSec burst Hr Hb _ _ H2 O1) as (O2 & L2 & G2 & F2).
  destruct (bucket_run_ok ratePerSec burst Hr Hb _ _ (rtc_trans _ _ _ H1 H2) Hok) as (_ & _ & _ & F3). rewrite Hf1, Hf2 in F3.
  pose proof O2 as (T2 & _ & P2). pose proof (adding_nonneg _ P2). split_and!; try lia; try (unfold funds in *; lia).
  intros tb now n Htk Hrt Hbt Hlt Hnow Hn. unfold Allow. replace (n <=? 0) with false by lia. rewrite Hbt. replace (burst <? n) with false by lia. unfold refill. rewrite Hrt, Hbt.
  replace (now - tb_lastTime tb <=? 0) with false by lia. rewrite mulDivCapped_spec by (unfold nanosPerSecond; lia). set (q := (now - tb_lastTime tb) * ratePerSec / nanosPerSecond).
  assert (0 <= q) by (apply Z.div_pos; [nia | done]). clearbody q. destruct (Z.min q burst <=? 0) eqn:E.
  - assert (q = 0) as -> by lia. rewrite Z.add_0_r, Z.min_r by lia. change (0 =? 0) with true. destruct (tb_tokens tb <? n) eqn:E2; [replace (n <=? _) with false by lia | replace (n <=? _) with true by lia]; destruct tb; cbn in *; by subst.
  - replace (q =? 0) with false by lia. cbn [tb_tokens tb_lastTime tb_rate tb_burst]. replace (refilled burst (tb_tokens tb) (Z.min q burst)) with (Z.min burst (tb_tokens tb + q)) by (unfold refilled; destruct (_ <? burst - _) eqn:E2; lia).
    destruct (_ <? n) eqn:E3; [by replace (n <=? _) with false by lia | by replace (n <=? _) with true by lia].
Qed.

(** Two goroutines want seven of ten tokens each: one gets them, the other has to
    wait for the clock. *)
Definition demoBucket : bsys := mkBsys 3 1000000000 7 [BIdle; BSpendLoaded 7 3].

Lemma token_bucket_rate_witness :
  bs_granted demoBucket <= 10 + (bs_last demoBucket - 1000000000) * 5 / nanosPerSecond /\ Allow (mkBucket 3 1000000000 5 10) 1800000000 7 = (true, mkBucket 0 1800000000 5 10).
Proof.
  assert (R : rtc (bucket_step 5 10) (bucketSys (NewTokenBucket 1000000000 5 10) 2) demoBucket).
  { eapply rtc_l; [apply (b_start 5 10 _ 0%nat 7 1000000000); [done | lia | lia] |]. eapply rtc_l; [apply (b_last 5 10 _ 0%nat 7 1000000000); done |].
    eapply rtc_l; [apply (b_norefill 5 10 _ 0%nat 7 1000000000 1000000000); [done | left; lia] |]. eapply rtc_l; [apply (b_spendload 5 10 _ 0%nat 7); [done | lia] |].
    eapply rtc_l; [apply (b_start 5 10 _ 1%nat 7 1000000000); [done | lia | lia] |]. eapply rtc_l; [apply (b_last 5 10 _ 1%nat 7 1000000000); done |].
    eapply rtc_l; [apply (b_norefill 5 10 _ 1%nat 7 1000000000 1000000000); [done | left; lia] |]. eapply rtc_l; [apply (b_spent 5 10 _ 0%nat 7 10); [done | lia | done] |].
    eapply rtc_l; [apply (b_spendload 5 10 _ 1%nat 7); [done | lia] |]. apply rtc_refl. }
  destruct (token_bucket_rate 1000000000 5 10 2 demoBucket demoBucket) as (_ & _ & _ & _ & H & A); [lia | lia | lia | exact R | apply rtc_refl |].
  split; [exact H |]. rewrite A; [reflexivity | cbn; lia | done | done | cbn; lia | lia | lia].
Defined.

(** ** The words of the limiter *)

Lemma top_bit r : 0 <= r < 2 ^ 63 -> Z.testbit r 63 = false.
Proof. intros H. rewrite Z.testbit_eqb by lia. apply Z.eqb_neq. rewrite Z.div_small by lia. done. Qed.

Lemma flag_word r : 0 <= r < 2 ^ 63 -> Z.land (2 ^ 63 + r) rlBlockedFlag <> 0 /\ Z.ldiff (2 ^ 63 + r) rlBlockedFlag = r /\ Z.lor rlBlockedFlag r = 2 ^ 63 + r.
Proof.
  intros H. unfold rlBlockedFlag. assert (E : Z.lor (2 ^ 63) r = 2 ^ 63 + r) by (pose proof (lor_disjoint 1 r 63 ltac:(lia) H) as E; rewrite Z.mul_1_l in E; exact E).
  split_and!; [| | done]; rewrite <- E.
  - intros H0. assert (Hb : Z.testbit (Z.land (Z.lor (2 ^ 63) r) (2 ^ 63)) 63 = true) by (rewrite Z.land_spec, Z.lor_spec, Z.pow2_bits_true by lia; done). by rewrite H0, Z.bits_0 in Hb.
  - apply Z.bits_inj'. intros n Hn. rewrite Z.ldiff_spec, Z.lor_spec, Z.pow2_bits_eqb by lia. destruct (Z.eqb_spec 63 n) as [<- | _]; [| by rewrite andb_true_r]. by rewrite top_bit.
Qed.
Lemma no_flag r : 0 <= r < 2 ^ 63 -> Z.land r rlBlockedFlag = 0.
Proof. intros H. unfold rlBlockedFlag. rewrite Z.land_comm. rewrite <- (Z.mul_1_l (2 ^ 63)). apply land_disjoint_zero; lia. Qed.

Lemma mask_ones : rlCountMask = Z.ones 39.
Proof. reflexivity. Qed.
Lemma count_word e n : 0 <= n < 2 ^ 39 -> Z.ldiff (e * 2 ^ 39 + n) rlCountMask = e * 2 ^ 39 /\ Z.land (e * 2 ^ 39 + n) rlCountMask = n /\ Z.lor (e * 2 ^ 39) n = e * 2 ^ 39 + n.
Proof.
  intros H. rewrite mask_ones. split_and!.
  - rewrite Z.ldiff_ones_r by lia. rewrite Z.shiftr_div_pow2, Z.shiftl_mul_pow2 by lia. f_equal. rewrite Z.div_add_l by lia. rewrite Z.div_small by lia. lia.
  - rewrite Z.land_ones by lia. rewrite Z.add_comm, Z.mod_add by lia. apply Z.mod_small. lia.
  - apply lor_disjoint; lia.
Qed.

Lemma epoch_word now w : 0 <= now < 2 ^ 63 -> 0 < w -> rlEpochOf now w = ((now / w) mod 2 ^ 24) * 2 ^ 39.
Proof.
  intros Hn Hw. unfold rlEpochOf. replace (w <=? 0) with false by lia. rewrite Z.quot_div_nonneg by lia. assert (0 <= now / w < 2 ^ 63).
  { split; [apply Z.div_pos; lia |]. apply Z.div_lt_upper_bound; [lia |]. nia. }
  set (q := now / w) in *. clearbody q. rewrite (u64_small q) by lia. unfold rlEpochMask, rlEpochShift. rewrite land_ones_mod by lia. rewrite Z.shiftl_mul_pow2 by lia. pose proof (Z.mod_pos_bound q (2 ^ 24) ltac:(lia)). apply u64_small. lia.
Qed.

(** ** A fixed-window limiter *)

(** The reference: in which window the requests are counted, or until when the
    client is blocked. *)
Inductive window := Fresh | Counting (epoch n : Z) | Blocked (until : Z).

Definition refusedFor (r : RateLimitRule) : Z := if r_BlockFor r <=? 0 then r_Window r else r_BlockFor r.
Definition counted (r : RateLimitRule) (now n : Z) : rlOutcome * window :=
  if r_MaxReqs r <? n then (rlLimited (refusedFor r), Blocked (now + refusedFor r)) else (rlAllowed, Counting (now / r_Window r) n).
Definition specAdmit (st : window) (now : Z) (r : RateLimitRule) : rlOutcome * window :=
  match st with
  | Fresh => counted r now 1
  | Counting e n => counted r now (if e =? now / r_Window r then n + 1 else 1)
  | Blocked until => if now <? until then (rlLimited (until - now), st) else counted r now 1
  end.

Definition rule_ok (r : RateLimitRule) : Prop := 0 < r_Window r < 2 ^ 62 /\ r_MaxReqs r < 2 ^ 39 /\ r_BlockFor r < 2 ^ 62.

(** The word of a counter and the time its window ends. *)
Definition holds (r : RateLimitRule) (c : rlCounter) (st : window) : Prop :=
  match st with
  | Fresh => c_state c = 0
  | Counting e n => c_state c = (e mod 2 ^ 24) * 2 ^ 39 + n /\ 1 <= n < 2 ^ 39 /\ 0 <= e /\ (e + 1) * r_Window r <= c_reset c
  | Blocked until => c_state c = 2 ^ 63 + until /\ 0 <= until < 2 ^ 63 - 1
  end.

(** The window is over at [now]: the state counts as fresh from then on. *)
Definition over (r : RateLimitRule) (now : Z) (st : window) : Prop :=
  match st with Fresh => True | Counting e n => e < now / r_Window r | Blocked until => until <= now end.
Definition same_epochs (r : RateLimitRule) (now : Z) (st : window) : Prop :=
  match st with Counting e _ => e <= now / r_Window r < e + 2 ^ 24 | _ => True end.

Lemma over_fresh r now st : over r now st -> specAdmit st now r = specAdmit Fresh now r.
Proof.
  destruct st as [| e n | u]; cbn; [done | |]; intros H.
  - by replace (e =? now / r_Window r) with false by lia.
  - by replace (now <? u) with false by lia.
Qed.

Lemma over_later r now now' st : rule_ok r -> now <= now' -> over r now st -> over r now' st.
Proof.
  intros Hr Hn. destruct st as [| e n | u]; cbn; [done | |]; intros H; [| lia]. pose proof (Z.div_le_mono now now' (r_Window r)). destruct Hr. lia.
Qed.

Lemma holds_range r c st : holds r c st -> 0 <= c_state c < 2 ^ 64 - 1.
Proof.
  destruct st as [| e n | u]; cbn; [lia | |]; [| lia]. intros (-> & Hn & _). pose proof (Z.mod_pos_bound e (2 ^ 24) ltac:(lia)). lia.
Qed.

(** Counting one more. *)
Lemma count_step r c now count : rule_ok r -> 0 <= now < 2 ^ 62 -> 1 <= count < 2 ^ 39 + 1 -> (count <> 1 -> (now / r_Window r + 1) * r_Window r <= c_reset c) ->
  let '(o, st) := counted r now count in
  exists c', (if r_MaxReqs r <? count then
      let blockNanos := if r_BlockFor r <=? 0 then r_Window r else r_BlockFor r in
      (rlLimited blockNanos, mkCounter (Z.lor rlBlockedFlag (rlBlockDeadline now blockNanos)) (c_reset c))
    else if rlCountMask <? count then (rlAllowed, c)
    else (rlAllowed, mkCounter (Z.lor (rlEpochOf now (r_Window r)) count) (if count =? 1 then now + r_Window r else c_reset c))) = (o, c') /\ holds r c' st.
Proof.
  intros (Hw & Hm & Hb) Hn Hc Hreset. unfold counted. destruct (r_MaxReqs r <? count) eqn:E.
  - cbv zeta. fold (refusedFor r). eexists. split; [done |]. assert (Hf : 0 < refusedFor r < 2 ^ 62) by (unfold refusedFor; destruct (r_BlockFor r <=? 0) eqn:E2; lia).
    assert (Hd : rlBlockDeadline now (refusedFor r) = now + refusedFor r).
    { unfold rlBlockDeadline. change rlMaxBlockDeadline with (2 ^ 63 - 2). lia. }
    unfold holds. cbn [c_state]. rewrite Hd. destruct (flag_word (now + refusedFor r)) as (_ & _ & ->); lia.
  - assert (Hlt : count < 2 ^ 39) by lia. replace (rlCountMask <? count) with false by (unfold rlCountMask, rlEpochShift; lia). eexists. split; [done |]. unfold holds. cbn [c_state c_reset].
    rewrite epoch_word by lia. destruct (count_word ((now / r_Window r) mod 2 ^ 24) count) as (_ & _ & ->); [lia |]. split; [done |]. split; [lia |]. split; [apply Z.div_pos; lia |].
    destruct (count =? 1) eqn:E1; [| apply Hreset; lia]. pose proof (Z.mul_div_le now (r_Window r) ltac:(lia)). lia.
Qed.

(** [rlAdmit] on a counter that holds a window is the reference. *)
Lemma admit_refines r c st now : rule_ok r -> 0 <= now < 2 ^ 62 -> holds r c st -> same_epochs r now st ->
  exists c', admitRule c now r = ((specAdmit st now r).1, c') /\ holds r c' (specAdmit st now r).2.
Proof.
  intros Hr Hn Hh Hs. pose proof Hr as (Hw & Hm & _). pose proof (holds_range r c st Hh) as Hrange. unfold admitRule, rlAdmit. cbv zeta.
  pose proof (Z.div_pos now (r_Window r) ltac:(lia) ltac:(lia)) as Hd. pose proof (Z.mod_pos_bound (now / r_Window r) (2 ^ 24) ltac:(lia)) as Hmb.
  pose proof (epoch_word now (r_Window r) ltac:(lia) ltac:(lia)) as Ee.
  replace (c_state c =? rlRetiredState) with false by (unfold rlRetiredState; lia). rewrite andb_false_r. cbv iota.
  assert (Hcount : forall count, 1 <= count < 2 ^ 39 + 1 -> (count <> 1 -> (now / r_Window r + 1) * r_Window r <= c_reset c) -> exists c', (if r_MaxReqs r <? count then
      let blockNanos := if r_BlockFor r <=? 0 then r_Window r else r_BlockFor r in
      (rlLimited blockNanos, mkCounter (Z.lor rlBlockedFlag (rlBlockDeadline now blockNanos)) (c_reset c))
    else if rlCountMask <? count then (rlAllowed, c)
    else (rlAllowed, mkCounter (Z.lor (rlEpochOf now (r_Window r)) count) (if count =? 1 then now + r_Window r else c_reset c))) = ((counted r now count).1, c') /\ holds r c' (counted r now count).2).
  { intros count H1 H2. pose proof (count_step r c now count Hr Hn H1 H2) as H. by destruct (counted r now count). }
  destruct st as [| e n | u]; cbn [holds specAdmit same_epochs] in *.
  - rewrite Hh. rewrite no_flag by lia. change (negb (0 =? 0)) with false. rewrite andb_false_r. cbv iota. change (Z.land 0 rlCountMask + 1) with 1.
    replace (if Z.ldiff 0 rlCountMask =? _ then 1 else 1) with 1 by (by destruct (_ =? _)). by apply Hcount.
  - destruct Hh as (Hst & Hn1 & He & Hreset). rewrite Hst. pose proof (Z.mod_pos_bound e (2 ^ 24) ltac:(lia)) as Hme. destruct (count_word (e mod 2 ^ 24) n) as (-> & -> & _); [lia |]. rewrite no_flag by lia.
    change (negb (0 =? 0)) with false. rewrite andb_false_r. cbv iota. rewrite Ee.
    assert (Hsame : ((e mod 2 ^ 24) * 2 ^ 39 =? (now / r_Window r) mod 2 ^ 24 * 2 ^ 39) = (e =? now / r_Window r)).
    { destruct (e =? now / r_Window r) eqn:E; [assert (e = now / r_Window r) as <- by lia; lia |]. apply Z.eqb_neq. intros E2. apply Z.mul_cancel_r in E2; [| lia].
      assert (now / r_Window r - e = 0) by (rewrite <- (Z.mod_small (now / r_Window r - e) (2 ^ 24)) by lia; rewrite Zminus_mod, E2, Z.sub_diag; done). lia. }
    rewrite Hsame. rewrite <- Ee. apply Hcount; destruct (e =? now / r_Window r) eqn:E; try lia.
  - destruct Hh as (Hst & Hu). destruct (flag_word u) as (Hf & Hdf & _); [lia |]. rewrite Hst, Hdf.
    assert (Hsame : (Z.ldiff (2 ^ 63 + u) rlCountMask =? rlEpochOf now (r_Window r)) = false).
    { apply Z.eqb_neq. rewrite Ee, mask_ones, Z.ldiff_ones_r, Z.shiftr_div_pow2, Z.shiftl_mul_pow2 by lia. intros E. apply Z.mul_cancel_r in E; [| lia].
      assert (2 ^ 24 <= (2 ^ 63 + u) / 2 ^ 39) by (apply Z.div_le_lower_bound; lia). lia. }
    rewrite Hsame. replace (Z.land (2 ^ 63 + u) rlBlockedFlag =? 0) with false by lia. cbn [negb andb]. destruct (now <? u) eqn:E; [by exists c |]. by apply Hcount.
Qed.

(** Only an entry whose window is over is retired. *)
Lemma retire_over r c st now grace : rule_ok r -> 0 <= now -> 0 <= grace -> holds r c st ->
  (retireIfIdle c now grace = (false, c)) \/ (exists c', retireIfIdle c now grace = (true, c') /\ c_state c' = rlRetiredState /\ over r now st).
Proof.
  intros Hr Hn Hg Hh. pose proof (holds_range r c st Hh) as Hrange. pose proof Hr as (Hw & _). unfold retireIfIdle. cbv zeta. replace (c_state c =? rlRetiredState) with false by (unfold rlRetiredState; lia).
  destruct (_ && _) eqn:E1; [by left |]. destruct (now <=? c_reset c + grace) eqn:E2; [by left |]. right. eexists. split; [done |]. split; [done |].
  destruct st as [| e n | u]; cbn [holds over] in *; [done | |].
  - destruct Hh as (_ & _ & _ & Hreset). apply Z.lt_le_trans with (e + 1); [lia |]. apply Z.div_le_lower_bound; lia.
  - destruct Hh as (Hst & Hu). destruct (flag_word u) as (Hf & Hdf & _); [lia |]. rewrite Hst, Hdf in E1. replace (Z.land (2 ^ 63 + u) rlBlockedFlag =? 0) with false in E1 by lia. cbn in E1. lia.
Qed.

(** ** The engine *)

Lemma retired_admit c now r : rule_ok r -> 0 <= now < 2 ^ 62 -> c_state c = rlRetiredState -> admitRule c now r = (rlRetired, c).
Proof.
  intros (Hw & _) Hn Hst. unfold admitRule, rlAdmit. cbv zeta. rewrite Hst, epoch_word by lia. pose proof (Z.mod_pos_bound (now / r_Window r) (2 ^ 24) ltac:(lia)).
  replace (Z.ldiff rlRetiredState rlCountMask) with ((2 ^ 25 - 1) * 2 ^ 39) by (vm_compute; reflexivity). replace (_ =? (now / r_Window r) mod 2 ^ 24 * 2 ^ 39) with false by lia. done.
Qed.

Lemma spec_decides st now r : (specAdmit st now r).1 <> rlRetired.
Proof. destruct st as [| e n | u]; cbn; unfold counted; repeat case_match; done. Qed.

Lemma spec_epoch st now r : match (specAdmit st now r).2 with Counting e _ => e = now / r_Window r | _ => True end.
Proof. destruct st as [| e n | u]; cbn [specAdmit]; [| | destruct (now <? u); [done |]]; unfold counted; by destruct (_ <? _). Qed.

Inductive rlEvent := EvCheck (now : Z) (ip path : bytes) | EvRetire (now grace : Z) (key : bytes) | EvDelete (key : bytes).

Section EngineProofs.

Context (reMatch : bytes -> bytes -> bool) (prefix64 : bytes -> option bytes) (rules : list compiledRule).

Definition engineStep (cs : gmap (list Z) rlCounter) (ev : rlEvent) : list (option rlOutcome) * gmap (list Z) rlCounter :=
  match ev with
  | EvCheck now ip path => let '(o, cs) := Check reMatch prefix64 rules cs now ip path in ([o], cs)
  | EvRetire now grace key => ([], retireEntry cs now grace key)
  | EvDelete key => ([], deleteEntry cs key)
  end.
Fixpoint engineRun (cs : gmap (list Z) rlCounter) (evs : list rlEvent) : list (option rlOutcome) :=
  match evs with [] => [] | ev :: evs => let '(os, cs) := engineStep cs ev in os ++ engineRun cs evs end.

(** The reference: one window per client and rule, none of them ever dropped. *)
Definition specState := (bytes * bytes) -> window.
Definition specCheck (sp : specState) (now : Z) (ip path : bytes) : option rlOutcome * specState :=
  match matchRule reMatch rules path with
  | None => (None, sp)
  | Some cr => let k := (clientKey prefix64 ip, r_Path (cr_rule cr)) in
      let '(o, st) := specAdmit (sp k) now (cr_rule cr) in (Some o, fun k' => if decide (k' = k) then st else sp k')
  end.
Fixpoint specRun (sp : specState) (evs : list rlEvent) : list (option rlOutcome) :=
  match evs with
  | [] => []
  | EvCheck now ip path :: evs => let '(o, sp) := specCheck sp now ip path in o :: specRun sp evs
  | _ :: evs => specRun sp evs
  end.

(** When a client was last checked under a rule. *)
Definition lastChecks := (bytes * bytes) -> option Z.
Definition noteCheck (last : lastChecks) (k : bytes * bytes) (t : Z) : lastChecks := fun k' => if decide (k' = k) then Some t else last k'.

(** Events from [now] on, in order; a client that comes back under a rule does so
    less than 2^24 windows later, and its address holds no '|'. *)
Fixpoint ordered (last : lastChecks) (now : Z) (evs : list rlEvent) : Prop :=
  match evs with
  | [] => True
  | EvCheck t ip path :: evs =>
      now <= t < 2 ^ 62 /\ (124 ∉ clientKey prefix64 ip) /\
      match matchRule reMatch rules path with
      | None => ordered last t evs
      | Some cr =>
          let k := (clientKey prefix64 ip, r_Path (cr_rule cr)) in
          match last k with None => True | Some t' => t / r_Window (cr_rule cr) < t' / r_Window (cr_rule cr) + 2 ^ 24 end /\ ordered (noteCheck last k t) t evs
      end
  | EvRetire t grace _ :: evs => now <= t < 2 ^ 62 /\ 0 <= grace /\ ordered last t evs
  | EvDelete _ :: evs => ordered last now evs
  end.

Hypothesis rules_ok : Forall (fun cr => rule_ok (cr_rule cr)) rules.
Hypothesis rules_nodup : NoDup (map (fun cr => r_Path (cr_rule cr)) rules).

Lemma matchLoop_in rs path best spec cr : matchLoop reMatch rs path best spec = Some cr -> best = Some cr \/ (cr ∈ rs /\ rule_match reMatch cr path = true).
Proof.
  revert best spec. induction rs as [| r rs IH]; intros best spec H; [by left |]. cbn [matchLoop] in H. destruct (_ && _) eqn:E.
  - apply andb_true_iff in E as [E _]. apply IH in H as [[= <-] | [H1 H2]]; right; [split; [by left | done] | split; [by right | done]].
  - apply IH in H as [H | [H1 H2]]; [by left | right; split; [by right | done]].
Qed.

Lemma rule_of_path cr cr' : cr ∈ rules -> cr' ∈ rules -> r_Path (cr_rule cr) = r_Path (cr_rule cr') -> cr = cr'.
Proof.
  intros H H' E. apply list_elem_of_lookup in H as [i Hi], H' as [j Hj].
  assert (i = j) as ->; [| congruence]. eapply NoDup_lookup; [exact rules_nodup | |]; rewrite list_lookup_fmap; [rewrite Hi; reflexivity | rewrite Hj; cbn; by rewrite E].
Qed.

Lemma key_inj (a b p q : bytes) : 124 ∉ a -> 124 ∉ b -> a ++ [124] ++ p = b ++ [124] ++ q -> a = b /\ p = q.
Proof.
  revert b. induction a as [| x a IH]; intros [| y b] Ha Hb E; cbn in E; simplify_eq/=.
  - done.
  - exfalso. apply Hb, elem_of_cons. by left.
  - exfalso. apply Ha, elem_of_cons. by left.
  - apply not_elem_of_cons in Ha as [_ Ha], Hb as [_ Hb]. by destruct (IH b Ha Hb) as [-> ->].
Qed.

(** One entry against its window. *)
Definition entry_ok (last : option Z) (now : Z) (r : RateLimitRule) (o : option rlCounter) (st : window) : Prop :=
  match o with None => over r now st | Some c => (c_state c = rlRetiredState /\ over r now st) \/ holds r c st end /\
  match st with Counting e _ => e <= now / r_Window r /\ exists t, last = Some t /\ e = t / r_Window r | _ => True end.
Definition engine_ok (last : lastChecks) (now : Z) (cs : gmap (list Z) rlCounter) (sp : specState) : Prop :=
  forall ip cr, cr ∈ rules -> 124 ∉ ip -> entry_ok (last (ip, r_Path (cr_rule cr))) now (cr_rule cr) (cs !! (ip ++ [124] ++ r_Path (cr_rule cr))) (sp (ip, r_Path (cr_rule cr))).

Lemma entry_later last now now' r o st : rule_ok r -> now <= now' -> entry_ok last now r o st -> entry_ok last now' r o st.
Proof.
  intros Hr Hn [H1 H2]. split.
  - destruct o as [c |]; [destruct H1 as [[H1 H3] | H1]; [left; split; [done |] | by right] |]; by eapply over_later.
  - destruct st as [| e n | u]; try done. pose proof (Z.div_le_mono now now' (r_Window r)). destruct Hr. split; [lia | apply H2].
Qed.

(** A request of a client under its rule. *)
Lemma entry_admit last now r cs key st : rule_ok r -> 0 <= now < 2 ^ 62 -> match last with None => True | Some t => now / r_Window r < t / r_Window r + 2 ^ 24 end -> entry_ok last now r (cs !! key) st ->
  exists c', (let '(c, cs) := storeClient cs key (now + r_Window r) in
     match admitRule c now r with
     | (rlRetired, _) => let '(c, cs) := storeClient (delete key cs) key (now + r_Window r) in let '(o, c) := admitRule c now r in (Some o, <[key := c]> cs)
     | (o, c) => (Some o, <[key := c]> cs)
     end) = (Some (specAdmit st now r).1, <[key := c']> cs) /\ entry_ok (Some now) now r (Some c') (specAdmit st now r).2.
Proof.
  intros Hr Hn Hspan [He Hep]. pose proof Hr as (Hw & _).
  assert (Hdone : forall c', holds r c' (specAdmit st now r).2 -> entry_ok (Some now) now r (Some c') (specAdmit st now r).2).
  { intros c' Hc. split; [by right |]. pose proof (spec_epoch st now r) as Hnew. destruct (specAdmit st now r).2; try done. split; [lia | by exists now]. }
  assert (Hfresh : over r now st -> exists c', admitRule (mkCounter 0 (now + r_Window r)) now r = ((specAdmit st now r).1, c') /\ holds r c' (specAdmit st now r).2).
  { intros Ho. rewrite (over_fresh r now st Ho). apply admit_refines; [done | lia | done | done]. }
  pose proof (spec_decides st now r) as Hdec. unfold storeClient at 1. destruct (cs !! key) as [c |] eqn:Ek.
  - destruct He as [[Hst Ho] | Hh].
    + rewrite retired_admit by (done || lia). unfold storeClient. rewrite lookup_delete_eq. destruct (Hfresh Ho) as (c' & E & Hc'). rewrite E. exists c'. split; [| by apply Hdone]. by rewrite insert_insert_eq, insert_delete_eq.
    + destruct (admit_refines r c st now) as (c' & E & Hc'); [done | lia | done | destruct st as [| e n | u]; cbn; [done | destruct Hep as (Hle & t & -> & ->); lia | done] |]. rewrite E. exists c'. split; [| by apply Hdone]. by destruct (specAdmit st now r).1.
  - destruct (Hfresh He) as (c' & E & Hc'). rewrite E. exists c'. split; [| by apply Hdone]. destruct (specAdmit st now r).1; by rewrite ?insert_insert_eq.
Qed.

Lemma engine_later last now now' cs sp : now <= now' -> engine_ok last now cs sp -> engine_ok last now' cs sp.
Proof. intros Hn H ip cr Hin Hip. eapply entry_later; [| exact Hn | by apply H]. rewrite Forall_forall in rules_ok. by apply rules_ok. Qed.

(** The clean-up changes no answer. *)
Lemma retire_ok last now grace key cs sp : 0 <= now -> 0 <= grace -> engine_ok last now cs sp -> engine_ok last now (retireEntry cs now grace key) sp.
Proof.
  intros Hn Hg H ip cr Hin Hip. specialize (H ip cr Hin Hip). rewrite Forall_forall in rules_ok. specialize (rules_ok cr Hin). unfold retireEntry. destruct (cs !! key) as [c |] eqn:Ek; [| done].
  destruct (decide (ip ++ [124] ++ r_Path (cr_rule cr) = key)) as [E | E]; [| by rewrite lookup_insert_ne]. rewrite E in H |- *. rewrite lookup_insert_eq. rewrite Ek in H. destruct H as [[[H1 H2] | H1] H3].
  - split; [| done]. left. unfold retireIfIdle. rewrite H1. done.
  - destruct (retire_over (cr_rule cr) c _ now grace rules_ok Hn Hg H1) as [-> | (c' & -> & Hs & Ho)]; (split; [| done]); [by right | by left].
Qed.

Lemma delete_ok last now key cs sp : engine_ok last now cs sp -> engine_ok last now (deleteEntry cs key) sp.
Proof.
  intros H ip cr Hin Hip. specialize (H ip cr Hin Hip). unfold deleteEntry. destruct (cs !! key) as [c |] eqn:Ek; [| done]. destruct (c_state c =? rlRetiredState) eqn:Er; [| done].
  destruct (decide (ip ++ [124] ++ r_Path (cr_rule cr) = key)) as [E | E]; [| by rewrite lookup_delete_ne]. rewrite E in H |- *. rewrite lookup_delete_eq. rewrite Ek in H. destruct H as [[[H1 H2] | H1] H3]; [done |].
  apply holds_range in H1. unfold rlRetiredState in Er. lia.
Qed.

Lemma engine_run evs : forall last now cs sp, 0 <= now -> ordered last now evs -> engine_ok last now cs sp -> engineRun cs evs = specRun sp evs.
Proof.
  induction evs as [| ev evs IH]; intros last now cs sp Hn Ho H; [done |]. destruct ev as [t ip path | t grace key | key]; cbn [engineRun engineStep specRun ordered] in *.
  - destruct Ho as (Ht & Hip & Ho). apply (engine_later last now t) in H; [| lia]. unfold Check, specCheck. destruct (matchRule reMatch rules path) as [cr |] eqn:Em; [| cbn; f_equal; by apply (IH last t); [lia | |]].
    destruct Ho as [Hspan Ho]. assert (Hin : cr ∈ rules) by (apply matchLoop_in in Em as [Em | [Em _]]; [done | exact Em]). rewrite Forall_forall in rules_ok. pose proof (rules_ok cr Hin) as Hr. unfold rlKey.
    destruct (entry_admit _ t (cr_rule cr) cs (clientKey prefix64 ip ++ [124] ++ r_Path (cr_rule cr)) _ Hr ltac:(lia) Hspan (H _ cr Hin Hip)) as (c' & -> & He).
    destruct (specAdmit _ t (cr_rule cr)) as [o st]. cbn [fst snd app] in *. f_equal. eapply (IH _ t); [lia | exact Ho |]. intros ip' cr' Hin' Hip'. unfold noteCheck.
    destruct (decide ((ip', r_Path (cr_rule cr')) = (clientKey prefix64 ip, r_Path (cr_rule cr)))) as [E | E].
    + injection E as -> E. assert (cr' = cr) as -> by (by apply rule_of_path). rewrite lookup_insert_eq. exact He.
    + rewrite lookup_insert_ne; [by apply H |]. intros Ek. apply key_inj in Ek as [Ea Eb]; [| done | done]. apply E. by rewrite Ea, Eb.
  - destruct Ho as (Ht & Hg & Ho). cbn [app]. apply (IH last t); [lia | done |]. apply retire_ok; [lia | done |]. apply (engine_later last now t) in H; [done | lia].
  - cbn [app]. apply (IH last now); [lia | done |]. by apply delete_ok.
Qed.

End EngineProofs.

(** C6: the limiter of requests answers as a fixed-window limiter. Over any
    requests and any clean-up (retiring entries and deleting retired ones, at any
    moment between requests), every answer is that of a reference that keeps one
    window per client and rule for ever: requests counted in the window of their
    time, the one past the limit refused and the client blocked for the rule's
    time, refusals with the rest of that time, then counting anew. So no window
    admits more than the limit, clients do not affect one another, and clean-up
    forgets only what no longer counts. It holds for a set of rules that is not
    changed on the way, with distinct paths, windows and blocks below 2^62
    nanoseconds and limits below 2^39 requests; for times that do not go back;
    for client addresses without a '|'; and when a client that comes back under a
    rule does so less than 2^24 windows after its last request under it (the
    packed word has 24 bits for the window). *)
Theorem rate_limit_refines reMatch prefix64 rules evs :
  Forall (fun cr => rule_ok (cr_rule cr)) rules -> NoDup (map (fun cr => r_Path (cr_rule cr)) rules) -> ordered reMatch prefix64 rules (fun _ => None) 0 evs ->
  engineRun reMatch prefix64 rules ∅ evs = specRun reMatch prefix64 rules (fun _ => Fresh) evs.
Proof.
  intros Hr Hnd Ho. apply (engine_run reMatch prefix64 rules Hr Hnd evs (fun _ => None) 0); [lia | exact Ho |]. intros ip cr _ _. rewrite lookup_empty. done.
Qed.

Definition demoRules : list compiledRule :=
  SetRules (fun _ => true) [mkRule (str "/api/*") 2 1000000000 0; mkRule (str "/api/login") 1 1000000000 3000000000; mkRule (str "~^/x") 5 1000000000 0].
Definition demoChecks : list rlEvent :=
  [EvCheck 0 (str "10.0.0.1") (str "/api/a"); EvCheck 1 (str "10.0.0.1") (str "/api/b"); EvCheck 2 (str "10.0.0.1") (str "/api/a"); EvCheck 3 (str "10.0.0.2") (str "/api/a");
   EvCheck 4 (str "10.0.0.1") (str "/api/login"); EvCheck 5 (str "10.0.0.1") (str "/api/login"); EvCheck 6 (str "10.0.0.1") (str "/none"); EvCheck 900000000 (str "10.0.0.1") (str "/api/a");
   EvRetire 2000000000 0 (str "10.0.0.1|/api/*"); EvRetire 2000000000 0 (str "10.0.0.1|/api/login"); EvDelete (str "10.0.0.1|/api/*"); EvDelete (str "10.0.0.1|/api/login");
   EvCheck 2000000001 (str "10.0.0.1") (str "/api/a"); EvCheck 2000000002 (str "10.0.0.1") (str "/api/login")].

Lemma rate_limit_refines_witness : engineRun (fun _ _ => false) (fun _ => None) demoRules ∅ demoChecks
  = [Some rlAllowed; Some rlAllowed; Some (rlLimited 1000000000); Some rlAllowed; Some rlAllowed; Some (rlLimited 3000000000); None; Some (rlLimited 100000002); Some rlAllowed; Some (rlLimited 1000000003)].
Proof.
  transitivity (specRun (fun _ _ => false) (fun _ => None) demoRules (fun _ => Fresh) demoChecks); [| vm_compute; reflexivity].
  apply (rate_limit_refines (fun _ _ => false) (fun _ => None) demoRules demoChecks).
  - unfold demoRules, SetRules. cbn [map]. repeat (apply Forall_cons_2; [split_and!; vm_compute; reflexivity |]). apply Forall_nil_2.
  - apply (bool_decide_unpack _). vm_compute. exact I.
  - assert (A : (124 ∉ clientKey (fun _ => None) (str "10.0.0.1")) /\ (124 ∉ clientKey (fun _ => None) (str "10.0.0.2"))) by (split; apply (bool_decide_unpack _); vm_compute; exact I). destruct A as [A1 A2].
    cbn [ordered demoChecks]. repeat (match goal with |- context [matchRule ?f ?rs ?p] => let m := eval vm_compute in (matchRule f rs p) in change (matchRule f rs p) with m end; cbv iota zeta).
    split_and!; try exact A1; try exact A2; try (vm_compute; (reflexivity || discriminate || exact I)).
Defined.

(** A goroutine whose reading of the clock is from before the turn of the window
    sets the count back: two requests per second are allowed, four are admitted
    in the second of times 1 to 4. *)
Lemma rate_limit_stale_clock :
  let r := mkRule (str "/") 2 1000000000 0 in
  let go c now := (admitRule c now r) in
  let c1 := (go (mkCounter 0 0) 1000000001).2 in
  let c2 := (go c1 1000000002).2 in
  let c3 := (go c2 999999999).2 in
  let c4 := (go c3 1000000003).2 in
  [(go (mkCounter 0 0) 1000000001).1; (go c1 1000000002).1; (go c2 999999999).1; (go c3 1000000003).1; (go c4 1000000004).1] = [rlAllowed; rlAllowed; rlAllowed; rlAllowed; rlAllowed] /\
  (go c2 1000000003).1 = rlLimited 1000000000.
Proof. vm_compute. split; reflexivity. Qed.
