(* ===== verification/Qpack.v ===== *)
(** Header blocks of HTTP/3 (src/core/qpack.go): the static table, the encoder
    and decoder without a dynamic table, and the heads of responses with the cache
    of their first fields. Decoded strings are kept in an arena that is only
    appended to, so they are values here. The dates are objects with a text, as for
    HTTP/2. *)
From stdpp Require Import base list numbers strings gmap.
From Stdlib Require Import ZArith Lia ZifyBool.
From S2P Require Import Prelude Utils HpackInt Huffman HpackTable HpackDyn Hpack H1Resp H2Enc.

Open Scope list_scope.
Open Scope Z_scope.

Definition qpackStaticTable : list field :=
  [(str ":authority", str ""); (str ":path", str "/"); (str "age", str "0"); (str "content-disposition", str "");
   (str "content-length", str "0"); (str "cookie", str ""); (str "date", str ""); (str "etag", str "");
   (str "if-modified-since", str ""); (str "if-none-match", str ""); (str "last-modified", str ""); (str "link", str "");
   (str "location", str ""); (str "referer", str ""); (str "set-cookie", str ""); (str ":method", str "CONNECT");
   (str ":method", str "DELETE"); (str ":method", str "GET"); (str ":method", str "HEAD"); (str ":method", str "OPTIONS");
   (str ":method", str "POST"); (str ":method", str "PUT"); (str ":scheme", str "http"); (str ":scheme", str "https");
   (str ":status", str "103"); (str ":status", str "200"); (str ":status", str "304"); (str ":status", str "404");
   (str ":status", str "503"); (str "accept", str "*/*"); (str "accept", str "application/dns-message"); (str "accept-encoding", str "gzip, deflate, br");
   (str "accept-ranges", str "bytes"); (str "access-control-allow-headers", str "cache-control"); (str "access-control-allow-headers", str "content-type"); (str "access-control-allow-origin", str "*");
   (str "cache-control", str "max-age=0"); (str "cache-control", str "max-age=2592000"); (str "cache-control", str "max-age=604800"); (str "cache-control", str "no-cache");
   (str "cache-control", str "no-store"); (str "cache-control", str "public, max-age=31536000"); (str "content-encoding", str "br"); (str "content-encoding", str "gzip");
   (str "content-type", str "application/dns-message"); (str "content-type", str "application/javascript"); (str "content-type", str "application/json"); (str "content-type", str "application/x-www-form-urlencoded");
   (str "content-type", str "image/gif"); (str "content-type", str "image/jpeg"); (str "content-type", str "image/png"); (str "content-type", str "text/css");
   (str "content-type", str "text/html; charset=utf-8"); (str "content-type", str "text/plain"); (str "content-type", str "text/plain;charset=utf-8"); (str "range", str "bytes=0-");
   (str "strict-transport-security", str "max-age=31536000"); (str "strict-transport-security", str "max-age=31536000; includesubdomains"); (str "strict-transport-security", str "max-age=31536000; includesubdomains; preload"); (str "vary", str "accept-encoding");
   (str "vary", str "origin"); (str "x-content-type-options", str "nosniff"); (str "x-xss-protection", str "1; mode=block"); (str ":status", str "100");
   (str ":status", str "204"); (str ":status", str "206"); (str ":status", str "302"); (str ":status", str "400");
   (str ":status", str "403"); (str ":status", str "421"); (str ":status", str "425"); (str ":status", str "500");
   (str "accept-language", str ""); (str "access-control-allow-credentials", str "FALSE"); (str "access-control-allow-credentials", str "TRUE"); (str "access-control-allow-headers", str "*");
   (str "access-control-allow-methods", str "get"); (str "access-control-allow-methods", str "get, post, options"); (str "access-control-allow-methods", str "options"); (str "access-control-expose-headers", str "content-length");
   (str "access-control-request-headers", str "content-type"); (str "access-control-request-method", str "get"); (str "access-control-request-method", str "post"); (str "alt-svc", str "clear");
   (str "authorization", str ""); (str "content-security-policy", str "script-src 'none'; object-src 'none'; base-uri 'none'"); (str "early-data", str "1"); (str "expect-ct", str "");
   (str "forwarded", str ""); (str "if-range", str ""); (str "origin", str ""); (str "purpose", str "prefetch");
   (str "server", str ""); (str "timing-allow-origin", str "*"); (str "upgrade-insecure-requests", str "1"); (str "user-agent", str "");
   (str "x-forwarded-for", str ""); (str "x-frame-options", str "deny"); (str "x-frame-options", str "sameorigin")].

(** ** Encoder *)

Definition encodeQPACKInt (buf : bytes) (prefix prefixBits val : Z) : bytes :=
  let maxFirst := u64 (u64 (Z.shiftl 1 prefixBits) - 1) in
  if val <? maxFirst then buf ++ [Z.lor prefix (u8 val)] else encodeIntLoop 10 (buf ++ [Z.lor prefix (u8 maxFirst)]) (val - maxFirst).

Definition encodeQPACKString (buf s : bytes) : bytes :=
  let huffLen := hpackHuffmanEncodedLen s in
  if huffLen <? zlen s then hpackHuffmanAppend (encodeQPACKInt buf 0x80 7 huffLen) s else encodeQPACKInt buf 0x00 7 (zlen s) ++ s.

Definition encodeRequiredInsertCount (buf : bytes) : bytes := buf ++ [0x00; 0x00].
Definition encodeIndexedLarge (buf : bytes) (idx : Z) : bytes := encodeQPACKInt buf 0xc0 6 idx.
Definition encodeLiteralWithNameRef (buf : bytes) (idx : Z) (value : bytes) : bytes := encodeQPACKString (encodeQPACKInt buf 0x50 4 idx) value.
Definition encodeLiteral (buf name value : bytes) : bytes :=
  let huffNameLen := hpackHuffmanEncodedLen name in
  let buf := if huffNameLen <? zlen name then hpackHuffmanAppend (encodeQPACKInt buf 0x28 3 huffNameLen) name else encodeQPACKInt buf 0x20 3 (zlen name) ++ name in
  encodeQPACKString buf value.

(** The maps from a field or a name to its first index, -1 without one. *)
Fixpoint firstIndex (p : field -> bool) (table : list field) (i : Z) : Z :=
  match table with [] => -1 | e :: table => if p e then i else firstIndex p table (i + 1) end.
Definition qpackFindStaticIndex (name value : bytes) : Z := firstIndex (fun e => bytes_eqb e.1 name && bytes_eqb e.2 value) qpackStaticTable 0.
Definition qpackFindStaticNameIndex (name : bytes) : Z := firstIndex (fun e => bytes_eqb e.1 name) qpackStaticTable 0.

(** [qpackStatusIndex[code]] after the loop over the table. *)
Fixpoint statusIndexLoop (table : list field) (i code idx : Z) : Z :=
  match table with
  | [] => idx
  | e :: table => statusIndexLoop table (i + 1) code (if bytes_eqb e.1 (str ":status") && (match parseUint e.2 with Some c => c =? code | None => false end) then i else idx)
  end.
Definition qpackStatusIndex (code : Z) : Z := statusIndexLoop qpackStaticTable 0 code (-1).

Definition qpack_EncodeStatus (buf : bytes) (code : Z) : bytes :=
  let idx := qpackStatusIndex code in
  if (0 <? code) && (code <? 600) && (0 <=? idx) then encodeIndexedLarge buf idx
  else
    let s := appendUint [] code in
    let nameIdx := qpackFindStaticNameIndex (str ":status") in
    if 0 <=? nameIdx then encodeLiteralWithNameRef buf nameIdx s else encodeLiteral buf (str ":status") s.

Definition qpack_EncodeHeader (buf name value : bytes) : bytes :=
  let idx := qpackFindStaticIndex name value in
  if 0 <=? idx then encodeIndexedLarge buf idx
  else
    let nameIdx := qpackFindStaticNameIndex name in
    if 0 <=? nameIdx then encodeLiteralWithNameRef buf nameIdx value else encodeLiteral buf name value.

(** ** Decoder *)

Inductive qpackErr := qpackTruncated | errQPACKDecompression | qpackTooManyHeaders.

Definition qpackBaseSignBit : Z := 0x80.
Definition qpackMaxHeaders : Z := 128.

Definition qpackDecodeString (data : bytes) : option (bytes * Z) :=
  if zlen data =? 0 then None
  else
    let huffman := negb (Z.land (znth data 0) 0x80 =? 0) in
    let '(sLen, n) := HpackDecodeInt data 7 in
    if (n =? 0) || (zlen data <? sLen) || (zlen data <? n + sLen) then None
    else
      let raw := zslice data n (n + sLen) in
      match if huffman then hpackHuffmanDecode raw else Some raw with None => None | Some s => Some (s, n + sLen) end.

(** One field line; the result is the field and the rest of the data. *)
Definition qpackStep (b : Z) (data : bytes) : res qpackErr (field * bytes) :=
  if negb (Z.land b 0x80 =? 0) then
    if Z.land b 0x40 =? 0 then Err errQPACKDecompression
    else
      let '(idx, n) := HpackDecodeInt data 6 in
      if n =? 0 then Err qpackTruncated
      else match (if idx <? zlen qpackStaticTable then qpackStaticTable !! Z.to_nat idx else None) with None => Err qpackTruncated | Some f => Ok (f, zdrop n data) end
  else if negb (Z.land b 0x40 =? 0) then
    if Z.land b 0x10 =? 0 then Err errQPACKDecompression
    else
      let '(nameIdx, n) := HpackDecodeInt data 4 in
      if n =? 0 then Err qpackTruncated
      else
        let data := zdrop n data in
        match qpackDecodeString data with
        | None => Err qpackTruncated
        | Some (value, vn) =>
            match (if nameIdx <? zlen qpackStaticTable then qpackStaticTable !! Z.to_nat nameIdx else None) with
            | None => Err qpackTruncated
            | Some f => Ok ((f.1, value), zdrop vn data)
            end
        end
  else if negb (Z.land b 0x20 =? 0) then
    let huffName := negb (Z.land b 0x08 =? 0) in
    let '(nameLen, n) := HpackDecodeInt data 3 in
    if n =? 0 then Err qpackTruncated
    else
      let data := zdrop n data in
      if zlen data <? nameLen then Err qpackTruncated
      else
        match if huffName then hpackHuffmanDecode (ztake nameLen data) else Some (ztake nameLen data) with
        | None => Err qpackTruncated
        | Some name =>
            let data := zdrop nameLen data in
            match qpackDecodeString data with None => Err qpackTruncated | Some (value, vn) => Ok ((name, value), zdrop vn data) end
        end
  else Err errQPACKDecompression.

(** The loop of [DecodeAppend]: a turn per line, at most one per byte, so that the
    fuel given below is never used up. *)
Fixpoint qpackLoop (fuel : nat) (data : bytes) (headers : list field) : res qpackErr (list field) :=
  match data with
  | [] => Ok headers
  | b :: _ =>
      match fuel with
      | O => Ok headers
      | S fuel =>
          let! x := qpackStep b data in
          let headers := headers ++ [x.1] in
          if qpackMaxHeaders <? zlen headers then Err qpackTooManyHeaders else qpackLoop fuel x.2 headers
      end
  end.

Definition qpackDecodeAppend (data : bytes) (headers : list field) : res qpackErr (list field) :=
  if zlen data <? 2 then Err qpackTruncated
  else
    let '(requiredInsertCount, n) := HpackDecodeInt data 8 in
    if n =? 0 then Err qpackTruncated
    else if negb (requiredInsertCount =? 0) then Err errQPACKDecompression
    else
      let data := zdrop n data in
      let '(_, sn) := HpackDecodeInt data 7 in
      if sn =? 0 then Err qpackTruncated
      else if negb (Z.land (znth data 0) qpackBaseSignBit =? 0) then Err errQPACKDecompression
      else qpackLoop (length data) (zdrop sn data) headers.

(** ** Response heads *)

Definition qpackPrefixCacheMaxEntries : Z := 512.

(** [qpackRespPrefixCache]. *)
Abbreviation prefixCache := (gmap (Z * list Z * list Z) bytes).

Fixpoint qpackResponseServer (headers : list field) (configured : bytes) : bytes :=
  match headers with [] => configured | h :: headers => if headerNameIs h.1 (str "server") then h.2 else qpackResponseServer headers configured end.

Definition respPrefix (status : Z) (contentType serverName : bytes) : bytes :=
  let buf := qpack_EncodeStatus (encodeRequiredInsertCount []) status in
  let buf := if bytes_eqb contentType [] then buf else qpack_EncodeHeader buf (str "content-type") contentType in
  qpack_EncodeHeader buf (str "server") serverName.

Definition cachedPrefix (cache : prefixCache) (status : Z) (contentType serverName : bytes) : bytes * prefixCache :=
  match cache !! (status, contentType, serverName) with
  | Some prefix => (prefix, cache)
  | None =>
      let p := respPrefix status contentType serverName in
      (p, if Z.of_nat (size cache) <? qpackPrefixCacheMaxEntries then <[(status, contentType, serverName) := p]> cache else cache)
  end.

Definition commonLowerHeader (s : bytes) : option bytes := assoc_get commonLowerHeaders s.
Definition qpackHeader (buf name value : bytes) : bytes := qpack_EncodeHeader buf (match commonLowerHeader name with Some low => low | None => ToLowerASCII name end) value.

Fixpoint qpackHeaderLoop (buf : bytes) (headers : list field) (wroteType wroteLength wroteDate : bool) : bytes * bool :=
  match headers with
  | [] => (buf, wroteDate)
  | (name, value) :: headers =>
      if (zlen name =? 0) || (znth name 0 =? 58) || isConnectionSpecificResponseField name then qpackHeaderLoop buf headers wroteType wroteLength wroteDate
      else if headerNameIs name (str "content-type") then
        if wroteType then qpackHeaderLoop buf headers wroteType wroteLength wroteDate else qpackHeaderLoop (qpackHeader buf name value) headers true wroteLength wroteDate
      else if headerNameIs name (str "content-length") then
        if wroteLength then qpackHeaderLoop buf headers wroteType wroteLength wroteDate else qpackHeaderLoop (qpackHeader buf name value) headers wroteType true wroteDate
      else if headerNameIs name (str "server") then qpackHeaderLoop buf headers wroteType wroteLength wroteDate
      else if headerNameIs name (str "date") then qpackHeaderLoop (qpackHeader buf name value) headers wroteType wroteLength true
      else qpackHeaderLoop (qpackHeader buf name value) headers wroteType wroteLength wroteDate
  end.

Definition newQPACKDateField (text : bytes) : bytes := qpack_EncodeHeader [] (str "date") text.

Definition qpackEncodeResponseHeaders (cache : prefixCache) (date : bytes) (status : Z) (contentType : bytes) (contentLength : Z) (headers : list field) (serverName : bytes) : bytes * prefixCache :=
  let serverName := qpackResponseServer headers serverName in
  let '(buf, cache) := cachedPrefix cache status contentType serverName in
  let buf :=
    if 0 <=? contentLength then
      let clStr := appendUint [] contentLength in
      let nameIdx := qpackFindStaticNameIndex (str "content-length") in
      if 0 <=? nameIdx then encodeLiteralWithNameRef buf nameIdx clStr else encodeLiteral buf (str "content-length") clStr
    else buf in
  let '(buf, wroteDate) := qpackHeaderLoop buf headers (negb (bytes_eqb contentType [])) (0 <=? contentLength) false in
  (if wroteDate then buf else buf ++ newQPACKDateField date, cache).
