(* ===== verification/QpackProofs.v ===== *)
(** Header blocks of HTTP/3 read back: what each writer of the encoder writes,
    whole blocks through the decoder, and the heads and frames of responses. *)
From stdpp Require Import base list numbers strings gmap.
From Stdlib Require Import ZArith Lia ZifyBool.
From S2P Require Import Prelude Utils QuicVarint HpackInt Huffman HuffmanProofs HpackTable HpackDyn Hpack HpackProofs HpackRoundtrip H1Resp H2Enc H2EncTable H2EncProofs Qpack.

Open Scope list_scope.
Open Scope Z_scope.

(** ** Strings *)

Lemma decodeInt_zero data pb v : HpackDecodeInt data pb = (v, 0) -> v = 0.
Proof.
  destruct data as [| b data]; [by intros [= ->] |]. cbn [HpackDecodeInt]. destruct (7 <? _); [by intros [= ->] |]. destruct (_ <? _); [by intros [= _ ?] |]. by apply decodeIntLoop_zero.
Qed.

(** What the other reader reads, this one reads. *)
Lemma qpack_string data s n : HpackDecodeString data = (s, n) -> 0 < n -> qpackDecodeString data = Some (s, n).
Proof.
  unfold HpackDecodeString, qpackDecodeString. destruct (zlen data =? 0); [intros [= <- <-]; lia |]. destruct (HpackDecodeInt data 7) as [sLen k] eqn:E.
  destruct (k =? 0) eqn:Ek; [assert (k = 0) as -> by lia; apply decodeInt_zero in E as ->; destruct (_ || _); [intros [= <- <-]; lia |] |].
  - change (zslice data 0 (0 + 0)) with (@nil Z). destruct (negb _); [| intros [= <- <-]; lia]. destruct (hpackHuffmanDecode []); intros [= <- <-]; lia.
  - cbn [orb]. destruct (_ || _); [intros [= <- <-]; lia |]. destruct (negb _); [| by intros [= <- <-]]. destruct (hpackHuffmanDecode _); intros [= <- <-]; [done | lia].
Qed.

#[export] Instance encodeQPACKString_writer : StringWriter encodeQPACKString (fun s => s).
Proof.
  intros s Hs Hl. pose proof (zlen_nonneg s) as H0. unfold encodeQPACKString. change encodeQPACKInt with EncodeInt. destruct (hpackHuffmanEncodedLen s <? zlen s) eqn:E.
  - exists (huff_string s). split; [| apply huff_string_ok; [done | lia | done]]. intros buf. rewrite hpackHuffmanAppend_dst. unfold huff_string. rewrite huffman_len by (by apply bytes_syms).
    assert (Hh : 0 <= hpackHuffmanEncodedLen s) by (rewrite <- huffman_len by (by apply bytes_syms); apply zlen_nonneg). rewrite (EncodeInt7 true) by lia. by rewrite app_assoc.
  - exists (raw_string s). split; [| by apply raw_string_ok]. intros buf. rewrite (EncodeInt7 false) by lia. unfold raw_string. by rewrite app_assoc.
Qed.

(** ** Field lines *)

Definition qencodes (w : bytes) (f : field) : Prop := exists b tl, w = b :: tl /\ forall rest, qpackStep b (w ++ rest) = Ok (f, rest).

Lemma qprefix6 : prefix_ok 0xc0 6.
Proof. split; [lia |]. exists 3. lia. Qed.
Lemma qprefix4 : prefix_ok 0x50 4.
Proof. split; [lia |]. exists 5. lia. Qed.
Lemma qprefix3 (huff : bool) : prefix_ok (if huff then 0x28 else 0x20) 3.
Proof. split; [lia |]. destruct huff; [exists 5 | exists 4]; lia. Qed.

(** The bits that tell the lines apart. *)
Definition bit (b k : Z) : bool := negb (Z.land b k =? 0).
Definition line_bits (b : Z) : bool :=
  implb (192 <=? b) (bit b 0x80 && bit b 0x40) && implb ((0x50 <=? b) && (b <? 0x60)) (negb (bit b 0x80) && bit b 0x40 && bit b 0x10) &&
  implb ((0x20 <=? b) && (b <? 0x30)) (negb (bit b 0x80) && negb (bit b 0x40) && bit b 0x20 && eqb (bit b 0x08) (0x28 <=? b)).
Lemma line_bits_ok b : is_u8 b -> line_bits b = true.
Proof. apply byte_forall. vm_compute. reflexivity. Qed.

Lemma qencodes_indexed idx f : 0 <= idx -> qpackStaticTable !! Z.to_nat idx = Some f -> exists w, (forall buf, encodeIndexedLarge buf idx = buf ++ w) /\ qencodes w f.
Proof.
  intros Hi Hf. assert (Hr : idx < 99) by (apply lookup_lt_Some in Hf; change (length qpackStaticTable) with 99%nat in Hf; lia).
  exists (int_bytes 0xc0 6 idx). split; [intros buf; apply EncodeInt_bytes; [apply qprefix6 | unfold is_u64; lia] |].
  destruct (int_bytes_head 0xc0 6 idx []) as (low & Hlow & tl & Etl); [lia | lia |]. rewrite app_nil_r in Etl. exists (0xc0 + low), tl. split; [done |]. intros rest.
  change (2 ^ 6) with 64 in Hlow. pose proof (line_bits_ok (0xc0 + low) ltac:(unfold is_u8; lia)) as Hb. unfold line_bits, bit in Hb. replace (192 <=? 192 + low) with true in Hb by lia.
  rewrite !andb_true_iff in Hb. destruct Hb as [[Hb _] _]. cbn [implb] in Hb. apply andb_true_iff in Hb as [Hb1 Hb2]. unfold qpackStep. rewrite Hb1. apply negb_true_iff in Hb2. rewrite Hb2.
  rewrite int_bytes_decode by (apply qprefix6 || (unfold is_u64; lia)). pose proof (zlen_int_bytes 0xc0 6 idx). replace (zlen _ =? 0) with false by lia.
  change (zlen qpackStaticTable) with 99. replace (idx <? 99) with true by lia. by rewrite Hf, zdrop_app_exact.
Qed.

Lemma qencodes_nameref idx f value : 0 <= idx -> qpackStaticTable !! Z.to_nat idx = Some f -> text_ok value ->
  exists w, (forall buf, encodeLiteralWithNameRef buf idx value = buf ++ w) /\ qencodes w (f.1, value).
Proof.
  intros Hi Hf [Hv Hl]. assert (Hr : idx < 99) by (apply lookup_lt_Some in Hf; change (length qpackStaticTable) with 99%nat in Hf; lia).
  destruct (string_writer (write := encodeQPACKString) (view := fun s => s) value Hv Hl) as (ve & Hw & _ & Hv0 & Hd).
  exists (int_bytes 0x50 4 idx ++ ve). split; [intros buf; unfold encodeLiteralWithNameRef; rewrite Hw; change encodeQPACKInt with EncodeInt; rewrite EncodeInt_bytes, app_assoc; [done | apply qprefix4 | unfold is_u64; lia] |].
  destruct (int_bytes_head 0x50 4 idx ve) as (low & Hlow & tl & Etl); [lia | lia |]. exists (0x50 + low), tl. split; [done |]. intros rest.
  change (2 ^ 4) with 16 in Hlow. pose proof (line_bits_ok (0x50 + low) ltac:(unfold is_u8; lia)) as Hb. unfold line_bits, bit in Hb. replace ((80 <=? 80 + low) && (80 + low <? 96)) with true in Hb by lia.
  rewrite !andb_true_iff in Hb. destruct Hb as [[_ Hb] _]. cbn [implb] in Hb. rewrite !andb_true_iff, negb_true_iff in Hb. destruct Hb as [[Hb1 Hb2] Hb3]. unfold qpackStep. rewrite Hb1, Hb2. apply negb_true_iff in Hb3. rewrite Hb3.
  rewrite <- app_assoc, int_bytes_decode by (apply qprefix4 || (unfold is_u64; lia)). pose proof (zlen_int_bytes 0x50 4 idx). replace (zlen _ =? 0) with false by lia. rewrite zdrop_app_exact.
  rewrite (qpack_string _ _ _ (Hd rest) Hv0). change (zlen qpackStaticTable) with 99. replace (idx <? 99) with true by lia. by rewrite Hf, zdrop_app_exact.
Qed.

Lemma qencodes_literal name value : text_ok name -> text_ok value -> exists w, (forall buf, encodeLiteral buf name value = buf ++ w) /\ qencodes w (name, value).
Proof.
  intros [Hn Hnl] [Hv Hvl]. destruct (string_writer (write := encodeQPACKString) (view := fun s => s) value Hv Hvl) as (ve & Hw & _ & Hv0 & Hd).
  assert (Hname : exists (huff : bool) p, zlen p < 2 ^ 60 /\ (if huff then hpackHuffmanDecode p = Some name else p = name) /\
    forall buf, (if hpackHuffmanEncodedLen name <? zlen name then hpackHuffmanAppend (encodeQPACKInt buf 0x28 3 (hpackHuffmanEncodedLen name)) name else encodeQPACKInt buf 0x20 3 (zlen name) ++ name)
      = buf ++ int_bytes (if huff then 0x28 else 0x20) 3 (zlen p) ++ p).
  { change encodeQPACKInt with EncodeInt. pose proof (zlen_nonneg name). assert (Hh : zlen (hpackHuffmanAppend [] name) = hpackHuffmanEncodedLen name) by (by apply huffman_len, bytes_syms).
    pose proof (zlen_nonneg (hpackHuffmanAppend [] name)). destruct (hpackHuffmanEncodedLen name <? zlen name) eqn:E.
    - exists true, (hpackHuffmanAppend [] name). split; [lia |]. split; [by apply huffman_decode_append |]. intros buf. rewrite hpackHuffmanAppend_dst, Hh.
      rewrite EncodeInt_bytes by (apply (qprefix3 true) || (unfold is_u64; lia)). by rewrite <- app_assoc.
    - exists false, name. split; [done |]. split; [done |]. intros buf. rewrite EncodeInt_bytes by (apply (qprefix3 false) || (unfold is_u64; lia)). by rewrite <- app_assoc. }
  destruct Hname as (huff & p & Hp & Hdec & Happ). set (flag := if huff then 0x28 else 0x20) in *. pose proof (zlen_nonneg p).
  exists (int_bytes flag 3 (zlen p) ++ p ++ ve). split; [intros buf; unfold encodeLiteral; cbv zeta; rewrite Hw, Happ, <- !app_assoc; done |].
  destruct (int_bytes_head flag 3 (zlen p) (p ++ ve)) as (low & Hlow & tl & Etl); [lia | lia |]. exists (flag + low), tl. split; [done |]. intros rest. change (2 ^ 3) with 8 in Hlow.
  assert (Hfl : 0x20 <= flag + low < 0x30 /\ (0x28 <=? flag + low) = huff) by (unfold flag; destruct huff; lia). destruct Hfl as [Hfl1 Hfl2].
  pose proof (line_bits_ok (flag + low) ltac:(unfold is_u8; lia)) as Hb. unfold line_bits, bit in Hb. replace ((32 <=? flag + low) && (flag + low <? 48)) with true in Hb by lia.
  rewrite !andb_true_iff in Hb. destruct Hb as [_ Hb]. cbn [implb] in Hb. rewrite !andb_true_iff, !negb_true_iff, eqb_true_iff in Hb. destruct Hb as [[[Hb1 Hb2] Hb3] Hb4]. unfold qpackStep. rewrite Hb1, Hb2, Hb3, Hb4, Hfl2.
  rewrite <- !app_assoc, int_bytes_decode by (apply qprefix3 || (unfold is_u64; lia)). pose proof (zlen_int_bytes flag 3 (zlen p)). replace (zlen (int_bytes _ _ _) =? 0) with false by lia. rewrite zdrop_app_exact.
  rewrite !zlen_app. pose proof (zlen_nonneg ve). pose proof (zlen_nonneg rest). replace (_ <? zlen p) with false by lia. rewrite ztake_app_exact, zdrop_app_exact.
  assert (Hdec' : (if huff then hpackHuffmanDecode p else Some p) = Some name) by (destruct huff; [done | by rewrite Hdec]). rewrite Hdec'. rewrite (qpack_string _ _ _ (Hd rest) Hv0). by rewrite zdrop_app_exact.
Qed.

Lemma firstIndex_spec p table i : firstIndex p table i = -1 \/ exists k e, table !! k = Some e /\ p e = true /\ firstIndex p table i = i + Z.of_nat k.
Proof.
  revert i. induction table as [| e table IH]; intros i; [by left |]. cbn [firstIndex]. destruct (p e) eqn:E.
  - right. exists O, e. split_and!; [done | done | lia].
  - destruct (IH (i + 1)) as [H | (k & e' & H1 & H2 & H3)]; [by left |]. right. exists (S k), e'. split_and!; [done | done | lia].
Qed.

Lemma qencodes_header name value : text_ok name -> text_ok value -> exists w, (forall buf, qpack_EncodeHeader buf name value = buf ++ w) /\ qencodes w (name, value).
Proof.
  intros Hn Hv. unfold qpack_EncodeHeader, qpackFindStaticIndex, qpackFindStaticNameIndex. set (p := fun e : field => bytes_eqb e.1 name && bytes_eqb e.2 value). set (q := fun e : field => bytes_eqb e.1 name).
  destruct (firstIndex_spec p qpackStaticTable 0) as [-> | (k & [n v] & Hk & Hp & ->)].
  - change (0 <=? -1) with false. cbv iota. destruct (firstIndex_spec q qpackStaticTable 0) as [-> | (k & [n v] & Hk & Hq & ->)]; [by apply qencodes_literal |].
    replace (0 <=? 0 + Z.of_nat k) with true by lia. apply bytes_eqb_spec in Hq. cbn in Hq. subst n. apply (qencodes_nameref (0 + Z.of_nat k) (name, v) value); [lia | by replace (Z.to_nat (0 + Z.of_nat k)) with k by lia | done].
  - replace (0 <=? 0 + Z.of_nat k) with true by lia. unfold p in Hp. apply andb_true_iff in Hp as [Hp1 Hp2]. apply bytes_eqb_spec in Hp1, Hp2. cbn in Hp1, Hp2. subst n v.
    apply qencodes_indexed; [lia | by replace (Z.to_nat (0 + Z.of_nat k)) with k by lia].
Qed.

Lemma statusIndexLoop_spec table i code idx : statusIndexLoop table i code idx = idx \/
  exists k v, table !! k = Some (str ":status", v) /\ parseUint v = Some code /\ statusIndexLoop table i code idx = i + Z.of_nat k.
Proof.
  revert i idx. induction table as [| [n v] table IH]; intros i idx; [by left |]. cbn [statusIndexLoop fst snd]. destruct (IH (i + 1) (if bytes_eqb n (str ":status") && (match parseUint v with Some c => c =? code | None => false end) then i else idx)) as [-> | (k & w & H1 & H2 & ->)].
  - destruct (_ && _) eqn:E; [| by left]. apply andb_true_iff in E as [E1 E2]. apply bytes_eqb_spec in E1. subst n. right. exists O, v. destruct (parseUint v) as [c |] eqn:Ec; [| done]. split_and!; [done | f_equal; lia | lia].
  - right. exists (S k), w. split_and!; [done | done | lia].
Qed.

(** The statuses of the table are spelled as they are written. *)
Lemma status_spelled k v code : qpackStaticTable !! k = Some (str ":status", v) -> parseUint v = Some code -> v = appendUint [] code.
Proof.
  intros Hk Hp. assert (H : forallb (fun e => negb (bytes_eqb e.1 (str ":status")) || (match parseUint e.2 with Some c => bytes_eqb e.2 (appendUint [] c) | None => false end)) qpackStaticTable = true) by (vm_compute; reflexivity).
  rewrite forallb_forall in H. specialize (H (str ":status", v)). rewrite <- list_elem_of_In in H. apply list_elem_of_lookup_2 in Hk. specialize (H Hk). cbn [fst snd] in H. rewrite Hp in H.
  apply orb_true_iff in H as [H | H]; [by vm_compute in H | by apply bytes_eqb_spec].
Qed.

Lemma qencodes_status code : 0 <= code < 2 ^ 63 -> exists w, (forall buf, qpack_EncodeStatus buf code = buf ++ w) /\ qencodes w (str ":status", appendUint [] code).
Proof.
  intros Hc. unfold qpack_EncodeStatus, qpackStatusIndex. destruct (statusIndexLoop_spec qpackStaticTable 0 code (-1)) as [-> | (k & v & Hk & Hp & ->)].
  - change (0 <=? -1) with false. rewrite andb_false_r. cbv iota zeta. change (qpackFindStaticNameIndex (str ":status")) with 24. change (0 <=? 24) with true. cbv iota.
    apply (qencodes_nameref 24 (str ":status", str "103")); [lia | reflexivity | by apply appendUint_text].
  - pose proof (status_spelled k v code Hk Hp) as ->. destruct ((0 <? code) && (code <? 600) && (0 <=? 0 + Z.of_nat k)).
    + apply qencodes_indexed; [lia | by replace (Z.to_nat (0 + Z.of_nat k)) with k by lia].
    + cbv zeta. change (qpackFindStaticNameIndex (str ":status")) with 24. change (0 <=? 24) with true. cbv iota. apply (qencodes_nameref 24 (str ":status", str "103")); [lia | reflexivity | by apply appendUint_text].
Qed.

Lemma qencodes_length n : 0 <= n < 2 ^ 63 -> exists w, (forall buf, encodeLiteralWithNameRef buf 4 (appendUint [] n) = buf ++ w) /\ qencodes w (str "content-length", appendUint [] n).
Proof. intros Hn. apply (qencodes_nameref 4 (str "content-length", str "0")); [lia | reflexivity | by apply appendUint_text]. Qed.

(** ** Runs of lines *)

Definition qreads (w : bytes) (fs : list field) : Prop :=
  exists k, (k <= length w)%nat /\ forall headers rest fuel, zlen headers + zlen fs <= qpackMaxHeaders -> qpackLoop (k + fuel) (w ++ rest) headers = qpackLoop fuel rest (headers ++ fs).

Lemma qreads_nil : qreads [] [].
Proof. exists O. split; [done |]. intros headers rest fuel _. by rewrite app_nil_r. Qed.
Lemma qreads_line w f : qencodes w f -> qreads w [f].
Proof.
  intros (b & tl & -> & H). exists 1%nat. split; [simpl; lia |]. intros headers rest fuel Hn. change (zlen [f]) with 1 in Hn. cbn [Nat.add app qpackLoop]. specialize (H rest). cbn [app] in H. rewrite H. cbn [res_bind fst snd].
  rewrite zlen_snoc. by replace (qpackMaxHeaders <? zlen headers + 1) with false by lia.
Qed.
Lemma qreads_app w1 w2 fs1 fs2 : qreads w1 fs1 -> qreads w2 fs2 -> qreads (w1 ++ w2) (fs1 ++ fs2).
Proof.
  intros (k1 & L1 & H1) (k2 & L2 & H2). exists (k1 + k2)%nat. split; [rewrite length_app; lia |]. intros headers rest fuel Hn. rewrite zlen_app in Hn. pose proof (zlen_nonneg fs2). pose proof (zlen_nonneg fs1).
  replace (k1 + k2 + fuel)%nat with (k1 + (k2 + fuel))%nat by lia. rewrite <- app_assoc, H1 by lia. rewrite H2 by (rewrite zlen_app; lia). by rewrite app_assoc.
Qed.

(** A block: the prefix without a dynamic table, then the lines. *)
Lemma qreads_block w fs : qreads w fs -> zlen fs <= qpackMaxHeaders -> qpackDecodeAppend ([0x00; 0x00] ++ w) [] = Ok fs.
Proof.
  intros (k & L & H) Hn. unfold qpackDecodeAppend. rewrite zlen_app. pose proof (zlen_nonneg w). change (zlen [0; 0]) with 2. replace (2 + zlen w <? 2) with false by lia.
  change (HpackDecodeInt ([0; 0] ++ w) 8) with (0, 1). change (1 =? 0) with false. change (negb (0 =? 0)) with false. cbv iota zeta. change (zdrop 1 ([0; 0] ++ w)) with (0 :: w).
  change (HpackDecodeInt (0 :: w) 7) with (0, 1). change (1 =? 0) with false. change (negb (Z.land (znth (0 :: w) 0) qpackBaseSignBit =? 0)) with false. cbv iota. change (zdrop 1 (0 :: w)) with w.
  replace (length (0 :: w)) with (k + (S (length w) - k))%nat by (simpl; lia). specialize (H [] [] (S (length w) - k)%nat ltac:(change (zlen (@nil field)) with 0; lia)). rewrite app_nil_r in H. rewrite H.
  by destruct (S (length w) - k)%nat.
Qed.

(** The fuel of the loop does not matter once it covers the data. *)
Lemma length_zdrop (n : Z) (l : bytes) : (length (zdrop n l) <= length l)%nat.
Proof. unfold zdrop. rewrite length_drop. lia. Qed.
Lemma qpackStep_shrinks b data f rest : bytes_ok (b :: data) -> qpackStep b (b :: data) = Ok (f, rest) -> (length rest <= length data)%nat /\ bytes_ok rest.
Proof.
  intros Hok. unfold qpackStep. assert (Hint : forall pb v n, 1 <= pb <= 8 -> HpackDecodeInt (b :: data) pb = (v, n) -> (n =? 0) = false -> (length (zdrop n (b :: data)) <= length data)%nat).
  { intros pb v n Hpb E En. destruct (HpackDecodeInt_range _ _ _ _ Hok Hpb E) as (_ & Hn & _). apply zdrop_shrinks. lia. }
  destruct (negb _).
  - destruct (Z.land b 64 =? 0); [done |]. destruct (HpackDecodeInt _ 6) as [idx n] eqn:E. destruct (n =? 0) eqn:En; [done |]. specialize (Hint 6 _ _ ltac:(lia) E En).
    destruct (if idx <? _ then _ else _); [| done]. intros [= <- <-]. split; [done | by apply zdrop_ok].
  - destruct (negb (Z.land b 64 =? 0)).
    + destruct (Z.land b 16 =? 0); [done |]. destruct (HpackDecodeInt _ 4) as [idx n] eqn:E. destruct (n =? 0) eqn:En; [done |]. specialize (Hint 4 _ _ ltac:(lia) E En). cbv zeta.
      destruct (qpackDecodeString _) as [[value vn] |]; [| done]. destruct (if idx <? _ then _ else _); [| done]. intros [= <- <-]. pose proof (length_zdrop vn (zdrop n (b :: data))). split; [lia | by apply zdrop_ok, zdrop_ok].
    + destruct (negb (Z.land b 32 =? 0)); [| done]. cbv zeta. destruct (HpackDecodeInt _ 3) as [idx n] eqn:E. destruct (n =? 0) eqn:En; [done |]. specialize (Hint 3 _ _ ltac:(lia) E En).
      destruct (_ <? idx); [done |]. destruct (if negb _ then hpackHuffmanDecode _ else _); [| done]. destruct (qpackDecodeString _) as [[value vn] |]; [| done]. intros [= <- <-].
      pose proof (length_zdrop vn (zdrop idx (zdrop n (b :: data)))). pose proof (length_zdrop idx (zdrop n (b :: data))). split; [lia | by apply zdrop_ok, zdrop_ok, zdrop_ok].
Qed.
Lemma qpackLoop_fuel fuel : forall fuel' data headers, bytes_ok data -> (length data <= fuel)%nat -> (length data <= fuel')%nat -> qpackLoop fuel data headers = qpackLoop fuel' data headers.
Proof.
  induction fuel as [| fuel IH]; intros fuel' [| b data] headers Hok Hf Hf'; [by destruct fuel' | cbn in Hf; lia | by destruct fuel' |].
  destruct fuel' as [| fuel']; [cbn in Hf'; lia |]. cbn [qpackLoop]. destruct (qpackStep b (b :: data)) as [[f rest] | e] eqn:E; [| done]. cbn [res_bind fst snd]. destruct (qpackMaxHeaders <? _); [done |].
  apply qpackStep_shrinks in E as [Hl Hr]; [| done]. cbn in Hf, Hf'. apply IH; [done | lia | lia].
Qed.
