(* ===== verification/H3.v ===== *)
(** HTTP/3 over a QUIC connection (src/core/h3_frame.go, h3_request.go, h3_conn.go,
    h3_peer_streams.go): frames, request sections with the cache of decoded
    blocks, request streams, responses, and the unidirectional streams of the
    peer. Streams, handlers and the connection's closing are the results of the
    functions. *)
From stdpp Require Import base list numbers strings gmap.
From Stdlib Require Import ZArith Lia ZifyBool.
From S2P Require Import Prelude Utils HttpText QuicVarint HpackTable HpackDyn Hpack Chunked HpackRequest H1Scan H1Resp Qpack.

Open Scope list_scope.
Open Scope Z_scope.

Definition h3FrameData : Z := 0x00.
Definition h3FrameHeaders : Z := 0x01.
Definition h3FrameCancelPush : Z := 0x03.
Definition h3FrameSettings : Z := 0x04.
Definition h3FramePushPromise : Z := 0x05.
Definition h3FrameGoaway : Z := 0x07.
Definition h3FrameMaxPushID : Z := 0x0d.
Definition h3StreamControl : Z := 0x00.
Definition h3StreamPush : Z := 0x01.
Definition h3StreamQPACKEnc : Z := 0x02.
Definition h3StreamQPACKDec : Z := 0x03.
Definition h3SettingMaxHeaderListSize : Z := 0x06.
Definition h3SettingQPACKMaxTableCap : Z := 0x01.
Definition h3SettingQPACKBlockedStr : Z := 0x07.
Definition h3ErrStreamCreation : Z := 0x0103.
Definition h3ErrClosedCriticalStream : Z := 0x0104.
Definition h3ErrFrameUnexpected : Z := 0x0105.
Definition h3ErrFrame : Z := 0x0106.
Definition h3ErrExcessiveLoad : Z := 0x0107.
Definition h3ErrSettings : Z := 0x0109.
Definition h3ErrMissingSettings : Z := 0x010a.
Definition qpackErrEncoderStream : Z := 0x0201.
Definition qpackSetCapacityZero : Z := 0x20.
Definition h3MaxControlFramePayload : Z := 4096.
Definition h3MaxPushIDFramePayload : Z := 8.

Definition h3FrameTypeReservedFromHTTP2 (frameType : Z) : bool := (frameType =? 0x02) || (frameType =? 0x06) || (frameType =? 0x08) || (frameType =? 0x09).
Definition h3SettingReservedFromHTTP2 (id : Z) : bool := (0x02 <=? id) && (id <=? 0x05).

(** ** Frames *)

Definition h3AppendFrame (dst : bytes) (frameType : Z) (payload : bytes) : bytes := quicAppendVarint (quicAppendVarint dst frameType) (zlen payload) ++ payload.
Definition h3AppendSettingsFrame (dst : bytes) (fieldSectionLimit : Z) : bytes :=
  let payload := quicAppendVarint (quicAppendVarint [] h3SettingMaxHeaderListSize) fieldSectionLimit in
  let payload := quicAppendVarint (quicAppendVarint payload h3SettingQPACKMaxTableCap) 0 in
  let payload := quicAppendVarint (quicAppendVarint payload h3SettingQPACKBlockedStr) 0 in
  h3AppendFrame dst h3FrameSettings payload.

Definition h3AppendHeadersFrame (dst encodedHeaders : bytes) : bytes := h3AppendFrame dst h3FrameHeaders encodedHeaders.
Definition h3AppendDataFrame (dst data : bytes) : bytes := h3AppendFrame dst h3FrameData data.
Definition h3AppendStreamType (dst : bytes) (streamType : Z) : bytes := quicAppendVarint dst streamType.

(** What the server writes to its own control and QPACK streams. *)
Definition sendControlStream (fieldSectionLimit : Z) : bytes := h3AppendSettingsFrame (h3AppendStreamType [] h3StreamControl) fieldSectionLimit.
Definition sendGoAway (id : Z) : bytes := h3AppendFrame [] h3FrameGoaway (quicAppendVarint [] id).
Definition sendQPACKStreams : bytes * bytes := (h3AppendStreamType [] h3StreamQPACKEnc, h3AppendStreamType [] h3StreamQPACKDec).

(** [h3FrameReader.next] on what is left: the type, the payload and the rest. *)
Definition frame_next (data : bytes) : option (Z * bytes * bytes) :=
  if zlen data =? 0 then None
  else
    let '(ft, n) := quicParseVarint data in
    if n =? 0 then None
    else
      let data := zdrop n data in
      let '(fLen, n) := quicParseVarint data in
      if n =? 0 then None
      else
        let data := zdrop n data in
        if zlen data <? fLen then None else Some (ft, ztake fLen data, zdrop fLen data).

(** ** Request sections *)

Definition h3MaxFieldSectionSize : Z := 16384.
Definition h3FieldLineOverhead : Z := 32.

Definition h3FieldSectionSize (fields : list field) : Z := foldr (fun f n => zlen f.1 + zlen f.2 + h3FieldLineOverhead + n) 0 fields.
Definition h3FieldSectionLimit (h2HeaderListLimit : Z) : Z := Z.min h3MaxFieldSectionSize h2HeaderListLimit.

Definition h3ValidRequestTarget (target method : bytes) : bool :=
  if bytes_eqb target (str "*") then bytes_eqb method (str "OPTIONS")
  else match target with [] => false | c :: _ => (c =? 47) && forallb (fun c => negb ((c <=? 32) || (c =? 0x7f))) target end.

Inductive sectionErr := errH3FieldSectionTooLarge | errMalformed.

Fixpoint observeAll (m : hpackRequestMeta) (fields : list field) : option hpackRequestMeta :=
  match fields with [] => Some m | f :: fields => match observeHeader m f.1 f.2 with None => None | Some m => observeAll m fields end end.

Definition h3ValidateRequestSection (fields : list field) (limit : Z) : res sectionErr hpackRequestMeta :=
  if limit <? h3FieldSectionSize fields then Err errH3FieldSectionTooLarge
  else
    match observeAll (newMeta false) fields with
    | None => Err errMalformed
    | Some meta =>
        if negb (validate meta) then Err errMalformed
        else if negb (isH1Token (m_method meta)) then Err errMalformed
        else if seen meta hpackPseudoPath && negb (h3ValidRequestTarget (m_rawPath meta) (m_method meta)) then Err errMalformed
        else Ok meta
    end.

(** [bits.OnesCount8] of the mask. *)
Definition h3PseudoFieldCount (meta : hpackRequestMeta) : Z := foldr (fun i n => (if Z.testbit (m_pseudoMask meta) i then 1 else 0) + n) 0 (seqZ 0 8).

Definition sectionStatus (e : sectionErr) : Z := match e with errH3FieldSectionTooLarge => 431 | errMalformed => 400 end.
Definition qpackStatus (e : qpackErr) : Z := match e with qpackTooManyHeaders => 431 | _ => 400 end.

(** *** The cache of decoded blocks *)

Definition qpackBlockCacheMaxEntries : Z := 1024.
Definition qpackBlockCacheMaxBytes : Z := 2 ^ 20.

Record qpackCachedSection := mkSection { cs_regular : list field; cs_meta : hpackRequestMeta; cs_size : Z }.
Record qpackBlockCache := mkBlockCache { bc_m : gmap (list Z) qpackCachedSection; bc_bytes : Z }.

Definition hasRoomLocked (c : qpackBlockCache) (total : Z) : bool := (Z.of_nat (size (bc_m c)) <? qpackBlockCacheMaxEntries) && (bc_bytes c + total <=? qpackBlockCacheMaxBytes).
Definition blockCache_put (c : qpackBlockCache) (block : bytes) (headers : list field) : qpackBlockCache :=
  if negb (hasRoomLocked c (zlen block)) then c
  else
    let total := zlen block + foldr (fun h n => zlen h.1 + zlen h.2 + n) 0 headers in
    match h3ValidateRequestSection headers h3MaxFieldSectionSize with
    | Err _ => c
    | Ok meta =>
        let section := mkSection (zdrop (h3PseudoFieldCount meta) headers) meta (h3FieldSectionSize headers) in
        if hasRoomLocked c total then match bc_m c !! block with Some _ => c | None => mkBlockCache (<[block := section]> (bc_m c)) (bc_bytes c + total) end else c
    end.

(** The status of a refusal, or the request's fields. *)
Definition decodeRequestSection (c : qpackBlockCache) (limit : Z) (block : bytes) : res Z (hpackRequestMeta * list field) * qpackBlockCache :=
  match bc_m c !! block with
  | Some cached => if limit <? cs_size cached then (Err (sectionStatus errH3FieldSectionTooLarge), c) else (Ok (cs_meta cached, cs_regular cached), c)
  | None =>
      match qpackDecodeAppend block [] with
      | Err e => (Err (qpackStatus e), c)
      | Ok fields =>
          match h3ValidateRequestSection fields limit with
          | Err e => (Err (sectionStatus e), c)
          | Ok meta => (Ok (meta, zdrop (h3PseudoFieldCount meta) fields), blockCache_put c block fields)
          end
      end
  end.

Definition decodeTrailerSection (limit : Z) (block : bytes) : res Z (list field) :=
  match qpackDecodeAppend block [] with
  | Err e => Err (qpackStatus e)
  | Ok fields => if limit <? h3FieldSectionSize fields then Err 431 else match h2TrailerFields fields with Some trailers => Ok trailers | None => Err 400 end
  end.

(** ** A request stream *)

Record h3Config := mkH3Config { h3_limit : Z; h3_maxBody : Z; h3_misdirects : bytes -> bool }.
Definition h3_bodyTooLarge (cfg : h3Config) (n : Z) : bool := (0 <? h3_maxBody cfg) && (h3_maxBody cfg <? n).

Record h3Request := mkH3Request { q_meta : hpackRequestMeta; q_headers : list field; q_body : bytes; q_trailers : list field }.
Record h3Reading := mkReading { rd_headersSeen : bool; rd_trailersSeen : bool; rd_req : h3Request }.
Definition startReading : h3Reading := mkReading false false (mkH3Request (newMeta false) [] [] []).

(** The connection is closed with an application error, the stream gets an error
    response, or the request goes to a handler. *)
Inductive h3Outcome := H3Close (code : Z) | H3Answer (status : Z) | H3Dispatch (req : h3Request).

(** One frame: an outcome that ends the stream, or the state after it. *)
Definition h3Frame (cfg : h3Config) (c : qpackBlockCache) (rd : h3Reading) (frameType : Z) (payload : bytes) : (h3Outcome + h3Reading) * qpackBlockCache :=
  let req := rd_req rd in
  if frameType =? h3FrameHeaders then
    if rd_trailersSeen rd then (inl (H3Close h3ErrFrameUnexpected), c)
    else if rd_headersSeen rd then
      match decodeTrailerSection (h3_limit cfg) payload with
      | Err status => (inl (H3Answer status), c)
      | Ok trailers => (inr (mkReading true true (mkH3Request (q_meta req) (q_headers req) (q_body req) trailers)), c)
      end
    else
      match decodeRequestSection c (h3_limit cfg) payload with
      | (Err status, c) => (inl (H3Answer status), c)
      | (Ok (meta, headers), c) => (inr (mkReading true false (mkH3Request meta headers (q_body req) (q_trailers req))), c)
      end
  else if frameType =? h3FrameData then
    if negb (rd_headersSeen rd) || rd_trailersSeen rd then (inl (H3Close h3ErrFrameUnexpected), c)
    else
      let body := q_body req ++ payload in
      if h3_bodyTooLarge cfg (zlen body) then (inl (H3Answer 413), c)
      else (inr (mkReading (rd_headersSeen rd) (rd_trailersSeen rd) (mkH3Request (q_meta req) (q_headers req) body (q_trailers req))), c)
  else if (frameType =? h3FrameSettings) || (frameType =? h3FrameGoaway) || (frameType =? h3FrameMaxPushID) || (frameType =? h3FrameCancelPush) || (frameType =? h3FramePushPromise) then
    (inl (H3Close h3ErrFrameUnexpected), c)
  else if h3FrameTypeReservedFromHTTP2 frameType then (inl (H3Close h3ErrFrameUnexpected), c)
  else (inr rd, c).

(** After the last frame. *)
Definition h3Finish (cfg : h3Config) (rd : h3Reading) : h3Outcome :=
  let req := rd_req rd in
  let declared := declaredLength (q_meta req) in
  if negb (rd_headersSeen rd) || (zlen (m_path (q_meta req)) =? 0) then H3Answer 400
  else if (0 <=? declared) && negb (declared =? zlen (q_body req)) then H3Answer 400
  else if h3_misdirects cfg (m_authority (q_meta req)) then H3Answer 421
  else H3Dispatch req.

(** The loop of [handleRequestStream]; every frame takes at least two bytes, so
    the fuel given below is never used up. *)
Fixpoint h3RequestLoop (fuel : nat) (cfg : h3Config) (c : qpackBlockCache) (rd : h3Reading) (data : bytes) : option h3Outcome * qpackBlockCache :=
  match frame_next data with
  | None => (Some (if negb (zlen data =? 0) then H3Close h3ErrFrame else h3Finish cfg rd), c)
  | Some (frameType, payload, rest) =>
      match fuel with
      | O => (None, c)
      | S fuel =>
          match h3Frame cfg c rd frameType payload with
          | (inl o, c) => (Some o, c)
          | (inr rd, c) => h3RequestLoop fuel cfg c rd rest
          end
      end
  end.
Definition handleRequestStream (cfg : h3Config) (c : qpackBlockCache) (overflowed : bool) (data : bytes) : option h3Outcome * qpackBlockCache :=
  if overflowed then (Some (H3Answer 413), c) else h3RequestLoop (length data) cfg c startReading data.

(** ** Responses *)

Definition h3WriteResponse (cache : prefixCache) (date : bytes) (resp : Response) (serverName : bytes) : bytes * prefixCache :=
  let '(block, cache) := qpackEncodeResponseHeaders cache date (StatusCode resp) (ContentType resp) (headerContentLength resp) (r_Headers resp) serverName in
  let frames := h3AppendHeadersFrame [] block in
  let body := transmittedBodyBytes resp in
  (if 0 <? zlen body then h3AppendDataFrame frames body else frames, cache).

(** ** The peer's unidirectional streams *)

Inductive h3PeerStreamKind := h3PeerStreamUntyped | h3PeerStreamControl | h3PeerStreamQPACKEncoder | h3PeerStreamQPACKDecoder | h3PeerStreamIgnored.
#[export] Instance h3PeerStreamKind_eq_dec : EqDecision h3PeerStreamKind.
Proof. solve_decision. Defined.
Definition critical (k : h3PeerStreamKind) : bool := match k with h3PeerStreamControl | h3PeerStreamQPACKEncoder | h3PeerStreamQPACKDecoder => true | _ => false end.

Record h3PeerStream := mkPeer { ps_kind : h3PeerStreamKind; ps_pending : bytes; ps_skip : Z; ps_settingsSeen : bool }.
Definition newPeer : h3PeerStream := mkPeer h3PeerStreamUntyped [] 0 false.
(** Which of the peer's streams exist. *)
Record h3Seen := mkSeen { peerControlSeen : bool; peerEncoderSeen : bool; peerDecoderSeen : bool }.

Fixpoint settingsLoop3 (fuel : nat) (payload : bytes) (ids : list Z) : option Z :=
  match payload with
  | [] => None
  | _ =>
      match fuel with
      | O => None
      | S fuel =>
          let '(id, n1) := quicParseVarint payload in
          if n1 =? 0 then Some h3ErrFrame
          else
            let '(_, n2) := quicParseVarint (zdrop n1 payload) in
            if n2 =? 0 then Some h3ErrFrame
            else if h3SettingReservedFromHTTP2 id then Some h3ErrSettings
            else if existsb (Z.eqb id) ids then Some h3ErrSettings
            else settingsLoop3 fuel (zdrop (n1 + n2) payload) (id :: ids)
      end
  end.
(** The code of the error, if there is one. *)
Definition validatePeerSettings (payload : bytes) : option Z := settingsLoop3 (length payload) payload [].

(** The loop over the frames of the control stream: an error, or what is left to
    keep, how much to skip and whether settings were seen. *)
Fixpoint controlLoop (fuel : nat) (buf : bytes) (settingsSeen : bool) : Z + (bytes * Z * bool) :=
  match buf with
  | [] => inr ([], 0, settingsSeen)
  | _ =>
      match fuel with
      | O => inr (buf, 0, settingsSeen)
      | S fuel =>
          let '(frameType, n1) := quicParseVarint buf in
          if n1 =? 0 then inr (buf, 0, settingsSeen)
          else
            let '(len, n2) := quicParseVarint (zdrop n1 buf) in
            if n2 =? 0 then inr (buf, 0, settingsSeen)
            else
              let header := n1 + n2 in
              let bounded := (frameType =? h3FrameGoaway) || (frameType =? h3FrameMaxPushID) || (frameType =? h3FrameCancelPush) in
              if negb settingsSeen && negb (frameType =? h3FrameSettings) then inl h3ErrMissingSettings
              else if (frameType =? h3FrameSettings) && settingsSeen then inl h3ErrFrameUnexpected
              else if (frameType =? h3FrameSettings) && (h3MaxControlFramePayload <? len) then inl h3ErrExcessiveLoad
              else if bounded && (h3MaxPushIDFramePayload <? len) then inl h3ErrFrame
              else if (frameType =? h3FrameData) || (frameType =? h3FrameHeaders) || (frameType =? h3FramePushPromise) || h3FrameTypeReservedFromHTTP2 frameType then inl h3ErrFrameUnexpected
              else if negb (frameType =? h3FrameSettings) && negb bounded then
                let available := zlen buf - header in
                if available <? len then inr ([], len - available, settingsSeen) else controlLoop fuel (zdrop (header + len) buf) settingsSeen
              else if zlen buf - header <? len then inr (buf, 0, settingsSeen)
              else
                let payload := zslice buf header (header + len) in
                if frameType =? h3FrameSettings then
                  match validatePeerSettings payload with Some code => inl code | None => controlLoop fuel (zdrop (header + len) buf) true end
                else
                  let '(_, n) := quicParseVarint payload in
                  if (n =? 0) || negb (n =? zlen payload) then inl h3ErrFrame else controlLoop fuel (zdrop (header + len) buf) settingsSeen
      end
  end.

Definition consumeControlStream (st : h3PeerStream) (data : bytes) : Z + h3PeerStream :=
  if (0 <? ps_skip st) && (zlen data <=? ps_skip st) then inr (mkPeer (ps_kind st) (ps_pending st) (ps_skip st - zlen data) (ps_settingsSeen st))
  else
    let data := if 0 <? ps_skip st then zdrop (ps_skip st) data else data in
    let buf := if 0 <? zlen (ps_pending st) then ps_pending st ++ data else data in
    match controlLoop (length buf) buf (ps_settingsSeen st) with
    | inl code => inl code
    | inr (pending, skip, settingsSeen) => inr (mkPeer (ps_kind st) pending skip settingsSeen)
    end.

(** [assignPeerStreamType]; an ignored stream is told to stop. *)
Definition assignPeerStreamType (seen : h3Seen) (st : h3PeerStream) (streamType : Z) : Z + (h3Seen * h3PeerStream) :=
  let kind k := mkPeer k (ps_pending st) (ps_skip st) (ps_settingsSeen st) in
  if streamType =? h3StreamControl then
    if peerControlSeen seen then inl h3ErrStreamCreation else inr (mkSeen true (peerEncoderSeen seen) (peerDecoderSeen seen), kind h3PeerStreamControl)
  else if streamType =? h3StreamQPACKEnc then
    if peerEncoderSeen seen then inl h3ErrStreamCreation else inr (mkSeen (peerControlSeen seen) true (peerDecoderSeen seen), kind h3PeerStreamQPACKEncoder)
  else if streamType =? h3StreamQPACKDec then
    if peerDecoderSeen seen then inl h3ErrStreamCreation else inr (mkSeen (peerControlSeen seen) (peerEncoderSeen seen) true, kind h3PeerStreamQPACKDecoder)
  else if streamType =? h3StreamPush then inl h3ErrStreamCreation
  else inr (seen, kind h3PeerStreamIgnored).

Definition consumeTyped (seen : h3Seen) (st : h3PeerStream) (data : bytes) : Z + (h3Seen * h3PeerStream) :=
  match ps_kind st with
  | h3PeerStreamControl => match consumeControlStream st data with inl code => inl code | inr st => inr (seen, st) end
  | h3PeerStreamQPACKEncoder => if forallb (fun b => b =? qpackSetCapacityZero) data then inr (seen, st) else inl qpackErrEncoderStream
  | _ => inr (seen, st)
  end.
Definition consumePeerStream (seen : h3Seen) (st : h3PeerStream) (data : bytes) : Z + (h3Seen * h3PeerStream) :=
  match ps_kind st with
  | h3PeerStreamUntyped =>
      let pending := ps_pending st ++ data in
      let '(streamType, n) := quicParseVarint pending in
      if n =? 0 then inr (seen, mkPeer (ps_kind st) pending (ps_skip st) (ps_settingsSeen st))
      else
        match assignPeerStreamType seen (mkPeer (ps_kind st) [] (ps_skip st) (ps_settingsSeen st)) streamType with
        | inl code => inl code
        | inr (seen, st) => consumeTyped seen st (zdrop n pending)
        end
  | _ => consumeTyped seen st data
  end.

(** The connection's part: the streams by their ids; [inl] closes it. *)
Abbreviation h3Peers := (gmap Z h3PeerStream * h3Seen)%type.
Definition peerStreamEnded (ps : h3Peers) (id : Z) (st : h3PeerStream) : Z + h3Peers :=
  if critical (ps_kind st) then inl h3ErrClosedCriticalStream else inr (delete id ps.1, ps.2).
Definition readPeerStream (ps : h3Peers) (id : Z) (data : bytes) (fin : bool) : Z + h3Peers :=
  let st := default newPeer (ps.1 !! id) in
  match consumePeerStream ps.2 st data with
  | inl code => inl code
  | inr (seen, st) => if fin then peerStreamEnded (<[id := st]> ps.1, seen) id st else inr (<[id := st]> ps.1, seen)
  end.
Definition peerStreamReset (ps : h3Peers) (id : Z) : Z + h3Peers :=
  match ps.1 !! id with
  | Some st => if critical (ps_kind st) then inl h3ErrClosedCriticalStream else inr (delete id ps.1, ps.2)
  | None => inr (delete id ps.1, ps.2)
  end.
