(* ===== verification/H3Peers.v ===== *)
(** The peer's unidirectional streams of HTTP/3: how the bytes are cut into reads
    does not matter, and which settings are accepted. *)
From stdpp Require Import base list numbers strings gmap.
From Stdlib Require Import ZArith Lia ZifyBool.
From S2P Require Import Prelude Utils QuicVarint HpackInt HpackDyn Hpack HpackProofs QpackProofs H3.

Open Scope list_scope.
Open Scope Z_scope.

(** ** More bytes after a number *)

Lemma parse_stable a b v n : quicParseVarint a = (v, n) -> n <> 0 -> quicParseVarint (a ++ b) = (v, n) /\ 0 < n <= zlen a.
Proof.
  intros E Hn. assert (Hx : forall x k, 0 < k <= zlen a -> (x, k) = (v, n) -> (x, k) = (v, n) /\ 0 < n <= zlen a) by (intros x k Hk H; injection H as -> ->; done).
  assert (H0 : (0, 0) = (v, n) -> False) by (intros H; injection H as _ <-; done). revert E. unfold quicParseVarint. rewrite zlen_app. pose proof (zlen_nonneg a). pose proof (zlen_nonneg b).
  destruct (zlen a =? 0) eqn:E0; [by intros ?%H0 |]. replace (zlen a + zlen b =? 0) with false by lia. cbv zeta. rewrite (znth_app a b 0) by lia. set (p := Z.shiftr (znth a 0) 6).
  destruct (p =? 0); [apply Hx; lia |]. destruct (p =? 1); [| destruct (p =? 2)].
  - destruct (zlen a <? 2) eqn:E; [by intros ?%H0 |]. replace (_ <? 2) with false by lia. rewrite znth_app by lia. apply Hx. lia.
  - destruct (zlen a <? 4) eqn:E; [by intros ?%H0 |]. replace (_ <? 4) with false by lia. rewrite !znth_app by lia. apply Hx. lia.
  - destruct (zlen a <? 8) eqn:E; [by intros ?%H0 |]. replace (_ <? 8) with false by lia. rewrite ztake_app_le by lia. apply Hx. lia.
Qed.

(** ** Frames written *)

Lemma append_reads v k : 0 <= v < 2 ^ 62 -> quicParseVarint (quicAppendVarint [] v ++ k) = (v, zlen (quicAppendVarint [] v)) /\ 0 < zlen (quicAppendVarint [] v) <= 8.
Proof. intros Hv. rewrite parse_append, quicAppendVarint_len by (unfold is_u64; lia). rewrite Z.mod_small by lia. split; [done |]. unfold varint_len. repeat split_if; lia. Qed.
Lemma frame_next_append t payload rest : 0 <= t < 2 ^ 62 -> zlen payload < 2 ^ 62 -> frame_next (h3AppendFrame [] t payload ++ rest) = Some (t, payload, rest).
Proof.
  intros Ht Hp. pose proof (zlen_nonneg payload). pose proof append_reads as Hlen.
  unfold h3AppendFrame, frame_next. rewrite quicAppendVarint_dst, <- !app_assoc. destruct (Hlen t (quicAppendVarint [] (zlen payload) ++ payload ++ rest) Ht) as [-> H1].
  rewrite zlen_app. pose proof (zlen_nonneg (quicAppendVarint [] (zlen payload) ++ payload ++ rest)). replace (_ + _ =? 0) with false by lia. replace (_ =? 0) with false by lia. cbv zeta. rewrite zdrop_app_exact.
  destruct (Hlen (zlen payload) (payload ++ rest) ltac:(lia)) as [-> H2]. replace (_ =? 0) with false by lia. rewrite zdrop_app_exact, zlen_app. pose proof (zlen_nonneg rest). replace (_ <? _) with false by lia.
  by rewrite ztake_app_exact, zdrop_app_exact.
Qed.
Lemma h3AppendFrame_dst dst t payload : h3AppendFrame dst t payload = dst ++ h3AppendFrame [] t payload.
Proof. unfold h3AppendFrame. rewrite (quicAppendVarint_dst (quicAppendVarint dst t)), (quicAppendVarint_dst dst), (quicAppendVarint_dst (quicAppendVarint [] t)). by rewrite <- !app_assoc. Qed.

(** The header of a frame of the control stream. *)
Definition controlHeader (buf : bytes) : option (Z * Z * Z) :=
  let '(frameType, n1) := quicParseVarint buf in
  if n1 =? 0 then None else let '(len, n2) := quicParseVarint (zdrop n1 buf) in if n2 =? 0 then None else Some (frameType, len, n1 + n2).

Lemma controlHeader_stable a b h : controlHeader a = Some h -> controlHeader (a ++ b) = Some h /\ 0 < h.2 <= zlen a.
Proof.
  unfold controlHeader. destruct (quicParseVarint a) as [t n1] eqn:E1. destruct (n1 =? 0) eqn:N1; [done |]. destruct (parse_stable a b t n1 E1 ltac:(lia)) as [-> B1]. rewrite N1. rewrite zdrop_app_le by lia.
  destruct (quicParseVarint (zdrop n1 a)) as [len n2] eqn:E2. destruct (n2 =? 0) eqn:N2; [done |]. destruct (parse_stable _ b len n2 E2 ltac:(lia)) as [-> B2]. rewrite N2. intros [= <-]. split; [done |]. cbn [snd]. rewrite zlen_drop in B2 by lia. lia.
Qed.

(** What a frame does once its header is there. *)
Inductive controlAct := actFail (code : Z) | actSkip | actSettings | actInt.
Definition controlAct_of (settingsSeen : bool) (frameType len : Z) : controlAct :=
  let bounded := (frameType =? h3FrameGoaway) || (frameType =? h3FrameMaxPushID) || (frameType =? h3FrameCancelPush) in
  if negb settingsSeen && negb (frameType =? h3FrameSettings) then actFail h3ErrMissingSettings
  else if (frameType =? h3FrameSettings) && settingsSeen then actFail h3ErrFrameUnexpected
  else if (frameType =? h3FrameSettings) && (h3MaxControlFramePayload <? len) then actFail h3ErrExcessiveLoad
  else if bounded && (h3MaxPushIDFramePayload <? len) then actFail h3ErrFrame
  else if (frameType =? h3FrameData) || (frameType =? h3FrameHeaders) || (frameType =? h3FramePushPromise) || h3FrameTypeReservedFromHTTP2 frameType then actFail h3ErrFrameUnexpected
  else if negb (frameType =? h3FrameSettings) && negb bounded then actSkip
  else if frameType =? h3FrameSettings then actSettings else actInt.
(** The error of a whole payload. *)
Definition payloadFault (act : controlAct) (payload : bytes) : option Z :=
  match act with
  | actSettings => validatePeerSettings payload
  | actInt => let '(_, n) := quicParseVarint payload in if (n =? 0) || negb (n =? zlen payload) then Some h3ErrFrame else None
  | _ => None
  end.
Definition settingsAfter (act : controlAct) (settingsSeen : bool) : bool := match act with actSettings => true | _ => settingsSeen end.

Lemma controlLoop_step fuel buf s : buf <> [] -> controlLoop (S fuel) buf s =
  match controlHeader buf with
  | None => inr (buf, 0, s)
  | Some (t, len, header) =>
      match controlAct_of s t len with
      | actFail code => inl code
      | act =>
          if zlen buf - header <? len then (match act with actSkip => inr ([], len - (zlen buf - header), s) | _ => inr (buf, 0, s) end)
          else match payloadFault act (zslice buf header (header + len)) with Some code => inl code | None => controlLoop fuel (zdrop (header + len) buf) (settingsAfter act s) end
      end
  end.
Proof.
  intros Hb. destruct buf as [| b buf]; [done |]. cbn [controlLoop]. unfold controlHeader. destruct (quicParseVarint (b :: buf)) as [t n1]. destruct (n1 =? 0); [done |]. destruct (quicParseVarint (zdrop n1 (b :: buf))) as [len n2]. destruct (n2 =? 0); [done |]. cbv zeta. unfold controlAct_of. cbv zeta.
  repeat match goal with |- context [if ?c then inl _ else _] => destruct c; [done |] end. destruct (negb (t =? h3FrameSettings) && negb _); [done |]. cbn [payloadFault settingsAfter]. destruct (t =? h3FrameSettings); cbn [payloadFault settingsAfter].
  - destruct (_ <? len); [done |]. by destruct (validatePeerSettings _).
  - destruct (_ <? len); [done |]. destruct (quicParseVarint (zslice _ _ _)) as [v n]. by destruct (_ || _).
Qed.

(** ** The control stream *)

Definition controlRun (buf : bytes) (s : bool) : Z + (bytes * Z * bool) := controlLoop (length buf) buf s.
Definition resume (x : bytes * Z * bool) (data : bytes) : Z + (bytes * Z * bool) :=
  let '(pending, skip, s) := x in
  if (0 <? skip) && (zlen data <=? skip) then inr (pending, skip - zlen data, s) else controlRun (pending ++ (if 0 <? skip then zdrop skip data else data)) s.
Definition control_ok (x : bytes * Z * bool) : Prop := let '(pending, skip, _) := x in bytes_ok pending /\ 0 <= skip /\ (0 < skip -> pending = []).

Lemma controlHeader_len buf t len header : bytes_ok buf -> controlHeader buf = Some (t, len, header) -> 0 <= len.
Proof.
  intros Hok. unfold controlHeader. destruct (quicParseVarint buf) as [t' n1]. destruct (n1 =? 0); [done |]. destruct (quicParseVarint (zdrop n1 buf)) as [len' n2] eqn:E. destruct (n2 =? 0) eqn:N; [done |]. intros [= <- <- <-].
  destruct (parse_inv _ _ _ (zdrop_ok n1 buf Hok) E) as [[_ ->] | (? & ? & _ & _ & _ & H & _)]; [done | lia].
Qed.

Lemma controlLoop_fuel fuel : forall fuel' buf s, bytes_ok buf -> (length buf <= fuel)%nat -> (length buf <= fuel')%nat -> controlLoop fuel buf s = controlLoop fuel' buf s.
Proof.
  induction fuel as [| fuel IH]; intros fuel' [| b buf] s Hok H1 H2; [by destruct fuel' | cbn in H1; lia | by destruct fuel' |]. destruct fuel' as [| fuel']; [cbn in H2; lia |]. rewrite !controlLoop_step by done.
  destruct (controlHeader (b :: buf)) as [[[t len] header] |] eqn:E; [| done]. pose proof (controlHeader_len _ _ _ _ Hok E). destruct (controlHeader_stable _ [] _ E) as [_ B]. cbn [snd] in B.
  assert (Hl : (length (zdrop (header + len) (b :: buf)) <= length buf)%nat) by (apply zdrop_shrinks; lia). cbn in H1, H2. destruct (controlAct_of s t len); [done | | |]; (destruct (_ <? len); [done |]); (cbv zeta; match goal with |- context [payloadFault ?a ?p] => destruct (payloadFault a p) end; [done |]); (apply IH; [by apply zdrop_ok | lia | lia]).
Qed.

Lemma controlRun_step buf s : bytes_ok buf -> buf <> [] -> controlRun buf s =
  match controlHeader buf with
  | None => inr (buf, 0, s)
  | Some (t, len, header) =>
      match controlAct_of s t len with
      | actFail code => inl code
      | act =>
          if zlen buf - header <? len then (match act with actSkip => inr ([], len - (zlen buf - header), s) | _ => inr (buf, 0, s) end)
          else match payloadFault act (zslice buf header (header + len)) with Some code => inl code | None => controlRun (zdrop (header + len) buf) (settingsAfter act s) end
      end
  end.
Proof.
  intros Hok Hne. destruct buf as [| b buf]; [done |]. unfold controlRun at 1. cbn [length]. rewrite controlLoop_step by done. destruct (controlHeader (b :: buf)) as [[[t len] header] |] eqn:E; [| done].
  pose proof (controlHeader_len _ _ _ _ Hok E). destruct (controlHeader_stable _ [] _ E) as [_ B]. cbn [snd] in B. assert (Hl : (length (zdrop (header + len) (b :: buf)) <= length buf)%nat) by (apply zdrop_shrinks; lia).
  assert (Hf : forall s', controlLoop (length buf) (zdrop (header + len) (b :: buf)) s' = controlRun (zdrop (header + len) (b :: buf)) s') by (intros; apply controlLoop_fuel; [by apply zdrop_ok | done | done]).
  destruct (controlAct_of s t len); [done | | |]; cbv zeta; (destruct (_ <? len); [done |]); (match goal with |- context [payloadFault ?a ?p] => destruct (payloadFault a p) end; [done | apply Hf]).
Qed.

Lemma zslice_app_le (a b : bytes) i j : 0 <= i -> j <= zlen a -> zslice (a ++ b) i j = zslice a i j.
Proof.
  intros Hi Hj. unfold zslice. destruct (decide (i <= j)); [rewrite zdrop_app_le by lia; apply ztake_app_le; rewrite zlen_drop by lia; lia |].
  unfold ztake. by replace (Z.to_nat (j - i)) with 0%nat by lia.
Qed.

Lemma controlRun_app a : forall b s, bytes_ok a -> bytes_ok b -> controlRun (a ++ b) s = match controlRun a s with inl e => inl e | inr x => resume x b end.
Proof.
  induction a as [a IH] using (well_founded_induction (Wf_nat.well_founded_ltof _ length)). intros b s Ha Hb. destruct (decide (a = [])) as [-> | Hne]; [done |].
  assert (Hab : bytes_ok (a ++ b)) by (by apply Forall_app). rewrite (controlRun_step a) by done. destruct (controlHeader a) as [[[t len] header] |] eqn:E; [| by cbn].
  rewrite (controlRun_step (a ++ b)) by (done || by destruct a). pose proof (controlHeader_len _ _ _ _ Ha E). destruct (controlHeader_stable a b _ E) as [-> B]. cbn [snd] in B. rewrite zlen_app. pose proof (zlen_nonneg b).
  destruct (zlen a - header <? len) eqn:El.
  - destruct (controlAct_of s t len) eqn:Ea; [done | | |].
    + cbn [resume]. cbv zeta. replace (0 <? len - (zlen a - header)) with true by lia. cbn [andb payloadFault settingsAfter]. assert (Hd : zdrop (header + len) (a ++ b) = zdrop (len - (zlen a - header)) b).
      { unfold zdrop. rewrite drop_app_ge by (unfold zlen in *; lia). f_equal. unfold zlen in *. lia. }
      destruct (zlen b <=? len - (zlen a - header)) eqn:E1.
      * destruct (zlen a + zlen b - header <? len) eqn:E2; [do 2 f_equal; by rewrite (ltac:(lia) : len - (zlen a + zlen b - header) = len - (zlen a - header) - zlen b) |]. rewrite Hd. assert (zlen b = len - (zlen a - header)) as Heq by lia. rewrite <- Heq, zdrop_all by lia. unfold controlRun. cbn. f_equal. f_equal. f_equal. lia.
      * replace (_ <? len) with false by lia. by rewrite Hd.
    + cbn [resume]. change (0 <? 0) with false. cbn [andb]. rewrite (controlRun_step (a ++ b)) by (done || by destruct a). destruct (controlHeader_stable a b _ E) as [-> _]. by rewrite Ea, zlen_app.
    + cbn [resume]. change (0 <? 0) with false. cbn [andb]. rewrite (controlRun_step (a ++ b)) by (done || by destruct a). destruct (controlHeader_stable a b _ E) as [-> _]. by rewrite Ea, zlen_app.
  - assert (Hrest : forall s', controlRun (zdrop (header + len) (a ++ b)) s' = match controlRun (zdrop (header + len) a) s' with inl e => inl e | inr x => resume x b end).
    { intros s'. rewrite zdrop_app_le by lia. apply IH; [| by apply zdrop_ok | done]. unfold Wf_nat.ltof, zdrop. rewrite length_drop. unfold zlen in *. lia. }
    replace (zlen a + zlen b - header <? len) with false by lia. rewrite zslice_app_le by lia. destruct (controlAct_of s t len); [done | | |]; (cbv zeta; match goal with |- context [payloadFault ?a ?p] => destruct (payloadFault a p) end; [done | apply Hrest]).
Qed.

Lemma controlRun_ok buf : forall s x, bytes_ok buf -> controlRun buf s = inr x -> control_ok x.
Proof.
  induction buf as [buf IH] using (well_founded_induction (Wf_nat.well_founded_ltof _ length)). intros s x Hok. destruct (decide (buf = [])) as [-> | Hne]; [intros [= <-]; done |]. rewrite controlRun_step by done.
  destruct (controlHeader buf) as [[[t len] header] |] eqn:E; [| intros [= <-]; split_and!; [done | lia | intros; exfalso; lia]]. pose proof (controlHeader_len _ _ _ _ Hok E). destruct (controlHeader_stable buf [] _ E) as [_ B]. cbn [snd] in B.
  assert (Hrest : forall s', controlRun (zdrop (header + len) buf) s' = inr x -> control_ok x).
  { intros s'. apply IH; [| by apply zdrop_ok]. unfold Wf_nat.ltof, zdrop. rewrite length_drop. unfold zlen in *. lia. }
  destruct (controlAct_of s t len); [done | | |]; (destruct (_ <? len) eqn:El; [intros [= <-]; split_and!; first [done | lia | (intros; exfalso; lia) | apply Forall_nil_2] |]); (cbv zeta; match goal with |- context [payloadFault ?a ?p] => destruct (payloadFault a p) end; [done | apply Hrest]).
Qed.

Lemma resume_ok x data x' : control_ok x -> bytes_ok data -> resume x data = inr x' -> control_ok x'.
Proof.
  destruct x as [[p skip] s]. intros (H1 & H2 & H3) Hd. cbn [resume]. destruct (_ && _) eqn:E; [intros [= <-]; split_and!; [done | lia |]; intros; apply H3; lia |]. apply controlRun_ok. apply Forall_app. split; [done |]. destruct (0 <? skip); [by apply zdrop_ok | done].
Qed.
Lemma resume_app x a b : control_ok x -> bytes_ok a -> bytes_ok b -> resume x (a ++ b) = match resume x a with inl e => inl e | inr x => resume x b end.
Proof.
  destruct x as [[p skip] s]. intros (H1 & H2 & H3) Ha Hb. cbn [resume]. rewrite zlen_app. pose proof (zlen_nonneg a). pose proof (zlen_nonneg b). destruct (0 <? skip) eqn:Es; cbn [andb].
  - specialize (H3 ltac:(lia)). subst p. destruct (zlen a <=? skip) eqn:Ea.
    + cbn [resume app]. destruct (0 <? skip - zlen a) eqn:E1; cbn [andb].
      * replace (zlen b <=? skip - zlen a) with (zlen a + zlen b <=? skip) by lia. destruct (zlen a + zlen b <=? skip); [do 2 f_equal; by rewrite (ltac:(lia) : skip - (zlen a + zlen b) = skip - zlen a - zlen b) |]. f_equal. unfold zdrop. rewrite drop_app_ge by (unfold zlen in *; lia). f_equal. unfold zlen in *. lia.
      * assert (skip = zlen a) as -> by lia. rewrite zdrop_app_exact. destruct (zlen a + zlen b <=? zlen a) eqn:E2; [| done]. assert (b = []) as -> by (destruct b; [done | rewrite zlen_cons in *; pose proof (zlen_nonneg b); lia]).
        change (zlen (@nil Z)) with 0. unfold controlRun. cbn. f_equal. f_equal. f_equal. lia.
    + replace (zlen a + zlen b <=? skip) with false by lia. cbn [app]. rewrite zdrop_app_le by lia. apply controlRun_app; [by apply zdrop_ok | done].
  - rewrite app_assoc. apply controlRun_app; [by apply Forall_app | done].
Qed.

(** ** One stream *)

Definition peer_ok (st : h3PeerStream) : Prop := control_ok (ps_pending st, ps_skip st, ps_settingsSeen st).

Lemma consumeControlStream_resume st data : consumeControlStream st data =
  match resume (ps_pending st, ps_skip st, ps_settingsSeen st) data with inl code => inl code | inr (p, skip, s) => inr (mkPeer (ps_kind st) p skip s) end.
Proof.
  unfold consumeControlStream. cbn [resume]. destruct (_ && _); [done |]. cbv zeta. unfold controlRun. destruct (ps_pending st) as [| b p]; [done |]. rewrite zlen_cons. pose proof (zlen_nonneg p). by replace (0 <? 1 + zlen p) with true by lia.
Qed.

Lemma consumeTyped_ok seen st data seen' st' : peer_ok st -> bytes_ok data -> consumeTyped seen st data = inr (seen', st') -> peer_ok st' /\ seen' = seen /\ ps_kind st' = ps_kind st.
Proof.
  intros Hs Hd. unfold consumeTyped. destruct (ps_kind st) eqn:Ek; try (intros [= <- <-]; by rewrite Ek).
  - rewrite consumeControlStream_resume. destruct (resume _ data) as [code | [[p skip] s]] eqn:E; [done |]. intros [= <- <-]. split; [exact (resume_ok _ _ _ Hs Hd E) | by cbn].
  - destruct (forallb _ data); [| done]. intros [= <- <-]. by rewrite Ek.
Qed.
Lemma consumeTyped_app seen st a b : peer_ok st -> bytes_ok a -> bytes_ok b -> consumeTyped seen st (a ++ b) = match consumeTyped seen st a with inl e => inl e | inr (seen, st) => consumeTyped seen st b end.
Proof.
  intros Hs Ha Hb. unfold consumeTyped. destruct (ps_kind st) eqn:Ek; try (by rewrite Ek).
  - rewrite !consumeControlStream_resume, resume_app by done. destruct (resume _ a) as [code | [[p skip] s]]; [done |]. cbn [ps_kind]. rewrite Ek, consumeControlStream_resume. cbn [ps_pending ps_skip ps_settingsSeen ps_kind]. by destruct (resume _ b) as [code | [[p' skip'] s']]; rewrite ?Ek.
  - rewrite forallb_app. destruct (forallb _ a); cbn [andb]; [by rewrite Ek | done].
Qed.

Lemma assign_ok seen st t seen' st' : assignPeerStreamType seen st t = inr (seen', st') -> ps_kind st' <> h3PeerStreamUntyped /\ ps_pending st' = ps_pending st /\ ps_skip st' = ps_skip st /\ ps_settingsSeen st' = ps_settingsSeen st.
Proof. unfold assignPeerStreamType. cbv zeta. repeat (match goal with |- context [if ?b then _ else _] => destruct b end; try done); by intros [= <- <-]. Qed.

(** Reads that give the type later, or at once. *)
Lemma consumePeerStream_typed seen st data : ps_kind st <> h3PeerStreamUntyped -> consumePeerStream seen st data = consumeTyped seen st data.
Proof. unfold consumePeerStream. by destruct (ps_kind st). Qed.

Lemma consumePeerStream_ok seen st data seen' st' : peer_ok st -> bytes_ok data -> (ps_kind st = h3PeerStreamUntyped -> ps_skip st = 0) -> consumePeerStream seen st data = inr (seen', st') ->
  peer_ok st' /\ (ps_kind st' = h3PeerStreamUntyped -> ps_skip st' = 0).
Proof.
  intros Hs Hd Hk. destruct (decide (ps_kind st = h3PeerStreamUntyped)) as [Eu | Hu].
  - unfold consumePeerStream. rewrite Eu. cbv zeta. pose proof Hs as (H1 & H2 & H3). assert (Hall : bytes_ok (ps_pending st ++ data)) by (by apply Forall_app). destruct (quicParseVarint _) as [t n]. destruct (n =? 0).
    + intros [= <- <-]. split; [| intros _; exact (Hk Eu)]. split_and!; [exact Hall | exact H2 |]. cbn [ps_skip]. rewrite (Hk Eu). intros; lia.
    + destruct (assignPeerStreamType _ _ t) as [code | [seen1 st1]] eqn:E; [done |]. apply assign_ok in E as (K1 & K2 & K3 & K4). cbn [ps_pending ps_skip ps_settingsSeen] in *. intros E.
      apply consumeTyped_ok in E as (R1 & _ & R2); [split; [done |]; intros; congruence | | by apply zdrop_ok]. split_and!; rewrite ?K2, ?K3; [apply Forall_nil_2 | exact H2 | done].
  - rewrite consumePeerStream_typed by done. intros E. apply consumeTyped_ok in E as (R1 & _ & R2); [split; [done |]; intros; congruence | done | done].
Qed.

Lemma consumePeerStream_app seen st a b : peer_ok st -> bytes_ok a -> bytes_ok b -> consumePeerStream seen st (a ++ b) = match consumePeerStream seen st a with inl e => inl e | inr (seen, st) => consumePeerStream seen st b end.
Proof.
  intros Hs Ha Hb. destruct (decide (ps_kind st = h3PeerStreamUntyped)) as [Eu | Hu].
  2:{ rewrite !consumePeerStream_typed, consumeTyped_app by done. destruct (consumeTyped seen st a) as [code | [seen' st']] eqn:E; [done |]. apply consumeTyped_ok in E as (_ & _ & R2); [| done | done]. symmetry. apply consumePeerStream_typed. congruence. }
  unfold consumePeerStream at 1 2. rewrite Eu. cbv zeta. rewrite app_assoc. destruct (quicParseVarint (ps_pending st ++ a)) as [t n] eqn:E. destruct (n =? 0) eqn:En.
  - unfold consumePeerStream. cbn [ps_kind ps_pending ps_skip ps_settingsSeen]. done.
  - destruct (parse_stable _ b t n E ltac:(lia)) as [-> B]. rewrite En. destruct (assignPeerStreamType _ _ t) as [code | [seen1 st1]] eqn:E1; [done |]. apply assign_ok in E1 as (K1 & K2 & K3 & K4). cbn [ps_pending ps_skip ps_settingsSeen] in *.
    pose proof Hs as (H1 & H2 & H3). assert (Hall : bytes_ok (ps_pending st ++ a)) by (by apply Forall_app). assert (Hs1 : peer_ok st1) by (split_and!; rewrite ?K2, ?K3; [apply Forall_nil_2 | exact H2 | done]).
    rewrite zdrop_app_le by lia. rewrite consumeTyped_app by (done || by apply zdrop_ok). destruct (consumeTyped seen1 st1 _) as [code | [seen' st']] eqn:E2; [done |]. apply consumeTyped_ok in E2 as (_ & _ & R2); [| done | by apply zdrop_ok]. symmetry. apply consumePeerStream_typed. congruence.
Qed.

(** ** The connection *)

Inductive peerOp := PeerRead (id : Z) (data : bytes) (fin : bool) | PeerReset (id : Z).
Definition peerStep (ps : h3Peers) (op : peerOp) : Z + h3Peers := match op with PeerRead id data fin => readPeerStream ps id data fin | PeerReset id => peerStreamReset ps id end.
Definition peersFrom (start : Z + h3Peers) (ops : list peerOp) : Z + h3Peers := foldl (fun acc op => match acc with inl e => inl e | inr ps => peerStep ps op end) start ops.
Definition peerRun : list peerOp -> Z + h3Peers := peersFrom (inr (∅, mkSeen false false false)).

Definition op_ok (op : peerOp) : Prop := match op with PeerRead _ data _ => bytes_ok data | PeerReset _ => True end.
Definition stream_ok (st : h3PeerStream) : Prop := peer_ok st /\ (ps_kind st = h3PeerStreamUntyped -> ps_skip st = 0).
Definition peers_ok (ps : h3Peers) : Prop := forall id st, ps.1 !! id = Some st -> stream_ok st.

Lemma newPeer_ok : stream_ok newPeer.
Proof. split; [| done]. split_and!; [apply Forall_nil_2 | done | done]. Qed.
Lemma default_ok ps id : peers_ok ps -> stream_ok (default newPeer (ps.1 !! id)).
Proof. intros H. destruct (ps.1 !! id) eqn:E; [exact (H _ _ E) | exact newPeer_ok]. Qed.
Lemma peers_delete (ps : h3Peers) m id seen : (forall k st, m !! k = Some st -> stream_ok st) -> peers_ok (delete id m, seen).
Proof. intros H k st. cbn [fst]. destruct (decide (id = k)) as [-> | Hne]; [by rewrite lookup_delete_eq | rewrite lookup_delete_ne by done; apply H]. Qed.
Lemma insert_ok (ps : h3Peers) id st : peers_ok ps -> stream_ok st -> forall k st', <[id := st]> ps.1 !! k = Some st' -> stream_ok st'.
Proof. intros H Hs k st'. destruct (decide (id = k)) as [-> | Hne]; [rewrite lookup_insert_eq; by intros [= <-] | rewrite lookup_insert_ne by done; apply H]. Qed.

Lemma peerStep_ok ps op ps' : peers_ok ps -> op_ok op -> peerStep ps op = inr ps' -> peers_ok ps'.
Proof.
  intros Hp Ho. destruct op as [id data fin | id]; cbn [peerStep op_ok] in *.
  - unfold readPeerStream. cbv zeta. pose proof (default_ok ps id Hp) as [Hs Hk]. destruct (consumePeerStream _ _ data) as [code | [seen st]] eqn:E; [done |]. pose proof (consumePeerStream_ok _ _ _ _ _ Hs Ho Hk E) as Hst. pose proof (insert_ok ps id st Hp Hst) as Hi.
    destruct fin; [unfold peerStreamEnded; destruct (critical _); [done |]; intros [= <-]; by apply peers_delete | intros [= <-]; exact Hi].
  - unfold peerStreamReset. destruct (ps.1 !! id); [destruct (critical _); [done |] |]; intros [= <-]; by apply peers_delete.
Qed.
Lemma peersFrom_ok ops : forall start ps, (forall p, start = inr p -> peers_ok p) -> Forall op_ok ops -> peersFrom start ops = inr ps -> peers_ok ps.
Proof.
  induction ops as [| op ops IH]; intros start ps Hs Ho; [apply Hs |]. apply Forall_cons in Ho as [H1 Ho]. unfold peersFrom. cbn [foldl]. apply IH; [| done]. intros p. destruct start as [e | p0]; [done |]. apply peerStep_ok; [by apply Hs | done].
Qed.

Lemma readPeerStream_app ps id a b fin : peers_ok ps -> bytes_ok a -> bytes_ok b -> readPeerStream ps id (a ++ b) fin = match readPeerStream ps id a false with inl e => inl e | inr ps => readPeerStream ps id b fin end.
Proof.
  intros Hp Ha Hb. unfold readPeerStream. cbv zeta. destruct (default_ok ps id Hp) as [Hs _]. rewrite consumePeerStream_app by done. destruct (consumePeerStream _ _ a) as [code | [seen st]]; [done |]. cbn [fst snd]. rewrite lookup_insert_eq. cbn [from_option]. unfold Datatypes.id.
  destruct (consumePeerStream seen st b) as [code | [seen' st']]; [done |]. by rewrite insert_insert_eq.
Qed.

Lemma peersFrom_closed e ops : peersFrom (inl e) ops = inl e.
Proof. unfold peersFrom. by induction ops. Qed.

Lemma reads_merge chunks : forall ps id last fin, peers_ok ps -> Forall bytes_ok chunks -> bytes_ok last ->
  peersFrom (inr ps) (map (fun d => PeerRead id d false) chunks ++ [PeerRead id last fin]) = readPeerStream ps id (concat chunks ++ last) fin.
Proof.
  induction chunks as [| a chunks IH]; intros ps id last fin Hp Hc Hl; [done |]. apply Forall_cons in Hc as [Ha Hc]. cbn [map app concat]. rewrite <- app_assoc, readPeerStream_app; [| done | done | apply Forall_app; split; [by apply Forall_concat | done]].
  unfold peersFrom. cbn [foldl peerStep]. destruct (readPeerStream ps id a false) as [e | ps'] eqn:E; [| apply IH; [| done | done]; by apply (peerStep_ok ps (PeerRead id a false))].
  apply peersFrom_closed.
Qed.

(** ** Settings *)

Inductive settingsOf : bytes -> list Z -> Prop :=
| settings_nil : settingsOf [] []
| settings_cons payload id n1 v n2 ids : quicParseVarint payload = (id, n1) -> n1 <> 0 -> quicParseVarint (zdrop n1 payload) = (v, n2) -> n2 <> 0 -> settingsOf (zdrop (n1 + n2) payload) ids -> settingsOf payload (id :: ids).

Lemma settingsLoop_spec fuel : forall payload seen, (length payload <= fuel)%nat ->
  settingsLoop3 fuel payload seen = None <-> exists ids, settingsOf payload ids /\ NoDup ids /\ Forall (fun id => h3SettingReservedFromHTTP2 id = false /\ (id ∉ seen)) ids.
Proof.
  induction fuel as [| fuel IH]; intros [| b payload] seen Hl; [| cbn in Hl; lia | |]; try (split; [intros _; exists []; split_and!; [constructor | apply NoDup_nil_2 | apply Forall_nil_2] | done]).
  cbn [settingsLoop3]. destruct (quicParseVarint (b :: payload)) as [id n1] eqn:E1. destruct (n1 =? 0) eqn:N1; [split; [done |]; intros (ids & H & _); inversion H as [| ? ? ? ? ? ? P1 P2 P3 P4 P5]; subst; rewrite E1 in P1; injection P1 as <- <-; lia |].
  destruct (quicParseVarint (zdrop n1 (b :: payload))) as [v n2] eqn:E2. destruct (n2 =? 0) eqn:N2; [split; [done |]; intros (ids & H & _); inversion H as [| ? ? ? ? ? ? P1 P2 P3 P4 P5]; subst; rewrite E1 in P1; injection P1 as <- <-; rewrite E2 in P3; injection P3 as <- <-; lia |].
  assert (Hinv : forall ids, settingsOf (b :: payload) ids -> exists ids', ids = id :: ids' /\ settingsOf (zdrop (n1 + n2) (b :: payload)) ids') by (intros ids H; inversion H as [| ? ? ? ? ? ? P1 P2 P3 P4 P5]; subst; rewrite E1 in P1; injection P1 as <- <-; rewrite E2 in P3; injection P3 as <- <-; by eexists).
  destruct (parse_stable _ [] _ _ E1 ltac:(lia)) as [_ B1]. destruct (parse_stable _ [] _ _ E2 ltac:(lia)) as [_ B2].
  destruct (h3SettingReservedFromHTTP2 id) eqn:Er; [split; [done |]; intros (ids & H & _ & F); destruct (Hinv ids H) as (ids' & -> & _); apply Forall_cons in F as [[F _] _]; congruence |].
  assert (Hin : existsb (Z.eqb id) seen = true <-> id ∈ seen).
  { rewrite existsb_exists. split; [intros (x & H1 & H2); apply Z.eqb_eq in H2 as ->; by apply list_elem_of_In | intros H; exists id; split; [by apply list_elem_of_In | lia]]. }
  destruct (existsb (Z.eqb id) seen) eqn:Ei; [split; [done |]; intros (ids & H & _ & F); destruct (Hinv ids H) as (ids' & -> & _); apply Forall_cons in F as [[_ F] _]; by destruct F; apply Hin |].
  assert (Hnew : id ∉ seen) by (intros H; by apply Hin in H). pose proof (zdrop_shrinks (n1 + n2) b payload ltac:(lia)) as Hs. rewrite IH by (cbn in Hl; lia). split.
  - intros (ids & H1 & H2 & H3). exists (id :: ids). split_and!; [by econstructor; try done; lia | |].
    + apply NoDup_cons. split; [| done]. intros Hx. rewrite Forall_forall in H3. destruct (H3 id Hx) as [_ H4]. apply H4. by left.
    + apply Forall_cons. split; [done |]. eapply Forall_impl; [exact H3 |]. intros x [F1 F2]. split; [done |]. intros Hx. apply F2. by right.
  - intros (ids & H1 & H2 & H3). destruct (Hinv ids H1) as (ids' & -> & H1'). apply NoDup_cons in H2 as [H2 H2']. apply Forall_cons in H3 as [_ H3]. exists ids'. split_and!; [done | done |]. rewrite Forall_forall in *. intros x Hx. destruct (H3 x Hx) as [F1 F2]. split; [done |].
    rewrite elem_of_cons. intros [-> | Hx']; [by apply H2 | by apply F2].
Qed.

(** ** The server's own streams *)

Lemma controlHeader_append t payload rest : 0 <= t < 2 ^ 62 -> zlen payload < 2 ^ 62 ->
  exists header, h3AppendFrame [] t payload = header ++ payload /\ controlHeader (h3AppendFrame [] t payload ++ rest) = Some (t, zlen payload, zlen header).
Proof.
  intros Ht Hp. pose proof (zlen_nonneg payload). exists (quicAppendVarint [] t ++ quicAppendVarint [] (zlen payload)). unfold h3AppendFrame. rewrite quicAppendVarint_dst. split; [done |]. unfold controlHeader. rewrite <- !app_assoc.
  destruct (append_reads t (quicAppendVarint [] (zlen payload) ++ payload ++ rest) Ht) as [-> H1]. replace (_ =? 0) with false by lia. rewrite zdrop_app_exact. destruct (append_reads (zlen payload) (payload ++ rest) ltac:(lia)) as [-> H2]. replace (_ =? 0) with false by lia. by rewrite zlen_app.
Qed.

Lemma appendFrame_ok t payload : bytes_ok payload -> bytes_ok (h3AppendFrame [] t payload).
Proof. intros H. unfold h3AppendFrame. rewrite quicAppendVarint_dst. repeat (apply Forall_app; split); [apply quicAppendVarint_ok | apply quicAppendVarint_ok | done]. Qed.

(** A whole frame at the front of the buffer. *)
Lemma controlRun_frame t payload rest s : 0 <= t < 2 ^ 62 -> zlen payload < 2 ^ 62 -> bytes_ok payload -> bytes_ok rest -> (forall code, controlAct_of s t (zlen payload) <> actFail code) ->
  payloadFault (controlAct_of s t (zlen payload)) payload = None -> controlRun (h3AppendFrame [] t payload ++ rest) s = controlRun rest (settingsAfter (controlAct_of s t (zlen payload)) s).
Proof.
  intros Ht Hp Hok Hr Hact Hf. destruct (controlHeader_append t payload rest Ht Hp) as (header & E & Eh). assert (Hne : h3AppendFrame [] t payload ++ rest <> []) by (intros H; rewrite H in Eh; discriminate Eh).
  rewrite controlRun_step; [| apply Forall_app; split; [by apply appendFrame_ok | done] | done]. rewrite Eh, E, !zlen_app. pose proof (zlen_nonneg rest). replace (_ <? zlen payload) with false by lia. rewrite <- app_assoc, zslice_mid.
  replace (zdrop (zlen header + zlen payload) (header ++ payload ++ rest)) with rest by (by rewrite app_assoc, <- zlen_app, zdrop_app_exact).
  destruct (controlAct_of s t (zlen payload)) eqn:Ea; [by destruct (Hact code) | | |]; cbv zeta; by rewrite Hf.
Qed.

Definition settingsPayload (limit : Z) : bytes :=
  quicAppendVarint [] h3SettingMaxHeaderListSize ++ quicAppendVarint [] limit ++ quicAppendVarint [] h3SettingQPACKMaxTableCap ++ quicAppendVarint [] 0 ++ quicAppendVarint [] h3SettingQPACKBlockedStr ++ quicAppendVarint [] 0.
Lemma settings_pair id v rest ids : 0 <= id < 2 ^ 62 -> 0 <= v < 2 ^ 62 -> settingsOf rest ids -> settingsOf (quicAppendVarint [] id ++ quicAppendVarint [] v ++ rest) (id :: ids).
Proof.
  intros Hi Hv H. destruct (append_reads id (quicAppendVarint [] v ++ rest) Hi) as [E1 B1]. destruct (append_reads v rest Hv) as [E2 B2]. econstructor; [exact E1 | lia | rewrite zdrop_app_exact; exact E2 | lia |].
  by rewrite app_assoc, <- zlen_app, zdrop_app_exact.
Qed.
Lemma settingsPayload_valid limit : 0 <= limit < 2 ^ 62 -> validatePeerSettings (settingsPayload limit) = None /\ zlen (settingsPayload limit) <= 48 /\ bytes_ok (settingsPayload limit).
Proof.
  intros Hl. split_and!.
  - unfold validatePeerSettings. apply settingsLoop_spec; [lia |]. exists [h3SettingMaxHeaderListSize; h3SettingQPACKMaxTableCap; h3SettingQPACKBlockedStr]. split_and!.
    + unfold settingsPayload. rewrite <- (app_nil_r (quicAppendVarint [] 0)) at 2. repeat (apply settings_pair; [unfold h3SettingMaxHeaderListSize, h3SettingQPACKMaxTableCap, h3SettingQPACKBlockedStr; lia | lia |]). constructor.
    + apply (bool_decide_unpack _). by vm_compute.
    + repeat constructor; by apply not_elem_of_nil.
  - unfold settingsPayload. rewrite !zlen_app. destruct (append_reads limit [] Hl) as [_ B]. change (zlen (quicAppendVarint [] h3SettingMaxHeaderListSize)) with 1. change (zlen (quicAppendVarint [] h3SettingQPACKMaxTableCap)) with 1. change (zlen (quicAppendVarint [] h3SettingQPACKBlockedStr)) with 1. change (zlen (quicAppendVarint [] 0)) with 1. lia.
  - unfold settingsPayload. do 5 (apply Forall_app; split; [apply quicAppendVarint_ok |]). apply quicAppendVarint_ok.
Qed.

Lemma goaways_run ids : Forall (fun id => 0 <= id < 2 ^ 62) ids -> controlRun (concat (map sendGoAway ids)) true = inr ([], 0, true) /\ bytes_ok (concat (map sendGoAway ids)).
Proof.
  induction 1 as [| id ids Hi _ [IH Hok]]; [split; [done | apply Forall_nil_2] |]. cbn [map concat]. destruct (append_reads id [] Hi) as [E B]. rewrite app_nil_r in E. split; [| apply Forall_app; split; [apply appendFrame_ok, quicAppendVarint_ok | done]].
  assert (Ea : controlAct_of true h3FrameGoaway (zlen (quicAppendVarint [] id)) = actInt) by (unfold controlAct_of, h3MaxPushIDFramePayload; cbn; by replace (8 <? _) with false by lia).
  unfold sendGoAway. rewrite controlRun_frame; rewrite ?Ea; try done; [lia | apply quicAppendVarint_ok |]. cbn [payloadFault]. rewrite E. replace (_ =? 0) with false by lia. by rewrite Z.eqb_refl.
Qed.

Lemma own_control seen limit ids : peerControlSeen seen = false -> 0 <= limit < 2 ^ 62 -> Forall (fun id => 0 <= id < 2 ^ 62) ids ->
  consumePeerStream seen newPeer (sendControlStream limit ++ concat (map sendGoAway ids)) = inr (mkSeen true (peerEncoderSeen seen) (peerDecoderSeen seen), mkPeer h3PeerStreamControl [] 0 true).
Proof.
  intros Hs Hl Hi. destruct (goaways_run ids Hi) as [Hg Hgok]. destruct (settingsPayload_valid limit Hl) as (Hv & Hz & Hpok).
  assert (E : sendControlStream limit ++ concat (map sendGoAway ids) = 0 :: h3AppendFrame [] h3FrameSettings (settingsPayload limit) ++ concat (map sendGoAway ids)).
  { unfold sendControlStream, h3AppendSettingsFrame, h3AppendStreamType. rewrite h3AppendFrame_dst, <- app_assoc. cbn [app]. repeat (rewrite (quicAppendVarint_dst (quicAppendVarint _ _))). rewrite <- !app_assoc. done. }
  rewrite E. unfold consumePeerStream. cbn [newPeer ps_kind ps_pending ps_skip ps_settingsSeen app]. rewrite parse_1 by lia. change (1 =? 0) with false. cbv iota. unfold assignPeerStreamType. cbn [Z.eqb h3StreamControl]. rewrite Hs. cbv iota zeta. unfold consumeTyped. cbn [ps_kind].
  change (zdrop 1 (0 :: ?l)) with l. rewrite consumeControlStream_resume. cbn [ps_pending ps_skip ps_settingsSeen ps_kind resume]. change (0 <? 0) with false. cbn [andb app].
  assert (Ea : controlAct_of false h3FrameSettings (zlen (settingsPayload limit)) = actSettings).
  { revert Hz. generalize (zlen (settingsPayload limit)). intros z Hz. unfold controlAct_of, h3MaxControlFramePayload. cbn. by replace (4096 <? z) with false by lia. }
  rewrite controlRun_frame; rewrite ?Ea; try done; [| lia]. cbn [settingsAfter]. by rewrite Hg.
Qed.

(** C33: The unidirectional streams of an HTTP/3 peer are read the same however their
    bytes are cut into reads: after any history of reads and resets of streams,
    several reads of one stream leave the connection open or close it with the same
    error, and leave the same state, as one read of all the bytes; types and frames
    may be split anywhere. A SETTINGS payload is accepted exactly when it is a list
    of pairs of numbers whose identifiers are distinct and not those HTTP/2 used.
    The control stream the server itself writes, SETTINGS and any GOAWAY frames, is
    accepted by the same code. *)
Theorem h3_peer_streams :
  (forall ops id chunks last fin, Forall op_ok ops -> Forall bytes_ok chunks -> bytes_ok last ->
    peerRun (ops ++ map (fun d => PeerRead id d false) chunks ++ [PeerRead id last fin]) = peerRun (ops ++ [PeerRead id (concat chunks ++ last) fin])) /\
  (forall payload, validatePeerSettings payload = None <-> exists ids, settingsOf payload ids /\ NoDup ids /\ Forall (fun id => ~ 2 <= id <= 5) ids) /\
  (forall seen limit ids, peerControlSeen seen = false -> 0 <= limit < 2 ^ 62 -> Forall (fun id => 0 <= id < 2 ^ 62) ids ->
    consumePeerStream seen newPeer (sendControlStream limit ++ concat (map sendGoAway ids)) = inr (mkSeen true (peerEncoderSeen seen) (peerDecoderSeen seen), mkPeer h3PeerStreamControl [] 0 true)).
Proof.
  split; [| split; [| exact own_control]].
  - intros ops id chunks last fin Ho Hc Hl. unfold peerRun, peersFrom. rewrite !(foldl_app _ ops). fold (peersFrom (inr (∅, mkSeen false false false)) ops). destruct (peersFrom _ ops) as [e | ps] eqn:E.
    + etransitivity; [apply peersFrom_closed | symmetry; apply peersFrom_closed].
    + apply (reads_merge chunks ps id last fin); [| done | done]. eapply peersFrom_ok; [| exact Ho | exact E]. intros p [= <-] k st. cbn [fst]. by rewrite lookup_empty.
  - intros payload. unfold validatePeerSettings. rewrite settingsLoop_spec by lia. split; intros (ids & H1 & H2 & H3); exists ids; split_and!; try done; eapply Forall_impl; try exact H3; unfold h3SettingReservedFromHTTP2; cbv beta.
    + intros x [H _]. lia.
    + intros x H. split; [lia | by apply not_elem_of_nil].
Qed.

(** A control stream with SETTINGS and a frame to ignore, whole and byte by byte. *)
Definition demoControl : bytes := h3AppendFrame (quicAppendVarint [] h3StreamControl ++ h3AppendSettingsFrame [] 16384) 0x21 [1; 2; 3].
Lemma h3_peer_streams_witness :
  (exists ps, peerRun [PeerReset 6; PeerRead 2 demoControl false] = inr ps /\ ps.1 !! 2 = Some (mkPeer h3PeerStreamControl [] 0 true) /\ ps.2 = mkSeen true false false) /\
  peerRun ([PeerReset 6] ++ map (fun d => PeerRead 2 d false) (map (fun b => [b]) demoControl) ++ [PeerRead 2 [0; 0] true]) = inl h3ErrFrameUnexpected.
Proof.
  split; [eexists; split; [vm_compute; reflexivity | split; vm_compute; reflexivity] |].
  assert (H1 : Forall op_ok [PeerReset 6]) by (repeat constructor).
  assert (H2 : Forall bytes_ok (map (fun b => [b]) demoControl)) by (unfold bytes_ok, is_u8; apply (bool_decide_unpack _); vm_compute; exact I).
  assert (H3 : bytes_ok [0; 0]) by (unfold bytes_ok, is_u8; apply (bool_decide_unpack _); vm_compute; exact I).
  etransitivity; [exact (proj1 h3_peer_streams [PeerReset 6] 2 (map (fun b => [b]) demoControl) [0; 0] true H1 H2 H3) | vm_compute; reflexivity].
Defined.
