(* ===== verification/H3Resp.v ===== *)
(** Responses of HTTP/3 read back: the heads with the cache of their first fields,
    and the frames of whole responses. *)
From stdpp Require Import base list numbers strings gmap.
From Stdlib Require Import ZArith Lia ZifyBool.
From S2P Require Import Prelude Utils QuicVarint HpackInt HpackTable HpackDyn Hpack HpackProofs HpackRoundtrip H1Resp H2Enc H2EncTable H2EncProofs Qpack QpackProofs H3 H3Peers.

Open Scope list_scope.
Open Scope Z_scope.

(** The fields of a response, as the peer should read them. *)
Definition serverField (headers : list field) (configured : bytes) : bytes :=
  match List.filter (fun h => bytes_eqb (lowered h).1 (str "server")) headers with [] => configured | h :: _ => h.2 end.
Definition h3HeadFields (date : bytes) (resp : Response) (serverName : bytes) : list field :=
  [(str ":status", appendUint [] (StatusCode resp))] ++
  foldl once []
    ((if bytes_eqb (ContentType resp) [] then [] else [(str "content-type", ContentType resp)]) ++
     [(str "server", serverField (r_Headers resp) serverName)] ++
     (if 0 <=? headerContentLength resp then [(str "content-length", appendUint [] (headerContentLength resp))] else []) ++
     map lowered (List.filter sendable (r_Headers resp))) ++
  (if named (str "date") (map lowered (r_Headers resp)) then [] else [(str "date", date)]).

(** A client: one HEADERS frame, then nothing or one DATA frame. *)
Definition readResponse (data : bytes) : option (list field * bytes) :=
  match frame_next data with
  | Some (t, block, rest) =>
      if negb (t =? h3FrameHeaders) then None
      else
        match qpackDecodeAppend block [] with
        | Err _ => None
        | Ok fields =>
            match rest with
            | [] => Some (fields, [])
            | _ => match frame_next rest with Some (t, body, []) => if t =? h3FrameData then Some (fields, body) else None | _ => None end
            end
        end
  | None => None
  end.

(** Responses of one server, in the order in which they meet the cache. *)
Fixpoint h3Responses (cache : prefixCache) (evs : list (bytes * Response * bytes)) : list bytes :=
  match evs with
  | [] => []
  | (date, resp, serverName) :: evs => let '(out, cache) := h3WriteResponse cache date resp serverName in out :: h3Responses cache evs
  end.

Definition response_ok (ev : bytes * Response * bytes) : Prop :=
  let '(date, resp, serverName) := ev in
  text_ok date /\ 0 <= StatusCode resp < 2 ^ 63 /\ text_ok (ContentType resp) /\ headerContentLength resp < 2 ^ 63 /\ Forall header_ok (r_Headers resp) /\ zlen (r_Headers resp) <= 123 /\ text_ok serverName.

(** ** Heads *)

Definition qappends (f : bytes -> bytes) (fs : list field) : Prop := exists w, (forall buf, f buf = buf ++ w) /\ qreads w fs.
Lemma qappends_line f fd : (exists w, (forall buf, f buf = buf ++ w) /\ qencodes w fd) -> qappends f [fd].
Proof. intros (w & H1 & H2). exists w. split; [done | by apply qreads_line]. Qed.
Lemma qappends_id : qappends (fun buf => buf) [].
Proof. exists []. split; [intros; by rewrite app_nil_r | apply qreads_nil]. Qed.
Lemma qappends_comp f g fs gs : qappends f fs -> qappends g gs -> qappends (fun buf => g (f buf)) (fs ++ gs).
Proof. intros (w & H1 & H2) (v & H3 & H4). exists (w ++ v). split; [intros; by rewrite H3, H1, app_assoc | by apply qreads_app]. Qed.
Lemma qappends_if (b : bool) f fs : qappends f fs -> qappends (fun buf => if b then f buf else buf) (if b then fs else []).
Proof. intros H. destruct b; [done | apply qappends_id]. Qed.

Lemma qpackHeader_appends name value : text_ok name -> text_ok value -> qappends (fun buf => qpackHeader buf name value) [(map asciiLower name, value)].
Proof.
  intros Hn Hv. apply qappends_line. replace (map asciiLower name) with (match commonLowerHeader name with Some low => low | None => ToLowerASCII name end).
  - apply qencodes_header; [| done]. replace (match commonLowerHeader name with Some low => low | None => ToLowerASCII name end) with (map asciiLower name); [by apply lower_text_ok |].
    rewrite <- ToLowerASCII_map. unfold commonLowerHeader, ToLowerASCII. by destruct (assoc_get commonLowerHeaders name).
  - rewrite <- ToLowerASCII_map. unfold commonLowerHeader, ToLowerASCII. by destruct (assoc_get commonLowerHeaders name).
Qed.

Lemma date_sendable name value : bytes_eqb (map asciiLower name) (str "date") = true -> sendable (name, value) = true.
Proof.
  intros E. apply bytes_eqb_spec in E. unfold sendable, lowered. cbn [fst]. rewrite E. destruct name as [| c name]; [discriminate E |]. cbn [map] in E. injection E as Ec _.
  rewrite !andb_true_iff, !negb_true_iff. split_and!; [destruct (bytes_eqb _ _) eqn:X; [by apply bytes_eqb_spec in X | done] | | reflexivity].
  change (znth (c :: name) 0) with c. apply Z.eqb_neq. intros ->. discriminate Ec.
Qed.

(** One header of the handler: the field it adds, if it adds one. *)
Lemma headerStep_appends h hs sent a b d : header_ok h -> flags_ok sent a b true ->
  exists f fs a' b', (forall buf, qpackHeaderLoop buf (h :: hs) a b d = qpackHeaderLoop (f buf) hs a' b' (d || bytes_eqb (lowered h).1 (str "date"))) /\ qappends f fs /\
    zlen fs <= 1 /\ (if sendable h then once sent (lowered h) else sent) = sent ++ fs /\ flags_ok (sent ++ fs) a' b' true.
Proof.
  intros [Hn Hv] Hf. destruct h as [name value]. cbn [fst snd] in Hn, Hv. set (low := map asciiLower name). change (lowered (name, value)) with (low, value). cbn [fst].
  pose proof (qpackHeader_appends name value Hn Hv) as Hput. pose proof (flags_snoc sent a b true (low, value) Hf) as Hf1. cbn [fst] in Hf1. pose proof Hf as (Ha & Hb & Hc).
  assert (Hskip : sent = sent ++ []) by (by rewrite app_nil_r).
  destruct (sendable (name, value)) eqn:Es.
  2:{ exists (fun buf => buf), [], a, b. split_and!; [| apply qappends_id | done | done | by rewrite <- Hskip]. intros buf. cbn [qpackHeaderLoop]. rewrite sendable_spec in Es. apply negb_false_iff in Es. rewrite Es.
      destruct (bytes_eqb low (str "date")) eqn:E; [apply (date_sendable name value) in E; rewrite sendable_spec, Es in E; discriminate | by rewrite orb_false_r]. }
  assert (Eloop : forall buf, qpackHeaderLoop buf ((name, value) :: hs) a b d =
    if bytes_eqb low (str "content-type") then (if a then qpackHeaderLoop buf hs a b d else qpackHeaderLoop (qpackHeader buf name value) hs true b d)
    else if bytes_eqb low (str "content-length") then (if b then qpackHeaderLoop buf hs a b d else qpackHeaderLoop (qpackHeader buf name value) hs a true d)
    else if bytes_eqb low (str "server") then qpackHeaderLoop buf hs a b d
    else qpackHeaderLoop (qpackHeader buf name value) hs a b (d || bytes_eqb low (str "date"))).
  { intros buf. cbn [qpackHeaderLoop]. rewrite sendable_spec in Es. apply negb_true_iff in Es. rewrite Es, !headerNameIs_spec. fold low. repeat (destruct (bytes_eqb low _); try done); by rewrite ?orb_true_r, ?orb_false_r. }
  destruct (bytes_eqb low (str "content-type")) eqn:E1; [| destruct (bytes_eqb low (str "content-length")) eqn:E2; [| destruct (bytes_eqb low (str "server")) eqn:E3]].
  - apply bytes_eqb_spec in E1. assert (Ed : bytes_eqb low (str "date") = false) by (rewrite E1; reflexivity). rewrite Ed, orb_false_r. destruct a.
    + exists (fun buf => buf), [], true, b. rewrite E1, once_again by (done || reflexivity). rewrite <- Hskip. split_and!; [by intros; rewrite Eloop | apply qappends_id | done | done | done].
    + eexists _, [(low, value)], true, b. split_and!; [intros; by rewrite Eloop | exact Hput | done | apply once_new; left; by rewrite E1 |]. rewrite E1 in *. by rewrite !orb_false_r in Hf1.
  - apply bytes_eqb_spec in E2. assert (Ed : bytes_eqb low (str "date") = false) by (rewrite E2; reflexivity). rewrite Ed, orb_false_r. destruct b.
    + exists (fun buf => buf), [], a, true. rewrite E2, once_again by (done || reflexivity). rewrite <- Hskip. split_and!; [by intros; rewrite Eloop | apply qappends_id | done | done | done].
    + eexists _, [(low, value)], a, true. split_and!; [intros; by rewrite Eloop | exact Hput | done | apply once_new; left; by rewrite E2 |]. rewrite E2 in *. by rewrite !orb_false_r in Hf1.
  - apply bytes_eqb_spec in E3. assert (Ed : bytes_eqb low (str "date") = false) by (rewrite E3; reflexivity). rewrite Ed, orb_false_r.
    exists (fun buf => buf), [], a, b. rewrite E3, once_again by (done || reflexivity). rewrite <- Hskip. split_and!; [by intros; rewrite Eloop | apply qappends_id | done | done | done].
  - eexists _, [(low, value)], a, b. split_and!; [intros; by rewrite Eloop | exact Hput | done | | by rewrite !orb_false_r in Hf1].
    apply once_new. right. unfold isOneOf, singleFields. cbn [existsb fst]. by rewrite E1, E2, E3.
Qed.

Lemma headerLoop_appends hs : Forall header_ok hs -> forall sent a b d, flags_ok sent a b true ->
  exists f fs, (forall buf, qpackHeaderLoop buf hs a b d = (f buf, d || named (str "date") (map lowered hs))) /\ qappends f fs /\ zlen fs <= zlen hs /\
    foldl once sent (map lowered (List.filter sendable hs)) = sent ++ fs.
Proof.
  induction 1 as [| h hs Hh _ IH]; intros sent a b d Hf.
  { exists (fun buf => buf), []. rewrite app_nil_r. split_and!; [intros; by rewrite orb_false_r | apply qappends_id | done | done]. }
  destruct (headerStep_appends h hs sent a b d Hh Hf) as (f & fs & a' & b' & E & Hw & Hz & Hs & Hf'). destruct (IH (sent ++ fs) a' b' (d || bytes_eqb (lowered h).1 (str "date")) Hf') as (g & gs & E2 & Hw2 & Hz2 & Hs2).
  exists (fun buf => g (f buf)), (fs ++ gs). split; [| split; [by apply qappends_comp | split; [rewrite zlen_app, zlen_cons; lia |]]].
  - intros buf. rewrite E, E2. unfold named. cbn [map existsb]. by rewrite orb_assoc.
  - cbn [List.filter]. rewrite app_assoc, <- Hs2, <- Hs. by destruct (sendable h).
Qed.

Lemma responseServer_spec headers configured : qpackResponseServer headers configured = serverField headers configured.
Proof.
  unfold serverField. induction headers as [| h headers IH]; [done |]. cbn [qpackResponseServer List.filter]. rewrite headerNameIs_spec. unfold lowered at 1. cbn [fst]. by destruct (bytes_eqb _ _).
Qed.
Lemma serverField_text headers configured : Forall header_ok headers -> text_ok configured -> text_ok (serverField headers configured).
Proof.
  intros Hh Hc. unfold serverField. destruct (List.filter _ headers) as [| h hs] eqn:E; [done |]. assert (Hin : List.In h (List.filter (fun h => bytes_eqb (lowered h).1 (str "server")) headers)) by (rewrite E; by left).
  apply List.filter_In in Hin as [Hin _]. rewrite Forall_forall in Hh. by apply (Hh h), list_elem_of_In.
Qed.

Definition prefixes_ok (cache : prefixCache) : Prop := forall status contentType serverName p, cache !! (status, contentType, serverName) = Some p -> p = respPrefix status contentType serverName.

Lemma cachedPrefix_spec cache status contentType serverName : prefixes_ok cache ->
  exists cache', cachedPrefix cache status contentType serverName = (respPrefix status contentType serverName, cache') /\ prefixes_ok cache'.
Proof.
  intros Hc. unfold cachedPrefix. destruct (cache !! _) as [p |] eqn:E; [apply Hc in E as ->; by exists cache |]. eexists. split; [done |]. destruct (_ <? _); [| done].
  intros st ct sv p. destruct (decide ((status, contentType, serverName) = (st, ct, sv))) as [[= -> -> ->] | Hne]; [by rewrite lookup_insert_eq; intros [= <-] | rewrite lookup_insert_ne by done; apply Hc].
Qed.

Section Head.

Context (date : bytes) (resp : Response) (serverName : bytes).
Hypothesis Hok : response_ok (date, resp, serverName).

Abbreviation ct := (ContentType resp).
Abbreviation cl := (headerContentLength resp).
Abbreviation sv := (serverField (r_Headers resp) serverName).
Definition typeF : list field := if negb (bytes_eqb ct []) then [(str "content-type", ct)] else [].
Definition lengthF : list field := if 0 <=? cl then [(str "content-length", appendUint [] cl)] else [].

Lemma respPrefix_appends : exists w, respPrefix (StatusCode resp) ct sv = [0x00; 0x00] ++ w /\ qreads w ([(str ":status", appendUint [] (StatusCode resp))] ++ typeF ++ [(str "server", sv)]).
Proof.
  destruct Hok as (_ & Hs & Hct & _ & Hh & _ & Hsv). pose proof (serverField_text _ _ Hh Hsv) as Hsv'.
  assert (H : qappends (fun buf => qpack_EncodeHeader (if negb (bytes_eqb ct []) then qpack_EncodeHeader (qpack_EncodeStatus buf (StatusCode resp)) (str "content-type") ct else qpack_EncodeStatus buf (StatusCode resp)) (str "server") sv)
    ([(str ":status", appendUint [] (StatusCode resp))] ++ typeF ++ [(str "server", sv)])).
  { rewrite app_assoc. apply (qappends_comp _ (fun buf => qpack_EncodeHeader buf (str "server") sv)); [| apply qappends_line, qencodes_header; [text_literal | done]].
    apply (qappends_comp (fun buf => qpack_EncodeStatus buf (StatusCode resp)) (fun buf => if negb (bytes_eqb ct []) then qpack_EncodeHeader buf (str "content-type") ct else buf)); [by apply qappends_line, qencodes_status |].
    apply (qappends_if _ (fun buf => qpack_EncodeHeader buf (str "content-type") ct)). apply qappends_line, qencodes_header; [text_literal | done]. }
  destruct H as (w & Hw & Hr). exists w. split; [| done]. rewrite <- Hw. unfold respPrefix, encodeRequiredInsertCount. cbn [app]. cbv zeta. by destruct (bytes_eqb ct []).
Qed.

Lemma sent_once hs : foldl once [] ((if bytes_eqb ct [] then [] else [(str "content-type", ct)]) ++ [(str "server", sv)] ++ lengthF ++ hs) = foldl once (typeF ++ [(str "server", sv)] ++ lengthF) hs.
Proof. unfold typeF, lengthF. destruct (bytes_eqb ct []), (0 <=? cl); reflexivity. Qed.
Lemma sent_flags : flags_ok (typeF ++ [(str "server", sv)] ++ lengthF) (negb (bytes_eqb ct [])) (0 <=? cl) true.
Proof. unfold typeF, lengthF. destruct (bytes_eqb ct []), (0 <=? cl); split_and!; reflexivity. Qed.

Lemma length_appends : qappends (fun buf => if 0 <=? cl then let clStr := appendUint [] cl in let nameIdx := qpackFindStaticNameIndex (str "content-length") in
    if 0 <=? nameIdx then encodeLiteralWithNameRef buf nameIdx clStr else encodeLiteral buf (str "content-length") clStr else buf) lengthF.
Proof.
  destruct Hok as (_ & _ & _ & Hl & _). unfold lengthF. destruct (0 <=? cl) eqn:E; [| apply qappends_id]. change (qpackFindStaticNameIndex (str "content-length")) with 4. apply qappends_line, qencodes_length. lia.
Qed.

Lemma head_decodes cache : prefixes_ok cache -> exists block cache', qpackEncodeResponseHeaders cache date (StatusCode resp) ct cl (r_Headers resp) serverName = (block, cache') /\ prefixes_ok cache' /\
  qpackDecodeAppend block [] = Ok (h3HeadFields date resp serverName).
Proof.
  intros Hc. unfold qpackEncodeResponseHeaders. rewrite responseServer_spec. cbv zeta. destruct (cachedPrefix_spec cache (StatusCode resp) ct sv Hc) as (cache' & -> & Hc').
  destruct respPrefix_appends as (w1 & -> & Hr1). destruct length_appends as (w2 & Hw2 & Hr2). cbv zeta in Hw2. rewrite Hw2. destruct Hok as (Hd & _ & _ & _ & Hh & Hz & _).
  destruct (headerLoop_appends _ Hh _ _ _ false sent_flags) as (f & fs & -> & (w3 & Hw3 & Hr3) & Hz3 & Hs3). rewrite Hw3. cbn [orb]. set (dated := named (str "date") (map lowered (r_Headers resp))).
  eexists _, cache'. split; [reflexivity |]. split; [done |]. destruct (qencodes_header (str "date") date) as (wd & Hwd & Hrd); [text_literal | done |]. apply qreads_line in Hrd.
  assert (Hr4 : qreads (if dated then [] else wd) (if dated then [] else [(str "date", date)])) by (destruct dated; [apply qreads_nil | done]).
  pose proof (qreads_app _ _ _ _ Hr1 (qreads_app _ _ _ _ Hr2 (qreads_app _ _ _ _ Hr3 Hr4))) as Hall. apply qreads_block in Hall.
  - etransitivity; [| etransitivity; [exact Hall |]].
    { f_equal. unfold newQPACKDateField. rewrite Hwd. destruct dated; rewrite ?app_nil_r, <- ?app_assoc; done. }
    f_equal. unfold h3HeadFields. fold dated. fold lengthF. rewrite sent_once, Hs3, <- !app_assoc. done.
  - rewrite !zlen_app. change (zlen [(str ":status", _)]) with 1. unfold qpackMaxHeaders, typeF, lengthF. destruct (negb _), (0 <=? cl), dated; rewrite ?zlen_cons, ?zlen_nil; lia.
Qed.

End Head.

Lemma response_reads cache date resp serverName : response_ok (date, resp, serverName) -> prefixes_ok cache ->
  exists out cache', h3WriteResponse cache date resp serverName = (out, cache') /\ prefixes_ok cache' /\
    (zlen out < 2 ^ 62 -> readResponse out = Some (h3HeadFields date resp serverName, transmittedBodyBytes resp)).
Proof.
  intros Hok Hc. unfold h3WriteResponse, h3AppendHeadersFrame, h3AppendDataFrame. destruct (head_decodes date resp serverName Hok cache Hc) as (block & cache' & -> & Hc' & Hd). eexists _, cache'. split; [reflexivity |]. split; [done |]. intros Hl.
  assert (Hsz : forall t p, zlen p <= zlen (h3AppendFrame [] t p)) by (intros; unfold h3AppendFrame; rewrite zlen_app; pose proof (zlen_nonneg (quicAppendVarint (quicAppendVarint [] t) (zlen p))); lia).
  pose proof (Hsz h3FrameHeaders block) as Hb. pose proof (Hsz h3FrameData (transmittedBodyBytes resp)) as Hb2. unfold readResponse. destruct (0 <? zlen (transmittedBodyBytes resp)) eqn:E.
  - rewrite (h3AppendFrame_dst (h3AppendFrame [] h3FrameHeaders block)) in *. rewrite zlen_app in Hl. pose proof (zlen_nonneg (h3AppendFrame [] h3FrameData (transmittedBodyBytes resp))). pose proof (zlen_nonneg (h3AppendFrame [] h3FrameHeaders block)). rewrite frame_next_append by (unfold h3FrameHeaders; lia). cbv iota. change (negb (h3FrameHeaders =? h3FrameHeaders)) with false. cbv iota. rewrite Hd.
    pose proof (frame_next_append h3FrameData (transmittedBodyBytes resp) [] ltac:(unfold h3FrameData; lia) ltac:(lia)) as Hn. rewrite app_nil_r in Hn. rewrite Hn. change (h3FrameData =? h3FrameData) with true. cbv iota.
    destruct (h3AppendFrame [] h3FrameData (transmittedBodyBytes resp)) eqn:X; [| done]. rewrite zlen_nil in Hb2. lia.
  - pose proof (frame_next_append h3FrameHeaders block [] ltac:(unfold h3FrameHeaders; lia) ltac:(lia)) as Hn. rewrite app_nil_r in Hn. rewrite Hn. cbv iota. change (negb (h3FrameHeaders =? h3FrameHeaders)) with false. cbv iota. rewrite Hd.
    destruct (transmittedBodyBytes resp) as [| c body]; [done |]. rewrite zlen_cons in E. pose proof (zlen_nonneg body). lia.
Qed.

Lemma responses_read evs : forall cache, prefixes_ok cache -> Forall response_ok evs -> Forall (fun out => zlen out < 2 ^ 62) (h3Responses cache evs) ->
  map readResponse (h3Responses cache evs) = map (fun ev => Some (h3HeadFields ev.1.1 ev.1.2 ev.2, transmittedBodyBytes ev.1.2)) evs.
Proof.
  induction evs as [| [[date resp] serverName] evs IH]; intros cache Hc Hok Hl; [done |]. apply Forall_cons in Hok as [H1 Hok]. cbn [h3Responses] in *.
  destruct (response_reads cache date resp serverName H1 Hc) as (out & cache' & E & Hc' & Hr). rewrite E in *. apply Forall_cons in Hl as [H2 Hl]. cbn [map fst snd]. by rewrite Hr, (IH cache').
Qed.

(** C32: Responses sent over HTTP/3, whatever was sent before them through the shared
    cache of first fields: each is one HEADERS frame that a QPACK decoder reads back
    as the status, the content type, the server (the handler's own if it set one),
    the length, the handler's fields in lower case (without empty or
    pseudo names and fields of the connection, and without a second type, length
    or server) and a date unless the handler set one, then one DATA frame with the
    body when there is one, and nothing more. *)
Theorem h3_responses evs : Forall response_ok evs -> Forall (fun out => zlen out < 2 ^ 62) (h3Responses ∅ evs) ->
  map readResponse (h3Responses ∅ evs) = map (fun ev => Some (h3HeadFields ev.1.1 ev.1.2 ev.2, transmittedBodyBytes ev.1.2)) evs.
Proof. apply responses_read. intros status ct sv p. by rewrite lookup_empty. Qed.

Definition demoDate : bytes := str "Thu, 01 Jan 1970 00:00:00 GMT".
Definition demoTea : Response := mkResponse 418 [(str "X-Id", str "7"); (str "Server", str "tea"); (str "Connection", str "close"); (str "Content-Type", str "x")] (str "hi") [] false (str "text/plain") (str "GET") None.
Definition demoNone : Response := mkResponse 204 [(str "Date", str "now")] [] [] false [] (str "GET") None.
Definition demoResponses : list (bytes * Response * bytes) := [(demoDate, demoTea, str "ALOS"); (demoDate, demoTea, str "ALOS"); (demoDate, demoNone, str "ALOS")].
Definition responseCheck (ev : bytes * Response * bytes) : bool :=
  let '(date, resp, serverName) := ev in textCheck date && headCheck (mkHead 0 (StatusCode resp) (ContentType resp) (headerContentLength resp) (r_Headers resp) serverName).
Lemma responseCheck_ok ev : responseCheck ev = true -> response_ok ev.
Proof.
  destruct ev as [[date resp] serverName]. cbn [responseCheck]. intros H. apply andb_true_iff in H as [H1 H2]. apply headCheck_ok in H2. split; [by apply textCheck_ok | exact H2].
Qed.

Lemma h3_responses_witness :
  map readResponse (h3Responses ∅ demoResponses)
  = (let tea := [(str ":status", str "418"); (str "content-type", str "text/plain"); (str "server", str "tea"); (str "content-length", str "2"); (str "x-id", str "7"); (str "date", demoDate)] in
     [Some (tea, str "hi"); Some (tea, str "hi"); Some ([(str ":status", str "204"); (str "server", str "ALOS"); (str "date", str "now")], [])]).
Proof.
  assert (H1 : Forall response_ok demoResponses) by (repeat apply Forall_cons_2; [..| apply Forall_nil_2]; apply responseCheck_ok; vm_compute; reflexivity).
  assert (H2 : Forall (fun out => zlen out < 2 ^ 62) (h3Responses ∅ demoResponses)) by (apply (bool_decide_unpack _); vm_compute; exact I).
  etransitivity; [exact (h3_responses demoResponses H1 H2) | vm_compute; reflexivity].
Defined.
