(* ===== verification/H3Requests.v ===== *)
(** Requests over HTTP/3: which request streams reach a handler, what the handler
    is given, and that the cache of decoded blocks is invisible. *)
From stdpp Require Import base list numbers strings gmap.
From Stdlib Require Import ZArith Lia ZifyBool.
From S2P Require Import Prelude Utils HttpText QuicVarint HpackInt HpackTable HpackDyn Hpack HpackProofs Chunked HpackRequest HpackMemo HpackValid H1Scan H1Resp Qpack QpackProofs H3.

Open Scope list_scope.
Open Scope Z_scope.

(** ** Sections *)

Definition with_count (k : Z) (m : hpackRequestMeta) : hpackRequestMeta :=
  mkMeta (m_method m) (m_path m) (m_rawPath m) (m_query m) (m_scheme m) (m_authority m) k (m_contentLength m) (m_pseudoMask m) (m_sawRegular m) (m_hasContentLength m) (m_allowProtocol m) (m_protocolSet m) (m_protocolWebSocket m).

Lemma observe_count k m name value : observeHeader (with_count k m) name value = with_count k <$> observeHeader m name value.
Proof.
  unfold observeHeader. destruct (negb (isValidH2FieldName name)); [done |]. destruct (znth name 0 =? 58); cbn [with_count m_sawRegular m_allowProtocol].
  - destruct (m_sawRegular m); [done |]. change (seen (with_count k m)) with (seen m). destruct (bytes_eqb name (str ":method")); [by destruct (_ || _) |]. destruct (bytes_eqb name (str ":path")); [by destruct (_ || _) |].
    destruct (negb _); [done |]. destruct (bytes_eqb name (str ":scheme")); [by destruct (seen m _) |]. destruct (bytes_eqb name (str ":authority")); [destruct (seen m _); [done |]; by destruct (negb _) |]. destruct (bytes_eqb name (str ":protocol")); [by destruct (_ || _) | done].
  - destruct (negb _); [done |]. destruct (isH2ConnectionSpecificField name value); [done |]. destruct (bytes_eqb name (str "content-length")); [| done]. destruct (parseUint value); [| done]. cbn [set_regular m_hasContentLength m_contentLength with_count]. by destruct (_ && _).
Qed.

(** The bits of the mask count the pseudo-header fields. *)
Lemma count_mark m bit : bit ∈ [hpackPseudoMethod; hpackPseudoScheme; hpackPseudoPath; hpackPseudoAuthority; hpackPseudoProtocol] -> seen m bit = false ->
  forall m', m_pseudoMask m' = mark m bit -> h3PseudoFieldCount m' = h3PseudoFieldCount m + 1.
Proof.
  intros Hb Hs m' Hm. unfold h3PseudoFieldCount. rewrite Hm. unfold mark. apply negb_false_iff, Z.eqb_eq in Hs.
  assert (Hbits : forall i, Z.testbit (m_pseudoMask m) i && Z.testbit bit i = false) by (intros i; rewrite <- Z.land_spec, Hs; apply Z.bits_0).
  change (seqZ 0 8) with [0; 1; 2; 3; 4; 5; 6; 7]. cbn [foldr]. rewrite !Z.lor_spec.
  rewrite !elem_of_cons, elem_of_nil in Hb. destruct Hb as [-> | [-> | [-> | [-> | [-> | []]]]]];
    [specialize (Hbits 0) | specialize (Hbits 1) | specialize (Hbits 2) | specialize (Hbits 3) | specialize (Hbits 4)];
    match type of Hbits with _ && ?b = _ => change b with true in Hbits end; rewrite andb_true_r in Hbits; rewrite Hbits; rewrite !orb_false_l;
    repeat match goal with |- context [Z.testbit (Zpos ?p) ?i || _] => fail 1 | |- context [Z.testbit ?c ?i] => match c with m_pseudoMask _ => fail 1 | _ => let v := eval vm_compute in (Z.testbit c i) in change (Z.testbit c i) with v end end;
    rewrite ?orb_false_r; cbv iota; ring.
Qed.

Lemma section_step ps rs m f m' : readSoFar false ps rs (with_count (zlen (ps ++ rs)) m) -> h3PseudoFieldCount m = zlen ps -> observeHeader m f.1 f.2 = Some m' ->
  exists ps' rs', (ps ++ rs) ++ [f] = ps' ++ rs' /\ readSoFar false ps' rs' (with_count (zlen (ps' ++ rs')) m') /\ h3PseudoFieldCount m' = zlen ps'.
Proof.
  intros R Hc Ho. pose proof (observe_count (zlen (ps ++ rs)) m f.1 f.2) as Ho'. rewrite Ho in Ho'. cbn [fmap option_fmap option_map] in Ho'.
  assert (Ecount : forall ps' rs', (ps ++ rs) ++ [f] = ps' ++ rs' -> with_count (zlen (ps' ++ rs')) m' = count_header (with_count (zlen (ps ++ rs)) m')) by (intros ps' rs' <-; rewrite zlen_snoc; done).
  destruct (observe_cases m f m' Ho) as [(H1 & H2 & H3 & H4) | [Hf Hreg]].
  - assert (rs = []) as -> by exact (rf_regular _ _ _ _ R H1). exists (ps ++ [f]), []. assert (E : (ps ++ []) ++ [f] = (ps ++ [f]) ++ []) by (by rewrite !app_nil_r). split; [exact E |]. rewrite (Ecount _ _ E), zlen_snoc, <- Hc. split.
    + destruct (observe_cases _ f _ Ho') as [(G1 & G2 & G3 & G4) | [[_ [Hn _]] _]]; [by apply (read_pseudo false ps (with_count (zlen (ps ++ [])) m)) | destruct H4; by destruct Hn].
    + destruct H4; (eapply (count_mark m); [| exact H2 | reflexivity]); cbn [fst]; unfold bitOf; names_compute; rewrite !elem_of_cons; tauto.
  - assert (E : (ps ++ rs) ++ [f] = ps ++ (rs ++ [f])) by (by rewrite app_assoc). exists ps, (rs ++ [f]). split; [exact E |]. rewrite (Ecount _ _ E). destruct Hreg as [[Hn ->] | (Hn & n & Hp & He & ->)].
    + split; [by apply (read_regular false ps rs (with_count _ m)) | exact Hc].
    + split; [by apply (read_length false ps rs (with_count _ m)) | exact Hc].
Qed.

Lemma section_split fields : forall ps rs m m', readSoFar false ps rs (with_count (zlen (ps ++ rs)) m) -> h3PseudoFieldCount m = zlen ps -> observeAll m fields = Some m' ->
  exists ps' rs', (ps ++ rs) ++ fields = ps' ++ rs' /\ readSoFar false ps' rs' (with_count (zlen (ps' ++ rs')) m') /\ h3PseudoFieldCount m' = zlen ps'.
Proof.
  induction fields as [| f fields IH]; intros ps rs m m' R Hc; cbn [observeAll]; [intros [= <-]; exists ps, rs; by rewrite app_nil_r |].
  destruct (observeHeader m f.1 f.2) as [m1 |] eqn:E; [| done]. intros Ho. destruct (section_step ps rs m f m1 R Hc E) as (ps1 & rs1 & E1 & R1 & C1). destruct (IH ps1 rs1 m1 m' R1 C1 Ho) as (ps' & rs' & E' & R'). exists ps', rs'.
  split; [| done]. rewrite <- E', <- E1, <- !app_assoc. done.
Qed.

(** What a validated section is: its pseudo-header fields, then the fields a
    handler sees. *)
Definition h3WellFormed (headers : list field) (m : hpackRequestMeta) (fields : list field) : Prop :=
  exists ps, fields = ps ++ headers /\ NoDup (map fst ps) /\ Forall (fun f => f.1 ∈ pseudoNames /\ pseudoValue f /\ f.1 <> str ":protocol") ps /\ Forall regularField headers /\
    m_method m = valueOf ps (str ":method") /\ isH1Token (m_method m) = true /\ m_scheme m = valueOf ps (str ":scheme") /\ m_authority m = valueOf ps (str ":authority") /\ m_rawPath m = valueOf ps (str ":path") /\
    m_path m = (if bool_decide (str ":path" ∈ map fst ps) then sanitizeRequestPath (m_rawPath m) else []) /\
    (str ":path" ∈ map fst ps -> h3ValidRequestTarget (m_rawPath m) (m_method m) = true) /\
    (forall v, (str "content-length", v) ∈ headers -> parseUint v = Some (declaredLength m)) /\ (declaredLength m <> -1 -> exists v, (str "content-length", v) ∈ headers) /\
    requestForm false ps m.

Lemma section_wellFormed fields limit meta : h3ValidateRequestSection fields limit = Ok meta -> h3FieldSectionSize fields <= limit /\ h3WellFormed (zdrop (h3PseudoFieldCount meta) fields) meta fields.
Proof.
  unfold h3ValidateRequestSection. destruct (limit <? _) eqn:El; [done |]. destruct (observeAll _ fields) as [m |] eqn:Eo; [| done]. destruct (validate m) eqn:Ev; [| done]. cbn [negb]. destruct (isH1Token (m_method m)) eqn:Et; [| done]. cbn [negb].
  destruct (seen m hpackPseudoPath && _) eqn:Ep; [done |]. intros [= <-]. split; [lia |]. destruct (section_split fields [] [] (newMeta false) m) as (ps & rs & E & R & C); [apply (readSoFar_start false) | done | done |]. cbn [app] in E. subst fields. rewrite C, zdrop_app_exact.
  exists ps. pose proof (validate_form false ps rs _ R Ev) as Hform. split_and!; try apply R; try done.
  - eapply Forall_impl; [apply R |]. intros f (F1 & F2 & F3). split_and!; try done. intros Hp. by apply F3 in Hp.
  - intros Hin. pose proof (rf_seen _ _ _ _ R (str ":path") ltac:(unfold pseudoNames; rewrite !elem_of_cons; tauto)) as Hs. rewrite bool_decide_eq_true_2 in Hs by done. change (seen (with_count _ m) (bitOf (str ":path"))) with (seen m hpackPseudoPath) in Hs. rewrite Hs in Ep. cbn [andb] in Ep. by apply negb_false_iff in Ep.
  - intros v Hin. destruct (rf_length _ _ _ _ R v Hin) as [H1 H2]. cbn [m_hasContentLength m_contentLength with_count] in H1, H2. unfold declaredLength. by rewrite H1.
  - unfold declaredLength. destruct (m_hasContentLength m) eqn:Eh; [| done]. intros _. by apply (rf_declared _ _ _ _ R).
Qed.

(** ** The cache *)

Definition sections_ok (c : qpackBlockCache) : Prop :=
  forall block cs, bc_m c !! block = Some cs -> exists fields, qpackDecodeAppend block [] = Ok fields /\ h3ValidateRequestSection fields h3MaxFieldSectionSize = Ok (cs_meta cs) /\
    cs_regular cs = zdrop (h3PseudoFieldCount (cs_meta cs)) fields /\ cs_size cs = h3FieldSectionSize fields.

(** The section read without the cache. *)
Definition plainSection (limit : Z) (block : bytes) : res Z (hpackRequestMeta * list field) :=
  match qpackDecodeAppend block [] with
  | Err e => Err (qpackStatus e)
  | Ok fields => match h3ValidateRequestSection fields limit with Err e => Err (sectionStatus e) | Ok meta => Ok (meta, zdrop (h3PseudoFieldCount meta) fields) end
  end.

Lemma validate_limit fields l1 l2 : h3FieldSectionSize fields <= l1 -> h3ValidateRequestSection fields l2 = if l2 <? h3FieldSectionSize fields then Err errH3FieldSectionTooLarge else h3ValidateRequestSection fields l1.
Proof. intros H. unfold h3ValidateRequestSection. replace (l1 <? _) with false by lia. by destruct (l2 <? _). Qed.

Lemma put_ok c block fields : sections_ok c -> qpackDecodeAppend block [] = Ok fields -> sections_ok (blockCache_put c block fields).
Proof.
  intros Hc Hd. unfold blockCache_put. destruct (negb (hasRoomLocked c (zlen block))); [done |]. cbv zeta. destruct (h3ValidateRequestSection _ _) as [meta |] eqn:Ev; [| done]. destruct (hasRoomLocked c _); [| done]. destruct (bc_m c !! block) eqn:Em; [done |].
  intros b cs. cbn [bc_m]. destruct (decide (block = b)) as [<- | Hne]; [rewrite lookup_insert_eq; intros [= <-]; by exists fields | rewrite lookup_insert_ne by done; apply Hc].
Qed.

Lemma decodeRequestSection_plain c limit block : sections_ok c -> exists c', decodeRequestSection c limit block = (plainSection limit block, c') /\ sections_ok c'.
Proof.
  intros Hc. unfold decodeRequestSection, plainSection. destruct (bc_m c !! block) as [cs |] eqn:E.
  - destruct (Hc block cs E) as (fields & -> & Hv & Hr & Hs). exists c. split; [| done]. pose proof (proj1 (section_wellFormed _ _ _ Hv)) as Hsz. rewrite (validate_limit fields _ limit Hsz), Hs. destruct (limit <? _); [done |]. by rewrite Hv, Hr.
  - destruct (qpackDecodeAppend block []) as [fields | e] eqn:Ed; [| by exists c]. destruct (h3ValidateRequestSection fields limit) as [meta | e]; [| by exists c]. eexists. split; [done |]. by apply put_ok.
Qed.

(** ** Frames *)

Inductive framed : bytes -> list (Z * bytes) -> Prop :=
| framed_nil : framed [] []
| framed_cons data t payload rest frames : frame_next data = Some (t, payload, rest) -> framed rest frames -> framed data ((t, payload) :: frames).

Lemma frame_next_shrinks data t payload rest : bytes_ok data -> frame_next data = Some (t, payload, rest) -> (length rest < length data)%nat /\ bytes_ok rest.
Proof.
  intros Hok. unfold frame_next. destruct (zlen data =? 0); [done |]. destruct (quicParseVarint data) as [ft n] eqn:E1. destruct (n =? 0) eqn:En; [done |]. destruct (quicParseVarint (zdrop n data)) as [fl k] eqn:E2. destruct (k =? 0) eqn:Ek; [done |].
  destruct (_ <? fl); [done |]. intros [= <- <- <-]. destruct (parse_inv _ _ _ Hok E1) as [[_ ->] | (enc & tl & -> & Hl & _ & _ & Hn & _)]; [done |].
  split; [| by apply zdrop_ok, zdrop_ok, zdrop_ok]. pose proof (length_zdrop fl (zdrop k (zdrop n (enc ++ tl)))). pose proof (length_zdrop k (zdrop n (enc ++ tl))). subst n. rewrite zdrop_app_exact in *. rewrite length_app. unfold zlen in Hn. lia.
Qed.
Lemma frame_next_nil : frame_next [] = None.
Proof. done. Qed.

(** A frame without the cache. *)
Definition emptyBlocks : qpackBlockCache := mkBlockCache ∅ 0.
Definition plainFrame (cfg : h3Config) (rd : h3Reading) (f : Z * bytes) : h3Outcome + h3Reading := (h3Frame cfg emptyBlocks rd f.1 f.2).1.
Fixpoint plainFrames (cfg : h3Config) (rd : h3Reading) (frames : list (Z * bytes)) : h3Outcome + h3Reading :=
  match frames with [] => inr rd | f :: frames => match plainFrame cfg rd f with inl o => inl o | inr rd => plainFrames cfg rd frames end end.

Lemma emptyBlocks_ok : sections_ok emptyBlocks.
Proof. intros block cs. cbn [bc_m emptyBlocks]. by rewrite lookup_empty. Qed.
Lemma h3Frame_plain cfg c rd f : sections_ok c -> exists c', h3Frame cfg c rd f.1 f.2 = (plainFrame cfg rd f, c') /\ sections_ok c'.
Proof.
  intros Hc. unfold plainFrame, h3Frame. destruct (decodeRequestSection_plain c (h3_limit cfg) f.2 Hc) as (c1 & -> & H1). destruct (decodeRequestSection_plain emptyBlocks (h3_limit cfg) f.2 emptyBlocks_ok) as (c2 & -> & _).
  repeat match goal with |- context [if ?b then _ else _] => destruct b | |- context [match decodeTrailerSection ?l ?p with _ => _ end] => destruct (decodeTrailerSection l p) | |- context [match plainSection ?l ?p with _ => _ end] => destruct (plainSection l p) as [[? ?] |] end; by eexists.
Qed.

Lemma loop_plain fuel cfg : forall c rd data, sections_ok c -> bytes_ok data -> (length data <= fuel)%nat ->
  exists o c', h3RequestLoop fuel cfg c rd data = (Some o, c') /\ sections_ok c' /\
    forall req, o = H3Dispatch req <-> exists frames rd', framed data frames /\ plainFrames cfg rd frames = inr rd' /\ h3Finish cfg rd' = H3Dispatch req.
Proof.
  assert (Hnone : forall rd data, frame_next data = None -> forall req, (if negb (zlen data =? 0) then H3Close h3ErrFrame else h3Finish cfg rd) = H3Dispatch req <->
    exists frames rd', framed data frames /\ plainFrames cfg rd frames = inr rd' /\ h3Finish cfg rd' = H3Dispatch req).
  { intros rd data E req. split.
    - destruct data as [| b data]; [intros H; exists [], rd; split; [constructor | done] |]. rewrite zlen_cons. pose proof (zlen_nonneg data). by replace (1 + zlen data =? 0) with false by lia.
    - intros (frames & rd' & Hf & Hp & Hd). inversion Hf; subst; [by injection Hp as ->| congruence]. }
  induction fuel as [| fuel IH]; intros c rd data Hc Hok Hl; cbn [h3RequestLoop].
  { destruct data; [| cbn in Hl; lia]. rewrite frame_next_nil. eexists _, c. split; [done |]. split; [done |]. exact (Hnone rd [] frame_next_nil). }
  destruct (frame_next data) as [[[t payload] rest] |] eqn:E; [| eexists _, c; split; [done |]; split; [done | exact (Hnone rd data E)]].
  destruct (frame_next_shrinks _ _ _ _ Hok E) as [Hs Hok']. destruct (h3Frame_plain cfg c rd (t, payload) Hc) as (c1 & Ef & Hc1). cbn [fst snd] in Ef. rewrite Ef.
  assert (Hiff : forall P : list (Z * bytes) -> Prop, (exists frames, framed data frames /\ P frames) <-> exists frames, framed rest frames /\ P ((t, payload) :: frames)).
  { intros P. split; [intros (frames & Hf & HP); inversion Hf; subst; [by rewrite frame_next_nil in E |]; match goal with H : frame_next data = _ |- _ => rewrite E in H; injection H as <- <- <- end; by eexists | intros (frames & Hf & HP); eexists; split; [by econstructor | done]]. }
  destruct (plainFrame cfg rd (t, payload)) as [o | rd1] eqn:Ep.
  - exists o, c1. split; [done |]. split; [done |]. intros req. split.
    + intros ->. unfold plainFrame, h3Frame in Ep. destruct (decodeRequestSection_plain emptyBlocks (h3_limit cfg) payload emptyBlocks_ok) as (c2 & E2 & _). cbn [fst snd] in Ep. rewrite E2 in Ep.
      repeat match goal with H : context [if ?b then _ else _] |- _ => destruct b | H : context [match decodeTrailerSection ?l ?p with _ => _ end] |- _ => destruct (decodeTrailerSection l p) | H : context [match plainSection ?l ?p with _ => _ end] |- _ => destruct (plainSection l p) as [[? ?] |] end; discriminate Ep.
    + intros (frames & rd' & Hf & Hp & _). destruct (proj1 (Hiff (fun fs => plainFrames cfg rd fs = inr rd')) (ex_intro _ frames (conj Hf Hp))) as (fs & _ & Hp'). cbn [plainFrames] in Hp'. by rewrite Ep in Hp'.
  - destruct (IH c1 rd1 rest Hc1 Hok' ltac:(lia)) as (o & c' & El & Hc' & Ho). exists o, c'. split; [done |]. split; [done |]. intros req. rewrite Ho. split.
    + intros (frames & rd' & Hf & Hp & Hd). exists ((t, payload) :: frames), rd'. split; [by econstructor |]. cbn [plainFrames]. by rewrite Ep.
    + intros (frames & rd' & Hf & Hp & Hd). destruct (proj1 (Hiff (fun fs => plainFrames cfg rd fs = inr rd')) (ex_intro _ frames (conj Hf Hp))) as (fs & Hf' & Hp'). cbn [plainFrames] in Hp'. rewrite Ep in Hp'. by exists fs, rd'.
Qed.

(** ** The grammar of a stream *)

Definition meaningful (f : Z * bytes) : bool := (f.1 =? h3FrameHeaders) || (f.1 =? h3FrameData).
Definition refused (f : Z * bytes) : bool :=
  existsb (Z.eqb f.1) [h3FrameSettings; h3FrameGoaway; h3FrameMaxPushID; h3FrameCancelPush; h3FramePushPromise] || h3FrameTypeReservedFromHTTP2 f.1.

(** A frame by what it is. *)
Lemma plainFrame_cases cfg rd f : plainFrame cfg rd f =
  if f.1 =? h3FrameHeaders then
    if rd_trailersSeen rd then inl (H3Close h3ErrFrameUnexpected)
    else if rd_headersSeen rd then
      match decodeTrailerSection (h3_limit cfg) f.2 with Err status => inl (H3Answer status) | Ok t => inr (mkReading true true (mkH3Request (q_meta (rd_req rd)) (q_headers (rd_req rd)) (q_body (rd_req rd)) t)) end
    else match plainSection (h3_limit cfg) f.2 with Err status => inl (H3Answer status) | Ok (meta, headers) => inr (mkReading true false (mkH3Request meta headers (q_body (rd_req rd)) (q_trailers (rd_req rd)))) end
  else if f.1 =? h3FrameData then
    if negb (rd_headersSeen rd) || rd_trailersSeen rd then inl (H3Close h3ErrFrameUnexpected)
    else if h3_bodyTooLarge cfg (zlen (q_body (rd_req rd) ++ f.2)) then inl (H3Answer 413)
    else inr (mkReading (rd_headersSeen rd) (rd_trailersSeen rd) (mkH3Request (q_meta (rd_req rd)) (q_headers (rd_req rd)) (q_body (rd_req rd) ++ f.2) (q_trailers (rd_req rd))))
  else if refused f then inl (H3Close h3ErrFrameUnexpected) else inr rd.
Proof.
  unfold plainFrame, h3Frame, refused. destruct (decodeRequestSection_plain emptyBlocks (h3_limit cfg) f.2 emptyBlocks_ok) as (c2 & -> & _). cbv zeta.
  destruct (f.1 =? h3FrameHeaders); [destruct (rd_trailersSeen rd); [done |]; destruct (rd_headersSeen rd); [by destruct (decodeTrailerSection _ _) | by destruct (plainSection _ _) as [[? ?] |]] |].
  destruct (f.1 =? h3FrameData); [destruct (_ || _); [done |]; by destruct (h3_bodyTooLarge _ _) |]. cbn [existsb].
  by destruct (f.1 =? h3FrameSettings), (f.1 =? h3FrameGoaway), (f.1 =? h3FrameMaxPushID), (f.1 =? h3FrameCancelPush), (f.1 =? h3FramePushPromise), (h3FrameTypeReservedFromHTTP2 f.1).
Qed.

Definition bodyOf (req : h3Request) (body : bytes) (trailers : list field) : h3Request := mkH3Request (q_meta req) (q_headers req) body trailers.

(** After the trailers nothing that matters may follow. *)
Lemma frames_trailing cfg req frames rd' : plainFrames cfg (mkReading true true req) frames = inr rd' <->
  (Forall (fun f => refused f = false) frames /\ List.filter meaningful frames = []) /\ rd' = mkReading true true req.
Proof.
  induction frames as [| f frames IH]; cbn [plainFrames List.filter]; [split; [intros [= <-]; done | by intros [_ ->]] |]. rewrite plainFrame_cases, Forall_cons. cbn [rd_trailersSeen rd_headersSeen negb orb]. unfold meaningful at 1.
  destruct (f.1 =? h3FrameHeaders) eqn:E1; [split; [done | by intros [[_ H] _]] |]. destruct (f.1 =? h3FrameData) eqn:E2; [split; [done | by intros [[_ H] _]] |]. cbn [orb]. destruct (refused f); [split; [done | by intros [[[H _] _] _]] |]. rewrite IH. tauto.
Qed.

Definition payloads (t : Z) (ps : list bytes) : list (Z * bytes) := map (pair t) ps.

(** After the header section: the body, then at most one trailer section. *)
Definition trailersOf (cfg : h3Config) (old : list field) (blocks : list bytes) (trailers : list field) : Prop :=
  match blocks with [] => trailers = old | [block] => decodeTrailerSection (h3_limit cfg) block = Ok trailers | _ => False end.

Lemma tooLarge_mono cfg a b : a <= b -> h3_bodyTooLarge cfg b = false -> h3_bodyTooLarge cfg a = false.
Proof. unfold h3_bodyTooLarge. lia. Qed.

Lemma frames_body cfg frames : forall req rd', h3_bodyTooLarge cfg (zlen (q_body req)) = false ->
  plainFrames cfg (mkReading true false req) frames = inr rd' <->
  exists chunks blocks trailers, Forall (fun f => refused f = false) frames /\ List.filter meaningful frames = payloads h3FrameData chunks ++ payloads h3FrameHeaders blocks /\
    h3_bodyTooLarge cfg (zlen (q_body req ++ concat chunks)) = false /\ trailersOf cfg (q_trailers req) blocks trailers /\
    rd' = mkReading true (match blocks with [] => false | _ => true end) (bodyOf req (q_body req ++ concat chunks) trailers).
Proof.
  induction frames as [| f frames IH]; intros req rd' Hb; cbn [plainFrames List.filter].
  { split; [intros [= <-]; exists [], [], (q_trailers req); cbn [concat payloads map app]; rewrite app_nil_r; split_and!; first [done | apply Forall_nil_2 | by destruct req] |].
    intros (chunks & blocks & trailers & _ & Hf & _ & Ht & ->). destruct chunks; [| discriminate Hf]. destruct blocks; [| discriminate Hf]. cbn in Ht. subst. cbn [concat]. rewrite app_nil_r. by destruct req. }
  rewrite plainFrame_cases. cbn [rd_trailersSeen rd_headersSeen rd_req negb orb]. unfold meaningful at 1. setoid_rewrite Forall_cons. destruct f as [t p]. cbn [fst snd].
  destruct (t =? h3FrameHeaders) eqn:E1; [| destruct (t =? h3FrameData) eqn:E2]; cbn [orb].
  - apply Z.eqb_eq in E1. subst t. assert (Href : refused (h3FrameHeaders, p) = false) by reflexivity. split.
    + destruct (decodeTrailerSection _ p) as [tr | st] eqn:Et; [| done]. intros H. apply frames_trailing in H as [[H1 H2] ->]. exists [], [p], tr. rewrite H2. cbn [concat payloads map app trailersOf]. rewrite app_nil_r. by split_and!.
    + intros (chunks & blocks & trailers & [_ H1] & Hf & _ & Ht & ->). destruct chunks as [| ch chunks]; [| discriminate Hf]. destruct blocks as [| b [| b2 blocks]]; [discriminate Hf | | done]. cbn in Hf. injection Hf as <- Hf. cbn in Ht. rewrite Ht.
      cbn [concat]. rewrite app_nil_r. by apply frames_trailing.
  - apply Z.eqb_eq in E2. subst t. assert (Href : refused (h3FrameData, p) = false) by reflexivity. split.
    + destruct (h3_bodyTooLarge cfg (zlen (q_body req ++ p))) eqn:Ebig; [done |]. intros H. apply IH in H as (chunks & blocks & trailers & H1 & H2 & H3 & H4 & ->); [| done]. cbn [q_body q_trailers bodyOf q_meta q_headers] in *.
      exists (p :: chunks), blocks, trailers. cbn [concat payloads map app]. rewrite H2, app_assoc. by split_and!.
    + intros (chunks & blocks & trailers & [_ H1] & Hf & Hbig & Ht & ->). destruct chunks as [| ch chunks]; [destruct blocks; discriminate Hf |]. cbn in Hf. injection Hf as <- Hf. cbn [concat] in *. rewrite app_assoc in *.
      assert (Ebig : h3_bodyTooLarge cfg (zlen (q_body req ++ p)) = false) by (eapply tooLarge_mono; [| exact Hbig]; rewrite (zlen_app (q_body req ++ p)); pose proof (zlen_nonneg (concat chunks)); lia). rewrite Ebig.
      apply IH; [done |]. exists chunks, blocks, trailers. by split_and!.
  - destruct (refused (t, p)) eqn:Er; [split; [done | by intros (? & ? & ? & [H _] & _)] |]. rewrite IH by done. split; intros (chunks & blocks & trailers & H); exists chunks, blocks, trailers; tauto.
Qed.

(** A whole stream. *)
Definition streamReads (cfg : h3Config) (frames : list (Z * bytes)) (req : h3Request) : Prop :=
  exists block chunks blocks, Forall (fun f => refused f = false) frames /\
    List.filter meaningful frames = (h3FrameHeaders, block) :: payloads h3FrameData chunks ++ payloads h3FrameHeaders blocks /\
    plainSection (h3_limit cfg) block = Ok (q_meta req, q_headers req) /\ q_body req = concat chunks /\ h3_bodyTooLarge cfg (zlen (q_body req)) = false /\ trailersOf cfg [] blocks (q_trailers req).

Lemma empty_fits cfg : h3_bodyTooLarge cfg 0 = false.
Proof. unfold h3_bodyTooLarge. lia. Qed.

Lemma frames_stream cfg frames rd' : plainFrames cfg startReading frames = inr rd' -> (rd_headersSeen rd' = false \/ streamReads cfg frames (rd_req rd')).
Proof.
  pose proof (empty_fits cfg) as Hz. unfold startReading. induction frames as [| f frames IH]; cbn [plainFrames]; [intros [= <-]; by left |]. rewrite plainFrame_cases. cbn [rd_trailersSeen rd_headersSeen rd_req negb orb q_body q_trailers].
  unfold streamReads. setoid_rewrite Forall_cons. cbn [List.filter]. unfold meaningful at 1. destruct f as [t p]. cbn [fst snd]. destruct (t =? h3FrameHeaders) eqn:E1; [| destruct (t =? h3FrameData) eqn:E2]; cbn [orb]; [| done |].
  - apply Z.eqb_eq in E1. subst t. destruct (plainSection _ p) as [[meta headers] | st] eqn:Es; [| done]. intros H. right. apply frames_body in H as (chunks & blocks & trailers & H1 & H2 & H3 & H4 & ->); [| done].
    cbn [q_body q_trailers bodyOf q_meta q_headers rd_req app] in *. exists p, chunks, blocks. rewrite H2. split_and!; try done; reflexivity.
  - destruct (refused (t, p)) eqn:Er; [done |]. intros H. destruct (IH H) as [H' | (block & chunks & blocks & H1 & H2)]; [by left |]. right. by exists block, chunks, blocks.
Qed.
Lemma stream_frames cfg frames req : streamReads cfg frames req -> exists tr, plainFrames cfg startReading frames = inr (mkReading true tr req).
Proof.
  pose proof (empty_fits cfg) as Hz. unfold startReading. induction frames as [| f frames IH]; intros (block & chunks & blocks & H1 & H2 & H3 & H4 & H5 & H6); [discriminate H2 |]. cbn [plainFrames]. rewrite plainFrame_cases. cbn [rd_trailersSeen rd_headersSeen rd_req negb orb q_body q_trailers].
  apply Forall_cons in H1 as [Hr H1]. destruct f as [t p]. cbn [List.filter] in H2. unfold meaningful at 1 in H2. cbn [fst snd] in *. destruct (t =? h3FrameHeaders) eqn:E1; [| destruct (t =? h3FrameData) eqn:E2]; cbn [orb] in H2.
  - injection H2 as -> -> H2. rewrite H3. eexists. apply frames_body; [done |]. exists chunks, blocks, (q_trailers req). cbn [q_body q_trailers bodyOf q_meta q_headers app]. rewrite <- H4. split_and!; try done. by destruct req.
  - injection H2 as -> _ _. done.
  - rewrite Hr. apply IH. by exists block, chunks, blocks.
Qed.

(** ** The streams of a server *)

Fixpoint h3Streams (cfg : h3Config) (c : qpackBlockCache) (streams : list (bool * bytes)) : list (option h3Outcome) :=
  match streams with
  | [] => []
  | (overflowed, data) :: streams => let '(o, c) := handleRequestStream cfg c overflowed data in o :: h3Streams cfg c streams
  end.

(** What reaches a handler. *)
Definition accepted (cfg : h3Config) (stream : bool * bytes) (req : h3Request) : Prop :=
  stream.1 = false /\ (exists frames, framed stream.2 frames /\ streamReads cfg frames req) /\
  m_path (q_meta req) <> [] /\ (0 <= declaredLength (q_meta req) -> declaredLength (q_meta req) = zlen (q_body req)) /\ h3_misdirects cfg (m_authority (q_meta req)) = false.

(** What a handler may rely on. *)
Definition delivered (cfg : h3Config) (req : h3Request) : Prop :=
  exists fields, h3FieldSectionSize fields <= h3_limit cfg /\ zlen fields <= qpackMaxHeaders /\ h3WellFormed (q_headers req) (q_meta req) fields.

Lemma finish_dispatch cfg rd req : h3Finish cfg rd = H3Dispatch req <->
  rd_headersSeen rd = true /\ rd_req rd = req /\ m_path (q_meta req) <> [] /\ (0 <= declaredLength (q_meta req) -> declaredLength (q_meta req) = zlen (q_body req)) /\ h3_misdirects cfg (m_authority (q_meta req)) = false.
Proof.
  unfold h3Finish. destruct (rd_headersSeen rd); cbn [negb orb]; [| split; [done | by intros [? _]]]. destruct (zlen (m_path (q_meta (rd_req rd))) =? 0) eqn:E1.
  { apply zlen_is_nil in E1. split; [done |]. by intros (_ & <- & H & _). }
  assert (Hp : m_path (q_meta (rd_req rd)) <> []) by (intros H; apply zlen_is_nil in H; congruence). destruct ((0 <=? _) && _) eqn:E2.
  { split; [done |]. intros (_ & <- & _ & H & _). lia. }
  destruct (h3_misdirects _ _) eqn:E3; [split; [done |]; intros (_ & <- & _ & _ & H); congruence |]. split; [intros [= <-]; split_and!; try done; lia | by intros (_ & <- & _)].
Qed.

Lemma qpackLoop_count fuel : forall data headers fields, zlen headers <= qpackMaxHeaders -> qpackLoop fuel data headers = Ok fields -> zlen fields <= qpackMaxHeaders.
Proof.
  induction fuel as [| fuel IH]; intros [| b data] headers fields Hl; cbn [qpackLoop]; try (by intros [= <-]). destruct (qpackStep b (b :: data)) as [[f rest] | e]; [| done]. cbn [res_bind fst snd]. destruct (qpackMaxHeaders <? _) eqn:E; [done |]. apply IH. lia.
Qed.

Lemma section_delivered cfg block req : plainSection (h3_limit cfg) block = Ok (q_meta req, q_headers req) -> delivered cfg req.
Proof.
  unfold plainSection. destruct (qpackDecodeAppend block []) as [fields | e] eqn:Ed; [| done]. destruct (h3ValidateRequestSection fields _) as [meta | e] eqn:Ev; [| done]. intros [= Em Eh].
  destruct (section_wellFormed _ _ _ Ev) as [H1 H2]. rewrite Em in Eh, H2. rewrite Eh in H2. exists fields. split_and!; [done | | done]. unfold qpackDecodeAppend in Ed. destruct (_ <? 2); [done |]. destruct (HpackDecodeInt block 8) as [ric n]. destruct (n =? 0); [done |]. destruct (negb (ric =? 0)); [done |].
  cbv zeta in Ed. destruct (HpackDecodeInt _ 7) as [x sn]. destruct (sn =? 0); [done |]. destruct (negb _); [done |]. by eapply qpackLoop_count; [| exact Ed].
Qed.

Lemma stream_outcome cfg c overflowed data : sections_ok c -> bytes_ok data -> exists o c', handleRequestStream cfg c overflowed data = (Some o, c') /\ sections_ok c' /\
  forall req, (o = H3Dispatch req <-> accepted cfg (overflowed, data) req) /\ (o = H3Dispatch req -> delivered cfg req).
Proof.
  intros Hc Hok. unfold handleRequestStream, accepted. cbn [fst snd]. destruct overflowed; [exists (H3Answer 413), c; split; [done |]; split; [done |]; intros req; by split; [split; [| by intros [? _]] |] |].
  destruct (loop_plain (length data) cfg c startReading data Hc Hok ltac:(lia)) as (o & c' & E & Hc' & Ho). exists o, c'. split; [done |]. split; [done |]. intros req.
  assert (Hiff : o = H3Dispatch req <-> accepted cfg (false, data) req).
  { rewrite Ho. unfold accepted. cbn [fst snd]. split.
    - intros (frames & rd' & Hf & Hp & Hd). apply finish_dispatch in Hd as (H1 & <- & H2). split; [done |]. split; [| done]. exists frames. split; [done |]. destruct (frames_stream cfg frames rd' Hp); [congruence | done].
    - intros (_ & (frames & Hf & Hs) & H). destruct (stream_frames cfg frames req Hs) as [tr Hp]. exists frames, (mkReading true tr req). split_and!; try done. by apply finish_dispatch. }
  split; [exact Hiff |]. intros H. apply Hiff in H as (_ & (frames & _ & block & chunks & blocks & _ & _ & H & _) & _). by eapply section_delivered.
Qed.

Lemma streams_outcome cfg streams : forall c, sections_ok c -> Forall (fun s => bytes_ok s.2) streams ->
  Forall2 (fun s o => exists out, o = Some out /\ forall req, (out = H3Dispatch req <-> accepted cfg s req) /\ (out = H3Dispatch req -> delivered cfg req)) streams (h3Streams cfg c streams).
Proof.
  induction streams as [| [overflowed data] streams IH]; intros c Hc Hok; [constructor |]. apply Forall_cons in Hok as [H1 Hok]. cbn [h3Streams snd] in *. destruct (stream_outcome cfg c overflowed data Hc H1) as (o & c' & -> & Hc' & Ho). constructor; [by exists o | by apply IH].
Qed.

(** C5: Every request stream of HTTP/3 gets an outcome, and which streams reach a
    handler does not depend on the cache of decoded blocks that they share: a
    request is dispatched exactly when its stream is one HEADERS frame, DATA frames
    and at most one more HEADERS frame, with unknown frames anywhere but none of
    those reserved or of other streams, when the sections decode and are valid, the
    body fits the limit and has the declared length, there is a path and the
    authority is served here. The handler then gets the concatenated body, and
    the fields without their pseudo-header fields, which came first, once each
    and well formed, within the limits on size and number. *)
Theorem h3_requests cfg streams : Forall (fun s => bytes_ok s.2) streams ->
  Forall2 (fun s o => exists out, o = Some out /\ forall req, (out = H3Dispatch req <-> accepted cfg s req) /\ (out = H3Dispatch req -> delivered cfg req)) streams (h3Streams cfg emptyBlocks streams).
Proof. apply streams_outcome, emptyBlocks_ok. Qed.

Definition demoCfg : h3Config := mkH3Config 16384 4 (fun a => bytes_eqb a (str "other")).
(** POST https://a/x?q with a length of 3, in two DATA frames around an unknown
    frame; the same with one byte less; and with a SETTINGS frame. *)
Definition demoBlock : bytes :=
  qpack_EncodeHeader (qpack_EncodeHeader (qpack_EncodeHeader (qpack_EncodeHeader (qpack_EncodeHeader (encodeRequiredInsertCount []) (str ":method") (str "POST")) (str ":scheme") (str "https")) (str ":authority") (str "a")) (str ":path") (str "/x?q")) (str "content-length") (str "3").
Definition demoStream (mid : Z) (body : bytes) : bytes := h3AppendFrame (h3AppendFrame (h3AppendFrame (h3AppendFrame [] 1 demoBlock) 0 [104]) mid [7; 7]) 0 body.
Definition demoStreams : list (bool * bytes) := [(false, demoStream 33 (str "ey")); (false, demoStream 33 (str "ey")); (false, demoStream 33 (str "e")); (false, demoStream 4 (str "ey")); (true, [])].

Lemma h3_requests_witness :
  (exists req, h3Streams demoCfg emptyBlocks demoStreams = [Some (H3Dispatch req); Some (H3Dispatch req); Some (H3Answer 400); Some (H3Close h3ErrFrameUnexpected); Some (H3Answer 413)] /\
    q_body req = str "hey" /\ q_headers req = [(str "content-length", str "3")] /\ m_path (q_meta req) = str "/x" /\ m_query (q_meta req) = str "q") /\
  Forall2 (fun s o => exists out, o = Some out /\ forall req, (out = H3Dispatch req <-> accepted demoCfg s req) /\ (out = H3Dispatch req -> delivered demoCfg req)) demoStreams (h3Streams demoCfg emptyBlocks demoStreams).
Proof.
  split; [eexists; split; [vm_compute; reflexivity | vm_compute; split_and!; reflexivity] |].
  assert (H : Forall (fun s : bool * bytes => bytes_ok s.2) demoStreams) by (unfold bytes_ok, is_u8; apply (bool_decide_unpack _); vm_compute; exact I).
  exact (h3_requests demoCfg demoStreams H).
Defined.
