(* ===== verification/QuicPacket.v ===== *)
(** QUIC packets (src/core/quic_packet.go and the packet protection of
    quic_crypto.go) and their receipt by a connection (quic_conn.go): the headers,
    packet numbers, header protection, coalesced packets of a datagram and the
    updates of keys. The AEAD and the mask of the header protection are
    parameters, kept with the keys. *)
From stdpp Require Import base list numbers.
From Stdlib Require Import ZArith Lia ZifyBool.
From S2P Require Import Prelude Utils QuicVarint.

Open Scope list_scope.
Open Scope Z_scope.

Definition quicVersion1 : Z := 1.
Definition quicLongHeaderBit : Z := 0x80.
Definition quicFixedBit : Z := 0x40.
Definition quicInitialType : Z := 0.
Definition quicZeroRTTType : Z := 1.
Definition quicHandshakeType : Z := 2.
Definition quicRetryType : Z := 3.
Definition quicPktInitial : Z := 0.
Definition quicPktHandshake : Z := 1.
Definition quicPktZeroRTT : Z := 2.
Definition quicPktRetry : Z := 3.
Definition quicPktShort : Z := 4.

(** Without [pn] and [pnLen], which are results of the decryption. *)
Record quicPacketHeader := mkHeader { hd_pktType : Z; hd_version : Z; hd_dcid : bytes; hd_scid : bytes; hd_token : bytes; hd_pnOffset : Z; hd_payloadOff : Z; hd_payloadLen : Z }.

(** ** Headers *)

Definition quicIsLongHeader (data : bytes) : bool := (0 <? zlen data) && negb (Z.land (znth data 0) quicLongHeaderBit =? 0).

(** The connection id a packet is addressed to; [nil] is empty. *)
Definition quicPacketDCID (data : bytes) (shortDCIDLen : Z) : bytes :=
  if zlen data =? 0 then []
  else if Z.land (znth data 0) quicLongHeaderBit =? 0 then
    if zlen data <? 1 + shortDCIDLen then [] else zslice data 1 (1 + shortDCIDLen)
  else if (zlen data <? 6) || (zlen data <? 6 + znth data 5) then []
  else zslice data 6 (6 + znth data 5).

(** The header and the length of the packet; [None] is an error. *)
Definition quicParseLongHeader (data : bytes) : option (quicPacketHeader * Z) :=
  if zlen data <? 7 then None
  else
    let first := znth data 0 in
    if Z.land first quicLongHeaderBit =? 0 then None
    else
      let version := be_val (zslice data 1 5) in
      let dcidLen := znth data 5 in
      if (20 <? dcidLen) || (zlen data <=? 6 + dcidLen) then None
      else
        let dcid := zslice data 6 (6 + dcidLen) in
        let off := 6 + dcidLen in
        let scidLen := znth data off in
        let off := off + 1 in
        if (zlen data <? off + scidLen) || (20 <? scidLen) then None
        else
          let scid := zslice data off (off + scidLen) in
          let off := off + scidLen in
          if version =? 0 then Some (mkHeader (-1) version dcid scid [] 0 off (zlen data - off), zlen data)
          else
            let longType := Z.shiftr (Z.land first 0x30) 4 in
            if longType =? quicRetryType then Some (mkHeader quicPktRetry version dcid scid [] 0 off (zlen data - off), zlen data)
            else
              match
                (if longType =? quicInitialType then
                   let '(tokenLen, n) := quicParseVarint (zdrop off data) in
                   if n =? 0 then None
                   else let off := off + n in if zlen data <? off + tokenLen then None else Some (zslice data off (off + tokenLen), off + tokenLen)
                 else Some ([], off))
              with
              | None => None
              | Some (token, off) =>
                  let pktType := if longType =? quicInitialType then quicPktInitial else if longType =? quicHandshakeType then quicPktHandshake else quicPktZeroRTT in
                  let '(pktLen, n) := quicParseVarint (zdrop off data) in
                  if n =? 0 then None
                  else
                    let off := off + n in
                    if zlen data <? off + pktLen then None else Some (mkHeader pktType version dcid scid token off off pktLen, off + pktLen)
              end.

Definition quicParseShortHeader (data : bytes) (dcidLen : Z) : option quicPacketHeader :=
  if zlen data <? 1 + dcidLen then None
  else Some (mkHeader quicPktShort 0 (zslice data 1 (1 + dcidLen)) [] [] (1 + dcidLen) (1 + dcidLen) (zlen data - (1 + dcidLen))).

Definition quicBuildLongHeader (dst : bytes) (pktType version : Z) (dcid scid token : bytes) (pnLen : Z) : bytes :=
  let first := Z.lor (Z.lor (Z.lor quicLongHeaderBit quicFixedBit) (u8 (Z.shiftl pktType 4))) (u8 (pnLen - 1)) in
  let dst := dst ++ [first] ++ be_bytes 4 version ++ [u8 (zlen dcid)] ++ dcid ++ [u8 (zlen scid)] ++ scid in
  if pktType =? quicInitialType then quicAppendVarint dst (zlen token) ++ token else dst.

Definition quicAppendPacketNumber (dst : bytes) (pn pnLen : Z) : bytes := dst ++ be_bytes (Z.to_nat pnLen) pn.
Definition quicReadPacketNumber (data : bytes) (pnLen : Z) : Z := be_val (ztake pnLen data).

Definition quicBuildShortHeader (dst dcid : bytes) (pn pnLen keyPhase : Z) : bytes :=
  let first := Z.lor quicFixedBit (u8 (pnLen - 1)) in
  let first := if keyPhase =? 1 then Z.lor first 0x04 else first in
  dst ++ [first] ++ dcid ++ be_bytes (Z.to_nat pnLen) pn.

(** ** Packet numbers *)

Definition quicDecodePacketNumber (truncated truncatedLen largestRecvPN : Z) : Z :=
  let expectedPN := u64 (largestRecvPN + 1) in
  let pnWin := u64 (Z.shiftl 1 (truncatedLen * 8)) in
  let pnHalf := pnWin / 2 in
  let pnMask := pnWin - 1 in
  let candidate := Z.lor (Z.ldiff expectedPN pnMask) truncated in
  if (u64 (candidate + pnHalf) <=? expectedPN) && (candidate <? 2 ^ 62 - pnWin) then u64 (candidate + pnWin)
  else if (u64 (expectedPN + pnHalf) <? candidate) && (pnWin <=? candidate) then candidate - pnWin
  else candidate.

Definition quicEncodePacketNumber (pn largestAcked : Z) : Z * Z :=
  let numUnacked := u64 (pn - u64 largestAcked) in
  if numUnacked <? 0x80 then (Z.land pn 0xff, 1)
  else if numUnacked <? 0x8000 then (Z.land pn 0xffff, 2)
  else if numUnacked <? 0x800000 then (Z.land pn 0xffffff, 3)
  else (Z.land pn 0xffffffff, 4).

(** ** Protection *)

(** [quicKeys]; the functions of the AEAD take the nonce, the text and the
    associated data. *)
Record quicKeys := mkKeys {
  k_seal : bytes -> bytes -> bytes -> bytes;
  k_open : bytes -> bytes -> bytes -> option bytes;
  k_overhead : Z;
  k_mask : bytes -> bytes;
  k_iv : bytes;
  k_staticLen : Z;
  k_nonceSize : Z }.

Definition keys_nonce (k : quicKeys) (pn : Z) : bytes :=
  ztake (k_nonceSize k) (ztake (k_staticLen k) (k_iv k) ++ be_bytes 8 (Z.lxor (be_val (zslice (k_iv k) (k_staticLen k) (k_staticLen k + 8))) pn)).
Definition keys_encrypt (k : quicKeys) (dst header payload : bytes) (pn : Z) : bytes := dst ++ k_seal k (keys_nonce k pn) payload header.
Definition keys_decrypt (k : quicKeys) (header payload : bytes) (pn : Z) : option bytes := k_open k (keys_nonce k pn) payload header.

(** [packet[i] ^= v]. *)
Definition xorAt (i v : Z) (packet : bytes) : bytes := alter (fun b => Z.lxor b v) (Z.to_nat i) packet.
Definition xorRange (pnOffset : Z) (mask packet : bytes) (pnLen : Z) : bytes := foldl (fun packet i => xorAt (pnOffset + i) (znth mask (1 + i)) packet) packet (seqZ 0 pnLen).
Definition firstMask (packet mask : bytes) : Z := Z.land (znth mask 0) (if negb (Z.land (znth packet 0) 0x80 =? 0) then 0x0f else 0x1f).
Definition sampleOf (packet : bytes) (pnOffset : Z) : bytes := ztake 16 (zdrop (pnOffset + 4) packet).

Definition applyHeaderProtection (k : quicKeys) (packet : bytes) (pnOffset pnLen : Z) : bytes :=
  if zlen packet <? pnOffset + 4 + 16 then packet
  else
    let mask := k_mask k (sampleOf packet pnOffset) in
    xorRange pnOffset mask (xorAt 0 (firstMask packet mask) packet) pnLen.

(** The packet in clear and the length of its number, 0 when it is too short. *)
Definition removeHeaderProtection (k : quicKeys) (packet : bytes) (pnOffset : Z) : bytes * Z :=
  if zlen packet <? pnOffset + 4 + 16 then (packet, 0)
  else
    let mask := k_mask k (sampleOf packet pnOffset) in
    let packet := xorAt 0 (firstMask packet mask) packet in
    let pnLen := Z.land (znth packet 0) 0x03 + 1 in
    (xorRange pnOffset mask packet pnLen, pnLen).

Definition quicHPMinPNAndPayload : Z := 4.
Definition quicPadForHeaderProtection (payload : bytes) (pnLen : Z) : bytes := payload ++ replicate (Z.to_nat (quicHPMinPNAndPayload - pnLen - zlen payload)) 0.
Definition paddedPayload (payload : bytes) (pnLen : Z) : bytes := if pnLen + zlen payload <? quicHPMinPNAndPayload then quicPadForHeaderProtection payload pnLen else payload.

(** The part the builders of long packets share. *)
Definition buildLong (dst : bytes) (pktType : Z) (dcid scid token payload : bytes) (pn largestAcked : Z) (k : quicKeys) : bytes :=
  let '(truncatedPN, pnLen) := quicEncodePacketNumber pn largestAcked in
  let payload := paddedPayload payload pnLen in
  let header := quicBuildLongHeader [] pktType quicVersion1 dcid scid token pnLen in
  let header := quicAppendVarint header (pnLen + zlen payload + k_overhead k) in
  let pnOffset := zlen header in
  let header := quicAppendPacketNumber header truncatedPN pnLen in
  dst ++ applyHeaderProtection k (keys_encrypt k header header payload pn) pnOffset pnLen.
Definition quicBuildInitialPacket (dst dcid scid token payload : bytes) (pn largestAcked : Z) (k : quicKeys) : bytes := buildLong dst quicInitialType dcid scid token payload pn largestAcked k.
Definition quicBuildHandshakePacket (dst dcid scid payload : bytes) (pn largestAcked : Z) (k : quicKeys) : bytes := buildLong dst quicHandshakeType dcid scid [] payload pn largestAcked k.
Definition quicBuildShortPacket (dst dcid payload : bytes) (pn largestAcked : Z) (k : quicKeys) (keyPhase : Z) : bytes :=
  let '(truncatedPN, pnLen) := quicEncodePacketNumber pn largestAcked in
  let payload := paddedPayload payload pnLen in
  let header := quicBuildShortHeader [] dcid truncatedPN pnLen keyPhase in
  dst ++ applyHeaderProtection k (keys_encrypt k header header payload pn) (1 + zlen dcid) pnLen.

(** The number of the packet and its payload. *)
Definition quicDecryptPacket (packet : bytes) (hdr : quicPacketHeader) (k : quicKeys) (largest : Z) : option (Z * bytes) :=
  let '(packet, pnLen) := removeHeaderProtection k packet (hd_pnOffset hdr) in
  if pnLen =? 0 then None
  else
    let truncatedPN := quicReadPacketNumber (zdrop (hd_pnOffset hdr) packet) pnLen in
    let pn := quicDecodePacketNumber truncatedPN pnLen largest in
    let headerEnd := hd_pnOffset hdr + pnLen in
    let payloadEnd := hd_payloadOff hdr + hd_payloadLen hdr in
    if payloadEnd <? headerEnd then None
    else match keys_decrypt k (ztake headerEnd packet) (zslice packet headerEnd payloadEnd) pn with None => None | Some plaintext => Some (pn, plaintext) end.

(** ** A connection that receives datagrams *)

Record quicRecv := mkRecv {
  qr_srcCIDLen : Z;
  qr_initial : option quicKeys;
  qr_handshake : option quicKeys;
  qr_app : option quicKeys;
  qr_largest : list Z;
  qr_handshakeDone : bool;
  qr_origHP : option (bytes -> bytes);
  qr_phase : Z;
  qr_next : option quicKeys;
  qr_prev : option quicKeys;
  qr_prevRetire : Z;
  qr_updatePN : Z }.

Definition largestOf (c : quicRecv) (space : nat) : Z := nth space (qr_largest c) (-1).

Section Receive.

(** What the frames of a packet do to the keys (the TLS handshake), the next
    traffic keys ([deriveNextRecvKeys]; [None] without a secret), the timeout of
    probes, and the clock. *)
Context (handshake : quicRecv -> nat -> bytes -> quicRecv) (derive : quicKeys -> option quicKeys) (ptoRetire : Z) (clock : Z).

(** [processFrames]: the number noted, the frames handed on. *)
Definition deliverFrames (c : quicRecv) (space : nat) (pn : Z) (frames : bytes) : quicRecv :=
  let largest := if largestOf c space <? i64 pn then <[space := i64 pn]> (qr_largest c) else qr_largest c in
  handshake (mkRecv (qr_srcCIDLen c) (qr_initial c) (qr_handshake c) (qr_app c) largest (qr_handshakeDone c) (qr_origHP c) (qr_phase c) (qr_next c) (qr_prev c) (qr_prevRetire c) (qr_updatePN c)) space frames.

(** A packet that was opened: its space, number and frames. *)
Abbreviation opened := (nat * Z * bytes)%type.

Definition handleInitialPacket (c : quicRecv) (packet : bytes) (hdr : quicPacketHeader) : quicRecv * list opened :=
  match qr_initial c with
  | None => (c, [])
  | Some k => match quicDecryptPacket packet hdr k (largestOf c 0) with None => (c, []) | Some (pn, plain) => (deliverFrames c 0 pn plain, [(0%nat, pn, plain)]) end
  end.

Definition discardInitialKeys (c : quicRecv) : quicRecv :=
  mkRecv (qr_srcCIDLen c) None (qr_handshake c) (qr_app c) (qr_largest c) (qr_handshakeDone c) (qr_origHP c) (qr_phase c) (qr_next c) (qr_prev c) (qr_prevRetire c) (qr_updatePN c).
Definition handleHandshakePacket (c : quicRecv) (packet : bytes) (hdr : quicPacketHeader) : quicRecv * list opened :=
  match qr_handshake c with
  | None => (c, [])
  | Some k => match quicDecryptPacket packet hdr k (largestOf c 1) with None => (c, []) | Some (pn, plain) => (deliverFrames (discardInitialKeys c) 1 pn plain, [(1%nat, pn, plain)]) end
  end.

(** The keys for a packet and whether they are those of the next phase. *)
Definition selectRecvKeys (c : quicRecv) (current : quicKeys) (phase pn : Z) : option quicKeys * bool :=
  if phase =? qr_phase c then (Some current, false)
  else if pn <? qr_updatePN c then
    match qr_prev c with Some k => if clock <=? qr_prevRetire c then (Some k, false) else (None, false) | None => (None, false) end
  else (qr_next c, match qr_next c with Some _ => true | None => false end).

Definition commitPeerKeyUpdate (c : quicRecv) (previous : quicKeys) (phase pn : Z) : quicRecv :=
  let next := match qr_next c with Some k => derive k | None => None end in
  mkRecv (qr_srcCIDLen c) (qr_initial c) (qr_handshake c) (qr_next c) (qr_largest c) (qr_handshakeDone c) (qr_origHP c) phase next (Some previous) (clock + ptoRetire) pn.

(** [prevRecvKeys] dropped when their time has passed. *)
Definition retirePrev (c : quicRecv) : quicRecv :=
  match qr_prev c with
  | Some _ => if qr_prevRetire c <? clock then mkRecv (qr_srcCIDLen c) (qr_initial c) (qr_handshake c) (qr_app c) (qr_largest c) (qr_handshakeDone c) (qr_origHP c) (qr_phase c) (qr_next c) None (qr_prevRetire c) (qr_updatePN c) else c
  | None => c
  end.

Definition handleShortHeaderPacket (c : quicRecv) (data : bytes) : quicRecv * list opened :=
  if negb (qr_handshakeDone c) then (c, [])
  else
    match quicParseShortHeader data (qr_srcCIDLen c), qr_app c with
    | Some hdr, Some keys =>
        let hp := match qr_origHP c with Some hp => hp | None => k_mask keys end in
        if zlen data <? hd_pnOffset hdr + 4 + 16 then (c, [])
        else
          let mask := hp (sampleOf data (hd_pnOffset hdr)) in
          let data := xorAt 0 (Z.land (znth mask 0) 0x1f) data in
          let phase := Z.shiftr (Z.land (znth data 0) 0x04) 2 in
          let pnLen := Z.land (znth data 0) 0x03 + 1 in
          let data := xorRange (hd_pnOffset hdr) mask data pnLen in
          let pn := quicDecodePacketNumber (quicReadPacketNumber (zdrop (hd_pnOffset hdr) data) pnLen) pnLen (largestOf c 2) in
          let headerEnd := hd_pnOffset hdr + pnLen in
          let payloadEnd := hd_payloadOff hdr + hd_payloadLen hdr in
          if payloadEnd <? headerEnd then (c, [])
          else
            match selectRecvKeys c keys phase pn with
            | (None, _) => (c, [])
            | (Some recvKeys, keyUpdate) =>
                match keys_decrypt recvKeys (ztake headerEnd data) (zslice data headerEnd payloadEnd) pn with
                | None => (c, [])
                | Some plain =>
                    let c := if keyUpdate then commitPeerKeyUpdate c keys phase pn else c in
                    (deliverFrames (retirePrev c) 2 pn plain, [(2%nat, pn, plain)])
                end
            end
    | _, _ => (c, [])
    end.

(** The bytes the packet took. *)
Definition handleLongHeaderPacket (c : quicRecv) (data : bytes) : quicRecv * list opened * Z :=
  match quicParseLongHeader data with
  | None => (c, [], 0)
  | Some (hdr, total) =>
      let packet := ztake total data in
      if negb (hd_version hdr =? quicVersion1) then (c, [], total)
      else if hd_pktType hdr =? quicPktInitial then (handleInitialPacket c packet hdr, total)
      else if hd_pktType hdr =? quicPktHandshake then (handleHandshakePacket c packet hdr, total)
      else (c, [], total)
  end.

(** The loop of [processPacket]; [None]: the fuel, which is at least a turn per
    byte, ran out. *)
Fixpoint packetLoop (fuel : nat) (c : quicRecv) (datagramDCID : option bytes) (data : bytes) : option (quicRecv * list opened) :=
  if zlen data =? 0 then Some (c, [])
  else
    match fuel with
    | O => None
    | S fuel =>
        if quicIsLongHeader data then
          let '(c', os, consumed) := handleLongHeaderPacket c data in
          if (consumed <=? 0) || (zlen data <? consumed) then Some (c', os)
          else
            let dcid := match datagramDCID with Some d => d | None => quicPacketDCID data (qr_srcCIDLen c') end in
            let data := zdrop consumed data in
            if (0 <? zlen data) && negb (bytes_eqb (quicPacketDCID data (qr_srcCIDLen c')) dcid) then Some (c', os)
            else match packetLoop fuel c' (Some dcid) data with Some (c, os') => Some (c, os ++ os') | None => None end
        else Some (handleShortHeaderPacket c data)
    end.
Definition processPacket (c : quicRecv) (data : bytes) : option (quicRecv * list opened) := packetLoop (length data) c None data.

End Receive.
