(* ===== verification/QuicPacketProofs.v ===== *)
(** QUIC packets built, protected, coalesced and received: the numbers, the
    headers, the protection, whole datagrams and updates of the keys. *)
From stdpp Require Import base list numbers.
From Stdlib Require Import ZArith Lia ZifyBool.
From S2P Require Import Prelude Utils QuicVarint QuicPacket.

Open Scope list_scope.
Open Scope Z_scope.

(** ** Packet numbers *)

Definition pnWindow (pnLen : Z) : Z := 2 ^ (8 * pnLen).

(** The receiver has seen what the sender knows to be acknowledged, and no packet
    so far ahead of this one that its number could be taken for a later one. *)
Definition fits (largest pn acked : Z) : Prop :=
  0 <= pn < 2 ^ 62 /\ -1 <= acked < pn /\ acked <= largest < 2 ^ 62 /\ pn - acked < 2 ^ 31 /\ largest + 1 - pn < pnWindow (quicEncodePacketNumber pn acked).2 / 2.

Lemma land_ones_mask pn k : 0 <= k -> Z.land pn (2 ^ k - 1) = pn mod 2 ^ k.
Proof. intros Hk. rewrite <- Z.land_ones by done. f_equal. rewrite Z.ones_equiv. lia. Qed.

Lemma encode_spec pn acked : 0 <= pn < 2 ^ 62 -> -1 <= acked < pn -> pn - acked < 2 ^ 31 ->
  exists len, (len = 1 \/ len = 2 \/ len = 3 \/ len = 4) /\ quicEncodePacketNumber pn acked = (pn mod pnWindow len, len) /\ pn - acked < pnWindow len / 2.
Proof.
  intros Hp Ha Hd. unfold quicEncodePacketNumber. assert (E : u64 (pn - u64 acked) = pn - acked).
  { unfold u64. rewrite Zminus_mod_idemp_r, Z.mod_small; [done | lia]. }
  rewrite E. unfold pnWindow. destruct (pn - acked <? 128) eqn:E1; [| destruct (pn - acked <? 32768) eqn:E2; [| destruct (pn - acked <? 8388608) eqn:E3]].
  - exists 1. split; [lia |]. split; [by rewrite <- land_ones_mask | change (2 ^ (8 * 1) / 2) with 128; lia].
  - exists 2. split; [lia |]. split; [by rewrite <- land_ones_mask | change (2 ^ (8 * 2) / 2) with 32768; lia].
  - exists 3. split; [lia |]. split; [by rewrite <- land_ones_mask | change (2 ^ (8 * 3) / 2) with 8388608; lia].
  - exists 4. split; [lia |]. split; [by rewrite <- land_ones_mask | change (2 ^ (8 * 4) / 2) with 2147483648; lia].
Qed.

(** The candidate of the decoder: the expected number with its low part replaced. *)
Lemma candidate_spec k expected t : 0 <= k -> 0 <= expected -> 0 <= t < 2 ^ k -> Z.lor (Z.ldiff expected (2 ^ k - 1)) t = 2 ^ k * (expected / 2 ^ k) + t.
Proof.
  intros Hk He Ht. replace (2 ^ k - 1) with (Z.ones k) by (rewrite Z.ones_equiv; lia). rewrite Z.ldiff_ones_r, Z.shiftr_div_pow2, Z.shiftl_mul_pow2 by lia. rewrite (lor_disjoint (expected / 2 ^ k) t k) by lia. lia.
Qed.

Lemma decode_encode largest pn acked : fits largest pn acked ->
  let '(t, len) := quicEncodePacketNumber pn acked in quicDecodePacketNumber t len largest = pn /\ 1 <= len <= 4 /\ t = pn mod pnWindow len.
Proof.
  intros (Hp & Ha & Hl & Hd & Hw). destruct (encode_spec pn acked Hp Ha Hd) as (len & Hlen & E & Hhalf). rewrite E in *. cbn [snd] in Hw. split; [| split; [lia | done]].
  unfold quicDecodePacketNumber. rewrite (u64_small (largest + 1)) by (unfold is_u64; lia). assert (Hwin : u64 (Z.shiftl 1 (len * 8)) = pnWindow len /\ 0 < pnWindow len <= 2 ^ 32) by (destruct Hlen as [-> | [-> | [-> | ->]]]; vm_compute; split_and!; (reflexivity || discriminate)).
  destruct Hwin as [-> Hwin]. cbv zeta.
  assert (Hcand : Z.lor (Z.ldiff (largest + 1) (pnWindow len - 1)) (pn mod pnWindow len) = pnWindow len * ((largest + 1) / pnWindow len) + pn mod pnWindow len) by (apply candidate_spec; [lia | lia | apply Z.mod_pos_bound; exact (proj1 Hwin)]). rewrite Hcand. clear Hcand.
  set (b := largest + 1) in *. assert (Hb : 0 <= b <= 2 ^ 62) by lia. pose proof (Z.div_mod pn (pnWindow len) ltac:(lia)) as D1. pose proof (Z.div_mod b (pnWindow len) ltac:(lia)) as D2. pose proof (Z.mod_pos_bound pn (pnWindow len) ltac:(lia)). pose proof (Z.mod_pos_bound b (pnWindow len) ltac:(lia)).
  set (t := pn mod pnWindow len) in *. set (q := pn / pnWindow len) in *. set (p := b / pnWindow len) in *. set (c := pnWindow len * p + t) in *.
  pose proof (Z.mod_le b (pnWindow len) ltac:(lia) ltac:(lia)). assert (Hc : 0 <= c < 2 ^ 63) by (unfold c; lia).
  assert (Hhw : 2 * (pnWindow len / 2) = pnWindow len /\ (pnWindow len = 256 \/ pnWindow len = 65536 \/ pnWindow len = 16777216 \/ pnWindow len = 4294967296)).
  { destruct Hlen as [-> | [-> | [-> | ->]]]; (split; [reflexivity |]); [by left | by right; left | by right; right; left | by right; right; right]. }
  assert (Hdiff : pn = c + pnWindow len * (q - p)) by (unfold c; lia). destruct Hhw as [Hh Hw4].
  assert (Eb : b = largest + 1) by done. assert (Ec : c = pnWindow len * p + t) by done. rewrite !u64_small by lia. clearbody b t q p c. set (h := pnWindow len / 2) in *. clearbody h. set (w := pnWindow len) in *. clearbody w. clear - Hp Ha Hl Hb Hw Hhalf Hh Hdiff Hw4 Hc D1 D2 H H0 H1 Eb Ec.
  destruct Hw4 as [-> | [-> | [-> | ->]]]; repeat split_if; lia.
Qed.

(** ** Header protection *)

(** The bytes of the number under the mask. *)
Fixpoint masked (mask : bytes) (i : Z) (l : bytes) : bytes := match l with [] => [] | b :: l => Z.lxor b (znth mask (1 + i)) :: masked mask (i + 1) l end.

Lemma zlen_masked mask i l : zlen (masked mask i l) = zlen l.
Proof. revert i. induction l as [| b l IH]; intros i; [done |]. cbn [masked]. by rewrite !zlen_cons, IH. Qed.
Lemma masked_twice mask i l : masked mask i (masked mask i l) = l.
Proof. revert i. induction l as [| b l IH]; intros i; [done |]. cbn [masked]. by rewrite IH, Z.lxor_assoc, Z.lxor_nilpotent, Z.lxor_0_r. Qed.

Lemma xorAt_app (pre : bytes) b l v : xorAt (zlen pre) v (pre ++ b :: l) = pre ++ Z.lxor b v :: l.
Proof. unfold xorAt, zlen. rewrite Nat2Z.id. induction pre as [| x pre IH]; [done |]. cbn [app length]. cbn. f_equal. apply IH. Qed.

Lemma xorAt_0 v b (l : bytes) : xorAt 0 v (b :: l) = Z.lxor b v :: l.
Proof. reflexivity. Qed.

Lemma xorRange_app mask (pnb ct : bytes) : forall (pre : bytes) off i, off + i = zlen pre ->
  foldl (fun packet j => xorAt (off + j) (znth mask (1 + j)) packet) (pre ++ pnb ++ ct) (seqZ i (zlen pnb)) = pre ++ masked mask i pnb ++ ct.
Proof.
  induction pnb as [| b pnb IH]; intros pre off i Hi; [done |]. rewrite zlen_cons, seqZ_cons by (pose proof (zlen_nonneg pnb); lia). cbn [foldl masked app]. rewrite Hi, xorAt_app.
  replace (pre ++ Z.lxor b (znth mask (1 + i)) :: pnb ++ ct) with ((pre ++ [Z.lxor b (znth mask (1 + i))]) ++ pnb ++ ct) by (by rewrite <- app_assoc).
  replace (Z.succ i) with (i + 1) by lia. replace (Z.pred (1 + zlen pnb)) with (zlen pnb) by lia. rewrite (IH _ off (i + 1)) by (rewrite zlen_app; change (zlen [_]) with 1; lia). by rewrite <- app_assoc.
Qed.

Lemma sample_app first (h pnb ct : bytes) : zlen pnb <= 4 -> sampleOf (first :: h ++ pnb ++ ct) (1 + zlen h) = ztake 16 (zdrop (4 - zlen pnb) ct).
Proof.
  intros Hp. pose proof (zlen_nonneg h). pose proof (zlen_nonneg pnb). unfold sampleOf. f_equal. replace (first :: h ++ pnb ++ ct) with ((first :: h ++ pnb) ++ ct) by (cbn; by rewrite <- app_assoc).
  unfold zdrop. rewrite drop_app_ge by (unfold zlen in *; cbn; rewrite length_app; lia). f_equal. unfold zlen in *. cbn [length]. rewrite length_app. lia.
Qed.

(** The first byte under protection: the low bits of long packets, one bit more of
    short ones. *)
Definition firstBits (first : Z) : Z := if negb (Z.land first 0x80 =? 0) then 0x0f else 0x1f.
Lemma lxor_land_keep first m mask x : Z.land mask x = 0 -> Z.land (Z.lxor first (Z.land m mask)) x = Z.land first x.
Proof.
  intros Hm. apply Z.bits_inj'. intros n Hn. rewrite !Z.land_spec, Z.lxor_spec, Z.land_spec. assert (H : Z.testbit mask n && Z.testbit x n = false) by (rewrite <- Z.land_spec, Hm; apply Z.bits_0).
  destruct (Z.testbit x n); [| by rewrite !andb_false_r]. rewrite !andb_true_r in *. rewrite H. by rewrite andb_false_r, xorb_false_r.
Qed.
Lemma first_kept first m : firstBits (Z.lxor first (Z.land m (firstBits first))) = firstBits first /\ Z.land (Z.lxor first (Z.land m (firstBits first))) 0x80 = Z.land first 0x80.
Proof.
  assert (H : Z.land (Z.lxor first (Z.land m (firstBits first))) 0x80 = Z.land first 0x80) by (apply lxor_land_keep; unfold firstBits; destruct (negb _); reflexivity). split; [| done]. unfold firstBits at 1. rewrite H. done.
Qed.

Section Protection.

Context (k : quicKeys).

Definition hpFirst (first : Z) (sample : bytes) : Z := Z.lxor first (Z.land (znth (k_mask k sample) 0) (firstBits first)).

Lemma apply_protection first (h pnb ct : bytes) : zlen pnb <= 4 -> 20 <= zlen pnb + zlen ct ->
  let sample := ztake 16 (zdrop (4 - zlen pnb) ct) in
  applyHeaderProtection k (first :: h ++ pnb ++ ct) (1 + zlen h) (zlen pnb) = hpFirst first sample :: h ++ masked (k_mask k sample) 0 pnb ++ ct.
Proof.
  intros Hp Hl sample. unfold applyHeaderProtection. rewrite zlen_cons, !zlen_app, sample_app by done. replace (_ <? _) with false by lia. fold sample. cbv zeta. unfold xorRange.
  assert (E : xorAt 0 (firstMask (first :: h ++ pnb ++ ct) (k_mask k sample)) (first :: h ++ pnb ++ ct) = (hpFirst first sample :: h) ++ pnb ++ ct) by done. rewrite E.
  rewrite (xorRange_app _ pnb ct (hpFirst first sample :: h)); [done | rewrite zlen_cons; lia].
Qed.

(** The two steps back. *)
Lemma unmask_first first sample (l : bytes) : xorAt 0 (Z.land (znth (k_mask k sample) 0) (firstBits first)) (hpFirst first sample :: l) = first :: l.
Proof. rewrite xorAt_0. unfold hpFirst. by rewrite Z.lxor_assoc, Z.lxor_nilpotent, Z.lxor_0_r. Qed.
Lemma unmask_number mask first (h pnb ct : bytes) : xorRange (1 + zlen h) mask (first :: h ++ masked mask 0 pnb ++ ct) (zlen pnb) = first :: h ++ pnb ++ ct.
Proof.
  unfold xorRange. pose proof (xorRange_app mask (masked mask 0 pnb) ct (first :: h) (1 + zlen h) 0 ltac:(rewrite zlen_cons; lia)) as X. rewrite zlen_masked, masked_twice in X. exact X.
Qed.

Lemma remove_protection first (h pnb ct : bytes) : zlen pnb <= 4 -> 20 <= zlen pnb + zlen ct -> Z.land first 0x03 + 1 = zlen pnb ->
  let sample := ztake 16 (zdrop (4 - zlen pnb) ct) in
  removeHeaderProtection k (hpFirst first sample :: h ++ masked (k_mask k sample) 0 pnb ++ ct) (1 + zlen h) = (first :: h ++ pnb ++ ct, zlen pnb).
Proof.
  intros Hp Hl Hn sample. unfold removeHeaderProtection. rewrite zlen_cons, !zlen_app, zlen_masked. replace (_ <? _) with false by lia. rewrite sample_app by (by rewrite zlen_masked). rewrite zlen_masked. fold sample. cbv zeta.
  destruct (first_kept first (znth (k_mask k sample) 0)) as [F1 _]. fold (hpFirst first sample) in F1. unfold firstMask. change (znth (hpFirst first sample :: _) 0) with (hpFirst first sample). fold (firstBits (hpFirst first sample)). rewrite F1, unmask_first.
  change (znth (first :: _) 0) with first. by rewrite Hn, unmask_number.
Qed.

End Protection.

(** ** Headers *)

(** A long packet: its first byte, the header up to the number, and the rest, which
    is the number and the text. *)
Definition longHead (pktType : Z) (dcid scid token : bytes) (len : Z) : bytes :=
  be_bytes 4 quicVersion1 ++ [zlen dcid] ++ dcid ++ [zlen scid] ++ scid ++ (if pktType =? quicInitialType then quicAppendVarint [] (zlen token) ++ token else []) ++ quicAppendVarint [] len.

Lemma longHead_dcid pktType dcid scid token len : exists tl, longHead pktType dcid scid token len = [0; 0; 0; 1; zlen dcid] ++ dcid ++ tl.
Proof. eexists. reflexivity. Qed.

Lemma parsed_varint v rest : 0 <= v < 2 ^ 62 -> quicParseVarint (quicAppendVarint [] v ++ rest) = (v, zlen (quicAppendVarint [] v)) /\ (zlen (quicAppendVarint [] v) =? 0) = false.
Proof. intros Hv. rewrite parse_append, quicAppendVarint_len by (unfold is_u64; lia). rewrite Z.mod_small by lia. split; [done |]. unfold varint_len. repeat split_if; lia. Qed.

Lemma zslice_app_mid (a p rest : bytes) i j : zlen a = i -> i + zlen p = j -> zslice (a ++ p ++ rest) i j = p.
Proof. intros <- <-. apply zslice_mid. Qed.
Lemma znth_app_mid (a : bytes) b rest i : zlen a = i -> znth (a ++ b :: rest) i = b.
Proof. intros <-. unfold znth, zlen. rewrite Nat2Z.id. apply nth_middle. Qed.

Lemma parse_long first pktType dcid scid token body rest : (pktType = quicInitialType \/ pktType = quicHandshakeType) -> Z.land first 0x80 <> 0 -> Z.shiftr (Z.land first 0x30) 4 = pktType ->
  zlen dcid <= 20 -> zlen scid <= 20 -> zlen token < 2 ^ 62 -> zlen body < 2 ^ 62 -> (pktType = quicHandshakeType -> token = []) ->
  let head := first :: longHead pktType dcid scid token (zlen body) in
  quicParseLongHeader (head ++ body ++ rest) =
    Some (mkHeader (if pktType =? quicInitialType then quicPktInitial else quicPktHandshake) quicVersion1 dcid scid token (zlen head) (zlen head) (zlen body), zlen (head ++ body)).
Proof.
  intros Ht Hb Hs Hd Hsc Htok Hbody Htk head. pose proof (zlen_nonneg dcid). pose proof (zlen_nonneg scid). pose proof (zlen_nonneg token). pose proof (zlen_nonneg body). pose proof (zlen_nonneg rest).
  set (tok := if pktType =? quicInitialType then quicAppendVarint [] (zlen token) ++ token else []). set (lenb := quicAppendVarint [] (zlen body)). pose proof (zlen_nonneg tok). pose proof (zlen_nonneg lenb).
  assert (E : head ++ body ++ rest = first :: [0; 0; 0; 1] ++ [zlen dcid] ++ dcid ++ [zlen scid] ++ scid ++ tok ++ lenb ++ body ++ rest) by (unfold head, longHead; fold tok lenb; change (be_bytes 4 quicVersion1) with [0; 0; 0; 1]; cbn [app]; repeat (rewrite <- app_assoc; cbn [app]); done).
  assert (Eh : zlen head = 7 + zlen dcid + zlen scid + zlen tok + zlen lenb) by (unfold head, longHead; fold tok lenb; rewrite zlen_cons, !zlen_app; change (zlen (be_bytes 4 quicVersion1)) with 4; change (zlen [_]) with 1; lia).
  rewrite zlen_app, Eh, E. clear head E Eh. set (data := first :: _). assert (Hl : zlen data = 7 + zlen dcid + zlen scid + zlen tok + zlen lenb + zlen body + zlen rest) by (unfold data; rewrite zlen_cons, !zlen_app; change (zlen [0; 0; 0; 1]) with 4; change (zlen [_]) with 1; lia).
  unfold quicParseLongHeader. rewrite Hl. replace (_ <? 7) with false by lia. change (znth data 0) with first. cbv zeta. unfold quicLongHeaderBit. replace (Z.land first 128 =? 0) with false by lia.
  change (zslice data 1 5) with [0; 0; 0; 1]. change (be_val [0; 0; 0; 1]) with quicVersion1. change (znth data 5) with (zlen dcid). replace (20 <? zlen dcid) with false by lia. replace (_ <=? 6 + zlen dcid) with false by lia. cbn [orb].
  replace (zslice data 6 (6 + zlen dcid)) with dcid by (symmetry; apply (zslice_app_mid [first; 0; 0; 0; 1; zlen dcid] dcid); done).
  replace (znth data (6 + zlen dcid)) with (zlen scid) by (symmetry; apply (znth_app_mid ([first; 0; 0; 0; 1; zlen dcid] ++ dcid)); rewrite zlen_app; done).
  replace (_ <? 6 + zlen dcid + 1 + zlen scid) with false by lia. replace (20 <? zlen scid) with false by lia. cbn [orb].
  replace (zslice data (6 + zlen dcid + 1) (6 + zlen dcid + 1 + zlen scid)) with scid.
  2:{ symmetry. replace data with (([first; 0; 0; 0; 1; zlen dcid] ++ dcid ++ [zlen scid]) ++ scid ++ (tok ++ lenb ++ body ++ rest)) by (unfold data; cbn [app]; repeat (rewrite <- app_assoc; cbn [app]); done). apply zslice_app_mid; [rewrite !zlen_app; change (zlen [_]) with 1; change (zlen [_; _; _; _; _; _]) with 6; lia | lia]. }
  change (quicVersion1 =? 0) with false. cbv iota. rewrite Hs. set (off := 6 + zlen dcid + 1 + zlen scid).
  assert (Hoff : zdrop off data = tok ++ lenb ++ body ++ rest).
  { replace data with (([first; 0; 0; 0; 1; zlen dcid] ++ dcid ++ [zlen scid] ++ scid) ++ (tok ++ lenb ++ body ++ rest)) by (unfold data; cbn [app]; repeat (rewrite <- app_assoc; cbn [app]); done).
    replace off with (zlen ([first; 0; 0; 0; 1; zlen dcid] ++ dcid ++ [zlen scid] ++ scid)) by (unfold off; rewrite !zlen_app; change (zlen [_]) with 1; change (zlen [_; _; _; _; _; _]) with 6; lia). apply zdrop_app_exact. }
  assert (Hlen : forall o, o = off + zlen tok -> quicParseVarint (zdrop o data) = (zlen body, zlen lenb) /\ (zlen lenb =? 0) = false).
  { intros o ->. rewrite <- zdrop_zdrop by (unfold off; lia). rewrite Hoff, zdrop_app_exact. apply parsed_varint. lia. }
  replace (pktType =? quicRetryType) with false by (destruct Ht as [-> | ->]; reflexivity).
  destruct Ht as [-> | ->].
  - change (quicInitialType =? quicInitialType) with true in *. cbv iota in tok |- *. rewrite Hoff. unfold tok at 1. rewrite <- app_assoc. destruct (parsed_varint (zlen token) (token ++ lenb ++ body ++ rest) ltac:(lia)) as [-> ->].
    assert (Ht : zlen tok = zlen (quicAppendVarint [] (zlen token)) + zlen token) by (unfold tok; by rewrite zlen_app). replace (_ <? off + zlen (quicAppendVarint [] (zlen token)) + zlen token) with false by (unfold off; lia).
    destruct (Hlen (off + zlen (quicAppendVarint [] (zlen token)) + zlen token) ltac:(lia)) as [-> ->]. replace (_ <? _) with false by (unfold off; lia).
    replace (zslice data (off + zlen (quicAppendVarint [] (zlen token))) (off + zlen (quicAppendVarint [] (zlen token)) + zlen token)) with token.
    2:{ unfold zslice. rewrite <- zdrop_zdrop by (unfold off; pose proof (zlen_nonneg (quicAppendVarint [] (zlen token))); lia). rewrite Hoff. unfold tok. rewrite <- app_assoc, zdrop_app_exact. replace (_ - _) with (zlen token) by lia. by rewrite ztake_app_exact. }
    do 2 f_equal; [f_equal; unfold off; lia | unfold off; lia].
  - specialize (Htk eq_refl). subst token. change (quicHandshakeType =? quicInitialType) with false in *. cbv iota in tok |- *. assert (Ht : zlen tok = 0) by done. destruct (Hlen off ltac:(lia)) as [-> ->]. replace (_ <? _) with false by (unfold off; lia). do 2 f_equal; [f_equal; unfold off; lia | unfold off; lia].
Qed.

(** ** Packets *)

(** What an AEAD with a tag of 16 bytes does. *)
Record keys_ok (k : quicKeys) : Prop := mkKeysOk {
  ko_open : forall nonce text ad, k_open k nonce (k_seal k nonce text ad) ad = Some text;
  ko_len : forall nonce text ad, zlen (k_seal k nonce text ad) = zlen text + k_overhead k;
  ko_overhead : k_overhead k = 16 }.

(** The payload as it is sent: at least four bytes with the number. *)
Definition sentPayload (payload : bytes) (pn acked : Z) : bytes := paddedPayload payload (quicEncodePacketNumber pn acked).2.

Lemma padded_len payload len : 0 < len -> 4 <= len + zlen (paddedPayload payload len) /\ zlen payload <= zlen (paddedPayload payload len) <= zlen payload + 4.
Proof.
  intros Hl. unfold paddedPayload, quicPadForHeaderProtection, quicHPMinPNAndPayload. pose proof (zlen_nonneg payload). destruct (_ <? 4) eqn:E; [| lia]. rewrite zlen_app. assert (Hr : forall n, zlen (replicate n 0) = Z.of_nat n) by (intros; unfold zlen; by rewrite length_replicate). rewrite Hr. lia.
Qed.

Lemma read_number pn len rest : 0 <= pn -> 1 <= len <= 4 -> quicReadPacketNumber (be_bytes (Z.to_nat len) (pn mod pnWindow len) ++ rest) len = pn mod pnWindow len /\ zlen (be_bytes (Z.to_nat len) (pn mod pnWindow len)) = len.
Proof.
  intros Hp Hl. assert (E : zlen (be_bytes (Z.to_nat len) (pn mod pnWindow len)) = len) by (unfold zlen; rewrite length_be_bytes; lia). split; [| done]. unfold quicReadPacketNumber.
  replace (ztake len (be_bytes (Z.to_nat len) (pn mod pnWindow len) ++ rest)) with (be_bytes (Z.to_nat len) (pn mod pnWindow len)) by (rewrite <- (ztake_app_exact (be_bytes (Z.to_nat len) (pn mod pnWindow len)) rest) at 1; by rewrite E). rewrite be_val_bytes.
  rewrite Z2Nat.id by lia. change (2 ^ (8 * len)) with (pnWindow len). apply Z.mod_mod. unfold pnWindow. pose proof (Z.pow_pos_nonneg 2 (8 * len)). lia.
Qed.

Definition longFirst (pktType pnLen : Z) : Z := Z.lor (Z.lor (Z.lor quicLongHeaderBit quicFixedBit) (u8 (Z.shiftl pktType 4))) (u8 (pnLen - 1)).
Lemma longFirst_bits pktType len : (pktType = quicInitialType \/ pktType = quicHandshakeType) -> 1 <= len <= 4 ->
  Z.land (longFirst pktType len) 0x80 <> 0 /\ Z.shiftr (Z.land (longFirst pktType len) 0x30) 4 = pktType /\ Z.land (longFirst pktType len) 0x03 + 1 = len.
Proof.
  intros Ht Hl. assert (len = 1 \/ len = 2 \/ len = 3 \/ len = 4) as [-> | [-> | [-> | ->]]] by lia; destruct Ht as [-> | ->]; vm_compute; split_and!; (reflexivity || discriminate).
Qed.

Lemma buildLong_shape pktType dcid scid token payload pn acked k len : zlen dcid <= 20 -> zlen scid <= 20 -> quicEncodePacketNumber pn acked = (pn mod pnWindow len, len) ->
  let plain := sentPayload payload pn acked in
  let head := longHead pktType dcid scid token (len + zlen plain + k_overhead k) in
  let pnb := be_bytes (Z.to_nat len) (pn mod pnWindow len) in
  let ct := k_seal k (keys_nonce k pn) plain (longFirst pktType len :: head ++ pnb) in
  buildLong [] pktType dcid scid token payload pn acked k = applyHeaderProtection k (longFirst pktType len :: head ++ pnb ++ ct) (1 + zlen head) len.
Proof.
  intros Hd Hs E plain head pnb ct. unfold buildLong. rewrite E. cbv zeta. assert (Ep : paddedPayload payload len = plain) by (unfold plain, sentPayload; by rewrite E). rewrite Ep.
  assert (Eh : quicAppendVarint (quicBuildLongHeader [] pktType quicVersion1 dcid scid token len) (len + zlen plain + k_overhead k) = longFirst pktType len :: head).
  { rewrite quicAppendVarint_dst. unfold quicBuildLongHeader, head, longHead. fold (longFirst pktType len). pose proof (zlen_nonneg dcid). pose proof (zlen_nonneg scid). assert (Hu : forall z, 0 <= z <= 20 -> u8 z = z) by (intros; unfold u8; apply Z.mod_small; lia). rewrite !Hu by lia.
    destruct (pktType =? quicInitialType); [rewrite (quicAppendVarint_dst (_ ++ _)) |]; cbn [app]; repeat (rewrite <- app_assoc; cbn [app]); done. }
  rewrite Eh. unfold quicAppendPacketNumber, keys_encrypt. cbn [app]. rewrite zlen_cons. fold pnb. fold ct. by rewrite <- app_assoc.
Qed.

Definition longSizes (dcid scid token payload : bytes) : Prop := zlen dcid <= 20 /\ zlen scid <= 20 /\ zlen token < 2 ^ 62 /\ zlen payload < 2 ^ 61.

Lemma long_opens pktType dcid scid token payload pn acked k largest rest : (pktType = quicInitialType \/ pktType = quicHandshakeType) -> (pktType = quicHandshakeType -> token = []) ->
  longSizes dcid scid token payload -> keys_ok k -> fits largest pn acked ->
  let packet := buildLong [] pktType dcid scid token payload pn acked k in
  exists hdr, quicParseLongHeader (packet ++ rest) = Some (hdr, zlen packet) /\ hd_version hdr = quicVersion1 /\ hd_pktType hdr = (if pktType =? quicInitialType then quicPktInitial else quicPktHandshake) /\
    hd_dcid hdr = dcid /\ hd_scid hdr = scid /\ hd_token hdr = token /\ quicDecryptPacket packet hdr k largest = Some (pn, sentPayload payload pn acked) /\
    quicIsLongHeader (packet ++ rest) = true /\ (forall n, quicPacketDCID (packet ++ rest) n = dcid) /\ 0 < zlen packet.
Proof.
  intros Ht Htk (Hd & Hs & Htok & Hpay) Hk Hfit packet. pose proof (decode_encode _ _ _ Hfit) as Hdec. pose proof Hfit as (Hpn & Ha & _ & Hdiff & _). destruct (encode_spec pn acked Hpn Ha Hdiff) as (len & Hlen4 & E & _). assert (Hlen : 1 <= len <= 4) by lia. rewrite E in Hdec. destruct Hdec as (Hdec & _ & _).
  pose proof (buildLong_shape pktType dcid scid token payload pn acked k len Hd Hs E) as Hshape. fold packet in Hshape. cbv zeta in Hshape. set (plain := sentPayload payload pn acked) in *.
  set (head := longHead pktType dcid scid token (len + zlen plain + k_overhead k)) in *. set (pnb := be_bytes (Z.to_nat len) (pn mod pnWindow len)) in *. set (ct := k_seal k _ plain _) in *. set (first := longFirst pktType len) in *.
  destruct (longFirst_bits pktType len Ht Hlen) as (F1 & F2 & F3). fold first in F1, F2, F3. destruct (read_number pn len ct ltac:(lia) Hlen) as [Hread Hpnb]. fold pnb in Hread, Hpnb.
  assert (Hplain : 4 <= len + zlen plain /\ zlen plain < 2 ^ 61 + 4) by (unfold plain, sentPayload; rewrite E; cbn [snd]; pose proof (padded_len payload len ltac:(lia)); lia). assert (Hct : zlen ct = zlen plain + 16) by (unfold ct; rewrite (ko_len k Hk), (ko_overhead k Hk); done).
  set (sample := ztake 16 (zdrop (4 - zlen pnb) ct)). set (pnm := masked (k_mask k sample) 0 pnb). assert (Epk : packet = hpFirst k first sample :: head ++ pnm ++ ct) by (rewrite Hshape, <- Hpnb; apply apply_protection; lia).
  destruct (first_kept first (znth (k_mask k sample) 0)) as [_ K1]. fold (hpFirst k first sample) in K1. assert (K2 : Z.land (hpFirst k first sample) 0x30 = Z.land first 0x30) by (apply lxor_land_keep; unfold firstBits; replace (Z.land first 128 =? 0) with false by lia; reflexivity).
  assert (Hbody : zlen (pnm ++ ct) = len + zlen plain + k_overhead k) by (unfold pnm; rewrite zlen_app, zlen_masked, Hpnb, Hct, (ko_overhead k Hk); lia).
  assert (Hparse : quicParseLongHeader (packet ++ rest) = Some (mkHeader (if pktType =? quicInitialType then quicPktInitial else quicPktHandshake) quicVersion1 dcid scid token (1 + zlen head) (1 + zlen head) (len + zlen plain + k_overhead k), zlen packet)).
  { pose proof (parse_long (hpFirst k first sample) pktType dcid scid token (pnm ++ ct) rest Ht ltac:(rewrite K1; done) ltac:(rewrite K2; done) Hd Hs Htok ltac:(rewrite Hbody, (ko_overhead k Hk); lia) Htk) as P. cbv zeta in P. rewrite Hbody in P. fold head in P. rewrite zlen_cons in P.
    rewrite Epk. cbn [app] in P |- *. rewrite <- !app_assoc in *. exact P. }
  eexists. split; [exact Hparse |]. cbn [hd_version hd_pktType hd_dcid hd_scid hd_token]. pose proof (zlen_nonneg head). pose proof (zlen_nonneg rest). assert (Hpos : 0 < zlen packet) by (rewrite Epk, zlen_cons; pose proof (zlen_nonneg (head ++ pnm ++ ct)); lia).
  split_and!; try done.
  - unfold quicDecryptPacket. cbn [hd_pnOffset hd_payloadOff hd_payloadLen]. rewrite Epk. unfold pnm, sample. rewrite remove_protection by (rewrite ?Hpnb; try done; lia). fold sample. rewrite Hpnb. replace (len =? 0) with false by lia.
    assert (Hdr : zdrop (1 + zlen head) (first :: head ++ pnb ++ ct) = pnb ++ ct) by (rewrite <- zlen_cons with (x := first); exact (zdrop_app_exact (first :: head) (pnb ++ ct))). rewrite Hdr, Hread, Hdec. pose proof (ko_overhead k Hk). pose proof (zlen_nonneg plain). replace (_ <? _) with false by lia.
    assert (Htake : ztake (1 + zlen head + len) (first :: head ++ pnb ++ ct) = first :: head ++ pnb) by (replace (1 + zlen head + len) with (zlen (first :: head ++ pnb)) by (rewrite zlen_cons, zlen_app; lia); replace (first :: head ++ pnb ++ ct) with ((first :: head ++ pnb) ++ ct) by (cbn; by rewrite <- app_assoc); apply ztake_app_exact).
    assert (Hsl : zslice (first :: head ++ pnb ++ ct) (1 + zlen head + len) (1 + zlen head + (len + zlen plain + k_overhead k)) = ct).
    { replace (first :: head ++ pnb ++ ct) with ((first :: head ++ pnb) ++ ct ++ []) by (cbn; by rewrite app_nil_r, <- app_assoc). apply zslice_app_mid; [rewrite zlen_cons, zlen_app; lia | rewrite Hct, (ko_overhead k Hk); lia]. }
    rewrite Htake, Hsl. unfold keys_decrypt, ct. by rewrite (ko_open k Hk).
  - unfold quicIsLongHeader. rewrite zlen_app. replace (0 <? _) with true by lia. rewrite Epk. change (znth ((hpFirst k first sample :: ?l) ++ rest) 0) with (hpFirst k first sample). unfold quicLongHeaderBit. rewrite K1. cbn [andb]. by replace (_ =? 0) with false by lia.
  - intros n. destruct (longHead_dcid pktType dcid scid token (len + zlen plain + k_overhead k)) as (tl & Eh). fold head in Eh.
    assert (Edata : packet ++ rest = [hpFirst k first sample; 0; 0; 0; 1; zlen dcid] ++ dcid ++ tl ++ pnm ++ ct ++ rest) by (rewrite Epk, Eh; cbn [app]; repeat (rewrite <- app_assoc; cbn [app]); done).
    rewrite Edata. unfold quicPacketDCID. change (znth ([hpFirst k first sample; 0; 0; 0; 1; zlen dcid] ++ ?l) 0) with (hpFirst k first sample). change (znth ([hpFirst k first sample; 0; 0; 0; 1; zlen dcid] ++ ?l) 5) with (zlen dcid).
    unfold quicLongHeaderBit. rewrite K1. replace (Z.land first 128 =? 0) with false by lia. rewrite !zlen_app. change (zlen [_; _; _; _; _; _]) with 6. pose proof (zlen_nonneg dcid). pose proof (zlen_nonneg tl). pose proof (zlen_nonneg pnm). pose proof (zlen_nonneg ct).
    replace (_ =? 0) with false by lia. replace (_ <? 6) with false by lia. replace (_ <? 6 + _) with false by lia. cbn [orb]. by apply zslice_app_mid.
Qed.

Definition shortFirst (phase pnLen : Z) : Z := let first := Z.lor quicFixedBit (u8 (pnLen - 1)) in if phase =? 1 then Z.lor first 0x04 else first.
Lemma shortFirst_bits phase len : (phase = 0 \/ phase = 1) -> 1 <= len <= 4 ->
  Z.land (shortFirst phase len) 0x80 = 0 /\ Z.shiftr (Z.land (shortFirst phase len) 0x04) 2 = phase /\ Z.land (shortFirst phase len) 0x03 + 1 = len.
Proof.
  intros Hp Hl. assert (len = 1 \/ len = 2 \/ len = 3 \/ len = 4) as [-> | [-> | [-> | ->]]] by lia; destruct Hp as [-> | ->]; vm_compute; split_and!; reflexivity.
Qed.

Section Connection.

Context (handshake : quicRecv -> nat -> bytes -> quicRecv) (derive : quicKeys -> option quicKeys) (ptoRetire : Z) (clock : Z).

(** The key of header protection is that of the first keys of the connection. *)
Definition recvMask (c : quicRecv) (ka : quicKeys) : bytes -> bytes := match qr_origHP c with Some hp => hp | None => k_mask ka end.

Lemma short_opens c ka k update dcid payload pn acked phase : qr_handshakeDone c = true -> qr_app c = Some ka -> recvMask c ka = k_mask k -> zlen dcid = qr_srcCIDLen c -> keys_ok k -> (phase = 0 \/ phase = 1) ->
  fits (largestOf c 2) pn acked -> selectRecvKeys clock c ka phase pn = (Some k, update) ->
  let packet := quicBuildShortPacket [] dcid payload pn acked k phase in let plain := sentPayload payload pn acked in
  handleShortHeaderPacket handshake derive ptoRetire clock c packet = (deliverFrames handshake (retirePrev clock (if update then commitPeerKeyUpdate derive ptoRetire clock c ka phase pn else c)) 2 pn plain, [(2%nat, pn, plain)]) /\
  quicIsLongHeader packet = false /\ quicPacketDCID packet (qr_srcCIDLen c) = dcid /\ 0 < zlen packet.
Proof.
  intros Hdone Hka Hmask Hd Hk Hph Hfit Hsel packet plain. pose proof (decode_encode _ _ _ Hfit) as Hdec. pose proof Hfit as (Hpn & Ha & _ & Hdiff & _). destruct (encode_spec pn acked Hpn Ha Hdiff) as (len & Hlen4 & E & _). assert (Hlen : 1 <= len <= 4) by lia. rewrite E in Hdec. destruct Hdec as (Hdec & _ & _).
  set (pnb := be_bytes (Z.to_nat len) (pn mod pnWindow len)). set (first := shortFirst phase len). set (ct := k_seal k (keys_nonce k pn) plain (first :: dcid ++ pnb)). pose proof (zlen_nonneg dcid).
  assert (Hplain : 4 <= len + zlen plain) by (unfold plain, sentPayload; rewrite E; cbn [snd]; pose proof (padded_len payload len ltac:(lia)); lia). assert (Hct : zlen ct = zlen plain + 16) by (unfold ct; rewrite (ko_len k Hk), (ko_overhead k Hk); done). pose proof (zlen_nonneg plain).
  destruct (shortFirst_bits phase len Hph Hlen) as (F1 & F2 & F3). fold first in F1, F2, F3. destruct (read_number pn len ct ltac:(lia) Hlen) as [Hread Hpnb]. fold pnb in Hread, Hpnb.
  set (sample := ztake 16 (zdrop (4 - zlen pnb) ct)). set (pnm := masked (k_mask k sample) 0 pnb). assert (Hpnm : zlen pnm = len) by (unfold pnm; by rewrite zlen_masked).
  assert (Epk : packet = hpFirst k first sample :: dcid ++ pnm ++ ct).
  { unfold packet, quicBuildShortPacket. rewrite E. cbv zeta. unfold quicBuildShortHeader, keys_encrypt. cbn [app]. fold (shortFirst phase len). fold first. fold pnb. replace (paddedPayload payload len) with plain by (unfold plain, sentPayload; by rewrite E). fold ct. rewrite <- app_assoc. rewrite <- Hpnb. apply apply_protection; lia. }
  destruct (first_kept first (znth (k_mask k sample) 0)) as [_ K1]. fold (hpFirst k first sample) in K1. assert (Hbits : firstBits first = 0x1f) by (unfold firstBits; by rewrite F1).
  assert (Hz : zlen packet = 1 + zlen dcid + len + zlen ct) by (rewrite Epk, zlen_cons, !zlen_app, Hpnm; lia).
  split_and!; [| | | lia].
  - unfold handleShortHeaderPacket. rewrite Hdone. cbn [negb]. unfold quicParseShortHeader. rewrite Hz, <- Hd. replace (_ <? _) with false by lia. rewrite Hka. cbn [hd_pnOffset hd_payloadOff hd_payloadLen]. fold (recvMask c ka). rewrite Hmask. replace (_ <? _) with false by lia.
    assert (Hsample : sampleOf packet (1 + zlen dcid) = sample) by (rewrite Epk, sample_app by lia; unfold sample; by rewrite Hpnm, Hpnb). rewrite Hsample. cbv zeta. rewrite <- Hbits, Epk, unmask_first. change (znth (first :: _) 0) with first. rewrite F2, F3.
    assert (Hclear : xorRange (1 + zlen dcid) (k_mask k sample) (first :: dcid ++ pnm ++ ct) len = first :: dcid ++ pnb ++ ct) by (unfold pnm; rewrite <- Hpnb; apply unmask_number). rewrite Hclear.
    assert (Hdr : zdrop (1 + zlen dcid) (first :: dcid ++ pnb ++ ct) = pnb ++ ct) by (rewrite <- zlen_cons with (x := first); exact (zdrop_app_exact (first :: dcid) (pnb ++ ct))). rewrite Hdr, Hread, Hdec. replace (_ <? _) with false by lia. rewrite Hsel.
    assert (Htake : ztake (1 + zlen dcid + len) (first :: dcid ++ pnb ++ ct) = first :: dcid ++ pnb) by (replace (1 + zlen dcid + len) with (zlen (first :: dcid ++ pnb)) by (rewrite zlen_cons, zlen_app; lia); replace (first :: dcid ++ pnb ++ ct) with ((first :: dcid ++ pnb) ++ ct) by (cbn; by rewrite <- app_assoc); apply ztake_app_exact).
    assert (Hsl : zslice (first :: dcid ++ pnb ++ ct) (1 + zlen dcid + len) (1 + zlen dcid + (1 + zlen dcid + len + zlen ct - (1 + zlen dcid))) = ct).
    { replace (first :: dcid ++ pnb ++ ct) with ((first :: dcid ++ pnb) ++ ct ++ []) by (cbn; by rewrite app_nil_r, <- app_assoc). apply zslice_app_mid; [rewrite zlen_cons, zlen_app; lia | lia]. }
    rewrite Htake, Hsl. unfold keys_decrypt. unfold ct. by rewrite (ko_open k Hk).
  - unfold quicIsLongHeader. rewrite Epk. change (znth (hpFirst k first sample :: _) 0) with (hpFirst k first sample). unfold quicLongHeaderBit. rewrite K1, F1. by rewrite andb_false_r.
  - unfold quicPacketDCID. rewrite Hz. replace (_ =? 0) with false by lia. rewrite Epk. change (znth (hpFirst k first sample :: _) 0) with (hpFirst k first sample). unfold quicLongHeaderBit. rewrite K1, F1. change (0 =? 0) with true. cbv iota. rewrite <- Hd. replace (_ <? _) with false by lia.
    apply (zslice_app_mid [hpFirst k first sample] dcid); done.
Qed.

(** ** Datagrams *)

Record sentPacket := mkSent { s_space : nat; s_keys : quicKeys; s_token : bytes; s_payload : bytes; s_pn : Z; s_acked : Z; s_phase : Z }.
Definition wire (dcid scid : bytes) (s : sentPacket) : bytes :=
  match s_space s with
  | 0%nat => quicBuildInitialPacket [] dcid scid (s_token s) (s_payload s) (s_pn s) (s_acked s) (s_keys s)
  | 1%nat => quicBuildHandshakePacket [] dcid scid (s_payload s) (s_pn s) (s_acked s) (s_keys s)
  | _ => quicBuildShortPacket [] dcid (s_payload s) (s_pn s) (s_acked s) (s_keys s) (s_phase s)
  end.
Definition openedOf (s : sentPacket) : nat * Z * bytes := (s_space s, s_pn s, sentPayload (s_payload s) (s_pn s) (s_acked s)).

(** The receiver has the keys of the packet and its number is in the window. *)
Definition opens (dcid : bytes) (c : quicRecv) (s : sentPacket) : Prop :=
  keys_ok (s_keys s) /\ fits (largestOf c (s_space s)) (s_pn s) (s_acked s) /\
  match s_space s with
  | 0%nat => qr_initial c = Some (s_keys s)
  | 1%nat => qr_handshake c = Some (s_keys s)
  | 2%nat =>
      qr_handshakeDone c = true /\ zlen dcid = qr_srcCIDLen c /\ (s_phase s = 0 \/ s_phase s = 1) /\
      exists ka, qr_app c = Some ka /\ recvMask c ka = k_mask (s_keys s) /\ (selectRecvKeys clock c ka (s_phase s) (s_pn s)).1 = Some (s_keys s)
  | _ => False
  end.
(** The receiver after it. *)
Definition after (c : quicRecv) (s : sentPacket) : quicRecv :=
  let plain := sentPayload (s_payload s) (s_pn s) (s_acked s) in
  match s_space s with
  | 0%nat => deliverFrames handshake c 0 (s_pn s) plain
  | 1%nat => deliverFrames handshake (discardInitialKeys c) 1 (s_pn s) plain
  | _ =>
      match qr_app c with
      | Some ka => deliverFrames handshake (retirePrev clock (if (selectRecvKeys clock c ka (s_phase s) (s_pn s)).2 then commitPeerKeyUpdate derive ptoRetire clock c ka (s_phase s) (s_pn s) else c)) 2 (s_pn s) plain
      | None => c
      end
  end.
(** A datagram of packets that can be opened one after the other; a short packet
    is the last. *)
Fixpoint arrives (dcid : bytes) (c : quicRecv) (ss : list sentPacket) : Prop :=
  match ss with [] => True | s :: ss => opens dcid c s /\ (s_space s = 2%nat -> ss = []) /\ arrives dcid (after c s) ss end.

Section Datagram.

Context (dcid scid : bytes).
Hypothesis sizes : zlen dcid <= 20 /\ zlen scid <= 20.
Definition packetSizes (s : sentPacket) : Prop := zlen (s_token s) < 2 ^ 62 /\ zlen (s_payload s) < 2 ^ 61.

Lemma wire_facts c s rest : opens dcid c s -> packetSizes s -> (s_space s = 2%nat -> rest = []) ->
  0 < zlen (wire dcid scid s) /\ quicPacketDCID (wire dcid scid s ++ rest) (qr_srcCIDLen c) = dcid /\
  (if decide (s_space s = 2%nat) then quicIsLongHeader (wire dcid scid s) = false /\ handleShortHeaderPacket handshake derive ptoRetire clock c (wire dcid scid s) = (after c s, [openedOf s])
   else quicIsLongHeader (wire dcid scid s ++ rest) = true /\ handleLongHeaderPacket handshake c (wire dcid scid s ++ rest) = (after c s, [openedOf s], zlen (wire dcid scid s)) /\ forall n, quicPacketDCID (wire dcid scid s ++ rest) n = dcid).
Proof.
  destruct sizes as [Hd Hs]. destruct s as [space k token payload pn acked phase]. unfold opens, packetSizes, wire, after, openedOf. cbn [s_space s_keys s_token s_payload s_pn s_acked s_phase]. intros (Hk & Hf & Ho) [Ht Hp] Hrest. destruct space as [| [| [| space]]]; [| | | done].
  - destruct (long_opens quicInitialType dcid scid token payload pn acked k (largestOf c 0) rest) as (hdr & P1 & P2 & P3 & _ & _ & _ & P4 & P5 & P6 & P7); try done; [by left |]. fold (quicBuildInitialPacket [] dcid scid token payload pn acked k) in *. split; [done |]. split; [done |]. rewrite decide_False by done. split; [done |]. split; [| done].
    unfold handleLongHeaderPacket. rewrite P1, P2, P3, ztake_app_exact. change (negb (quicVersion1 =? quicVersion1)) with false. change (quicInitialType =? quicInitialType) with true. cbv iota. change (quicPktInitial =? quicPktInitial) with true. cbv iota. unfold handleInitialPacket. by rewrite Ho, P4.
  - destruct (long_opens quicHandshakeType dcid scid [] payload pn acked k (largestOf c 1) rest) as (hdr & P1 & P2 & P3 & _ & _ & _ & P4 & P5 & P6 & P7); try done; [by right |]. fold (quicBuildHandshakePacket [] dcid scid payload pn acked k) in *. split; [done |]. split; [done |]. rewrite decide_False by done. split; [done |]. split; [| done].
    unfold handleLongHeaderPacket. rewrite P1, P2, P3, ztake_app_exact. change (negb (quicVersion1 =? quicVersion1)) with false. change (quicHandshakeType =? quicInitialType) with false. cbv iota. change (quicPktHandshake =? quicPktInitial) with false. change (quicPktHandshake =? quicPktHandshake) with true. cbv iota. unfold handleHandshakePacket. by rewrite Ho, P4.
  - rewrite (Hrest eq_refl), app_nil_r. destruct Ho as (Hdone & Hlen & Hph & ka & Hka & Hm & Hsel). rewrite Hka. destruct (selectRecvKeys clock c ka phase pn) as [o update] eqn:Es. cbn [fst] in Hsel. subst o.
    destruct (short_opens c ka k update dcid payload pn acked phase) as (P1 & P2 & P3 & P4); done.
Qed.

Lemma packetLoop_opens ss : forall fuel c known, arrives dcid c ss -> Forall packetSizes ss -> (known = None \/ known = Some dcid) -> (length (concat (map (wire dcid scid) ss)) <= fuel)%nat ->
  packetLoop handshake derive ptoRetire clock fuel c known (concat (map (wire dcid scid) ss)) = Some (foldl after c ss, map openedOf ss).
Proof.
  induction ss as [| s ss IH]; intros fuel c known Ha Hz Hk Hf; [by destruct fuel |]. cbn [arrives map concat foldl] in *. destruct Ha as (Ho & Hl & Ha). apply Forall_cons_1 in Hz as [Hz1 Hz]. set (rest := concat (map (wire dcid scid) ss)) in *.
  destruct (wire_facts c s rest Ho Hz1) as (Hpos & Hdc & Hrest); [intros H; unfold rest; by rewrite (Hl H) |]. rewrite length_app in Hf. destruct fuel as [| fuel]; [unfold zlen in Hpos; lia |]. cbn [packetLoop]. rewrite zlen_app. pose proof (zlen_nonneg rest). replace (_ =? 0) with false by lia.
  destruct (decide (s_space s = 2%nat)) as [E2 | N2].
  - assert (ss = []) as -> by exact (Hl E2). unfold rest in *. cbn [map concat] in *. rewrite app_nil_r in *. destruct Hrest as [-> ->]. done.
  - destruct Hrest as (-> & -> & Hany). replace (_ <=? 0) with false by lia. replace (_ <? zlen (wire dcid scid s)) with false by lia. cbn [orb]. rewrite zdrop_app_exact.
    assert (Hd : (match known with Some d => d | None => quicPacketDCID (wire dcid scid s ++ rest) (qr_srcCIDLen (after c s)) end) = dcid) by (destruct Hk as [-> | ->]; [apply Hany | done]). rewrite Hd.
    assert (Hnext : (0 <? zlen rest) && negb (bytes_eqb (quicPacketDCID rest (qr_srcCIDLen (after c s))) dcid) = false).
    { destruct ss as [| s2 ss]; [done |]. cbn [arrives] in Ha. destruct Ha as (Ho2 & Hl2 & _). apply Forall_cons_1 in Hz as [Hz2 _]. unfold rest. cbn [map concat]. destruct (wire_facts (after c s) s2 (concat (map (wire dcid scid) ss)) Ho2 Hz2) as (_ & -> & _); [intros X; by rewrite (Hl2 X) |].
      assert (bytes_eqb dcid dcid = true) as -> by (by apply bytes_eqb_spec). apply andb_false_r. }
    rewrite Hnext. unfold rest. rewrite IH; [done | exact Ha | exact Hz | by right | unfold zlen in Hpos; lia].
Qed.

End Datagram.

End Connection.

(** Every datagram is done with: each turn of the loop takes at least a byte. *)
Lemma packetLoop_total handshake derive ptoRetire clock fuel : forall c known data, (length data <= fuel)%nat -> exists r, packetLoop handshake derive ptoRetire clock fuel c known data = Some r.
Proof.
  induction fuel as [| fuel IH]; intros c known data Hl; [destruct data; [by eexists | cbn in Hl; lia] |]. cbn [packetLoop]. destruct (zlen data =? 0) eqn:E0; [by eexists |]. destruct (quicIsLongHeader data); [| by eexists].
  destruct (handleLongHeaderPacket handshake c data) as [[c' os] consumed]. destruct ((consumed <=? 0) || _) eqn:Ec; [by eexists |]. cbv zeta. destruct (_ && _); [by eexists |].
  assert (Hs : (length (zdrop consumed data) <= fuel)%nat) by (unfold zdrop; rewrite length_drop; unfold zlen in *; lia). match goal with |- context [packetLoop _ _ _ _ fuel c' ?k _] => destruct (IH c' k _ Hs) as ([c2 os2] & ->) end. by eexists.
Qed.

Lemma sentPayload_padding payload pn acked : fits acked pn acked -> exists n, (n <= 3)%nat /\ sentPayload payload pn acked = payload ++ replicate n 0.
Proof.
  intros (Hp & Ha & _ & Hd & _). destruct (encode_spec pn acked Hp Ha Hd) as (len & Hlen & E & _). unfold sentPayload. rewrite E. cbn [snd]. unfold paddedPayload, quicPadForHeaderProtection, quicHPMinPNAndPayload. destruct (_ <? 4); [| exists 0%nat; split; [lia | by rewrite app_nil_r]].
  eexists. split; [| done]. pose proof (zlen_nonneg payload). lia.
Qed.
Lemma fits_acked largest pn acked : fits largest pn acked -> fits acked pn acked.
Proof. unfold fits. intros (H1 & H2 & H3 & H4 & H5). split_and!; lia. Qed.

Lemma arrives_padding handshake derive ptoRetire clock dcid ss : forall c, arrives handshake derive ptoRetire clock dcid c ss -> Forall (fun s => exists n, (n <= 3)%nat /\ (openedOf s).2 = s_payload s ++ replicate n 0) ss.
Proof. induction ss as [| s ss IH]; intros c; [constructor |]. cbn [arrives]. intros ((_ & Hf & _) & _ & Ha). constructor; [by eapply sentPayload_padding, fits_acked | by eapply IH]. Qed.

(** ** Updates of the keys *)

Section KeyUpdates.

Context (handshake : quicRecv -> nat -> bytes -> quicRecv) (derive : quicKeys -> option quicKeys) (ptoRetire : Z).
(** The keys of the sender by epoch, the mask they share, and the first number of
    each epoch. *)
Context (K : nat -> quicKeys) (hp : bytes -> bytes) (first : nat -> Z) (dcid scid : bytes).
Hypothesis keys_good : forall e, keys_ok (K e) /\ k_mask (K e) = hp /\ derive (K e) = Some (K (S e)).
Hypothesis first_grows : first 0%nat = 0 /\ forall e, first e < first (S e).
Hypothesis quiet : forall c frames, handshake c 2%nat frames = c.

Record arrival := mkArrival { a_clock : Z; a_payload : bytes; a_pn : Z; a_acked : Z; a_epoch : nat }.
Definition phaseOf (e : nat) : Z := if Nat.even e then 0 else 1.
Definition sentOf (a : arrival) : sentPacket := mkSent 2 (K (a_epoch a)) [] (a_payload a) (a_pn a) (a_acked a) (phaseOf (a_epoch a)).

(** Packets in any order and with any loss, from an honest sender: the epochs are
    runs of numbers; a packet comes from the epoch the receiver is in, the next
    one, or the one before until its keys are retired. *)
Fixpoint timely (r : nat) (deadline largest now : Z) (l : list arrival) : Prop :=
  match l with
  | [] => True
  | a :: l =>
      now <= a_clock a /\ first (a_epoch a) <= a_pn a < first (S (a_epoch a)) /\ fits largest (a_pn a) (a_acked a) /\
      (a_epoch a = r \/ a_epoch a = S r \/ (S (a_epoch a) = r /\ a_clock a <= deadline)) /\
      timely (max r (a_epoch a)) (if Nat.eqb (a_epoch a) (S r) then a_clock a + ptoRetire else deadline) (Z.max largest (a_pn a)) (a_clock a) l
  end.

Fixpoint receive (c : quicRecv) (l : list arrival) : option (quicRecv * list (nat * Z * bytes)) :=
  match l with
  | [] => Some (c, [])
  | a :: l =>
      match processPacket handshake derive ptoRetire (a_clock a) c (wire dcid scid (sentOf a)) with
      | Some (c, os) => match receive c l with Some (c, os') => Some (c, os ++ os') | None => None end
      | None => None
      end
  end.

(** The receiver is in epoch [r]. *)
Record inEpoch (r : nat) (deadline largest now : Z) (c : quicRecv) : Prop := mkInEpoch {
  ie_done : qr_handshakeDone c = true;
  ie_cid : qr_srcCIDLen c = zlen dcid;
  ie_hp : qr_origHP c = Some hp;
  ie_app : qr_app c = Some (K r);
  ie_next : qr_next c = Some (K (S r));
  ie_phase : qr_phase c = phaseOf r;
  ie_update : first r <= qr_updatePN c < first (S r);
  ie_retire : qr_prevRetire c = deadline;
  ie_prev : match r with O => True | S r' => qr_prev c = Some (K r') \/ deadline < now end;
  ie_largest : length (qr_largest c) = 3%nat /\ largestOf c 2 = largest /\ -1 <= largest < 2 ^ 62 }.

Lemma phase_same e : (phaseOf e =? phaseOf e) = true.
Proof. apply Z.eqb_refl. Qed.
Lemma phase_next e : (phaseOf (S e) =? phaseOf e) = false /\ (phaseOf e =? phaseOf (S e)) = false.
Proof. unfold phaseOf. rewrite Nat.even_succ, <- Nat.negb_even. by destruct (Nat.even e). Qed.

(** The keys chosen for an arrival, and the receiver after it. *)
Lemma arrival_step r deadline largest now c a : inEpoch r deadline largest now c -> now <= a_clock a -> first (a_epoch a) <= a_pn a < first (S (a_epoch a)) -> fits largest (a_pn a) (a_acked a) ->
  (a_epoch a = r \/ a_epoch a = S r \/ (S (a_epoch a) = r /\ a_clock a <= deadline)) ->
  opens (a_clock a) dcid c (sentOf a) /\
  inEpoch (max r (a_epoch a)) (if Nat.eqb (a_epoch a) (S r) then a_clock a + ptoRetire else deadline) (Z.max largest (a_pn a)) (a_clock a) (after handshake derive ptoRetire (a_clock a) c (sentOf a)).
Proof.
  intros I Hnow Hpn Hfit He. destruct I as [I1 I2 I3 I4 I5 I6 I7 I8 I9 (I10 & I11 & I12)]. destruct (keys_good (a_epoch a)) as (Hk & Hm & Hd). pose proof (proj2 first_grows) as Hgrow. pose proof Hfit as (Hp62 & _).
  assert (Hsel : selectRecvKeys (a_clock a) c (K r) (phaseOf (a_epoch a)) (a_pn a) = (Some (K (a_epoch a)), Nat.eqb (a_epoch a) (S r))).
  { unfold selectRecvKeys. rewrite I6. destruct He as [E | [E | [Er Hc]]].
    - rewrite E, phase_same. by replace (Nat.eqb r (S r)) with false by (symmetry; apply Nat.eqb_neq; lia).
    - rewrite E in *. rewrite (proj1 (phase_next r)), I5, Nat.eqb_refl. by replace (a_pn a <? qr_updatePN c) with false by lia.
    - subst r. rewrite (proj2 (phase_next _)). replace (a_pn a <? qr_updatePN c) with true by lia. destruct I9 as [-> | Hlate]; [| lia]. rewrite I8. replace (a_clock a <=? deadline) with true by lia. f_equal. symmetry. apply Nat.eqb_neq. lia. }
  split.
  - unfold opens, sentOf. cbn [s_space s_keys s_pn s_acked s_phase]. rewrite I11. split; [exact Hk |]. split; [exact Hfit |]. split; [exact I1 |]. split; [by rewrite I2 |]. split; [unfold phaseOf; destruct (Nat.even _); [by left | by right] |]. exists (K r). split; [exact I4 |].
    split; [unfold recvMask; by rewrite I3, Hm | by rewrite Hsel].
  - unfold after, sentOf. cbn [s_space s_keys s_pn s_acked s_phase s_payload]. rewrite I4, Hsel. cbn [snd]. set (c1 := if Nat.eqb (a_epoch a) (S r) then commitPeerKeyUpdate derive ptoRetire (a_clock a) c (K r) (phaseOf (a_epoch a)) (a_pn a) else c).
    assert (H1 : inEpoch (max r (a_epoch a)) (if Nat.eqb (a_epoch a) (S r) then a_clock a + ptoRetire else deadline) largest now c1).
    { unfold c1. destruct (Nat.eqb_spec (a_epoch a) (S r)) as [E | N].
      - replace (max r (a_epoch a)) with (S r) by lia. rewrite E in *. destruct (keys_good (S r)) as (_ & _ & Hd'). unfold commitPeerKeyUpdate. rewrite I5. apply mkInEpoch; cbn; try done; [by left].
      - replace (max r (a_epoch a)) with r by lia. by apply mkInEpoch. }
    assert (H2 : inEpoch (max r (a_epoch a)) (if Nat.eqb (a_epoch a) (S r) then a_clock a + ptoRetire else deadline) largest (a_clock a) (retirePrev (a_clock a) c1)).
    { destruct H1 as [J1 J2 J3 J4 J5 J6 J7 J8 J9 J10]. set (d := if Nat.eqb (a_epoch a) (S r) then a_clock a + ptoRetire else deadline) in *. unfold retirePrev. destruct (qr_prev c1) as [kp |] eqn:Ep; [destruct (qr_prevRetire c1 <? a_clock a) eqn:El |]; apply mkInEpoch; cbn [qr_handshakeDone qr_srcCIDLen qr_origHP qr_app qr_next qr_phase qr_updatePN qr_prevRetire qr_prev qr_largest]; try done.
      - destruct (max r (a_epoch a)); [done |]. right. lia.
      - rewrite Ep. destruct (max r (a_epoch a)); [done |]. destruct J9 as [J9 | J9]; [by left | right; lia].
      - rewrite Ep. destruct (max r (a_epoch a)); [done |]. destruct J9 as [J9 | J9]; [done | right; lia]. }
    clear H1. set (c2 := retirePrev (a_clock a) c1) in *. clearbody c2. destruct H2 as [J1 J2 J3 J4 J5 J6 J7 J8 J9 (J10 & J11 & J12)]. unfold deliverFrames. rewrite quiet, i64_small by lia. rewrite J11.
    apply mkInEpoch; cbn [qr_handshakeDone qr_srcCIDLen qr_origHP qr_app qr_next qr_phase qr_updatePN qr_prevRetire qr_prev qr_largest]; try done. unfold largestOf. cbn [qr_largest]. destruct (largest <? a_pn a) eqn:El.
    + rewrite length_insert. split; [done |]. split; [| lia]. destruct (qr_largest c2) as [| x [| y [| z l]]]; try discriminate J10. cbn. lia.
    + split; [done |]. split; [| lia]. unfold largestOf in J11. rewrite J11. lia.
Qed.

Lemma receive_opens l : zlen dcid <= 20 -> zlen scid <= 20 -> Forall (fun a => zlen (a_payload a) < 2 ^ 61) l -> forall r deadline largest now c, inEpoch r deadline largest now c -> timely r deadline largest now l ->
  exists c' r' deadline' largest' now', receive c l = Some (c', map (fun a => openedOf (sentOf a)) l) /\ inEpoch r' deadline' largest' now' c' /\ r' = foldl max r (map a_epoch l).
Proof.
  intros Hd Hs. induction 1 as [| a l Ha _ IH]; intros r deadline largest now c I Ht; [by exists c, r, deadline, largest, now |]. cbn [timely] in Ht. destruct Ht as (T1 & T2 & T3 & T4 & Ht). destruct (arrival_step r deadline largest now c a I T1 T2 T3 T4) as [Ho I'].
  assert (E : processPacket handshake derive ptoRetire (a_clock a) c (wire dcid scid (sentOf a)) = Some (after handshake derive ptoRetire (a_clock a) c (sentOf a), [openedOf (sentOf a)])).
  { unfold processPacket. pose proof (packetLoop_opens handshake derive ptoRetire (a_clock a) dcid scid (conj Hd Hs) [sentOf a] (length (wire dcid scid (sentOf a))) c None) as P. cbn [map concat] in P. rewrite app_nil_r in P. apply P; [split_and!; done | | by left | lia].
    constructor; [| constructor]. split; [change (zlen (s_token (sentOf a))) with 0; lia | exact Ha]. }
  destruct (IH _ _ _ _ _ I' Ht) as (c' & r' & d' & l' & n' & E' & I'' & Er). exists c', r', d', l', n'. cbn [receive map foldl]. rewrite E, E'. done.
Qed.

End KeyUpdates.

(** C2: QUIC packets arrive. A datagram of coalesced packets (Initial, Handshake and
    at most one short packet at the end, for one connection id) built by the
    server's own code with keys of any AEAD with a 16-byte tag and any mask is
    taken apart: each packet is found, its protection removed, its number
    restored from one to four bytes, and its frames handed on exactly as sent, with
    at most three bytes of PADDING added, in the order of the datagram; provided
    the receiver has the keys and the number is within half a window of what it
    expects. On any other bytes the loop over the packets ends too. *)
Theorem quic_datagrams :
  (forall handshake derive ptoRetire clock c data, exists r, processPacket handshake derive ptoRetire clock c data = Some r) /\
  (forall handshake derive ptoRetire clock dcid scid c ss, zlen dcid <= 20 -> zlen scid <= 20 -> Forall packetSizes ss -> arrives handshake derive ptoRetire clock dcid c ss ->
    processPacket handshake derive ptoRetire clock c (concat (map (wire dcid scid) ss)) = Some (foldl (after handshake derive ptoRetire clock) c ss, map openedOf ss) /\
    Forall (fun s => exists n, (n <= 3)%nat /\ openedOf s = (s_space s, s_pn s, s_payload s ++ replicate n 0)) ss).
Proof.
  split; [intros; by apply packetLoop_total |]. intros handshake derive ptoRetire clock dcid scid c ss Hd Hs Hz Ha. split; [apply packetLoop_opens; [by split | done | done | by left | done] |].
  pose proof (arrives_padding handshake derive ptoRetire clock dcid ss c Ha) as Hp. eapply List.Forall_impl; [| exact Hp]. intros s (n & Hn & E). exists n. split; [done |]. unfold openedOf in *. cbn [snd] in E. by rewrite E.
Qed.

(** C3: updates of the QUIC keys by the peer. Packets come reordered and with
    losses, from an honest sender whose epochs of keys are runs of packet numbers,
    under two conditions: each is from the epoch the receiver is in, from the next
    one, or from the one before while its keys are not retired; and its number is
    within the window in which the bytes sent for it determine it (RFC 9000, A.3).
    Then the receiver opens every one of them with the keys of its epoch, told by
    one bit and the packet number, hands the frames on as sent, and ends in the
    latest epoch it saw. *)
Theorem quic_key_updates handshake derive ptoRetire K hp first dcid scid l c now :
  (forall e, keys_ok (K e) /\ k_mask (K e) = hp /\ derive (K e) = Some (K (S e))) -> (first 0%nat = 0 /\ forall e, first e < first (S e)) -> (forall c frames, handshake c 2%nat frames = c) ->
  zlen dcid <= 20 -> zlen scid <= 20 -> Forall (fun a => zlen (a_payload a) < 2 ^ 61) l ->
  inEpoch K hp first dcid 0 0 (-1) now c -> timely ptoRetire first 0 0 (-1) now l ->
  exists c', receive handshake derive ptoRetire K dcid scid c l = Some (c', map (fun a => openedOf (sentOf K a)) l) /\ qr_app c' = Some (K (foldl max 0%nat (map a_epoch l))).
Proof.
  intros Hk Hf Hq Hd Hs Hp I Ht. destruct (receive_opens handshake derive ptoRetire K hp first dcid scid Hk Hf Hq l Hd Hs Hp _ _ _ _ _ I Ht) as (c' & r' & d' & l' & n' & E & I' & ->). exists c'. split; [exact E | exact (ie_app _ _ _ _ _ _ _ _ _ I')].
Qed.

(** Keys that do nothing but add a tag, told apart by it. *)
Definition demoKeys (e : Z) : quicKeys :=
  mkKeys (fun _ text _ => text ++ replicate 16 e) (fun _ text _ => if bytes_eqb (zdrop (zlen text - 16) text) (replicate 16 e) then Some (ztake (zlen text - 16) text) else None) 16
    (fun sample => [u8 (znth sample 0 + 90); 1; 2; 3; 4]) (replicate 12 7) 4 12.
Lemma demoKeys_ok e : keys_ok (demoKeys e).
Proof.
  apply mkKeysOk; [| intros; cbn [k_seal demoKeys k_overhead]; rewrite zlen_app; done | done]. intros nonce text ad. cbn [k_open k_seal demoKeys]. rewrite zlen_app. change (zlen (replicate 16 e)) with 16. replace (zlen text + 16 - 16) with (zlen text) by lia.
  rewrite zdrop_app_exact, ztake_app_exact. assert (bytes_eqb (replicate 16 e) (replicate 16 e) = true) as -> by (by apply bytes_eqb_spec). done.
Qed.

Definition demoCID : bytes := [1; 2; 3; 4].
Definition demoRecv : quicRecv := mkRecv 4 (Some (demoKeys 100)) (Some (demoKeys 101)) (Some (demoKeys 0)) [-1; -1; -1] true (Some (k_mask (demoKeys 0))) 0 (Some (demoKeys 1)) None 0 0.
Definition demoSent : list sentPacket := [mkSent 0 (demoKeys 100) [9; 9] [1; 1; 1] 0 (-1) 0; mkSent 1 (demoKeys 101) [] [2] 300 200 0; mkSent 2 (demoKeys 0) [] [3; 3; 3; 3; 3] 70000 69000 0].

Lemma quic_datagrams_witness :
  exists c', processPacket (fun c _ _ => c) (fun _ => None) 0 0 (mkRecv 4 (Some (demoKeys 100)) (Some (demoKeys 101)) (Some (demoKeys 0)) [-1; 250; 69500] true (Some (k_mask (demoKeys 0))) 0 (Some (demoKeys 1)) None 0 0)
    (concat (map (wire demoCID [8]) demoSent)) = Some (c', [(0%nat, 0, [1; 1; 1]); (1%nat, 300, [2; 0; 0]); (2%nat, 70000, [3; 3; 3; 3; 3])]) /\ qr_largest c' = [0; 300; 70000] /\ qr_initial c' = None.
Proof.
  assert (H1 : zlen demoCID <= 20) by (vm_compute; discriminate). assert (H2 : zlen [8] <= 20) by (vm_compute; discriminate). assert (H3 : Forall packetSizes demoSent) by (repeat constructor).
  eexists. split; [etransitivity; [apply (proj2 quic_datagrams (fun c _ _ => c) (fun _ => None) 0 0 demoCID [8] _ demoSent H1 H2 H3) | vm_compute; reflexivity] | split; vm_compute; reflexivity].
  cbn [arrives demoSent]. unfold opens. cbn [s_space s_keys s_pn s_acked s_phase after deliverFrames].
  split; [split; [apply demoKeys_ok | split; [unfold fits; vm_compute; split_and!; (reflexivity || discriminate) | reflexivity]] | split; [discriminate |]].
  split; [split; [apply demoKeys_ok | split; [unfold fits; vm_compute; split_and!; (reflexivity || discriminate) | reflexivity]] | split; [discriminate |]].
  split; [split; [apply demoKeys_ok | split; [unfold fits; vm_compute; split_and!; (reflexivity || discriminate) | split; [reflexivity | split; [reflexivity | split; [by left |]]]; exists (demoKeys 0); split_and!; reflexivity]] | split; [done | exact I]].
Defined.

Definition demoEpoch (e : nat) : quicKeys := demoKeys (Z.of_nat e).
Definition demoDerive (k : quicKeys) : option quicKeys := Some (demoKeys (znth (k_seal k [] [] []) 0 + 1)).
Definition demoArrivals : list arrival := [mkArrival 1 [5; 5; 5] 3 (-1) 0; mkArrival 2 [6; 6; 6] 12 (-1) 1; mkArrival 3 [7; 7; 7] 4 (-1) 0; mkArrival 4 [8; 8; 8] 21 10 2; mkArrival 5 [9; 9; 9] 13 10 1].

Lemma quic_key_updates_witness :
  exists c', receive (fun c _ _ => c) demoDerive 100 demoEpoch demoCID [] demoRecv demoArrivals
    = Some (c', [(2%nat, 3, [5; 5; 5]); (2%nat, 12, [6; 6; 6]); (2%nat, 4, [7; 7; 7]); (2%nat, 21, [8; 8; 8]); (2%nat, 13, [9; 9; 9])]) /\ qr_app c' = Some (demoKeys 2).
Proof.
  set (first := fun e : nat => 10 * Z.of_nat e).
  assert (H1 : forall e, keys_ok (demoEpoch e) /\ k_mask (demoEpoch e) = k_mask (demoKeys 0) /\ demoDerive (demoEpoch e) = Some (demoEpoch (S e))).
  { intros e. split; [apply demoKeys_ok |]. split; [reflexivity |]. unfold demoDerive, demoEpoch. cbn [k_seal demoKeys app]. change (znth (replicate 16 ?x) 0) with x. do 2 f_equal. lia. }
  assert (H2 : first 0%nat = 0 /\ forall e, first e < first (S e)) by (unfold first; split; [done | intros; lia]).
  assert (H3 : inEpoch demoEpoch (k_mask (demoKeys 0)) first demoCID 0 0 (-1) 0 demoRecv) by (apply mkInEpoch; try done; unfold first; cbn; lia).
  assert (H4 : timely 100 first 0 0 (-1) 0 demoArrivals).
  { cbn [timely demoArrivals a_clock a_epoch a_pn a_acked]. unfold fits, first. cbn [Nat.eqb Nat.max]. split_and!; try (vm_compute; (reflexivity || discriminate)); try exact I; first [by left | by right; left | right; right; split; [reflexivity | vm_compute; discriminate]]. }
  destruct (quic_key_updates (fun c _ _ => c) demoDerive 100 demoEpoch (k_mask (demoKeys 0)) first demoCID [] demoArrivals demoRecv 0 H1 H2 (fun _ _ => eq_refl)) as (c' & E & Ha);
    [vm_compute; discriminate | vm_compute; discriminate | repeat constructor | exact H3 | exact H4 |].
  exists c'. split; [etransitivity; [exact E | vm_compute; reflexivity] | exact Ha].
Defined.
