(* ===== verification/ServeContent.v ===== *)
(** Files as responses (src/core/serve_content.go and the options and writers of
    sendfile.go, sendfile_linux.go): validators, conditional requests, byte
    ranges, and the bytes of a range through a stream writer or a buffer. The
    dates of net/http, the failures of the file and of the stream writer and the
    answers of the kernel are arguments ([contentEnv]). *)
From stdpp Require Import base list numbers strings.
From Stdlib Require Import ZArith Lia ZifyBool.
From S2P Require Import Prelude Utils HttpText HpackDyn H1Scan H1Head H1Resp RateLimit.

Open Scope list_scope.
Open Scope Z_scope.

Inductive rangeOutcome := rangeIgnored | rangeSatisfiable | rangeUnsatisfiable.
Inductive preconditionResult := preconditionPass | preconditionNotModified | preconditionFailed.

Definition byteRangeUnit : bytes := str "bytes".
Definition maxRangeIntDigits : Z := 18.
Definition contentRangePrefix : bytes := str "bytes ".
Definition unsatisfiablePrefix : bytes := str "bytes */".

Inductive ioError := EOF | ErrUnexpectedEOF | ErrStreamClosed | ErrClosed | ErrBodyTooLarge | errH2StreamStalled | otherError (code : Z).
#[export] Instance ioError_eq_dec : EqDecision ioError.
Proof. solve_decision. Defined.

(** An answer of sendfile(2): up to so many bytes, or an error; a wait for the
    socket ends with its own result. *)
Inductive sendfileAnswer := sfMoved (n : positive) | sfIntr | sfAgain (wait : option ioError) | sfError (e : ioError).

(** [formatDate] is [time.Unix(unix, 0).UTC().Format(http.TimeFormat)], [parseTime]
    is [http.ParseTime]. The k-th read of the file may stop after some bytes with
    an error; the k-th call of the stream writer may fail. *)
Record contentEnv := mkContentEnv {
  formatDate : Z -> bytes;
  parseTime : bytes -> option Z;
  readFault : nat -> option (Z * ioError);
  writeFault : nat -> option ioError }.

(** ** Validators *)

Record contentValidators := mkValidators { v_etag : bytes; v_lastModified : bytes; v_modUnix : Z }.

(** What [os.FileInfo] says: the size and the time of the last change, in
    seconds and nanoseconds. *)
Record fileInfo := mkFileInfo { fi_Size : Z; fi_sec : Z; fi_nsec : Z }.
Definition fi_UnixNano (fi : fileInfo) : Z := i64 (fi_sec fi * 1000000000 + fi_nsec fi).

(** [lastHTTPDate]: the last date that was written out. *)
Definition httpDateEntry : Type := option (Z * bytes).

Section Content.
Context (env : contentEnv).

Definition httpDate (last : httpDateEntry) (unix : Z) : bytes * httpDateEntry :=
  match last with
  | Some (u, text) => if u =? unix then (text, last) else let text := formatDate env unix in (text, Some (unix, text))
  | None => let text := formatDate env unix in (text, Some (unix, text))
  end.

(** [strconv.AppendUint] in base 16 and [strconv.AppendInt] in base 10 write the
    same digits as [appendHex] and [appendUint]. *)
Definition fileETag (fi : fileInfo) : bytes :=
  appendHex (appendHex [34] (u64 (fi_UnixNano fi)) ++ [45]) (u64 (fi_Size fi)) ++ [34].
Definition fileValidators (last : httpDateEntry) (fi : fileInfo) : contentValidators * httpDateEntry :=
  let (date, last) := httpDate last (fi_sec fi) in
  (mkValidators (fileETag fi) date (fi_sec fi), last).

(** ** Entity tags *)

Definition isETagChar (c : Z) : bool := (c =? 0x21) || ((0x23 <=? c) && negb (c =? 0x7f)).

(** [tag] is the part that was scanned, with its opening quote. *)
Fixpoint scanETagFrom (tag s : bytes) : option (bytes * bytes) :=
  match s with
  | [] => None
  | c :: s =>
      if c =? 34 then Some (tag ++ [c], s)
      else if negb (isETagChar c) then None
      else scanETagFrom (tag ++ [c]) s
  end.
Definition weakPrefix (s : bytes) : bool := bytes_eqb (ztake 2 s) (str "W/").
Definition scanETag (s : bytes) : option (bytes * bool * bytes) :=
  let weak := weakPrefix s in
  let s := if weak then zdrop 2 s else s in
  if (zlen s <? 2) || negb (znth s 0 =? 34) then None
  else match scanETagFrom [34] (zdrop 1 s) with
       | Some (tag, rest) => Some (tag, weak, rest)
       | None => None
       end.

Definition isListSeparator (c : Z) : bool := (c =? 32) || (c =? 9) || (c =? 44).
Fixpoint skipListSeparators (s : bytes) : bytes :=
  match s with
  | [] => []
  | c :: s' => if isListSeparator c then skipListSeparators s' else s
  end.

Definition isASCIISpace (c : Z) : bool := (c =? 32) || (c =? 9) || (c =? 13) || (c =? 10).
Fixpoint dropASCIISpace (s : bytes) : bytes :=
  match s with
  | [] => []
  | c :: s' => if isASCIISpace c then dropASCIISpace s' else s
  end.
Definition trimASCIISpace (s : bytes) : bytes := rev (dropASCIISpace (rev (dropASCIISpace s))).

(** Every turn takes a tag off the list. *)
Fixpoint etagListLoop (fuel : nat) (l current : bytes) (strong : bool) : bool :=
  match fuel with
  | O => false
  | S fuel =>
      let l := skipListSeparators l in
      if bytes_eqb l [] then false
      else if znth l 0 =? 42 then
        let rest := trimASCIISpace (zdrop 1 l) in bytes_eqb rest [] || (znth rest 0 =? 44)
      else match scanETag l with
           | None => false
           | Some (tag, weak, rest) =>
               if bytes_eqb tag current && negb (strong && weak) then true
               else etagListLoop fuel rest current strong
           end
  end.
Definition etagListContains (l current : bytes) (strong : bool) : bool := etagListLoop (S (length l)) l current strong.

Fixpoint etagHeadersLoop (headers : list field) (name current : bytes) (strong present : bool) : bool * bool :=
  match headers with
  | [] => (present, false)
  | h :: headers =>
      if negb (EqualFoldASCII h.1 name) then etagHeadersLoop headers name current strong present
      else if etagListContains h.2 current strong then (true, true)
      else etagHeadersLoop headers name current strong true
  end.
Definition etagHeaderMatches (req : h1Request) (name current : bytes) (strong : bool) : bool * bool :=
  etagHeadersLoop (q_Headers req) name current strong false.

(** ** Preconditions *)

Definition reqHeader (req : h1Request) (name : bytes) : bytes := (Header req name).1.

Definition headerUnixDate (req : h1Request) (name : bytes) (v : contentValidators) : option Z :=
  let value := reqHeader req name in
  if bytes_eqb value [] then None
  else if bytes_eqb value (v_lastModified v) then Some (v_modUnix v)
  else parseTime env value.

Definition safeMethod (req : h1Request) : bool := bytes_eqb (q_Method req) (str "GET") || bytes_eqb (q_Method req) (str "HEAD").

Definition evaluatePreconditions (req : h1Request) (v : contentValidators) : preconditionResult :=
  let ifNoneMatch :=
    let (present, matched) := etagHeaderMatches req (str "If-None-Match") (v_etag v) false in
    if present then
      if matched then if safeMethod req then preconditionNotModified else preconditionFailed
      else preconditionPass
    else if safeMethod req then
      match headerUnixDate req (str "If-Modified-Since") v with
      | Some since => if v_modUnix v <=? since then preconditionNotModified else preconditionPass
      | None => preconditionPass
      end
    else preconditionPass in
  let (present, matched) := etagHeaderMatches req (str "If-Match") (v_etag v) true in
  if present then if negb matched then preconditionFailed else ifNoneMatch
  else match headerUnixDate req (str "If-Unmodified-Since") v with
       | Some since => if since <? v_modUnix v then preconditionFailed else ifNoneMatch
       | None => ifNoneMatch
       end.

Definition ifRangeAllows (req : h1Request) (v : contentValidators) : bool :=
  let cond := reqHeader req (str "If-Range") in
  if bytes_eqb cond [] then true
  else if (znth cond 0 =? 34) || weakPrefix cond then
    match scanETag cond with
    | Some (tag, weak, rest) => negb weak && bytes_eqb (trimASCIISpace rest) [] && bytes_eqb tag (v_etag v)
    | None => false
    end
  else match headerUnixDate req (str "If-Range") v with
       | Some unix => unix =? v_modUnix v
       | None => false
       end.

(** ** Byte ranges *)

Fixpoint parseRangeLoop (s : bytes) (n : Z) : option Z :=
  match s with
  | [] => Some n
  | c :: s => if (c <? 48) || (57 <? c) then None else parseRangeLoop s (i64 (n * 10 + (c - 48)))
  end.
Definition parseRangeInt (s : bytes) : option Z :=
  if bytes_eqb s [] || (maxRangeIntDigits <? zlen s) then None else parseRangeLoop s 0.

Definition parseByteRange (header : bytes) (size : Z) : Z * Z * rangeOutcome :=
  let eq := IndexByte header 61 in
  if (eq <? 0) || negb (EqualFoldASCII (ztake eq header) byteRangeUnit) then (0, 0, rangeIgnored)
  else
    let spec := trimASCIISpace (zdrop (eq + 1) header) in
    if bytes_eqb spec [] || (0 <=? IndexByte spec 44) then (0, 0, rangeIgnored)
    else
      let dash := IndexByte spec 45 in
      if dash <? 0 then (0, 0, rangeIgnored)
      else
        let firstText := ztake dash spec in
        let lastText := zdrop (dash + 1) spec in
        if bytes_eqb firstText [] then
          match parseRangeInt lastText with
          | None => (0, 0, rangeIgnored)
          | Some suffix =>
              if (suffix =? 0) || (size =? 0) then (0, 0, rangeUnsatisfiable)
              else let suffix := if size <? suffix then size else suffix in (size - suffix, suffix, rangeSatisfiable)
          end
        else match parseRangeInt firstText with
             | None => (0, 0, rangeIgnored)
             | Some first =>
                 let within last := if size <=? first then (0, 0, rangeUnsatisfiable) else (first, last - first + 1, rangeSatisfiable) in
                 if bytes_eqb lastText [] then within (size - 1)
                 else match parseRangeInt lastText with
                      | None => (0, 0, rangeIgnored)
                      | Some requested =>
                          if requested <? first then (0, 0, rangeIgnored)
                          else within (if requested <? size - 1 then requested else size - 1)
                      end
             end.

Definition formatContentRange (start len size : Z) : bytes :=
  let b := appendUint contentRangePrefix start ++ [45] in
  let b := appendUint b (start + len - 1) ++ [47] in
  appendUint b size.

(** ** The bytes of a range *)

(** The calls of a stream writer, the waits of the limiter and the bytes that
    sendfile(2) moves, in order. *)
Inductive swCall :=
  | swWriteHeader (status : Z) (headers : list field) (contentType : bytes)
  | swWriteChunk (chunk : bytes)
  | swSendfile (moved : bytes)
  | swWait (n : Z)
  | swClose.

(** [f.ReadAt(buf[:n], pos)] on a file with these bytes, the k-th read: short
    reads carry an error. *)
Definition readAt (file : bytes) (k : nat) (pos n : Z) : bytes * option ioError :=
  let have := ztake n (zdrop pos file) in
  match readFault env k with
  | Some (j, e) => (ztake j have, Some e)
  | None => (have, if zlen have <? n then Some EOF else None)
  end.

Definition fileReadBufSize : Z := 65536.

(** [calls] were made, [w] of them by the stream writer's methods; every turn
    reads a byte or returns. *)
Fixpoint streamFileLoop (fuel : nat) (file : bytes) (pos stop : Z) (limited : bool) (k w : nat) (calls : list swCall) : option (list swCall * option ioError) :=
  match fuel with
  | O => None
  | S fuel =>
      if pos <? stop then
        let (chunk, readErr) := readAt file k pos (Z.min (stop - pos) fileReadBufSize) in
        let after calls w pos :=
          match readErr with
          | Some e =>
              if bool_decide (e = EOF) && (stop <=? pos) then Some (calls ++ [swClose], writeFault env w)
              else if bool_decide (e = EOF) then Some (calls, Some ErrUnexpectedEOF)
              else Some (calls, Some e)
          | None => streamFileLoop fuel file pos stop limited (S k) w calls
          end in
        if 0 <? zlen chunk then
          let calls := calls ++ (if limited then [swWait (zlen chunk)] else []) ++ [swWriteChunk chunk] in
          match writeFault env w with
          | Some e => Some (calls, Some e)
          | None => after calls (S w) (pos + zlen chunk)
          end
        else after calls w pos
      else Some (calls ++ [swClose], writeFault env w)
  end.

(** [sendFileFD] between one answer of the kernel and the next: [None] while it
    waits for an answer that has not come. *)
Definition nativeSendFileChunk : Z := 65536.
Fixpoint sendFileFD (file : bytes) (answers : list sendfileAnswer) (offset remaining : Z) (limited : bool) (calls : list swCall) : option (list swCall * option ioError) :=
  if 0 <? remaining then
    match answers with
    | [] => None
    | sfMoved n :: answers =>
        let moved := ztake (Z.min (Z.pos n) (Z.min remaining nativeSendFileChunk)) (zdrop offset file) in
        if 0 <? zlen moved then
          sendFileFD file answers (offset + zlen moved) (remaining - zlen moved) limited (calls ++ swSendfile moved :: (if limited then [swWait (zlen moved)] else []))
        else Some (calls, Some ErrUnexpectedEOF)
    | sfIntr :: answers => sendFileFD file answers offset remaining limited calls
    | sfAgain None :: answers => sendFileFD file answers offset remaining limited calls
    | sfAgain (Some e) :: _ => Some (calls, Some e)
    | sfError e :: _ => Some (calls, Some e)
    end
  else Some (calls, None).

(** What [nativeSendFileTarget] finds of the connection. *)
Inductive nativeTarget := targetError (e : ioError) | targetNone | targetFD.
Record plainWriter := mkPlainWriter {
  pw_headersSent : bool;
  pw_chunked : bool;
  pw_suppressBody : bool;
  pw_target : nativeTarget;
  pw_fileOpen : bool;
  pw_answers : list sendfileAnswer }.

(** A writer of the event loop ([epollH1StreamWriter], [epollH2StreamWriter]) is
    known by its [sendFileRange]: the bytes of the file that went to the
    connection, and the call, which has returned with a result or waits. FileSend
    models both; [LoopWriterOk] is what it promises: the first bytes of the range,
    all of them if the call returned without an error, none if it leaves the file
    to the caller. *)
Inductive fileCall := fileReturned (sent : bool) (e : option ioError) | fileWaits.
Record loopWriter := mkLoopWriter { sendFileRange : bytes -> Z -> Z -> bool -> bytes * fileCall }.

Definition range_sent (file : bytes) (start len : Z) (sent : bytes) (call : fileCall) : Prop :=
  (exists rest, zslice file start (start + len) = sent ++ rest) /\
  match call with fileReturned true None => sent = zslice file start (start + len) /\ zlen sent = len | fileReturned false _ => sent = [] | _ => True end.
Class LoopWriterOk (w : loopWriter) : Prop := loop_range_sent : forall file start len limited, 0 <= start -> 0 <= len ->
  let (sent, call) := sendFileRange w file start len limited in range_sent file start len sent call.

(** A writer of the event loop, a [PlainH1StreamWriter], or a writer that has no
    way of its own to send a file. *)
Inductive contentWriter := epollH1Writer (w : loopWriter) | epollH2Writer (w : loopWriter) | plainH1Writer (w : plainWriter) | genericWriter.

Definition tryWriteFileNative (w : plainWriter) (file : bytes) (start len : Z) (limited : bool) (calls : list swCall) : option (bool * list swCall * option ioError) :=
  if len <=? 0 then Some (true, calls, None)
  else match pw_target w with
       | targetError e => Some (true, calls, Some e)
       | targetNone => Some (false, calls, None)
       | targetFD =>
           if negb (pw_fileOpen w) then Some (true, calls, Some ErrClosed)
           else match sendFileFD file (pw_answers w) start len limited calls with
                | Some (calls, e) => Some (true, calls, e)
                | None => None
                end
       end.
Definition trySendFileFastPath (sw : contentWriter) (file : bytes) (start len : Z) (limited : bool) (calls : list swCall) : option (bool * list swCall * option ioError) :=
  match sw with
  | epollH1Writer w | epollH2Writer w =>
      match sendFileRange w file start len limited with
      | (sent, fileReturned handled e) => Some (handled, calls ++ [swSendfile sent], e)
      | (_, fileWaits) => None
      end
  | genericWriter => Some (false, calls, None)
  | plainH1Writer w =>
      if negb (pw_headersSent w) || pw_chunked w || pw_suppressBody w then Some (false, calls, None)
      else tryWriteFileNative w file start len limited calls
  end.

Definition streamFileRange (sw : contentWriter) (file : bytes) (start len : Z) (limited : bool) (w : nat) (calls : list swCall) : option (list swCall * option ioError) :=
  match trySendFileFastPath sw file start len limited calls with
  | None => None
  | Some (true, calls, Some e) => Some (calls, Some e)
  | Some (true, calls, None) => Some (calls ++ [swClose], writeFault env w)
  | Some (false, calls, _) => streamFileLoop (S (Z.to_nat len)) file start (start + len) limited 0 w calls
  end.

(** ** Options *)

Record sendFileConfig := mkSendFileConfig { cfg_attachment : bytes; cfg_rateLimit : Z; cfg_burstSize : Z; cfg_contentType : bytes }.
Definition WithAttachment (filename : bytes) (c : sendFileConfig) : sendFileConfig := mkSendFileConfig filename (cfg_rateLimit c) (cfg_burstSize c) (cfg_contentType c).
Definition WithRateLimit (mbps : Z) (c : sendFileConfig) : sendFileConfig :=
  let bytesPerSec := mbpsToBytesPerSec (Z.max mbps 1) in
  mkSendFileConfig (cfg_attachment c) bytesPerSec (if cfg_burstSize c =? 0 then bytesPerSec else cfg_burstSize c) (cfg_contentType c).
Definition WithRateLimitBurst (mbps burstMbps : Z) (c : sendFileConfig) : sendFileConfig :=
  mkSendFileConfig (cfg_attachment c) (mbpsToBytesPerSec (Z.max mbps 1)) (mbpsToBytesPerSec (Z.max burstMbps 1)) (cfg_contentType c).
Definition WithContentType (ct : bytes) (c : sendFileConfig) : sendFileConfig := mkSendFileConfig (cfg_attachment c) (cfg_rateLimit c) (cfg_burstSize c) ct.

(** The rate and the burst of the bucket, if there is one. *)
Definition cfg_limiter (cfg : option sendFileConfig) : option (Z * Z) :=
  match cfg with
  | None => None
  | Some c =>
      if cfg_rateLimit c <=? 0 then None
      else Some (cfg_rateLimit c, if cfg_burstSize c <=? 0 then cfg_rateLimit c else cfg_burstSize c)
  end.

Definition sanitizeFilename (name : bytes) : bytes :=
  List.filter (fun c => negb ((c =? 34) || (c =? 92) || (c =? 13) || (c =? 10) || (c <? 0x20))) name.

(** ** A file as a response *)

(** The response object, the calls of its stream writer (if it was given one),
    and the error. *)
Record served := mkServed { sv_resp : Response; sv_streamed : bool; sv_calls : list swCall; sv_err : option ioError }.

Definition sendFileBufferedMax : Z := Z.shiftl 64 20.

(** [io.ReadFull] of a section of the file: one read, which is whole or ends
    with an error. *)
Definition readSection (file : bytes) (start len : Z) : bytes * option ioError :=
  if len <=? 0 then ([], None)
  else let (body, err) := readAt file 0 start len in
       if len <=? zlen body then (body, None)
       else if (0 <? zlen body) && bool_decide (err = Some EOF) then (body, Some ErrUnexpectedEOF)
       else (body, err).
Definition setHeaders (r : Response) (hdrs : list field) : Response :=
  fold_left (fun r h => if bytes_eqb h.1 (str "content-length") then r else SetHeader r h.1 h.2) hdrs r.
Definition set_ContentType (r : Response) (ct : bytes) : Response :=
  mkResponse (StatusCode r) (r_Headers r) (r_body r) (bodyString r) (bodyIsText r) ct (r_method r) (r_tails r).
Definition sendFileBuffered (r : Response) (file : bytes) (start len status : Z) (contentType : bytes) (hdrs : list field) : served :=
  if sendFileBufferedMax <? len then mkServed (resp_String (Status r 500) (str "no stream writer available")) false [] (Some ErrStreamClosed)
  else
    let (body, err) := readSection file start len in
    match err with
    | Some e => mkServed (resp_String (Status r 500) (str "read error")) false [] (Some e)
    | None => mkServed (set_ContentType (resp_Bytes (Status (setHeaders r hdrs) status) body) contentType) false [] None
    end.

Definition contentHeaders (v : contentValidators) (contentRange : bytes) (cfg : option sendFileConfig) (len : Z) : list field :=
  [(str "accept-ranges", byteRangeUnit); (str "etag", v_etag v); (str "last-modified", v_lastModified v)] ++
  (if bytes_eqb contentRange [] then [] else [(str "content-range", contentRange)]) ++
  match cfg with
  | Some c => if bytes_eqb (cfg_attachment c) [] then [] else [(str "content-disposition", str "attachment; filename=" ++ [34] ++ sanitizeFilename (cfg_attachment c) ++ [34])]
  | None => []
  end ++ [(str "content-length", appendUint [] len)].

(** From the choice of the range on; [sw] is [None] if [ensureSW] has none. *)
Definition serveRange (r : Response) (sw : option contentWriter) (file : bytes) (v : contentValidators) (contentType : bytes) (cfg : option sendFileConfig)
    (method : bytes) (status start len : Z) (contentRange : bytes) : option served :=
  let hdrs := contentHeaders v contentRange cfg len in
  match sw with
  | None => Some (sendFileBuffered r file start len status contentType hdrs)
  | Some sw =>
      let calls := [swWriteHeader status hdrs contentType] in
      match writeFault env 0 with
      | Some e => Some (mkServed r false calls (Some e))
      | None =>
          if bytes_eqb method (str "HEAD") then Some (mkServed r true (calls ++ [swClose]) (writeFault env 1))
          else match streamFileRange sw file start len (bool_decide (is_Some (cfg_limiter cfg))) 1 calls with
               | Some (calls, e) => Some (mkServed r true calls e)
               | None => None
               end
      end
  end.

Definition serveContent (last : httpDateEntry) (r : Response) (req : option h1Request) (sw : option contentWriter) (file : bytes) (fi : fileInfo) (contentType : bytes) (cfg : option sendFileConfig) : option served * httpDateEntry :=
  let (v, last) := fileValidators last fi in
  let size := fi_Size fi in
  (match req with
   | None => serveRange r sw file v contentType cfg [] 200 0 size []
   | Some req =>
       let method := q_Method req in
       match evaluatePreconditions req v with
       | preconditionNotModified =>
           Some (mkServed (Status (SetHeader (SetHeader r (str "ETag") (v_etag v)) (str "Last-Modified") (v_lastModified v)) 304) false [] None)
       | preconditionFailed => Some (mkServed (resp_String (Status r 412) (str "Precondition Failed")) false [] None)
       | preconditionPass =>
           let spec := reqHeader req (str "Range") in
           if negb (bytes_eqb spec []) && bytes_eqb method (str "GET") && ifRangeAllows req v then
             match parseByteRange spec size with
             | (_, _, rangeUnsatisfiable) =>
                 Some (mkServed (resp_String (Status (SetHeader r (str "Content-Range") (appendUint unsatisfiablePrefix size)) 416) (str "Range Not Satisfiable")) false [] None)
             | (start, len, rangeSatisfiable) => serveRange r sw file v contentType cfg method 206 start len (formatContentRange start len size)
             | (_, _, rangeIgnored) => serveRange r sw file v contentType cfg method 200 0 size []
             end
           else serveRange r sw file v contentType cfg method 200 0 size []
       end
   end, last).

End Content.
