(* ===== verification/ServeContentProofs.v ===== *)
(** Proofs about files as responses: what a Range header means, what a client
    receives of a file, and the conditions of a request against entity tags. *)
From stdpp Require Import base list numbers strings.
From Stdlib Require Import ZArith Lia ZifyBool.
From S2P Require Import Prelude Utils HttpText HpackDyn H1Scan H1Head H1HeadProofs H1Resp RateLimit ServeContent.

Open Scope list_scope.
Open Scope Z_scope.

(** ** Spaces around a value *)

Definition spaces (s : bytes) : Prop := Forall (fun c => isASCIISpace c = true) s.
(** A text that neither begins nor ends with a space. *)
Definition trimmed (t : bytes) : Prop := dropASCIISpace t = t /\ dropASCIISpace (rev t) = rev t.

Lemma drop_spaces a s : spaces a -> dropASCIISpace (a ++ s) = dropASCIISpace s.
Proof. induction 1 as [| c a Hc _ IH]; [done |]. cbn [app dropASCIISpace]. by rewrite Hc. Qed.

Lemma drop_split s : exists a, spaces a /\ s = a ++ dropASCIISpace s.
Proof.
  induction s as [| c s (a & Ha & E)]; [exists []; by split; [constructor |] |]. cbn [dropASCIISpace]. destruct (isASCIISpace c) eqn:Ec; [| exists []; by split; [constructor |]].
  exists (c :: a). split; [by constructor |]. cbn [app]. by f_equal.
Qed.

Lemma drop_fixed s : dropASCIISpace (dropASCIISpace s) = dropASCIISpace s.
Proof. induction s as [| c s IH]; [done |]. cbn [dropASCIISpace]. destruct (isASCIISpace c) eqn:E; [done |]. cbn [dropASCIISpace]. by rewrite E. Qed.

Lemma spaces_rev a : spaces a -> spaces (rev a).
Proof. apply Forall_rev. Qed.

Lemma trim_text a t b : spaces a -> spaces b -> trimmed t -> trimASCIISpace (a ++ t ++ b) = t.
Proof.
  intros Ha Hb [H1 H2]. unfold trimASCIISpace. rewrite drop_spaces by done. destruct t as [| c t].
  - cbn [app]. assert (E : forall b, spaces b -> dropASCIISpace b = []) by (intros x Hx; rewrite <- (app_nil_r x), drop_spaces by done; done).
    by rewrite (E b Hb).
  - assert (E : dropASCIISpace ((c :: t) ++ b) = (c :: t) ++ b).
    { cbn [app dropASCIISpace] in *. destruct (isASCIISpace c); [| done]. exfalso.
      destruct (drop_split t) as (p & _ & Hp). assert (L : length t = (length p + length (dropASCIISpace t))%nat) by (rewrite Hp at 1; by rewrite length_app).
      rewrite H1 in L. cbn [length] in L. lia. }
    rewrite E, rev_app_distr, drop_spaces by by apply spaces_rev. by rewrite H2, rev_involutive.
Qed.

Lemma trim_split s : exists a b, spaces a /\ spaces b /\ s = a ++ trimASCIISpace s ++ b.
Proof.
  destruct (drop_split s) as (a & Ha & Ea). destruct (drop_split (rev (dropASCIISpace s))) as (b & Hb & Eb).
  exists a, (rev b). split_and!; [done | by apply spaces_rev |]. rewrite Ea at 1. f_equal. unfold trimASCIISpace.
  rewrite <- rev_app_distr, <- Eb. by rewrite rev_involutive.
Qed.

(** ** Decimal numbers of a range *)

Definition digits (s : bytes) (v : Z) : Prop := spells is_digit digit_of 10 s v /\ 1 <= zlen s <= maxRangeIntDigits.

Lemma horner_digits_bound s n : forallb is_digit s = true -> 0 <= n -> 0 <= horner 10 digit_of s n < (n + 1) * 10 ^ zlen s.
Proof.
  revert n. induction s as [| c s IH]; intros n Hs Hn; [change (zlen (@nil Z)) with 0; cbn; lia |]. cbn [forallb] in Hs. apply andb_true_iff in Hs as [Hc Hs].
  change (horner 10 digit_of (c :: s) n) with (horner 10 digit_of s (n * 10 + digit_of c)). unfold is_digit in Hc. unfold digit_of in *.
  specialize (IH (n * 10 + (c - 48)) Hs ltac:(lia)). rewrite zlen_cons, Z.pow_add_r by (lia || apply zlen_nonneg). change (10 ^ 1) with 10.
  pose proof (Z.pow_pos_nonneg 10 (zlen s) ltac:(lia) (zlen_nonneg s)). split; [lia |]. nia.
Qed.

Lemma parseRangeLoop_spec s n k : 0 <= n < 10 ^ k -> 0 <= k -> k + zlen s <= 18 ->
  parseRangeLoop s n = if forallb is_digit s then Some (horner 10 digit_of s n) else None.
Proof.
  revert n k. induction s as [| c s IH]; intros n k Hn Hk Hl; [done |]. cbn [parseRangeLoop forallb]. rewrite zlen_cons in Hl.
  unfold is_digit at 1. replace ((c <? 48) || (57 <? c)) with (negb ((48 <=? c) && (c <=? 57))) by lia.
  destruct ((48 <=? c) && (c <=? 57)) eqn:E; cbn [negb andb]; [| done]. pose proof (zlen_nonneg s).
  assert (10 ^ (k + 1) <= 10 ^ 18) by (apply Z.pow_le_mono_r; lia). rewrite Z.pow_add_r in * by lia. change (10 ^ 1) with 10 in *. change (10 ^ 18) with 1000000000000000000 in *.
  rewrite i64_small by lia. rewrite (IH _ (k + 1)); [done | rewrite Z.pow_add_r by lia; change (10 ^ 1) with 10; lia | lia | lia].
Qed.

Lemma parseRangeInt_spec s v : parseRangeInt s = Some v <-> digits s v.
Proof.
  unfold parseRangeInt, digits, spells, maxRangeIntDigits. pose proof (zlen_nonneg s).
  destruct (bytes_eqb s []) eqn:E. { apply bytes_eqb_spec in E as ->. change (zlen (@nil Z)) with 0. cbn. split; [done |]. intros [_ H']. lia. }
  assert (0 < zlen s) by (destruct s; [done | rewrite zlen_cons; pose proof (zlen_nonneg s); lia]). cbn [orb].
  destruct (18 <? zlen s) eqn:E2; [split; [done | lia] |].
  rewrite (parseRangeLoop_spec s 0 0) by lia. destruct (forallb is_digit s).
  - split; [intros [= <-]; split_and!; (done || lia) | by intros [[_ ->] _]].
  - by split; [| intros [[? _] _]].
Qed.

Lemma parseRangeInt_none s : parseRangeInt s = None -> forall v, ~ digits s v.
Proof. intros H v Hv. apply parseRangeInt_spec in Hv. congruence. Qed.

Lemma digits_range s v : digits s v -> 0 <= v < 10 ^ 18.
Proof.
  intros [[H1 <-] H2]. pose proof (horner_digits_bound s 0 H1 ltac:(lia)) as H. split; [lia |]. assert (10 ^ zlen s <= 10 ^ 18) by (apply Z.pow_le_mono_r; unfold maxRangeIntDigits in H2; lia). lia.
Qed.

Lemma digits_no s v c : digits s v -> is_digit c = false -> c ∉ s.
Proof. intros [[H _] _] Hc Hin. rewrite forallb_forall in H. apply list_elem_of_In in Hin. rewrite H in Hc by done. done. Qed.

(** ** What a Range header means *)

Inductive rangeSpec := fromTo (first last : Z) | fromOn (first : Z) | lastBytes (n : Z).

Inductive range_text : bytes -> rangeSpec -> Prop :=
  | text_fromTo a b x y : digits a x -> digits b y -> range_text (a ++ 45 :: b) (fromTo x y)
  | text_fromOn a x : digits a x -> range_text (a ++ [45]) (fromOn x)
  | text_lastBytes b y : digits b y -> range_text (45 :: b) (lastBytes y).

(** "bytes=", in any case, and one range with spaces around it. *)
Definition range_header (header : bytes) (spec : rangeSpec) : Prop :=
  exists unit a text b, header = unit ++ 61 :: a ++ text ++ b /\ map asciiLower unit = str "bytes" /\ spaces a /\ spaces b /\ range_text text spec.

Definition range_meaning (spec : rangeSpec) (size : Z) : Z * Z * rangeOutcome :=
  match spec with
  | fromTo first last =>
      if last <? first then (0, 0, rangeIgnored)
      else if size <=? first then (0, 0, rangeUnsatisfiable)
      else (first, Z.min (last + 1) size - first, rangeSatisfiable)
  | fromOn first => if size <=? first then (0, 0, rangeUnsatisfiable) else (first, size - first, rangeSatisfiable)
  | lastBytes n => if Z.min n size =? 0 then (0, 0, rangeUnsatisfiable) else (size - Z.min n size, Z.min n size, rangeSatisfiable)
  end.

Lemma digit_not_space c : is_digit c = true -> isASCIISpace c = false.
Proof. unfold is_digit, isASCIISpace. lia. Qed.

Lemma solid_head c s : isASCIISpace c = false -> dropASCIISpace (c :: s) = c :: s.
Proof. intros H. cbn [dropASCIISpace]. by rewrite H. Qed.

Lemma digits_cons s v : digits s v -> exists c s', s = c :: s' /\ is_digit c = true.
Proof. intros [[H _] Hl]. destruct s as [| c s]; [change (zlen (@nil Z)) with 0 in Hl; lia |]. cbn [forallb] in H. apply andb_true_iff in H as [H _]. by exists c, s. Qed.

Lemma digits_snoc s v : digits s v -> exists c s', s = s' ++ [c] /\ is_digit c = true.
Proof.
  intros [[H _] Hl]. destruct s as [| c s] using rev_ind; [change (zlen (@nil Z)) with 0 in Hl; lia |]. rewrite forallb_app in H. apply andb_true_iff in H as [_ H]. cbn [forallb] in H. apply andb_true_iff in H as [H _]. by exists c, s.
Qed.

Lemma range_text_trimmed text spec : range_text text spec -> trimmed text.
Proof.
  assert (D : isASCIISpace 45 = false) by done. intros H. split; destruct H as [a b x y Ha Hb | a x Ha | b y Hb].
  all: try (destruct (digits_cons _ _ Ha) as (c & s & -> & Hc); cbn [app]; by apply solid_head, digit_not_space).
  - by apply solid_head.
  - destruct (digits_snoc _ _ Hb) as (c & s & -> & Hc). rewrite app_comm_cons, app_assoc, rev_app_distr. cbn [rev app]. by apply solid_head, digit_not_space.
  - rewrite rev_app_distr. by apply solid_head.
  - destruct (digits_snoc _ _ Hb) as (c & s & -> & Hc). rewrite app_comm_cons, rev_app_distr. cbn [rev app]. by apply solid_head, digit_not_space.
Qed.

Lemma bytes_eqb_nil_cons c s : bytes_eqb (c :: s) [] = false.
Proof. unfold bytes_eqb. by rewrite bool_decide_eq_false_2. Qed.

Lemma bytes_eqb_refl s : bytes_eqb s s = true.
Proof. by apply bytes_eqb_spec. Qed.

Lemma unit_no_eq unit : map asciiLower unit = str "bytes" -> 61 ∉ unit.
Proof.
  intros H Hin. assert (61 ∈ map asciiLower unit) as H2 by (apply list_elem_of_fmap; by exists 61). rewrite H in H2. apply list_elem_of_In in H2. vm_compute in H2. lia.
Qed.

Lemma range_text_no_comma text spec : range_text text spec -> 44 ∉ text.
Proof.
  intros [a b x y Ha Hb | a x Ha | b y Hb]; rewrite ?not_elem_of_app, ?not_elem_of_cons; split_and?; try done; try (by eapply digits_no); apply not_elem_of_nil.
Qed.

Ltac digits_text D := let c := fresh "c" in let s := fresh "s" in let E := fresh "E" in destruct (digits_cons _ _ D) as (c & s & E & _).

Lemma read_range text spec size : range_text text spec -> 0 <= size -> forall a b unit, map asciiLower unit = str "bytes" -> spaces a -> spaces b ->
  parseByteRange (unit ++ 61 :: a ++ text ++ b) size = range_meaning spec size.
Proof.
  intros Ht Hs a b unit Hu Ha Hb. unfold parseByteRange. pose proof (zlen_nonneg unit).
  rewrite index_first by by apply unit_no_eq. rewrite ztake_app_exact, zdrop_cons. replace (zlen unit <? 0) with false by lia.
  rewrite EqualFoldASCII_spec, Hu. change (map asciiLower byteRangeUnit) with (str "bytes"). rewrite bytes_eqb_refl. cbn [negb orb].
  rewrite (trim_text a text b) by (done || by eapply range_text_trimmed). rewrite (index_absent text 44) by by eapply range_text_no_comma.
  change (0 <=? -1) with false. rewrite orb_false_r.
  destruct Ht as [d e x y Hd He | d x Hd | e y He].
  - digits_text Hd. rewrite E at 1. cbn [app]. rewrite bytes_eqb_nil_cons. cbv zeta. rewrite index_first by by eapply digits_no. pose proof (zlen_nonneg d). replace (zlen d <? 0) with false by lia.
    rewrite ztake_app_exact, zdrop_cons. rewrite E at 1. rewrite bytes_eqb_nil_cons. rewrite (proj2 (parseRangeInt_spec d x)) by done.
    digits_text He. rewrite E0 at 1. rewrite bytes_eqb_nil_cons, (proj2 (parseRangeInt_spec e y)) by done. pose proof (digits_range _ _ Hd). cbn [range_meaning].
    destruct (y <? x) eqn:E1; [done |]. destruct (size <=? x) eqn:E2; [done |]. destruct (y <? size - 1) eqn:E3; repeat f_equal; lia.
  - digits_text Hd. rewrite E at 1. cbn [app]. rewrite bytes_eqb_nil_cons. cbv zeta. rewrite index_first by by eapply digits_no. pose proof (zlen_nonneg d). replace (zlen d <? 0) with false by lia.
    rewrite ztake_app_exact, zdrop_cons. rewrite E at 1. rewrite bytes_eqb_nil_cons. rewrite (proj2 (parseRangeInt_spec d x)), bytes_eqb_refl by done. cbn [range_meaning].
    destruct (size <=? x) eqn:E2; [done |]. repeat f_equal; lia.
  - rewrite bytes_eqb_nil_cons. cbv zeta. change (45 :: e) with ([] ++ 45 :: e). rewrite index_first by apply not_elem_of_nil. change (zlen (@nil Z) <? 0) with false.
    rewrite ztake_app_exact, zdrop_cons, bytes_eqb_refl, (proj2 (parseRangeInt_spec e y)) by done. pose proof (digits_range _ _ He). cbn [range_meaning].
    replace (Z.min y size =? 0) with ((y =? 0) || (size =? 0)) by lia. destruct ((y =? 0) || (size =? 0)); [done |]. destruct (size <? y) eqn:E1; repeat f_equal; lia.
Qed.

Lemma unread_range header size : (forall spec, ~ range_header header spec) -> parseByteRange header size = (0, 0, rangeIgnored).
Proof.
  intros H. unfold parseByteRange. destruct (IndexByte header 61 <? 0) eqn:E; [done |]. destruct (index_split header 61 ltac:(lia)) as (unit & rest & -> & _ & ->).
  rewrite ztake_app_exact, zdrop_cons, EqualFoldASCII_spec. change (map asciiLower byteRangeUnit) with (str "bytes").
  destruct (bytes_eqb (map asciiLower unit) (str "bytes")) eqn:Eu; [| done]. apply bytes_eqb_spec in Eu. cbn [negb orb].
  destruct (trim_split rest) as (a & b & Ha & Hb & Er). set (text := trimASCIISpace rest) in *. cbv zeta.
  assert (H' : forall spec, ~ range_text text spec) by (intros spec Ht; apply (H spec); exists unit, a, text, b; by rewrite <- Er).
  destruct (bytes_eqb text []); [done |]. cbn [orb]. destruct (0 <=? IndexByte text 44); [done |].
  destruct (IndexByte text 45 <? 0) eqn:Ed; [done |]. destruct (index_split text 45 ltac:(lia)) as (d & e & Et & _ & ->).
  rewrite Et in H' |- *. clear Et Er Ed. rewrite ztake_app_exact, zdrop_cons.
  destruct (bytes_eqb d []) eqn:E1.
  - apply bytes_eqb_spec in E1 as ->. destruct (parseRangeInt e) as [y |] eqn:Ey; [| done]. apply parseRangeInt_spec in Ey. destruct (H' (lastBytes y)). by constructor.
  - destruct (parseRangeInt d) as [x |] eqn:Ex; [| done]. apply parseRangeInt_spec in Ex. destruct (bytes_eqb e []) eqn:E2.
    { apply bytes_eqb_spec in E2 as ->. destruct (H' (fromOn x)). by constructor. }
    destruct (parseRangeInt e) as [y |] eqn:Ey; [| done]. apply parseRangeInt_spec in Ey. destruct (H' (fromTo x y)). by constructor.
Qed.

(** What the code reads is what the header means; anything else is ignored. *)
Definition range_request (header : bytes) (size : Z) (o : Z * Z * rangeOutcome) : Prop :=
  (exists spec, range_header header spec /\ o = range_meaning spec size) \/ ((forall spec, ~ range_header header spec) /\ o = (0, 0, rangeIgnored)).

Lemma parse_range_request header size o : 0 <= size -> range_request header size o -> parseByteRange header size = o.
Proof. intros Hs [(spec & (unit & a & text & b & -> & Hu & Ha & Hb & Ht) & ->) | [H ->]]; [by apply read_range | by apply unread_range]. Qed.

Lemma range_meaning_bounds spec header size start len : range_header header spec -> 0 <= size -> range_meaning spec size = (start, len, rangeSatisfiable) ->
  0 <= start /\ 1 <= len /\ start + len <= size.
Proof.
  intros (unit & a & text & b & _ & _ & _ & _ & Ht) Hs. destruct Ht as [d e x y Hd He | d x Hd | e y He]; cbn [range_meaning].
  - pose proof (digits_range _ _ Hd). destruct (y <? x) eqn:E1; [done |]. destruct (size <=? x) eqn:E2; [done |]. intros [= <- <-]. lia.
  - pose proof (digits_range _ _ Hd). destruct (size <=? x) eqn:E2; [done |]. intros [= <- <-]. lia.
  - pose proof (digits_range _ _ He). destruct (Z.min y size =? 0) eqn:E1; [done |]. intros [= <- <-]. lia.
Qed.

Lemma range_request_bounds header size start len : 0 <= size -> range_request header size (start, len, rangeSatisfiable) -> 0 <= start /\ 1 <= len /\ start + len <= size.
Proof. intros Hs [(spec & Hh & E) | [_ E]]; [by eapply range_meaning_bounds | done]. Qed.

(** ** The bytes of a range *)

Definition callBytes (c : swCall) : bytes := match c with swWriteChunk b => b | swSendfile b => b | _ => [] end.
Definition sentBody (calls : list swCall) : bytes := concat (map callBytes calls).

Lemma sentBody_app a b : sentBody (a ++ b) = sentBody a ++ sentBody b.
Proof. unfold sentBody. by rewrite map_app, concat_app. Qed.

(** Calls after [before] that hand over bytes from [start] to [stop]: all of them
    and closed, or failed. *)
Definition streamed (file : bytes) (start stop : Z) (before calls : list swCall) (err : option ioError) : Prop :=
  exists new rest, calls = before ++ new /\ zslice file start stop = sentBody new ++ rest /\
    (err = None -> rest = [] /\ zlen (sentBody new) = stop - start /\ exists front, new = front ++ [swClose]).

Lemma slice_step {A} (file : list A) pos stop n : 0 <= pos -> 0 <= n <= stop - pos ->
  zslice file pos stop = ztake n (zdrop pos file) ++ zslice file (pos + zlen (ztake n (zdrop pos file))) stop.
Proof.
  intros Hp Hn. unfold zslice. set (d := zdrop pos file). assert (Hd : forall m, 0 <= m -> zdrop (pos + m) file = zdrop m d) by (intros m Hm; unfold d; by rewrite zdrop_zdrop).
  pose proof (zlen_nonneg (ztake n d)). rewrite Hd by lia. clearbody d. clear Hd. unfold ztake, zdrop, zlen.
  rewrite length_take. destruct (decide (Z.to_nat n <= length d)%nat).
  - replace (Z.to_nat (Z.of_nat (Z.to_nat n `min` length d))) with (Z.to_nat n) by lia. rewrite take_drop_commute.
    match goal with |- context [take ?k d] => lazymatch k with (_ + _)%nat => replace k with (Z.to_nat (stop - pos)) by lia end end.
    rewrite <- (take_drop (Z.to_nat n) (take (Z.to_nat (stop - pos)) d)) at 1. rewrite take_take, Nat.min_l by lia. done.
  - rewrite !take_ge by lia. rewrite drop_ge by lia. by rewrite take_nil, app_nil_r.
Qed.

Lemma streamed_more file pos stop n pre before calls err : 0 <= pos -> 0 <= n <= stop - pos -> sentBody pre = ztake n (zdrop pos file) ->
  streamed file (pos + zlen (ztake n (zdrop pos file))) stop (before ++ pre) calls err -> streamed file pos stop before calls err.
Proof.
  intros Hp Hn Hpre (new & rest & -> & Er & Hd). exists (pre ++ new), rest. rewrite (slice_step file pos stop n), sentBody_app, Hpre by done. set (b := ztake n (zdrop pos file)) in *.
  split_and!; [by rewrite app_assoc | by rewrite Er, app_assoc |]. intros He. destruct (Hd He) as (E1 & E2 & (front & ->)). split_and!; [done | rewrite zlen_app; lia | exists (pre ++ front); by rewrite app_assoc].
Qed.

Lemma streamed_prefix file pos stop j n pre before e : 0 <= pos -> 0 <= n <= stop - pos -> sentBody pre = ztake j (ztake n (zdrop pos file)) -> streamed file pos stop before (before ++ pre) (Some e).
Proof.
  intros Hp Hn E. eexists pre, _. split_and!; [done | | done]. rewrite (slice_step file pos stop n), E by done.
  rewrite <- (ztake_zdrop j (ztake n (zdrop pos file))) at 1. by rewrite <- app_assoc.
Qed.

Lemma streamed_none file pos stop before e : 0 <= pos <= stop -> streamed file pos stop before before (Some e).
Proof. intros H. rewrite <- (app_nil_r before) at 2. apply (streamed_prefix file pos stop 0 0); (done || lia). Qed.

Lemma streamed_end file pos stop before err : 0 <= pos -> pos = stop -> streamed file pos stop before (before ++ [swClose]) err.
Proof.
  intros Hp ->. exists [swClose], []. assert (Z0 : zslice file stop stop = []) by (unfold zslice, ztake; by replace (Z.to_nat (stop - stop)) with 0%nat by lia).
  rewrite Z0. split_and!; [done | done |]. intros _. split_and!; [done | change (zlen (sentBody [swClose])) with 0; lia | by exists []].
Qed.

Section Streams.
Context (env : contentEnv).

Lemma readAt_spec file k pos n chunk err : readAt env file k pos n = (chunk, err) ->
  exists j, chunk = ztake j (ztake n (zdrop pos file)) /\ (err = None -> zlen chunk = n \/ n <= 0).
Proof.
  unfold readAt. destruct (readFault env k) as [[j e] |]; intros [= <- <-]; [by exists j |]. exists n. unfold ztake at 2 3. rewrite take_take, Nat.min_id.
  split; [done |]. destruct (zlen (ztake n (zdrop pos file)) <? n) eqn:E; [done |]. intros _.
  destruct (Z.le_gt_cases n 0); [by right | left]. assert (zlen (ztake n (zdrop pos file)) <= n); [| lia]. unfold zlen, ztake. rewrite length_take. lia.
Qed.

Lemma ztake_whole {A} j n (l : list A) : 0 <= n -> zlen (ztake j (ztake n l)) = n -> ztake j (ztake n l) = ztake n l.
Proof. unfold ztake, zlen. rewrite take_take, length_take. intros Hn H. destruct (decide (Z.to_nat j < Z.to_nat n)%nat); [rewrite Nat.min_l in * by lia; rewrite !take_ge by lia; done | by rewrite Nat.min_r by lia]. Qed.

Lemma zlen_take_le {A} j n (l : list A) : 0 <= n -> zlen (ztake j (ztake n l)) <= n.
Proof. unfold ztake, zlen. rewrite take_take, length_take. lia. Qed.

Definition chunkCalls (limited : bool) (chunk : bytes) : list swCall := (if limited then [swWait (zlen chunk)] else []) ++ [swWriteChunk chunk].
Lemma sent_chunk limited chunk : sentBody (chunkCalls limited chunk) = chunk.
Proof. unfold chunkCalls, sentBody. destruct limited; cbn [map callBytes concat app]; by rewrite ?app_nil_r. Qed.

(** The loop over the file ends, however the reads and writes go. *)
Lemma stream_loop fuel file pos stop limited k w calls : 0 <= pos <= stop -> stop - pos < Z.of_nat fuel ->
  exists calls' err, streamFileLoop env fuel file pos stop limited k w calls = Some (calls', err) /\ streamed file pos stop calls calls' err.
Proof.
  revert pos k w calls. induction fuel as [| fuel IH]; intros pos k w calls Hp Hf; [lia |]. cbn [streamFileLoop].
  destruct (pos <? stop) eqn:E; [| do 2 eexists; split; [done |]; apply streamed_end; lia].
  set (n := Z.min (stop - pos) fileReadBufSize). assert (Hn : 1 <= n <= stop - pos) by (unfold n, fileReadBufSize; lia). clearbody n.
  destruct (readAt env file k pos n) as [chunk err] eqn:Er. destruct (readAt_spec _ _ _ _ _ _ Er) as (j & Hc & He). pose proof (zlen_take_le j n (zdrop pos file) ltac:(lia)) as Hle. rewrite <- Hc in Hle.
  assert (Hend : zlen chunk = n -> chunk = ztake n (zdrop pos file)) by (intros H; rewrite Hc in *; apply ztake_whole; [lia | done]).
  destruct (0 <? zlen chunk) eqn:Ec.
  2: { pose proof (zlen_nonneg chunk). destruct err as [e |]; [| specialize (He eq_refl); lia]. replace (stop <=? pos) with false by lia. rewrite andb_false_r.
       destruct (bool_decide (e = EOF)); do 2 eexists; (split; [done |]); by apply streamed_none. }
  fold (chunkCalls limited chunk). pose proof (sent_chunk limited chunk) as Hs. set (pre := chunkCalls limited chunk) in *. clearbody pre.
  assert (Hf1 : forall e, streamed file pos stop calls (calls ++ pre) (Some e)) by (intros e; apply (streamed_prefix file pos stop j n); [lia | lia | by rewrite <- Hc]).
  destruct (writeFault env w) as [e |]; [eauto |]. destruct err as [e |].
  - destruct (bool_decide (e = EOF)); cbn [andb]; [| eauto]. destruct (stop <=? pos + zlen chunk) eqn:E2; [| eauto].
    do 2 eexists. split; [done |]. assert (chunk = ztake n (zdrop pos file)) as Hw by (apply Hend; lia). apply (streamed_more file pos stop n pre); [lia | lia | congruence |]. rewrite <- Hw. apply streamed_end; lia.
  - assert (zlen chunk = n) as Hz by (specialize (He eq_refl); lia). destruct (IH (pos + zlen chunk) (S k) (S w) (calls ++ pre) ltac:(lia) ltac:(lia)) as (c & e & Hr & Hst).
    do 2 eexists. split; [done |]. apply (streamed_more file pos stop n pre); [lia | lia | rewrite <- Hend; done |]. by rewrite <- Hend.
Qed.

(** The loop over sendfile(2), with the close that follows it. *)
Lemma sendfile_loop file answers pos remaining limited calls calls' err close : 0 <= pos -> 0 <= remaining ->
  sendFileFD file answers pos remaining limited calls = Some (calls', err) ->
  match err with Some e => streamed file pos (pos + remaining) calls calls' (Some e) | None => streamed file pos (pos + remaining) calls (calls' ++ [swClose]) close end.
Proof.
  revert pos remaining calls. induction answers as [| a answers IH]; intros pos remaining calls Hp Hr; cbn [sendFileFD].
  all: destruct (0 <? remaining) eqn:E; [| intros [= <- <-]; apply streamed_end; lia].
  { done. }
  assert (Hf : forall e, streamed file pos (pos + remaining) calls calls (Some e)) by (intros e; apply streamed_none; lia).
  destruct a as [n | | [e |] | e]; [| by apply IH | by intros [= <- <-] | by apply IH | by intros [= <- <-]].
  set (m := Z.min (Z.pos n) _). assert (Hm : 1 <= m <= remaining) by (unfold m, nativeSendFileChunk; lia). clearbody m.
  destruct (0 <? zlen (ztake m (zdrop pos file))) eqn:Em; [| by intros [= <- <-]]. intros H.
  assert (zlen (ztake m (zdrop pos file)) <= m) by (unfold zlen, ztake; rewrite length_take; lia). apply IH in H; [| lia | lia].
  replace (pos + zlen (ztake m (zdrop pos file)) + (remaining - zlen (ztake m (zdrop pos file)))) with (pos + remaining) in H by lia.
  destruct err; (eapply (streamed_more file pos _ m); [lia | lia | | exact H]); destruct limited; unfold sentBody; cbn [map callBytes concat]; by rewrite ?app_nil_r.
Qed.

(** Writers of the event loop keep their contract. *)
Definition writer_ok (sw : contentWriter) : Prop := match sw with epollH1Writer w | epollH2Writer w => LoopWriterOk w | _ => True end.

Lemma loop_range w lw file start len limited calls calls' err : LoopWriterOk lw -> 0 <= start -> 0 <= len -> (forall calls0, calls0 = calls ++ [swSendfile []] -> streamFileLoop env (S (Z.to_nat len)) file start (start + len) limited 0 w calls0 = Some (calls', err) -> streamed file start (start + len) calls calls' err) ->
  match match sendFileRange lw file start len limited with (sent, fileReturned handled e) => Some (handled, calls ++ [swSendfile sent], e) | (_, fileWaits) => None end with
  | None => None
  | Some (true, calls, Some e) => Some (calls, Some e)
  | Some (true, calls, None) => Some (calls ++ [swClose], writeFault env w)
  | Some (false, calls, _) => streamFileLoop env (S (Z.to_nat len)) file start (start + len) limited 0 w calls
  end = Some (calls', err) -> streamed file start (start + len) calls calls' err.
Proof.
  intros Hw Hs Hl G. pose proof (Hw file start len limited Hs Hl) as H. destruct (sendFileRange lw file start len limited) as [sent [[] [e |] |]]; destruct H as [(rest & Hr) H]; [| | subst sent; by apply G ..| done].
  - intros [= <- <-]. exists [swSendfile sent], rest. unfold sentBody. cbn. by rewrite app_nil_r.
  - intros [= <- <-]. destruct H as [H1 H2]. exists [swSendfile sent; swClose], []. unfold sentBody. cbn. rewrite !app_nil_r, <- app_assoc. split_and!; [done | done |]. intros _. split_and!; [done | lia | by exists [swSendfile sent]].
Qed.

Lemma stream_range sw file start len limited w calls calls' err : writer_ok sw -> 0 <= start -> 0 <= len ->
  streamFileRange env sw file start len limited w calls = Some (calls', err) -> streamed file start (start + len) calls calls' err.
Proof.
  intros Hok Hs Hl. assert (G0 : forall calls0, streamFileLoop env (S (Z.to_nat len)) file start (start + len) limited 0 w calls0 = Some (calls', err) -> streamed file start (start + len) calls0 calls' err).
  { intros calls0. destruct (stream_loop (S (Z.to_nat len)) file start (start + len) limited 0 w calls0 ltac:(lia) ltac:(lia)) as (c & e & -> & H). by intros [= <- <-]. }
  pose proof (G0 calls) as G. assert (G1 : forall calls0, calls0 = calls ++ [swSendfile []] -> streamFileLoop env (S (Z.to_nat len)) file start (start + len) limited 0 w calls0 = Some (calls', err) -> streamed file start (start + len) calls calls' err).
  { intros calls0 -> H. apply G0 in H as (new & rest & -> & H1 & H2). exists (swSendfile [] :: new), rest. rewrite <- app_assoc. split_and!; [done | done |]. intros He. destruct (H2 He) as (-> & H3 & (front & ->)). split_and!; [done | done | by exists (swSendfile [] :: front)]. }
  unfold streamFileRange, trySendFileFastPath. destruct sw as [lw | lw | pw |]; [by apply loop_range | by apply loop_range | | done]. destruct (negb (pw_headersSent pw) || pw_chunked pw || pw_suppressBody pw); [done |].
  unfold tryWriteFileNative. destruct (len <=? 0) eqn:E0. { intros [= <- <-]. apply streamed_end; lia. }
  assert (Z0 : forall e, streamed file start (start + len) calls calls (Some e)) by (intros e; apply streamed_none; lia).
  destruct (pw_target pw); [by intros [= <- <-] | done |]. destruct (pw_fileOpen pw); cbn [negb]; [| by intros [= <- <-]].
  destruct (sendFileFD file (pw_answers pw) start len limited calls) as [[c e] |] eqn:Ef; [| done]. apply (sendfile_loop _ _ _ _ _ _ _ _ (writeFault env w)) in Ef; [| lia | lia].
  destruct e as [e |]; by intros [= <- <-].
Qed.

(** Whatever the writer does, what was called stays called. *)
Lemma stream_calls sw file start len limited w calls calls' err : 0 <= start -> 0 <= len ->
  streamFileRange env sw file start len limited w calls = Some (calls', err) -> exists new, calls' = calls ++ new.
Proof.
  intros Hs Hl H. assert (G : forall calls0, streamFileLoop env (S (Z.to_nat len)) file start (start + len) limited 0 w calls0 = Some (calls', err) -> exists new, calls' = calls0 ++ new).
  { intros calls0. destruct (stream_loop (S (Z.to_nat len)) file start (start + len) limited 0 w calls0 ltac:(lia) ltac:(lia)) as (c & e & -> & (new & rest & -> & _)). intros [= <- <-]. by exists new. }
  assert (L : forall lw, sw = epollH1Writer lw \/ sw = epollH2Writer lw -> exists new, calls' = calls ++ new).
  { intros lw Hsw. unfold streamFileRange, trySendFileFastPath in H. destruct Hsw as [-> | ->]; destruct (sendFileRange lw file start len limited) as [sent [[] [e |] |]]; try done.
    all: first [injection H as <- <-; rewrite <- ?app_assoc; by eexists | apply G in H as (new & ->); rewrite <- app_assoc; by eexists]. }
  destruct sw as [lw | lw | pw |]; [by apply (L lw); left | by apply (L lw); right | |]; apply stream_range in H as (new & rest & -> & _); try done; by exists new.
Qed.

Definition noFaults : Prop := (forall k, readFault env k = None) /\ (forall w, writeFault env w = None).

Lemma stream_loop_ok fuel file pos stop limited k w calls : noFaults -> 0 <= pos <= stop -> stop <= zlen file -> stop - pos < Z.of_nat fuel ->
  exists calls', streamFileLoop env fuel file pos stop limited k w calls = Some (calls', None).
Proof.
  intros [Nr Nw]. revert pos k w calls. induction fuel as [| fuel IH]; intros pos k w calls Hp Hz Hf; [lia |]. cbn [streamFileLoop].
  destruct (pos <? stop) eqn:E; [| rewrite Nw; eauto]. unfold readAt. rewrite Nr, Nw.
  set (n := Z.min (stop - pos) fileReadBufSize). assert (Hn : 1 <= n <= stop - pos) by (unfold n, fileReadBufSize; lia). clearbody n.
  rewrite zlen_take by (rewrite zlen_drop; lia). replace (n <? n) with false by lia. replace (0 <? n) with true by lia. apply IH; lia.
Qed.
End Streams.

Lemma readSection_whole env file start len body : 0 <= start -> 0 <= len -> readSection env file start len = (body, None) -> body = zslice file start (start + len) /\ zlen body = len.
Proof.
  intros Hs Hl. unfold readSection. destruct (len <=? 0) eqn:E0. { intros [= <-]. replace len with 0 by lia. unfold zslice, ztake. by rewrite Z.add_0_r, Z.sub_diag. }
  destruct (readAt env file 0 start len) as [b e] eqn:Er. destruct (readAt_spec _ _ _ _ _ _ _ Er) as (j & Hb & Hn).
  assert (Hle : zlen b <= len) by (rewrite Hb; apply zlen_take_le; lia). destruct (len <=? zlen b) eqn:Ez.
  - intros [= <-]. split; [| lia]. unfold zslice. replace (start + len - start) with len by lia. rewrite Hb in Hle, Ez |- *. apply ztake_whole; lia.
  - split_if; [done |]. intros [= <- ->]. specialize (Hn eq_refl). lia.
Qed.

(** ** What a client receives *)

Definition received (s : served) : Z * list field * bytes :=
  match sv_calls s with
  | swWriteHeader status headers _ :: calls => (status, headers, sentBody calls)
  | _ => (StatusCode (sv_resp s), r_Headers (sv_resp s), bodyBytesUnsafe (sv_resp s))
  end.

Lemma sanitize_same v : forallb notBreak v = true -> sanitizeHeaderValue v = v.
Proof.
  intros H. unfold sanitizeHeaderValue. split_if; [done |]. induction v as [| c v IH]; [done |]. cbn [forallb] in H. apply andb_true_iff in H as [H1 H2].
  cbn [List.filter]. rewrite H1. f_equal. clear - H2. induction v as [| c v IH]; [done |]. cbn [forallb] in H2. apply andb_true_iff in H2 as [H1 H2]. cbn [List.filter]. rewrite H1. f_equal. by apply IH.
Qed.

Lemma setHeaders_in hdrs r h : h ∈ hdrs -> bytes_eqb h.1 (str "content-length") = false -> (sanitizeHeaderValue h.1, sanitizeHeaderValue h.2) ∈ r_Headers (setHeaders r hdrs).
Proof.
  intros Hin Hn. revert r. assert (K : forall hdrs r x, x ∈ r_Headers r -> x ∈ r_Headers (setHeaders r hdrs)).
  { clear. induction hdrs as [| h hdrs IH]; intros r x Hx; [done |]. cbn [setHeaders fold_left]. apply IH. destruct (bytes_eqb h.1 (str "content-length")); [done |]. cbn [SetHeader r_Headers]. apply elem_of_app. by left. }
  induction Hin as [hdrs | h g hdrs Hin IH]; intros r; cbn [setHeaders fold_left]; [| by apply IH].
  rewrite Hn. apply K. cbn [SetHeader r_Headers]. apply elem_of_app. right. by apply list_elem_of_here.
Qed.

Section Received.
Context (env : contentEnv) (r : Response) (sw : option contentWriter) (file : bytes) (v : contentValidators) (contentType : bytes) (cfg : option sendFileConfig).

(** The headers of the response that say which bytes of which version it has. *)
Definition describes (headers : list field) (contentRange : bytes) : Prop :=
  (str "etag", v_etag v) ∈ headers /\ (contentRange <> [] -> (str "content-range", contentRange) ∈ headers).

Lemma contentHeaders_in contentRange len : describes (contentHeaders v contentRange cfg len) contentRange.
Proof.
  unfold contentHeaders. split.
  - apply elem_of_app. left. apply list_elem_of_further, list_elem_of_here.
  - intros H. apply elem_of_app. right. apply elem_of_app. left. destruct (bytes_eqb contentRange []) eqn:E; [by apply bytes_eqb_spec in E | by apply list_elem_of_here].
Qed.

Lemma serve_range method status start len contentRange s : match sw with Some w => writer_ok w | None => True end -> 0 <= start -> 0 <= len -> bytes_eqb method (str "HEAD") = false ->
  forallb notBreak (v_etag v) = true -> forallb notBreak contentRange = true ->
  serveRange env r sw file v contentType cfg method status start len contentRange = Some s ->
  (sv_calls s <> [] -> let '(st, headers, body) := received s in st = status /\ describes headers contentRange /\ exists rest, zslice file start (start + len) = body ++ rest) /\
  (sv_err s = None -> let '(st, headers, body) := received s in st = status /\ describes headers contentRange /\ body = zslice file start (start + len) /\ zlen body = len).
Proof.
  intros Hok Hs Hl Hm He Hr. unfold serveRange. pose proof (contentHeaders_in contentRange len) as Hd. set (hdrs := contentHeaders v contentRange cfg len) in *. destruct sw as [w |].
  - destruct (writeFault env 0) as [e |]. { intros [= <-]. cbn. split; [| done]. intros _. split_and!; [done | done | by exists (zslice file start (start + len))]. }
    rewrite Hm. destruct (streamFileRange env w file start len _ 1 _) as [[calls e] |] eqn:E; [| done]. intros [= <-].
    apply stream_range in E as (new & rest & -> & E2 & E3); [| done | done | done]. cbn [received sv_calls sv_err app].
    split; [intros _; split_and!; [done | done | by exists rest] |]. intros H. destruct (E3 H) as (-> & E4 & _). rewrite app_nil_r in E2. split_and!; [done | done | done | lia].
  - unfold sendFileBuffered. destruct (sendFileBufferedMax <? len); [intros [= <-]; by split |].
    assert (Hk : describes (r_Headers (setHeaders r hdrs)) contentRange).
    { destruct Hd as [D1 D2]. split; [| intros H; specialize (D2 H)].
      - apply (setHeaders_in _ r) in D1; [| by vm_compute]. cbn [fst snd] in D1. by rewrite (sanitize_same (v_etag v)) in D1.
      - apply (setHeaders_in _ r) in D2; [| by vm_compute]. cbn [fst snd] in D2. by rewrite (sanitize_same contentRange) in D2. }
    destruct (readSection env file start len) as [body [e |]] eqn:E; intros [= <-]; split; [done | done | done |]. intros _. cbn. destruct (readSection_whole env file start len body Hs Hl E). by split_and!.
Qed.
End Received.

(** ** Entity tags *)

Lemma appendHex_64 dst n : is_u64 n -> exists s, appendHex dst n = dst ++ s /\ spells hexValid hexLookup 16 s n.
Proof.
  intros Hn. unfold is_u64 in Hn. unfold appendHex. destruct (n =? 0) eqn:E. { exists [48]. assert (n = 0) as -> by lia. done. }
  exists (appendHexLoop 16 n []). split; [done |]. destruct (appendHexLoop_spec 16 n [] 0) as (H & _); [simpl; lia | done | constructor |].
  cbv zeta in H. change (zlen (@nil Z)) with 0 in H. by rewrite Z.mul_1_r, Z.add_0_r in H.
Qed.

Lemma fileETag_form fi : exists a b, fileETag fi = 34 :: (a ++ 45 :: b) ++ [34] /\ spells hexValid hexLookup 16 a (u64 (fi_UnixNano fi)) /\ spells hexValid hexLookup 16 b (u64 (fi_Size fi)).
Proof.
  unfold fileETag. destruct (appendHex_64 [34] (u64 (fi_UnixNano fi)) (u64_range _)) as (a & -> & Ha).
  destruct (appendHex_64 (([34] ++ a) ++ [45]) (u64 (fi_Size fi)) (u64_range _)) as (b & -> & Hb). exists a, b. split; [| done]. cbn [app]. by rewrite <- !app_assoc.
Qed.

Lemma hex_no c s n : spells hexValid hexLookup 16 s n -> hexValid c = false -> c ∉ s.
Proof. intros [H _] Hc Hin. rewrite forallb_forall in H. apply list_elem_of_In in Hin. rewrite H in Hc by done. done. Qed.

Lemma split_unique {A} `{EqDecision A} (a a' b b' : list A) c : c ∉ a -> c ∉ a' -> a ++ c :: b = a' ++ c :: b' -> a = a' /\ b = b'.
Proof.
  revert a'. induction a as [| x a IH]; intros [| x' a'] Ha Ha' E; cbn [app] in E; [by inversion E | inversion E; subst; destruct Ha'; by apply list_elem_of_here | inversion E; subst; destruct Ha; by apply list_elem_of_here |].
  inversion E; subst. apply not_elem_of_cons in Ha as [_ Ha], Ha' as [_ Ha']. destruct (IH a' Ha Ha' H1) as [-> ->]. done.
Qed.

(** Two versions of a file have the same tag only if size and time agree. *)
Definition sameVersion (fi fi' : fileInfo) : Prop := fi_UnixNano fi = fi_UnixNano fi' /\ fi_Size fi = fi_Size fi'.
Definition fileInfo_ok (fi : fileInfo) : Prop := 0 <= fi_Size fi < 2 ^ 63.

Lemma fileETag_same fi fi' : fileInfo_ok fi -> fileInfo_ok fi' -> fileETag fi = fileETag fi' <-> sameVersion fi fi'.
Proof.
  intros Hf Hf'. split; [| intros [H1 H2]; unfold fileETag; by rewrite H1, H2].
  destruct (fileETag_form fi) as (a & b & -> & Ha & Hb), (fileETag_form fi') as (a' & b' & -> & Ha' & Hb'). intros [= E]. apply app_inj_tail in E as [E _].
  apply split_unique in E as [-> ->]; [| by eapply hex_no | by eapply hex_no]. destruct Ha as [_ Ha], Ha' as [_ Ha'], Hb as [_ Hb], Hb' as [_ Hb']. unfold fileInfo_ok in *.
  assert (U : forall x y, is_i64 x -> is_i64 y -> u64 x = u64 y -> x = y).
  { unfold is_i64, u64. intros x y Hx Hy E. pose proof (Z.div_mod x (2 ^ 64)). pose proof (Z.div_mod y (2 ^ 64)). pose proof (Z.mod_pos_bound x (2 ^ 64)). lia. }
  split; apply U; try congruence; unfold is_i64; try lia; unfold fi_UnixNano, i64; pose proof (Z.mod_pos_bound (fi_sec fi * 1000000000 + fi_nsec fi + 2 ^ 63) (2 ^ 64)); pose proof (Z.mod_pos_bound (fi_sec fi' * 1000000000 + fi_nsec fi' + 2 ^ 63) (2 ^ 64)); lia.
Qed.

(** A tag as it is written in a list, after some separators. *)
Record tagItem := mkTagItem { t_sep : bytes; t_weak : bool; t_opaque : bytes }.
Definition quoted (s : bytes) : bytes := 34 :: s ++ [34].
Definition writeTag (t : tagItem) : bytes := t_sep t ++ (if t_weak t then str "W/" else []) ++ quoted (t_opaque t).
Definition tag_ok (t : tagItem) : Prop := forallb isListSeparator (t_sep t) = true /\ forallb isETagChar (t_opaque t) = true.

(** The end of a list: nothing more, or something that is no tag. *)
Inductive listEnd : bytes -> Prop :=
  | end_empty sep : forallb isListSeparator sep = true -> listEnd sep
  | end_other sep c s : forallb isListSeparator sep = true -> isListSeparator c = false -> c <> 42 -> scanETag (c :: s) = None -> listEnd (sep ++ c :: s).

Lemma skip_separators sep s : forallb isListSeparator sep = true -> skipListSeparators (sep ++ s) = skipListSeparators s.
Proof. induction sep as [| c sep IH]; [done |]. cbn [forallb app skipListSeparators]. intros H. apply andb_true_iff in H as [-> H]. by apply IH. Qed.

Lemma skip_solid c s : isListSeparator c = false -> skipListSeparators (c :: s) = c :: s.
Proof. intros H. cbn [skipListSeparators]. by rewrite H. Qed.

Lemma scan_from tag o rest : forallb isETagChar o = true -> scanETagFrom tag (o ++ 34 :: rest) = Some (tag ++ o ++ [34], rest).
Proof.
  revert tag. induction o as [| c o IH]; intros tag H; [done |]. cbn [forallb] in H. apply andb_true_iff in H as [Hc H]. cbn [app scanETagFrom].
  replace (c =? 34) with false by (unfold isETagChar in Hc; lia). rewrite Hc. cbn [negb]. rewrite IH by done. by rewrite <- app_assoc.
Qed.

Lemma scan_quoted weak o rest : forallb isETagChar o = true -> scanETag ((if weak : bool then str "W/" else []) ++ quoted o ++ rest) = Some (quoted o, weak, rest).
Proof.
  intros H. unfold scanETag, quoted. cbn [app]. assert (L : (zlen (34 :: (o ++ [34]) ++ rest) <? 2) = false) by (rewrite zlen_cons, !zlen_app; pose proof (zlen_nonneg o); pose proof (zlen_nonneg rest); change (zlen [34]) with 1; lia).
  assert (S : scanETagFrom [34] ((o ++ [34]) ++ rest) = Some (34 :: o ++ [34], rest)) by (rewrite <- app_assoc; cbn [app]; by rewrite scan_from).
  destruct weak.
  - change (str "W/" ++ 34 :: (o ++ [34]) ++ rest) with (87 :: 47 :: 34 :: (o ++ [34]) ++ rest). change (weakPrefix (87 :: 47 :: 34 :: (o ++ [34]) ++ rest)) with true. cbv iota zeta. change (zdrop 2 (87 :: 47 :: 34 :: (o ++ [34]) ++ rest)) with (34 :: (o ++ [34]) ++ rest).
    rewrite L. change (znth (34 :: _) 0 =? 34) with true. cbn [negb orb]. change (zdrop 1 (34 :: (o ++ [34]) ++ rest)) with ((o ++ [34]) ++ rest). by rewrite S.
  - cbn [app]. assert (W : weakPrefix (34 :: (o ++ [34]) ++ rest) = false) by (unfold weakPrefix, bytes_eqb; apply bool_decide_eq_false_2; unfold ztake; cbn; done).
    rewrite W. cbv iota zeta. rewrite L. change (znth (34 :: _) 0 =? 34) with true. cbn [negb orb]. change (zdrop 1 (34 :: (o ++ [34]) ++ rest)) with ((o ++ [34]) ++ rest). by rewrite S.
Qed.

Definition tagMatches (current : bytes) (strong : bool) (t : tagItem) : bool := bytes_eqb (quoted (t_opaque t)) current && negb (strong && t_weak t).

Lemma tag_list_loop tags tail fuel current strong : Forall tag_ok tags -> listEnd tail -> (length tags < fuel)%nat ->
  etagListLoop fuel (concat (map writeTag tags) ++ tail) current strong = existsb (tagMatches current strong) tags.
Proof.
  intros Ht He. revert fuel. induction Ht as [| t tags [Hs Ho] Ht IH]; intros fuel Hf; (destruct fuel as [| fuel]; [cbn in Hf; lia |]); cbn [etagListLoop map concat].
  - cbn [app existsb]. destruct He as [sep Hsep | sep c s Hsep Hc Hstar Hscan]; [rewrite <- (app_nil_r sep) |]; rewrite skip_separators by done; [done |]. rewrite skip_solid, bytes_eqb_nil_cons by done.
    change (znth (c :: s) 0) with c. rewrite (proj2 (Z.eqb_neq c 42)) by done. by rewrite Hscan.
  - rewrite <- !app_assoc. set (rest := concat (map writeTag tags) ++ tail).
    assert (Hhd : exists c s, (if t_weak t then str "W/" else []) ++ quoted (t_opaque t) ++ rest = c :: s /\ isListSeparator c = false /\ c <> 42) by (destruct (t_weak t); do 2 eexists; (split; [reflexivity |]); split; done).
    destruct Hhd as (c & s & Hhd & Hc & Hstar). pose proof (scan_quoted (t_weak t) (t_opaque t) rest Ho) as Hscan. rewrite Hhd in Hscan.
    assert (skipListSeparators (writeTag t ++ rest) = c :: s) as -> by (unfold writeTag; rewrite <- !app_assoc, skip_separators, Hhd by done; by apply skip_solid). rewrite bytes_eqb_nil_cons.
    change (znth (c :: s) 0) with c. rewrite (proj2 (Z.eqb_neq c 42)) by done. rewrite Hscan. cbn [existsb]. unfold tagMatches at 1. destruct (bytes_eqb (quoted (t_opaque t)) current && negb (strong && t_weak t)); [done |]. cbn [orb]. apply IH. cbn [length] in Hf. lia.
Qed.

(** A line of a condition on tags: any version, or these. *)
Inductive tagLine := anyVersion (sep after : bytes) | someTags (tags : list tagItem) (tail : bytes).
Definition writeLine (l : tagLine) : bytes := match l with anyVersion sep after => sep ++ 42 :: after | someTags tags tail => concat (map writeTag tags) ++ tail end.
Definition line_ok (l : tagLine) : Prop := match l with anyVersion sep after => forallb isListSeparator sep = true /\ spaces after | someTags tags tail => Forall tag_ok tags /\ listEnd tail end.
Definition lineMatches (current : bytes) (strong : bool) (l : tagLine) : bool := match l with anyVersion _ _ => true | someTags tags _ => existsb (tagMatches current strong) tags end.

Lemma line_contains l current strong : line_ok l -> etagListContains (writeLine l) current strong = lineMatches current strong l.
Proof.
  unfold etagListContains. destruct l as [sep after | tags tail]; intros [H1 H2]; cbn [writeLine lineMatches].
  - cbn [etagListLoop]. rewrite skip_separators, skip_solid, bytes_eqb_nil_cons by done. change (znth (42 :: after) 0 =? 42) with true. cbv iota zeta. change (zdrop 1 (42 :: after)) with after.
    assert (E : trimASCIISpace after = []) by (rewrite <- (app_nil_r after); apply (trim_text after [] [] H2); [constructor | done]). by rewrite E.
  - apply tag_list_loop; [done | done |]. rewrite length_app. enough (length tags <= length (concat (map writeTag tags)))%nat by lia. clear. induction tags as [| t tags IH]; [done |]. cbn [map concat length]. rewrite length_app. unfold writeTag at 1, quoted. rewrite !length_app. cbn [length]. lia.
Qed.

(** ** Conditions of a request *)

(** The values of the lines with this name, in order. *)
Definition valuesOf (req : h1Request) (name : bytes) : list bytes := map snd (List.filter (fun h => EqualFoldASCII h.1 name) (q_Headers req)).

Lemma tag_headers req name lines current strong : valuesOf req name = map writeLine lines -> Forall line_ok lines ->
  etagHeaderMatches req name current strong = (negb (bool_decide (lines = [])), existsb (lineMatches current strong) lines).
Proof.
  unfold etagHeaderMatches, valuesOf. assert (G : forall headers lines present, map snd (List.filter (fun h => EqualFoldASCII h.1 name) headers) = map writeLine lines -> Forall line_ok lines ->
    etagHeadersLoop headers name current strong present = (present || negb (bool_decide (lines = [])), existsb (lineMatches current strong) lines)).
  2: { intros. by rewrite (G _ lines). }
  induction headers as [| h headers IH]; intros ls present E Hl; cbn [List.filter etagHeadersLoop] in *.
  - destruct ls; [| done]. rewrite bool_decide_true by done. by rewrite orb_false_r.
  - destruct (EqualFoldASCII h.1 name); cbn [negb map] in *; [| by apply IH]. destruct ls as [| l ls]; [done |]. injection E as E1 E2. apply Forall_cons_1 in Hl as [Hl Hls].
    rewrite E1, line_contains by done. cbn [existsb]. rewrite (bool_decide_false (l :: ls = [])) by done. cbn [negb]. rewrite orb_true_r. destruct (lineMatches current strong l); [done |]. cbn [orb]. rewrite (IH ls) by done. done.
Qed.

(** RFC 9110, 13.2.2, over the conditions as they are meant; the dates are those
    that can be read. *)
Definition rfcPreconditions (safe : bool) (ifMatch : list tagLine) (ifUnmodifiedSince : option Z) (ifNoneMatch : list tagLine) (ifModifiedSince : option Z) (etag : bytes) (modified : Z) : preconditionResult :=
  let failsMatch := match ifMatch with [] => match ifUnmodifiedSince with Some since => since <? modified | None => false end | _ => negb (existsb (lineMatches etag true) ifMatch) end in
  let unchanged := match ifNoneMatch with [] => match ifModifiedSince with Some since => safe && (modified <=? since) | None => false end | _ => existsb (lineMatches etag false) ifNoneMatch end in
  if failsMatch then preconditionFailed else if unchanged then if safe then preconditionNotModified else preconditionFailed else preconditionPass.

Lemma preconditions_rfc env req v ifMatch ifNoneMatch :
  valuesOf req (str "If-Match") = map writeLine ifMatch -> Forall line_ok ifMatch ->
  valuesOf req (str "If-None-Match") = map writeLine ifNoneMatch -> Forall line_ok ifNoneMatch ->
  evaluatePreconditions env req v = rfcPreconditions (safeMethod req) ifMatch (headerUnixDate env req (str "If-Unmodified-Since") v) ifNoneMatch (headerUnixDate env req (str "If-Modified-Since") v) (v_etag v) (v_modUnix v).
Proof.
  intros E1 H1 E2 H2. unfold evaluatePreconditions, rfcPreconditions. rewrite (tag_headers req _ _ _ _ E1 H1), (tag_headers req _ _ _ _ E2 H2). clear.
  set (since := headerUnixDate env req (str "If-Unmodified-Since") v). set (modified := headerUnixDate env req (str "If-Modified-Since") v). clearbody since modified.
  assert (N : forall l : list tagLine, negb (bool_decide (l = [])) = match l with [] => false | _ => true end) by (intros [| l ls]; [by rewrite bool_decide_true | by rewrite bool_decide_false]). rewrite !N.
  destruct ifMatch as [| l ls]; [destruct since as [since |]; [destruct (since <? v_modUnix v); [done |] |] | destruct (existsb _ (l :: ls)); [| done]]; cbn [negb].
  all: destruct ifNoneMatch as [| m ms]; [| by destruct (existsb _ (m :: ms))]; destruct modified as [since' |]; destruct (safeMethod req); try done; by cbn [andb]; destruct (v_modUnix v <=? since').
Qed.

(** ** Whole responses *)

Lemma digits_unbroken s n : spells is_digit digit_of 10 s n -> forallb notBreak s = true.
Proof. intros [H _]. rewrite forallb_forall in H |- *. intros c Hc. specialize (H c Hc). unfold is_digit in H. unfold notBreak. lia. Qed.

Lemma etag_clean fi : forallb notBreak (fileETag fi) = true.
Proof.
  assert (Hx : forall s n, spells hexValid hexLookup 16 s n -> forallb notBreak s = true).
  { intros s n [H _]. rewrite forallb_forall in H |- *. intros c Hc. specialize (H c Hc). unfold hexValid in H. unfold notBreak. lia. }
  destruct (fileETag_form fi) as (a & b & -> & Ha & Hb). cbn [forallb app]. rewrite !forallb_app. cbn [forallb]. by rewrite (Hx a _ Ha), (Hx b _ Hb).
Qed.

(** What a Content-Range header says: the first and the last byte, and the size. *)
Definition content_range_text (start len size : Z) (text : bytes) : Prop :=
  exists a b c, text = str "bytes " ++ a ++ 45 :: b ++ 47 :: c /\ spells is_digit digit_of 10 a start /\ spells is_digit digit_of 10 b (start + len - 1) /\ spells is_digit digit_of 10 c size.

Lemma formatContentRange_text start len size : 0 <= start -> 1 <= len -> start + len <= size -> size < 2 ^ 63 -> content_range_text start len size (formatContentRange start len size).
Proof.
  intros Hs Hl Hz H. unfold formatContentRange, contentRangePrefix. destruct (appendUint_spells (str "bytes ") start ltac:(lia)) as (a & -> & Ha & _). cbv zeta.
  destruct (appendUint_spells ((str "bytes " ++ a) ++ [45]) (start + len - 1) ltac:(lia)) as (b & -> & Hb & _).
  destruct (appendUint_spells (((((str "bytes " ++ a) ++ [45]) ++ b)) ++ [47]) size ltac:(lia)) as (c & -> & Hc & _). exists a, b, c. split; [| done]. by rewrite <- !app_assoc.
Qed.

Lemma content_range_clean start len size text : content_range_text start len size text -> forallb notBreak text = true /\ text <> [].
Proof.
  intros (a & b & c & -> & Ha & Hb & Hc). split; [| done]. rewrite !forallb_app. cbn [forallb]. rewrite forallb_app. cbn [forallb].
  rewrite (digits_unbroken a _ Ha), (digits_unbroken b _ Hb), (digits_unbroken c _ Hc). by vm_compute.
Qed.

(** The response has these bytes of the file, all of them unless it failed; a
    failed one that was begun has the first of them. *)
Definition answers (v : contentValidators) (s : served) (file : bytes) (status start len : Z) (contentRange : bytes) : Prop :=
  (sv_calls s <> [] -> let '(st, headers, body) := received s in st = status /\ describes v headers contentRange /\ exists rest, zslice file start (start + len) = body ++ rest) /\
  (sv_err s = None -> let '(st, headers, body) := received s in st = status /\ describes v headers contentRange /\ body = zslice file start (start + len) /\ zlen body = len).

Definition range_answer (v : contentValidators) (s : served) (file : bytes) (size : Z) (o : Z * Z * rangeOutcome) : Prop :=
  match o with
  | (start, len, rangeSatisfiable) =>
      0 <= start /\ 1 <= len /\ start + len <= size /\ exists contentRange, content_range_text start len size contentRange /\ answers v s file 206 start len contentRange
  | (_, _, rangeIgnored) => answers v s file 200 0 size []
  | (_, _, rangeUnsatisfiable) => let '(st, headers, _) := received s in st = 416 /\ exists n, (str "Content-Range", str "bytes */" ++ n) ∈ headers /\ spells is_digit digit_of 10 n size
  end.

Lemma validators_etag env last fi : v_etag (fileValidators env last fi).1 = fileETag fi /\ v_modUnix (fileValidators env last fi).1 = fi_sec fi.
Proof. unfold fileValidators. by destruct (httpDate env last (fi_sec fi)). Qed.

Lemma get_not_head m : m = str "GET" -> bytes_eqb m (str "HEAD") = false.
Proof. by intros ->. Qed.

Section Whole.
Context (env : contentEnv) (r : Response) (sw : option contentWriter) (file : bytes) (fi : fileInfo) (last : httpDateEntry) (contentType : bytes) (cfg : option sendFileConfig).
Let v := (fileValidators env last fi).1.

Lemma serve_whole method status start len contentRange s : match sw with Some w => writer_ok w | None => True end -> 0 <= start -> 0 <= len -> method = str "GET" -> forallb notBreak contentRange = true ->
  serveRange env r sw file v contentType cfg method status start len contentRange = Some s -> answers v s file status start len contentRange.
Proof. intros Hok Hs Hl Hm Hc. apply (serve_range env r sw file v contentType cfg); [done | done | done | by apply get_not_head | | done]. unfold v. rewrite (proj1 (validators_etag env last fi)). apply etag_clean. Qed.

Lemma serve_range_ok method status start len contentRange : noFaults env -> sw = Some genericWriter -> 0 <= start -> 0 <= len -> start + len <= zlen file ->
  exists s, serveRange env r sw file v contentType cfg method status start len contentRange = Some s /\ sv_err s = None.
Proof.
  intros Hn -> Hs Hl Hz. unfold serveRange. rewrite !(proj2 Hn). destruct (bytes_eqb method (str "HEAD")); [by eexists |]. unfold streamFileRange. cbn [trySendFileFastPath].
  destruct (stream_loop_ok env (S (Z.to_nat len)) file start (start + len) (bool_decide (is_Some (cfg_limiter cfg))) 0 1 [swWriteHeader status (contentHeaders v contentRange cfg len) contentType] Hn ltac:(lia) ltac:(lia) ltac:(lia)) as (calls & ->). by eexists.
Qed.
End Whole.

(** C8: What a client receives when it asks for a range of a file. A Range header is one byte
    range, its numbers of up to 18 digits, with the unit in any case and spaces around it, or it
    is ignored. A range that lies in the file is answered with 206, a Content-Range that names
    exactly the first and last byte and the size, and exactly those bytes of the file, whichever
    way they are sent (a buffer, reads and chunks, sendfile(2) answered in any way, a writer of the
    event loop that keeps to [LoopWriterOk], as FileSendProofs shows those of FileSend do); an
    error is reported when fewer were sent, and then those were the first ones. A range past the end is
    answered with 416 and the size, an ignored one with 200 and the whole file. Without faults
    of the file, and with a writer that only takes chunks and has none, the response is complete.
    This is for GET requests whose conditions pass and whose If-Range, if any, matches. *)
Theorem content_ranges env last r req sw file fi contentType cfg o :
  let v := (fileValidators env last fi).1 in
  fileInfo_ok fi -> q_Method req = str "GET" -> evaluatePreconditions env req v = preconditionPass -> reqHeader req (str "Range") <> [] -> ifRangeAllows env req v = true -> match sw with Some w => writer_ok w | None => True end ->
  range_request (reqHeader req (str "Range")) (fi_Size fi) o ->
  (forall s, (serveContent env last r (Some req) sw file fi contentType cfg).1 = Some s -> range_answer v s file (fi_Size fi) o) /\
  (noFaults env -> sw = Some genericWriter -> fi_Size fi <= zlen file -> exists s, (serveContent env last r (Some req) sw file fi contentType cfg).1 = Some s /\ sv_err s = None).
Proof.
  intros v Hf Hm Hp Hr Hi Hok Ho. unfold fileInfo_ok in Hf. unfold serveContent. subst v. pose proof (serve_whole env r sw file fi last contentType cfg) as W. pose proof (serve_range_ok env r sw file fi last contentType cfg) as K.
  destruct (fileValidators env last fi) as [v last'] eqn:Ev. cbn [fst] in *. rewrite Hp, Hm, Hi. cbv zeta.
  assert (bytes_eqb (reqHeader req (str "Range")) [] = false) as -> by (destruct (bytes_eqb _ _) eqn:E; [by apply bytes_eqb_spec in E | done]). rewrite bytes_eqb_refl. cbn [negb andb].
  pose proof Ho as Hb. apply parse_range_request in Ho; [| lia]. rewrite Ho. destruct o as [[start len] []].
  - split; [intros s Hs; cbn; apply W in Hs; (done || lia) | intros; apply K; (done || lia)].
  - apply range_request_bounds in Hb as (B1 & B2 & B3); [| lia]. pose proof (formatContentRange_text start len (fi_Size fi) B1 B2 B3 ltac:(lia)) as Ht. destruct (content_range_clean _ _ _ _ Ht) as [Hc _].
    split; [| intros; apply K; (done || lia)]. intros s Hs. cbn. split_and!; [lia | lia | lia |]. exists (formatContentRange start len (fi_Size fi)). split; [done |]. apply W in Hs; (done || lia).
  - split; [| by eexists]. intros s [= <-]. cbn [range_answer received sv_calls sv_resp StatusCode r_Headers Status SetHeader resp_String setText]. split; [done |]. destruct (appendUint_spells unsatisfiablePrefix (fi_Size fi) ltac:(lia)) as (n & -> & Hn & _). exists n. split; [| done].
    apply elem_of_app. right. rewrite (sanitize_same (unsatisfiablePrefix ++ n)); [apply list_elem_of_here |]. rewrite forallb_app, (digits_unbroken n _ Hn). by vm_compute.
Qed.

Lemma content_ranges_witness :
  let env := mkContentEnv (fun _ => str "Thu, 01 Jan 1970 00:00:00 GMT") (fun _ => None) (fun _ => None) (fun _ => None) in
  let req := mkH1Request (str "GET") (str "HTTP/1.1") (str "/f") [] (str "/f") (str "h") [(str "range", str "bytes=2-3")] h1ExpectNone [] false in
  let fi := mkFileInfo 6 0 7 in
  range_request (str "bytes=2-3") 6 (2, 2, rangeSatisfiable) /\
  exists s, (serveContent env None (mkResponse 200 [] [] [] false [] [] None) (Some req) (Some genericWriter) (str "abcdef") fi (str "text/plain") None).1 = Some s /\ (received s).2 = str "cd".
Proof.
  intros env req fi. assert (Hr : range_request (str "bytes=2-3") 6 (2, 2, rangeSatisfiable)).
  { left. exists (fromTo 2 3). split; [| reflexivity]. exists (str "bytes"), [], (str "2-3"), []. split_and!; [reflexivity | reflexivity | constructor | constructor |].
    apply (text_fromTo [50] [51]); (split; [by split | unfold maxRangeIntDigits; change (zlen [50]) with 1; change (zlen [51]) with 1; lia]). }
  split; [exact Hr |]. destruct (content_ranges env None (mkResponse 200 [] [] [] false [] [] None) req (Some genericWriter) (str "abcdef") fi (str "text/plain") None (2, 2, rangeSatisfiable)) as [H1 H2];
    [vm_compute; split; [discriminate | reflexivity] | reflexivity | vm_compute; reflexivity | vm_compute; discriminate | vm_compute; reflexivity | exact I | exact Hr |].
  destruct H2 as (s & Hs & He); [split; intros; reflexivity | reflexivity | vm_compute; discriminate |]. exists s. split; [exact Hs |]. apply H1 in Hs as (_ & _ & _ & cr & _ & _ & Ha).
  specialize (Ha He). destruct (received s) as [[st hs] body]. destruct Ha as (_ & _ & -> & _). reflexivity.
Defined.

(** ** Versions *)

(** The tag of a version, without its quotes. *)
Definition versionTag (fi : fileInfo) : bytes := removelast (tail (fileETag fi)).
Lemma versionTag_quoted fi : quoted (versionTag fi) = fileETag fi.
Proof. unfold versionTag. destruct (fileETag_form fi) as (a & b & -> & _). cbn [tail]. by rewrite removelast_last. Qed.

Lemma version_matches fi fi' sep weak tail strong : fileInfo_ok fi -> fileInfo_ok fi' ->
  lineMatches (fileETag fi) strong (someTags [mkTagItem sep weak (versionTag fi')] tail) = true <-> sameVersion fi' fi /\ strong && weak = false.
Proof.
  intros Hf Hf'. cbn [lineMatches existsb]. rewrite orb_false_r. unfold tagMatches. cbn [t_opaque t_weak]. rewrite versionTag_quoted, andb_true_iff, bytes_eqb_spec, negb_true_iff, fileETag_same by done. done.
Qed.

Lemma versionTag_ok fi : forallb isETagChar (versionTag fi) = true.
Proof.
  assert (Hx : forall s n, spells hexValid hexLookup 16 s n -> forallb isETagChar s = true).
  { intros s n [H _]. rewrite forallb_forall in H |- *. intros c Hc. specialize (H c Hc). unfold hexValid in H. unfold isETagChar. lia. }
  unfold versionTag. destruct (fileETag_form fi) as (a & b & -> & Ha & Hb). cbn [tail]. rewrite removelast_last, forallb_app. cbn [forallb]. by rewrite (Hx a _ Ha), (Hx b _ Hb).
Qed.

(** If-Range with the tag of a version. *)
Lemma if_range_version env req v fi fi' : fileInfo_ok fi -> fileInfo_ok fi' -> v_etag v = fileETag fi -> reqHeader req (str "If-Range") = fileETag fi' ->
  ifRangeAllows env req v = true <-> sameVersion fi' fi.
Proof.
  intros Hf Hf' Hv Hr. unfold ifRangeAllows. rewrite Hr. pose proof (scan_quoted false (versionTag fi') [] (versionTag_ok fi')) as Hs. rewrite versionTag_quoted, app_nil_r in Hs. cbn [app] in Hs.
  rewrite Hs. destruct (fileETag_form fi') as (a & b & E & _). assert (bytes_eqb (fileETag fi') [] = false) as -> by (rewrite E; apply bytes_eqb_nil_cons).
  assert (znth (fileETag fi') 0 = 34) as -> by by rewrite E. cbn [Z.eqb Pos.eqb orb negb andb]. change (bytes_eqb (trimASCIISpace []) []) with true. cbn [andb]. rewrite bytes_eqb_spec, Hv. by apply fileETag_same.
Qed.

(** If-Range with a date: the second of the last change, and nothing finer. *)
Definition isTag (cond : bytes) : bool := (znth cond 0 =? 34) || weakPrefix cond.
Lemma if_range_date env req v : reqHeader req (str "If-Range") <> [] -> isTag (reqHeader req (str "If-Range")) = false ->
  ifRangeAllows env req v = true <-> headerUnixDate env req (str "If-Range") v = Some (v_modUnix v).
Proof.
  intros Hne Ht. unfold ifRangeAllows. unfold isTag in Ht. rewrite Ht. assert (bytes_eqb (reqHeader req (str "If-Range")) [] = false) as -> by (destruct (bytes_eqb _ _) eqn:E; [by apply bytes_eqb_spec in E | done]).
  destruct (headerUnixDate _ _ _ _) as [u |]; [rewrite Z.eqb_eq; split; [by intros -> | by intros [= ->]] | done].
Qed.
(** The date functions read back what they write, and what they write is no tag. *)
Definition date_ok (env : contentEnv) (unix : Z) : Prop := parseTime env (formatDate env unix) = Some unix /\ formatDate env unix <> [] /\ isTag (formatDate env unix) = false.
Lemma if_range_second env req v unix : date_ok env unix -> date_ok env (v_modUnix v) -> v_lastModified v = formatDate env (v_modUnix v) -> reqHeader req (str "If-Range") = formatDate env unix ->
  ifRangeAllows env req v = true <-> unix = v_modUnix v.
Proof.
  intros (D1 & D2 & D3) (E1 & _) Hl Hr. rewrite if_range_date by by rewrite Hr. unfold headerUnixDate. rewrite Hr, Hl. assert (bytes_eqb (formatDate env unix) [] = false) as -> by (destruct (bytes_eqb _ _) eqn:E; [by apply bytes_eqb_spec in E | done]).
  destruct (bytes_eqb (formatDate env unix) (formatDate env (v_modUnix v))) eqn:E; [| rewrite D1; split; [by intros [= ->] | by intros ->]].
  apply bytes_eqb_spec in E. rewrite E, E1 in D1. injection D1 as ->. done.
Qed.
(** A weak tag, or one that does not end where the field ends, allows nothing. *)
Lemma if_range_weak env req v : weakPrefix (reqHeader req (str "If-Range")) = true -> ifRangeAllows env req v = false.
Proof.
  intros Hw. unfold ifRangeAllows. rewrite Hw, orb_true_r. destruct (bytes_eqb (reqHeader req (str "If-Range")) []) eqn:E; [apply bytes_eqb_spec in E; by rewrite E in Hw |].
  destruct (scanETag (reqHeader req (str "If-Range"))) as [[[tag weak] rest] |] eqn:Es; [| done]. unfold scanETag in Es. rewrite Hw in Es. destruct (_ || _); [done |]. destruct (scanETagFrom _ _) as [[t r'] |]; [| done]. by injection Es as <- <- <-.
Qed.

Definition date_memo_ok (env : contentEnv) (last : httpDateEntry) : Prop := match last with Some (unix, text) => text = formatDate env unix | None => True end.

Lemma httpDate_ok env last unix : date_memo_ok env last -> (httpDate env last unix).1 = formatDate env unix /\ date_memo_ok env (httpDate env last unix).2.
Proof. unfold httpDate. destruct last as [[u text] |]; cbn; [| done]. intros ->. destruct (u =? unix) eqn:E; cbn; [| done]. by replace unix with u by lia. Qed.

Lemma parseByteRange_bounds header size start len : 0 <= size -> parseByteRange header size = (start, len, rangeSatisfiable) -> 0 <= start /\ 0 <= len.
Proof.
  intros Hs. unfold parseByteRange. assert (D : forall s v, parseRangeInt s = Some v -> 0 <= v) by (intros s v H; apply parseRangeInt_spec, digits_range in H; lia).
  cbv zeta. split_if; [done |]. split_if; [done |]. split_if; [done |]. split_if.
  - destruct (parseRangeInt _) as [x |] eqn:E; [| done]. apply D in E. split_if; [done |]. intros [= <- <-]. split_if; lia.
  - destruct (parseRangeInt (ztake _ _)) as [x |] eqn:E; [| done]. apply D in E. split_if; [split_if; [done |]; intros [= <- <-]; lia |].
    destruct (parseRangeInt _) as [y |] eqn:E4; [| done]. split_if; [done |]. split_if; [done |]. intros [= <- <-]. split_if; lia.
Qed.

Lemma serve_range_status env r sw file v contentType cfg method status start len contentRange s : 0 <= start -> 0 <= len ->
  serveRange env r sw file v contentType cfg method status start len contentRange = Some s -> (received s).1.1 = status \/ (received s).1.1 = 500.
Proof.
  intros Hs Hl. unfold serveRange. destruct sw as [w |].
  - destruct (writeFault env 0) as [e |]; [intros [= <-]; by left |]. destruct (bytes_eqb method (str "HEAD")); [intros [= <-]; by left |].
    destruct (streamFileRange env w file start len _ 1 _) as [[calls e] |] eqn:E; [| done]. intros [= <-]. left. by apply stream_calls in E as (new & ->).
  - unfold sendFileBuffered. destruct (sendFileBufferedMax <? len); [intros [= <-]; by right |]. destruct (readSection env file start len) as [body [e |]]; intros [= <-]; [by right | by left].
Qed.

(** C9: Conditional requests. When the If-Match and If-None-Match lines of a request are lists
    of entity tags (with any separators, up to a part that is no tag) or [*], the request is
    answered as RFC 9110 orders the conditions: 412 when If-Match names no strong match or, without
    it, the file changed after If-Unmodified-Since; else 304 with the tag (412 for other
    methods than GET and HEAD) when If-None-Match names a match or, without it, the file did not
    change after If-Modified-Since; else with the file. The tag of one version matches another
    exactly when their sizes and times agree, and so does If-Range with a tag, so that a client
    that sends one never joins ranges of two versions; a weak tag allows no range. If-Range
    with a date allows the range exactly when it is the second of the last change (two versions
    of one second are the same to it). The remembered date is the date of the file. *)
Theorem conditional_requests env last r req sw file fi fi' contentType cfg ifMatch ifNoneMatch :
  let v := (fileValidators env last fi).1 in
  let result := serveContent env last r (Some req) sw file fi contentType cfg in
  fileInfo_ok fi -> fileInfo_ok fi' -> date_memo_ok env last ->
  valuesOf req (str "If-Match") = map writeLine ifMatch -> Forall line_ok ifMatch ->
  valuesOf req (str "If-None-Match") = map writeLine ifNoneMatch -> Forall line_ok ifNoneMatch ->
  let verdict := rfcPreconditions (safeMethod req) ifMatch (headerUnixDate env req (str "If-Unmodified-Since") v) ifNoneMatch (headerUnixDate env req (str "If-Modified-Since") v) (fileETag fi) (fi_sec fi) in
  (forall s, result.1 = Some s -> match verdict with
   | preconditionNotModified => StatusCode (sv_resp s) = 304 /\ (str "ETag", fileETag fi) ∈ r_Headers (sv_resp s) /\ sv_calls s = []
   | preconditionFailed => StatusCode (sv_resp s) = 412 /\ sv_calls s = []
   | preconditionPass => (received s).1.1 ∈ [200; 206; 416; 500]
   end) /\
  (forall sep weak tail strong, lineMatches (fileETag fi) strong (someTags [mkTagItem sep weak (versionTag fi')] tail) = true <-> sameVersion fi' fi /\ strong && weak = false) /\
  (reqHeader req (str "If-Range") = fileETag fi' -> ifRangeAllows env req v = true <-> sameVersion fi' fi) /\
  (weakPrefix (reqHeader req (str "If-Range")) = true -> ifRangeAllows env req v = false) /\
  (date_ok env (fi_sec fi) -> date_ok env (fi_sec fi') -> reqHeader req (str "If-Range") = formatDate env (fi_sec fi') -> ifRangeAllows env req v = true <-> fi_sec fi' = fi_sec fi) /\
  v_lastModified v = formatDate env (fi_sec fi) /\ date_memo_ok env result.2.
Proof.
  intros v result Hf Hf' Hd E1 H1 E2 H2 verdict. destruct (validators_etag env last fi) as [Ve Vm]. split_and!.
  - intros s. unfold result, serveContent. assert (Hv : evaluatePreconditions env req v = verdict) by (unfold verdict; rewrite (preconditions_rfc env req v ifMatch ifNoneMatch) by done; unfold v; by rewrite Ve, Vm).
    unfold v in Hv. fold v in Ve, Vm. destruct (fileValidators env last fi) as [v' last']. cbn [fst] in *. rewrite Hv. cbv zeta. clearbody verdict. clear Hv. destruct verdict; cbn [fst].
    + assert (S : forall start len st cr, 0 <= start -> 0 <= len -> (st = 200 \/ st = 206) -> serveRange env r sw file v' contentType cfg (q_Method req) st start len cr = Some s -> (received s).1.1 ∈ [200; 206; 416; 500]).
      { intros start len st cr Hs Hl Hst H. apply serve_range_status in H; [| done | done]. rewrite !elem_of_cons. lia. }
      unfold fileInfo_ok in Hf. split_if; [| intros H; eapply S; [| | | exact H]; lia]. destruct (parseByteRange (reqHeader req (str "Range")) (fi_Size fi)) as [[start len] []] eqn:Ep.
      * intros H. eapply S; [| | | exact H]; lia.
      * intros H. apply parseByteRange_bounds in Ep as [? ?]; [| lia]. eapply S; [| | | exact H]; lia.
      * intros [= <-]. cbn. rewrite !elem_of_cons. tauto.
    + intros [= <-]. cbn [sv_resp sv_calls StatusCode r_Headers Status SetHeader]. split_and!; [done | | done]. apply elem_of_app. left. apply elem_of_app. right. change (v_etag v' = fileETag fi) in Ve. rewrite Ve, (sanitize_same (fileETag fi)) by apply etag_clean. apply list_elem_of_here.
    + by intros [= <-].
  - intros. by apply version_matches.
  - by apply if_range_version.
  - by apply if_range_weak.
  - intros D1 D2 Hr. rewrite <- Vm. apply if_range_second; [done | by rewrite Vm | | done]. rewrite Vm. unfold fileValidators. destruct (httpDate_ok env last (fi_sec fi) Hd) as [<- _]. by destruct (httpDate env last (fi_sec fi)).
  - unfold v, fileValidators. destruct (httpDate_ok env last (fi_sec fi) Hd) as [<- _]. by destruct (httpDate env last (fi_sec fi)).
  - unfold result, serveContent, fileValidators. destruct (httpDate_ok env last (fi_sec fi) Hd) as [_ K]. by destruct (httpDate env last (fi_sec fi)) as [d l'].
Qed.

Lemma conditional_requests_witness :
  let date := str "Thu, 01 Jan 1970 00:00:00 GMT" in
  let env := mkContentEnv (fun _ => date) (fun s => if bytes_eqb s date then Some 0 else None) (fun _ => None) (fun _ => None) in
  let fi := mkFileInfo 6 0 7 in
  let req fields := mkH1Request (str "GET") (str "HTTP/1.1") (str "/f") [] (str "/f") (str "h") fields h1ExpectNone [] false in
  let r := mkResponse 200 [] [] [] false [] [] None in
  (exists s, (serveContent env None r (Some (req [(str "if-none-match", writeTag (mkTagItem [] true (versionTag fi)))])) None (str "abcdef") fi (str "text/plain") None).1 = Some s /\ StatusCode (sv_resp s) = 304) /\
  date_ok env (fi_sec fi) /\ ifRangeAllows env (req [(str "if-range", date)]) (fileValidators env None fi).1 = true.
Proof.
  intros date env fi req r. assert (Hfi : fileInfo_ok fi) by (vm_compute; split; [discriminate | reflexivity]). assert (Hdate : date_ok env (fi_sec fi)) by (split_and!; [vm_compute; reflexivity | vm_compute; discriminate | vm_compute; reflexivity]). split; [| split; [exact Hdate |]].
  - eexists. split; [vm_compute; reflexivity |]. pose proof (conditional_requests env None r (req [(str "if-none-match", writeTag (mkTagItem [] true (versionTag fi)))]) None (str "abcdef") fi fi (str "text/plain") None [] [someTags [mkTagItem [] true (versionTag fi)] []]) as H.
    cbv zeta in H. destruct H as (H & _); [exact Hfi | exact Hfi | exact I | vm_compute; reflexivity | constructor | vm_compute; reflexivity | |].
    + constructor; [| constructor]. split; [constructor; [split; vm_compute; reflexivity | constructor] | apply (end_empty []); reflexivity].
    + specialize (H _ ltac:(vm_compute; reflexivity)). vm_compute rfcPreconditions in H. apply H.
  - pose proof (conditional_requests env None r (req [(str "if-range", date)]) None (str "abcdef") fi fi (str "text/plain") None [] []) as H. cbv zeta in H.
    destruct H as (_ & _ & _ & _ & H & _); [exact Hfi | exact Hfi | exact I | reflexivity | constructor | reflexivity | constructor |]. apply (H Hdate Hdate); reflexivity.
Defined.
