(* ===== verification/FileSend.v ===== *)
(** Files sent by the event loop: the HTTP/1 stream writer
    (src/core/epoll_h1_sendfile_linux_amd64.go) with sendfile(2) and with reads
    that are sealed, and the HTTP/2 stream writer (epoll_h2_file_linux_amd64.go)
    that reads into the holes of DATA frames. The handler waits while the loop
    pumps; the answers of the kernel are arguments. *)
From stdpp Require Import base list numbers.
From Stdlib Require Import ZArith Lia ZifyBool.
From S2P Require Import Prelude Utils H2Frame ServeContent.

Open Scope list_scope.
Open Scope Z_scope.

(** An answer of send(2) and of preadv2(2). *)
Inductive sendAnswer := saSent (n : positive) | saIntr | saFail.
Inductive readAnswer := raRead (n : positive) | raAgain | raIntr | raError (e : ioError).

(** What a read that may take [want] bytes gets of the file. *)
Definition fileGet (file : bytes) (off want : Z) (n : positive) : bytes := ztake (Z.min (Z.pos n) want) (zdrop off file).

(** ** HTTP/1 *)

Definition h1SendFileMaxCall : Z := Z.shiftl 1 30.
Definition h1SealFileChunk : Z := 4 * (16384 - 1).
Definition h1OutSocketHighMark : Z := Z.shiftl 1 20.
Definition noDeclaredLength : Z := -1.

(** The fields of [epollH1StreamWriter] that a file uses; [w_throttled] says that
    the connection or the server has a limiter of downloads. *)
Record h1Writer := mkH1Writer {
  w_headerCalled : bool;
  w_suppressBody : bool;
  w_chunked : bool;
  w_throttled : bool;
  w_maxWrite : Z;
  w_written : Z;
  w_contentLength : Z;
  w_bodyBytes : Z;
  w_mustClose : bool;
  w_buffered : Z;
  w_finished : bool;
  w_err : option ioError;
  w_fileOff : Z;
  w_fileLeft : Z;
  w_fileBlocked : bool;
  w_fileProgress : bool;
  w_fileNeedIO : bool }.

Definition set_count (s : h1Writer) (written bodyBytes : Z) (mustClose : bool) : h1Writer :=
  mkH1Writer (w_headerCalled s) (w_suppressBody s) (w_chunked s) (w_throttled s) (w_maxWrite s) written (w_contentLength s) bodyBytes mustClose (w_buffered s) (w_finished s) (w_err s) (w_fileOff s) (w_fileLeft s) (w_fileBlocked s) (w_fileProgress s) (w_fileNeedIO s).
Definition set_file (s : h1Writer) (off left : Z) : h1Writer :=
  mkH1Writer (w_headerCalled s) (w_suppressBody s) (w_chunked s) (w_throttled s) (w_maxWrite s) (w_written s) (w_contentLength s) (w_bodyBytes s) (w_mustClose s) (w_buffered s) (w_finished s) (w_err s) off left (w_fileBlocked s) (w_fileProgress s) (w_fileNeedIO s).
Definition set_blocked (s : h1Writer) (blocked progress : bool) : h1Writer :=
  mkH1Writer (w_headerCalled s) (w_suppressBody s) (w_chunked s) (w_throttled s) (w_maxWrite s) (w_written s) (w_contentLength s) (w_bodyBytes s) (w_mustClose s) (w_buffered s) (w_finished s) (w_err s) (w_fileOff s) (w_fileLeft s) blocked progress (w_fileNeedIO s).
Definition set_needIO (s : h1Writer) (b : bool) : h1Writer :=
  mkH1Writer (w_headerCalled s) (w_suppressBody s) (w_chunked s) (w_throttled s) (w_maxWrite s) (w_written s) (w_contentLength s) (w_bodyBytes s) (w_mustClose s) (w_buffered s) (w_finished s) (w_err s) (w_fileOff s) (w_fileLeft s) (w_fileBlocked s) (w_fileProgress s) b.
Definition set_err (s : h1Writer) (e : option ioError) (mustClose finished : bool) (left : Z) : h1Writer :=
  mkH1Writer (w_headerCalled s) (w_suppressBody s) (w_chunked s) (w_throttled s) (w_maxWrite s) (w_written s) (w_contentLength s) (w_bodyBytes s) mustClose (w_buffered s) finished e (w_fileOff s) left (w_fileBlocked s) (w_fileProgress s) (w_fileNeedIO s).

Definition failFile (s : h1Writer) (e : ioError) : h1Writer := set_err s (Some e) true (w_finished s) 0.
(** [fail]: the connection is gone. *)
Definition h1Fail (s : h1Writer) (e : ioError) : h1Writer := set_err s (match w_err s with None => Some e | err => err end) (w_mustClose s) true (w_fileLeft s).

Definition admitBody (s : h1Writer) (n : Z) : option ioError * h1Writer :=
  let s1 := if 0 <? w_maxWrite s then set_count s (w_written s + n) (w_bodyBytes s) (w_mustClose s) else s in
  if (0 <? w_maxWrite s) && (w_maxWrite s <? w_written s1) then (Some ErrBodyTooLarge, set_count s1 (w_written s1) (w_bodyBytes s1) true)
  else if negb (w_contentLength s1 =? noDeclaredLength) && (w_contentLength s1 <? w_bodyBytes s1 + n) then (Some ErrBodyTooLarge, set_count s1 (w_written s1) (w_bodyBytes s1) true)
  else (None, set_count s1 (w_written s1) (w_bodyBytes s1 + n) (w_mustClose s1)).

Definition sendsFile (s : h1Writer) (limited : bool) : bool :=
  negb limited && negb (w_throttled s) && w_headerCalled s && negb (w_suppressBody s) && negb (w_chunked s).

(** The connection: the bytes that wait for the socket ([writeBuf] from
    [writeSent] on; with TLS the bytes that were sealed), a body that is under
    way, and what the socket took. *)
Record fileConn := mkFileConn { fc_tls : bool; fc_unsent : bytes; fc_bodyOut : bytes; fc_lingering : bool; fc_outArmed : bool; fc_wire : bytes }.
Definition set_unsent (c : fileConn) (unsent wire : bytes) : fileConn := mkFileConn (fc_tls c) unsent (fc_bodyOut c) (fc_lingering c) (fc_outArmed c) wire.

(** [h1SendHeadMore]: no more answers is a socket that takes nothing. *)
Fixpoint h1SendLoop (c : fileConn) (answers : list sendAnswer) : bool * fileConn :=
  if 0 <? zlen (fc_unsent c) then
    match answers with
    | saSent n :: answers => let p := fc_unsent c in let k := Z.min (Z.pos n) (zlen p) in h1SendLoop (set_unsent c (zdrop k p) (fc_wire c ++ ztake k p)) answers
    | saIntr :: answers => h1SendLoop c answers
    | saFail :: _ | [] => (false, c)
    end
  else (true, c).
Definition h1SendHeadMore (c : fileConn) (answers : list sendAnswer) : bool * fileConn :=
  if fc_lingering c || fc_outArmed c then (false, c) else h1SendLoop c answers.

Fixpoint h1SendFileLoop (c : fileConn) (s : h1Writer) (file : bytes) (answers : list sendfileAnswer) (progressed : bool) : fileConn * h1Writer :=
  if 0 <? w_fileLeft s then
    match answers with
    | sfMoved n :: answers =>
        let moved := fileGet file (w_fileOff s) (Z.min (w_fileLeft s) h1SendFileMaxCall) n in
        if 0 <? zlen moved then h1SendFileLoop (set_unsent c (fc_unsent c) (fc_wire c ++ moved)) (set_file s (w_fileOff s + zlen moved) (w_fileLeft s - zlen moved)) file answers true
        else (c, failFile s ErrUnexpectedEOF)
    | sfIntr :: answers => h1SendFileLoop c s file answers progressed
    | sfError e :: _ => (c, failFile s e)
    | sfAgain _ :: _ | [] => (c, set_blocked s true progressed)
    end
  else (c, s).

(** [h1SealFile]: [buf] is a pooled buffer of 64 KiB, cut to four records. *)
Fixpoint h1SealLoop (c : fileConn) (s : h1Writer) (file : bytes) (room : Z) (answers : list readAnswer) : fileConn * h1Writer :=
  if (0 <? room) && (0 <? w_fileLeft s) then
    match answers with
    | raRead n :: answers =>
        let got := fileGet file (w_fileOff s) (Z.min (Z.min (Z.min fileReadBufSize h1SealFileChunk) room) (w_fileLeft s)) n in
        if 0 <? zlen got then h1SealLoop (set_unsent c (fc_unsent c ++ got) (fc_wire c)) (set_file s (w_fileOff s + zlen got) (w_fileLeft s - zlen got)) file (room - zlen got) answers
        else (c, failFile s ErrUnexpectedEOF)
    | raIntr :: answers => h1SealLoop c s file room answers
    | raError e :: _ => (c, failFile s e)
    | raAgain :: _ | [] => (c, set_needIO s true)
    end
  else (c, s).

Definition h1PumpFile (c : fileConn) (s : h1Writer) (file : bytes) (room : Z) (sends : list sendAnswer) (files : list sendfileAnswer) (reads : list readAnswer) : fileConn * h1Writer :=
  let s := set_blocked s false (w_fileProgress s) in
  if (w_fileLeft s =? 0) || (0 <? w_buffered s) || w_fileNeedIO s then (c, s)
  else if fc_tls c then if room <=? 0 then (c, s) else h1SealLoop c s file room reads
  else if 0 <? zlen (fc_unsent c) then
    if (0 <? zlen (fc_bodyOut c)) || (h1OutSocketHighMark <? w_fileLeft s) then (c, s)
    else let (sent, c) := h1SendHeadMore c sends in
         if sent then h1SendFileLoop c s file files false else (c, s)
  else h1SendFileLoop c s file files false.

Definition h1WaitTest (s : h1Writer) : h1Writer * fileCall :=
  match w_err s with
  | None => if 0 <? w_fileLeft s then (s, fileWaits) else (set_file s (w_fileOff s) 0, fileReturned true None)
  | Some e => (set_file s (w_fileOff s) 0, fileReturned true (Some e))
  end.
Definition h1SendFileRange (s : h1Writer) (start len : Z) (limited : bool) : h1Writer * fileCall :=
  if negb (sendsFile s limited) then (s, fileReturned false None)
  else if len <=? 0 then (s, fileReturned true None)
  else match admitBody s len with
       | (Some e, s) => (s, fileReturned true (Some e))
       | (None, s) => h1WaitTest (set_file s start len)
       end.

(** The handler wakes up: it reads the file where the loop could not
    ([warmFileLocked], with the result of [warmFileRange]) and tests again. *)
Definition warmFileLocked (s : h1Writer) (warm : option ioError) : h1Writer :=
  let s := set_needIO s false in
  match warm with
  | Some e => match w_err s with None => failFile s e | Some _ => s end
  | None => s
  end.
Definition h1Wake (s : h1Writer) (warm : option ioError) : h1Writer * fileCall :=
  h1WaitTest (if w_fileNeedIO s then warmFileLocked s warm else s).

Inductive h1FileEvent :=
  | fePump (room : Z) (sends : list sendAnswer) (files : list sendfileAnswer) (reads : list readAnswer)
  | feFlush (n : positive)
  | feWake (warm : option ioError)
  | feFail (e : ioError).

(** An event while the handler waits; [h1PumpStream] does nothing for a finished
    writer, and a flush sends bytes that wait. *)
Definition h1FileStep (file : bytes) (st : fileConn * h1Writer * fileCall) (ev : h1FileEvent) : fileConn * h1Writer * fileCall :=
  match st with
  | (c, s, fileWaits) =>
      match ev with
      | fePump room sends files reads => if w_finished s then (c, s, fileWaits) else (h1PumpFile c s file room sends files reads, fileWaits)
      | feFlush n => (set_unsent c (zdrop (Z.pos n) (fc_unsent c)) (fc_wire c ++ ztake (Z.pos n) (fc_unsent c)), s, fileWaits)
      | feWake warm => let (s, call) := h1Wake s warm in (c, s, call)
      | feFail e => (c, h1Fail s e, fileWaits)
      end
  | st => st
  end.
Definition h1FileRun (file : bytes) (c : fileConn) (s : h1Writer) (start len : Z) (limited : bool) (evs : list h1FileEvent) : fileConn * h1Writer * fileCall :=
  let (s, call) := h1SendFileRange s start len limited in fold_left (h1FileStep file) evs (c, s, call).

(** ** HTTP/2 *)

Definition h2FileMaxFrames : Z := 64.
Definition h2StreamStallTimeout : Z := 30000000000.

(** A hole of the output: where it is and how long. *)
Definition iovec : Type := Z * Z.

(** preadv2(2) fills the holes in order. *)
Fixpoint scatter (dst : bytes) (iov : list iovec) (data : bytes) : bytes :=
  match iov with
  | [] => dst
  | (base, len) :: iov => let part := ztake len data in scatter (splice dst base part) iov (zdrop len data)
  end.
Definition iovLen (iov : list iovec) : Z := foldr (fun v n => v.2 + n) 0 iov.

(** The holes that are left when [n] bytes were read; [None] is an index out of
    range. *)
Fixpoint advanceIov (iov : list iovec) (n : Z) : option (list iovec) :=
  match iov with
  | [] => if 0 <? n then None else Some []
  | (base, len) :: rest =>
      if len <=? n then advanceIov rest (n - len)
      else Some (if 0 <? n then (base + n, len - n) :: rest else iov)
  end.

Inductive readError := readAgain | readFailed (e : ioError).

(** [preadvFull]: the output, the bytes it has and the error. *)
Fixpoint preadvFull (file dst : bytes) (iov : list iovec) (off total : Z) (answers : list readAnswer) : option (bytes * Z * option readError) :=
  match iov with
  | [] => Some (dst, total, None)
  | _ =>
      match answers with
      | raRead n :: answers =>
          let data := fileGet file off (iovLen iov) n in
          if zlen data =? 0 then Some (dst, total, None)
          else match advanceIov iov (zlen data) with
               | Some iov' => preadvFull file (scatter dst iov data) iov' (off + zlen data) (total + zlen data) answers
               | None => None
               end
      | raIntr :: answers => preadvFull file dst iov off total answers
      | raError e :: _ => Some (dst, total, Some (readFailed e))
      | raAgain :: _ | [] => Some (dst, total, Some readAgain)
      end
  end.

(** The headers of the frames with a hole behind each; [grown] is what the buffer
    held. *)
Definition hole (grown : bytes) (n : Z) : bytes := ztake n (grown ++ repeat 0 (Z.to_nat n)).
Fixpoint h2FileFrames (fuel : nat) (dst : bytes) (iov : list iovec) (streamID left frameLimit : Z) (grown : bytes) : bytes * list iovec :=
  match fuel with
  | O => (dst, iov)
  | S fuel =>
      if 0 <? left then
        let n := Z.min left frameLimit in
        let dst := appendH2FrameHeader dst H2FrameData 0 streamID n in
        h2FileFrames fuel (dst ++ hole grown n) (iov ++ [(zlen dst, n)]) streamID (left - n) frameLimit grown
      else (dst, iov)
  end.

(** The fields of [epollH2StreamWriter] and [h2FileSend] with the two windows;
    [x_mark] is the local of [waitFileLocked]. *)
Record h2Writer := mkH2Writer {
  x_headerCalled : bool;
  x_suppressBody : bool;
  x_maxWrite : Z;
  x_written : Z;
  x_ended : bool;
  x_finished : bool;
  x_err : option ioError;
  x_sendRST : bool;
  x_streamID : Z;
  x_off : Z;
  x_left : Z;
  x_needIO : bool;
  x_stallFired : bool;
  x_armedAt : Z;
  x_mark : Z;
  x_window : Z;
  x_connWindow : Z }.
Definition xfile (s : h2Writer) (off left : Z) (needIO : bool) (window connWindow : Z) : h2Writer :=
  mkH2Writer (x_headerCalled s) (x_suppressBody s) (x_maxWrite s) (x_written s) (x_ended s) (x_finished s) (x_err s) (x_sendRST s) (x_streamID s) off left needIO (x_stallFired s) (x_armedAt s) (x_mark s) window connWindow.
Definition xerr (s : h2Writer) (e : option ioError) (rst finished : bool) (left : Z) : h2Writer :=
  mkH2Writer (x_headerCalled s) (x_suppressBody s) (x_maxWrite s) (x_written s) (x_ended s) finished e rst (x_streamID s) (x_off s) left (x_needIO s) (x_stallFired s) (x_armedAt s) (x_mark s) (x_window s) (x_connWindow s).
Definition xstall (s : h2Writer) (fired : bool) (armedAt mark : Z) : h2Writer :=
  mkH2Writer (x_headerCalled s) (x_suppressBody s) (x_maxWrite s) (x_written s) (x_ended s) (x_finished s) (x_err s) (x_sendRST s) (x_streamID s) (x_off s) (x_left s) (x_needIO s) fired armedAt mark (x_window s) (x_connWindow s).
Definition xwritten (s : h2Writer) (n : Z) : h2Writer :=
  mkH2Writer (x_headerCalled s) (x_suppressBody s) (x_maxWrite s) n (x_ended s) (x_finished s) (x_err s) (x_sendRST s) (x_streamID s) (x_off s) (x_left s) (x_needIO s) (x_stallFired s) (x_armedAt s) (x_mark s) (x_window s) (x_connWindow s).

Definition h2PumpFile (file dst : bytes) (s : h2Writer) (room frameLimit : Z) (grown : bytes) (answers : list readAnswer) : option (bytes * h2Writer) :=
  let avail := Z.min (Z.min (Z.min (Z.min (x_window s) (x_connWindow s)) (x_left s)) room) (frameLimit * h2FileMaxFrames) in
  if (avail <=? 0) || x_needIO s then Some (dst, s)
  else
    let '(out, iov) := h2FileFrames (Z.to_nat avail) dst [] (x_streamID s) avail frameLimit grown in
    match preadvFull file out iov (x_off s) 0 answers with
    | None => None
    | Some (out, got, err) =>
        let short := match err with Some readAgain => true | None => (0 <? got) && (got <? avail) | _ => false end in
        if short then Some (ztake (zlen dst) out, xfile s (x_off s) (x_left s) true (x_window s) (x_connWindow s))
        else match err with
             | Some (readFailed e) => Some (ztake (zlen dst) out, xerr s (Some e) true (x_finished s) 0)
             | _ => if negb (got =? avail) then Some (ztake (zlen dst) out, xerr s (Some ErrUnexpectedEOF) true (x_finished s) 0)
                    else Some (out, xfile s (x_off s + avail) (x_left s - avail) (x_needIO s) (x_window s - avail) (x_connWindow s - avail))
             end
    end.

Definition armFileStallLocked (s : h2Writer) (now mark : Z) : h2Writer := xstall s false now mark.

(** The test of the loop of [waitFileLocked], and the return of
    [sendFileRange]. *)
Definition h2WaitTest (s : h2Writer) : h2Writer * fileCall :=
  match x_err s with
  | None => if 0 <? x_left s then (s, fileWaits) else (xfile s (x_off s) 0 (x_needIO s) (x_window s) (x_connWindow s), fileReturned true None)
  | Some e => (xfile s (x_off s) 0 (x_needIO s) (x_window s) (x_connWindow s), fileReturned true (Some e))
  end.
Definition h2SendFileRange (s : h2Writer) (start len : Z) (limited : bool) (now : Z) : h2Writer * fileCall :=
  if limited || negb (x_headerCalled s) || x_suppressBody s then (s, fileReturned false None)
  else if len <=? 0 then (s, fileReturned true None)
  else
    let s := if 0 <? x_maxWrite s then xwritten s (x_written s + len) else s in
    if (0 <? x_maxWrite s) && (x_maxWrite s <? x_written s) then (s, fileReturned true (Some ErrBodyTooLarge))
    else match x_err s with
         | Some e => (s, fileReturned true (Some e))
         | None => if x_ended s then (s, fileReturned true (Some ErrStreamClosed))
                   else h2WaitTest (armFileStallLocked (xfile s start len (x_needIO s) (x_window s) (x_connWindow s)) now start)
         end.

Definition h2WarmFile (s : h2Writer) (warm : option ioError) : h2Writer :=
  let s := xfile s (x_off s) (x_left s) false (x_window s) (x_connWindow s) in
  match warm with
  | Some e => match x_err s with None => xerr s (Some e) true (x_finished s) 0 | Some _ => s end
  | None => s
  end.
(** A turn of [waitFileLocked]; a stall is an error only when nothing was read
    since the timer was armed. *)
Definition h2Wake (s : h2Writer) (warm : option ioError) (now : Z) : h2Writer * fileCall :=
  let s := if x_needIO s then h2WarmFile s warm else s in
  h2WaitTest
    (if negb (x_stallFired s) then s
     else let s := xstall s false (x_armedAt s) (x_mark s) in
          if now - x_armedAt s <? h2StreamStallTimeout ÷ 2 then s
          else if x_off s =? x_mark s then xerr s (Some errH2StreamStalled) true (x_finished s) (x_left s)
          else armFileStallLocked s now (x_off s)).

Inductive h2FileEvent :=
  | xePump (room frameLimit : Z) (grown : bytes) (answers : list readAnswer)
  | xeWindow (stream conn : Z)
  | xeWake (warm : option ioError) (now : Z)
  | xeStall
  | xeFail (e : ioError).

(** An event while the handler waits, with the output of the connection. The
    windows change by what the peer and other streams do; a pump that finds an
    error ends the stream, which is not part of the file. *)
Definition h2FileStep (file : bytes) (st : option (bytes * h2Writer * fileCall)) (ev : h2FileEvent) : option (bytes * h2Writer * fileCall) :=
  match st with
  | Some (out, s, fileWaits) =>
      match ev with
      | xePump room frameLimit grown answers =>
          if x_finished s || bool_decide (is_Some (x_err s)) then Some (out, s, fileWaits)
          else if 0 <? x_left s then
            match h2PumpFile file out s room (if frameLimit <=? 0 then H2DefaultMaxFrameSize else frameLimit) grown answers with
            | Some (out, s) => Some (out, s, fileWaits)
            | None => None
            end
          else Some (out, s, fileWaits)
      | xeWindow stream conn => Some (out, xfile s (x_off s) (x_left s) (x_needIO s) (x_window s + stream) (x_connWindow s + conn), fileWaits)
      | xeWake warm now => let (s, call) := h2Wake s warm now in Some (out, s, call)
      | xeStall => Some (out, xstall s true (x_armedAt s) (x_mark s), fileWaits)
      | xeFail e => Some (out, xerr s (match x_err s with None => Some e | err => err end) (x_sendRST s) true (x_left s), fileWaits)
      end
  | st => st
  end.
Definition h2FileRun (file out : bytes) (s : h2Writer) (start len : Z) (limited : bool) (now : Z) (evs : list h2FileEvent) : option (bytes * h2Writer * fileCall) :=
  let (s, call) := h2SendFileRange s start len limited now in fold_left (h2FileStep file) evs (Some (out, s, call)).
