(* ===== verification/FileSendProofs.v ===== *)
(** Proofs about files sent by the event loop: whatever the kernel answers and
    however the loop and the handler interleave, the connection gets the bytes of
    the range in order, and the handler is told nothing but the truth. *)
From stdpp Require Import base list numbers strings.
From Stdlib Require Import ZArith Lia ZifyBool.
From S2P Require Import Prelude Utils H2Frame ServeContent ServeContentProofs FileSend.

Open Scope list_scope.
Open Scope Z_scope.

(** ** Slices that grow *)

Lemma slice_extend {A} (file : list A) start off n : 0 <= start <= off -> zlen (zslice file start off) = off - start -> 0 <= n ->
  let d := ztake n (zdrop off file) in zslice file start (off + zlen d) = zslice file start off ++ d /\ zlen (zslice file start (off + zlen d)) = off + zlen d - start.
Proof.
  intros Hs Hl Hn d. pose proof (zlen_nonneg d). assert (E : zslice file start (off + zlen d) = zslice file start off ++ d); [| split; [done |]; rewrite E, zlen_app; lia].
  unfold zslice in *. assert (Hd : zdrop off file = zdrop (off - start) (zdrop start file)) by (rewrite zdrop_zdrop by lia; f_equal; lia). unfold d in *. rewrite Hd in *. clear d Hd. set (l := zdrop start file) in *. clearbody l.
  replace (off + zlen (ztake n (zdrop (off - start) l)) - start) with (off - start + zlen (ztake n (zdrop (off - start) l))) by lia.
  set (k := off - start) in *. assert (0 <= k) by lia. clearbody k. clear Hs. unfold ztake, zdrop, zlen in *. rewrite length_take in Hl. rewrite length_take, length_drop.
  replace (Z.to_nat (k + Z.of_nat (Z.to_nat n `min` (length l - Z.to_nat k)))) with (Z.to_nat k + (Z.to_nat n `min` (length l - Z.to_nat k)))%nat by lia.
  rewrite <- take_take_drop. f_equal. destruct (decide (Z.to_nat n <= length l - Z.to_nat k)%nat); [by rewrite Nat.min_l by lia | rewrite Nat.min_r by lia; rewrite !take_ge; [done | rewrite length_drop; lia | rewrite length_drop; lia]].
Qed.

Lemma fileGet_le file off want n : 0 <= want -> zlen (fileGet file off want n) <= want.
Proof. intros H. unfold fileGet, zlen, ztake. rewrite length_take. lia. Qed.

(** ** HTTP/1 *)

Section H1.
Context (file before : bytes) (start len : Z).

(** The bytes of the connection: what it had, then the range up to the offset. *)
Definition h1_sent (c : fileConn) (s : h1Writer) : Prop :=
  fc_bodyOut c = [] /\ 0 <= start <= w_fileOff s /\ 0 <= w_fileLeft s /\ w_fileOff s + w_fileLeft s <= start + len /\
  fc_wire c ++ fc_unsent c = before ++ zslice file start (w_fileOff s) /\ zlen (zslice file start (w_fileOff s)) = w_fileOff s - start /\
  (w_err s = None -> w_fileOff s + w_fileLeft s = start + len).
Definition h1_call (s : h1Writer) (call : fileCall) : Prop :=
  match call with fileReturned true None => w_fileOff s = start + len | fileReturned false _ => False | _ => True end.
Definition h1_inv (st : fileConn * h1Writer * fileCall) : Prop :=
  let '(c, s, call) := st in match call with fileWaits => h1_sent c s | _ => h1_call s call /\ 0 <= start <= w_fileOff s /\ w_fileOff s <= start + len /\ fc_bodyOut c = [] /\ fc_wire c ++ fc_unsent c = before ++ zslice file start (w_fileOff s) /\ zlen (zslice file start (w_fileOff s)) = w_fileOff s - start end.

Lemma h1_moved c c' s d n : h1_sent c s -> d = ztake n (zdrop (w_fileOff s) file) -> 0 <= n -> zlen d <= w_fileLeft s -> fc_bodyOut c' = fc_bodyOut c -> fc_wire c' ++ fc_unsent c' = (fc_wire c ++ fc_unsent c) ++ d ->
  h1_sent c' (set_file s (w_fileOff s + zlen d) (w_fileLeft s - zlen d)).
Proof.
  intros (HB & H1 & H2 & H3 & H4 & H5 & H6) -> Hn Hd HB' Hc. pose proof (zlen_nonneg (ztake n (zdrop (w_fileOff s) file))). destruct (slice_extend file start (w_fileOff s) n H1 H5 Hn) as [E1 E2].
  unfold h1_sent. cbn [set_file w_fileOff w_fileLeft w_err]. split_and!; try lia; [congruence | by rewrite Hc, H4, E1, app_assoc |]. intros He. specialize (H6 He). lia.
Qed.

Lemma h1_failed c s e : h1_sent c s -> h1_sent c (failFile s e).
Proof. intros (HB & H1 & H2 & H3 & H4 & H5 & H6). unfold h1_sent, failFile. cbn [set_err w_fileOff w_fileLeft w_err]. split_and!; (lia || done). Qed.

Lemma send_loop_stream c answers : let (ok, c') := h1SendLoop c answers in fc_bodyOut c' = fc_bodyOut c /\ fc_wire c' ++ fc_unsent c' = fc_wire c ++ fc_unsent c /\ (ok = true -> fc_unsent c' = []).
Proof.
  revert c. assert (N : forall c, (0 <? zlen (fc_unsent c)) = false -> fc_unsent c = []) by (intros c H; destruct (fc_unsent c) as [| b u]; [done | rewrite zlen_cons in H; pose proof (zlen_nonneg u); lia]).
  induction answers as [| a answers IH]; intros c; cbn [h1SendLoop]; destruct (0 <? zlen (fc_unsent c)) eqn:E; try (split_and!; [done | done | intros _; by apply N]); [done |].
  destruct a as [n | |]; [| apply IH | done]. cbv zeta. specialize (IH (set_unsent c (zdrop (Z.min (Z.pos n) (zlen (fc_unsent c))) (fc_unsent c)) (fc_wire c ++ ztake (Z.min (Z.pos n) (zlen (fc_unsent c))) (fc_unsent c)))).
  destruct (h1SendLoop _ _) as [ok c']. destruct IH as (IH0 & IH1 & IH2). split_and!; [done | | done]. rewrite IH1. cbn [set_unsent fc_wire fc_unsent]. by rewrite <- app_assoc, ztake_zdrop.
Qed.

Lemma sendfile_pump c s answers progressed : h1_sent c s -> fc_unsent c = [] -> let (c', s') := h1SendFileLoop c s file answers progressed in h1_sent c' s'.
Proof.
  assert (0 < h1SendFileMaxCall) as Hmax by done. revert c s progressed. induction answers as [| a answers IH]; intros c s progressed H Hu; cbn [h1SendFileLoop]; destruct (0 <? w_fileLeft s) eqn:E; try done.
  destruct a as [n | | w | e]; [| by apply IH | done | by apply h1_failed]. set (m := fileGet file (w_fileOff s) _ n).
  assert (zlen m <= w_fileLeft s) by (pose proof (fileGet_le file (w_fileOff s) (Z.min (w_fileLeft s) h1SendFileMaxCall) n ltac:(lia)); unfold m; lia).
  destruct (0 <? zlen m); [| by apply h1_failed]. apply IH; [| done]. eapply (h1_moved c _ s m); [done | reflexivity | lia | done | done |]. cbn [set_unsent fc_wire fc_unsent]. by rewrite Hu, !app_nil_r.
Qed.

Lemma seal_pump c s room answers : h1_sent c s -> let (c', s') := h1SealLoop c s file room answers in h1_sent c' s'.
Proof.
  revert c s room. induction answers as [| a answers IH]; intros c s room H; cbn [h1SealLoop]; destruct ((0 <? room) && (0 <? w_fileLeft s)) eqn:E; try done.
  destruct a as [n | | | e]; [| done | by apply IH | by apply h1_failed]. set (m := fileGet file (w_fileOff s) _ n).
  assert (zlen m <= w_fileLeft s). { pose proof (fileGet_le file (w_fileOff s) (Z.min (Z.min (Z.min fileReadBufSize h1SealFileChunk) room) (w_fileLeft s)) n ltac:(unfold fileReadBufSize, h1SealFileChunk; lia)). unfold m. lia. }
  destruct (0 <? zlen m); [| by apply h1_failed]. apply IH. eapply (h1_moved c _ s m); [done | reflexivity | unfold fileReadBufSize, h1SealFileChunk; lia | done | done |]. cbn [set_unsent fc_wire fc_unsent]. by rewrite app_assoc.
Qed.

Lemma pump_keeps c s room sends files reads : h1_sent c s -> let (c', s') := h1PumpFile c s file room sends files reads in h1_sent c' s'.
Proof.
  intros H. unfold h1PumpFile. set (s1 := set_blocked s false (w_fileProgress s)). assert (H1 : h1_sent c s1) by done. clearbody s1.
  destruct ((w_fileLeft s1 =? 0) || (0 <? w_buffered s1) || w_fileNeedIO s1); [done |]. destruct (fc_tls c). { destruct (room <=? 0); [done |]. by apply seal_pump. }
  destruct (0 <? zlen (fc_unsent c)) eqn:E.
  - destruct ((0 <? zlen (fc_bodyOut c)) || (h1OutSocketHighMark <? w_fileLeft s1)); [done |]. unfold h1SendHeadMore. destruct (fc_lingering c || fc_outArmed c); [done |].
    pose proof (send_loop_stream c sends) as G. destruct (h1SendLoop c sends) as [ok c']. destruct G as (G0 & G1 & G2).
    assert (H2 : h1_sent c' s1) by (destruct H1 as (Z & A & B & C & D & F & G); unfold h1_sent; by rewrite G0, G1). destruct ok; [| done]. apply sendfile_pump; [done | by apply G2].
  - apply sendfile_pump; [done |]. destruct (fc_unsent c) as [| b u]; [done |]. rewrite zlen_cons in E. pose proof (zlen_nonneg u). lia.
Qed.

Lemma wait_test_inv c s : h1_sent c s -> let (s', call) := h1WaitTest s in h1_inv (c, s', call).
Proof.
  intros (HB & H1 & H2 & H3 & H4 & H5 & H6). unfold h1WaitTest. destruct (w_err s) as [e |] eqn:Ee; cbn; [split_and!; (done || lia) |]. specialize (H6 eq_refl).
  destruct (0 <? w_fileLeft s) eqn:E; cbn; [unfold h1_sent; rewrite Ee; split_and!; (lia || done) |]. split_and!; (lia || done).
Qed.

Lemma h1_step_inv st ev : h1_inv st -> h1_inv (h1FileStep file st ev).
Proof.
  destruct st as [[c s] [sent e |]]; [done |]. intros H. cbn in H. destruct ev as [room sends files reads | n | warm | e]; cbn [h1FileStep].
  - destruct (w_finished s); [done |]. pose proof (pump_keeps c s room sends files reads H) as G. by destruct (h1PumpFile c s file room sends files reads).
  - destruct H as (HB & H1 & H2 & H3 & H4 & H5 & H6). cbn. unfold h1_sent. cbn [set_unsent fc_wire fc_unsent]. rewrite <- app_assoc, ztake_zdrop. split_and!; (lia || done).
  - unfold h1Wake. set (s1 := if w_fileNeedIO s then warmFileLocked s warm else s). assert (h1_sent c s1) as H1.
    { unfold s1. destruct (w_fileNeedIO s); [| done]. unfold warmFileLocked. destruct warm as [e |]; [| done]. cbn [set_needIO w_err]. destruct (w_err s); [done |]. by apply (h1_failed c (set_needIO s false)). }
    pose proof (wait_test_inv c s1 H1) as G. by destruct (h1WaitTest s1).
  - destruct H as (HB & H1 & H2 & H3 & H4 & H5 & H6). cbn. unfold h1_sent, h1Fail. cbn [set_err w_fileOff w_fileLeft w_err]. split_and!; try done; try lia. destruct (w_err s); [done |]. done.
Qed.

Lemma h1_run_inv evs st : h1_inv st -> h1_inv (fold_left (h1FileStep file) evs st).
Proof. revert st. induction evs as [| ev evs IH]; intros st H; [done |]. cbn [fold_left]. by apply IH, h1_step_inv. Qed.
End H1.

(** ** Reading into the holes of frames *)

Lemma splice_length l p d : 0 <= p -> p + zlen d <= zlen l -> zlen (splice l p d) = zlen l.
Proof. intros H1 H2. pose proof (zlen_nonneg d). unfold splice. rewrite !zlen_app, zlen_take, zlen_drop by lia. lia. Qed.

Lemma splice_nil l p : 0 <= p <= zlen l -> splice l p [] = l.
Proof. intros H. unfold splice. change (zlen (@nil Z)) with 0. rewrite Z.add_0_r. apply ztake_zdrop. Qed.

Lemma split_at {A} (l : list A) n : 0 <= n <= zlen l -> exists a b, l = a ++ b /\ zlen a = n.
Proof. intros H. exists (ztake n l), (zdrop n l). rewrite ztake_zdrop. split; [done |]. by apply zlen_take. Qed.

Lemma splice_twice l p a b : 0 <= p -> p + zlen a + zlen b <= zlen l -> splice (splice l p a) (p + zlen a) b = splice l p (a ++ b).
Proof.
  intros Hp Hl. pose proof (zlen_nonneg a). pose proof (zlen_nonneg b). destruct (split_at l p ltac:(lia)) as (x & y & -> & <-). rewrite zlen_app in Hl.
  destruct (split_at y (zlen a) ltac:(lia)) as (ya & y' & -> & Ha). rewrite zlen_app in Hl. destruct (split_at y' (zlen b) ltac:(lia)) as (yb & yc & -> & Hb).
  rewrite splice_mid by done. replace (zlen x + zlen a) with (zlen (x ++ a)) by by rewrite zlen_app. replace (x ++ a ++ yb ++ yc) with ((x ++ a) ++ yb ++ yc) by by rewrite <- app_assoc.
  rewrite splice_mid by done. replace (x ++ ya ++ yb ++ yc) with (x ++ (ya ++ yb) ++ yc) by by rewrite <- !app_assoc. rewrite splice_mid by (rewrite !zlen_app; lia). by rewrite <- !app_assoc.
Qed.

Definition holes_in (dst : bytes) (iov : list iovec) : Prop := Forall (fun v => 0 <= v.1 /\ 0 <= v.2 /\ v.1 + v.2 <= zlen dst) iov.

Lemma iovLen_nonneg dst iov : holes_in dst iov -> 0 <= iovLen iov.
Proof. induction 1 as [| v iov Hv _ IH]; [done |]. cbn [iovLen foldr]. fold (iovLen iov). lia. Qed.

Lemma scatter_nil dst iov : holes_in dst iov -> scatter dst iov [] = dst.
Proof.
  revert dst. induction iov as [| [base len] iov IH]; intros dst H; [done |]. apply Forall_cons_1 in H as [H1 H2]. cbn [scatter fst snd] in *. unfold ztake, zdrop. rewrite take_nil, drop_nil.
  rewrite splice_nil by lia. by apply IH.
Qed.

Lemma zlen_take_max {A} n (l : list A) : 0 <= n -> zlen (ztake n l) <= n.
Proof. intros H. unfold zlen, ztake. rewrite length_take. lia. Qed.

Lemma holes_splice dst iov p d : 0 <= p -> p + zlen d <= zlen dst -> holes_in dst iov -> holes_in (splice dst p d) iov.
Proof. intros H1 H2. unfold holes_in. by rewrite splice_length. Qed.

Lemma scatter_length dst iov data : holes_in dst iov -> zlen (scatter dst iov data) = zlen dst.
Proof.
  revert dst data. induction iov as [| [base len] iov IH]; intros dst data H; [done |]. apply Forall_cons_1 in H as [H1 H2]. cbn [scatter fst snd] in *. pose proof (zlen_take_max len data ltac:(lia)).
  rewrite IH by (apply holes_splice; (lia || done)). apply splice_length; lia.
Qed.

(** Two reads, the second into the holes that the first left, are one read. *)
Lemma scatter_advance dst iov d1 d2 : holes_in dst iov -> zlen d1 <= iovLen iov ->
  exists iov', advanceIov iov (zlen d1) = Some iov' /\ holes_in dst iov' /\ iovLen iov' = iovLen iov - zlen d1 /\ scatter (scatter dst iov d1) iov' d2 = scatter dst iov (d1 ++ d2).
Proof.
  revert dst d1. induction iov as [| [base len] iov IH]; intros dst d1 H Hl; pose proof (zlen_nonneg d1).
  { cbn in Hl. replace (zlen d1) with 0 by lia. exists []. assert (d1 = []) as -> by (destruct d1; [done | rewrite zlen_cons in *; pose proof (zlen_nonneg d1); lia]). by cbn. }
  apply Forall_cons_1 in H as [H1 H2]. cbn [advanceIov scatter iovLen foldr fst snd] in *. fold (iovLen iov) in *. destruct (len <=? zlen d1) eqn:E.
  - destruct (split_at d1 len ltac:(lia)) as (a & b & -> & Ha). rewrite zlen_app in Hl |- *. rewrite <- Ha, ztake_app_exact, zdrop_app_exact.
    replace (zlen a + zlen b - zlen a) with (zlen b) by lia. destruct (IH (splice dst base a) b) as (iov' & E1 & E2 & E3 & E4); [apply holes_splice; (lia || done) | lia |].
    exists iov'. rewrite <- app_assoc, ztake_app_exact, zdrop_app_exact. split_and!; [done | unfold holes_in in *; by rewrite splice_length in E2 by lia | lia | done].
  - assert (ztake len d1 = d1) as -> by (unfold ztake; apply take_ge; unfold zlen in *; lia). assert (zdrop len d1 = []) as -> by (apply zdrop_all; lia). rewrite scatter_nil by (apply holes_splice; (lia || done)).
    assert (T : ztake len (d1 ++ d2) = d1 ++ ztake (len - zlen d1) d2) by (unfold ztake; rewrite take_app, (take_ge d1) by (unfold zlen in *; lia); do 2 f_equal; unfold zlen; lia).
    assert (D : zdrop len (d1 ++ d2) = zdrop (len - zlen d1) d2) by (unfold zdrop; rewrite drop_app, (drop_ge d1) by (unfold zlen in *; lia); cbn; f_equal; unfold zlen; lia).
    destruct (0 <? zlen d1) eqn:E0.
    + eexists. split; [done |]. cbn [iovLen foldr scatter fst snd]. fold (iovLen iov). split_and!; [constructor; [cbn; lia | done] | lia |]. pose proof (zlen_take_max (len - zlen d1) d2 ltac:(lia)). rewrite splice_twice by lia. by rewrite T, D.
    + assert (d1 = []) as -> by (destruct d1; [done | rewrite zlen_cons in *; pose proof (zlen_nonneg d1); lia]). eexists. split; [done |]. change (zlen (@nil Z)) with 0 in *. cbn [iovLen foldr scatter fst snd app]. fold (iovLen iov). split_and!; [by constructor | lia |]. by rewrite splice_nil by lia.
Qed.

Lemma preadv_spec file iov off total answers dst : holes_in dst iov -> 0 <= off ->
  exists out got err, preadvFull file dst iov off total answers = Some (out, got, err) /\ total <= got <= total + iovLen iov /\
    zlen (ztake (got - total) (zdrop off file)) = got - total /\ out = scatter dst iov (ztake (got - total) (zdrop off file)) /\ zlen out = zlen dst.
Proof.
  revert dst iov off total. induction answers as [| a answers IH]; intros dst iov off total H Ho; cbn [preadvFull].
  all: assert (Z0 : forall err : option readError, exists out got err', Some (dst, total, err) = Some (out, got, err') /\ total <= got <= total + iovLen iov /\
    zlen (ztake (got - total) (zdrop off file)) = got - total /\ out = scatter dst iov (ztake (got - total) (zdrop off file)) /\ zlen out = zlen dst)
    by (intros err; pose proof (iovLen_nonneg dst iov H); exists dst, total, err; rewrite Z.sub_diag; split_and!; [done | lia | lia | done | by change (ztake 0 (zdrop off file)) with (@nil Z); rewrite scatter_nil | done]).
  { destruct iov; apply Z0. }
  destruct iov as [| v iov]; [apply Z0 |]. set (iv := v :: iov) in *. destruct a as [n | | | e]; [| apply Z0 | by apply IH | apply Z0]. cbv zeta.
  pose proof (iovLen_nonneg dst iv H) as Hnn. pose proof (fileGet_le file off (iovLen iv) n Hnn) as Hle. set (d := fileGet file off (iovLen iv) n) in *. destruct (zlen d =? 0) eqn:Ed; [apply Z0 |].
  pose proof (zlen_nonneg d). destruct (scatter_advance dst iv d [] H Hle) as (iov' & E1 & E2 & E3 & _). rewrite E1.
  destruct (IH (scatter dst iv d) iov' (off + zlen d) (total + zlen d)) as (out & got & err & F1 & F2 & F3 & F4 & F5); [unfold holes_in; by rewrite scatter_length | lia |].
  exists out, got, err. split; [done |]. split; [lia |]. set (d2 := ztake (got - (total + zlen d)) (zdrop (off + zlen d) file)) in *.
  assert (T : ztake (got - total) (zdrop off file) = d ++ d2).
  { destruct (slice_extend file off (off + zlen d) (got - (total + zlen d)) ltac:(lia)) as [S1 _]; [| lia |].
    - unfold zslice. replace (off + zlen d - off) with (zlen d) by lia. unfold d, fileGet, zlen, ztake. rewrite !length_take. lia.
    - fold d2 in S1. rewrite F3 in S1. unfold zslice in S1. replace (off + zlen d + (got - (total + zlen d)) - off) with (got - total) in S1 by lia. rewrite S1. f_equal.
      replace (off + zlen d - off) with (zlen d) by lia. unfold d, fileGet, zlen, ztake. rewrite length_take. rewrite Nat2Z.id. destruct (decide (Z.to_nat (Z.min (Z.pos n) (iovLen iv)) <= length (zdrop off file))%nat); [by rewrite Nat.min_l | by rewrite Nat.min_r, !take_ge by lia]. }
  rewrite T. split; [rewrite zlen_app; lia |]. split; [| rewrite F5; by apply scatter_length]. rewrite F4. destruct (scatter_advance dst iv d d2 H Hle) as (iov'' & G1 & _ & _ & G4). rewrite E1 in G1. injection G1 as <-. done.
Qed.

(** ** Frames *)

Definition fileFrame (id : Z) (p : bytes) : bytes := appendH2Frame [] H2FrameData 0 id p.
Definition fileFrames (id : Z) (ps : list bytes) : bytes := concat (map (fileFrame id) ps).
Definition blankFrames (id : Z) (grown : bytes) (ns : list Z) : bytes := concat (map (fun n => putH2FrameHeader H2FrameData 0 id n ++ hole grown n) ns).
Fixpoint frameSizes (fuel : nat) (left limit : Z) : list Z :=
  match fuel with O => [] | S fuel => if 0 <? left then Z.min left limit :: frameSizes fuel (left - Z.min left limit) limit else [] end.
Fixpoint holesAt (base : Z) (ns : list Z) : list iovec := match ns with [] => [] | n :: ns => (base + 9, n) :: holesAt (base + 9 + n) ns end.
Fixpoint cutBytes (ns : list Z) (data : bytes) : list bytes := match ns with [] => [] | n :: ns => ztake n data :: cutBytes ns (zdrop n data) end.
Definition total (ns : list Z) : Z := foldr Z.add 0 ns.

Lemma total_nonneg ns : Forall (fun n => 0 <= n) ns -> 0 <= total ns.
Proof. unfold total. induction 1 as [| n ns Hn _ IH]; [done |]. cbn [foldr]. lia. Qed.
Lemma header_len id n : zlen (putH2FrameHeader H2FrameData 0 id n) = 9.
Proof. done. Qed.
Lemma hole_len grown n : 0 <= n -> zlen (hole grown n) = n.
Proof. intros H. unfold hole. apply zlen_take. rewrite zlen_app. unfold zlen at 2. rewrite repeat_length. pose proof (zlen_nonneg grown). lia. Qed.

Lemma frames_spec fuel dst iov id left limit grown : 0 < limit -> h2FileFrames fuel dst iov id left limit grown =
  (dst ++ blankFrames id grown (frameSizes fuel left limit), iov ++ holesAt (zlen dst) (frameSizes fuel left limit)).
Proof.
  intros Hl. revert dst iov left. induction fuel as [| fuel IH]; intros dst iov left; cbn [h2FileFrames frameSizes]; [by rewrite !app_nil_r |]. destruct (0 <? left) eqn:E; [| by rewrite !app_nil_r].
  rewrite IH. unfold appendH2FrameHeader, blankFrames. cbn [map concat holesAt]. rewrite !zlen_app, header_len, hole_len by lia. by rewrite <- !app_assoc.
Qed.

Lemma sizes_spec fuel left limit : 0 < limit -> 0 <= left <= Z.of_nat fuel -> total (frameSizes fuel left limit) = left /\ Forall (fun n => 1 <= n <= limit) (frameSizes fuel left limit).
Proof.
  intros Hl. revert left. induction fuel as [| fuel IH]; intros left H; cbn [frameSizes]; [split; [cbn; lia | constructor] |]. destruct (0 <? left) eqn:E; [| split; [cbn; lia | constructor]].
  destruct (IH (left - Z.min left limit) ltac:(lia)) as [I1 I2]. cbn [total foldr]. fold (total (frameSizes fuel (left - Z.min left limit) limit)). split; [lia | constructor; [lia | done]].
Qed.

Lemma holesAt_spec ns base (pre x : bytes) : Forall (fun n => 0 <= n) ns -> zlen pre <= base -> 0 <= base -> base + total ns + 9 * zlen ns = zlen (pre ++ x) ->
  holes_in (pre ++ x) (holesAt base ns) /\ iovLen (holesAt base ns) = total ns /\ Forall (fun v => zlen pre <= v.1) (holesAt base ns).
Proof.
  revert base. induction ns as [| n ns IH]; intros base Hn Hb H0 Hz; [split_and!; constructor |]. apply Forall_cons_1 in Hn as [Hn Hns]. cbn [holesAt total foldr iovLen] in *. fold (total ns) in *. fold (iovLen (holesAt (base + 9 + n) ns)). rewrite zlen_cons in Hz.
  pose proof (total_nonneg ns Hns). pose proof (zlen_nonneg ns).
  destruct (IH (base + 9 + n) Hns ltac:(lia) ltac:(lia) ltac:(lia)) as (I1 & I2 & I3). split_and!; [constructor; [cbn; lia | done] | cbn; lia | constructor; [cbn; lia | done]].
Qed.

Lemma scatter_frames id grown ns pre data : Forall (fun n => 0 <= n) ns -> zlen data = total ns ->
  scatter (pre ++ blankFrames id grown ns) (holesAt (zlen pre) ns) data = pre ++ fileFrames id (cutBytes ns data).
Proof.
  revert pre data. induction ns as [| n ns IH]; intros pre data Hn Hd; [done |]. apply Forall_cons_1 in Hn as [Hn Hns]. cbn [total foldr] in Hd. fold (total ns) in Hd.
  pose proof (total_nonneg ns Hns).
  unfold blankFrames. cbn [map concat holesAt scatter cutBytes]. fold (blankFrames id grown ns). set (h := putH2FrameHeader H2FrameData 0 id n).
  assert (Hp : zlen (ztake n data) = n) by (apply zlen_take; lia).
  replace (pre ++ (h ++ hole grown n) ++ blankFrames id grown ns) with ((pre ++ h) ++ hole grown n ++ blankFrames id grown ns) by by rewrite <- !app_assoc.
  replace (zlen pre + 9) with (zlen (pre ++ h)) by by rewrite zlen_app. rewrite splice_mid by (rewrite hole_len; lia).
  replace (zlen (pre ++ h) + n) with (zlen ((pre ++ h) ++ ztake n data)) by (rewrite zlen_app; lia). rewrite app_assoc, IH by (done || (rewrite zlen_drop; lia)).
  unfold fileFrames. cbn [map concat]. unfold fileFrame at 2, appendH2Frame. rewrite Hp. cbn [app]. by rewrite <- !app_assoc.
Qed.

Lemma scatter_prefix (pre x : bytes) iov data : Forall (fun v => zlen pre <= v.1) iov -> exists x', scatter (pre ++ x) iov data = pre ++ x'.
Proof.
  intros H. revert x data. induction H as [| [base len] iov Hv _ IH]; intros x data; [by exists x |]. cbn [scatter fst] in *. unfold splice.
  assert (ztake base (pre ++ x) = pre ++ ztake (base - zlen pre) x) as -> by (unfold ztake; rewrite take_app, (take_ge pre) by (unfold zlen in *; lia); do 2 f_equal; unfold zlen; lia). rewrite <- app_assoc. apply IH.
Qed.

Lemma concat_cut ns data : zlen data = total ns -> Forall (fun n => 0 <= n) ns -> concat (cutBytes ns data) = data.
Proof.
  revert data. induction ns as [| n ns IH]; intros data Hd Hn; cbn [cutBytes concat total foldr] in *. { destruct data; [done | rewrite zlen_cons in Hd; pose proof (zlen_nonneg data); lia]. }
  apply Forall_cons_1 in Hn as [Hn Hns]. fold (total ns) in Hd. pose proof (total_nonneg ns Hns). rewrite IH; [apply ztake_zdrop | rewrite zlen_drop; lia | done].
Qed.

Lemma cut_sizes limit ns data : zlen data = total ns -> Forall (fun n => 1 <= n <= limit) ns -> Forall (fun p => 1 <= zlen p <= limit) (cutBytes ns data).
Proof.
  revert data. induction ns as [| n ns IH]; intros data Hd Hn; [constructor |]. apply Forall_cons_1 in Hn as [Hn Hns]. cbn [cutBytes total foldr] in *. fold (total ns) in Hd. assert (0 <= total ns) by (apply total_nonneg; eapply List.Forall_impl; [| exact Hns]; intros m Hm; cbv beta in *; lia).
  constructor; [rewrite zlen_take; lia | apply IH; [rewrite zlen_drop; lia | done]].
Qed.

(** A pump of a file: nothing, or frames of the next bytes within both windows;
    no index is out of range. *)
Lemma h2_pump file dst s room limit grown answers : 0 < limit -> 0 <= x_off s ->
  exists out s', h2PumpFile file dst s room limit grown answers = Some (out, s') /\
  ((out = dst /\ x_off s' = x_off s /\ x_window s' = x_window s /\ x_connWindow s' = x_connWindow s /\ x_streamID s' = x_streamID s /\
    (x_err s' = x_err s /\ x_left s' = x_left s \/ x_err s' <> None /\ x_left s' = 0)) \/
   (exists ps n, out = dst ++ fileFrames (x_streamID s) ps /\ concat ps = ztake n (zdrop (x_off s) file) /\ zlen (concat ps) = n /\ 0 < n <= x_left s /\ Forall (fun p => 1 <= zlen p <= limit) ps /\
    x_off s' = x_off s + n /\ x_left s' = x_left s - n /\ x_err s' = x_err s /\ x_streamID s' = x_streamID s /\
    x_window s' = x_window s - n /\ x_connWindow s' = x_connWindow s - n /\ 0 <= x_window s' /\ 0 <= x_connWindow s')).
Proof.
  intros Hl Ho. unfold h2PumpFile. set (avail := Z.min _ (limit * h2FileMaxFrames)).
  assert (Ha : avail <= x_window s /\ avail <= x_connWindow s /\ avail <= x_left s) by (unfold avail; lia). clearbody avail. destruct Ha as (A1 & A2 & A3).
  destruct ((avail <=? 0) || x_needIO s) eqn:E0. { do 2 eexists. split; [done |]. left. split_and!; (done || by left). }
  rewrite frames_spec by done. destruct (sizes_spec (Z.to_nat avail) avail limit Hl ltac:(lia)) as [S1 S2]. set (ns := frameSizes (Z.to_nat avail) avail limit) in *. clearbody ns. cbn [app].
  assert (S3 : Forall (fun n => 0 <= n) ns) by (eapply List.Forall_impl; [| exact S2]; intros n Hn; cbv beta in *; lia).
  assert (Hz : zlen dst + total ns + 9 * zlen ns = zlen (dst ++ blankFrames (x_streamID s) grown ns)).
  { rewrite zlen_app. enough (zlen (blankFrames (x_streamID s) grown ns) = total ns + 9 * zlen ns) by lia. clear - S3. induction S3 as [| n ns Hn _ IH]; [done |]. unfold blankFrames in *. cbn [map concat total foldr]. fold (total ns). rewrite !zlen_app, header_len, hole_len, zlen_cons, IH by done. lia. }
  destruct (holesAt_spec ns (zlen dst) dst (blankFrames (x_streamID s) grown ns) S3 ltac:(lia) (zlen_nonneg _) Hz) as (K1 & K2 & K3).
  destruct (preadv_spec file _ (x_off s) 0 answers _ K1 Ho) as (out & got & err & -> & P2 & P3 & P4 & _). rewrite Z.sub_0_r in *. rewrite Z.add_0_l in P2.
  destruct (scatter_prefix dst (blankFrames (x_streamID s) grown ns) _ (ztake got (zdrop (x_off s) file)) K3) as (x' & Hx). assert (Hcut : ztake (zlen dst) out = dst) by (rewrite P4, Hx; apply ztake_app_exact).
  cbv zeta. rewrite Hcut. destruct (match err with Some readAgain => true | None => (0 <? got) && (got <? avail) | _ => false end). { do 2 eexists. split; [done |]. left. split_and!; (done || by left). }
  assert (Hfin : exists out' s', (if negb (got =? avail) then Some (dst, xerr s (Some ErrUnexpectedEOF) true (x_finished s) 0) else Some (out, xfile s (x_off s + avail) (x_left s - avail) (x_needIO s) (x_window s - avail) (x_connWindow s - avail))) = Some (out', s') /\
    ((out' = dst /\ x_off s' = x_off s /\ x_window s' = x_window s /\ x_connWindow s' = x_connWindow s /\ x_streamID s' = x_streamID s /\ (x_err s' = x_err s /\ x_left s' = x_left s \/ x_err s' <> None /\ x_left s' = 0)) \/
    (exists ps n, out' = dst ++ fileFrames (x_streamID s) ps /\ concat ps = ztake n (zdrop (x_off s) file) /\ zlen (concat ps) = n /\ 0 < n <= x_left s /\ Forall (fun p => 1 <= zlen p <= limit) ps /\
    x_off s' = x_off s + n /\ x_left s' = x_left s - n /\ x_err s' = x_err s /\ x_streamID s' = x_streamID s /\ x_window s' = x_window s - n /\ x_connWindow s' = x_connWindow s - n /\ 0 <= x_window s' /\ 0 <= x_connWindow s'))).
  { destruct (got =? avail) eqn:Eg; cbn [negb]; (do 2 eexists; split; [done |]); [right | left; split_and!; (done || by right)].
    assert (got = avail) as -> by lia. exists (cutBytes ns (ztake avail (zdrop (x_off s) file))), avail. rewrite concat_cut by (done || lia). cbn [x_off x_left x_err x_streamID x_window x_connWindow xfile].
    split_and!; try (done || lia); [rewrite P4; apply scatter_frames; (done || lia) | apply cut_sizes; (done || lia)]. }
  destruct err as [[| e] |]; [exact Hfin | | exact Hfin]. do 2 eexists. split; [done |]. left. split_and!; (done || by right).
Qed.

(** ** HTTP/2 *)

Section H2.
Context (file before : bytes) (start len id lim : Z) (Hlim : H2DefaultMaxFrameSize <= lim).

Definition h2_sent (out : bytes) (s : h2Writer) : Prop :=
  x_streamID s = id /\ exists ps, out = before ++ fileFrames id ps /\ Forall (fun p => 1 <= zlen p <= lim) ps /\ concat ps = zslice file start (x_off s) /\ zlen (zslice file start (x_off s)) = x_off s - start.
Definition h2_waits (s : h2Writer) : Prop :=
  0 <= start <= x_off s /\ 0 <= x_left s /\ x_off s + x_left s <= start + len /\ (x_err s = None -> x_off s + x_left s = start + len).
Definition h2_inv (st : option (bytes * h2Writer * fileCall)) : Prop :=
  match st with
  | None => False
  | Some (out, s, call) => h2_sent out s /\ 0 <= start <= x_off s /\ x_off s <= start + len /\ match call with fileWaits => h2_waits s | fileReturned true None => x_off s = start + len | fileReturned false _ => False | _ => True end
  end.

Lemma h2_test_inv out s : h2_sent out s -> h2_waits s -> let (s', call) := h2WaitTest s in h2_inv (Some (out, s', call)).
Proof.
  intros H (H1 & H2 & H3 & H4). unfold h2WaitTest. destruct (x_err s) as [e |] eqn:Ee; cbn; [split_and!; (done || lia) |]. specialize (H4 eq_refl).
  destruct (0 <? x_left s) eqn:E; cbn; unfold h2_waits; split_and!; (done || lia).
Qed.

Lemma h2_pump_inv out s room limit grown answers : h2_sent out s -> h2_waits s -> 0 < limit <= lim -> exists out' s', h2PumpFile file out s room limit grown answers = Some (out', s') /\ h2_sent out' s' /\ h2_waits s'.
Proof.
  intros (Hid & ps & -> & Hps & Ec & El) (H1 & H2 & H3 & H4) Hl. destruct (h2_pump file (before ++ fileFrames id ps) s room limit grown answers ltac:(lia) ltac:(lia)) as (out' & s' & E & [(-> & Ho & _ & _ & Hi & Hw) | (qs & n & -> & Q1 & Q2 & Q3 & Q4 & Q5 & Q6 & Q7 & Q8 & _)]).
  - exists (before ++ fileFrames id ps), s'. split; [done |]. unfold h2_sent, h2_waits. rewrite Ho, Hi. split; [split; [done |]; by exists ps |]. destruct Hw as [[-> ->] | [Hw ->]]; split_and!; (done || lia).
  - exists ((before ++ fileFrames id ps) ++ fileFrames (x_streamID s) qs), s'. split; [done |]. destruct (slice_extend file start (x_off s) n H1 El ltac:(lia)) as [S1 S2]. rewrite <- Q1, Q2 in S1, S2. unfold h2_sent, h2_waits. rewrite Q5, Q8. split.
    + split; [done |]. exists (ps ++ qs). rewrite Hid. unfold fileFrames. rewrite map_app, !concat_app, Ec. split_and!; [by rewrite <- app_assoc | | done | done]. apply Forall_app. split; [done |]. eapply List.Forall_impl; [| exact Q4]. intros p Hp. cbv beta in *. lia.
    + rewrite Q6, Q7. split_and!; try lia. intros He. specialize (H4 He). lia.
Qed.

Definition evLimit (ev : h2FileEvent) : Z := match ev with xePump _ limit _ _ => limit | _ => 0 end.

Lemma h2_step_inv st ev : evLimit ev <= lim -> h2_inv st -> h2_inv (h2FileStep file st ev).
Proof.
  intros Hev. destruct st as [[[out s] [sent e |]] |]; [done | | done]. intros (H & B1 & B2 & W). destruct ev as [room limit grown answers | ws wc | warm now | | e]; cbn [h2FileStep].
  - destruct (x_finished s || bool_decide (is_Some (x_err s))); [done |]. destruct (0 <? x_left s); [| done].
    assert (0 < (if limit <=? 0 then H2DefaultMaxFrameSize else limit) <= lim) as Hl by (destruct (limit <=? 0) eqn:E; [done | cbn [evLimit] in Hev; lia]).
    destruct (h2_pump_inv out s room _ grown answers H W Hl) as (out' & s' & -> & H' & W'); destruct W' as (W1 & W2 & W3 & W4); cbn; unfold h2_waits; split_and!; (done || lia).
  - done.
  - unfold h2Wake. set (s1 := if x_needIO s then h2WarmFile s warm else s). assert (h2_sent out s1 /\ h2_waits s1) as [H1 W1].
    { unfold s1. destruct (x_needIO s); [| done]. unfold h2WarmFile. destruct warm as [e |]; [| done]. cbn [xfile x_err]. destruct (x_err s) eqn:Ee; [unfold h2_waits; cbn; rewrite Ee; unfold h2_waits in W; rewrite Ee in W; done |]. split; [done |]. destruct W as (W1 & W2 & W3 & W4). unfold h2_waits. cbn. split_and!; (done || lia). }
    clearbody s1. match goal with |- context [h2WaitTest ?s2] => assert (h2_sent out s2 /\ h2_waits s2) as [H2 W2]; [| pose proof (h2_test_inv out s2 H2 W2) as G; by destruct (h2WaitTest s2)] end.
    destruct (x_stallFired s1); cbn [negb]; [| done]. cbv zeta. split_if; [done |]. split_if; [| done]. split; [done |]. destruct W1 as (A & B & C & D). unfold h2_waits. cbn. split_and!; (done || lia).
  - done.
  - destruct W as (A & B & C & D). cbn. unfold h2_waits. cbn. split_and!; try (done || lia). destruct (x_err s); done.
Qed.

Lemma h2_run_inv evs st : Forall (fun ev => evLimit ev <= lim) evs -> h2_inv st -> h2_inv (fold_left (h2FileStep file) evs st).
Proof. intros He. revert st. induction He as [| ev evs Hev _ IH]; intros st H; [done |]. cbn [fold_left]. by apply IH, h2_step_inv. Qed.
End H2.

(** A call that returned stays so. *)
Lemma h1_returned file c s sent e evs : fold_left (h1FileStep file) evs (c, s, fileReturned sent e) = (c, s, fileReturned sent e).
Proof. induction evs as [| ev evs IH]; [done |]. exact IH. Qed.
Lemma h2_returned file out s sent e evs : fold_left (h2FileStep file) evs (Some (out, s, fileReturned sent e)) = Some (out, s, fileReturned sent e).
Proof. induction evs as [| ev evs IH]; [done |]. exact IH. Qed.

Lemma slice_nil {A} (file : list A) start : zslice file start start = [].
Proof. unfold zslice, ztake. by rewrite Z.sub_diag. Qed.

Lemma slice_split {A} (file : list A) start off stop : 0 <= start <= off -> off <= stop -> zlen (zslice file start off) = off - start -> exists rest, zslice file start stop = zslice file start off ++ rest.
Proof.
  intros H1 H2 H3. exists (zslice file off stop). rewrite (slice_step file start stop (off - start)) by lia. f_equal. unfold zslice in H3. rewrite H3. f_equal. lia.
Qed.

Lemma range_sent_off file start len off call : 0 <= start <= off -> off <= start + len -> zlen (zslice file start off) = off - start -> (call = fileReturned true None -> off = start + len) -> (forall e, call <> fileReturned false e) ->
  range_sent file start len (zslice file start off) call.
Proof.
  intros H1 H2 H3 H4 H5. split; [by apply slice_split |]. destruct call as [[] [e |] |]; try done; [rewrite <- (H4 eq_refl), H3; split; [done |]; rewrite (H4 eq_refl); lia | by destruct (H5 (Some e)) | by destruct (H5 None)].
Qed.
Lemma range_sent_none file start len call : (forall b, call <> fileReturned b None) -> 0 <= start -> 0 <= len -> range_sent file start len [] call.
Proof. intros H1 H2 H3. split; [by eexists |]. destruct call as [[] [e |] |]; try done. by destruct (H1 true). Qed.

(** A call of [sendFileRange] over HTTP/1, from the call to any event. *)
Lemma h1_range_sent file start len c s limited evs : 0 <= start -> 0 <= len -> fc_bodyOut c = [] -> let '(c', _, call) := h1FileRun file c s start len limited evs in
  exists sent, fc_wire c' ++ fc_unsent c' = (fc_wire c ++ fc_unsent c) ++ sent /\ range_sent file start len sent call.
Proof.
  intros Hs Hl.
  intros Hb. unfold h1FileRun, h1SendFileRange. destruct (sendsFile s limited); cbn [negb].
  2: { rewrite h1_returned. exists []. rewrite app_nil_r. split; [done |]. by split; [eexists |]. }
  destruct (len <=? 0) eqn:E0. { rewrite h1_returned. exists []. rewrite app_nil_r. split; [done |]. replace len with 0 by lia. unfold range_sent. rewrite Z.add_0_r, slice_nil. split; [by exists [] | done]. }
  destruct (admitBody s len) as [[e |] s1]. { rewrite h1_returned. exists []. rewrite app_nil_r. split; [done |]. by apply range_sent_none. }
  assert (Hi : h1_sent file (fc_wire c ++ fc_unsent c) start len c (set_file s1 start len)) by (unfold h1_sent; cbn; rewrite slice_nil, app_nil_r; change (zlen (@nil Z)) with 0; split_and!; (done || lia)).
  apply wait_test_inv in Hi. destruct (h1WaitTest (set_file s1 start len)) as [s2 call]. apply (h1_run_inv _ _ _ _ evs) in Hi. destruct (fold_left (h1FileStep file) evs (c, s2, call)) as [[c' s'] call'].
  exists (zslice file start (w_fileOff s')). destruct call' as [b e |]; cbn in Hi.
  + destruct Hi as (Hc & B1 & B2 & _ & B4 & B5). split; [done |]. apply range_sent_off; try done; [destruct b; [intros [= ->]; done | done] | intros e'; destruct b; [done | by destruct Hc]].
  + destruct Hi as (_ & B1 & B2 & B3 & B4 & B5 & _). split; [done |]. apply range_sent_off; (done || lia).
Qed.

(** And over HTTP/2; no frame is larger than the largest limit. *)
Definition frameMax (evs : list h2FileEvent) : Z := foldr (fun ev => Z.max (evLimit ev)) H2DefaultMaxFrameSize evs.
Lemma frameMax_spec evs : H2DefaultMaxFrameSize <= frameMax evs /\ Forall (fun ev => evLimit ev <= frameMax evs) evs.
Proof.
  induction evs as [| ev evs [IH1 IH2]]; [by split; [apply Z.le_refl | constructor] |]. cbn [frameMax foldr]. fold (frameMax evs). split; [lia |]. constructor; [lia |]. eapply List.Forall_impl; [| exact IH2]. intros e He. cbv beta in *. lia.
Qed.

Lemma h2_range_sent file start len out s limited now evs : 0 <= start -> 0 <= len -> exists out' s' call, h2FileRun file out s start len limited now evs = Some (out', s', call) /\
  exists ps, out' = out ++ fileFrames (x_streamID s) ps /\ Forall (fun p => 1 <= zlen p <= frameMax evs) ps /\ range_sent file start len (concat ps) call.
Proof.
  intros Hs Hl.
  unfold h2FileRun, h2SendFileRange.
  assert (R : forall s' e, (forall b, fileReturned true (Some e) <> fileReturned b None) -> exists out' s'' call, fold_left (h2FileStep file) evs (Some (out, s', fileReturned true (Some e))) = Some (out', s'', call) /\ exists ps, out' = out ++ fileFrames (x_streamID s) ps /\ Forall (fun p => 1 <= zlen p <= frameMax evs) ps /\ range_sent file start len (concat ps) call).
  { intros s' e He. rewrite h2_returned. do 3 eexists. split; [done |]. exists []. split_and!; [by rewrite app_nil_r | constructor |]. by apply range_sent_none. }
  destruct (limited || negb (x_headerCalled s) || x_suppressBody s). { rewrite h2_returned. do 3 eexists. split; [done |]. exists []. split_and!; [by rewrite app_nil_r | constructor |]. by split; [eexists |]. }
  destruct (len <=? 0) eqn:E0. { rewrite h2_returned. do 3 eexists. split; [done |]. exists []. split_and!; [by rewrite app_nil_r | constructor |]. unfold range_sent. replace len with 0 by lia. rewrite Z.add_0_r, slice_nil. split; [by exists [] | done]. }
  cbv zeta. set (s1 := if 0 <? x_maxWrite s then _ else _). assert (Hid : x_streamID s1 = x_streamID s) by (unfold s1; by destruct (0 <? x_maxWrite s)). clearbody s1.
  destruct ((0 <? x_maxWrite s1) && (x_maxWrite s1 <? x_written s1)); [by apply R |]. destruct (x_err s1) as [e |] eqn:Ee; [by apply R |]. destruct (x_ended s1); [by apply R |].
  set (s2 := armFileStallLocked _ now start). assert (h2_sent file out start (x_streamID s) (frameMax evs) out s2 /\ h2_waits start len s2) as [Hi Hw].
  { unfold h2_sent, h2_waits, s2. cbn. rewrite slice_nil. change (zlen (@nil Z)) with 0. split; [split; [done |]; exists []; split_and!; [by rewrite app_nil_r | constructor | done | lia] | split_and!; lia]. }
  clearbody s2. destruct (frameMax_spec evs) as [F1 F2]. pose proof (h2_test_inv file out start len (x_streamID s) (frameMax evs) out s2 Hi Hw) as G. destruct (h2WaitTest s2) as [s3 call]. apply (h2_run_inv _ _ _ _ _ _ F1 evs _ F2) in G.
  destruct (fold_left (h2FileStep file) evs (Some (out, s3, call))) as [[[out' s'] call'] |]; [| done]. destruct G as ((_ & ps & P1 & P2 & P3 & P4) & B1 & B2 & Hc). exists out', s', call'. split; [done |]. exists ps. split_and!; [done | done |].
  rewrite P3. apply range_sent_off; try done; [intros ->; done | intros e ->; done].
Qed.

(** ** The writers as [serveContent] sees them *)

(** A writer of the loop: what the connection got after the call. *)
Definition h1LoopWriter (c : fileConn) (s : h1Writer) (evs : list h1FileEvent) : loopWriter :=
  mkLoopWriter (fun file start len limited =>
    let '(c', _, call) := h1FileRun file c s start len limited evs in (zdrop (zlen (fc_wire c ++ fc_unsent c)) (fc_wire c' ++ fc_unsent c'), call)).
#[export] Instance h1LoopWriter_ok c s evs : fc_bodyOut c = [] -> LoopWriterOk (h1LoopWriter c s evs).
Proof.
  intros Hb file start len limited Hs Hl. cbn. pose proof (h1_range_sent file start len c s limited evs Hs Hl Hb) as H. destruct (h1FileRun file c s start len limited evs) as [[c' s'] call]. destruct H as (sent & -> & H). by rewrite zdrop_app_exact.
Qed.

(** The payloads of frames that follow one another. *)
Fixpoint framesData (fuel : nat) (b : bytes) : bytes :=
  match fuel with
  | O => []
  | S fuel => if zlen b <? 9 then [] else let n := be_val (ztake 3 b) in ztake n (zdrop 9 b) ++ framesData fuel (zdrop (9 + n) b)
  end.
Lemma framesData_files id ps fuel : Forall (fun p => zlen p < 2 ^ 24) ps -> (length ps < fuel)%nat -> framesData fuel (fileFrames id ps) = concat ps.
Proof.
  intros Hp. revert fuel. induction Hp as [| p ps Hp _ IH]; intros fuel Hf; (destruct fuel as [| fuel]; [lia |]); [done |]. unfold fileFrames in *. cbn [map concat framesData length] in *. pose proof (zlen_nonneg p).
  set (rest := concat (map (fileFrame id) ps)) in *. set (hd := putH2FrameHeader H2FrameData 0 id (zlen p)). change (fileFrame id p) with (hd ++ p). rewrite <- app_assoc.
  assert (Hh : zlen hd = 9) by (unfold hd, putH2FrameHeader, zlen; rewrite !length_app, !length_be_bytes; done).
  rewrite !zlen_app, Hh. pose proof (zlen_nonneg rest). replace (9 + (zlen p + zlen rest) <? 9) with false by lia.
  assert (ztake 3 (hd ++ p ++ rest) = be_bytes 3 (zlen p)) as -> by (unfold hd, putH2FrameHeader; rewrite <- app_assoc; replace 3 with (zlen (be_bytes 3 (zlen p))) at 1 by (unfold zlen; by rewrite length_be_bytes); apply ztake_app_exact).
  rewrite be_val_bytes, Z.mod_small by (change (2 ^ (8 * Z.of_nat 3)) with (2 ^ 24); lia). cbv zeta. rewrite <- Hh, zdrop_app_exact, ztake_app_exact. rewrite <- zdrop_zdrop by lia. rewrite zdrop_app_exact, zdrop_app_exact. f_equal. apply IH. lia.
Qed.

Definition h2LoopWriter (out : bytes) (s : h2Writer) (now : Z) (evs : list h2FileEvent) : loopWriter :=
  mkLoopWriter (fun file start len limited =>
    match h2FileRun file out s start len limited now evs with
    | Some (out', _, call) => (framesData (S (length out')) (zdrop (zlen out) out'), call)
    | None => ([], fileWaits)
    end).
(** With frame limits of 24 bits, as SETTINGS allows them. *)
#[export] Instance h2LoopWriter_ok out s now evs : frameMax evs < 2 ^ 24 -> LoopWriterOk (h2LoopWriter out s now evs).
Proof.
  intros Hm file start len limited Hs Hl. cbn [sendFileRange h2LoopWriter]. destruct (h2_range_sent file start len out s limited now evs Hs Hl) as (out' & s' & call & -> & ps & -> & Hp & H). rewrite zdrop_app_exact.
  rewrite framesData_files; [done | eapply List.Forall_impl; [| exact Hp]; intros p H'; cbv beta in *; lia |]. rewrite length_app. enough (length ps <= length (fileFrames (x_streamID s) ps))%nat by lia. clear. unfold fileFrames. induction ps as [| p ps IH]; [done |]. cbn [map concat length]. rewrite length_app. unfold fileFrame at 1, appendH2Frame. rewrite !length_app. change (length (putH2FrameHeader _ _ _ _)) with 9%nat. lia.
Qed.

(** C10: Files that the event loop sends. A handler asks for a range of a file to be sent and
    waits; the loop pumps with sendfile(2), with reads that it seals, or with reads into the
    holes of DATA frames, the kernel answers in any way (few bytes, again, interrupted, errors,
    a file that has become shorter), the connection may fail and the timer may fire. Then the
    connection has got, after the bytes it had, exactly the first bytes of the range in order, all of
    them if the handler is told that there was no error, and none if the file is left to the
    caller. Over HTTP/2 these are the payloads of DATA frames, the index of the holes never runs
    out, and a pump stays within the frame size and within both windows. *)
Theorem file_bodies file start len :
  0 <= start -> 0 <= len ->
  (forall c s limited evs, fc_bodyOut c = [] -> let '(c', _, call) := h1FileRun file c s start len limited evs in
    exists sent, fc_wire c' ++ fc_unsent c' = (fc_wire c ++ fc_unsent c) ++ sent /\ range_sent file start len sent call) /\
  (forall out s limited now evs, exists out' s' call, h2FileRun file out s start len limited now evs = Some (out', s', call) /\
    exists ps, out' = out ++ fileFrames (x_streamID s) ps /\ Forall (fun p => 1 <= zlen p) ps /\ range_sent file start len (concat ps) call) /\
  (forall out s room limit grown answers, 0 < limit -> 0 <= x_off s -> exists out' s' ps, h2PumpFile file out s room limit grown answers = Some (out', s') /\
    out' = out ++ fileFrames (x_streamID s) ps /\ Forall (fun p => zlen p <= limit) ps /\ x_window s' = x_window s - zlen (concat ps) /\ x_connWindow s' = x_connWindow s - zlen (concat ps) /\
    (ps <> [] -> 0 <= x_window s' /\ 0 <= x_connWindow s')).
Proof.
  intros Hs Hl. split_and!; [intros; by apply h1_range_sent | |].
  - intros out s limited now evs. destruct (h2_range_sent file start len out s limited now evs Hs Hl) as (out' & s' & call & E & ps & E1 & E2 & E3). exists out', s', call. split; [done |]. exists ps. split; [done |]. split; [| done]. eapply List.Forall_impl; [| exact E2]. intros p Hp. cbv beta in *. lia.
  -
  intros out s room limit grown answers Hlim Ho. destruct (h2_pump file out s room limit grown answers Hlim Ho) as (out' & s' & E & [(-> & _ & W1 & W2 & _) | (ps & n & -> & _ & Q2 & _ & Q4 & _ & _ & _ & _ & W1 & W2 & W3 & W4)]).
  + exists out, s', []. change (zlen (concat [])) with 0. split_and!; [done | by rewrite app_nil_r | constructor | lia | lia | done].
  + eexists _, s', ps. rewrite Q2. split_and!; try done. eapply List.Forall_impl; [| exact Q4]. intros p Hp. cbv beta in *. lia.
Qed.

Lemma file_bodies_witness :
  let c := mkFileConn false (str "head") [] false false [] in
  let s := mkH1Writer true false false false 0 0 4 0 false 0 false None 0 0 false false false in
  let '(c', _, call) := h1FileRun (str "abcdef") c s 1 4 false [fePump 0 [saSent 2; saIntr; saSent 9] [sfMoved 3; sfAgain None] []; fePump 0 [] [sfMoved 9] []; feWake None] in
  fc_wire c' ++ fc_unsent c' = str "head" ++ str "bcde" /\ call = fileReturned true None /\
  exists sent, range_sent (str "abcdef") 1 4 sent call.
Proof.
  intros c s. destruct (file_bodies (str "abcdef") 1 4) as (H & _); [lia | lia |].
  specialize (H c s false [fePump 0 [saSent 2; saIntr; saSent 9] [sfMoved 3; sfAgain None] []; fePump 0 [] [sfMoved 9] []; feWake None] eq_refl).
  vm_compute in H |- *. destruct H as (sent & _ & H). split; [reflexivity |]. split; [reflexivity |]. exists sent. exact H.
Defined.
