(* ===== verification/FpH1.v ===== *)
(** The HTTP/1 side of the proxy towards its backends (src/core/fp_h1.go,
    fp_linescan.go, fp_buf.go and [completeH1] of fp_beloop.go): requests as bytes,
    the parser of responses over whatever arrives, and the end of an exchange.
    Where a body goes (a buffer, or on to the client) is decided by an argument. *)
From stdpp Require Import base list numbers strings.
From Stdlib Require Import ZArith Lia ZifyBool.
From S2P Require Import Prelude Utils HttpText HpackDyn H1Scan H1Head.

Open Scope list_scope.
Open Scope Z_scope.

Inductive fpPhase := h1PhaseHeaders | h1PhaseBodyCL | h1PhaseChunkSize | h1PhaseChunkData | h1PhaseChunkCRLF | h1PhaseTrailers | h1PhaseBodyEOF.
Inductive fpError := errFPBadResponse | errFPHeaderTooLarge | errFPBodyTooLarge.

#[export] Instance fpPhase_eq_dec : EqDecision fpPhase.
Proof. solve_decision. Defined.
#[export] Instance fpError_eq_dec : EqDecision fpError.
Proof. solve_decision. Defined.

Definition fpMaxChunkLine : Z := 4096.
Definition fpCrlfcrlf : bytes := [13; 10; 13; 10].
Definition fpCRLF : bytes := [13; 10].

(** [bytes.Index]. *)
Fixpoint bytesIndexFrom (s pat : bytes) (i : Z) : Z :=
  if bool_decide (ztake (zlen pat) s = pat) then i
  else match s with [] => -1 | _ :: s => bytesIndexFrom s pat (i + 1) end.
Definition bytesIndex (s pat : bytes) : Z := bytesIndexFrom s pat 0.

(** ** Names and tokens *)

Definition isUpper (c : Z) : bool := (65 <=? c) && (c <=? 90).

Fixpoint colonAfterWhitespace (rest : bytes) (j : Z) : Z :=
  match rest with
  | [] => -1
  | ch :: rest => if ch =? 58 then j else if negb ((ch =? 32) || (ch =? 9)) then -1 else colonAfterWhitespace rest (j + 1)
  end.

(** The name in lower case, and where it and the colon are; the code writes the
    lower case into the line. *)
Fixpoint lowerFieldNameUntilColon (line name : bytes) (i : Z) : option (bytes * Z) :=
  match line with
  | [] => None
  | ch :: rest =>
      if h1TokenChar ch then lowerFieldNameUntilColon rest (name ++ [if isUpper ch then ch + 97 - 65 else ch]) (i + 1)
      else if ch =? 58 then Some (name, i)
      else if (ch =? 32) || (ch =? 9) then
        let colon := colonAfterWhitespace line 0 in if 0 <=? colon then Some (name, i + colon) else None
      else None
  end.

(** [asciiEqualFold]: the second string is written in lower case. *)
Definition fpEqualFold (b s : bytes) : bool :=
  (zlen b =? zlen s) && forallb (fun p => (if isUpper p.1 then p.1 + 97 - 65 else p.1) =? p.2) (zip b s).

(** The part up to the next comma, and what follows the comma. *)
Fixpoint cutComma (value : bytes) : bytes * option bytes :=
  match value with
  | [] => ([], None)
  | c :: value => if c =? 44 then ([], Some value) else let (part, rest) := cutComma value in (c :: part, rest)
  end.
Fixpoint fpTokenLoop (fuel : nat) (value token : bytes) : bool :=
  match fuel with
  | O => false
  | S fuel =>
      let (part, rest) := cutComma value in
      if fpEqualFold (trimOWS part) token then true
      else match rest with Some rest => fpTokenLoop fuel rest token | None => false end
  end.
Definition fpContainsTokenFold (value token : bytes) : bool := fpTokenLoop (S (length value)) value token.

(** [bytes.TrimSpace]: white space as Unicode has it, in UTF-8. *)
Definition spaceSeqs : list bytes :=
  [[9]; [10]; [11]; [12]; [13]; [32]; [0xC2; 0x85]; [0xC2; 0xA0]; [0xE1; 0x9A; 0x80]] ++ map (fun c => [0xE2; 0x80; c]) (seqZ 0x80 11) ++
  [[0xE2; 0x80; 0xA8]; [0xE2; 0x80; 0xA9]; [0xE2; 0x80; 0xAF]; [0xE2; 0x81; 0x9F]; [0xE3; 0x80; 0x80]].
Fixpoint dropSeqs (fuel : nat) (seqs : list bytes) (s : bytes) : bytes :=
  match fuel with
  | O => s
  | S fuel => match List.find (fun q => bytes_eqb (ztake (zlen q) s) q) seqs with Some q => dropSeqs fuel seqs (zdrop (zlen q) s) | None => s end
  end.
Definition fpTrimSpace (s : bytes) : bytes :=
  let s := dropSeqs (length s) spaceSeqs s in rev (dropSeqs (length s) (map (@rev Z) spaceSeqs) (rev s)).

(** [strconv.ParseInt(s, 10, 64)]. *)
Fixpoint parseDigits (s : bytes) (n : Z) : option Z :=
  match s with
  | [] => Some n
  | c :: s => if (48 <=? c) && (c <=? 57) then parseDigits s (n * 10 + (c - 48)) else None
  end.
Definition ParseInt (s : bytes) : option Z :=
  let '(neg, digits) := match s with 43 :: d => (false, d) | 45 :: d => (true, d) | _ => (false, s) end in
  if bytes_eqb digits [] then None
  else match parseDigits digits 0 with
       | None => None
       | Some n => if neg then if 2 ^ 63 <? n then None else Some (- n) else if 2 ^ 63 <=? n then None else Some n
       end.

(** ** The head of a response *)

(** [fpCountCRFindNUL], as its portable version counts. *)
Definition countCR (block : bytes) : Z := zlen (List.filter (Z.eqb 13) block).
Definition fpCountCRFindNUL (block : bytes) : Z * bool := (countCR block, 0 <=? IndexByte block 0).

(** What the head decides: the fields of [h1Parser] it sets and the framing. *)
Record fpHead := mkFpHead { hd_status : Z; hd_keepAlive : bool; hd_noBody : bool; hd_fields : list field; hd_chunked : bool; hd_contentLen : Z }.

(** The line up to the next LF and the rest; a CR before the LF is cut off and
    counted. *)
Definition fpCutLine (block : bytes) (unpairedCR : Z) : bytes * bytes * Z :=
  let lineEnd := IndexByte block 10 in
  let '(line, rest) := if lineEnd <? 0 then (block, []) else (ztake lineEnd block, zdrop (lineEnd + 1) block) in
  if (0 <? zlen line) && (znth line (zlen line - 1) =? 13) then (ztake (zlen line - 1) line, rest, unpairedCR - 1) else (line, rest, unpairedCR).

Definition fpField (h : fpHead) (name value : bytes) : option fpHead :=
  let h := mkFpHead (hd_status h) (hd_keepAlive h) (hd_noBody h) (hd_fields h ++ [(name, value)]) (hd_chunked h) (hd_contentLen h) in
  if fpEqualFold name (str "content-length") then
    match ParseInt value with
    | Some v =>
        if (v <? 0) || ((0 <=? hd_contentLen h) && negb (hd_contentLen h =? v)) then None
        else Some (mkFpHead (hd_status h) (hd_keepAlive h) (hd_noBody h) (hd_fields h) (hd_chunked h) v)
    | None => None
    end
  else if fpEqualFold name (str "transfer-encoding") then
    Some (mkFpHead (hd_status h) (hd_keepAlive h) (hd_noBody h) (hd_fields h) (hd_chunked h || fpContainsTokenFold value (str "chunked")) (hd_contentLen h))
  else if fpEqualFold name (str "connection") then
    Some (mkFpHead (hd_status h) (if fpContainsTokenFold value (str "close") then false else if fpContainsTokenFold value (str "keep-alive") then true else hd_keepAlive h)
           (hd_noBody h) (hd_fields h) (hd_chunked h) (hd_contentLen h))
  else Some h.

(** Every turn takes a byte off the block. *)
Fixpoint fpFieldLoop (fuel : nat) (block : bytes) (h : fpHead) (unpairedCR : Z) : option (fpHead * Z) :=
  match fuel with
  | O => None
  | S fuel =>
      if zlen block =? 0 then Some (h, unpairedCR)
      else
        let '(line, rest, unpairedCR) := fpCutLine block unpairedCR in
        if zlen line =? 0 then fpFieldLoop fuel rest h unpairedCR
        else match lowerFieldNameUntilColon line [] 0 with
             | None => None
             | Some (name, colon) =>
                 if zlen name =? 0 then None
                 else match fpField h name (trimOWS (zdrop (colon + 1) line)) with
                      | None => None
                      | Some h => fpFieldLoop fuel rest h unpairedCR
                      end
             end
  end.

Definition isDigit (c : Z) : bool := (48 <=? c) && (c <=? 57).
Definition parseHeaderBlock (fields : list field) (block method : bytes) : option fpHead :=
  let '(unpairedCR, hasNUL) := fpCountCRFindNUL block in
  if hasNUL then None
  else
    let '(statusLine, rest, unpairedCR) := fpCutLine block unpairedCR in
    if (zlen statusLine <? 12) || negb (bytes_eqb (ztake 7 statusLine) (str "HTTP/1.")) then None
    else if negb (znth statusLine 8 =? 32) then None
    else
      let d0 := znth statusLine 9 in let d1 := znth statusLine 10 in let d2 := znth statusLine 11 in
      if negb (isDigit d0 && isDigit d1 && isDigit d2) then None
      else
        let status := (d0 - 48) * 100 + (d1 - 48) * 10 + (d2 - 48) in
        let h := mkFpHead status (znth statusLine 7 =? 49) (bytes_eqb method (str "HEAD") || (status =? 204) || (status =? 304)) fields false (-1) in
        match fpFieldLoop (S (length rest)) rest h unpairedCR with
        | None => None
        | Some (h, unpairedCR) =>
            if negb (unpairedCR =? 0) then None
            else Some (if hd_chunked h then mkFpHead (hd_status h) (hd_keepAlive h) (hd_noBody h) (hd_fields h) true (-1) else h)
        end.

(** ** Upgrades *)

Definition forbiddenUpgradeToken : bytes := str "h2c".

(** [strings.ToLower], of which nothing is assumed. *)
Section Upgrade.
Context (ToLower : bytes -> bytes).
Fixpoint upgradeTokensLoop (fuel : nat) (rest requested : bytes) (anyToken : bool) : bool * bool :=
  match fuel with
  | O => (false, false)
  | S fuel =>
      if zlen rest =? 0 then (true, anyToken)
      else
        let (part, rest) := cutComma rest in
        let rest := default [] rest in
        let token := trimOWS part in
        if zlen token =? 0 then upgradeTokensLoop fuel rest requested anyToken
        else if fpEqualFold token forbiddenUpgradeToken || negb (fpContainsTokenFold requested (ToLower token)) then (false, false)
        else upgradeTokensLoop fuel rest requested true
  end.
Definition upgradeTokensRequested (granted requested : bytes) : bool * bool := upgradeTokensLoop (S (length granted)) granted requested false.

Fixpoint upgradeGrantedLoop (hdr : list field) (requested : bytes) (granted : bool) : bool :=
  match hdr with
  | [] => granted
  | h :: hdr =>
      if negb (bytes_eqb h.1 (str "upgrade")) then upgradeGrantedLoop hdr requested granted
      else let (allRequested, anyToken) := upgradeTokensRequested h.2 requested in
           if negb allRequested then false else upgradeGrantedLoop hdr requested (granted || anyToken)
  end.
Definition upgradeGranted (hdr : list field) (requested : bytes) : bool := if zlen requested =? 0 then false else upgradeGrantedLoop hdr requested false.
End Upgrade.

(** [bytes.Cut]. *)
Definition fpCut (s sep : bytes) : bytes * bytes * bool :=
  let i := bytesIndex s sep in if 0 <=? i then (ztake i s, zdrop (i + zlen sep) s, true) else (s, [], false).
Fixpoint forwardedUpgradeLoop (fuel : nat) (fields : bytes) : bytes :=
  match fuel with
  | O => []
  | S fuel =>
      if zlen fields =? 0 then []
      else
        let '(line, fields, _) := fpCut fields fpCRLF in
        let '(name, value, ok) := fpCut line [58] in
        if ok && fpEqualFold (fpTrimSpace name) (str "upgrade") then fpTrimSpace value else forwardedUpgradeLoop fuel fields
  end.
(** What the request asked for: of the raw request when there is one. *)
Definition forwardedUpgrade (rawRequest : option bytes) (Upgrade : bytes) : bytes :=
  match rawRequest with
  | None => Upgrade
  | Some raw =>
      let '(head, _, _) := fpCut raw fpCrlfcrlf in
      let '(_, fields, _) := fpCut head fpCRLF in
      forwardedUpgradeLoop (S (length fields)) fields
  end.

(** ** The parser *)

Record fpParser := mkFpParser {
  fp_phase : fpPhase;
  fp_status : Z;
  fp_keepAlive : bool;
  fp_noBody : bool;
  fp_stream : bool;
  fp_remaining : Z;
  fp_trailerBytes : Z;
  fp_hdr : list field;
  fp_body : bytes }.
Definition fpReset : fpParser := mkFpParser h1PhaseHeaders 0 false false false 0 0 [] [].

Definition fp_head (p : fpParser) (h : fpHead) : fpParser := mkFpParser (fp_phase p) (hd_status h) (hd_keepAlive h) (hd_noBody h) (fp_stream p) (fp_remaining p) (fp_trailerBytes p) (hd_fields h) (fp_body p).
Definition fp_goto (p : fpParser) (phase : fpPhase) (remaining : Z) : fpParser := mkFpParser phase (fp_status p) (fp_keepAlive p) (fp_noBody p) (fp_stream p) remaining (fp_trailerBytes p) (fp_hdr p) (fp_body p).
Definition fp_clearHdr (p : fpParser) : fpParser := mkFpParser (fp_phase p) (fp_status p) (fp_keepAlive p) (fp_noBody p) (fp_stream p) (fp_remaining p) (fp_trailerBytes p) [] (fp_body p).
Definition fp_setStream (p : fpParser) (b : bool) : fpParser := mkFpParser (fp_phase p) (fp_status p) (fp_keepAlive p) (fp_noBody p) b (fp_remaining p) (fp_trailerBytes p) (fp_hdr p) (fp_body p).
Definition fp_noKeepAlive (p : fpParser) : fpParser := mkFpParser (fp_phase p) (fp_status p) false (fp_noBody p) (fp_stream p) (fp_remaining p) (fp_trailerBytes p) (fp_hdr p) (fp_body p).
Definition fp_trailer (p : fpParser) (n : Z) : fpParser := mkFpParser (fp_phase p) (fp_status p) (fp_keepAlive p) (fp_noBody p) (fp_stream p) (fp_remaining p) (fp_trailerBytes p + n) (fp_hdr p) (fp_body p).
Definition fp_append (p : fpParser) (data : bytes) : fpParser := mkFpParser (fp_phase p) (fp_status p) (fp_keepAlive p) (fp_noBody p) (fp_stream p) (fp_remaining p) (fp_trailerBytes p) (fp_hdr p) (fp_body p ++ data).

(** What the sink was told: the head of a streamed response with its length, and
    the bytes of the body. *)
Record fpSink := mkFpSink { sk_begin : option (Z * list field * Z); sk_bytes : bytes }.

(** The exchange and the limits: the method, the request when it is forwarded as
    it came, the upgrade it asks for, what the sink decides (whether a tunnel can
    begin, which responses are streamed), and [strings.ToLower]. *)
Record fpEnv := mkFpEnv { fe_method : bytes; rawRequest : option bytes; fe_Upgrade : bytes; beginTunnel : bool; fe_stream : Z -> bool; MaxHeaderBytes : Z; MaxResponseBody : Z; fe_ToLower : bytes -> bytes }.

Inductive fpResult := fpMore | fpDone | fpTunnel | fpFail (e : fpError).
#[export] Instance fpResult_eq_dec : EqDecision fpResult.
Proof. solve_decision. Defined.

Section Parser.
Context (env : fpEnv).

(** [emit], or the append to the body. *)
Definition fpEmit (p : fpParser) (k : fpSink) (data : bytes) : fpParser * fpSink :=
  if fp_stream p then (p, mkFpSink (sk_begin k) (sk_bytes k ++ data)) else (fp_append p data, k).

(** A turn of [advance] on the unread bytes: it goes on with a new state, or
    returns. *)
Definition fpTurn (p : fpParser) (data : bytes) (k : fpSink) : (fpParser * bytes * fpSink) * option fpResult :=
  let more p data k := ((p, data, k), Some fpMore) in
  let fail p e := ((p, data, k), Some (fpFail e)) in
  match fp_phase p with
  | h1PhaseHeaders =>
      let idx := bytesIndex data fpCrlfcrlf in
      if idx <? 0 then if MaxHeaderBytes env <? zlen data then fail p errFPHeaderTooLarge else more p data k
      else if MaxHeaderBytes env <? idx + 4 then fail p errFPHeaderTooLarge
      else match parseHeaderBlock (fp_hdr p) (ztake idx data) (fe_method env) with
           | None => fail p errFPBadResponse
           | Some h =>
               let p := fp_head p h in
               let data := zdrop (idx + 4) data in
               if fp_status p =? 101 then ((p, data, k), Some (if upgradeGranted (fe_ToLower env) (fp_hdr p) (forwardedUpgrade (rawRequest env) (fe_Upgrade env)) && beginTunnel env then fpTunnel else fpFail errFPBadResponse))
               else if (100 <=? fp_status p) && (fp_status p <? 200) then ((fp_clearHdr p, data, k), None)
               else if fp_noBody p then ((p, data, k), Some fpDone)
               else
                 let p := fp_setStream p (fe_stream env (hd_contentLen h)) in
                 let k := if fp_stream p then mkFpSink (Some (fp_status p, fp_hdr p, hd_contentLen h)) (sk_bytes k) else k in
                 if hd_chunked h then ((fp_goto p h1PhaseChunkSize (fp_remaining p), data, k), None)
                 else if 0 <=? hd_contentLen h then
                   if hd_contentLen h =? 0 then ((p, data, k), Some fpDone)
                   else if negb (fp_stream p) && (MaxResponseBody env <? hd_contentLen h) then ((p, data, k), Some (fpFail errFPBodyTooLarge))
                   else ((fp_goto p h1PhaseBodyCL (hd_contentLen h), data, k), None)
                 else ((fp_goto (fp_noKeepAlive p) h1PhaseBodyEOF (fp_remaining p), data, k), None)
           end
  | h1PhaseBodyCL =>
      if zlen data =? 0 then more p data k
      else
        let take := Z.min (fp_remaining p) (zlen data) in
        let (p, k) := fpEmit p k (ztake take data) in
        let p := fp_goto p (fp_phase p) (fp_remaining p - take) in
        ((p, zdrop take data, k), Some (if fp_remaining p =? 0 then fpDone else fpMore))
  | h1PhaseChunkSize =>
      let idx := IndexByte data 10 in
      if idx <? 0 then if fpMaxChunkLine <? zlen data then fail p errFPBadResponse else more p data k
      else if fpMaxChunkLine <=? idx then fail p errFPBadResponse
      else
        let line := ztake idx data in
        let line := if (0 <? zlen line) && (znth line (zlen line - 1) =? 13) then ztake (zlen line - 1) line else line in
        let semi := IndexByte line 59 in
        let line := if 0 <=? semi then ztake semi line else line in
        match parseHex64Bytes (fpTrimSpace line) with
        | None => fail p errFPBadResponse
        | Some size =>
            let data := zdrop (idx + 1) data in
            if size =? 0 then ((fp_goto p h1PhaseTrailers (fp_remaining p), data, k), None)
            else if negb (fp_stream p) && (MaxResponseBody env - zlen (fp_body p) <? size) then ((p, data, k), Some (fpFail errFPBodyTooLarge))
            else ((fp_goto p h1PhaseChunkData size, data, k), None)
        end
  | h1PhaseChunkData =>
      if zlen data =? 0 then more p data k
      else
        let take := Z.min (fp_remaining p) (zlen data) in
        let (p, k) := fpEmit p k (ztake take data) in
        let p := fp_goto p (fp_phase p) (fp_remaining p - take) in
        let p := if fp_remaining p =? 0 then fp_goto p h1PhaseChunkCRLF (fp_remaining p) else p in
        ((p, zdrop take data, k), None)
  | h1PhaseChunkCRLF =>
      if zlen data <? 2 then more p data k
      else if negb (znth data 0 =? 13) || negb (znth data 1 =? 10) then fail p errFPBadResponse
      else ((fp_goto p h1PhaseChunkSize (fp_remaining p), zdrop 2 data, k), None)
  | h1PhaseTrailers =>
      let idx := IndexByte data 10 in
      let budget := MaxHeaderBytes env - fp_trailerBytes p in
      if idx <? 0 then if budget <? zlen data then fail p errFPHeaderTooLarge else more p data k
      else if budget <=? idx then fail p errFPHeaderTooLarge
      else
        let p := fp_trailer p (idx + 1) in
        let line := ztake idx data in
        let line := if (0 <? zlen line) && (znth line (zlen line - 1) =? 13) then ztake (zlen line - 1) line else line in
        ((p, zdrop (idx + 1) data, k), if zlen line =? 0 then Some fpDone else None)
  | h1PhaseBodyEOF =>
      if 0 <? zlen data then
        if negb (fp_stream p) && (MaxResponseBody env <? zlen (fp_body p) + zlen data) then fail p errFPBodyTooLarge
        else let (p, k) := fpEmit p k data in more p [] k
      else more p data k
  end.

(** [advance]: every turn that goes on has taken a byte. *)
Fixpoint fpAdvanceLoop (fuel : nat) (p : fpParser) (data : bytes) (k : fpSink) : option (fpParser * bytes * fpSink * fpResult) :=
  match fuel with
  | O => None
  | S fuel =>
      match fpTurn p data k with
      | ((p, data, k), Some r) => Some (p, data, k, r)
      | ((p, data, k), None) => fpAdvanceLoop fuel p data k
      end
  end.
Definition fpAdvance (p : fpParser) (data : bytes) (k : fpSink) : option (fpParser * bytes * fpSink * fpResult) := fpAdvanceLoop (S (length data)) p data k.

(** ** A connection to a backend *)

(** The exchange under way is pending, or how it ended: the response that
    [completeH1] hands over, the tunnel with the bytes relayed to the client, or the
    error. [c_open] is off once the connection is closed; one that is open and
    has no exchange is idle. Whether an exchange that failed is tried again, and
    how many idle connections are kept, is decided outside. *)
Record fpResponse := mkFpResponse { rs_status : Z; rs_hdr : list field; rs_body : bytes; rs_sink : fpSink; rs_streamed : bool }.
Inductive fpOutcome := fpPending | fpCompleted (r : fpResponse) | fpTunneled (hdr : list field) (relayed : bytes) | fpClosed (e : option fpError).
Record fpConn := mkFpConn { c_parser : fpParser; c_rbuf : bytes; c_sink : fpSink; c_bodyIncomplete : bool; c_outcome : fpOutcome; c_open : bool }.

Definition canIdle (p : fpParser) (rbuf : bytes) : bool := fp_keepAlive p && (zlen rbuf =? 0).
Definition completeH1 (c : fpConn) : fpConn :=
  let p := if c_bodyIncomplete c then fp_noKeepAlive (c_parser c) else c_parser c in
  mkFpConn p (c_rbuf c) (c_sink c) (c_bodyIncomplete c) (fpCompleted (mkFpResponse (fp_status p) (fp_hdr p) (if fp_stream p then [] else fp_body p) (c_sink c) (fp_stream p))) (canIdle p (c_rbuf c)).
(** [closeConn]; without an error it is the peer that closed. *)
Definition fpCloseConn (c : fpConn) (e : option fpError) : fpConn :=
  if negb (c_open c) then c
  else mkFpConn (c_parser c) (c_rbuf c) (c_sink c) (c_bodyIncomplete c) (match c_outcome c with fpPending => fpClosed e | o => o end) false.

Definition onData (c : fpConn) (data : bytes) : option (fpConn * option fpError) :=
  let rbuf := c_rbuf c ++ data in
  match c_outcome c with
  | fpPending =>
      match fpAdvance (c_parser c) rbuf (c_sink c) with
      | None => None
      | Some (p, rbuf, k, r) =>
          let c := mkFpConn p rbuf k (c_bodyIncomplete c) fpPending (c_open c) in
          Some match r with
               | fpMore => (c, None)
               | fpDone => (completeH1 c, None)
               | fpTunnel => (mkFpConn p [] k (c_bodyIncomplete c) (fpTunneled (fp_hdr p) rbuf) (c_open c), None)
               | fpFail e => (c, Some e)
               end
      end
  | _ => Some (mkFpConn (c_parser c) rbuf (c_sink c) (c_bodyIncomplete c) (c_outcome c) (c_open c), Some errFPBadResponse)
  end.
(** [readLoop] with bytes that were read. *)
Definition fpRead (c : fpConn) (data : bytes) : option fpConn :=
  if negb (c_open c) then Some c
  else match c_outcome c with
       | fpTunneled hdr relayed => Some (mkFpConn (c_parser c) (c_rbuf c) (c_sink c) (c_bodyIncomplete c) (fpTunneled hdr (relayed ++ data)) true)
       | _ => match onData c data with
              | None => None
              | Some (c, None) => Some c
              | Some (c, Some e) => Some (fpCloseConn c (Some e))
              end
       end.

Definition onPeerClose (c : fpConn) : fpConn := if bool_decide (fp_phase (c_parser c) = h1PhaseBodyEOF) then completeH1 c else c.
Definition peerClosed (c : fpConn) : fpConn := fpCloseConn (match c_outcome c with fpPending => onPeerClose c | _ => c end) None.

(** A new connection, and the next exchange on an idle one. *)
Definition fpStart (bodyIncomplete : bool) : fpConn := mkFpConn fpReset [] (mkFpSink None []) bodyIncomplete fpPending true.
Definition fpAttach (c : fpConn) (bodyIncomplete : bool) : fpConn := mkFpConn fpReset (c_rbuf c) (mkFpSink None []) bodyIncomplete fpPending (c_open c).
Fixpoint fpRun (c : fpConn) (pieces : list bytes) : option fpConn :=
  match pieces with
  | [] => Some c
  | data :: pieces => match fpRead c data with Some c => fpRun c pieces | None => None end
  end.

End Parser.

(** ** Requests *)

Record fpRequest := mkFpRequest { rq_Method : bytes; rq_Path : bytes; rq_HostHeader : bytes; rq_Authority : bytes; rq_Headers : list field; rq_Upgrade : bytes; rq_Body : bytes; rq_BodySource : bool; rq_BodyLength : Z }.
Definition appendH1Request (dst : bytes) (req : fpRequest) : bytes :=
  let dst := dst ++ rq_Method req ++ [32] ++ (if bytes_eqb (rq_Path req) [] then [47] else rq_Path req) ++ str " HTTP/1.1" ++ fpCRLF ++ str "host: " in
  let dst := dst ++ (if negb (bytes_eqb (rq_HostHeader req) []) then rq_HostHeader req else rq_Authority req) ++ fpCRLF in
  let dst := fold_left (fun dst hd => dst ++ hd.1 ++ [58; 32] ++ hd.2 ++ fpCRLF) (rq_Headers req) dst in
  let dst := if negb (bytes_eqb (rq_Upgrade req) []) then dst ++ str "connection: Upgrade" ++ fpCRLF ++ str "upgrade: " ++ rq_Upgrade req ++ fpCRLF else dst in
  let dst :=
    if rq_BodySource req && (0 <? rq_BodyLength req) then appendUint (dst ++ str "content-length: ") (rq_BodyLength req) ++ fpCRLF
    else if rq_BodySource req then dst ++ str "transfer-encoding: chunked" ++ fpCRLF
    else if (0 <? zlen (rq_Body req)) || bytes_eqb (rq_Method req) (str "POST") || bytes_eqb (rq_Method req) (str "PUT") || bytes_eqb (rq_Method req) (str "PATCH")
         then appendUint (dst ++ str "content-length: ") (zlen (rq_Body req)) ++ fpCRLF
    else dst in
  let dst := dst ++ fpCRLF in
  if rq_BodySource req then dst else dst ++ rq_Body req.
