(* ===== verification/FpH1Proofs.v ===== *)
(** Proofs about responses of backends: the parser reads the same response
    however it arrives in pieces, and reads back what a backend wrote. *)
From stdpp Require Import base list numbers strings.
From Stdlib Require Import ZArith Lia ZifyBool.
From S2P Require Import Prelude Utils HttpText HpackDyn H1Scan H1Head H1HeadProofs FpH1.

Open Scope list_scope.
Open Scope Z_scope.

(** ** Searches in bytes that grow *)

Lemma indexByte_app a b c : 0 <= IndexByte a c -> IndexByte (a ++ b) c = IndexByte a c.
Proof. intros H. destruct (index_split a c H) as (x & y & -> & Hx & ->). rewrite <- app_assoc. cbn [app]. by apply index_first. Qed.

Lemma indexByte_none a c : IndexByte a c < 0 -> c ∉ a.
Proof.
  intros H Hin. apply list_elem_of_split in Hin as (x & y & ->). destruct (decide (c ∈ x)) as [Hx | Hx]; [| rewrite index_first in H by done; pose proof (zlen_nonneg x); lia].
  clear - H Hx. assert (G : forall s i, 0 <= i -> c ∈ s -> 0 <= indexFrom s c i); [| unfold IndexByte in H; pose proof (G (x ++ c :: y) 0 ltac:(lia)); rewrite elem_of_app in H0; specialize (H0 (or_introl Hx)); lia].
  induction s as [| d s IH]; intros i Hi Hs; [by apply not_elem_of_nil in Hs |]. cbn [indexFrom]. destruct (d =? c) eqn:E; [lia |]. apply IH; [lia |]. apply elem_of_cons in Hs as [-> | Hs]; [lia | done].
Qed.

Lemma indexByte_past a b c : IndexByte a c < 0 -> IndexByte (a ++ b) c < 0 \/ zlen a <= IndexByte (a ++ b) c.
Proof.
  intros H. destruct (Z.lt_ge_cases (IndexByte (a ++ b) c) 0) as [| Hge]; [by left | right]. destruct (index_split _ _ Hge) as (x & y & E & Hx & ->). apply indexByte_none in H.
  destruct (Z.le_gt_cases (zlen a) (zlen x)) as [| Hlt]; [done |]. exfalso. apply H. assert (T : take (length a) (a ++ b) = a) by by rewrite take_app_length. rewrite E in T. rewrite <- T. unfold zlen in Hlt.
  rewrite take_app, (take_ge x) by lia. apply elem_of_app. right. destruct (length a - length x)%nat eqn:En; [lia |]. by apply list_elem_of_here.
Qed.

(** The first place where the pattern is, or nowhere. *)
Definition firstAt (s pat x : bytes) : Prop := (exists y, s = x ++ pat ++ y) /\ forall x' y', s = x' ++ pat ++ y' -> zlen x <= zlen x'.

Lemma prefix_take (pat s : bytes) : ztake (zlen pat) s = pat <-> exists y, s = pat ++ y.
Proof. split; [intros H; exists (zdrop (zlen pat) s); by rewrite <- H at 1; rewrite ztake_zdrop | intros (y & ->); apply ztake_app_exact]. Qed.

Lemma bytesIndexFrom_spec s pat i : (exists x, firstAt s pat x /\ bytesIndexFrom s pat i = i + zlen x) \/ ((forall x y, s <> x ++ pat ++ y) /\ bytesIndexFrom s pat i = -1).
Proof.
  revert i. induction s as [| c s IH]; intros i; cbn [bytesIndexFrom]; (destruct (bool_decide _) eqn:E; [apply bool_decide_eq_true in E; apply prefix_take in E as (y & E); left; exists []; split; [split; [by exists y | intros x' y' _; change (zlen (@nil Z)) with 0; apply zlen_nonneg] | change (zlen (@nil Z)) with 0; lia] |]); apply bool_decide_eq_false in E.
  - right. split; [| done]. intros x y H. apply E, prefix_take. destruct x; [by exists y | done].
  - assert (N : forall y, c :: s <> pat ++ y) by (intros y H; apply E, prefix_take; by exists y). destruct (IH (i + 1)) as [(x & [(y & Hy) Hm] & ->) | [Hn ->]].
    + left. exists (c :: x). split; [| rewrite zlen_cons; lia]. split; [exists y; by rewrite Hy |]. intros [| c' x'] y' H; [by apply N in H |]. injection H as <- H. apply Hm in H. rewrite !zlen_cons. lia.
    + right. split; [| done]. intros [| c' x'] y' H; [by apply N in H |]. injection H as <- H. by apply Hn in H.
Qed.

Lemma bytesIndex_cases s pat : (exists x, firstAt s pat x /\ bytesIndex s pat = zlen x) \/ ((forall x y, s <> x ++ pat ++ y) /\ bytesIndex s pat = -1).
Proof. apply bytesIndexFrom_spec. Qed.

Lemma firstAt_unique s pat x x' : firstAt s pat x -> firstAt s pat x' -> x = x'.
Proof.
  intros [(y & E) H] [(y' & E') H']. pose proof (H _ _ E'). pose proof (H' _ _ E). rewrite E in E'. apply app_inj_1 in E' as [? _]; [done |]. unfold zlen in *. lia.
Qed.

Lemma bytesIndex_first s pat x : firstAt s pat x -> bytesIndex s pat = zlen x.
Proof. intros H. destruct (bytesIndex_cases s pat) as [(x' & H' & ->) | [N _]]; [by rewrite (firstAt_unique _ _ _ _ H' H) | destruct H as [(y & E) _]; by apply N in E]. Qed.

Lemma split_before {A} (a b x z : list A) : a ++ b = x ++ z -> zlen a <= zlen x -> exists w, x = a ++ w.
Proof.
  intros E H. exists (drop (length a) x). assert (T : take (length a) (x ++ z) = a) by by rewrite <- E, take_app_length. rewrite take_app_le in T by (unfold zlen in H; lia). rewrite <- T at 1. by rewrite take_drop.
Qed.

Lemma bytesIndex_app (a b pat : bytes) : 0 <= bytesIndex a pat -> bytesIndex (a ++ b) pat = bytesIndex a pat.
Proof.
  intros H. destruct (bytesIndex_cases a pat) as [(x & [(y & E) Hm] & Ex) | [_ E]]; [| lia]. rewrite Ex. apply bytesIndex_first. split; [exists (y ++ b); rewrite E; by rewrite <- !app_assoc |].
  intros x' y' E'. destruct (Z.le_gt_cases (zlen x) (zlen x')) as [| Hlt]; [done |]. assert (L : zlen (x' ++ pat) <= zlen a) by (rewrite E, !zlen_app; pose proof (zlen_nonneg y); lia).
  rewrite app_assoc in E'. symmetry in E'. destruct (split_before _ _ _ _ E' L) as (w & Ew). apply (Hm x' w). by rewrite Ew, <- app_assoc.
Qed.

Lemma bytesIndex_past (a b pat : bytes) : bytesIndex a pat < 0 -> bytesIndex (a ++ b) pat < 0 \/ zlen a < bytesIndex (a ++ b) pat + zlen pat.
Proof.
  intros H. destruct (bytesIndex_cases (a ++ b) pat) as [(x & [(y & E) _] & ->) | [_ ->]]; [right | by left]. destruct (Z.lt_ge_cases (zlen a) (zlen x + zlen pat)) as [| Hge]; [done |]. exfalso.
  rewrite app_assoc in E. symmetry in E. destruct (split_before _ _ _ _ E ltac:(rewrite zlen_app; lia)) as (w & Ew). destruct (bytesIndex_cases a pat) as [(x' & _ & E') | [N _]]; [pose proof (zlen_nonneg x'); lia | by apply (N x w); rewrite Ew, <- app_assoc].
Qed.

(** ** Turns *)

Section Parser.
Context (env : fpEnv).

(** In a body of known length there is something left. *)
Definition fp_ok (p : fpParser) : Prop := match fp_phase p with h1PhaseBodyCL | h1PhaseChunkData => 0 < fp_remaining p | _ => True end.

Lemma emit_fields p k d p' k' : fpEmit p k d = (p', k') -> fp_phase p' = fp_phase p /\ fp_remaining p' = fp_remaining p /\ fp_stream p' = fp_stream p.
Proof. unfold fpEmit. destruct (fp_stream p) eqn:E; intros [= <- <-]; by rewrite ?E. Qed.

Lemma parseHex_nonneg s n : parseHex64Bytes s = Some n -> 0 <= n.
Proof. rewrite parse_hex_spec. destruct (_ && _ && _) eqn:E; [| done]. intros [= <-]. apply horner_mono; [lia | lia |]. apply List.Forall_forall. intros c _. apply hexLookup_range. Qed.

(** A turn that goes on has taken bytes, from the front. *)
Lemma turn_takes p data k p' data' k' : fp_ok p -> fpTurn env p data k = ((p', data', k'), None) -> (exists n, 1 <= n <= zlen data /\ data' = zdrop n data) /\ fp_ok p'.
Proof.
  unfold fp_ok. intros Hr H. unfold fpTurn in H. pose proof (zlen_nonneg data). destruct (fp_phase p) eqn:Ep; cbv zeta in H.
  - destruct (bytesIndex_cases data fpCrlfcrlf) as [(x & [(y & Ey) _] & Ex) | [_ Ex]]; rewrite Ex in H; [| by destruct (_ <? zlen data)]. replace (zlen x <? 0) with false in H by (pose proof (zlen_nonneg x); lia).
    assert (Hn : 1 <= zlen x + 4 <= zlen data) by (rewrite Ey, !zlen_app; change (zlen fpCrlfcrlf) with 4; pose proof (zlen_nonneg x); pose proof (zlen_nonneg y); lia).
    split_if_in H; [done |]. destruct (parseHeaderBlock _ _ _) as [h |]; [| done].
    repeat (split_if_in H; try done); injection H as <- <- <-; (split; [exists (zlen x + 4); done |]); cbn; try done; rewrite ?Ep; try done; cbn in *; lia.
  - split_if_in H; [done |]. by destruct (fpEmit _ _ _).
  - destruct (Z.lt_ge_cases (IndexByte data 10) 0) as [Hi | Hi]; [replace (IndexByte data 10 <? 0) with true in H by lia; by split_if_in H |]. replace (IndexByte data 10 <? 0) with false in H by lia.
    destruct (index_split data 10 Hi) as (x & y & Ey & _ & Ex). assert (Hn : 1 <= IndexByte data 10 + 1 <= zlen data) by (rewrite Ex, Ey, zlen_app, zlen_cons; pose proof (zlen_nonneg x); pose proof (zlen_nonneg y); lia).
    split_if_in H; [done |]. destruct (parseHex64Bytes _) as [size |] eqn:Es; [| done]. apply parseHex_nonneg in Es. split_if_in H. { injection H as <- <- <-. split; [by exists (IndexByte data 10 + 1) | done]. }
    split_if_in H; [done |]. injection H as <- <- <-. split; [by exists (IndexByte data 10 + 1) |]. cbn. lia.
  - split_if_in H; [done |]. destruct (fpEmit _ _ _) as [p1 k1] eqn:Ee. apply emit_fields in Ee as (E1 & E2 & _). injection H as <- <- <-. split; [exists (Z.min (fp_remaining p) (zlen data)); split; [lia | done] |].
    cbn. rewrite E2. split_if; [done |]. cbn. rewrite E1, Ep. lia.
  - split_if_in H; [done |]. split_if_in H; [done |]. injection H as <- <- <-. split; [exists 2; split; [lia | done] | done].
  - destruct (Z.lt_ge_cases (IndexByte data 10) 0) as [Hi | Hi]; [replace (IndexByte data 10 <? 0) with true in H by lia; by split_if_in H |]. replace (IndexByte data 10 <? 0) with false in H by lia.
    destruct (index_split data 10 Hi) as (x & y & Ey & _ & Ex). assert (Hn : 1 <= IndexByte data 10 + 1 <= zlen data) by (rewrite Ex, Ey, zlen_app, zlen_cons; pose proof (zlen_nonneg x); pose proof (zlen_nonneg y); lia).
    split_if_in H; [done |]. injection H as <- <- <- H. split; [by exists (IndexByte data 10 + 1) |]. cbn. by rewrite Ep.
  - split_if_in H; [| done]. split_if_in H; [done |]. by destruct (fpEmit _ _ _).
Qed.

(** ** Bytes that come later *)

Definition later (st : fpParser * bytes * fpSink) (b : bytes) : fpParser * bytes * fpSink := let '(p, a, k) := st in (p, a ++ b, k).

(** A turn that did not wait does the same when more bytes follow; in a body it
    may take more of them at once. *)
Definition partial_body (p : fpParser) (a : bytes) : Prop :=
  match fp_phase p with h1PhaseBodyCL | h1PhaseChunkData => zlen a < fp_remaining p | h1PhaseBodyEOF => True | _ => False end.

#[local] Instance partial_body_dec p a : Decision (partial_body p a).
Proof. unfold partial_body. destruct (fp_phase p); apply _. Defined.

Lemma turn_later p a b k : fp_ok p -> ~ partial_body p a ->
  match fpTurn env p a k with
  | (st, Some fpMore) => st = (p, a, k)
  | (st, Some (fpFail e)) => exists p2 a2, fpTurn env p (a ++ b) k = ((p2, a2, st.2), Some (fpFail e))
  | (st, r) => fpTurn env p (a ++ b) k = (later st b, r)
  end.
Proof.
  unfold fp_ok, partial_body, later. intros Hr Hp. pose proof (zlen_nonneg a). pose proof (zlen_nonneg b). unfold fpTurn. destruct (fp_phase p) eqn:Ep; cbv zeta.
  - destruct (Z.lt_ge_cases (bytesIndex a fpCrlfcrlf) 0) as [Hi | Hi].
    + replace (bytesIndex a fpCrlfcrlf <? 0) with true by lia. destruct (MaxHeaderBytes env <? zlen a) eqn:E; [| done]. exists p, (a ++ b). rewrite zlen_app.
      destruct (bytesIndex_past a b fpCrlfcrlf Hi) as [Hp' | Hp']. { replace (_ <? 0) with true by lia. by replace (MaxHeaderBytes env <? zlen a + zlen b) with true by lia. }
      change (zlen fpCrlfcrlf) with 4 in Hp'. destruct (bytesIndex (a ++ b) fpCrlfcrlf <? 0); [by replace (MaxHeaderBytes env <? zlen a + zlen b) with true by lia | by replace (MaxHeaderBytes env <? bytesIndex (a ++ b) fpCrlfcrlf + 4) with true by lia].
    + rewrite bytesIndex_app by done. replace (bytesIndex a fpCrlfcrlf <? 0) with false by lia. destruct (bytesIndex_cases a fpCrlfcrlf) as [(x & [(y & Ey) _] & Ex) | [_ Ex]]; [| lia].
      assert (Hn : bytesIndex a fpCrlfcrlf + 4 <= zlen a) by (rewrite Ex, Ey, !zlen_app; change (zlen fpCrlfcrlf) with 4; pose proof (zlen_nonneg y); lia). rewrite ztake_app_le, zdrop_app_le by lia.
      destruct (MaxHeaderBytes env <? bytesIndex a fpCrlfcrlf + 4); [by eexists _, _ |]. destruct (parseHeaderBlock _ _ _) as [h |]; [| by eexists _, _].
      repeat (split_if; try done; try (by eexists _, _)).
  - destruct (zlen a =? 0) eqn:E; [done |]. rewrite zlen_app. replace (zlen a + zlen b =? 0) with false by lia. replace (Z.min (fp_remaining p) (zlen a + zlen b)) with (fp_remaining p) by lia. replace (Z.min (fp_remaining p) (zlen a)) with (fp_remaining p) by lia.
    rewrite ztake_app_le, zdrop_app_le by lia. destruct (fpEmit _ _ _) as [p1 k1] eqn:Ee. apply emit_fields in Ee as (E1 & E2 & _). cbn [fp_goto fp_remaining]. rewrite E2, Z.sub_diag. done.
  - destruct (Z.lt_ge_cases (IndexByte a 10) 0) as [Hi | Hi].
    + replace (IndexByte a 10 <? 0) with true by lia. destruct (fpMaxChunkLine <? zlen a) eqn:E; [| done]. exists p, (a ++ b). rewrite zlen_app.
      destruct (indexByte_past a b 10 Hi) as [Hp' | Hp']. { replace (_ <? 0) with true by lia. by replace (fpMaxChunkLine <? zlen a + zlen b) with true by lia. }
      replace (IndexByte (a ++ b) 10 <? 0) with false by lia. by replace (fpMaxChunkLine <=? IndexByte (a ++ b) 10) with true by lia.
    + rewrite indexByte_app by done. replace (IndexByte a 10 <? 0) with false by lia. destruct (index_split a 10 Hi) as (x & y & Ey & _ & Ex).
      assert (Hn : IndexByte a 10 + 1 <= zlen a) by (rewrite Ex, Ey, zlen_app, zlen_cons; pose proof (zlen_nonneg y); lia). rewrite ztake_app_le, zdrop_app_le by lia.
      destruct (fpMaxChunkLine <=? IndexByte a 10); [by eexists _, _ |]. destruct (parseHex64Bytes _) as [size |]; [| by eexists _, _]. repeat (split_if; try done; try (by eexists _, _)).
  - destruct (zlen a =? 0) eqn:E; [done |]. rewrite zlen_app. replace (zlen a + zlen b =? 0) with false by lia. replace (Z.min (fp_remaining p) (zlen a + zlen b)) with (fp_remaining p) by lia. replace (Z.min (fp_remaining p) (zlen a)) with (fp_remaining p) by lia.
    rewrite ztake_app_le, zdrop_app_le by lia. by destruct (fpEmit _ _ _) as [p1 k1].
  - rewrite zlen_app. destruct (zlen a <? 2) eqn:E; [done |]. replace (zlen a + zlen b <? 2) with false by lia. rewrite !znth_app, zdrop_app_le by lia. split_if; [by eexists _, _ | done].
  - destruct (Z.lt_ge_cases (IndexByte a 10) 0) as [Hi | Hi].
    + replace (IndexByte a 10 <? 0) with true by lia. destruct (MaxHeaderBytes env - fp_trailerBytes p <? zlen a) eqn:E; [| done]. exists p, (a ++ b). rewrite zlen_app.
      destruct (indexByte_past a b 10 Hi) as [Hp' | Hp']. { replace (_ <? 0) with true by lia. by replace (MaxHeaderBytes env - fp_trailerBytes p <? zlen a + zlen b) with true by lia. }
      replace (IndexByte (a ++ b) 10 <? 0) with false by lia. by replace (MaxHeaderBytes env - fp_trailerBytes p <=? IndexByte (a ++ b) 10) with true by lia.
    + rewrite indexByte_app by done. replace (IndexByte a 10 <? 0) with false by lia. destruct (index_split a 10 Hi) as (x & y & Ey & _ & Ex).
      assert (Hn : IndexByte a 10 + 1 <= zlen a) by (rewrite Ex, Ey, zlen_app, zlen_cons; pose proof (zlen_nonneg y); lia). rewrite ztake_app_le, zdrop_app_le by lia.
      split_if; [by eexists _, _ |]. match goal with |- context [if ?c then Some fpDone else None] => by destruct c end.
  - done.
Qed.

(** Part of a body: after it the parser waits, and the rest is taken as if the
    parts had come at once. *)
Lemma emit_twice p k a b : let (p1, k1) := fpEmit p k a in fpEmit p k (a ++ b) = fpEmit p1 k1 b.
Proof. unfold fpEmit. destruct (fp_stream p) eqn:E; cbn; rewrite ?E; [by rewrite app_assoc |]. unfold fp_append. cbn. by rewrite app_assoc. Qed.

Lemma zlen_pos_nil {A} (l : list A) : l <> [] -> 0 < zlen l.
Proof. destruct l; [done |]. intros _. rewrite zlen_cons. pose proof (zlen_nonneg l). lia. Qed.

Definition bodyTurn (p : fpParser) (k : fpSink) (d : bytes) : fpParser * bytes * fpSink :=
  let take := Z.min (fp_remaining p) (zlen d) in
  let (p1, k1) := fpEmit p k (ztake take d) in (fp_goto p1 (fp_phase p1) (fp_remaining p1 - take), zdrop take d, k1).

Lemma body_twice p k a b : zlen a < fp_remaining p ->
  let '(p1, rest, k1) := bodyTurn p k a in rest = [] /\ fp_phase p1 = fp_phase p /\ fp_remaining p1 = fp_remaining p - zlen a /\ bodyTurn p k (a ++ b) = bodyTurn p1 k1 b.
Proof.
  intros H. pose proof (zlen_nonneg b). pose proof (zlen_nonneg a). destruct p as [phase status ka nb stream remaining tb hdr body]. cbn [fp_remaining] in *. unfold bodyTurn, fpEmit. cbn [fp_remaining fp_stream fp_phase]. rewrite zlen_app.
  replace (Z.min remaining (zlen a)) with (zlen a) by lia. assert (Ta : ztake (zlen a) a = a) by (unfold ztake, zlen; rewrite Nat2Z.id; by apply take_ge). rewrite Ta, (zdrop_all (zlen a) a) by lia.
  set (take := Z.min remaining (zlen a + zlen b)). assert (Hn : Z.min (remaining - zlen a) (zlen b) = take - zlen a) by (unfold take; lia).
  assert (T2 : ztake take (a ++ b) = a ++ ztake (take - zlen a) b) by (unfold ztake; rewrite take_app, (take_ge a) by (unfold take, zlen in *; lia); do 2 f_equal; unfold take, zlen in *; lia).
  assert (D2 : zdrop take (a ++ b) = zdrop (take - zlen a) b) by (unfold zdrop; rewrite drop_app, (drop_ge a) by (unfold take, zlen in *; lia); cbn; f_equal; unfold take, zlen in *; lia). rewrite T2, D2. clearbody take.
  destruct stream; cbn [fp_append fp_goto fp_phase fp_remaining fp_stream fp_status fp_keepAlive fp_noBody fp_trailerBytes fp_hdr fp_body sk_begin sk_bytes]; split_and!; try done; rewrite Hn; unfold fp_goto, fp_append; cbn; rewrite ?app_assoc; by replace (remaining - zlen a - (take - zlen a)) with (remaining - take) by lia.
Qed.

Lemma body_turn p k d : fp_phase p = h1PhaseBodyCL \/ fp_phase p = h1PhaseChunkData -> fpTurn env p d k =
  if zlen d =? 0 then ((p, d, k), Some fpMore)
  else let '(p1, rest, k1) := bodyTurn p k d in
    if bool_decide (fp_phase p = h1PhaseBodyCL) then ((p1, rest, k1), Some (if fp_remaining p1 =? 0 then fpDone else fpMore))
    else ((if fp_remaining p1 =? 0 then fp_goto p1 h1PhaseChunkCRLF (fp_remaining p1) else p1, rest, k1), None).
Proof. intros H. unfold fpTurn, bodyTurn. destruct H as [H | H]; rewrite H; cbv zeta; (destruct (zlen d =? 0); [done |]); by destruct (fpEmit _ _ _). Qed.

(** The same, or the same error with the same bytes passed on. *)
Definition turn_same (x y : (fpParser * bytes * fpSink) * option fpResult) : Prop := x = y \/ exists e, x.2 = Some (fpFail e) /\ y.2 = Some (fpFail e) /\ x.1.2 = y.1.2.

Lemma turn_body p a b k : fp_ok p -> partial_body p a -> a <> [] ->
  (exists p1 k1 r, fpTurn env p a k = ((p1, [], k1), r) /\ (r = None \/ r = Some fpMore) /\ fp_ok p1 /\ fpTurn env p1 [] k1 = ((p1, [], k1), Some fpMore) /\ (b <> [] -> turn_same (fpTurn env p (a ++ b) k) (fpTurn env p1 b k1))) \/
  (exists e, (exists p' a', fpTurn env p a k = ((p', a', k), Some (fpFail e))) /\ (exists p' a', fpTurn env p (a ++ b) k = ((p', a', k), Some (fpFail e)))).
Proof.
  intros Hok Hp Ha. apply zlen_pos_nil in Ha. pose proof (zlen_nonneg b). unfold fp_ok, partial_body in *.
  assert (B : fp_phase p = h1PhaseBodyCL \/ fp_phase p = h1PhaseChunkData -> zlen a < fp_remaining p -> exists p1 k1 r, fpTurn env p a k = ((p1, [], k1), r) /\ (r = None \/ r = Some fpMore) /\ fp_ok p1 /\
    fpTurn env p1 [] k1 = ((p1, [], k1), Some fpMore) /\ (b <> [] -> turn_same (fpTurn env p (a ++ b) k) (fpTurn env p1 b k1))).
  { intros Hph Hlt. pose proof (body_twice p k a b Hlt) as Hb. rewrite body_turn by done. replace (zlen a =? 0) with false by lia. destruct (bodyTurn p k a) as [[p1 rest] k1]. destruct Hb as (-> & H1 & H2 & H3).
    assert (Hph1 : fp_phase p1 = h1PhaseBodyCL \/ fp_phase p1 = h1PhaseChunkData) by by rewrite H1. replace (fp_remaining p1 =? 0) with false by lia.
    exists p1, k1, (if bool_decide (fp_phase p = h1PhaseBodyCL) then Some fpMore else None). split; [by destruct (bool_decide _) |]. split; [destruct (bool_decide _); tauto |]. split; [unfold fp_ok; destruct Hph1 as [-> | ->]; lia |]. split; [by rewrite body_turn |].
    intros Hn. apply zlen_pos_nil in Hn. rewrite !body_turn, zlen_app by done. replace (zlen a + zlen b =? 0) with false by lia. replace (zlen b =? 0) with false by lia. rewrite H3. destruct (bodyTurn p1 k1 b) as [[p2 rest2] k2]. left. by rewrite H1. }
  destruct (fp_phase p) eqn:Ep; try done; [left; by apply B; [left |] | left; by apply B; [right |] |].
  unfold fpTurn. rewrite Ep, zlen_app. replace (0 <? zlen a) with true by lia. replace (0 <? zlen a + zlen b) with true by lia.
  destruct p as [phase status ka nb stream remaining tb hdr body]. cbn in Ep. subst phase. cbn [fp_stream fp_body fp_phase]. destruct stream; cbn [negb andb].
  - left. unfold fpEmit. cbn [fp_stream]. do 3 eexists. split; [done |]. split; [by right |]. split; [done |]. split; [done |]. intros Hn. apply zlen_pos_nil in Hn. cbn [fp_phase fp_stream negb andb sk_begin sk_bytes]. replace (0 <? zlen b) with true by lia. left. by rewrite app_assoc.
  - destruct (MaxResponseBody env <? zlen body + zlen a) eqn:E.
    + right. exists errFPBodyTooLarge. split; [by eexists _, _ |]. replace (MaxResponseBody env <? zlen body + (zlen a + zlen b)) with true by lia. by eexists _, _.
    + left. unfold fpEmit. cbn [fp_stream]. do 3 eexists. split; [done |]. split; [by right |]. split; [done |]. split; [done |]. intros Hn. apply zlen_pos_nil in Hn. cbn [fp_append fp_phase fp_stream fp_body negb andb]. replace (0 <? zlen b) with true by lia. rewrite zlen_app.
      replace (zlen body + zlen a + zlen b) with (zlen body + (zlen a + zlen b)) by lia. destruct (MaxResponseBody env <? zlen body + (zlen a + zlen b)) eqn:E2; [right; by eexists | left; unfold fp_append; cbn; by rewrite app_assoc].
Qed.

(** ** Advance *)

Lemma fp_loop_fuel f1 f2 p a k : fp_ok p -> (length a < f1)%nat -> (length a < f2)%nat -> fpAdvanceLoop env f1 p a k = fpAdvanceLoop env f2 p a k /\ fpAdvanceLoop env f1 p a k <> None.
Proof.
  revert f2 p a k. induction f1 as [| f1 IH]; intros [| f2] p a k Hok H1 H2; try lia. cbn [fpAdvanceLoop]. destruct (fpTurn env p a k) as [[[p' a'] k'] [r |]] eqn:E; [done |].
  destruct (turn_takes p a k p' a' k' Hok E) as [(n & Hn & ->) Hok']. assert (length (zdrop n a) < length a)%nat by (unfold zdrop; rewrite length_drop; unfold zlen in Hn; lia). apply IH; (done || lia).
Qed.

Definition fpFinal : Type := fpParser * bytes * fpSink * fpResult.
(** Two results are the same; of failed ones only the error and what was passed
    on counts. *)
Definition final_same (x y : option fpFinal) : Prop :=
  x = y \/ exists p a p' a' k e, x = Some (p, a, k, fpFail e) /\ y = Some (p', a', k, fpFail e).
#[local] Instance final_same_refl : Reflexive final_same.
Proof. intros x. by left. Qed.

(** More bytes for a parser that waits; what has ended stays. *)
Definition resume (x : option fpFinal) (b : bytes) : option fpFinal :=
  match x with
  | Some (p, a, k, fpMore) => fpAdvance env p (a ++ b) k
  | Some (p, a, k, r) => Some (p, a ++ b, k, r)
  | None => None
  end.

Lemma advance_unfold p a k : fp_ok p -> fpAdvance env p a k = match fpTurn env p a k with (st, Some r) => Some (st, r) | ((p', a', k'), None) => fpAdvance env p' a' k' end.
Proof.
  intros Hok. unfold fpAdvance at 1. cbn [fpAdvanceLoop]. destruct (fpTurn env p a k) as [[[p' a'] k'] [r |]] eqn:E; [done |]. destruct (turn_takes p a k p' a' k' Hok E) as [(n & Hn & ->) Hok'].
  apply fp_loop_fuel; [done | unfold zdrop; rewrite length_drop; unfold zlen in Hn; lia | lia].
Qed.

Lemma advance_later a b p k : fp_ok p -> final_same (fpAdvance env p (a ++ b) k) (resume (fpAdvance env p a k) b).
Proof.
  remember (length a) as n eqn:Hn. revert a p k Hn. induction n as [n IH] using lt_wf_ind. intros a p k Hn Hok. destruct (decide (partial_body p a)) as [Hp | Hp].
  2: { pose proof (turn_later p a b k Hok Hp) as Ht. rewrite (advance_unfold p a), (advance_unfold p (a ++ b)) by done. destruct (fpTurn env p a k) as [[[p' a'] k'] [r |]] eqn:E.
       - destruct r as [| | | e]; cbn [resume later] in *; [injection Ht as -> -> ->; by rewrite <- advance_unfold | by rewrite Ht | by rewrite Ht |]. destruct Ht as (p2 & a2 & Ht). rewrite Ht. right. eauto 10.
       - rewrite Ht. cbn [later]. destruct (turn_takes p a k p' a' k' Hok E) as [(m & Hm & ->) Hok']. eapply IH; [| reflexivity | done]. unfold zdrop. rewrite length_drop. unfold zlen in Hm. lia. }
  destruct (decide (a = [])) as [-> | Ha].
  { cbn [app]. rewrite (advance_unfold p [] k Hok). assert (fpTurn env p [] k = ((p, [], k), Some fpMore)) as -> by (unfold partial_body, fp_ok in *; destruct (fp_phase p) eqn:Ep; try done; unfold fpTurn; by rewrite Ep). done. }
  rewrite (advance_unfold p (a ++ b) k Hok), (advance_unfold p a k Hok). destruct (turn_body p a b k Hok Hp Ha) as [(p1 & k1 & r & E1 & Hr & Hok1 & E2 & E3) | (e & (p' & a' & ->) & (p2 & a2 & ->))]; [| right; cbn [resume]; eauto 10].
  assert (A1 : match fpTurn env p a k with (st, Some r) => Some (st, r) | ((p', a', k'), None) => fpAdvance env p' a' k' end = Some (p1, [], k1, fpMore)) by (rewrite E1; destruct Hr as [-> | ->]; [rewrite (advance_unfold p1 [] k1 Hok1); by rewrite E2 | done]).
  rewrite A1. cbn [resume app]. destruct (decide (b = [])) as [-> | Hb]. { rewrite app_nil_r, A1, (advance_unfold p1 [] k1 Hok1). by rewrite E2. }
  rewrite (advance_unfold p1 b k1 Hok1). destruct (E3 Hb) as [-> | (e & H1 & H2 & H3)]; [done |]. destruct (fpTurn env p (a ++ b) k) as [[[q1 c1] j1] r1], (fpTurn env p1 b k1) as [[[q2 c2] j2] r2]. cbn in H1, H2, H3. subst. right. eauto 10.
Qed.

Lemma turn_ok p a k p' a' k' : fp_ok p -> fpTurn env p a k = ((p', a', k'), Some fpMore) -> fp_ok p'.
Proof.
  intros Hok E. destruct (decide (partial_body p a)) as [Hp | Hp].
  - destruct (decide (a = [])) as [-> | Ha]. { assert (T : fpTurn env p [] k = ((p, [], k), Some fpMore)) by (unfold partial_body, fp_ok in *; destruct (fp_phase p) eqn:Ep; try done; unfold fpTurn; by rewrite Ep). rewrite T in E. by injection E as <- <- <-. }
    destruct (turn_body p a [] k Hok Hp Ha) as [(p1 & k1 & r & E1 & Hr & Hok1 & _) | (e & (p1 & a1 & E1) & _)]; rewrite E1 in E; [by injection E as <- <- <- | done].
  - pose proof (turn_later p a [] k Hok Hp) as H. rewrite E in H. by injection H as -> -> ->.
Qed.

Lemma advance_ok p a k p' a' k' : fp_ok p -> fpAdvance env p a k = Some (p', a', k', fpMore) -> fp_ok p'.
Proof.
  remember (length a) as n eqn:Hn. revert a p k Hn. induction n as [n IH] using lt_wf_ind. intros a p k Hn Hok. rewrite advance_unfold by done. destruct (fpTurn env p a k) as [[[p1 a1] k1] [r |]] eqn:E.
  - intros [= <- <- <- ->]. by eapply turn_ok.
  - destruct (turn_takes p a k p1 a1 k1 Hok E) as [(m & Hm & ->) Hok']. intros H. eapply IH; [| reflexivity | exact Hok' | exact H]. unfold zdrop. rewrite length_drop. unfold zlen in Hm. lia.
Qed.

Lemma advance_total p a k : fp_ok p -> exists r, fpAdvance env p a k = Some r.
Proof. intros Hok. destruct (fp_loop_fuel (S (length a)) (S (length a)) p a k Hok ltac:(lia) ltac:(lia)) as [_ H]. unfold fpAdvance. destruct (fpAdvanceLoop _ _ _ _ _) as [r |]; [by exists r | done]. Qed.

(** ** Pieces *)

(** What an exchange shows: the response, the tunnel, the error, with what was
    passed on; or the state it waits in. *)
Inductive fpSeen := seenPending (p : fpParser) (rbuf : bytes) (k : fpSink) | seenResponse (status : Z) (hdr : list field) (body : bytes) (k : fpSink) (streamed : bool) | seenTunnel (hdr : list field) (relayed : bytes) (k : fpSink) | seenClosed (e : option fpError) (k : fpSink).
Definition seen (c : fpConn) : fpSeen :=
  match c_outcome c with
  | fpPending => seenPending (c_parser c) (c_rbuf c) (c_sink c)
  | fpCompleted r => seenResponse (rs_status r) (rs_hdr r) (rs_body r) (rs_sink r) (rs_streamed r)
  | fpTunneled hdr relayed => seenTunnel hdr relayed (c_sink c)
  | fpClosed e => seenClosed e (c_sink c)
  end.

Definition waiting (p : fpParser) (rbuf : bytes) (k : fpSink) (inc : bool) : fpConn := mkFpConn p rbuf k inc fpPending true.
Definition finish (inc : bool) (x : fpFinal) : fpConn :=
  let '(p, rbuf, k, r) := x in
  match r with
  | fpMore => waiting p rbuf k inc
  | fpDone => completeH1 (waiting p rbuf k inc)
  | fpTunnel => mkFpConn p [] k inc (fpTunneled (fp_hdr p) rbuf) true
  | fpFail e => mkFpConn p rbuf k inc (fpClosed (Some e)) false
  end.

Lemma read_finish p rbuf k inc data : fpRead env (waiting p rbuf k inc) data = finish inc <$> fpAdvance env p (rbuf ++ data) k.
Proof. unfold fpRead, onData, waiting. cbn [c_outcome c_parser c_rbuf c_sink c_bodyIncomplete c_open negb]. by destruct (fpAdvance env p (rbuf ++ data) k) as [[[[p' rbuf'] k'] []] |]. Qed.

(** What has ended stays; an idle connection is closed by bytes nobody asked
    for, a tunnel relays them. *)
Lemma run_over c pieces : match c_outcome c with fpCompleted _ | fpClosed _ => True | _ => False end ->
  exists c2, fpRun env c pieces = Some c2 /\ c_outcome c2 = c_outcome c /\ c_sink c2 = c_sink c /\ c_open c2 = c_open c && bool_decide (pieces = []).
Proof.
  revert c. induction pieces as [| d pieces IH]; intros c H; [exists c; by rewrite bool_decide_true, andb_true_r |]. cbn [fpRun]. rewrite (bool_decide_false (d :: pieces = [])) by done. rewrite andb_false_r. unfold fpRead, onData.
  destruct (c_open c) eqn:Eo; cbn [negb]; [| destruct (IH c H) as (c2 & H1 & H2 & H3 & H4); rewrite Eo in H4; by exists c2].
  destruct (c_outcome c) eqn:Ec; try done; unfold fpCloseConn; cbn [c_open c_outcome negb]; match goal with |- context [fpRun env ?c1 pieces] => destruct (IH c1 I) as (c2 & H1 & H2 & H3 & H4) end; by exists c2.
Qed.
Lemma run_tunnel p k inc hdr relayed pieces : fpRun env (mkFpConn p [] k inc (fpTunneled hdr relayed) true) pieces = Some (mkFpConn p [] k inc (fpTunneled hdr (relayed ++ concat pieces)) true).
Proof. revert relayed. induction pieces as [| d pieces IH]; intros relayed; cbn [fpRun concat]; [by rewrite app_nil_r |]. cbn. rewrite IH. by rewrite app_assoc. Qed.

Lemma seen_final inc x y : final_same (Some x) (Some y) -> seen (finish inc x) = seen (finish inc y) /\ c_open (finish inc x) = c_open (finish inc y).
Proof. intros [[= ->] | (p & a & p' & a' & k & e & [= ->] & [= ->])]; done. Qed.

Lemma idle_later p (rbuf more : bytes) (inc : bool) : canIdle (if inc then fp_noKeepAlive p else p) (rbuf ++ more) = canIdle (if inc then fp_noKeepAlive p else p) rbuf && bool_decide (more = []).
Proof.
  unfold canIdle. rewrite zlen_app. destruct more as [| b more]; [rewrite bool_decide_true by done; change (zlen (@nil Z)) with 0; by rewrite Z.add_0_r, andb_true_r |]. rewrite bool_decide_false by done. rewrite zlen_cons. pose proof (zlen_nonneg more). pose proof (zlen_nonneg rbuf).
  replace (zlen rbuf + (1 + zlen more) =? 0) with false by lia. by rewrite !andb_false_r.
Qed.

(** The same to see, and the connection is open or not. *)
Definition conn_same (c c' : fpConn) : Prop := seen c = seen c' /\ c_open c = c_open c' /\ (c_outcome c = fpPending -> c = c').

(** Pieces that come after an end are bytes that came with it. *)
Lemma run_end p rbuf k inc r pieces : r <> fpMore -> Forall (fun d => d <> []) pieces ->
  exists c, fpRun env (finish inc (p, rbuf, k, r)) pieces = Some c /\ conn_same c (finish inc (p, rbuf ++ concat pieces, k, r)).
Proof.
  intros Hr Hp. assert (Hcat : bool_decide (concat pieces = []) = bool_decide (pieces = [])) by (apply bool_decide_ext; destruct Hp as [| [| x d] pieces Hd]; done).
  destruct r as [| | | e]; [done | | |]; cbn [finish].
  - destruct (run_over (completeH1 (waiting p rbuf k inc)) pieces I) as (c & H1 & H2 & H3 & H4). exists c. split; [done |]. unfold conn_same, seen. rewrite H2. split; [done |]. split; [| done]. rewrite H4. cbn [completeH1 waiting c_open c_parser c_rbuf c_bodyIncomplete]. by rewrite idle_later, Hcat.
  - rewrite run_tunnel. by eexists.
  - destruct (run_over (mkFpConn p rbuf k inc (fpClosed (Some e)) false) pieces I) as (c & H1 & H2 & H3 & H4). exists c. split; [done |]. unfold conn_same, seen. by rewrite H2, H3, H4.
Qed.

Lemma run_pieces pieces p rbuf k inc : fp_ok p -> pieces <> [] -> Forall (fun d => d <> []) pieces ->
  exists c c', fpRun env (waiting p rbuf k inc) pieces = Some c /\ fpRead env (waiting p rbuf k inc) (concat pieces) = Some c' /\ conn_same c c'.
Proof.
  revert p rbuf k. induction pieces as [| d pieces IH]; intros p rbuf k Hok Hn Hps; [done |]. apply Forall_cons_1 in Hps as [Hd Hps].
  cbn [fpRun concat]. rewrite !read_finish, (app_assoc rbuf). destruct (advance_total p (rbuf ++ d) k Hok) as (r & Er). pose proof (advance_later (rbuf ++ d) (concat pieces) p k Hok) as H. rewrite Er in H |- *. cbn [fmap option_fmap option_map].
  destruct (advance_total p ((rbuf ++ d) ++ concat pieces) k Hok) as (r' & Er'). rewrite Er' in H |- *. destruct r as [[[p1 rbuf1] k1] res]. destruct (decide (res = fpMore)) as [-> | Hres].
  2: { destruct (run_end p1 rbuf1 k1 inc res pieces Hres Hps) as (c & -> & S1 & S2 & S3). exists c, (finish inc r'). split; [done |]. split; [done |]. assert (Hf : final_same (Some r') (Some (p1, rbuf1 ++ concat pieces, k1, res))) by by destruct res.
       destruct (seen_final inc _ _ Hf) as [F1 F2]. unfold conn_same. rewrite F1, F2. split; [done |]. split; [done |]. intros Hc. exfalso. specialize (S3 Hc). subst c. by destruct res. }
  pose proof (advance_ok _ _ _ _ _ _ Hok Er) as Hok1. cbn [resume] in H. destruct (decide (pieces = [])) as [-> | Hne].
  { cbn [fpRun concat] in *. rewrite !app_nil_r in *. rewrite Er in Er'. injection Er' as <-. by eexists _, _. }
  destruct (IH p1 rbuf1 k1 Hok1 Hne Hps) as (c & c' & E1 & E2 & S1 & S2 & S3). rewrite read_finish in E2. cbn [finish]. rewrite E1. exists c, (finish inc r'). split; [done |]. split; [done |].
  destruct (fpAdvance env p1 (rbuf1 ++ concat pieces) k1) as [r2 |]; [| done]. injection E2 as <-. destruct (seen_final inc _ _ H) as [F1 F2]. unfold conn_same. rewrite F1, F2. split; [done |]. split; [done |]. intros Hc. specialize (S3 Hc). subst c.
  destruct H as [[= ->] | (q & b & q' & b' & j & e & [= ->] & [= ->])]; done.
Qed.
End Parser.

(** ** What a backend writes *)

Definition cleanByte (c : Z) : bool := negb (c =? 13) && negb (c =? 10) && negb (c =? 0).
Definition cleanLine (l : bytes) : Prop := l <> [] /\ forallb cleanByte l = true.

(** Lines with CRLF between them. *)
Fixpoint joinLines (l : bytes) (lines : list bytes) : bytes := match lines with [] => l | m :: lines => l ++ fpCRLF ++ joinLines m lines end.

Lemma clean_no l c : forallb cleanByte l = true -> cleanByte c = false -> c ∉ l.
Proof. intros H Hc Hin. rewrite forallb_forall in H. apply list_elem_of_In in Hin. rewrite H in Hc by done. done. Qed.

Lemma clean_head l : cleanLine l -> exists c l', l = c :: l' /\ c <> 13.
Proof. intros [H1 H2]. destruct l as [| c l]; [done |]. exists c, l. split; [done |]. cbn [forallb] in H2. unfold cleanByte in H2. lia. Qed.

Lemma inside_prefix (l z x y : bytes) c : l ++ z = x ++ c :: y -> zlen x < zlen l -> c ∈ l.
Proof.
  intros E H. destruct (split_before x (c :: y) l z (eq_sym E) ltac:(lia)) as (w & ->). rewrite zlen_app in H. destruct w as [| d w]; [change (zlen (@nil Z)) with 0 in H; lia |].
  rewrite <- app_assoc in E. apply app_inv_head in E. injection E as -> _. apply elem_of_app. right. by apply list_elem_of_here.
Qed.

(** The end of a head is the first empty line. *)
Lemma first_blank l lines rest : cleanLine l -> Forall cleanLine lines -> firstAt (joinLines l lines ++ fpCrlfcrlf ++ rest) fpCrlfcrlf (joinLines l lines).
Proof.
  intros Hl Hls. split; [by exists rest |]. revert l Hl. induction Hls as [| m lines Hm Hls IH]; intros l Hl x' y' E; cbn [joinLines] in *.
  all: destruct (Z.le_gt_cases (zlen l) (zlen x')) as [Hle | Hlt]; [| exfalso; destruct Hl as [_ Hc]; apply (clean_no l 13 Hc); [done |]].
  2, 4: eapply inside_prefix; [rewrite <- ?app_assoc in E; exact E | done].
  - lia.
  - rewrite <- !app_assoc in E. destruct (split_before l _ x' _ E ltac:(lia)) as (w & ->). rewrite <- app_assoc in E. apply app_inv_head in E. rewrite !zlen_app.
    destruct w as [| w1 [| w2 w]].
    + exfalso. destruct (clean_head m Hm) as (c & m' & Em & Hc). cbn [app fpCRLF fpCrlfcrlf] in E. destruct lines; cbn [joinLines] in E; rewrite Em in E; cbn [app] in E; injection E; intros; congruence.
    + exfalso. cbn [app fpCRLF fpCrlfcrlf] in E. injection E. congruence.
    + cbn [app fpCRLF] in E. injection E as <- <- E. specialize (IH m Hm w y' E). rewrite !zlen_cons. change (zlen fpCRLF) with 2. lia.
Qed.

Lemma fp_cut_line l m lines u : forallb cleanByte l = true -> fpCutLine (l ++ fpCRLF ++ joinLines m lines) u = (l, joinLines m lines, u - 1).
Proof.
  intros H. unfold fpCutLine. replace (l ++ fpCRLF ++ joinLines m lines) with ((l ++ [13]) ++ 10 :: joinLines m lines) by (rewrite <- app_assoc; done).
  rewrite index_first by (rewrite not_elem_of_app; split; [by eapply clean_no | intros Hin; apply list_elem_of_singleton in Hin; done]). replace (zlen (l ++ [13]) <? 0) with false by (pose proof (zlen_nonneg (l ++ [13])); lia).
  rewrite ztake_app_exact, zdrop_cons, zlen_snoc. pose proof (zlen_nonneg l). replace (0 <? zlen l + 1) with true by lia. replace (zlen l + 1 - 1) with (zlen l) by lia.
  assert (znth (l ++ [13]) (zlen l) = 13) as -> by (unfold znth, zlen; rewrite Nat2Z.id, app_nth2, Nat.sub_diag by lia; done). cbn [Z.eqb Pos.eqb andb]. by rewrite ztake_app_exact.
Qed.

Lemma cut_last l u : cleanLine l -> fpCutLine l u = (l, [], u).
Proof.
  intros [Hn H]. unfold fpCutLine. rewrite index_absent by by eapply clean_no. change (-1 <? 0) with true. cbv iota zeta.
  destruct ((0 <? zlen l) && (znth l (zlen l - 1) =? 13)) eqn:E; [| done]. exfalso. apply (clean_no l 13 H); [done |]. apply andb_true_iff in E as [E1 E2]. assert (znth l (zlen l - 1) = 13) as <- by lia.
  unfold znth. apply list_elem_of_In, nth_In. unfold zlen in *. lia.
Qed.

(** ** Heads *)

Definition lowerName (n : bytes) : bytes := map (fun c => if isUpper c then c + 97 - 65 else c) n.
Definition field_ok (f : field) : Prop := f.1 <> [] /\ forallb h1TokenChar f.1 = true /\ forallb cleanByte f.2 = true /\ trimOWS f.2 = f.2.
Definition fieldText (f : field) : bytes := f.1 ++ 58 :: 32 :: f.2.

Lemma fp_token_clean c : h1TokenChar c = true -> cleanByte c = true.
Proof. intros H. destruct (cleanByte c) eqn:E; [done |]. exfalso. unfold cleanByte in E. assert (c = 13 \/ c = 10 \/ c = 0) as [-> | [-> | ->]] by lia; done. Qed.
Lemma token_not_colon c : h1TokenChar c = true -> c <> 58.
Proof. by intros H ->. Qed.

Lemma fieldText_clean f : field_ok f -> cleanLine (fieldText f).
Proof.
  intros (H1 & H2 & H3 & _). split; [unfold fieldText; by destruct f.1 |]. unfold fieldText. rewrite forallb_app. cbn [forallb]. rewrite H3. cbn. rewrite andb_true_r. apply forallb_forall. intros c Hc. rewrite forallb_forall in H2. by apply fp_token_clean, H2.
Qed.

Lemma lower_scan n acc rest i : forallb h1TokenChar n = true -> lowerFieldNameUntilColon (n ++ 58 :: rest) acc i = Some (acc ++ lowerName n, i + zlen n).
Proof.
  revert acc i. induction n as [| c n IH]; intros acc i H. { cbn. rewrite app_nil_r. do 2 f_equal. change (zlen (@nil Z)) with 0. lia. }
  cbn [forallb] in H. apply andb_true_iff in H as [Hc H]. cbn [app lowerFieldNameUntilColon]. rewrite Hc, IH by done. cbn [lowerName map]. rewrite <- app_assoc, zlen_cons. cbn [app]. do 2 f_equal. lia.
Qed.

Definition foldFields (fs : list field) (h : fpHead) : option fpHead := foldl (fun h f => h ≫= fun h => fpField h (lowerName f.1) f.2) (Some h) fs.
Lemma foldFields_cons f fs h : foldFields (f :: fs) h = fpField h (lowerName f.1) f.2 ≫= foldFields fs.
Proof. unfold foldFields. cbn [foldl]. change (Some h ≫= ?g) with (g h). cbv beta. destruct (fpField h (lowerName f.1) f.2) as [h' |]; [done |]. cbn. induction fs as [| g fs IH]; [done |]. exact IH. Qed.

Lemma lower_len n : zlen (lowerName n) = zlen n.
Proof. unfold lowerName, zlen. by rewrite length_map. Qed.

Lemma field_loop fs f fuel h u : Forall field_ok (f :: fs) -> (length (joinLines (fieldText f) (map fieldText fs)) < fuel)%nat ->
  fpFieldLoop fuel (joinLines (fieldText f) (map fieldText fs)) h u = (fun h => (h, u - zlen fs)) <$> foldFields (f :: fs) h.
Proof.
  revert f fuel h u. induction fs as [| g fs IH]; intros f fuel h u Hok Hf; apply Forall_cons_1 in Hok as [Hf0 Hfs]; (destruct fuel as [| fuel]; [lia |]); rewrite foldFields_cons; cbn [fpFieldLoop].
  all: pose proof (fieldText_clean f Hf0) as [Hn Hc]; destruct Hf0 as (F1 & F2 & F3 & F4); assert (Hz : 0 < zlen (fieldText f)) by by apply zlen_pos_nil.
  all: assert (Hs : lowerFieldNameUntilColon (fieldText f) [] 0 = Some (lowerName f.1, zlen f.1)) by (unfold fieldText; by rewrite lower_scan).
  all: assert (Hv : trimOWS (zdrop (zlen f.1 + 1) (fieldText f)) = f.2) by (unfold fieldText; rewrite zdrop_cons; by apply trim_space).
  all: assert (Hl : (zlen (lowerName f.1) =? 0) = false) by (rewrite lower_len; apply zlen_pos_nil in F1; lia).
  - cbn [map joinLines]. replace (zlen (fieldText f) =? 0) with false by lia. rewrite cut_last by done. replace (zlen (fieldText f) =? 0) with false by lia. rewrite Hs, Hl, Hv. destruct (fpField h (lowerName f.1) f.2) as [h' |]; [| done]. cbn [mbind option_bind].
    destruct fuel as [| fuel]; [cbn in Hf; unfold zlen in Hz; cbn [map joinLines] in Hf; lia |]. cbn [fpFieldLoop]. change (zlen (@nil Z) =? 0) with true. cbn. by rewrite Z.sub_0_r.
  - cbn [map joinLines] in *. assert (Hz2 : 0 < zlen (fieldText f ++ fpCRLF ++ joinLines (fieldText g) (map fieldText fs))) by (rewrite zlen_app; pose proof (zlen_nonneg (fpCRLF ++ joinLines (fieldText g) (map fieldText fs))); lia).
    replace (zlen (fieldText f ++ fpCRLF ++ joinLines (fieldText g) (map fieldText fs)) =? 0) with false by lia. rewrite fp_cut_line by done. replace (zlen (fieldText f) =? 0) with false by lia. rewrite Hs, Hl, Hv. destruct (fpField h (lowerName f.1) f.2) as [h' |]; [| done]. cbn [mbind option_bind].
    rewrite IH; [| done | rewrite !length_app in Hf; cbn in Hf; lia]. destruct (foldFields (g :: fs) h') as [h'' |]; [| done]. cbn. rewrite zlen_cons. do 2 f_equal. lia.
Qed.

Lemma countCR_app a b : countCR (a ++ b) = countCR a + countCR b.
Proof. unfold countCR. by rewrite List.filter_app, zlen_app. Qed.
Lemma countCR_clean l : forallb cleanByte l = true -> countCR l = 0.
Proof. unfold countCR. induction l as [| c l IH]; [done |]. cbn [forallb List.filter]. intros H. apply andb_true_iff in H as [Hc H]. assert ((13 =? c) = false) as -> by (unfold cleanByte in Hc; lia). by apply IH. Qed.
Lemma countCR_join l lines : cleanLine l -> Forall cleanLine lines -> countCR (joinLines l lines) = zlen lines /\ 0 ∉ joinLines l lines.
Proof.
  intros Hl Hls. revert l Hl. induction Hls as [| m lines Hm Hls IH]; intros l [Hn Hl]; cbn [joinLines]; [split; [by apply countCR_clean | by eapply clean_no] |].
  destruct (IH m Hm) as [I1 I2]. rewrite !countCR_app, I1, (countCR_clean l Hl), zlen_cons. split; [done |]. rewrite !not_elem_of_app. split_and!; [by eapply clean_no | | done]. intros H. apply list_elem_of_In in H. cbn in H. lia.
Qed.

(** The status line: the minor version, three digits and a reason. *)
Definition statusText (minor status : Z) (reason : bytes) : bytes :=
  str "HTTP/1." ++ [minor; 32; 48 + status / 100; 48 + status / 10 mod 10; 48 + status mod 10; 32] ++ reason.
Definition headText (minor status : Z) (reason : bytes) (fs : list field) : bytes := joinLines (statusText minor status reason) (map fieldText fs).

Lemma digits_of status : 100 <= status <= 999 -> 1 <= status / 100 <= 9 /\ 0 <= status / 10 mod 10 <= 9 /\ 0 <= status mod 10 <= 9 /\ (status / 100) * 100 + (status / 10 mod 10) * 10 + status mod 10 = status.
Proof. intros H. Z.to_euclidean_division_equations. lia. Qed.

Lemma status_clean minor status reason : (minor = 48 \/ minor = 49) -> 100 <= status <= 999 -> forallb cleanByte reason = true -> cleanLine (statusText minor status reason).
Proof.
  intros Hm Hs Hr. destruct (digits_of status Hs) as (D1 & D2 & D3 & _). split; [done |]. unfold statusText. rewrite !forallb_app, Hr. change (forallb cleanByte (str "HTTP/1.")) with true. cbn [forallb]. unfold cleanByte. destruct Hm as [-> | ->]; lia.
Qed.

Definition head0 (minor status : Z) (method : bytes) : fpHead := mkFpHead status (minor =? 49) (bytes_eqb method (str "HEAD") || (status =? 204) || (status =? 304)) [] false (-1).
Definition dropLength (h : fpHead) : fpHead := if hd_chunked h then mkFpHead (hd_status h) (hd_keepAlive h) (hd_noBody h) (hd_fields h) true (-1) else h.

Lemma parse_head minor status reason fs method : (minor = 48 \/ minor = 49) -> 100 <= status <= 999 -> forallb cleanByte reason = true -> Forall field_ok fs ->
  parseHeaderBlock [] (headText minor status reason fs) method = dropLength <$> foldFields fs (head0 minor status method).
Proof.
  intros Hm Hs Hr Hfs. pose proof (status_clean minor status reason Hm Hs Hr) as Hst. assert (Hls : Forall cleanLine (map fieldText fs)) by (apply List.Forall_map; eapply List.Forall_impl; [| exact Hfs]; apply fieldText_clean).
  destruct (countCR_join _ _ Hst Hls) as [Hcr Hnul]. unfold parseHeaderBlock, fpCountCRFindNUL, headText. rewrite Hcr, (index_absent _ 0 Hnul). change (0 <=? -1) with false. cbv iota.
  assert (Hcut : exists rest u, fpCutLine (joinLines (statusText minor status reason) (map fieldText fs)) (zlen (map fieldText fs)) = (statusText minor status reason, rest, u) /\
    forall h, fpFieldLoop (S (length rest)) rest h u = (fun h => (h, 0)) <$> foldFields fs h).
  { destruct fs as [| f fs].
    - cbn [map joinLines]. rewrite cut_last by done. by eexists _, _.
    - cbn [map joinLines]. rewrite fp_cut_line by apply Hst. eexists _, _. split; [done |]. intros h. rewrite field_loop by (done || lia). rewrite zlen_cons. replace (1 + zlen (map fieldText fs) - 1 - zlen fs) with 0 by (unfold zlen; rewrite length_map; lia). done. }
  destruct Hcut as (rest & u & -> & Hloop). destruct (digits_of status Hs) as (D1 & D2 & D3 & D4).
  assert ((zlen (statusText minor status reason) <? 12) = false) as -> by (unfold statusText; rewrite !zlen_app; change (zlen (str "HTTP/1.")) with 7; cbn [zlen length]; pose proof (zlen_nonneg reason); unfold zlen; cbn [length]; lia).
  assert (bytes_eqb (ztake 7 (statusText minor status reason)) (str "HTTP/1.") = true) as -> by (apply bytes_eqb_spec; unfold statusText; apply (ztake_app_exact (str "HTTP/1."))).
  assert (Hnth : forall i x, nth_error [minor; 32; 48 + status / 100; 48 + status / 10 mod 10; 48 + status mod 10; 32] i = Some x -> znth (statusText minor status reason) (7 + Z.of_nat i) = x).
  { intros i x Hx. unfold znth, statusText. rewrite app_nth2 by (change (length (str "HTTP/1.")) with 7%nat; lia). change (length (str "HTTP/1.")) with 7%nat. replace (Z.to_nat (7 + Z.of_nat i) - 7)%nat with i by lia.
    rewrite app_nth1 by (apply nth_error_Some; by rewrite Hx). by apply nth_error_nth. }
  pose proof (Hnth 0%nat minor eq_refl) as N0. pose proof (Hnth 1%nat 32 eq_refl) as N1. pose proof (Hnth 2%nat _ eq_refl) as N2. pose proof (Hnth 3%nat _ eq_refl) as N3. pose proof (Hnth 4%nat _ eq_refl) as N4.
  change (7 + Z.of_nat 0) with 7 in N0. change (7 + Z.of_nat 1) with 8 in N1. change (7 + Z.of_nat 2) with 9 in N2. change (7 + Z.of_nat 3) with 10 in N3. change (7 + Z.of_nat 4) with 11 in N4. rewrite N0, N1, N2, N3, N4. change (32 =? 32) with true. cbn [negb orb].
  assert (isDigit (48 + status / 100) && isDigit (48 + status / 10 mod 10) && isDigit (48 + status mod 10) = true) as -> by (unfold isDigit; lia). cbn [negb]. cbv zeta.
  replace ((48 + status / 100 - 48) * 100 + (48 + status / 10 mod 10 - 48) * 10 + (48 + status mod 10 - 48)) with status by lia.
  rewrite Hloop. fold (head0 minor status method). destruct (foldFields fs (head0 minor status method)) as [h |]; [| done]. cbn. done.
Qed.

(** ** What the fields say of the body *)

Lemma fpEqualFold_spec b s : fpEqualFold b s = bytes_eqb (lowerName b) s.
Proof.
  unfold fpEqualFold. revert s. induction b as [| c b IH]; intros [| d s]; try done.
  - rewrite !zlen_cons. cbn [zip_with forallb fst snd lowerName map]. fold (lowerName b). specialize (IH s). unfold bytes_eqb in *. destruct ((if isUpper c then c + 97 - 65 else c) =? d) eqn:E.
    + assert ((if isUpper c then c + 97 - 65 else c) = d) as -> by lia. replace (1 + zlen b =? 1 + zlen s) with (zlen b =? zlen s) by lia. cbn [andb]. unfold zip in *. rewrite IH. destruct (decide (lowerName b = s)) as [-> | Hn]; [by rewrite !bool_decide_true | rewrite !bool_decide_false; [done | by injection 1 | done]].
    + cbn [andb]. rewrite andb_false_r, bool_decide_false; [done |]. injection 1. lia.
Qed.

Lemma lower_idem n : lowerName (lowerName n) = lowerName n.
Proof. unfold lowerName. rewrite map_map. apply map_ext. intros c. unfold isUpper. destruct ((65 <=? c) && (c <=? 90)) eqn:E; [| by rewrite E]. replace ((65 <=? c + 97 - 65) && (c + 97 - 65 <=? 90)) with false by lia. done. Qed.

Definition named (name : bytes) (f : field) : bool := bytes_eqb (lowerName f.1) name.

Lemma ParseInt_digits s n : spells is_digit digit_of 10 s n -> s <> [] -> n < 2 ^ 63 -> ParseInt s = Some n.
Proof.
  intros [Hs Hn] Hne Hlt. assert (P : forall s n, forallb is_digit s = true -> parseDigits s n = Some (horner 10 digit_of s n)).
  { clear. induction s as [| c s IH]; intros n H; [done |]. cbn [forallb parseDigits] in *. apply andb_true_iff in H as [Hc H]. unfold is_digit in Hc. rewrite Hc. by rewrite IH. }
  unfold ParseInt. destruct s as [| c s]; [done |]. assert (Hc : 48 <= c <= 57) by (cbn [forallb] in Hs; unfold is_digit in Hs at 1; lia).
  assert (E : (match c :: s with 43 :: d => (false, d) | 45 :: d => (true, d) | _ => (false, c :: s) end) = (false, c :: s)).
  { assert (c = 48 \/ c = 49 \/ c = 50 \/ c = 51 \/ c = 52 \/ c = 53 \/ c = 54 \/ c = 55 \/ c = 56 \/ c = 57) as Hd by lia. destruct Hd as [-> | [-> | [-> | [-> | [-> | [-> | [-> | [-> | [-> | ->]]]]]]]]]; done. }
  rewrite E. assert (bytes_eqb (c :: s) [] = false) as -> by (unfold bytes_eqb; by rewrite bool_decide_false). rewrite P by done. rewrite Hn. by replace (2 ^ 63 <=? n) with false by lia.
Qed.

(** Content-Length fields all say [n], Transfer-Encoding fields all "chunked". *)
Definition framing_ok (n : Z) (fs : list field) : Prop :=
  Forall (fun f => (named (str "content-length") f = true -> spells is_digit digit_of 10 f.2 n /\ f.2 <> []) /\ (named (str "transfer-encoding") f = true -> f.2 = str "chunked")) fs.
Definition lowered (fs : list field) : list field := map (fun f => (lowerName f.1, f.2)) fs.

Lemma fold_framing n fs h : 0 <= n < 2 ^ 63 -> framing_ok n fs -> hd_contentLen h = -1 \/ hd_contentLen h = n ->
  exists h', foldFields fs h = Some h' /\ hd_fields h' = hd_fields h ++ lowered fs /\ hd_status h' = hd_status h /\ hd_noBody h' = hd_noBody h /\
    hd_chunked h' = hd_chunked h || existsb (named (str "transfer-encoding")) fs /\ hd_contentLen h' = if existsb (named (str "content-length")) fs then n else hd_contentLen h.
Proof.
  intros Hn Hf. revert h. induction Hf as [| f fs [H1 H2] _ IH]; intros h Hc; [exists h; cbn; by rewrite app_nil_r, orb_false_r |]. rewrite foldFields_cons. cbn [existsb lowered map].
  unfold fpField. rewrite !fpEqualFold_spec, lower_idem. fold (named (str "content-length") f) (named (str "transfer-encoding") f). cbn [hd_status hd_keepAlive hd_noBody hd_fields hd_chunked hd_contentLen].
  destruct (named (str "content-length") f) eqn:E1.
  - destruct (H1 eq_refl) as [Hs Hne]. rewrite (ParseInt_digits _ _ Hs Hne) by lia. assert (Hx : named (str "transfer-encoding") f = false) by (unfold named in *; apply bytes_eqb_spec in E1; by rewrite E1). rewrite Hx.
    replace ((n <? 0) || (0 <=? hd_contentLen h) && negb (hd_contentLen h =? n)) with false by lia. cbn [mbind option_bind].
    match goal with |- context [foldFields fs ?h1] => destruct (IH h1 ltac:(by right)) as (h' & -> & I1 & I2 & I3 & I4 & I5) end. exists h'. cbn [hd_status hd_noBody hd_fields hd_chunked hd_contentLen orb] in *. rewrite I1, <- app_assoc. split_and!; try done. rewrite I5. by destruct (existsb (named (str "content-length")) fs).
  - destruct (named (str "transfer-encoding") f) eqn:E2.
    + rewrite (H2 eq_refl). change (fpContainsTokenFold (str "chunked") (str "chunked")) with true. cbn [mbind option_bind].
      match goal with |- context [foldFields fs ?h1] => destruct (IH h1 Hc) as (h' & -> & I1 & I2 & I3 & I4 & I5) end. exists h'. cbn [hd_status hd_noBody hd_fields hd_chunked hd_contentLen orb] in *. rewrite I1, <- app_assoc. split_and!; try done. rewrite I4. by rewrite !orb_true_r.
    + match goal with |- context [if ?b then Some (mkFpHead _ (if ?x then false else if ?y then true else _) _ _ _ _) else _] => set (conn := b) end.
      destruct conn; cbn [mbind option_bind]; match goal with |- context [foldFields fs ?h1] => destruct (IH h1 Hc) as (h' & -> & I1 & I2 & I3 & I4 & I5) end; exists h'; cbn [hd_status hd_noBody hd_fields hd_chunked hd_contentLen orb] in *; rewrite I1, <- app_assoc; by split_and!.
Qed.
