(* ===== verification/FpH1Responses.v ===== *)
(** Whole responses of backends: infos, a head and a body in any framing, as a
    backend writes them, and what the parser makes of them when they arrive in
    pieces. *)
From stdpp Require Import base list numbers strings.
From Stdlib Require Import ZArith Lia ZifyBool.
From S2P Require Import Prelude Utils HttpText HpackDyn H1Scan H1Head H1HeadProofs FpH1 FpH1Proofs.

Open Scope list_scope.
Open Scope Z_scope.

(** ** What a backend writes *)

(** How a backend delimits the body: by a length, in chunks (each with what
    follows its size, and its bytes) with trailer lines, by closing, or not at
    all. *)
Inductive fpFraming := byLength (body : bytes) | byChunks (chunks : list (bytes * bytes)) (trailers : list bytes) | byClose (body : bytes) | bodiless.
Record fpHeadText := mkHeadText { ht_minor : Z; ht_status : Z; ht_reason : bytes; ht_fields : list field }.

Definition writeHead (t : fpHeadText) : bytes := headText (ht_minor t) (ht_status t) (ht_reason t) (ht_fields t) ++ fpCrlfcrlf.
Definition sizeLine (c : bytes * bytes) : bytes := appendHex [] (zlen c.2) ++ c.1.
Definition writeChunk (c : bytes * bytes) : bytes := sizeLine c ++ fpCRLF ++ c.2 ++ fpCRLF.
Definition trailerText (trailers : list bytes) : bytes := concat (map (fun t => t ++ fpCRLF) trailers) ++ fpCRLF.
Definition writeBody (f : fpFraming) : bytes :=
  match f with
  | byLength body | byClose body => body
  | byChunks chunks trailers => concat (map writeChunk chunks) ++ str "0" ++ fpCRLF ++ trailerText trailers
  | bodiless => []
  end.
Definition bodyOf (f : fpFraming) : bytes := match f with byLength body | byClose body => body | byChunks chunks _ => concat (map snd chunks) | bodiless => [] end.

Definition ext_ok (ext : bytes) : Prop := forallb cleanByte ext = true /\ (ext = [] \/ exists e, ext = 59 :: e).

Definition chunk_ok (c : bytes * bytes) : Prop := c.2 <> [] /\ zlen c.2 <= maxParsedLength /\ ext_ok c.1 /\ zlen (sizeLine c) + 1 < fpMaxChunkLine.

Section Whole.
Context (env : fpEnv).

Definition head_ok (t : fpHeadText) : Prop :=
  (ht_minor t = 48 \/ ht_minor t = 49) /\ 100 <= ht_status t <= 999 /\ forallb cleanByte (ht_reason t) = true /\ Forall field_ok (ht_fields t) /\ zlen (writeHead t) <= MaxHeaderBytes env.
Definition info_ok (t : fpHeadText) : Prop := head_ok t /\ ht_status t < 200 /\ ht_status t <> 101 /\ exists n, 0 <= n < 2 ^ 63 /\ framing_ok n (ht_fields t).
Definition isBodiless (t : fpHeadText) : bool := bytes_eqb (fe_method env) (str "HEAD") || (ht_status t =? 204) || (ht_status t =? 304).
(** What the proxy keeps of a response that it does not pass on is bounded. *)
Definition fits (contentLen : Z) (body : bytes) : Prop := fe_stream env contentLen = true \/ zlen body <= MaxResponseBody env.
Definition framed (t : fpHeadText) (f : fpFraming) : Prop :=
  let fs := ht_fields t in
  match f with
  | byLength body => isBodiless t = false /\ 0 <= zlen body < 2 ^ 63 /\ framing_ok (zlen body) fs /\ existsb (named (str "content-length")) fs = true /\ existsb (named (str "transfer-encoding")) fs = false /\ fits (zlen body) body
  | byChunks chunks trailers =>
      isBodiless t = false /\ (exists n, 0 <= n < 2 ^ 63 /\ framing_ok n fs) /\ existsb (named (str "transfer-encoding")) fs = true /\ fits (-1) (concat (map snd chunks)) /\
      Forall chunk_ok chunks /\ Forall cleanLine trailers /\ zlen (trailerText trailers) <= MaxHeaderBytes env
  | byClose body => isBodiless t = false /\ (exists n, 0 <= n < 2 ^ 63 /\ framing_ok n fs) /\ existsb (named (str "content-length")) fs = false /\ existsb (named (str "transfer-encoding")) fs = false /\ fits (-1) body
  | bodiless => isBodiless t = true /\ exists n, 0 <= n < 2 ^ 63 /\ framing_ok n fs
  end.

(** ** The head *)

Definition fresh (p : fpParser) : Prop := fp_phase p = h1PhaseHeaders /\ fp_hdr p = [] /\ fp_stream p = false /\ fp_trailerBytes p = 0 /\ fp_body p = [].

Lemma dropLength_fields h : hd_status (dropLength h) = hd_status h /\ hd_noBody (dropLength h) = hd_noBody h /\ hd_fields (dropLength h) = hd_fields h /\ hd_chunked (dropLength h) = hd_chunked h /\
  hd_contentLen (dropLength h) = if hd_chunked h then -1 else hd_contentLen h.
Proof. unfold dropLength. destruct (hd_chunked h) eqn:E; by rewrite ?E. Qed.

Lemma head_turn p k t n rest : fresh p -> head_ok t -> 0 <= n < 2 ^ 63 -> framing_ok n (ht_fields t) ->
  exists h, hd_status h = ht_status t /\ hd_noBody h = isBodiless t /\ hd_fields h = lowered (ht_fields t) /\ hd_chunked h = existsb (named (str "transfer-encoding")) (ht_fields t) /\
    hd_contentLen h = (if existsb (named (str "transfer-encoding")) (ht_fields t) then -1 else if existsb (named (str "content-length")) (ht_fields t) then n else -1) /\
    forall h', h' = h -> fpTurn env p (writeHead t ++ rest) k =
      (let p := fp_head p h' in
       if fp_status p =? 101 then ((p, rest, k), Some (if upgradeGranted (fe_ToLower env) (fp_hdr p) (forwardedUpgrade (rawRequest env) (fe_Upgrade env)) && beginTunnel env then fpTunnel else fpFail errFPBadResponse))
       else if (100 <=? fp_status p) && (fp_status p <? 200) then ((fp_clearHdr p, rest, k), None)
       else if fp_noBody p then ((p, rest, k), Some fpDone)
       else
         let p := fp_setStream p (fe_stream env (hd_contentLen h)) in
         let k := if fp_stream p then mkFpSink (Some (fp_status p, fp_hdr p, hd_contentLen h)) (sk_bytes k) else k in
         if hd_chunked h then ((fp_goto p h1PhaseChunkSize (fp_remaining p), rest, k), None)
         else if 0 <=? hd_contentLen h then
           if hd_contentLen h =? 0 then ((p, rest, k), Some fpDone)
           else if negb (fp_stream p) && (MaxResponseBody env <? hd_contentLen h) then ((p, rest, k), Some (fpFail errFPBodyTooLarge))
           else ((fp_goto p h1PhaseBodyCL (hd_contentLen h), rest, k), None)
         else ((fp_goto (fp_noKeepAlive p) h1PhaseBodyEOF (fp_remaining p), rest, k), None)).
Proof.
  intros (F1 & F2 & _) (Hm & Hs & Hr & Hf & Hmax) Hn Hfr. destruct (fold_framing n (ht_fields t) (head0 (ht_minor t) (ht_status t) (fe_method env)) Hn Hfr) as (h & E & I1 & I2 & I3 & I4 & I5); [by left |].
  exists (dropLength h). cbn [head0 hd_status hd_noBody hd_fields hd_chunked hd_contentLen orb app] in *. destruct (dropLength_fields h) as (D1 & D2 & D3 & D4 & D5).
  assert (P : parseHeaderBlock [] (headText (ht_minor t) (ht_status t) (ht_reason t) (ht_fields t)) (fe_method env) = Some (dropLength h)) by (rewrite parse_head by done; by rewrite E).
  split; [by rewrite D1 |]. split; [by rewrite D2 |]. split; [by rewrite D3 |]. split; [by rewrite D4 |]. split; [by rewrite D5, <- I4, <- I5 |]. intros h' ->. unfold fpTurn. rewrite F1, F2. cbv zeta. unfold writeHead in *. rewrite <- app_assoc.
  assert (Hst : cleanLine (statusText (ht_minor t) (ht_status t) (ht_reason t))) by by apply status_clean.
  assert (Hls : Forall cleanLine (map fieldText (ht_fields t))) by (apply List.Forall_map; eapply List.Forall_impl; [| exact Hf]; apply fieldText_clean).
  pose proof (bytesIndex_first _ _ _ (first_blank _ _ rest Hst Hls)) as Hb. fold (headText (ht_minor t) (ht_status t) (ht_reason t) (ht_fields t)) in Hb. set (hd := headText _ _ _ _) in *. clearbody hd. pose proof (zlen_nonneg hd). rewrite Hb.
  rewrite zlen_app in Hmax. change (zlen fpCrlfcrlf) with 4 in Hmax. replace (zlen hd <? 0) with false by lia. replace (MaxHeaderBytes env <? zlen hd + 4) with false by lia.
  rewrite ztake_app_exact, P. assert (zdrop (zlen hd + 4) (hd ++ fpCrlfcrlf ++ rest) = rest) as -> by (rewrite <- zdrop_zdrop by lia; rewrite zdrop_app_exact; apply (zdrop_app_exact fpCrlfcrlf)). done.
Qed.

Lemma info_turn p k t rest : fresh p -> info_ok t -> exists p', fresh p' /\ fpAdvance env p (writeHead t ++ rest) k = fpAdvance env p' rest k.
Proof.
  intros Hp (Ht & H2 & H3 & n & Hn & Hfr). destruct (head_turn p k t n rest Hp Ht Hn Hfr) as (h & S1 & S2 & S3 & _ & _ & E). specialize (E h eq_refl).
  rewrite advance_unfold by (unfold fp_ok; by destruct Hp as (-> & _)). rewrite E. cbv zeta. cbn [fp_head fp_status]. rewrite S1. destruct Ht as (_ & Hs & _). replace (ht_status t =? 101) with false by lia. replace ((100 <=? ht_status t) && (ht_status t <? 200)) with true by lia.
  eexists. split; [| reflexivity]. destruct Hp as (A & B & C & D & F). done.
Qed.
(** ** The body *)

Section Body.
Context (status : Z) (fs : list field) (contentLen : Z).

(** The head is known, and so much of the body came: to the sink, or into the
    buffer. *)
Definition holding (body : bytes) (p : fpParser) (k : fpSink) : Prop :=
  fp_status p = status /\ fp_hdr p = fs /\ fp_stream p = fe_stream env contentLen /\
  if fe_stream env contentLen then k = mkFpSink (Some (status, fs, contentLen)) body else fp_body p = body /\ k = mkFpSink None [].

Lemma holding_goto body p k phase remaining : holding body p k -> holding body (fp_goto p phase remaining) k.
Proof. done. Qed.

Lemma holding_emit body p k d p' k' : holding body p k -> fpEmit p k d = (p', k') -> holding (body ++ d) p' k' /\ fp_trailerBytes p' = fp_trailerBytes p.
Proof.
  intros (H1 & H2 & H3 & H4) E. unfold fpEmit in E. rewrite H3 in E. unfold holding. destruct (fe_stream env contentLen) eqn:Es; injection E as <- <-; [subst k; by rewrite H1, H2, H3 |].
  destruct H4 as [<- ->]. cbn. by rewrite H1, H2, H3.
Qed.

(** A part of known length, when it is all there. *)
Lemma body_whole body p k d rest : holding body p k -> fp_remaining p = zlen d ->
  exists p' k', bodyTurn p k (d ++ rest) = (p', rest, k') /\ holding (body ++ d) p' k' /\ fp_remaining p' = 0 /\ fp_phase p' = fp_phase p /\ fp_trailerBytes p' = fp_trailerBytes p.
Proof.
  intros Hh Hr. unfold bodyTurn. rewrite Hr, zlen_app. pose proof (zlen_nonneg rest). replace (Z.min (zlen d) (zlen d + zlen rest)) with (zlen d) by lia. rewrite ztake_app_exact, zdrop_app_exact.
  destruct (fpEmit p k d) as [p1 k1] eqn:Ee. pose proof (emit_fields _ _ _ _ _ Ee) as (E1 & E2 & _). destruct (holding_emit _ _ _ _ _ _ Hh Ee) as [Hh1 Ht]. eexists _, _. split; [done |]. split; [done |]. cbn [fp_goto fp_remaining fp_phase fp_trailerBytes]. split; [lia | done].
Qed.

(** ** Lines *)

Lemma line_found l rest : forallb cleanByte l = true -> IndexByte (l ++ fpCRLF ++ rest) 10 = zlen l + 1.
Proof. intros H. replace (l ++ fpCRLF ++ rest) with ((l ++ [13]) ++ 10 :: rest) by (rewrite <- app_assoc; done). rewrite index_first; [by rewrite zlen_snoc |]. rewrite not_elem_of_app. split; [by eapply clean_no | intros Hin; apply list_elem_of_singleton in Hin; done]. Qed.

Lemma line_stripped l rest : let line := ztake (zlen l + 1) (l ++ fpCRLF ++ rest) in
  (if (0 <? zlen line) && (znth line (zlen line - 1) =? 13) then ztake (zlen line - 1) line else line) = l /\ zdrop (zlen l + 1 + 1) (l ++ fpCRLF ++ rest) = rest.
Proof.
  pose proof (zlen_nonneg l). replace (l ++ fpCRLF ++ rest) with ((l ++ [13]) ++ 10 :: rest) by (rewrite <- app_assoc; done). rewrite <- zlen_snoc with (x := 13). rewrite ztake_app_exact. cbv zeta. split; [| apply zdrop_cons].
  rewrite zlen_snoc. replace (0 <? zlen l + 1) with true by lia. replace (zlen l + 1 - 1) with (zlen l) by lia. assert (znth (l ++ [13]) (zlen l) = 13) as -> by (unfold znth, zlen; rewrite Nat2Z.id, app_nth2, Nat.sub_diag by lia; done). cbn [Z.eqb Pos.eqb andb]. by rewrite ztake_app_exact.
Qed.

Lemma dropSeqs_none fuel seqs c s : forallb (fun q => match q with d :: _ => negb (c =? d) | [] => false end) seqs = true -> dropSeqs fuel seqs (c :: s) = c :: s.
Proof.
  intros H. destruct fuel as [| fuel]; [done |]. cbn [dropSeqs]. assert (List.find (fun q => bytes_eqb (ztake (zlen q) (c :: s)) q) seqs = None) as ->; [| done]. induction seqs as [| q seqs IH]; [done |].
  cbn [forallb] in H. apply andb_true_iff in H as [Hq H]. cbn [List.find]. assert (bytes_eqb (ztake (zlen q) (c :: s)) q = false) as ->; [| by apply IH]. destruct q as [| d q]; [done |]. unfold bytes_eqb. apply bool_decide_false. unfold ztake, zlen. cbn [length]. rewrite Nat2Z.id. cbn [take]. injection 1. lia.
Qed.

Lemma hex_trim s : s <> [] -> forallb hexValid s = true -> fpTrimSpace s = s.
Proof.
  intros Hs Hv. assert (D : forall c t seqs, hexValid c = true -> seqs = spaceSeqs \/ seqs = map (@rev Z) spaceSeqs -> forall fuel, dropSeqs fuel seqs (c :: t) = c :: t).
  { intros c t seqs Hc Hq fuel. apply dropSeqs_none. unfold hexValid in Hc. assert (Hr : In c (map Z.of_nat (seq 48 10 ++ seq 65 6 ++ seq 97 6))) by (apply in_map_iff; exists (Z.to_nat c); split; [lia |]; rewrite !in_app_iff, !in_seq; lia). clear - Hr Hq. destruct Hq as [-> | ->]; cbn in Hr; repeat destruct Hr as [<- | Hr]; done. }
  unfold fpTrimSpace. destruct s as [| c s]; [done |]. cbn [forallb] in Hv. apply andb_true_iff in Hv as [Hc Hv]. rewrite (D c s spaceSeqs Hc) by by left. cbv zeta.
  assert (Hr : forallb hexValid (rev (c :: s)) = true) by (apply forallb_forall; intros x Hx; apply in_rev in Hx; destruct Hx as [<- | Hx]; [done |]; rewrite forallb_forall in Hv; by apply Hv). rewrite <- (rev_involutive (c :: s)) at 3. f_equal. destruct (rev (c :: s)) as [| d r]; [by destruct (length (c :: s)) |].
  cbn [forallb] in Hr. apply andb_true_iff in Hr as [Hd _]. apply (D d r); [done | by right].
Qed.

(** The line of a size, with an extension or not. *)
Lemma size_turn body p k n ext rest : fp_phase p = h1PhaseChunkSize -> holding body p k -> 0 <= n <= maxParsedLength -> ext_ok ext -> zlen (appendHex [] n ++ ext) + 1 < fpMaxChunkLine ->
  (fe_stream env contentLen = false -> zlen body + n <= MaxResponseBody env) ->
  fpTurn env p ((appendHex [] n ++ ext) ++ fpCRLF ++ rest) k = ((if n =? 0 then fp_goto p h1PhaseTrailers (fp_remaining p) else fp_goto p h1PhaseChunkData n, rest, k), None).
Proof.
  intros Hp (_ & _ & Hst & Hb) Hn [He Hext] Hmax Hfit. change maxParsedLength with (2 ^ 50) in Hn. destruct (appendHex_spells [] n) as (s & Es & [Hv Hh] & Hl & _); [lia |]. cbn [app] in Es. rewrite Es in *.
  assert (Hsc : forallb cleanByte s = true) by (apply forallb_forall; intros c Hc; rewrite forallb_forall in Hv; specialize (Hv c Hc); unfold hexValid in Hv; unfold cleanByte; lia).
  assert (Hc : forallb cleanByte (s ++ ext) = true) by by rewrite forallb_app, Hsc. unfold fpTurn. rewrite Hp, line_found by done. cbv zeta. pose proof (zlen_nonneg (s ++ ext)).
  replace (zlen (s ++ ext) + 1 <? 0) with false by lia. replace (fpMaxChunkLine <=? zlen (s ++ ext) + 1) with false by lia. destruct (line_stripped (s ++ ext) rest) as [L1 L2]. cbv zeta in L1. rewrite L1, L2.
  assert (Hsemi : 59 ∉ s) by (intros Hin; apply list_elem_of_In in Hin; rewrite forallb_forall in Hv; specialize (Hv 59 Hin); done).
  assert ((if 0 <=? IndexByte (s ++ ext) 59 then ztake (IndexByte (s ++ ext) 59) (s ++ ext) else s ++ ext) = s) as ->.
  { destruct Hext as [-> | (e & ->)]; [rewrite app_nil_r, index_absent by done; done |]. rewrite index_first by done. replace (0 <=? zlen s) with true by lia. apply ztake_app_exact. }
  rewrite hex_trim; [| intros ->; change (zlen (@nil Z)) with 0 in Hl; lia | done]. rewrite parse_hex_spec, Hv, Hh. replace (0 <? zlen s) with true by lia. change maxParsedLength with (2 ^ 50). replace (n <=? 2 ^ 50) with true by lia. cbn [andb].
  destruct (n =? 0); [done |]. rewrite Hst. destruct (fe_stream env contentLen) eqn:Ef; cbn [negb andb]; [done |]. destruct Hb as [-> _]. specialize (Hfit eq_refl). by replace (MaxResponseBody env - zlen body <? n) with false by lia.
Qed.

(** A chunk, taken in three turns. *)
Lemma chunk_advance body p k c rest : fp_phase p = h1PhaseChunkSize -> holding body p k -> c.2 <> [] -> zlen c.2 <= maxParsedLength -> ext_ok c.1 -> zlen (sizeLine c) + 1 < fpMaxChunkLine ->
  (fe_stream env contentLen = false -> zlen (body ++ c.2) <= MaxResponseBody env) ->
  exists p' k', fpAdvance env p (writeChunk c ++ rest) k = fpAdvance env p' rest k' /\ fp_phase p' = h1PhaseChunkSize /\ holding (body ++ c.2) p' k' /\ fp_trailerBytes p' = fp_trailerBytes p.
Proof.
  intros Hp Hh Hne Hlen Hext Hmax Hfit. apply zlen_pos_nil in Hne. unfold writeChunk. rewrite <- !app_assoc. rewrite advance_unfold by (unfold fp_ok; by rewrite Hp).
  unfold sizeLine in *. rewrite (size_turn body) by (done || lia || (intros Hf; specialize (Hfit Hf); rewrite zlen_app in Hfit; lia)). replace (zlen c.2 =? 0) with false by lia.
  set (p1 := fp_goto p h1PhaseChunkData (zlen c.2)). rewrite advance_unfold by (unfold fp_ok; cbn; lia). rewrite body_turn by by right. rewrite zlen_app. pose proof (zlen_nonneg (fpCRLF ++ rest)). replace (zlen c.2 + zlen (fpCRLF ++ rest) =? 0) with false by lia.
  destruct (body_whole body p1 k c.2 (fpCRLF ++ rest) Hh eq_refl) as (p2 & k2 & -> & H2 & R2 & P2 & T2). rewrite bool_decide_false by done. rewrite R2. change (0 =? 0) with true. cbv iota.
  rewrite advance_unfold by done. unfold fpTurn. cbn [fp_goto fp_phase fpCRLF app]. rewrite !zlen_cons. pose proof (zlen_nonneg rest). replace (1 + (1 + zlen rest) <? 2) with false by lia. change (znth (13 :: 10 :: rest) 0) with 13. change (znth (13 :: 10 :: rest) 1) with 10. change (13 =? 13) with true. change (10 =? 10) with true. cbn [negb orb].
  change (zdrop 2 (13 :: 10 :: rest)) with rest. eexists _, _. split; [reflexivity |]. done.
Qed.

Lemma trailer_turn p k l rest : fp_phase p = h1PhaseTrailers -> forallb cleanByte l = true -> fp_trailerBytes p + zlen l + 2 <= MaxHeaderBytes env ->
  fpTurn env p (l ++ fpCRLF ++ rest) k = ((fp_trailer p (zlen l + 2), rest, k), if zlen l =? 0 then Some fpDone else None).
Proof.
  intros Hp Hc Hb. pose proof (zlen_nonneg l). unfold fpTurn. rewrite Hp, line_found by done. cbv zeta. replace (zlen l + 1 <? 0) with false by lia. replace (MaxHeaderBytes env - fp_trailerBytes p <=? zlen l + 1) with false by lia.
  destruct (line_stripped l rest) as [L1 L2]. cbv zeta in L1. rewrite L1, L2. by replace (zlen l + 1 + 1) with (zlen l + 2) by lia.
Qed.

Lemma trailers_advance ts body p k extra : fp_phase p = h1PhaseTrailers -> holding body p k -> Forall cleanLine ts -> fp_trailerBytes p + zlen (trailerText ts) <= MaxHeaderBytes env ->
  exists p', fpAdvance env p (trailerText ts ++ extra) k = Some (p', extra, k, fpDone) /\ holding body p' k.
Proof.
  intros Hp Hh Hts. revert p Hp Hh. induction Hts as [| t ts [Ht Hc] Hts IH]; intros p Hp Hh Hb; unfold trailerText in *; cbn [map concat app] in *; (rewrite advance_unfold by (unfold fp_ok; by rewrite Hp)).
  - change (fpCRLF ++ extra) with ([] ++ fpCRLF ++ extra). change (zlen fpCRLF) with 2 in Hb. rewrite trailer_turn by (done || (change (zlen (@nil Z)) with 0; lia)). by eexists.
  - rewrite !zlen_app in Hb. change (zlen fpCRLF) with 2 in Hb. pose proof (zlen_nonneg (concat (map (fun t => t ++ fpCRLF) ts))). rewrite <- !app_assoc, trailer_turn by (done || lia). apply zlen_pos_nil in Ht. replace (zlen t =? 0) with false by lia.
    rewrite app_assoc. apply IH; [done | done |]. cbn [fp_trailer fp_trailerBytes]. rewrite zlen_app. change (zlen fpCRLF) with 2. lia.
Qed.

(** The whole of a chunked body. *)
Lemma chunks_advance chunks ts body p k extra : fp_phase p = h1PhaseChunkSize -> fp_trailerBytes p = 0 -> holding body p k -> Forall chunk_ok chunks -> Forall cleanLine ts -> zlen (trailerText ts) <= MaxHeaderBytes env ->
  fe_stream env contentLen = true \/ zlen (body ++ concat (map snd chunks)) <= MaxResponseBody env ->
  exists p' k', fpAdvance env p (writeBody (byChunks chunks ts) ++ extra) k = Some (p', extra, k', fpDone) /\ holding (body ++ concat (map snd chunks)) p' k'.
Proof.
  intros Hp Ht Hh Hcs Hts Hmax. revert body p k Hp Ht Hh. induction Hcs as [| c cs (C1 & C2 & C3 & C4) Hcs IH]; intros body p k Hp Ht Hh Hfit; cbn [writeBody map concat] in *.
  - rewrite app_nil_r in *. cbn [app]. rewrite advance_unfold by (unfold fp_ok; by rewrite Hp). assert ((str "0" ++ fpCRLF ++ trailerText ts) ++ extra = (appendHex [] 0 ++ []) ++ fpCRLF ++ trailerText ts ++ extra) as -> by done. rewrite (size_turn body); [| done | done | done | split; [done | by left] | done | intros E; destruct Hfit; [congruence | lia]].
    change (0 =? 0) with true. cbv iota. destruct (trailers_advance ts body (fp_goto p h1PhaseTrailers (fp_remaining p)) k extra) as (p' & E & H'); [done | done | done | cbn; lia |]. by exists p', k.
  - rewrite <- !app_assoc. destruct (chunk_advance body p k c (concat (map writeChunk cs) ++ str "0" ++ fpCRLF ++ trailerText ts ++ extra)) as (p' & k' & -> & P1 & P2 & P3); try done.
    { intros E. destruct Hfit as [| Hfit]; [congruence |]. rewrite !zlen_app in *. pose proof (zlen_nonneg (concat (map snd cs))). lia. }
    destruct (IH (body ++ c.2) p' k' P1 ltac:(congruence) P2) as (p'' & k'' & E & H''); [by rewrite <- app_assoc |]. rewrite <- !app_assoc in E. exists p'', k''. split; [exact E |]. by rewrite app_assoc.
Qed.
End Body.

(** ** Infos, the head and its body *)

Lemma infos_advance infos p k rest : fresh p -> Forall info_ok infos -> exists p', fresh p' /\ fpAdvance env p (concat (map writeHead infos) ++ rest) k = fpAdvance env p' rest k.
Proof.
  intros Hp Hi. revert p Hp. induction Hi as [| t infos Ht Hi IH]; intros p Hp; [by exists p |]. cbn [map concat]. rewrite <- app_assoc. destruct (info_turn p k t (concat (map writeHead infos) ++ rest) Hp Ht) as (p1 & H1 & ->). by apply IH.
Qed.

Definition lengthOf (f : fpFraming) : Z := match f with byLength body => zlen body | _ => -1 end.

Lemma response_advance p t f extra : fresh p -> head_ok t -> 200 <= ht_status t -> framed t f -> (match f with byClose _ => extra = [] | _ => True end) ->
  exists p' k' r, fpAdvance env p (writeHead t ++ writeBody f ++ extra) (mkFpSink None []) = Some (p', extra, k', r) /\
    match f with
    | bodiless => r = fpDone /\ fp_status p' = ht_status t /\ fp_hdr p' = lowered (ht_fields t) /\ fp_stream p' = false /\ fp_body p' = [] /\ k' = mkFpSink None []
    | _ => holding (ht_status t) (lowered (ht_fields t)) (lengthOf f) (bodyOf f) p' k' /\ match f with byClose _ => r = fpMore /\ fp_phase p' = h1PhaseBodyEOF | _ => r = fpDone end
    end.
Proof.
  intros Hp Ht H2 Hf Hx. assert (Hn : exists n, 0 <= n < 2 ^ 63 /\ framing_ok n (ht_fields t) /\ match f with byLength body => n = zlen body | _ => True end).
  { destruct f; cbn in Hf; [exists (zlen body); tauto | | |]; destruct Hf as (_ & Hf); first [destruct Hf as ((n & Hn & Hfr) & _) | destruct Hf as (n & Hn & Hfr)]; by exists n. }
  destruct Hn as (n & Hn & Hfr & Hlen). destruct (head_turn p (mkFpSink None []) t n (writeBody f ++ extra) Hp Ht Hn Hfr) as (h & S1 & S2 & S3 & S4 & S5 & E). specialize (E h eq_refl).
  destruct Hp as (P1 & P2 & P3 & P4 & P5). rewrite advance_unfold by (unfold fp_ok; by rewrite P1). rewrite E. clear E. cbv zeta. cbn [fp_head fp_status fp_noBody fp_hdr fp_setStream fp_stream fp_remaining sk_bytes]. rewrite S1, S2, S3, S4, S5.
  replace (ht_status t =? 101) with false by lia. replace ((100 <=? ht_status t) && (ht_status t <? 200)) with false by lia.
  destruct f as [body | chunks trailers | body |]; cbn [framed] in Hf.
  all: assert (Hbegin : forall cl, holding (ht_status t) (lowered (ht_fields t)) cl [] (fp_setStream (fp_head p h) (fe_stream env cl)) (if fe_stream env cl then mkFpSink (Some (ht_status t, lowered (ht_fields t), cl)) [] else mkFpSink None [])) by (intros cl; unfold holding; cbn; destruct (fe_stream env cl); tauto).
  - destruct Hf as (-> & _ & _ & -> & -> & Hfit). subst n. cbv iota. pose proof (zlen_nonneg body). replace (0 <=? zlen body) with true by lia. cbn [lengthOf bodyOf writeBody]. specialize (Hbegin (zlen body)). unfold fits in Hfit.
    replace (negb (fe_stream env (zlen body)) && (MaxResponseBody env <? zlen body)) with false by (destruct Hfit as [-> |]; [done | lia]). set (p1 := fp_setStream _ _) in *. set (k1 := if fe_stream _ _ then _ else _) in *. clearbody p1 k1.
    destruct (zlen body =? 0) eqn:E0. { destruct body; [| rewrite zlen_cons in E0; pose proof (zlen_nonneg body); lia]. by eexists _, _, _. }
    rewrite advance_unfold by (unfold fp_ok; cbn; lia). rewrite body_turn by by left. rewrite zlen_app. pose proof (zlen_nonneg extra). replace (zlen body + zlen extra =? 0) with false by lia.
    destruct (body_whole _ _ _ [] (fp_goto p1 h1PhaseBodyCL (zlen body)) k1 body extra Hbegin eq_refl) as (p2 & k2 & -> & H3 & R2 & _). rewrite bool_decide_true by done. rewrite R2. change (0 =? 0) with true. by eexists _, _, _.
  - destruct Hf as (-> & _ & -> & Hfit & Hcs & Hts & Hmax). cbv iota. specialize (Hbegin (-1)). set (p1 := fp_setStream _ _) in *. set (k1 := if fe_stream _ _ then _ else _) in *. cbn [lengthOf bodyOf].
    destruct (chunks_advance _ _ _ chunks trailers [] (fp_goto p1 h1PhaseChunkSize (fp_remaining p)) k1 extra eq_refl P4 Hbegin Hcs Hts Hmax Hfit) as (p' & k' & -> & H'). by eexists _, _, _.
  - subst extra. rewrite app_nil_r. destruct Hf as (-> & _ & -> & -> & Hfit). cbv iota. specialize (Hbegin (-1)). change (0 <=? -1) with false. cbv iota. cbn [lengthOf bodyOf writeBody]. set (p1 := fp_setStream _ _) in *. set (k1 := if fe_stream _ _ then _ else _) in *.
    rewrite advance_unfold by done. unfold fpTurn. cbn [fp_goto fp_noKeepAlive fp_phase fp_stream fp_body]. pose proof (zlen_nonneg body). destruct (0 <? zlen body) eqn:E0.
    + assert (Hs : fp_stream p1 = fe_stream env (-1)) by apply Hbegin. assert (Hb : fp_body p1 = []) by done. rewrite Hs, Hb. change (zlen (@nil Z)) with 0. replace (negb (fe_stream env (-1)) && (MaxResponseBody env <? 0 + zlen body)) with false by (unfold fits in Hfit; destruct Hfit as [-> |]; [done | lia]).
      match goal with |- context [fpEmit ?q k1 body] => set (p2 := q); destruct (fpEmit p2 k1 body) as [p3 k3] eqn:Ee end. destruct (holding_emit _ _ _ [] p2 k1 body p3 k3 Hbegin Ee) as [H3 _]. apply emit_fields in Ee as (E1 & _). by eexists _, _, _.
    + destruct body; [| rewrite zlen_cons in E0; pose proof (zlen_nonneg body); lia]. by eexists _, _, _.
  - destruct Hf as (-> & _). cbn [writeBody app]. by eexists _, _, _.
Qed.
End Whole.

(** ** Exchanges *)

Section Exchange.
Context (env : fpEnv).

(** The response as the exchange hands it over. *)
Definition responseSeen (t : fpHeadText) (f : fpFraming) : fpSeen :=
  let streamed := match f with bodiless => false | _ => fe_stream env (lengthOf f) end in
  let fs := lowered (ht_fields t) in
  seenResponse (ht_status t) fs (if streamed then [] else bodyOf f) (if streamed then mkFpSink (Some (ht_status t, fs, lengthOf f)) (bodyOf f) else mkFpSink None []) streamed.

(** A connection that is open when its exchange has a response has nothing left
    to read, and its request was sent. *)
Definition idle_ok (inc : bool) (c : fpConn) : Prop :=
  c_bodyIncomplete c = inc /\ match c_outcome c with fpCompleted _ => c_open c = true -> c_rbuf c = [] /\ inc = false | _ => True end.

Lemma complete_idle c : idle_ok (c_bodyIncomplete c) (completeH1 c).
Proof.
  split; [done |]. cbn. unfold canIdle. destruct (c_bodyIncomplete c); cbn [fp_noKeepAlive fp_keepAlive andb]; [done |]. intros H. apply andb_true_iff in H as [_ H]. split; [| done]. destruct (c_rbuf c) as [| b rbuf]; [done |]. rewrite zlen_cons in H. pose proof (zlen_nonneg rbuf). lia.
Qed.

Lemma close_idle inc c e : idle_ok inc c -> idle_ok inc (fpCloseConn c e).
Proof. intros [H1 H2]. unfold fpCloseConn. destruct (c_open c) eqn:E; cbn [negb]; [| split; [done | by rewrite E]]. split; [done |]. cbn. by destruct (c_outcome c). Qed.

Lemma read_idle inc c data c' : idle_ok inc c -> fpRead env c data = Some c' -> idle_ok inc c'.
Proof.
  intros Hi H. unfold fpRead in H. destruct (c_open c) eqn:Eo; cbn [negb] in H; [| by injection H as <-]. unfold onData in H. destruct (c_outcome c) eqn:E; [| | by destruct Hi; injection H as <- |].
  - destruct Hi as [<- _]. destruct (fpAdvance env _ _ _) as [[[[p rbuf] k] r] |]; [| done]. destruct r; injection H as <-; [done | apply (complete_idle (mkFpConn p rbuf k (c_bodyIncomplete c) fpPending (c_open c))) | done | by apply close_idle].
  - destruct Hi. injection H as <-. split; [unfold fpCloseConn; by destruct (negb _) |]. unfold fpCloseConn. cbn. by rewrite Eo.
  - destruct Hi. injection H as <-. split; [unfold fpCloseConn; by destruct (negb _) |]. unfold fpCloseConn. cbn. by rewrite Eo.
Qed.

Lemma run_idle inc pieces c c' : idle_ok inc c -> fpRun env c pieces = Some c' -> idle_ok inc c'.
Proof.
  revert c. induction pieces as [| d pieces IH]; intros c Hi H; [by injection H as <- |]. cbn [fpRun] in H. destruct (fpRead env c d) as [c1 |] eqn:E; [| done]. eapply IH; [| exact H]. by eapply read_idle.
Qed.

Lemma holding_seen inc t f p k rbuf : match f with bodiless => False | _ => True end -> holding env (ht_status t) (lowered (ht_fields t)) (lengthOf f) (bodyOf f) p k ->
  seen (completeH1 (waiting p rbuf k inc)) = responseSeen t f.
Proof.
  intros Hb (H1 & H2 & H3 & H4). unfold seen, completeH1, responseSeen, waiting. cbn [c_outcome c_bodyIncomplete c_parser c_sink rs_status rs_hdr rs_body rs_sink rs_streamed].
  assert (E : forall q, q = (if inc then fp_noKeepAlive p else p) -> fp_status q = fp_status p /\ fp_hdr q = fp_hdr p /\ fp_stream q = fp_stream p /\ fp_body q = fp_body p) by (intros q ->; by destruct inc). destruct (E _ eq_refl) as (-> & -> & -> & ->).
  rewrite H1, H2, H3. destruct f; try done; destruct (fe_stream env _); try (subst k; done); destruct H4 as [-> ->]; done.
Qed.

(** All of it at once, and then the close that ends it. *)
Definition ended (f : fpFraming) (c : fpConn) : fpConn := match f with byClose _ => peerClosed c | _ => c end.

Lemma response_once inc infos t f extra : Forall (info_ok env) infos -> head_ok env t -> 200 <= ht_status t -> framed env t f -> (match f with byClose _ => extra = [] | _ => True end) ->
  exists c, fpRead env (fpStart inc) (concat (map writeHead infos) ++ writeHead t ++ writeBody f ++ extra) = Some c /\ seen (ended f c) = responseSeen t f /\ (c_outcome c = fpPending <-> exists body, f = byClose body).
Proof.
  intros Hi Ht H2 Hf Hx. unfold fpStart. fold (waiting fpReset [] (mkFpSink None []) inc). rewrite read_finish. cbn [app]. destruct (infos_advance env infos fpReset (mkFpSink None []) (writeHead t ++ writeBody f ++ extra)) as (p & Hp & ->); [done | done |].
  destruct (response_advance env p t f extra Hp Ht H2 Hf Hx) as (p' & k' & r & -> & Hr). eexists. split; [reflexivity |].
  destruct f as [body | chunks ts | body |]; cbn [ended].
  - destruct Hr as [Hh ->]. split; [by apply (holding_seen inc t (byLength body)) | split; [done | by intros (? & ?)]].
  - destruct Hr as [Hh ->]. split; [by apply (holding_seen inc t (byChunks chunks ts)) | split; [done | by intros (? & ?)]].
  - destruct Hr as (Hh & -> & Hph). subst extra. split; [| split; [intros _; by exists body | done]]. unfold peerClosed, onPeerClose. cbn [finish waiting c_outcome c_parser]. rewrite bool_decide_true by done. fold (waiting p' [] k' inc).
    rewrite <- (holding_seen inc t (byClose body) p' k' [] I Hh). unfold fpCloseConn. by destruct (c_open (completeH1 (waiting p' [] k' inc))).
  - destruct Hr as (-> & R1 & R2 & R3 & R4 & ->). split; [| split; [done | by intros (? & ?)]]. unfold responseSeen, seen, finish, completeH1. cbn. destruct inc; cbn; by rewrite R1, R2, R3, R4.
Qed.
End Exchange.

(** C4: a response of a backend is read the same however the network cuts it: for
    any bytes in any pieces the parser never gets stuck, and hands over the same
    response, tunnel with the bytes relayed through it, error or wait as for all
    bytes at once, with the connection open or closed alike. When a backend writes
    informational heads, then a head with a well-formed framing (a length, chunks
    with extensions and trailers, the end of the connection, or no body) within
    the limits, then the exchange ends with its status, its fields in order with
    names in lower case, and exactly its body, buffered or passed to the sink,
    whatever bytes follow. A connection that is still open after a response
    has no byte left over and its request was sent, so the next exchange on it
    starts as on a new connection. *)
Theorem backend_responses env inc :
  (forall pieces, pieces <> [] -> Forall (fun d => d <> []) pieces ->
    exists c c', fpRun env (fpStart inc) pieces = Some c /\ fpRead env (fpStart inc) (concat pieces) = Some c' /\ seen c = seen c' /\ c_open c = c_open c') /\
  (forall infos t f extra pieces, Forall (info_ok env) infos -> head_ok env t -> 200 <= ht_status t -> framed env t f -> (match f with byClose _ => extra = [] | _ => True end) ->
    Forall (fun d => d <> []) pieces -> concat pieces = concat (map writeHead infos) ++ writeHead t ++ writeBody f ++ extra ->
    exists c, fpRun env (fpStart inc) pieces = Some c /\ seen (ended f c) = responseSeen env t f) /\
  (forall pieces c r next, fpRun env (fpStart inc) pieces = Some c -> c_outcome c = fpCompleted r -> c_open c = true -> inc = false /\ fpAttach c next = fpStart next).
Proof.
  split_and!.
  - intros pieces Hne Hps. destruct (run_pieces env pieces fpReset [] (mkFpSink None []) inc I Hne Hps) as (c & c' & H1 & H2 & H3 & H4 & _). by exists c, c'.
  - intros infos t f extra pieces Hi Ht H2 Hf Hx Hps Hc. destruct (response_once env inc infos t f extra Hi Ht H2 Hf Hx) as (c1 & E1 & S1 & Hpend). rewrite <- Hc in E1.
    assert (Hne : pieces <> []) by (intros ->; cbn in Hc; symmetry in Hc; apply app_nil in Hc as [_ Hc]; apply app_nil in Hc as [Hc _]; unfold writeHead in Hc; by apply app_nil in Hc as [_ Hc]).
    destruct (run_pieces env pieces fpReset [] (mkFpSink None []) inc I Hne Hps) as (c & c' & R1 & R2 & S2 & _ & S3). fold (waiting fpReset [] (mkFpSink None []) inc) in *. change (waiting fpReset [] (mkFpSink None []) inc) with (fpStart inc) in *. rewrite E1 in R2. injection R2 as <-.
    exists c. split; [done |]. rewrite <- S1. destruct f; try exact S2. assert (P : c_outcome c1 = fpPending) by (apply Hpend; by eexists). rewrite (S3 ltac:(unfold seen in S2; rewrite P in S2; by destruct (c_outcome c))). done.
  - intros pieces c r next Hr Ho Hopen. destruct (run_idle env inc pieces (fpStart inc) c) as [_ H]; [done | done |]. rewrite Ho in H. destruct (H Hopen) as [H1 ->]. split; [done |]. unfold fpAttach, fpStart. by rewrite H1, Hopen.
Qed.

Lemma backend_responses_witness :
  let env := mkFpEnv (str "GET") None [] false (fun n => n <? 0) 4096 1024 (fun s => s) in
  let info := mkHeadText 49 103 (str "Early Hints") [(str "Link", str "</a.css>")] in
  let t := mkHeadText 49 200 (str "OK") [(str "Content-Type", str "text/plain"); (str "Transfer-Encoding", str "chunked")] in
  let f := byChunks [(str ";x=1", str "Hello, "); ([], str "world")] [str "ETag: 1"] in
  let all := concat (map writeHead [info]) ++ writeHead t ++ writeBody f ++ [] in
  exists c, fpRun env (fpStart false) [ztake 30 all; ztake 70 (zdrop 30 all); zdrop 100 all] = Some c /\
    seen (ended f c) = seenResponse 200 [(str "content-type", str "text/plain"); (str "transfer-encoding", str "chunked")] []
      (mkFpSink (Some (200, [(str "content-type", str "text/plain"); (str "transfer-encoding", str "chunked")], -1)) (str "Hello, world")) true.
Proof.
  intros env info t f all. destruct (proj1 (proj2 (backend_responses env false)) [info] t f [] [ztake 30 all; ztake 70 (zdrop 30 all); zdrop 100 all]) as (c & H1 & H2).
  - constructor; [| constructor]. split; [| split; [vm_compute; done | split; [vm_compute; done |]]].
    + split; [by right |]. split; [vm_compute; split; discriminate |]. split; [vm_compute; done |]. split; [repeat constructor; vm_compute; discriminate | vm_compute; discriminate].
    + exists 0. split; [lia |]. repeat constructor; vm_compute; discriminate.
  - split; [by right |]. split; [vm_compute; split; discriminate |]. split; [vm_compute; done |]. split; [repeat constructor; vm_compute; discriminate | vm_compute; discriminate].
  - vm_compute. discriminate.
  - split; [vm_compute; done |]. split; [exists 0; split; [lia |]; repeat constructor; vm_compute; done || discriminate |]. split; [vm_compute; done |]. split; [by left |].
    split; [| split; [repeat constructor; vm_compute; discriminate | vm_compute; discriminate]].
    constructor; [| constructor; [| constructor]]; (split; [discriminate |]; split; [vm_compute; discriminate |]; split; [split; [vm_compute; done |] | vm_compute; done]); [right; by eexists | by left].
  - done.
  - repeat constructor; vm_compute; discriminate.
  - vm_compute. reflexivity.
  - exists c. split; [exact H1 |]. rewrite H2. vm_compute. reflexivity.
Defined.
